(* ===== verification/_CoqProject ===== *)
-Q . S2P
Prelude.v
Double.v
Stats.v
Inodes.v
Keys.v
CacheObject.v
Beacon.v
LoadVec.v
Matching.v
LuaGlue.v
Exports.v
Popularity.v
Balancer.v
Subtree.v
SubtreeRename.v
Dentries.v
Freeze.v
Versions.v
Commit.v
Tidy.v
CommitMachine.v
Fetch.v
Fragment.v
Refragment.v
FragmentPins.v
SplitMerge.v
Migration.v
DirFreeze.v
Fragmenting.v
FragmentFreeze.v
FragmentSafe.v
FragmentProtocol.v
FragmentStale.v
FragmentJournal.v
Daemon.v
DaemonProtocol.v
Dispatch.v
Sessions.v
Admin.v
ConfigOpts.v
Config.v
ConfigTyped.v
ConfigExpand.v
ConfigText.v
ConfigNotify.v
Readdir.v
ReaddirSpec.v
ClientReaddir.v
ClientListing.v
ListingSystem.v
ServerSessions.v
SessionMachine.v
SessionSystem.v
