(* ===== verification/Prelude.v ===== *)
(** * Verification of the Mantle metadata server

    The repository holds the Ceph metadata server (MDS) with Mantle's programmable load
    balancer.  Ranks of the MDS share a hierarchy of directories, cut into subtrees with one
    authority each; the balancer measures load, exchanges it in heartbeats, decides which rank
    sends how much to which, and picks the directory fragments to send.  Fragments live in the
    cache, are read from and written to objects, split and merged, and listed by clients.  The
    daemon follows the map of the monitor, dispatches messages and is configured by options.

    ** Parts of the program and files of the library

    - [Prelude] (this file): results with aborts, integers at their width, ordered containers.
    - [Double]: C doubles, as IEEE binary64 and as exact rationals behind one interface.
    - [Stats], [Inodes], [Keys] (mdstypes.h): directory statistics, the inode record, the keys
      of dentries, requests and fragments with their order and on-disk spelling.
    - [CacheObject] (mdstypes.h, [MDSCacheObject]): state bits, the reference count and its
      pins, replicas and waiters, which directories, dentries and inodes inherit.
    - [Dentries], [Freeze], [DirFreeze] (CDir.cc, CDir.h): the dentries of a directory fragment
      with their counters and waiters; auth pins and the freezing of a fragment or a tree.  They
      build on [CacheObject], [Dentries] also on [Keys].
    - [Versions], [Commit], [CommitMachine], [Fetch] (CDir.cc): projected fnodes and versions of a
      fragment, its commit to the omap of its object in batches, commits as a state machine, and
      the fetch that merges an object into the cache.
    - [Fragment], [Refragment], [FragmentPins], [SplitMerge], [Migration] (CDir.cc): [split],
      [merge], [encode_export], [finish_export] and [decode_import], with proofs about the
      dentries, the pins, both together, and the move to another rank.
    - [Fragmenting], [FragmentFreeze], [FragmentSafe], [FragmentProtocol], [FragmentStale],
      [FragmentJournal] (MDCache.cc): the protocol that freezes, marks, locks, journals
      and changes fragments, on top of [Freeze] and [Fragment]; its interleavings, stale freezes and
      uncommitted fragmentations.
    - [Subtree], [SubtreeRename] (MDCache.cc 747-1437, CDir.h): the subtree map and the operations
      that cut, merge and bound subtrees, and its repair after a rename.
    - [LoadVec] (mdstypes.h), [Popularity] (MDBalancer.cc): decaying load counters, the
      readers of a directory, how hits spread up the hierarchy, splitting and merging.
    - [Matching], [Exports], [LuaGlue], [Balancer] (MDBalancer.cc, MDBalancer.h): matching
      overloaded with underloaded ranks, the search for fragments to export, the hooks that
      run the user's Lua scripts, and the balancer's handlers, which call all of these.
    - [Beacon] (Beacon.cc): the daemon's beacon to the monitor and its laggy test.
    - [Daemon], [DaemonProtocol] (MDS.cc, MDS.h): the daemon from boot to stop, with the beacon in
      its state, and its protocol with the monitor.
    - [Dispatch], [Sessions], [Admin] (MDS.cc, MDS.h): messages and the queues of contexts, what is
      sent to peers and clients, the admin socket and commands.
    - [ConfigOpts], [Config], [ConfigTyped], [ConfigExpand], [ConfigText], [ConfigNotify]
      (common/config_opts.h, common/config.cc): the table of options and the configuration: values,
      texts, variables, sources, observers.
    - [Readdir], [ReaddirSpec] (Server.cc, [handle_client_readdir]): a page of the listing of a
      fragment of [Dentries].
    - [ClientReaddir], [ClientListing], [ListingSystem] (Client.cc, [readdir_r_cb] and what it
      calls): a listing from the client, against the interface [PageServer] of a server, which
      [ListingSystem] discharges with [handle_client_readdir].
    - [ServerSessions], [SessionMachine], [SessionSystem] (Server.cc 104-887): the sessions of
      clients, what the queue of the journal promises about them, and all handlers interleaved.

    ** How code becomes definitions

    One definition per function (or per loop or branch of a long one), named as in the source.
    State is a record passed along.  A C++ [assert] that fails, and undefined behaviour such as
    a null dereference or an index out of range, is [Abort] of the type [res].  Calls to other
    parts of the system and virtual calls into subclasses are recorded, in order, as a trace of
    effects; the daemon and the refragmentation protocol run in small monads of their own.  Machine
    integers are [Z] with the wrap-around of their width ([s32], [u32], [s64], [u64]) where the code
    computes with them.  [std::map] and [std::set] are [gmap] and [gset]; where the code iterates
    over one, the walk follows the key order ([ordered]).  Pointers to directories, inodes and
    dentries are integers or keys, and a set of pointers is walked in the order of these.

    Code that is not in the repository is a parameter.  Decay counters, the Lua interpreter,
    time stamps, the laws of arithmetic, the clock, the constants of other headers, [CDentry]'s
    own operations, fragments of the hash space, encodings, the MDS map, text conversions are type
    classes ([DecayCounter], [LuaVM], [CDouble], [CephConst], [CDentryOps], [FragSplit], [Codec],
    [MDSMapOps], [ReaddirOps], [FposOps], [SessionOps], [InoOps], ...) with concrete instances for
    the witnesses; the MDS map, the cache and the messenger seen by the balancer are the record
    [Balancer.env]; the hierarchy is a tree of fragments ([Exports.cdir]), a map of parents
    ([Popularity]) or the
    record [Subtree.tree]; what freezing reads of the inode is [Freeze.fenv].

    ** What the theorems show

    - Subtrees: in every reachable state the map is keyed by exactly the delegating
      directories and the bounds of each are exactly the roots directly beneath; changing an
      authority reaches exactly the directories down to the next roots; merging changes
      nobody's authority, nor does a rename, after which the map fits the new hierarchy; the
      foretold bounds of a new subtree are the real ones.
    - Fragments: dentry operations refine a map and keep the four counters exact; lookup finds
      the live dentry; waiters are handed out exactly; pins and freezes keep their state
      machine in order, what the inode is told adds up, and the last unpin completes a freeze.
    - Storage: in every interleaving the versions stay in order, one commit is under way and every
      waiter is woken; a crash between the batches of a commit leaves an object that a fetch and the
      journal restore; a fetch merges an object into a cache without losing what is newer there;
      commit and fetch round-trip.
    - Refragmentation: a split sends every dentry where its name belongs and keeps counters, pins
      and statistics exact; a merge restores the directory; export and import carry a fragment
      over; the protocol never fails an assert in any interleaving until its locks are granted, owns
      its fragments alone, gives up stale freezes, and its journal refines a set of open
      fragmentations.
    - Cache objects: the count is the sum of the pins, asserts fire exactly on misuse, waiters
      are handed out exactly.
    - Balancer: the matching terminates and conserves load; targets stay within surplus and
      deficit; exports are authoritative, unfrozen and distinct; rebalancing waits for all
      heartbeats and starts no more rounds than the budget; hits, exports and imports reach
      exactly the counters they should; splits and merges follow the queues; target answers
      round-trip.
    - Daemon: it asks only for states its own leads to, the beacon announces what it wants, a
      takeover ends; every message is handled, deferred or refused, once, in order, and dispatching
      ends; no message overtakes the map it was sent under, clients get theirs in order; commands
      keep to the lock but for one.
    - Beacon: acknowledgements never abort under an advancing clock; the laggy test is exact.
    - Configuration: every option keeps a value of its type whatever is set or read, expansion ends
      and is substitution, texts round-trip, a failed set changes nothing, each observer is told
      once of just the changes it tracks.
    - Listing: a page is the next of what a client may see; a client gets every visible entry once
      and in order, against any server that keeps the interface, and against this one.
    - Client sessions: in any interleaving with the journal no assert fails and the loops end,
      sessions held for an import stay open, and a flushed journal leaves the versions equal and no
      session half opened or half closed.
    - Data: encoding of dentry keys, telescoping of statistics, trimming of client ranges.
    - Where the code does not do what it means to, a theorem states what it does: script
      arrays one byte short, answers read from an uninitialised array after a failed script,
      a subtree exported to two ranks, searches and matchings that stop short, a test for
      waiters that misses some, a beacon that aborts on a clock step, a freeze of a
      directory that disregards the frozen inode it waited for, messages that overtake deferred
      ones, commands that read past their arguments, numbers that wrap in options, levels that are
      cut, an empty page that ends a listing, a cached entry that is listed twice, a shutdown that
      closes sessions being imported.

    ** Bounds

    Walks up the hierarchy are bounded by its depth ([Subtree.t_depth], and a step count in
    [Popularity] that a theorem shows sufficient); the matching loop by the number of ranks;
    the search for exports is structural in the tree; the recursion of [auth_unpin] through
    [maybe_finish_freeze] by two levels ([auth_unpin_depth]).  The loops of
    [adjust_bounded_subtree_auth] take a bound and are proved correct when they return.  The loops
    of [split] and [merge] run as often as there are dentries, [force_dir_fragment] as deep as a
    fragment has bits, dispatching as long as the weight of what is queued, a boot its nine steps,
    expansion as deep as there are options plus one and as long as the string, argument loops as
    long as the arguments, a listing twice the entries and fragments left plus two rounds, the loops
    over idle sessions as often as there are sessions: theorems show each of them enough.  Theorems
    about counters of a machine width assume that the counts stay below it.

    ** Not modelled

    Of MDCache.cc: bound sets given as lists of fragments, projected roots,
    [handle_fragment_notify] and the replay of fragmentations on other ranks, and everything that
    needs inodes, locks, the journal and the migrator (journalled updates, resolve, rejoin,
    trimming, path traversal), which are not in the repository.  Of Server.cc: everything but
    the listing of directories and the sessions; the requests of the server work on inodes, locks
    and the journal.  Of Client.cc: everything but the listing; the client works on the headers of
    its own classes.  None of these is in the repository.
    The strings of version.cc and the stand-alone test of the Lua interface have no behaviour of
    their own. *)

From stdpp Require Import base tactics numbers list gmap strings sorting.
From Stdlib Require Import ZArith Lia.

Declare Scope mds_scope.
Delimit Scope mds_scope with mds.

(** ** Results: a C++ [assert] that fails aborts the daemon *)

Inductive res (A : Type) : Type :=
| Ok (a : A)
| Abort.
Arguments Ok {A} a.
Arguments Abort {A}.

#[export] Instance res_ret : MRet res := @Ok.
#[export] Instance res_bind : MBind res :=
  fun A B f m => match m with Ok a => f a | Abort => Abort end.

Definition assert_ (b : bool) : res unit := if b then Ok tt else Abort.

Definition is_ok {A} (r : res A) : bool := match r with Ok _ => true | Abort => false end.

Notation "'check' b ;; k" := (mbind (fun _ : unit => k) (assert_ b))
  (at level 100, b at level 90, right associativity) : mds_scope.
Open Scope mds_scope.

Lemma bind_ok {A B} (m : res A) (f : A -> res B) b :
  (m ≫= f) = Ok b -> exists a, m = Ok a /\ f a = Ok b.
Proof. destruct m; simpl; intros; [eauto | discriminate]. Qed.

Lemma assert_ok b u : assert_ b = Ok u -> b = true.
Proof. destruct b; simpl; congruence. Qed.

Lemma check_true {A} b (k : res A) : b = true -> (check b ;; k) = k.
Proof. intros ->; reflexivity. Qed.

(** Peels the binds and the asserts off a hypothesis [m = Ok r]. *)
Ltac inv_ok :=
  repeat match goal with
  | H : (_ ≫= _) = Ok _ |- _ => apply bind_ok in H; destruct H as (? & ? & ?)
  | H : assert_ _ = Ok _ |- _ => apply assert_ok in H
  | H : Ok _ = Ok _ |- _ => injection H as H
  | H : Abort = Ok _ |- _ => discriminate H
  | H : @mret _ _ _ _ = Ok _ |- _ => unfold mret, res_ret in H
  end.

(** ** Integers at their width *)

Section Width.
Open Scope Z_scope.

Definition wrap_u (w z : Z) : Z := z mod 2 ^ w.
Definition wrap_s (w z : Z) : Z := (z + 2 ^ (w - 1)) mod 2 ^ w - 2 ^ (w - 1).

Definition u32 : Z -> Z := wrap_u 32.
Definition u64 : Z -> Z := wrap_u 64.
Definition s32 : Z -> Z := wrap_s 32.
Definition s64 : Z -> Z := wrap_s 64.

Definition in_u32 (z : Z) : Prop := 0 <= z < 2 ^ 32.
Definition in_u64 (z : Z) : Prop := 0 <= z < 2 ^ 64.
Definition in_s32 (z : Z) : Prop := - 2 ^ 31 <= z < 2 ^ 31.
Definition in_s64 (z : Z) : Prop := - 2 ^ 63 <= z < 2 ^ 63.

Lemma wrap_u_small w z : 0 <= z < 2 ^ w -> wrap_u w z = z.
Proof. apply Z.mod_small. Qed.

Lemma wrap_s_small w z : - 2 ^ (w - 1) <= z < 2 ^ (w - 1) -> 0 < w -> wrap_s w z = z.
Proof.
  intros H Hw. unfold wrap_s.
  assert (2 ^ w = 2 * 2 ^ (w - 1)) as E
    by (replace w with (Z.succ (w - 1)) at 1 by lia; apply Z.pow_succ_r; lia).
  rewrite Z.mod_small; lia.
Qed.

Lemma wrap_s_cong w a b : a mod 2 ^ w = b mod 2 ^ w -> wrap_s w a = wrap_s w b.
Proof.
  intros H. unfold wrap_s.
  rewrite <- (Zplus_mod_idemp_l a), <- (Zplus_mod_idemp_l b), H. reflexivity.
Qed.

Lemma wrap_s_mod w a : 0 < w -> wrap_s w a mod 2 ^ w = a mod 2 ^ w.
Proof.
  intros Hw. unfold wrap_s. rewrite Zminus_mod_idemp_l. f_equal. lia.
Qed.

Lemma s32_idem_l a b : s32 (s32 a + b) = s32 (a + b).
Proof.
  apply wrap_s_cong. unfold s32.
  rewrite <- Zplus_mod_idemp_l, wrap_s_mod, Zplus_mod_idemp_l by done. done.
Qed.

(** Congruence modulo [2^64], the equivalence under which 64-bit sums are
    rewritten. *)
Definition eqm64 (a b : Z) : Prop := a mod 2 ^ 64 = b mod 2 ^ 64.

#[export] Instance eqm64_equiv : Equivalence eqm64.
Proof. split; unfold eqm64; repeat intro; congruence. Qed.

#[export] Instance eqm64_add : Proper (eqm64 ==> eqm64 ==> eqm64) Z.add.
Proof.
  unfold eqm64. intros a b E c d F. rewrite (Zplus_mod a), (Zplus_mod b). by rewrite E, F.
Qed.

#[export] Instance eqm64_sub : Proper (eqm64 ==> eqm64 ==> eqm64) Z.sub.
Proof.
  unfold eqm64. intros a b E c d F. rewrite (Zminus_mod a), (Zminus_mod b). by rewrite E, F.
Qed.

#[export] Instance eqm64_mul : Proper (eqm64 ==> eqm64 ==> eqm64) Z.mul.
Proof.
  unfold eqm64. intros a b E c d F. rewrite (Zmult_mod a), (Zmult_mod b). by rewrite E, F.
Qed.

Lemma s64_eqm z : eqm64 (s64 z) z.
Proof. by apply wrap_s_mod. Qed.

Lemma s64_cong a b : eqm64 a b -> s64 a = s64 b.
Proof. apply (wrap_s_cong 64). Qed.

#[export] Instance s64_proper : Proper (eqm64 ==> eq) s64.
Proof. intros a b. apply s64_cong. Qed.

Lemma s64_id z : in_s64 z -> s64 z = z.
Proof. intros H. by apply (wrap_s_small 64). Qed.

Lemma s32_id z : in_s32 z -> s32 z = z.
Proof. intros H. by apply (wrap_s_small 32). Qed.

Lemma u32_id z : in_u32 z -> u32 z = z.
Proof. apply wrap_u_small. Qed.

Lemma u64_id z : in_u64 z -> u64 z = z.
Proof. apply wrap_u_small. Qed.

End Width.

(** Proves that two nested 64-bit sums agree. *)
Ltac solve_s64 :=
  apply s64_cong; rewrite !s64_eqm; apply eq_subrelation; [apply _ | lia].

(** Bit tests of the [state] and [mask] words. *)
Definition has_bits (word mask : Z) : bool := negb (Z.eqb (Z.land word mask) 0).

(** ** Ordered iteration: [std::map], [std::set], [std::multimap]

    A [std::map] is a [gmap]; where the source walks it (or calls [begin] or
    [lower_bound]) the walk is over [ordered m], its bindings in key order. *)

Class KeyOrder (K : Type) := k_leb : K -> K -> bool.

Class KeyOrderOk (K : Type) `{KeyOrder K} : Prop := {
  k_leb_total : forall a b, k_leb a b = true \/ k_leb b a = true;
  k_leb_trans : forall a b c, k_leb a b = true -> k_leb b c = true -> k_leb a c = true;
  k_leb_antisym : forall a b, k_leb a b = true -> k_leb b a = true -> a = b
}.

Definition k_ltb {K} `{KeyOrder K} (a b : K) : bool := negb (k_leb b a).

#[export] Instance Z_order : KeyOrder Z := Z.leb.
#[export] Instance Z_order_ok : KeyOrderOk Z.
Proof. split; unfold k_leb, Z_order; intros; lia. Qed.

Section Ordered.
Context {K : Type} `{KeyOrder K} `{!KeyOrderOk K} {V : Type}.

Definition bind_le (a b : K * V) : Prop := k_leb (fst a) (fst b) = true.

#[export] Instance bind_le_dec : forall a b, Decision (bind_le a b).
Proof. intros a b. unfold bind_le. apply _. Defined.

Context `{EqDecision K} `{Countable K}.

Definition ordered (m : gmap K V) : list (K * V) := merge_sort bind_le (map_to_list m).

(** [lower_bound k]: the bindings from the first key that is not below [k]. *)
Fixpoint drop_below (k : K) (l : list (K * V)) : list (K * V) :=
  match l with
  | [] => []
  | b :: l' => if k_ltb (fst b) k then drop_below k l' else l
  end.

Definition lower_bound (k : K) (m : gmap K V) : list (K * V) := drop_below k (ordered m).

(** [multimap::insert]: after the elements of an equal key. *)
Fixpoint mm_insert (k : K) (v : V) (l : list (K * V)) : list (K * V) :=
  match l with
  | [] => [(k, v)]
  | b :: l' => if k_leb (fst b) k then b :: mm_insert k v l' else (k, v) :: l
  end.

Lemma ordered_perm m : ordered m ≡ₚ map_to_list m.
Proof. apply merge_sort_Permutation. Qed.

Lemma elem_of_ordered m k v : (k, v) ∈ ordered m <-> m !! k = Some v.
Proof. by rewrite ordered_perm, elem_of_map_to_list. Qed.

Lemma elem_of_ordered_keys m k : k ∈ (ordered m).*1 <-> is_Some (m !! k).
Proof.
  split.
  - intros ([k' v] & -> & Hkv%elem_of_ordered)%list_elem_of_fmap. by exists v.
  - intros [v Hv%elem_of_ordered]. by apply (list_elem_of_fmap_2 fst _ (k, v)).
Qed.

Lemma ordered_sorted m : StronglySorted bind_le (ordered m).
Proof.
  apply Sorted_StronglySorted.
  - intros [a ?] [b ?] [c ?]; unfold bind_le; simpl; apply k_leb_trans.
  - apply Sorted_merge_sort. intros [a ?] [b ?]; unfold bind_le; simpl. apply k_leb_total.
Qed.

Lemma ordered_nodup m : NoDup (ordered m).*1.
Proof. rewrite ordered_perm. apply NoDup_fst_map_to_list. Qed.

Lemma ordered_nil m : ordered m = [] <-> m = ∅.
Proof.
  split; intros Hm.
  - apply map_to_list_empty_iff, Permutation_nil_r. by rewrite <- Hm, ordered_perm.
  - apply Permutation_nil_r. by rewrite ordered_perm, Hm, map_to_list_empty.
Qed.

Lemma mm_insert_perm k v l : mm_insert k v l ≡ₚ (k, v) :: l.
Proof.
  induction l as [|b l IH]; simpl; [done|].
  destruct (k_leb _ _); [|done]. by rewrite IH, Permutation_swap.
Qed.

Lemma mm_insert_sorted k v l :
  StronglySorted bind_le l -> StronglySorted bind_le (mm_insert k v l).
Proof.
  induction 1 as [|b l Hs IH Hall]; simpl; [repeat constructor|].
  destruct (k_leb (fst b) k) eqn:E.
  - constructor; [done|]. rewrite mm_insert_perm. by constructor.
  - assert (k_leb k (fst b) = true) as Hle
      by (destruct (k_leb_total k (fst b)); congruence).
    constructor; [by constructor|]. constructor; [done|].
    eapply Forall_impl; [exact Hall|]. intros c Hc. unfold bind_le in *; simpl.
    by eapply k_leb_trans.
Qed.

End Ordered.

Lemma Forall_elem {A} (P : A -> Prop) l x : Forall P l -> x ∈ l -> P x.
Proof.
  induction 1; [by intros ?%elem_of_nil|]. by intros [->|?]%elem_of_cons; auto.
Qed.

Lemma filter_ext_in {A} (P Q : A -> Prop) `{!forall x, Decision (P x), !forall x, Decision (Q x)} (l : list A) :
  (forall x, x ∈ l -> P x <-> Q x) -> filter P l = filter Q l.
Proof.
  induction l as [|x l IH]; intros E; [done|]. rewrite !filter_cons.
  rewrite IH by (intros y Hy; apply E; by right). pose proof (E x (list_elem_of_here _ _)) as Ex.
  destruct (decide (P x)), (decide (Q x)); tauto.
Qed.

Lemma filter_none {A} (P : A -> Prop) `{!forall x, Decision (P x)} (l : list A) :
  (forall x, x ∈ l -> ~ P x) -> filter P l = [].
Proof.
  induction l as [|x l IH]; intros E; [done|]. rewrite filter_cons_False by (apply E; by left).
  apply IH. intros y Hy. apply E. by right.
Qed.

(** Ranks of a strict comparison. *)
Section Strict.
Context {K : Type} `{KeyOrder K} `{!KeyOrderOk K}.

Lemma k_leb_refl a : k_leb a a = true.
Proof. by destruct (k_leb_total a a). Qed.

Lemma k_ltb_irrefl a : k_ltb a a = false.
Proof. unfold k_ltb. by rewrite k_leb_refl. Qed.

Lemma k_ltb_le a b : k_ltb a b = true -> k_leb a b = true.
Proof. unfold k_ltb. destruct (k_leb_total a b) as [E|E]; rewrite E; done. Qed.

Lemma k_ltb_trans a b c : k_ltb a b = true -> k_ltb b c = true -> k_ltb a c = true.
Proof.
  unfold k_ltb. rewrite !negb_true_iff. intros Hab Hbc.
  destruct (k_leb c a) eqn:E; [|done].
  destruct (k_leb_total a b) as [H1|H1]; [|congruence].
  rewrite (k_leb_trans c a b) in Hbc; done.
Qed.

Lemma k_ltb_tricho a b : k_ltb a b = false -> k_ltb b a = false -> a = b.
Proof.
  unfold k_ltb. rewrite !negb_false_iff. intros. by apply k_leb_antisym.
Qed.

End Strict.

(** [lower_bound] finds the least binding that is not below the key. *)
Lemma drop_below_head {K V} `{KeyOrder K} `{!KeyOrderOk K} (k : K) (l : list (K * V)) :
  StronglySorted bind_le l ->
  match drop_below k l with
  | [] => forall c, c ∈ l -> k_ltb (fst c) k = true
  | b :: _ => b ∈ l /\ k_ltb (fst b) k = false /\
      forall c, c ∈ l -> k_ltb (fst c) k = false -> k_leb (fst b) (fst c) = true
  end.
Proof.
  induction 1 as [|b l Hs IH Hall]; simpl; [by intros c ?%elem_of_nil|].
  destruct (k_ltb (fst b) k) eqn:E.
  - destruct (drop_below k l) as [|b' l'].
    + intros c [->|Hc]%elem_of_cons; [done|by apply IH].
    + destruct IH as (H1 & H2 & H3). split_and!; [by right|done|].
      intros c [->|Hc]%elem_of_cons Hk; [congruence|by apply H3].
  - split_and!; [by left|done|]. intros c [->|Hc]%elem_of_cons _; [apply k_leb_refl|].
    exact (Forall_elem _ _ _ Hall Hc).
Qed.

Lemma string_app_length (s t : string) :
  String.length (s +:+ t) = (String.length s + String.length t)%nat.
Proof.
  induction s as [|c s IH]; [done|].
  change (String c s +:+ t) with (String c (s +:+ t)). cbn [String.length]. by rewrite IH.
Qed.

(** A [std::set] of integers is a [gset]; this is the order its iterators follow. *)
Definition ordered_elems (s : gset Z) : list Z := merge_sort Z.le (elements s).

Lemma elem_of_ordered_elems s x : x ∈ ordered_elems s <-> x ∈ s.
Proof. unfold ordered_elems. by rewrite merge_sort_Permutation, elem_of_elements. Qed.

Lemma ordered_elems_nodup s : NoDup (ordered_elems s).
Proof. unfold ordered_elems. rewrite merge_sort_Permutation. apply NoDup_elements. Qed.
