(* ===== verification/Double.v ===== *)
(** * C doubles

    The balancer computes with [double] (and stores some results in [float]).
    The definitions of the development are written against the interface
    [CDouble]; two instances give it meaning:
    - [b64], IEEE 754 binary64 with round-to-nearest-even (the standard
      library's [SpecFloat]), which is what the code runs on, [b64_float]
      being a store to and a load from a [float];
    - [Q], exact arithmetic.
    [DoubleOrder] are the comparison laws that hold of both (NaN included),
    [DoubleExact] those that hold without rounding only. *)

From stdpp Require Import base tactics numbers.
From Stdlib Require Import ZArith QArith Qminmax Lqa SpecFloat.
From S2P Require Import Prelude.

Declare Scope dbl_scope.
Delimit Scope dbl_scope with dbl.

Class CDouble (D : Type) := {
  d_of_Q : Q -> D;
  d_add : D -> D -> D;
  d_sub : D -> D -> D;
  d_mul : D -> D -> D;
  d_div : D -> D -> D;
  d_lt : D -> D -> bool;
  d_le : D -> D -> bool;
  d_float : D -> D;
  d_trunc : D -> option Z
}.

Infix "+" := d_add : dbl_scope.
Infix "-" := d_sub : dbl_scope.
Infix "*" := d_mul : dbl_scope.
Infix "/" := d_div : dbl_scope.
Infix "<?" := d_lt : dbl_scope.
Infix "<=?" := d_le : dbl_scope.
Notation "a >? b" := (d_lt b a) (only parsing) : dbl_scope.
Notation "a >=? b" := (d_le b a) (only parsing) : dbl_scope.

Section Derived.
Context {D : Type} `{CDouble D}.

Definition d_of_Z (z : Z) : D := d_of_Q (inject_Z z).
Definition d_zero : D := d_of_Z 0.
(** the [MIN] macro: [((a) < (b) ? (a) : (b))] *)
Definition d_min (a b : D) : D := if d_lt a b then a else b.
Definition d_sum (l : list D) : D := fold_left d_add l d_zero.

End Derived.

(** ** binary64 *)

Definition b64 : Set := spec_float.

Definition b64_of_Q (q : Q) : b64 :=
  match Qnum q with
  | Z0 => S754_zero false
  | Zpos p => SFdiv 53 1024 (S754_finite false p 0) (S754_finite false (Qden q) 0)
  | Zneg p => SFdiv 53 1024 (S754_finite true p 0) (S754_finite false (Qden q) 0)
  end.

Definition b64_round (prec emax : Z) (x : b64) : b64 :=
  match x with
  | S754_finite s m e => binary_normalize prec emax (cond_Zopp s (Zpos m)) e s
  | _ => x
  end.

Definition b64_float (x : b64) : b64 := b64_round 53 1024 (b64_round 24 128 x).

Definition b64_trunc (x : b64) : option Z :=
  match x with
  | S754_zero _ => Some 0%Z
  | S754_finite s m e =>
      let a := if (0 <=? e)%Z then Z.shiftl (Zpos m) e else Z.shiftr (Zpos m) (- e) in
      Some (cond_Zopp s a)
  | _ => None
  end.

#[export] Instance b64_double : CDouble b64 := {
  d_of_Q := b64_of_Q;
  d_add := SFadd 53 1024;
  d_sub := SFsub 53 1024;
  d_mul := SFmul 53 1024;
  d_div := SFdiv 53 1024;
  d_lt := SFltb;
  d_le := SFleb;
  d_float := b64_float;
  d_trunc := b64_trunc
}.

(** ** Exact arithmetic *)

Definition Q_lt (a b : Q) : bool := negb (Qle_bool b a).

Definition Q_trunc (q : Q) : Z := Z.quot (Qnum q) (Zpos (Qden q)).

#[export] Instance Q_double : CDouble Q := {
  d_of_Q := fun q => q;
  d_add := Qplus;
  d_sub := Qminus;
  d_mul := Qmult;
  d_div := Qdiv;
  d_lt := Q_lt;
  d_le := Qle_bool;
  d_float := fun q => q;
  d_trunc := fun q => Some (Q_trunc q)
}.

(** ** Laws *)

Class DoubleOrder (D : Type) `{CDouble D} : Prop := {
  d_lt_not_le : forall a b : D, d_lt a b = true -> d_le b a = false;
  d_lt_le : forall a b : D, d_lt a b = true -> d_le a b = true;
  d_le_trans : forall a b c : D, d_le a b = true -> d_le b c = true -> d_le a c = true;
  d_lt_le_trans : forall a b c : D, d_lt a b = true -> d_le b c = true -> d_lt a c = true;
  d_le_lt_trans : forall a b c : D, d_le a b = true -> d_lt b c = true -> d_lt a c = true;
  d_zero_refl : d_le (d_zero : D) d_zero = true
}.

Class DoubleExact (D : Type) `{CDouble D} := {
  d_val : D -> Q;
  d_val_of_Q : forall q, (d_val (d_of_Q q) == q)%Q;
  d_val_add : forall a b, (d_val (d_add a b) == d_val a + d_val b)%Q;
  d_val_sub : forall a b, (d_val (d_sub a b) == d_val a - d_val b)%Q;
  d_val_float : forall a, (d_val (d_float a) == d_val a)%Q;
  d_val_lt : forall a b, d_lt a b = true <-> (d_val a < d_val b)%Q;
  d_val_le : forall a b, d_le a b = true <-> (d_val a <= d_val b)%Q
}.

Lemma Q_lt_iff a b : Q_lt a b = true <-> (a < b)%Q.
Proof.
  unfold Q_lt. rewrite negb_true_iff. split.
  - intros E. apply Qnot_le_lt. intros C. apply Qle_bool_iff in C. congruence.
  - intros C. apply not_true_is_false. intros E. apply Qle_bool_iff in E. lra.
Qed.

#[export] Instance Q_exact : DoubleExact Q := {
  d_val := fun q => q;
  d_val_of_Q := fun q => Qeq_refl q;
  d_val_add := fun a b => Qeq_refl _;
  d_val_sub := fun a b => Qeq_refl _;
  d_val_float := fun a => Qeq_refl _;
  d_val_lt := Q_lt_iff;
  d_val_le := Qle_bool_iff
}.

#[export] Instance Q_order_laws : DoubleOrder Q.
Proof.
  split; simpl; intros *; rewrite ?Q_lt_iff; intros.
  - apply not_true_is_false. rewrite Qle_bool_iff. lra.
  - apply Qle_bool_iff. lra.
  - rewrite Qle_bool_iff in *. lra.
  - rewrite Qle_bool_iff in *. lra.
  - rewrite Qle_bool_iff in *. lra.
  - reflexivity.
Qed.

(** The comparison of binary64 values is a total preorder on the values that
    are not NaN; proved by embedding them in triples compared
    lexicographically. *)
Section B64Order.
Open Scope Z_scope.

Definition sf_rank (x : b64) : option (Z * Z * Z) :=
  match x with
  | S754_nan => None
  | S754_infinity true => Some (-2, 0, 0)
  | S754_finite true m e => Some (-1, - e, - Zpos m)
  | S754_zero _ => Some (0, 0, 0)
  | S754_finite false m e => Some (1, e, Zpos m)
  | S754_infinity false => Some (2, 0, 0)
  end.

Definition lex_lt (a b : Z * Z * Z) : Prop :=
  let '(a1, a2, a3) := a in let '(b1, b2, b3) := b in
  a1 < b1 \/ (a1 = b1 /\ (a2 < b2 \/ (a2 = b2 /\ a3 < b3))).

(** Closes one case of the comparison of two floats against the comparison of
    their ranks. *)
Ltac solve_rank :=
  split;
  [ first [ discriminate
          | intros _; eexists _, _; split; [reflexivity|split; [reflexivity|cbn; lia]] ]
  | intros (? & ? & ? & ? & L); simplify_eq; cbn in L; try lia; try reflexivity ].

Ltac split_rank :=
  match goal with
  | |- context [Z.compare ?a ?b] => destruct (Z.compare_spec a b)
  | |- context [Pos.compare_cont Eq ?a ?b] =>
      change (Pos.compare_cont Eq a b) with (Pos.compare a b);
      destruct (Pos.compare_spec a b)
  | |- context [Pos.compare ?a ?b] => destruct (Pos.compare_spec a b)
  end; cbn [CompOpp].

Lemma SFltb_rank x y :
  SFltb x y = true <->
  exists a b, sf_rank x = Some a /\ sf_rank y = Some b /\ lex_lt a b.
Proof.
  destruct x as [sx|[]| |[] mx e1], y as [sy|[]| |[] my e2];
    unfold SFltb, SFcompare, sf_rank; repeat split_rank; solve_rank.
Qed.

Lemma SFleb_rank x y :
  SFleb x y = true <->
  exists a b, sf_rank x = Some a /\ sf_rank y = Some b /\ ~ lex_lt b a.
Proof.
  destruct x as [sx|[]| |[] mx e1], y as [sy|[]| |[] my e2];
    unfold SFleb, SFcompare, sf_rank; repeat split_rank; solve_rank.
Qed.

Lemma lex_lt_trans a b c : lex_lt a b -> lex_lt b c -> lex_lt a c.
Proof. destruct a as [[??]?], b as [[??]?], c as [[??]?]; simpl; lia. Qed.

Lemma lex_lt_asym a b : lex_lt a b -> ~ lex_lt b a.
Proof. destruct a as [[??]?], b as [[??]?]; simpl; lia. Qed.

Lemma lex_lt_neg_trans a b c : ~ lex_lt b a -> ~ lex_lt c b -> ~ lex_lt c a.
Proof. destruct a as [[??]?], b as [[??]?], c as [[??]?]; simpl; lia. Qed.

Lemma lex_lt_le_trans a b c : lex_lt a b -> ~ lex_lt c b -> lex_lt a c.
Proof. destruct a as [[??]?], b as [[??]?], c as [[??]?]; simpl; lia. Qed.

Lemma lex_le_lt_trans a b c : ~ lex_lt b a -> lex_lt b c -> lex_lt a c.
Proof. destruct a as [[??]?], b as [[??]?], c as [[??]?]; simpl; lia. Qed.

End B64Order.

#[export] Instance b64_order_laws : DoubleOrder b64.
Proof.
  split; [..|reflexivity]; simpl; intros a b.
  - intros (x & y & Hx & Hy & L)%SFltb_rank. apply not_true_is_false.
    intros (x' & y' & Hx' & Hy' & L')%SFleb_rank. simplify_eq. done.
  - rewrite SFltb_rank, SFleb_rank. intros (x & y & ? & ? & ?).
    eexists _, _; split_and!; eauto using lex_lt_asym.
  - intros c. rewrite !SFleb_rank. intros (x&y&?&?&?) (x'&y'&?&?&?). simplify_eq.
    eexists _, _; split_and!; eauto using lex_lt_neg_trans.
  - intros c. rewrite !SFleb_rank, !SFltb_rank. intros (x&y&?&?&?) (x'&y'&?&?&?). simplify_eq.
    eexists _, _; split_and!; eauto using lex_lt_le_trans.
  - intros c. rewrite !SFleb_rank, !SFltb_rank. intros (x&y&?&?&?) (x'&y'&?&?&?). simplify_eq.
    eexists _, _; split_and!; eauto using lex_le_lt_trans.
Qed.
