(* ===== verification/Stats.v ===== *)
(** * Scatter/gather statistics and the inode record (mdstypes.h)

    [frag_info_t] and [nest_info_t] are the directory statistics that dirfrags
    accumulate and inodes gather; [inode_t] is the inode proper.  The time stamp
    type [utime_t] is not part of the sources: it is a parameter with its order. *)

From stdpp Require Import base tactics numbers list gmap strings.
From Stdlib Require Import ZArith Lia.
From S2P Require Import Prelude.
Open Scope Z_scope.

(** [utime_t]: a totally ordered time stamp with the value of [utime_t()]. *)
Class UTime (T : Type) := {
  ut_order :: KeyOrder T;
  ut_eqdec :: EqDecision T;
  ut_zero : T
}.

#[export] Instance Z_utime : UTime Z := {| ut_order := Z_order; ut_zero := 0 |}.

(** [if (other > mine) mine = other] *)
Definition ut_max {T} `{UTime T} (mine other : T) : T := if k_ltb mine other then other else mine.

Section Stats.
Context {T : Type} `{UTime T}.

Record frag_info_t := mk_frag_info {
  fi_version : Z;
  fi_mtime : T;
  fi_nfiles : Z;
  fi_nsubdirs : Z
}.

Definition frag_info_new : frag_info_t := mk_frag_info 0 ut_zero 0 0.

Definition frag_size (f : frag_info_t) : Z := s64 (fi_nfiles f + fi_nsubdirs f).

Definition frag_zero (f : frag_info_t) : frag_info_t := frag_info_new.

(** [add_delta]: returns [*this] and [touched_mtime]. *)
Definition frag_add_delta (this cur acc : frag_info_t) (touched_mtime : bool)
  : frag_info_t * bool :=
  let '(mt, touched) :=
    if decide (fi_mtime cur = fi_mtime acc) then (fi_mtime this, touched_mtime)
    else (fi_mtime cur, true) in
  (mk_frag_info (fi_version this) mt
     (s64 (fi_nfiles this + s64 (fi_nfiles cur - fi_nfiles acc)))
     (s64 (fi_nsubdirs this + s64 (fi_nsubdirs cur - fi_nsubdirs acc))),
   touched).

Definition frag_add (this other : frag_info_t) : frag_info_t :=
  mk_frag_info (fi_version this)
    (ut_max (fi_mtime this) (fi_mtime other))
    (s64 (fi_nfiles this + fi_nfiles other))
    (s64 (fi_nsubdirs this + fi_nsubdirs other)).

(** [memcmp] of the whole struct, which has no padding. *)
#[export] Instance frag_info_eqdec : EqDecision frag_info_t.
Proof. solve_decision. Defined.

Record nest_info_t := mk_nest_info {
  ni_version : Z;
  ni_rctime : T;
  ni_rbytes : Z;
  ni_rfiles : Z;
  ni_rsubdirs : Z;
  ni_rsnaprealms : Z
}.

#[export] Instance nest_info_eqdec : EqDecision nest_info_t.
Proof. solve_decision. Defined.

Definition nest_info_new : nest_info_t := mk_nest_info 0 ut_zero 0 0 0 0.

Definition nest_rsize (n : nest_info_t) : Z := s64 (ni_rfiles n + ni_rsubdirs n).

Definition nest_zero (n : nest_info_t) : nest_info_t := nest_info_new.

Definition nest_add (this other : nest_info_t) (fac : Z) : nest_info_t :=
  mk_nest_info (ni_version this)
    (ut_max (ni_rctime this) (ni_rctime other))
    (s64 (ni_rbytes this + s64 (fac * ni_rbytes other)))
    (s64 (ni_rfiles this + s64 (fac * ni_rfiles other)))
    (s64 (ni_rsubdirs this + s64 (fac * ni_rsubdirs other)))
    (s64 (ni_rsnaprealms this + s64 (fac * ni_rsnaprealms other))).

Definition nest_sub (this other : nest_info_t) : nest_info_t := nest_add this other (-1).

Definition nest_add_delta (this cur acc : nest_info_t) : nest_info_t :=
  mk_nest_info (ni_version this)
    (ut_max (ni_rctime this) (ni_rctime cur))
    (s64 (ni_rbytes this + s64 (ni_rbytes cur - ni_rbytes acc)))
    (s64 (ni_rfiles this + s64 (ni_rfiles cur - ni_rfiles acc)))
    (s64 (ni_rsubdirs this + s64 (ni_rsubdirs cur - ni_rsubdirs acc)))
    (s64 (ni_rsnaprealms this + s64 (ni_rsnaprealms cur - ni_rsnaprealms acc))).

Definition nest_same_sums (a b : nest_info_t) : bool :=
  bool_decide (ni_rctime a = ni_rctime b) &&
  (ni_rbytes a =? ni_rbytes b) &&
  (ni_rfiles a =? ni_rfiles b) &&
  (ni_rsubdirs a =? ni_rsubdirs b) &&
  (ni_rsnaprealms a =? ni_rsnaprealms b).

(** The four counters, which the accounting is about. *)
Definition nest_sums (n : nest_info_t) : Z * Z * Z * Z :=
  (ni_rbytes n, ni_rfiles n, ni_rsubdirs n, ni_rsnaprealms n).

Definition nest_in_range (n : nest_info_t) : Prop :=
  in_s64 (ni_rbytes n) /\ in_s64 (ni_rfiles n) /\
  in_s64 (ni_rsubdirs n) /\ in_s64 (ni_rsnaprealms n).

(** [sub_info.add(...)] over the children, as [CDir::check_rstats] does. *)
Definition nest_total (l : list nest_info_t) : nest_info_t :=
  fold_left (fun acc n => nest_add acc n 1) l nest_info_new.

Record quota_info_t := mk_quota { q_max_bytes : Z; q_max_files : Z }.

Definition quota_is_valid (q : quota_info_t) : bool :=
  (0 <=? q_max_bytes q) && (0 <=? q_max_files q).

Definition quota_is_enable (q : quota_info_t) : bool :=
  negb (q_max_bytes q =? 0) || negb (q_max_files q =? 0).

End Stats.
Arguments frag_info_t T : clear implicits.
Arguments nest_info_t T : clear implicits.

Section StatsLemmas.
Context {T : Type} `{UTime T} `{!KeyOrderOk T}.

Lemma ut_max_comm (a b : T) : ut_max a b = ut_max b a.
Proof.
  unfold ut_max. destruct (k_ltb a b) eqn:E1, (k_ltb b a) eqn:E2; try done.
  - pose proof (k_ltb_trans _ _ _ E1 E2) as E. by rewrite k_ltb_irrefl in E.
  - by apply k_ltb_tricho.
Qed.

Lemma ut_max_assoc (a b c : T) : ut_max (ut_max a b) c = ut_max a (ut_max b c).
Proof.
  unfold ut_max.
  destruct (k_ltb a b) eqn:E1, (k_ltb b c) eqn:E2; rewrite ?E1, ?E2; try done.
  - by rewrite (k_ltb_trans _ _ _ E1 E2).
  - unfold k_ltb in *. rewrite negb_false_iff in E1, E2.
    by rewrite (k_leb_trans _ _ _ E2 E1).
Qed.

Lemma ut_max_idem (a : T) : ut_max a a = a.
Proof. unfold ut_max. by rewrite k_ltb_irrefl. Qed.

(** Adding children in any order gives the same total. *)
Lemma nest_add_comm_right (n a b : nest_info_t T) :
  nest_add (nest_add n a 1) b 1 = nest_add (nest_add n b 1) a 1.
Proof.
  unfold nest_add; simpl. f_equal; [|solve_s64 ..].
  by rewrite !ut_max_assoc, (ut_max_comm (ni_rctime a)).
Qed.

Lemma nest_fold_perm (l1 l2 : list (nest_info_t T)) :
  l1 ≡ₚ l2 -> forall n,
  fold_left (fun acc x => nest_add acc x 1) l1 n = fold_left (fun acc x => nest_add acc x 1) l2 n.
Proof.
  induction 1 as [| | |? ? ? ? IH1 ? IH2]; intros n; simpl; [done|auto| |].
  - by rewrite nest_add_comm_right.
  - by rewrite IH1, IH2.
Qed.

End StatsLemmas.

(** The 64-bit counters agree once both sides are put modulo [2^64]. *)
Ltac solve_sums :=
  repeat first [apply (f_equal2 (@pair _ _)) | solve_s64].

Section StatsTheorems.
Context {T : Type} `{UTime T} `{!KeyOrderOk T}.

(** The total of the children's recursive statistics that
    [CDir::check_rstats] compares with the fragment's own does not depend on
    the order in which the dentries are visited. *)
Theorem nest_total_perm (l1 l2 : list (nest_info_t T)) :
  l1 ≡ₚ l2 -> nest_total l1 = nest_total l2.
Proof. intros P. by apply nest_fold_perm. Qed.

(** [add] followed by [sub] of the same value restores the four counters of
    a [nest_info_t] exactly, at 64 bits, even when the sum overflows on the way;
    the newest of the two time stamps stays. *)
Theorem nest_sub_add (n o : nest_info_t T) :
  nest_in_range n ->
  nest_sums (nest_sub (nest_add n o 1) o) = nest_sums n /\
  ni_rctime (nest_sub (nest_add n o 1) o) = ut_max (ni_rctime n) (ni_rctime o).
Proof.
  intros (R1 & R2 & R3 & R4). split.
  - unfold nest_sums, nest_sub, nest_add; simpl.
    rewrite <- (s64_id (ni_rbytes n)), <- (s64_id (ni_rfiles n)),
      <- (s64_id (ni_rsubdirs n)), <- (s64_id (ni_rsnaprealms n)) by done.
    solve_sums.
  - simpl. by rewrite ut_max_assoc, ut_max_idem.
Qed.

(** Gathering twice ([add_delta] from the accounted value [a] to [b], then
    from [b] to [c]) is gathering once from [a] to [c], for the recursive and for
    the per-fragment statistics. *)
Theorem add_delta_telescopes (n a b c : nest_info_t T) (f fa fb fc : frag_info_t T) t :
  nest_sums (nest_add_delta (nest_add_delta n b a) c b) = nest_sums (nest_add_delta n c a) /\
  let two := fst (frag_add_delta (fst (frag_add_delta f fb fa t)) fc fb t) in
  let one := fst (frag_add_delta f fc fa t) in
  fi_nfiles two = fi_nfiles one /\ fi_nsubdirs two = fi_nsubdirs one.
Proof.
  split; [unfold nest_sums, nest_add_delta; simpl; solve_sums|].
  unfold frag_add_delta. repeat case_decide; simpl; split; solve_s64.
Qed.

End StatsTheorems.

Definition nest_ex (t a b : Z) : nest_info_t Z := mk_nest_info 0 t a b 0 0.

Lemma nest_total_perm_witness :
  nest_total [nest_ex 5 1 2; nest_ex 9 3 4] = nest_total [nest_ex 9 3 4; nest_ex 5 1 2].
Proof. apply nest_total_perm. constructor. Defined.

Lemma nest_sub_add_witness :
  nest_sums (nest_sub (nest_add (nest_ex 5 (2 ^ 63 - 1) 2) (nest_ex 9 7 4) 1) (nest_ex 9 7 4))
  = (2 ^ 63 - 1, 2, 0, 0).
Proof.
  apply (nest_sub_add (nest_ex 5 (2 ^ 63 - 1) 2) (nest_ex 9 7 4)).
  unfold nest_in_range, in_s64; simpl; lia.
Defined.
