(* ===== verification/Inodes.v ===== *)
(** * Inodes (mdstypes.h)

    The numbering of system inodes, [vinodeno_t], [client_writeable_range_t] and
    [inode_t] with its inline operations.  [ceph_file_layout] and
    [ceph_dir_layout] are C structs of another header: a parameter [L] with its
    bytes and the two fields the code reads. *)

From stdpp Require Import base tactics numbers list gmap strings.
From Stdlib Require Import ZArith Lia.
From S2P Require Import Prelude Stats.
Open Scope Z_scope.

(** ** System inode numbers *)

Definition MAX_MDS : Z := 256.
Definition NUM_STRAY : Z := 10.
Definition MDS_INO_ROOT : Z := 1.
Definition MDS_INO_CEPH : Z := 2.
Definition MDS_INO_MDSDIR_OFFSET : Z := 1 * MAX_MDS.
Definition MDS_INO_STRAY_OFFSET : Z := 6 * MAX_MDS.
Definition MDS_INO_LOG_OFFSET : Z := 2 * MAX_MDS.
Definition MDS_INO_LOG_BACKUP_OFFSET : Z := 3 * MAX_MDS.
Definition MDS_INO_LOG_POINTER_OFFSET : Z := 4 * MAX_MDS.
Definition MDS_INO_SYSTEM_BASE : Z := 6 * MAX_MDS + MAX_MDS * NUM_STRAY.

Definition MDS_INO_STRAY (x i : Z) : Z :=
  u32 (MDS_INO_STRAY_OFFSET + u32 (u32 (u32 x * NUM_STRAY) + u32 i)).
Definition MDS_INO_MDSDIR (x : Z) : Z := u32 (MDS_INO_MDSDIR_OFFSET + u32 x).
Definition MDS_INO_IS_STRAY (i : Z) : bool :=
  (MDS_INO_STRAY_OFFSET <=? i) && (i <? MDS_INO_STRAY_OFFSET + MAX_MDS * NUM_STRAY).
Definition MDS_INO_IS_MDSDIR (i : Z) : bool :=
  (MDS_INO_MDSDIR_OFFSET <=? i) && (i <? MDS_INO_MDSDIR_OFFSET + MAX_MDS).
Definition MDS_INO_IS_BASE (i : Z) : bool := (MDS_INO_ROOT =? i) || MDS_INO_IS_MDSDIR i.
Definition MDS_INO_STRAY_OWNER (i : Z) : Z :=
  s32 (u32 (u32 i - MDS_INO_STRAY_OFFSET) / NUM_STRAY).
Definition MDS_INO_STRAY_INDEX (i : Z) : Z :=
  u32 (u32 i - MDS_INO_STRAY_OFFSET) mod NUM_STRAY.

(** ** [vinodeno_t] *)

Record vinodeno_t := mk_vino { v_ino : Z; v_snapid : Z }.

Definition vino_eqb (l r : vinodeno_t) : bool :=
  (v_ino l =? v_ino r) && (v_snapid l =? v_snapid r).
Definition vino_neb (l r : vinodeno_t) : bool := negb (vino_eqb l r).
Definition vino_ltb (l r : vinodeno_t) : bool :=
  (v_ino l <? v_ino r) || ((v_ino l =? v_ino r) && (v_snapid l <? v_snapid r)).

(** ** [client_writeable_range_t] *)

Record client_writeable_range_t := mk_range {
  r_first : Z;
  r_last : Z;
  r_follows : Z
}.

Definition range_new : client_writeable_range_t := mk_range 0 0 0.

Definition range_eqb (l r : client_writeable_range_t) : bool :=
  (r_first l =? r_first r) && (r_last l =? r_last r) && (r_follows l =? r_follows r).

(** ** [inode_t] *)

Class FileLayout (L : Type) := {
  fl_bytes : L -> list Z;
  fl_object_size : L -> Z;
  fl_stripe_count : L -> Z;
  fl_zero : L
}.

Section Inode.
Context {T L : Type} `{UTime T} `{FileLayout L}.

Record inode_t := mk_inode {
  i_ino : Z;
  i_rdev : Z;
  i_ctime : T;
  i_mode : Z;
  i_uid : Z;
  i_gid : Z;
  i_nlink : Z;
  i_dir_layout : L;
  i_layout : L;
  i_old_pools : list Z;
  i_size : Z;
  i_max_size_ever : Z;
  i_truncate_seq : Z;
  i_truncate_size : Z;
  i_truncate_from : Z;
  i_truncate_pending : Z;
  i_mtime : T;
  i_atime : T;
  i_time_warp_seq : Z;
  i_inline_data : list Z;
  i_inline_version : Z;
  i_client_ranges : gmap Z client_writeable_range_t;
  i_dirstat : frag_info_t T;
  i_rstat : nest_info_t T;
  i_accounted_rstat : nest_info_t T;
  i_quota : quota_info_t;
  i_version : Z;
  i_file_data_version : Z;
  i_xattr_version : Z;
  i_backtrace_version : Z;
  i_oldest_snap : Z
}.

Definition set_layout (v : L) (i : inode_t) : inode_t :=
  let '(mk_inode x_ino x_rdev x_ctime x_mode x_uid x_gid x_nlink x_dir_layout _ x_old_pools
    x_size x_max_size_ever x_truncate_seq x_truncate_size x_truncate_from x_truncate_pending
    x_mtime x_atime x_time_warp_seq x_inline_data x_inline_version x_client_ranges x_dirstat
    x_rstat x_accounted_rstat x_quota x_version x_file_data_version x_xattr_version
    x_backtrace_version x_oldest_snap) := i in mk_inode x_ino x_rdev x_ctime x_mode x_uid x_gid
    x_nlink x_dir_layout v x_old_pools x_size x_max_size_ever x_truncate_seq x_truncate_size
    x_truncate_from x_truncate_pending x_mtime x_atime x_time_warp_seq x_inline_data
    x_inline_version x_client_ranges x_dirstat x_rstat x_accounted_rstat x_quota x_version
    x_file_data_version x_xattr_version x_backtrace_version x_oldest_snap.
Definition set_old_pools (v : list Z) (i : inode_t) : inode_t :=
  let '(mk_inode x_ino x_rdev x_ctime x_mode x_uid x_gid x_nlink x_dir_layout x_layout _ x_size
    x_max_size_ever x_truncate_seq x_truncate_size x_truncate_from x_truncate_pending x_mtime
    x_atime x_time_warp_seq x_inline_data x_inline_version x_client_ranges x_dirstat x_rstat
    x_accounted_rstat x_quota x_version x_file_data_version x_xattr_version x_backtrace_version
    x_oldest_snap) := i in mk_inode x_ino x_rdev x_ctime x_mode x_uid x_gid x_nlink x_dir_layout
    x_layout v x_size x_max_size_ever x_truncate_seq x_truncate_size x_truncate_from
    x_truncate_pending x_mtime x_atime x_time_warp_seq x_inline_data x_inline_version
    x_client_ranges x_dirstat x_rstat x_accounted_rstat x_quota x_version x_file_data_version
    x_xattr_version x_backtrace_version x_oldest_snap.
Definition set_size (v : Z) (i : inode_t) : inode_t :=
  let '(mk_inode x_ino x_rdev x_ctime x_mode x_uid x_gid x_nlink x_dir_layout x_layout
    x_old_pools _ x_max_size_ever x_truncate_seq x_truncate_size x_truncate_from
    x_truncate_pending x_mtime x_atime x_time_warp_seq x_inline_data x_inline_version
    x_client_ranges x_dirstat x_rstat x_accounted_rstat x_quota x_version x_file_data_version
    x_xattr_version x_backtrace_version x_oldest_snap) := i in mk_inode x_ino x_rdev x_ctime
    x_mode x_uid x_gid x_nlink x_dir_layout x_layout x_old_pools v x_max_size_ever
    x_truncate_seq x_truncate_size x_truncate_from x_truncate_pending x_mtime x_atime
    x_time_warp_seq x_inline_data x_inline_version x_client_ranges x_dirstat x_rstat
    x_accounted_rstat x_quota x_version x_file_data_version x_xattr_version x_backtrace_version
    x_oldest_snap.
Definition set_max_size_ever (v : Z) (i : inode_t) : inode_t :=
  let '(mk_inode x_ino x_rdev x_ctime x_mode x_uid x_gid x_nlink x_dir_layout x_layout
    x_old_pools x_size _ x_truncate_seq x_truncate_size x_truncate_from x_truncate_pending
    x_mtime x_atime x_time_warp_seq x_inline_data x_inline_version x_client_ranges x_dirstat
    x_rstat x_accounted_rstat x_quota x_version x_file_data_version x_xattr_version
    x_backtrace_version x_oldest_snap) := i in mk_inode x_ino x_rdev x_ctime x_mode x_uid x_gid
    x_nlink x_dir_layout x_layout x_old_pools x_size v x_truncate_seq x_truncate_size
    x_truncate_from x_truncate_pending x_mtime x_atime x_time_warp_seq x_inline_data
    x_inline_version x_client_ranges x_dirstat x_rstat x_accounted_rstat x_quota x_version
    x_file_data_version x_xattr_version x_backtrace_version x_oldest_snap.
Definition set_truncate_seq (v : Z) (i : inode_t) : inode_t :=
  let '(mk_inode x_ino x_rdev x_ctime x_mode x_uid x_gid x_nlink x_dir_layout x_layout
    x_old_pools x_size x_max_size_ever _ x_truncate_size x_truncate_from x_truncate_pending
    x_mtime x_atime x_time_warp_seq x_inline_data x_inline_version x_client_ranges x_dirstat
    x_rstat x_accounted_rstat x_quota x_version x_file_data_version x_xattr_version
    x_backtrace_version x_oldest_snap) := i in mk_inode x_ino x_rdev x_ctime x_mode x_uid x_gid
    x_nlink x_dir_layout x_layout x_old_pools x_size x_max_size_ever v x_truncate_size
    x_truncate_from x_truncate_pending x_mtime x_atime x_time_warp_seq x_inline_data
    x_inline_version x_client_ranges x_dirstat x_rstat x_accounted_rstat x_quota x_version
    x_file_data_version x_xattr_version x_backtrace_version x_oldest_snap.
Definition set_truncate_size (v : Z) (i : inode_t) : inode_t :=
  let '(mk_inode x_ino x_rdev x_ctime x_mode x_uid x_gid x_nlink x_dir_layout x_layout
    x_old_pools x_size x_max_size_ever x_truncate_seq _ x_truncate_from x_truncate_pending
    x_mtime x_atime x_time_warp_seq x_inline_data x_inline_version x_client_ranges x_dirstat
    x_rstat x_accounted_rstat x_quota x_version x_file_data_version x_xattr_version
    x_backtrace_version x_oldest_snap) := i in mk_inode x_ino x_rdev x_ctime x_mode x_uid x_gid
    x_nlink x_dir_layout x_layout x_old_pools x_size x_max_size_ever x_truncate_seq v
    x_truncate_from x_truncate_pending x_mtime x_atime x_time_warp_seq x_inline_data
    x_inline_version x_client_ranges x_dirstat x_rstat x_accounted_rstat x_quota x_version
    x_file_data_version x_xattr_version x_backtrace_version x_oldest_snap.
Definition set_truncate_from (v : Z) (i : inode_t) : inode_t :=
  let '(mk_inode x_ino x_rdev x_ctime x_mode x_uid x_gid x_nlink x_dir_layout x_layout
    x_old_pools x_size x_max_size_ever x_truncate_seq x_truncate_size _ x_truncate_pending
    x_mtime x_atime x_time_warp_seq x_inline_data x_inline_version x_client_ranges x_dirstat
    x_rstat x_accounted_rstat x_quota x_version x_file_data_version x_xattr_version
    x_backtrace_version x_oldest_snap) := i in mk_inode x_ino x_rdev x_ctime x_mode x_uid x_gid
    x_nlink x_dir_layout x_layout x_old_pools x_size x_max_size_ever x_truncate_seq
    x_truncate_size v x_truncate_pending x_mtime x_atime x_time_warp_seq x_inline_data
    x_inline_version x_client_ranges x_dirstat x_rstat x_accounted_rstat x_quota x_version
    x_file_data_version x_xattr_version x_backtrace_version x_oldest_snap.
Definition set_truncate_pending (v : Z) (i : inode_t) : inode_t :=
  let '(mk_inode x_ino x_rdev x_ctime x_mode x_uid x_gid x_nlink x_dir_layout x_layout
    x_old_pools x_size x_max_size_ever x_truncate_seq x_truncate_size x_truncate_from _ x_mtime
    x_atime x_time_warp_seq x_inline_data x_inline_version x_client_ranges x_dirstat x_rstat
    x_accounted_rstat x_quota x_version x_file_data_version x_xattr_version x_backtrace_version
    x_oldest_snap) := i in mk_inode x_ino x_rdev x_ctime x_mode x_uid x_gid x_nlink x_dir_layout
    x_layout x_old_pools x_size x_max_size_ever x_truncate_seq x_truncate_size x_truncate_from v
    x_mtime x_atime x_time_warp_seq x_inline_data x_inline_version x_client_ranges x_dirstat
    x_rstat x_accounted_rstat x_quota x_version x_file_data_version x_xattr_version
    x_backtrace_version x_oldest_snap.
Definition set_client_ranges (v : gmap Z client_writeable_range_t) (i : inode_t) : inode_t :=
  let '(mk_inode x_ino x_rdev x_ctime x_mode x_uid x_gid x_nlink x_dir_layout x_layout
    x_old_pools x_size x_max_size_ever x_truncate_seq x_truncate_size x_truncate_from
    x_truncate_pending x_mtime x_atime x_time_warp_seq x_inline_data x_inline_version _
    x_dirstat x_rstat x_accounted_rstat x_quota x_version x_file_data_version x_xattr_version
    x_backtrace_version x_oldest_snap) := i in mk_inode x_ino x_rdev x_ctime x_mode x_uid x_gid
    x_nlink x_dir_layout x_layout x_old_pools x_size x_max_size_ever x_truncate_seq
    x_truncate_size x_truncate_from x_truncate_pending x_mtime x_atime x_time_warp_seq
    x_inline_data x_inline_version v x_dirstat x_rstat x_accounted_rstat x_quota x_version
    x_file_data_version x_xattr_version x_backtrace_version x_oldest_snap.
Definition set_rstat (v : nest_info_t T) (i : inode_t) : inode_t :=
  let '(mk_inode x_ino x_rdev x_ctime x_mode x_uid x_gid x_nlink x_dir_layout x_layout
    x_old_pools x_size x_max_size_ever x_truncate_seq x_truncate_size x_truncate_from
    x_truncate_pending x_mtime x_atime x_time_warp_seq x_inline_data x_inline_version
    x_client_ranges x_dirstat _ x_accounted_rstat x_quota x_version x_file_data_version
    x_xattr_version x_backtrace_version x_oldest_snap) := i in mk_inode x_ino x_rdev x_ctime
    x_mode x_uid x_gid x_nlink x_dir_layout x_layout x_old_pools x_size x_max_size_ever
    x_truncate_seq x_truncate_size x_truncate_from x_truncate_pending x_mtime x_atime
    x_time_warp_seq x_inline_data x_inline_version x_client_ranges x_dirstat v x_accounted_rstat
    x_quota x_version x_file_data_version x_xattr_version x_backtrace_version x_oldest_snap.
Definition set_backtrace_version (v : Z) (i : inode_t) : inode_t :=
  let '(mk_inode x_ino x_rdev x_ctime x_mode x_uid x_gid x_nlink x_dir_layout x_layout
    x_old_pools x_size x_max_size_ever x_truncate_seq x_truncate_size x_truncate_from
    x_truncate_pending x_mtime x_atime x_time_warp_seq x_inline_data x_inline_version
    x_client_ranges x_dirstat x_rstat x_accounted_rstat x_quota x_version x_file_data_version
    x_xattr_version _ x_oldest_snap) := i in mk_inode x_ino x_rdev x_ctime x_mode x_uid x_gid
    x_nlink x_dir_layout x_layout x_old_pools x_size x_max_size_ever x_truncate_seq
    x_truncate_size x_truncate_from x_truncate_pending x_mtime x_atime x_time_warp_seq
    x_inline_data x_inline_version x_client_ranges x_dirstat x_rstat x_accounted_rstat x_quota
    x_version x_file_data_version x_xattr_version v x_oldest_snap.

Definition inode_new : inode_t :=
  mk_inode 0 0 ut_zero 0 0 0 0 fl_zero fl_zero [] 0 0 0 0 0 0 ut_zero ut_zero 0 [] 1 ∅
    frag_info_new nest_info_new nest_info_new (mk_quota 0 0) 0 0 0 0 0.

(** [S_IFMT] and the file types of <sys/stat.h> (octal 0170000, 0120000, 0040000, 0100000) *)
Definition S_IFMT : Z := 61440.
Definition S_IFLNK : Z := 40960.
Definition S_IFDIR : Z := 16384.
Definition S_IFREG : Z := 32768.

Definition is_symlink (i : inode_t) : bool := Z.land (i_mode i) S_IFMT =? S_IFLNK.
Definition is_dir (i : inode_t) : bool := Z.land (i_mode i) S_IFMT =? S_IFDIR.
Definition is_file (i : inode_t) : bool := Z.land (i_mode i) S_IFMT =? S_IFREG.
Definition is_truncating (i : inode_t) : bool := 0 <? i_truncate_pending i.

Definition nest_set_rbytes (n : nest_info_t T) (v : Z) : nest_info_t T :=
  mk_nest_info (ni_version n) (ni_rctime n) v (ni_rfiles n) (ni_rsubdirs n) (ni_rsnaprealms n).

Definition truncate (i : inode_t) (old_size new_size : Z) : res inode_t :=
  check (new_size <? old_size) ;;
  let i := if i_max_size_ever i <? old_size then set_max_size_ever old_size i else i in
  let i := set_truncate_from old_size i in
  let i := set_size new_size i in
  let i := set_rstat (nest_set_rbytes (i_rstat i) (s64 new_size)) i in
  let i := set_truncate_size (i_size i) i in
  let i := set_truncate_seq (u32 (i_truncate_seq i + 1)) i in
  let i := set_truncate_pending (u32 (i_truncate_pending i + 1)) i in
  Ok i.

Definition has_layout (i : inode_t) : bool :=
  existsb (fun b => negb (b =? 0)) (fl_bytes (i_layout i)).

Definition clear_layout (i : inode_t) : inode_t := set_layout fl_zero i.

Definition get_layout_size_increment (i : inode_t) : Z :=
  u64 (u64 (fl_object_size (i_layout i)) * u64 (fl_stripe_count (i_layout i))).

Definition is_dirty_rstat (i : inode_t) : bool :=
  negb (bool_decide (i_rstat i = i_accounted_rstat i)).

Definition get_max_size (i : inode_t) : Z :=
  fold_left (fun max p => if max <? r_last (snd p) then r_last (snd p) else max)
    (ordered (i_client_ranges i)) 0.

Definition set_max_size (new_max : Z) (i : inode_t) : inode_t :=
  if new_max =? 0 then set_client_ranges ∅ i
  else set_client_ranges
         ((fun r => mk_range (r_first r) new_max (r_follows r)) <$> i_client_ranges i) i.

Definition trim_client_ranges (last : Z) (i : inode_t) : inode_t :=
  set_client_ranges
    (fold_left (fun m p => if last <=? r_follows (snd p) then delete (fst p) m else m)
       (ordered (i_client_ranges i)) (i_client_ranges i)) i.

Definition is_backtrace_updated (i : inode_t) : bool := i_backtrace_version i =? i_version i.

Definition update_backtrace (pv : Z) (i : inode_t) : inode_t :=
  set_backtrace_version (if pv =? 0 then i_version i else pv) i.

Definition add_old_pool (l : Z) (i : inode_t) : inode_t :=
  let i := set_backtrace_version (i_version i) i in
  set_old_pools (i_old_pools i ++ [l]) i.

End Inode.
Arguments inode_t T L : clear implicits.

(** ** Lemmas *)

Section InodeLemmas.
Context {T L : Type} `{UTime T} `{FileLayout L}.

Lemma fold_max_ge l m0 :
  m0 <= fold_left (fun max (p : Z * client_writeable_range_t) =>
          if max <? r_last (snd p) then r_last (snd p) else max) l m0.
Proof.
  revert m0; induction l as [|p l IH]; intros m0; simpl; [lia|].
  etransitivity; [|apply IH]. destruct (Z.ltb_spec m0 (r_last p.2)); lia.
Qed.

Lemma fold_max_spec l m0 :
  let m := fold_left (fun max (p : Z * client_writeable_range_t) =>
             if max <? r_last (snd p) then r_last (snd p) else max) l m0 in
  (forall p, p ∈ l -> r_last p.2 <= m) /\ (m = m0 \/ exists p, p ∈ l /\ r_last p.2 = m).
Proof.
  revert m0; induction l as [|p l IH]; intros m0; simpl.
  - split; [set_solver|auto].
  - specialize (IH (if m0 <? r_last p.2 then r_last p.2 else m0)).
    pose proof (fold_max_ge l (if m0 <? r_last p.2 then r_last p.2 else m0)) as G.
    destruct IH as [I1 I2]. split.
    + intros q [->|Hq]%elem_of_cons; [|auto].
      destruct (Z.ltb_spec m0 (r_last p.2)); lia.
    + destruct I2 as [E|(q & Hq & E)].
      * rewrite E. destruct (Z.ltb_spec m0 (r_last p.2)); [right|by left].
        exists p; split; [left|done].
      * right. exists q. split; [by right|done].
Qed.

Lemma fold_delete_lookup {V} (P : V -> bool) (l : list (Z * V)) (m : gmap Z V) c r :
  NoDup l.*1 -> (forall k v, (k, v) ∈ l -> m !! k = Some v) ->
  fold_left (fun m p => if P (snd p) then delete (fst p) m else m) l m !! c = Some r <->
  m !! c = Some r /\ ~ (P r = true /\ c ∈ l.*1).
Proof.
  revert m; induction l as [|[k v] l IH]; intros m ND Hm; simpl.
  - set_solver.
  - apply NoDup_cons in ND as [Hk ND].
    assert (Hkv : m !! k = Some v) by (apply Hm; left).
    assert (Hl : forall k' v', (k', v') ∈ l -> k' <> k)
      by (intros k' v' Hin ->; apply Hk, (list_elem_of_fmap_2 fst _ _ Hin)).
    destruct (P v) eqn:E; rewrite IH; try done.
    + rewrite lookup_delete_Some, elem_of_cons. split; [naive_solver|].
      intros [E1 E2]. split; [split; [|done]|]; naive_solver congruence.
    + intros k' v' Hin. rewrite lookup_delete_ne by (symmetry; eauto).
      apply Hm. by right.
    + rewrite elem_of_cons. naive_solver congruence.
    + intros k' v' Hin. apply Hm. by right.
Qed.

Lemma client_ranges_set (v : gmap Z client_writeable_range_t) (i : inode_t T L) :
  i_client_ranges (set_client_ranges v i) = v.
Proof. by destruct i. Qed.

Lemma get_max_size_bounds (i : inode_t T L) :
  (forall c r, i_client_ranges i !! c = Some r -> r_last r <= get_max_size i) /\
  (get_max_size i = 0 \/
   exists c r, i_client_ranges i !! c = Some r /\ r_last r = get_max_size i).
Proof.
  destruct (fold_max_spec (ordered (i_client_ranges i)) 0) as [I1 I2].
  fold (get_max_size i) in *. split.
  - intros c r Hr. apply (I1 (c, r)), elem_of_ordered, Hr.
  - destruct I2 as [E|([c r] & Hin & E)]; [by left|right].
    exists c, r. by rewrite <- elem_of_ordered.
Qed.

End InodeLemmas.

(** ** Properties *)

(** The stray inode numbers of rank [x] decode back to their owner and
    index, lie in the stray range and below the first non-system inode number,
    and are neither an MDS directory nor a base inode. *)
Theorem stray_ino_roundtrip x i :
  0 <= x < MAX_MDS -> 0 <= i < NUM_STRAY ->
  let n := MDS_INO_STRAY x i in
  MDS_INO_STRAY_OWNER n = x /\ MDS_INO_STRAY_INDEX n = i /\
  MDS_INO_IS_STRAY n = true /\ MDS_INO_IS_BASE n = false /\ n < MDS_INO_SYSTEM_BASE.
Proof.
  intros Hx Hi. unfold MAX_MDS, NUM_STRAY in Hx, Hi.
  assert (MDS_INO_STRAY x i = 1536 + (x * 10 + i)) as ->.
  { unfold MDS_INO_STRAY, MDS_INO_STRAY_OFFSET, MAX_MDS, NUM_STRAY.
    rewrite (u32_id x), (u32_id i), (u32_id (x * 10)), (u32_id (x * 10 + i)), u32_id
      by (unfold in_u32; lia). lia. }
  unfold MDS_INO_STRAY_OWNER, MDS_INO_STRAY_INDEX, MDS_INO_IS_STRAY,
    MDS_INO_IS_BASE, MDS_INO_IS_MDSDIR, MDS_INO_SYSTEM_BASE, MDS_INO_STRAY_OFFSET,
    MDS_INO_MDSDIR_OFFSET, MDS_INO_ROOT, MAX_MDS, NUM_STRAY. cbv zeta.
  rewrite (u32_id (1536 + _)) by (unfold in_u32; lia).
  replace (1536 + (x * 10 + i) - 6 * 256) with (i + x * 10) by lia.
  rewrite u32_id by (unfold in_u32; lia).
  rewrite Z.div_add, Z.mod_add, Z.div_small, Z.mod_small by lia.
  rewrite s32_id by (unfold in_s32; lia). lia.
Qed.

Lemma stray_ino_roundtrip_witness : MDS_INO_STRAY_OWNER (MDS_INO_STRAY 3 7) = 3.
Proof.
  apply (stray_ino_roundtrip 3 7); unfold MAX_MDS, NUM_STRAY; lia.
Defined.

Section InodeTheorems.
Context {T L : Type} `{UTime T} `{FileLayout L}.

(** [get_max_size] is the largest [last] of the client ranges (0 when there
    is none), whatever the iteration meets first. *)
Theorem get_max_size_spec (i : inode_t T L) :
  (forall c r, i_client_ranges i !! c = Some r -> r_last r <= get_max_size i) /\
  (get_max_size i = 0 \/
   exists c r, i_client_ranges i !! c = Some r /\ r_last r = get_max_size i).
Proof. apply get_max_size_bounds. Qed.

(** [trim_client_ranges last] keeps exactly the ranges that follow a
    snapshot before [last], unchanged. *)
Theorem trim_client_ranges_spec (i : inode_t T L) last c r :
  i_client_ranges (trim_client_ranges last i) !! c = Some r <->
  i_client_ranges i !! c = Some r /\ r_follows r < last.
Proof.
  unfold trim_client_ranges. rewrite client_ranges_set.
  rewrite (fold_delete_lookup (fun r => last <=? r_follows r)).
  - split; intros [E N]; (split; [done|]).
    + destruct (Z.leb_spec last (r_follows r)); [|lia]. exfalso. apply N. split; [done|].
      apply (list_elem_of_fmap_2 fst _ (c, r)), elem_of_ordered, E.
    + intros [N' _]. lia.
  - apply ordered_nodup.
  - intros k v. by rewrite elem_of_ordered.
Qed.

(** [truncate] aborts unless the file shrinks; otherwise it sets the new
    size in [size], [truncate_size] and the accounted bytes, remembers the old size in
    [truncate_from] and in the high-water mark, bumps the truncation sequence and leaves
    the rest of the inode alone. *)
Theorem truncate_spec (i : inode_t T L) old_size new_size :
  match truncate i old_size new_size with
  | Abort => old_size <= new_size
  | Ok j =>
      new_size < old_size /\
      i_size j = new_size /\ i_truncate_size j = new_size /\
      ni_rbytes (i_rstat j) = s64 new_size /\ i_truncate_from j = old_size /\
      i_max_size_ever j = Z.max (i_max_size_ever i) old_size /\
      i_truncate_seq j = u32 (i_truncate_seq i + 1) /\
      i_truncate_pending j = u32 (i_truncate_pending i + 1) /\
      i_client_ranges j = i_client_ranges i /\ i_version j = i_version i /\
      i_ino j = i_ino i /\ i_mode j = i_mode i
  end.
Proof.
  unfold truncate. destruct (Z.ltb_spec new_size old_size); simpl; [|done].
  destruct i; simpl. destruct (Z.ltb_spec i_max_size_ever0 old_size); simpl; split_and!; done || lia.
Qed.

(** After [set_max_size m] every client may write up to [m] exactly, and
    [get_max_size] reads back [m]; [set_max_size 0] revokes all ranges. *)
Theorem set_max_size_get (i : inode_t T L) m :
  0 <= m -> i_client_ranges i <> ∅ \/ m = 0 ->
  get_max_size (set_max_size m i) = m.
Proof.
  intros Hm Hne. pose proof (get_max_size_bounds (set_max_size m i)) as [G1 G2].
  unfold set_max_size in *. destruct (Z.eqb_spec m 0) as [->|Hm0].
  - destruct G2 as [E|(c & r & Hr & _)]; [done|].
    by rewrite client_ranges_set, lookup_empty in Hr.
  - destruct Hne as [Hne|]; [|lia].
    apply map_choose in Hne as (c & r & Hr).
    rewrite client_ranges_set in *.
    assert (m <= get_max_size (set_client_ranges
      ((fun r => mk_range (r_first r) m (r_follows r)) <$> i_client_ranges i) i)) as Hle.
    { apply (G1 c (mk_range (r_first r) m (r_follows r))). by rewrite lookup_fmap, Hr. }
    destruct G2 as [E|(c' & r' & Hr' & E)]; [lia|].
    rewrite lookup_fmap in Hr'. destruct (i_client_ranges i !! c'); simplify_eq/=. lia.
Qed.

End InodeTheorems.

#[export] Instance bytes_layout : FileLayout (list Z) := {|
  fl_bytes := fun l => l;
  fl_object_size := fun l => default 0 (l !! 2%nat);
  fl_stripe_count := fun l => default 0 (l !! 1%nat);
  fl_zero := [0; 0; 0]
|}.

Definition inode_ex : inode_t Z (list Z) :=
  set_client_ranges {[4 := mk_range 0 4096 2; 7 := mk_range 0 8192 9]} inode_new.

Lemma set_max_size_get_witness : get_max_size (set_max_size 100 inode_ex) = 100.
Proof. apply set_max_size_get; [lia|left; vm_compute; discriminate]. Defined.
