(* ===== verification/Keys.v ===== *)
(** * Keys and identifiers (mdstypes.h)

    [dentry_key_t] with its on-disk spelling, [string_snap_t], [metareqid_t],
    [dirfrag_t], [MDSCacheObjectInfo] and their orders.  C strings are lists of
    characters compared as [strcmp] does; [CEPH_NOSNAP], [entity_name_t] and
    [frag_t] come from headers outside the sources and are parameters. *)

From stdpp Require Import base tactics numbers list gmap strings countable.
From Stdlib Require Import ZArith Lia Ascii.
From S2P Require Import Prelude Inodes.
Open Scope Z_scope.
Open Scope list_scope.

Abbreviation cstring := (list ascii).
Definition str (s : string) : cstring := String.list_ascii_of_string s.

Class CephConst := { CEPH_NOSNAP : Z }.

(** ** [strcmp] *)

Fixpoint strcmp (a b : cstring) : comparison :=
  match a, b with
  | [], [] => Eq
  | [], _ => Lt
  | _, [] => Gt
  | x :: a', y :: b' =>
      match N.compare (N_of_ascii x) (N_of_ascii y) with
      | Eq => strcmp a' b'
      | c => c
      end
  end.

#[export] Instance cstring_order : KeyOrder cstring :=
  fun a b => match strcmp a b with Gt => false | _ => true end.

(** ** [dentry_key_t] *)

Record dentry_key_t := mk_key { dk_snapid : Z; dk_name : cstring }.

#[export] Instance dentry_key_eqdec : EqDecision dentry_key_t.
Proof. solve_decision. Defined.

#[export] Instance dentry_key_countable : Countable dentry_key_t :=
  inj_countable' (fun k => (dk_snapid k, dk_name k)) (fun p => mk_key p.1 p.2)
    (fun k => match k with mk_key _ _ => eq_refl end).

Definition dentry_key_ltb (k1 k2 : dentry_key_t) : bool :=
  match strcmp (dk_name k1) (dk_name k2) with
  | Lt => true
  | Eq => dk_snapid k1 <? dk_snapid k2
  | Gt => false
  end.

#[export] Instance dentry_key_order : KeyOrder dentry_key_t :=
  fun a b => negb (dentry_key_ltb b a).

(** [snprintf(b, sizeof(b), "%" PRIx64, val)] *)
Definition hex_digit (d : Z) : ascii :=
  ascii_of_N (Z.to_N (if d <? 10 then 48 + d else 87 + d)).

Fixpoint hex_aux (fuel : nat) (z : Z) (acc : cstring) : cstring :=
  match fuel with
  | O => acc
  | S fuel' =>
      if z <? 16 then hex_digit z :: acc
      else hex_aux fuel' (z / 16) (hex_digit (z mod 16) :: acc)
  end.

Definition print_hex (z : Z) : cstring := hex_aux 16 z [].

Definition dentry_key_encode `{CephConst} (k : dentry_key_t) : cstring :=
  let b := if dk_snapid k =? CEPH_NOSNAP then str "head" else print_hex (dk_snapid k) in
  dk_name k ++ str "_" ++ b.

(** [sscanf(s, "%llx", &x)]: blanks, a sign, an optional [0x], then hexadecimal
    digits, saturating; [x] keeps its value 0 when nothing matches. *)
Definition hex_value (c : ascii) : option Z :=
  let n := Z.of_N (N_of_ascii c) in
  if (48 <=? n) && (n <=? 57) then Some (n - 48)
  else if (97 <=? n) && (n <=? 102) then Some (n - 87)
  else if (65 <=? n) && (n <=? 70) then Some (n - 55)
  else None.

Fixpoint scan_digits (v : Z) (s : cstring) : Z :=
  match s with
  | [] => v
  | c :: s' => match hex_value c with Some d => scan_digits (v * 16 + d) s' | None => v end
  end.

Definition is_space (c : ascii) : bool :=
  let n := Z.of_N (N_of_ascii c) in (n =? 32) || ((9 <=? n) && (n <=? 13)).

Fixpoint skip_space (s : cstring) : cstring :=
  match s with
  | c :: s' => if is_space c then skip_space s' else s
  | [] => []
  end.

Definition strip_0x (s : cstring) : cstring :=
  match s with
  | z :: x :: s' =>
      if bool_decide (z = "0"%char) && (bool_decide (x = "x"%char) || bool_decide (x = "X"%char))
      then s' else s
  | _ => s
  end.

Definition saturate_u64 (z : Z) : Z := Z.min z (2 ^ 64 - 1).

Definition sscanf_llx (s : cstring) : Z :=
  match skip_space s with
  | c :: s' =>
      if bool_decide (c = "-"%char) then
        let v := scan_digits 0 (strip_0x s') in
        if 2 ^ 64 <=? v then 2 ^ 64 - 1 else u64 (- v)
      else if bool_decide (c = "+"%char) then saturate_u64 (scan_digits 0 (strip_0x s'))
      else saturate_u64 (scan_digits 0 (strip_0x (c :: s')))
  | [] => 0
  end.

(** [key.find_last_of(c)] *)
Fixpoint find_last_of (c : ascii) (s : cstring) : option nat :=
  match s with
  | [] => None
  | x :: s' =>
      match find_last_of c s' with
      | Some i => Some (S i)
      | None => if bool_decide (x = c) then Some O else None
      end
  end.

(** [decode_helper(key, nm, sn)] *)
Definition dentry_key_decode `{CephConst} (key : cstring) : res (cstring * Z) :=
  match find_last_of "_"%char key with
  | None => Abort
  | Some i =>
      let rest := drop (S i) key in
      let sn := if bool_decide (rest = str "head") then CEPH_NOSNAP else sscanf_llx rest in
      Ok (take i key, sn)
  end.

(** ** [string_snap_t] *)

Record string_snap_t := mk_ssnap { ss_name : cstring; ss_snapid : Z }.

#[export] Instance string_snap_eqdec : EqDecision string_snap_t.
Proof. solve_decision. Defined.

#[export] Instance string_snap_countable : Countable string_snap_t :=
  inj_countable' (fun k => (ss_snapid k, ss_name k)) (fun p => mk_ssnap p.2 p.1)
    (fun k => match k with mk_ssnap _ _ => eq_refl end).

Definition string_snap_ltb (l r : string_snap_t) : bool :=
  match strcmp (ss_name l) (ss_name r) with
  | Lt => true
  | Eq => ss_snapid l <? ss_snapid r
  | Gt => false
  end.

#[export] Instance string_snap_order : KeyOrder string_snap_t :=
  fun a b => negb (string_snap_ltb b a).

(** ** [metareqid_t] *)

Section Reqid.
Context {N : Type} `{KeyOrder N} `{EqDecision N}.

Record metareqid_t := mk_reqid { rq_name : N; rq_tid : Z }.

Definition reqid_eqb (l r : metareqid_t) : bool :=
  bool_decide (rq_name l = rq_name r) && (rq_tid l =? rq_tid r).
Definition reqid_neb (l r : metareqid_t) : bool :=
  negb (bool_decide (rq_name l = rq_name r)) || negb (rq_tid l =? rq_tid r).
Definition reqid_ltb (l r : metareqid_t) : bool :=
  k_ltb (rq_name l) (rq_name r) ||
  (bool_decide (rq_name l = rq_name r) && (rq_tid l <? rq_tid r)).
Definition reqid_leb (l r : metareqid_t) : bool :=
  k_ltb (rq_name l) (rq_name r) ||
  (bool_decide (rq_name l = rq_name r) && (rq_tid l <=? rq_tid r)).
Definition reqid_gtb (l r : metareqid_t) : bool := negb (reqid_leb l r).
Definition reqid_geb (l r : metareqid_t) : bool := negb (reqid_ltb l r).

End Reqid.
Arguments metareqid_t N : clear implicits.

(** ** [dirfrag_t] and [MDSCacheObjectInfo] *)

Section Dirfrag.
Context {F : Type} `{KeyOrder F} `{EqDecision F}.

Record dirfrag_t := mk_dirfrag { df_ino : Z; df_frag : F }.

Definition dirfrag_ltb (l r : dirfrag_t) : bool :=
  if df_ino l <? df_ino r then true
  else if (df_ino l =? df_ino r) && k_ltb (df_frag l) (df_frag r) then true
  else false.

Definition dirfrag_eqb (l r : dirfrag_t) : bool :=
  (df_ino l =? df_ino r) && bool_decide (df_frag l = df_frag r).

Record object_info_t := mk_info {
  oi_ino : Z;
  oi_dirfrag : dirfrag_t;
  oi_dname : cstring;
  oi_snapid : Z
}.

Definition object_info_eqb (l r : object_info_t) : bool :=
  if negb (oi_ino l =? 0) || negb (oi_ino r =? 0) then
    (oi_ino l =? oi_ino r) && (oi_snapid l =? oi_snapid r)
  else
    dirfrag_eqb (oi_dirfrag l) (oi_dirfrag r) && bool_decide (oi_dname l = oi_dname r).

End Dirfrag.
Arguments dirfrag_t F : clear implicits.
Arguments object_info_t F : clear implicits.

(** ** Lemmas: strict total orders *)

Record strict_total {A} (lt : A -> A -> bool) : Prop := {
  st_irrefl : forall a, lt a a = false;
  st_trans : forall a b c, lt a b = true -> lt b c = true -> lt a c = true;
  st_tricho : forall a b, lt a b = false -> lt b a = false -> a = b
}.

Lemma strict_total_key {A} (lt : A -> A -> bool) :
  strict_total lt -> @KeyOrderOk A (fun a b => negb (lt b a)).
Proof.
  intros [I Tr C]. split; unfold k_leb; intros *; rewrite ?negb_true_iff.
  - destruct (lt b a) eqn:E1; [|by left]. destruct (lt a b) eqn:E2; [|by right].
    pose proof (Tr _ _ _ E1 E2) as E. by rewrite I in E.
  - intros E1 E2. destruct (lt c a) eqn:E3; [|done].
    destruct (lt a b) eqn:E4.
    + by rewrite (Tr _ _ _ E3 E4) in E2.
    + assert (a = b) as -> by auto. congruence.
  - intros E1 E2. by apply C.
Qed.

Lemma strict_total_ltb {K} `{KeyOrder K} `{!KeyOrderOk K} : strict_total k_ltb.
Proof. split; [apply k_ltb_irrefl|apply k_ltb_trans|apply k_ltb_tricho]. Qed.

(** The lexicographic pattern shared by all the [operator<] of this file. *)
Lemma strict_total_lex {A B C} `{EqDecision A} (la : A -> A -> bool) (lb : B -> B -> bool)
    (pa : C -> A) (pb : C -> B) (lt : C -> C -> bool) :
  strict_total la -> strict_total lb ->
  (forall x y, pa x = pa y -> pb x = pb y -> x = y) ->
  (forall x y, lt x y = la (pa x) (pa y) || (bool_decide (pa x = pa y) && lb (pb x) (pb y))) ->
  strict_total lt.
Proof.
  intros [I1 T1 C1] [I2 T2 C2] Inj E. split.
  - intros a. by rewrite E, I1, I2, andb_false_r.
  - intros a b c. rewrite !E, !orb_true_iff, !andb_true_iff, !bool_decide_eq_true.
    intros [X|[X X']] [Y|[Y Y']].
    + left. eauto.
    + left. by rewrite <- Y.
    + left. by rewrite X.
    + right. split; [congruence|eauto].
  - intros a b. rewrite !E, !orb_false_iff. intros [X X'] [Y Y'].
    assert (pa a = pa b) as F by auto.
    rewrite bool_decide_true in X', Y' by done. apply Inj; [done|auto].
Qed.

Lemma strict_total_Z : strict_total Z.ltb.
Proof. split; intros; lia. Qed.

Lemma strcmp_refl a : strcmp a a = Eq.
Proof. induction a as [|x a IH]; simpl; [done|]. by rewrite N.compare_refl. Qed.

Lemma strcmp_eq a b : strcmp a b = Eq -> a = b.
Proof.
  revert b; induction a as [|x a IH]; intros [|y b]; simpl; try done.
  destruct (N.compare_spec (N_of_ascii x) (N_of_ascii y)) as [E| |]; try done.
  intros S. f_equal; [|by apply IH].
  by rewrite <- (ascii_N_embedding x), <- (ascii_N_embedding y), E.
Qed.

Lemma strcmp_antisym a b : strcmp b a = CompOpp (strcmp a b).
Proof.
  revert b; induction a as [|x a IH]; intros [|y b]; simpl; try done.
  rewrite (N.compare_antisym (N_of_ascii x) (N_of_ascii y)).
  destruct (N.compare _ _); simpl; auto.
Qed.

Lemma strcmp_lt_trans a b c : strcmp a b = Lt -> strcmp b c = Lt -> strcmp a c = Lt.
Proof.
  revert b c; induction a as [|x a IH]; intros [|y b] [|z c]; simpl; try done.
  destruct (N.compare_spec (N_of_ascii x) (N_of_ascii y)) as [E1|E1|E1],
           (N.compare_spec (N_of_ascii y) (N_of_ascii z)) as [E2|E2|E2]; try done; intros S1 S2.
  - rewrite E1, E2, N.compare_refl. eauto.
  - rewrite E1. apply N.compare_lt_iff in E2. by rewrite E2.
  - rewrite <- E2. apply N.compare_lt_iff in E1. by rewrite E1.
  - assert (N_of_ascii x < N_of_ascii z)%N as L by lia. apply N.compare_lt_iff in L. by rewrite L.
Qed.

Definition strcmp_ltb (a b : cstring) : bool := match strcmp a b with Lt => true | _ => false end.

Lemma strict_total_strcmp : strict_total strcmp_ltb.
Proof.
  unfold strcmp_ltb. split.
  - intros a. by rewrite strcmp_refl.
  - intros a b c. destruct (strcmp a b) eqn:E1, (strcmp b c) eqn:E2; try done.
    by rewrite (strcmp_lt_trans _ _ _ E1 E2).
  - intros a b. rewrite (strcmp_antisym a b). destruct (strcmp a b) eqn:E; try done.
    intros. by apply strcmp_eq.
Qed.

Lemma strcmp_lex {C} (pa : C -> cstring) (pb : C -> Z) (x y : C) :
  match strcmp (pa x) (pa y) with Lt => true | Eq => pb x <? pb y | Gt => false end =
  strcmp_ltb (pa x) (pa y) || (bool_decide (pa x = pa y) && (pb x <? pb y)).
Proof.
  unfold strcmp_ltb. destruct (strcmp (pa x) (pa y)) eqn:E; simpl; [|done|].
  - by rewrite bool_decide_true by (by apply strcmp_eq).
  - rewrite bool_decide_false; [done|]. intros F. by rewrite F, strcmp_refl in E.
Qed.

Lemma dentry_key_ltb_total : strict_total dentry_key_ltb.
Proof.
  apply (strict_total_lex _ _ dk_name dk_snapid _ strict_total_strcmp strict_total_Z).
  - intros [] []; simpl; congruence.
  - intros x y. apply (strcmp_lex dk_name dk_snapid).
Qed.

Lemma string_snap_ltb_total : strict_total string_snap_ltb.
Proof.
  apply (strict_total_lex _ _ ss_name ss_snapid _ strict_total_strcmp strict_total_Z).
  - intros [] []; simpl; congruence.
  - intros x y. apply (strcmp_lex ss_name ss_snapid).
Qed.

#[export] Instance dentry_key_order_ok : KeyOrderOk dentry_key_t.
Proof. apply strict_total_key, dentry_key_ltb_total. Qed.

#[export] Instance string_snap_order_ok : KeyOrderOk string_snap_t.
Proof. apply strict_total_key, string_snap_ltb_total. Qed.

Lemma dentry_key_k_ltb a b : k_ltb a b = dentry_key_ltb a b.
Proof. unfold k_ltb, k_leb, dentry_key_order. by rewrite negb_involutive. Qed.

(** ** Lemmas: the on-disk spelling *)

Lemma hex_value_digit d : 0 <= d < 16 -> hex_value (hex_digit d) = Some d.
Proof.
  intros Hd.
  assert (d = 0 \/ d = 1 \/ d = 2 \/ d = 3 \/ d = 4 \/ d = 5 \/ d = 6 \/ d = 7 \/ d = 8 \/
    d = 9 \/ d = 10 \/ d = 11 \/ d = 12 \/ d = 13 \/ d = 14 \/ d = 15) as C by lia.
  destruct_or! C; subst; reflexivity.
Qed.

Lemma scan_hex_aux fuel z acc :
  0 <= z < 16 ^ Z.of_nat fuel -> (0 < fuel)%nat ->
  scan_digits 0 (hex_aux fuel z acc) = scan_digits z acc.
Proof.
  revert z acc; induction fuel as [|fuel IH]; intros z acc Hz Hf; [lia|].
  simpl hex_aux. destruct (Z.ltb_spec z 16) as [L|G].
  - simpl. rewrite hex_value_digit by lia. f_equal.
  - rewrite Nat2Z.inj_succ, Z.pow_succ_r in Hz by lia.
    assert (z / 16 < 16 ^ Z.of_nat fuel) by (apply Z.div_lt_upper_bound; lia).
    assert (0 < z / 16) by (apply Z.div_str_pos; lia).
    destruct fuel as [|fuel]; [simpl in *; lia|].
    rewrite IH by lia. cbn [scan_digits]. rewrite hex_value_digit by (apply Z.mod_pos_bound; lia).
    f_equal. rewrite (Z.div_mod z 16) at 3 by lia. lia.
Qed.

(** Every character printed is a hexadecimal digit. *)
Lemma hex_aux_digits fuel z acc :
  0 <= z -> Forall (fun c => hex_value c <> None) acc ->
  Forall (fun c => hex_value c <> None) (hex_aux fuel z acc).
Proof.
  revert z acc; induction fuel as [|fuel IH]; intros z acc Hz Hacc; simpl; [done|].
  destruct (Z.ltb_spec z 16).
  - constructor; [by rewrite hex_value_digit by lia|done].
  - apply IH; [apply Z.div_pos; lia|]. constructor; [|done].
    by rewrite hex_value_digit by (apply Z.mod_pos_bound; lia).
Qed.

Lemma hex_aux_nonempty fuel z acc : (0 < fuel)%nat -> hex_aux fuel z acc <> [].
Proof.
  revert z acc; induction fuel as [|fuel IH]; intros z acc H; simpl; [lia|].
  destruct (z <? 16); [done|]. destruct fuel; [done|]. apply IH. lia.
Qed.

(** On a string of hexadecimal digits the scanner meets no blank, sign or [0x]. *)
Lemma sscanf_digits s :
  s <> [] -> Forall (fun c => hex_value c <> None) s ->
  sscanf_llx s = saturate_u64 (scan_digits 0 s).
Proof.
  intros Hne Hall. destruct s as [|c s]; [done|].
  pose proof (Forall_inv Hall) as Hc. pose proof (Forall_inv_tail Hall) as Hs.
  assert (is_space c = false) as Sp.
  { destruct (is_space c) eqn:E; [|done]. exfalso. apply Hc.
    unfold is_space in E. unfold hex_value. cbv zeta in *. repeat case_match; done || lia. }
  unfold sscanf_llx. simpl skip_space. rewrite Sp.
  rewrite !bool_decide_false by (intros ->; by apply Hc).
  do 2 f_equal. unfold strip_0x. destruct s as [|x s]; [done|].
  pose proof (Forall_inv Hs) as Hx.
  rewrite !(bool_decide_false (x = _)) by (intros ->; by apply Hx).
  by rewrite andb_false_r.
Qed.

Lemma find_last_of_none c s : c ∉ s -> find_last_of c s = None.
Proof.
  induction s as [|x s IH]; simpl; [done|]. intros Hn.
  rewrite IH by set_solver. rewrite bool_decide_false; [done|]. set_solver.
Qed.

Lemma find_last_of_app c s t : c ∉ t -> find_last_of c (s ++ c :: t) = Some (length s).
Proof.
  intros Ht. induction s as [|x s IH]; simpl.
  - rewrite find_last_of_none by done. by rewrite bool_decide_true.
  - by rewrite IH.
Qed.

Lemma digits_no_char c s :
  hex_value c = None -> Forall (fun x => hex_value x <> None) s -> c ∉ s.
Proof. intros Hc Hs Hin. exact (Forall_elem _ _ _ Hs Hin Hc). Qed.

Lemma print_hex_not_head z : 0 <= z -> print_hex z <> str "head".
Proof.
  intros Hz E. assert (Forall (fun c => hex_value c <> None) (str "head")) as F
    by (rewrite <- E; apply hex_aux_digits; [done|constructor]).
  by apply Forall_inv in F.
Qed.

Lemma dentry_key_decode_encode `{CephConst} name snapid :
  in_u64 snapid ->
  dentry_key_decode (dentry_key_encode (mk_key snapid name)) = Ok (name, snapid).
Proof.
  intros [Hs0 Hs1]. unfold dentry_key_encode, dentry_key_decode; simpl.
  set (b := if snapid =? CEPH_NOSNAP then str "head" else print_hex snapid).
  assert (Forall (fun c => hex_value c <> None) (print_hex snapid)) as HD
    by (by apply hex_aux_digits).
  assert ("_"%char ∉ b) as Hb.
  { unfold b. destruct (_ =? _); [vm_compute; set_solver|]. by apply digits_no_char. }
  rewrite find_last_of_app by done.
  replace (S (length name)) with (length name + 1)%nat by lia.
  rewrite drop_app_add, take_app_length. simpl. rewrite drop_0. unfold b.
  destruct (Z.eqb_spec snapid CEPH_NOSNAP) as [->|Hne].
  - by rewrite bool_decide_true.
  - rewrite bool_decide_false by (by apply print_hex_not_head).
    rewrite sscanf_digits; [|apply hex_aux_nonempty; lia|done].
    unfold print_hex. rewrite scan_hex_aux by (simpl; lia). simpl.
    unfold saturate_u64. by rewrite Z.min_l by lia.
Qed.

(** ** Properties *)

(** C39: [decode_helper] inverts [dentry_key_t::encode]: any name (it may itself
    contain underscores or end in "_head") and any 64-bit snapshot id, head included, come
    back from the key stored on disk. *)
Theorem dentry_key_roundtrip `{CephConst} name snapid :
  in_u64 snapid ->
  dentry_key_decode (dentry_key_encode (mk_key snapid name)) = Ok (name, snapid).
Proof. apply dentry_key_decode_encode. Qed.

(** The [operator<] of dentry keys, [string_snap_t], [vinodeno_t] and
    [metareqid_t] are strict total orders, so each names every element of a [std::map] or
    [std::set] exactly once. *)
Theorem key_orders_strict_total {N} `{KeyOrder N} `{!KeyOrderOk N} `{EqDecision N} :
  strict_total dentry_key_ltb /\ strict_total string_snap_ltb /\
  strict_total vino_ltb /\ strict_total (@reqid_ltb N _ _).
Proof.
  split_and!; [apply dentry_key_ltb_total|apply string_snap_ltb_total| |].
  - apply (strict_total_lex _ _ v_ino v_snapid _ strict_total_Z strict_total_Z).
    + intros [] []; simpl; congruence.
    + intros x y. unfold vino_ltb. destruct (Z.eqb_spec (v_ino x) (v_ino y)) as [E|E].
      * by rewrite bool_decide_true.
      * by rewrite bool_decide_false.
  - apply (strict_total_lex _ _ rq_name rq_tid _ strict_total_ltb strict_total_Z).
    + intros [] []; simpl; congruence.
    + done.
Qed.

(** The other comparisons of [metareqid_t] are the ones this order
    determines: [<=] is [<] or [==], [>] and [>=] are their converses, [!=] negates [==]. *)
Theorem reqid_comparisons {N : Type} `{KeyOrder N} `{!KeyOrderOk N} `{EqDecision N}
    (l r : metareqid_t N) :
  reqid_leb l r = reqid_ltb l r || reqid_eqb l r /\
  reqid_gtb l r = reqid_ltb r l /\ reqid_geb l r = reqid_leb r l /\
  reqid_neb l r = negb (reqid_eqb l r) /\ (reqid_eqb l r = true <-> l = r).
Proof.
  destruct l as [n t], r as [n' t'].
  unfold reqid_geb, reqid_gtb, reqid_leb, reqid_ltb, reqid_eqb, reqid_neb; simpl.
  destruct (decide (n = n')) as [->|Hne].
  - rewrite !bool_decide_true, !k_ltb_irrefl by done. simpl.
    split_and!; try lia. rewrite Z.eqb_eq. naive_solver.
  - rewrite !(bool_decide_false) by congruence. simpl. rewrite !orb_false_r.
    assert (k_ltb n n' = negb (k_ltb n' n)) as E.
    { destruct (k_ltb n n') eqn:E1, (k_ltb n' n) eqn:E2; try done.
      - pose proof (k_ltb_trans _ _ _ E1 E2) as E. by rewrite k_ltb_irrefl in E.
      - by destruct Hne; apply k_ltb_tricho. }
    rewrite E, negb_involutive. split_and!; naive_solver.
Qed.

Definition nosnap64 : CephConst := {| CEPH_NOSNAP := 2 ^ 64 - 2 |}.

Lemma dentry_key_roundtrip_witness :
  @dentry_key_decode nosnap64 (@dentry_key_encode nosnap64 (mk_key 48879 (str "a_head_beef")))
  = Ok (str "a_head_beef", 48879).
Proof. apply (@dentry_key_roundtrip nosnap64). unfold in_u64; lia. Defined.

Lemma key_orders_strict_total_witness : strict_total (@reqid_ltb Z _ _).
Proof. apply (@key_orders_strict_total Z _ _ _). Defined.

Lemma reqid_comparisons_witness :
  reqid_leb (mk_reqid 3 7) (mk_reqid 3 9) = true.
Proof. rewrite (proj1 (@reqid_comparisons Z _ _ _ (mk_reqid 3 7) (mk_reqid 3 9))). reflexivity. Defined.
