(* ===== verification/CacheObject.v ===== *)
(** * Cache objects (class MDSCacheObject of mdstypes.h)

    State bits, the reference count with its per-pin map ([MDS_REF_SET] is
    defined), the replica map and the waiters, which every cached directory, dentry and
    inode inherits.  The virtual hooks [first_get], [last_put] and [_put], which the
    subclasses override, are recorded as a trace of calls. *)

From stdpp Require Import base tactics numbers list gmap fin_maps sorting.
From Stdlib Require Import ZArith Lia Sorting.
From S2P Require Import Prelude.
Open Scope Z_scope.

Definition PIN_REPLICATED : Z := 1000.
Definition PIN_DIRTY : Z := 1001.
Definition PIN_LOCK : Z := -1002.
Definition PIN_REQUEST : Z := -1003.
Definition PIN_WAITER : Z := 1004.
Definition PIN_DIRTYSCATTERED : Z := -1005.
Definition PIN_AUTHPIN : Z := 1006.
Definition PIN_PTRWAITER : Z := -1007.
Definition PIN_TEMPEXPORTING : Z := 1008.
Definition PIN_CLIENTLEASE : Z := 1009.

Definition STATE_AUTH : Z := Z.shiftl 1 30.
Definition STATE_DIRTY : Z := Z.shiftl 1 29.
Definition STATE_NOTIFYREF : Z := Z.shiftl 1 28.
Definition STATE_REJOINING : Z := Z.shiftl 1 27.
Definition STATE_REJOINUNDEF : Z := Z.shiftl 1 26.

Definition WAIT_SINGLEAUTH : Z := Z.shiftl 1 60.
Definition WAIT_UNFREEZE : Z := Z.shiftl 1 59.

Create HintDb cobj.

Inductive hook := FirstGet | LastPut | NotifyPut.

Section CacheObject.
Context {C : Type}.

Record cobj := mk_cobj {
  co_state : Z;
  co_ref : Z;
  co_ref_map : gmap Z Z;
  co_replica_nonce : Z;
  co_replica_map : gmap Z Z;
  co_waiting : list (Z * C)
}.

Definition cobj_new : cobj := mk_cobj 0 0 ∅ 0 ∅ [].

Definition set_co_state (v : Z) (o : cobj) : cobj :=
  mk_cobj v (co_ref o) (co_ref_map o) (co_replica_nonce o) (co_replica_map o) (co_waiting o).
Definition set_refs (r : Z) (m : gmap Z Z) (o : cobj) : cobj :=
  mk_cobj (co_state o) r m (co_replica_nonce o) (co_replica_map o) (co_waiting o).
Definition set_replicas (m : gmap Z Z) (o : cobj) : cobj :=
  mk_cobj (co_state o) (co_ref o) (co_ref_map o) (co_replica_nonce o) m (co_waiting o).
Definition set_waiting (w : list (Z * C)) (o : cobj) : cobj :=
  mk_cobj (co_state o) (co_ref o) (co_ref_map o) (co_replica_nonce o) (co_replica_map o) w.
Definition set_replica_nonce (n : Z) (o : cobj) : cobj :=
  mk_cobj (co_state o) (co_ref o) (co_ref_map o) n (co_replica_map o) (co_waiting o).

(** ** State bits *)

Definition state_test (o : cobj) (mask : Z) : bool := has_bits (co_state o) mask.
Definition state_clear (mask : Z) (o : cobj) : cobj :=
  set_co_state (Z.ldiff (co_state o) mask) o.
Definition state_set (mask : Z) (o : cobj) : cobj :=
  set_co_state (Z.lor (co_state o) mask) o.
Definition state_reset (s : Z) (o : cobj) : cobj := set_co_state s o.

Definition is_auth (o : cobj) : bool := state_test o STATE_AUTH.
Definition is_dirty (o : cobj) : bool := state_test o STATE_DIRTY.
Definition is_clean (o : cobj) : bool := negb (is_dirty o).
Definition is_rejoining (o : cobj) : bool := state_test o STATE_REJOINING.

(** ** Pins *)

(** [ref_map[by]]: 0 when there is no entry *)
Definition pins (o : cobj) (by_ : Z) : Z := default 0 (co_ref_map o !! by_).

Definition get_num_ref (o : cobj) (by_ : Z) : Z :=
  if 0 <=? by_ then match co_ref_map o !! by_ with None => 0 | Some n => n end else co_ref o.

Definition get_pin_totals (o : cobj) : Z :=
  fold_left (fun total i => s32 (total + snd i)) (ordered (co_ref_map o)) 0.

Definition bad_put (o : cobj) (by_ : Z) : res (cobj * list hook) :=
  check (0 <? pins o by_) ;; check (0 <? co_ref o) ;; Ok (o, []).

Definition put (o : cobj) (by_ : Z) : res (cobj * list hook) :=
  if (co_ref o =? 0) || (pins o by_ =? 0) then bad_put o by_
  else
    let o := set_refs (s32 (co_ref o - 1)) (<[by_ := s32 (pins o by_ - 1)]> (co_ref_map o)) o in
    check (co_ref o =? get_pin_totals o) ;;
    Ok (o, (if co_ref o =? 0 then [LastPut] else []) ++
           (if state_test o STATE_NOTIFYREF then [NotifyPut] else [])).

Definition get (o : cobj) (by_ : Z) : res (cobj * list hook) :=
  let hooks := if co_ref o =? 0 then [FirstGet] else [] in
  let o := set_refs (s32 (co_ref o + 1)) (<[by_ := s32 (pins o by_ + 1)]> (co_ref_map o)) o in
  check (co_ref o =? get_pin_totals o) ;;
  Ok (o, hooks).

(** ** Replicas *)

Definition is_replicated (o : cobj) : bool := negb (bool_decide (co_replica_map o = ∅)).
Definition is_replica (o : cobj) (mds : Z) : bool := bool_decide (is_Some (co_replica_map o !! mds)).
Definition num_replicas (o : cobj) : Z := s32 (Z.of_nat (size (co_replica_map o))).

Definition add_replica (o : cobj) (mds : Z) : res (cobj * list hook * Z) :=
  match co_replica_map o !! mds with
  | Some n =>
      let n' := u32 (n + 1) in
      Ok (set_replicas (<[mds := n']> (co_replica_map o)) o, [], n')
  | None =>
      '(o, hs) ← (if is_replicated o then Ok (o, []) else get o PIN_REPLICATED);
      Ok (set_replicas (<[mds := 1]> (co_replica_map o)) o, hs, 1)
  end.

Definition add_replica_nonce (o : cobj) (mds nonce : Z) : res (cobj * list hook) :=
  '(o, hs) ← (if is_replicated o then Ok (o, []) else get o PIN_REPLICATED);
  Ok (set_replicas (<[mds := nonce]> (co_replica_map o)) o, hs).

Definition get_replica_nonce_of (o : cobj) (mds : Z) : res Z :=
  match co_replica_map o !! mds with Some n => Ok n | None => Abort end.

Definition remove_replica (o : cobj) (mds : Z) : res (cobj * list hook) :=
  check (is_replica o mds) ;;
  let o := set_replicas (delete mds (co_replica_map o)) o in
  if is_replicated o then Ok (o, []) else put o PIN_REPLICATED.

Definition clear_replica_map (o : cobj) : res (cobj * list hook) :=
  '(o, hs) ← (if is_replicated o then put o PIN_REPLICATED else Ok (o, []));
  Ok (set_replicas ∅ o, hs).

Definition list_replicas (o : cobj) (ls : gset Z) : gset Z :=
  fold_left (fun s p => {[fst p]} ∪ s) (ordered (co_replica_map o)) ls.

(** ** Waiters *)

(** [while (min & (min-1)) min &= min-1], 64 rounds at most *)
Fixpoint top_bit (fuel : nat) (min : Z) : Z :=
  match fuel with
  | O => min
  | S fuel' =>
      if Z.land min (u64 (min - 1)) =? 0 then min
      else top_bit fuel' (Z.land min (u64 (min - 1)))
  end.

Fixpoint scan_waiters (mask : Z) (w : list (Z * C)) : bool :=
  match w with
  | [] => false
  | p :: w' =>
      if has_bits (fst p) mask then true
      else if mask <? fst p then false
      else scan_waiters mask w'
  end.

Definition is_waiter_for (o : cobj) (mask min : Z) : bool :=
  let min := if min =? 0 then top_bit 64 mask else min in
  scan_waiters mask (drop_below min (co_waiting o)).

Definition add_waiter (o : cobj) (mask : Z) (c : C) : res (cobj * list hook) :=
  '(o, hs) ← (match co_waiting o with [] => get o PIN_WAITER | _ => Ok (o, []) end);
  Ok (set_waiting (mm_insert mask c (co_waiting o)) o, hs).

(** one step of the erase loop: what is taken so far, what stays *)
Fixpoint take_loop (mask : Z) (w : list (Z * C)) (ls : list C) : list C * list (Z * C) :=
  match w with
  | [] => (ls, [])
  | p :: w' =>
      if has_bits (fst p) mask then take_loop mask w' (ls ++ [snd p])
      else let '(ls', rest) := take_loop mask w' ls in (ls', p :: rest)
  end.

Definition take_waiting (o : cobj) (mask : Z) (ls : list C) : res (cobj * list hook * list C) :=
  match co_waiting o with
  | [] => Ok (o, [], ls)
  | w =>
      let '(ls, rest) := take_loop mask w ls in
      let o := set_waiting rest o in
      '(o, hs) ← (match rest with [] => put o PIN_WAITER | _ => Ok (o, []) end);
      Ok (o, hs, ls)
  end.

End CacheObject.
Arguments cobj C : clear implicits.

(** ** The invariant of a cache object *)

(** The sum of all pins. *)
Definition pin_sum (m : gmap Z Z) : Z := map_fold (fun _ v acc => v + acc) 0 m.

(** The count is the sum of the pins, each pin is held a non-negative number of
    times, and the count fits its [__s32]. *)
Record refs_ok {C} (o : cobj C) : Prop := {
  ro_sum : co_ref o = pin_sum (co_ref_map o);
  ro_nonneg : forall by_ n, co_ref_map o !! by_ = Some n -> 0 <= n;
  ro_small : pin_sum (co_ref_map o) < 2 ^ 31
}.

(** [PIN_REPLICATED] and [PIN_WAITER] are held once exactly while there is a
    replica, or a waiter. *)
Record obj_ok {C} (o : cobj C) : Prop := {
  oo_refs : refs_ok o;
  oo_replicated : pins o PIN_REPLICATED = (if decide (co_replica_map o = ∅) then 0 else 1);
  oo_waiter : pins o PIN_WAITER = (match co_waiting o with [] => 0 | _ => 1 end)
}.

(** ** Lemmas *)

Lemma pin_sum_insert_fresh m k v : m !! k = None -> pin_sum (<[k := v]> m) = v + pin_sum m.
Proof.
  intros Hk. unfold pin_sum. rewrite map_fold_insert_L; [done| |done].
  intros; lia.
Qed.

Lemma pin_sum_delete m k : pin_sum m = default 0 (m !! k) + pin_sum (delete k m).
Proof.
  destruct (m !! k) as [v|] eqn:E; simpl.
  - rewrite <- (insert_delete_id m k v E) at 1.
    by rewrite pin_sum_insert_fresh by apply lookup_delete_eq.
  - by rewrite delete_id.
Qed.

Lemma pin_sum_insert m k v : pin_sum (<[k := v]> m) = pin_sum m - default 0 (m !! k) + v.
Proof.
  rewrite (pin_sum_delete m k), (pin_sum_delete (<[k := v]> m) k).
  rewrite lookup_insert_eq, delete_insert_eq. simpl. lia.
Qed.

Lemma pin_sum_nonneg m : (forall k n, m !! k = Some n -> 0 <= n) -> 0 <= pin_sum m.
Proof.
  induction m as [|k v m Hk IH] using map_ind; intros Hm; [done|].
  rewrite pin_sum_insert_fresh by done.
  assert (0 <= v) by (apply (Hm k); apply lookup_insert_eq).
  assert (0 <= pin_sum m); [|lia]. apply IH. intros k' n Hn. apply (Hm k').
  rewrite lookup_insert_ne; [done|]. intros ->. congruence.
Qed.

Lemma fold_s32 {K} (l : list (K * Z)) a :
  fold_left (fun t i => s32 (t + snd i)) l (s32 a) =
  s32 (a + foldr (fun i acc => snd i + acc) 0 l).
Proof.
  revert a; induction l as [|i l IH]; intros a; simpl; [by rewrite Z.add_0_r|].
  rewrite s32_idem_l, IH. f_equal. lia.
Qed.

Lemma pin_sum_list (m : gmap Z Z) (l : list (Z * Z)) :
  l ≡ₚ map_to_list m -> pin_sum m = foldr (fun i acc => snd i + acc) 0 l.
Proof.
  intros P. unfold pin_sum.
  transitivity (foldr (fun i acc => snd i + acc) 0 (map_to_list m)).
  - rewrite map_fold_foldr. clear P. induction (map_to_list m) as [|[] ? IH]; simpl; [done|]. by f_equal.
  - symmetry. induction P as [| | |? ? ? ? IH1 ? IH2]; simpl; lia.
Qed.

Section ObjLemmas.
Context {C : Type}.
Implicit Types o : cobj C.

Lemma pin_totals_sum o : get_pin_totals o = s32 (pin_sum (co_ref_map o)).
Proof.
  unfold get_pin_totals. change 0 with (s32 0) at 1. rewrite fold_s32.
  f_equal. by rewrite (pin_sum_list _ (ordered (co_ref_map o))) by apply ordered_perm.
Qed.

Lemma pins_le_sum o k : refs_ok o -> 0 <= pins o k <= co_ref o.
Proof.
  intros [S N _]. rewrite S, (pin_sum_delete _ k). unfold pins.
  assert (0 <= default 0 (co_ref_map o !! k))
    by (destruct (co_ref_map o !! k) eqn:E; simpl; [eauto|lia]).
  assert (0 <= pin_sum (delete k (co_ref_map o))); [|lia].
  apply pin_sum_nonneg. intros k' n Hn. apply (N k').
  by apply lookup_delete_Some in Hn as [_ ?].
Qed.

(** The object after [n] more pins of kind [k]. *)
Definition repin (n k : Z) (o : cobj C) : cobj C :=
  set_refs (co_ref o + n) (<[k := pins o k + n]> (co_ref_map o)) o.

Lemma repin_ok n k o :
  refs_ok o -> 0 <= pins o k + n -> co_ref o + n < 2 ^ 31 -> refs_ok (repin n k o).
Proof.
  intros R Hp Hr. pose proof R as [S N B]. unfold repin. split; simpl.
  - rewrite pin_sum_insert, S. unfold pins. lia.
  - intros by_ m. destruct (decide (by_ = k)) as [->|Hne].
    + rewrite lookup_insert_eq. intros; simplify_eq. lia.
    + rewrite lookup_insert_ne by done. apply N.
  - rewrite pin_sum_insert, <- S. unfold pins in *. lia.
Qed.

Lemma pins_repin n k k' o :
  pins (repin n k o) k' = if decide (k' = k) then pins o k + n else pins o k'.
Proof.
  unfold pins, repin; simpl. case_decide as E; subst.
  - by rewrite lookup_insert_eq.
  - by rewrite lookup_insert_ne by done.
Qed.

Lemma get_ok o by_ :
  refs_ok o -> co_ref o < 2 ^ 31 - 1 ->
  get o by_ = Ok (repin 1 by_ o, if co_ref o =? 0 then [FirstGet] else []).
Proof.
  intros R B. pose proof (pins_le_sum o by_ R) as P. unfold get.
  assert (s32 (co_ref o + 1) = co_ref o + 1) as -> by (apply s32_id; unfold in_s32; lia).
  assert (s32 (pins o by_ + 1) = pins o by_ + 1) as -> by (apply s32_id; unfold in_s32; lia).
  fold (repin 1 by_ o). assert (refs_ok (repin 1 by_ o)) as R' by (apply repin_ok; lia || done).
  rewrite check_true; [done|]. rewrite pin_totals_sum, <- (ro_sum _ R').
  rewrite s32_id; [lia|]. unfold in_s32. simpl. lia.
Qed.

Lemma put_ok o by_ :
  refs_ok o -> 0 < pins o by_ ->
  put o by_ = Ok (repin (-1) by_ o,
                  (if co_ref o =? 1 then [LastPut] else []) ++
                  (if state_test o STATE_NOTIFYREF then [NotifyPut] else [])).
Proof.
  intros R Hp. pose proof (pins_le_sum o by_ R) as P. pose proof R as [S N B]. unfold put.
  rewrite (proj2 (Z.eqb_neq (co_ref o) 0)), (proj2 (Z.eqb_neq (pins o by_) 0)) by lia. simpl.
  assert (s32 (co_ref o - 1) = co_ref o + -1) as -> by (apply s32_id; unfold in_s32; lia).
  assert (s32 (pins o by_ - 1) = pins o by_ + -1) as -> by (apply s32_id; unfold in_s32; lia).
  fold (repin (-1) by_ o).
  assert (refs_ok (repin (-1) by_ o)) as R' by (apply repin_ok; lia || done).
  rewrite check_true; simpl.
  - by replace (co_ref o + -1 =? 0) with (co_ref o =? 1) by lia.
  - rewrite pin_totals_sum, <- (ro_sum _ R'). rewrite s32_id; [simpl; lia|].
    unfold in_s32. simpl. lia.
Qed.

Lemma put_abort o by_ : refs_ok o -> pins o by_ = 0 -> put o by_ = Abort.
Proof.
  intros R Hp. unfold put, bad_put. rewrite Hp. simpl. by rewrite orb_true_r.
Qed.

(** The pins of other kinds, and the other fields, are not touched. *)
Lemma obj_ok_repin n k o :
  obj_ok o -> k <> PIN_REPLICATED -> k <> PIN_WAITER ->
  0 <= pins o k + n -> co_ref o + n < 2 ^ 31 -> obj_ok (repin n k o).
Proof.
  intros [R E1 E2] H1 H2 Hp Hr. split; [by apply repin_ok| |]; rewrite pins_repin;
    rewrite decide_False by done; done.
Qed.

End ObjLemmas.

Section ReplicaLemmas.
Context {C : Type}.
Implicit Types o : cobj C.

Lemma is_replicated_false o : is_replicated o = false -> co_replica_map o = ∅.
Proof. unfold is_replicated. rewrite negb_false_iff. apply bool_decide_eq_true. Qed.

Lemma is_replicated_true o : is_replicated o = true -> co_replica_map o <> ∅.
Proof. unfold is_replicated. rewrite negb_true_iff. apply bool_decide_eq_false. Qed.

(** Taking the replica pin and installing a non-empty replica map. *)
Lemma obj_ok_replicate o m :
  obj_ok o -> co_ref o < 2 ^ 31 - 1 -> co_replica_map o = ∅ -> m <> ∅ ->
  obj_ok (set_replicas m (repin 1 PIN_REPLICATED o)).
Proof.
  intros [R E1 E2] B Hm Hne. rewrite decide_True in E1 by done.
  assert (refs_ok (repin 1 PIN_REPLICATED o)) as R' by (apply repin_ok; lia || done).
  split.
  - destruct R'; split; done.
  - change (pins (repin 1 PIN_REPLICATED o) PIN_REPLICATED =
      (if decide (m = ∅) then 0 else 1)).
    rewrite pins_repin, decide_True by done. rewrite decide_False by done. lia.
  - change (pins (repin 1 PIN_REPLICATED o) PIN_WAITER =
      match co_waiting o with [] => 0 | _ => 1 end).
    rewrite pins_repin, decide_False by done. done.
Qed.

Lemma obj_ok_unreplicate o :
  obj_ok o -> co_replica_map o <> ∅ ->
  obj_ok (set_replicas ∅ (repin (-1) PIN_REPLICATED o)).
Proof.
  intros [R E1 E2] Hm. rewrite decide_False in E1 by done.
  assert (refs_ok (repin (-1) PIN_REPLICATED o)) as R'
    by (destruct R; apply repin_ok; lia || done).
  split.
  - destruct R'; split; done.
  - change (pins (repin (-1) PIN_REPLICATED o) PIN_REPLICATED = 0).
    rewrite pins_repin, decide_True by done. lia.
  - change (pins (repin (-1) PIN_REPLICATED o) PIN_WAITER =
      match co_waiting o with [] => 0 | _ => 1 end).
    rewrite pins_repin, decide_False by done. done.
Qed.

Lemma obj_ok_set_replicas o m :
  obj_ok o -> co_replica_map o <> ∅ -> m <> ∅ -> obj_ok (set_replicas m o).
Proof.
  intros [R E1 E2] Hm Hne. rewrite decide_False in E1 by done. split.
  - destruct R; split; done.
  - simpl. rewrite decide_False by done. done.
  - done.
Qed.

Lemma obj_ok_wait o w :
  obj_ok o -> co_ref o < 2 ^ 31 - 1 -> co_waiting o = [] -> w <> [] ->
  obj_ok (set_waiting w (repin 1 PIN_WAITER o)).
Proof.
  intros [R E1 E2] B Hw Hne. rewrite Hw in E2.
  assert (refs_ok (repin 1 PIN_WAITER o)) as R' by (apply repin_ok; lia || done).
  split.
  - destruct R'; split; done.
  - change (pins (repin 1 PIN_WAITER o) PIN_REPLICATED =
      (if decide (co_replica_map o = ∅) then 0 else 1)).
    rewrite pins_repin, decide_False by done. done.
  - change (pins (repin 1 PIN_WAITER o) PIN_WAITER = match w with [] => 0 | _ => 1 end).
    rewrite pins_repin, decide_True by done. destruct w; [done|lia].
Qed.

Lemma obj_ok_unwait o :
  obj_ok o -> co_waiting o <> [] ->
  obj_ok (set_waiting [] (repin (-1) PIN_WAITER o)).
Proof.
  intros [R E1 E2] Hw.
  assert (pins o PIN_WAITER = 1) as P by (destruct (co_waiting o); done).
  assert (refs_ok (repin (-1) PIN_WAITER o)) as R'
    by (destruct R; apply repin_ok; lia || done).
  split.
  - destruct R'; split; done.
  - change (pins (repin (-1) PIN_WAITER o) PIN_REPLICATED =
      (if decide (co_replica_map o = ∅) then 0 else 1)).
    rewrite pins_repin, decide_False by done. done.
  - change (pins (repin (-1) PIN_WAITER o) PIN_WAITER = 0).
    rewrite pins_repin, decide_True by done. lia.
Qed.

Lemma obj_ok_set_waiting o w :
  obj_ok o -> co_waiting o <> [] -> w <> [] -> obj_ok (set_waiting w o).
Proof.
  intros [R E1 E2] Hw Hne. split.
  - destruct R; split; done.
  - done.
  - change (pins (set_waiting w o) PIN_WAITER) with (pins o PIN_WAITER). rewrite E2. simpl.
    by destruct w, (co_waiting o).
Qed.

Lemma mm_insert_nonempty k (c : C) w : mm_insert k c w <> [].
Proof. destruct w; simpl; [done|]. by destruct (k_leb _ _). Qed.

Lemma insert_replica_nonempty (k v : Z) (m : gmap Z Z) : <[k := v]> m <> ∅.
Proof. apply insert_non_empty. Qed.

Lemma take_loop_spec mask (w : list (Z * C)) ls :
  take_loop mask w ls =
  (ls ++ (filter (fun p => has_bits (fst p) mask = true) w).*2,
   filter (fun p => has_bits (fst p) mask = false) w).
Proof.
  revert ls; induction w as [|p w IH]; intros ls; simpl; [by rewrite app_nil_r|].
  destruct (has_bits (fst p) mask) eqn:E; rewrite IH.
  - rewrite filter_cons_True, filter_cons_False by congruence. simpl.
    by rewrite <- app_assoc.
  - by rewrite filter_cons_False, filter_cons_True by congruence.
Qed.

End ReplicaLemmas.

#[export] Hint Resolve obj_ok_replicate obj_ok_unreplicate obj_ok_set_replicas
  obj_ok_wait obj_ok_unwait obj_ok_set_waiting mm_insert_nonempty insert_replica_nonempty : cobj.

(** ** Operations as steps *)

Section Steps.
Context {C : Type}.
Implicit Types o : cobj C.

Inductive obj_step : cobj C -> cobj C -> Prop :=
| os_get o o' by_ hs :
    by_ <> PIN_REPLICATED -> by_ <> PIN_WAITER -> get o by_ = Ok (o', hs) -> obj_step o o'
| os_put o o' by_ hs :
    by_ <> PIN_REPLICATED -> by_ <> PIN_WAITER -> put o by_ = Ok (o', hs) -> obj_step o o'
| os_state o s : obj_step o (state_reset s o)
| os_add_replica o o' mds hs n : add_replica o mds = Ok (o', hs, n) -> obj_step o o'
| os_add_nonce o o' mds n hs : add_replica_nonce o mds n = Ok (o', hs) -> obj_step o o'
| os_remove_replica o o' mds hs : remove_replica o mds = Ok (o', hs) -> obj_step o o'
| os_clear_replicas o o' hs : clear_replica_map o = Ok (o', hs) -> obj_step o o'
| os_add_waiter o o' mask c hs : add_waiter o mask c = Ok (o', hs) -> obj_step o o'
| os_take_waiting o o' mask ls hs ls' :
    take_waiting o mask ls = Ok (o', hs, ls') -> obj_step o o'.

(** States reached from a new object while the reference count stays below its
    32-bit limit. *)
Inductive obj_reach : cobj C -> Prop :=
| or_new : obj_reach cobj_new
| or_step o o' : obj_reach o -> co_ref o < 2 ^ 31 - 1 -> obj_step o o' -> obj_reach o'.

Lemma put_pinned o by_ r : refs_ok o -> put o by_ = Ok r -> 0 < pins o by_.
Proof.
  intros R E. pose proof (pins_le_sum o by_ R).
  destruct (decide (pins o by_ = 0)) as [Z0|]; [|lia]. by rewrite put_abort in E.
Qed.

Lemma add_replica_ok o mds :
  obj_ok o -> co_ref o < 2 ^ 31 - 1 ->
  exists o' hs n, add_replica o mds = Ok (o', hs, n) /\ obj_ok o' /\
    co_replica_map o' = <[mds := n]> (co_replica_map o) /\
    n = match co_replica_map o !! mds with Some k => u32 (k + 1) | None => 1 end.
Proof.
  intros O B. unfold add_replica. destruct (co_replica_map o !! mds) as [k|] eqn:E.
  - assert (co_replica_map o <> ∅) by (intros F; rewrite F in E; done).
    eexists _, _, _; split_and!; eauto with cobj.
  - destruct (is_replicated o) eqn:Rp.
    + apply is_replicated_true in Rp. eexists _, _, _; split_and!; eauto with cobj.
    + apply is_replicated_false in Rp. rewrite get_ok by (apply O || done).
      eexists _, _, _; split_and!; eauto with cobj.
Qed.

Lemma add_replica_nonce_ok o mds n :
  obj_ok o -> co_ref o < 2 ^ 31 - 1 ->
  exists o' hs, add_replica_nonce o mds n = Ok (o', hs) /\ obj_ok o' /\
    co_replica_map o' = <[mds := n]> (co_replica_map o).
Proof.
  intros O B. unfold add_replica_nonce. destruct (is_replicated o) eqn:Rp.
  - apply is_replicated_true in Rp. eexists _, _; split_and!; eauto with cobj.
  - apply is_replicated_false in Rp. rewrite get_ok by (apply O || done).
    eexists _, _; split_and!; eauto with cobj.
Qed.

(** Dropping the replica pin commutes with emptying the map. *)
Lemma put_after_empty o :
  obj_ok o -> co_replica_map o <> ∅ ->
  exists hs, put (set_replicas ∅ o) PIN_REPLICATED =
             Ok (set_replicas ∅ (repin (-1) PIN_REPLICATED o), hs).
Proof.
  intros [R E1 E2] Hm. rewrite decide_False in E1 by done. eexists.
  rewrite put_ok; [done|destruct R; split; done|]. change (0 < pins o PIN_REPLICATED). lia.
Qed.

Lemma remove_replica_ok o mds :
  obj_ok o ->
  match co_replica_map o !! mds with
  | None => remove_replica o mds = Abort
  | Some _ => exists o' hs, remove_replica o mds = Ok (o', hs) /\ obj_ok o' /\
      co_replica_map o' = delete mds (co_replica_map o)
  end.
Proof.
  intros O. unfold remove_replica, is_replica.
  destruct (co_replica_map o !! mds) as [k|] eqn:E; [|done].
  assert (co_replica_map o <> ∅) as Hne by (intros F; rewrite F in E; done).
  rewrite check_true by (apply bool_decide_eq_true; eauto).
  destruct (is_replicated _) eqn:Rp.
  - apply is_replicated_true in Rp. eexists _, _; split_and!; eauto with cobj.
  - apply is_replicated_false in Rp. simpl in Rp. rewrite Rp.
    destruct (put_after_empty o O Hne) as [hs P]. eexists _, _; split_and!; eauto with cobj.
Qed.

Lemma clear_replica_map_ok o :
  obj_ok o -> exists o' hs, clear_replica_map o = Ok (o', hs) /\ obj_ok o' /\
    co_replica_map o' = ∅.
Proof.
  intros O. unfold clear_replica_map. destruct (is_replicated o) eqn:Rp.
  - apply is_replicated_true in Rp. pose proof O as [R E1 E2].
    rewrite decide_False in E1 by done. rewrite put_ok by (done || lia).
    eexists _, _; split_and!; eauto with cobj.
  - apply is_replicated_false in Rp. eexists _, _; split_and!; [done| |done].
    destruct o; simpl in *; subst. done.
Qed.

Lemma add_waiter_ok o mask c :
  obj_ok o -> co_ref o < 2 ^ 31 - 1 ->
  exists o' hs, add_waiter o mask c = Ok (o', hs) /\ obj_ok o' /\
    co_waiting o' = mm_insert mask c (co_waiting o).
Proof.
  intros O B. unfold add_waiter. destruct (co_waiting o) as [|p w] eqn:E.
  - rewrite get_ok by (apply O || done). eexists _, _; split_and!; [done| |].
    + apply obj_ok_wait; auto with cobj.
    + simpl. by rewrite E.
  - eexists _, _; split_and!; [done| |by rewrite E].
    apply obj_ok_set_waiting; auto with cobj. by rewrite E.
Qed.

Lemma take_waiting_ok o mask ls :
  obj_ok o ->
  exists o' hs, take_waiting o mask ls =
      Ok (o', hs, ls ++ (filter (fun p => has_bits (fst p) mask = true) (co_waiting o)).*2) /\
    obj_ok o' /\
    co_waiting o' = filter (fun p => has_bits (fst p) mask = false) (co_waiting o).
Proof.
  intros O. unfold take_waiting. destruct (co_waiting o) as [|p w] eqn:E.
  - eexists _, _; split_and!; [by rewrite app_nil_r|done|done].
  - rewrite take_loop_spec. rewrite <- E.
    assert (co_waiting o <> []) as Hw by (by rewrite E).
    set (rest := filter (fun p => has_bits (fst p) mask = false) (co_waiting o)).
    destruct rest as [|q w'] eqn:F.
    + pose proof O as [R E1 E2]. rewrite E in E2.
      rewrite put_ok; [|destruct R; split; done|change (0 < pins o PIN_WAITER); lia].
      eexists _, _; split_and!; [done| |done]. by apply (obj_ok_unwait o).
    + eexists _, _; split_and!; [done| |done]. by apply obj_ok_set_waiting.
Qed.

Lemma obj_step_ok o o' : obj_ok o -> co_ref o < 2 ^ 31 - 1 -> obj_step o o' -> obj_ok o'.
Proof.
  intros O B St. destruct St as
    [o o' by_ hs N1 N2 E|o o' by_ hs N1 N2 E|o s|o o' mds hs n E|o o' mds n hs E
    |o o' mds hs E|o o' hs E|o o' mask c hs E|o o' mask ls hs ls' E].
  - rewrite get_ok in E by (apply O || done). simplify_eq.
    pose proof (pins_le_sum o by_ (oo_refs _ O)). apply obj_ok_repin; auto; lia.
  - pose proof (put_pinned _ _ _ (oo_refs _ O) E). rewrite put_ok in E by (apply O || done).
    simplify_eq. apply obj_ok_repin; auto; lia.
  - destruct o, O as [[] ? ?]; simpl in *. split; [split|..]; done.
  - destruct (add_replica_ok o mds O B) as (? & ? & ? & E' & ? & _). congruence.
  - destruct (add_replica_nonce_ok o mds n O B) as (? & ? & E' & ? & _). congruence.
  - pose proof (remove_replica_ok o mds O) as Rm.
    destruct (co_replica_map o !! mds); [|congruence].
    destruct Rm as (? & ? & E' & ? & _). congruence.
  - destruct (clear_replica_map_ok o O) as (? & ? & E' & ? & _). congruence.
  - destruct (add_waiter_ok o mask c O B) as (? & ? & E' & ? & _). congruence.
  - destruct (take_waiting_ok o mask ls O) as (? & ? & E' & ? & _). congruence.
Qed.

End Steps.

(** ** Lemmas: searching the waiters *)

Section WaiterLemmas.
Context {C : Type}.

Lemma scan_waiters_sound mask (w : list (Z * C)) :
  scan_waiters mask w = true -> exists p, p ∈ w /\ has_bits (fst p) mask = true.
Proof.
  induction w as [|p w IH]; simpl; [done|].
  destruct (has_bits (fst p) mask) eqn:E.
  - intros _. exists p. split; [left|done].
  - destruct (mask <? fst p); [done|]. intros S. destruct (IH S) as (q & ? & ?).
    exists q. split; [by right|done].
Qed.

Lemma drop_below_subset k (w : list (Z * C)) p : p ∈ drop_below k w -> p ∈ w.
Proof.
  induction w as [|q w IH]; simpl; [done|]. destruct (k_ltb _ _); [|done].
  intros Hp. right. auto.
Qed.

Lemma drop_below_complete k (w : list (Z * C)) p : p ∈ w -> k <= fst p -> p ∈ drop_below k w.
Proof.
  induction w as [|q w IH]; simpl; [by intros ?%elem_of_nil|].
  intros [->|Hp]%elem_of_cons Hk.
  - unfold k_ltb, k_leb, Z_order. replace (k <=? fst q) with true by lia. left.
  - destruct (k_ltb _ _); [auto|by right].
Qed.

Lemma drop_below_sorted k (w : list (Z * C)) :
  StronglySorted bind_le w -> StronglySorted bind_le (drop_below k w).
Proof.
  induction 1 as [|q w Hs IH Hall]; simpl; [constructor|].
  destruct (k_ltb _ _); [done|by constructor].
Qed.

Lemma scan_waiters_complete mask (w : list (Z * C)) p :
  StronglySorted bind_le w -> p ∈ w -> fst p <= mask -> has_bits (fst p) mask = true ->
  scan_waiters mask w = true.
Proof.
  induction 1 as [|q w Hs IH Hall]; [by intros ?%elem_of_nil|].
  intros Hp Hle Hb. simpl. destruct (has_bits (fst q) mask) eqn:E; [done|].
  apply elem_of_cons in Hp as [->|Hp]; [congruence|].
  assert (fst q <= fst p) as Hq.
  { pose proof (Forall_elem _ _ _ Hall Hp) as L.
    unfold bind_le, k_leb, Z_order in L. lia. }
  replace (mask <? fst q) with false by lia. auto.
Qed.

Lemma top_bit_single fuel k : 0 <= k < 64 -> top_bit fuel (2 ^ k) = 2 ^ k.
Proof.
  intros Hk. destruct fuel; simpl; [done|].
  assert (0 < 2 ^ k < 2 ^ 64) by (split; [lia|apply Z.pow_lt_mono_r; lia]).
  unfold u64. rewrite wrap_u_small by lia.
  replace (2 ^ k - 1) with (Z.ones k) by (rewrite Z.ones_equiv; lia).
  rewrite Z.land_ones, Z.mod_same by lia. done.
Qed.

Lemma has_bits_pow2 j k : 0 <= j -> 0 <= k -> has_bits (2 ^ j) (2 ^ k) = (j =? k).
Proof.
  intros Hj Hk. unfold has_bits. destruct (Z.eqb_spec j k) as [->|Hne].
  - rewrite Z.land_diag. apply negb_true_iff, Z.eqb_neq. lia.
  - assert (Z.land (2 ^ j) (2 ^ k) = 0) as ->; [|done].
    apply Z.bits_inj'. intros n Hn. rewrite Z.land_spec, Z.bits_0, !Z.pow2_bits_eqb by lia.
    destruct (Z.eqb_spec j n), (Z.eqb_spec k n); simpl; congruence.
Qed.

End WaiterLemmas.

(** ** Properties *)

Section ObjTheorems.
Context {C : Type}.

(** C36: in every state reached from a new object by any sequence of [get],
    [put], replica, waiter and state operations, the reference count is the sum of the
    pins, no pin is negative, and the replica and waiter pins are held once exactly while
    there are replicas, respectively waiters. *)
Theorem cobj_invariant (o : cobj C) : obj_reach o -> obj_ok o.
Proof.
  induction 1 as [|o o' R IH B St]; [|by eapply obj_step_ok].
  split; [split|..]; done.
Qed.

(** The asserts of the operations fire exactly on misuse: in a good state
    [put] aborts iff the pin is not held and [remove_replica] iff the rank holds no replica;
    [get], [add_replica], [clear_replica_map], [add_waiter] and [take_waiting] never abort. *)
Theorem cobj_abort_iff (o : cobj C) :
  obj_ok o -> co_ref o < 2 ^ 31 - 1 ->
  (forall by_, put o by_ = Abort <-> pins o by_ = 0) /\
  (forall mds, remove_replica o mds = Abort <-> co_replica_map o !! mds = None) /\
  (forall by_, get o by_ <> Abort) /\
  (forall mds, add_replica o mds <> Abort) /\
  clear_replica_map o <> Abort /\
  (forall mask c, add_waiter o mask c <> Abort) /\
  (forall mask ls, take_waiting o mask ls <> Abort).
Proof.
  intros O B. split_and!.
  - intros by_. pose proof (pins_le_sum o by_ (oo_refs _ O)). split.
    + intros E. destruct (decide (pins o by_ = 0)); [done|].
      rewrite put_ok in E; [done|apply O|lia].
    + apply put_abort, O.
  - intros mds. pose proof (remove_replica_ok o mds O) as Rm.
    destruct (co_replica_map o !! mds); [|done]. destruct Rm as (? & ? & E & _).
    rewrite E. done.
  - intros by_. by rewrite get_ok by (apply O || done).
  - intros mds. destruct (add_replica_ok o mds O B) as (? & ? & ? & -> & _). done.
  - destruct (clear_replica_map_ok o O) as (? & ? & -> & _). done.
  - intros mask c. destruct (add_waiter_ok o mask c O B) as (? & ? & -> & _). done.
  - intros mask ls. destruct (take_waiting_ok o mask ls O) as (? & ? & -> & _). done.
Qed.

(** [get] then [put] of the same pin restores the count and every pin, and
    the [first_get]/[last_put] hooks, which pin and unpin the parent, fire together exactly
    when the object was unreferenced before. *)
Theorem get_put_balanced (o : cobj C) by_ :
  refs_ok o -> co_ref o < 2 ^ 31 - 1 -> state_test o STATE_NOTIFYREF = false ->
  exists o1 h1 o2 h2,
    get o by_ = Ok (o1, h1) /\ put o1 by_ = Ok (o2, h2) /\
    co_ref o2 = co_ref o /\ (forall k, pins o2 k = pins o k) /\
    (h1 = [FirstGet] /\ h2 = [LastPut] /\ co_ref o = 0 \/
     h1 = [] /\ h2 = [] /\ co_ref o <> 0).
Proof.
  intros R B N. pose proof (pins_le_sum o by_ R).
  eexists _, _, _, _. split; [by apply get_ok|].
  assert (refs_ok (repin 1 by_ o)) as R1 by (apply repin_ok; lia || done).
  split; [apply put_ok; [done|rewrite pins_repin, decide_True by done; lia]|].
  split_and!.
  - simpl. lia.
  - intros k. rewrite !pins_repin. repeat case_decide; simplify_eq; lia.
  - change (state_test (repin 1 by_ o) STATE_NOTIFYREF) with (state_test o STATE_NOTIFYREF).
    rewrite N. simpl. destruct (Z.eqb_spec (co_ref o) 0), (Z.eqb_spec (co_ref o + 1) 1);
      try lia; auto.
Qed.

(** [take_waiting] hands out, in key order, exactly the contexts whose mask
    meets the argument, appended to the caller's list; the others stay. *)
Theorem take_waiting_spec (o : cobj C) mask ls :
  obj_ok o ->
  exists o' hs, take_waiting o mask ls =
      Ok (o', hs, ls ++ (filter (fun p => has_bits (fst p) mask = true) (co_waiting o)).*2) /\
    co_waiting o' = filter (fun p => has_bits (fst p) mask = false) (co_waiting o).
Proof.
  intros O. destruct (take_waiting_ok o mask ls O) as (o' & hs & E & _ & W). eauto.
Qed.

(** [is_waiter_for] never reports a waiter that is not there; it finds every
    waiter when masks and tags are single bits. *)
Theorem is_waiter_for_single (o : cobj C) k :
  0 <= k < 64 -> StronglySorted bind_le (co_waiting o) ->
  (forall p, p ∈ co_waiting o -> exists j, 0 <= j < 64 /\ fst p = 2 ^ j) ->
  is_waiter_for o (2 ^ k) 0 = true <->
  exists p, p ∈ co_waiting o /\ has_bits (fst p) (2 ^ k) = true.
Proof.
  intros Hk Hs Hbits. unfold is_waiter_for. rewrite Z.eqb_refl. cbv zeta.
  rewrite top_bit_single by done. split.
  - intros (p & Hp & Hb)%scan_waiters_sound. exists p. split; [|done].
    by apply drop_below_subset in Hp.
  - intros (p & Hp & Hb). destruct (Hbits p Hp) as (j & Hj & Ej).
    rewrite Ej, has_bits_pow2 in Hb by lia. apply Z.eqb_eq in Hb. subst j.
    eapply (scan_waiters_complete _ _ p).
    + by apply drop_below_sorted.
    + apply drop_below_complete; [done|lia].
    + lia.
    + rewrite Ej, has_bits_pow2 by lia. apply Z.eqb_refl.
Qed.

End ObjTheorems.

(** With a mask of several bits [is_waiter_for] starts its search at the
    highest bit of the mask and misses a waiter tagged with a lower one. *)
Theorem is_waiter_for_misses_low_bit :
  let o : cobj unit := mk_cobj 0 1 {[PIN_WAITER := 1]} 0 ∅ [(1, tt)] in
  has_bits 1 3 = true /\ is_waiter_for o 3 0 = false.
Proof. split; reflexivity. Qed.

Definition cobj_ex : cobj unit := mk_cobj 0 1 {[PIN_WAITER := 1]} 0 ∅ [(2, tt)].

Lemma cobj_ex_reach : obj_reach cobj_ex.
Proof.
  eapply or_step; [constructor|simpl; lia|].
  eapply (os_add_waiter _ _ 2 tt). vm_compute. reflexivity.
Defined.

Lemma cobj_invariant_witness : obj_ok cobj_ex.
Proof. apply cobj_invariant, cobj_ex_reach. Defined.

Lemma cobj_ex_refs : refs_ok cobj_ex.
Proof.
  split; [reflexivity| |vm_compute; reflexivity].
  intros by_ n E. simpl in E. apply lookup_singleton_Some in E as [_ <-]. lia.
Qed.

Lemma cobj_ex_ok : obj_ok cobj_ex.
Proof. split; [apply cobj_ex_refs|reflexivity..]. Qed.

Lemma cobj_abort_iff_witness : put cobj_ex PIN_DIRTY = Abort.
Proof.
  apply (cobj_abort_iff cobj_ex cobj_ex_ok); [simpl; lia|reflexivity].
Defined.

Lemma get_put_balanced_witness :
  exists o1 h1 o2 h2, get cobj_ex PIN_LOCK = Ok (o1, h1) /\ put o1 PIN_LOCK = Ok (o2, h2) /\
    co_ref o2 = 1.
Proof.
  destruct (get_put_balanced cobj_ex PIN_LOCK cobj_ex_refs)
    as (o1 & h1 & o2 & h2 & E1 & E2 & E3 & _); [simpl; lia|reflexivity|].
  exists o1, h1, o2, h2. auto.
Defined.

Lemma take_waiting_spec_witness :
  exists o' hs, take_waiting cobj_ex 6 [] = Ok (o', hs, [tt]) /\ co_waiting o' = [].
Proof. apply (take_waiting_spec cobj_ex 6 [] cobj_ex_ok). Defined.

Lemma is_waiter_for_single_witness : is_waiter_for cobj_ex (2 ^ 1) 0 = true.
Proof.
  apply (is_waiter_for_single cobj_ex 1); [lia|repeat constructor| |].
  - intros p ->%list_elem_of_singleton. exists 1. simpl. lia.
  - exists (2, tt). split; [left|reflexivity].
Defined.
