(* ===== verification/Beacon.v ===== *)
(** * The monitor beacon (Beacon.cc)

    The beacon thread numbers its messages, remembers when each was sent and, from the
    monitor's acknowledgements, tells whether this daemon is laggy.  Time stamps,
    [CompatSet] and the session table belong to other parts of the system: parameters.
    Every call to the timer and the monitor client is an effect ([beffect]).  Each
    operation runs under [Beacon::lock]; the mutexes and the asserts on them are left out. *)

From stdpp Require Import base tactics numbers list gmap strings pretty sorting.
From Stdlib Require Import ZArith Lia.
From S2P Require Import Prelude Stats.
Open Scope Z_scope.

Class BeaconTime (T : Type) `{UTime T} := {
  bt_add : T -> T -> T;
  bt_sub : T -> T -> T
}.

(** The options of [g_conf] the beacon reads ([grace2] is [mds_beacon_grace*2]). *)
Record beacon_conf (T : Type) := mk_conf {
  mds_beacon_grace : T;
  mds_beacon_grace2 : T;
  mds_beacon_interval : T;
  mds_recall_state_timeout : T;
  mds_log_max_segments : Z;
  mds_health_summarize_threshold : Z
}.
Arguments mk_conf {T}.
Arguments mds_beacon_grace {T}.
Arguments mds_beacon_grace2 {T}.
Arguments mds_beacon_interval {T}.
Arguments mds_recall_state_timeout {T}.
Arguments mds_log_max_segments {T}.
Arguments mds_health_summarize_threshold {T}.

Inductive health_code :=
| MDS_HEALTH_TRIM
| MDS_HEALTH_CLIENT_LATE_RELEASE
| MDS_HEALTH_CLIENT_LATE_RELEASE_MANY
| MDS_HEALTH_CLIENT_RECALL
| MDS_HEALTH_CLIENT_RECALL_MANY.

(** What the code assigns to an entry of the [metadata] map: a string, or an integer that
    the map's value type (declared in MMDSBeacon.h) converts. *)
Inductive md_value :=
| MdString (s : string)
| MdInt (z : Z).

(** [MDSHealthMetric]: all of them are [HEALTH_WARN]. *)
Record health_metric := mk_metric {
  hm_code : health_code;
  hm_message : string;
  hm_metadata : list (string * md_value)
}.

Section Beacon.
Context {T CS : Type} `{BeaconTime T}.
(** [CompatSet]: [get_mdsmap_compat_set_default()] and [merge] *)
Context (compat_default : CS) (compat_merge : CS -> CS -> CS).
Context (conf : beacon_conf T).

Record mdsmap_view := mk_mdsmap { mm_epoch : Z; mm_compat : CS }.

Record beacon := mk_beacon {
  b_want_state : Z;
  b_last_seq : Z;
  b_sender : bool;
  b_was_laggy : bool;
  b_standby_for_rank : Z;
  b_standby_for_name : string;
  b_epoch : Z;
  b_compat : CS;
  b_seq_stamp : gmap Z T;
  b_last_acked_stamp : T;
  b_laggy_until : T;
  b_last_mon_reconnect : T;
  b_health : list health_metric
}.

Record beacon_msg := mk_msg {
  msg_epoch : Z;
  msg_state : Z;
  msg_seq : Z;
  msg_standby_for_rank : Z;
  msg_standby_for_name : string;
  msg_health : list health_metric;
  msg_compat : CS
}.

Inductive beffect :=
| TimerInit
| TimerShutdown
| CancelEvent
| AddEventAfter (t : T)
| SendMonMessage (m : beacon_msg)
| ReopenSession.

(** [MDSMap::STATE_NULL] and [MDSMap::MDS_NO_STANDBY_PREF] come from MDSMap.h. *)
Definition beacon_new (state_null no_standby_pref : Z) (compat0 : CS) : beacon :=
  mk_beacon state_null 0 false false no_standby_pref EmptyString 0 compat0 ∅
    ut_zero ut_zero ut_zero [].

Definition _notify_mdsmap (m : mdsmap_view) (b : beacon) : beacon :=
  mk_beacon (b_want_state b) (b_last_seq b) (b_sender b) (b_was_laggy b)
    (b_standby_for_rank b) (b_standby_for_name b)
    (mm_epoch m) (compat_merge compat_default (mm_compat m)) (b_seq_stamp b)
    (b_last_acked_stamp b) (b_laggy_until b) (b_last_mon_reconnect b) (b_health b).

Definition notify_mdsmap (m : mdsmap_view) (b : beacon) : beacon := _notify_mdsmap m b.

(** [_send]: [healthy] is [get_heartbeat_map()->is_healthy()], [now] the clock. *)
Definition _send (healthy : bool) (now : T) (b : beacon) : beacon * list beffect :=
  let cancel := if b_sender b then [CancelEvent] else [] in
  let timer := cancel ++ [AddEventAfter (mds_beacon_interval conf)] in
  let b := mk_beacon (b_want_state b) (b_last_seq b) true (b_was_laggy b)
             (b_standby_for_rank b) (b_standby_for_name b) (b_epoch b) (b_compat b)
             (b_seq_stamp b) (b_last_acked_stamp b) (b_laggy_until b)
             (b_last_mon_reconnect b) (b_health b) in
  if negb healthy then (b, timer)
  else
    let seq := u64 (b_last_seq b + 1) in
    let b := mk_beacon (b_want_state b) seq (b_sender b) (b_was_laggy b)
               (b_standby_for_rank b) (b_standby_for_name b) (b_epoch b) (b_compat b)
               (<[seq := now]> (b_seq_stamp b)) (b_last_acked_stamp b) (b_laggy_until b)
               (b_last_mon_reconnect b) (b_health b) in
    (b, timer ++ [SendMonMessage
          (mk_msg (b_epoch b) (b_want_state b) seq (b_standby_for_rank b)
             (b_standby_for_name b) (b_health b) (b_compat b))]).

Definition send (healthy : bool) (now : T) (b : beacon) : beacon * list beffect :=
  _send healthy now b.

Definition init (m : mdsmap_view) (want standby_rank : Z) (standby_name : string)
    (healthy : bool) (now : T) (b : beacon) : beacon * list beffect :=
  let b := _notify_mdsmap m b in
  let b := mk_beacon want (b_last_seq b) (b_sender b) (b_was_laggy b)
             standby_rank standby_name (b_epoch b) (b_compat b) (b_seq_stamp b)
             (b_last_acked_stamp b) (b_laggy_until b) (b_last_mon_reconnect b) (b_health b) in
  let '(b, es) := _send healthy now b in
  (b, TimerInit :: es).

Definition shutdown (b : beacon) : beacon * list beffect :=
  let cancel := if b_sender b then [CancelEvent] else [] in
  (mk_beacon (b_want_state b) (b_last_seq b) false (b_was_laggy b)
     (b_standby_for_rank b) (b_standby_for_name b) (b_epoch b) (b_compat b)
     (b_seq_stamp b) (b_last_acked_stamp b) (b_laggy_until b) (b_last_mon_reconnect b)
     (b_health b),
   cancel ++ [TimerShutdown]).

(** the clean-up loop: erases from the front while the first key is at most [seq] *)
Fixpoint erase_acked (seq : Z) (front : list (Z * T)) (m : gmap Z T) : gmap Z T :=
  match front with
  | [] => m
  | p :: front' => if fst p <=? seq then erase_acked seq front' (delete (fst p) m) else m
  end.

Definition handle_mds_beacon (seq : Z) (now : T) (b : beacon) : res beacon :=
  match b_seq_stamp b !! seq with
  | Some stamp =>
      check (k_ltb (b_last_acked_stamp b) stamp) ;;
      let rtt := bt_sub now stamp in
      let unlag := b_was_laggy b && k_ltb rtt (mds_beacon_grace conf) in
      Ok (mk_beacon (b_want_state b) (b_last_seq b) (b_sender b)
            (if unlag then false else b_was_laggy b)
            (b_standby_for_rank b) (b_standby_for_name b) (b_epoch b) (b_compat b)
            (erase_acked seq (ordered (b_seq_stamp b)) (b_seq_stamp b))
            stamp (if unlag then now else b_laggy_until b)
            (b_last_mon_reconnect b) (b_health b))
  | None => Ok b
  end.

(** The messages the dispatcher sees: a beacon or something else, from a monitor or not. *)
Definition ms_dispatch (is_beacon from_mon : bool) (seq : Z) (now : T) (b : beacon)
  : res (beacon * bool) :=
  if is_beacon then
    if from_mon then b' ← handle_mds_beacon seq now b; Ok (b', true) else Ok (b, true)
  else Ok (b, false).

Definition is_laggy (now : T) (b : beacon) : beacon * list beffect * bool :=
  if decide (b_last_acked_stamp b = ut_zero) then (b, [], false)
  else
    let since := bt_sub now (b_last_acked_stamp b) in
    if k_ltb (mds_beacon_grace conf) since then
      let reconnect := k_ltb (mds_beacon_grace2 conf) since &&
        k_ltb (bt_add (b_last_mon_reconnect b) (mds_beacon_interval conf)) now in
      (mk_beacon (b_want_state b) (b_last_seq b) (b_sender b) true
         (b_standby_for_rank b) (b_standby_for_name b) (b_epoch b) (b_compat b)
         (b_seq_stamp b) (b_last_acked_stamp b) (b_laggy_until b)
         (if reconnect then now else b_last_mon_reconnect b) (b_health b),
       if reconnect then [ReopenSession] else [], true)
    else (b, [], false).

Definition get_laggy_until (b : beacon) : T := b_laggy_until b.

Definition notify_want_state (s : Z) (b : beacon) : beacon :=
  mk_beacon s (b_last_seq b) (b_sender b) (b_was_laggy b)
    (b_standby_for_rank b) (b_standby_for_name b) (b_epoch b) (b_compat b) (b_seq_stamp b)
    (b_last_acked_stamp b) (b_laggy_until b) (b_last_mon_reconnect b) (b_health b).

(** What [notify_health] is shown of the MDS: the journal segments, the clients late in
    releasing capabilities with the human name of their session (if any), and the sessions
    with their [recalled_at]. *)
Record mds_view := mk_view {
  mv_num_segments : Z;
  mv_late_clients : list (Z * option string);
  mv_sessions : list (T * Z * string)
}.

Open Scope string_scope.

Definition trim_metrics (v : mds_view) : list health_metric :=
  if (u64 (s32 (mds_log_max_segments conf * 2)) <? mv_num_segments v)%Z then
    [mk_metric MDS_HEALTH_TRIM
       ("Behind on trimming (" +:+ pretty (mv_num_segments v) +:+ "/" +:+
        pretty (mds_log_max_segments conf) +:+ ")")
       [("num_segments", MdInt (mv_num_segments v));
        ("max_segments", MdInt (mds_log_max_segments conf))]]
  else [].

Definition late_cap_metrics (v : mds_view) : list health_metric :=
  omap (fun c : Z * option string =>
    match snd c with
    | None => None
    | Some human => Some (mk_metric MDS_HEALTH_CLIENT_LATE_RELEASE
        ("Client " +:+ human +:+ " failing to respond to capability release")
        [("client_id", MdString (pretty (fst c)))])
    end) (mv_late_clients v).

Definition late_recall_metrics (cutoff : T) (v : mds_view) : list health_metric :=
  omap (fun s : T * Z * string =>
    let '(recalled_at, num, human) := s in
    if decide (recalled_at = ut_zero) then None
    else if k_ltb recalled_at cutoff then
      Some (mk_metric MDS_HEALTH_CLIENT_RECALL
        ("Client " +:+ human +:+ " failing to respond to cache pressure")
        [("client_id", MdInt num)])
    else None) (mv_sessions v).

(** the summary: the list itself up to the threshold, one metric beyond it *)
Definition summarize (code : health_code) (tail : string) (ms : list health_metric)
  : list health_metric :=
  if (Z.of_nat (List.length ms) <=? u64 (mds_health_summarize_threshold conf))%Z then ms
  else [mk_metric code
          ("Many clients (" +:+ pretty (Z.of_nat (List.length ms)) +:+ ") failing to respond to " +:+ tail)
          [("client_count", MdInt (Z.of_nat (List.length ms)))]].

Definition notify_health (v : mds_view) (now : T) (b : beacon) : beacon :=
  let cutoff := bt_sub now (mds_recall_state_timeout conf) in
  let metrics :=
    (trim_metrics v ++
     summarize MDS_HEALTH_CLIENT_LATE_RELEASE_MANY "capability release" (late_cap_metrics v) ++
     summarize MDS_HEALTH_CLIENT_RECALL_MANY "cache pressure" (late_recall_metrics cutoff v))%list in
  mk_beacon (b_want_state b) (b_last_seq b) (b_sender b) (b_was_laggy b)
    (b_standby_for_rank b) (b_standby_for_name b) (b_epoch b) (b_compat b) (b_seq_stamp b)
    (b_last_acked_stamp b) (b_laggy_until b) (b_last_mon_reconnect b) metrics.

End Beacon.
Arguments beacon T CS : clear implicits.
Arguments beffect T CS : clear implicits.
Close Scope string_scope.

(** ** Runs of the beacon against a clock *)

Section Runs.
Context {T CS : Type} `{BeaconTime T} `{!KeyOrderOk T}.
Context (compat_default : CS) (compat_merge : CS -> CS -> CS) (conf : beacon_conf T).
Implicit Types b : beacon T CS.

(** One operation; the second component is the last reading of the clock, which does not
    go back, and advances between two beacons. *)
Inductive bstep : beacon T CS * T -> beacon T CS * T -> Prop :=
| bs_send b clk healthy now b' es :
    k_ltb clk now = true -> b_last_seq b < 2 ^ 64 - 1 ->
    send conf healthy now b = (b', es) -> bstep (b, clk) (b', now)
| bs_ack b clk seq now b' :
    k_leb clk now = true -> handle_mds_beacon conf seq now b = Ok b' ->
    bstep (b, clk) (b', now)
| bs_lag b clk now b' es r :
    k_leb clk now = true -> is_laggy conf now b = (b', es, r) -> bstep (b, clk) (b', now)
| bs_map b clk m : bstep (b, clk) (notify_mdsmap compat_default compat_merge m b, clk)
| bs_want b clk s : bstep (b, clk) (notify_want_state s b, clk)
| bs_health b clk v now :
    k_leb clk now = true -> bstep (b, clk) (notify_health conf v now b, now).

Inductive breach : beacon T CS * T -> Prop :=
| br_new state_null no_pref compat0 clk :
    k_leb ut_zero clk = true -> breach (beacon_new state_null no_pref compat0, clk)
| br_step s s' : breach s -> bstep s s' -> breach s'.

(** Outstanding beacons have numbers up to [last_seq] and strictly increasing stamps, all
    newer than the last acknowledged one and none in the future. *)
Record binv (s : beacon T CS * T) : Prop := {
  bi_seq : 0 <= b_last_seq s.1 < 2 ^ 64;
  bi_acked : k_leb (b_last_acked_stamp s.1) s.2 = true;
  bi_stamp : forall k t, b_seq_stamp s.1 !! k = Some t ->
    1 <= k <= b_last_seq s.1 /\ k_leb t s.2 = true /\ k_ltb (b_last_acked_stamp s.1) t = true;
  bi_mono : forall k1 k2 t1 t2, b_seq_stamp s.1 !! k1 = Some t1 ->
    b_seq_stamp s.1 !! k2 = Some t2 -> k1 < k2 -> k_ltb t1 t2 = true
}.

Lemma k_leb_ltb_trans (x y z : T) : k_leb x y = true -> k_ltb y z = true -> k_ltb x z = true.
Proof.
  unfold k_ltb. rewrite !negb_true_iff. intros L N. destruct (k_leb z x) eqn:E; [|done].
  by rewrite (k_leb_trans _ _ _ E L) in N.
Qed.

Lemma erase_acked_lookup seq (l : list (Z * T)) (m : gmap Z T) k :
  StronglySorted bind_le l ->
  erase_acked seq l m !! k = if decide (k <= seq /\ k ∈ l.*1) then None else m !! k.
Proof.
  intros Hs. revert m. induction Hs as [|p l Hs IH Hall]; intros m; simpl.
  - rewrite decide_False; [done|]. set_solver.
  - destruct (Z.leb_spec (fst p) seq) as [L|G].
    + rewrite IH. destruct (decide (k = fst p)) as [->|Hne].
      * assert (fst p <= seq /\ fst p ∈ fst p :: l.*1) by (split; [done|left]).
        rewrite lookup_delete_eq. by repeat case_decide.
      * assert (k ∈ fst p :: l.*1 <-> k ∈ l.*1) by (rewrite elem_of_cons; tauto).
        rewrite lookup_delete_ne by done. repeat case_decide; tauto.
    + rewrite decide_False; [done|]. intros [Hle Hin].
      apply elem_of_cons in Hin as [->|Hin]; [lia|].
      apply list_elem_of_fmap in Hin as (q & -> & Hq).
      pose proof (Forall_elem _ _ _ Hall Hq) as B. unfold bind_le, k_leb, Z_order in B. lia.
Qed.

Lemma erase_acked_ordered seq (m : gmap Z T) k :
  erase_acked seq (ordered m) m !! k = if decide (k <= seq) then None else m !! k.
Proof.
  rewrite erase_acked_lookup by apply ordered_sorted.
  destruct (m !! k) as [t|] eqn:E.
  - assert (k ∈ (ordered m).*1) as Hin
      by (apply (list_elem_of_fmap_2 fst _ (k, t)), elem_of_ordered, E).
    repeat case_decide; tauto.
  - by repeat case_decide.
Qed.

Lemma binv_send s healthy now b' es :
  binv s -> k_ltb s.2 now = true -> b_last_seq s.1 < 2 ^ 64 - 1 ->
  send conf healthy now s.1 = (b', es) -> binv (b', now).
Proof.
  destruct s as [b clk]; simpl. intros [I1 I2 I3 I4] Hclk Hseq E.
  unfold send, _send in E. simpl in *. pose proof (k_ltb_le _ _ Hclk) as Hle.
  destruct healthy; simplify_eq/=; cycle 1.
  { split; simpl; eauto using k_leb_trans.
    intros k t Hk. destruct (I3 k t Hk) as (?&?&?). eauto using k_leb_trans. }
  split; simpl; eauto using k_leb_trans.
  - rewrite u64_id by (unfold in_u64; lia). lia.
  - intros k t. rewrite u64_id by (unfold in_u64; lia).
    rewrite lookup_insert. case_decide; intros; simplify_eq.
    + split_and!; [lia|lia|apply k_leb_refl|by eapply k_leb_ltb_trans].
    + destruct (I3 k t) as (?&?&?); [done|]. split_and!; [lia|lia|by eapply k_leb_trans|done].
  - intros k1 k2 t1 t2. rewrite u64_id by (unfold in_u64; lia).
    rewrite !lookup_insert. repeat case_decide; intros; simplify_eq.
    + lia.
    + destruct (I3 k2 t2) as (?&?&?); [done|lia].
    + destruct (I3 k1 t1) as (?&?&?); [done|]. by eapply k_leb_ltb_trans.
    + by apply (I4 k1 k2).
Qed.

(** What an acknowledgement does: outstanding beacons up to [seq] are forgotten. *)
Lemma handle_ack b seq now stamp :
  b_seq_stamp b !! seq = Some stamp -> k_ltb (b_last_acked_stamp b) stamp = true ->
  exists b', handle_mds_beacon conf seq now b = Ok b' /\
    b_last_acked_stamp b' = stamp /\ b_last_seq b' = b_last_seq b /\
    (forall k, b_seq_stamp b' !! k = if decide (k <= seq) then None else b_seq_stamp b !! k) /\
    b_was_laggy b' = b_was_laggy b && negb (k_ltb (bt_sub now stamp) (mds_beacon_grace conf)) /\
    b_laggy_until b' =
      (if b_was_laggy b && k_ltb (bt_sub now stamp) (mds_beacon_grace conf)
       then now else b_laggy_until b).
Proof.
  intros Hs Ha. unfold handle_mds_beacon. rewrite Hs, Ha. simpl. eexists; split_and!; try done.
  - intros k. apply erase_acked_ordered.
  - simpl. by destruct (b_was_laggy b), (k_ltb _ _).
Qed.

Lemma binv_ack s seq now b' :
  binv s -> k_leb s.2 now = true -> handle_mds_beacon conf seq now s.1 = Ok b' ->
  binv (b', now).
Proof.
  destruct s as [b clk]; simpl. intros [I1 I2 I3 I4] Hclk E. simpl in *.
  destruct (b_seq_stamp b !! seq) as [t|] eqn:Es.
  - destruct (I3 _ _ Es) as (Hk & Ht & Ha).
    destruct (handle_ack b seq now t Es Ha) as (b2 & E2 & A1 & A2 & A3 & _).
    rewrite E2 in E. injection E as <-. split; simpl; rewrite ?A1, ?A2; eauto using k_leb_trans.
    + intros k t'. rewrite A3. case_decide; [done|]. intros Hk'.
      destruct (I3 k t' Hk') as (?&?&?). split_and!; [lia|lia|by eapply k_leb_trans|].
      apply (I4 seq k); [done|done|lia].
    + intros k1 k2 t1 t2. rewrite !A3. repeat case_decide; try done. apply I4.
  - unfold handle_mds_beacon in E. rewrite Es in E. simplify_eq.
    split; simpl; eauto using k_leb_trans.
    intros k t Hk. destruct (I3 k t Hk) as (?&?&?). eauto using k_leb_trans.
Qed.

Lemma binv_same b clk b' now :
  binv (b, clk) -> k_leb clk now = true ->
  b_seq_stamp b' = b_seq_stamp b -> b_last_seq b' = b_last_seq b ->
  b_last_acked_stamp b' = b_last_acked_stamp b -> binv (b', now).
Proof.
  intros [I1 I2 I3 I4] Hclk E1 E2 E3. simpl in *.
  split; simpl; rewrite ?E1, ?E2, ?E3; eauto using k_leb_trans.
  intros k t Hk. destruct (I3 k t Hk) as (?&?&?). eauto using k_leb_trans.
Qed.

Lemma is_laggy_same now b b' es r :
  is_laggy conf now b = (b', es, r) ->
  b_seq_stamp b' = b_seq_stamp b /\ b_last_seq b' = b_last_seq b /\
  b_last_acked_stamp b' = b_last_acked_stamp b.
Proof. unfold is_laggy. repeat case_match; intros; by simplify_eq. Qed.

Lemma breach_binv s : breach s -> binv s.
Proof.
  induction 1 as [state_null no_pref compat0 clk Hclk|s s' _ IH St].
  - split; simpl; [lia|done| |]; intros; by rewrite lookup_empty in *.
  - destruct St as [b clk h now b' es|b clk seq now b'|b clk now b' es r Hc E|b clk m|b clk w
                   |b clk v now Hc].
    + by eapply (binv_send (b, clk)).
    + by eapply (binv_ack (b, clk)).
    + destruct (is_laggy_same _ _ _ _ _ E) as (?&?&?). by eapply binv_same.
    + eapply binv_same; [exact IH|apply k_leb_refl|done..].
    + eapply binv_same; [exact IH|apply k_leb_refl|done..].
    + eapply binv_same; [exact IH|exact Hc|done..].
Qed.

(** ** Properties *)

(** The assert of [handle_mds_beacon] never fires in a run whose clock
    does not go back and advances between beacons: whatever number the monitor
    acknowledges, and in whatever order, the handler returns. *)
Theorem beacon_ack_never_aborts b clk seq now :
  breach (b, clk) -> handle_mds_beacon conf seq now b <> Abort.
Proof.
  intros R%breach_binv. destruct (b_seq_stamp b !! seq) as [t|] eqn:E.
  - destruct (bi_stamp _ R seq t E) as (_ & _ & Ha).
    destruct (handle_ack b seq now t E Ha) as (b' & -> & _). done.
  - unfold handle_mds_beacon. by rewrite E.
Qed.

(** An acknowledgement of an outstanding beacon moves the acknowledged
    stamp forward to the time that beacon was sent, drops exactly the beacons numbered up to
    it and clears the laggy mark iff the round trip beat the grace period; a stale or unknown
    number changes nothing. *)
Theorem beacon_ack_spec b clk seq now :
  breach (b, clk) ->
  match b_seq_stamp b !! seq with
  | None => handle_mds_beacon conf seq now b = Ok b
  | Some stamp =>
      exists b', handle_mds_beacon conf seq now b = Ok b' /\
        b_last_acked_stamp b' = stamp /\ k_ltb (b_last_acked_stamp b) stamp = true /\
        (forall k, b_seq_stamp b' !! k = if decide (k <= seq) then None else b_seq_stamp b !! k) /\
        b_was_laggy b' =
          b_was_laggy b && negb (k_ltb (bt_sub now stamp) (mds_beacon_grace conf))
  end.
Proof.
  intros R%breach_binv. destruct (b_seq_stamp b !! seq) as [t|] eqn:E.
  - destruct (bi_stamp _ R seq t E) as (_ & _ & Ha).
    destruct (handle_ack b seq now t E Ha) as (b' & E1 & E2 & _ & E3 & E4 & _). eauto 10.
  - unfold handle_mds_beacon. by rewrite E.
Qed.

(** [is_laggy] answers true exactly when some beacon was acknowledged and
    the grace period has passed since it was sent; it then sets the laggy mark, and it asks
    for a monitor reconnect at most once per beacon interval. *)
Theorem is_laggy_spec now b :
  let '(b', es, r) := is_laggy conf now b in
  (r = true <-> b_last_acked_stamp b <> ut_zero /\
     k_ltb (mds_beacon_grace conf) (bt_sub now (b_last_acked_stamp b)) = true) /\
  (b_was_laggy b' = b_was_laggy b || r) /\
  (es = [] \/ es = [ReopenSession] /\ r = true /\ b_last_mon_reconnect b' = now /\
     k_ltb (bt_add (b_last_mon_reconnect b) (mds_beacon_interval conf)) now = true).
Proof.
  unfold is_laggy. case_decide as Ez; simpl.
  - split_and!; [naive_solver|by rewrite orb_false_r|by left].
  - destruct (k_ltb (mds_beacon_grace conf) _) eqn:E1; simpl.
    + destruct (k_ltb (mds_beacon_grace2 conf) _), (k_ltb (bt_add _ _) now) eqn:E2; simpl;
        (split_and!; [done|by rewrite orb_true_r|]); auto.
    + split_and!; [naive_solver|by rewrite orb_false_r|by left].
Qed.

(** [notify_health] forgets the previous metrics and reports at most one
    trimming warning and, per kind of late client, at most as many as the summary threshold
    (one when the threshold is zero), whatever the number of clients. *)
Theorem notify_health_bounded v now b :
  0 <= mds_health_summarize_threshold conf < 2 ^ 31 ->
  Z.of_nat (length (b_health (notify_health conf v now b))) <=
    1 + 2 * Z.max 1 (mds_health_summarize_threshold conf) /\
  b_health (notify_health conf v now b) = b_health (notify_health conf v now
    (beacon_new 0 0 (b_compat b))).
Proof.
  intros Ht. split; [|done]. simpl. rewrite !length_app.
  assert (forall code tail ms, Z.of_nat (length (summarize conf code tail ms)) <=
    Z.max 1 (mds_health_summarize_threshold conf)) as S.
  { intros code tail ms. unfold summarize. rewrite u64_id by (unfold in_u64; lia).
    destruct (Z.leb_spec (Z.of_nat (length ms)) (mds_health_summarize_threshold conf)); simpl; lia. }
  pose proof (S MDS_HEALTH_CLIENT_LATE_RELEASE_MANY "capability release"%string (late_cap_metrics v)).
  pose proof (S MDS_HEALTH_CLIENT_RECALL_MANY "cache pressure"%string
    (late_recall_metrics (bt_sub now (mds_recall_state_timeout conf)) v)).
  assert (length (trim_metrics conf v) <= 1)%nat
    by (unfold trim_metrics; case_match; simpl; lia).
  lia.
Qed.

End Runs.

#[export] Instance Z_beacon_time : BeaconTime Z := {| bt_add := Z.add; bt_sub := Z.sub |}.

Definition conf_ex : beacon_conf Z := mk_conf 15 30 4 60 30 10.

(** Two beacons sent at [t1] and [t2] and acknowledged in order. *)
Definition two_beacons (t1 t2 : Z) : res (beacon Z unit) :=
  let b := beacon_new 0 0 tt in
  let b := (send conf_ex true t1 b).1 in
  let b := (send conf_ex true t2 b).1 in
  b ← handle_mds_beacon conf_ex 1 (Z.max t1 t2) b;
  handle_mds_beacon conf_ex 2 (Z.max t1 t2 + 1) b.

(** Without that clock the assert does fire: when the clock steps back (or
    does not advance) between two beacons, the acknowledgement of the second one aborts the
    daemon. *)
Theorem beacon_ack_aborts_on_clock_step :
  is_ok (two_beacons 10 11) = true /\
  two_beacons 10 9 = Abort /\ two_beacons 10 10 = Abort.
Proof. split_and!; reflexivity. Qed.

Lemma breach_ex : breach tt (fun _ _ => tt) conf_ex
  ((send conf_ex true 2 (beacon_new 0 0 tt)).1, 2).
Proof.
  eapply br_step; [apply (br_new _ _ _ 0 0 tt 1); reflexivity|].
  eapply (bs_send _ _ _ _ _ true); [reflexivity|simpl; lia|apply surjective_pairing].
Qed.

Lemma beacon_ack_never_aborts_witness :
  handle_mds_beacon conf_ex 1 5 (send conf_ex true 2 (beacon_new 0 0 tt)).1 <> Abort.
Proof. exact (beacon_ack_never_aborts _ _ _ _ _ 1 5 breach_ex). Defined.

Lemma beacon_ack_spec_witness :
  exists b', handle_mds_beacon conf_ex 1 5 (send conf_ex true 2 (beacon_new 0 0 tt)).1 = Ok b' /\
    b_last_acked_stamp b' = 2.
Proof.
  destruct (beacon_ack_spec _ _ _ _ _ 1 5 breach_ex) as (b' & E1 & E2 & _).
  exists b'. split; [exact E1|exact E2].
Defined.

Lemma notify_health_bounded_witness :
  Z.of_nat (length (b_health (notify_health conf_ex
    (mk_view 100 [(4, Some "c"%string)] []) 5 (beacon_new 0 0 tt)))) <= 21.
Proof.
  apply (notify_health_bounded conf_ex (mk_view 100 [(4, Some "c"%string)] []) 5
           (beacon_new 0 0 tt)).
  simpl; lia.
Defined.
