(* ===== verification/LoadVec.v ===== *)
(** * Load vectors (mdstypes.h)

    The popularity counters of inodes and directory fragments, the load an MDS reports in
    its heartbeat, and the window of recent readers of a directory.

    [DecayCounter], [DecayRate] and the Lua interpreter are not part of the sources: the
    classes [DecayCounter] and [LuaVM] list the calls made to them.  Reading a counter
    ([get(now, rate)]) decays it, so it returns the new counter too.

    A Lua run is a fresh state whose table [arg] is given, a script text, and the value on
    the top of the stack if [luaL_dostring] succeeds.  Script texts hold no NUL character. *)

From stdpp Require Import base tactics numbers list strings.
From Stdlib Require Import ZArith QArith Lia Ascii.
From S2P Require Import Prelude Double.
Open Scope Z_scope.

Class DecayCounter (C T R D : Type) := {
  dc_default : C;
  dc_new : T -> C;
  dc_get : T -> R -> C -> C * D;
  dc_get_last : C -> D;
  dc_hit : T -> R -> D -> C -> C * D;
  (** the two-argument call [hit(now, amount)] *)
  dc_hit2 : T -> D -> C -> C * D;
  dc_adjust : D -> C -> C;
  dc_adjust_at : T -> R -> D -> C -> C;
  dc_reset : T -> C -> C;
  dc_scale : D -> C -> C
}.

Inductive lua_val (D : Type) :=
| LNum (d : D)
| LStr (s : string).
Arguments LNum {D} d.
Arguments LStr {D} s.

Class LuaVM (D : Type) := {
  lua_run : string -> list (lua_val D) -> option (lua_val D);
  lua_tonumber : lua_val D -> D;
  lua_tostring : lua_val D -> option string
}.

(** [std::replace(b, e, '_', ' ')] *)
Fixpoint replace_underscores (s : string) : string :=
  match s with
  | EmptyString => EmptyString
  | String c s' =>
      String (if Ascii.eqb c "_"%char then " "%char else c) (replace_underscores s')
  end.

Lemma replace_underscores_length s :
  String.length (replace_underscores s) = String.length s.
Proof. induction s; simpl; congruence. Qed.

Definition META_POP_IRD : Z := 0.
Definition META_POP_IWR : Z := 1.
Definition META_POP_READDIR : Z := 2.
Definition META_POP_FETCH : Z := 3.
Definition META_POP_STORE : Z := 4.

(** A double-quoted line end of the source's script literals. *)
Definition nl : string := String "010"%char EmptyString.

Definition META_SCRIPT0 : string :=
  ("IRD = arg[1]" +:+ nl +:+
   "IWR = arg[2]" +:+ nl +:+
   "READDIR = arg[3]" +:+ nl +:+
   "FETCH = arg[4]" +:+ nl +:+
   "STORE = arg[5]" +:+ nl +:+
   "return ")%string.

Section LoadVec.
Context {C T R D : Type} `{DecayCounter C T R D} `{CDouble D} `{LuaVM D}.

(** ** inode_load_vec_t, dirfrag_load_vec_t *)

Definition load_vec := list C.

Definition INODE_NUM : Z := 2.
Definition DIRFRAG_NUM : Z := 5.

Definition vec_new (num : Z) (now : T) : load_vec := replicate (Z.to_nat num) (dc_new now).
Definition vec_default (num : Z) : load_vec := replicate (Z.to_nat num) dc_default.

(** [get(t)] hands out a reference: a read and the update through it.  A negative index
    is out of the vector. *)
Definition vec_get (num t : Z) (v : load_vec) : res C :=
  check (t <? num) ;;
  if t <? 0 then Abort else match v !! Z.to_nat t with Some c => Ok c | None => Abort end.

Definition vec_set (t : Z) (c : C) (v : load_vec) : load_vec := <[Z.to_nat t := c]> v.

Definition vec_adjust (now : T) (rate : R) (d : D) (v : load_vec) : load_vec :=
  map (dc_adjust_at now rate d) v.

Definition vec_zero (now : T) (v : load_vec) : load_vec := map (dc_reset now) v.

Definition vec_scale (f : D) (v : load_vec) : load_vec := map (dc_scale f) v.

(** [add] and [sub] read (and so decay) the counters of [r]. *)
Fixpoint vec_add (now : T) (rate : R) (v r : load_vec) : load_vec * load_vec :=
  match v, r with
  | c :: v', x :: r' =>
      let '(x, d) := dc_get now rate x in
      let '(v', r') := vec_add now rate v' r' in
      (dc_adjust d c :: v', x :: r')
  | _, _ => (v, r)
  end.

Fixpoint vec_sub (now : T) (rate : R) (v r : load_vec) : load_vec * load_vec :=
  match v, r with
  | c :: v', x :: r' =>
      let '(x, d) := dc_get now rate x in
      let '(v', r') := vec_sub now rate v' r' in
      (dc_adjust (d_sub d_zero d) c :: v', x :: r')
  | _, _ => (v, r)
  end.

(** ** meta_load

    [metaload] is the option [mds_bal_metaload]. *)

Definition meta_script (metaload : string) : string :=
  (META_SCRIPT0 +:+ replace_underscores metaload)%string.

(** the size of the array [script], in bytes *)
Definition meta_script_size (metaload : string) : Z :=
  100 + Z.of_nat (String.length metaload).

Definition meta_eval (metaload : string) (args : list D) : D :=
  match lua_run (meta_script metaload) (map LNum args) with
  | Some r => lua_tonumber r
  | None => d_of_Z (-1)
  end.

Definition meta_load (metaload : string) (now : T) (rate : R) (v : load_vec)
  : load_vec * D :=
  let r := map (dc_get now rate) v in
  (map fst r, meta_eval metaload (map snd r)).

Definition meta_load_last (metaload : string) (v : load_vec) : D :=
  meta_eval metaload (map dc_get_last v).

(** ** mds_load_t *)

Record mds_load_t := mk_mds_load {
  ml_auth : load_vec;
  ml_all : load_vec;
  ml_req_rate : D;
  ml_cache_hit_rate : D;
  ml_queue_len : D;
  ml_cpu_load_avg : D
}.

Definition mds_load_new (t : T) : mds_load_t :=
  mk_mds_load (vec_new DIRFRAG_NUM t) (vec_new DIRFRAG_NUM t) d_zero d_zero d_zero d_zero.

Definition mds_load_default : mds_load_t :=
  mk_mds_load (vec_default DIRFRAG_NUM) (vec_default DIRFRAG_NUM)
    d_zero d_zero d_zero d_zero.

(** [mds_load_t::mds_load()] of MDBalancer.cc; [mode] is [mds_bal_mode]. *)
Definition mds_load (metaload : string) (mode : Z) (l : mds_load_t) : res D :=
  if mode =? 0 then
    Ok (d_of_Q (8 # 10) * meta_load_last metaload (ml_auth l) +
        d_of_Q (2 # 10) * meta_load_last metaload (ml_all l) +
        ml_req_rate l + d_of_Z 10 * ml_queue_len l)%dbl
  else if mode =? 1 then
    Ok (ml_req_rate l + d_of_Z 10 * ml_queue_len l)%dbl
  else if mode =? 2 then Ok (ml_cpu_load_avg l)
  else Abort.

(** ** load_spread_t *)

Definition SPREAD_MAX : Z := 4.

Record load_spread_t := mk_spread {
  sp_last : list Z;
  sp_p : Z;
  sp_n : Z;
  sp_count : C
}.

Definition spread_new (now : T) : load_spread_t :=
  mk_spread (replicate 4 (-1)) 0 0 (dc_new now).

(** the scan [for (i = 0; i < n; i++) if (last[i] == who)] *)
Definition spread_seen (s : load_spread_t) (who : Z) : bool :=
  existsb (Z.eqb who) (take (Z.to_nat (sp_n s)) (sp_last s)).

Definition spread_hit (now : T) (rate : R) (who : Z) (s : load_spread_t)
  : load_spread_t * D :=
  if spread_seen s who then (s, dc_get_last (sp_count s))
  else
    let last := <[Z.to_nat (sp_p s) := who]> (sp_last s) in
    let p := sp_p s + 1 in
    let n := if sp_n s <? SPREAD_MAX then sp_n s + 1 else sp_n s in
    if n =? 1 then (mk_spread last p n (sp_count s), d_zero)
    else
      let p := if p =? SPREAD_MAX then 0 else p in
      let '(c, v) := dc_hit now rate (d_of_Z 1) (sp_count s) in
      (mk_spread last p n c, v).

Definition spread_get (now : T) (rate : R) (s : load_spread_t) : load_spread_t * D :=
  let '(c, v) := dc_get now rate (sp_count s) in
  (mk_spread (sp_last s) (sp_p s) (sp_n s) c, v).

(** ** Properties *)

(** The script of [meta_load] with its terminating NUL fits the array, whatever the
    option holds. *)
Lemma meta_script_fits metaload :
  Z.of_nat (String.length (meta_script metaload)) + 1 <= meta_script_size metaload.
Proof.
  unfold meta_script, meta_script_size.
  rewrite string_app_length, replace_underscores_length.
  change (String.length META_SCRIPT0) with 80%nat. lia.
Qed.

Lemma vec_add_length now rate v r :
  length (vec_add now rate v r).1 = length v /\ length (vec_add now rate v r).2 = length r.
Proof.
  revert r. induction v as [|c v IH]; intros [|x r]; simpl; try done.
  destruct (dc_get now rate x), (vec_add now rate v r) eqn:E; simpl.
  specialize (IH r). rewrite E in IH. simpl in IH. lia.
Qed.

Lemma vec_sub_length now rate v r :
  length (vec_sub now rate v r).1 = length v /\ length (vec_sub now rate v r).2 = length r.
Proof.
  revert r. induction v as [|c v IH]; intros [|x r]; simpl; try done.
  destruct (dc_get now rate x), (vec_sub now rate v r) eqn:E; simpl.
  specialize (IH r). rewrite E in IH. simpl in IH. lia.
Qed.

Lemma vec_get_some num t v :
  0 <= t < num -> length v = Z.to_nat num -> exists c, vec_get num t v = Ok c.
Proof.
  intros Ht Hl. unfold vec_get, load_vec in *. rewrite check_true by lia.
  destruct (Z.ltb_spec t 0); [lia|].
  destruct (lookup_lt_is_Some_2 v (Z.to_nat t)) as [c ->]; [lia|eauto].
Qed.

(** The abstract window: the readers in the order of their arrival. *)
Definition spread_window (s : load_spread_t) : list Z :=
  if sp_n s <? SPREAD_MAX then take (Z.to_nat (sp_n s)) (sp_last s)
  else drop (Z.to_nat (sp_p s)) (sp_last s) ++ take (Z.to_nat (sp_p s)) (sp_last s).

(** A queue of the last four distinct readers. *)
Definition window_push (who : Z) (q : list Z) : list Z :=
  if bool_decide (who ∈ q) then q
  else (if (length q <? 4)%nat then q else tail q) ++ [who].

Record spread_ok (s : load_spread_t) : Prop := {
  so_len : length (sp_last s) = 4%nat;
  so_p : 0 <= sp_p s < SPREAD_MAX;
  so_n : 0 <= sp_n s <= SPREAD_MAX;
  so_fill : sp_n s < SPREAD_MAX -> sp_p s = sp_n s
}.

Lemma spread_ok_new now : spread_ok (spread_new now).
Proof. split; simpl; unfold SPREAD_MAX; lia. Qed.

Lemma existsb_elem who l : existsb (Z.eqb who) l = bool_decide (who ∈ l).
Proof.
  apply eq_bool_prop_intro. rewrite bool_decide_spec, Is_true_true, existsb_exists.
  split.
  - intros (x & Hx & ->%Z.eqb_eq). by apply list_elem_of_In.
  - intros Hx. exists who. split; [by apply list_elem_of_In|apply Z.eqb_refl].
Qed.

Lemma spread_seen_window s who :
  spread_ok s -> spread_seen s who = bool_decide (who ∈ spread_window s).
Proof.
  intros [Hl Hp Hn Hf]. unfold spread_seen, spread_window. rewrite existsb_elem.
  destruct (Z.ltb_spec (sp_n s) SPREAD_MAX) as [L|G]; [done|].
  apply bool_decide_ext.
  replace (take (Z.to_nat (sp_n s)) (sp_last s)) with (sp_last s)
    by (rewrite take_ge; [done|unfold SPREAD_MAX in *; lia]).
  rewrite elem_of_app, <- (take_drop (Z.to_nat (sp_p s)) (sp_last s)) at 1.
  rewrite elem_of_app. tauto.
Qed.

(** The four positions of the ring, by computation. *)
Ltac ring_cases s Hl :=
  destruct s as [l p n c0]; cbn in *;
  destruct l as [|a [|b [|d [|e [|f l]]]]]; try (cbn in Hl; lia).

Lemma spread_push s who c :
  spread_ok s -> (who ∈ spread_window s -> False) ->
  let p := sp_p s + 1 in
  let n := if sp_n s <? SPREAD_MAX then sp_n s + 1 else sp_n s in
  let s' := mk_spread (<[Z.to_nat (sp_p s) := who]> (sp_last s))
              (if p =? SPREAD_MAX then 0 else p) n c in
  spread_ok s' /\ spread_window s' = window_push who (spread_window s).
Proof.
  intros [Hl Hp Hn Hf] Hnew. unfold window_push. rewrite bool_decide_false by exact Hnew.
  clear Hnew. ring_cases s Hl. unfold SPREAD_MAX in *.
  assert (n = 4 \/ (n = p /\ n < 4)) as Hcase by lia.
  assert (p = 0 \/ p = 1 \/ p = 2 \/ p = 3) as Hpc by lia.
  destruct Hcase as [Hc|[Hc Hc']]; destruct Hpc as [Hq|[Hq|[Hq|Hq]]]; subst;
    (split; [split; first [reflexivity|cbv -[Z.le Z.lt]; lia]|reflexivity]).
Qed.

(** The reader window of a directory is a queue of the last four distinct readers: a
    hit by a reader in it changes nothing and reads the counter, any other hit enters the queue
    (dropping the oldest of four) and, unless it is the very first, hits the counter.  The
    ring indices stay in bounds. *)
Theorem spread_hit_refines_queue now rate who s :
  spread_ok s ->
  let '(s', v) := spread_hit now rate who s in
  spread_ok s' /\
  spread_window s' = window_push who (spread_window s) /\
  (if bool_decide (who ∈ spread_window s) then
     s' = s /\ v = dc_get_last (sp_count s)
   else if sp_n s =? 0 then sp_count s' = sp_count s /\ v = d_zero
   else (sp_count s', v) = dc_hit now rate (d_of_Z 1) (sp_count s)).
Proof.
  intros Hok. unfold spread_hit. rewrite (spread_seen_window s who Hok).
  case_bool_decide as Hin.
  { unfold window_push. rewrite bool_decide_true by done. done. }
  pose proof (fun c => spread_push s who c Hok Hin) as P. cbv zeta in P.
  pose proof Hok as [Hl Hp Hn Hf]. unfold SPREAD_MAX in *.
  destruct (Z.eqb_spec (sp_n s) 0) as [E0|E0].
  - assert (sp_p s = 0) as Ep by lia. rewrite E0, Ep in *. cbn in P |- *.
    destruct (P (sp_count s)) as [P1 P2]. split_and!; done.
  - assert (((if sp_n s <? 4 then sp_n s + 1 else sp_n s) =? 1) = false) as ->.
    { destruct (Z.ltb_spec (sp_n s) 4); apply Z.eqb_neq; lia. }
    destruct (dc_hit now rate (d_of_Z 1) (sp_count s)) as [c v] eqn:Ec.
    destruct (P c) as [P1 P2]. split_and!; done.
Qed.

End LoadVec.
Arguments load_vec C : clear implicits.
Arguments mds_load_t C D : clear implicits.
Arguments load_spread_t C : clear implicits.

(** ** A concrete counter: no decay, exact values *)

#[export] Instance plain_counter : DecayCounter Q Z unit Q := {
  dc_default := 0%Q;
  dc_new := fun _ => 0%Q;
  dc_get := fun _ _ c => (c, c);
  dc_get_last := fun c => c;
  dc_hit := fun _ _ d c => (Qplus c d, Qplus c d);
  dc_hit2 := fun _ d c => (Qplus c 1, Qplus c 1);
  dc_adjust := fun d c => Qplus c d;
  dc_adjust_at := fun _ _ d c => Qplus c d;
  dc_reset := fun _ _ => 0%Q;
  dc_scale := fun f c => Qmult c f
}.

Lemma spread_hit_refines_queue_witness :
  spread_ok (spread_new (C := Q) (D := Q) (R := unit) 0) /\
  spread_window (spread_hit (D := Q) 1 tt 7
    (spread_new (C := Q) (D := Q) (R := unit) 0)).1 = [7].
Proof.
  pose proof (spread_ok_new (C := Q) (D := Q) (R := unit) 0) as Hok. split; [exact Hok|].
  destruct (spread_hit_refines_queue (D := Q) 1 tt 7 _ Hok) as (_ & E & _).
  exact E.
Defined.
