(* ===== verification/Matching.v ===== *)
(** * Matching exporters with importers (MDBalancer.cc, MDBalancer.h)

    The part of [MDBalancer::prep_rebalance] that pairs overloaded with underloaded ranks,
    [try_match], and [check_targets], over any [CDouble].  The maps are [std::map]s whose
    [operator[]] inserts a zero where the key is missing.

    The two [while] loops of the matching advance an iterator only when what is left of an
    exporter or importer falls to 0.001 or below; [match_loop] takes a bound on the
    iterations and returns [None] when it is used up. *)

From stdpp Require Import base tactics numbers list gmap sorting.
From Stdlib Require Import ZArith QArith Qminmax Lqa Lia.
From S2P Require Import Prelude Double.
Open Scope Z_scope.

(** A [multimap<double, ...>] is kept in the order of [<] on doubles. *)
#[export] Instance double_order {D} `{CDouble D} : KeyOrder D :=
  fun a b => negb (d_lt b a).

Section Matching.
Context {D : Type} `{CDouble D}.

Record match_state := mk_match {
  target_load : D;
  mds_meta_load : gmap Z D;
  mds_import_map : gmap Z (gmap Z D);
  my_targets : gmap Z D;
  imported : gmap Z D;
  exported : gmap Z D
}.

Definition at0 (k : Z) (m : gmap Z D) : D := default d_zero (m !! k).
(** the insertion that [m[k]] does *)
Definition touch (k : Z) (m : gmap Z D) : gmap Z D := <[k := at0 k m]> m.
(** [m[k] += d] *)
Definition bump (k : Z) (d : D) (m : gmap Z D) : gmap Z D := <[k := (at0 k m + d)%dbl]> m.

Definition get_maxim (im : Z) (s : match_state) : match_state * D :=
  (mk_match (target_load s) (touch im (mds_meta_load s)) (mds_import_map s)
     (my_targets s) (touch im (imported s)) (exported s),
   (target_load s - at0 im (mds_meta_load s) - at0 im (imported s))%dbl).

Definition get_maxex (ex : Z) (s : match_state) : match_state * D :=
  (mk_match (target_load s) (touch ex (mds_meta_load s)) (mds_import_map s)
     (my_targets s) (imported s) (touch ex (exported s)),
   (at0 ex (mds_meta_load s) - target_load s - at0 ex (exported s))%dbl).

(** Returns the state, the new [maxex] and [maxim], and the amount. *)
Definition try_match (whoami ex : Z) (maxex : D) (im : Z) (maxim : D) (s : match_state)
  : match_state * D * D * D :=
  if (maxex <=? d_zero)%dbl || (maxim <=? d_zero)%dbl then (s, maxex, maxim, d_zero)
  else
    let howmuch := d_min maxex maxim in
    if (howmuch <=? d_zero)%dbl then (s, maxex, maxim, d_zero)
    else
      (mk_match (target_load s) (mds_meta_load s) (mds_import_map s)
         (if ex =? whoami then bump im howmuch (my_targets s) else my_targets s)
         (bump im howmuch (imported s)) (bump ex howmuch (exported s)),
       (maxex - howmuch)%dbl, (maxim - howmuch)%dbl, howmuch).

Definition eps : D := d_of_Q (1 # 1000).

(** the inner loop over the ranks that [ex] imported from *)
Fixpoint match_imports (whoami ex : Z) (maxex : D) (ims : list (Z * D)) (s : match_state)
  : match_state :=
  match ims with
  | [] => s
  | (im, _) :: ims' =>
      let '(s, maxim) := get_maxim im s in
      if (maxim <=? eps)%dbl then match_imports whoami ex maxex ims' s
      else
        let '(s, maxex, maxim, _) := try_match whoami ex maxex im maxim s in
        if (maxex <=? eps)%dbl then s else match_imports whoami ex maxex ims' s
  end.

Definition touch_imports (ex : Z) (s : match_state) : match_state :=
  mk_match (target_load s) (mds_meta_load s)
    (<[ex := default ∅ (mds_import_map s !! ex)]> (mds_import_map s))
    (my_targets s) (imported s) (exported s).

Definition match_import_source (whoami : Z) (s : match_state) (e : D * Z) : match_state :=
  let ex := snd e in
  let '(s, maxex) := get_maxex ex s in
  if (maxex <=? eps)%dbl then s
  else match_imports whoami ex maxex
         (ordered (default ∅ (mds_import_map s !! ex))) (touch_imports ex s).

(** big to small exporters: [exporters] is the multimap in ascending order *)
Definition match_import_sources (whoami : Z) (exporters : list (D * Z)) (s : match_state)
  : match_state :=
  fold_left (match_import_source whoami) (reverse exporters) s.

(** the [while] loop; [exs] and [ims] are what the two iterators have not passed *)
Fixpoint match_loop (fuel : nat) (whoami : Z) (exs ims : list (D * Z)) (s : match_state)
  : option match_state :=
  match fuel with
  | O => None
  | S fuel =>
      match exs, ims with
      | ex :: exs', im :: ims' =>
          let '(s, maxex) := get_maxex (snd ex) s in
          let '(s, maxim) := get_maxim (snd im) s in
          if (maxex <? eps)%dbl || (maxim <? eps)%dbl then Some s
          else
            let '(s, maxex, maxim, _) := try_match whoami (snd ex) maxex (snd im) maxim s in
            match_loop fuel whoami
              (if (maxex <=? eps)%dbl then exs' else exs)
              (if (maxim <=? eps)%dbl then ims' else ims) s
      | _, _ => Some s
      end
  end.

(** lines 755-773: the split of the load map *)
Definition split_load_map (target : D) (load_map : list (D * Z))
  : list (D * Z) * list (D * Z) :=
  fold_left (fun acc e =>
    let '(importers, exporters) := acc in
    if (fst e <? target)%dbl then (mm_insert (fst e) (snd e) importers, exporters)
    else (importers, mm_insert (fst e) (snd e) exporters)) load_map ([], []).

(** lines 755-838: the whole matching *)
Definition determine_targets (fuel : nat) (beat whoami : Z) (load_map : list (D * Z))
    (s : match_state) : option match_state :=
  let '(importers, exporters) := split_load_map (target_load s) load_map in
  let s := match_import_sources whoami exporters s in
  if Z.rem beat 2 =? 1 then match_loop fuel whoami (reverse exporters) importers s
  else match_loop fuel whoami exporters importers s.

End Matching.
Arguments match_state D : clear implicits.

(** ** Exact arithmetic: conservation and termination *)

Section Exact.
Context {D : Type} `{DoubleExact D}.
Implicit Types (s : match_state D) (m : gmap Z D).
Open Scope Q_scope.

Definition qv (k : Z) (m : gmap Z D) : Q := d_val (at0 k m).

Definition lsum (l : list (Z * D)) : Q := foldr (fun p acc => d_val (snd p) + acc) 0 l.
(** the sum of the values of a map *)
Definition msum (m : gmap Z D) : Q := lsum (map_to_list m).

#[local] Instance lsum_perm : Proper (Permutation ==> Qeq) lsum.
Proof.
  induction 1 as [|p l l' _ IH|p q l|l1 l2 l3 _ IH1 _ IH2]; simpl; [lra|lra|lra|].
  by rewrite IH1.
Qed.

Lemma val_zero : d_val (d_zero : D) == 0.
Proof. apply d_val_of_Q. Qed.

Lemma val_eps : d_val (eps : D) == 1 # 1000.
Proof. apply d_val_of_Q. Qed.

Lemma at0_touch j k m : at0 j (touch k m) = at0 j m.
Proof.
  unfold touch, at0. destruct (decide (j = k)) as [->|]; [by rewrite lookup_insert_eq|].
  by rewrite lookup_insert_ne.
Qed.

Lemma qv_bump j k d m :
  qv j (bump k d m) == if decide (j = k) then qv j m + d_val d else qv j m.
Proof.
  unfold qv, bump. destruct (decide (j = k)) as [->|].
  - unfold at0 at 1. rewrite lookup_insert_eq. apply d_val_add.
  - unfold at0. by rewrite lookup_insert_ne.
Qed.

Lemma msum_insert k v m : msum (<[k := v]> m) == msum m - qv k m + d_val v.
Proof.
  assert (forall n x, n !! k = None -> msum (<[k := x]> n) == d_val x + msum n) as Hnew.
  { intros n x Hn. unfold msum. by rewrite map_to_list_insert. }
  unfold qv, at0. destruct (m !! k) as [x|] eqn:E; simpl.
  - rewrite <- (insert_delete_id m k x E) at 2. rewrite <- insert_delete_eq.
    rewrite !Hnew by apply lookup_delete_eq. lra.
  - rewrite Hnew by done. pose proof val_zero. lra.
Qed.

Lemma msum_touch k m : msum (touch k m) == msum m.
Proof. unfold touch. rewrite msum_insert. unfold qv. lra. Qed.

Lemma msum_bump k d m : msum (bump k d m) == msum m + d_val d.
Proof. unfold bump. rewrite msum_insert, d_val_add. unfold qv. lra. Qed.

Lemma msum_empty : msum ∅ = 0.
Proof. unfold msum. by rewrite map_to_list_empty. Qed.

(** What rank [r] has above (below) the target. *)
Definition surplus (s : match_state D) (r : Z) : Q :=
  qv r (mds_meta_load s) - d_val (target_load s).
Definition deficit (s : match_state D) (r : Z) : Q :=
  d_val (target_load s) - qv r (mds_meta_load s).

Record minv (whoami : Z) (s : match_state D) : Prop := {
  mi_ex : forall r, 0 <= qv r (exported s) <= Qmax 0 (surplus s r);
  mi_im : forall r, 0 <= qv r (imported s) <= Qmax 0 (deficit s r);
  mi_tg : forall r, 0 <= qv r (my_targets s) <= qv r (imported s);
  mi_sum : msum (exported s) == msum (imported s);
  mi_mine : msum (my_targets s) == qv whoami (exported s);
  mi_self : my_targets s !! whoami = None
}.

(** Loads and target are read only. *)
Definition same_loads (s s' : match_state D) : Prop :=
  target_load s' = target_load s /\
  (forall r, at0 r (mds_meta_load s') = at0 r (mds_meta_load s)).

#[local] Instance same_loads_preorder : PreOrder same_loads.
Proof.
  split; unfold same_loads; [done|]. intros s1 s2 s3 [E1 L1] [E2 L2].
  split; [congruence|]. intros r. by rewrite L2.
Qed.

Definition touched (s s' : match_state D) : Prop :=
  same_loads s s' /\
  (forall r, at0 r (imported s') = at0 r (imported s)) /\
  (forall r, at0 r (exported s') = at0 r (exported s)) /\
  msum (imported s') == msum (imported s) /\ msum (exported s') == msum (exported s) /\
  my_targets s' = my_targets s.

Lemma touched_minv w s s' : touched s s' -> minv w s -> minv w s'.
Proof.
  intros ([Et El] & Ei & Ee & Si & Se & Em) [He Hi Ht Hs Hm Hw].
  split; unfold surplus, deficit, qv in *; intros; rewrite ?Et, ?El, ?Ei, ?Ee, ?Em; auto.
  by rewrite Si, Se.
Qed.

Lemma get_maxim_touched im s : touched s (get_maxim im s).1.
Proof.
  unfold touched, same_loads; simpl. split_and!; intros;
    rewrite ?at0_touch, ?msum_touch; done.
Qed.

Lemma get_maxex_touched ex s : touched s (get_maxex ex s).1.
Proof.
  unfold touched, same_loads; simpl. split_and!; intros;
    rewrite ?at0_touch, ?msum_touch; done.
Qed.

(** What [ex] may still export, and [im] still import. *)
Definition room_ex (s : match_state D) (ex : Z) : Q := surplus s ex - qv ex (exported s).
Definition room_im (s : match_state D) (im : Z) : Q := deficit s im - qv im (imported s).

Lemma touched_room s s' r :
  touched s s' -> room_ex s' r = room_ex s r /\ room_im s' r = room_im s r.
Proof.
  intros ([Et El] & Ei & Ee & _). unfold room_ex, room_im, surplus, deficit, qv.
  by rewrite Et, El, Ei, Ee.
Qed.

Lemma get_maxim_val im s : d_val (get_maxim im s).2 == room_im s im.
Proof. simpl. rewrite !d_val_sub. unfold room_im, deficit, qv. lra. Qed.

Lemma get_maxex_val ex s : d_val (get_maxex ex s).2 == room_ex s ex.
Proof. simpl. rewrite !d_val_sub. unfold room_ex, surplus, qv. lra. Qed.

Lemma le_false a b : d_le a b = false -> (d_val b < d_val a).
Proof.
  intros E. apply Qnot_le_lt. intros C. apply d_val_le in C. congruence.
Qed.

Lemma d_min_val a b :
  d_val (d_min a b) <= d_val a /\ d_val (d_min a b) <= d_val b /\
  (d_min a b = a \/ d_min a b = b).
Proof.
  unfold d_min. destruct (d_lt a b) eqn:E.
  - apply d_val_lt in E. split_and!; [lra|lra|auto].
  - assert (d_val b <= d_val a).
    { apply Qnot_lt_le. intros C. apply d_val_lt in C. congruence. }
    split_and!; [lra|lra|auto].
Qed.

Lemma Qmax_bound a b : 0 < a -> a <= b -> a <= Qmax 0 b.
Proof. intros. rewrite Q.max_r by lra. lra. Qed.

(** One match keeps the invariant, uses up the exporter or the importer, and does nothing
    else to what is left. *)
Lemma try_match_minv w ex maxex im maxim s :
  minv w s -> d_val maxex <= room_ex s ex -> d_val maxim <= room_im s im ->
  let '(s', maxex', maxim', how) := try_match w ex maxex im maxim s in
  minv w s' /\ same_loads s s' /\
  d_val maxex' <= room_ex s' ex /\ d_val maxim' <= room_im s' im /\
  (d_val maxex' <= 0 \/ d_val maxim' <= 0).
Proof.
  intros Hinv Hex Him. unfold try_match. pose proof val_zero as Z0.
  destruct (d_le maxex d_zero) eqn:E1; simpl.
  { apply d_val_le in E1. split_and!; try done. left. lra. }
  destruct (d_le maxim d_zero) eqn:E2.
  { apply d_val_le in E2. split_and!; try done. right. lra. }
  apply le_false in E1, E2. destruct (d_min_val maxex maxim) as (M1 & M2 & M3).
  assert (0 < d_val (d_min maxex maxim)) as Hpos by (destruct M3 as [M3|M3]; rewrite M3; lra).
  destruct (d_le (d_min maxex maxim) d_zero) eqn:E3.
  { apply d_val_le in E3. lra. }
  set (h := d_min maxex maxim) in *. clear E3.
  assert (ex <> im) as Hne.
  { intros ->. destruct (mi_ex _ _ Hinv im) as [? _], (mi_im _ _ Hinv im) as [? _].
    unfold room_ex, room_im, surplus, deficit in *. lra. }
  assert (same_loads s (mk_match (target_load s) (mds_meta_load s) (mds_import_map s)
     (if (ex =? w)%Z then bump im h (my_targets s) else my_targets s)
     (bump im h (imported s)) (bump ex h (exported s)))) as Hsame by done.
  assert (forall r, qv r (if (ex =? w)%Z then bump im h (my_targets s) else my_targets s) ==
     if (ex =? w)%Z then (if decide (r = im) then qv r (my_targets s) + d_val h
                       else qv r (my_targets s)) else qv r (my_targets s)) as Htg.
  { intros r. destruct (ex =? w)%Z; [apply qv_bump|done]. }
  destruct Hinv as [He Hi Ht Hs Hm Hw].
  split_and!; [|done|..].
  - split; simpl; unfold surplus, deficit in *; simpl.
    + intros r. rewrite qv_bump. specialize (He r). destruct (decide (r = ex)) as [->|]; [|done].
      split; [lra|]. apply Qmax_bound; unfold room_ex, surplus in *; lra.
    + intros r. rewrite qv_bump. specialize (Hi r). destruct (decide (r = im)) as [->|]; [|done].
      split; [lra|]. apply Qmax_bound; unfold room_im, deficit in *; lra.
    + intros r. rewrite Htg, qv_bump. specialize (Ht r).
      destruct (ex =? w)%Z, (decide (r = im)); lra.
    + rewrite !msum_bump, Hs. lra.
    + rewrite qv_bump. destruct (Z.eqb_spec ex w) as [->|N].
      * rewrite decide_True by done. rewrite msum_bump, Hm. lra.
      * rewrite decide_False by congruence. done.
    + destruct (Z.eqb_spec ex w) as [->|N]; [|done].
      unfold bump. by rewrite lookup_insert_ne by congruence.
  - unfold room_ex, surplus in *; simpl. rewrite d_val_sub, qv_bump, decide_True by done. lra.
  - unfold room_im, deficit in *; simpl. rewrite d_val_sub, qv_bump, decide_True by done. lra.
  - rewrite !d_val_sub. destruct M3 as [M3|M3]; rewrite M3; [left|right]; lra.
Qed.

(** The relation every matching routine establishes. *)
Definition matched (w : Z) (s s' : match_state D) : Prop :=
  minv w s -> minv w s' /\ same_loads s s'.

#[local] Instance matched_preorder w : PreOrder (matched w).
Proof.
  split; unfold matched; [done|]. intros s1 s2 s3 H1 H2 Hi.
  destruct (H1 Hi) as [I1 L1], (H2 I1) as [I2 L2]. split; [done|by etrans].
Qed.

Lemma touched_matched w s s' : touched s s' -> matched w s s'.
Proof. intros Ht Hi. split; [by eapply touched_minv|apply Ht]. Qed.

Lemma match_imports_matched w ex ims : forall maxex s,
  (minv w s -> d_val maxex <= room_ex s ex) ->
  matched w s (match_imports w ex maxex ims s).
Proof.
  induction ims as [|[im v] ims IH]; intros maxex s Hroom Hi; [done|].
  cbn [match_imports].
  pose proof (get_maxim_touched im s) as Ht. pose proof (get_maxim_val im s) as Hv.
  destruct (get_maxim im s) as [s1 maxim]; simpl in Ht, Hv.
  destruct (touched_room s s1 ex Ht) as [Re _], (touched_room s s1 im Ht) as [_ Ri].
  destruct (touched_matched w s s1 Ht Hi) as [Hi1 L1]. specialize (Hroom Hi).
  destruct (d_le maxim eps).
  { destruct (IH maxex s1) as [? ?]; [intros _; by rewrite Re|done|]. split; [done|by etrans]. }
  pose proof (try_match_minv w ex maxex im maxim s1 Hi1) as Hm.
  destruct (try_match w ex maxex im maxim s1) as [[[s2 maxex2] maxim2] how].
  destruct Hm as (Hi2 & L2 & R2 & _); [by rewrite Re|rewrite Ri; lra|].
  destruct (d_le maxex2 eps); [split; [done|by etrans]|].
  destruct (IH maxex2 s2) as [? ?]; [done|done|]. split; [done|]. etrans; [done|by etrans].
Qed.

Lemma touch_imports_touched ex s : touched s (touch_imports ex s).
Proof. unfold touched, same_loads; simpl. by split_and!. Qed.

Lemma match_import_source_matched w e s : matched w s (match_import_source w s e).
Proof.
  unfold match_import_source. pose proof (get_maxex_touched (snd e) s) as Ht.
  pose proof (get_maxex_val (snd e) s) as Hv.
  destruct (get_maxex (snd e) s) as [s1 maxex]; simpl in Ht, Hv.
  destruct (d_le maxex eps); [by apply touched_matched|].
  destruct (touched_room s s1 (snd e) Ht) as [R1 _].
  destruct (touched_room s1 _ (snd e) (touch_imports_touched (snd e) s1)) as [R2 _].
  etrans; [by apply touched_matched|].
  etrans; [apply touched_matched, touch_imports_touched|].
  apply match_imports_matched. intros _. rewrite R2, R1. lra.
Qed.

Lemma match_import_sources_matched w exs s : matched w s (match_import_sources w exs s).
Proof.
  unfold match_import_sources. generalize (reverse exs) as l. intros l.
  revert s. induction l as [|e l IH]; intros s; simpl; [done|].
  etrans; [apply match_import_source_matched|apply IH].
Qed.

(** Each turn of the loop keeps the invariant and, from a state that satisfies it,
    passes an exporter or an importer: as many turns as there are ranks are enough. *)
Lemma match_loop_matched fuel w : forall exs ims s,
  minv w s -> (length exs + length ims < fuel)%nat ->
  exists s', match_loop fuel w exs ims s = Some s' /\ minv w s' /\ same_loads s s'.
Proof.
  induction fuel as [|fuel IH]; intros exs ims s Hi Hf; [lia|].
  cbn [match_loop].
  destruct exs as [|ex exs]; [by exists s|]. destruct ims as [|im ims]; [by exists s|].
  pose proof (get_maxex_touched (snd ex) s) as Ht1.
  pose proof (get_maxex_val (snd ex) s) as Hv1.
  destruct (get_maxex (snd ex) s) as [s1 maxex]; simpl in Ht1, Hv1.
  pose proof (get_maxim_touched (snd im) s1) as Ht2.
  pose proof (get_maxim_val (snd im) s1) as Hv2.
  destruct (get_maxim (snd im) s1) as [s2 maxim]; simpl in Ht2, Hv2.
  destruct (touched_matched w s s1 Ht1 Hi) as [Hi1 L1].
  destruct (touched_matched w s1 s2 Ht2 Hi1) as [Hi2 L2].
  destruct (touched_room s s1 (snd ex) Ht1) as [R1 _].
  destruct (touched_room s1 s2 (snd ex) Ht2) as [R2 _].
  destruct (touched_room s1 s2 (snd im) Ht2) as [_ R3].
  destruct (_ || _); [exists s2; split; [done|]; split; [done|by etrans]|].
  pose proof (try_match_minv w (snd ex) maxex (snd im) maxim s2 Hi2) as Hm.
  destruct (try_match w (snd ex) maxex (snd im) maxim s2) as [[[s3 maxex3] maxim3] how].
  destruct Hm as (Hi3 & L3 & _ & _ & Hprog); [rewrite R2, R1; lra|rewrite R3; lra|].
  destruct (IH (if d_le maxex3 eps then exs else ex :: exs)
               (if d_le maxim3 eps then ims else im :: ims) s3) as (s' & E & I' & L'); [done| |].
  { pose proof val_eps as Ve. simpl in Hf.
    destruct Hprog as [P|P].
    - replace (d_le maxex3 eps) with true
        by (symmetry; apply d_val_le; rewrite Ve; lra). destruct (d_le maxim3 eps); simpl; lia.
    - replace (d_le maxim3 eps) with true
        by (symmetry; apply d_val_le; rewrite Ve; lra). destruct (d_le maxex3 eps); simpl; lia. }
  exists s'. split; [exact E|]. split; [done|].
  etrans; [exact L1|]. etrans; [exact L2|]. by etrans.
Qed.

Lemma split_load_map_length target lm :
  let '(importers, exporters) := split_load_map target lm in
  (length importers + length exporters = length lm)%nat.
Proof.
  unfold split_load_map.
  assert (forall l i e,
    let '(i', e') := fold_left (fun acc (x : D * Z) =>
      let '(importers, exporters) := acc in
      if d_lt (fst x) target then (mm_insert (fst x) (snd x) importers, exporters)
      else (importers, mm_insert (fst x) (snd x) exporters)) l (i, e) in
    (length i' + length e' = length i + length e + length l)%nat) as Hgen.
  { induction l as [|x l IH]; intros i e; simpl; [lia|].
    destruct (d_lt (fst x) target).
    - specialize (IH (mm_insert (fst x) (snd x) i) e).
      rewrite (Permutation_length (mm_insert_perm _ _ i)) in IH. simpl in IH.
      destruct (fold_left _ l _). lia.
    - specialize (IH i (mm_insert (fst x) (snd x) e)).
      rewrite (Permutation_length (mm_insert_perm _ _ e)) in IH. simpl in IH.
      destruct (fold_left _ l _). lia. }
  specialize (Hgen lm [] []). destruct (fold_left _ lm _). simpl in Hgen. lia.
Qed.

Lemma minv_cleared w s :
  my_targets s = ∅ -> imported s = ∅ -> exported s = ∅ -> minv w s.
Proof.
  intros E1 E2 E3. assert (forall r, qv r ∅ == 0) as Hz.
  { intros r. unfold qv, at0. rewrite lookup_empty. apply val_zero. }
  split; rewrite ?E1, ?E2, ?E3; intros; rewrite ?Hz, ?msum_empty; try done.
  - split; [lra|]. apply Q.le_max_l.
  - split; [lra|]. apply Q.le_max_l.
Qed.

(** The matching from cleared maps, for any sufficient bound. *)
Lemma matching_sound_fuel fuel beat w load_map s :
  my_targets s = ∅ -> imported s = ∅ -> exported s = ∅ -> (length load_map < fuel)%nat ->
  exists s', determine_targets fuel beat w load_map s = Some s' /\ same_loads s s' /\
    (forall r, 0 <= qv r (exported s') <= Qmax 0 (surplus s r)) /\
    (forall r, 0 <= qv r (imported s') <= Qmax 0 (deficit s r)) /\
    (forall r, 0 <= qv r (my_targets s') <= qv r (imported s')) /\
    msum (exported s') == msum (imported s') /\
    msum (my_targets s') == qv w (exported s') /\
    my_targets s' !! w = None.
Proof.
  intros E1 E2 E3 Hf. pose proof (minv_cleared w s E1 E2 E3) as Hi.
  unfold determine_targets. pose proof (split_load_map_length (target_load s) load_map) as Hl.
  destruct (split_load_map (target_load s) load_map) as [importers exporters].
  destruct (match_import_sources_matched w exporters s Hi) as [Hi1 HL].
  set (s1 := match_import_sources w exporters s) in *.
  assert (exists s', (if (Z.rem beat 2 =? 1)%Z
     then match_loop fuel w (reverse exporters) importers s1
     else match_loop fuel w exporters importers s1) = Some s' /\ minv w s' /\ same_loads s1 s')
    as (s' & E & [I1 I2 I3 I4 I5 I6] & HL').
  { destruct (_ =? _)%Z; apply match_loop_matched; rewrite ?length_reverse; done || lia. }
  exists s'. split; [exact E|]. assert (same_loads s s') as [Et El] by by etrans.
  split; [done|]. unfold surplus, deficit, qv in *.
  setoid_rewrite El in I1. setoid_rewrite El in I2. rewrite Et in I1, I2. by split_and!.
Qed.

(** C13: from cleared maps the matching of exporters with importers terminates, within as
    many turns as there are ranks, and (in exact arithmetic) moves load only from ranks
    above the target to ranks below it: no rank is asked to export more than its surplus
    or to import more than its deficit, exports and imports have the same total, this
    rank's targets add up to what it is to export, none of them exceeds the deficit of its
    rank, and none is this rank itself. *)
Theorem matching_conserves_load beat w load_map s :
  my_targets s = ∅ -> imported s = ∅ -> exported s = ∅ ->
  exists s', determine_targets (S (length load_map)) beat w load_map s = Some s' /\
    (forall r, 0 <= qv r (exported s') <= Qmax 0 (surplus s r)) /\
    (forall r, 0 <= qv r (imported s') <= Qmax 0 (deficit s r)) /\
    (forall r, 0 <= qv r (my_targets s') <= qv r (imported s')) /\
    msum (exported s') == msum (imported s') /\
    msum (my_targets s') == qv w (exported s') /\
    my_targets s' !! w = None.
Proof.
  intros E1 E2 E3.
  destruct (matching_sound_fuel (S (length load_map)) beat w load_map s) as (s' & E & _ & Hs');
    [done|done|done|lia|by exists s'].
Qed.

End Exact.

(** ** check_targets *)

Section Targets.
Context {D : Type} `{CDouble D}.

(** lines 1262-1267 *)
Definition note_map_target (my_targets : gmap Z D) (old : gmap Z Z) (p : Z) : gmap Z Z :=
  let old := match old !! p with None => <[p := 0]> old | Some _ => old end in
  match my_targets !! p with
  | None => <[p := s32 (default 0 (old !! p) + 1)]> old
  | Some _ => old
  end.

Record targets_acc := mk_tacc {
  ta_need : gset Z;
  ta_old : gmap Z Z;
  ta_send : bool;
  ta_ok : bool
}.

(** lines 1271-1282 *)
Definition note_my_target (map_targets : gset Z) (a : targets_acc) (i : Z * D)
  : targets_acc :=
  let old := <[fst i := 0]> (ta_old a) in
  let need := {[fst i]} ∪ ta_need a in
  if bool_decide (fst i ∈ map_targets) then mk_tacc need old (ta_send a) (ta_ok a)
  else mk_tacc need old true false.

(** lines 1286-1298; the state is (old_prev_targets, want_targets, send) *)
Definition sweep_old (rm_min rm_max : Z) (map_targets need : gset Z)
    (a : gmap Z Z * gset Z * bool) (p : Z * Z) : gmap Z Z * gset Z * bool :=
  let '(old, want, send) := a in
  if bool_decide (fst p ∉ map_targets) && bool_decide (fst p ∉ need)
  then (delete (fst p) old, want, send)
  else
    (old,
     if snd p <? rm_min then {[fst p]} ∪ want else want,
     if rm_max <=? snd p then true else send).

(** The result is the answer, the new [old_prev_targets], and the targets sent to the
    monitor, if any.  [rm_min] and [rm_max] are [mds_bal_target_removal_min/max]. *)
Definition check_targets (rm_min rm_max : Z) (map_targets : gset Z)
    (my_targets : gmap Z D) (old : gmap Z Z) : bool * gmap Z Z * option (gset Z) :=
  let old := fold_left (note_map_target my_targets) (ordered_elems map_targets) old in
  let a := fold_left (note_my_target map_targets) (ordered my_targets)
             (mk_tacc ∅ old false true) in
  let '(old, want, send) :=
    fold_left (sweep_old rm_min rm_max map_targets (ta_need a)) (ordered (ta_old a))
      (ta_old a, ta_need a, ta_send a) in
  (ta_ok a, old, if send then Some want else None).

Lemma note_map_targets_lookup (tg : gmap Z D) l old r :
  NoDup l ->
  fold_left (note_map_target tg) l old !! r =
    if bool_decide (r ∈ l) then
      Some (match tg !! r with
            | None => s32 (default 0 (old !! r) + 1)
            | Some _ => default 0 (old !! r) end)
    else old !! r.
Proof.
  intros Hl. revert old. induction Hl as [|p l Hp Hl IH]; intros old; simpl; [done|].
  rewrite IH. clear IH.
  assert (r <> p -> note_map_target tg old p !! r = old !! r) as Hne.
  { intros. unfold note_map_target. destruct (old !! p), (tg !! p);
      by rewrite ?lookup_insert_ne by done. }
  destruct (decide (r = p)) as [->|N].
  - rewrite bool_decide_false by done. rewrite bool_decide_true by set_solver.
    unfold note_map_target. destruct (old !! p) eqn:E, (tg !! p); simpl;
      rewrite ?lookup_insert_eq, ?E; done.
  - rewrite (Hne N). rewrite (bool_decide_ext (r ∈ p :: l) (r ∈ l)) by set_solver. done.
Qed.

Lemma note_my_targets_spec mt (l : list (Z * D)) a :
  let a' := fold_left (note_my_target mt) l a in
  ta_need a' = list_to_set l.*1 ∪ ta_need a /\
  (forall r, ta_old a' !! r = if bool_decide (r ∈ l.*1) then Some 0 else ta_old a !! r) /\
  ta_send a' = ta_send a || negb (forallb (fun i => bool_decide (fst i ∈ mt)) l) /\
  ta_ok a' = ta_ok a && forallb (fun i => bool_decide (fst i ∈ mt)) l.
Proof.
  revert a. induction l as [|i l IH]; intros a; simpl.
  { split_and!; [set_solver|done|by rewrite orb_false_r|by rewrite andb_true_r]. }
  destruct (IH (note_my_target mt a i)) as (E1 & E2 & E3 & E4). clear IH.
  rewrite E1, E3, E4. unfold note_my_target in *. split_and!.
  - case_bool_decide; simpl; set_solver.
  - intros r. rewrite E2. clear E1 E2 E3 E4.
    destruct (decide (r = fst i)) as [->|N].
    + repeat case_bool_decide; simpl; rewrite ?lookup_insert_eq; done || set_solver.
    + repeat case_bool_decide; simpl; rewrite ?lookup_insert_ne by done;
        done || set_solver.
  - clear. case_bool_decide; simpl; [done|]. by rewrite orb_true_r.
  - clear. case_bool_decide; simpl; [done|]. by rewrite andb_false_r.
Qed.

Lemma sweep_old_spec rm_min rm_max mt need l old want send :
  let '(old', want', send') :=
    fold_left (sweep_old rm_min rm_max mt need) l (old, want, send) in
  (forall r, old' !! r =
     if bool_decide (r ∈ l.*1 /\ (r ∉ mt) /\ (r ∉ need)) then None else old !! r) /\
  (forall r, r ∈ want' <-> r ∈ want \/
     exists n, (r, n) ∈ l /\ (r ∈ mt \/ r ∈ need) /\ n < rm_min) /\
  (send' = true <-> send = true \/
     exists r n, (r, n) ∈ l /\ (r ∈ mt \/ r ∈ need) /\ rm_max <= n).
Proof.
  revert old want send. induction l as [|[p n] l IH]; intros old want send;
    cbn [fold_left].
  { simpl. split_and!; intros; [|set_solver|set_solver].
    done. }
  assert (sweep_old rm_min rm_max mt need (old, want, send) (p, n) =
    if bool_decide (p ∉ mt) && bool_decide (p ∉ need) then (delete p old, want, send)
    else (old, if n <? rm_min then {[p]} ∪ want else want,
          if rm_max <=? n then true else send)) as -> by done.
  destruct (bool_decide (p ∉ mt) && bool_decide (p ∉ need)) eqn:Eb.
  - apply andb_true_iff in Eb as [E1%bool_decide_eq_true E2%bool_decide_eq_true].
    specialize (IH (delete p old) want send). destruct (fold_left _ l _) as [[o' w'] s'].
    destruct IH as (I1 & I2 & I3). split_and!.
    + intros r. rewrite I1. destruct (decide (r = p)) as [->|N].
      * rewrite lookup_delete_eq. repeat case_bool_decide; done || set_solver.
      * rewrite lookup_delete_ne by done. repeat case_bool_decide; done || set_solver.
    + intros r. rewrite I2. setoid_rewrite elem_of_cons. clear I1 I2 I3.
      split; [naive_solver|]. intros [?|(k & [E|?] & [?|?] & ?)]; simplify_eq; done || eauto 6.
    + rewrite I3. setoid_rewrite elem_of_cons. clear I1 I2 I3.
      split; [naive_solver|]. intros [?|(k & k' & [E|?] & [?|?] & ?)]; simplify_eq; done || eauto 8.
  - assert (p ∈ mt \/ p ∈ need) as Hin.
    { apply andb_false_iff in Eb as [E|E]; apply bool_decide_eq_false in E; [left|right];
        by apply dec_stable. }
    specialize (IH old (if n <? rm_min then {[p]} ∪ want else want)
                  (if rm_max <=? n then true else send)).
    destruct (fold_left _ l _) as [[o' w'] s']. destruct IH as (I1 & I2 & I3). split_and!.
    + intros r. rewrite I1. repeat case_bool_decide; done || set_solver.
    + intros r. rewrite I2. setoid_rewrite elem_of_cons. clear I1 I2 I3.
      destruct (Z.ltb_spec n rm_min) as [L|G].
      * rewrite elem_of_union, elem_of_singleton. split.
        -- intros [[->|?]|(k & ? & ? & ?)]; eauto 7.
        -- intros [?|(k & [E|?] & ? & ?)]; simplify_eq; eauto 6.
      * split; [intros [?|(k & ? & ? & ?)]; eauto 7|].
        intros [?|(k & [E|?] & ? & ?)]; [by left|simplify_eq; lia|]. right. by exists k.
    + rewrite I3. setoid_rewrite elem_of_cons. clear I1 I2 I3.
      destruct (Z.leb_spec rm_max n) as [L|G].
      * split; [|auto]. intros _. right. exists p, n. split; [by left|done].
      * split; [intros [?|(k & k' & ? & ? & ?)]; eauto 8|].
        intros [?|(k & k' & [E|?] & ? & ?)]; [by left|simplify_eq; lia|].
        right. by exists k, k'.
Qed.

(** The state of [check_targets] before the sweep. *)
Lemma noted_targets_spec mt (tg : gmap Z D) old :
  let a := fold_left (note_my_target mt) (ordered tg)
    (mk_tacc ∅ (fold_left (note_map_target tg) (ordered_elems mt) old) false true) in
  (forall r, r ∈ ta_need a <-> r ∈ dom tg) /\
  (forall r, ta_old a !! r =
     if bool_decide (r ∈ dom tg) then Some 0
     else if bool_decide (r ∈ mt) then Some (s32 (default 0 (old !! r) + 1)) else old !! r) /\
  (ta_ok a = true <-> forall r, r ∈ dom tg -> r ∈ mt) /\
  ta_send a = negb (ta_ok a).
Proof.
  set (o1 := fold_left (note_map_target tg) (ordered_elems mt) old). cbv zeta.
  destruct (note_my_targets_spec mt (ordered tg) (mk_tacc ∅ o1 false true))
    as (En & Eo & Es & Ek). simpl in *.
  set (a := fold_left (note_my_target mt) (ordered tg) (mk_tacc ∅ o1 false true)) in *.
  assert (forall r, r ∈ (ordered tg).*1 <-> r ∈ dom tg) as Hdom.
  { intros r. by rewrite elem_of_dom, elem_of_ordered_keys. }
  assert (forall r, r ∈ ta_need a <-> r ∈ dom tg) as Hneed.
  { intros r. rewrite En, elem_of_union, elem_of_list_to_set, Hdom. set_solver. }
  assert (forall r, ta_old a !! r =
     if bool_decide (r ∈ dom tg) then Some 0
     else if bool_decide (r ∈ mt) then Some (s32 (default 0 (old !! r) + 1)) else old !! r) as Ho.
  { intros r. rewrite Eo, (bool_decide_ext _ _ (Hdom r)). case_bool_decide as Hr; [done|].
    unfold o1. rewrite note_map_targets_lookup by apply ordered_elems_nodup.
    rewrite (bool_decide_ext _ _ (elem_of_ordered_elems mt r)).
    apply not_elem_of_dom in Hr. by rewrite Hr. }
  assert (ta_ok a = true <-> forall r, r ∈ dom tg -> r ∈ mt) as Hok.
  { rewrite Ek, forallb_forall. split.
    - intros Hall r Hr. apply Hdom, list_elem_of_fmap in Hr as (i & -> & Hi).
      apply list_elem_of_In in Hi. specialize (Hall i Hi).
      by apply bool_decide_eq_true in Hall.
    - intros Hall i Hi. apply bool_decide_eq_true. apply Hall, Hdom, list_elem_of_fmap_2.
      by apply list_elem_of_In. }
  assert (ta_send a = negb (ta_ok a)) as Hsend by (by rewrite Es, Ek).
  by split_and!.
Qed.

(** [check_targets] answers that the monitor knows all targets exactly when it does;
    it counts, for the targets the monitor knows but this rank no longer uses, how many
    rounds they have been unused, forgets all others, and sends the monitor a new list (the
    targets in use and those unused for fewer than [rm_min] rounds) exactly when a target is
    missing there or one was unused for [rm_max] rounds. *)
Theorem check_targets_spec rm_min rm_max mt (tg : gmap Z D) old :
  let '(ok, old', sent) := check_targets rm_min rm_max mt tg old in
  (ok = true <-> forall r, r ∈ dom tg -> r ∈ mt) /\
  (forall r, old' !! r =
     if bool_decide (r ∈ dom tg) then Some 0
     else if bool_decide (r ∈ mt) then Some (s32 (default 0 (old !! r) + 1)) else None) /\
  match sent with
  | Some want => (ok = false \/ exists r n, old' !! r = Some n /\ rm_max <= n) /\
      forall r, r ∈ want <-> r ∈ dom tg \/ exists n, old' !! r = Some n /\ n < rm_min
  | None => ok = true /\ forall r n, old' !! r = Some n -> n < rm_max
  end.
Proof.
  unfold check_targets. destruct (noted_targets_spec mt tg old) as (Hneed & Ho & Hok & Hsend).
  set (a := fold_left (note_my_target mt) _ _) in *.
  pose proof (sweep_old_spec rm_min rm_max mt (ta_need a) (ordered (ta_old a))
                (ta_old a) (ta_need a) (ta_send a)) as Hsw.
  destruct (fold_left (sweep_old rm_min rm_max mt (ta_need a)) _ _) as [[o' w'] s'].
  destruct Hsw as (S1 & S2 & S3).
  assert (forall r, o' !! r =
     if bool_decide (r ∈ dom tg) then Some 0
     else if bool_decide (r ∈ mt) then Some (s32 (default 0 (old !! r) + 1)) else None) as Ho'.
  { intros r. rewrite S1, Ho.
    destruct (bool_decide_reflect (r ∈ dom tg)) as [Hr|Hr].
    { rewrite bool_decide_false; [done|]. rewrite Hneed. tauto. }
    destruct (bool_decide_reflect (r ∈ mt)) as [Hm|Hm].
    { rewrite bool_decide_false; [done|]. tauto. }
    case_bool_decide as Hd; [done|]. destruct (old !! r) eqn:E; [|done].
    exfalso. apply Hd. split; [|by rewrite Hneed]. apply elem_of_ordered_keys. rewrite Ho.
    rewrite !bool_decide_false by done. eauto. }
  assert (forall r n, o' !! r = Some n <-> (r, n) ∈ ordered (ta_old a) /\ (r ∈ mt \/ r ∈ ta_need a)) as Hent.
  { intros r n. rewrite elem_of_ordered, Ho', Ho, Hneed.
    repeat case_bool_decide; naive_solver. }
  split_and!; [done|done|]. destruct s'.
  - split.
    + destruct S3 as [[E|(r & n & ? & ? & ?)] _]; [done|left|right].
      * rewrite Hsend in E. by apply negb_true_iff.
      * exists r, n. by rewrite Hent.
    + intros r. rewrite S2, Hneed. setoid_rewrite Hent. naive_solver.
  - destruct (ta_ok a) eqn:Eok.
    + split; [done|]. intros r n Hn%Hent. apply Z.nle_gt. intros C.
      destruct S3 as [_ S3]. discriminate S3. right. exists r, n. naive_solver.
    + destruct S3 as [_ S3]. discriminate S3. left. by rewrite Hsend.
Qed.

End Targets.

(** ** Concrete clusters *)

Definition cluster_ex {D} `{CDouble D} (imports : gmap Z (gmap Z D)) : match_state D :=
  mk_match (d_of_Z 6)
    {[ 0 := d_of_Z 10; 1 := d_of_Z 9; 2 := d_of_Z 2; 3 := d_of_Z 3 ]} imports ∅ ∅ ∅.

Definition load_map_ex {D} `{CDouble D} : list (D * Z) :=
  [(d_of_Z 2, 2); (d_of_Z 3, 3); (d_of_Z 9, 1); (d_of_Z 10, 0)].

Lemma matching_conserves_load_witness :
  exists s', determine_targets 5 1 1 load_map_ex (cluster_ex (D := Q) ∅) = Some s' /\
    my_targets s' !! 1 = None /\ (msum (my_targets s') == qv 1 (exported s'))%Q.
Proof.
  destruct (matching_conserves_load 1 1 load_map_ex (cluster_ex (D := Q) ∅))
    as (s' & E & _ & _ & _ & _ & Hm & Hw); [reflexivity|reflexivity|reflexivity|].
  exists s'. split; [exact E|]. split; [exact Hw|exact Hm].
Defined.

(** The second matching stops at an exporter that the first one has served.  In a
    cluster with loads 10, 9, 2 and 3, rank 1 sheds its surplus of 3 to rank 3; but when rank 0
    had imported from rank 2, and so is matched with it first, the loop breaks at rank 0 and
    rank 1 keeps its surplus of 3 although rank 3 still has room for all of it (doubles). *)
Theorem matching_stops_at_matched_exporter :
  (exists s', determine_targets 5 1 1 load_map_ex (cluster_ex (D := b64) ∅) = Some s' /\
     my_targets s' = {[ 3 := d_of_Z 3 ]}) /\
  (exists s', determine_targets 5 1 1 load_map_ex
       (cluster_ex (D := b64) {[ 0 := {[ 2 := d_of_Z 1 ]} ]}) = Some s' /\
     my_targets s' = ∅ /\
     (get_maxex 1 s').2 = d_of_Z 3 /\ (get_maxim 3 s').2 = d_of_Z 3).
Proof.
  split; eexists; split; [vm_compute; reflexivity|..|vm_compute; reflexivity|].
  - vm_compute. reflexivity.
  - split_and!; vm_compute; reflexivity.
Qed.
