(* ===== verification/LuaGlue.v ===== *)
(** * The Lua hooks of the balancer (MDBalancer.cc)

    The texts around the user's scripts, the assembly of the two balancer scripts in fixed
    arrays, the numbers parsed out of the interpreter's answer ([atof], [strtok]) and the
    fragment selector.  The interpreter itself is [LuaVM].

    An out-of-range access (an array or vector index out of bounds, a conversion that does
    not fit an [int], a NULL string) is undefined in C++ and is [Abort] here.  The arrays
    [script] are one byte short (see [lua_script_arrays]); past that byte the model goes on
    with the text the code wrote.  The array [ret] is not initialised: its contents before
    the call, up to the first NUL, are the argument [ret0]. *)

From stdpp Require Import base tactics numbers list gmap strings.
From Stdlib Require Import ZArith QArith Lia Ascii.
From S2P Require Import Prelude Double LoadVec Matching.
Open Scope Z_scope.

Definition dq : string := String "034"%char EmptyString.

Definition LUA_IMPORT : string :=
  ("package.path = package.path .. ';/home/msevilla/code/ceph/src/mds/balancers/modules/?.lua;'" +:+ nl +:+
   "require " +:+ dq +:+ "MDSParser" +:+ dq +:+ nl +:+
   "function WRState(x)" +:+ nl +:+
   "  stateF = io.open(" +:+ dq +:+ "/tmp/balancer_state" +:+ dq +:+ ", " +:+ dq +:+ "w" +:+ dq +:+ ")" +:+ nl +:+
   "  stateF:write(x)" +:+ nl +:+
   "  io.close(stateF)" +:+ nl +:+
   "end" +:+ nl +:+
   "function RDState(x)" +:+ nl +:+
   "  stateF = io.open(" +:+ dq +:+ "/tmp/balancer_state" +:+ dq +:+ ", " +:+ dq +:+ "r" +:+ dq +:+ ")" +:+ nl +:+
   "  state = stateF:read(" +:+ dq +:+ "*all" +:+ dq +:+ ")" +:+ nl +:+
   "  io.close(stateF)" +:+ nl +:+
   "  return state" +:+ nl +:+
   "end" +:+ nl +:+
   "function Max(x, y) if x > y then return x else return y end end" +:+ nl +:+
   "function Min(x, y) if x < y then return x else return y end end" +:+ nl +:+
   "whoami, MDSs, authmetaload, nfiles, allmetaload = MDSParser.parse_args(arg)" +:+ nl +:+
   "i=whoami" +:+ nl +:+
   "-- begin MDS_BAL_MDSLOAD --" +:+ nl +:+
   "MDSs[whoami][" +:+ dq +:+ "load" +:+ dq +:+ "] = ")%string.

Definition LUA_CALCULATE_LOAD : string :=
  (nl +:+
   "-- end   MDS_BAL_MDSLOAD --" +:+ nl +:+
   "total = 0" +:+ nl +:+
   "for i=1,#MDSs do" +:+ nl +:+
   "  -- begin MDS_BAL_MDSLOAD --" +:+ nl +:+
   "  load = ")%string.

Definition LUA_PREPARE_WHEN : string :=
  (nl +:+
   "  -- end   MDS_BAL_MDSLOAD --" +:+ nl +:+
   "  MDSs[i][" +:+ dq +:+ "load" +:+ dq +:+ "] = load" +:+ nl +:+
   "  total = total + load" +:+ nl +:+
   "end" +:+ nl +:+
   "f = io.open(arg[1], " +:+ dq +:+ "a" +:+ dq +:+ ")" +:+ nl +:+
   "io.output(f)" +:+ nl +:+
   "targets = {}" +:+ nl +:+
   "for i=1,#MDSs do targets[i] = 0 end" +:+ nl +:+
   "-- begin MDS_BAL_WHEN --" +:+ nl)%string.

Definition LUA_PREPARE_WHERE : string :=
  (" " +:+ nl +:+
   "-- end   MDS_BAL_WHEN --" +:+ nl +:+
   "   io.write(string.format(" +:+ dq +:+ "  [Lua5.2] migrating! (whoami=%d authmetaload=%f nfiles=%f allmetaload=%f total=%f)\n" +:+ dq +:+ ", whoami, authmetaload, nfiles, allmetaload, total))" +:+ nl +:+
   "   E = {}; I = {}" +:+ nl +:+
   "   for i=1,#MDSs do" +:+ nl +:+
   "     metaload = MDSs[i][" +:+ dq +:+ "load" +:+ dq +:+ "]" +:+ nl +:+
   "     if metaload > total / #MDSs then E[i] = metaload" +:+ nl +:+
   "     else I[i] = metaload end" +:+ nl +:+
   "   end" +:+ nl +:+
   " else" +:+ nl +:+
   "   io.close(f)" +:+ nl +:+
   "   MDSParser.print_metrics(arg[1], MDSs)" +:+ nl +:+
   "   f = io.open(arg[1], " +:+ dq +:+ "a" +:+ dq +:+ ")" +:+ nl +:+
   "   io.output(f)" +:+ nl +:+
   "   io.write(string.format(" +:+ dq +:+ "  [Lua5.2] not migrating! (whoami=%d authmetaload=%f nfiles=%f allmetaload=%f total=%f)\n" +:+ dq +:+ ", whoami, authmetaload, nfiles, allmetaload, total))" +:+ nl +:+
   "   ret = " +:+ dq +:+ dq +:+ nl +:+
   "   for i=1,#targets do ret = ret..targets[i].." +:+ dq +:+ " " +:+ dq +:+ " end" +:+ nl +:+
   "   return ret" +:+ nl +:+
   " end" +:+ nl +:+
   "io.close(f)" +:+ nl +:+
   "MDSParser.print_metrics(arg[1], MDSs)" +:+ nl +:+
   "f = io.open(arg[1], " +:+ dq +:+ "a" +:+ dq +:+ ")" +:+ nl +:+
   "io.output(f)" +:+ nl +:+
   "-- begin MDS_BAL_WHERE --" +:+ nl)%string.

Definition LUA_RETURN : string :=
  (nl +:+
   "-- end   MDS_BAL_WHERE --" +:+ nl +:+
   "ret = " +:+ dq +:+ dq +:+ nl +:+
   "if targets[whoami] ~= 0 then" +:+ nl +:+
   "  for i=1,#targets do targets[i] = 0 end" +:+ nl +:+
   "  io.write(" +:+ dq +:+ "  [Lua5.2] Uh oh... trying to send load to myself, zeroing out targets array.\n" +:+ dq +:+ ")" +:+ nl +:+
   "end" +:+ nl +:+
   "for i=1,#targets do ret = ret..targets[i].." +:+ dq +:+ " " +:+ dq +:+ " end" +:+ nl +:+
   "io.close(f)" +:+ nl +:+
   "return ret")%string.

Definition LUA_PREPARE_HOWMUCH : string :=
  ("package.path = package.path .. ';/home/msevilla/code/ceph/src/mds/balancers/modules/?.lua;'" +:+ nl +:+
   "require " +:+ dq +:+ "MDSBinPacker" +:+ dq +:+ nl +:+
   "-- begin MDS_BAL_HOWMUCH --" +:+ nl +:+
   "strategies = ")%string.

Definition LUA_RETURN_HOWMUCH : string :=
  (nl +:+
   "-- end   MDS_BAL_HOWMUCH --" +:+ nl +:+
   "return MDSBinPacker.pack(strategies, arg)")%string.

(** [while ((pos = s.find("\\n", pos)) != npos) s.replace(pos, 2, " \n")]: a backslash
    followed by an n becomes a space and a line end.  The replacement holds no backslash, so
    the search from the same position finds the next one. *)
Fixpoint expand_newlines (s : string) : string :=
  match s with
  | String "\"%char (String "n"%char s') => String " "%char (nl +:+ expand_newlines s')
  | String c s' => String c (expand_newlines s')
  | EmptyString => EmptyString
  end.

Definition prepare_option (s : string) : string := expand_newlines (replace_underscores s).

Definition custom_script (mdsload when where_ : string) : string :=
  (LUA_IMPORT +:+ prepare_option mdsload +:+ LUA_CALCULATE_LOAD +:+ prepare_option mdsload +:+
   LUA_PREPARE_WHEN +:+ prepare_option when +:+ LUA_PREPARE_WHERE +:+ prepare_option where_ +:+
   LUA_RETURN)%string.

Definition strlen (s : string) : Z := Z.of_nat (String.length s).

Definition custom_script_size (mdsload when where_ : string) : Z :=
  strlen LUA_IMPORT + strlen mdsload + strlen LUA_CALCULATE_LOAD + strlen mdsload +
  strlen LUA_PREPARE_WHEN + strlen when + strlen LUA_PREPARE_WHERE + strlen where_ +
  strlen LUA_RETURN.

Definition howmuch_script (howmuch : string) : string :=
  (LUA_PREPARE_HOWMUCH +:+ howmuch +:+ LUA_RETURN_HOWMUCH)%string.

Definition howmuch_script_size (howmuch : string) : Z :=
  strlen LUA_PREPARE_HOWMUCH + strlen howmuch + strlen LUA_RETURN_HOWMUCH.

(** ** The C library: atof and strtok *)

Definition is_space (c : ascii) : bool :=
  let n := Z.of_nat (nat_of_ascii c) in (n =? 32) || ((9 <=? n) && (n <=? 13)).

Definition digit (c : ascii) : option Z :=
  let n := Z.of_nat (nat_of_ascii c) in
  if (48 <=? n) && (n <=? 57) then Some (n - 48) else None.

Fixpoint skip_space (s : string) : string :=
  match s with
  | String c s' => if is_space c then skip_space s' else s
  | EmptyString => s
  end.

Definition take_sign (s : string) : bool * string :=
  match s with
  | String "-"%char s' => (true, s')
  | String "+"%char s' => (false, s')
  | _ => (false, s)
  end.

(** value, number of digits, rest *)
Fixpoint take_digits (acc : Z) (n : nat) (s : string) : Z * nat * string :=
  match s with
  | String c s' =>
      match digit c with
      | Some d => take_digits (10 * acc + d) (S n) s'
      | None => (acc, n, s)
      end
  | EmptyString => (acc, n, s)
  end.

Definition take_fraction (acc : Z) (s : string) : Z * nat * string :=
  match s with
  | String "."%char s' => take_digits acc 0 s'
  | _ => (acc, O, s)
  end.

Definition take_exponent (s : string) : Z :=
  match s with
  | String c s' =>
      if Ascii.eqb c "e"%char || Ascii.eqb c "E"%char then
        let '(neg, s') := take_sign s' in
        let '(e, n, _) := take_digits 0 0 s' in
        if neg then - e else e
      else 0
  | EmptyString => 0
  end.

Definition pow10 (e : Z) : Q :=
  if 0 <=? e then inject_Z (10 ^ e) else (1 # Z.to_pos (10 ^ (- e)))%Q.

(** The decimal numbers of [strtod]. *)
Definition decimal (s : string) : Q :=
  let '(neg, s) := take_sign (skip_space s) in
  let '(i, n, s) := take_digits 0 0 s in
  let '(m, k, s) := take_fraction i s in
  if Nat.eqb (n + k) 0 then 0%Q
  else
    let q := (inject_Z m * pow10 (take_exponent s - Z.of_nat k))%Q in
    if neg then Qopp q else q.

Definition LINE_MAX : Z := 2048.

(** [strtok(ret, " ")] until it returns NULL: the non-empty runs between spaces. *)
Fixpoint tokens_from (cur s : string) : list string :=
  match s with
  | EmptyString => match cur with EmptyString => [] | _ => [cur] end
  | String c s' =>
      if Ascii.eqb c " "%char then
        match cur with EmptyString => tokens_from EmptyString s'
                     | _ => cur :: tokens_from EmptyString s' end
      else tokens_from (cur +:+ String c EmptyString) s'
  end.

Definition strtok_all (s : string) : list string := tokens_from EmptyString s.

Section Glue.
Context {D : Type} `{CDouble D} `{LuaVM D}.
(** the spellings [strtod] knows besides decimal numbers (INF, NAN, hexadecimal) *)
Context (strtod_special : string -> option D).

Definition atof (s : string) : D :=
  match strtod_special s with Some d => d | None => d_of_Q (decimal s) end.

(** The chunk loop of [custom_balancer]: every space or line end closes a number. *)
Fixpoint parse_targets_from (m : Z) (cur s : string) (tg : gmap Z D) : gmap Z D :=
  match s with
  | EmptyString => tg
  | String c s' =>
      let cur := (cur +:+ String c EmptyString)%string in
      if Ascii.eqb c " "%char || Ascii.eqb c "010"%char
      then parse_targets_from (s32 (m + 1)) EmptyString s' (<[m := atof cur]> tg)
      else parse_targets_from m cur s' tg
  end.

Definition parse_targets (ret : string) (tg : gmap Z D) : gmap Z D :=
  parse_targets_from 0 EmptyString ret tg.

(** [strcpy(ret, lua_tostring(...))] into [char ret[LINE_MAX]]; when the script failed
    [ret] keeps what the stack held. *)
Definition lua_answer (ret0 : string) (r : option (lua_val D)) : res string :=
  match r with
  | None => Ok ret0
  | Some v =>
      match lua_tostring v with
      | None => Abort
      | Some s => check (strlen s <? LINE_MAX) ;; Ok s
      end
  end.

(** One rank's sextuplet of the argument table. *)
Definition rank_args {C} (meta : load_vec C -> D) (l : mds_load_t C D) : list (lua_val D) :=
  [LNum (meta (ml_auth l)); LNum (meta (ml_all l)); LNum (ml_req_rate l);
   LNum (ml_queue_len l); LNum (ml_cpu_load_avg l); LNum (d_of_Z (-1))].

(** ** The fragment selector

    [A] is a directory fragment, [pop] its load at [rebalance_time] and [id] its identity;
    [smaller] is the multimap in ascending order. *)
Section Selector.
Context {A : Type} (pop : A -> D) (id : A -> Z).

Record export_state := mk_exports {
  es_exports : list A;
  es_have : D;
  es_already : gset Z
}.

Definition select_token (frags : list A) (st : res export_state) (token : string)
  : res export_state :=
  st ← st;
  check (strlen token <? LINE_MAX) ;;
  match d_trunc (atof token - d_of_Z 1)%dbl with
  | Some i =>
      check ((- 2 ^ 31 <=? i) && (i <? 2 ^ 31)) ;;
      if i <? 0 then Abort
      else match frags !! Z.to_nat i with
           | Some f => Ok (mk_exports (es_exports st ++ [f]) (es_have st + pop f)%dbl
                             ({[id f]} ∪ es_already st))
           | None => Abort
           end
  | None => Abort
  end.

Definition fragment_selector_luahook (log_file howmuch ret0 : string)
    (smaller : list (D * A)) (amount : D) (st : export_state) : res export_state :=
  match smaller with
  | [] => Ok st
  | _ =>
      let rev := reverse smaller in
      let arg := LStr log_file :: LNum amount :: map (fun x => LNum (fst x)) rev in
      let frags := map snd rev in
      ret ← lua_answer ret0 (lua_run (howmuch_script howmuch) arg);
      if bool_decide (ret = "-1"%string) then Ok st
      else fold_left (select_token frags) (strtok_all ret) (Ok st)
  end.

End Selector.
End Glue.
Arguments export_state D A : clear implicits.

(** ** Properties *)

Lemma expand_newlines_step c s :
  expand_newlines (String c s) = String c (expand_newlines s) \/
  exists s', s = String "n"%char s' /\
    expand_newlines (String c s) = String " "%char (nl +:+ expand_newlines s').
Proof.
  destruct s as [|d s']; destruct c as [[] [] [] [] [] [] [] []]; auto;
    destruct d as [[] [] [] [] [] [] [] []]; auto; right; by exists s'.
Qed.

Lemma expand_newlines_length s : String.length (expand_newlines s) = String.length s.
Proof.
  assert (forall n t, (String.length t <= n)%nat ->
    String.length (expand_newlines t) = String.length t) as Hgen; [|by eapply Hgen].
  induction n as [|n IH]; intros [|c t] Hn; simpl in Hn; try (simpl; lia).
  destruct (expand_newlines_step c t) as [E|(t' & -> & E)]; rewrite E.
  - cbn [String.length]. rewrite IH; lia.
  - cbn [String.length]. rewrite string_app_length, IH; simpl in *; lia.
Qed.

Lemma prepare_option_length s : String.length (prepare_option s) = String.length s.
Proof. unfold prepare_option. by rewrite expand_newlines_length, replace_underscores_length. Qed.

(** Whatever the options hold, the scripts of [custom_balancer] and of the fragment
    selector with their terminating NUL are exactly one byte longer than the arrays they are
    written to, while the script of [meta_load] fits its array. *)
Theorem lua_script_arrays mdsload when where_ howmuch metaload :
  strlen (custom_script mdsload when where_) + 1 = custom_script_size mdsload when where_ + 1 /\
  strlen (howmuch_script howmuch) + 1 = howmuch_script_size howmuch + 1 /\
  strlen (meta_script metaload) + 1 <= meta_script_size metaload.
Proof.
  split_and!; [..|apply meta_script_fits].
  - unfold custom_script, custom_script_size, strlen.
    rewrite !string_app_length, !prepare_option_length. lia.
  - unfold howmuch_script, howmuch_script_size, strlen. rewrite !string_app_length. lia.
Qed.

Definition is_sep (c : ascii) : bool := Ascii.eqb c " "%char || Ascii.eqb c "010"%char.

Fixpoint no_sep (s : string) : bool :=
  match s with EmptyString => true | String c s' => negb (is_sep c) && no_sep s' end.

(** the value the generated script returns: every target followed by a space *)
Fixpoint print_targets (ws : list string) : string :=
  match ws with [] => EmptyString | w :: ws' => w +:+ " " +:+ print_targets ws' end.

Lemma str_app_assoc (a b c : string) : ((a +:+ b) +:+ c = a +:+ (b +:+ c))%string.
Proof.
  induction a as [|x a IH]; [done|]. change (String x ((a +:+ b) +:+ c) = String x (a +:+ (b +:+ c)))%string.
  by rewrite IH.
Qed.

Lemma str_app_nil (a : string) : (a +:+ EmptyString = a)%string.
Proof. induction a as [|x a IH]; [done|]. change (String x (a +:+ EmptyString) = String x a)%string. by rewrite IH. Qed.

Section GlueFacts.
Context {D : Type} `{CDouble D} `{LuaVM D} (strtod_special : string -> option D).

Lemma parse_word m w : forall cur rest tg,
  no_sep w = true ->
  parse_targets_from strtod_special m cur (w +:+ String " "%char rest) tg =
  parse_targets_from strtod_special (s32 (m + 1)) EmptyString rest
    (<[m := atof strtod_special (cur +:+ w +:+ " ")]> tg).
Proof.
  induction w as [|c w IH]; intros cur rest tg Hs; [done|].
  apply andb_true_iff in Hs as [Hc Hw]. apply negb_true_iff in Hc.
  change (String c w +:+ String " "%char rest)%string
    with (String c (w +:+ String " "%char rest)).
  cbn [parse_targets_from]. unfold is_sep in Hc. rewrite Hc, IH by done.
  by rewrite str_app_assoc.
Qed.

(** The targets come back as they were written: a list of numbers, each followed by a
    space, sets target [i] to the [i]-th number and leaves the other ranks alone. *)
Theorem parse_print_targets ws tg i :
  Forall (fun w => no_sep w = true) ws -> Z.of_nat (length ws) < 2 ^ 31 ->
  parse_targets strtod_special (print_targets ws) tg !! Z.of_nat i =
    match ws !! i with
    | Some w => Some (atof strtod_special (w +:+ " "))
    | None => tg !! Z.of_nat i
    end.
Proof.
  intros Hs Hl. unfold parse_targets.
  assert (forall m, 0 <= m -> m + Z.of_nat (length ws) < 2 ^ 31 -> forall tg' j,
    parse_targets_from strtod_special m EmptyString (print_targets ws) tg' !! j =
    if (m <=? j) && (j <? m + Z.of_nat (length ws))
    then (fun w => atof strtod_special (w +:+ " ")) <$> ws !! Z.to_nat (j - m)
    else tg' !! j) as Hgen.
  { clear Hl tg i. induction Hs as [|w ws Hw Hs IH]; intros m Hm Hb tg' j; simpl in Hb.
    - simpl. destruct (Z.leb_spec m j), (Z.ltb_spec j (m + Z.of_nat 0)); simpl; done || lia.
    - cbn [print_targets]. change (" " +:+ print_targets ws)%string
        with (String " "%char (print_targets ws)).
      rewrite parse_word by done. unfold s32. rewrite wrap_s_small by lia.
      rewrite IH by lia. cbn [length]. destruct (decide (j = m)) as [->|N].
      + rewrite (proj2 (Z.leb_gt (m + 1) m)) by lia. simpl.
        rewrite lookup_insert_eq, Z.leb_refl, Z.sub_diag.
        by rewrite (proj2 (Z.ltb_lt m _)) by lia.
      + rewrite lookup_insert_ne by done.
        destruct (Z.leb_spec (m + 1) j), (Z.leb_spec m j); simpl; try lia; [|done].
        replace (j <? m + Z.of_nat (S (length ws))) with (j <? m + 1 + Z.of_nat (length ws)).
        2: { destruct (Z.ltb_spec j (m + 1 + Z.of_nat (length ws))),
               (Z.ltb_spec j (m + Z.of_nat (S (length ws)))); lia. }
        destruct (j <? _); [|done].
        replace (Z.to_nat (j - m)) with (S (Z.to_nat (j - (m + 1)))) by lia. done. }
  rewrite Hgen by lia. rewrite Z.sub_0_r, Nat2Z.id.
  destruct (Z.ltb_spec (Z.of_nat i) (0 + Z.of_nat (length ws))) as [L|G].
  - destruct (lookup_lt_is_Some_2 ws i) as [w ->]; [lia|].
    by destruct (Z.leb_spec 0 (Z.of_nat i)); [|lia].
  - rewrite lookup_ge_None_2 by lia. by rewrite andb_false_r.
Qed.

End GlueFacts.

Lemma parse_print_targets_witness :
  parse_targets (D := Q) (fun _ => None) (print_targets ["0"; "12.5"]%string) ∅ !! Z.of_nat 1 =
  Some (atof (fun _ => None) "12.5 "%string).
Proof.
  exact (parse_print_targets (D := Q) (fun _ => None) ["0"; "12.5"]%string ∅ 1
    ltac:(repeat constructor) ltac:(simpl; lia)).
Defined.
