(* ===== verification/Exports.v ===== *)
(** * Choosing what to export (MDBalancer.cc)

    [find_exports] and [try_rebalance]: the search, below the subtrees this rank is
    authoritative for, of directory fragments whose load adds up to what a target is to
    receive.  [subtree_loads] and [hit_nfiles_dir] walk the same hierarchy.

    The cache below a directory fragment is a finite tree: a fragment holds dentries, a
    dentry links to an inode or to nothing, and an inode that is a directory has fragments.
    The balancer reads the load of a fragment at one fixed time ([rebalance_time]), where
    reading a decay counter again gives the same value; so the load is a field ([di_pop]). *)

From stdpp Require Import base tactics numbers list gmap strings.
From Stdlib Require Import ZArith QArith Lia Ascii.
From S2P Require Import Prelude Double LoadVec Matching LuaGlue.
Open Scope Z_scope.

(** ** The hierarchy *)

Section Tree.
Context {D : Type}.

(** What the balancer reads of a fragment; [di_base], [di_stray], [di_root],
    [di_authority] and [di_path] are those of the inode it belongs to. *)
Record dir_info := mk_dir_info {
  di_id : Z;
  di_auth : bool;
  di_ambiguous : bool;
  di_freezing : bool;
  di_frozen : bool;
  di_rep : bool;
  di_pop : D;
  di_head_items : Z;
  di_base : bool;
  di_stray : bool;
  di_root : bool;
  di_authority : Z;
  di_path : string
}.

Inductive cdir :=
| CDir (i : dir_info) (items : list citem)
with citem :=
| NoInode
| Inode (is_dir is_stray : bool) (frags : list cdir).

Definition info (d : cdir) : dir_info := let 'CDir i _ := d in i.
Definition items (d : cdir) : list citem := let 'CDir _ l := d in l.
Definition cd_id (d : cdir) : Z := di_id (info d).
Definition cd_pop (d : cdir) : D := di_pop (info d).

Definition item_frags (it : citem) : list cdir :=
  match it with Inode true _ frags => frags | _ => [] end.

(** the fragments of the directories linked in [d], in the order of the nested loops *)
Definition subdirs (d : cdir) : list cdir := flat_map item_frags (items d).

Fixpoint height (d : cdir) : nat :=
  let 'CDir _ l := d in
  S (list_max (map (fun it => match it with
    | Inode true _ frags => list_max (map height frags)
    | _ => O
    end) l)).

(** [d] and everything below it *)
Fixpoint below (d : cdir) : list cdir :=
  let 'CDir _ l := d in
  d :: flat_map (fun it => match it with
    | Inode true _ frags => flat_map below frags
    | _ => []
    end) l.

Lemma in_list_max x l : In x l -> (x <= list_max l)%nat.
Proof. induction l as [|y l IH]; simpl; [done|]. intros [->|?%IH]; lia. Qed.

Lemma subdirs_height s d : In s (subdirs d) -> (height s < height d)%nat.
Proof.
  destruct d as [i l]. unfold subdirs. simpl. intros (it & Hit & Hs)%in_flat_map.
  apply (in_map (fun it => match it with
    | Inode true _ frags => list_max (map height frags) | _ => O end)), in_list_max in Hit.
  destruct it as [|[] st fr]; simpl in Hs; [done| |done].
  apply (in_map height), in_list_max in Hs. lia.
Qed.

Lemma below_unfold d : below d = d :: flat_map below (subdirs d).
Proof.
  destruct d as [i l]. unfold subdirs. simpl. f_equal.
  induction l as [|it l IH]; simpl; [done|]. rewrite IH, flat_map_app. f_equal.
  by destruct it as [|[] st fr].
Qed.

Lemma cdir_wf_ind (P : cdir -> Prop) :
  (forall d, (forall s, In s (subdirs d) -> P s) -> P d) -> forall d, P d.
Proof.
  intros Hind d. assert (forall n e, (height e < n)%nat -> P e) as Hn; [|apply (Hn (S (height d))); lia].
  induction n as [|n IH]; intros e He; [lia|]. apply Hind. intros s Hs%subdirs_height.
  apply IH. lia.
Qed.

End Tree.
Arguments dir_info D : clear implicits.
Arguments cdir D : clear implicits.
Arguments citem D : clear implicits.

(** ** find_exports *)

(** The options of [g_conf] the search reads. *)
Record export_conf (D : Type) := mk_export_conf {
  mds_bal_min_start : D;
  mds_bal_need_max : D;
  mds_bal_need_min : D;
  mds_bal_midchunk : D;
  mds_bal_minchunk : D;
  mds_bal_lua : Z;
  mds_bal_howmuch : string;
  log_file : string
}.
Arguments mk_export_conf {D}.
Arguments mds_bal_min_start {D}.
Arguments mds_bal_need_max {D}.
Arguments mds_bal_need_min {D}.
Arguments mds_bal_midchunk {D}.
Arguments mds_bal_minchunk {D}.
Arguments mds_bal_lua {D}.
Arguments mds_bal_howmuch {D}.
Arguments log_file {D}.

Definition use_lua {D} (conf : export_conf D) : bool :=
  (mds_bal_lua conf =? 1) && negb (bool_decide (mds_bal_howmuch conf = EmptyString)).

Section Find.
Context {D : Type} `{CDouble D} `{LuaVM D} (strtod_special : string -> option D).
Context (conf : export_conf D) (ret0 : string).

Abbreviation xstate := (export_state D (cdir D)).

(** [exports.push_back(d); already_exporting.insert(d); have += pop] *)
Definition push (pop : D) (d : cdir D) (st : xstate) : xstate :=
  mk_exports (es_exports st ++ [d]) (es_have st + pop)%dbl ({[cd_id d]} ∪ es_already st).

(** A subdirectory and the search below it. *)
Definition sub_t : Type := cdir D * (D -> xstate -> res xstate).

Inductive scan_result :=
| Lucky (pop : D) (d : cdir D)
| Scanned (bigger_rep bigger_unrep : list sub_t) (smaller : list (D * sub_t)).

(** the loop over the subdirectories *)
Fixpoint scan (need needmin needmax minchunk : D) (already : gset Z) (subs : list sub_t)
    (rep unrep : list sub_t) (smaller : list (D * sub_t)) : scan_result :=
  match subs with
  | [] => Scanned rep unrep smaller
  | s :: subs' =>
      let i := info (fst s) in
      let pop := di_pop i in
      let next := scan need needmin needmax minchunk already subs' in
      if negb (di_auth i) then next rep unrep smaller
      else if bool_decide (di_id i ∈ already) then next rep unrep smaller
      else if di_frozen i then next rep unrep smaller
      else if (pop <? minchunk)%dbl then next rep unrep smaller
      else if (pop >? needmin)%dbl && (pop <? needmax)%dbl then Lucky pop (fst s)
      else if (pop >? need)%dbl then
        if di_rep i then next (rep ++ [s]) unrep smaller
        else next rep (unrep ++ [s]) smaller
      else next rep unrep (mm_insert pop s smaller)
  end.

(** The two loops that take small items, biggest first; the first stops at [midchunk].
    Returns whether enough is taken, what is left and the state. *)
Fixpoint take_smaller (midchunk : option D) (needmin : D) (l : list (D * sub_t)) (st : xstate)
  : bool * list (D * sub_t) * xstate :=
  match l with
  | [] => (false, [], st)
  | (pop, s) :: l' =>
      if match midchunk with Some m => (pop <? m)%dbl | None => false end
      then (false, l, st)
      else
        let st := push pop (fst s) st in
        if (es_have st >? needmin)%dbl then (true, l', st)
        else take_smaller midchunk needmin l' st
  end.

(** drilling down *)
Fixpoint descend (amount needmin : D) (l : list sub_t) (st : xstate) : res (bool * xstate) :=
  match l with
  | [] => Ok (false, st)
  | s :: l' =>
      st ← snd s amount st;
      if (es_have st >? needmin)%dbl then Ok (true, st) else descend amount needmin l' st
  end.

Definition search (subs : list sub_t) (amount : D) (st : xstate) : res xstate :=
  let need := (amount - es_have st)%dbl in
  if (need <? amount * mds_bal_min_start conf)%dbl then Ok st
  else
    let needmax := (need * mds_bal_need_max conf)%dbl in
    let needmin := (need * mds_bal_need_min conf)%dbl in
    let midchunk := (need * mds_bal_midchunk conf)%dbl in
    let minchunk := (need * mds_bal_minchunk conf)%dbl in
    match scan need needmin needmax minchunk (es_already st) subs [] [] [] with
    | Lucky pop d => Ok (push pop d st)
    | Scanned rep unrep smaller =>
        if use_lua conf then
          st ← fragment_selector_luahook strtod_special cd_pop cd_id (log_file conf)
                 (mds_bal_howmuch conf) ret0
                 (map (fun x => (fst x, fst (snd x))) smaller) amount st;
          if (es_have st >? needmin)%dbl then Ok st
          else
            r ← descend amount needmin unrep st;
            let '(enough, st) := (r : bool * xstate) in
            if enough then Ok st
            else r ← descend amount needmin rep st; Ok (snd (r : bool * xstate))
        else
          let '(enough, rest, st) := take_smaller (Some midchunk) needmin (reverse smaller) st in
          if (enough : bool) then Ok st
          else
            r ← descend amount needmin unrep st;
            let '(enough, st) := (r : bool * xstate) in
            if enough then Ok st
            else
              let '(enough, _, st) := take_smaller None needmin rest st in
              if (enough : bool) then Ok st
              else r ← descend amount needmin rep st; Ok (snd (r : bool * xstate))
    end.

Fixpoint find_exports (dir : cdir D) (amount : D) (st : xstate) {struct dir} : res xstate :=
  let 'CDir _ l := dir in
  search (flat_map (fun it => match it with
    | Inode true _ frags => map (fun s => (s, find_exports s)) frags
    | _ => []
    end) l) amount st.

Definition with_search (d : cdir D) : sub_t := (d, find_exports d).

Lemma find_exports_unfold d amount st :
  find_exports d amount st = search (map with_search (subdirs d)) amount st.
Proof.
  destruct d as [i l]. simpl. f_equal. unfold subdirs; simpl.
  induction l as [|it l IH]; simpl; [done|]. rewrite IH, map_app. f_equal.
  by destruct it as [|[] s fr].
Qed.

End Find.

(** ** Soundness of the search *)

Lemma NoDup_chunk {A B} (f : A -> B) (g : A -> list A) l x :
  NoDup (map f (flat_map g l)) -> In x l -> NoDup (map f (g x)).
Proof.
  induction l as [|y l IH]; simpl; [done|]. rewrite map_app, NoDup_app.
  intros (? & _ & ?) [->|?]; auto.
Qed.

Lemma NoDup_chunks_disjoint {A B} (f : A -> B) (g : A -> list A) l x y z :
  NoDup (map f (flat_map g l)) -> In x l -> In y l ->
  In z (map f (g x)) -> In z (map f (g y)) -> x = y.
Proof.
  assert (forall l' w, In w l' -> In z (map f (g w)) -> z ∈ map f (flat_map g l')) as Hin.
  { intros l' w Hw Hz. apply list_elem_of_In. rewrite flat_map_concat_map, concat_map, map_map.
    apply in_concat. exists (map f (g w)). split; [|done]. by apply (in_map (fun v => map f (g v))). }
  induction l as [|v l IH]; simpl; [done|]. rewrite map_app, NoDup_app.
  intros (_ & Hd & Hn) [->|Hx] [->|Hy] Hzx Hzy; auto.
  - destruct (Hd z); [by apply list_elem_of_In|eauto].
  - destruct (Hd z); [by apply list_elem_of_In|eauto].
Qed.

Lemma NoDup_heads {A B} (f : A -> B) (g : A -> list A) l :
  NoDup (map f (flat_map g l)) -> (forall x, In x (g x)) -> NoDup (map f l).
Proof.
  intros Hn Hg. induction l as [|x l IH]; simpl in *; [constructor|].
  rewrite map_app, NoDup_app in Hn. destruct Hn as (_ & Hd & Hn).
  constructor; [|auto]. intros Hx. apply (Hd (f x)).
  - apply list_elem_of_In, in_map, Hg.
  - apply list_elem_of_In, in_map_iff in Hx as (y & E & Hy). rewrite <- E.
    apply list_elem_of_In, in_map, in_flat_map. eauto.
Qed.

Section Sound.
Context {D : Type} `{CDouble D} `{LuaVM D} (strtod_special : string -> option D).
Context (conf : export_conf D) (ret0 : string).
Abbreviation xstate := (export_state D (cdir D)).
Abbreviation sub_t := (sub_t (D := D)).
Abbreviation find_exports := (find_exports strtod_special conf ret0).
Abbreviation with_search := (with_search strtod_special conf ret0).
Implicit Types (d x : cdir D) (st : xstate).

(** [st'] extends [st] by distinct new exports that satisfy [P]; the books are kept. *)
Definition grows (P : cdir D -> Prop) (st st' : xstate) : Prop :=
  exists new,
    es_exports st' = es_exports st ++ new /\
    es_have st' = fold_left d_add (map cd_pop new) (es_have st) /\
    es_already st' = list_to_set (map cd_id new) ∪ es_already st /\
    Forall P new /\ NoDup (map cd_id new) /\
    Forall (fun x => cd_id x ∉ es_already st) new.

Lemma grows_refl P st : grows P st st.
Proof.
  exists []. simpl. rewrite app_nil_r. split_and!; try done; [set_solver|constructor].
Qed.

Lemma grows_mono (P Q : cdir D -> Prop) st st' :
  (forall x, P x -> Q x) -> grows P st st' -> grows Q st st'.
Proof.
  intros HPQ (new & ? & ? & ? & HP & ?). exists new. split_and!; try done; [|naive_solver..].
  eapply Forall_impl; [exact HP|done].
Qed.

Lemma grows_trans P st1 st2 st3 : grows P st1 st2 -> grows P st2 st3 -> grows P st1 st3.
Proof.
  intros (n1 & E1 & V1 & A1 & P1 & N1 & F1) (n2 & E2 & V2 & A2 & P2 & N2 & F2).
  exists (n1 ++ n2). rewrite !map_app. split_and!.
  - by rewrite E2, E1, app_assoc.
  - by rewrite V2, V1, fold_left_app.
  - rewrite A2, A1, list_to_set_app_L. set_solver.
  - by apply Forall_app.
  - apply NoDup_app. split_and!; [done| |done]. intros z Hz Hz2.
    apply list_elem_of_In, in_map_iff in Hz2 as (x & <- & Hx%list_elem_of_In).
    pose proof (Forall_elem _ _ _ F2 Hx) as Hx2. apply Hx2. rewrite A1.
    apply elem_of_union_l, elem_of_list_to_set, Hz.
  - apply Forall_app. split; [done|]. eapply Forall_impl; [exact F2|].
    simpl. intros x Hx. rewrite A1 in Hx. set_solver.
Qed.

Lemma grows_push (P : cdir D -> Prop) d st :
  P d -> cd_id d ∉ es_already st -> grows P st (push (cd_pop d) d st).
Proof.
  intros HP Hd. exists [d]. simpl. split_and!; try done; [set_solver|..].
  - by repeat constructor.
  - apply NoDup_singleton.
  - by repeat constructor.
Qed.

Definition exportable (x : cdir D) : Prop :=
  di_auth (info x) = true /\ di_frozen (info x) = false.

(** The exports found below [d]: authoritative, not frozen, strictly below. *)
Definition found_below (d x : cdir D) : Prop :=
  In x (flat_map below (subdirs d)) /\ exportable x.

Definition sid (s : sub_t) : Z := cd_id (fst s).

Record picked (S0 : list sub_t) (already : gset Z) (s : sub_t) : Prop := {
  pk_in : In s S0;
  pk_ok : exportable (fst s);
  pk_new : sid s ∉ already
}.

Lemma mm_insert_snd_perm pop s (l : list (D * sub_t)) :
  map sid (map snd (mm_insert pop s l)) ≡ₚ sid s :: map sid (map snd l).
Proof. by rewrite mm_insert_perm. Qed.

(** What the scan returns. *)
Lemma scan_spec S0 need nmin nmax mchunk al : forall subs rep unrep smaller,
  (forall s, In s subs -> In s S0) ->
  NoDup (map sid (map snd smaller) ++ map sid subs) ->
  Forall (fun s => picked S0 al s /\ d_lt need (cd_pop (fst s)) = true) (rep ++ unrep) ->
  Forall (fun p => picked S0 al (snd p) /\ fst p = cd_pop (fst (snd p)) /\
                   d_lt need (fst p) = false) smaller ->
  match scan need nmin nmax mchunk al subs rep unrep smaller with
  | Lucky pop d => exists s, picked S0 al s /\ d = fst s /\ pop = cd_pop d
  | Scanned rep' unrep' smaller' =>
      NoDup (map sid (map snd smaller')) /\
      Forall (fun s => picked S0 al s /\ d_lt need (cd_pop (fst s)) = true) (rep' ++ unrep') /\
      Forall (fun p => picked S0 al (snd p) /\ fst p = cd_pop (fst (snd p)) /\
                       d_lt need (fst p) = false) smaller'
  end.
Proof.
  induction subs as [|s subs IH]; intros rep unrep smaller Hin Hnd Hbig Hsm; simpl.
  { rewrite app_nil_r in Hnd. done. }
  assert (NoDup (map sid (map snd smaller) ++ map sid subs)) as Hnd'.
  { simpl in Hnd. rewrite <- Permutation_middle in Hnd.
    by apply NoDup_cons in Hnd as [_ ?]. }
  assert (forall s', In s' subs -> In s' S0) as Hin' by (intros; apply Hin; by right).
  destruct (di_auth (info (fst s))) eqn:Ea; simpl; [|by apply IH].
  case_bool_decide as Eal; [by apply IH|].
  destruct (di_frozen (info (fst s))) eqn:Ef; [by apply IH|].
  destruct (d_lt _ mchunk); [by apply IH|].
  assert (picked S0 al s) as Hp.
  { split; [apply Hin; by left|by split|exact Eal]. }
  destruct (_ && _); [by exists s|].
  destruct (d_lt need (di_pop (info (fst s)))) eqn:En; [destruct (di_rep _)|].
  - apply IH; try done. rewrite <- app_assoc. apply Forall_app in Hbig as [? ?].
    apply Forall_app. split; [done|]. by constructor.
  - apply IH; try done. rewrite app_assoc. apply Forall_app. split; [done|]. by apply Forall_singleton.
  - apply IH; try done.
    + simpl in Hnd. by rewrite mm_insert_snd_perm; simpl; rewrite Permutation_middle.
    + rewrite mm_insert_perm. by constructor.
Qed.

(** What taking small items does. *)
Lemma take_smaller_spec (P : cdir D -> Prop) mid nmin : forall l st,
  Forall (fun p => P (fst (snd p)) /\ fst p = cd_pop (fst (snd p)) /\
                   sid (snd p) ∉ es_already st) l ->
  NoDup (map sid (map snd l)) ->
  let '(_, rest, st') := take_smaller mid nmin l st in
  grows P st st' /\ (exists pre, l = pre ++ rest) /\
  Forall (fun p => sid (snd p) ∉ es_already st') rest.
Proof.
  induction l as [|[pop s] l IH]; intros st Hall Hnd; simpl.
  { split_and!; [apply grows_refl|by exists []|done]. }
  apply Forall_cons in Hall as [(HP & Hpop & Hnew) Hall]. simpl in HP, Hpop, Hnew.
  destruct (match mid with Some m => _ | None => _ end).
  { split_and!; [apply grows_refl|by exists []|].
    constructor; [done|]. eapply Forall_impl; [exact Hall|]. simpl. naive_solver. }
  simpl in Hnd. apply NoDup_cons in Hnd as [Hs Hnd]. subst pop.
  pose proof (grows_push P (fst s) st HP Hnew) as Hg.
  assert (Forall (fun p => sid (snd p) ∉ es_already (push (cd_pop (fst s)) (fst s) st)) l) as Hnot.
  { apply Forall_forall. intros p Hp. simpl. apply not_elem_of_union. split.
    - apply not_elem_of_singleton. intros E. apply Hs. change (cd_id (fst s)) with (sid s) in E.
      rewrite <- E. apply list_elem_of_In, in_map, in_map. by apply list_elem_of_In.
    - apply (Forall_elem _ _ _ Hall) in Hp. naive_solver. }
  destruct (d_lt nmin _); [by split_and!; [|exists [(cd_pop (fst s), s)]|]|].
  specialize (IH (push (cd_pop (fst s)) (fst s) st)).
  destruct (take_smaller mid nmin l _) as [[b rest] st'].
  destruct IH as (Hg' & [pre ->] & Hr); [|done|].
  { apply Forall_forall. intros p Hp. pose proof (Forall_elem _ _ _ Hall Hp).
    pose proof (Forall_elem _ _ _ Hnot Hp). naive_solver. }
  split_and!; [by eapply grows_trans|by exists ((cd_pop (fst s), s) :: pre)|done].
Qed.

(** What drilling down does, given what each search does. *)
Lemma descend_spec amount nmin : forall l st,
  Forall (fun s => forall st, exists st', snd s amount st = Ok st' /\
                                grows (found_below (fst s)) st st') l ->
  exists b st', descend amount nmin l st = Ok (b, st') /\
    grows (fun x => exists s, In s l /\ found_below (fst s) x) st st'.
Proof.
  induction l as [|s l IH]; intros st Hall; simpl.
  { eexists _, _. split; [done|apply grows_refl]. }
  apply Forall_cons in Hall as [Hs Hall]. destruct (Hs st) as (st1 & E1 & G1).
  rewrite E1. simpl. apply (grows_mono _ (fun x => exists t, In t (s :: l) /\ found_below (fst t) x)) in G1.
  2: { intros x Hx. exists s. split; [by left|done]. }
  destruct (d_lt nmin _); [by eexists _, _|].
  destruct (IH st1 Hall) as (b & st2 & E2 & G2). exists b, st2. split; [done|].
  eapply grows_trans; [exact G1|]. eapply grows_mono; [|exact G2].
  intros x (t & ? & ?). exists t. split; [by right|done].
Qed.

Lemma subdirs_below d s x : In s (subdirs d) -> In x (below s) -> In x (flat_map below (subdirs d)).
Proof. intros. apply in_flat_map. eauto. Qed.

Lemma found_below_sub d s x : In s (subdirs d) -> found_below s x -> found_below d x.
Proof.
  intros Hs [Hx ?]. split; [|done]. eapply subdirs_below; [exact Hs|].
  rewrite below_unfold. by right.
Qed.


Lemma below_self d : In d (below d).
Proof. rewrite below_unfold. by left. Qed.

Definition search_ok (d : cdir D) : Prop :=
  forall amount st, exists st', find_exports d amount st = Ok st' /\ grows (found_below d) st st'.

Section Step.
Context (d : cdir D) (Hsub : forall s, In s (subdirs d) -> search_ok s).
Context (Hnd : NoDup (map cd_id (flat_map below (subdirs d)))).
Let S0 := map with_search (subdirs d).

Lemma picked_sub al s :
  picked S0 al s -> In (fst s) (subdirs d) /\ s = with_search (fst s) /\ found_below d (fst s).
Proof.
  intros [Hs Hok _]. apply in_map_iff in Hs as (x & <- & Hx). simpl.
  split_and!; [done|done|]. split; [|done]. eapply subdirs_below; [done|apply below_self].
Qed.

Lemma descend_picked al need amount nmin l st :
  Forall (fun s => picked S0 al s /\ d_lt need (cd_pop (fst s)) = true) l ->
  exists b st', descend amount nmin l st = Ok (b, st') /\
    grows (fun x => exists s, In s (subdirs d) /\ d_lt need (cd_pop s) = true /\ found_below s x) st st'.
Proof.
  intros Hl. destruct (descend_spec amount nmin l st) as (b & st' & E & G).
  { eapply Forall_impl; [exact Hl|]. intros s [Hp _].
    destruct (picked_sub al s Hp) as (Hs & -> & _). intros st1. by apply Hsub. }
  exists b, st'. split; [done|]. eapply grows_mono; [|exact G].
  intros x (s & Hs & Hx). apply list_elem_of_In in Hs.
  destruct (Forall_elem _ _ _ Hl Hs) as [Hp Hlt]. exists (fst s).
  by destruct (picked_sub al s Hp) as (? & _ & _).
Qed.

Lemma found_in_sub st st' need :
  grows (fun x => exists s, In s (subdirs d) /\ d_lt need (cd_pop s) = true /\ found_below s x) st st' ->
  grows (found_below d) st st'.
Proof. apply grows_mono. intros x (s & ? & _ & ?). by eapply found_below_sub. Qed.

(** A small item is not among what was found below a big one. *)
Lemma small_not_found al need st st' p :
  picked S0 al (snd p) -> fst p = cd_pop (fst (snd p)) -> d_lt need (fst p) = false ->
  sid (snd p) ∉ es_already st ->
  grows (fun x => exists s, In s (subdirs d) /\ d_lt need (cd_pop s) = true /\ found_below s x) st st' ->
  sid (snd p) ∉ es_already st'.
Proof.
  intros Hp Hpop Hlt Hnew (new & _ & _ & Ea & Hall & _). rewrite Ea.
  apply not_elem_of_union. split; [|done]. rewrite elem_of_list_to_set. intros Hin.
  apply list_elem_of_In, in_map_iff in Hin as (x & Ex & Hx%list_elem_of_In).
  destruct (Forall_elem _ _ _ Hall Hx) as (b & Hb & Hbig & Hxb & _).
  destruct (picked_sub al _ Hp) as (Hs & _ & _).
  assert (b = fst (snd p)) as ->.
  { eapply (NoDup_chunks_disjoint cd_id below (subdirs d) _ _ (sid (snd p))); try done.
    - rewrite <- Ex, below_unfold. apply in_map. by right.
    - apply (in_map cd_id), below_self. }
  congruence.
Qed.

Lemma search_sound amount st :
  use_lua conf = false ->
  exists st', search strtod_special conf ret0 S0 amount st = Ok st' /\ grows (found_below d) st st'.
Proof.
  intros Hlua. unfold search. destruct (d_lt _ (amount * _)%dbl).
  { eexists. split; [done|apply grows_refl]. }
  set (need := (amount - es_have st)%dbl). set (al := es_already st).
  set (nmin := (need * mds_bal_need_min conf)%dbl).
  pose proof (scan_spec S0 need nmin (need * mds_bal_need_max conf)%dbl
    (need * mds_bal_minchunk conf)%dbl al S0 [] [] []) as Hscan.
  destruct (scan _ _ _ _ _ _ _ _ _) as [pop x|rep unrep smaller].
  { destruct Hscan as (s & Hp & -> & ->); try done.
    - simpl. unfold S0. rewrite map_map. eapply NoDup_heads; [exact Hnd|apply below_self].
    - destruct (picked_sub al s Hp) as (_ & _ & Hf). eexists. split; [done|].
      apply grows_push; [done|apply Hp]. }
  destruct Hscan as (Hn & Hbig & Hsm); try done.
  { simpl. unfold S0. rewrite map_map. eapply NoDup_heads; [exact Hnd|apply below_self]. }
  rewrite Hlua. apply Forall_app in Hbig as [Hrep Hunrep].
  pose proof (take_smaller_spec (found_below d) (Some (need * mds_bal_midchunk conf)%dbl) nmin
    (reverse smaller) st) as T1.
  destruct (take_smaller _ _ (reverse smaller) st) as [[b1 rest] st1].
  destruct T1 as (G1 & [pre Epre] & R1).
  { rewrite reverse_Permutation. eapply Forall_impl; [exact Hsm|]. intros p (Hp & ? & _).
    destruct (picked_sub al _ Hp) as (_ & _ & ?). split_and!; [done|done|apply Hp]. }
  { by rewrite reverse_Permutation. }
  destruct b1; [by eexists|].
  destruct (descend_picked al need amount nmin unrep st1 Hunrep) as (b2 & st2 & E2 & G2).
  rewrite E2. simpl. pose proof (found_in_sub _ _ _ G2) as G2'.
  destruct b2; [eexists; split; [done|by eapply grows_trans]|].
  assert (forall p, p ∈ rest -> p ∈ smaller) as Hrest.
  { intros p Hp. apply elem_of_reverse. rewrite Epre. apply elem_of_app. by right. }
  pose proof (take_smaller_spec (found_below d) None nmin rest st2) as T2.
  destruct (take_smaller None nmin rest st2) as [[b3 rest'] st3].
  destruct T2 as (G3 & _ & _).
  { apply Forall_forall. intros p Hp. destruct (Forall_elem _ _ _ Hsm (Hrest p Hp)) as (Hpk & Ep & Hlt).
    destruct (picked_sub al _ Hpk) as (_ & _ & ?). split_and!; [done|done|].
    eapply small_not_found; [done|done|done| |done]. exact (Forall_elem _ _ _ R1 Hp). }
  { rewrite <- (reverse_Permutation smaller), Epre, !map_app in Hn. by apply NoDup_app in Hn as (_ & _ & ?). }
  assert (grows (found_below d) st st3) as G by (eapply grows_trans; [done|by eapply grows_trans]).
  destruct b3; [by eexists|].
  destruct (descend_picked al need amount nmin rep st3 Hrep) as (b4 & st4 & E4 & G4).
  rewrite E4. simpl. eexists. split; [done|]. eapply grows_trans; [exact G|].
  by eapply found_in_sub.
Qed.
End Step.

(** The search always returns; everything it adds is an authoritative, unfrozen fragment
    strictly below [d], new to [already_exporting], without repetition, and [have] and
    [already_exporting] are kept up to date. *)
Lemma find_exports_ok d :
  use_lua conf = false -> NoDup (map cd_id (below d)) -> search_ok d.
Proof.
  intros Hlua. induction d as [d IH] using cdir_wf_ind. intros Hn amount st.
  rewrite below_unfold in Hn. simpl in Hn. apply NoDup_cons in Hn as [_ Hn].
  rewrite find_exports_unfold. apply search_sound; [|done|done].
  intros s Hs. apply IH; [done|]. by eapply (NoDup_chunk cd_id below).
Qed.

(** *** With the Lua fragment selector

    The script may name a fragment twice, or one that does not exist. *)

(** As [grows], but with repetitions. *)
Definition adds (P : cdir D -> Prop) (st st' : xstate) : Prop :=
  exists new,
    es_exports st' = es_exports st ++ new /\
    es_have st' = fold_left d_add (map cd_pop new) (es_have st) /\
    es_already st' = list_to_set (map cd_id new) ∪ es_already st /\
    Forall (fun x => P x /\ cd_id x ∉ es_already st) new.

Lemma adds_refl P st : adds P st st.
Proof. exists []. simpl. rewrite app_nil_r. split_and!; try done. set_solver. Qed.

Lemma grows_adds P st st' : grows P st st' -> adds P st st'.
Proof.
  intros (new & ? & ? & ? & HP & _ & HA). exists new. split_and!; try done.
  by apply Forall_and.
Qed.

Lemma adds_mono (P Q : cdir D -> Prop) st st' :
  (forall x, P x -> Q x) -> adds P st st' -> adds Q st st'.
Proof.
  intros HPQ (new & ? & ? & ? & HP). exists new. split_and!; try done.
  eapply Forall_impl; [exact HP|]. naive_solver.
Qed.

Lemma adds_trans P st1 st2 st3 : adds P st1 st2 -> adds P st2 st3 -> adds P st1 st3.
Proof.
  intros (n1 & E1 & V1 & A1 & P1) (n2 & E2 & V2 & A2 & P2). exists (n1 ++ n2).
  rewrite !map_app. split_and!.
  - by rewrite E2, E1, app_assoc.
  - by rewrite V2, V1, fold_left_app.
  - rewrite A2, A1, list_to_set_app_L. set_solver.
  - apply Forall_app. split; [done|]. eapply Forall_impl; [exact P2|].
    simpl. intros x [? Hx]. rewrite A1 in Hx. set_solver.
Qed.

(** What the selector takes is among what it was offered. *)
Lemma select_tokens_adds frags : forall tokens st st',
  fold_left (select_token strtod_special cd_pop cd_id frags) tokens (Ok st) = Ok st' ->
  exists new, es_exports st' = es_exports st ++ new /\
    es_have st' = fold_left d_add (map cd_pop new) (es_have st) /\
    es_already st' = list_to_set (map cd_id new) ∪ es_already st /\
    Forall (fun x => In x frags) new.
Proof.
  assert (forall tokens, fold_left (select_token strtod_special cd_pop cd_id frags) tokens Abort
    = Abort) as Hab by (induction tokens; done).
  induction tokens as [|t tokens IH]; intros st st' E; cbn [fold_left] in E.
  { injection E as <-. exists []. simpl. rewrite app_nil_r. split_and!; try done. set_solver. }
  destruct (select_token strtod_special cd_pop cd_id frags (Ok st) t) as [st1|] eqn:E1;
    [|by rewrite Hab in E].
  apply IH in E as (new & -> & -> & -> & Hn). unfold select_token in E1. simpl in E1.
  destruct (strlen t <? LINE_MAX); [|done]. simpl in E1.
  destruct (d_trunc _) as [i|]; [|done]. destruct (_ && _); [|done]. simpl in E1.
  destruct (i <? 0); [done|]. destruct (frags !! Z.to_nat i) as [f|] eqn:Ef; [|done].
  injection E1 as <-. exists (f :: new). simpl. rewrite <- app_assoc. split_and!; try done.
  - set_solver.
  - constructor; [|done]. apply list_elem_of_In. by eapply list_elem_of_lookup_2.
Qed.

Lemma luahook_adds (P : cdir D -> Prop) smaller amount st st' :
  Forall (fun p => P (snd p) /\ cd_id (snd p) ∉ es_already st) smaller ->
  fragment_selector_luahook strtod_special cd_pop cd_id (log_file conf) (mds_bal_howmuch conf)
    ret0 smaller amount st = Ok st' -> adds P st st'.
Proof.
  intros Hs. unfold fragment_selector_luahook.
  destruct smaller as [|q smaller]; [intros [= <-]; apply adds_refl|].
  set (l := q :: smaller) in *. intros E. apply bind_ok in E as (ret & _ & E).
  case_bool_decide; [injection E as <-; apply adds_refl|].
  apply select_tokens_adds in E as (new & ? & ? & ? & Hn). exists new. split_and!; try done.
  eapply Forall_impl; [exact Hn|]. simpl. intros x Hx.
  apply in_map_iff in Hx as (p & <- & Hp%list_elem_of_In). rewrite elem_of_reverse in Hp.
  exact (Forall_elem _ _ _ Hs Hp).
Qed.

Lemma descend_adds (P : cdir D -> Prop) amount nmin : forall l st b st',
  Forall (fun s => forall st st', snd s amount st = Ok st' -> adds P st st') l ->
  descend amount nmin l st = Ok (b, st') -> adds P st st'.
Proof.
  induction l as [|s l IH]; intros st b st' Hall E; simpl in E.
  { injection E as <- <-. apply adds_refl. }
  apply Forall_cons in Hall as [Hs Hall]. apply bind_ok in E as (st1 & E1 & E).
  apply Hs in E1. destruct (d_lt nmin _); [by injection E as <- <-|].
  eapply adds_trans; [exact E1|by eapply IH].
Qed.

(** What a finished search with the selector has added, given what those below add. *)
Lemma search_adds d amount st st' :
  (forall s, In s (subdirs d) -> forall st st', find_exports s amount st = Ok st' ->
     adds (found_below s) st st') ->
  NoDup (map cd_id (flat_map below (subdirs d))) -> use_lua conf = true ->
  search strtod_special conf ret0 (map with_search (subdirs d)) amount st = Ok st' ->
  adds (found_below d) st st'.
Proof.
  intros Hsub Hnd Hlua. unfold search. destruct (d_lt _ (amount * _)%dbl).
  { intros [= <-]. apply adds_refl. }
  set (S0 := map with_search (subdirs d)). set (need := (amount - es_have st)%dbl).
  pose proof (scan_spec S0 need (need * mds_bal_need_min conf)%dbl
    (need * mds_bal_need_max conf)%dbl (need * mds_bal_minchunk conf)%dbl (es_already st)
    S0 [] [] []) as Hscan.
  assert (NoDup (map sid S0)) as Hids.
  { unfold S0. rewrite map_map. eapply NoDup_heads; [exact Hnd|apply below_self]. }
  destruct (scan _ _ _ _ _ _ _ _ _) as [pop x|rep unrep smaller].
  { destruct Hscan as (s & Hp & -> & ->); try done. intros [= <-].
    destruct (picked_sub d (es_already st) s Hp) as (_ & _ & Hf).
    apply grows_adds, grows_push; [done|apply Hp]. }
  destruct Hscan as (Hn & Hbig & Hsm); try done. rewrite Hlua. intros E.
  apply Forall_app in Hbig as [Hrep Hunrep]. apply bind_ok in E as (st1 & E1 & E).
  assert (forall l, Forall (fun s => picked S0 (es_already st) s /\ d_lt need (cd_pop (fst s)) = true) l ->
    Forall (fun s => forall st st', snd s amount st = Ok st' -> adds (found_below d) st st') l) as Hl.
  { intros l Hl. eapply Forall_impl; [exact Hl|]. intros s [Hp _] st2 st2' E2.
    destruct (picked_sub d (es_already st) s Hp) as (Hs & Es & _). rewrite Es in E2.
    eapply adds_mono; [|exact (Hsub _ Hs _ _ E2)]. intros x. by apply found_below_sub. }
  apply (luahook_adds (found_below d)) in E1.
  2: { apply Forall_fmap. eapply Forall_impl; [exact Hsm|]. intros p (Hp & _ & _).
       destruct (picked_sub d (es_already st) _ Hp) as (_ & _ & ?). split; [done|apply Hp]. }
  destruct (d_lt _ (es_have st1)); [by injection E as <-|].
  apply bind_ok in E as ([b2 st2] & E2 & E). apply (descend_adds (found_below d)) in E2; [|by apply Hl].
  destruct b2; [injection E as <-; by eapply adds_trans|].
  apply bind_ok in E as ([b3 st3] & E3 & [= <-]). apply (descend_adds (found_below d)) in E3; [|by apply Hl].
  eapply adds_trans; [exact E1|]. by eapply adds_trans.
Qed.

Lemma find_exports_adds d :
  use_lua conf = true -> NoDup (map cd_id (below d)) -> forall amount st st',
  find_exports d amount st = Ok st' -> adds (found_below d) st st'.
Proof.
  intros Hlua. induction d as [d IH] using cdir_wf_ind. intros Hn amount st st'.
  rewrite below_unfold in Hn. simpl in Hn. apply NoDup_cons in Hn as [_ Hn].
  rewrite find_exports_unfold. apply search_adds; [|done|done].
  intros s Hs. apply IH; [done|]. by eapply (NoDup_chunk cd_id below).
Qed.

(** C34: in a hierarchy of distinct fragments, [find_exports] appends to the exports fragments
    that are authoritative, not frozen, strictly below the directory searched and not exported
    before the search, adds exactly their loads to [have] and records all of them in
    [already_exporting].  Without the Lua selector it always returns and lists each of them
    once; with it (the script may name a fragment twice or one that does not exist) the rest
    holds whenever it returns. *)
Theorem find_exports_sound d amount st :
  NoDup (map cd_id (below d)) ->
  match find_exports d amount st with
  | Ok st' => exists new,
      es_exports st' = es_exports st ++ new /\
      es_have st' = fold_left d_add (map cd_pop new) (es_have st) /\
      es_already st' = list_to_set (map cd_id new) ∪ es_already st /\
      Forall (fun x => In x (flat_map below (subdirs d)) /\ di_auth (info x) = true /\
                       di_frozen (info x) = false /\ cd_id x ∉ es_already st) new /\
      (use_lua conf = false -> NoDup (map cd_id new))
  | Abort => use_lua conf = true
  end.
Proof.
  intros Hn. destruct (use_lua conf) eqn:Hlua.
  - destruct (find_exports d amount st) as [st'|] eqn:E; [|done].
    destruct (find_exports_adds d Hlua Hn _ _ _ E) as (new & ? & ? & ? & HP).
    exists new. split_and!; try done. eapply Forall_impl; [exact HP|]. by intros x [[? []] ?].
  - destruct (find_exports_ok d Hlua Hn amount st) as (st' & -> & new & ? & ? & ? & HP & ? & HA).
    exists new. split_and!; try done. apply Forall_forall. intros x Hx.
    destruct (Forall_elem _ _ _ HP Hx) as (? & ? & ?). pose proof (Forall_elem _ _ _ HA Hx). done.
Qed.

End Sound.

(** ** try_rebalance *)

Inductive bal_effect :=
| ExportDirNicely (dir : Z) (dest : Z)
| SendLoadTargets (targets : gset Z)
| ExportEmptyImport (dir : Z).

Record rebalance_conf (D : Type) := mk_rebalance_conf {
  mds_thrash_exports : bool;
  mds_bal_idle_threshold : D;
  mds_bal_minoffload : Z;
  mds_bal_target_removal_min : Z;
  mds_bal_target_removal_max : Z
}.
Arguments mk_rebalance_conf {D}.
Arguments mds_thrash_exports {D}.
Arguments mds_bal_idle_threshold {D}.
Arguments mds_bal_minoffload {D}.
Arguments mds_bal_target_removal_min {D}.
Arguments mds_bal_target_removal_max {D}.

Definition starts_with_tilde (s : string) : bool :=
  match s with String "~"%char _ => true | _ => false end.

Section Rebalance.
Context {D : Type} `{CDouble D} `{LuaVM D} (strtod_special : string -> option D).
Context (conf : export_conf D) (rconf : rebalance_conf D) (ret0 : string) (whoami : Z).
Abbreviation xstate := (export_state D (cdir D)).

Definition min_offload : D := d_of_Z (mds_bal_minoffload rconf).

(** lines 1063-1085.  [import_pop_map] is written but never read (its only reader is
    under [if (false)]); [import_from_map] is a multimap. *)
Definition note_import (acc : list (Z * cdir D) * list bal_effect) (im : cdir D)
  : list (Z * cdir D) * list bal_effect :=
  let '(from_map, es) := acc in
  let i := info im in
  if di_stray i then acc
  else
    let pop := di_pop i in
    if (d_zero <? mds_bal_idle_threshold rconf)%dbl &&
       (pop <? mds_bal_idle_threshold rconf)%dbl &&
       negb (di_root i) && negb (di_authority i =? whoami)
    then (from_map, es ++ [ExportDirNicely (di_id i) (di_authority i)])
    else (mm_insert (di_authority i) im from_map, es).

(** lines 1113-1142: sending imports back to where they came from *)
Fixpoint reexport (target : Z) (amount have : D) (l : list (Z * cdir D))
  : res (list (Z * cdir D) * D * list bal_effect) :=
  match l with
  | [] => Ok ([], have, [])
  | (from, dir) :: l' =>
      let keep (r : list (Z * cdir D) * D * list bal_effect) :=
        let '(l, have, es) := r in ((from, dir) :: l, have, es) in
      if negb (from =? target) then r ← reexport target amount have l'; Ok (keep r)
      else
        let i := info dir in
        if di_base i || di_stray i then r ← reexport target amount have l'; Ok (keep r)
        else if di_freezing i || di_frozen i then r ← reexport target amount have l'; Ok (keep r)
        else
          let pop := di_pop i in
          check (di_authority i =? target) ;;
          if (pop <=? amount - have)%dbl then
            let have := (have + pop)%dbl in
            let e := ExportDirNicely (di_id i) target in
            if (amount - have <? min_offload)%dbl then Ok (l', have, [e])
            else
              r ← reexport target amount have l';
              let '(l, have, es) := (r : list (Z * cdir D) * D * list bal_effect) in
              Ok (l, have, e :: es)
          else if (amount - have <? min_offload)%dbl then Ok (l, have, [])
          else r ← reexport target amount have l'; Ok (keep r)
  end.

(** lines 1181-1203: the subtrees that fit as a whole *)
Definition note_smaller (amount have : D) (already : gset Z)
    (smaller : list (D * cdir D)) (subdir : cdir D) : list (D * cdir D) :=
  let i := info subdir in
  if starts_with_tilde (di_path i) then smaller
  else if di_stray i then smaller
  else if negb (di_auth i) then smaller
  else if bool_decide (di_id i ∈ already) then smaller
  else if di_frozen i then smaller
  else if (di_pop i <? amount - have)%dbl then mm_insert (di_pop i) subdir smaller
  else smaller.

(** lines 1208-1215: the default policy, biggest first *)
Fixpoint take_whole (amount : D) (l : list (D * cdir D)) (st : xstate) : xstate :=
  match l with
  | [] => st
  | (pop, d) :: l' =>
      let st := mk_exports (es_exports st ++ [d]) (es_have st + pop)%dbl (es_already st) in
      if (es_have st >? amount - min_offload)%dbl then st else take_whole amount l' st
  end.

(** lines 1221-1230 *)
Fixpoint drill_down (amount : D) (candidates : list (cdir D)) (st : xstate) : res xstate :=
  match candidates with
  | [] => Ok st
  | pot :: candidates' =>
      if bool_decide (cd_id pot ∈ es_already st) then drill_down amount candidates' st
      else
        st ← (if existsb (fun d => cd_id d =? cd_id pot) (es_exports st) then Ok st
              else find_exports strtod_special conf ret0 pot amount st);
        if (es_have st >? amount - min_offload)%dbl then Ok st
        else drill_down amount candidates' st
  end.

Record reb_state := mk_reb {
  rb_from : list (Z * cdir D);
  rb_already : gset Z;
  rb_effects : list bal_effect
}.

(** lines 1092-1244, one target; [candidates] is the set of fully authoritative subtrees
    when the balancer turns to it *)
Definition export_to (candidates : list (cdir D)) (target : Z) (amount : D) (s : reb_state)
  : res reb_state :=
  if (amount <? min_offload)%dbl then Ok s
  else
    r ← reexport target amount d_zero (rb_from s);
    let '(from_map, have, es) := (r : list (Z * cdir D) * D * list bal_effect) in
    let s := mk_reb from_map (rb_already s) (rb_effects s ++ es) in
    if (amount - have <? min_offload)%dbl then Ok s
    else
      let smaller := fold_left (note_smaller amount have (rb_already s)) candidates [] in
      let st := mk_exports [] have (rb_already s) in
      st ← (if use_lua conf
            then fragment_selector_luahook strtod_special cd_pop cd_id (log_file conf)
                   (mds_bal_howmuch conf) ret0 smaller amount st
            else Ok (take_whole amount (reverse smaller) st));
      st ← (if (es_have st <? amount - min_offload)%dbl
            then drill_down amount candidates st else Ok st);
      Ok (mk_reb (rb_from s) (es_already st)
            (rb_effects s ++ map (fun d => ExportDirNicely (cd_id d) target) (es_exports st))).

Fixpoint export_all (view : Z -> list (cdir D)) (targets : list (Z * D)) (s : reb_state)
  : res reb_state :=
  match targets with
  | [] => Ok s
  | (target, amount) :: targets' =>
      s ← export_to (view target) target amount s; export_all view targets' s
  end.

(** [fullauth] is [get_fullauth_subtrees] at the start, [view t] when target [t] is served;
    the result is the new [old_prev_targets] and the effects. *)
Definition try_rebalance (map_targets : gset Z) (my_targets : gmap Z D) (old : gmap Z Z)
    (fullauth : list (cdir D)) (view : Z -> list (cdir D)) : res (gmap Z Z * list bal_effect) :=
  let '(ok, old, sent) := check_targets (mds_bal_target_removal_min rconf)
    (mds_bal_target_removal_max rconf) map_targets my_targets old in
  let es := match sent with Some want => [SendLoadTargets want] | None => [] end in
  if negb ok then Ok (old, es)
  else if mds_thrash_exports rconf then Ok (old, es)
  else
    let '(from_map, es1) := fold_left note_import fullauth ([], []) in
    s ← export_all view (ordered my_targets) (mk_reb from_map ∅ (es ++ es1));
    Ok (old, rb_effects s).

(** [export_empties] *)
Definition export_empties (subtrees : list (cdir D)) : list bal_effect :=
  omap (fun d =>
    let i := info d in
    if negb (di_auth i) || di_ambiguous i || di_freezing i || di_frozen i then None
    else if negb (di_base i) && negb (di_stray i) && (di_head_items i =? 0)
    then Some (ExportEmptyImport (di_id i)) else None) subtrees.

End Rebalance.
Arguments reb_state D : clear implicits.

Section RebalanceSound.
Context {D : Type} `{CDouble D} `{LuaVM D} (strtod_special : string -> option D).
Context (conf : export_conf D) (rconf : rebalance_conf D) (ret0 : string) (whoami : Z).
Context (Hlua : use_lua conf = false).
Context (fullauth : list (cdir D)) (view : Z -> list (cdir D)).
Context (Htree : forall t c, In c (view t) -> NoDup (map cd_id (below c))).

(** An idle import on its way back to the rank it came from. *)
Definition sent_idle (t : Z) (x : cdir D) : Prop :=
  In x fullauth /\ di_stray (info x) = false /\ di_root (info x) = false /\
  t = di_authority (info x) /\ t <> whoami /\
  d_lt (cd_pop x) (mds_bal_idle_threshold rconf) = true.

(** An import returned to a target it came from. *)
Definition sent_back (t : Z) (x : cdir D) : Prop :=
  In x fullauth /\ t = di_authority (info x) /\ di_base (info x) = false /\
  di_stray (info x) = false /\ di_freezing (info x) = false /\ di_frozen (info x) = false.

(** A fragment of the workload, at or below a subtree this rank is authoritative for. *)
Definition sent_part (t : Z) (x : cdir D) : Prop :=
  exists c, In c (view t) /\ In x (below c) /\ exportable x.

Definition from_ok (l : list (Z * cdir D)) : Prop :=
  Forall (fun p => fst p = di_authority (info (snd p)) /\ In (snd p) fullauth) l.

Definition exports_ok (P : Z -> cdir D -> Prop) (es : list bal_effect) : Prop :=
  forall d t, ExportDirNicely d t ∈ es -> exists x, cd_id x = d /\ P t x.

Lemma exports_ok_app P es1 es2 : exports_ok P es1 -> exports_ok P es2 -> exports_ok P (es1 ++ es2).
Proof. intros H1 H2 d t [?|?]%elem_of_app; auto. Qed.

Lemma exports_ok_mono (P Q : Z -> cdir D -> Prop) es :
  (forall t x, P t x -> Q t x) -> exports_ok P es -> exports_ok Q es.
Proof. intros HPQ He d t (x & ? & ?)%He. exists x. auto. Qed.

Lemma exports_ok_nil P : exports_ok P [].
Proof. by intros d t ?%elem_of_nil. Qed.

Lemma exports_ok_one (P : Z -> cdir D -> Prop) t x :
  P t x -> exports_ok P [ExportDirNicely (cd_id x) t].
Proof. intros HP d t' E%list_elem_of_singleton. injection E as -> ->. eauto. Qed.

Lemma note_imports_ok l from es :
  (forall x, In x l -> In x fullauth) -> from_ok from -> exports_ok sent_idle es ->
  let '(from', es') := fold_left (note_import rconf whoami) l (from, es) in
  from_ok from' /\ exports_ok sent_idle es'.
Proof.
  revert from es. induction l as [|x l IH]; intros from es Hl Hf He;
    cbn [fold_left]; [done|].
  assert (forall y, In y l -> In y fullauth) as Hl' by (intros; apply Hl; by right).
  unfold note_import at 2. cbv zeta. destruct (di_stray (info x)) eqn:Es; [by apply IH|].
  destruct (_ && _) eqn:Eb; apply IH; try done.
  - rewrite !andb_true_iff, !negb_true_iff, Z.eqb_neq in Eb.
    apply exports_ok_app; [done|]. apply exports_ok_one.
    split_and!; try done; [apply Hl; by left|naive_solver..].
  - unfold from_ok. rewrite mm_insert_perm. constructor; [|done]. split; [done|apply Hl; by left].
Qed.

Lemma reexport_ok t amount : forall l have, from_ok l ->
  exists l' have' es, reexport rconf t amount have l = Ok (l', have', es) /\
    from_ok l' /\ exports_ok (fun t' x => t' = t /\ sent_back t x) es.
Proof.
  induction l as [|[from dir] l IH]; intros have Hf; simpl.
  { eexists _, _, _. split_and!; [done|done|apply exports_ok_nil]. }
  apply Forall_cons in Hf as [[Ea Hin] Hf]. simpl in Ea, Hin.
  assert (forall have, exists l' have' es,
    (r ← reexport rconf t amount have l;
     Ok (let '(l, have, es) := (r : list (Z * cdir D) * D * list bal_effect) in
         ((from, dir) :: l, have, es))) =
    Ok (l', have', es) /\ from_ok l' /\
    exports_ok (fun t' x => t' = t /\ sent_back t x) es) as Hkeep.
  { intros h. destruct (IH h Hf) as (l' & h' & es & -> & ? & ?). simpl.
    eexists _, _, _. split_and!; [done| |done]. by constructor. }
  destruct (Z.eqb_spec from t) as [->|]; simpl; [|apply Hkeep].
  destruct (di_base (info dir)) eqn:Eb, (di_stray (info dir)) eqn:Es; simpl; try apply Hkeep.
  destruct (di_freezing (info dir)) eqn:Efz, (di_frozen (info dir)) eqn:Efr; simpl; try apply Hkeep.
  rewrite check_true by (apply Z.eqb_eq; congruence).
  assert (exports_ok (fun t' x => t' = t /\ sent_back t x)
    [ExportDirNicely (di_id (info dir)) t]) as H1.
  { apply exports_ok_one. by split_and!. }
  destruct (d_le _ _).
  - destruct (d_lt _ _); [by eexists _, _, _|].
    destruct (IH (have + di_pop (info dir))%dbl Hf) as (l' & h' & es & -> & ? & He). simpl.
    eexists _, _, _. split_and!; [done|done|].
    change (?e :: es) with ([e] ++ es). by apply exports_ok_app.
  - destruct (d_lt _ _); [|apply Hkeep]. eexists _, _, _.
    split_and!; [done|by constructor|apply exports_ok_nil].
Qed.

Definition root_ok (cs : list (cdir D)) (x : cdir D) : Prop := In x cs /\ exportable x.

Lemma note_smaller_ok amount have al cs l sm :
  (forall x, In x l -> In x cs) -> Forall (fun p => root_ok cs (snd p)) sm ->
  Forall (fun p => root_ok cs (snd p)) (fold_left (note_smaller amount have al) l sm).
Proof.
  revert sm. induction l as [|x l IH]; intros sm Hl Hs; simpl; [done|].
  apply IH; [intros; apply Hl; by right|]. unfold note_smaller.
  destruct (starts_with_tilde _), (di_stray (info x)), (di_auth (info x)) eqn:Ea; simpl; try done.
  case_bool_decide; [done|]. destruct (di_frozen (info x)) eqn:Ef; [done|].
  destruct (d_lt _ _); [|done]. rewrite mm_insert_perm. constructor; [|done].
  split; [apply Hl; by left|done].
Qed.

Lemma take_whole_ok (P : cdir D -> Prop) amount : forall l st,
  Forall (fun p => P (snd p)) l -> Forall P (es_exports st) ->
  Forall P (es_exports (take_whole rconf amount l st)).
Proof.
  induction l as [|[pop d] l IH]; intros st Hl Hs; simpl; [done|].
  apply Forall_cons in Hl as [Hd Hl].
  assert (Forall P (es_exports st ++ [d])) by (apply Forall_app; split; [done|by apply Forall_singleton]).
  destruct (d_lt _ _); [done|]. by apply IH.
Qed.

Lemma drill_down_ok t amount : forall cs st,
  (forall x, In x cs -> In x (view t)) -> Forall (sent_part t) (es_exports st) ->
  exists st', drill_down strtod_special conf rconf ret0 amount cs st = Ok st' /\
    Forall (sent_part t) (es_exports st').
Proof.
  induction cs as [|pot cs IH]; intros st Hc Hs; cbn [drill_down]; [by eexists|].
  assert (forall x, In x cs -> In x (view t)) as Hc' by (intros; apply Hc; by right).
  assert (In pot (view t)) as Hpot by (apply Hc; by left).
  case_bool_decide; [by apply IH|].
  assert (exists st1, (if existsb (fun d => cd_id d =? cd_id pot) (es_exports st) then Ok st
     else find_exports strtod_special conf ret0 pot amount st) = Ok st1 /\
     Forall (sent_part t) (es_exports st1)) as (st1 & E1 & Hs1).
  { destruct (existsb _ _); [by eexists|].
    destruct (find_exports_ok strtod_special conf ret0 pot Hlua (Htree t pot Hpot) amount st)
      as (st1 & -> & new & En & _ & _ & HP & _). exists st1. split; [done|].
    rewrite En. apply Forall_app. split; [done|]. eapply Forall_impl; [exact HP|].
    intros x [Hx ?]. exists pot. split_and!; [done| |done]. rewrite below_unfold. by right. }
  rewrite E1. simpl. destruct (d_lt _ _); [by eexists|]. by apply IH.
Qed.

(** What a target is sent. *)
Definition sent_to (tg : gmap Z D) (t : Z) (x : cdir D) : Prop :=
  sent_idle t x \/
  exists amount, tg !! t = Some amount /\ d_lt amount (min_offload rconf) = false /\
    (sent_back t x \/ sent_part t x).

Lemma export_to_ok tg t amount s :
  tg !! t = Some amount -> from_ok (rb_from s) -> exports_ok (sent_to tg) (rb_effects s) ->
  exists s', export_to strtod_special conf rconf ret0 (view t) t amount s = Ok s' /\
    from_ok (rb_from s') /\ exports_ok (sent_to tg) (rb_effects s').
Proof.
  intros Htg Hf He. unfold export_to. destruct (d_lt amount _) eqn:Em; [by eexists|].
  destruct (reexport_ok t amount (rb_from s) d_zero Hf) as (l' & have & es & -> & Hf' & He'). simpl.
  assert (exports_ok (sent_to tg) (rb_effects s ++ es)) as He1.
  { apply exports_ok_app; [done|]. eapply exports_ok_mono; [|exact He'].
    intros t' x [-> ?]. right. eauto. }
  destruct (d_lt (amount - have)%dbl _);
    [eexists; split_and!; [reflexivity|exact Hf'|exact He1]|].
  set (sm := fold_left (note_smaller amount have (rb_already s)) (view t) []).
  assert (Forall (fun p => sent_part t (snd p)) (reverse sm)) as Hsm.
  { rewrite reverse_Permutation. eapply Forall_impl;
      [apply (note_smaller_ok amount have (rb_already s) (view t) (view t) []); done|].
    intros p [Hp ?]. exists (snd p). split_and!; [done|apply below_self|done]. }
  rewrite Hlua. simpl.
  set (st := take_whole rconf amount (reverse sm) (mk_exports [] have (rb_already s))).
  assert (Forall (sent_part t) (es_exports st)) as Hst by (apply take_whole_ok; [done|constructor]).
  assert (exists st', (if d_lt (es_have st) (amount - min_offload rconf)%dbl
     then drill_down strtod_special conf rconf ret0 amount (view t) st else Ok st) = Ok st' /\
     Forall (sent_part t) (es_exports st')) as (st' & -> & Hst').
  { destruct (d_lt (es_have st) _); [|by eexists]. by apply drill_down_ok. }
  simpl. eexists. split_and!; [reflexivity|exact Hf'|]. simpl. apply exports_ok_app; [done|].
  intros d t' Hin. apply list_elem_of_In, in_map_iff in Hin as (x & E & Hx%list_elem_of_In).
  injection E as <- <-. exists x. split; [done|]. right. exists amount. split_and!; [done|done|].
  right. exact (Forall_elem _ _ _ Hst' Hx).
Qed.

Lemma export_all_ok tg : forall l s,
  (forall t a, In (t, a) l -> tg !! t = Some a) ->
  from_ok (rb_from s) -> exports_ok (sent_to tg) (rb_effects s) ->
  exists s', export_all strtod_special conf rconf ret0 view l s = Ok s' /\
    exports_ok (sent_to tg) (rb_effects s').
Proof.
  induction l as [|[t a] l IH]; intros s Hl Hf He; simpl; [by eexists|].
  destruct (export_to_ok tg t a s) as (s1 & -> & ? & ?); [by apply Hl; left|done|done|].
  apply IH; [|done|done]. intros. apply Hl. by right.
Qed.

(** [try_rebalance] (default policy) always returns, its assert included, and exports
    nothing unless the monitor knows all targets and thrashing is off; every fragment it hands
    to the migrator is an idle import going back where it came from, an import returned to a
    target it came from, or an authoritative, unfrozen fragment at or below a subtree this rank
    is authoritative for; the last two go to targets that are to get at least the minimum. *)
Theorem try_rebalance_sound map_targets tg old :
  exists old' es, try_rebalance strtod_special conf rconf ret0 whoami map_targets tg old
      fullauth view = Ok (old', es) /\
    forall d t, ExportDirNicely d t ∈ es ->
      (forall r, r ∈ dom tg -> r ∈ map_targets) /\ mds_thrash_exports rconf = false /\
      exists x, cd_id x = d /\
        (sent_idle t x \/
         exists amount, tg !! t = Some amount /\ d_lt amount (min_offload rconf) = false /\
           (sent_back t x \/ sent_part t x)).
Proof.
  unfold try_rebalance. set (ct := check_targets _ _ map_targets tg old).
  assert (ct.1.1 = true -> forall r, r ∈ dom tg -> r ∈ map_targets) as Hok.
  { unfold ct, check_targets.
    destruct (noted_targets_spec map_targets tg old) as (_ & _ & Hok & _).
    destruct (fold_left (sweep_old _ _ _ _) _ _) as [[? ?] ?]. apply Hok. }
  destruct ct as [[ok old'] sent]. simpl in Hok.
  set (es := match sent with Some want => [SendLoadTargets want] | None => [] end).
  assert (forall P, exports_ok P es) as Hes.
  { intros P d t. unfold es. destruct sent; [|by intros ?%elem_of_nil].
    by intros ?%list_elem_of_singleton. }
  destruct ok; simpl.
  2: { eexists _, _. split; [done|]. intros d t Hin. destruct (Hes (fun _ _ => False) d t Hin). naive_solver. }
  destruct (mds_thrash_exports rconf).
  { eexists _, _. split; [done|]. intros d t Hin. destruct (Hes (fun _ _ => False) d t Hin). naive_solver. }
  pose proof (note_imports_ok fullauth [] [] (fun _ h => h) (Forall_nil_2 _) (exports_ok_nil _)) as Hn.
  destruct (fold_left (note_import rconf whoami) fullauth ([], [])) as [from es1].
  destruct Hn as [Hf He1].
  destruct (export_all_ok tg (ordered tg) (mk_reb from ∅ (es ++ es1))) as (s' & -> & Hs').
  { intros t a Hin. by apply elem_of_ordered, list_elem_of_In. }
  { done. }
  { apply exports_ok_app; [done|]. eapply exports_ok_mono; [|exact He1]. by left. }
  simpl. eexists _, _. split; [done|]. intros d t Hin. split_and!; [auto|done|]. by apply Hs'.
Qed.

End RebalanceSound.

(** ** Walks of the hierarchy *)

Record dfs_conf (D : Type) := mk_dfs_conf {
  mds_bal_print_dfs : Z;
  mds_bal_print_dfs_depth : Z;
  mds_bal_print_dfs_metaload : D
}.
Arguments mk_dfs_conf {D}.
Arguments mds_bal_print_dfs {D}.
Arguments mds_bal_print_dfs_depth {D}.
Arguments mds_bal_print_dfs_metaload {D}.

Section Walks.
Context {D : Type} `{CDouble D} (conf : dfs_conf D).

Definition walk_sub : Type := cdir D * (Z -> list (cdir D) -> list (cdir D)).

(** [subtrees.size() > (size_t) mds_bal_print_dfs] *)
Definition walk_full (acc : list (cdir D)) : bool :=
  u64 (mds_bal_print_dfs conf) <? Z.of_nat (length acc).

(** lines 493-514; the flag is the early return *)
Fixpoint push_level (subs : list walk_sub) (acc : list (cdir D)) : bool * list (cdir D) :=
  match subs with
  | [] => (false, acc)
  | s :: subs' =>
      if (mds_bal_print_dfs_metaload conf <=? cd_pop (fst s))%dbl then
        let acc := acc ++ [fst s] in
        if walk_full acc then (true, acc) else push_level subs' acc
      else push_level subs' acc
  end.

(** lines 516-532 *)
Fixpoint walk_level (subs : list walk_sub) (depth : Z) (acc : list (cdir D))
  : list (cdir D) :=
  match subs with
  | [] => acc
  | s :: subs' =>
      let acc := snd s depth acc in
      if walk_full acc then acc else walk_level subs' depth acc
  end.

Fixpoint subtree_loads (dir : cdir D) (depth : Z) (acc : list (cdir D)) {struct dir}
  : list (cdir D) :=
  let 'CDir _ l := dir in
  if mds_bal_print_dfs_depth conf <? depth then acc
  else
    let subs := flat_map (fun it => match it with
      | Inode true false frags => map (fun s => (s, subtree_loads s)) frags
      | _ => []
      end) l in
    let '(full, acc) := push_level subs acc in
    if full then acc else walk_level subs (s32 (depth + 1)) acc.

(** [dump_subtree_loads]: the new [total_meta_load] and the fragments printed; the vector
    [subtrees] is empty before and after *)
Definition dump_subtree_loads (roots : list (cdir D)) : D * list (cdir D) :=
  fold_left (fun acc dir =>
    let '(total, printed) := acc in
    if starts_with_tilde (di_path (info dir)) then acc
    else ((total + cd_pop dir)%dbl, printed ++ subtree_loads dir 1 [dir]))
    roots (d_zero, []).

Definition hit_nfiles (n nfiles : D) : D := (nfiles + n)%dbl.

(** [hit_nfiles_dir(in)] *)
Fixpoint hit_nfiles_dir (it : citem D) (nfiles : D) : D :=
  match it with
  | NoInode => nfiles
  | Inode true _ frags =>
      fold_left (fun n d => hit_nfiles_frag d n) frags nfiles
  | Inode false _ _ => hit_nfiles (d_of_Z (-1)) nfiles
  end
with hit_nfiles_frag (d : cdir D) (nfiles : D) : D :=
  let 'CDir _ l := d in fold_left (fun n it => hit_nfiles_dir it n) l nfiles.

(** the number of files at or below *)
Fixpoint files_item (it : citem D) : Z :=
  match it with
  | NoInode => 0
  | Inode true _ frags => foldr Z.add 0 (map files_frag frags)
  | Inode false _ _ => 1
  end
with files_frag (d : cdir D) : Z :=
  let 'CDir _ l := d in foldr Z.add 0 (map files_item l).

Lemma push_level_bound lim subs acc :
  lim = u64 (mds_bal_print_dfs conf) -> Z.of_nat (length acc) <= lim ->
  let '(full, acc') := push_level subs acc in
  if full then Z.of_nat (length acc') = lim + 1 else Z.of_nat (length acc') <= lim.
Proof.
  intros ->. revert acc. induction subs as [|s subs IH]; intros acc Ha; simpl; [done|].
  destruct (d_le _ _); [|by apply IH]. unfold walk_full.
  destruct (Z.ltb_spec (u64 (mds_bal_print_dfs conf)) (Z.of_nat (length (acc ++ [fst s])))) as [L|G].
  - rewrite length_app in *. simpl in *. lia.
  - by apply IH.
Qed.

Lemma walk_level_bound lim subs depth acc :
  lim = u64 (mds_bal_print_dfs conf) ->
  Forall (fun s : walk_sub => forall depth acc, Z.of_nat (length acc) <= lim ->
            Z.of_nat (length (snd s depth acc)) <= lim + 1) subs ->
  Z.of_nat (length acc) <= lim ->
  Z.of_nat (length (walk_level subs depth acc)) <= lim + 1.
Proof.
  intros -> Hs. revert acc. induction Hs as [|s subs Hs Hall IH]; intros acc Ha; simpl; [lia|].
  unfold walk_full. specialize (Hs depth acc Ha).
  destruct (Z.ltb_spec (u64 (mds_bal_print_dfs conf)) (Z.of_nat (length (snd s depth acc)))) as [L|G];
    [done|by apply IH].
Qed.

Lemma subtree_loads_length d : forall depth acc,
  Z.of_nat (length acc) <= u64 (mds_bal_print_dfs conf) ->
  Z.of_nat (length (subtree_loads d depth acc)) <= u64 (mds_bal_print_dfs conf) + 1.
Proof.
  induction d as [[i l] IH] using cdir_wf_ind. intros depth acc Ha. cbn [subtree_loads].
  destruct (_ <? depth); [lia|].
  set (subs := flat_map _ l).
  pose proof (push_level_bound _ subs acc eq_refl Ha) as Hp.
  destruct (push_level subs acc) as [[] acc']; [lia|].
  apply walk_level_bound; [done| |done].
  apply Forall_forall. intros s Hs%list_elem_of_In. unfold subs in Hs.
  apply in_flat_map in Hs as (it & Hit & Hs). destruct it as [|[] [] fr]; simpl in Hs; try done.
  apply in_map_iff in Hs as (x & <- & Hx). simpl. apply IH.
  unfold subdirs. apply in_flat_map. eauto.
Qed.

(** The listing of hot subtrees stays within one entry of the configured limit, whatever
    the hierarchy. *)
Theorem subtree_loads_bounded d depth acc :
  Z.of_nat (length acc) <= u64 (mds_bal_print_dfs conf) ->
  Z.of_nat (length (subtree_loads d depth acc)) <= u64 (mds_bal_print_dfs conf) + 1.
Proof. apply subtree_loads_length. Qed.

End Walks.

Section WalksExact.
Context {D : Type} `{DoubleExact D}.
Open Scope Q_scope.

Lemma fold_files {A} (f : A -> D -> D) (n : A -> Z) l x :
  (forall a, In a l -> forall y, d_val (f a y) == d_val y - inject_Z (n a)) ->
  d_val (fold_left (fun y a => f a y) l x) == d_val x - inject_Z (foldr Z.add 0%Z (map n l)).
Proof.
  revert x. induction l as [|a l IH]; intros x Hf; simpl; [unfold inject_Z; ring|].
  rewrite IH by (intros; apply Hf; by right). rewrite (Hf a (or_introl eq_refl)), inject_Z_plus. ring.
Qed.

(** Removing a directory takes exactly its files off the file count. *)
Theorem hit_nfiles_dir_counts (it : citem D) nfiles :
  d_val (hit_nfiles_dir it nfiles) == d_val nfiles - inject_Z (files_item it).
Proof.
  assert (forall d n, d_val (hit_nfiles_frag d n) == d_val n - inject_Z (files_frag d)) as Hfrag.
  { clear it nfiles. induction d as [[i l] IH] using cdir_wf_ind. intros n. cbn.
    apply (fold_files hit_nfiles_dir files_item). intros it Hit y.
    destruct it as [|[] st fr]; simpl.
    - unfold inject_Z; ring.
    - apply (fold_files hit_nfiles_frag files_frag). intros d Hd. apply IH.
      unfold subdirs. apply in_flat_map. exists (Inode true st fr). done.
    - unfold hit_nfiles. rewrite d_val_add. unfold d_of_Z. rewrite d_val_of_Q.
      unfold inject_Z; ring. }
  destruct it as [|[] st fr]; simpl.
  - unfold inject_Z; ring.
  - apply (fold_files hit_nfiles_frag files_frag). intros; apply Hfrag.
  - unfold hit_nfiles. rewrite d_val_add. unfold d_of_Z. rewrite d_val_of_Q.
    unfold inject_Z; ring.
Qed.

End WalksExact.

(** ** Concrete hierarchies *)

(** An interpreter whose scripts all fail. *)
#[export] Instance lua_fails {D} `{CDouble D} : LuaVM D := {
  lua_run := fun _ _ => None;
  lua_tonumber := fun v => match v with LNum d => d | LStr _ => d_zero end;
  lua_tostring := fun v => match v with LNum _ => None | LStr s => Some s end
}.

(** The defaults of config_opts.h; the options are [float]s. *)
Definition default_export_conf {D} `{CDouble D} : export_conf D :=
  mk_export_conf (d_float (d_of_Q (2 # 10))) (d_float (d_of_Q (12 # 10)))
    (d_float (d_of_Q (8 # 10))) (d_float (d_of_Q (3 # 10)))
    (d_float (d_of_Q (1 # 1000))) 0 EmptyString EmptyString.

Definition default_rebalance_conf {D} `{CDouble D} : rebalance_conf D :=
  mk_rebalance_conf false d_zero 10 5 10.

Definition info_ex {D} `{CDouble D} (id pop : Z) : dir_info D :=
  mk_dir_info id true false false false false (d_of_Z pop) 1 false false false 0 EmptyString.

Definition leaf_ex {D} `{CDouble D} (id pop : Z) : cdir D := CDir (info_ex id pop) [].

(** A subtree of load 36 with three directories of load 12. *)
Definition tree_ex {D} `{CDouble D} : cdir D :=
  CDir (info_ex 1 36)
    [Inode true false [leaf_ex 2 12]; Inode true false [leaf_ex 3 12];
     Inode true false [leaf_ex 4 12]].

Definition no_special {D} (s : string) : option D := None.

Definition start_ex {D} `{CDouble D} (have : Z) : export_state D (cdir D) :=
  mk_exports [] (d_of_Z have) ∅.

Definition found_ids {D} (r : res (export_state D (cdir D))) : res (list Z) :=
  st ← r; Ok (map cd_id (es_exports st)).

Lemma NoDup_by_decide (l : list Z) : bool_decide (NoDup l) = true -> NoDup l.
Proof. apply bool_decide_eq_true_1. Qed.

Lemma find_exports_sound_witness :
  exists st', find_exports no_special default_export_conf EmptyString (tree_ex (D := b64))
      (d_of_Z 40) (start_ex 0) = Ok st' /\ NoDup (map cd_id (es_exports st')).
Proof.
  pose proof (find_exports_sound no_special default_export_conf EmptyString (tree_ex (D := b64))
    (d_of_Z 40) (start_ex 0) ltac:(apply NoDup_by_decide; vm_compute; reflexivity)) as Hs.
  destruct (find_exports _ _ _ _ _ _) as [st'|] eqn:E; [|vm_compute in E; discriminate].
  destruct Hs as (new & E1 & _ & _ & _ & Hn). exists st'. split; [reflexivity|].
  rewrite E1. apply Hn. reflexivity.
Defined.

Lemma subtree_loads_bounded_witness :
  Z.of_nat (length (subtree_loads (mk_dfs_conf 2 5 (d_of_Z 1)) (tree_ex (D := b64)) 1 [])) <= 3.
Proof.
  apply (subtree_loads_bounded (mk_dfs_conf 2 5 (d_of_Z 1)) (tree_ex (D := b64)) 1 []).
  vm_compute. discriminate.
Defined.

(** The search compares what it has for the target altogether with the least it still
    needed when it started: with 40 missing it collects all three directories when nothing was
    found before, but only one of them when 60 were found before, and so leaves 28 of the 40
    unserved although two directories of 12 remain (doubles, default options). *)
Theorem find_exports_stops_short :
  found_ids (find_exports no_special default_export_conf EmptyString (tree_ex (D := b64))
    (d_of_Z 40) (start_ex 0)) = Ok [4; 3; 2] /\
  found_ids (find_exports no_special default_export_conf EmptyString (tree_ex (D := b64))
    (d_of_Z 100) (start_ex 60)) = Ok [4].
Proof. split; vm_compute; reflexivity. Qed.

(** A subtree that fits as a whole is not entered in [already_exporting]: with two
    targets of 50 each, the default policy hands the same subtree (load 36) to both. *)
Theorem same_subtree_exported_twice :
  try_rebalance no_special default_export_conf (default_rebalance_conf (D := b64)) EmptyString 0
    {[ 1; 2 ]} {[ 1 := d_of_Z 50; 2 := d_of_Z 50 ]} ∅ [tree_ex] (fun _ => [tree_ex]) =
  Ok ({[ 1 := 0; 2 := 0 ]}, [ExportDirNicely 1 1; ExportDirNicely 1 2]).
Proof. vm_compute. reflexivity. Qed.

Lemma try_rebalance_sound_witness :
  exists old' es, try_rebalance no_special default_export_conf
    (default_rebalance_conf (D := b64)) EmptyString 0
    {[ 1; 2 ]} {[ 1 := d_of_Z 50; 2 := d_of_Z 50 ]} ∅ [tree_ex] (fun _ => [tree_ex]) =
    Ok (old', es).
Proof.
  destruct (try_rebalance_sound no_special default_export_conf
    (default_rebalance_conf (D := b64)) EmptyString 0 eq_refl [tree_ex] (fun _ => [tree_ex]))
    with (map_targets := ({[ 1; 2 ]} : gset Z))
         (tg := ({[ 1 := d_of_Z 50; 2 := d_of_Z 50 ]} : gmap Z b64)) (old := (∅ : gmap Z Z))
    as (old' & es & E & _).
  - intros t c [<-|[]]. apply NoDup_by_decide. vm_compute. reflexivity.
  - exists old', es. exact E.
Defined.
