(* ===== verification/Popularity.v ===== *)
(** * Popularity of directories (MDBalancer.cc, CDir.h)

    How a hit on an inode or a directory spreads to the counters of the directories above
    it, how the counters move when a subtree is exported or imported, and how hits queue
    directories for splitting and merging.

    The directories in cache are a map from an identity to the fields the balancer reads and
    writes; [pd_parent] is the directory that holds the parent dentry of the directory's
    inode.  The walk up the parents is bounded by a number of steps; it returns [None] when
    the bound is used up, which a bound above the depth never is ([hit_dir_effect]). *)

From stdpp Require Import base tactics numbers list gmap strings sorting.
From Stdlib Require Import ZArith QArith Lia.
From S2P Require Import Prelude Double Stats LoadVec.
Open Scope Z_scope.

Definition REP_NONE : Z := 0.
Definition REP_ALL : Z := 1.

(** The options of [g_conf] that [hit_dir] reads. *)
Record hit_conf (D : Type) := mk_hit_conf {
  mds_bal_frag : bool;
  mds_bal_fragment_interval : Z;
  mds_bal_split_size : Z;
  mds_bal_merge_size : Z;
  mds_bal_split_rd : D;
  mds_bal_split_wr : D;
  mds_bal_replicate_threshold : D;
  mds_bal_unreplicate_threshold : D
}.
Arguments mk_hit_conf {D}.
Arguments mds_bal_frag {D}.
Arguments mds_bal_fragment_interval {D}.
Arguments mds_bal_split_size {D}.
Arguments mds_bal_merge_size {D}.
Arguments mds_bal_split_rd {D}.
Arguments mds_bal_split_wr {D}.
Arguments mds_bal_replicate_threshold {D}.
Arguments mds_bal_unreplicate_threshold {D}.

Section Pop.
Context {C T R D : Type} `{DecayCounter C T R D} `{CDouble D} `{KeyOrder T}.
Context (conf : hit_conf D) (rate : R).

Record pdir := mk_pdir {
  pd_pop_me : load_vec C;
  pd_pop_nested : load_vec C;
  pd_pop_auth_subtree : load_vec C;
  pd_pop_auth_subtree_nested : load_vec C;
  pd_spread : load_spread_t C;
  pd_last_sample : T;
  pd_dir_rep : Z;
  pd_auth : bool;
  pd_ambiguous_auth : bool;
  pd_subtree_root : bool;
  pd_base : bool;
  pd_whole : bool;             (* get_frag() == frag_t() *)
  pd_ino : Z;
  pd_frag_size : Z;
  pd_parent : option Z
}.

Definition is_rep (d : pdir) : bool := negb (pd_dir_rep d =? REP_NONE).
Definition should_split (d : pdir) : bool := mds_bal_split_size conf <? s32 (pd_frag_size d).
Definition should_merge (d : pdir) : bool := s32 (pd_frag_size d) <? mds_bal_merge_size conf.

Definition set_pops (d : pdir) (me nested sub sub_nested : load_vec C) : pdir :=
  mk_pdir me nested sub sub_nested (pd_spread d) (pd_last_sample d) (pd_dir_rep d)
    (pd_auth d) (pd_ambiguous_auth d) (pd_subtree_root d) (pd_base d) (pd_whole d)
    (pd_ino d) (pd_frag_size d) (pd_parent d).

Definition set_spread (d : pdir) (s : load_spread_t C) (sample : T) (rep : Z) : pdir :=
  mk_pdir (pd_pop_me d) (pd_pop_nested d) (pd_pop_auth_subtree d)
    (pd_pop_auth_subtree_nested d) s sample rep
    (pd_auth d) (pd_ambiguous_auth d) (pd_subtree_root d) (pd_base d) (pd_whole d)
    (pd_ino d) (pd_frag_size d) (pd_parent d).

(** An update through the reference [vec.get(t)]. *)
Definition vec_upd (t : Z) (f : C -> C) (v : load_vec C) : res (load_vec C) :=
  c ← vec_get DIRFRAG_NUM t v; Ok (vec_set t (f c) v).

Definition d_nonzero (x : D) : bool := negb ((x <=? d_zero)%dbl && (d_zero <=? x)%dbl).

(** ** hit_dir

    The queues, as identities of directories; [send_dir_updates] is the trace. *)
Record pop_state := mk_pop {
  ps_dirs : gmap Z pdir;
  ps_split_queue : gset Z;
  ps_merge_queue : gset Z;
  ps_updates : list (Z * bool)
}.

Definition upd_dir (id : Z) (d : pdir) (s : pop_state) : pop_state :=
  mk_pop (<[id := d]> (ps_dirs s)) (ps_split_queue s) (ps_merge_queue s) (ps_updates s).

Definition get_dir (id : Z) (s : pop_state) : res pdir :=
  match ps_dirs s !! id with Some d => Ok d | None => Abort end.

(** lines 1609-1633 *)
Definition queue_fragmenting (id : Z) (d : pdir) (type : Z) (v : D) (s : pop_state)
  : pop_state :=
  if mds_bal_frag conf && (0 <? mds_bal_fragment_interval conf) && negb (pd_base d) && pd_auth d
  then
    let split := (0 <? mds_bal_split_size conf) &&
      (should_split d ||
       ((v >? mds_bal_split_rd conf)%dbl && (type =? META_POP_IRD)) ||
       ((v >? mds_bal_split_wr conf)%dbl && (type =? META_POP_IWR))) in
    let merge := negb (pd_whole d) && should_merge d in
    mk_pop (ps_dirs s)
      (if split then {[id]} ∪ ps_split_queue s else ps_split_queue s)
      (if merge then {[id]} ∪ ps_merge_queue s else ps_merge_queue s) (ps_updates s)
  else s.

(** lines 1643-1685: sampling, replication and unreplication; [num_in] is
    [get_num_in_mds()].  Returns the adjustment of the read counter. *)
Definition sample_dir (id : Z) (now last_sample : T) (num_in : Z) (s : pop_state)
  : res (pop_state * D) :=
  d ← get_dir id s;
  c ← vec_get DIRFRAG_NUM META_POP_IRD (pd_pop_auth_subtree d);
  let '(c, v) := dc_get now rate c in
  let dir_pop := d_float v in
  let '(sp, v) := spread_get now rate (pd_spread d) in
  let pop_sp := d_float v in
  let dir_pop := d_float (dir_pop + d_float (pop_sp * d_of_Z 10))%dbl in
  let d := set_spread
    (set_pops d (pd_pop_me d) (pd_pop_nested d)
       (vec_set META_POP_IRD c (pd_pop_auth_subtree d)) (pd_pop_auth_subtree_nested d))
    sp last_sample (pd_dir_rep d) in
  if pd_auth d && negb (pd_ambiguous_auth d) then
    r ← (if negb (is_rep d) && (mds_bal_replicate_threshold conf <=? dir_pop)%dbl then
           c ← vec_get DIRFRAG_NUM META_POP_IRD (pd_pop_me d);
           let '(c, v) := dc_get now rate c in
           let rdp := d_float v in
           let rd_adj := (d_float (d_float (rdp / d_float (d_of_Z num_in)) - rdp)
                          / d_of_Z 2)%dbl in
           me ← vec_upd META_POP_IRD (dc_adjust rd_adj) (vec_set META_POP_IRD c (pd_pop_me d));
           sub ← vec_upd META_POP_IRD (dc_adjust rd_adj) (pd_pop_auth_subtree d);
           let d := set_spread (set_pops d me (pd_pop_nested d) sub (pd_pop_auth_subtree_nested d))
                      (pd_spread d) (pd_last_sample d) REP_ALL in
           Ok (d, rd_adj, [(id, true)])
         else Ok (d, d_zero, []));
    let '(d, rd_adj, up) := (r : pdir * D * list (Z * bool)) in
    let '(d, up) :=
      if negb (pd_ino d =? 1) && is_rep d && (dir_pop <? mds_bal_unreplicate_threshold conf)%dbl
      then (set_spread d (pd_spread d) (pd_last_sample d) REP_NONE, up ++ [(id, false)])
      else (d, up) in
    Ok (mk_pop (<[id := d]> (ps_dirs s)) (ps_split_queue s) (ps_merge_queue s)
          (ps_updates s ++ up), rd_adj)
  else Ok (upd_dir id d s, d_zero).

(** The counters of one directory in the walk to the root (lines 1693-1707). *)
Definition hit_counters (now : T) (type : Z) (amount rd_adj : D) (hit_subtree hit_nested : bool)
    (d : pdir) : res pdir :=
  let adj (v : load_vec C) : res (load_vec C) :=
    if d_nonzero rd_adj then vec_upd META_POP_IRD (dc_adjust_at now rate rd_adj) v else Ok v in
  nested ← vec_upd type (fun c => fst (dc_hit2 now amount c)) (pd_pop_nested d);
  nested ← adj nested;
  sub ← (if hit_subtree then
           v ← vec_upd type (fun c => fst (dc_hit2 now amount c)) (pd_pop_auth_subtree d); adj v
         else Ok (pd_pop_auth_subtree d));
  sub_nested ← (if hit_nested then
           v ← vec_upd type (fun c => fst (dc_hit now rate amount c))
                 (pd_pop_auth_subtree_nested d); adj v
         else Ok (pd_pop_auth_subtree_nested d));
  Ok (set_pops d (pd_pop_me d) nested sub sub_nested).

Fixpoint hit_ancestors (fuel : nat) (now : T) (type : Z) (amount rd_adj : D)
    (hit_subtree hit_nested : bool) (id : Z) (dirs : gmap Z pdir) : option (res (gmap Z pdir)) :=
  match fuel with
  | O => None
  | S fuel =>
      match dirs !! id with
      | None => Some Abort
      | Some d =>
          match hit_counters now type amount rd_adj hit_subtree hit_nested d with
          | Abort => Some Abort
          | Ok d' =>
              let dirs := <[id := d']> dirs in
              match pd_parent d with
              | None => Some (Ok dirs)
              | Some up => hit_ancestors fuel now type amount rd_adj
                             (hit_subtree && negb (pd_subtree_root d)) hit_nested up dirs
              end
          end
      end
  end.

(** [hit_dir(now, dir, type, who, amount)]; [last_sample] is the balancer's. *)
Definition hit_dir (fuel : nat) (now last_sample : T) (num_in : Z) (id type who : Z)
    (amount : D) (s : pop_state) : option (res pop_state) :=
  let r :=
    d ← get_dir id s;
    c ← vec_get DIRFRAG_NUM type (pd_pop_me d);
    let '(c, v) := dc_hit2 now amount c in
    let d := set_pops d (vec_set type c (pd_pop_me d)) (pd_pop_nested d)
               (pd_pop_auth_subtree d) (pd_pop_auth_subtree_nested d) in
    let s := queue_fragmenting id d type v (upd_dir id d s) in
    let d := if (type =? META_POP_IRD) && (0 <=? who)
             then set_spread d (spread_hit now rate who (pd_spread d)).1 (pd_last_sample d)
                    (pd_dir_rep d)
             else d in
    let s := upd_dir id d s in
    if (type =? META_POP_IRD) && k_ltb (pd_last_sample d) last_sample
    then sample_dir id now last_sample num_in s
    else Ok (s, d_zero) in
  match r with
  | Abort => Some Abort
  | Ok (s, rd_adj) =>
      match ps_dirs s !! id with
      | None => Some Abort
      | Some d =>
          match hit_ancestors fuel now type amount rd_adj (pd_auth d) (pd_auth d) id (ps_dirs s)
          with
          | None => None
          | Some Abort => Some Abort
          | Some (Ok dirs) =>
              Some (Ok (mk_pop dirs (ps_split_queue s) (ps_merge_queue s) (ps_updates s)))
          end
      end
  end.

(** [hit_inode]: the inode's own counters ([NUM] is 2) and the directory it is linked in. *)
Definition hit_inode (fuel : nat) (now last_sample : T) (num_in : Z) (pop : load_vec C)
    (parent : option Z) (type who : Z) (s : pop_state)
  : option (res (load_vec C * pop_state)) :=
  match vec_get INODE_NUM type pop with
  | Abort => Some Abort
  | Ok c =>
      let pop := vec_set type (fst (dc_hit now rate (d_of_Z 1) c)) pop in
      match parent with
      | None => Some (Ok (pop, s))
      | Some id =>
          match hit_dir fuel now last_sample num_in id type who (d_of_Z 1) s with
          | None => None
          | Some Abort => Some Abort
          | Some (Ok s) => Some (Ok (pop, s))
          end
      end
  end.

(** ** Export and import *)

(** the loop of [subtract_export] and [add_import]: [op] is [sub] or [add]; [subload] is the
    local copy, whose counters decay as they are read *)
Fixpoint shift_parents (op : load_vec C -> load_vec C -> load_vec C * load_vec C)
    (fuel : nat) (subload : load_vec C) (id : option Z) (dirs : gmap Z pdir)
  : option (res (gmap Z pdir)) :=
  match fuel with
  | O => None
  | S fuel =>
      match id with
      | None => Some (Ok dirs)
      | Some id =>
          match dirs !! id with
          | None => Some Abort
          | Some d =>
              let '(nested, subload) := op (pd_pop_nested d) subload in
              let '(sub_nested, subload) := op (pd_pop_auth_subtree_nested d) subload in
              shift_parents op fuel subload (pd_parent d)
                (<[id := set_pops d (pd_pop_me d) nested (pd_pop_auth_subtree d) sub_nested]> dirs)
          end
      end
  end.

Definition subtract_export (fuel : nat) (now : T) (id : Z) (dirs : gmap Z pdir)
  : option (res (gmap Z pdir)) :=
  match dirs !! id with
  | None => Some Abort
  | Some d => shift_parents (vec_sub now rate) fuel (pd_pop_auth_subtree d) (pd_parent d) dirs
  end.

Definition add_import (fuel : nat) (now : T) (id : Z) (dirs : gmap Z pdir)
  : option (res (gmap Z pdir)) :=
  match dirs !! id with
  | None => Some Abort
  | Some d => shift_parents (vec_add now rate) fuel (pd_pop_auth_subtree d) (pd_parent d) dirs
  end.

Definition queue_split (id : Z) (q : gset Z) : gset Z := {[id]} ∪ q.
Definition queue_merge (id : Z) (q : gset Z) : gset Z := {[id]} ∪ q.

End Pop.
Arguments pdir C T : clear implicits.
Arguments pop_state C T : clear implicits.

(** ** What a hit, an export and an import change *)

(** The identities from a directory up to the root of the hierarchy. *)
Inductive chain {C T} (dirs : gmap Z (pdir C T)) : Z -> list Z -> Prop :=
| chain_root id d : dirs !! id = Some d -> pd_parent d = None -> chain dirs id [id]
| chain_up id d up l : dirs !! id = Some d -> pd_parent d = Some up ->
    chain dirs up l -> chain dirs id (id :: l).

Fixpoint before (x : Z) (l : list Z) : list Z :=
  match l with
  | [] => []
  | y :: l' => if y =? x then [] else y :: before x l'
  end.

Section PopFacts.
Context {C T R D : Type} `{DecayCounter C T R D} `{CDouble D} `{KeyOrder T}.
Context (conf : hit_conf D) (rate : R).
Implicit Types (dirs : gmap Z (pdir C T)) (d : pdir C T).

Lemma chain_det dirs id l l' : chain dirs id l -> chain dirs id l' -> l = l'.
Proof.
  intros Hc. revert l'. induction Hc as [id d E P|id d up l E P Hc IH]; intros l' Hc';
    inversion Hc'; subst; simplify_eq; [done|]. f_equal. auto.
Qed.

Lemma chain_suffix dirs id l x : chain dirs id l -> x ∈ l ->
  exists pre l', l = pre ++ l' /\ chain dirs x l'.
Proof.
  intros Hc. induction Hc as [id d E P|id d up l E P Hc IH].
  - intros ->%list_elem_of_singleton. exists [], [id]. split; [done|]. by eapply chain_root.
  - intros [->|Hx]%elem_of_cons.
    + exists [], (id :: l). split; [done|]. by eapply chain_up.
    + destruct (IH Hx) as (pre & l' & -> & ?). by exists (id :: pre), l'.
Qed.

Lemma chain_nodup dirs id l : chain dirs id l -> NoDup l.
Proof.
  intros Hc. induction Hc as [id d E P|id d up l E P Hc IH]; [apply NoDup_singleton|].
  constructor; [|done]. intros Hin.
  destruct (chain_suffix _ _ _ _ Hc Hin) as (pre & l' & -> & Hc').
  assert (chain dirs id (id :: pre ++ l')) as Hfull by by eapply chain_up.
  pose proof (chain_det _ _ _ _ Hc' Hfull) as El. apply (f_equal length) in El.
  rewrite length_cons, length_app in El. lia.
Qed.

(** The counters of [d] have five entries. *)
Definition pops_ok (d : pdir C T) : Prop :=
  length (pd_pop_me d) = 5%nat /\ length (pd_pop_nested d) = 5%nat /\
  length (pd_pop_auth_subtree d) = 5%nat /\ length (pd_pop_auth_subtree_nested d) = 5%nat.

Definition bump_vec (t : Z) (f : C -> C) (v : load_vec C) : load_vec C := alter f (Z.to_nat t) v.

Lemma vec_upd_ok t f (v : load_vec C) :
  0 <= t < 5 -> length v = 5%nat -> vec_upd t f v = Ok (bump_vec t f v).
Proof.
  intros Ht Hl. unfold vec_upd, vec_get, bump_vec, vec_set, DIRFRAG_NUM, load_vec in *.
  rewrite check_true by lia. destruct (Z.ltb_spec t 0); [lia|].
  destruct (lookup_lt_is_Some_2 v (Z.to_nat t)) as [c Ec]; [lia|]. rewrite Ec. simpl. f_equal.
  apply list_eq. intros i. destruct (decide (i = Z.to_nat t)) as [->|N].
  - rewrite list_lookup_insert_eq by (by eapply lookup_lt_Some). by rewrite list_lookup_alter_eq, Ec.
  - by rewrite list_lookup_insert_ne, list_lookup_alter_ne.
Qed.

Lemma bump_vec_length t f v : length (bump_vec t f v) = length v.
Proof. apply length_alter. Qed.

(** One directory of the walk when no read adjustment is made. *)
Definition hit_one (now : T) (type : Z) (amount : D) (sub nested : bool) (d : pdir C T) : pdir C T :=
  set_pops d (pd_pop_me d)
    (bump_vec type (fun c => fst (dc_hit2 now amount c)) (pd_pop_nested d))
    (if sub then bump_vec type (fun c => fst (dc_hit2 now amount c)) (pd_pop_auth_subtree d)
     else pd_pop_auth_subtree d)
    (if nested then bump_vec type (fun c => fst (dc_hit now rate amount c))
                      (pd_pop_auth_subtree_nested d)
     else pd_pop_auth_subtree_nested d).

Definition is_root (dirs : gmap Z (pdir C T)) (x : Z) : bool :=
  match dirs !! x with Some d => pd_subtree_root d | None => false end.

Lemma hit_counters_one now type amount sub nested d :
  0 <= type < 5 -> pops_ok d -> d_nonzero (d_zero : D) = false ->
  hit_counters rate now type amount d_zero sub nested d = Ok (hit_one now type amount sub nested d).
Proof.
  intros Ht (H1' & H2' & H3' & H4') Hz. unfold hit_counters. rewrite Hz.
  rewrite !vec_upd_ok by done. simpl.
  destruct sub, nested; simpl; rewrite ?vec_upd_ok by done; done.
Qed.

Lemma hit_ancestors_one fuel now type amount nested : forall sub id dirs l,
  chain dirs id l -> (length l <= fuel)%nat -> 0 <= type < 5 ->
  d_nonzero (d_zero : D) = false ->
  (forall x d, x ∈ l -> dirs !! x = Some d -> pops_ok d) ->
  exists dirs', hit_ancestors rate fuel now type amount d_zero sub nested id dirs = Some (Ok dirs') /\
    forall x, dirs' !! x = if bool_decide (x ∈ l)
      then hit_one now type amount (sub && negb (existsb (is_root dirs) (before x l))) nested
             <$> dirs !! x
      else dirs !! x.
Proof.
  induction fuel as [|fuel IH]; intros sub id dirs l Hc Hf Ht Hz Hok;
    [inversion Hc; subst; simpl in Hf; lia|].
  pose proof (chain_nodup _ _ _ Hc) as Hnd.
  assert (exists d, dirs !! id = Some d /\ pops_ok d) as (d & Ed & Hd).
  { inversion Hc as [id' d Ed|id' d up l' Ed]; subst; exists d; split; try done;
      eapply Hok; try done; by left. }
  simpl. rewrite Ed, hit_counters_one by done.
  set (d' := hit_one now type amount sub nested d).
  inversion Hc as [id' d0 Ed0 P|id' d0 up l' Ed0 P Hc']; subst; simplify_eq; rewrite P.
  - eexists. split; [done|]. intros x. destruct (decide (x = id)) as [->|N].
    + rewrite bool_decide_true by set_solver. simpl. rewrite Z.eqb_refl, andb_true_r.
      by rewrite lookup_insert_eq, Ed.
    + rewrite bool_decide_false by set_solver. by rewrite lookup_insert_ne.
  - apply NoDup_cons in Hnd as [Hnin Hnd].
    assert (forall x, x ∈ l' -> (<[id := d']> dirs : gmap _ _) !! x = dirs !! x) as Hsame.
    { intros x Hx. rewrite lookup_insert_ne; [done|]. by intros <-. }
    assert (chain (<[id := d']> dirs) up l') as Hc''.
    { clear -Hc' Hsame. induction Hc' as [u e E P|u e u' l E P Hc IH].
      - eapply chain_root; [|exact P]. rewrite Hsame; [done|by left].
      - eapply chain_up; [rewrite Hsame; [exact E|by left]|exact P|].
        apply IH. intros x Hx. apply Hsame. by right. }
    destruct (IH (sub && negb (pd_subtree_root d)) up (<[id := d']> dirs) l')
      as (dirs' & E & Hl); [done|simpl in Hf; lia|done|done|..].
    { intros x e Hx. rewrite Hsame by done. intros. eapply Hok; [by right|done]. }
    exists dirs'. split; [exact E|]. intros x. rewrite Hl. clear Hl E IH.
    destruct (decide (x = id)) as [->|N].
    + rewrite (bool_decide_false (id ∈ l')) by done.
      rewrite bool_decide_true by set_solver. simpl.
      by rewrite Z.eqb_refl, andb_true_r, lookup_insert_eq, Ed.
    + rewrite lookup_insert_ne by done. simpl. destruct (Z.eqb_spec id x); [congruence|]. simpl.
      assert (is_root dirs id = pd_subtree_root d) as -> by (unfold is_root; by rewrite Ed).
      destruct (bool_decide_reflect (x ∈ l')) as [Hx|Hx].
      * rewrite bool_decide_true by set_solver. do 2 f_equal.
        rewrite negb_orb, andb_assoc. do 2 f_equal.
        assert (forall m, (forall y, y ∈ m -> y ∈ l') ->
          existsb (is_root (<[id := d']> dirs)) m = existsb (is_root dirs) m) as Hm.
        { induction m as [|y m IHm]; intros Hin; simpl; [done|].
          unfold is_root at 1 3. rewrite Hsame by (apply Hin; by left).
          rewrite IHm; [done|]. intros; apply Hin; by right. }
        apply Hm. intros y. clear. induction l' as [|z l' IH]; simpl; [done|].
        destruct (z =? x); [by intros ?%elem_of_nil|]. set_solver.
      * rewrite bool_decide_false by set_solver. done.
Qed.


Lemma chain_insert dirs id l x d d' :
  chain dirs id l -> dirs !! x = Some d -> pd_parent d' = pd_parent d ->
  chain (<[x := d']> dirs) id l.
Proof.
  intros Hc Ex Ep. induction Hc as [u e E P|u e u' l E P Hc IH]; destruct (decide (u = x)) as [->|N];
    simplify_eq.
  - eapply chain_root; [by rewrite lookup_insert_eq|congruence].
  - eapply chain_root; [by rewrite lookup_insert_ne|congruence].
  - eapply chain_up; [by rewrite lookup_insert_eq|by rewrite Ep|done].
  - eapply chain_up; [by rewrite lookup_insert_ne|done|done].
Qed.

Lemma chain_head dirs id l : chain dirs id l -> id ∈ l /\ exists d, dirs !! id = Some d.
Proof. intros Hc. inversion Hc; subst; split; eauto; left. Qed.

(** The hit on the directory's own counter. *)
Definition hit_me (now : T) (type : Z) (amount : D) (d : pdir C T) : pdir C T :=
  set_pops d (bump_vec type (fun c => fst (dc_hit2 now amount c)) (pd_pop_me d))
    (pd_pop_nested d) (pd_pop_auth_subtree d) (pd_pop_auth_subtree_nested d).

(** A hit on a directory (other than a read) hits, once each, the directory's own
    counter, the nested counter of the directory and of every directory above it, and, when the
    directory is authoritative, the nested authoritative counter of all of them and the
    subtree counter of those up to and including the first subtree root; nothing else in the
    cache changes.  As many steps as there are directories on the way are enough. *)
Theorem hit_dir_effect `{!DoubleOrder D} fuel now last_sample num_in id d type who amount s l :
  chain (ps_dirs s) id l -> (length l <= fuel)%nat -> 1 <= type < 5 ->
  (forall x e, x ∈ l -> ps_dirs s !! x = Some e -> pops_ok e) ->
  ps_dirs s !! id = Some d ->
  exists s', hit_dir conf rate fuel now last_sample num_in id type who amount s = Some (Ok s') /\
    ps_updates s' = ps_updates s /\
    forall x, ps_dirs s' !! x =
      if bool_decide (x ∈ l) then
        (fun e => hit_one now type amount
           (pd_auth d && negb (existsb (is_root (ps_dirs s)) (before x l))) (pd_auth d)
           (if x =? id then hit_me now type amount e else e)) <$> ps_dirs s !! x
      else ps_dirs s !! x.
Proof.
  intros Hc Hf Ht Hok Ed. destruct (chain_head _ _ _ Hc) as [Hin _].
  pose proof (Hok id d Hin Ed) as Hd. unfold hit_dir, get_dir. rewrite Ed. simpl.
  destruct (vec_get_some DIRFRAG_NUM type (pd_pop_me d)) as [c Ec]; [unfold DIRFRAG_NUM; lia|apply Hd|].
  assert (0 <= type < 5) as Ht' by lia.
  pose proof (vec_upd_ok type (fun c => fst (dc_hit2 now amount c)) _ Ht' (proj1 Hd)) as Hme.
  unfold vec_upd in Hme. rewrite Ec in *. simpl in *.
  assert (vec_set type (dc_hit2 now amount c).1 (pd_pop_me d) =
    bump_vec type (fun c => fst (dc_hit2 now amount c)) (pd_pop_me d)) as Hme'
    by (injection Hme as E; exact E). clear Hme.
  destruct (dc_hit2 now amount c) as [c' v]. simpl in Hme'. rewrite Hme'.
  destruct (Z.eqb_spec type META_POP_IRD) as [E0|_]; [unfold META_POP_IRD in E0; lia|]. simpl.
  fold (hit_me now type amount d). set (d1 := hit_me now type amount d).
  assert (ps_dirs (queue_fragmenting conf id d1 type v (upd_dir id d1 s)) = <[id := d1]> (ps_dirs s) /\
    ps_updates (queue_fragmenting conf id d1 type v (upd_dir id d1 s)) = ps_updates s) as [Eq Eu].
  { unfold queue_fragmenting. by destruct (_ && _). }
  rewrite Eq. rewrite insert_insert_eq, lookup_insert_eq.
  destruct (hit_ancestors_one fuel now type amount (pd_auth d) (pd_auth d) id
    (<[id := d1]> (ps_dirs s)) l) as (dirs' & E & Hl).
  { eapply chain_insert; [done|done|done]. }
  { done. } { lia. }
  { unfold d_nonzero. by rewrite d_zero_refl. }
  { intros x e Hx. destruct (decide (x = id)) as [->|N].
    - rewrite lookup_insert_eq. intros [= <-]. destruct Hd as (? & ? & ? & ?).
      split_and!; simpl; [by rewrite bump_vec_length|done..].
    - rewrite lookup_insert_ne by done. by apply Hok. }
  change (pd_auth d1) with (pd_auth d). rewrite E. eexists. split; [done|]. simpl.
  split; [done|]. intros x. rewrite Hl. clear Hl E.
  destruct (decide (x = id)) as [->|N].
  - rewrite Z.eqb_refl, lookup_insert_eq, Ed. simpl. rewrite bool_decide_true by done.
    do 4 f_equal. inversion Hc; subst; simpl; by rewrite Z.eqb_refl.
  - rewrite lookup_insert_ne by done. destruct (Z.eqb_spec x id); [done|].
    case_bool_decide; [|done]. f_equal. do 3 f_equal.
    generalize (before x l). induction l0 as [|y m IHm]; simpl; [done|]. rewrite IHm. f_equal.
    unfold is_root. destruct (decide (y = id)) as [->|Ny].
    + by rewrite lookup_insert_eq, Ed.
    + by rewrite lookup_insert_ne.
Qed.

(** ** Export and import

    Reading a counter twice at the same time gives the same counter and value. *)
Definition get_stable (now : T) : Prop :=
  forall c, dc_get now rate (fst (dc_get now rate c)) = dc_get now rate c.

Definition adjust_by (f : D -> D) (now : T) (v r : load_vec C) : load_vec C :=
  zip_with (fun c x => dc_adjust (f (snd (dc_get now rate x))) c) v r.

Lemma vec_add_eq now (v r : load_vec C) : length v = length r ->
  vec_add now rate v r = (adjust_by (fun v : D => v) now v r, map (fun x => fst (dc_get now rate x)) r).
Proof.
  revert r. induction v as [|c v IH]; intros [|x r] Hl; simpl in *; try done.
  destruct (dc_get now rate x) as [x' dx] eqn:E. rewrite IH by lia. done.
Qed.

Lemma vec_sub_eq now (v r : load_vec C) : length v = length r ->
  vec_sub now rate v r =
  (adjust_by (d_sub d_zero) now v r, map (fun x => fst (dc_get now rate x)) r).
Proof.
  revert r. induction v as [|c v IH]; intros [|x r] Hl; simpl in *; try done.
  destruct (dc_get now rate x) as [x' dx] eqn:E. rewrite IH by lia. done.
Qed.

Definition read_vec (now : T) (r : load_vec C) : load_vec C :=
  map (fun x => fst (dc_get now rate x)) r.

Lemma adjust_by_read f now v r :
  get_stable now -> adjust_by f now v (read_vec now r) = adjust_by f now v r.
Proof.
  intros Hs. unfold adjust_by, read_vec. revert v.
  induction r as [|x r IH]; intros [|c v]; simpl; try done. by rewrite Hs, IH.
Qed.

Lemma read_vec_idem now r : get_stable now -> read_vec now (read_vec now r) = read_vec now r.
Proof.
  intros Hs. unfold read_vec. rewrite map_map. apply map_ext. intros x. by rewrite Hs.
Qed.

Definition shifted (f : D -> D) (now : T) (load : load_vec C) (d : pdir C T) : pdir C T :=
  set_pops d (pd_pop_me d) (adjust_by f now (pd_pop_nested d) load) (pd_pop_auth_subtree d)
    (adjust_by f now (pd_pop_auth_subtree_nested d) load).

(** The walk of an export or an import over the parents. *)
Lemma shift_parents_effect op f now load :
  get_stable now -> length load = 5%nat ->
  (forall v r, length v = length r -> op v r = (adjust_by f now v r, read_vec now r)) ->
  forall fuel up l dirs sub, chain dirs up l -> (length l < fuel)%nat ->
  (sub = load \/ sub = read_vec now load) ->
  (forall x e, x ∈ l -> dirs !! x = Some e -> pops_ok e) ->
  exists dirs', shift_parents op fuel sub (Some up) dirs = Some (Ok dirs') /\
    forall x, dirs' !! x = if bool_decide (x ∈ l) then shifted f now load <$> dirs !! x else dirs !! x.
Proof.
  intros Hs Hload Hop. induction fuel as [|fuel IH]; intros up l dirs sub Hc Hf Hsub Hok; [lia|].
  pose proof (chain_nodup _ _ _ Hc) as Hnd. destruct (chain_head _ _ _ Hc) as [Hin [d Ed]].
  destruct (Hok up d Hin Ed) as (_ & Hn & _ & Hsn). simpl. rewrite Ed.
  assert (length sub = 5%nat) as Hls.
  { destruct Hsub as [->| ->]; [done|]. unfold read_vec. by rewrite length_map. }
  assert (forall v, adjust_by f now v sub = adjust_by f now v load) as Hadj.
  { intros v. destruct Hsub as [->| ->]; [done|by apply adjust_by_read]. }
  assert (read_vec now sub = read_vec now load) as Hrd.
  { destruct Hsub as [->| ->]; [done|by apply read_vec_idem]. }
  rewrite Hop by lia. rewrite Hop by (unfold read_vec; rewrite length_map; lia).
  rewrite Hrd, read_vec_idem, adjust_by_read, !Hadj by done.
  change (set_pops d (pd_pop_me d) (adjust_by f now (pd_pop_nested d) load) (pd_pop_auth_subtree d)
    (adjust_by f now (pd_pop_auth_subtree_nested d) load)) with (shifted f now load d).
  inversion Hc as [id' d0 Ed0 P|id' d0 u l' Ed0 P Hc']; subst; simplify_eq; rewrite P.
  - destruct fuel as [|fuel]; [simpl in Hf; lia|]. simpl. eexists. split; [done|].
    intros x. destruct (decide (x = up)) as [->|N].
    + rewrite bool_decide_true by set_solver. by rewrite lookup_insert_eq, Ed.
    + rewrite bool_decide_false by set_solver. by rewrite lookup_insert_ne.
  - apply NoDup_cons in Hnd as [Hnin _].
    destruct (IH u l' (<[up := shifted f now load d]> dirs) (read_vec now load)) as (dirs' & E & Hl).
    { by eapply chain_insert. }
    { simpl in Hf. lia. } { by right. }
    { intros x e Hx. rewrite lookup_insert_ne by (by intros <-). apply Hok. by right. }
    exists dirs'. split; [exact E|]. intros x. rewrite Hl. destruct (decide (x = up)) as [->|N].
    + rewrite (bool_decide_false (up ∈ l')) by done. rewrite bool_decide_true by set_solver.
      by rewrite lookup_insert_eq, Ed.
    + rewrite lookup_insert_ne by done. do 2 case_bool_decide; set_solver.
Qed.

(** Exporting (importing) a subtree takes off (adds) its load, as read at that time, from
    the nested counters of every directory above it, and changes no other directory and no
    other counter: the subtree itself keeps its own. *)
Theorem export_import_effect fuel now id d up l dirs :
  get_stable now -> dirs !! id = Some d -> pd_parent d = Some up -> chain dirs up l ->
  (length l < fuel)%nat -> pops_ok d ->
  (forall x e, x ∈ l -> dirs !! x = Some e -> pops_ok e) ->
  (exists dirs', subtract_export rate fuel now id dirs = Some (Ok dirs') /\
     forall x, dirs' !! x = if bool_decide (x ∈ l)
       then shifted (d_sub d_zero) now (pd_pop_auth_subtree d) <$> dirs !! x else dirs !! x) /\
  (exists dirs', add_import rate fuel now id dirs = Some (Ok dirs') /\
     forall x, dirs' !! x = if bool_decide (x ∈ l)
       then shifted (fun v : D => v) now (pd_pop_auth_subtree d) <$> dirs !! x else dirs !! x).
Proof.
  intros Hs Ed Ep Hc Hf Hd Hok. unfold subtract_export, add_import. rewrite Ed, Ep.
  split; apply shift_parents_effect; auto; try apply Hd.
  - intros. by apply vec_sub_eq.
  - intros. by apply vec_add_eq.
Qed.

End PopFacts.

(** ** do_fragmenting

    [frag_t] is not part of the sources: the class lists what is called.  The queued
    identities are numbered in the order of the [dirfrag_t] keys. *)

Class FragTree (F : Type) := {
  fr_root : F;
  fr_sibling : F -> F;
  fr_parent : F -> F;
  fr_bits : F -> nat
}.

(** Outside the root, the parent is a shorter prefix. *)
Class FragTreeOk (F : Type) `{FragTree F} : Prop :=
  fr_parent_bits : forall f : F, f <> fr_root -> (fr_bits (fr_parent f) < fr_bits f)%nat.

Inductive frag_effect (F : Type) :=
| SplitDir (dir : Z) (bits : Z)
| MergeDir (ino : Z) (fg : F).
Arguments SplitDir {F}.
Arguments MergeDir {F}.

Section Fragmenting.
Context {F : Type} `{FragTree F} `{EqDecision F}.

Record frag_view := mk_frag_view { fv_auth : bool; fv_ino : Z; fv_frag : F }.

(** [get_dirfrag] and, for [get_dirfrags_under], whether all fragments under one are in
    cache and [(is_auth, should_merge)] of those that are *)
Context (get_dirfrag : Z -> option frag_view).
Context (under : Z -> F -> bool * list (bool * bool)).
Context (split_bits : Z).

(** The siblings of [fg] can be merged with it (lines 638-656). *)
Definition sibs_merge (ino : Z) (fg : F) : bool :=
  let '(complete, sibs) := under ino (fr_sibling fg) in
  complete && forallb (fun s => fst s && snd s) sibs.

(** the loop of lines 637-659 *)
Fixpoint climb (fuel : nat) (ino : Z) (fg : F) : option F :=
  match fuel with
  | O => None
  | S fuel =>
      if bool_decide (fg = fr_root) then Some fg
      else if sibs_merge ino fg then climb fuel ino (fr_parent fg) else Some fg
  end.

Definition split_one (id : Z) : list (frag_effect F) :=
  match get_dirfrag id with
  | Some v => if fv_auth v then [SplitDir id split_bits] else []
  | None => []
  end.

Definition merge_one (id : Z) : option (list (frag_effect F)) :=
  match get_dirfrag id with
  | Some v =>
      if negb (fv_auth v) || bool_decide (fv_frag v = fr_root) then Some []
      else
        fg ← climb (S (fr_bits (fv_frag v))) (fv_ino v) (fv_frag v);
        Some (if bool_decide (fg = fv_frag v) then [] else [MergeDir (fv_ino v) fg])
  | None => Some []
  end.

(** The new queues and the calls to [MDCache]. *)
Definition do_fragmenting (split_queue merge_queue : gset Z)
  : option (gset Z * gset Z * list (frag_effect F)) :=
  let splits := flat_map split_one (ordered_elems split_queue) in
  merges ← mapM merge_one (ordered_elems merge_queue);
  Some (∅, ∅, splits ++ concat merges).

Lemma climb_spec `{!FragTreeOk F} ino : forall fuel fg, (fr_bits fg < fuel)%nat ->
  exists n, climb fuel ino fg = Some (Nat.iter n fr_parent fg) /\
    (forall k, (k < n)%nat -> Nat.iter k fr_parent fg <> fr_root /\
                           sibs_merge ino (Nat.iter k fr_parent fg) = true) /\
    (Nat.iter n fr_parent fg = fr_root \/ sibs_merge ino (Nat.iter n fr_parent fg) = false).
Proof.
  induction fuel as [|fuel IH]; intros fg Hf; [lia|]. simpl. case_bool_decide as Hr.
  { exists O. split_and!; [done|lia|by left]. }
  destruct (sibs_merge ino fg) eqn:Es.
  2: { exists O. split_and!; [done|lia|by right]. }
  pose proof (fr_parent_bits fg Hr). destruct (IH (fr_parent fg)) as (n & E & Hk & Hend); [lia|].
  exists (S n). rewrite !Nat.iter_succ_r. split_and!; [done| |done].
  intros [|k] Hlt; [done|]. rewrite Nat.iter_succ_r. apply Hk. lia.
Qed.

Lemma split_one_spec id e : e ∈ split_one id <->
  e = SplitDir id split_bits /\ exists v, get_dirfrag id = Some v /\ fv_auth v = true.
Proof.
  unfold split_one. destruct (get_dirfrag id) as [v|]; [destruct (fv_auth v) eqn:Ea|].
  - rewrite list_elem_of_singleton. split; [intros ->; eauto|by intros [-> _]].
  - rewrite elem_of_nil. split; [done|]. intros (_ & v' & [= <-] & ?). congruence.
  - rewrite elem_of_nil. split; [done|]. by intros (_ & v' & [=] & _).
Qed.

(** [n] levels up is where the climb from [fg] ends. *)
Definition climbs (ino : Z) (fg : F) (n : nat) : Prop :=
  (forall k, (k < n)%nat -> Nat.iter k fr_parent fg <> fr_root /\
     sibs_merge ino (Nat.iter k fr_parent fg) = true) /\
  (Nat.iter n fr_parent fg = fr_root \/ sibs_merge ino (Nat.iter n fr_parent fg) = false).

Lemma climbs_det ino fg n m : climbs ino fg n -> climbs ino fg m -> n = m.
Proof.
  intros [Hn En] [Hm Em]. destruct (Nat.lt_trichotomy n m) as [L|[->|L]]; [|done|].
  - destruct (Hm n L), En; congruence.
  - destruct (Hn m L), Em; congruence.
Qed.

Lemma merge_one_spec `{!FragTreeOk F} id :
  exists es, merge_one id = Some es /\ forall e, e ∈ es <->
    exists v n, get_dirfrag id = Some v /\ fv_auth v = true /\ climbs (fv_ino v) (fv_frag v) n /\
      Nat.iter n fr_parent (fv_frag v) <> fv_frag v /\
      e = MergeDir (fv_ino v) (Nat.iter n fr_parent (fv_frag v)).
Proof.
  unfold merge_one. destruct (get_dirfrag id) as [v|].
  2: { exists []. split; [done|]. intros e. rewrite elem_of_nil.
       split; [done|]. by intros (v' & m & [=] & _). }
  destruct (fv_auth v) eqn:Ea; cbn [negb orb].
  2: { exists []. split; [done|]. intros e. rewrite elem_of_nil.
       split; [done|]. intros (v' & m & [= <-] & ? & _). congruence. }
  destruct (climb_spec (fv_ino v) (S (fr_bits (fv_frag v))) (fv_frag v)) as (n & Ec & Hk & He); [lia|].
  assert (climbs (fv_ino v) (fv_frag v) n) as Hn by done.
  case_bool_decide as Hr.
  { exists []. split; [done|]. intros e. rewrite elem_of_nil. split; [done|].
    intros (v' & m & [= <-] & _ & Hm & Hne & _).
    destruct m as [|m]; [done|]. destruct Hm as [Hm _]. destruct (Hm O); [lia|done]. }
  rewrite Ec. simpl. case_bool_decide as Hb; (eexists; split; [done|]); intros e.
  - rewrite elem_of_nil. split; [done|]. intros (v' & m & [= <-] & _ & Hm & Hne & _).
    by rewrite (climbs_det _ _ _ _ Hm Hn) in Hne.
  - rewrite list_elem_of_singleton. split.
    + intros ->. by exists v, n.
    + intros (v' & m & [= <-] & _ & Hm & Hne & ->). by rewrite (climbs_det _ _ _ _ Hm Hn).
Qed.

Lemma merge_all_total `{!FragTreeOk F} l :
  mapM merge_one l = Some (map (fun id => default [] (merge_one id)) l).
Proof.
  induction l as [|id l IH]; [done|]. simpl.
  destruct (merge_one_spec id) as (es & -> & _). by rewrite IH.
Qed.

Lemma do_fragmenting_total `{!FragTreeOk F} sq mq :
  exists es, do_fragmenting sq mq = Some (∅, ∅, es).
Proof. unfold do_fragmenting. rewrite merge_all_total. eauto. Qed.

(** [do_fragmenting] empties both queues and always returns; it asks for a split of
    exactly the queued fragments that are in cache and authoritative, and for a merge up to the
    fragment reached by climbing as long as all siblings are in cache, authoritative and small,
    for exactly those authoritative queued fragments that climb at least one level. *)
Theorem do_fragmenting_spec `{!FragTreeOk F} sq mq :
  exists es, do_fragmenting sq mq = Some (∅, ∅, es) /\
    (forall id b, SplitDir id b ∈ es <->
       id ∈ sq /\ b = split_bits /\ exists v, get_dirfrag id = Some v /\ fv_auth v = true) /\
    (forall ino fg, MergeDir ino fg ∈ es <->
       exists id v n, id ∈ mq /\ get_dirfrag id = Some v /\ fv_auth v = true /\
         fv_ino v = ino /\ climbs ino (fv_frag v) n /\
         fg = Nat.iter n fr_parent (fv_frag v) /\ fg <> fv_frag v).
Proof.
  set (m1 id := default [] (merge_one id)).
  unfold do_fragmenting. rewrite merge_all_total. eexists. split; [done|]. fold m1.
  assert (forall e, e ∈ flat_map split_one (ordered_elems sq) ++ concat (map m1 (ordered_elems mq)) <->
    (exists id, id ∈ sq /\ e ∈ split_one id) \/ (exists id, id ∈ mq /\ e ∈ m1 id)) as Hin.
  { intros e. rewrite <- flat_map_concat_map, elem_of_app, !list_elem_of_In, !in_flat_map.
    setoid_rewrite <- list_elem_of_In. by setoid_rewrite elem_of_ordered_elems. }
  assert (forall id e, e ∈ m1 id <-> exists v n, get_dirfrag id = Some v /\ fv_auth v = true /\
      climbs (fv_ino v) (fv_frag v) n /\ Nat.iter n fr_parent (fv_frag v) <> fv_frag v /\
      e = MergeDir (fv_ino v) (Nat.iter n fr_parent (fv_frag v))) as Hm.
  { intros id e. unfold m1. destruct (merge_one_spec id) as (es & -> & He). apply He. }
  split; intros; rewrite Hin; setoid_rewrite split_one_spec; setoid_rewrite Hm.
  - split.
    + intros [(x & ? & [= -> ->] & ?)|(x & ? & v & n & _ & _ & _ & _ & [=])]. done.
    + intros (? & -> & ?). left. eauto.
  - split.
    + intros [(x & ? & [=] & ?)|(x & ? & v & n & ? & ? & ? & ? & [= -> ->])]. by exists x, v, n.
    + intros (x & v & n & ? & ? & ? & <- & ? & -> & ?). right. exists x. split; [done|]. by exists v, n.
Qed.

End Fragmenting.

(** ** Concrete cases *)

(** Fragments as bit strings, the last bit first. *)
#[export] Instance bits_frag : FragTree (list bool) := {
  fr_root := [];
  fr_sibling := fun f => match f with [] => [] | b :: f' => negb b :: f' end;
  fr_parent := @tail bool;
  fr_bits := @length bool
}.

#[export] Instance bits_frag_ok : FragTreeOk (list bool).
Proof. intros [|b f] Hf; [by destruct Hf|simpl; lia]. Qed.

Lemma do_fragmenting_spec_witness :
  exists es, do_fragmenting (fun _ => Some (mk_frag_view true 9 [true; false]))
    (fun _ _ => (true, [(true, true)])) 3 {[ 1 ]} {[ 2 ]} = Some (∅, ∅, es).
Proof.
  destruct (do_fragmenting_spec (fun _ => Some (mk_frag_view true 9 [true; false]))
    (fun _ _ => (true, [(true, true)])) 3 {[ 1 ]} {[ 2 ]}) as (es & E & _).
  exists es. exact E.
Defined.

Definition pops_ex : load_vec Q := replicate 5 1%Q.

Definition pdir_ex (auth root : bool) (parent : option Z) : pdir Q Z :=
  mk_pdir pops_ex pops_ex pops_ex pops_ex (spread_new (D := Q) (R := unit) 0) 0 0 auth false root
    false true 5 0 parent.

(** 3 below the subtree root 2 below 1. *)
Definition dirs_ex : gmap Z (pdir Q Z) :=
  {[ 1 := pdir_ex true false None; 2 := pdir_ex true true (Some 1);
     3 := pdir_ex true false (Some 2) ]}.

Definition hit_conf_ex : hit_conf Q :=
  mk_hit_conf true 5 10000 50 25000%Q 10000%Q 8000%Q 0%Q.

Lemma chain_ex : chain dirs_ex 3 [3; 2; 1].
Proof.
  eapply chain_up; [reflexivity|reflexivity|].
  eapply chain_up; [reflexivity|reflexivity|]. eapply chain_root; reflexivity.
Qed.

Lemma hit_dir_effect_witness :
  exists s', hit_dir hit_conf_ex tt 3 1 0 2 3 META_POP_IWR 7 1%Q (mk_pop dirs_ex ∅ ∅ []) =
    Some (Ok s') /\ ps_updates s' = [].
Proof.
  destruct (hit_dir_effect hit_conf_ex tt 3 1 0 2 3 (pdir_ex true false (Some 2)) META_POP_IWR 7 1%Q
    (mk_pop dirs_ex ∅ ∅ []) [3; 2; 1]) as (s' & E & Eu & _).
  - exact chain_ex.
  - simpl. lia.
  - unfold META_POP_IWR. lia.
  - intros x e Hx. rewrite !elem_of_cons in Hx.
    destruct Hx as [->|[->|[->|Hx]]]; [..|by apply elem_of_nil in Hx];
      vm_compute; intros [= <-]; by split_and!.
  - reflexivity.
  - exists s'. split; [exact E|exact Eu].
Defined.

Lemma export_import_effect_witness :
  (exists dirs', subtract_export (D := Q) tt 3 5 3 dirs_ex = Some (Ok dirs')) /\
  (exists dirs', add_import (D := Q) tt 3 5 3 dirs_ex = Some (Ok dirs')).
Proof.
  destruct (export_import_effect (D := Q) tt 3 5 3 (pdir_ex true false (Some 2)) 2 [2; 1] dirs_ex)
    as [(d1 & E1 & _) (d2 & E2 & _)].
  - intros c. reflexivity.
  - reflexivity.
  - reflexivity.
  - eapply chain_up; [reflexivity|reflexivity|]. eapply chain_root; reflexivity.
  - simpl. lia.
  - by split_and!.
  - intros x e Hx. rewrite !elem_of_cons in Hx.
    destruct Hx as [->|[->|Hx]]; [..|by apply elem_of_nil in Hx];
      vm_compute; intros [= <-]; by split_and!.
  - split; [by exists d1|by exists d2].
Defined.
