(* ===== verification/Balancer.v ===== *)
(** * The balancer (MDBalancer.cc)

    The state of [MDBalancer] and its handlers: the tick, the load a rank reports, the
    heartbeat exchange, [prep_rebalance] and the Lua balancer.  What the handlers read of the
    rest of the daemon (MDS map, cache, messenger, clock, /proc/stat) is the record [env]; the
    calls they make to it are the trace of [effect]s. *)

From stdpp Require Import base tactics numbers list gmap strings sorting.
From Stdlib Require Import ZArith QArith Qminmax Lqa Lia.
From S2P Require Import Prelude Double Stats LoadVec Matching LuaGlue Exports Popularity.
Open Scope Z_scope.

(** What is used of [utime_t]: [sec()], the conversion to [double] and [-=]. *)
Class BalTime (T D : Type) `{UTime T} := {
  bt_sec : T -> Z;
  bt_double : T -> D;
  bt_minus : T -> T -> T
}.

Record bal_conf (D : Type) := mk_bal_conf {
  bc_metaload : string;
  bc_mdsload : string;
  bc_when : string;
  bc_where : string;
  bc_lua : Z;
  bc_mode : Z;
  bc_sample_interval : D;
  bc_interval : Z;
  bc_max : Z;
  bc_max_until : Z;
  bc_frag : bool;
  bc_thrash_fragments : bool;
  bc_fragment_interval : Z;
  bc_split_bits : Z;
  bc_min_rebalance : D;
  bc_export : export_conf D;
  bc_rebalance : rebalance_conf D;
  bc_dfs : dfs_conf D
}.
Arguments bc_metaload {D}.
Arguments bc_mdsload {D}.
Arguments bc_when {D}.
Arguments bc_where {D}.
Arguments bc_lua {D}.
Arguments bc_mode {D}.
Arguments bc_sample_interval {D}.
Arguments bc_interval {D}.
Arguments bc_max {D}.
Arguments bc_max_until {D}.
Arguments bc_frag {D}.
Arguments bc_thrash_fragments {D}.
Arguments bc_fragment_interval {D}.
Arguments bc_split_bits {D}.
Arguments bc_min_rebalance {D}.
Arguments bc_export {D}.
Arguments bc_rebalance {D}.
Arguments bc_dfs {D}.
Arguments mk_bal_conf {D}.

Section Balancer.
Context {C T R D F : Type} `{DecayCounter C T R D} `{CDouble D} `{LuaVM D} `{BalTime T D}.
Context `{FragTree F} `{EqDecision F}.
Context (strtod_special : string -> option D).

(** ** State and environment *)

Record cpu_state := mk_cpu { cpu_load_avg : D; cpu_work_prev : D; cpu_total_prev : D }.

Record balancer := mk_bal {
  beat_epoch : Z;
  last_epoch_under : Z;
  last_epoch_over : Z;
  last_heartbeat : T;
  last_fragment : T;
  last_sample : T;
  rebalance_time : T;
  b_cpu : cpu_state;
  total_meta_load : D;
  b_split_queue : gset Z;
  b_merge_queue : gset Z;
  b_mds_load : gmap Z (mds_load_t C D);
  b_nfiles : D;
  my_load : D;
  b_match : match_state D;
  old_prev_targets : gmap Z Z;
  (* the static locals of tick() *)
  num_bal_times : option Z;
  first_tick : option T
}.

Definition bal_new (zero_cpu := mk_cpu d_zero d_zero d_zero) : balancer :=
  mk_bal 0 0 0 ut_zero ut_zero ut_zero ut_zero zero_cpu d_zero ∅ ∅ ∅ d_zero d_zero
    (mk_match d_zero ∅ ∅ ∅ ∅ ∅) ∅ None None.

(** A fragment of the root directory: [pop_auth_subtree_nested] and [pop_nested]. *)
Record root_frag := mk_root_frag { rf_auth : load_vec C; rf_all : load_vec C }.

(** A subtree this rank is authoritative for: the rank its inode belongs to, whether the
    inode is stray, and the load of [pop_auth_subtree]. *)
Record auth_sub := mk_auth_sub { as_from : Z; as_stray : bool; as_pop : D }.

Record env := mk_env {
  e_whoami : Z;
  e_active : bool;
  e_degraded : bool;
  e_open : bool;
  e_num_in : Z;
  e_mds_set : gset Z;
  e_up_set : gset Z;
  e_export_targets : gset Z;
  e_now : T;
  e_rate : R;
  e_root : option (list root_frag);
  e_auth_subs : list auth_sub;
  e_fullauth : list (cdir D);
  e_view : Z -> list (cdir D);
  e_req_rate : D;
  e_queue_len : Z;
  e_proc_stat : option (list string);
  e_log_file : string;
  e_ret0 : string;
  e_get_dirfrag : Z -> option (frag_view (F := F));
  e_under : Z -> F -> bool * list (bool * bool)
}.

Inductive effect :=
| SendHeartbeat (dest : Z) (load : mds_load_t C D) (beat : Z) (imports : gmap Z D)
| RetryHeartbeatWhenOpen
| RetryMessageWhenOpen
| ClearExportQueue
| Bal (e : bal_effect)
| Frag (e : frag_effect F).

Context (conf : bal_conf D).

(** ** get_load *)

(** the words of the first line of /proc/stat; a failed extraction leaves [temp] alone *)
Definition stat_word (ws : list string) (i : nat) : string :=
  match ws !! i with Some w => w | None => default EmptyString (last ws) end.

(** lines 254-295; the map is walked in the order of its keys: idle, iowait, irq, nice,
    softirq, steal, sys, usr *)
Definition cpu_sample (ws : list string) (c : cpu_state) : cpu_state :=
  let v i := atof strtod_special (stat_word ws i) in
  let usr := v 1%nat in let nice := v 2%nat in let sys := v 3%nat in let idle := v 4%nat in
  let iowait := v 5%nat in let irq := v 6%nat in let softirq := v 7%nat in
  let steal := v 8%nat in
  let total := d_sum [idle; iowait; irq; nice; softirq; steal; sys; usr] in
  let work := d_sum [nice; sys; usr] in
  let work_period := (work - cpu_work_prev c)%dbl in
  let total_period := (total - cpu_total_prev c)%dbl in
  if (total_period >? d_of_Z 100)%dbl && (work_period >? d_of_Z 100)%dbl
  then mk_cpu (d_of_Z 100 * work_period / total_period)%dbl work total
  else c.

(** The load, the new processor statistics and the counters of the root fragments, which
    decay as they are read. *)
Definition get_load (e : env) (cpu : cpu_state)
  : mds_load_t C D * cpu_state * option (list root_frag) :=
  let load := mds_load_new (e_now e) in
  let '(auth, all, root) :=
    match e_root e with
    | Some fs =>
        let '(auth, all, fs) := fold_left (fun acc f =>
          let '(auth, all, fs) := acc in
          let '(auth, a') := vec_add (e_now e) (e_rate e) auth (rf_auth f) in
          let '(all, b') := vec_add (e_now e) (e_rate e) all (rf_all f) in
          (auth, all, fs ++ [mk_root_frag a' b'])) fs (ml_auth load, ml_all load, []) in
        (auth, all, Some fs)
    | None => (ml_auth load, ml_all load, None)
    end in
  let cpu := match e_proc_stat e with Some ws => cpu_sample ws cpu | None => cpu end in
  (mk_mds_load auth all (e_req_rate e) (ml_cache_hit_rate load) (d_of_Z (e_queue_len e))
     (match e_proc_stat e with Some _ => cpu_load_avg cpu | None => ml_cpu_load_avg load end),
   cpu, root).

(** ** send_heartbeat *)

Definition set_match (f : match_state D -> match_state D) (b : balancer) : balancer :=
  mk_bal (beat_epoch b) (last_epoch_under b) (last_epoch_over b) (last_heartbeat b)
    (last_fragment b) (last_sample b) (rebalance_time b) (b_cpu b) (total_meta_load b)
    (b_split_queue b) (b_merge_queue b) (b_mds_load b) (b_nfiles b) (my_load b)
    (f (b_match b)) (old_prev_targets b) (num_bal_times b) (first_tick b).

Definition set_loads (epoch : Z) (cpu : cpu_state) (loads : gmap Z (mds_load_t C D))
    (b : balancer) : balancer :=
  mk_bal epoch (last_epoch_under b) (last_epoch_over b) (last_heartbeat b)
    (last_fragment b) (last_sample b) (rebalance_time b) cpu (total_meta_load b)
    (b_split_queue b) (b_merge_queue b) loads (b_nfiles b) (my_load b)
    (b_match b) (old_prev_targets b) (num_bal_times b) (first_tick b).

Definition set_import_map (who : Z) (im : gmap Z D) (m : match_state D) : match_state D :=
  mk_match (target_load m) (mds_meta_load m) (<[who := im]> (mds_import_map m))
    (my_targets m) (imported m) (exported m).

(** lines 327-338; the values are [float]s *)
Definition import_map_of (e : env) : gmap Z D :=
  fold_left (fun m s =>
    if as_from s =? e_whoami e then m
    else if as_stray s then m
    else <[as_from s := d_float (at0 (as_from s) m + as_pop s)%dbl]> m)
    (e_auth_subs e) ∅.

Definition send_heartbeat (e : env) (b : balancer) : balancer * list effect :=
  if e_degraded e then (b, [])
  else if negb (e_open e) then (b, [RetryHeartbeatWhenOpen])
  else
    let epoch := if e_whoami e =? 0 then s32 (beat_epoch b + 1) else beat_epoch b in
    let '(load, cpu, _) := get_load e (b_cpu b) in
    let b := set_loads epoch cpu {[ e_whoami e := load ]} b in
    let im := import_map_of e in
    let b := set_match (set_import_map (e_whoami e) im) b in
    (b, map (fun p => SendHeartbeat p load epoch im)
          (filter (fun p => p <> e_whoami e) (ordered_elems (e_mds_set e)))).

(** ** prep_rebalance *)

(** lines 695-705: the factor that turns MDS load into metadata load units *)
Definition rescale (e : env) (loads : gmap Z (mds_load_t C D))
  : res (gmap Z (mds_load_t C D) * D) :=
  match loads !! e_whoami e with
  | None => Ok (loads, d_of_Z 1)
  | Some m =>
      l ← mds_load (bc_metaload conf) (bc_mode conf) m;
      if (l >? d_zero)%dbl then
        let '(auth, metald) := meta_load (bc_metaload conf) (e_now e) (e_rate e) (ml_auth m) in
        let m := mk_mds_load auth (ml_all m) (ml_req_rate m) (ml_cache_hit_rate m)
                   (ml_queue_len m) (ml_cpu_load_avg m) in
        mdsld ← mds_load (bc_metaload conf) (bc_mode conf) m;
        Ok (<[e_whoami e := m]> loads, (metald / mdsld)%dbl)
      else Ok (loads, d_of_Z 1)
  end.

Record rank_acc := mk_rank_acc {
  ra_loads : gmap Z (mds_load_t C D);
  ra_meta : gmap Z D;
  ra_my_load : D;
  ra_total : D;
  ra_load_map : list (D * Z)
}.

(** lines 709-727, one rank; a missing load is inserted empty *)
Definition note_rank (e : env) (load_fac : D) (a : rank_acc) (i : Z) : res rank_acc :=
  let load := match ra_loads a !! i with Some l => l | None => mds_load_new (e_now e) end in
  l ← mds_load (bc_metaload conf) (bc_mode conf) load;
  let l := (l * load_fac)%dbl in
  Ok (mk_rank_acc (<[i := load]> (ra_loads a)) (<[i := d_float l]> (ra_meta a))
        (if e_whoami e =? i then l else ra_my_load a) (ra_total a + l)%dbl
        (mm_insert l i (ra_load_map a))).

Fixpoint note_ranks (e : env) (load_fac : D) (ranks : list Z) (a : rank_acc) : res rank_acc :=
  match ranks with
  | [] => Ok a
  | i :: ranks' => a ← note_rank e load_fac a i; note_ranks e load_fac ranks' a
  end.

Definition all_ranks (cluster_size : Z) : list Z :=
  map Z.of_nat (seq 0 (Z.to_nat cluster_size)).

Definition set_prep (time : T) (under over : Z) (loads : gmap Z (mds_load_t C D)) (mine : D)
    (m : match_state D) (b : balancer) : balancer :=
  mk_bal (beat_epoch b) under over (last_heartbeat b) (last_fragment b) (last_sample b) time
    (b_cpu b) (total_meta_load b) (b_split_queue b) (b_merge_queue b) loads (b_nfiles b) mine m
    (old_prev_targets b) (num_bal_times b) (first_tick b).

(** Everything before [try_rebalance]; the flag tells whether it is reached.  [None]: the
    matching used up its bound. *)
Definition prep_targets (fuel : nat) (e : env) (beat : Z) (b : balancer)
  : res (option (balancer * list effect * bool)) :=
  let m0 := b_match b in
  if mds_thrash_exports (bc_rebalance conf) then
    let tg := fold_left (fun tg i => <[i := d_zero]> tg) (ordered_elems (e_up_set e)) ∅ in
    Ok (Some (set_match (fun m => mk_match (target_load m) (mds_meta_load m)
                (mds_import_map m) tg (imported m) (exported m)) b, [], true))
  else
    r ← rescale e (b_mds_load b);
    let '(loads, load_fac) := (r : gmap Z (mds_load_t C D) * D) in
    a ← note_ranks e load_fac (all_ranks (e_num_in e))
          (mk_rank_acc loads (mds_meta_load m0) (my_load b) d_zero []);
    let target := (ra_total a / d_of_Z (e_num_in e))%dbl in
    let m := mk_match target (ra_meta a) (mds_import_map m0) ∅ ∅ ∅ in
    let b' under over m := set_prep (e_now e) under over (ra_loads a) (ra_my_load a) m b in
    if (ra_my_load a <? target * (d_of_Z 1 + bc_min_rebalance conf))%dbl
    then Ok (Some (b' (beat_epoch b) (last_epoch_over b) m, [ClearExportQueue], false))
    else if negb (last_epoch_under b =? 0) && (s32 (beat_epoch b - last_epoch_under b) <? 2)
    then Ok (Some (b' (last_epoch_under b) (beat_epoch b) m, [ClearExportQueue], false))
    else
      match determine_targets fuel beat (e_whoami e) (ra_load_map a) m with
      | None => Ok None
      | Some m => Ok (Some (b' (last_epoch_under b) (beat_epoch b) m, [ClearExportQueue], true))
      end.

Definition set_old (old : gmap Z Z) (b : balancer) : balancer :=
  mk_bal (beat_epoch b) (last_epoch_under b) (last_epoch_over b) (last_heartbeat b)
    (last_fragment b) (last_sample b) (rebalance_time b) (b_cpu b) (total_meta_load b)
    (b_split_queue b) (b_merge_queue b) (b_mds_load b) (b_nfiles b) (my_load b)
    (b_match b) old (num_bal_times b) (first_tick b).

Definition run_try (e : env) (b : balancer) : res (balancer * list effect) :=
  r ← try_rebalance strtod_special (bc_export conf) (bc_rebalance conf) (e_ret0 e) (e_whoami e)
        (e_export_targets e) (my_targets (b_match b)) (old_prev_targets b)
        (e_fullauth e) (e_view e);
  let '(old, es) := (r : gmap Z Z * list bal_effect) in
  Ok (set_old old b, map Bal es).

Definition prep_rebalance (fuel : nat) (e : env) (beat : Z) (b : balancer)
  : res (option (balancer * list effect)) :=
  r ← prep_targets fuel e beat b;
  match r with
  | None => Ok None
  | Some (b, es, go) =>
      if (go : bool) then
        r ← run_try e b;
        let '(b, es') := (r : balancer * list effect) in Ok (Some (b, es ++ es'))
      else Ok (Some (b, es))
  end.

(** ** The Lua balancer *)

Fixpoint insert_ranks (now : T) (ranks : list Z) (loads : gmap Z (mds_load_t C D))
  : gmap Z (mds_load_t C D) :=
  match ranks with
  | [] => loads
  | i :: ranks' =>
      insert_ranks now ranks'
        (match loads !! i with Some _ => loads | None => <[i := mds_load_new now]> loads end)
  end.

(** the argument table of lines 911-990 *)
Definition custom_args (e : env) (b : balancer) (authload : D)
    (loads : gmap Z (mds_load_t C D)) : list (lua_val D) :=
  [LStr (e_log_file e); LNum (d_of_Z (s32 (e_whoami e) + 1)); LNum authload; LNum (b_nfiles b);
   LNum (total_meta_load b)] ++
  flat_map (fun i => match loads !! i with
    | Some l => rank_args (meta_load_last (bc_metaload conf)) l
    | None => []
    end) (all_ranks (e_num_in e)).

Definition custom_balancer (e : env) (b : balancer) : res (balancer * list effect) :=
  let m := b_match b in
  let b := set_prep (e_now e) (last_epoch_under b) (last_epoch_over b) (b_mds_load b) (my_load b)
             (mk_match (target_load m) (mds_meta_load m) (mds_import_map m) ∅ ∅ ∅) b in
  if bool_decide (prepare_option (bc_when conf) = EmptyString) ||
     bool_decide (prepare_option (bc_where conf) = EmptyString)
  then Ok (b, [ClearExportQueue])
  else
    match e_root e with
    | None => Abort
    | Some fs =>
        let authload := fold_left (fun acc f =>
          (acc + snd (meta_load (bc_metaload conf) (e_now e) (e_rate e) (rf_auth f)))%dbl)
          fs d_zero in
        let loads := insert_ranks (e_now e) (all_ranks (e_num_in e)) (b_mds_load b) in
        ret ← lua_answer (e_ret0 e)
                (lua_run (custom_script (bc_mdsload conf) (bc_when conf) (bc_where conf))
                   (custom_args e b authload loads));
        let tg := parse_targets strtod_special ret ∅ in
        let b := set_prep (e_now e) (last_epoch_under b) (last_epoch_over b) loads (my_load b)
                   (mk_match (target_load m) (mds_meta_load m) (mds_import_map m) tg ∅ ∅) b in
        r ← run_try e b;
        let '(b, es) := (r : balancer * list effect) in Ok (b, ClearExportQueue :: es)
    end.

(** [pause_balancer]: [reads] are the values of [mds_bal_lua] it finds, ten seconds apart;
    [None] while it waits *)
Fixpoint pause_balancer (reads : list Z) (e : env) (b : balancer)
  : option (res (balancer * list effect)) :=
  match reads with
  | [] => None
  | v :: reads' => if v =? 2 then pause_balancer reads' e b else Some (custom_balancer e b)
  end.

(** ** handle_heartbeat *)

Record heartbeat := mk_heartbeat {
  hb_source : Z;
  hb_beat : Z;
  hb_load : mds_load_t C D;
  hb_imports : gmap Z D
}.

Definition dump_loads (e : env) (b : balancer) : balancer :=
  mk_bal (beat_epoch b) (last_epoch_under b) (last_epoch_over b) (last_heartbeat b)
    (last_fragment b) (last_sample b) (rebalance_time b) (b_cpu b)
    (fst (dump_subtree_loads (bc_dfs conf) (e_fullauth e)))
    (b_split_queue b) (b_merge_queue b) (b_mds_load b) (b_nfiles b) (my_load b)
    (b_match b) (old_prev_targets b) (num_bal_times b) (first_tick b).

(** the decision of lines 405-423 *)
Definition rebalance_all (fuel : nat) (reads : list Z) (e : env) (beat : Z) (b : balancer)
  : res (option (balancer * list effect)) :=
  if Z.of_nat (size (b_mds_load b)) =? e_num_in e then
    let b := dump_loads e b in
    if bc_lua conf =? 0 then prep_rebalance fuel e beat b
    else if bc_lua conf =? 1 then r ← custom_balancer e b; Ok (Some r)
    else if bc_lua conf =? 2 then
      match pause_balancer reads e b with
      | None => Ok None
      | Some r => r ← r; Ok (Some r)
      end
    else Ok (Some (b, []))
  else Ok (Some (b, [])).

Definition handle_heartbeat (fuel : nat) (reads : list Z) (e : env) (m : heartbeat)
    (b : balancer) : res (option (balancer * list effect)) :=
  let who := s32 (hb_source m) in
  if negb (e_active e) then Ok (Some (b, []))
  else if negb (e_open e) then Ok (Some (b, [RetryMessageWhenOpen]))
  else if e_degraded e then Ok (Some (b, []))
  else
    let '(b, es) :=
      if who =? 0 then send_heartbeat e (set_loads (hb_beat m) (b_cpu b) (b_mds_load b) b)
      else (b, []) in
    let b := set_loads (beat_epoch b) (b_cpu b) (<[who := hb_load m]> (b_mds_load b)) b in
    let b := set_match (set_import_map who (hb_imports m)) b in
    r ← rebalance_all fuel reads e (hb_beat m) b;
    match r with
    | None => Ok None
    | Some (b, es') => Ok (Some (b, es ++ es'))
    end.

(** [proc_message]: any message but a heartbeat hits [assert(0)] *)
Definition proc_message (fuel : nat) (reads : list Z) (e : env) (m : option heartbeat)
    (b : balancer) : res (option (balancer * list effect)) :=
  match m with
  | Some m => handle_heartbeat fuel reads e m b
  | None => Abort
  end.

(** ** tick *)

Definition set_tick (hb frag sample : T) (n : Z) (first : T) (sq mq : gset Z) (b : balancer)
  : balancer :=
  mk_bal (beat_epoch b) (last_epoch_under b) (last_epoch_over b) hb frag sample
    (rebalance_time b) (b_cpu b) (total_meta_load b) sq mq (b_mds_load b) (b_nfiles b)
    (my_load b) (b_match b) (old_prev_targets b) (Some n) (Some first).

(** whether this tick sends a heartbeat *)
Definition beats (e : env) (n : Z) (elapsed hb : T) : bool :=
  (e_whoami e =? 0) && (0 <? bc_interval conf) &&
  (negb (n =? 0) || ((0 <=? bc_max_until conf) && (bc_max_until conf <? bt_sec elapsed))) &&
  e_active e && (bc_interval conf <=? bt_sec (e_now e) - bt_sec hb).

Definition tick (e : env) (b : balancer) : option (balancer * list effect) :=
  let now := e_now e in
  let n := default (bc_max conf) (num_bal_times b) in
  let first := default now (first_tick b) in
  let elapsed := bt_minus now first in
  let sample :=
    if (bt_double now - bt_double (last_sample b) >? bc_sample_interval conf)%dbl
    then now else last_sample b in
  let hb := if bool_decide (last_heartbeat b = ut_zero) then now else last_heartbeat b in
  let '(b, es) :=
    if beats e n elapsed hb then
      let b := set_tick now (last_fragment b) sample n first (b_split_queue b) (b_merge_queue b) b in
      let '(b, es) := send_heartbeat e b in
      (set_tick now (last_fragment b) sample (s32 (n - 1)) first
         (b_split_queue b) (b_merge_queue b) b, es)
    else (set_tick hb (last_fragment b) sample n first (b_split_queue b) (b_merge_queue b) b, []) in
  if (bc_frag conf || bc_thrash_fragments conf) && (0 <? bc_fragment_interval conf) &&
     (bc_fragment_interval conf <? bt_sec now - bt_sec (last_fragment b))
  then
    '(sq, mq, fs) ← do_fragmenting (e_get_dirfrag e) (e_under e) (bc_split_bits conf)
                      (b_split_queue b) (b_merge_queue b);
    Some (set_tick (last_heartbeat b) now (last_sample b) (default (bc_max conf) (num_bal_times b))
            first sq mq b, es ++ map Frag fs)
  else Some (b, es).

End Balancer.
Arguments balancer C T D : clear implicits.
Arguments env C T R D F : clear implicits.
Arguments effect C D F : clear implicits.
Arguments heartbeat C D : clear implicits.

(** ** Ticks *)

Section Ticks.
Context {C T R D F : Type} `{DecayCounter C T R D} `{CDouble D} `{LuaVM D} `{BalTime T D}.
Context `{FragTree F} `{EqDecision F} `{!FragTreeOk F}.
Context (strtod_special : string -> option D) (conf : bal_conf D).
Implicit Types (e : env C T R D F) (b : balancer C T D).

(** The test of [tick], on the state it finds. *)
Definition tick_beats e b : bool :=
  beats conf e (default (bc_max conf) (num_bal_times b))
    (bt_minus (e_now e) (default (e_now e) (first_tick b)))
    (if bool_decide (last_heartbeat b = ut_zero) then e_now e else last_heartbeat b).

Definition budget b : Z := default (bc_max conf) (num_bal_times b).

Lemma tick_total e b : exists b' es, tick strtod_special conf e b = Some (b', es).
Proof.
  unfold tick. cbv zeta. destruct (if beats _ _ _ _ _ then _ else _) as [b1 es1].
  destruct (_ && _); [|eauto].
  destruct (do_fragmenting_total (e_get_dirfrag e) (e_under e) (bc_split_bits conf)
    (b_split_queue b1) (b_merge_queue b1)) as [fs ->]. simpl. eauto.
Qed.

Lemma send_heartbeat_times e b :
  last_heartbeat (send_heartbeat strtod_special e b).1 = last_heartbeat b.
Proof.
  unfold send_heartbeat. destruct (e_degraded e), (e_open e); simpl; try done.
  by destruct (get_load _ _ _) as [[? ?] ?].
Qed.

Lemma tick_effect e b b' es :
  tick strtod_special conf e b = Some (b', es) ->
  budget b' = (if tick_beats e b then s32 (budget b - 1) else budget b) /\
  (tick_beats e b = true -> last_heartbeat b' = e_now e).
Proof.
  unfold tick, tick_beats, budget. cbv zeta.
  set (n := default (bc_max conf) (num_bal_times b)).
  set (first := default (e_now e) (first_tick b)).
  set (hb := if bool_decide _ then _ else _).
  set (sample := if d_lt _ _ then _ else _).
  destruct (beats conf e n _ hb) eqn:Eb.
  - set (b0 := set_tick _ _ _ _ _ _ _ _). destruct (send_heartbeat strtod_special e b0) as [b1 es1].
    destruct (_ && _).
    + destruct (do_fragmenting _ _ _ _ _) as [[[sq mq] fs]|]; simpl; [|done].
      intros [= <- <-]. done.
    + intros [= <- <-]. done.
  - destruct (_ && _).
    + destruct (do_fragmenting _ _ _ _ _) as [[[sq mq] fs]|]; simpl; [|done].
      intros [= <- <-]. done.
    + intros [= <- <-]. done.
Qed.

(** The heartbeats of a run of ticks. *)
Fixpoint run_ticks (envs : list (env C T R D F)) b : nat * balancer C T D :=
  match envs with
  | [] => (O, b)
  | e :: envs' =>
      match tick strtod_special conf e b with
      | None => (O, b)
      | Some (b', _) =>
          let '(n, b'') := run_ticks envs' b' in
          ((if tick_beats e b then S n else n), b'')
      end
  end.

(** With a limit [mds_bal_max] of at least zero and no [mds_bal_max_until], no run of
    ticks, however long, starts more heartbeat rounds than what is left of the limit; only rank
    zero starts them, and never two within [mds_bal_interval] seconds. *)
Theorem heartbeats_within_budget envs b :
  bc_max_until conf < 0 -> 0 <= budget b < 2 ^ 31 ->
  Z.of_nat (run_ticks envs b).1 <= budget b /\
  (forall e, tick_beats e b = true ->
     e_whoami e = 0 /\ e_active e = true /\
     (last_heartbeat b <> ut_zero ->
      bc_interval conf <= bt_sec (e_now e) - bt_sec (last_heartbeat b))).
Proof.
  intros Hu Hb0. split.
  - revert b Hb0. induction envs as [|e envs IH]; intros b Hb; simpl; [lia|].
    destruct (tick_total e b) as (b' & es & Et). rewrite Et.
    destruct (tick_effect e b b' es Et) as [Hbud _].
    destruct (run_ticks envs b') as [n b''] eqn:Er. specialize (IH b').
    destruct (tick_beats e b) eqn:Ebt.
    + assert (0 < budget b) as Hpos.
      { unfold tick_beats, beats in Ebt. rewrite !andb_true_iff in Ebt.
        destruct Ebt as [[[_ Hn] _] _]. fold (budget b) in Hn.
        apply orb_true_iff in Hn as [Hn|Hn].
        - apply negb_true_iff, Z.eqb_neq in Hn. lia.
        - apply andb_true_iff in Hn as [Hn _]. lia. }
      unfold s32 in Hbud. rewrite wrap_s_small in Hbud by lia.
      rewrite Er in IH. simpl in *. lia.
    + rewrite Er in IH. simpl in *. rewrite <- Hbud. apply IH. lia.
  - intros e Hbt. unfold tick_beats, beats in Hbt. rewrite !andb_true_iff in Hbt.
    destruct Hbt as [[[[Hw _] _] Ha] Hi]. split; [lia|]. split; [done|]. intros Hne.
    rewrite bool_decide_false in Hi by done. lia.
Qed.

End Ticks.

(** ** Rebalancing *)

Section Prep.
Context {C T R D F : Type} `{DecayCounter C T R D} `{LuaVM D} `{BalTime T D}.
Context `{!CDouble D, !DoubleExact D}.
Context (conf : bal_conf D).
Implicit Types (e : env C T R D F) (b : balancer C T D).

Lemma mds_load_ok (l : mds_load_t C D) :
  0 <= bc_mode conf <= 2 -> exists v, mds_load (bc_metaload conf) (bc_mode conf) l = Ok v.
Proof.
  intros Hm. unfold mds_load. destruct (Z.eqb_spec (bc_mode conf) 0); [eauto|].
  destruct (Z.eqb_spec (bc_mode conf) 1); [eauto|].
  destruct (Z.eqb_spec (bc_mode conf) 2); [eauto|lia].
Qed.

Lemma rescale_ok e loads :
  0 <= bc_mode conf <= 2 -> exists r, rescale conf e loads = Ok r.
Proof.
  intros Hm. unfold rescale. destruct (loads !! e_whoami e) as [m|]; [|eauto].
  destruct (mds_load_ok m Hm) as [l ->]. simpl. destruct (d_lt d_zero l); [|eauto].
  set (m' := mk_mds_load _ _ _ _ _ _). destruct (mds_load_ok m' Hm) as [l' ->]. simpl. eauto.
Qed.

(** The loop over the ranks: one entry of the load map per rank, and this rank's load in
    both places it is kept. *)
Lemma note_ranks_ok e fac : 0 <= bc_mode conf <= 2 -> forall ranks a,
  NoDup ranks ->
  exists a', note_ranks conf e fac ranks a = Ok a' /\
    length (ra_load_map a') = (length ranks + length (ra_load_map a))%nat /\
    (e_whoami e ∈ ranks -> ra_meta a' !! e_whoami e = Some (d_float (ra_my_load a'))) /\
    (e_whoami e ∉ ranks -> ra_meta a' !! e_whoami e = ra_meta a !! e_whoami e /\
       ra_my_load a' = ra_my_load a).
Proof.
  intros Hm. induction ranks as [|i ranks IH]; intros a Hnd; simpl.
  { exists a. split_and!; [done|done|by intros ?%elem_of_nil|done]. }
  apply NoDup_cons in Hnd as [Hi Hnd]. unfold note_rank.
  set (load := match ra_loads a !! i with Some l => l | None => _ end).
  destruct (mds_load_ok load Hm) as [v ->]. simpl.
  set (a1 := mk_rank_acc _ _ _ _ _). destruct (IH a1 Hnd) as (a' & E & Hl & Hin & Hout).
  exists a'. split; [exact E|]. split_and!.
  - rewrite Hl. unfold a1. simpl. rewrite (Permutation_length (mm_insert_perm _ _ _)). simpl. lia.
  - intros Hw. destruct (decide (e_whoami e ∈ ranks)) as [Hr|Hr]; [auto|].
    apply elem_of_cons in Hw as [Hw|]; [|done]. destruct (Hout Hr) as [-> ->].
    unfold a1. simpl. rewrite <- Hw, lookup_insert_eq. by rewrite Z.eqb_refl.
  - intros Hw. apply not_elem_of_cons in Hw as [Hne Hr]. destruct (Hout Hr) as [-> ->].
    unfold a1. simpl. rewrite lookup_insert_ne by done. by destruct (Z.eqb_spec (e_whoami e) i).
Qed.

Lemma all_ranks_spec n : 0 <= n ->
  NoDup (all_ranks n) /\ length (all_ranks n) = Z.to_nat n /\
  forall r, r ∈ all_ranks n <-> 0 <= r < n.
Proof.
  intros Hn. unfold all_ranks. split_and!.
  - change (map Z.of_nat) with (fmap (M := list) Z.of_nat). apply NoDup_fmap; [intros x y; lia|].
    apply NoDup_seq.
  - by rewrite length_map, length_seq.
  - intros r. rewrite list_elem_of_In, in_map_iff. split.
    + intros (k & <- & Hk%in_seq). lia.
    + intros Hr. exists (Z.to_nat r). rewrite in_seq. lia.
Qed.

(** The targets of [mds_thrash_exports]. *)
Lemma thrash_targets (ups : gset Z) r :
  fold_left (fun tg i => <[i := d_zero]> tg) (ordered_elems ups) (∅ : gmap Z D) !! r =
    (if decide (r ∈ ups) then Some d_zero else None).
Proof.
  assert (forall l (tg : gmap Z D), fold_left (fun tg i => <[i := d_zero]> tg) l tg !! r =
    (if decide (r ∈ l) then Some d_zero else tg !! r)) as Hl.
  { induction l as [|i l IH]; intros tg; simpl; [done|]. rewrite IH.
    destruct (decide (r ∈ l)) as [Hi|Hi].
    { by rewrite decide_True by (by right). }
    destruct (decide (r = i)) as [->|Hne].
    - rewrite decide_True by left. apply lookup_insert_eq.
    - by rewrite lookup_insert_ne, decide_False by (rewrite ?elem_of_cons; naive_solver). }
  rewrite Hl, lookup_empty. apply decide_ext, elem_of_ordered_elems.
Qed.

Open Scope Q_scope.

(** Whether the threshold is not reached, and whether it has been long enough. *)
Definition under_threshold (b' : balancer C T D) : bool :=
  d_lt (my_load b') (target_load (b_match b') * (d_of_Z 1 + bc_min_rebalance conf))%dbl.

Definition long_enough b : bool :=
  ((last_epoch_under b =? 0) || (2 <=? s32 (beat_epoch b - last_epoch_under b)))%Z.

(** What [prep_targets] decides when it weighs the loads. *)
Record safe_targets e b (b' : balancer C T D) (go : bool) : Prop := {
  st_sum : msum (my_targets (b_match b')) <=
    Qmax 0 (d_val (my_load b') - d_val (target_load (b_match b')));
  st_room : forall r, qv r (my_targets (b_match b')) <=
    Qmax 0 (d_val (target_load (b_match b')) - qv r (mds_meta_load (b_match b')));
  st_self : my_targets (b_match b') !! e_whoami e = None;
  st_go : go = negb (under_threshold b') && long_enough b;
  st_none : go = false -> my_targets (b_match b') = ∅;
  st_under : last_epoch_under b' = (if under_threshold b' then beat_epoch b else last_epoch_under b);
  st_over : last_epoch_over b' = (if under_threshold b' then last_epoch_over b else beat_epoch b)
}.

(** Without targets nothing is moved, so the limits hold. *)
Lemma no_targets_safe e b b' :
  my_targets (b_match b') = ∅ -> negb (under_threshold b') && long_enough b = false ->
  last_epoch_under b' = (if under_threshold b' then beat_epoch b else last_epoch_under b) ->
  last_epoch_over b' = (if under_threshold b' then last_epoch_over b else beat_epoch b) ->
  safe_targets e b b' false.
Proof.
  intros Et Hgo Hu Ho. split; rewrite ?Et, ?msum_empty; try done.
  - apply Q.le_max_l.
  - intros r. unfold qv, at0. rewrite lookup_empty. rewrite val_zero. apply Q.le_max_l.
Qed.

(** The configured mode is none of the three: [mds_load] hits [assert(0)]. *)
Lemma prep_targets_bad_mode fuel e beat b :
  mds_thrash_exports (bc_rebalance conf) = false -> ~ (0 <= bc_mode conf <= 2)%Z ->
  (0 < e_num_in e)%Z -> prep_targets conf fuel e beat b = Abort.
Proof.
  intros Hth Hm Hn. assert (forall l, mds_load (C := C) (bc_metaload conf) (bc_mode conf) l = Abort) as Hl.
  { intros l. unfold mds_load. destruct (Z.eqb_spec (bc_mode conf) 0); [lia|].
    destruct (Z.eqb_spec (bc_mode conf) 1); [lia|]. by destruct (Z.eqb_spec (bc_mode conf) 2); [lia|]. }
  unfold prep_targets, rescale. rewrite Hth. destruct (b_mds_load b !! e_whoami e) as [m|].
  { by rewrite Hl. }
  simpl. unfold all_ranks. destruct (Z.to_nat (e_num_in e)) eqn:En; [lia|]. simpl.
  unfold note_rank. by rewrite Hl.
Qed.

(** C33: [prep_rebalance] up to the export decision, in exact arithmetic, with a bound above
    the number of ranks.  With [mds_thrash_exports] it takes every rank that is up as a target
    of amount zero.  Otherwise an [mds_bal_mode] that is not 0, 1 or 2 aborts, and with one of
    these a decision is always reached, and it is safe: this rank's targets add up to at most
    its load above the target load, none of them gets more than what it is below the target,
    and none is this rank; it goes on to export exactly when it is not under the threshold and
    either [last_epoch_under] is still zero (it has not been under the threshold yet) or lies
    two epochs or more back, where [last_epoch_under] is set to the epoch exactly when it is
    under the threshold; if it does not go on there are no targets. *)
Theorem prep_targets_safe fuel e beat b :
  (0 <= e_whoami e < e_num_in e)%Z -> (Z.to_nat (e_num_in e) < fuel)%nat ->
  if mds_thrash_exports (bc_rebalance conf) then
    exists b', prep_targets conf fuel e beat b = Ok (Some (b', [], true)) /\
      forall r, my_targets (b_match b') !! r = (if decide (r ∈ e_up_set e) then Some d_zero else None)
  else if decide (0 <= bc_mode conf <= 2)%Z then
    exists b' go, prep_targets conf fuel e beat b = Ok (Some (b', [ClearExportQueue], go)) /\
      safe_targets e b b' go
  else prep_targets conf fuel e beat b = Abort.
Proof.
  intros Hw Hf. destruct (mds_thrash_exports (bc_rebalance conf)) eqn:Hth.
  { unfold prep_targets. rewrite Hth. eexists. split; [done|]. intros r. simpl. apply thrash_targets. }
  destruct (decide _) as [Hm|Hm]; [|apply prep_targets_bad_mode; [done|done|lia]].
  unfold prep_targets. rewrite Hth.
  destruct (rescale_ok e (b_mds_load b) Hm) as [[loads fac] ->]. simpl.
  destruct (all_ranks_spec (e_num_in e)) as (Hnd & Hlen & Hin); [lia|].
  destruct (note_ranks_ok e fac Hm (all_ranks (e_num_in e))
    (mk_rank_acc loads (mds_meta_load (b_match b)) (my_load b) d_zero []) Hnd)
    as (a & -> & Hlm & Hme & _). simpl in Hlm |- *.
  specialize (Hme (proj2 (Hin _) Hw)).
  set (target := (ra_total a / d_of_Z (e_num_in e))%dbl).
  set (m0 := mk_match target (ra_meta a) (mds_import_map (b_match b)) ∅ ∅ ∅).
  destruct (d_lt (ra_my_load a) _) eqn:Eu.
  { eexists _, _. split; [done|].
    apply no_targets_safe; unfold under_threshold; simpl; by rewrite ?Eu. }
  assert (negb (negb (last_epoch_under b =? 0) && (s32 (beat_epoch b - last_epoch_under b) <? 2))%Z
    = long_enough b) as El.
  { unfold long_enough. rewrite Z.leb_antisym. by destruct (_ =? 0)%Z, (_ <? 2)%Z. }
  destruct (negb (last_epoch_under b =? 0)%Z && _) eqn:Eh.
  { eexists _, _. split; [done|].
    apply no_targets_safe; unfold under_threshold; simpl;
      rewrite ?Eu; done. }
  destruct (matching_sound_fuel fuel beat (e_whoami e) (ra_load_map a) m0)
    as (m & -> & (Et & Em) & I1 & I2 & I3 & _ & I5 & I6); [done|done|done|lia|].
  eexists _, _. split; [done|]. split; unfold under_threshold; simpl; rewrite ?Et; simpl; rewrite ?Eu; try done.
  - rewrite I5. destruct (I1 (e_whoami e)) as [_ Hle]. unfold surplus, qv, at0 in Hle.
    simpl in Hle. rewrite Hme in Hle. simpl in Hle. by rewrite d_val_float in Hle.
  - intros r. destruct (I3 r) as [_ L3]. destruct (I2 r) as [_ L2]. unfold deficit, qv in *.
    rewrite Em. simpl in *. eapply Qle_trans; [exact L3|exact L2].
Qed.

End Prep.

(** ** A round of heartbeats *)

Section Round.
Context {C T R D F : Type} `{DecayCounter C T R D} `{CDouble D} `{LuaVM D} `{BalTime T D}.
Context (strtod_special : string -> option D) (conf : bal_conf D).
Implicit Types (e : env C T R D F) (b : balancer C T D) (m : heartbeat C D).

Fixpoint run_beats (fuel : nat) (reads : list Z) e (ms : list (heartbeat C D)) b
  : res (option (balancer C T D * list (effect C D F))) :=
  match ms with
  | [] => Ok (Some (b, []))
  | m :: ms' =>
      r ← handle_heartbeat strtod_special conf fuel reads e m b;
      match r with
      | None => Ok None
      | Some (b, es) =>
          r ← run_beats fuel reads e ms' b;
          match r with
          | None => Ok None
          | Some (b, es') => Ok (Some (b, es ++ es'))
          end
      end
  end.

(** [mds_rank_t(m->get_source().num())] *)
Definition sender (m : heartbeat C D) : Z := s32 (hb_source m).

(** The ranks whose loads are known after some heartbeats: one of rank 0 starts afresh. *)
Definition known e (ms : list (heartbeat C D)) (ranks : gset Z) : gset Z :=
  fold_left (fun s m => if sender m =? 0 then {[ e_whoami e; 0 ]} else {[ sender m ]} ∪ s)
    ms ranks.

(** What this rank sends in answer: its own load to every other rank, for each heartbeat of
    rank 0, under the epoch that one started. *)
Fixpoint replies e (cpu : cpu_state) (ms : list (heartbeat C D)) : list (effect C D F) :=
  match ms with
  | [] => []
  | m :: ms' =>
      if sender m =? 0 then
        let '(load, cpu, _) := get_load strtod_special e cpu in
        map (fun p => SendHeartbeat p load
               (if e_whoami e =? 0 then s32 (hb_beat m + 1) else hb_beat m) (import_map_of e))
          (filter (fun p => p <> e_whoami e) (ordered_elems (e_mds_set e))) ++
        replies e cpu ms'
      else replies e cpu ms'
  end.

Lemma replies_cons e cpu m ms :
  replies e cpu (m :: ms) =
    replies e cpu [m] ++
    replies e (if sender m =? 0 then (get_load strtod_special e cpu).1.2 else cpu) ms.
Proof.
  simpl. destruct (sender m =? 0); [|done].
  destruct (get_load strtod_special e cpu) as [[l c] r]. simpl. by rewrite app_nil_r.
Qed.

(** What a heartbeat leaves before the decision to rebalance. *)
Lemma heartbeat_noted fuel reads e m b :
  e_active e = true -> e_open e = true -> e_degraded e = false ->
  exists b1,
    handle_heartbeat strtod_special conf fuel reads e m b =
      (r ← rebalance_all strtod_special conf fuel reads e (hb_beat m) b1;
       Ok (match r with
           | None => None
           | Some (b', es) => Some (b', replies e (b_cpu b) [m] ++ es)
           end)) /\
    b_mds_load b1 = <[sender m := hb_load m]>
      (if sender m =? 0 then {[ e_whoami e := (get_load strtod_special e (b_cpu b)).1.1 ]}
       else b_mds_load b) /\
    mds_import_map (b_match b1) = <[sender m := hb_imports m]>
      (if sender m =? 0 then <[e_whoami e := import_map_of e]> (mds_import_map (b_match b))
       else mds_import_map (b_match b)) /\
    b_cpu b1 = (if sender m =? 0 then (get_load strtod_special e (b_cpu b)).1.2 else b_cpu b) /\
    my_targets (b_match b1) = my_targets (b_match b).
Proof.
  intros Ha Ho Hd. unfold handle_heartbeat, send_heartbeat. rewrite Ha, Ho, Hd. simpl.
  fold (sender m). destruct (sender m =? 0) eqn:E0.
  - destruct (get_load strtod_special e (b_cpu b)) as [[load cpu] rt]. simpl.
    match goal with |- context [rebalance_all _ _ _ _ _ _ ?x] => exists x end.
    split_and!; [|done..]. rewrite app_nil_r.
    by destruct (rebalance_all _ _ _ _ _ _ _) as [[[? ?]|]|].
  - match goal with |- context [rebalance_all _ _ _ _ _ _ ?x] => exists x end.
    split_and!; [|done..]. by destruct (rebalance_all _ _ _ _ _ _ _) as [[[? ?]|]|].
Qed.

Lemma noted_known e m (own : mds_load_t C D) (loads loads' : gmap Z (mds_load_t C D)) :
  loads' = <[sender m := hb_load m]>
    (if sender m =? 0 then {[ e_whoami e := own ]} else loads) ->
  dom loads' = known e [m] (dom loads).
Proof.
  intros ->. unfold known. simpl. rewrite dom_insert_L. destruct (Z.eqb_spec (sender m) 0) as [->|];
    [rewrite dom_singleton_L; set_solver|done].
Qed.

Lemma rebalance_waits fuel reads e beat b :
  Z.of_nat (size (b_mds_load b)) <> e_num_in e ->
  rebalance_all strtod_special conf fuel reads e beat b = Ok (Some (b, [])).
Proof.
  intros Hn. unfold rebalance_all.
  by destruct (Z.eqb_spec (Z.of_nat (size (b_mds_load b))) (e_num_in e)).
Qed.

(** The heartbeats do not complete the cluster: after none of them are all loads known. *)
Definition incomplete e (ms : list (heartbeat C D)) (ranks : gset Z) : Prop :=
  forall p, p `prefix_of` ms -> p <> [] -> Z.of_nat (size (known e p ranks)) <> e_num_in e.

Lemma incomplete_cons e m ms ranks :
  incomplete e (m :: ms) ranks ->
  Z.of_nat (size (known e [m] ranks)) <> e_num_in e /\ incomplete e ms (known e [m] ranks).
Proof.
  intros Hi. split; [apply Hi; [by exists ms|done]|].
  intros p [q ->] Hp. apply (Hi (m :: p)); [by exists q|done].
Qed.

(** What a run of heartbeats that does not complete the cluster leaves behind. *)
Record beats_noted e (ms : list (heartbeat C D)) b b' : Prop := {
  bn_known : dom (b_mds_load b') = known e ms (dom (b_mds_load b));
  bn_heard : forall ms1 m ms2, ms = ms1 ++ m :: ms2 ->
    (forall m', m' ∈ ms2 -> sender m' <> 0 /\ sender m' <> sender m) ->
    b_mds_load b' !! sender m = Some (hb_load m) /\
    mds_import_map (b_match b') !! sender m = Some (hb_imports m);
  bn_own : forall ms1 m ms2, ms = ms1 ++ m :: ms2 -> sender m = 0 -> e_whoami e <> 0 ->
    (forall m', m' ∈ ms2 -> sender m' <> 0 /\ sender m' <> e_whoami e) ->
    (exists cpu, b_mds_load b' !! e_whoami e = Some (get_load strtod_special e cpu).1.1) /\
    mds_import_map (b_match b') !! e_whoami e = Some (import_map_of e);
  bn_kept : forall k, (forall m, m ∈ ms -> sender m <> 0 /\ sender m <> k) ->
    b_mds_load b' !! k = b_mds_load b !! k /\
    mds_import_map (b_match b') !! k = mds_import_map (b_match b) !! k;
  bn_targets : my_targets (b_match b') = my_targets (b_match b)
}.

Lemma beats_noted_nil e b : beats_noted e [] b b.
Proof. split; try done; by intros [|? ?]. Qed.

Lemma beats_noted_cons e m ms b b1 b' :
  b_mds_load b1 = <[sender m := hb_load m]>
    (if sender m =? 0 then {[ e_whoami e := (get_load strtod_special e (b_cpu b)).1.1 ]}
     else b_mds_load b) ->
  mds_import_map (b_match b1) = <[sender m := hb_imports m]>
    (if sender m =? 0 then <[e_whoami e := import_map_of e]> (mds_import_map (b_match b))
     else mds_import_map (b_match b)) ->
  my_targets (b_match b1) = my_targets (b_match b) ->
  beats_noted e ms b1 b' -> beats_noted e (m :: ms) b b'.
Proof.
  intros El Ei Et [Hk Hh Ho Hc Ht]. split.
  - rewrite Hk, (noted_known e m _ _ _ El). done.
  - intros [|m0 ms1] m1 ms2 [= <- ->] Hl; [|by eapply Hh].
    destruct (Hc (sender m) Hl) as [-> ->]. by rewrite El, Ei, !lookup_insert_eq.
  - intros [|m0 ms1] m1 ms2 [= <- ->] Hz Hw Hl; [|by eapply Ho].
    destruct (Hc (e_whoami e) Hl) as [-> ->]. rewrite El, Ei, Hz. simpl.
    rewrite !lookup_insert_ne, lookup_singleton_eq, lookup_insert_eq by done. eauto.
  - intros k Hl. destruct (Hl m ltac:(left)) as [Hz Hm].
    destruct (Hc k) as [-> ->]; [intros m' Hm'; apply Hl; by right|].
    rewrite El, Ei, !lookup_insert_ne by done. by rewrite (proj2 (Z.eqb_neq _ _) Hz).
  - congruence.
Qed.


End Round.

(** ** A script that fails *)

Section Failing.
Context {C T R D F : Type} `{DecayCounter C T R D} `{CDouble D} `{LuaVM D} `{BalTime T D}.
Context (strtod_special : string -> option D) (conf : bal_conf D).

(** When the user's script fails, the Lua balancer goes on with whatever its
    uninitialised answer buffer held: the targets are the numbers found there, and the exports
    are made for them. *)
Theorem failed_script_reads_stack (e : env C T R D F) (b : balancer C T D) fs :
  e_root e = Some fs ->
  prepare_option (bc_when conf) <> EmptyString -> prepare_option (bc_where conf) <> EmptyString ->
  (forall args, lua_run (custom_script (bc_mdsload conf) (bc_when conf) (bc_where conf)) args = None) ->
  exists b1, my_targets (b_match b1) = parse_targets strtod_special (e_ret0 e) ∅ /\
    custom_balancer strtod_special conf e b =
      (r ← run_try strtod_special conf e b1; Ok (r.1, ClearExportQueue :: r.2)).
Proof.
  intros Hr Hw1 Hw2 Hlua. unfold custom_balancer. rewrite !bool_decide_false by done. simpl.
  rewrite Hr, Hlua. simpl. set (b1 := set_prep _ _ _ _ _ _ _). exists b1. split; [done|].
  by destruct (run_try strtod_special conf e b1) as [[? ?]|].
Qed.

End Failing.

(** ** Concrete runs *)

#[export] Instance Z_bal_time : BalTime Z Q := {
  bt_sec := fun t => t;
  bt_double := inject_Z;
  bt_minus := Z.sub
}.

Definition bal_conf_ex (lua : Z) (when where_ : string) (max : Z) : bal_conf Q :=
  mk_bal_conf "1"%string "1"%string when where_ lua 1 3%Q 10 max (-1) false false 5 3 (1 # 10)%Q
    default_export_conf default_rebalance_conf (mk_dfs_conf 10 4 0%Q).

Definition env_ex (whoami now : Z) : env Q Z unit Q (list bool) :=
  mk_env whoami true false true 3 {[ 0; 1; 2 ]} {[ 0; 1; 2 ]} ∅ now tt (Some []) [] [] (fun _ => [])
    7%Q 0 None EmptyString "5 6 "%string (fun _ => None) (fun _ _ => (false, [])).

Definition hb_ex (src : Z) : heartbeat Q Q := mk_heartbeat src 4 (mds_load_new 0) ∅.

Definition bal_ex : balancer Q Z Q := bal_new.

Lemma heartbeats_within_budget_witness :
  Z.of_nat (run_ticks no_special (bal_conf_ex 0 EmptyString EmptyString 1)
    [env_ex 0 5; env_ex 0 20; env_ex 0 40; env_ex 0 60] bal_ex).1 <= 1.
Proof.
  apply (heartbeats_within_budget no_special (bal_conf_ex 0 EmptyString EmptyString 1)
    [env_ex 0 5; env_ex 0 20; env_ex 0 40; env_ex 0 60] bal_ex);
    [reflexivity|split; vm_compute; congruence].
Defined.

Lemma prep_targets_safe_witness :
  exists b' go, prep_targets (bal_conf_ex 0 EmptyString EmptyString (-1)) 4 (env_ex 0 20) 4 bal_ex =
    Ok (Some (b', [ClearExportQueue], go)) /\ my_targets (b_match b') !! 0 = None.
Proof.
  destruct (prep_targets_safe (bal_conf_ex 0 EmptyString EmptyString (-1)) 4 (env_ex 0 20) 4 bal_ex)
    as (b' & go & E & Hs); [simpl; lia|simpl; lia|].
  exists b', go. split; [exact E|exact (st_self _ _ _ _ _ Hs)].
Defined.


Lemma failed_script_reads_stack_witness :
  exists b1, my_targets (b_match b1) = parse_targets no_special "5 6 "%string ∅ /\
    custom_balancer no_special (bal_conf_ex 1 "if"%string "targets"%string (-1)) (env_ex 0 20) bal_ex =
      (r ← run_try no_special (bal_conf_ex 1 "if"%string "targets"%string (-1)) (env_ex 0 20) b1;
       Ok (r.1, ClearExportQueue :: r.2)).
Proof.
  apply (failed_script_reads_stack no_special (bal_conf_ex 1 "if"%string "targets"%string (-1))
    (env_ex 0 20) bal_ex []); [reflexivity|discriminate|discriminate|reflexivity].
Defined.
