(* ===== verification/Subtree.v ===== *)
(** * The subtree map (MDCache.cc, CDir.h)

    The metadata hierarchy is partitioned into subtrees, each with one authority.
    [MDCache::subtrees] maps the root directory of each subtree to its bounds, the roots of
    the subtrees nested directly beneath it, and a directory is a subtree root when its
    [dir_auth] is not the default.  This file models the operations that keep the two in
    step, and proves that they do.

    The hierarchy itself (parents, which directories are base directories, ...) is a
    parameter; [t_depth] is the measure that makes the walks to the root terminate.  Pins,
    counter updates and journal entries made along the way are the trace of [st_effect]s. *)

From stdpp Require Import base tactics numbers list gmap sorting.
From Stdlib Require Import ZArith Lia.
From S2P Require Import Prelude.
Open Scope Z_scope.

Definition authority_t : Type := Z * Z.

Definition CDIR_AUTH_PARENT : Z := -1.
Definition CDIR_AUTH_UNKNOWN : Z := -2.
Definition CDIR_AUTH_DEFAULT : authority_t := (CDIR_AUTH_PARENT, CDIR_AUTH_UNKNOWN).

Record tree := mk_tree {
  t_parent : Z -> option Z;      (* get_parent_dir() *)
  t_depth : Z -> nat;
  t_base : Z -> bool;            (* inode->is_base() *)
  t_ino_root : Z -> bool;        (* ino() == MDS_INO_ROOT *)
  t_exportbound : Z -> bool;     (* state_test(STATE_EXPORTBOUND) *)
  t_is_auth : Z -> bool;         (* is_auth() *)
  t_cum_auth_pins : Z -> Z;      (* get_cum_auth_pins() *)
  t_frozen : Z -> bool;          (* inode->is_auth() && (is_frozen_tree_root() || is_frozen_dir()) *)
  t_journal : Z -> bool          (* the condition of the journal entry in try_subtree_merge_at *)
}.

(** Parents are nearer to a base directory; exactly the base directories have none. *)
Record tree_ok (t : tree) : Prop := {
  tk_depth : forall d p, t_parent t d = Some p -> (t_depth t p < t_depth t d)%nat;
  tk_base : forall d, t_base t d = true <-> t_parent t d = None;
  tk_root : forall d, t_ino_root t d = true -> t_base t d = true
}.

Record subtree_map := mk_subtrees {
  st_subtrees : gmap Z (gset Z);
  st_dir_auth : gmap Z authority_t
}.

Inductive st_effect :=
| NestedAuthPins (d : Z) (by_ : Z)   (* inode->adjust_nested_auth_pins *)
| AuthPinInode (d : Z)
| AuthUnpinInode (d : Z)
| WakeSingleAuth (d : Z)
| GetPinSubtree (d : Z)
| PutPinSubtree (d : Z)
| SubtractPop (d : Z)      (* pop_auth_subtree of the parents, up to the subtree root *)
| AddPop (d : Z)
| EvalSubtreeRoot (d : Z)
| JournalMerge (d : Z).

Section Subtree.
Context (t : tree).
(** [mds->is_any_replay() || mds->is_resolve()] *)
Context (no_eval : bool).
(** [CInode::authority()] of the inode of a directory, given the [dir_auth]s *)
Context (inode_authority : gmap Z authority_t -> Z -> authority_t).

Definition dir_auth (s : subtree_map) (d : Z) : authority_t :=
  default CDIR_AUTH_DEFAULT (st_dir_auth s !! d).

Definition is_subtree_root (s : subtree_map) (d : Z) : bool :=
  negb (bool_decide (dir_auth s d = CDIR_AUTH_DEFAULT)).

Definition authority (s : subtree_map) (d : Z) : authority_t :=
  if is_subtree_root s d then dir_auth s d else inode_authority (st_dir_auth s) d.

Definition is_ambiguous_dir_auth (s : subtree_map) (d : Z) : bool :=
  negb (snd (dir_auth s d) =? CDIR_AUTH_UNKNOWN).
Definition is_full_dir_auth (s : subtree_map) (d : Z) : bool :=
  t_is_auth t d && negb (is_ambiguous_dir_auth s d).
Definition is_full_dir_nonauth (s : subtree_map) (d : Z) : bool :=
  negb (t_is_auth t d) && negb (is_ambiguous_dir_auth s d).

Definition set_dir_auth (d : Z) (a : authority_t) (s : subtree_map) : subtree_map :=
  mk_subtrees (st_subtrees s) (<[d := a]> (st_dir_auth s)).

(** The calls [set_dir_auth] makes besides setting the field. *)
Definition set_dir_auth_calls (d : Z) (a : authority_t) (s : subtree_map) : list st_effect :=
  let was_subtree := is_subtree_root s d in
  let was_ambiguous := 0 <=? snd (dir_auth s d) in
  let s := set_dir_auth d a s in
  (if negb was_subtree && is_subtree_root s d then
     (if t_cum_auth_pins t d =? 0 then [] else [NestedAuthPins d (-1)]) ++
     (if t_frozen t d then [AuthUnpinInode d] else [])
   else []) ++
  (if was_subtree && negb (is_subtree_root s d) then
     (if t_cum_auth_pins t d =? 0 then [] else [NestedAuthPins d 1]) ++
     (if t_frozen t d then [AuthPinInode d] else [])
   else []) ++
  (if was_ambiguous && (snd (dir_auth s d) =? CDIR_AUTH_UNKNOWN) then [WakeSingleAuth d] else []).

Definition set_bounds (d : Z) (b : gset Z) (s : subtree_map) : subtree_map :=
  mk_subtrees (<[d := b]> (st_subtrees s)) (st_dir_auth s).

(** [subtrees[d]] *)
Definition bounds_of (s : subtree_map) (d : Z) : gset Z := default ∅ (st_subtrees s !! d).

(** C++'s [map::operator\[\]] on an absent key adds it. *)
Definition touch (d : Z) (s : subtree_map) : subtree_map := set_bounds d (bounds_of s d) s.

Fixpoint walk_root (fuel : nat) (s : subtree_map) (d : Z) : option Z :=
  if is_subtree_root s d then Some d
  else match fuel with
       | O => None
       | S fuel => match t_parent t d with None => None | Some p => walk_root fuel s p end
       end.

(** The walk has at most [t_depth] steps. *)
Definition get_subtree_root (s : subtree_map) (d : Z) : option Z := walk_root (t_depth t d) s d.

(** [get_subtree_root(d->get_parent_dir())]; a null parent is dereferenced *)
Definition parent_root (s : subtree_map) (d : Z) : res (option Z) :=
  match t_parent t d with None => Abort | Some p => Ok (get_subtree_root s p) end.

Definition has_subtree (s : subtree_map) (d : Z) : bool := bool_decide (is_Some (st_subtrees s !! d)).

(** Is the subtree root above the parent of [p] the directory [dir]? *)
Definition nested_under (s : subtree_map) (dir p : Z) : Prop :=
  match t_parent t p with
  | Some q => get_subtree_root s q = Some dir
  | None => False
  end.

#[export] Instance nested_under_dec s dir p : Decision (nested_under s dir p).
Proof. unfold nested_under. destruct (t_parent t p); apply _. Defined.

(** the part of [adjust_subtree_auth] and [adjust_bounded_subtree_auth] that makes [dir] a
    subtree nested in [root] (lines 791-818, 992-1019) *)
Definition new_subtree (root dir : Z) (auth : authority_t) (s : subtree_map)
  : res (subtree_map * list st_effect) :=
  check (negb (has_subtree s dir)) ;;
  let es := GetPinSubtree dir :: set_dir_auth_calls dir auth s in
  let s := set_dir_auth dir auth (set_bounds dir ∅ s) in
  let moved := filter (nested_under s dir) (bounds_of s root) in
  let s := set_bounds dir moved s in
  let s := set_bounds root ({[dir]} ∪ (bounds_of s root ∖ moved)) s in
  Ok (s, es).

(** the bootstrap of lines 774-782 (972-981): the current root and the state *)
Definition find_root (base : bool) (dir : Z) (s : subtree_map)
  : option Z * subtree_map * list st_effect :=
  if base then
    if has_subtree s dir then (Some dir, s, [])
    else (Some dir, set_bounds dir ∅ s, [GetPinSubtree dir])
  else (get_subtree_root s dir, s, []).

Definition adjust_subtree_auth (dir : Z) (auth : authority_t) (do_eval : bool) (s : subtree_map)
  : res (subtree_map * list st_effect) :=
  let do_eval := do_eval && negb no_eval in
  let '(root, s, es) := find_root (t_base t dir) dir s in
  match root with
  | None => Abort
  | Some root =>
      check (has_subtree s root) ;;
      if root =? dir then Ok (set_dir_auth dir auth s, es ++ set_dir_auth_calls dir auth s)
      else
        r ← new_subtree root dir auth s;
        let '(s, es') := (r : subtree_map * list st_effect) in
        Ok (s, es ++ es' ++ (if t_is_auth t dir then [SubtractPop dir] else []) ++
               (if do_eval then [EvalSubtreeRoot dir] else []))
  end.

Definition try_subtree_merge_at (dir : Z) (do_eval : bool) (s : subtree_map)
  : res (subtree_map * list st_effect) :=
  check (has_subtree s dir) ;;
  let do_eval := do_eval && negb no_eval in
  parent ← (if t_base t dir then Ok (Some dir) else parent_root s dir);
  match parent with
  | None => Abort
  | Some parent =>
      if negb (parent =? dir) && bool_decide (dir_auth s parent = dir_auth s dir) &&
         (snd (dir_auth s dir) =? CDIR_AUTH_UNKNOWN) && negb (t_exportbound t dir)
      then
        let es := set_dir_auth_calls dir CDIR_AUTH_DEFAULT s in
        let s := set_dir_auth dir CDIR_AUTH_DEFAULT s in
        let mine := bounds_of s dir in
        let s := set_bounds parent (bounds_of s parent ∪ mine) s in
        let s := mk_subtrees (delete dir (st_subtrees s)) (st_dir_auth s) in
        let s := set_bounds parent (bounds_of s parent ∖ {[dir]}) s in
        Ok (s, es ++ [PutPinSubtree dir] ++ (if t_is_auth t dir then [AddPop dir] else []) ++
               (if do_eval then [EvalSubtreeRoot dir] else []) ++
               (if t_journal t dir then [JournalMerge dir] else []))
      else Ok (s, [])
  end.

Fixpoint merge_all (dirs : list Z) (s : subtree_map) : res (subtree_map * list st_effect) :=
  match dirs with
  | [] => Ok (s, [])
  | d :: dirs' =>
      r ← try_subtree_merge_at d true s;
      r' ← merge_all dirs' (fst r);
      Ok (fst r', snd r ++ snd r')
  end.

Definition try_subtree_merge (dir : Z) (s : subtree_map) : res (subtree_map * list st_effect) :=
  check (has_subtree s dir) ;;
  merge_all (dir :: ordered_elems (bounds_of s dir)) s.

Definition remove_subtree (dir : Z) (s : subtree_map) : res (subtree_map * list st_effect) :=
  check (has_subtree s dir) ;;
  check (bool_decide (bounds_of s dir = ∅)) ;;
  let s := mk_subtrees (delete dir (st_subtrees s)) (st_dir_auth s) in
  match t_parent t dir with
  | None => Ok (s, [PutPinSubtree dir])
  | Some p =>
      match get_subtree_root s p with
      | None => Abort
      | Some p =>
          check (bool_decide (dir ∈ bounds_of s p)) ;;
          Ok (set_bounds p (bounds_of s p ∖ {[dir]}) s, [PutPinSubtree dir])
      end
  end.

Definition get_subtree_bounds (dir : Z) (s : subtree_map) : res (gset Z) :=
  check (has_subtree s dir) ;; Ok (bounds_of s dir).

(** lines 1240-1247: does the walk from [x] up to [root] meet [dir]?  The [continue] inside
    the [while] only goes on walking. *)
Fixpoint walk_meets (fuel : nat) (dir root x : Z) : option (res bool) :=
  if x =? root then Some (Ok false)
  else match fuel with
       | O => None
       | S fuel =>
           match t_parent t x with
           | None => Some Abort
           | Some p =>
               match walk_meets fuel dir root p with
               | Some (Ok b) => Some (Ok ((p =? dir) || b))
               | r => r
               end
           end
       end.

Fixpoint wouldbe_bounds (dir root : Z) (ps : list Z) : res (gset Z) :=
  match ps with
  | [] => Ok ∅
  | p :: ps' =>
      match walk_meets (t_depth t p) dir root p with
      | Some (Ok b) => rest ← wouldbe_bounds dir root ps'; Ok (if (b : bool) then {[p]} ∪ rest else rest)
      | _ => Abort
      end
  end.

(** The null directory. *)
Definition null_dir : Z := 0.

Definition get_wouldbe_subtree_bounds (dir : Z) (s : subtree_map) : res (subtree_map * gset Z) :=
  if has_subtree s dir then b ← get_subtree_bounds dir s; Ok (s, b)
  else
    let root := default null_dir (get_subtree_root s dir) in
    let s := touch root s in
    b ← wouldbe_bounds dir root (ordered_elems (bounds_of s root)); Ok (s, b).

Definition verify_subtree_bounds (dir : Z) (bounds : gset Z) (s : subtree_map) : res unit :=
  check (has_subtree s dir) ;; assert_ (bool_decide (bounds = bounds_of s dir)).

(** [adjust_bounded_subtree_auth], on the bound set.  Its loops are bounded by [fuel];
    [None] means that the bound is used up.  Traces are dropped. *)

(** lines 1047-1048: up to a bound of [dir] *)
Fixpoint climb_to_bound (fuel : nat) (s : subtree_map) (dir x : Z) : res (option Z) :=
  if bool_decide (x ∈ bounds_of s dir) then Ok (Some x)
  else match fuel with
       | O => Ok None
       | S fuel =>
           r ← parent_root s x;
           match r with None => Abort | Some y => climb_to_bound fuel s dir y end
       end.

(** lines 1046-1054: swallow the subtrees between [dir] and [bound] *)
Fixpoint swallow_between (fuel : nat) (dir bound : Z) (auth : authority_t) (x : Z)
    (s : subtree_map) : res (option subtree_map) :=
  match fuel with
  | O => Ok None
  | S fuel' =>
      r ← climb_to_bound fuel s dir x;
      match r with
      | None => Ok None
      | Some x =>
          r ← adjust_subtree_auth x auth true s;
          r ← try_subtree_merge_at x true (fst r);
          y ← parent_root (fst r) bound;
          match y with
          | None => Abort
          | Some y =>
              if y =? dir then Ok (Some (fst r)) else swallow_between fuel' dir bound auth y (fst r)
          end
      end
  end.

(** lines 1026-1060, one bound *)
Definition ensure_bound (fuel : nat) (dir : Z) (auth oldauth : authority_t) (bound : Z)
    (s : subtree_map) : res (option subtree_map) :=
  if bool_decide (bound ∈ bounds_of s dir) then Ok (Some s)
  else if bool_decide (get_subtree_root s bound = Some dir) then
    r ← adjust_subtree_auth bound oldauth true s; Ok (Some (fst r))
  else
    x ← parent_root s bound;
    match x with
    | None => Abort
    | Some x =>
        let s := touch x s in
        s ← (if bool_decide (bound ∈ bounds_of s x) then Ok s
             else
               check (negb (x =? dir)) ;;
               r ← adjust_subtree_auth bound (authority s x) true s; Ok (fst r));
        swallow_between fuel dir bound auth x s
    end.

Fixpoint ensure_bounds (fuel : nat) (dir : Z) (auth oldauth : authority_t) (bounds : list Z)
    (s : subtree_map) : res (option subtree_map) :=
  match bounds with
  | [] => Ok (Some s)
  | b :: bounds' =>
      r ← ensure_bound fuel dir auth oldauth b s;
      match r with
      | None => Ok None
      | Some s => ensure_bounds fuel dir auth oldauth bounds' s
      end
  end.

(** lines 1064-1071 *)
Fixpoint swallow_strays (auth : authority_t) (bounds : gset Z) (copy : list Z) (s : subtree_map)
  : res subtree_map :=
  match copy with
  | [] => Ok s
  | p :: copy' =>
      s ← (if bool_decide (p ∈ bounds) then Ok s
           else
             r ← adjust_subtree_auth p auth true s;
             r ← try_subtree_merge_at p true (fst r); Ok (fst r));
      swallow_strays auth bounds copy' s
  end.

(** lines 1062-1075 *)
Fixpoint merge_strays (fuel : nat) (dir : Z) (auth : authority_t) (bounds : gset Z)
    (s : subtree_map) : res (option subtree_map) :=
  let copy := bounds_of s dir in
  if bool_decide (copy = ∅) then Ok (Some s)
  else match fuel with
       | O => Ok None
       | S fuel =>
           s ← swallow_strays auth bounds (ordered_elems copy) s;
           if bool_decide (copy = bounds_of s dir) then Ok (Some s)
           else merge_strays fuel dir auth bounds s
       end.

Definition adjust_bounded_subtree_auth (fuel : nat) (dir : Z) (bounds : gset Z)
    (auth : authority_t) (s : subtree_map) : res (option subtree_map) :=
  let '(root, s, _) := find_root (t_ino_root t dir) dir s in
  match root with
  | None => Abort
  | Some root =>
      check (has_subtree s root) ;;
      let oldauth := authority s dir in
      s ← (if root =? dir then Ok (set_dir_auth dir auth s)
           else r ← new_subtree root dir auth s; Ok (fst r));
      r ← ensure_bounds fuel dir auth oldauth (ordered_elems bounds) s;
      match r with
      | None => Ok None
      | Some s =>
          r ← merge_strays fuel dir auth bounds s;
          match r with
          | None => Ok None
          | Some s => verify_subtree_bounds dir bounds s ≫= fun _ => Ok (Some s)
          end
      end
  end.

Definition list_subtrees (s : subtree_map) : list Z := (ordered (st_subtrees s)).*1.
Definition get_fullauth_subtrees (s : subtree_map) : gset Z :=
  filter (fun d => is_full_dir_auth s d = true) (dom (st_subtrees s)).
Definition get_auth_subtrees (s : subtree_map) : gset Z :=
  filter (fun d => t_is_auth t d = true) (dom (st_subtrees s)).
Definition num_subtrees (s : subtree_map) : nat := size (st_subtrees s).
Definition num_subtrees_fullauth (s : subtree_map) : nat :=
  length (filter (fun d => is_full_dir_auth s d = true) (list_subtrees s)).
Definition num_subtrees_fullnonauth (s : subtree_map) : nat :=
  length (filter (fun d => is_full_dir_nonauth s d = true) (list_subtrees s)).

(** ** The invariant *)

Record subtree_inv (s : subtree_map) : Prop := {
  (** the subtree map is keyed by the directories that delegate authority *)
  si_dom : forall d, is_Some (st_subtrees s !! d) <-> is_subtree_root s d = true;
  (** the bounds are exactly the subtree roots directly beneath *)
  si_bounds : forall r d, is_Some (st_subtrees s !! r) ->
    d ∈ bounds_of s r <-> is_Some (st_subtrees s !! d) /\ nested_under s r d;
  (** every subtree is nested in another or at a base directory *)
  si_nested : forall d p, is_Some (st_subtrees s !! d) -> t_parent t d = Some p ->
    is_Some (get_subtree_root s p)
}.

End Subtree.

(** ** Walks to the subtree root *)

Section Walks.
Context (t : tree) (Hok : tree_ok t).
Implicit Types s : subtree_map.
Abbreviation get_subtree_root := (get_subtree_root t).

Lemma walk_root_fuel s d n m :
  (t_depth t d <= n)%nat -> (t_depth t d <= m)%nat -> walk_root t n s d = walk_root t m s d.
Proof.
  revert d m. induction n as [|n IH]; intros d [|m] Hn Hm; simpl; destruct (is_subtree_root s d);
    try done.
  - destruct (t_parent t d) as [p|] eqn:E; [|done]. apply tk_depth in E; [lia|done].
  - destruct (t_parent t d) as [p|] eqn:E; [|done]. apply tk_depth in E; [lia|done].
  - destruct (t_parent t d) as [p|] eqn:E; [|done]. apply tk_depth in E; [|done]. apply IH; lia.
Qed.

Lemma root_unfold s d :
  get_subtree_root s d =
    if is_subtree_root s d then Some d
    else match t_parent t d with None => None | Some p => get_subtree_root s p end.
Proof.
  unfold Subtree.get_subtree_root. destruct (t_depth t d) as [|n] eqn:E; simpl.
  - destruct (is_subtree_root s d); [done|]. destruct (t_parent t d) as [p|] eqn:Ep; [|done].
    apply tk_depth in Ep; [lia|done].
  - destruct (is_subtree_root s d); [done|]. destruct (t_parent t d) as [p|] eqn:Ep; [|done].
    apply tk_depth in Ep; [|done]. apply walk_root_fuel; lia.
Qed.

(** Induction towards the base directories. *)
Lemma tree_ind (P : Z -> Prop) :
  (forall d, (forall p, t_parent t d = Some p -> P p) -> P d) -> forall d, P d.
Proof.
  intros Hstep d. assert (forall n e, (t_depth t e < n)%nat -> P e) as Hn;
    [|apply (Hn (S (t_depth t d))); lia].
  induction n as [|n IH]; intros e He; [lia|]. apply Hstep. intros p Hp.
  apply tk_depth in Hp; [|done]. apply IH. lia.
Qed.

Lemma root_is_root s d r : get_subtree_root s d = Some r -> is_subtree_root s r = true.
Proof.
  revert d. induction d as [d IH] using tree_ind. rewrite root_unfold.
  destruct (is_subtree_root s d) eqn:E; [by intros [= <-]|].
  destruct (t_parent t d) as [p|] eqn:Ep; [|done]. by apply IH.
Qed.

Lemma root_depth s d r : get_subtree_root s d = Some r -> (t_depth t r <= t_depth t d)%nat.
Proof.
  revert d. induction d as [d IH] using tree_ind. rewrite root_unfold.
  destruct (is_subtree_root s d); [by intros [= <-]|].
  destruct (t_parent t d) as [p|] eqn:Ep; [|done]. intros E%(IH p eq_refl).
  apply tk_depth in Ep; [lia|done].
Qed.

Lemma nested_depth s r d : nested_under t s r d -> (t_depth t r < t_depth t d)%nat.
Proof.
  unfold nested_under. destruct (t_parent t d) as [p|] eqn:Ep; [|done]. intros E%root_depth.
  apply tk_depth in Ep; [lia|done].
Qed.

(** Making [dir] a root: below it (down to the next roots) it takes over, elsewhere nothing
    changes. *)
Lemma root_after_set s s' dir :
  is_subtree_root s dir = false ->
  (forall x, is_subtree_root s' x = if x =? dir then true else is_subtree_root s x) ->
  forall x, (get_subtree_root s' x = Some dir /\ get_subtree_root s x = get_subtree_root s dir) \/
            (get_subtree_root s' x <> Some dir /\ get_subtree_root s' x = get_subtree_root s x).
Proof.
  intros Hd Hs' x. induction x as [x IH] using tree_ind.
  rewrite (root_unfold s' x), Hs'. destruct (Z.eqb_spec x dir) as [->|N]; [by left|].
  rewrite (root_unfold s x). destruct (is_subtree_root s x) eqn:E.
  { right. split; [congruence|done]. }
  destruct (t_parent t x) as [p|]; [by apply IH|]. by right.
Qed.

(** Unmaking the root [dir]: the root above takes over. *)
Lemma root_after_clear s s' dir :
  is_subtree_root s dir = true ->
  (forall x, is_subtree_root s' x = if x =? dir then false else is_subtree_root s x) ->
  forall x, get_subtree_root s' x =
    if bool_decide (get_subtree_root s x = Some dir) then get_subtree_root s' dir
    else get_subtree_root s x.
Proof.
  intros Hd Hs' x. induction x as [x IH] using tree_ind.
  destruct (Z.eqb_spec x dir) as [->|N].
  { rewrite bool_decide_true; [done|]. by rewrite root_unfold, Hd. }
  rewrite (root_unfold s' x), Hs'. destruct (Z.eqb_spec x dir); [done|].
  rewrite (root_unfold s x). destruct (is_subtree_root s x) eqn:E.
  { rewrite bool_decide_false; [done|congruence]. }
  destruct (t_parent t x) as [p|]; [by apply IH|]. by rewrite bool_decide_false.
Qed.

Lemma set_dir_auth_root d a s x :
  a <> CDIR_AUTH_DEFAULT ->
  is_subtree_root (set_dir_auth d a s) x = if x =? d then true else is_subtree_root s x.
Proof.
  intros Ha. unfold is_subtree_root, dir_auth, set_dir_auth. simpl.
  destruct (Z.eqb_spec x d) as [->|N].
  - rewrite lookup_insert_eq. simpl. by rewrite bool_decide_false.
  - by rewrite lookup_insert_ne.
Qed.

Lemma clear_dir_auth_root d s x :
  is_subtree_root (set_dir_auth d CDIR_AUTH_DEFAULT s) x = if x =? d then false else is_subtree_root s x.
Proof.
  unfold is_subtree_root, dir_auth, set_dir_auth. simpl.
  destruct (Z.eqb_spec x d) as [->|N].
  - by rewrite lookup_insert_eq.
  - by rewrite lookup_insert_ne.
Qed.

(** Two states with the same roots walk alike. *)
Lemma root_ext s s' :
  (forall x, is_subtree_root s' x = is_subtree_root s x) ->
  forall x, get_subtree_root s' x = get_subtree_root s x.
Proof.
  intros Hs x. induction x as [x IH] using tree_ind. rewrite (root_unfold s' x), (root_unfold s x), Hs.
  destruct (is_subtree_root s x); [done|]. destruct (t_parent t x); [by apply IH|done].
Qed.

Lemma nested_ext s s' r d :
  (forall x, get_subtree_root s' x = get_subtree_root s x) -> nested_under t s' r d <-> nested_under t s r d.
Proof. intros Hs. unfold nested_under. destruct (t_parent t d); [|done]. by rewrite Hs. Qed.

Lemma nested_unique s r r' d : nested_under t s r d -> nested_under t s r' d -> r = r'.
Proof. unfold nested_under. destruct (t_parent t d); [|done]. congruence. Qed.

Lemma has_subtree_true s d : has_subtree s d = true <-> is_Some (st_subtrees s !! d).
Proof. apply bool_decide_eq_true. Qed.

Lemma bounds_set d b s x :
  bounds_of (set_bounds d b s) x = if decide (x = d) then b else bounds_of s x.
Proof.
  unfold bounds_of, set_bounds. simpl. destruct (decide (x = d)) as [->|N].
  - by rewrite lookup_insert_eq.
  - by rewrite lookup_insert_ne.
Qed.

Lemma touch_id d s : is_Some (st_subtrees s !! d) -> touch d s = s.
Proof.
  intros [b E]. unfold touch, set_bounds, bounds_of. rewrite E. simpl.
  rewrite insert_id by done. by destruct s.
Qed.

Lemma dom_set d b s x :
  is_Some (st_subtrees (set_bounds d b s) !! x) <-> x = d \/ is_Some (st_subtrees s !! x).
Proof.
  simpl. destruct (decide (x = d)) as [->|N].
  - rewrite lookup_insert_eq. split; [by left|eauto].
  - rewrite lookup_insert_ne by done. naive_solver.
Qed.

(** ** Each step keeps the invariant *)

(** The state [new_subtree] builds, and what it must satisfy for the invariant. *)
Record nested_in (root dir : Z) (auth : authority_t) (s s2 : subtree_map) : Prop := {
  ni_roots : forall x, is_subtree_root s2 x = if x =? dir then true else is_subtree_root s x;
  ni_auth : forall x, dir_auth s2 x = if x =? dir then auth else dir_auth s x;
  ni_dom : forall x, is_Some (st_subtrees s2 !! x) <-> x = dir \/ is_Some (st_subtrees s !! x);
  ni_other : forall x, x <> root -> x <> dir -> bounds_of s2 x = bounds_of s x;
  ni_dir : forall p, p ∈ bounds_of s2 dir <-> p ∈ bounds_of s root /\ nested_under t s2 dir p;
  ni_root : forall p, p ∈ bounds_of s2 root <->
    p = dir \/ (p ∈ bounds_of s root /\ ~ nested_under t s2 dir p)
}.

Lemma new_subtree_shape root dir auth s :
  auth <> CDIR_AUTH_DEFAULT -> ~ is_Some (st_subtrees s !! dir) ->
  is_Some (st_subtrees s !! root) -> root <> dir ->
  exists s', new_subtree t root dir auth s = Ok (s', GetPinSubtree dir :: set_dir_auth_calls t dir auth s) /\
    nested_in root dir auth s s'.
Proof.
  intros Ha Hnot Hr Hne. unfold new_subtree.
  rewrite check_true by (apply negb_true_iff, not_true_is_false; by rewrite has_subtree_true).
  set (s1 := set_dir_auth dir auth (set_bounds dir ∅ s)).
  set (moved := filter (nested_under t s1 dir) (bounds_of s1 root)).
  set (s2 := set_bounds root _ (set_bounds dir moved s1)).
  assert (forall x, is_subtree_root s2 x = is_subtree_root s1 x) as Hrr by done.
  assert (forall x, get_subtree_root s2 x = get_subtree_root s1 x) as Hs21 by (by apply root_ext).
  assert (bounds_of s1 root = bounds_of s root) as Hb1.
  { change (bounds_of s1 root) with (bounds_of (set_bounds dir ∅ s) root).
    by rewrite bounds_set, decide_False. }
  assert (forall p, p ∈ moved <-> p ∈ bounds_of s root /\ nested_under t s2 dir p) as Hmoved.
  { intros p. unfold moved. rewrite elem_of_filter, Hb1, (nested_ext _ _ dir p Hs21). tauto. }
  exists s2. split; [done|]. split.
  - intros x. rewrite Hrr. unfold s1. by rewrite (set_dir_auth_root dir auth _ x Ha).
  - intros x. unfold s2, s1, dir_auth, set_dir_auth. simpl.
    destruct (Z.eqb_spec x dir) as [->|]; [by rewrite lookup_insert_eq|by rewrite lookup_insert_ne].
  - intros x. unfold s2. rewrite !dom_set.
    change (st_subtrees s1) with (st_subtrees (set_bounds dir ∅ s)). rewrite dom_set. naive_solver.
  - intros x H1 H2. unfold s2. rewrite !bounds_set, !decide_False by done.
    change (bounds_of s1 x) with (bounds_of (set_bounds dir ∅ s) x).
    by rewrite bounds_set, decide_False.
  - intros p. unfold s2 at 1. rewrite !bounds_set, decide_False, decide_True by done. apply Hmoved.
  - intros p. unfold s2 at 1. rewrite bounds_set, decide_True by done.
    rewrite bounds_set, decide_False, Hb1 by done.
    rewrite elem_of_union, elem_of_singleton, elem_of_difference, Hmoved. tauto.
Qed.

Lemma nested_in_inv root dir auth s s2 :
  subtree_inv t s -> is_subtree_root s dir = false -> get_subtree_root s dir = Some root ->
  nested_in root dir auth s s2 -> subtree_inv t s2.
Proof.
  intros [Hd Hb Hn] Hdir Hroot [Hroots _ Hdom Hother Hbd Hbr].
  assert (is_Some (st_subtrees s !! root)) as Hr by (apply Hd; by eapply root_is_root).
  assert (root <> dir) as Hne by (intros ->; by rewrite (root_is_root s dir dir) in Hdir).
  pose proof (root_after_set s s2 dir Hdir Hroots) as Hcase.
  assert (forall p, nested_under t s2 dir p -> p <> dir /\ nested_under t s root p) as Hnd.
  { intros p Hp. split; [intros ->; apply nested_depth in Hp; lia|].
    unfold nested_under in *. destruct (t_parent t p) as [q|]; [|done].
    destruct (Hcase q) as [[_ ->]|[]]; [done|congruence]. }
  assert (forall r p, r <> dir -> ~ nested_under t s2 dir p ->
    nested_under t s2 r p <-> nested_under t s r p) as Hno.
  { intros r p Hrd Hp. unfold nested_under in *. destruct (t_parent t p) as [q|]; [|done].
    destruct (Hcase q) as [[? _]|[_ ->]]; done. }
  assert (forall r p, r <> dir -> nested_under t s2 r p -> ~ nested_under t s2 dir p) as Hex.
  { intros r p Hrd Hp C. apply Hrd. by eapply nested_unique. }
  assert (nested_under t s2 root dir) as Hdr.
  { apply Hno; [done|intros C; by apply Hnd in C as [? _]|]. unfold nested_under.
    rewrite root_unfold, Hdir in Hroot. by destruct (t_parent t dir). }
  split.
  - intros d. rewrite Hdom, Hroots, Hd. destruct (Z.eqb_spec d dir); naive_solver.
  - intros r d Hr'. rewrite Hdom. destruct (decide (r = root)) as [->|Nr].
    { rewrite Hbr, (Hb root d Hr). split.
      - intros [->|[[? Hn'] Hm]]; [by auto|]. split; [auto|]. by apply Hno.
      - intros [[->|Hd'] Hn']; [by left|]. right. pose proof (Hex root d Hne Hn') as Hnn.
        split; [split; [done|by apply Hno in Hn']|done]. }
    destruct (decide (r = dir)) as [->|Nd].
    { rewrite Hbd, (Hb root d Hr). split; [intros [[? _] ?]; auto|].
      intros [Hd' Hn']. destruct (Hnd d Hn') as [? ?]. naive_solver. }
    rewrite Hother by done.
    assert (is_Some (st_subtrees s !! r)) as Hrs by (apply Hdom in Hr' as [|]; done).
    rewrite (Hb r d Hrs). split.
    + intros [? Hn']. split; [auto|]. apply Hno; [done| |done].
      intros C. apply Hnd in C as [_ C]. apply Nr. by eapply nested_unique.
    + intros [[->|Hd'] Hn']; [exfalso; apply Nr; by eapply nested_unique|].
      split; [done|]. apply Hno in Hn'; [done|done|by eapply Hex].
  - intros d p Hd' Hp. destruct (Hcase p) as [[-> _]|[_ ->]]; [eauto|].
    apply Hdom in Hd' as [->|Hd']; [|by eapply Hn].
    rewrite root_unfold, Hdir, Hp in Hroot. eauto.
Qed.

Lemma new_subtree_inv root dir auth s :
  subtree_inv t s -> auth <> CDIR_AUTH_DEFAULT ->
  is_subtree_root s dir = false -> get_subtree_root s dir = Some root ->
  exists s', new_subtree t root dir auth s = Ok (s', GetPinSubtree dir :: set_dir_auth_calls t dir auth s) /\ subtree_inv t s' /\
    nested_in root dir auth s s'.
Proof.
  intros Hinv Ha Hdir Hroot. pose proof Hinv as [Hd _ _].
  destruct (new_subtree_shape root dir auth s) as (s' & E & Hs'); [done|..].
  - rewrite Hd. congruence.
  - apply Hd. by eapply root_is_root.
  - intros ->. by rewrite (root_is_root s dir dir) in Hdir.
  - exists s'. split_and!; [done| |done]. by eapply nested_in_inv.
Qed.

(** A change of authority of a subtree root. *)
Lemma reauth_inv dir auth s :
  subtree_inv t s -> auth <> CDIR_AUTH_DEFAULT -> is_subtree_root s dir = true ->
  subtree_inv t (set_dir_auth dir auth s).
Proof.
  intros [Hd Hb Hn] Ha Hr. assert (forall x, is_subtree_root (set_dir_auth dir auth s) x = is_subtree_root s x) as Hs.
  { intros x. rewrite set_dir_auth_root by done. by destruct (Z.eqb_spec x dir) as [->|]. }
  pose proof (root_ext _ _ Hs) as Hrt. split.
  - intros d. rewrite Hs. apply Hd.
  - intros r d Hr'. rewrite (nested_ext _ _ r d Hrt). by apply Hb.
  - intros d p. rewrite Hrt. apply Hn.
Qed.

(** The first subtree at a base directory. *)
Lemma bootstrap_inv dir auth s :
  subtree_inv t s -> auth <> CDIR_AUTH_DEFAULT -> t_parent t dir = None ->
  is_subtree_root s dir = false -> subtree_inv t (set_dir_auth dir auth (set_bounds dir ∅ s)).
Proof.
  intros [Hd Hb Hn] Ha Hp Hr. set (s1 := set_dir_auth dir auth (set_bounds dir ∅ s)).
  assert (forall x, is_subtree_root s1 x = if x =? dir then true else is_subtree_root s x) as Hs.
  { intros x. unfold s1. by rewrite set_dir_auth_root. }
  assert (get_subtree_root s dir = None) as Hnone by (by rewrite root_unfold, Hr, Hp).
  pose proof (root_after_set s s1 dir Hr Hs) as Hcase.
  assert (forall x, is_Some (st_subtrees s1 !! x) <-> x = dir \/ is_Some (st_subtrees s !! x)) as Hdom
    by (intros x; apply dom_set).
  assert (forall x, bounds_of s1 x = if decide (x = dir) then ∅ else bounds_of s x) as Hbs
    by (intros x; apply bounds_set).
  assert (forall r d, is_Some (st_subtrees s !! d) ->
    nested_under t s1 r d <-> nested_under t s r d) as Hnest.
  { intros r d Hd'. unfold nested_under. destruct (t_parent t d) as [q|] eqn:Eq; [|done].
    destruct (Hcase q) as [[_ E]|[_ ->]]; [|done]. rewrite Hnone in E.
    destruct (Hn d q Hd' Eq). congruence. }
  split.
  - intros d. rewrite Hdom, Hs, Hd. destruct (Z.eqb_spec d dir); naive_solver.
  - intros r d Hr'. rewrite Hbs, Hdom. destruct (decide (r = dir)) as [->|Nd].
    + split; [set_solver|]. intros [[->|Hd'] Hn']; [unfold nested_under in Hn'; by rewrite Hp in Hn'|].
      apply Hnest in Hn'; [|done]. exfalso. unfold nested_under in Hn'. destruct (t_parent t d); [|done].
      apply root_is_root in Hn'. congruence.
    + assert (is_Some (st_subtrees s !! r)) as Hrs by (apply Hdom in Hr' as [|]; done).
      rewrite (Hb r d Hrs). split; [intros [? ?]; split; [auto|by apply Hnest]|].
      intros [[->|Hd'] Hn']; [unfold nested_under in Hn'; by rewrite Hp in Hn'|].
      split; [done|by apply Hnest].
  - intros d p [->|Hd']%Hdom Hp'; [congruence|]. destruct (Hcase p) as [[-> _]|[_ ->]]; [eauto|by eapply Hn].
Qed.


(** ** Merging *)

(** The state after [dir] is merged into [par]. *)
Record merged_into (par dir : Z) (s s2 : subtree_map) : Prop := {
  mg_roots : forall x, is_subtree_root s2 x = if x =? dir then false else is_subtree_root s x;
  mg_auth : forall x, x <> dir -> dir_auth s2 x = dir_auth s x;
  mg_dom : forall x, is_Some (st_subtrees s2 !! x) <-> x <> dir /\ is_Some (st_subtrees s !! x);
  mg_other : forall x, x <> par -> x <> dir -> bounds_of s2 x = bounds_of s x;
  mg_par : forall p, p ∈ bounds_of s2 par <-> p <> dir /\ (p ∈ bounds_of s par \/ p ∈ bounds_of s dir)
}.

Definition merge_state (par dir : Z) (s : subtree_map) : subtree_map :=
  let s := set_dir_auth dir CDIR_AUTH_DEFAULT s in
  let mine := bounds_of s dir in
  let s := set_bounds par (bounds_of s par ∪ mine) s in
  let s := mk_subtrees (delete dir (st_subtrees s)) (st_dir_auth s) in
  set_bounds par (bounds_of s par ∖ {[dir]}) s.

Lemma merge_state_shape par dir s :
  par <> dir -> is_Some (st_subtrees s !! par) -> merged_into par dir s (merge_state par dir s).
Proof.
  intros Hne Hp. unfold merge_state. cbv zeta. set (s3 := mk_subtrees (delete dir _) _).
  assert (forall x, bounds_of s3 x =
     if decide (x = dir) then ∅ else if decide (x = par) then bounds_of s par ∪ bounds_of s dir
     else bounds_of s x) as Hdel.
  { intros x. unfold bounds_of at 1, s3. simpl. destruct (decide (x = dir)) as [->|N].
    - by rewrite lookup_delete_eq.
    - rewrite lookup_delete_ne by done. destruct (decide (x = par)) as [->|N'].
      + by rewrite lookup_insert_eq.
      + by rewrite lookup_insert_ne. }
  split.
  - intros x. apply (clear_dir_auth_root dir s x).
  - intros x Hx. unfold dir_auth. simpl. by rewrite lookup_insert_ne.
  - intros x. rewrite dom_set. simpl. destruct (decide (x = dir)) as [->|N].
    + rewrite lookup_delete_eq. split; [|by intros []]. intros [->|[? ?]]; done.
    + rewrite lookup_delete_ne by done. destruct (decide (x = par)) as [->|N'].
      * rewrite lookup_insert_eq. naive_solver.
      * rewrite lookup_insert_ne by done. naive_solver.
  - intros x H1 H2. rewrite bounds_set, decide_False by done. by rewrite Hdel, !decide_False.
  - intros p. rewrite bounds_set, decide_True by done.
    rewrite elem_of_difference, elem_of_singleton. rewrite (Hdel par).
    rewrite decide_False, decide_True by done. rewrite elem_of_union. tauto.
Qed.

(** Who governs each directory after the merge. *)
Lemma merged_root par dir s s2 :
  is_subtree_root s dir = true -> nested_under t s par dir -> merged_into par dir s s2 ->
  forall x, get_subtree_root s2 x =
    if bool_decide (get_subtree_root s x = Some dir) then Some par else get_subtree_root s x.
Proof.
  intros Hd Hn [Hroots _ _ _ _] x. rewrite (root_after_clear s s2 dir Hd Hroots).
  case_bool_decide; [|done]. rewrite root_unfold, Hroots, Z.eqb_refl.
  unfold nested_under in Hn. destruct (t_parent t dir) as [q|] eqn:Eq; [|done].
  rewrite (root_after_clear s s2 dir Hd Hroots), bool_decide_false; [done|].
  rewrite Hn. intros [= ->]. apply root_depth in Hn. apply tk_depth in Eq; [lia|done].
Qed.

Lemma merged_into_inv par dir s s2 :
  subtree_inv t s -> is_subtree_root s dir = true -> nested_under t s par dir ->
  merged_into par dir s s2 -> subtree_inv t s2.
Proof.
  intros [Hd Hb Hn] Hdir Hpar Hm. pose proof (merged_root par dir s s2 Hdir Hpar Hm) as Hroot.
  destruct Hm as [Hroots _ Hdom Hother Hbp].
  assert (par <> dir) as Hne by (intros ->; apply nested_depth in Hpar; lia).
  assert (is_Some (st_subtrees s !! dir)) as Hds by by apply Hd.
  assert (is_Some (st_subtrees s !! par)) as Hps.
  { apply Hd. unfold nested_under in Hpar. destruct (t_parent t dir); [|done]. by eapply root_is_root. }
  assert (forall r p, nested_under t s2 r p <->
    (r = par /\ nested_under t s dir p) \/ (nested_under t s r p /\ ~ nested_under t s dir p)) as Hnest.
  { intros r p. unfold nested_under. destruct (t_parent t p) as [q|]; [|tauto].
    rewrite Hroot. case_bool_decide; naive_solver. }
  split.
  - intros d. rewrite Hdom, Hroots, Hd. destruct (Z.eqb_spec d dir); naive_solver.
  - intros r d [Hr Hrs]%Hdom. rewrite Hdom, Hnest. destruct (decide (r = par)) as [->|Nr].
    + rewrite Hbp, (Hb par d Hps), (Hb dir d Hds).
      destruct (decide (nested_under t s dir d)) as [Hc|Hc].
      * split; [tauto|]. naive_solver.
      * naive_solver.
    + rewrite Hother by done. rewrite (Hb r d Hrs). split.
      * intros [? Hrd]. split; [split; [|done]|].
        -- intros ->. apply Nr. by eapply nested_unique.
        -- right. split; [done|]. intros C. apply Hr. by eapply nested_unique.
      * naive_solver.
  - intros d p [_ Hd']%Hdom Hp. rewrite Hroot. case_bool_decide; [eauto|by eapply Hn].
Qed.

End Walks.

(** ** The operations *)

Section Ops.
Context (t : tree) (Hok : tree_ok t) (no_eval : bool).
Context (inode_authority : gmap Z authority_t -> Z -> authority_t).
Implicit Types s : subtree_map.

(** The authority that governs a directory. *)
Definition governed_by (s : subtree_map) (x : Z) : option authority_t :=
  dir_auth s <$> get_subtree_root t s x.

Lemma adjust_subtree_auth_ok dir auth ev s :
  subtree_inv t s -> auth <> CDIR_AUTH_DEFAULT ->
  (t_base t dir = true \/ is_Some (get_subtree_root t s dir)) ->
  exists s' es, adjust_subtree_auth t no_eval dir auth ev s = Ok (s', es) /\ subtree_inv t s' /\
    (forall x, dir_auth s' x = if x =? dir then auth else dir_auth s x) /\
    (forall x, is_subtree_root s' x = if x =? dir then true else is_subtree_root s x).
Proof.
  intros Hinv Ha Hr. pose proof Hinv as [Hd _ _]. unfold adjust_subtree_auth, find_root.
  assert (forall s0 x, dir_auth (set_dir_auth dir auth s0) x = if x =? dir then auth else dir_auth s0 x) as Hda.
  { intros s0 x. unfold dir_auth, set_dir_auth. simpl.
    destruct (Z.eqb_spec x dir) as [->|]; [by rewrite lookup_insert_eq|by rewrite lookup_insert_ne]. }
  destruct (t_base t dir) eqn:Eb.
  { apply tk_base in Eb; [|done]. destruct (has_subtree s dir) eqn:Eh; simpl.
    - rewrite Eh, Z.eqb_refl. simpl. apply has_subtree_true, Hd in Eh. eexists _, _. split; [done|].
      split_and!; [by apply reauth_inv|apply Hda|]. intros x. by rewrite set_dir_auth_root.
    - rewrite check_true by (apply has_subtree_true, dom_set; by left). rewrite Z.eqb_refl.
      assert (is_subtree_root s dir = false) as Hf.
      { apply not_true_is_false. rewrite <- Hd, <- has_subtree_true. congruence. }
      eexists _, _. split; [done|]. split_and!; [by apply bootstrap_inv|apply (Hda (set_bounds dir ∅ s))|].
      intros x. by rewrite set_dir_auth_root. }
  destruct Hr as [?|[root Hroot]]; [done|]. rewrite Hroot.
  pose proof (root_is_root t Hok s dir root Hroot) as Hrr.
  rewrite check_true by (by apply has_subtree_true, Hd).
  destruct (Z.eqb_spec root dir) as [->|N].
  { eexists _, _. split; [done|]. split_and!; [by apply reauth_inv|apply Hda|].
    intros x. by rewrite set_dir_auth_root. }
  assert (is_subtree_root s dir = false) as Hf.
  { destruct (is_subtree_root s dir) eqn:E; [|done]. rewrite (root_unfold t Hok), E in Hroot. congruence. }
  destruct (new_subtree_inv t Hok root dir auth s) as (s' & -> & Hi & Hni); [done..|].
  simpl. eexists _, _. split; [done|]. split_and!; [done|apply (ni_auth t _ _ _ _ _ Hni)|].
  apply (ni_roots t _ _ _ _ _ Hni).
Qed.

(** C31: [adjust_subtree_auth] never fails its asserts below a subtree root (or at a base
    directory) and keeps the subtree map consistent; afterwards the given authority governs
    exactly the directories from [dir] down to the next subtree roots, and every other
    directory keeps its governing root and its authority. *)
Theorem adjust_subtree_auth_spec dir auth ev s :
  subtree_inv t s -> auth <> CDIR_AUTH_DEFAULT ->
  (t_base t dir = true \/ is_Some (get_subtree_root t s dir)) ->
  exists s' es, adjust_subtree_auth t no_eval dir auth ev s = Ok (s', es) /\ subtree_inv t s' /\
    get_subtree_root t s' dir = Some dir /\
    forall x, (get_subtree_root t s' x = Some dir /\ governed_by s' x = Some auth /\
               get_subtree_root t s x = get_subtree_root t s dir) \/
              (get_subtree_root t s' x <> Some dir /\
               get_subtree_root t s' x = get_subtree_root t s x /\
               governed_by s' x = governed_by s x).
Proof.
  intros Hinv Ha Hr. destruct (adjust_subtree_auth_ok dir auth ev s Hinv Ha Hr)
    as (s' & es & E & Hi & Hda & Hroots).
  exists s', es. split_and!; [done|done|by rewrite (root_unfold t Hok), Hroots, Z.eqb_refl|].
  assert (forall x r, get_subtree_root t s' x = Some r -> r <> dir ->
    get_subtree_root t s x = Some r -> governed_by s' x = governed_by s x) as Hgov.
  { intros x r E1 Hne E2. unfold governed_by. rewrite E1, E2. simpl. rewrite Hda.
    by destruct (Z.eqb_spec r dir). }
  assert (forall x, get_subtree_root t s' x = Some dir -> governed_by s' x = Some auth) as Hgd.
  { intros x E1. unfold governed_by. rewrite E1. simpl. by rewrite Hda, Z.eqb_refl. }
  intros x. destruct (is_subtree_root s dir) eqn:Ed.
  - assert (forall y, get_subtree_root t s' y = get_subtree_root t s y) as Hsame.
    { apply root_ext; [done|]. intros y. rewrite Hroots. by destruct (Z.eqb_spec y dir) as [->|]. }
    destruct (decide (get_subtree_root t s' x = Some dir)) as [E1|E1].
    + left. split_and!; [done|by apply Hgd|]. rewrite <- Hsame, E1. by rewrite (root_unfold t Hok), Ed.
    + right. split_and!; [done|done|]. destruct (get_subtree_root t s' x) as [r|] eqn:E2.
      * eapply Hgov; [done|congruence|by rewrite <- Hsame].
      * unfold governed_by. by rewrite <- Hsame, E2.
  - destruct (root_after_set t Hok s s' dir Ed Hroots x) as [[E1 E2]|[E1 E2]].
    + left. split_and!; [done|by apply Hgd|done].
    + right. split_and!; [done|done|]. destruct (get_subtree_root t s' x) as [r|] eqn:E3.
      * eapply Hgov; [done|congruence|done].
      * unfold governed_by. by rewrite <- E2, E3.
Qed.

Definition merges (s : subtree_map) (dir par : Z) : bool :=
  bool_decide (dir_auth s par = dir_auth s dir) && (snd (dir_auth s dir) =? CDIR_AUTH_UNKNOWN) &&
  negb (t_exportbound t dir).

Lemma merge_at_ok dir ev s :
  subtree_inv t s -> is_Some (st_subtrees s !! dir) ->
  exists s' es, try_subtree_merge_at t no_eval dir ev s = Ok (s', es) /\ subtree_inv t s' /\
    (s' = s \/ exists par, nested_under t s par dir /\ merges s dir par = true /\
       merged_into par dir s s') /\
    (forall par, nested_under t s par dir -> merges s dir par = true -> is_subtree_root s' dir = false).
Proof.
  intros Hinv Hs. pose proof Hinv as [Hd _ Hn]. unfold try_subtree_merge_at.
  rewrite check_true by by apply has_subtree_true.
  destruct (t_base t dir) eqn:Eb.
  { simpl. rewrite Z.eqb_refl. simpl. eexists _, _. split; [done|]. split_and!; [done|by left|].
    intros par Hp. apply tk_base in Eb; [|done]. unfold nested_under in Hp. by rewrite Eb in Hp. }
  unfold parent_root. destruct (t_parent t dir) as [p|] eqn:Ep.
  2: { apply tk_base in Ep; [congruence|done]. }
  destruct (Hn dir p Hs Ep) as [par Hpar]. simpl. rewrite Hpar.
  assert (nested_under t s par dir) as Hnest by (unfold nested_under; by rewrite Ep).
  assert (par <> dir) as Hne by (intros ->; apply nested_depth in Hnest; [lia|done]).
  assert (is_Some (st_subtrees s !! par)) as Hps by (apply Hd; by eapply root_is_root).
  destruct (Z.eqb_spec par dir); [done|]. cbn [negb andb]. fold (merges s dir par).
  pose proof (merge_state_shape par dir s Hne Hps) as Hshape.
  destruct (merges s dir par) eqn:Em.
  - eexists _, _. split; [done|]. fold (merge_state par dir s). split_and!.
    + apply (merged_into_inv t Hok par dir s); [done|by apply Hd|done|exact Hshape].
    + right. exists par. split_and!; [done|done|exact Hshape].
    + intros _ _ _. etrans; [apply (mg_roots _ _ _ _ Hshape)|]. by rewrite Z.eqb_refl.
  - eexists _, _. split; [done|]. split_and!; [done|by left|].
    intros par' Hp' Hm'. rewrite (nested_unique t s par' par dir Hp' Hnest) in Hm'. congruence.
Qed.

Lemma merge_at_governed dir ev s s' es :
  subtree_inv t s -> is_Some (st_subtrees s !! dir) ->
  try_subtree_merge_at t no_eval dir ev s = Ok (s', es) ->
  (forall x, governed_by s' x = governed_by s x) /\
  (forall d, d <> dir -> is_Some (st_subtrees s' !! d) <-> is_Some (st_subtrees s !! d)).
Proof.
  intros Hinv Hs E. destruct (merge_at_ok dir ev s Hinv Hs) as (s1 & es1 & E1 & _ & Hcase & _).
  rewrite E in E1. injection E1 as <- <-. destruct Hcase as [->|(par & Hn & Hm & Hmg)]; [done|].
  pose proof (si_dom _ _ Hinv) as Hd. split.
  - intros x. unfold governed_by.
    rewrite (merged_root t Hok par dir s s'); [|by apply Hd|done|done].
    unfold merges in Hm. rewrite !andb_true_iff in Hm. destruct Hm as [[Ha _] _].
    apply bool_decide_eq_true in Ha.
    assert (par <> dir) as Hne by (intros ->; apply nested_depth in Hn; [lia|done]).
    case_bool_decide as Hx.
    + rewrite Hx. simpl. f_equal. by rewrite (mg_auth _ _ _ _ Hmg).
    + destruct (get_subtree_root t s x) as [r|] eqn:Er; [|done]. simpl. f_equal.
      apply (mg_auth _ _ _ _ Hmg). congruence.
  - intros d Hne. rewrite (mg_dom _ _ _ _ Hmg). naive_solver.
Qed.

Lemma merge_all_ok dirs : forall s,
  subtree_inv t s -> NoDup dirs -> (forall d, d ∈ dirs -> is_Some (st_subtrees s !! d)) ->
  exists s' es, merge_all t no_eval dirs s = Ok (s', es) /\ subtree_inv t s' /\
    (forall x, governed_by s' x = governed_by s x).
Proof.
  induction dirs as [|d dirs IH]; intros s Hinv Hnd Hs; simpl; [by eexists _, _|].
  apply NoDup_cons in Hnd as [Hd Hnd]. assert (is_Some (st_subtrees s !! d)) as Hsd by (apply Hs; by left).
  destruct (merge_at_ok d true s Hinv Hsd) as (s1 & es1 & E1 & Hi1 & _).
  destruct (merge_at_governed d true s s1 es1 Hinv Hsd E1) as [Hg Hdom]. rewrite E1. simpl.
  destruct (IH s1 Hi1 Hnd) as (s2 & es2 & E2 & Hi2 & Hg2).
  { intros d' Hd'. apply Hdom; [by intros ->|]. apply Hs. by right. }
  rewrite E2. simpl. eexists _, _. split; [done|]. split; [done|]. intros x. by rewrite Hg2.
Qed.

Lemma try_subtree_merge_ok dir s :
  subtree_inv t s -> is_Some (st_subtrees s !! dir) ->
  exists s' es, try_subtree_merge t no_eval dir s = Ok (s', es) /\ subtree_inv t s' /\
     forall x, governed_by s' x = governed_by s x.
Proof.
  intros Hinv Hs. unfold try_subtree_merge. rewrite check_true by by apply has_subtree_true.
  apply merge_all_ok; [done|..].
  - constructor; [|apply ordered_elems_nodup]. rewrite elem_of_ordered_elems.
    rewrite (si_bounds _ _ Hinv dir dir Hs). intros [_ C]. apply nested_depth in C; [lia|done].
  - intros d [->|Hin]%elem_of_cons; [done|]. apply elem_of_ordered_elems in Hin.
    by apply (si_bounds _ _ Hinv dir d Hs) in Hin as [? _].
Qed.

(** C32: merging subtrees never fails its asserts, keeps the subtree map consistent, and changes
    the authority of no directory: a subtree only disappears into a parent of the same,
    unambiguous authority. *)
Theorem merge_keeps_authority dir s :
  subtree_inv t s -> is_Some (st_subtrees s !! dir) ->
  (exists s' es, try_subtree_merge t no_eval dir s = Ok (s', es) /\ subtree_inv t s' /\
     forall x, governed_by s' x = governed_by s x) /\
  (forall ev, exists s' es, try_subtree_merge_at t no_eval dir ev s = Ok (s', es) /\
     subtree_inv t s' /\ (forall x, governed_by s' x = governed_by s x) /\
     (is_subtree_root s' dir = false <-> exists par, nested_under t s par dir /\ merges s dir par = true)).
Proof.
  intros Hinv Hs. pose proof (si_dom _ _ Hinv) as Hd. split.
  - by apply try_subtree_merge_ok.
  - intros ev. destruct (merge_at_ok dir ev s Hinv Hs) as (s' & es & E & Hi & Hcase & Hall).
    exists s', es. split_and!; [done|done|by apply (merge_at_governed dir ev s s' es)|].
    split; [|intros (par & ? & ?); by eapply Hall].
    intros Hf. destruct Hcase as [->|(par & ? & ? & _)]; [|eauto].
    apply Hd in Hs. congruence.
Qed.


(** ** Partial results and runs *)

Lemma adjust_inv dir auth ev s s' es :
  subtree_inv t s -> auth <> CDIR_AUTH_DEFAULT ->
  adjust_subtree_auth t no_eval dir auth ev s = Ok (s', es) -> subtree_inv t s'.
Proof.
  intros Hinv Ha E. destruct (adjust_subtree_auth_ok dir auth ev s Hinv Ha) as (s1 & es1 & E1 & Hi & _).
  - unfold adjust_subtree_auth, find_root in E. destruct (t_base t dir); [by left|right].
    by destruct (get_subtree_root t s dir); [eauto|].
  - rewrite E in E1. by injection E1 as <- <-.
Qed.

Lemma merge_at_inv dir ev s s' es :
  subtree_inv t s -> try_subtree_merge_at t no_eval dir ev s = Ok (s', es) -> subtree_inv t s'.
Proof.
  intros Hinv E. assert (has_subtree s dir = true) as Hs
    by (unfold try_subtree_merge_at in E; by destruct (has_subtree s dir)).
  apply has_subtree_true in Hs. destruct (merge_at_ok dir ev s Hinv Hs) as (s1 & es1 & E1 & Hi & _).
  rewrite E in E1. by injection E1 as <- <-.
Qed.

Context (Hia : forall auths d, inode_authority auths d <> CDIR_AUTH_DEFAULT).

Lemma authority_not_default s d : authority inode_authority s d <> CDIR_AUTH_DEFAULT.
Proof.
  unfold authority. destruct (is_subtree_root s d) eqn:E; [|apply Hia].
  unfold is_subtree_root in E. by apply negb_true_iff, bool_decide_eq_false in E.
Qed.

Lemma swallow_between_inv fuel dir bound auth : auth <> CDIR_AUTH_DEFAULT -> forall x s s',
  subtree_inv t s -> swallow_between t no_eval fuel dir bound auth x s = Ok (Some s') ->
  subtree_inv t s'.
Proof.
  intros Ha. induction fuel as [|fuel IH]; intros x s s' Hi E; cbn [swallow_between] in E; [done|].
  apply bind_ok in E as ([y|] & _ & E); [|done].
  apply bind_ok in E as ([s1 es1] & E1 & E). apply bind_ok in E as ([s2 es2] & E2 & E).
  apply bind_ok in E as ([z|] & _ & E); [|done]. simpl in *.
  apply adjust_inv in E1; [|done|done]. apply merge_at_inv in E2; [|done].
  destruct (z =? dir); [by injection E as <-|by eapply IH].
Qed.

Lemma parent_root_is_root s d r : parent_root t s d = Ok (Some r) -> is_subtree_root s r = true.
Proof. unfold parent_root. destruct (t_parent t d); intros [= E]. by eapply root_is_root. Qed.

Lemma ensure_bound_inv fuel dir auth oldauth bound s s' :
  auth <> CDIR_AUTH_DEFAULT -> oldauth <> CDIR_AUTH_DEFAULT -> subtree_inv t s ->
  ensure_bound t no_eval inode_authority fuel dir auth oldauth bound s = Ok (Some s') ->
  subtree_inv t s'.
Proof.
  intros Ha Ho Hi E. unfold ensure_bound in E.
  case_bool_decide; [by injection E as <-|]. case_bool_decide.
  { apply bind_ok in E as ([s1 es1] & E1 & E). injection E as <-. by apply adjust_inv in E1. }
  apply bind_ok in E as ([x|] & Ex & E); [|done].
  rewrite touch_id in E by by apply (si_dom _ _ Hi), (parent_root_is_root s bound).
  apply bind_ok in E as (s1 & E1 & E).
  eapply (swallow_between_inv fuel dir bound auth Ha); [|exact E].
  case_bool_decide; [by injection E1 as <-|]. apply bind_ok in E1 as ([] & _ & E1).
  apply bind_ok in E1 as ([s2 es2] & E2 & E1). injection E1 as <-.
  eapply adjust_inv; [exact Hi|apply (authority_not_default s x)|exact E2].
Qed.

Lemma ensure_bounds_inv fuel dir auth oldauth :
  auth <> CDIR_AUTH_DEFAULT -> oldauth <> CDIR_AUTH_DEFAULT -> forall bs s s',
  subtree_inv t s -> ensure_bounds t no_eval inode_authority fuel dir auth oldauth bs s = Ok (Some s') ->
  subtree_inv t s'.
Proof.
  intros Ha Ho. induction bs as [|b bs IH]; intros s s' Hi E; simpl in E; [by injection E as <-|].
  apply bind_ok in E as ([s1|] & E1 & E); [|done]. eapply IH; [|exact E]. exact (ensure_bound_inv fuel dir auth oldauth b s s1 Ha Ho Hi E1).
Qed.

Lemma swallow_strays_inv auth bounds : auth <> CDIR_AUTH_DEFAULT -> forall copy s s',
  subtree_inv t s -> swallow_strays t no_eval auth bounds copy s = Ok s' -> subtree_inv t s'.
Proof.
  intros Ha. induction copy as [|p copy IH]; intros s s' Hi E; simpl in E; [by injection E as <-|].
  apply bind_ok in E as (s1 & E1 & E). eapply IH; [|exact E]. clear E.
  case_bool_decide; [by injection E1 as <-|].
  apply bind_ok in E1 as ([s2 es2] & E2 & E1). apply bind_ok in E1 as ([s3 es3] & E3 & E1).
  injection E1 as <-. simpl in *. eapply merge_at_inv; [|exact E3].
  exact (adjust_inv p auth true s s2 es2 Hi Ha E2).
Qed.

Lemma merge_strays_inv dir auth bounds : auth <> CDIR_AUTH_DEFAULT -> forall fuel s s',
  subtree_inv t s -> merge_strays t no_eval fuel dir auth bounds s = Ok (Some s') -> subtree_inv t s'.
Proof.
  intros Ha. induction fuel as [|fuel IH]; intros s s' Hi E; simpl in E;
    (case_bool_decide; [by injection E as <-|]); [done|].
  apply bind_ok in E as (s1 & E1 & E). apply swallow_strays_inv in E1; [|done|done].
  case_bool_decide; [by injection E as <-|by eapply IH].
Qed.

Lemma adjust_bounded_inv fuel dir bounds auth s s' :
  subtree_inv t s -> auth <> CDIR_AUTH_DEFAULT ->
  adjust_bounded_subtree_auth t no_eval inode_authority fuel dir bounds auth s = Ok (Some s') ->
  subtree_inv t s' /\ is_subtree_root s' dir = true /\ bounds_of s' dir = bounds.
Proof.
  intros Hinv Ha E. unfold adjust_bounded_subtree_auth in E.
  destruct (find_root t (t_ino_root t dir) dir s) as [[[root|] s0] es0] eqn:Ef; [|done].
  apply bind_ok in E as ([] & Hh & E). apply assert_ok in Hh.
  set (oldauth := authority inode_authority s0 dir) in E.
  apply bind_ok in E as (s1 & E1 & E). apply bind_ok in E as ([s2|] & E2 & E); [|done].
  apply bind_ok in E as ([s3|] & E3 & E); [|done]. apply bind_ok in E as ([] & Hv & E). injection E as <-.
  assert (subtree_inv t s1) as Hi1.
  { unfold find_root in Ef. pose proof (si_dom _ _ Hinv) as Hd. destruct (t_ino_root t dir) eqn:Er.
    - assert (root = dir) as -> by (destruct (has_subtree s dir); by injection Ef).
      rewrite Z.eqb_refl in E1. injection E1 as <-. destruct (has_subtree s dir) eqn:Eh.
      + injection Ef as <- <-. by apply reauth_inv; [..|apply Hd, has_subtree_true].
      + injection Ef as <- <-. apply bootstrap_inv; [done|done|done|..].
        * by apply tk_base, tk_root.
        * apply not_true_is_false. rewrite <- Hd, <- has_subtree_true. congruence.
    - injection Ef as Hroot <- <-. pose proof (root_is_root t Hok s dir root Hroot) as Hrr.
      destruct (Z.eqb_spec root dir) as [->|N]; [injection E1 as <-; by apply reauth_inv|].
      assert (is_subtree_root s dir = false) as Hf.
      { destruct (is_subtree_root s dir) eqn:Eq; [|done]. rewrite (root_unfold t Hok), Eq in Hroot. congruence. }
      destruct (new_subtree_inv t Hok root dir auth s) as (s' & En & Hi & _); [done..|].
      rewrite En in E1. simpl in E1. by injection E1 as <-. }
  apply ensure_bounds_inv in E2; [|done|apply authority_not_default|done].
  apply merge_strays_inv in E3; [|done|done].
  unfold verify_subtree_bounds in Hv. apply bind_ok in Hv as ([] & Hh' & Hv). apply assert_ok in Hh', Hv.
  apply bool_decide_eq_true in Hv. split_and!; [done| |done].
  by apply (si_dom _ _ E3), has_subtree_true.
Qed.

(** Runs of the operations from the empty map. *)
Inductive st_step : subtree_map -> subtree_map -> Prop :=
| step_adjust s dir auth ev s' es : auth <> CDIR_AUTH_DEFAULT ->
    adjust_subtree_auth t no_eval dir auth ev s = Ok (s', es) -> st_step s s'
| step_bounded fuel s dir bounds auth s' : auth <> CDIR_AUTH_DEFAULT ->
    adjust_bounded_subtree_auth t no_eval inode_authority fuel dir bounds auth s = Ok (Some s') ->
    st_step s s'
| step_merge_at s dir ev s' es : try_subtree_merge_at t no_eval dir ev s = Ok (s', es) -> st_step s s'
| step_merge s dir s' es : try_subtree_merge t no_eval dir s = Ok (s', es) -> st_step s s'.

Inductive st_reach : subtree_map -> Prop :=
| reach_empty : st_reach (mk_subtrees ∅ ∅)
| reach_step s s' : st_reach s -> st_step s s' -> st_reach s'.

Lemma empty_inv : subtree_inv t (mk_subtrees ∅ ∅).
Proof.
  split; simpl; intros *; rewrite lookup_empty.
  - split; [by intros []|done].
  - by intros [].
  - by intros [].
Qed.

Lemma reach_inv s : st_reach s -> subtree_inv t s.
Proof.
  intros Hr.
  induction Hr as [|s s' _ IH Hst]; [apply empty_inv|]. destruct Hst.
  - by eapply adjust_inv.
  - by eapply adjust_bounded_inv.
  - by eapply merge_at_inv.
  - assert (has_subtree s dir = true) as Hs
      by (unfold try_subtree_merge in H; by destruct (has_subtree s dir)).
    apply has_subtree_true in Hs. destruct (try_subtree_merge_ok dir s IH Hs) as (s1 & es1 & E1 & Hi & _).
    rewrite H in E1. by injection E1 as <- <-.
Qed.

(** C1: in every state the subtree operations reach, the subtree map is keyed by exactly the
    directories that delegate authority, and the bounds of each subtree are exactly the
    subtree roots whose governing root above is that subtree's; no subtree is an orphan. *)
Theorem subtree_map_consistent s :
  st_reach s ->
  (forall d, is_Some (st_subtrees s !! d) <-> is_subtree_root s d = true) /\
  (forall r d, is_Some (st_subtrees s !! r) ->
     d ∈ bounds_of s r <-> is_Some (st_subtrees s !! d) /\
       exists p, t_parent t d = Some p /\ get_subtree_root t s p = Some r) /\
  (forall d p, is_Some (st_subtrees s !! d) -> t_parent t d = Some p ->
     exists r, get_subtree_root t s p = Some r /\ d ∈ bounds_of s r).
Proof.
  intros Hr. pose proof (reach_inv s Hr) as Hinv.
  pose proof Hinv as [Hd Hb Hn].
  assert (forall r d, nested_under t s r d <->
    exists p, t_parent t d = Some p /\ get_subtree_root t s p = Some r) as Hnest.
  { intros r d. unfold nested_under. destruct (t_parent t d) as [p|]; naive_solver. }
  split_and!; [done| |].
  - intros r d Hr'. by rewrite (Hb r d Hr'), Hnest.
  - intros d p Hds Hp. destruct (Hn d p Hds Hp) as [r Er]. exists r. split; [done|].
    apply Hb; [by apply Hd; eapply root_is_root|]. split; [done|]. unfold nested_under. by rewrite Hp.
Qed.

(** ** Would-be bounds *)

Lemma walk_meets_spec s s' dir root :
  get_subtree_root t s dir = Some root -> root <> dir ->
  (forall x, is_subtree_root s' x = if x =? dir then true else is_subtree_root s x) ->
  forall x fuel, get_subtree_root t s x = Some root -> (t_depth t x <= fuel)%nat ->
  exists b, walk_meets t fuel dir root x = Some (Ok b) /\
    ((x =? dir) || b = true <-> get_subtree_root t s' x = Some dir).
Proof.
  intros Hdir Hne Hs' x. induction x as [x IH] using (tree_ind t Hok). intros fuel Hx Hf.
  pose proof (root_is_root t Hok s dir root Hdir) as Hrr. rewrite (root_unfold t Hok s' x), Hs'.
  destruct (Z.eqb_spec x root) as [->|N].
  { exists false. destruct (Z.eqb_spec root dir); [done|]. rewrite Hrr.
    split; [destruct fuel; simpl; by rewrite Z.eqb_refl|]. simpl. split; congruence. }
  rewrite (root_unfold t Hok) in Hx. destruct (is_subtree_root s x) eqn:Ex; [congruence|].
  destruct (t_parent t x) as [q|] eqn:Eq; [|done].
  pose proof (tk_depth t Hok x q Eq) as Hdq. destruct fuel as [|fuel]; [lia|].
  destruct (IH q eq_refl fuel Hx) as (b & E & Hb); [lia|].
  exists ((q =? dir) || b). simpl. destruct (Z.eqb_spec x root); [done|]. rewrite Eq, E.
  split; [done|]. destruct (Z.eqb_spec x dir) as [->|]; simpl; [done|].
  destruct ((q =? dir) || b); exact Hb.
Qed.

(** C38: [get_wouldbe_subtree_bounds] foretells [adjust_subtree_auth]: for a directory inside a
    subtree it returns, without failing its assert, exactly the bounds the directory gets when
    it is made a subtree. *)
Theorem wouldbe_bounds_correct dir auth ev s :
  subtree_inv t s -> auth <> CDIR_AUTH_DEFAULT -> is_subtree_root s dir = false ->
  is_Some (get_subtree_root t s dir) ->
  exists s' es, adjust_subtree_auth t no_eval dir auth ev s = Ok (s', es) /\
    get_wouldbe_subtree_bounds t dir s = Ok (s, bounds_of s' dir).
Proof.
  clear Hia. intros Hinv Ha Hf [root Hroot].
  destruct (adjust_subtree_auth_ok dir auth ev s Hinv Ha) as (s' & es & E & Hi & _ & Hroots); [eauto|].
  exists s', es. split; [done|]. pose proof (si_dom _ _ Hinv) as Hd.
  assert (has_subtree s dir = false) as Hh.
  { apply not_true_is_false. rewrite has_subtree_true, Hd. congruence. }
  unfold get_wouldbe_subtree_bounds. rewrite Hh, Hroot. cbv zeta. unfold default, id.
  pose proof (root_is_root t Hok s dir root Hroot) as Hrr. rewrite touch_id by by apply Hd.
  assert (root <> dir) as Hne by congruence.
  assert (forall ps, (forall p, p ∈ ps -> p ∈ bounds_of s root) -> exists bs,
    wouldbe_bounds t dir root ps = Ok bs /\
    forall p, p ∈ bs <-> p ∈ ps /\ nested_under t s' dir p) as Hlist.
  { induction ps as [|p ps IH]; intros Hps; simpl; [exists ∅; set_solver|].
    destruct IH as (bs & Ebs & Hbs); [intros; apply Hps; by right|].
    assert (p ∈ bounds_of s root) as Hp by (apply Hps; by left).
    apply (si_bounds _ _ Hinv) in Hp as [_ Hp]; [|by apply Hd]. pose proof Hp as Hdp.
    apply nested_depth in Hdp; [|done]. unfold nested_under in Hp.
    destruct (t_parent t p) as [q|] eqn:Eq; [|done]. pose proof (tk_depth t Hok p q Eq) as Hdq.
    destruct (t_depth t p) as [|n] eqn:En; [lia|]. simpl.
    destruct (Z.eqb_spec p root) as [->|]; [lia|]. rewrite Eq.
    destruct (walk_meets_spec s s' dir root Hroot Hne Hroots q n Hp) as (b & -> & Hb); [lia|].
    rewrite Ebs. simpl. eexists. split; [done|]. intros p'. rewrite elem_of_cons.
    assert (nested_under t s' dir p <-> (q =? dir) || b = true) as Hpn
      by (unfold nested_under; rewrite Eq; by rewrite Hb).
    destruct ((q =? dir) || b); [rewrite elem_of_union, elem_of_singleton|]; rewrite Hbs; naive_solver. }
  destruct (Hlist (ordered_elems (bounds_of s root))) as (bs & -> & Hbs).
  { intros p. by rewrite elem_of_ordered_elems. }
  simpl. do 2 f_equal. apply set_eq. intros p. rewrite Hbs, elem_of_ordered_elems.
  rewrite (si_bounds _ _ Hi dir p), (si_bounds _ _ Hinv root p); [|by apply Hd|].
  2: { apply (si_dom _ _ Hi). by rewrite Hroots, Z.eqb_refl. }
  rewrite (si_dom _ _ Hi), Hroots, Hd. split.
  - intros [[? ?] Hn']. split; [|done]. by destruct (p =? dir).
  - intros [Hp Hn']. split; [|done]. destruct (Z.eqb_spec p dir) as [Epd|Npd].
    { apply (nested_depth t Hok) in Hn'. subst p. lia. }
    split; [done|]. unfold nested_under in *. destruct (t_parent t p) as [q|]; [|done].
    destruct (root_after_set t Hok s s' dir Hf Hroots q) as [[_ ->]|[? _]]; [done|congruence].
Qed.

End Ops.

(** ** Witnesses

    The root directory 1 holds 2 and 4, 2 holds 3.  Rank 0 has the root; 3 is delegated to
    rank 1, then 2 to rank 1 too. *)

Definition demo_parent (d : Z) : option Z :=
  if d =? 2 then Some 1 else if d =? 3 then Some 2 else if d =? 4 then Some 1 else None.
Definition demo_depth (d : Z) : nat :=
  if d =? 2 then 1 else if d =? 3 then 2 else if d =? 4 then 1 else 0.
Definition demo_tree : tree :=
  mk_tree demo_parent demo_depth (fun d => match demo_parent d with None => true | _ => false end)
    (fun d => d =? 1) (fun _ => false) (fun _ => true) (fun _ => 0) (fun _ => false) (fun _ => false).
Definition demo_inode_authority (auths : gmap Z authority_t) (d : Z) : authority_t := (0, CDIR_AUTH_UNKNOWN).

Definition demo_map (l : list (Z * list Z)) (a : list (Z * authority_t)) : subtree_map :=
  mk_subtrees (list_to_map (prod_map id list_to_set <$> l)) (list_to_map a).
Definition demo1 : subtree_map := demo_map [(1, [])] [(1, (0, -2))].
Definition demo2 : subtree_map := demo_map [(1, [3]); (3, [])] [(1, (0, -2)); (3, (1, -2))].
Definition demo3 : subtree_map := demo_map [(1, [2]); (2, [3]); (3, [])] [(1, (0, -2)); (2, (1, -2)); (3, (1, -2))].

Lemma demo_ok : tree_ok demo_tree.
Proof.
  split; simpl.
  - intros d p. unfold demo_parent, demo_depth.
    destruct (Z.eqb_spec d 2) as [->|]; [intros [= <-]; simpl; lia|].
    destruct (Z.eqb_spec d 3) as [->|]; [intros [= <-]; simpl; lia|].
    destruct (Z.eqb_spec d 4) as [->|]; [intros [= <-]; simpl; lia|done].
  - intros d. by destruct (demo_parent d).
  - by intros d ->%Z.eqb_eq.
Qed.

Lemma demo_step s dir auth s' es :
  auth <> CDIR_AUTH_DEFAULT -> adjust_subtree_auth demo_tree false dir auth true s = Ok (s', es) ->
  st_reach demo_tree false demo_inode_authority s -> st_reach demo_tree false demo_inode_authority s'.
Proof. intros Ha E H. eapply reach_step; [exact H|]. by eapply step_adjust. Qed.

Lemma demo_reach1 : st_reach demo_tree false demo_inode_authority demo1.
Proof. eapply (demo_step (mk_subtrees ∅ ∅) 1 (0, -2)); [done|vm_compute; reflexivity|apply reach_empty]. Qed.
Lemma demo_reach2 : st_reach demo_tree false demo_inode_authority demo2.
Proof. eapply (demo_step demo1 3 (1, -2)); [done|vm_compute; reflexivity|apply demo_reach1]. Qed.
Lemma demo_reach3 : st_reach demo_tree false demo_inode_authority demo3.
Proof. eapply (demo_step demo2 2 (1, -2)); [done|vm_compute; reflexivity|apply demo_reach2]. Qed.

Lemma demo_inv s : st_reach demo_tree false demo_inode_authority s -> subtree_inv demo_tree s.
Proof. apply reach_inv; [apply demo_ok|done]. Qed.

Lemma adjust_subtree_auth_spec_witness : exists s' es,
  adjust_subtree_auth demo_tree false 2 (1, -2) true demo2 = Ok (s', es) /\ subtree_inv demo_tree s' /\
  get_subtree_root demo_tree s' 2 = Some 2 /\
  forall x, (get_subtree_root demo_tree s' x = Some 2 /\ governed_by demo_tree s' x = Some (1, -2) /\
             get_subtree_root demo_tree demo2 x = get_subtree_root demo_tree demo2 2) \/
            (get_subtree_root demo_tree s' x <> Some 2 /\
             get_subtree_root demo_tree s' x = get_subtree_root demo_tree demo2 x /\
             governed_by demo_tree s' x = governed_by demo_tree demo2 x).
Proof.
  apply (adjust_subtree_auth_spec demo_tree demo_ok false 2 (1, -2) true demo2).
  - apply demo_inv, demo_reach2.
  - done.
  - right. exists 1. vm_compute. reflexivity.
Defined.

Lemma merge_keeps_authority_witness :
  (exists s' es, try_subtree_merge demo_tree false 2 demo3 = Ok (s', es) /\ subtree_inv demo_tree s' /\
     forall x, governed_by demo_tree s' x = governed_by demo_tree demo3 x) /\
  (forall ev, exists s' es, try_subtree_merge_at demo_tree false 2 ev demo3 = Ok (s', es) /\
     subtree_inv demo_tree s' /\ (forall x, governed_by demo_tree s' x = governed_by demo_tree demo3 x) /\
     (is_subtree_root s' 2 = false <->
        exists par, nested_under demo_tree demo3 par 2 /\ merges demo_tree demo3 2 par = true)).
Proof.
  apply (merge_keeps_authority demo_tree demo_ok false 2 demo3).
  - apply demo_inv, demo_reach3.
  - vm_compute. eauto.
Defined.

Lemma subtree_map_consistent_witness :
  (forall d, is_Some (st_subtrees demo3 !! d) <-> is_subtree_root demo3 d = true) /\
  (forall r d, is_Some (st_subtrees demo3 !! r) ->
     d ∈ bounds_of demo3 r <-> is_Some (st_subtrees demo3 !! d) /\
       exists p, t_parent demo_tree d = Some p /\ get_subtree_root demo_tree demo3 p = Some r) /\
  (forall d p, is_Some (st_subtrees demo3 !! d) -> t_parent demo_tree d = Some p ->
     exists r, get_subtree_root demo_tree demo3 p = Some r /\ d ∈ bounds_of demo3 r).
Proof.
  apply (subtree_map_consistent demo_tree demo_ok false demo_inode_authority).
  - done.
  - apply demo_reach3.
Defined.

Lemma wouldbe_bounds_correct_witness : exists s' es,
  adjust_subtree_auth demo_tree false 2 (1, -2) true demo2 = Ok (s', es) /\
  get_wouldbe_subtree_bounds demo_tree 2 demo2 = Ok (demo2, bounds_of s' 2).
Proof.
  apply (wouldbe_bounds_correct demo_tree demo_ok false 2 (1, -2) true demo2).
  - apply demo_inv, demo_reach2.
  - done.
  - vm_compute. reflexivity.
  - exists 1. vm_compute. reflexivity.
Defined.

(** A bounded delegation: 2 goes to rank 1 with the bound 3, which stays with rank 0. *)
Example demo_bounded :
  adjust_bounded_subtree_auth demo_tree false demo_inode_authority 5 2 {[3]} (1, -2) demo1 =
    Ok (Some (demo_map [(1, [2]); (2, [3]); (3, [])] [(1, (0, -2)); (2, (1, -2)); (3, (0, -2))])).
Proof. vm_compute. reflexivity. Qed.
