(* ===== verification/SubtreeRename.v ===== *)
(** * The subtree map after a rename (MDCache.cc)

    A rename moves a directory inode, with its fragments and all below, from one directory to
    another.  [adjust_subtree_after_rename] then repairs the subtree map, so that the authority of no
    directory changes: a fragment that is a subtree of its own changes its parent subtree, and one
    in the middle of a subtree takes the bounds beneath it along and becomes a subtree if the
    authorities differ.  [projected_subtree_renames] keeps the renames that are not yet done.

    The hierarchy after the rename is the parameter [t] of file Subtree; [CInode]'s lists of
    fragments, which are not in the repository, are arguments. *)

From stdpp Require Import base tactics numbers list gmap sorting.
From Stdlib Require Import ZArith Lia.
From S2P Require Import Prelude Subtree.
Open Scope Z_scope.

Abbreviation renames := (gmap Z (list (Z * Z))).

Definition project_subtree_rename (diri olddir newdir : Z) (m : renames) : renames :=
  <[diri := default [] (m !! diri) ++ [(olddir, newdir)]]> m.

(** [if (pop)]: the oldest rename of the inode is done *)
Definition pop_rename (diri olddir newdir : Z) (m : renames) : res renames :=
  match m !! diri with
  | None | Some [] => Abort
  | Some (r :: l) =>
      check (fst r =? olddir) ;; check (snd r =? newdir) ;;
      Ok (match l with [] => delete diri m | _ => <[diri := l]> m end)
  end.

Section Rename.
Context (t : tree) (no_eval : bool).
Context (inode_authority : gmap Z authority_t -> Z -> authority_t).
Implicit Types s : subtree_map.

(** the bounds whose subtree root is no longer [oldparent] *)
Fixpoint bounds_to_move (oldparent newparent : Z) (bs : list Z) s : res (list Z) :=
  match bs with
  | [] => Ok []
  | b :: bs =>
      r ← parent_root t s b;
      if bool_decide (r = Some oldparent) then bounds_to_move oldparent newparent bs s
      else
        check (bool_decide (r = Some newparent)) ;;
        l ← bounds_to_move oldparent newparent bs s; Ok (b :: l)
  end.

(** [subtrees[oldparent].erase(b); subtrees[newparent].insert(b)] *)
Definition move_bound (oldparent newparent b : Z) s : subtree_map :=
  let s := set_bounds oldparent (bounds_of s oldparent ∖ {[b]}) s in
  set_bounds newparent ({[b]} ∪ bounds_of s newparent) s.

(** lines 1342-1349 *)
Definition rename_root (imported : bool) (oldparent newparent dir : Z) s : res (subtree_map * list st_effect) :=
  let s := touch oldparent s in
  check (bool_decide (dir ∈ bounds_of s oldparent)) ;;
  check (has_subtree (set_bounds oldparent (bounds_of s oldparent ∖ {[dir]}) s) newparent) ;;
  try_subtree_merge_at t no_eval dir (negb imported) (move_bound oldparent newparent dir s).

(** lines 1350-1377 *)
Definition rename_mid (imported : bool) (oldparent newparent dir : Z) s : res (subtree_map * list st_effect) :=
  let s := touch oldparent s in
  tomove ← bounds_to_move oldparent newparent (ordered_elems (bounds_of s oldparent)) s;
  let s := fold_left (fun s b => move_bound oldparent newparent b s) tomove s in
  if bool_decide (authority inode_authority s oldparent = authority inode_authority s newparent) then Ok (s, [])
  else
    r ← adjust_subtree_auth t no_eval dir (authority inode_authority s oldparent) (negb imported) s;
    r' ← try_subtree_merge_at t no_eval dir (negb imported) (fst r);
    Ok (fst r', snd r ++ snd r').

(** one fragment; a null root fails an assert or is dereferenced *)
Definition rename_frag (imported : bool) (olddir newdir dir : Z) s : res (subtree_map * list st_effect) :=
  let oldparent := get_subtree_root t s olddir in
  let newparent := get_subtree_root t s newdir in
  if bool_decide (oldparent = newparent) then Ok (s, [])
  else
    match oldparent, newparent with
    | Some oldparent, Some newparent =>
        if is_subtree_root s dir then rename_root imported oldparent newparent dir s
        else rename_mid imported oldparent newparent dir s
    | _, _ => Abort
    end.

Fixpoint rename_frags (imported : bool) (olddir newdir : Z) (dfls : list Z) s : res (subtree_map * list st_effect) :=
  match dfls with
  | [] => Ok (s, [])
  | dir :: dfls =>
      r ← rename_frag imported olddir newdir dir s;
      r' ← rename_frags imported olddir newdir dfls (fst r);
      Ok (fst r', snd r ++ snd r')
  end.

(** [newdir] is [diri->get_parent_dir()]; the lists of fragments are those of the inode. *)
Definition adjust_subtree_after_rename (subtree_dirfrags nested_dirfrags : subtree_map -> list Z) (diri olddir newdir : Z)
    (pop imported : bool) (m : renames) s : res (renames * subtree_map * list st_effect) :=
  m ← (if pop then pop_rename diri olddir newdir m else Ok m);
  r ← rename_frags imported olddir newdir (subtree_dirfrags s ++ nested_dirfrags s) s;
  Ok (m, fst r, snd r).

End Rename.

(** ** Settling bounds

    [settle P] moves the bounds in [P] from one subtree to another at once.  A state in which [P] is
    still to be moved is consistent when settling it is. *)

Section Settle.
Context (op np : Z) (Hne : op <> np).
Implicit Types s : subtree_map.
Implicit Types P Q : gset Z.

Definition settle P s : subtree_map := set_bounds np (P ∪ bounds_of s np) (set_bounds op (bounds_of s op ∖ P) s).

Lemma settle_lookup P s x : st_subtrees (settle P s) !! x =
  if decide (x = np) then Some (P ∪ bounds_of s np) else if decide (x = op) then Some (bounds_of s op ∖ P) else st_subtrees s !! x.
Proof.
  unfold settle. simpl. destruct (decide (x = np)) as [->|]; [by rewrite lookup_insert_eq|]. rewrite lookup_insert_ne by done.
  destruct (decide (x = op)) as [->|]; [by rewrite lookup_insert_eq|by rewrite lookup_insert_ne].
Qed.
Lemma settle_bounds P s x : bounds_of (settle P s) x =
  if decide (x = np) then P ∪ bounds_of s np else if decide (x = op) then bounds_of s op ∖ P else bounds_of s x.
Proof. unfold bounds_of at 1. rewrite settle_lookup. by destruct (decide (x = np)), (decide (x = op)). Qed.

Lemma map_ext s s' : st_dir_auth s = st_dir_auth s' -> (forall x, st_subtrees s !! x = st_subtrees s' !! x) -> s = s'.
Proof. destruct s, s'. simpl. intros -> E. f_equal. by apply map_eq. Qed.

Lemma bounds_some s x : is_Some (st_subtrees s !! x) -> st_subtrees s !! x = Some (bounds_of s x).
Proof. intros [b E]. unfold bounds_of. by rewrite E. Qed.

Lemma settle_empty s : is_Some (st_subtrees s !! op) -> is_Some (st_subtrees s !! np) -> settle ∅ s = s.
Proof.
  intros Ho Hn. apply map_ext; [done|]. intros x. rewrite settle_lookup. destruct (decide (x = np)) as [->|].
  - rewrite (bounds_some s np Hn). f_equal. set_solver.
  - destruct (decide (x = op)) as [->|]; [|done]. rewrite (bounds_some s op Ho). f_equal. set_solver.
Qed.
Lemma settle_settle P Q s : settle P (settle Q s) = settle (P ∪ Q) s.
Proof.
  apply map_ext; [done|]. intros x. rewrite !settle_lookup, !settle_bounds. rewrite (decide_True (P := np = np)) by done.
  rewrite (decide_False (P := op = np)), (decide_True (P := op = op)) by done.
  destruct (decide (x = np)); [f_equal; set_solver|]. destruct (decide (x = op)); [f_equal; set_solver|done].
Qed.
Lemma settle_dom P s x : is_Some (st_subtrees s !! op) -> is_Some (st_subtrees s !! np) ->
  is_Some (st_subtrees (settle P s) !! x) <-> is_Some (st_subtrees s !! x).
Proof.
  intros Ho Hn. rewrite settle_lookup. destruct (decide (x = np)) as [->|]; [by split; [|eauto]|].
  destruct (decide (x = op)) as [->|]; [by split; [|eauto]|done].
Qed.

Lemma move_settles b s : move_bound op np b s = settle {[b]} s.
Proof. unfold move_bound, settle. rewrite (bounds_set op), decide_False by done. done. Qed.
Lemma moves_settle l s : is_Some (st_subtrees s !! op) -> is_Some (st_subtrees s !! np) ->
  fold_left (fun s b => move_bound op np b s) l s = settle (list_to_set l) s.
Proof.
  revert s. induction l as [|b l IH]; intros s Ho Hn; cbn [fold_left list_to_set]; [by rewrite settle_empty|].
  rewrite IH, move_settles, settle_settle by (rewrite move_settles; by apply settle_dom). f_equal. set_solver.
Qed.

Lemma settle_root t P s x : get_subtree_root t (settle P s) x = get_subtree_root t s x.
Proof. unfold get_subtree_root. generalize (t_depth t x). intros n. revert x. induction n as [|n IH]; intros x; cbn; [done|].
  change (is_subtree_root (settle P s) x) with (is_subtree_root s x). destruct (is_subtree_root s x); [done|]. by destruct (t_parent t x). Qed.

(** Merging another subtree into [np] and settling can be exchanged. *)
Lemma merge_settle t no_eval f ev P s p : f ∉ P -> f <> op -> f <> np -> t_base t f = false -> t_parent t f = Some p -> get_subtree_root t s p = Some np ->
  try_subtree_merge_at t no_eval f ev (settle P s) = r ← try_subtree_merge_at t no_eval f ev s; Ok (settle P (fst r), snd r).
Proof.
  intros Nf No Nn Eb Ep Er. unfold try_subtree_merge_at.
  assert (has_subtree (settle P s) f = has_subtree s f) as -> by (unfold has_subtree; rewrite settle_lookup; by rewrite !decide_False).
  destruct (has_subtree s f); [|done]. cbn [assert_ mbind res_bind]. rewrite Eb. unfold parent_root. rewrite Ep, settle_root, Er. cbn [mbind res_bind].
  change (dir_auth (settle P s)) with (dir_auth s). destruct (_ && _); [|done]. cbn [mbind res_bind fst snd].
  f_equal. f_equal. fold (merge_state np f (settle P s)). fold (merge_state np f s). apply map_ext; [done|]. intros x. rewrite settle_lookup.
  assert (forall s', bounds_of (merge_state np f s') np = (bounds_of s' np ∪ bounds_of s' f) ∖ {[f]}) as Bn.
  { intros s'. unfold merge_state. rewrite bounds_set, decide_True by done. f_equal. unfold bounds_of at 1. cbn.
    rewrite lookup_delete_ne, lookup_insert_eq by done. done. }
  assert (forall s' y, y <> np -> st_subtrees (merge_state np f s') !! y = if decide (y = f) then None else st_subtrees s' !! y) as Bo.
  { intros s' y Ny. unfold merge_state. cbn. rewrite lookup_insert_ne by done. destruct (decide (y = f)) as [->|]; [by rewrite lookup_delete_eq|].
    by rewrite lookup_delete_ne, lookup_insert_ne by done. }
  destruct (decide (x = np)) as [->|Nx].
  - transitivity (Some (bounds_of (merge_state np f (settle P s)) np)).
    { apply bounds_some. unfold merge_state. cbn. by rewrite lookup_insert_eq. }
    f_equal. rewrite !Bn, !settle_bounds, decide_True, (decide_False (P := f = np)), (decide_False (P := f = op)) by done. set_solver.
  - rewrite Bo by done. destruct (decide (x = op)) as [->|Nxo].
    + rewrite decide_False by done. rewrite settle_lookup, decide_False, decide_True by done. f_equal. f_equal.
      unfold bounds_of. by rewrite Bo, decide_False by done.
    + rewrite Bo by done. destruct (decide (x = f)); [done|]. by rewrite settle_lookup, !decide_False.
Qed.

End Settle.

(** ** The hierarchy before and after *)

(** The fragments [frags] hung below [olddir] in [t0] and hang below [newdir] in [t]. *)
Record renamed (t0 t : tree) (olddir newdir : Z) (frags : list Z) : Prop := {
  rn_old : forall f, f ∈ frags -> t_parent t0 f = Some olddir;
  rn_new : forall f, f ∈ frags -> t_parent t f = Some newdir;
  rn_other : forall d, d ∉ frags -> t_parent t d = t_parent t0 d
}.

Section Spec.
Context (t0 t : tree) (Hok0 : tree_ok t0) (Hok : tree_ok t) (no_eval : bool).
Context (inode_authority : gmap Z authority_t -> Z -> authority_t).
Context (olddir newdir : Z) (frags : list Z) (Hrn : renamed t0 t olddir newdir frags).
Implicit Types s : subtree_map.

(** The roots differ in fragments at most. *)
Definition alike s s' : Prop := forall y, y ∉ frags -> is_subtree_root s' y = is_subtree_root s y.

Lemma olddir_root s s' : alike s s' -> get_subtree_root t s' olddir = get_subtree_root t0 s olddir.
Proof.
  intros Ha. assert (forall x, (t_depth t0 x <= t_depth t0 olddir)%nat -> get_subtree_root t s' x = get_subtree_root t0 s x) as Hx; [|by apply Hx].
  intros x. induction x as [x IH] using (tree_ind t0 Hok0). intros Hd.
  assert (x ∉ frags) as Nx. { intros Hx. apply (rn_old _ _ _ _ _ Hrn), (tk_depth t0 Hok0) in Hx. lia. }
  rewrite (root_unfold t Hok s' x), (root_unfold t0 Hok0 s x), (Ha x Nx), (rn_other _ _ _ _ _ Hrn x Nx). destruct (is_subtree_root s x); [done|].
  destruct (t_parent t0 x) as [p|] eqn:Ep; [|done]. apply IH; [done|]. apply (tk_depth t0 Hok0) in Ep. lia.
Qed.
Lemma newdir_root s s' : alike s s' -> get_subtree_root t s' newdir = get_subtree_root t s newdir.
Proof.
  intros Ha. assert (forall x, (t_depth t x <= t_depth t newdir)%nat -> get_subtree_root t s' x = get_subtree_root t s x) as Hx; [|by apply Hx].
  intros x. induction x as [x IH] using (tree_ind t Hok). intros Hd.
  assert (x ∉ frags) as Nx. { intros Hx. apply (rn_new _ _ _ _ _ Hrn), (tk_depth t Hok) in Hx. lia. }
  rewrite (root_unfold t Hok s' x), (root_unfold t Hok s x), (Ha x Nx). destruct (is_subtree_root s x); [done|].
  destruct (t_parent t x) as [p|] eqn:Ep; [|done]. apply IH; [done|]. apply (tk_depth t Hok) in Ep. lia.
Qed.

Lemma newdir_not_frag s f r : f ∈ frags -> get_subtree_root t s newdir = Some r -> r <> f.
Proof. intros Hf Hr ->. apply (root_depth t Hok) in Hr. apply (rn_new _ _ _ _ _ Hrn), (tk_depth t Hok) in Hf. lia. Qed.
Lemma olddir_not_frag s f r : f ∈ frags -> get_subtree_root t0 s olddir = Some r -> r <> f.
Proof. intros Hf Hr ->. apply (root_depth t0 Hok0) in Hr. apply (rn_old _ _ _ _ _ Hrn), (tk_depth t0 Hok0) in Hf. lia. Qed.

(** [x] hangs on the fragment [f], which is not a root: the way up from [x] meets [f] first. *)
Definition mark (f : Z) s : subtree_map := set_dir_auth f (0, 0) s.
Definition hangs s (f x : Z) : Prop := get_subtree_root t (mark f s) x = Some f.

Lemma mark_root f s x : is_subtree_root (mark f s) x = if x =? f then true else is_subtree_root s x.
Proof. by apply set_dir_auth_root. Qed.

Lemma hangs_self s f : hangs s f f.
Proof. unfold hangs. by rewrite (root_unfold t Hok), mark_root, Z.eqb_refl. Qed.

(** From each directory both hierarchies lead to the same root, unless it hangs on a fragment. *)
Lemma root_case s x : get_subtree_root t0 s x = get_subtree_root t s x \/
  exists f, f ∈ frags /\ is_subtree_root s f = false /\ hangs s f x.
Proof.
  induction x as [x IH] using (tree_ind t0 Hok0). destruct (decide (x ∈ frags)) as [Hx|Nx].
  - destruct (is_subtree_root s x) eqn:Er; [|right; exists x; by split_and!; [| |apply hangs_self]].
    left. by rewrite (root_unfold t0 Hok0), (root_unfold t Hok), Er.
  - rewrite (root_unfold t0 Hok0), (root_unfold t Hok), (rn_other _ _ _ _ _ Hrn x Nx). destruct (is_subtree_root s x) eqn:Er; [by left|].
    destruct (t_parent t0 x) as [p|] eqn:Ep; [|by left]. destruct (IH p eq_refl) as [->|(f & Hf & Ef & Hh)]; [by left|right].
    exists f. split_and!; [done|done|]. unfold hangs. rewrite (root_unfold t Hok), mark_root, (rn_other _ _ _ _ _ Hrn x Nx), Er, Ep.
    destruct (Z.eqb_spec x f); [by subst|done].
Qed.

Lemma hangs_old s f x : f ∈ frags -> is_subtree_root s f = false -> hangs s f x -> get_subtree_root t0 s x = get_subtree_root t0 s olddir.
Proof.
  intros Hf Ef. revert x. intros x. induction x as [x IH] using (tree_ind t Hok). unfold hangs. rewrite (root_unfold t Hok), mark_root.
  destruct (Z.eqb_spec x f) as [->|Nxf].
  { intros _. by rewrite (root_unfold t0 Hok0 s f), Ef, (rn_old _ _ _ _ _ Hrn f Hf). }
  destruct (is_subtree_root s x) eqn:Er; [by intros [= ->]|]. destruct (t_parent t x) as [p|] eqn:Ep; [|done]. intros Hh.
  destruct (decide (x ∈ frags)) as [Hx|Nx].
  { rewrite (rn_new _ _ _ _ _ Hrn x Hx) in Ep. injection Ep as <-. by destruct (newdir_not_frag (mark f s) f f Hf Hh). }
  rewrite (root_unfold t0 Hok0 s x), Er, <- (rn_other _ _ _ _ _ Hrn x Nx), Ep. by apply IH.
Qed.
Lemma hangs_new s f x : f ∈ frags -> is_subtree_root s f = false -> hangs s f x -> get_subtree_root t s x = get_subtree_root t s newdir.
Proof.
  intros Hf Ef Hh. destruct (root_after_set t Hok s (mark f s) f Ef (mark_root f s) x) as [[_ ->]|[N _]]; [|done].
  by rewrite (root_unfold t Hok), Ef, (rn_new _ _ _ _ _ Hrn f Hf).
Qed.

(** ** What is still to be moved *)

Section Move.
Context (op np : Z) (Hne : op <> np) (Hop : op ∉ frags) (Hnp : np ∉ frags).
Abbreviation settle := (settle op np).

(** The bounds in [P] are still to be moved. *)
Record pending (P : gset Z) s : Prop := {
  pe_inv : subtree_inv t (settle P s);
  pe_sub : P ⊆ bounds_of s op;
  pe_old : get_subtree_root t s olddir = Some op;
  pe_new : get_subtree_root t s newdir = Some np;
  pe_op : is_Some (st_subtrees s !! op);
  pe_np : is_Some (st_subtrees s !! np)
}.

(** Every directory is governed as [g] says, but for those that hang on a fragment in [L]. *)
Record owed (g : Z -> option authority_t) (a : authority_t) (L : list Z) s : Prop := {
  ow_gov : forall x, governed_by t s x = g x \/ exists f, f ∈ L /\ hangs s f x;
  ow_old : forall f x, f ∈ L -> hangs s f x -> g x = Some a;
  ow_mid : forall f, f ∈ L -> f ∈ frags /\ is_subtree_root s f = false
}.

Lemma governed_settle P s x : governed_by t (settle P s) x = governed_by t s x.
Proof. unfold governed_by. by rewrite settle_root. Qed.

Lemma alike_roots s s' : alike s s' -> get_subtree_root t s' olddir = get_subtree_root t s olddir /\ get_subtree_root t s' newdir = get_subtree_root t s newdir.
Proof. intros Ha. split; [|by apply newdir_root]. by rewrite (olddir_root s s' Ha), (olddir_root s s). Qed.

(** A fragment is merged into [np], or stays. *)
Lemma merge_frame f ev s s' es : f ∈ frags -> get_subtree_root t s newdir = Some np ->
  try_subtree_merge_at t no_eval f ev s = Ok (s', es) -> s' = s \/ s' = merge_state np f s.
Proof.
  intros Hf Hr E. unfold try_subtree_merge_at in E. apply bind_ok in E as (? & _ & E).
  destruct (t_base t f) eqn:Eb. { apply (tk_base t Hok) in Eb. by rewrite (rn_new _ _ _ _ _ Hrn f Hf) in Eb. }
  unfold parent_root in E. rewrite (rn_new _ _ _ _ _ Hrn f Hf), Hr in E. cbn [mbind res_bind] in E. destruct (_ && _); [|injection E as <- _; by left].
  injection E as <- _. by right.
Qed.

(** Clearing a root among the fragments does not change what hangs on the others. *)
Lemma hangs_clear s s' f f' x : f ∈ frags -> f' ∈ frags -> f' <> f -> is_subtree_root s f = true ->
  (forall y, is_subtree_root s' y = if y =? f then false else is_subtree_root s y) -> hangs s' f' x <-> hangs s f' x.
Proof.
  intros Hf Hf' Nf Er Hs. unfold hangs.
  assert (forall y, is_subtree_root (mark f' s') y = if y =? f then false else is_subtree_root (mark f' s) y) as Hm.
  { intros y. rewrite !mark_root, Hs. destruct (Z.eqb_spec y f), (Z.eqb_spec y f'); congruence. }
  rewrite (root_after_clear t Hok (mark f' s) (mark f' s') f); [|rewrite mark_root, Er; by destruct (f =? f')|done].
  case_bool_decide as Ex; [|done]. rewrite Ex. split; [|congruence]. rewrite (root_unfold t Hok), Hm, Z.eqb_refl, (rn_new _ _ _ _ _ Hrn f Hf).
  intros E. by destruct (newdir_not_frag _ f' f' Hf' E).
Qed.
Lemma hangs_ext s s' f x : (forall y, is_subtree_root s' y = is_subtree_root s y) -> hangs s' f x <-> hangs s f x.
Proof. intros Hs. unfold hangs. rewrite (root_ext t Hok (mark f s) (mark f s')); [done|]. intros y. by rewrite !mark_root, Hs. Qed.

Lemma owed_same g a L s s' : owed g a L s -> (forall x, governed_by t s' x = governed_by t s x) -> (forall f x, f ∈ L -> hangs s' f x <-> hangs s f x) ->
  (forall f, f ∈ L -> is_subtree_root s' f = is_subtree_root s f) -> owed g a L s'.
Proof.
  intros [Hg Ho Hm] Eg Eh Er. split.
  - intros x. rewrite Eg. destruct (Hg x) as [->|(f & Hf & Hh)]; [by left|right]. exists f. by rewrite Eh.
  - intros f x Hf Hh. apply (Ho f); [done|by apply Eh].
  - intros f Hf. rewrite Er by done. by apply Hm.
Qed.

(** ** One fragment that is a subtree *)

Lemma rename_root_ok imported P g a L f s : pending P s -> owed g a L s -> f ∈ P -> f ∈ frags -> is_subtree_root s f = true ->
  exists s' es, rename_frag t no_eval inode_authority imported olddir newdir f s = Ok (s', es) /\ pending (P ∖ {[f]}) s' /\ owed g a L s' /\
    (forall y, y ∉ frags -> dir_auth s' y = dir_auth s y) /\ (forall y, y <> f -> is_subtree_root s' y = is_subtree_root s y).
Proof.
  intros [Pi Ps Po Pn Dop Dnp] Hw Hf Hfr Er. unfold rename_frag. rewrite Po, Pn, bool_decide_false, Er by congruence. unfold rename_root. rewrite touch_id by done.
  rewrite check_true by (apply bool_decide_eq_true; set_solver). rewrite check_true by (apply has_subtree_true, dom_set; by right).
  rewrite move_settles by done. set (Q := P ∖ {[f]}). set (s1 := settle {[f]} s).
  assert (settle Q s1 = settle P s) as Es. { unfold s1. rewrite settle_settle by done. f_equal. unfold Q. apply set_eq. intros y. destruct (decide (y = f)); set_solver. }
  assert (is_Some (st_subtrees (settle P s) !! f)) as Hsf by (by apply (si_dom _ _ Pi)).
  destruct (merge_at_ok t Hok no_eval f (negb imported) (settle P s) Pi Hsf) as (S' & es & E & Hi & _).
  destruct (merge_at_governed t Hok no_eval f (negb imported) (settle P s) S' es Pi Hsf E) as [Hgov _].
  assert (t_base t f = false) as Eb.
  { destruct (t_base t f) eqn:Eb; [|done]. apply (tk_base t Hok) in Eb. by rewrite (rn_new _ _ _ _ _ Hrn f Hfr) in Eb. }
  assert (f <> op /\ f <> np) as [No Nn] by (split; by intros ->). assert (f ∉ Q) as NQ by set_solver.
  pose proof (merge_settle op np Hne t no_eval f (negb imported) Q s1 newdir NQ No Nn Eb (rn_new _ _ _ _ _ Hrn f Hfr)) as Hm.
  unfold s1 in Hm at 1. rewrite settle_root, Pn in Hm. specialize (Hm eq_refl). rewrite Es, E in Hm. symmetry in Hm. apply bind_ok in Hm as ([s' es'] & E1 & Em).
  injection Em as EQ <-. cbn [fst snd] in EQ. exists s', es'. split; [done|].
  assert (s' = s1 \/ s' = merge_state np f s1) as Hc by (eapply merge_frame; [exact Hfr|unfold s1; by rewrite settle_root|exact E1]).
  assert (is_Some (st_subtrees s1 !! np)) as Dn1 by (by apply settle_dom).
  pose proof (merge_state_shape np f s1 (not_eq_sym Nn) Dn1) as Hmg.
  assert ((forall y, is_subtree_root s' y = is_subtree_root s y) \/ (forall y, is_subtree_root s' y = if y =? f then false else is_subtree_root s y)) as Hr.
  { destruct Hc as [->| ->]; [by left|right]. apply (mg_roots _ _ _ _ Hmg). }
  assert (forall y, y <> f -> is_subtree_root s' y = is_subtree_root s y) as Hr'.
  { intros y Ny. destruct Hr as [->|Hr]; [done|]. rewrite Hr. by destruct (Z.eqb_spec y f). }
  assert (alike s s') as Hal by (intros y Ny; apply Hr'; by intros ->). destruct (alike_roots s s' Hal) as [Eo En].
  assert (is_Some (st_subtrees s1 !! op)) as Do1 by (by apply settle_dom).
  split_and!; [split| | |done].
  - by rewrite EQ.
  - assert (bounds_of s' op = bounds_of s op ∖ {[f]}) as ->; [|set_solver].
    destruct Hc as [->| ->]; [|rewrite (mg_other _ _ _ _ Hmg) by done]; unfold s1; by rewrite settle_bounds, decide_False, decide_True.
  - by rewrite Eo.
  - by rewrite En.
  - destruct Hc as [->| ->]; [done|]. by apply (mg_dom _ _ _ _ Hmg).
  - destruct Hc as [->| ->]; [done|]. apply (mg_dom _ _ _ _ Hmg). split; [|done]. congruence.
  - apply (owed_same g a L s); [done| | |].
    + intros x. by rewrite <- (governed_settle Q s'), EQ, Hgov, governed_settle.
    + intros f' x Hf'. destruct (ow_mid _ _ _ _ Hw f' Hf') as [Hf'' Ef']. destruct Hr as [Hr|Hr]; [by apply hangs_ext|].
      apply (hangs_clear s s' f); [done|done|congruence|done|done].
    + intros f' Hf'. destruct (ow_mid _ _ _ _ Hw f' Hf') as [_ Ef']. apply Hr'. congruence.
  - intros y Ny. assert (y <> f) by (by intros ->). destruct Hc as [->| ->]; [done|]. by rewrite (mg_auth _ _ _ _ Hmg).
Qed.

(** ** One fragment in the middle of a subtree *)

Lemma to_move_ok (P : gset Z) bs s : (forall b, b ∈ bs -> if decide (b ∈ P) then nested_under t s np b else nested_under t s op b) ->
  bounds_to_move t op np bs s = Ok (filter (fun b => b ∈ P) bs).
Proof.
  induction bs as [|b bs IH]; intros Hb; [done|]. cbn [bounds_to_move]. unfold parent_root.
  pose proof (Hb b (list_elem_of_here _ _)) as Hb0. unfold nested_under in Hb0. rewrite IH by (intros; apply Hb; by right). rewrite filter_cons.
  destruct (decide (b ∈ P)); (destruct (t_parent t b) as [p|]; [|done]); rewrite Hb0; cbn [mbind res_bind].
  - rewrite bool_decide_false by congruence. rewrite check_true by (by apply bool_decide_eq_true). done.
  - by rewrite bool_decide_true.
Qed.

Lemma pending_moves P s : pending P s -> exists l, bounds_to_move t op np (ordered_elems (bounds_of s op)) s = Ok l /\
  fold_left (fun s b => move_bound op np b s) l s = settle P s.
Proof.
  intros [Pi Ps Po Pn Dop Dnp]. exists (filter (fun b => b ∈ P) (ordered_elems (bounds_of s op))).
  assert (is_Some (st_subtrees (settle P s) !! op) /\ is_Some (st_subtrees (settle P s) !! np)) as [So Sn] by (split; by apply settle_dom).
  split.
  - apply to_move_ok. intros b Hb. apply elem_of_ordered_elems in Hb. assert (forall r, nested_under t (settle P s) r b -> nested_under t s r b) as Hn.
    { intros r. apply nested_ext. intros x. by rewrite settle_root. }
    destruct (decide (b ∈ P)) as [Hp|Np]; apply Hn.
    + apply (si_bounds _ _ Pi np b Sn). rewrite settle_bounds, decide_True by done. set_solver.
    + apply (si_bounds _ _ Pi op b So). rewrite settle_bounds, decide_False, decide_True by done. set_solver.
  - rewrite moves_settle by done. f_equal. apply set_eq. intros b. rewrite elem_of_list_to_set, list_elem_of_filter, elem_of_ordered_elems. set_solver.
Qed.

Lemma pending_settled P s : pending P s -> pending ∅ (settle P s).
Proof.
  intros [Pi Ps Po Pn Dop Dnp]. assert (is_Some (st_subtrees (settle P s) !! op) /\ is_Some (st_subtrees (settle P s) !! np)) as [So Sn] by (split; by apply settle_dom).
  split; [by rewrite settle_empty|set_solver|by rewrite settle_root..|done|done].
Qed.

(** With the same authority on both sides nothing is owed. *)
Lemma owed_nothing g L s : get_subtree_root t s newdir = Some np -> owed g (dir_auth s np) L s -> forall x, governed_by t s x = g x.
Proof.
  intros En [Hg Ho Hm] x. destruct (Hg x) as [?|(f & Hf & Hh)]; [done|]. destruct (Hm f Hf) as [Hfr Ef]. rewrite (Ho f x Hf Hh).
  unfold governed_by. by rewrite (hangs_new s f x Hfr Ef Hh), En.
Qed.

(** A fragment becomes a subtree with the old authority. *)
Lemma owed_adjust g a f L s s' : owed g a (f :: L) s -> f ∉ L ->
  (forall x, dir_auth s' x = if x =? f then a else dir_auth s x) -> (forall x, is_subtree_root s' x = if x =? f then true else is_subtree_root s x) -> owed g a L s'.
Proof.
  intros [Hg Ho Hm] Nf Hd Hr. destruct (Hm f (list_elem_of_here _ _)) as [Hfr Ef].
  assert (forall x, get_subtree_root t s' x = get_subtree_root t (mark f s) x) as Hmk by (intros x; apply root_ext; [done|]; intros y; by rewrite Hr, mark_root).
  pose proof (root_after_set t Hok s s' f Ef Hr) as Hc.
  assert (forall f' x, f' ∈ L -> hangs s' f' x -> hangs s f' x) as Hback.
  { intros f' x Hf'. assert (f' <> f) by (by intros ->). destruct (Hm f' (list_elem_of_further _ _ _ Hf')) as [_ Ef'].
    unfold hangs. assert (is_subtree_root (mark f' s) f = false) as Em by (rewrite mark_root, Ef; by destruct (Z.eqb_spec f f')).
    destruct (root_after_set t Hok (mark f' s) (mark f' s') f Em) with (x := x) as [[-> _]|[_ ->]]; [|congruence|done].
    intros y. rewrite !mark_root, Hr. by destruct (y =? f'), (y =? f). }
  split.
  - intros x. destruct (Hc x) as [[E1 _]|[N1 E1]].
    + left. rewrite (Ho f x (list_elem_of_here _ _)) by (unfold hangs; by rewrite <- Hmk). unfold governed_by. rewrite E1. cbn. by rewrite Hd, Z.eqb_refl.
    + destruct (Hg x) as [Eg|(f' & Hf' & Hh)].
      * left. rewrite <- Eg. unfold governed_by. rewrite E1. destruct (get_subtree_root t s x) as [r|] eqn:Er; [|done]. cbn. f_equal. rewrite Hd.
        destruct (Z.eqb_spec r f); [congruence|done].
      * right. apply elem_of_cons in Hf' as [->|Hf']; [unfold hangs in Hh; rewrite <- Hmk in Hh; congruence|]. exists f'. split; [done|].
        destruct (Hm f' (list_elem_of_further _ _ _ Hf')) as [_ Ef']. assert (f' <> f) as Nff by (by intros ->). unfold hangs in *.
        assert (is_subtree_root s' f' = false) as Ef2 by (rewrite Hr; by destruct (Z.eqb_spec f' f)).
        destruct (root_after_set t Hok s' (mark f' s') f' Ef2 (mark_root f' s') x) as [[-> _]|[_ E2]]; [done|].
        assert (is_subtree_root (mark f' s) f = false) as Em by (rewrite mark_root, Ef; by destruct (Z.eqb_spec f f')).
        destruct (root_after_set t Hok (mark f' s) (mark f' s') f Em) with (x := x) as [[E3 _]|[_ E3]]; [|congruence|congruence].
        intros y. rewrite !mark_root, Hr. by destruct (y =? f'), (y =? f).
  - intros f' x Hf' Hh. apply (Ho f'); [by right|by apply Hback].
  - intros f' Hf'. destruct (Hm f' (list_elem_of_further _ _ _ Hf')) as [? Ef']. split; [done|]. rewrite Hr. destruct (Z.eqb_spec f' f) as [->|]; [done|done].
Qed.

Lemma owed_settle g a L P s : owed g a L s -> owed g a L (settle P s).
Proof. intros Hw. apply (owed_same g a L s); [done|apply governed_settle|intros f x _; by apply hangs_ext|done]. Qed.

Lemma owed_drop g f L s : get_subtree_root t s newdir = Some np -> owed g (dir_auth s np) (f :: L) s -> owed g (dir_auth s np) L s.
Proof.
  intros En Hw. pose proof (owed_nothing g _ s En Hw) as Hg. destruct Hw as [_ Ho Hm].
  split; [by left|intros f' x Hf'; apply Ho; by right|intros f' Hf'; apply Hm; by right].
Qed.

(** No merge follows when the authorities differ. *)
Lemma no_merge f ev s : subtree_inv t s -> f ∈ frags -> get_subtree_root t s newdir = Some np -> is_subtree_root s f = true -> dir_auth s np <> dir_auth s f ->
  exists es, try_subtree_merge_at t no_eval f ev s = Ok (s, es).
Proof.
  intros Hi Hf En Er Nd. destruct (merge_at_ok t Hok no_eval f ev s Hi) as (s' & es & E & _ & [->|(par & Hn & Hm & _)] & _); [by apply (si_dom _ _ Hi)|by exists es|].
  unfold nested_under in Hn. rewrite (rn_new _ _ _ _ _ Hrn f Hf), En in Hn. injection Hn as <-. unfold merges in Hm. rewrite !andb_true_iff, bool_decide_eq_true in Hm. tauto.
Qed.

Lemma rename_mid_ok imported P g f L s : pending P s -> owed g (dir_auth s op) (f :: L) s -> f ∉ L ->
  exists s' es, rename_frag t no_eval inode_authority imported olddir newdir f s = Ok (s', es) /\ pending ∅ s' /\ owed g (dir_auth s op) L s' /\
    (forall y, y ∉ frags -> dir_auth s' y = dir_auth s y).
Proof.
  intros Hp Hw Nf. pose proof Hp as [Pi Ps Po Pn Dop Dnp]. destruct (ow_mid _ _ _ _ Hw f (list_elem_of_here _ _)) as [Hfr Ef].
  unfold rename_frag. rewrite Po, Pn, bool_decide_false, Ef by congruence. unfold rename_mid. rewrite touch_id by done.
  destruct (pending_moves P s Hp) as (l & -> & El). cbn [mbind res_bind]. rewrite El. set (s2 := settle P s).
  assert (is_subtree_root s op = true /\ is_subtree_root s np = true) as [Ro Rn] by (split; by eapply (root_is_root t Hok)).
  assert (authority inode_authority s2 op = dir_auth s op /\ authority inode_authority s2 np = dir_auth s np) as [-> ->].
  { unfold authority. change (is_subtree_root s2) with (is_subtree_root s). by rewrite Ro, Rn. }
  apply (owed_settle _ _ _ P) in Hw. fold s2 in Hw. apply pending_settled in Hp. fold s2 in Hp.
  assert (get_subtree_root t s2 newdir = Some np) as En2 by apply Hp.
  case_bool_decide as Ea.
  { exists s2, []. split; [done|]. split; [done|]. split; [|done]. rewrite Ea in *. by apply (owed_drop g f L s2). }
  assert (dir_auth s op <> CDIR_AUTH_DEFAULT) as Nd by (unfold is_subtree_root in Ro; by apply negb_true_iff, bool_decide_eq_false in Ro).
  destruct (adjust_subtree_auth_ok t Hok no_eval f (dir_auth s op) (negb imported) s2) as (s3 & es & -> & Hi3 & Hd3 & Hr3); [done|done| |].
  { right. rewrite (root_unfold t Hok). change (is_subtree_root s2 f) with (is_subtree_root s f). rewrite Ef, (rn_new _ _ _ _ _ Hrn f Hfr), En2. by eexists. }
  cbn [mbind res_bind fst snd]. assert (alike s2 s3) as Hal by (intros y Ny; rewrite Hr3; destruct (Z.eqb_spec y f); [by subst|done]).
  destruct (alike_roots s2 s3 Hal) as [Eo En]. rewrite En2 in En.
  assert (np <> f /\ op <> f) as [Nnp Nop] by (split; by intros ->).
  destruct (no_merge f (negb imported) s3 Hi3 Hfr En) as [es' ->]; [by rewrite Hr3, Z.eqb_refl| |].
  { rewrite !Hd3, Z.eqb_refl. destruct (Z.eqb_spec np f); [done|]. by apply not_eq_sym. }
  cbn [mbind res_bind fst snd]. eexists _, _. split; [done|].
  assert (is_Some (st_subtrees s3 !! op) /\ is_Some (st_subtrees s3 !! np)) as [D3o D3n].
  { split; apply (si_dom _ _ Hi3); rewrite Hr3; by destruct (_ =? f). }
  split_and!.
  - split; [by rewrite settle_empty|set_solver|rewrite Eo; apply Hp|done|done|done].
  - by apply (owed_adjust g _ f L s2).
  - intros y Ny. rewrite Hd3. destruct (Z.eqb_spec y f); [by subst|done].
Qed.

(** ** All fragments *)

Lemma rename_roots_ok imported P g a L R s : pending P s -> owed g a L s -> NoDup R -> (forall f, f ∈ R -> f ∈ P /\ f ∈ frags /\ is_subtree_root s f = true) ->
  exists s' es, rename_frags t no_eval inode_authority imported olddir newdir R s = Ok (s', es) /\ pending (P ∖ list_to_set R) s' /\ owed g a L s' /\
    (forall y, y ∉ frags -> dir_auth s' y = dir_auth s y).
Proof.
  revert P s. induction R as [|f R IH]; intros P s Hp Hw Hn HR; cbn [rename_frags].
  { exists s, []. split; [done|]. replace (P ∖ list_to_set []) with P by set_solver. done. }
  apply NoDup_cons in Hn as [Nf Hn]. destruct (HR f (list_elem_of_here _ _)) as (HP & Hfr & Er).
  destruct (rename_root_ok imported P g a L f s Hp Hw HP Hfr Er) as (s1 & es & -> & Hp1 & Hw1 & Hd1 & Hr1). cbn [mbind res_bind fst snd].
  destruct (IH (P ∖ {[f]}) s1 Hp1 Hw1 Hn) as (s2 & es2 & -> & Hp2 & Hw2 & Hd2).
  { intros f' Hf'. destruct (HR f' (list_elem_of_further _ _ _ Hf')) as (? & ? & ?). assert (f' <> f) by (by intros ->). split_and!; [set_solver|done|by rewrite Hr1]. }
  cbn [mbind res_bind fst snd]. eexists _, _. split; [done|]. split_and!; [|done|intros y Ny; by rewrite Hd2, Hd1].
  replace (P ∖ list_to_set (f :: R)) with (P ∖ {[f]} ∖ list_to_set R) by set_solver. done.
Qed.

Lemma rename_mids_ok imported P g L s : pending P s -> owed g (dir_auth s op) L s -> NoDup L ->
  exists s' es, rename_frags t no_eval inode_authority imported olddir newdir L s = Ok (s', es) /\
    pending (if decide (L = []) then P else ∅) s' /\ owed g (dir_auth s op) [] s'.
Proof.
  revert P s. induction L as [|f L IH]; intros P s Hp Hw Hn; cbn [rename_frags]; [by exists s, []|].
  apply NoDup_cons in Hn as [Nf Hn]. destruct (rename_mid_ok imported P g f L s Hp Hw Nf) as (s1 & es & -> & Hp1 & Hw1 & Hd1). cbn [mbind res_bind fst snd].
  rewrite <- (Hd1 op Hop) in *. destruct (IH ∅ s1 Hp1 Hw1 Hn) as (s2 & es2 & -> & Hp2 & Hw2). cbn [mbind res_bind fst snd].
  eexists _, _. split; [done|]. split; [|done]. by destruct (decide (L = [])).
Qed.

End Move.
(** ** The start *)

Lemma nested_case s op np d : get_subtree_root t0 s olddir = Some op -> get_subtree_root t s newdir = Some np ->
  (forall r, nested_under t0 s r d <-> nested_under t s r d) \/
  nested_under t0 s op d /\ nested_under t s np d /\ (d ∈ frags \/ exists f, f ∈ frags /\ is_subtree_root s f = false).
Proof.
  intros Eo En. unfold nested_under. destruct (decide (d ∈ frags)) as [Hd|Nd].
  { right. rewrite (rn_old _ _ _ _ _ Hrn d Hd), (rn_new _ _ _ _ _ Hrn d Hd). split_and!; [done|done|by left]. }
  rewrite (rn_other _ _ _ _ _ Hrn d Nd). destruct (t_parent t0 d) as [p|]; [|by left].
  destruct (root_case s p) as [->|(f & Hf & Ef & Hh)]; [by left|right]. rewrite (hangs_old s f p Hf Ef Hh), (hangs_new s f p Hf Ef Hh). split_and!; [done|done|right; by exists f].
Qed.

Lemma start_pending s op np : subtree_inv t0 s -> get_subtree_root t0 s olddir = Some op -> get_subtree_root t s newdir = Some np -> op <> np ->
  pending op np (filter (nested_under t s np) (bounds_of s op)) s.
Proof.
  intros [Hd Hb Hn] Eo En Nop. set (P := filter (nested_under t s np) (bounds_of s op)).
  assert (is_Some (st_subtrees s !! op)) as Do by (apply Hd; by eapply (root_is_root t0 Hok0)).
  assert (is_Some (st_subtrees s !! np)) as Dn by (apply Hd; by eapply (root_is_root t Hok)).
  split; [|set_solver|by rewrite (olddir_root s s)|done|done|done].
  assert (forall x, get_subtree_root t (settle op np P s) x = get_subtree_root t s x) as Hr by (intros x; apply settle_root).
  split.
  - intros d. rewrite settle_dom by done. apply Hd.
  - intros r d Hr'. rewrite settle_dom in * by done. rewrite (nested_ext t s _ r d Hr), settle_bounds by done.
    assert (d ∈ P <-> d ∈ bounds_of s op /\ nested_under t s np d) as HP by (unfold P; rewrite elem_of_filter; tauto).
    pose proof (Hb op d Do) as Bo. pose proof (Hb np d Dn) as Bn. pose proof (Hb r d Hr') as Br.
    destruct (nested_case s op np d Eo En) as [Hc|(C1 & C2 & _)].
    + assert (d ∉ P) as NP. { rewrite HP, Bo, Hc. intros [[_ E1] E2]. apply Nop. by eapply nested_unique. }
      destruct (decide (r = np)) as [->|]; [rewrite elem_of_union, Bn, Hc; tauto|].
      destruct (decide (r = op)) as [->|]; [rewrite elem_of_difference, Bo, Hc; tauto|by rewrite Br, Hc].
    + destruct (decide (r = np)) as [->|Nr].
      { rewrite elem_of_union, HP, Bo, Bn. split; [|tauto]. intros [?|[_ E]]; [tauto|]. destruct Nop. by eapply nested_unique. }
      assert (~ nested_under t s r d) as Nn by (intros E; apply Nr; by eapply nested_unique).
      destruct (decide (r = op)) as [->|]; [rewrite elem_of_difference, HP, Bo; tauto|]. rewrite Br.
      split; [intros [_ E]; exfalso; assert (r = op) by (by eapply nested_unique); done|tauto].
  - intros d p. rewrite settle_dom, Hr by done. intros Hd' Ep. destruct (decide (d ∈ frags)) as [Hf|Nf].
    { rewrite (rn_new _ _ _ _ _ Hrn d Hf) in Ep. injection Ep as <-. by rewrite En. }
    rewrite (rn_other _ _ _ _ _ Hrn d Nf) in Ep. specialize (Hn d p Hd' Ep).
    destruct (root_case s p) as [<-|(f & Hf & Ef & Hh)]; [done|]. by rewrite (hangs_new s f p Hf Ef Hh), En.
Qed.

Lemma start_owed s op L : get_subtree_root t0 s olddir = Some op -> (forall f, f ∈ L <-> f ∈ frags /\ is_subtree_root s f = false) ->
  owed (governed_by t0 s) (dir_auth s op) L s.
Proof.
  intros Eo HL. split.
  - intros x. destruct (root_case s x) as [E|(f & Hf & Ef & Hh)]; [left; unfold governed_by; by rewrite E|right]. exists f. by rewrite HL.
  - intros f x [Hf Ef]%HL Hh. unfold governed_by. by rewrite (hangs_old s f x Hf Ef Hh), Eo.
  - intros f Hf. by apply HL.
Qed.

(** Nothing to do when both directories are in the same subtree. *)
Lemma same_subtree s op : subtree_inv t0 s -> get_subtree_root t0 s olddir = Some op -> get_subtree_root t s newdir = Some op ->
  subtree_inv t s /\ forall x, governed_by t s x = governed_by t0 s x.
Proof.
  intros [Hd Hb Hn] Eo En. assert (forall x, get_subtree_root t0 s x = get_subtree_root t s x) as Hr.
  { intros x. destruct (root_case s x) as [?|(f & Hf & Ef & Hh)]; [done|]. by rewrite (hangs_old s f x Hf Ef Hh), (hangs_new s f x Hf Ef Hh), Eo. }
  split; [split|].
  - done.
  - intros r d Hr'. rewrite (Hb r d Hr'). destruct (nested_case s op op d Eo En) as [Hc|(C1 & C2 & _)]; [by rewrite Hc|].
    split; intros [? E]; (split; [done|]).
    + assert (r = op) as -> by (by eapply nested_unique). done.
    + assert (r = op) as -> by (by eapply nested_unique). done.
  - intros d p Hd' Ep. destruct (decide (d ∈ frags)) as [Hf|Nf].
    { rewrite (rn_new _ _ _ _ _ Hrn d Hf) in Ep. injection Ep as <-. by rewrite En. }
    rewrite (rn_other _ _ _ _ _ Hrn d Nf) in Ep. rewrite <- Hr. by eapply Hn.
  - intros x. unfold governed_by. by rewrite Hr.
Qed.

Lemma rename_frags_same imported l s : get_subtree_root t s olddir = get_subtree_root t s newdir ->
  rename_frags t no_eval inode_authority imported olddir newdir l s = Ok (s, []).
Proof. intros E. induction l as [|f l IH]; [done|]. cbn [rename_frags]. unfold rename_frag. rewrite bool_decide_true by done. cbn [mbind res_bind fst snd]. by rewrite IH. Qed.

Lemma rename_frags_app imported l1 l2 s : rename_frags t no_eval inode_authority imported olddir newdir (l1 ++ l2) s =
  r ← rename_frags t no_eval inode_authority imported olddir newdir l1 s;
  r' ← rename_frags t no_eval inode_authority imported olddir newdir l2 (fst r); Ok (fst r', snd r ++ snd r').
Proof.
  revert s. induction l1 as [|f l1 IH]; intros s; cbn [rename_frags app].
  { cbn [mbind res_bind fst snd]. destruct (rename_frags _ _ _ _ _ _ l2 s) as [[? ?]|]; done. }
  destruct (rename_frag _ _ _ _ _ _ f s) as [[s1 e1]|]; [|done]. cbn [mbind res_bind fst snd]. rewrite IH.
  destruct (rename_frags _ _ _ _ _ _ l1 s1) as [[s2 e2]|]; [|done]. cbn [mbind res_bind fst snd].
  destruct (rename_frags _ _ _ _ _ _ l2 s2) as [[s3 e3]|]; [|done]. cbn. by rewrite app_assoc.
Qed.

(** All fragments are adjusted. *)
Lemma rename_frags_ok imported R L s : subtree_inv t0 s -> is_Some (get_subtree_root t0 s olddir) -> is_Some (get_subtree_root t s newdir) ->
  NoDup R -> NoDup L -> (forall f, f ∈ R <-> f ∈ frags /\ is_subtree_root s f = true) -> (forall f, f ∈ L <-> f ∈ frags /\ is_subtree_root s f = false) ->
  exists s' es, rename_frags t no_eval inode_authority imported olddir newdir (R ++ L) s = Ok (s', es) /\ subtree_inv t s' /\
    forall x, governed_by t s' x = governed_by t0 s x.
Proof.
  intros Hi [op Eo] [np En] NR NL HR HL. destruct (decide (op = np)) as [->|Nop].
  { destruct (same_subtree s np Hi Eo En) as [Hi' Hg]. exists s, []. split; [|done]. apply rename_frags_same. by rewrite (olddir_root s s), Eo, En. }
  assert (op ∉ frags) as Hop by (intros Hf; by apply (olddir_not_frag s op op Hf)).
  assert (np ∉ frags) as Hnp by (intros Hf; by apply (newdir_not_frag s np np Hf)).
  pose proof (start_pending s op np Hi Eo En Nop) as Hp. set (P := filter (nested_under t s np) (bounds_of s op)) in Hp.
  assert (is_Some (st_subtrees s !! op)) as Do by apply Hp.
  destruct (rename_roots_ok op np Nop Hop Hnp imported P (governed_by t0 s) (dir_auth s op) L R s Hp) as (s1 & es1 & E1 & Hp1 & Hw1 & Hd1); [by apply start_owed|done| |].
  { intros f [Hf Er]%HR. split; [|done]. apply elem_of_filter. unfold nested_under at 1. rewrite (rn_new _ _ _ _ _ Hrn f Hf). split; [done|].
    apply (si_bounds _ _ Hi op f Do). split; [by apply (si_dom _ _ Hi)|]. unfold nested_under. by rewrite (rn_old _ _ _ _ _ Hrn f Hf). }
  rewrite <- (Hd1 op Hop) in Hw1. destruct (rename_mids_ok op np Nop Hop Hnp imported _ _ L s1 Hp1 Hw1 NL) as (s2 & es2 & E2 & Hp2 & Hw2).
  rewrite rename_frags_app, E1. cbn [mbind res_bind fst snd]. rewrite E2. cbn [mbind res_bind fst snd]. exists s2, (es1 ++ es2). split; [done|].
  assert ((if decide (L = []) then P ∖ list_to_set R else ∅) = ∅) as EP.
  { destruct (decide (L = [])) as [->|]; [|done]. apply set_eq. intros d. split; [|set_solver]. intros [Hd Nd]%elem_of_difference. exfalso.
    apply elem_of_filter in Hd as [Hd1' Hd2]. apply (si_bounds _ _ Hi op d Do) in Hd2 as [Hds Hd2]. apply Nd, elem_of_list_to_set, HR.
    destruct (nested_case s op np d Eo En) as [Hc|(_ & _ & [Hf|(f & Hf & Ef)])].
    - apply Hc in Hd2. destruct Nop. by eapply nested_unique.
    - split; [done|by apply (si_dom _ _ Hi)].
    - assert (f ∈ @nil Z) as ?%elem_of_nil by (by apply HL). done. }
  rewrite EP in Hp2. split.
  - destruct Hp2 as [Pi _ _ _ Do2 Dn2]. by rewrite settle_empty in Pi.
  - intros x. destruct (ow_gov _ _ _ _ Hw2 x) as [?|(f & Hf%elem_of_nil & _)]; done.
Qed.

End Spec.

(** C4: A rename changes nobody's authority.  When the fragments of an inode hang below another
    directory than before, [adjust_subtree_after_rename] fails no assert, whatever subtrees the
    fragments are, contain or lie in; the subtree map is consistent with the new hierarchy again;
    every directory is governed by the same authority as before the rename; and the projected rename
    it stands for, and no other, is taken off the list. *)
Theorem rename_keeps_authority t0 t no_eval inode_authority subtree_dirfrags nested_dirfrags diri olddir newdir frags pop imported m s :
  tree_ok t0 -> tree_ok t -> renamed t0 t olddir newdir frags -> subtree_inv t0 s ->
  is_Some (get_subtree_root t0 s olddir) -> is_Some (get_subtree_root t s newdir) ->
  NoDup (subtree_dirfrags s) -> NoDup (nested_dirfrags s) ->
  (forall f, f ∈ subtree_dirfrags s <-> f ∈ frags /\ is_subtree_root s f = true) ->
  (forall f, f ∈ nested_dirfrags s <-> f ∈ frags /\ is_subtree_root s f = false) ->
  (pop = true -> head (default [] (m !! diri)) = Some (olddir, newdir)) ->
  exists m' s' es,
    adjust_subtree_after_rename t no_eval inode_authority subtree_dirfrags nested_dirfrags diri olddir newdir pop imported m s = Ok (m', s', es) /\
    subtree_inv t s' /\ (forall x, governed_by t s' x = governed_by t0 s x) /\
    forall d, default [] (m' !! d) = if pop && (d =? diri) then tail (default [] (m !! d)) else default [] (m !! d).
Proof.
  intros Hok0 Hok Hrn Hi Ho Hn NR NL HR HL Hpop. unfold adjust_subtree_after_rename.
  destruct (rename_frags_ok t0 t Hok0 Hok no_eval inode_authority olddir newdir frags Hrn imported _ _ s Hi Ho Hn NR NL HR HL) as (s' & es & -> & Hi' & Hg).
  assert (exists m', (if pop then pop_rename diri olddir newdir m else Ok m) = Ok m' /\
    forall d, default [] (m' !! d) = if pop && (d =? diri) then tail (default [] (m !! d)) else default [] (m !! d)) as (m' & -> & Hm).
  { destruct pop; [|by exists m]. specialize (Hpop eq_refl). unfold pop_rename. destruct (m !! diri) as [[|[o n] l]|] eqn:Em; [done| |done].
    injection Hpop as -> ->. cbn [fst snd]. rewrite !Z.eqb_refl. cbn [assert_ mbind res_bind]. eexists. split; [done|]. intros d. cbn [andb].
    destruct (Z.eqb_spec d diri) as [->|Nd]; [rewrite Em|]; (destruct l; [rewrite ?lookup_delete_eq, ?lookup_delete_ne by done|rewrite ?lookup_insert_eq, ?lookup_insert_ne by done]); done. }
  cbn [mbind res_bind fst snd]. by exists m', s', es.
Qed.

(** ** A rename

    Of the hierarchy of file Subtree, directory 2 moves from 1 to 4.  Rank 0 has the root, rank 1
    has 4 and 3, which is below 2: so 2 becomes a subtree of rank 0 below 4, and takes the bound 3
    along. *)

Definition after_parent (d : Z) : option Z := if d =? 2 then Some 4 else demo_parent d.
Definition after_depth (d : Z) : nat := if d =? 2 then 2 else if d =? 3 then 3 else demo_depth d.
Definition after_tree : tree :=
  mk_tree after_parent after_depth (fun d => match after_parent d with None => true | _ => false end)
    (fun d => d =? 1) (fun _ => false) (fun _ => true) (fun _ => 0) (fun _ => false) (fun _ => false).
Definition before_map : subtree_map := demo_map [(1, [3; 4]); (3, []); (4, [])] [(1, (0, -2)); (3, (1, -2)); (4, (1, -2))].
Definition after_map : subtree_map :=
  demo_map [(1, [4]); (2, [3]); (3, []); (4, [2])] [(1, (0, -2)); (2, (0, -2)); (3, (1, -2)); (4, (1, -2))].

Lemma after_ok : tree_ok after_tree.
Proof.
  split; simpl.
  - intros d p. unfold after_parent, after_depth, demo_parent, demo_depth.
    destruct (Z.eqb_spec d 2) as [->|]; [intros [= <-]; simpl; lia|]. destruct (Z.eqb_spec d 3) as [->|]; [intros [= <-]; simpl; lia|].
    destruct (Z.eqb_spec d 4) as [->|]; [intros [= <-]; simpl; lia|done].
  - intros d. by destruct (after_parent d).
  - by intros d ->%Z.eqb_eq.
Qed.

Lemma before_inv : subtree_inv demo_tree before_map.
Proof.
  apply demo_inv. eapply (demo_step demo2 4 (1, -2)); [done|vm_compute; reflexivity|apply demo_reach2].
Qed.

Lemma rename_keeps_authority_witness : exists m' s' es,
  adjust_subtree_after_rename after_tree false demo_inode_authority (fun _ => []) (fun _ => [2]) 7 1 4 true false {[7 := [(1, 4)]]} before_map = Ok (m', s', es) /\
  subtree_inv after_tree s' /\ (forall x, governed_by after_tree s' x = governed_by demo_tree before_map x) /\
  forall d, default [] (m' !! d) = if true && (d =? 7) then tail (default [] (({[7 := [(1, 4)]]} : renames) !! d)) else default [] (({[7 := [(1, 4)]]} : renames) !! d).
Proof.
  apply (rename_keeps_authority demo_tree after_tree false demo_inode_authority (fun _ => []) (fun _ => [2]) 7 1 4 [2] true false {[7 := [(1, 4)]]} before_map demo_ok after_ok).
  - split.
    + by intros f ->%list_elem_of_singleton.
    + by intros f ->%list_elem_of_singleton.
    + intros d Nd. simpl. unfold after_parent. destruct (Z.eqb_spec d 2) as [->|]; [|done]. destruct Nd. by left.
  - apply before_inv.
  - exists 1. vm_compute. reflexivity.
  - exists 4. vm_compute. reflexivity.
  - constructor.
  - apply NoDup_singleton.
  - intros f. split; [by intros ?%elem_of_nil|]. intros [->%list_elem_of_singleton E]. vm_compute in E. discriminate.
  - intros f. rewrite list_elem_of_singleton. split; [intros ->; split; [done|vm_compute; reflexivity]|tauto].
  - vm_compute. reflexivity.
Defined.

Example rename_ex :
  (r ← adjust_subtree_after_rename after_tree false demo_inode_authority (fun _ => []) (fun _ => [2]) 7 1 4 true false {[7 := [(1, 4)]]} before_map;
   Ok (fst (fst r), snd (fst r))) = Ok (∅, after_map).
Proof. vm_compute. reflexivity. Qed.
