(* ===== verification/Dentries.v ===== *)
(** * The dentries of a directory fragment (CDir.cc, CDir.h)

    A fragment keeps its dentries in a map ordered by name and last snapshot, counts them in
    four counters (head or snapshot, linked or null), and holds a pin on itself while it has
    any.  This file models the operations that add, link, unlink, look up, trim and remove
    dentries, and the waiters on dentries.

    A dentry and the fragment are cache objects, with their pins (file CacheObject).  What the
    code uses of [CDentry] and [CInode], whose sources are not in the repository, are the
    fields of [dentry] and [inode_info] and the operations of the class [CDentryOps]; the calls
    on inodes, the LRU and the cache are the trace of [dn_effect]s. *)

From stdpp Require Import base tactics numbers list gmap fin_maps sorting.
From Stdlib Require Import ZArith Lia Ascii.
From S2P Require Import Prelude Keys CacheObject.
Open Scope Z_scope.
Open Scope list_scope.

Definition PIN_DNWAITER : Z := 1.
Definition PIN_CHILD : Z := 3.
Definition PIN_FROZEN : Z := 4.
Definition PIN_SUBTREE : Z := 5.

Definition STATE_COMPLETE : Z := Z.shiftl 1 1.
Definition STATE_FROZENTREE : Z := Z.shiftl 1 2.
Definition STATE_FREEZINGTREE : Z := Z.shiftl 1 3.
Definition STATE_FROZENDIR : Z := Z.shiftl 1 4.
Definition STATE_FREEZINGDIR : Z := Z.shiftl 1 5.
Definition STATE_DNPINNEDFRAG : Z := Z.shiftl 1 16.

Definition WAIT_DENTRY : Z := Z.shiftl 1 0.
Definition WAIT_COMPLETE : Z := Z.shiftl 1 1.
Definition WAIT_FROZEN : Z := Z.shiftl 1 2.
Definition WAIT_ANY_MASK : Z := u64 (-1).

(** The linkage of a dentry: [is_null], [is_primary], or [is_remote] with the inode when it is
    in the cache. *)
Inductive linkage_t :=
| LNull
| LPrimary (ino : Z)
| LRemote (ino d_type : Z) (inode : option Z).

Record dentry (C : Type) := mk_dentry {
  dn_obj : cobj C;
  dn_name : cstring;
  dn_first : Z;
  dn_last : Z;
  dn_version : Z;
  dn_linkage : linkage_t;
  dn_projected : bool;        (* is_projected() *)
  dn_new : bool;              (* is_new() *)
  dn_leases : gset Z          (* the keys of client_lease_map *)
}.
Arguments mk_dentry {C}.
Arguments dn_obj {C}.
Arguments dn_name {C}.
Arguments dn_first {C}.
Arguments dn_last {C}.
Arguments dn_version {C}.
Arguments dn_linkage {C}.
Arguments dn_projected {C}.
Arguments dn_new {C}.
Arguments dn_leases {C}.

(** What the code reads of an inode. *)
Record inode_info := mk_inode_info {
  in_num_ref : Z;
  in_dirty : bool;
  in_auth_pins : Z;
  in_nested_auth_pins : Z;
  in_snaprealm : bool
}.

(** [CDentry::mark_clean], [CDentry::remove_client_leases] and [CInode::mark_clean]; the last
    may also drop the pin an inode holds on its primary dentry. *)
Class CDentryOps (C : Type) := {
  DN_PIN_FRAGMENTING : Z;
  DN_PIN_INODEPIN : Z;
  DN_STATE_FRAGMENTING : Z;
  dn_mark_clean : dentry C -> dentry C;
  dn_remove_leases : dentry C -> dentry C;
  in_mark_clean : inode_info -> dentry C -> inode_info * dentry C
}.

Inductive dn_effect :=
| DnHook (k : dentry_key_t) (h : hook)
| DirHook (h : hook)
| LruInsertMid (k : dentry_key_t)
| LruRemove (k : dentry_key_t)
| DeleteDentry (k : dentry_key_t)
| MarkDentryClean (k : dentry_key_t)
| SetPrimaryParent (ino : Z) (k : dentry_key_t)
| RemovePrimaryParent (ino : Z) (k : dentry_key_t)
| AdjustSnapParent (ino : Z)
| NestedPins (k : dentry_key_t) (inc dirinc : Z)
| UnlinkRemote (k : dentry_key_t)
| MarkInodeClean (ino : Z)
| RemoveLeases (k : dentry_key_t)
| UnlistDirty
| RemoveInode (ino : Z)
| TouchBottom (k : dentry_key_t).

Section Dentries.
Context {C : Type} `{CephConst} `{CDentryOps C}.
Abbreviation dentry := (dentry C).

Definition dn_key (dn : dentry) : dentry_key_t := mk_key (dn_last dn) (dn_name dn).

Definition set_dn_obj (o : cobj C) (dn : dentry) : dentry :=
  mk_dentry o (dn_name dn) (dn_first dn) (dn_last dn) (dn_version dn) (dn_linkage dn)
    (dn_projected dn) (dn_new dn) (dn_leases dn).
Definition set_linkage (l : linkage_t) (dn : dentry) : dentry :=
  mk_dentry (dn_obj dn) (dn_name dn) (dn_first dn) (dn_last dn) (dn_version dn) l
    (dn_projected dn) (dn_new dn) (dn_leases dn).

Definition is_null (dn : dentry) : bool :=
  match dn_linkage dn with LNull => true | _ => false end.
Definition is_head (dn : dentry) : bool := dn_last dn =? CEPH_NOSNAP.

Record dirfrag := mk_dfrag {
  df_obj : cobj C;
  df_items : gmap dentry_key_t dentry;
  num_head_items : Z;
  num_head_null : Z;
  num_snap_items : Z;
  num_snap_null : Z;
  df_projected_version : Z;
  waiting_on_dentry : gmap string_snap_t (list C)
}.

Definition set_obj (o : cobj C) (d : dirfrag) : dirfrag :=
  mk_dfrag o (df_items d) (num_head_items d) (num_head_null d) (num_snap_items d)
    (num_snap_null d) (df_projected_version d) (waiting_on_dentry d).
Definition set_items (m : gmap dentry_key_t dentry) (d : dirfrag) : dirfrag :=
  mk_dfrag (df_obj d) m (num_head_items d) (num_head_null d) (num_snap_items d)
    (num_snap_null d) (df_projected_version d) (waiting_on_dentry d).
Definition set_dn_waiting (w : gmap string_snap_t (list C)) (d : dirfrag) : dirfrag :=
  mk_dfrag (df_obj d) (df_items d) (num_head_items d) (num_head_null d) (num_snap_items d)
    (num_snap_null d) (df_projected_version d) w.

(** The counter of the null (or linked) head (or snapshot) dentries moves by [n]. *)
Definition adjust_count (null head : bool) (n : Z) (d : dirfrag) : dirfrag :=
  mk_dfrag (df_obj d) (df_items d)
    (if negb null && head then u32 (num_head_items d + n) else num_head_items d)
    (if null && head then u32 (num_head_null d + n) else num_head_null d)
    (if negb null && negb head then u32 (num_snap_items d + n) else num_snap_items d)
    (if null && negb head then u32 (num_snap_null d + n) else num_snap_null d)
    (df_projected_version d) (waiting_on_dentry d).

Definition get_num_any (d : dirfrag) : Z :=
  u32 (num_head_items d + num_head_null d + num_snap_items d + num_snap_null d).

(** [assert(get_num_any() == items.size())] *)
Definition counts_agree (d : dirfrag) : bool := get_num_any d =? Z.of_nat (size (df_items d)).

Definition dir_get (pin : Z) (d : dirfrag) : res (dirfrag * list dn_effect) :=
  '(o, hs) ← get (df_obj d) pin; Ok (set_obj o d, map DirHook hs).
Definition dir_put (pin : Z) (d : dirfrag) : res (dirfrag * list dn_effect) :=
  '(o, hs) ← put (df_obj d) pin; Ok (set_obj o d, map DirHook hs).
Definition dn_get (pin : Z) (dn : dentry) : res (dentry * list dn_effect) :=
  '(o, hs) ← get (dn_obj dn) pin; Ok (set_dn_obj o dn, map (DnHook (dn_key dn)) hs).
Definition dn_put (pin : Z) (dn : dentry) : res (dentry * list dn_effect) :=
  '(o, hs) ← put (dn_obj dn) pin; Ok (set_dn_obj o dn, map (DnHook (dn_key dn)) hs).

(** ** Lookup *)

Definition lookup_exact_snap (dname : cstring) (last : Z) (d : dirfrag) : option dentry :=
  df_items d !! mk_key last dname.

Definition lookup (name : cstring) (snap : Z) (d : dirfrag) : option dentry :=
  match lower_bound (mk_key snap name) (df_items d) with
  | [] => None
  | (_, dn) :: _ =>
      if bool_decide (dn_name dn = name) && (dn_first dn <=? snap) then Some dn else None
  end.

(** ** Adding dentries *)

(** [new CDentry], with what the three [add_*_dentry] set on it *)
Definition new_dentry (d : dirfrag) (dname : cstring) (first last : Z) (l : linkage_t) : dentry :=
  mk_dentry (if is_auth (df_obj d) then state_set STATE_AUTH cobj_new else cobj_new)
    dname first last (df_projected_version d) l false false ∅.

Definition pin_fragmenting (d : dirfrag) (dn : dentry) : res (dentry * list dn_effect) :=
  if state_test (df_obj d) STATE_DNPINNEDFRAG then
    '(dn, es) ← dn_get DN_PIN_FRAGMENTING dn;
    Ok (set_dn_obj (state_set DN_STATE_FRAGMENTING (dn_obj dn)) dn, es)
  else Ok (dn, []).

(** the pin on the fragment and the assert *)
Definition pin_child (d : dirfrag) : res (dirfrag * list dn_effect) :=
  '(d, es) ← (if get_num_any d =? 1 then dir_get PIN_CHILD d else Ok (d, []));
  check (counts_agree d) ;; Ok (d, es).

(** the end of the three: count the dentry, pin it and add it *)
Definition finish_add (null head : bool) (dn : dentry) (d : dirfrag) : res (dirfrag * list dn_effect) :=
  let d := adjust_count null head 1 d in
  '(dn, es) ← pin_fragmenting d dn;
  '(d, es') ← pin_child (set_items (<[dn_key dn := dn]> (df_items d)) d);
  Ok (d, es ++ es').

(** [link_inode_work]; its two asserts hold by the assignments before each call. *)
Definition link_inode_work (i : inode_info) (ino : Z) (dn : dentry) : res (dentry * list dn_effect) :=
  '(dn, es) ← (if in_num_ref i =? 0 then Ok (dn, []) else dn_get DN_PIN_INODEPIN dn);
  let cum := s32 (in_auth_pins i + in_nested_auth_pins i) in
  Ok (dn, es ++ (if cum =? 0 then [] else [NestedPins (dn_key dn) cum (in_auth_pins i)]) ++
          (if in_snaprealm i then [AdjustSnapParent ino] else [])).

Definition add_null_dentry (dname : cstring) (first last : Z) (d : dirfrag)
  : res (dirfrag * list dn_effect) :=
  check (bool_decide (lookup_exact_snap dname last d = None)) ;;
  let dn := new_dentry d dname first last LNull in
  check (bool_decide (df_items d !! dn_key dn = None)) ;;
  '(d, es) ← finish_add true (last =? CEPH_NOSNAP) dn d;
  Ok (d, LruInsertMid (dn_key dn) :: es).

Definition add_primary_dentry (dname : cstring) (i : inode_info) (ino first last : Z) (d : dirfrag)
  : res (dirfrag * list dn_effect) :=
  check (bool_decide (lookup_exact_snap dname last d = None)) ;;
  let dn := new_dentry d dname first last (LPrimary ino) in
  check (bool_decide (df_items d !! dn_key dn = None)) ;;
  '(dn, es) ← link_inode_work i ino dn;
  '(d, es') ← finish_add false (dn_last dn =? CEPH_NOSNAP) dn d;
  Ok (d, LruInsertMid (dn_key dn) :: SetPrimaryParent ino (dn_key dn) :: es ++ es').

Definition add_remote_dentry (dname : cstring) (ino d_type first last : Z) (d : dirfrag)
  : res (dirfrag * list dn_effect) :=
  check (bool_decide (lookup_exact_snap dname last d = None)) ;;
  let dn := new_dentry d dname first last (LRemote ino d_type None) in
  check (bool_decide (df_items d !! dn_key dn = None)) ;;
  '(d, es) ← finish_add false (last =? CEPH_NOSNAP) dn d;
  Ok (d, LruInsertMid (dn_key dn) :: es).

(** ** Linking and unlinking *)

(** [link_remote_inode] and [link_primary_inode] move a dentry between two counters. *)
Definition count_linked (head : bool) (d : dirfrag) : dirfrag :=
  adjust_count true head (-1) (adjust_count false head 1 d).
Definition count_unlinked (head : bool) (d : dirfrag) : dirfrag :=
  adjust_count true head 1 (adjust_count false head (-1) d).

Definition link_remote_inode (k : dentry_key_t) (ino d_type : Z) (d : dirfrag)
  : res (dirfrag * list dn_effect) :=
  match df_items d !! k with
  | None => Abort
  | Some dn =>
      check (is_null dn) ;;
      let dn := set_linkage (LRemote ino d_type None) dn in
      let d := count_linked (is_head dn) (set_items (<[k := dn]> (df_items d)) d) in
      check (counts_agree d) ;; Ok (d, [])
  end.

Definition link_primary_inode (k : dentry_key_t) (i : inode_info) (ino : Z) (d : dirfrag)
  : res (dirfrag * list dn_effect) :=
  match df_items d !! k with
  | None => Abort
  | Some dn =>
      check (is_null dn) ;;
      '(dn, es) ← link_inode_work i ino (set_linkage (LPrimary ino) dn);
      let d := count_linked (is_head dn) (set_items (<[k := dn]> (df_items d)) d) in
      check (counts_agree d) ;; Ok (d, SetPrimaryParent ino k :: es)
  end.

Definition unlink_inode_work (inodes : Z -> inode_info) (dn : dentry) : res (dentry * list dn_effect) :=
  match dn_linkage dn with
  | LNull => Abort
  | LRemote _ _ inode =>
      Ok (set_linkage LNull dn,
          match inode with Some _ => [UnlinkRemote (dn_key dn)] | None => [] end)
  | LPrimary ino =>
      let i := inodes ino in
      '(dn, es) ← (if in_num_ref i =? 0 then Ok (dn, []) else dn_put DN_PIN_INODEPIN dn);
      let cum := s32 (in_auth_pins i + in_nested_auth_pins i) in
      Ok (set_linkage LNull dn,
          es ++ (if cum =? 0 then [] else [NestedPins (dn_key dn) (s32 (0 - cum)) (s32 (0 - in_auth_pins i))]) ++
          [RemovePrimaryParent ino (dn_key dn)])
  end.

Definition unlink_inode (inodes : Z -> inode_info) (k : dentry_key_t) (d : dirfrag)
  : res (dirfrag * list dn_effect) :=
  match df_items d !! k with
  | None => Abort
  | Some dn =>
      '(dn, es) ← unlink_inode_work inodes dn;
      let d := count_unlinked (is_head dn) (set_items (<[k := dn]> (df_items d)) d) in
      check (counts_agree d) ;; Ok (d, es)
  end.

(** ** Removing dentries *)

Definition unpin_fragmenting (d : dirfrag) (dn : dentry) : res (dentry * list dn_effect) :=
  if state_test (df_obj d) STATE_DNPINNEDFRAG then
    '(dn, es) ← dn_put DN_PIN_FRAGMENTING dn;
    Ok (set_dn_obj (state_clear DN_STATE_FRAGMENTING (dn_obj dn)) dn, es)
  else Ok (dn, []).

Definition remove_dentry (inodes : Z -> inode_info) (k : dentry_key_t) (d : dirfrag)
  : res (dirfrag * list dn_effect) :=
  match df_items d !! k with
  | None => Abort
  | Some dn =>
      check (bool_decide (dn_leases dn = ∅)) ;;
      '(dn, es) ← unpin_fragmenting d dn;
      let d := adjust_count (is_null dn) (is_head dn) (-1) d in
      '(dn, es') ← (if is_null dn then Ok (dn, []) else unlink_inode_work inodes dn);
      let d := set_items (delete k (df_items d)) d in
      '(d, es'') ← (if get_num_any d =? 0 then dir_put PIN_CHILD d else Ok (d, []));
      check (counts_agree d) ;;
      Ok (d, es ++ es' ++ (if is_dirty (dn_obj dn) then [MarkDentryClean k] else []) ++
             [LruRemove k; DeleteDentry k] ++ es'')
  end.

Definition upd_dentry (k : dentry_key_t) (dn : dentry) (d : dirfrag) : dirfrag :=
  set_items (<[k := dn]> (df_items d)) d.

Definition bool_Z (b : bool) : Z := if b then 1 else 0.

(** [if (dn->is_dirty()) dn->mark_clean()] *)
Definition clean_dentry (k : dentry_key_t) (dn : dentry) : dentry * list dn_effect :=
  if is_dirty (dn_obj dn) then (dn_mark_clean dn, [MarkDentryClean k]) else (dn, []).

Definition try_remove_unlinked_dn (inodes : Z -> inode_info) (k : dentry_key_t) (d : dirfrag)
  : res (dirfrag * list dn_effect) :=
  match df_items d !! k with
  | None => Abort
  | Some dn =>
      check (is_null dn) ;;
      if negb (get_num_ref (dn_obj dn) (-1) =? bool_Z (is_dirty (dn_obj dn))) then Ok (d, [])
      else if dn_new dn then
        let '(dn, es) := clean_dentry k dn in
        '(d, es') ← remove_dentry inodes k (upd_dentry k dn d);
        Ok (d, es ++ es')
      else Ok (d, [])
  end.

(** A walk over the dentries in which only the current one may be removed. *)
Fixpoint walk_items (f : dentry_key_t -> dentry -> dirfrag -> res (dirfrag * list dn_effect))
    (ks : list dentry_key_t) (d : dirfrag) : res (dirfrag * list dn_effect) :=
  match ks with
  | [] => Ok (d, [])
  | k :: ks =>
      match df_items d !! k with
      | None => Abort
      | Some dn =>
          '(d, es) ← f k dn d;
          '(d, es') ← walk_items f ks d;
          Ok (d, es ++ es')
      end
  end.

Definition item_keys (d : dirfrag) : list dentry_key_t := (ordered (df_items d)).*1.

Definition remove_if_null (inodes : Z -> inode_info) (k : dentry_key_t) (dn : dentry) (d : dirfrag)
  : res (dirfrag * list dn_effect) :=
  if is_null dn && negb (dn_projected dn) then remove_dentry inodes k d else Ok (d, []).

Definition remove_null_dentries (inodes : Z -> inode_info) (d : dirfrag)
  : res (dirfrag * list dn_effect) :=
  '(d, es) ← walk_items (remove_if_null inodes) (item_keys d) d;
  check (num_snap_null d =? 0) ;;
  check (num_head_null d =? 0) ;;
  check (counts_agree d) ;;
  Ok (d, es).

Definition primary_ino (dn : dentry) : option Z :=
  match dn_linkage dn with LPrimary ino => Some ino | _ => None end.

(** [in && in->is_dirty()] then [in->mark_clean()] *)
Definition clean_inode (inodes : Z -> inode_info) (dn : dentry)
  : (Z -> inode_info) * dentry * list dn_effect :=
  match primary_ino dn with
  | Some ino =>
      if in_dirty (inodes ino) then
        let '(i, dn) := in_mark_clean (inodes ino) dn in
        (fun x => if x =? ino then i else inodes x, dn, [MarkInodeClean ino])
      else (inodes, dn, [])
  | None => (inodes, dn, [])
  end.

(** [remove_dentry(dn)], then [cache->remove_inode(in)] when there was an inode *)
Definition purge_dentry (inodes : Z -> inode_info) (k : dentry_key_t) (ino : option Z)
    (dn : dentry) (d : dirfrag) : res (dirfrag * list dn_effect) :=
  '(d, es) ← remove_dentry inodes k (upd_dentry k dn d);
  Ok (d, es ++ match ino with Some ino => [RemoveInode ino] | None => [] end).

(** the loop body of [try_remove_dentries_for_stray]; [inodes] changes as inodes are cleaned *)
Definition stray_dentry (clear_dirty : bool) (k : dentry_key_t) (dn : dentry) (inodes : Z -> inode_info)
    (d : dirfrag) : res ((Z -> inode_info) * dirfrag * list dn_effect) :=
  if is_head dn then
    if negb (is_null dn) || dn_projected dn then Ok (inodes, d, [])
    else
      let '(dn, es) := if clear_dirty then clean_dentry k dn else (dn, []) in
      let '(dn, es') :=
        if bool_decide (dn_leases dn = ∅) then (dn, []) else (dn_remove_leases dn, [RemoveLeases k]) in
      let d := upd_dentry k dn d in
      if get_num_ref (dn_obj dn) (-1) =? 0 then
        '(d, es'') ← remove_dentry inodes k d; Ok (inodes, d, es ++ es' ++ es'')
      else Ok (inodes, d, es ++ es')
  else if dn_projected dn then Ok (inodes, d, [])
  else
    let ino := primary_ino dn in
    let '(inodes, dn, es) := if clear_dirty then clean_inode inodes dn else (inodes, dn, []) in
    let '(dn, es') := if clear_dirty then clean_dentry k dn else (dn, []) in
    if get_num_ref (dn_obj dn) (-1) =? 0 then
      '(d, es'') ← purge_dentry inodes k ino dn d; Ok (inodes, d, es ++ es' ++ es'')
    else Ok (inodes, upd_dentry k dn d, es ++ es').

Fixpoint stray_walk (clear_dirty : bool) (ks : list dentry_key_t) (inodes : Z -> inode_info) (d : dirfrag)
  : res ((Z -> inode_info) * dirfrag * list dn_effect) :=
  match ks with
  | [] => Ok (inodes, d, [])
  | k :: ks =>
      match df_items d !! k with
      | None => Abort
      | Some dn =>
          '(inodes, d, es) ← stray_dentry clear_dirty k dn inodes d;
          '(inodes, d, es') ← stray_walk clear_dirty ks inodes d;
          Ok (inodes, d, es ++ es')
      end
  end.

(** [mark_clean] of the fragment itself *)
Definition mark_clean (d : dirfrag) : res (dirfrag * list dn_effect) :=
  if state_test (df_obj d) STATE_DIRTY then
    '(d, es) ← dir_put PIN_DIRTY (set_obj (state_clear STATE_DIRTY (df_obj d)) d);
    Ok (d, UnlistDirty :: es)
  else Ok (d, []).

(** [nlink] and [snaprealm] are of the inode of the fragment. *)
Definition try_remove_dentries_for_stray (nlink : Z) (snaprealm : bool) (inodes : Z -> inode_info)
    (d : dirfrag) : res ((Z -> inode_info) * dirfrag * list dn_effect) :=
  check (nlink =? 0) ;;
  let clear_dirty := negb snaprealm in
  '(inodes, d, es) ← stray_walk clear_dirty (item_keys d) inodes d;
  '(d, es') ← (if clear_dirty && is_dirty (df_obj d) then mark_clean d else Ok (d, []));
  Ok (inodes, d, es ++ es').

(** [lower_bound(first)] is the end, or beyond [last] *)
Definition no_snap_in (snaps : gset Z) (first last : Z) : bool :=
  match filter (fun s => first <= s) (ordered_elems snaps) with
  | [] => true
  | p :: _ => last <? p
  end.

Definition trimmable (inodes : Z -> inode_info) (snaps : gset Z) (dn : dentry) : bool :=
  no_snap_in snaps (dn_first dn) (dn_last dn) &&
  (get_num_ref (dn_obj dn) (-1) =? bool_Z (is_dirty (dn_obj dn))) &&
  match primary_ino dn with
  | None => true
  | Some ino => in_num_ref (inodes ino) =? bool_Z (in_dirty (inodes ino))
  end.

Definition try_trim_snap_dentry (inodes : Z -> inode_info) (snaps : gset Z) (k : dentry_key_t)
    (d : dirfrag) : res (dirfrag * list dn_effect * bool) :=
  match df_items d !! k with
  | None => Abort
  | Some dn =>
      check (negb (is_head dn)) ;;
      if trimmable inodes snaps dn then
        let ino := primary_ino dn in
        let '(inodes, dn, es) := clean_inode inodes dn in
        '(d, es') ← purge_dentry inodes k ino dn d;
        Ok (d, es ++ es', true)
      else Ok (d, [], false)
  end.

Definition purge_stale (inodes : Z -> inode_info) (snaps : gset Z) (k : dentry_key_t) (dn : dentry)
    (d : dirfrag) : res (dirfrag * list dn_effect) :=
  if is_head dn then Ok (d, [])
  else '(d, es, _) ← try_trim_snap_dentry inodes snaps k d; Ok (d, es).

Definition purge_stale_snap_data (inodes : Z -> inode_info) (snaps : gset Z) (d : dirfrag)
  : res (dirfrag * list dn_effect) :=
  walk_items (purge_stale inodes snaps) (item_keys d) d.

Definition touch_dentries_bottom (d : dirfrag) : list dn_effect := map TouchBottom (item_keys d).

(** ** Waiters on dentries *)

Definition is_waiting_for_dentry (dname : cstring) (snap : Z) (d : dirfrag) : bool :=
  bool_decide (is_Some (waiting_on_dentry d !! mk_ssnap dname snap)).

Definition add_dentry_waiter (dname : cstring) (snapid : Z) (c : C) (d : dirfrag)
  : res (dirfrag * list dn_effect) :=
  '(d, es) ← (if bool_decide (waiting_on_dentry d = ∅) then dir_get PIN_DNWAITER d else Ok (d, []));
  let key := mk_ssnap dname snapid in
  let w := waiting_on_dentry d in
  Ok (set_dn_waiting (<[key := default [] (w !! key) ++ [c]]> w) d, es).

(** the [while] loop: entries up to [ub] are spliced to [ls] and erased *)
Fixpoint take_range (ub : string_snap_t) (l : list (string_snap_t * list C))
    (w : gmap string_snap_t (list C)) (ls : list C) : gmap string_snap_t (list C) * list C :=
  match l with
  | [] => (w, ls)
  | (k, cs) :: l =>
      if string_snap_ltb ub k then (w, ls) else take_range ub l (delete k w) (ls ++ cs)
  end.

Definition take_dentry_waiting (dname : cstring) (first last : Z) (ls : list C) (d : dirfrag)
  : res (dirfrag * list dn_effect * list C) :=
  if bool_decide (waiting_on_dentry d = ∅) then Ok (d, [], ls)
  else
    let w := waiting_on_dentry d in
    let '(w, ls) := take_range (mk_ssnap dname last) (lower_bound (mk_ssnap dname first) w) w ls in
    let d := set_dn_waiting w d in
    '(d, es) ← (if bool_decide (w = ∅) then dir_put PIN_DNWAITER d else Ok (d, []));
    Ok (d, es, ls).

(** all waiters, in the order of their keys *)
Definition all_dentry_waiters (d : dirfrag) : list C :=
  flat_map snd (ordered (waiting_on_dentry d)).

Definition take_sub_waiting (ls : list C) (d : dirfrag) : res (dirfrag * list dn_effect * list C) :=
  if bool_decide (waiting_on_dentry d = ∅) then Ok (d, [], ls)
  else
    let ls := ls ++ all_dentry_waiters d in
    '(d, es) ← dir_put PIN_DNWAITER (set_dn_waiting ∅ d);
    Ok (d, es, ls).

(** [CDir::take_waiting] *)
Definition dir_take_waiting (mask : Z) (ls : list C) (d : dirfrag)
  : res (dirfrag * list dn_effect * list C) :=
  '(d, es, ls) ← (if has_bits mask WAIT_DENTRY then take_sub_waiting ls d else Ok (d, [], ls));
  '(o, hs, ls) ← take_waiting (df_obj d) mask ls;
  Ok (set_obj o d, es ++ map DirHook hs, ls).

End Dentries.
Arguments dirfrag C : clear implicits.

(** ** The invariant *)

Section Counts.
Context {C : Type} `{CephConst}.

Definition counter (null head : bool) (d : dirfrag C) : Z :=
  match null, head with
  | true, true => num_head_null d
  | true, false => num_snap_null d
  | false, true => num_head_items d
  | false, false => num_snap_items d
  end.

Definition of_class (null head : bool) (p : dentry_key_t * dentry C) : Prop :=
  is_null (snd p) = null /\ is_head (snd p) = head.

#[export] Instance of_class_dec null head p : Decision (of_class null head p).
Proof. unfold of_class. apply _. Defined.

(** The number of dentries of a class. *)
Definition class_size (null head : bool) (m : gmap dentry_key_t (dentry C)) : Z :=
  Z.of_nat (size (filter (of_class null head) m)).

Definition in_class (null head : bool) (dn : dentry C) : Z :=
  if Bool.eqb (is_null dn) null && Bool.eqb (is_head dn) head then 1 else 0.

Lemma in_class_spec null head k dn :
  in_class null head dn = if decide (of_class null head (k, dn)) then 1 else 0.
Proof.
  unfold in_class. destruct (decide _) as [[<- <-]|Hn]; [by rewrite !Bool.eqb_reflx|].
  destruct (Bool.eqb _ _ && _) eqn:E; [|done].
  apply andb_true_iff in E as [E1%Bool.eqb_prop E2%Bool.eqb_prop]. by destruct Hn.
Qed.

Lemma class_size_insert null head m k dn :
  m !! k = None -> class_size null head (<[k := dn]> m) = class_size null head m + in_class null head dn.
Proof.
  intros Hk. unfold class_size. rewrite (in_class_spec _ _ k). destruct (decide _) as [Hc|Hc].
  - rewrite map_filter_insert_True by exact Hc. rewrite map_size_insert_None; [lia|].
    by rewrite map_lookup_filter_None; left.
  - rewrite map_filter_insert_False by exact Hc. rewrite delete_id by done. lia.
Qed.

Lemma class_size_delete null head m k dn :
  m !! k = Some dn -> class_size null head m = class_size null head (delete k m) + in_class null head dn.
Proof.
  intros Hk. rewrite <- (insert_delete_id m k dn Hk) at 1.
  apply class_size_insert, lookup_delete_eq.
Qed.

Lemma class_size_update null head m k dn dn' :
  m !! k = Some dn ->
  class_size null head (<[k := dn']> m) =
    class_size null head m - in_class null head dn + in_class null head dn'.
Proof.
  intros Hk. rewrite (class_size_delete null head m k dn Hk).
  rewrite <- insert_delete_eq, class_size_insert by apply lookup_delete_eq. lia.
Qed.

Lemma class_sizes m :
  class_size false true m + class_size true true m + class_size false false m +
  class_size true false m = Z.of_nat (size m).
Proof.
  induction m as [|k dn m Hk IH] using map_ind.
  - unfold class_size. by rewrite !map_filter_empty, map_size_empty.
  - rewrite !class_size_insert, map_size_insert_None by done.
    enough (in_class false true dn + in_class true true dn + in_class false false dn +
            in_class true false dn = 1) by lia.
    unfold in_class. by destruct (is_null dn), (is_head dn).
Qed.

Lemma class_size_range null head m : 0 <= class_size null head m <= Z.of_nat (size m).
Proof.
  pose proof (class_sizes m). assert (forall n h, 0 <= class_size n h m) as Hp by (unfold class_size; lia).
  pose proof (Hp false true). pose proof (Hp true true). pose proof (Hp false false).
  pose proof (Hp true false). destruct null, head; lia.
Qed.

Lemma counter_adjust null head n null' head' (d : dirfrag C) :
  counter null head (adjust_count null' head' n d) =
    if bool_decide ((null, head) = (null', head')) then u32 (counter null head d + n)
    else counter null head d.
Proof. by destruct null, head, null', head'. Qed.

Lemma counter_adjust_eqb null head n null' head' (d : dirfrag C) :
  counter null head (adjust_count null' head' n d) =
    if Bool.eqb null null' && Bool.eqb head head' then u32 (counter null head d + n)
    else counter null head d.
Proof. by destruct null, head, null', head'. Qed.

End Counts.

Section Invariant.
Context {C : Type} `{CephConst} `{CDentryOps C}.
Implicit Types d : dirfrag C.
Implicit Types dn : dentry C.

(** The part of the invariant that is about the dentries. *)
Record items_inv d : Prop := {
  ii_key : forall k dn, df_items d !! k = Some dn -> dn_key dn = k;
  ii_refs : forall k dn, df_items d !! k = Some dn -> refs_ok (dn_obj dn);
  ii_frag : state_test (df_obj d) STATE_DNPINNEDFRAG = true ->
    forall k dn, df_items d !! k = Some dn -> 0 < pins (dn_obj dn) DN_PIN_FRAGMENTING;
  ii_count : forall null head, counter null head d = class_size null head (df_items d);
  ii_small : Z.of_nat (size (df_items d)) < 2 ^ 32
}.

(** The fragment is a well-counted cache object that pins itself once exactly while it has a
    dentry, and once exactly while it has a waiter on a dentry. *)
Record dir_inv d : Prop := {
  dv_items : items_inv d;
  dv_refs : refs_ok (df_obj d);
  dv_child : pins (df_obj d) PIN_CHILD = (if decide (df_items d = ∅) then 0 else 1);
  dv_waiter : pins (df_obj d) PIN_DNWAITER = (if decide (waiting_on_dentry d = ∅) then 0 else 1)
}.

(** Counters stay below their width. *)
Record in_range d : Prop := {
  ir_size : Z.of_nat (size (df_items d)) < 2 ^ 32 - 1;
  ir_ref : co_ref (df_obj d) < 2 ^ 31 - 1;
  ir_dn_ref : forall k dn, df_items d !! k = Some dn -> co_ref (dn_obj dn) < 2 ^ 31 - 1
}.

Lemma num_any_size d : items_inv d -> get_num_any d = Z.of_nat (size (df_items d)).
Proof.
  intros [_ _ _ Hc Hs]. unfold get_num_any. pose proof (class_sizes (df_items d)) as Hsum.
  rewrite <- !Hc in Hsum. simpl in Hsum.
  replace (num_head_items d + num_head_null d + num_snap_items d + num_snap_null d)
    with (Z.of_nat (size (df_items d))) by lia.
  apply u32_id. unfold in_u32. lia.
Qed.

Lemma counts_agree_ok d : items_inv d -> counts_agree d = true.
Proof. intros Hi. unfold counts_agree. rewrite num_any_size by done. apply Z.eqb_refl. Qed.

Lemma size_zero {A} (m : gmap dentry_key_t A) : Z.of_nat (size m) = 0 <-> m = ∅.
Proof. rewrite <- map_size_empty_iff. lia. Qed.

Lemma in_class_self dn : in_class (is_null dn) (is_head dn) dn = 1.
Proof. unfold in_class. by rewrite !Bool.eqb_reflx. Qed.

Lemma in_class_other null head dn :
  (null, head) <> (is_null dn, is_head dn) -> in_class null head dn = 0.
Proof.
  intros Hne. unfold in_class. by destruct null, head, (is_null dn), (is_head dn).
Qed.

(** Adding a dentry and counting it. *)
Lemma items_inv_add d k dn :
  items_inv d -> df_items d !! k = None -> dn_key dn = k -> refs_ok (dn_obj dn) ->
  (state_test (df_obj d) STATE_DNPINNEDFRAG = true -> 0 < pins (dn_obj dn) DN_PIN_FRAGMENTING) ->
  Z.of_nat (size (df_items d)) < 2 ^ 32 - 1 ->
  items_inv (set_items (<[k := dn]> (df_items d)) (adjust_count (is_null dn) (is_head dn) 1 d)).
Proof.
  intros [Hk Hr Hf Hc Hs] Hn Hkey Hro Hfr Hsz. split; simpl.
  - intros k' dn'. destruct (decide (k' = k)) as [->|N].
    + rewrite lookup_insert_eq. by intros [= <-].
    + rewrite lookup_insert_ne by done. apply Hk.
  - intros k' dn'. destruct (decide (k' = k)) as [->|N].
    + rewrite lookup_insert_eq. by intros [= <-].
    + rewrite lookup_insert_ne by done. apply Hr.
  - intros Hst k' dn'. destruct (decide (k' = k)) as [->|N].
    + rewrite lookup_insert_eq. intros [= <-]. by apply Hfr.
    + rewrite lookup_insert_ne by done. by apply Hf.
  - intros null head. rewrite class_size_insert by done.
    change (counter null head (adjust_count (is_null dn) (is_head dn) 1 d) =
      class_size null head (df_items d) + in_class null head dn).
    rewrite counter_adjust, Hc. pose proof (class_size_range null head (df_items d)).
    case_bool_decide as E.
    + injection E as -> ->. rewrite in_class_self. apply u32_id. unfold in_u32. lia.
    + rewrite in_class_other by done. lia.
  - rewrite map_size_insert_None by done. lia.
Qed.

(** Removing a dentry and uncounting it. *)
Lemma items_inv_del d k dn :
  items_inv d -> df_items d !! k = Some dn ->
  items_inv (set_items (delete k (df_items d)) (adjust_count (is_null dn) (is_head dn) (-1) d)).
Proof.
  intros [Hk Hr Hf Hc Hs] Hn. split; simpl.
  - intros k' dn' [_ ?]%lookup_delete_Some. by apply Hk.
  - intros k' dn' [_ ?]%lookup_delete_Some. by eapply Hr.
  - intros Hst k' dn' [_ ?]%lookup_delete_Some. by eapply Hf.
  - intros null head.
    change (counter null head (adjust_count (is_null dn) (is_head dn) (-1) d) =
      class_size null head (delete k (df_items d))).
    rewrite counter_adjust, Hc. pose proof (class_size_range null head (df_items d)).
    pose proof (class_size_range null head (delete k (df_items d))).
    rewrite (class_size_delete null head (df_items d) k dn Hn) in *.
    case_bool_decide as E.
    + injection E as -> ->. rewrite in_class_self in *. rewrite u32_id; [lia|]. unfold in_u32. lia.
    + rewrite in_class_other by done. lia.
  - pose proof (map_size_delete k (df_items d)) as E. rewrite Hn in E. simpl in E. lia.
Qed.

(** Changing a dentry in place, with the counters following its class. *)
Lemma items_inv_upd d k dn dn' :
  items_inv d -> df_items d !! k = Some dn -> dn_key dn' = k -> refs_ok (dn_obj dn') ->
  (state_test (df_obj d) STATE_DNPINNEDFRAG = true -> 0 < pins (dn_obj dn') DN_PIN_FRAGMENTING) ->
  forall d', df_items d' = <[k := dn']> (df_items d) -> df_obj d' = df_obj d ->
  (forall null head, counter null head d' =
     counter null head d - in_class null head dn + in_class null head dn') ->
  items_inv d'.
Proof.
  intros [Hk Hr Hf Hc Hs] Hn Hkey Hro Hfr d' Hi Ho Hcnt. split; rewrite ?Hi, ?Ho.
  - intros k' x. destruct (decide (k' = k)) as [->|N].
    + rewrite lookup_insert_eq. by intros [= <-].
    + rewrite lookup_insert_ne by done. apply Hk.
  - intros k' x. destruct (decide (k' = k)) as [->|N].
    + rewrite lookup_insert_eq. by intros [= <-].
    + rewrite lookup_insert_ne by done. apply Hr.
  - intros Hst k' x. destruct (decide (k' = k)) as [->|N].
    + rewrite lookup_insert_eq. intros [= <-]. by apply Hfr.
    + rewrite lookup_insert_ne by done. by apply Hf.
  - intros null head. by rewrite (class_size_update _ _ _ _ dn), Hcnt, Hc.
  - by rewrite map_size_insert_Some.
Qed.

(** What the pin operations leave alone. *)
Record same_entry (a b : dentry C) : Prop := {
  se_name : dn_name b = dn_name a;
  se_first : dn_first b = dn_first a;
  se_last : dn_last b = dn_last a;
  se_linkage : dn_linkage b = dn_linkage a;
  se_projected : dn_projected b = dn_projected a;
  se_leases : dn_leases b = dn_leases a
}.

(** [b] is [a] with other pins: still well counted, and pinned for fragmenting as before. *)
Definition repinned (a b : dentry C) : Prop :=
  same_entry a b /\ refs_ok (dn_obj b) /\
  pins (dn_obj b) DN_PIN_FRAGMENTING = pins (dn_obj a) DN_PIN_FRAGMENTING.

Lemma same_entry_key a b : same_entry a b -> dn_key b = dn_key a.
Proof. intros []. unfold dn_key. congruence. Qed.

Lemma same_entry_class a b : same_entry a b -> is_null b = is_null a /\ is_head b = is_head a.
Proof. intros [_ _ E1 E2 _ _]. unfold is_null, is_head. by rewrite E1, E2. Qed.

Lemma dn_get_ok pin dn :
  refs_ok (dn_obj dn) -> co_ref (dn_obj dn) < 2 ^ 31 - 1 ->
  exists es, dn_get pin dn = Ok (set_dn_obj (repin 1 pin (dn_obj dn)) dn, es).
Proof. intros R B. unfold dn_get. rewrite get_ok by done. simpl. eauto. Qed.

Lemma dn_put_ok pin dn :
  refs_ok (dn_obj dn) -> 0 < pins (dn_obj dn) pin ->
  exists es, dn_put pin dn = Ok (set_dn_obj (repin (-1) pin (dn_obj dn)) dn, es).
Proof. intros R B. unfold dn_put. rewrite put_ok by done. simpl. eauto. Qed.

Lemma repin_up pin (o : cobj C) : refs_ok o -> co_ref o < 2 ^ 31 - 1 -> refs_ok (repin 1 pin o).
Proof. intros R B. pose proof (pins_le_sum o pin R). apply repin_ok; [done|lia|lia]. Qed.

Lemma repin_down pin (o : cobj C) : refs_ok o -> 0 < pins o pin -> refs_ok (repin (-1) pin o).
Proof.
  intros R B. pose proof (pins_le_sum o pin R). pose proof (ro_sum _ R). pose proof (ro_small _ R).
  apply repin_ok; [done|lia|lia].
Qed.

Lemma pin_fragmenting_ok d dn :
  refs_ok (dn_obj dn) -> co_ref (dn_obj dn) < 2 ^ 31 - 1 ->
  exists dn' es, pin_fragmenting d dn = Ok (dn', es) /\ same_entry dn dn' /\ refs_ok (dn_obj dn') /\
    (state_test (df_obj d) STATE_DNPINNEDFRAG = true -> 0 < pins (dn_obj dn') DN_PIN_FRAGMENTING).
Proof.
  intros R B. unfold pin_fragmenting. destruct (state_test _ _); [|by eexists _, _].
  destruct (dn_get_ok DN_PIN_FRAGMENTING dn R B) as [es ->]. simpl. eexists _, _. split; [done|].
  pose proof (repin_up DN_PIN_FRAGMENTING (dn_obj dn) R B) as [R1 R2 R3].
  split; [done|]. split; [done|]. intros _.
  change (0 < pins (repin 1 DN_PIN_FRAGMENTING (dn_obj dn)) DN_PIN_FRAGMENTING).
  rewrite pins_repin, decide_True by done. pose proof (pins_le_sum _ DN_PIN_FRAGMENTING R). lia.
Qed.

Lemma unpin_fragmenting_ok d dn :
  refs_ok (dn_obj dn) ->
  (state_test (df_obj d) STATE_DNPINNEDFRAG = true -> 0 < pins (dn_obj dn) DN_PIN_FRAGMENTING) ->
  exists dn' es, unpin_fragmenting d dn = Ok (dn', es) /\ same_entry dn dn' /\ refs_ok (dn_obj dn') /\
    (forall p, p <> DN_PIN_FRAGMENTING -> pins (dn_obj dn') p = pins (dn_obj dn) p).
Proof.
  intros R B. unfold unpin_fragmenting. destruct (state_test _ _); [|by eexists _, _].
  destruct (dn_put_ok DN_PIN_FRAGMENTING dn R) as [es ->]; [by apply B|]. simpl. eexists _, _.
  split; [done|]. specialize (B eq_refl).
  pose proof (repin_down DN_PIN_FRAGMENTING (dn_obj dn) R B) as [R1 R2 R3].
  split; [done|]. split; [done|]. intros p Hp.
  change (pins (repin (-1) DN_PIN_FRAGMENTING (dn_obj dn)) p = pins (dn_obj dn) p).
  by rewrite pins_repin, decide_False.
Qed.

(** The two pins are different constants of [CDentry]. *)
Context (pins_distinct : DN_PIN_FRAGMENTING <> DN_PIN_INODEPIN).

Lemma link_inode_work_ok i ino dn :
  refs_ok (dn_obj dn) -> co_ref (dn_obj dn) < 2 ^ 31 - 1 ->
  exists dn' es, link_inode_work i ino dn = Ok (dn', es) /\ repinned dn dn' /\
    (in_num_ref i <> 0 -> 0 < pins (dn_obj dn') DN_PIN_INODEPIN) /\
    co_ref (dn_obj dn') <= co_ref (dn_obj dn) + 1.
Proof.
  intros R B. unfold link_inode_work. destruct (Z.eqb_spec (in_num_ref i) 0) as [E|E].
  - simpl. eexists _, _. split; [done|]. split; [by split_and!|]. split; [done|lia].
  - destruct (dn_get_ok DN_PIN_INODEPIN dn R B) as [es ->]. simpl. eexists _, _. split; [done|].
    split.
    + split; [done|]. split; [by apply repin_up|]. simpl. by rewrite pins_repin, decide_False.
    + simpl. rewrite pins_repin, decide_True by done.
      pose proof (pins_le_sum _ DN_PIN_INODEPIN R). split; [|lia]. intros _. lia.
Qed.

(** A referenced inode pins its primary dentry ([CInode::first_get] and [last_put]). *)
Definition inode_pinned (inodes : Z -> inode_info) (dn : dentry C) : Prop :=
  match dn_linkage dn with
  | LPrimary ino => in_num_ref (inodes ino) <> 0 -> 0 < pins (dn_obj dn) DN_PIN_INODEPIN
  | _ => True
  end.

Lemma unlink_inode_work_ok inodes dn :
  refs_ok (dn_obj dn) -> is_null dn = false -> inode_pinned inodes dn ->
  exists dn' es, unlink_inode_work inodes dn = Ok (dn', es) /\
    repinned (set_linkage LNull dn) dn'.
Proof.
  intros R Hn Hp. unfold unlink_inode_work, is_null, inode_pinned in *.
  destruct (dn_linkage dn) as [|ino|ino dt inode]; [done| |].
  - destruct (Z.eqb_spec (in_num_ref (inodes ino)) 0) as [E|E]; [by eexists _, _|].
    destruct (dn_put_ok DN_PIN_INODEPIN dn R (Hp E)) as [es ->]. simpl. eexists _, _. split; [done|].
    split; [done|]. split; [by apply repin_down, Hp|]. simpl. by rewrite pins_repin, decide_False.
  - by eexists _, _.
Qed.

(** ** The pin on the fragment *)

Lemma items_inv_obj d o :
  items_inv d -> co_state o = co_state (df_obj d) -> items_inv (set_obj o d).
Proof.
  intros [Hk Hr Hf Hc Hs] E. split; simpl; [done|done| |done|done].
  unfold state_test. rewrite E. exact Hf.
Qed.

Lemma pin_child_ok d :
  items_inv d -> refs_ok (df_obj d) -> co_ref (df_obj d) < 2 ^ 31 - 1 -> df_items d <> ∅ ->
  pins (df_obj d) PIN_CHILD = (if get_num_any d =? 1 then 0 else 1) ->
  pins (df_obj d) PIN_DNWAITER = (if decide (waiting_on_dentry d = ∅) then 0 else 1) ->
  exists d' es, pin_child d = Ok (d', es) /\ dir_inv d' /\ df_items d' = df_items d.
Proof.
  intros Hi R B Hne Hp Hw. unfold pin_child. destruct (get_num_any d =? 1) eqn:E.
  - unfold dir_get. rewrite get_ok by done. simpl.
    assert (items_inv (set_obj (repin 1 PIN_CHILD (df_obj d)) d)) as Hi' by by apply items_inv_obj.
    rewrite counts_agree_ok by done. simpl. eexists _, _. split; [done|]. split; [|done].
    split; [done|by apply repin_up| |]; cbn [set_obj df_obj df_items waiting_on_dentry].
    + rewrite pins_repin, decide_True, decide_False by done. lia.
    + by rewrite pins_repin, decide_False.
  - simpl. rewrite counts_agree_ok by done. simpl. eexists _, _. split; [done|]. split; [|done].
    split; [done|done|by rewrite decide_False|done].
Qed.

(** After a dentry is added, the fragment is pinned as [pin_child] expects. *)
Lemma child_pin_after_add d k dn :
  dir_inv d -> df_items d !! k = None ->
  let d' := set_items (<[k := dn]> (df_items d)) (adjust_count (is_null dn) (is_head dn) 1 d) in
  items_inv d' -> pins (df_obj d') PIN_CHILD = (if get_num_any d' =? 1 then 0 else 1).
Proof.
  intros [Hi R Hc Hw] Hn d' Hi'. rewrite (num_any_size d' Hi'). simpl.
  rewrite Hc, map_size_insert_None by done. destruct (decide (df_items d = ∅)) as [E|E].
  - apply size_zero in E. by replace (size (df_items d)) with 0%nat by lia.
  - destruct (Z.eqb_spec (Z.of_nat (S (size (df_items d)))) 1) as [E'|]; [|done].
    exfalso. apply E, size_zero. lia.
Qed.

(** ** Each operation keeps the invariant

    [abs] forgets all but the first snapshot and the linkage of each dentry. *)

Definition entry (dn : dentry C) : Z * linkage_t := (dn_first dn, dn_linkage dn).
Definition abs d : gmap dentry_key_t (Z * linkage_t) := entry <$> df_items d.

(** Room for one more dentry. *)
Definition has_room d : Prop :=
  Z.of_nat (size (df_items d)) < 2 ^ 32 - 1 /\ co_ref (df_obj d) < 2 ^ 31 - 1.

Lemma in_range_room d : in_range d -> has_room d.
Proof. by intros []. Qed.

Lemma finish_add_ok null head d dn0 :
  is_null dn0 = null -> is_head dn0 = head ->
  dir_inv d -> has_room d -> df_items d !! dn_key dn0 = None ->
  refs_ok (dn_obj dn0) -> co_ref (dn_obj dn0) < 2 ^ 31 - 1 ->
  exists d' es, finish_add null head dn0 d = Ok (d', es) /\
    dir_inv d' /\ abs d' = <[dn_key dn0 := entry dn0]> (abs d).
Proof.
  intros <- <- Hinv [Hs Hr] Hn R B. unfold finish_add. cbv zeta.
  set (d1 := adjust_count (is_null dn0) (is_head dn0) 1 d).
  destruct (pin_fragmenting_ok d1 dn0 R B) as (dn & es & -> & Hse & R' & Hf).
  pose proof (same_entry_key _ _ Hse) as Hk. destruct (same_entry_class _ _ Hse) as [Hnull Hhead].
  pose proof Hinv as [Hi Rd _ Hw].
  assert (items_inv (set_items (<[dn_key dn := dn]> (df_items d1)) d1)) as Hi1.
  { unfold d1. rewrite <- Hnull, <- Hhead.
    refine (items_inv_add d (dn_key dn) dn Hi _ eq_refl R' Hf Hs). by rewrite Hk. }
  destruct (pin_child_ok (set_items (<[dn_key dn := dn]> (df_items d1)) d1)) as (d' & es' & E & Hd' & Hit).
  - done.
  - done.
  - done.
  - apply insert_non_empty.
  - unfold d1 in *. rewrite <- Hnull, <- Hhead in *.
    refine (child_pin_after_add d (dn_key dn) dn Hinv _ Hi1). by rewrite Hk.
  - exact Hw.
  - cbn [mbind res_bind]. rewrite E. eexists _, _. split_and!; [done|done|].
    unfold abs. rewrite Hit. simpl. rewrite fmap_insert, Hk. f_equal. unfold entry. destruct Hse. congruence.
Qed.

Lemma new_dentry_refs d dname first last l :
  refs_ok (dn_obj (new_dentry d dname first last l)) /\ co_ref (dn_obj (new_dentry d dname first last l)) = 0.
Proof. unfold new_dentry; simpl. destruct (is_auth (df_obj d)); (split; [split; simpl; done|done]). Qed.

Lemma add_null_ok d dname first last :
  dir_inv d -> has_room d -> df_items d !! mk_key last dname = None ->
  exists d' es, add_null_dentry dname first last d = Ok (d', es) /\ dir_inv d' /\
    abs d' = <[mk_key last dname := (first, LNull)]> (abs d).
Proof.
  intros Hi Hr Hn. unfold add_null_dentry, lookup_exact_snap. rewrite !check_true by by apply bool_decide_true.
  destruct (new_dentry_refs d dname first last LNull) as [R B].
  destruct (finish_add_ok true (last =? CEPH_NOSNAP) d (new_dentry d dname first last LNull))
    as (d' & es & E & Hi' & Ha); [done..|lia|]. rewrite E. by eexists _, _.
Qed.

Lemma add_remote_ok d dname ino d_type first last :
  dir_inv d -> has_room d -> df_items d !! mk_key last dname = None ->
  exists d' es, add_remote_dentry dname ino d_type first last d = Ok (d', es) /\ dir_inv d' /\
    abs d' = <[mk_key last dname := (first, LRemote ino d_type None)]> (abs d).
Proof.
  intros Hi Hr Hn. unfold add_remote_dentry, lookup_exact_snap.
  rewrite !check_true by by apply bool_decide_true.
  destruct (new_dentry_refs d dname first last (LRemote ino d_type None)) as [R B].
  destruct (finish_add_ok false (last =? CEPH_NOSNAP) d (new_dentry d dname first last (LRemote ino d_type None)))
    as (d' & es & E & Hi' & Ha); [done..|lia|]. rewrite E. by eexists _, _.
Qed.

Lemma add_primary_ok d dname i ino first last :
  dir_inv d -> has_room d -> df_items d !! mk_key last dname = None ->
  exists d' es, add_primary_dentry dname i ino first last d = Ok (d', es) /\ dir_inv d' /\
    abs d' = <[mk_key last dname := (first, LPrimary ino)]> (abs d).
Proof.
  intros Hi Hr Hn. unfold add_primary_dentry, lookup_exact_snap.
  rewrite !check_true by by apply bool_decide_true.
  destruct (new_dentry_refs d dname first last (LPrimary ino)) as [R B].
  destruct (link_inode_work_ok i ino (new_dentry d dname first last (LPrimary ino)) R)
    as (dn & es & -> & [Hse [R' _]] & _ & B'); [lia|].
  pose proof (same_entry_key _ _ Hse) as Hk. destruct (same_entry_class _ _ Hse) as [Hnull _].
  cbn [mbind res_bind].
  destruct (finish_add_ok false (dn_last dn =? CEPH_NOSNAP) d dn) as (d' & es' & E & Hi' & Ha);
    [done..|by rewrite Hk|done|lia|].
  rewrite E. eexists _, _. split; [done|]. split; [done|]. rewrite Ha, Hk. f_equal.
  unfold entry. destruct Hse as [_ -> _ -> _ _]. done.
Qed.

Lemma u32_class null head (m : gmap dentry_key_t (dentry C)) n :
  Z.of_nat (size m) < 2 ^ 32 -> 0 <= class_size null head m + n <= Z.of_nat (size m) ->
  u32 (class_size null head m + n) = class_size null head m + n.
Proof. intros. apply u32_id. unfold in_u32. lia. Qed.

Lemma class_pair head (m : gmap dentry_key_t (dentry C)) :
  0 <= class_size true head m /\ 0 <= class_size false head m /\
  class_size true head m + class_size false head m <= Z.of_nat (size m).
Proof.
  pose proof (class_sizes m). pose proof (class_size_range true true m).
  pose proof (class_size_range true false m). pose proof (class_size_range false true m).
  pose proof (class_size_range false false m). destruct head; lia.
Qed.

Lemma class_member null head d k dn :
  df_items d !! k = Some dn -> is_null dn = null -> is_head dn = head ->
  1 <= class_size null head (df_items d).
Proof.
  intros Hk <- <-. rewrite (class_size_delete _ _ _ k dn Hk), in_class_self.
  pose proof (class_size_range (is_null dn) (is_head dn) (delete k (df_items d))). lia.
Qed.

(** Changing the linkage of a dentry between null and linked. *)
Lemma relink_inv d k dn dn' (linked : bool) :
  items_inv d -> df_items d !! k = Some dn -> dn_key dn' = k -> refs_ok (dn_obj dn') ->
  pins (dn_obj dn') DN_PIN_FRAGMENTING = pins (dn_obj dn) DN_PIN_FRAGMENTING ->
  is_null dn = linked -> is_null dn' = negb linked -> is_head dn' = is_head dn ->
  items_inv ((if linked then count_linked else count_unlinked) (is_head dn')
               (set_items (<[k := dn']> (df_items d)) d)).
Proof.
  intros Hi Hk Hkey R Hf Hn Hn' Hh. pose proof Hi as [_ _ Hfr Hc Hs].
  apply (items_inv_upd d k dn dn' Hi Hk Hkey R).
  - intros Hst. rewrite Hf. by eapply Hfr.
  - by destruct linked.
  - by destruct linked.
  - pose proof (class_member linked (is_head dn) d k dn Hk Hn eq_refl) as H1.
    pose proof (class_pair (is_head dn) (df_items d)) as H2.
    intros null head. unfold in_class. rewrite Hn, Hn', Hh.
    assert (forall n, 0 <= class_size null head (df_items d) + n <= Z.of_nat (size (df_items d)) ->
      u32 (counter null head d + n) = class_size null head (df_items d) + n) as Hu
      by (intros n Hr; rewrite Hc; by apply u32_class).
    destruct linked; unfold count_linked, count_unlinked; rewrite !counter_adjust_eqb;
      change (counter null head (set_items _ d)) with (counter null head d);
      destruct null, head, (is_head dn); cbn [Bool.eqb negb andb] in *; rewrite ?Hu, ?Hc by lia; lia.
Qed.

Lemma relink_dir_inv d d' k dn' :
  dir_inv d -> items_inv d' -> df_items d' = <[k := dn']> (df_items d) -> is_Some (df_items d !! k) ->
  df_obj d' = df_obj d -> waiting_on_dentry d' = waiting_on_dentry d -> dir_inv d'.
Proof.
  intros [Hi R Hc Hw] Hi' Eit [dn Hk] Eo Ew. split; [done|by rewrite Eo| |by rewrite Eo, Ew].
  rewrite Eo, Hc, Eit. rewrite !decide_False; [done|apply insert_non_empty|].
  intros E. by rewrite E, lookup_empty in Hk.
Qed.

Lemma abs_lookup d k : abs d !! k = entry <$> df_items d !! k.
Proof. apply lookup_fmap. Qed.

Lemma link_remote_ok d k ino d_type :
  dir_inv d -> (exists dn, df_items d !! k = Some dn /\ is_null dn = true) ->
  exists d' es, link_remote_inode k ino d_type d = Ok (d', es) /\ dir_inv d' /\
    abs d' = alter (fun e => (fst e, LRemote ino d_type None)) k (abs d).
Proof.
  intros Hd (dn & Hk & Hn). pose proof (dv_items _ Hd) as Hi. pose proof Hi as [Hkey Hr Hf _ _].
  unfold link_remote_inode. rewrite Hk, check_true by done. cbv zeta.
  set (dn' := set_linkage (LRemote ino d_type None) dn).
  assert (items_inv (count_linked (is_head dn') (set_items (<[k := dn']> (df_items d)) d))) as Hi'.
  { refine (relink_inv d k dn dn' true Hi Hk (Hkey _ _ Hk) (Hr _ _ Hk) eq_refl Hn eq_refl eq_refl). }
  rewrite check_true by by apply counts_agree_ok. eexists _, _. split; [done|]. split.
  - by apply (relink_dir_inv d _ k dn').
  - apply map_eq. intros k'. rewrite abs_lookup. simpl. destruct (decide (k' = k)) as [->|N].
    + by rewrite lookup_insert_eq, lookup_alter_eq, abs_lookup, Hk.
    + by rewrite lookup_insert_ne, lookup_alter_ne, abs_lookup by done.
Qed.

Lemma link_primary_ok d k i ino :
  dir_inv d -> in_range d -> (exists dn, df_items d !! k = Some dn /\ is_null dn = true) ->
  exists d' es, link_primary_inode k i ino d = Ok (d', es) /\ dir_inv d' /\
    abs d' = alter (fun e => (fst e, LPrimary ino)) k (abs d).
Proof.
  intros Hd Hrg (dn & Hk & Hn). pose proof (dv_items _ Hd) as Hi. pose proof Hi as [Hkey Hr Hf _ _].
  unfold link_primary_inode. rewrite Hk, check_true by done.
  destruct (link_inode_work_ok i ino (set_linkage (LPrimary ino) dn)) as (dn' & es & -> & (Hse & R & Hp) & _);
    [exact (Hr _ _ Hk)|exact (ir_dn_ref _ Hrg _ _ Hk)|]. cbn [mbind res_bind].
  destruct (same_entry_class _ _ Hse) as [Hn' Hh]. pose proof (same_entry_key _ _ Hse) as Hk'.
  assert (items_inv (count_linked (is_head dn') (set_items (<[k := dn']> (df_items d)) d))) as Hi'.
  { refine (relink_inv d k dn dn' true Hi Hk _ R Hp Hn Hn' Hh). rewrite Hk'. exact (Hkey _ _ Hk). }
  rewrite check_true by by apply counts_agree_ok. eexists _, _. split; [done|]. split.
  - by apply (relink_dir_inv d _ k dn').
  - apply map_eq. intros k'. rewrite abs_lookup. simpl. destruct (decide (k' = k)) as [->|N].
    + rewrite lookup_insert_eq, lookup_alter_eq, abs_lookup, Hk. simpl. unfold entry.
      by destruct Hse as [_ -> _ -> _ _].
    + by rewrite lookup_insert_ne, lookup_alter_ne, abs_lookup by done.
Qed.

Lemma unlink_ok inodes d k :
  dir_inv d -> (exists dn, df_items d !! k = Some dn /\ is_null dn = false /\ inode_pinned inodes dn) ->
  exists d' es, unlink_inode inodes k d = Ok (d', es) /\ dir_inv d' /\
    abs d' = alter (fun e => (fst e, LNull)) k (abs d).
Proof.
  intros Hd (dn & Hk & Hn & Hip). pose proof (dv_items _ Hd) as Hi. pose proof Hi as [Hkey Hr Hf _ _].
  unfold unlink_inode. rewrite Hk.
  destruct (unlink_inode_work_ok inodes dn (Hr _ _ Hk) Hn Hip) as (dn' & es & -> & Hse & R & Hp).
  cbn [mbind res_bind]. destruct (same_entry_class _ _ Hse) as [Hn' Hh]. pose proof (same_entry_key _ _ Hse) as Hk'.
  assert (items_inv (count_unlinked (is_head dn') (set_items (<[k := dn']> (df_items d)) d))) as Hi'.
  { refine (relink_inv d k dn dn' false Hi Hk _ R Hp Hn Hn' Hh). rewrite Hk'. exact (Hkey _ _ Hk). }
  rewrite check_true by by apply counts_agree_ok. eexists _, _. split; [done|]. split.
  - by apply (relink_dir_inv d _ k dn').
  - apply map_eq. intros k'. rewrite abs_lookup. simpl. destruct (decide (k' = k)) as [->|N].
    + rewrite lookup_insert_eq, lookup_alter_eq, abs_lookup, Hk. simpl. unfold entry.
      by destruct Hse as [_ -> _ -> _ _].
    + by rewrite lookup_insert_ne, lookup_alter_ne, abs_lookup by done.
Qed.

(** A dentry that [remove_dentry] accepts. *)
Definition removable (inodes : Z -> inode_info) (dn : dentry C) : Prop :=
  dn_leases dn = ∅ /\ inode_pinned inodes dn.

Lemma unpin_child_ok d d' k :
  dir_inv d -> is_Some (df_items d !! k) -> items_inv d' -> df_items d' = delete k (df_items d) ->
  df_obj d' = df_obj d -> waiting_on_dentry d' = waiting_on_dentry d ->
  exists d'' es, (if get_num_any d' =? 0 then dir_put PIN_CHILD d' else Ok (d', [])) = Ok (d'', es) /\
    dir_inv d'' /\ df_items d'' = df_items d'.
Proof.
  intros [Hi R Hc Hw] [dn Hk] Hi' Eit Eo Ew. rewrite (num_any_size d' Hi').
  rewrite decide_False in Hc by (intros E; by rewrite E, lookup_empty in Hk).
  destruct (Z.eqb_spec (Z.of_nat (size (df_items d'))) 0) as [E|E].
  - unfold dir_put. rewrite put_ok by (rewrite Eo; done || lia). cbn [mbind res_bind].
    eexists _, _. split; [done|]. split; [|done]. apply size_zero in E.
    split; cbn [set_obj df_obj df_items waiting_on_dentry].
    + by apply items_inv_obj.
    + rewrite Eo. apply repin_down; [done|lia].
    + rewrite pins_repin, !decide_True by done. rewrite Eo. lia.
    + rewrite pins_repin, decide_False by done. by rewrite Eo, Ew.
  - eexists _, _. split; [done|]. split; [|done]. split; [done|by rewrite Eo| |by rewrite Eo, Ew].
    rewrite Eo, decide_False; [done|]. by rewrite <- size_zero.
Qed.

Lemma remove_ok inodes d k dn :
  dir_inv d -> df_items d !! k = Some dn -> removable inodes dn ->
  exists d' es, remove_dentry inodes k d = Ok (d', es) /\ dir_inv d' /\
    df_items d' = delete k (df_items d).
Proof.
  intros Hd Hk [Hl Hip]. pose proof (dv_items _ Hd) as Hi. pose proof Hi as [Hkey Hr Hf _ _].
  unfold remove_dentry. rewrite Hk, check_true by by apply bool_decide_true.
  destruct (unpin_fragmenting_ok d dn) as (dn1 & es & -> & Hse & R1 & Hp1);
    [by eapply Hr|intros Hst; by eapply Hf|]. cbn [mbind res_bind].
  destruct (same_entry_class _ _ Hse) as [Hn Hh].
  assert (exists dn2 es', (if is_null dn1 then Ok (dn1, []) else unlink_inode_work inodes dn1) = Ok (dn2, es'))
    as (dn2 & es' & ->).
  { destruct (is_null dn1) eqn:En; [eauto|].
    destruct (unlink_inode_work_ok inodes dn1 R1 En) as (dn2 & es' & -> & _); [|eauto].
    unfold inode_pinned in *. rewrite (se_linkage _ _ Hse).
    destruct (dn_linkage dn); [done| |done]. rewrite Hp1; [done|]. congruence. }
  cbn [mbind res_bind]. set (d' := set_items (delete k (df_items d)) (adjust_count (is_null dn1) (is_head dn1) (-1) d)).
  assert (items_inv d') as Hi' by (unfold d'; rewrite Hn, Hh; exact (items_inv_del d k dn Hi Hk)).
  change (set_items _ _) with d'.
  destruct (unpin_child_ok d d' k) as (d'' & es'' & -> & Hd'' & Hit); [done|eauto|done..|].
  cbn [mbind res_bind]. rewrite check_true by apply counts_agree_ok, Hd''. by eexists _, _.
Qed.

(** ** [remove_null_dentries] *)

Definition null_unprojected (dn : dentry C) : bool := is_null dn && negb (dn_projected dn).

Lemma walk_remove_null inodes ks : forall d,
  dir_inv d -> NoDup ks -> (forall k, k ∈ ks -> is_Some (df_items d !! k)) ->
  (forall k dn, df_items d !! k = Some dn -> null_unprojected dn = true -> dn_leases dn = ∅) ->
  exists d' es, walk_items (remove_if_null inodes) ks d = Ok (d', es) /\ dir_inv d' /\
    forall k, df_items d' !! k =
      if decide (k ∈ ks) then dn ← df_items d !! k; (if null_unprojected dn then None else Some dn)
      else df_items d !! k.
Proof.
  induction ks as [|k ks IH]; intros d Hd Hnd Hks Hl; cbn [walk_items].
  - eexists _, _. split; [done|]. split; [done|]. intros k. rewrite decide_False; [done|]. apply not_elem_of_nil.
  - apply NoDup_cons in Hnd as [Hk Hnd]. destruct (Hks k) as [dn Hdn]; [by left|]. rewrite Hdn.
    assert (exists d1 es, remove_if_null inodes k dn d = Ok (d1, es) /\ dir_inv d1 /\
      forall x, df_items d1 !! x = if decide (x = k) then (if null_unprojected dn then None else Some dn)
                                   else df_items d !! x) as (d1 & es & -> & Hd1 & H1).
    { unfold remove_if_null. fold (null_unprojected dn). destruct (null_unprojected dn) eqn:En.
      - destruct (remove_ok inodes d k dn) as (d1 & es & E & Hd1 & Hit); [done|done| |].
        + split; [by eapply Hl|]. unfold null_unprojected, is_null in En. unfold inode_pinned.
          by destruct (dn_linkage dn).
        + eexists _, _. split; [done|]. split; [done|]. intros x. rewrite Hit. destruct (decide (x = k)) as [->|N].
          * by rewrite lookup_delete_eq.
          * by rewrite lookup_delete_ne.
      - eexists _, _. split; [done|]. split; [done|]. intros x. by destruct (decide (x = k)) as [->|]. }
    cbn [mbind res_bind].
    destruct (IH d1 Hd1 Hnd) as (d2 & es2 & -> & Hd2 & H2).
    { intros x Hx. rewrite H1. rewrite decide_False by congruence. apply Hks. by right. }
    { intros x dx. rewrite H1. destruct (decide (x = k)) as [->|]; [|by apply Hl].
      destruct (null_unprojected dn) eqn:En; [done|]. intros [= <-]. congruence. }
    cbn [mbind res_bind]. eexists _, _. split; [done|]. split; [done|]. intros x. rewrite H2, H1.
    destruct (decide (x = k)) as [->|N].
    + rewrite decide_False by done. rewrite decide_True by by left. by rewrite Hdn.
    + destruct (decide (x ∈ ks)) as [Hx|Hx].
      * by rewrite decide_True by by right.
      * rewrite decide_False; [done|]. rewrite elem_of_cons. tauto.
Qed.

(** [remove_null_dentries] removes exactly the null dentries that are not projected, and
    then succeeds exactly when there is no projected null dentry; with one, its asserts on the
    null counters abort the daemon. *)
Theorem remove_null_dentries_spec inodes d :
  dir_inv d ->
  (forall k dn, df_items d !! k = Some dn -> null_unprojected dn = true -> dn_leases dn = ∅) ->
  ((forall k dn, df_items d !! k = Some dn -> is_null dn = true -> dn_projected dn = false) ->
   exists d' es, remove_null_dentries inodes d = Ok (d', es) /\ dir_inv d' /\
     num_head_null d' = 0 /\ num_snap_null d' = 0 /\
     forall k, df_items d' !! k = dn ← df_items d !! k; (if is_null dn then None else Some dn)) /\
  (forall k dn, df_items d !! k = Some dn -> is_null dn = true -> dn_projected dn = true ->
   remove_null_dentries inodes d = Abort).
Proof.
  intros Hd Hl. unfold remove_null_dentries.
  destruct (walk_remove_null inodes (item_keys d) d Hd) as (d' & es & -> & Hd' & Hit).
  { apply ordered_nodup. }
  { intros k. apply elem_of_ordered_keys. }
  { exact Hl. }
  assert (forall k, df_items d' !! k = dn ← df_items d !! k; (if null_unprojected dn then None else Some dn)) as H1.
  { intros k. rewrite Hit. destruct (decide _) as [_|N]; [done|]. unfold item_keys in N.
    rewrite elem_of_ordered_keys in N. destruct (df_items d !! k); [|done]. by destruct N. }
  cbn [mbind res_bind]. pose proof (dv_items _ Hd') as Hi'. pose proof (ii_count _ Hi') as Hc. split.
  - intros Hnp.
    assert (forall k, df_items d' !! k = dn ← df_items d !! k; (if is_null dn then None else Some dn)) as H2.
    { intros k. rewrite H1. destruct (df_items d !! k) as [dn|] eqn:Ek; [|done]. simpl. unfold null_unprojected.
      destruct (is_null dn) eqn:En; [|done]. by rewrite (Hnp k dn). }
    assert (forall head, class_size true head (df_items d') = 0) as Hz.
    { intros head. unfold class_size. rewrite (proj2 (map_size_empty_iff _)); [done|]. apply map_empty. intros k.
      apply map_lookup_filter_None. right. intros dn Hk [Hn _]. rewrite H2 in Hk. destruct (df_items d !! k) as [dn'|]; [|done]. simpl in *.
      destruct (is_null dn') eqn:En; [done|]. injection Hk as ->. simpl in Hn. congruence. }
    pose proof (Hc true true) as E1. pose proof (Hc true false) as E2. rewrite Hz in E1, E2. simpl in E1, E2.
    rewrite !check_true by first [by apply counts_agree_ok | lia]. by eexists _, _.
  - intros k dn Hk Hn Hp.
    assert (df_items d' !! k = Some dn) as Hk'.
    { rewrite H1, Hk. simpl. unfold null_unprojected. by rewrite Hn, Hp. }
    pose proof (class_member true (is_head dn) d' k dn Hk' Hn eq_refl) as Hm. rewrite <- Hc in Hm.
    destruct (is_head dn); simpl in Hm.
    + destruct (num_snap_null d' =? 0); [|done]. cbn [assert_ mbind res_bind].
      destruct (Z.eqb_spec (num_head_null d') 0); [lia|done].
    + destruct (Z.eqb_spec (num_snap_null d') 0); [lia|done].
Qed.

(** ** Lookup *)

(** The snapshot intervals of the dentries of one name do not overlap. *)
Definition no_overlap d : Prop :=
  forall k1 k2 dn1 dn2, df_items d !! k1 = Some dn1 -> df_items d !! k2 = Some dn2 ->
    dn_name dn1 = dn_name dn2 -> dn_last dn1 < dn_last dn2 -> dn_last dn1 < dn_first dn2.

Lemma key_ltb_same name a b : dentry_key_ltb (mk_key a name) (mk_key b name) = (a <? b).
Proof. unfold dentry_key_ltb. simpl. by rewrite strcmp_refl. Qed.

Lemma key_between name s1 s2 k :
  dentry_key_ltb k (mk_key s1 name) = false -> dentry_key_ltb (mk_key s2 name) k = false ->
  dk_name k = name.
Proof.
  unfold dentry_key_ltb. simpl. rewrite (strcmp_antisym (dk_name k) name).
  destruct (strcmp (dk_name k) name) eqn:E; simpl; [|done|done]. intros _ _. by apply strcmp_eq.
Qed.

Lemma lookup_live d name snap dn :
  dir_inv d -> no_overlap d ->
  lookup name snap d = Some dn <->
    df_items d !! mk_key (dn_last dn) name = Some dn /\ dn_name dn = name /\
    dn_first dn <= snap <= dn_last dn.
Proof.
  intros Hd Hno. pose proof (ii_key _ (dv_items _ Hd)) as Hkey. unfold lookup, lower_bound.
  pose proof (drop_below_head (mk_key snap name) (ordered (df_items d)) (ordered_sorted _)) as Hlb.
  destruct (drop_below _ _) as [|[k dn'] l].
  - split; [done|]. intros (Hk & Hn & Hs). apply elem_of_ordered in Hk. apply Hlb in Hk. simpl in Hk.
    rewrite dentry_key_k_ltb, key_ltb_same in Hk. lia.
  - destruct Hlb as (Hin & Hge & Hleast). simpl in *. apply elem_of_ordered in Hin.
    pose proof (Hkey _ _ Hin) as Ek. rewrite dentry_key_k_ltb in Hge.
    assert (dk_name k = dn_name dn' /\ dk_snapid k = dn_last dn') as [En El] by (by subst k).
    split.
    + destruct (bool_decide_reflect (dn_name dn' = name)) as [Hn|]; [|done]. simpl.
      destruct (Z.leb_spec (dn_first dn') snap); [|done]. intros [= <-].
      destruct k as [ks kn]. simpl in *. subst. rewrite key_ltb_same in Hge. split_and!; [done|done|lia|lia].
    + intros (Hk & Hn & Hs). pose proof Hk as Hk'. apply elem_of_ordered in Hk'.
      apply Hleast in Hk'; [|simpl; rewrite dentry_key_k_ltb, key_ltb_same; lia].
      simpl in Hk'. unfold k_leb, dentry_key_order in Hk'. apply negb_true_iff in Hk'.
      pose proof (key_between _ _ _ _ Hge Hk') as Hkn. rewrite En in Hkn.
      destruct k as [ks kn]. simpl in *. subst ks kn. rewrite Hkn in *. rewrite key_ltb_same in Hge, Hk'.
      assert (dn_last dn' = dn_last dn) as El.
      { destruct (Z.lt_trichotomy (dn_last dn') (dn_last dn)) as [Hlt|[?|?]]; [|done|lia].
        pose proof (Hno _ _ _ _ Hin Hk (eq_trans Hkn (eq_sym Hn)) Hlt). lia. }
      rewrite El, Hk in Hin. injection Hin as <-. rewrite bool_decide_true by done. simpl.
      destruct (Z.leb_spec (dn_first dn) snap); [done|lia].
Qed.

(** When the snapshot intervals of a name do not overlap, [lookup] finds the dentry of the
    given name that is live at the given snapshot, if there is one, and nothing else. *)
Theorem lookup_finds_live d name snap dn :
  dir_inv d -> no_overlap d ->
  lookup name snap d = Some dn <->
    df_items d !! mk_key (dn_last dn) name = Some dn /\ dn_name dn = name /\
    dn_first dn <= snap <= dn_last dn.
Proof. apply lookup_live. Qed.

(** ** The operations refine a map *)

Inductive dop :=
| AddNull (dname : cstring) (first last : Z)
| AddPrimary (dname : cstring) (i : inode_info) (ino first last : Z)
| AddRemote (dname : cstring) (ino d_type first last : Z)
| LinkRemote (k : dentry_key_t) (ino d_type : Z)
| LinkPrimary (k : dentry_key_t) (i : inode_info) (ino : Z)
| Unlink (inodes : Z -> inode_info) (k : dentry_key_t)
| Remove (inodes : Z -> inode_info) (k : dentry_key_t).

Definition run_dop (op : dop) d : res (dirfrag C * list dn_effect) :=
  match op with
  | AddNull dname first last => add_null_dentry dname first last d
  | AddPrimary dname i ino first last => add_primary_dentry dname i ino first last d
  | AddRemote dname ino d_type first last => add_remote_dentry dname ino d_type first last d
  | LinkRemote k ino d_type => link_remote_inode k ino d_type d
  | LinkPrimary k i ino => link_primary_inode k i ino d
  | Unlink inodes k => unlink_inode inodes k d
  | Remove inodes k => remove_dentry inodes k d
  end.

(** What the callers guarantee. *)
Definition dop_pre (op : dop) d : Prop :=
  match op with
  | AddNull dname _ last | AddPrimary dname _ _ _ last | AddRemote dname _ _ _ last =>
      df_items d !! mk_key last dname = None
  | LinkRemote k _ _ | LinkPrimary k _ _ =>
      exists dn, df_items d !! k = Some dn /\ is_null dn = true
  | Unlink inodes k =>
      exists dn, df_items d !! k = Some dn /\ is_null dn = false /\ inode_pinned inodes dn
  | Remove inodes k => exists dn, df_items d !! k = Some dn /\ removable inodes dn
  end.

Definition relinked (l : linkage_t) (e : Z * linkage_t) : Z * linkage_t := (fst e, l).

(** The specification: a map from keys to first snapshots and linkages. *)
Definition dop_spec (op : dop) (m : gmap dentry_key_t (Z * linkage_t)) : gmap dentry_key_t (Z * linkage_t) :=
  match op with
  | AddNull dname first last => <[mk_key last dname := (first, LNull)]> m
  | AddPrimary dname _ ino first last => <[mk_key last dname := (first, LPrimary ino)]> m
  | AddRemote dname ino d_type first last =>
      <[mk_key last dname := (first, LRemote ino d_type None)]> m
  | LinkRemote k ino d_type => alter (relinked (LRemote ino d_type None)) k m
  | LinkPrimary k _ ino => alter (relinked (LPrimary ino)) k m
  | Unlink _ k => alter (relinked LNull) k m
  | Remove _ k => delete k m
  end.

(** C15: under what its callers guarantee, each operation on dentries passes all its asserts,
    keeps the four counters, the pins and the keys exact, and does to the map of dentries what
    its specification says. *)
Theorem dentries_refine_map op d :
  dir_inv d -> in_range d -> dop_pre op d ->
  exists d' es, run_dop op d = Ok (d', es) /\ dir_inv d' /\ abs d' = dop_spec op (abs d).
Proof.
  intros Hd Hr Hp. destruct op; simpl in *.
  - by apply add_null_ok; [|apply in_range_room|].
  - by apply add_primary_ok; [|apply in_range_room|].
  - by apply add_remote_ok; [|apply in_range_room|].
  - by apply link_remote_ok.
  - by apply link_primary_ok.
  - by apply unlink_ok.
  - destruct Hp as (dn & Hk & Hrm). destruct (remove_ok inodes d k dn Hd Hk Hrm) as (d' & es & E & Hd' & Hit).
    eexists _, _. split; [done|]. split; [done|]. unfold abs. by rewrite Hit, fmap_delete.
Qed.

(** Adding a dentry whose key is taken aborts, and so do linking a linked dentry, unlinking
    a null one, and removing one that clients hold leases on. *)
Theorem dentry_misuse_aborts d k dn :
  df_items d !! k = Some dn -> dn_key dn = k ->
  (forall first, add_null_dentry (dn_name dn) first (dn_last dn) d = Abort) /\
  (forall first i ino, add_primary_dentry (dn_name dn) i ino first (dn_last dn) d = Abort) /\
  (forall first ino dt, add_remote_dentry (dn_name dn) ino dt first (dn_last dn) d = Abort) /\
  (is_null dn = false -> forall ino dt, link_remote_inode k ino dt d = Abort) /\
  (is_null dn = false -> forall i ino, link_primary_inode k i ino d = Abort) /\
  (is_null dn = true -> forall inodes, unlink_inode inodes k d = Abort) /\
  (dn_leases dn <> ∅ -> forall inodes, remove_dentry inodes k d = Abort).
Proof.
  intros Hk Hkey.
  assert (df_items d !! mk_key (dn_last dn) (dn_name dn) = Some dn) as Hk' by (by rewrite <- Hkey in Hk).
  unfold add_null_dentry, add_primary_dentry, add_remote_dentry, link_remote_inode, link_primary_inode,
    unlink_inode, remove_dentry, lookup_exact_snap. rewrite Hk', Hk.
  split_and!; intros; [done..| | | |].
  - by rewrite H1.
  - by rewrite H1.
  - unfold unlink_inode_work, is_null in *. by destruct (dn_linkage dn).
  - by rewrite bool_decide_false.
Qed.

(** ** Waiters on dentries *)

Definition waits_in (dname : cstring) (first last : Z) (p : string_snap_t * list C) : Prop :=
  ss_name (fst p) = dname /\ first <= ss_snapid (fst p) <= last.

#[export] Instance waits_in_dec dname first last p : Decision (waits_in dname first last p).
Proof. unfold waits_in. apply _. Defined.

Lemma ssnap_k_ltb a b : k_ltb a b = string_snap_ltb a b.
Proof. unfold k_ltb, k_leb, string_snap_order. by rewrite negb_involutive. Qed.

Lemma waits_in_bounds dname first last (p : string_snap_t * list C) :
  waits_in dname first last p <->
  string_snap_ltb (fst p) (mk_ssnap dname first) = false /\
  string_snap_ltb (mk_ssnap dname last) (fst p) = false.
Proof.
  unfold waits_in, string_snap_ltb. destruct p as [[n s'] cs]; simpl. rewrite (strcmp_antisym n dname).
  destruct (strcmp n dname) eqn:E; simpl.
  - apply strcmp_eq in E. subst. split; intros []; lia || (split; [done|lia]).
  - split; [|by intros []]. intros [-> _]. by rewrite strcmp_refl in E.
  - split; [|by intros []]. intros [-> _]. by rewrite strcmp_refl in E.
Qed.

Fixpoint forget (l : list (string_snap_t * list C)) (w : gmap string_snap_t (list C)) :=
  match l with [] => w | p :: l => forget l (delete (fst p) w) end.

Lemma forget_lookup l : forall w k,
  forget l w !! k = if decide (k ∈ l.*1) then None else w !! k.
Proof.
  induction l as [|p l IH]; intros w k; cbn [forget].
  - rewrite decide_False; [done|]. apply not_elem_of_nil.
  - rewrite IH, fmap_cons. destruct (decide (k ∈ l.*1)) as [H1|H1].
    + by rewrite decide_True by by right.
    + destruct (decide (k = fst p)) as [->|N].
      * rewrite lookup_delete_eq, decide_True; [done|by left].
      * rewrite lookup_delete_ne, decide_False; [done| |done]. rewrite elem_of_cons. tauto.
Qed.

Lemma take_range_spec ub l : StronglySorted bind_le l -> forall w ls,
  take_range ub l w ls =
    (forget (filter (fun p => string_snap_ltb ub (fst p) = false) l) w,
     ls ++ flat_map snd (filter (fun p => string_snap_ltb ub (fst p) = false) l)).
Proof.
  induction 1 as [|[k cs] l Hs IH Hall]; intros w ls; cbn [take_range]; [by rewrite app_nil_r|].
  destruct (string_snap_ltb ub k) eqn:E.
  - rewrite filter_none; [by rewrite app_nil_r|].
    intros p [->|Hp]%elem_of_cons; simpl; [congruence|].
    pose proof (Forall_elem _ _ _ Hall Hp) as Hle. unfold bind_le in Hle. simpl in Hle.
    rewrite <- ssnap_k_ltb in E |- *. unfold k_ltb in *. apply negb_true_iff in E.
    intros E2%negb_false_iff. by rewrite (k_leb_trans _ _ _ Hle E2) in E.
  - rewrite filter_cons_True by done. rewrite IH. cbn [forget flat_map fst snd]. by rewrite app_assoc.
Qed.

Lemma filter_drop_below lb (P : string_snap_t * list C -> Prop) `{!forall x, Decision (P x)} l :
  StronglySorted bind_le l ->
  filter P (drop_below lb l) = filter (fun p => string_snap_ltb (fst p) lb = false /\ P p) l.
Proof.
  induction 1 as [|p l Hs IH Hall]; cbn [drop_below]; [done|]. rewrite ssnap_k_ltb.
  destruct (string_snap_ltb (fst p) lb) eqn:E.
  - rewrite IH, filter_cons_False; [done|]. intros [? _]. congruence.
  - apply filter_ext_in. intros q Hq. split; [|tauto]. intros HP. split; [|done].
    apply elem_of_cons in Hq as [->|Hq]; [done|]. pose proof (Forall_elem _ _ _ Hall Hq) as Hle.
    unfold bind_le in Hle. rewrite <- ssnap_k_ltb in E |- *. unfold k_ltb in *.
    apply negb_false_iff in E. apply negb_false_iff. by eapply k_leb_trans.
Qed.

Lemma take_range_taken dname first last w ls :
  take_range (mk_ssnap dname last) (lower_bound (mk_ssnap dname first) w) w ls =
    (filter (fun p => ~ waits_in dname first last p) w,
     ls ++ flat_map snd (filter (waits_in dname first last) (ordered w))).
Proof.
  assert (forall k (l : list (string_snap_t * list C)), StronglySorted bind_le l ->
    StronglySorted bind_le (drop_below k l)) as Hsd.
  { intros k l Hs. induction Hs as [|b l Hs IH Hall]; simpl; [constructor|].
    destruct (k_ltb (fst b) k); [done|]. by constructor. }
  rewrite take_range_spec by (apply Hsd, ordered_sorted). unfold lower_bound.
  rewrite filter_drop_below by apply ordered_sorted.
  rewrite (filter_ext_in _ (waits_in dname first last)) by (intros p _; by rewrite waits_in_bounds).
  f_equal. apply map_eq. intros k. rewrite forget_lookup, map_lookup_filter.
  destruct (decide _) as [Hin|Hout].
  - apply list_elem_of_fmap in Hin as ([k' cs] & -> & [Hw Hin]%list_elem_of_filter).
    apply elem_of_ordered in Hin. simpl. rewrite Hin. simpl.
    rewrite option_guard_False; [done|]. intros Hc. by apply Hc.
  - destruct (w !! k) as [cs|] eqn:Ek; [|done]. simpl. rewrite option_guard_True; [done|].
    intros Hw. apply Hout. apply (list_elem_of_fmap_2 fst _ (k, cs)). apply list_elem_of_filter.
    split; [done|]. by apply elem_of_ordered.
Qed.

Lemma items_inv_waiting d w : items_inv d -> items_inv (set_dn_waiting w d).
Proof. by intros []. Qed.

(** [take_dentry_waiting] hands out exactly the waiters on the given name at the snapshots
    from [first] to [last], ordered by snapshot and then by arrival; the others stay, and the
    fragment stays pinned exactly while there are any. *)
Theorem take_dentry_waiting_spec dname first last ls d :
  dir_inv d ->
  exists d' es,
    take_dentry_waiting dname first last ls d =
      Ok (d', es, ls ++ flat_map snd (filter (waits_in dname first last) (ordered (waiting_on_dentry d)))) /\
    dir_inv d' /\ df_items d' = df_items d /\
    waiting_on_dentry d' = filter (fun p => ~ waits_in dname first last p) (waiting_on_dentry d).
Proof.
  intros [Hi R Hc Hw]. unfold take_dentry_waiting. case_bool_decide as E.
  { eexists _, _. rewrite E. split; [by rewrite (proj2 (ordered_nil ∅) eq_refl), app_nil_r|].
    rewrite map_filter_empty. by split_and!. }
  rewrite decide_False in Hw by done. rewrite take_range_taken. cbv iota beta.
  set (w' := filter _ (waiting_on_dentry d)). case_bool_decide as E'.
  - unfold dir_put. rewrite put_ok; [|done|simpl; lia]. cbn [mbind res_bind].
    eexists _, _. split; [done|]. split; [|done].
    split; cbn [set_obj set_dn_waiting df_obj df_items waiting_on_dentry].
    + apply (items_inv_obj (set_dn_waiting w' d)); [by apply items_inv_waiting|done].
    + apply repin_down; [done|]. simpl. lia.
    + by rewrite pins_repin, decide_False.
    + rewrite pins_repin, !decide_True by done. lia.
  - eexists _, _. split; [done|]. split; [|done].
    split; [by apply items_inv_waiting|done|done|]. simpl. by rewrite decide_False.
Qed.

Lemma add_dentry_waiter_ok dname snap c d :
  dir_inv d -> co_ref (df_obj d) < 2 ^ 31 - 1 ->
  exists d' es, add_dentry_waiter dname snap c d = Ok (d', es) /\ dir_inv d' /\
    waiting_on_dentry d' = <[mk_ssnap dname snap :=
      default [] (waiting_on_dentry d !! mk_ssnap dname snap) ++ [c]]> (waiting_on_dentry d).
Proof.
  intros [Hi R Hc Hw] B. unfold add_dentry_waiter. case_bool_decide as E.
  - unfold dir_get. rewrite get_ok by done. cbn [mbind res_bind]. eexists _, _. split; [done|]. split; [|done].
    rewrite decide_True in Hw by done.
    split; cbn [set_obj set_dn_waiting df_obj df_items waiting_on_dentry].
    + apply items_inv_waiting, items_inv_obj; done.
    + by apply repin_up.
    + by rewrite pins_repin, decide_False.
    + rewrite pins_repin, decide_True, decide_False by (done || apply insert_non_empty). lia.
  - cbn [mbind res_bind]. eexists _, _. split; [done|]. split; [|done]. rewrite decide_False in Hw by done.
    split; [by apply items_inv_waiting|done|done|]. simpl. rewrite decide_False; [done|]. apply insert_non_empty.
Qed.

End Invariant.

(** ** Witnesses

    A fragment with a linked head dentry [b], a null head dentry [a] and a snapshot of [a]. *)

Definition ceph_ex : CephConst := {| CEPH_NOSNAP := 2 ^ 64 - 2 |}.
#[local] Existing Instance ceph_ex.

Definition ops_ex : CDentryOps Z := {|
  DN_PIN_FRAGMENTING := -2;
  DN_PIN_INODEPIN := 1;
  DN_STATE_FRAGMENTING := Z.shiftl 1 2;
  dn_mark_clean := fun dn => set_dn_obj (state_clear STATE_DIRTY (dn_obj dn)) dn;
  dn_remove_leases := fun dn => mk_dentry (dn_obj dn) (dn_name dn) (dn_first dn) (dn_last dn)
    (dn_version dn) (dn_linkage dn) (dn_projected dn) (dn_new dn) ∅;
  in_mark_clean := fun i dn => (i, dn)
|}.
#[local] Existing Instance ops_ex.

Definition dir_ex0 : dirfrag Z := mk_dfrag cobj_new ∅ 0 0 0 0 1 ∅.
Definition inode_ex : inode_info := mk_inode_info 1 false 0 0 false.

Definition after {A} (r : res (dirfrag Z * A)) : dirfrag Z :=
  match r with Ok (d, _) => d | Abort => dir_ex0 end.

Definition name_a : cstring := ["a"%char].
Definition name_b : cstring := ["b"%char].

Definition dir_ex1 : dirfrag Z := after (add_null_dentry name_a 5 CEPH_NOSNAP dir_ex0).
Definition dir_ex2 : dirfrag Z := after (add_null_dentry name_a 2 4 dir_ex1).
Definition dir_ex3 : dirfrag Z := after (add_primary_dentry name_b inode_ex 1099 2 CEPH_NOSNAP dir_ex2).

Lemma pins_ex : @DN_PIN_FRAGMENTING Z ops_ex <> DN_PIN_INODEPIN.
Proof. done. Qed.

Lemma dir_ex0_inv : dir_inv dir_ex0.
Proof.
  split; [split|split|..]; cbn; try done.
  - intros null head. by destruct null, head.
Qed.

(** Computed facts about finite maps. *)
Ltac by_compute := vm_compute; (reflexivity || congruence).
Ltac by_decide :=
  match goal with |- ?P => refine (proj1 (bool_decide_eq_true P) _); vm_compute; reflexivity end.

Lemma range_ex (d : dirfrag Z) :
  (Z.of_nat (size (df_items d)) <? 2 ^ 32 - 1) && (co_ref (df_obj d) <? 2 ^ 31 - 1) &&
  bool_decide (map_Forall (fun _ dn => co_ref (dn_obj dn) < 2 ^ 31 - 1) (df_items d)) = true ->
  in_range d.
Proof.
  rewrite !andb_true_iff, bool_decide_eq_true. intros [[? ?] Hm]. split; [lia|lia|].
  intros k dn Hk. exact (Hm k dn Hk).
Qed.

Lemma dir_ex1_inv : dir_inv dir_ex1.
Proof.
  destruct (add_null_ok dir_ex0 name_a 5 CEPH_NOSNAP dir_ex0_inv) as (d' & es & E & Hi & _).
  - apply in_range_room, range_ex. by_compute.
  - by_compute.
  - unfold dir_ex1. by rewrite E.
Qed.

Lemma dir_ex2_inv : dir_inv dir_ex2.
Proof.
  destruct (add_null_ok dir_ex1 name_a 2 4 dir_ex1_inv) as (d' & es & E & Hi & _).
  - apply in_range_room, range_ex. by_compute.
  - by_compute.
  - unfold dir_ex2. by rewrite E.
Qed.

Lemma dir_ex3_inv : dir_inv dir_ex3.
Proof.
  destruct (add_primary_ok pins_ex dir_ex2 name_b inode_ex 1099 2 CEPH_NOSNAP dir_ex2_inv)
    as (d' & es & E & Hi & _).
  - apply in_range_room, range_ex. by_compute.
  - by_compute.
  - unfold dir_ex3. by rewrite E.
Qed.

Lemma dentries_refine_map_witness : exists d' es,
  run_dop (Remove (fun _ => inode_ex) (mk_key 4 name_a)) dir_ex3 = Ok (d', es) /\ dir_inv d' /\
  abs d' = delete (mk_key 4 name_a) (abs dir_ex3).
Proof.
  apply (dentries_refine_map pins_ex (Remove (fun _ => inode_ex) (mk_key 4 name_a)) dir_ex3).
  - apply dir_ex3_inv.
  - apply range_ex. by_compute.
  - eexists. split; [vm_compute; reflexivity|]. split; [vm_compute; reflexivity|]. exact I.
Defined.

Lemma no_overlap_ex : no_overlap dir_ex3.
Proof.
  assert (map_Forall (fun _ dn1 => map_Forall (fun _ dn2 =>
    dn_name dn1 = dn_name dn2 -> dn_last dn1 < dn_last dn2 -> dn_last dn1 < dn_first dn2)
    (df_items dir_ex3)) (df_items dir_ex3)) as Hm.
  { by_decide. }
  intros k1 k2 dn1 dn2 H1 H2. exact (Hm k1 dn1 H1 k2 dn2 H2).
Qed.

Definition dn_ex : dentry Z := new_dentry dir_ex1 name_a 2 4 LNull.

Lemma lookup_finds_live_witness : lookup name_a 3 dir_ex3 = Some dn_ex.
Proof.
  apply (lookup_finds_live dir_ex3 name_a 3 dn_ex dir_ex3_inv no_overlap_ex).
  split; [vm_compute; reflexivity|]. split; [reflexivity|]. split; vm_compute; discriminate.
Defined.

Lemma remove_null_dentries_spec_witness : exists d' es,
  remove_null_dentries (fun _ => inode_ex) dir_ex3 = Ok (d', es) /\ dir_inv d' /\
  num_head_null d' = 0 /\ num_snap_null d' = 0 /\
  forall k, df_items d' !! k = dn ← df_items dir_ex3 !! k; (if is_null dn then None else Some dn).
Proof.
  apply (remove_null_dentries_spec pins_ex (fun _ => inode_ex) dir_ex3).
  - apply dir_ex3_inv.
  - assert (map_Forall (fun _ dn => null_unprojected dn = true -> dn_leases dn = ∅) (df_items dir_ex3)) as Hm
      by by_decide. exact Hm.
  - assert (map_Forall (fun _ dn => is_null dn = true -> dn_projected dn = false) (df_items dir_ex3)) as Hm
      by by_decide. exact Hm.
Defined.

Definition dir_ex4 : dirfrag Z := after (add_dentry_waiter name_a 3 7 dir_ex3).

Lemma dir_ex4_inv : dir_inv dir_ex4.
Proof.
  destruct (add_dentry_waiter_ok name_a 3 7 dir_ex3 dir_ex3_inv) as (d' & es & E & Hi & _); [by_compute|].
  unfold dir_ex4. by rewrite E.
Qed.

Lemma take_dentry_waiting_spec_witness : exists d' es,
  take_dentry_waiting name_a 2 4 [] dir_ex4 =
    Ok (d', es, flat_map snd (filter (waits_in name_a 2 4) (ordered (waiting_on_dentry dir_ex4)))) /\
  dir_inv d' /\ df_items d' = df_items dir_ex4 /\
  waiting_on_dentry d' = filter (fun p => ~ waits_in name_a 2 4 p) (waiting_on_dentry dir_ex4).
Proof. apply (take_dentry_waiting_spec name_a 2 4 [] dir_ex4 dir_ex4_inv). Defined.
