(* ===== verification/Freeze.v ===== *)
(** * Auth pins and freezing of a directory fragment (CDir.cc, CDir.h)

    Auth pins keep a fragment, or a tree of them, from being frozen (and exported or
    fragmented).  A freeze waits until the last pin is released, holding a pin of its own;
    whoever releases that last pin completes the freeze.  The fragment tells its inode when it
    or what is beneath it gets its first pin or loses its last one.

    The inode ([CInode], not in the repository) is seen through [fenv]; the calls on it are
    the trace of [fz_effect]s. *)

From stdpp Require Import base tactics numbers list gmap.
From Stdlib Require Import ZArith Lia.
From S2P Require Import Prelude Keys CacheObject Dentries.
Open Scope Z_scope.
Open Scope list_scope.

(** An ancestor fragment, as the walks of [is_frozen_tree] and [is_freezing_tree] see it. *)
Record anc := mk_anc { an_frozen_root : bool; an_freezing_root : bool; an_subtree_root : bool }.

Record fenv := mk_fenv {
  fe_in_frozen : bool;        (* inode->is_frozen() *)
  fe_in_frozen_dir : bool;    (* inode->is_frozen_dir() *)
  fe_anc : list anc           (* from the parent fragment to the base *)
}.

Inductive fz_effect (C : Type) :=
| PinHook (e : dn_effect)
| InodeNested (n : Z)               (* inode->adjust_nested_auth_pins(n) *)
| InodeAuthPin
| InodeAuthUnpin
| UnpinWhenThawed                   (* inode->add_waiter(WAIT_UNFREEZE, C_Dir_AuthUnpin) *)
| FinishContexts (ls : list C) (result : Z)
| QueueWaiters (ls : list C).
Arguments PinHook {C}.
Arguments InodeNested {C}.
Arguments InodeAuthPin {C}.
Arguments InodeAuthUnpin {C}.
Arguments UnpinWhenThawed {C}.
Arguments FinishContexts {C}.
Arguments QueueWaiters {C}.

Section Freeze.
Context {C : Type}.
Abbreviation fz_effect := (fz_effect C).

Record fdir := mk_fdir {
  fd_dir : dirfrag C;
  auth_pins : Z;
  nested_auth_pins : Z;
  dir_auth_pins : Z;
  fd_subtree_root : bool          (* is_subtree_root() *)
}.

Definition fd_obj (d : fdir) : cobj C := df_obj (fd_dir d).
Definition set_fd_dir (x : dirfrag C) (d : fdir) : fdir :=
  mk_fdir x (auth_pins d) (nested_auth_pins d) (dir_auth_pins d) (fd_subtree_root d).
Definition set_fd_obj (o : cobj C) (d : fdir) : fdir := set_fd_dir (set_obj o (fd_dir d)) d.
Definition set_auth_pins (n : Z) (d : fdir) : fdir :=
  mk_fdir (fd_dir d) n (nested_auth_pins d) (dir_auth_pins d) (fd_subtree_root d).
Definition set_nested (n m : Z) (d : fdir) : fdir :=
  mk_fdir (fd_dir d) (auth_pins d) n m (fd_subtree_root d).

Definition get_cum_auth_pins (d : fdir) : Z := s32 (auth_pins d + nested_auth_pins d).

Definition fd_test (d : fdir) (mask : Z) : bool := state_test (fd_obj d) mask.
Definition is_freezing_tree_root (d : fdir) : bool := fd_test d STATE_FREEZINGTREE.
Definition is_frozen_tree_root (d : fdir) : bool := fd_test d STATE_FROZENTREE.
Definition is_freezing_dir (d : fdir) : bool := fd_test d STATE_FREEZINGDIR.
Definition is_frozen_dir (d : fdir) : bool := fd_test d STATE_FROZENDIR.

Definition own (d : fdir) : anc :=
  mk_anc (is_frozen_tree_root d) (is_freezing_tree_root d) (fd_subtree_root d).

(** the loop of [is_freezing_tree] and [is_frozen_tree] *)
Fixpoint walk_up (flag : anc -> bool) (l : list anc) : bool :=
  match l with
  | [] => false
  | a :: l => if flag a then true else if an_subtree_root a then false else walk_up flag l
  end.

Definition is_freezing_tree (e : fenv) (d : fdir) : bool := walk_up an_freezing_root (own d :: fe_anc e).
Definition is_frozen_tree (e : fenv) (d : fdir) : bool := walk_up an_frozen_root (own d :: fe_anc e).
Definition is_freezing (e : fenv) (d : fdir) : bool := is_freezing_tree e d || is_freezing_dir d.
Definition is_frozen (e : fenv) (d : fdir) : bool := is_frozen_dir d || is_frozen_tree e d.
Definition can_auth_pin (e : fenv) (d : fdir) : bool :=
  is_auth (fd_obj d) && negb (is_frozen e d || is_freezing e d).

Definition is_freezeable (freezing : bool) (e : fenv) (d : fdir) : bool :=
  if (0 <? auth_pins d - bool_Z freezing) || (0 <? nested_auth_pins d) then false
  else if negb (fd_subtree_root d) && fe_in_frozen e then false
  else true.

Definition is_freezeable_dir (freezing : bool) (e : fenv) (d : fdir) : bool :=
  if (0 <? auth_pins d - bool_Z freezing) || (0 <? dir_auth_pins d) then false
  else if negb (fd_subtree_root d) && fe_in_frozen e && negb (fe_in_frozen_dir e) then false
  else true.

Definition fd_get (pin : Z) (d : fdir) : res (fdir * list fz_effect) :=
  '(x, es) ← dir_get pin (fd_dir d); Ok (set_fd_dir x d, map PinHook es).
Definition fd_put (pin : Z) (d : fdir) : res (fdir * list fz_effect) :=
  '(x, es) ← dir_put pin (fd_dir d); Ok (set_fd_dir x d, map PinHook es).

Definition finish_waiting (mask result : Z) (d : fdir) : res (fdir * list fz_effect) :=
  '(x, es, ls) ← dir_take_waiting mask [] (fd_dir d);
  Ok (set_fd_dir x d,
      map PinHook es ++ [if result <? 0 then FinishContexts ls result else QueueWaiters ls]).

Definition auth_pin (d : fdir) : res (fdir * list fz_effect) :=
  '(d, es) ← (if auth_pins d =? 0 then fd_get PIN_AUTHPIN d else Ok (d, []));
  let d := set_auth_pins (s32 (auth_pins d + 1)) d in
  Ok (d, es ++ (if negb (fd_subtree_root d) && (get_cum_auth_pins d =? 1) then [InodeNested 1] else [])).

(** The calls on the inode for the duration of a freeze. *)
Definition pins_inode (d : fdir) : bool := is_auth (fd_obj d) && negb (fd_subtree_root d).

Definition _freeze_tree (e : fenv) (d : fdir) : res (fdir * list fz_effect) :=
  check (is_freezeable true e d) ;;
  let d := set_fd_obj (state_set STATE_FROZENTREE (state_clear STATE_FREEZINGTREE (fd_obj d))) d in
  '(d, es) ← fd_get PIN_FROZEN d;
  Ok (d, es ++ (if pins_inode d then [InodeAuthPin] else [])).

Definition _freeze_dir (d : fdir) : res (fdir * list fz_effect) :=
  let d := set_fd_obj (state_set STATE_FROZENDIR (state_clear STATE_FREEZINGDIR (fd_obj d))) d in
  '(d, es) ← fd_get PIN_FROZEN d;
  Ok (d, es ++ (if pins_inode d then [InodeAuthPin] else [])).

(** [maybe_finish_freeze], given the [auth_unpin] it calls *)
Definition maybe_finish_freeze (unpin : fdir -> res (fdir * list fz_effect)) (e : fenv) (d : fdir)
  : res (fdir * list fz_effect) :=
  if negb (auth_pins d =? 1) || negb (dir_auth_pins d =? 0) then Ok (d, [])
  else
    '(d, es) ← (if fd_test d STATE_FREEZINGDIR then
                  '(d, es1) ← _freeze_dir d;
                  '(d, es2) ← unpin d;
                  '(d, es3) ← finish_waiting WAIT_FROZEN 0 d;
                  Ok (d, es1 ++ es2 ++ es3)
                else Ok (d, []));
    if negb (nested_auth_pins d =? 0) then Ok (d, es)
    else if fd_test d STATE_FREEZINGTREE then
      if negb (fd_subtree_root d) && fe_in_frozen e then
        '(d, es1) ← auth_pin d;
        Ok (d, es ++ es1 ++ [UnpinWhenThawed])
      else
        '(d, es1) ← _freeze_tree e d;
        '(d, es2) ← unpin d;
        '(d, es3) ← finish_waiting WAIT_FROZEN 0 d;
        Ok (d, es ++ es1 ++ es2 ++ es3)
    else Ok (d, es).

(** [auth_unpin] with its recursion through [maybe_finish_freeze] cut at [depth]; two levels
    are always enough ([auth_unpin_depth]). *)
Fixpoint auth_unpin_n (depth : nat) (e : fenv) (d : fdir) : res (fdir * list fz_effect) :=
  match depth with
  | O => Abort
  | S depth =>
      let d := set_auth_pins (s32 (auth_pins d - 1)) d in
      '(d, es) ← (if auth_pins d =? 0 then fd_put PIN_AUTHPIN d else Ok (d, []));
      check (0 <=? auth_pins d) ;;
      let newcum := get_cum_auth_pins d in
      '(d, es1) ← maybe_finish_freeze (auth_unpin_n depth e) e d;
      Ok (d, es ++ es1 ++ (if negb (fd_subtree_root d) && (newcum =? 0) then [InodeNested (-1)] else []))
  end.

Definition auth_unpin (e : fenv) (d : fdir) : res (fdir * list fz_effect) := auth_unpin_n 2 e d.

Definition adjust_nested_auth_pins (inc dirinc : Z) (e : fenv) (d : fdir) : res (fdir * list fz_effect) :=
  check (negb (inc =? 0)) ;;
  let d := set_nested (s32 (nested_auth_pins d + inc)) (s32 (dir_auth_pins d + dirinc)) d in
  check (0 <=? nested_auth_pins d) ;;
  check (0 <=? dir_auth_pins d) ;;
  let newcum := get_cum_auth_pins d in
  '(d, es) ← maybe_finish_freeze (auth_unpin e) e d;
  Ok (d, es ++ (if fd_subtree_root d then []
                else if newcum =? 0 then [InodeNested (-1)]
                else if newcum =? inc then [InodeNested 1] else [])).

Definition freeze_tree (e : fenv) (d : fdir) : res (bool * fdir * list fz_effect) :=
  check (negb (is_frozen e d)) ;;
  check (negb (is_freezing e d)) ;;
  '(d, es) ← auth_pin d;
  if is_freezeable true e d then
    '(d, es1) ← _freeze_tree e d;
    '(d, es2) ← auth_unpin e d;
    Ok (true, d, es ++ es1 ++ es2)
  else Ok (false, set_fd_obj (state_set STATE_FREEZINGTREE (fd_obj d)) d, es).

Definition freeze_dir (e : fenv) (d : fdir) : res (bool * fdir * list fz_effect) :=
  check (negb (is_frozen e d)) ;;
  check (negb (is_freezing e d)) ;;
  '(d, es) ← auth_pin d;
  if is_freezeable_dir true e d then
    '(d, es1) ← _freeze_dir d;
    '(d, es2) ← auth_unpin e d;
    Ok (true, d, es ++ es1 ++ es2)
  else Ok (false, set_fd_obj (state_set STATE_FREEZINGDIR (fd_obj d)) d, es).

(** [unfreeze_tree] and [unfreeze_dir] differ in the two state bits only. *)
Definition unfreeze (frozen freezing : Z) (e : fenv) (d : fdir) : res (fdir * list fz_effect) :=
  if fd_test d frozen then
    let d := set_fd_obj (state_clear frozen (fd_obj d)) d in
    '(d, es) ← fd_put PIN_FROZEN d;
    let es' := if pins_inode d then [InodeAuthUnpin] else [] in
    '(d, es'') ← finish_waiting WAIT_UNFREEZE 0 d;
    Ok (d, es ++ es' ++ es'')
  else
    '(d, es) ← finish_waiting WAIT_FROZEN (-1) d;
    check (fd_test d freezing) ;;
    let d := set_fd_obj (state_clear freezing (fd_obj d)) d in
    '(d, es') ← auth_unpin e d;
    '(d, es'') ← finish_waiting WAIT_UNFREEZE 0 d;
    Ok (d, es ++ es' ++ es'').

Definition unfreeze_tree (e : fenv) (d : fdir) : res (fdir * list fz_effect) :=
  unfreeze STATE_FROZENTREE STATE_FREEZINGTREE e d.
Definition unfreeze_dir (e : fenv) (d : fdir) : res (fdir * list fz_effect) :=
  unfreeze STATE_FROZENDIR STATE_FREEZINGDIR e d.

End Freeze.
Arguments fdir C : clear implicits.

(** ** State bits *)

Lemma has_bits_testbit w k : 0 <= k -> has_bits w (Z.shiftl 1 k) = Z.testbit w k.
Proof.
  intros Hk. unfold has_bits. rewrite Z.shiftl_1_l.
  destruct (Z.testbit w k) eqn:E.
  - apply negb_true_iff, Z.eqb_neq. intros Hz.
    assert (Z.testbit (Z.land w (2 ^ k)) k = true) as Hb
      by (rewrite Z.land_spec, E, Z.pow2_bits_true by done; done).
    by rewrite Hz, Z.bits_0 in Hb.
  - apply negb_false_iff, Z.eqb_eq, Z.bits_inj'. intros n Hn. rewrite Z.land_spec, Z.bits_0.
    destruct (Z.eq_dec k n) as [<-|N]; [by rewrite E|]. by rewrite Z.pow2_bits_false, andb_false_r.
Qed.

Lemma state_test_set {C} (o : cobj C) j k : 0 <= j -> 0 <= k ->
  state_test (state_set (Z.shiftl 1 j) o) (Z.shiftl 1 k) = (j =? k) || state_test o (Z.shiftl 1 k).
Proof.
  intros Hj Hk. unfold state_test, state_set. cbn [co_state set_co_state].
  rewrite !has_bits_testbit, Z.lor_spec, Z.shiftl_1_l, Z.pow2_bits_eqb by done. by rewrite orb_comm.
Qed.

Lemma state_test_clear {C} (o : cobj C) j k : 0 <= j -> 0 <= k ->
  state_test (state_clear (Z.shiftl 1 j) o) (Z.shiftl 1 k) = negb (j =? k) && state_test o (Z.shiftl 1 k).
Proof.
  intros Hj Hk. unfold state_test, state_clear. cbn [co_state set_co_state].
  rewrite !has_bits_testbit, Z.ldiff_spec, Z.shiftl_1_l, Z.pow2_bits_eqb by done. by rewrite andb_comm.
Qed.

(** ** The view of a fragment that the invariant is about *)

Record fview := mk_view {
  v_pins : Z; v_nested : Z; v_dirpins : Z;
  v_T : bool; v_FT : bool; v_D : bool; v_FD : bool;
  v_authpin : Z; v_frozenpin : Z;
  v_root : bool; v_auth : bool
}.

Section View.
Context {C : Type}.
Implicit Types d : fdir C.
Implicit Types o : cobj C.

Definition view d : fview :=
  mk_view (auth_pins d) (nested_auth_pins d) (dir_auth_pins d)
    (is_freezing_tree_root d) (is_frozen_tree_root d) (is_freezing_dir d) (is_frozen_dir d)
    (pins (fd_obj d) PIN_AUTHPIN) (pins (fd_obj d) PIN_FROZEN) (fd_subtree_root d) (is_auth (fd_obj d)).

(** Nested pins and auth pins the inode is told of. *)
Fixpoint nest_sum (es : list (fz_effect C)) : Z :=
  match es with
  | [] => 0
  | InodeNested n :: es => n + nest_sum es
  | _ :: es => nest_sum es
  end.
Fixpoint hold_sum (es : list (fz_effect C)) : Z :=
  match es with
  | [] => 0
  | InodeAuthPin :: es => 1 + hold_sum es
  | InodeAuthUnpin :: es => hold_sum es - 1
  | _ :: es => hold_sum es
  end.
(** Pins kept until the inode thaws. *)
Fixpoint thaw_sum (es : list (fz_effect C)) : Z :=
  match es with
  | [] => 0
  | UnpinWhenThawed :: es => 1 + thaw_sum es
  | _ :: es => thaw_sum es
  end.

Definition sums (es : list (fz_effect C)) : Z * Z * Z := (nest_sum es, hold_sum es, thaw_sum es).
Definition plus3 (a b : Z * Z * Z) : Z * Z * Z :=
  (fst (fst a) + fst (fst b), snd (fst a) + snd (fst b), snd a + snd b).

Lemma sums_app es es' : sums (es ++ es') = plus3 (sums es) (sums es').
Proof.
  unfold sums, plus3; simpl. induction es as [|e es IH]; [done|]. injection IH as H1 H2 H3.
  destruct e; simpl; rewrite ?H1, ?H2, ?H3; repeat apply (f_equal2 pair); lia.
Qed.

Lemma sums_hooks hs : sums (map PinHook hs) = (0, 0, 0).
Proof. induction hs; done. Qed.

(** [d'] results from [d] by an operation that keeps the object in order, shows [v] and gives
    the sums [s]; [k] bounds the references it adds. *)
Record result d (r : res (fdir C * list (fz_effect C))) (k : Z) (v : fview) (s : Z * Z * Z)
    (d' : fdir C) (es : list (fz_effect C)) : Prop := {
  rs_ok : r = Ok (d', es);
  rs_obj : obj_ok (fd_obj d');
  rs_ref : co_ref (fd_obj d') <= co_ref (fd_obj d) + k;
  rs_view : view d' = v;
  rs_sums : sums es = s
}.

Lemma fd_obj_set d o : fd_obj (set_fd_obj o d) = o.
Proof. done. Qed.

Lemma fd_get_ok pin d :
  obj_ok (fd_obj d) -> pin <> PIN_REPLICATED -> pin <> PIN_WAITER -> co_ref (fd_obj d) < 2 ^ 31 - 1 ->
  exists hs, fd_get pin d = Ok (set_fd_obj (repin 1 pin (fd_obj d)) d, map PinHook hs) /\
    obj_ok (repin 1 pin (fd_obj d)).
Proof.
  intros O H1 H2 B. unfold fd_get, dir_get. rewrite get_ok by (apply O || done). cbn [mbind res_bind].
  eexists. split; [done|]. pose proof (pins_le_sum (fd_obj d) pin (oo_refs _ O)).
  apply obj_ok_repin; [done|done|done|lia|lia].
Qed.

Lemma fd_put_ok pin d :
  obj_ok (fd_obj d) -> pin <> PIN_REPLICATED -> pin <> PIN_WAITER -> 0 < pins (fd_obj d) pin ->
  exists hs, fd_put pin d = Ok (set_fd_obj (repin (-1) pin (fd_obj d)) d, map PinHook hs) /\
    obj_ok (repin (-1) pin (fd_obj d)).
Proof.
  intros O H1 H2 B. unfold fd_put, dir_put. rewrite put_ok by (apply O || done). cbn [mbind res_bind].
  eexists. split; [done|]. pose proof (pins_le_sum (fd_obj d) pin (oo_refs _ O)).
  pose proof (ro_sum _ (oo_refs _ O)). pose proof (ro_small _ (oo_refs _ O)).
  apply obj_ok_repin; [done|done|done|lia|lia].
Qed.

(** The waiters on the object itself do not show. *)
Lemma take_waiting_frame o mask ls o' hs ls' :
  obj_ok o -> take_waiting o mask ls = Ok (o', hs, ls') ->
  co_state o' = co_state o /\ co_ref o' <= co_ref o /\ forall p, p <> PIN_WAITER -> pins o' p = pins o p.
Proof.
  intros O. unfold take_waiting. destruct (co_waiting o) as [|x w] eqn:E.
  { intros [= <- <- <-]. by split_and!. }
  destruct (take_loop mask (x :: w) ls) as [ls1 rest]. destruct rest as [|y rest].
  - pose proof (oo_waiter _ O) as Hw. rewrite E in Hw. intros Eq. apply bind_ok in Eq as ([o1 hs1] & E1 & Eq).
    rewrite put_ok in E1; [|destruct O as [[]]; split; done|change (0 < pins o PIN_WAITER); lia].
    injection E1 as <- <-. injection Eq as <- <- <-. simpl. split_and!; [done|lia|].
    intros p Hp. change (pins (repin (-1) PIN_WAITER o) p = pins o p). by rewrite pins_repin, decide_False.
  - simpl. intros [= <- <- <-]. by split_and!.
Qed.

Lemma view_ext d d' :
  auth_pins d' = auth_pins d -> nested_auth_pins d' = nested_auth_pins d ->
  dir_auth_pins d' = dir_auth_pins d -> fd_subtree_root d' = fd_subtree_root d ->
  co_state (fd_obj d') = co_state (fd_obj d) ->
  (forall p, p <> PIN_WAITER -> pins (fd_obj d') p = pins (fd_obj d) p) -> view d' = view d.
Proof.
  intros E1 E2 E3 E4 E5 E6. unfold view, is_freezing_tree_root, is_frozen_tree_root, is_freezing_dir,
    is_frozen_dir, fd_test, is_auth, state_test. by rewrite E1, E2, E3, E4, E5, !E6.
Qed.

Lemma finish_waiting_ok mask r d :
  obj_ok (fd_obj d) -> has_bits mask WAIT_DENTRY = false ->
  exists d' es, result d (finish_waiting mask r d) 0 (view d) (0, 0, 0) d' es.
Proof.
  intros O Hm. unfold finish_waiting, dir_take_waiting. rewrite Hm. cbn [mbind res_bind].
  destruct (take_waiting_ok (df_obj (fd_dir d)) mask [] O) as (o' & hs & E & O' & _).
  destruct (take_waiting_frame _ _ _ _ _ _ O E) as (Hs & Hr & Hp).
  rewrite E. cbn [mbind res_bind]. eexists _, _. split; [done|done| | |].
  - unfold fd_obj in *. simpl. lia.
  - by apply view_ext.
  - rewrite sums_app, sums_hooks. by destruct (r <? 0).
Qed.

(** ** Steps *)

Definition b2z (b : bool) : Z := if b then 1 else 0.

(** The sums of one optional call. *)
Lemma sums_opt (b : bool) (x : fz_effect C) :
  sums (if b then [x] else []) =
    match x with
    | InodeNested n => (if b then n else 0, 0, 0)
    | InodeAuthPin => (0, b2z b, 0)
    | InodeAuthUnpin => (0, - b2z b, 0)
    | UnpinWhenThawed => (0, 0, b2z b)
    | _ => (0, 0, 0)
    end.
Proof. destruct b, x; unfold sums; simpl; repeat apply (f_equal2 pair); try done; lia. Qed.

Lemma view_repin n pin d :
  pin <> PIN_WAITER ->
  view (set_fd_obj (repin n pin (fd_obj d)) d) =
    mk_view (v_pins (view d)) (v_nested (view d)) (v_dirpins (view d))
      (v_T (view d)) (v_FT (view d)) (v_D (view d)) (v_FD (view d))
      (v_authpin (view d) + if decide (pin = PIN_AUTHPIN) then n else 0)
      (v_frozenpin (view d) + if decide (pin = PIN_FROZEN) then n else 0)
      (v_root (view d)) (v_auth (view d)).
Proof.
  intros Hp. unfold view. cbn [v_pins v_nested v_dirpins v_T v_FT v_D v_FD v_authpin v_frozenpin v_root v_auth].
  rewrite !fd_obj_set, !pins_repin. f_equal.
  - destruct (decide (PIN_AUTHPIN = pin)) as [<-|]; [by rewrite decide_True|]. rewrite decide_False by done. lia.
  - destruct (decide (PIN_FROZEN = pin)) as [<-|]; [by rewrite decide_True|]. rewrite decide_False by done. lia.
Qed.

Lemma view_set_pins n d :
  view (set_auth_pins n d) =
    mk_view n (v_nested (view d)) (v_dirpins (view d))
      (v_T (view d)) (v_FT (view d)) (v_D (view d)) (v_FD (view d))
      (v_authpin (view d)) (v_frozenpin (view d)) (v_root (view d)) (v_auth (view d)).
Proof. done. Qed.

Lemma auth_pin_ok d v :
  obj_ok (fd_obj d) -> co_ref (fd_obj d) < 2 ^ 31 - 1 -> view d = v ->
  0 <= v_pins v -> 0 <= v_nested v -> v_pins v + v_nested v < 2 ^ 31 - 1 ->
  exists d' es, result d (auth_pin d) 1
    (mk_view (v_pins v + 1) (v_nested v) (v_dirpins v) (v_T v) (v_FT v) (v_D v) (v_FD v)
       (v_authpin v + b2z (v_pins v =? 0)) (v_frozenpin v) (v_root v) (v_auth v))
    (if negb (v_root v) && (v_pins v + v_nested v =? 0) then 1 else 0, 0, 0) d' es.
Proof.
  intros O B <- Hp Hn Hc. simpl in Hp, Hn, Hc. unfold auth_pin.
  assert (exists d1 es, (if auth_pins d =? 0 then fd_get PIN_AUTHPIN d else Ok (d, [])) = Ok (d1, es) /\
    d1 = (if auth_pins d =? 0 then set_fd_obj (repin 1 PIN_AUTHPIN (fd_obj d)) d else d) /\
    obj_ok (fd_obj d1) /\ co_ref (fd_obj d1) <= co_ref (fd_obj d) + 1 /\ sums es = (0, 0, 0))
    as (d1 & es & -> & Ed1 & O1 & B1 & Hs).
  { destruct (auth_pins d =? 0).
    - destruct (fd_get_ok PIN_AUTHPIN d) as (hs & -> & O'); [done..|]. eexists _, _. split; [done|].
      split; [done|]. split; [done|]. split; [simpl; lia|]. apply sums_hooks.
    - eexists _, _. split; [done|]. split_and!; [done|done|lia|done]. }
  cbn [mbind res_bind].
  assert (auth_pins d1 = auth_pins d) as E1 by (rewrite Ed1; by destruct (_ =? _)).
  assert (nested_auth_pins d1 = nested_auth_pins d) as E2 by (rewrite Ed1; by destruct (_ =? _)).
  assert (fd_subtree_root d1 = fd_subtree_root d) as E3 by (rewrite Ed1; by destruct (_ =? _)).
  rewrite E1. rewrite s32_id by (unfold in_s32; lia). eexists _, _. split; [done| | | |].
  - done.
  - done.
  - rewrite Ed1. change (v_pins (view d)) with (auth_pins d). destruct (auth_pins d =? 0) eqn:E0.
    + rewrite view_set_pins, view_repin by done. cbn [v_pins v_nested v_dirpins v_T v_FT v_D v_FD v_authpin v_frozenpin v_root v_auth b2z].
      rewrite decide_True, decide_False, Z.add_0_r by done. done.
    + rewrite view_set_pins. cbn [b2z]. by rewrite Z.add_0_r.
  - rewrite sums_app, Hs, sums_opt. unfold get_cum_auth_pins. cbn. rewrite E2, E3.
    rewrite s32_id by (unfold in_s32; lia). unfold plus3; cbn.
    replace (auth_pins d + 1 + nested_auth_pins d =? 1) with (auth_pins d + nested_auth_pins d =? 0) by lia.
    done.
Qed.

(** The bits of the four states. *)
Ltac view_bits :=
  unfold view, is_freezing_tree_root, is_frozen_tree_root, is_freezing_dir, is_frozen_dir, fd_test, is_auth;
  rewrite !fd_obj_set;
  unfold STATE_FREEZINGTREE, STATE_FROZENTREE, STATE_FREEZINGDIR, STATE_FROZENDIR, STATE_AUTH;
  rewrite ?state_test_set, ?state_test_clear by lia; reflexivity.

Definition put_bits (t ft dr fdr : bool) (fz : Z) (v : fview) : fview :=
  mk_view (v_pins v) (v_nested v) (v_dirpins v) t ft dr fdr (v_authpin v) fz (v_root v) (v_auth v).

Definition put_pins (n a : Z) (v : fview) : fview :=
  mk_view n (v_nested v) (v_dirpins v) (v_T v) (v_FT v) (v_D v) (v_FD v) a (v_frozenpin v) (v_root v) (v_auth v).

Lemma view_set_tree d :
  view (set_fd_obj (state_set STATE_FREEZINGTREE (fd_obj d)) d) =
    put_bits true (v_FT (view d)) (v_D (view d)) (v_FD (view d)) (v_frozenpin (view d)) (view d).
Proof. view_bits. Qed.

Lemma view_set_dir d :
  view (set_fd_obj (state_set STATE_FREEZINGDIR (fd_obj d)) d) =
    put_bits (v_T (view d)) (v_FT (view d)) true (v_FD (view d)) (v_frozenpin (view d)) (view d).
Proof. view_bits. Qed.

Lemma view_freeze_tree d :
  view (set_fd_obj (state_set STATE_FROZENTREE (state_clear STATE_FREEZINGTREE (fd_obj d))) d) =
    put_bits false true (v_D (view d)) (v_FD (view d)) (v_frozenpin (view d)) (view d).
Proof. view_bits. Qed.

Lemma view_freeze_dir d :
  view (set_fd_obj (state_set STATE_FROZENDIR (state_clear STATE_FREEZINGDIR (fd_obj d))) d) =
    put_bits (v_T (view d)) (v_FT (view d)) false true (v_frozenpin (view d)) (view d).
Proof. view_bits. Qed.

Lemma view_clear_T d :
  view (set_fd_obj (state_clear STATE_FREEZINGTREE (fd_obj d)) d) =
    put_bits false (v_FT (view d)) (v_D (view d)) (v_FD (view d)) (v_frozenpin (view d)) (view d).
Proof. view_bits. Qed.

Lemma view_clear_FT d :
  view (set_fd_obj (state_clear STATE_FROZENTREE (fd_obj d)) d) =
    put_bits (v_T (view d)) false (v_D (view d)) (v_FD (view d)) (v_frozenpin (view d)) (view d).
Proof. view_bits. Qed.

Lemma view_clear_D d :
  view (set_fd_obj (state_clear STATE_FREEZINGDIR (fd_obj d)) d) =
    put_bits (v_T (view d)) (v_FT (view d)) false (v_FD (view d)) (v_frozenpin (view d)) (view d).
Proof. view_bits. Qed.

Lemma view_clear_FD d :
  view (set_fd_obj (state_clear STATE_FROZENDIR (fd_obj d)) d) =
    put_bits (v_T (view d)) (v_FT (view d)) (v_D (view d)) false (v_frozenpin (view d)) (view d).
Proof. view_bits. Qed.

Lemma obj_ok_state o s : obj_ok o -> obj_ok (set_co_state s o).
Proof. intros [[] ? ?]. by split; [split|..]. Qed.

(** The pin of a freeze, and the pin on the inode. *)
Lemma pin_frozen_ok d :
  obj_ok (fd_obj d) -> co_ref (fd_obj d) < 2 ^ 31 - 1 ->
  exists d' es, result d ('(d, es) ← fd_get PIN_FROZEN d;
      Ok (d, es ++ (if pins_inode d then [InodeAuthPin] else []))) 1
    (put_bits (v_T (view d)) (v_FT (view d)) (v_D (view d)) (v_FD (view d)) (v_frozenpin (view d) + 1) (view d))
    (0, b2z (v_auth (view d) && negb (v_root (view d))), 0) d' es.
Proof.
  intros O B. destruct (fd_get_ok PIN_FROZEN d) as (hs & E & O'); [done..|].
  rewrite E. cbn [mbind res_bind]. eexists _, _. split; [done|done| | |].
  - simpl. lia.
  - rewrite view_repin by done. rewrite decide_False, decide_True, Z.add_0_r by done. done.
  - rewrite sums_app, sums_hooks, sums_opt. done.
Qed.

Lemma freeze_tree_ok e d :
  obj_ok (fd_obj d) -> co_ref (fd_obj d) < 2 ^ 31 - 1 -> is_freezeable true e d = true ->
  exists d' es, result d (_freeze_tree e d) 1
    (put_bits false true (v_D (view d)) (v_FD (view d)) (v_frozenpin (view d) + 1) (view d))
    (0, b2z (v_auth (view d) && negb (v_root (view d))), 0) d' es.
Proof.
  intros O B Hf. unfold _freeze_tree. rewrite check_true by done. cbv zeta.
  set (d1 := set_fd_obj _ d).
  destruct (pin_frozen_ok d1) as (d' & es & [E1 E2 E3 E4 E5]).
  - by apply obj_ok_state, obj_ok_state.
  - done.
  - exists d', es. split; [done|done|done| |].
    + rewrite E4. unfold d1. by rewrite view_freeze_tree.
    + rewrite E5. unfold d1. by rewrite view_freeze_tree.
Qed.

Lemma freeze_dir_ok d :
  obj_ok (fd_obj d) -> co_ref (fd_obj d) < 2 ^ 31 - 1 ->
  exists d' es, result d (_freeze_dir d) 1
    (put_bits (v_T (view d)) (v_FT (view d)) false true (v_frozenpin (view d) + 1) (view d))
    (0, b2z (v_auth (view d) && negb (v_root (view d))), 0) d' es.
Proof.
  intros O B. unfold _freeze_dir. cbv zeta. set (d1 := set_fd_obj _ d).
  destruct (pin_frozen_ok d1) as (d' & es & [E1 E2 E3 E4 E5]).
  - by apply obj_ok_state, obj_ok_state.
  - done.
  - exists d', es. split; [done|done|done| |].
    + rewrite E4. unfold d1. by rewrite view_freeze_dir.
    + rewrite E5. unfold d1. by rewrite view_freeze_dir.
Qed.

(** ** Releasing pins *)

Definition noop (v : fview) : bool :=
  negb (v_pins v =? 1) || negb (v_dirpins v =? 0) ||
  (negb (v_D v) && (negb (v_nested v =? 0) || negb (v_T v))).

Lemma maybe_noop unpin e d : noop (view d) = true -> maybe_finish_freeze unpin e d = Ok (d, []).
Proof.
  unfold noop, maybe_finish_freeze. cbn [view v_pins v_nested v_dirpins v_T v_D].
  unfold is_freezing_dir, is_freezing_tree_root.
  destruct (auth_pins d =? 1), (dir_auth_pins d =? 0); cbn [negb orb]; [|done..].
  destruct (fd_test d STATE_FREEZINGDIR); [done|]. cbn [negb andb mbind res_bind].
  destruct (nested_auth_pins d =? 0); cbn [negb orb]; [|done].
  by destruct (fd_test d STATE_FREEZINGTREE).
Qed.

(** The release itself, before [maybe_finish_freeze]. *)
Lemma unpin_start_ok d v :
  obj_ok (fd_obj d) -> view d = v -> 1 <= v_pins v < 2 ^ 31 -> (v_pins v = 1 -> 0 < v_authpin v) ->
  let d0 := set_auth_pins (s32 (auth_pins d - 1)) d in
  exists d1 es, result d (if auth_pins d0 =? 0 then fd_put PIN_AUTHPIN d0 else Ok (d0, [])) 0
    (put_pins (v_pins v - 1) (v_authpin v - b2z (v_pins v =? 1)) v) (0, 0, 0) d1 es.
Proof.
  intros O <- Hp Ha d0. cbn [view v_pins v_authpin] in Hp, Ha.
  assert (s32 (auth_pins d - 1) = auth_pins d - 1) as Es by (apply s32_id; unfold in_s32; lia).
  unfold d0. rewrite Es. cbn [set_auth_pins auth_pins].
  change (v_pins (view d)) with (auth_pins d).
  destruct (Z.eqb_spec (auth_pins d - 1) 0) as [E|E].
  - destruct (fd_put_ok PIN_AUTHPIN (set_auth_pins (auth_pins d - 1) d)) as (hs & -> & O'); [done|done|done|apply Ha; lia|].
    eexists _, _. split; [done|done| | |apply sums_hooks].
    + simpl. change (fd_obj (set_auth_pins (auth_pins d - 1) d)) with (fd_obj d). lia.
    + rewrite view_repin by done. rewrite decide_True, decide_False, Z.add_0_r by done.
      by replace (auth_pins d =? 1) with true by lia.
  - eexists _, _. split; [done|done| | |done];
      [change (fd_obj (set_auth_pins (auth_pins d - 1) d)) with (fd_obj d); lia|].
    replace (auth_pins d =? 1) with false by lia. rewrite view_set_pins. unfold put_pins. cbn [b2z]. by rewrite Z.sub_0_r.
Qed.

Lemma unpin_plain n e d v :
  obj_ok (fd_obj d) -> view d = v -> 1 <= v_pins v -> 0 <= v_nested v -> v_pins v + v_nested v < 2 ^ 31 ->
  (v_pins v = 1 -> 0 < v_authpin v) ->
  noop (put_pins (v_pins v - 1) (v_authpin v - b2z (v_pins v =? 1)) v) = true ->
  exists d' es, result d (auth_unpin_n (S n) e d) 0
    (put_pins (v_pins v - 1) (v_authpin v - b2z (v_pins v =? 1)) v)
    (if negb (v_root v) && (v_pins v - 1 + v_nested v =? 0) then -1 else 0, 0, 0) d' es.
Proof.
  intros O Hv Hp Hn Hc Ha Hno. destruct (unpin_start_ok d v O Hv) as (d1 & es & [E1 O1 R1 V1 S1]); [lia|done|].
  cbn [auth_unpin_n]. rewrite E1. cbn [mbind res_bind].
  assert (auth_pins d1 = v_pins v - 1) as Ep by (by pose proof (f_equal v_pins V1)).
  assert (nested_auth_pins d1 = v_nested v) as En by (by pose proof (f_equal v_nested V1)).
  assert (fd_subtree_root d1 = v_root v) as Er by (by pose proof (f_equal v_root V1)).
  rewrite check_true by lia. rewrite maybe_noop by (by rewrite V1). cbn [mbind res_bind].
  eexists _, _. split; [done|done|done|done|].
  rewrite !sums_app, S1, sums_opt. unfold get_cum_auth_pins. rewrite Ep, En, Er.
  rewrite s32_id by (unfold in_s32; lia). done.
Qed.

(** ** The invariant *)

(** [ext] pins are held by others than a freeze in progress. *)
Record finv (ext : Z) (v : fview) : Prop := {
  fi_ext : 0 <= ext;
  fi_pins : v_pins v = ext + b2z (v_T v) + b2z (v_D v);
  fi_nested : 0 <= v_nested v;
  fi_dirpins : 0 <= v_dirpins v;
  fi_one : b2z (v_T v) + b2z (v_FT v) + b2z (v_D v) + b2z (v_FD v) <= 1;
  fi_authpin : v_authpin v = b2z (negb (v_pins v =? 0));
  fi_frozenpin : v_frozenpin v = b2z (v_FT v) + b2z (v_FD v);
  (** a frozen tree has no pins in it, a frozen directory none on itself or its inodes *)
  fi_tree : v_FT v = true -> ext = 0 /\ v_nested v = 0;
  fi_dir : v_FD v = true -> ext = 0 /\ v_dirpins v = 0
}.

(** What the inode is to know: whether there are pins here, and the pins of a freeze. *)
Definition contrib (v : fview) : Z := b2z (negb (v_root v) && (0 <? v_pins v + v_nested v)).
Definition held (v : fview) : Z :=
  if v_auth v && negb (v_root v) then b2z (v_FT v) + b2z (v_FD v) else 0.

Record ledger (v v' : fview) (s : Z * Z * Z) : Prop := {
  le_root : v_root v' = v_root v;
  le_auth : v_auth v' = v_auth v;
  le_nest : fst (fst s) = contrib v' - contrib v;
  le_hold : snd (fst s) = held v' - held v
}.

Lemma ledger_trans v1 v2 v3 s s' : ledger v1 v2 s -> ledger v2 v3 s' -> ledger v1 v3 (plus3 s s').
Proof. intros [] []. split; simpl; [congruence|congruence|lia|lia]. Qed.

(** An operation that keeps all this; [dx] is how it changes [ext], beside the pins it keeps
    until the inode thaws. *)
Definition keeps (ext dx : Z) d (r : res (fdir C * list (fz_effect C))) : Prop :=
  exists d' es, r = Ok (d', es) /\ obj_ok (fd_obj d') /\ co_ref (fd_obj d') <= co_ref (fd_obj d) + 1 /\
    finv (ext + dx + thaw_sum es) (view d') /\ ledger (view d) (view d') (sums es) /\ 0 <= thaw_sum es.

Lemma waits_not_dentry : has_bits WAIT_FROZEN WAIT_DENTRY = false /\ has_bits WAIT_UNFREEZE WAIT_DENTRY = false.
Proof. done. Qed.

(** The end of a freeze: release the pin it held, wake the waiters. *)
Lemma freeze_end n e d v :
  obj_ok (fd_obj d) -> view d = v -> v_pins v = 1 -> 0 <= v_nested v < 2 ^ 31 - 1 -> v_authpin v = 1 ->
  exists d' es, result d ('(d, es2) ← auth_unpin_n (S n) e d;
      '(d, es3) ← finish_waiting WAIT_FROZEN 0 d; Ok (d, es2 ++ es3)) 0
    (put_pins 0 0 v) (if negb (v_root v) && (v_nested v =? 0) then -1 else 0, 0, 0) d' es.
Proof.
  intros O Hv Hp Hn Ha.
  destruct (unpin_plain n e d v O Hv) as (d1 & es1 & [E1 O1 R1 V1 S1]); [lia|lia|lia|lia|by rewrite Hp|].
  destruct (finish_waiting_ok WAIT_FROZEN 0 d1 O1) as (d2 & es2 & [E2 O2 R2 V2 S2]); [apply waits_not_dentry|].
  rewrite E1. cbn [mbind res_bind]. rewrite E2. cbn [mbind res_bind]. eexists _, _.
  split; [done|done|lia| |].
  - rewrite V2, V1, Hp, Ha. done.
  - rewrite sums_app, S1, S2, Hp. unfold plus3. simpl. by rewrite Z.add_0_r.
Qed.

(** [_freeze_dir] or [_freeze_tree] when only the pin of the freeze is left. *)
Lemma freeze_dir_whole n e d :
  obj_ok (fd_obj d) -> co_ref (fd_obj d) < 2 ^ 31 - 1 -> auth_pins d = 1 ->
  0 <= nested_auth_pins d < 2 ^ 31 - 1 -> pins (fd_obj d) PIN_AUTHPIN = 1 ->
  exists d' es, result d ('(d, es1) ← _freeze_dir d; '(d, es2) ← auth_unpin_n (S n) e d;
      '(d, es3) ← finish_waiting WAIT_FROZEN 0 d; Ok (d, es1 ++ es2 ++ es3)) 1
    (put_pins 0 0 (put_bits (v_T (view d)) (v_FT (view d)) false true (v_frozenpin (view d) + 1) (view d)))
    (if negb (v_root (view d)) && (v_nested (view d) =? 0) then -1 else 0,
     b2z (v_auth (view d) && negb (v_root (view d))), 0) d' es.
Proof.
  intros O B Hp Hn Ha. destruct (freeze_dir_ok d O B) as (d1 & es1 & [E1 O1 R1 V1 S1]).
  destruct (freeze_end n e d1 _ O1 V1) as (d2 & es2 & [E2 O2 R2 V2 S2]); [done..|].
  apply bind_ok in E2 as ([da ea] & Ea & E2). apply bind_ok in E2 as ([db eb] & Eb & E2).
  injection E2 as <- <-. rewrite E1. cbn [mbind res_bind]. rewrite Ea. cbn [mbind res_bind]. rewrite Eb. cbn [mbind res_bind].
  eexists _, _. split; [done|done|lia|done|]. rewrite sums_app, S1, S2. unfold plus3. simpl. by rewrite Z.add_0_r.
Qed.

Lemma freeze_tree_whole n e d :
  obj_ok (fd_obj d) -> co_ref (fd_obj d) < 2 ^ 31 - 1 -> auth_pins d = 1 ->
  nested_auth_pins d = 0 -> pins (fd_obj d) PIN_AUTHPIN = 1 ->
  negb (fd_subtree_root d) && fe_in_frozen e = false ->
  exists d' es, result d ('(d, es1) ← _freeze_tree e d; '(d, es2) ← auth_unpin_n (S n) e d;
      '(d, es3) ← finish_waiting WAIT_FROZEN 0 d; Ok (d, es1 ++ es2 ++ es3)) 1
    (put_pins 0 0 (put_bits false true (v_D (view d)) (v_FD (view d)) (v_frozenpin (view d) + 1) (view d)))
    (if negb (v_root (view d)) then -1 else 0, b2z (v_auth (view d) && negb (v_root (view d))), 0) d' es.
Proof.
  intros O B Hp Hn Ha Hf. destruct (freeze_tree_ok e d O B) as (d1 & es1 & [E1 O1 R1 V1 S1]).
  { unfold is_freezeable. rewrite Hp, Hn. simpl. by rewrite Hf. }
  destruct (freeze_end n e d1 _ O1 V1) as (d2 & es2 & [E2 O2 R2 V2 S2]); [done|simpl; lia|done|].
  apply bind_ok in E2 as ([da ea] & Ea & E2). apply bind_ok in E2 as ([db eb] & Eb & E2).
  injection E2 as <- <-. rewrite E1. cbn [mbind res_bind]. rewrite Ea. cbn [mbind res_bind]. rewrite Eb. cbn [mbind res_bind].
  eexists _, _. split; [done|done|lia|done|]. rewrite sums_app, S1, S2. unfold plus3. simpl.
  rewrite Hn, Z.eqb_refl, andb_true_r, Z.add_0_r. done.
Qed.

(** Facts about explicit views: split on the bits and the comparisons, then arithmetic. *)
Ltac split_cmp :=
  repeat match goal with
  | |- context [?a <? ?b] => destruct (Z.ltb_spec a b)
  | |- context [?a =? ?b] => destruct (Z.eqb_spec a b)
  | H : context [?a =? ?b] |- _ => destruct (Z.eqb_spec a b)
  end.
Ltac crush_view v :=
  unfold contrib, held, plus3, put_pins, put_bits, noop in *;
  destruct v;
  cbn [v_pins v_nested v_dirpins v_T v_FT v_D v_FD v_authpin v_frozenpin v_root v_auth fst snd] in *;
  subst;
  repeat match goal with b : bool |- _ => destruct b; try discriminate end;
  cbn [b2z negb andb orb] in *;
  try (discriminate || lia);
  try (split_cmp; cbn [b2z negb andb orb] in *; intuition lia).

Lemma finv_no_freezing ext v : finv ext v -> v_T v = true -> v_FT v = false /\ v_D v = false /\ v_FD v = false.
Proof. intros [_ _ _ _ Ho _ _ _ _] E. rewrite E in Ho. destruct (v_FT v), (v_D v), (v_FD v); simpl in Ho; try done; lia. Qed.

Lemma finv_no_freezing_dir ext v : finv ext v -> v_D v = true -> v_T v = false /\ v_FT v = false /\ v_FD v = false.
Proof. intros [_ _ _ _ Ho _ _ _ _] E. rewrite E in Ho. destruct (v_FT v), (v_T v), (v_FD v); simpl in Ho; try done; lia. Qed.

Lemma keeps_result ext dx d r k v s d' es :
  result d r k v s d' es -> k <= 1 -> finv (ext + dx + snd s) v -> ledger (view d) v s -> 0 <= snd s ->
  keeps ext dx d r.
Proof.
  intros [E O R V S] Hk Hf Hl Ht. exists d', es. rewrite V.
  assert (thaw_sum es = snd s) as -> by (by rewrite <- S). rewrite S. split_and!; [done|done|lia|done|done|done].
Qed.

Lemma maybe_dir_result n e ext d :
  obj_ok (fd_obj d) -> co_ref (fd_obj d) < 2 ^ 31 - 1 -> finv ext (view d) ->
  v_pins (view d) + v_nested (view d) < 2 ^ 31 - 1 ->
  v_pins (view d) = 1 -> v_dirpins (view d) = 0 -> v_D (view d) = true ->
  exists d' es, result d (maybe_finish_freeze (auth_unpin_n (S n) e) e d) 1
    (put_pins 0 0 (put_bits (v_T (view d)) (v_FT (view d)) false true (v_frozenpin (view d) + 1) (view d)))
    (if negb (v_root (view d)) && (v_nested (view d) =? 0) then -1 else 0,
     b2z (v_auth (view d) && negb (v_root (view d))), 0) d' es.
Proof.
  intros O B Hf Hr Hp Hd HD. destruct (finv_no_freezing_dir _ _ Hf HD) as (HT & HFT & HFD).
  pose proof Hf as [F1 F2 F3 F4 F5 F6 F7 F8 F9].
  destruct (freeze_dir_whole n e d O B) as (d1 & es & Rs); [done|cbn in *; lia|rewrite Hp in F6; done|].
  pose proof Rs as [E1 O1 R1 V1 S1]. exists d1, es.
  assert (maybe_finish_freeze (auth_unpin_n (S n) e) e d = Ok (d1, es)) as ->; [|by rewrite E1 in Rs].
  unfold maybe_finish_freeze. change (auth_pins d) with (v_pins (view d)).
  change (dir_auth_pins d) with (v_dirpins (view d)). rewrite Hp, Hd. cbn [Z.eqb Pos.eqb negb orb].
  change (fd_test d STATE_FREEZINGDIR) with (v_D (view d)). rewrite HD, E1. cbn [mbind res_bind].
  destruct (negb (nested_auth_pins d1 =? 0)); [done|].
  change (fd_test d1 STATE_FREEZINGTREE) with (v_T (view d1)). rewrite V1. cbn [put_pins put_bits v_T].
  by rewrite HT.
Qed.

Lemma maybe_dir_ok n e ext d :
  obj_ok (fd_obj d) -> co_ref (fd_obj d) < 2 ^ 31 - 1 -> finv ext (view d) ->
  v_pins (view d) + v_nested (view d) < 2 ^ 31 - 1 ->
  v_pins (view d) = 1 -> v_dirpins (view d) = 0 -> v_D (view d) = true ->
  keeps ext 0 d (maybe_finish_freeze (auth_unpin_n (S n) e) e d).
Proof.
  intros O B Hf Hr Hp Hd HD. destruct (finv_no_freezing_dir _ _ Hf HD) as (HT & HFT & HFD).
  destruct (maybe_dir_result n e ext d O B Hf Hr Hp Hd HD) as (d1 & es & Rs).
  destruct Hf as [F1 F2 F3 F4 F5 F6 F7 F8 F9].
  apply (keeps_result _ _ _ _ _ _ _ _ _ Rs); [lia| | |simpl; lia].
  - clear - F1 F2 F3 F4 F5 F6 F7 F8 F9 Hp Hd HD. split; crush_view (view d).
  - clear - F2 F3 Hp HT HFT HFD. split; crush_view (view d).
Qed.

(** The last step of a tree freeze. *)
Lemma maybe_tree_eq n e ext d :
  finv ext (view d) ->
  v_pins (view d) = 1 -> v_dirpins (view d) = 0 -> v_nested (view d) = 0 -> v_T (view d) = true ->
  maybe_finish_freeze (auth_unpin_n (S n) e) e d =
    if negb (fd_subtree_root d) && fe_in_frozen e then
      '(d, es1) ← auth_pin d; Ok (d, es1 ++ [UnpinWhenThawed])
    else '(d, es1) ← _freeze_tree e d; '(d, es2) ← auth_unpin_n (S n) e d;
      '(d, es3) ← finish_waiting WAIT_FROZEN 0 d; Ok (d, es1 ++ es2 ++ es3).
Proof.
  intros Hf Hp Hd Hn HT. destruct (finv_no_freezing _ _ Hf HT) as (HFT & HD & HFD).
  unfold maybe_finish_freeze. change (auth_pins d) with (v_pins (view d)).
  change (dir_auth_pins d) with (v_dirpins (view d)). rewrite Hp, Hd. cbn [Z.eqb Pos.eqb negb orb].
  change (fd_test d STATE_FREEZINGDIR) with (v_D (view d)). rewrite HD. cbn [mbind res_bind].
  change (nested_auth_pins d) with (v_nested (view d)). rewrite Hn. cbn [Z.eqb negb].
  change (fd_test d STATE_FREEZINGTREE) with (v_T (view d)). by rewrite HT.
Qed.

Lemma maybe_tree_ok n e ext d :
  obj_ok (fd_obj d) -> co_ref (fd_obj d) < 2 ^ 31 - 1 -> finv ext (view d) ->
  v_pins (view d) = 1 -> v_dirpins (view d) = 0 -> v_nested (view d) = 0 -> v_T (view d) = true ->
  keeps ext 0 d (maybe_finish_freeze (auth_unpin_n (S n) e) e d).
Proof.
  intros O B Hf Hp Hd Hn HT. destruct (finv_no_freezing _ _ Hf HT) as (HFT & HD & HFD).
  pose proof Hf as [F1 F2 F3 F4 F5 F6 F7 F8 F9].
  rewrite (maybe_tree_eq n e ext d Hf Hp Hd Hn HT).
  destruct (negb (fd_subtree_root d) && fe_in_frozen e) eqn:Ez.
  - destruct (auth_pin_ok d (view d) O B eq_refl) as (d1 & es & [E1 O1 R1 V1 S1]); [lia|lia|lia|].
    rewrite E1. cbn [mbind res_bind].
    eapply (keeps_result _ _ _ _ 1 _ (0, 0, 1)); [split; [done|done|exact R1|exact V1|]|lia|..].
    + rewrite sums_app, S1, Hp, Hn, andb_false_r. done.
    + clear - F1 F2 F3 F4 F5 F6 F7 F8 F9 Hp Hd Hn HT. split; crush_view (view d). 
    + clear - F2 F3 Hp Hn. split; crush_view (view d).
    + simpl. lia.
  - destruct (freeze_tree_whole n e d O B) as (d1 & es & Rs); [done|done|rewrite Hp in F6; done|done|].
    eapply (keeps_result _ _ _ _ _ _ _ _ _ Rs); [lia| | |simpl; lia].
    + clear - F1 F2 F3 F4 F5 F6 F7 F8 F9 Hp Hd Hn HT. split; crush_view (view d).
    + clear - F2 F3 Hp Hn HFT HD HFD. split; crush_view (view d).
Qed.

Lemma ledger_refl v : ledger v v (0, 0, 0).
Proof. split; simpl; lia || done. Qed.

Lemma maybe_ok n e ext d :
  obj_ok (fd_obj d) -> co_ref (fd_obj d) < 2 ^ 31 - 1 -> finv ext (view d) ->
  v_pins (view d) + v_nested (view d) < 2 ^ 31 - 1 ->
  keeps ext 0 d (maybe_finish_freeze (auth_unpin_n (S n) e) e d).
Proof.
  intros O B Hf Hr. destruct (noop (view d)) eqn:En.
  - rewrite maybe_noop by done. exists d, []. split_and!; [done|done|lia| |apply ledger_refl|simpl; lia].
    simpl. by rewrite !Z.add_0_r.
  - unfold noop in En. rewrite !orb_false_iff, !negb_false_iff in En. destruct En as [[Hp Hd] Hx].
    apply Z.eqb_eq in Hp, Hd. destruct (v_D (view d)) eqn:HD; [by apply maybe_dir_ok|].
    cbn [negb andb] in Hx. apply orb_false_iff in Hx as [Hn HT]. apply negb_false_iff in Hn, HT.
    apply Z.eqb_eq in Hn. by apply maybe_tree_ok.
Qed.

(** ** The operations keep the invariant *)

Lemma auth_pin_keeps ext d :
  obj_ok (fd_obj d) -> co_ref (fd_obj d) < 2 ^ 31 - 1 -> finv ext (view d) ->
  v_pins (view d) + v_nested (view d) < 2 ^ 31 - 1 ->
  v_FT (view d) = false -> v_FD (view d) = false ->
  keeps ext 1 d (auth_pin d).
Proof.
  intros O B Hf Hr HFT HFD. pose proof Hf as [F1 F2 F3 F4 F5 F6 F7 F8 F9].
  assert (0 <= v_pins (view d)) as Hp by (clear - F1 F2; crush_view (view d)).
  destruct (auth_pin_ok d (view d) O B eq_refl Hp F3 Hr) as (d1 & es & Rs).
  eapply (keeps_result _ _ _ _ _ _ _ _ _ Rs); [lia| | |simpl; lia].
  - clear - F1 F2 F3 F4 F5 F6 F7 F8 F9 HFT HFD Hp. split; crush_view (view d).
  - clear - F3 Hp. split; crush_view (view d).
Qed.

(** The release of a pin somebody holds. *)
Lemma release_ok ext d :
  obj_ok (fd_obj d) -> finv ext (view d) -> v_pins (view d) + v_nested (view d) < 2 ^ 31 - 1 -> 1 <= ext ->
  let d0 := set_auth_pins (s32 (auth_pins d - 1)) d in
  exists d1 es,
    result d (if auth_pins d0 =? 0 then fd_put PIN_AUTHPIN d0 else Ok (d0, [])) 0
      (put_pins (v_pins (view d) - 1) (v_authpin (view d) - b2z (v_pins (view d) =? 1)) (view d)) (0, 0, 0) d1 es /\
    finv (ext - 1) (view d1) /\ auth_pins d1 = v_pins (view d) - 1 /\ 1 <= v_pins (view d).
Proof.
  intros O Hf Hr Hx d0. pose proof Hf as [F1 F2 F3 F4 F5 F6 F7 F8 F9].
  assert (1 <= v_pins (view d)) as Hp by (clear - Hx F2; crush_view (view d)).
  destruct (unpin_start_ok d (view d) O eq_refl) as (d1 & es & Rs);
    [lia|rewrite F6; intros ->; done|].
  pose proof (rs_view _ _ _ _ _ _ _ Rs) as V1. exists d1, es. split_and!; [done| | |done].
  - rewrite V1. clear - F1 F2 F3 F4 F5 F6 F7 F8 F9 Hx Hp. split; crush_view (view d).
  - by pose proof (f_equal v_pins V1).
Qed.

Lemma auth_unpin_keeps ext e d :
  obj_ok (fd_obj d) -> co_ref (fd_obj d) < 2 ^ 31 - 1 -> finv ext (view d) ->
  v_pins (view d) + v_nested (view d) < 2 ^ 31 - 1 -> 1 <= ext ->
  keeps ext (-1) d (auth_unpin e d).
Proof.
  intros O B Hf Hr Hx. pose proof Hf as [F1 F2 F3 F4 F5 F6 F7 F8 F9].
  destruct (release_ok ext d O Hf Hr Hx) as (d1 & es & [E1 O1 R1 V1 S1] & Hf1 & Ep & Hp).
  destruct (maybe_ok 0 e (ext - 1) d1) as (d2 & es2 & E2 & O2 & R2 & Hf2 & L2 & T2); [done|lia|done| |].
  { rewrite V1. clear - Hr. crush_view (view d). }
  unfold auth_unpin, auth_unpin_n. fold (@auth_unpin_n C 1). cbv zeta in E1. rewrite E1. cbn [mbind res_bind].
  assert (nested_auth_pins d1 = v_nested (view d)) as En by (by pose proof (f_equal v_nested V1)).
  rewrite check_true by lia.
  change (maybe_finish_freeze _ e d1) with (maybe_finish_freeze (auth_unpin_n 1 e) e d1). rewrite E2. cbn [mbind res_bind].
  assert (fd_subtree_root d2 = v_root (view d)) as Er.
  { change (fd_subtree_root d2) with (v_root (view d2)). rewrite (le_root _ _ _ L2), V1. done. }
  assert (get_cum_auth_pins d1 = v_pins (view d) - 1 + v_nested (view d)) as Ec.
  { unfold get_cum_auth_pins. rewrite Ep, En. apply s32_id. unfold in_s32. lia. }
  rewrite Ec, Er. eexists _, _. split; [done|].
  set (last := if _ && _ then _ else _).
  assert (sums (es ++ es2 ++ last) = plus3 (sums es2) (sums last)) as Hs.
  { rewrite !sums_app, S1. unfold plus3. simpl. repeat apply (f_equal2 pair); lia. }
  assert (sums last = (contrib (view d1) - contrib (view d), 0, 0)) as Hl.
  { unfold last. rewrite sums_opt, V1. repeat apply (f_equal2 pair); [|done|done].
    clear - F3 Hp. crush_view (view d). }
  assert (thaw_sum (es ++ es2 ++ last) = thaw_sum es2) as Ht.
  { pose proof (f_equal snd Hs) as X. rewrite Hl in X. cbn in X. lia. }
  rewrite Ht. split_and!; [done|lia| | |done].
  - by replace (ext + -1 + thaw_sum es2) with (ext - 1 + 0 + thaw_sum es2) by lia.
  - rewrite Hs, Hl. destruct L2 as [L1 L2 L3 L4]. split; cbn [plus3 fst snd].
    + rewrite L1, V1. done.
    + rewrite L2, V1. done.
    + rewrite L3. lia.
    + rewrite L4. assert (held (view d1) = held (view d)) as -> by (by rewrite V1). lia.
Qed.

Lemma adjust_keeps ext inc dirinc e d :
  obj_ok (fd_obj d) -> co_ref (fd_obj d) < 2 ^ 31 - 1 -> finv ext (view d) ->
  v_pins (view d) + v_nested (view d) < 2 ^ 31 - 1 -> v_pins (view d) + v_nested (view d) + inc < 2 ^ 31 - 1 ->
  inc <> 0 -> 0 <= v_nested (view d) + inc -> 0 <= v_dirpins (view d) + dirinc < 2 ^ 31 ->
  v_FT (view d) = false -> (v_FD (view d) = true -> dirinc = 0) ->
  keeps ext 0 d (adjust_nested_auth_pins inc dirinc e d).
Proof.
  intros O B Hf Hr0 Hr Hi Hn Hd HFT HFD. pose proof Hf as [F1 F2 F3 F4 F5 F6 F7 F8 F9].
  assert (0 <= v_pins (view d)) as Hp by (clear - F1 F2; crush_view (view d)).
  unfold adjust_nested_auth_pins. rewrite check_true by (apply negb_true_iff; lia). cbv zeta.
  change (nested_auth_pins d) with (v_nested (view d)). change (dir_auth_pins d) with (v_dirpins (view d)).
  rewrite !s32_id by (unfold in_s32; lia).
  set (d1 := set_nested _ _ d). rewrite check_true by (apply Z.leb_le; exact Hn).
  rewrite check_true by (apply Z.leb_le; apply Hd).
  set (v1 := mk_view (v_pins (view d)) (v_nested (view d) + inc) (v_dirpins (view d) + dirinc)
    (v_T (view d)) (v_FT (view d)) (v_D (view d)) (v_FD (view d)) (v_authpin (view d))
    (v_frozenpin (view d)) (v_root (view d)) (v_auth (view d))).
  assert (view d1 = v1) as V1 by done.
  assert (finv ext (view d1)) as Hf1.
  { rewrite V1. unfold v1. clear - F1 F2 F3 F4 F5 F6 F7 F8 F9 Hn Hd HFT HFD. split; crush_view (view d). }
  destruct (maybe_ok 1 e ext d1) as (d2 & es2 & E2 & O2 & R2 & Hf2 & L2 & T2); [done|done|done| |].
  { rewrite V1. unfold v1. cbn [v_pins v_nested]. lia. }
  change (auth_unpin e) with (auth_unpin_n (C:=C) 2 e). rewrite E2. cbn [mbind res_bind].
  assert (fd_subtree_root d2 = v_root (view d)) as ->
    by (change (fd_subtree_root d2) with (v_root (view d2)); by rewrite (le_root _ _ _ L2), V1).
  assert (get_cum_auth_pins d1 = v_pins (view d) + (v_nested (view d) + inc)) as -> by
    (unfold get_cum_auth_pins; apply (s32_id (v_pins (view d) + (v_nested (view d) + inc))); unfold in_s32; lia).
  eexists _, _. split; [done|]. set (last := if v_root _ then _ else _).
  assert (sums last = (contrib (view d1) - contrib (view d), 0, 0)) as Hl.
  { unfold last. rewrite V1. unfold v1, contrib. cbn [v_root v_pins v_nested].
    destruct (v_root (view d)); [done|]. cbn [negb andb].
    destruct (Z.eqb_spec (v_pins (view d) + (v_nested (view d) + inc)) 0),
      (Z.eqb_spec (v_pins (view d) + (v_nested (view d) + inc)) inc),
      (Z.ltb_spec 0 (v_pins (view d) + (v_nested (view d) + inc))),
      (Z.ltb_spec 0 (v_pins (view d) + v_nested (view d))); try lia; done. }
  assert (thaw_sum (es2 ++ last) = thaw_sum es2) as Ht.
  { pose proof (f_equal snd (sums_app es2 last)) as X. rewrite Hl in X. cbn in X. lia. }
  rewrite Ht. split_and!; [done|done|done| |done].
  rewrite sums_app, Hl. destruct L2 as [L1 L2 L3 L4]. split; cbn [plus3 fst snd].
  - by rewrite L1, V1.
  - by rewrite L2, V1.
  - rewrite L3. lia.
  - rewrite L4. assert (held (view d1) = held (view d)) as -> by (by rewrite V1). lia.
Qed.

(** A freeze that starts: done at once, or in progress. *)
Definition starts (ext : Z) d (r : res (bool * fdir C * list (fz_effect C))) (now : bool) (v : fview) : Prop :=
  exists d' es, r = Ok (now, d', es) /\ obj_ok (fd_obj d') /\ view d' = v /\ finv ext v /\
    ledger (view d) v (sums es) /\ thaw_sum es = 0.

Lemma not_frozen_bits e d :
  is_frozen e d = false -> is_freezing e d = false ->
  v_FT (view d) = false /\ v_FD (view d) = false /\ v_T (view d) = false /\ v_D (view d) = false.
Proof.
  unfold is_frozen, is_freezing, is_frozen_tree, is_freezing_tree, own.
  cbn [walk_up an_frozen_root an_freezing_root an_subtree_root view v_FT v_FD v_T v_D].
  destruct (is_frozen_dir d), (is_frozen_tree_root d), (is_freezing_dir d), (is_freezing_tree_root d);
    cbn [orb]; rewrite ?orb_true_r; done.
Qed.

Lemma freeze_tree_keeps ext e d :
  obj_ok (fd_obj d) -> co_ref (fd_obj d) < 2 ^ 31 - 2 -> finv ext (view d) ->
  v_pins (view d) + v_nested (view d) < 2 ^ 31 - 1 -> is_frozen e d = false -> is_freezing e d = false ->
  let now := (v_pins (view d) =? 0) && (v_nested (view d) =? 0) &&
             negb (negb (v_root (view d)) && fe_in_frozen e) in
  starts ext d (freeze_tree e d) now
    (if now then put_bits false true false false 1 (view d)
     else put_pins (v_pins (view d) + 1) 1 (put_bits true false false false 0 (view d))).
Proof.
  intros O B Hf Hr Hfz Hfg now. pose proof Hf as [F1 F2 F3 F4 F5 F6 F7 F8 F9].
  destruct (not_frozen_bits e d Hfz Hfg) as (B1 & B2 & B3 & B4).
  assert (0 <= v_pins (view d)) as Hp by (clear - F1 F2; crush_view (view d)).
  destruct (auth_pin_ok d (view d) O ltac:(lia) eq_refl Hp F3 Hr) as (d1 & es1 & [E1 O1 R1 V1 S1]).
  assert (is_freezeable true e d1 = now) as Hnow.
  { unfold is_freezeable. change (auth_pins d1) with (v_pins (view d1)).
    change (nested_auth_pins d1) with (v_nested (view d1)). change (fd_subtree_root d1) with (v_root (view d1)).
    rewrite V1. unfold now. cbn [v_pins v_nested v_root bool_Z]. clear - Hp F3.
    destruct (Z.ltb_spec 0 (v_pins (view d) + 1 - 1)), (Z.ltb_spec 0 (v_nested (view d))),
      (Z.eqb_spec (v_pins (view d)) 0), (Z.eqb_spec (v_nested (view d)) 0); try lia; try done;
      by destruct (negb (v_root (view d)) && fe_in_frozen e). }
  unfold freeze_tree. rewrite Hfz, Hfg. cbn [negb]. rewrite !check_true by done. rewrite E1. cbn [mbind res_bind].
  rewrite Hnow. destruct now eqn:En.
  - unfold now in En. rewrite !andb_true_iff in En. destruct En as [[Ep En] Ez]. apply Z.eqb_eq in Ep, En.
    destruct (freeze_tree_ok e d1 O1 ltac:(lia) Hnow) as (d2 & es2 & [E2 O2 R2 V2 S2]).
    destruct (unpin_plain 1 e d2 _ O2 V2) as (d3 & es3 & [E3 O3 R3 V3 S3]);
      rewrite ?V1; cbn [put_bits v_pins v_nested v_authpin put_pins];
      [lia|lia|lia|rewrite F6, Ep; intros; cbn [b2z Z.eqb negb]; lia
      |unfold noop; cbn [v_pins v_nested v_dirpins v_D v_T]; by rewrite Ep|].
    rewrite E2. cbn [mbind res_bind]. unfold auth_unpin. rewrite E3. cbn [mbind res_bind].
    eexists _, _. split; [done|]. split; [done|].
    assert (view d3 = put_bits false true false false 1 (view d)) as V3'.
    { rewrite V3, V1. clear - Ep F6 F7 B1 B2 B3 B4. unfold put_bits, put_pins.
      cbn [v_pins v_nested v_dirpins v_T v_FT v_D v_FD v_authpin v_frozenpin v_root v_auth].
      rewrite F6, F7, B1, B2, B4, Ep. done. }
    split; [done|]. split_and!.
    + clear - F1 F2 F3 F4 F6 F7 Ep En B1 B2 B3 B4. split; crush_view (view d).
    + rewrite !sums_app, S1, S2, S3, V1. clear - F3 Ep En B1 B2 B3 B4. split; crush_view (view d).
    + change (snd (sums (es1 ++ es2 ++ es3)) = 0). by rewrite !sums_app, S1, S2, S3.
  - eexists _, _. split; [done|]. split; [by apply obj_ok_state|].
    assert (view (set_fd_obj (state_set STATE_FREEZINGTREE (fd_obj d1)) d1) =
      put_pins (v_pins (view d) + 1) 1 (put_bits true false false false 0 (view d))) as V2.
    { rewrite view_set_tree, V1. unfold put_bits, put_pins.
      cbn [v_pins v_nested v_dirpins v_T v_FT v_D v_FD v_authpin v_frozenpin v_root v_auth].
      rewrite F6, F7, B1, B2, B4. f_equal. by destruct (v_pins (view d) =? 0). }
    split; [done|]. split_and!.
    + clear - F1 F2 F3 F4 F6 F7 Hp B1 B2 B3 B4. split; crush_view (view d).
    + rewrite S1. clear - F3 Hp B1 B2 B3 B4. split; crush_view (view d).
    + change (snd (sums es1) = 0). by rewrite S1.
Qed.

Lemma freeze_dir_keeps ext e d :
  obj_ok (fd_obj d) -> co_ref (fd_obj d) < 2 ^ 31 - 2 -> finv ext (view d) ->
  v_pins (view d) + v_nested (view d) < 2 ^ 31 - 1 -> is_frozen e d = false -> is_freezing e d = false ->
  let now := (v_pins (view d) =? 0) && (v_dirpins (view d) =? 0) &&
             negb (negb (v_root (view d)) && fe_in_frozen e && negb (fe_in_frozen_dir e)) in
  starts ext d (freeze_dir e d) now
    (if now then put_bits false false false true 1 (view d)
     else put_pins (v_pins (view d) + 1) 1 (put_bits false false true false 0 (view d))).
Proof.
  intros O B Hf Hr Hfz Hfg now. pose proof Hf as [F1 F2 F3 F4 F5 F6 F7 F8 F9].
  destruct (not_frozen_bits e d Hfz Hfg) as (B1 & B2 & B3 & B4).
  assert (0 <= v_pins (view d)) as Hp by (clear - F1 F2; crush_view (view d)).
  destruct (auth_pin_ok d (view d) O ltac:(lia) eq_refl Hp F3 Hr) as (d1 & es1 & [E1 O1 R1 V1 S1]).
  assert (is_freezeable_dir true e d1 = now) as Hnow.
  { unfold is_freezeable_dir. change (auth_pins d1) with (v_pins (view d1)).
    change (dir_auth_pins d1) with (v_dirpins (view d1)). change (fd_subtree_root d1) with (v_root (view d1)).
    rewrite V1. unfold now. cbn [v_pins v_dirpins v_root bool_Z]. clear - Hp F4.
    destruct (Z.ltb_spec 0 (v_pins (view d) + 1 - 1)), (Z.ltb_spec 0 (v_dirpins (view d))),
      (Z.eqb_spec (v_pins (view d)) 0), (Z.eqb_spec (v_dirpins (view d)) 0); try lia; try done;
      by destruct (negb (v_root (view d)) && fe_in_frozen e && negb (fe_in_frozen_dir e)). }
  unfold freeze_dir. rewrite Hfz, Hfg. cbn [negb]. rewrite !check_true by done. rewrite E1. cbn [mbind res_bind].
  rewrite Hnow. destruct now eqn:En.
  - unfold now in En. rewrite !andb_true_iff in En. destruct En as [[Ep En] Ez]. apply Z.eqb_eq in Ep, En.
    destruct (freeze_dir_ok d1 O1 ltac:(lia)) as (d2 & es2 & [E2 O2 R2 V2 S2]).
    destruct (unpin_plain 1 e d2 _ O2 V2) as (d3 & es3 & [E3 O3 R3 V3 S3]);
      rewrite ?V1; cbn [put_bits v_pins v_nested v_authpin put_pins];
      [lia|lia|lia|rewrite F6, Ep; intros; cbn [b2z Z.eqb negb]; lia
      |unfold noop; cbn [v_pins v_nested v_dirpins v_D v_T]; by rewrite Ep|].
    rewrite E2. cbn [mbind res_bind]. unfold auth_unpin. rewrite E3. cbn [mbind res_bind].
    eexists _, _. split; [done|]. split; [done|].
    assert (view d3 = put_bits false false false true 1 (view d)) as V3'.
    { rewrite V3, V1. clear - Ep F6 F7 B1 B2 B3 B4. unfold put_bits, put_pins.
      cbn [v_pins v_nested v_dirpins v_T v_FT v_D v_FD v_authpin v_frozenpin v_root v_auth].
      rewrite F6, F7, B1, B2, B3, Ep. done. }
    split; [done|]. split_and!.
    + clear - F1 F2 F3 F4 F6 F7 Ep En B1 B2 B3 B4. split; crush_view (view d).
    + rewrite !sums_app, S1, S2, S3, V1. clear - F3 Ep En B1 B2 B3 B4. split; crush_view (view d).
    + change (snd (sums (es1 ++ es2 ++ es3)) = 0). by rewrite !sums_app, S1, S2, S3.
  - eexists _, _. split; [done|]. split; [by apply obj_ok_state|].
    assert (view (set_fd_obj (state_set STATE_FREEZINGDIR (fd_obj d1)) d1) =
      put_pins (v_pins (view d) + 1) 1 (put_bits false false true false 0 (view d))) as V2.
    { rewrite view_set_dir, V1. unfold put_bits, put_pins.
      cbn [v_pins v_nested v_dirpins v_T v_FT v_D v_FD v_authpin v_frozenpin v_root v_auth].
      rewrite F6, F7, B1, B2, B3. f_equal. by destruct (v_pins (view d) =? 0). }
    split; [done|]. split_and!.
    + clear - F1 F2 F3 F4 F6 F7 Hp B1 B2 B3 B4. split; crush_view (view d).
    + rewrite S1. clear - F3 Hp B1 B2 B3 B4. split; crush_view (view d).
    + change (snd (sums es1) = 0). by rewrite S1.
Qed.

(** Thawing a frozen fragment. *)
Lemma thaw_ok frozen freezing ext e d v1 :
  obj_ok (fd_obj d) -> finv ext (view d) -> fd_test d frozen = true ->
  view (set_fd_obj (state_clear frozen (fd_obj d)) d) = v1 -> v_frozenpin v1 = 1 ->
  v_frozenpin (view d) = 1 ->
  finv ext (put_bits (v_T v1) (v_FT v1) (v_D v1) (v_FD v1) 0 v1) ->
  ledger (view d) (put_bits (v_T v1) (v_FT v1) (v_D v1) (v_FD v1) 0 v1)
    (0, - b2z (v_auth v1 && negb (v_root v1)), 0) ->
  keeps ext 0 d (unfreeze frozen freezing e d).
Proof.
  intros O Hf Ht V1 Hz Hz0 Hf1 Hl. unfold unfreeze. rewrite Ht. cbv zeta.
  set (d1 := set_fd_obj (state_clear frozen (fd_obj d)) d) in *.
  destruct (fd_put_ok PIN_FROZEN d1) as (hs & E2 & O2); [exact (obj_ok_state _ _ O)|done|done| |].
  { change (pins (fd_obj d1) PIN_FROZEN) with (v_frozenpin (view d1)). rewrite V1. lia. }
  set (d2 := set_fd_obj (repin (-1) PIN_FROZEN (fd_obj d1)) d1) in *.
  assert (view d2 = put_bits (v_T v1) (v_FT v1) (v_D v1) (v_FD v1) 0 v1) as V2.
  { unfold d2. rewrite view_repin by done. rewrite V1, decide_False, decide_True, Z.add_0_r, Hz by done. done. }
  destruct (finish_waiting_ok WAIT_UNFREEZE 0 d2 O2) as (d3 & es3 & [E3 O3 R3 V3 S3]); [apply waits_not_dentry|].
  rewrite E2. cbn [mbind res_bind]. rewrite E3. cbn [mbind res_bind].
  eapply (keeps_result _ _ _ _ 0 (put_bits (v_T v1) (v_FT v1) (v_D v1) (v_FD v1) 0 v1)
    (0, - b2z (v_auth v1 && negb (v_root v1)), 0));
    [split; [done|done| |by rewrite V3|]|lia| |done|simpl; lia].
  - assert (co_ref (fd_obj d2) <= co_ref (fd_obj d)) by (unfold d2, d1; simpl; lia). lia.
  - rewrite !sums_app, sums_hooks, sums_opt, S3.
    assert (pins_inode d2 = v_auth v1 && negb (v_root v1)) as -> by (by rewrite <- V1).
    unfold plus3. cbn [fst snd]. repeat apply (f_equal2 pair); lia.
  - cbn [snd]. by rewrite !Z.add_0_r.
Qed.

(** Giving up a freeze in progress. *)
Lemma stop_freeze_ok frozen freezing ext e d v1 :
  obj_ok (fd_obj d) -> co_ref (fd_obj d) < 2 ^ 31 - 1 -> fd_test d frozen = false -> fd_test d freezing = true ->
  (forall d', view d' = view d -> fd_test d' freezing = true /\
     view (set_fd_obj (state_clear freezing (fd_obj d')) d') = v1) ->
  finv (ext + 1) v1 -> v_pins v1 + v_nested v1 < 2 ^ 31 - 1 -> 0 <= ext -> ledger (view d) v1 (0, 0, 0) ->
  keeps ext 0 d (unfreeze frozen freezing e d).
Proof.
  intros O B Hfz Hfg Hv Hf1 Hr Hx Hl. unfold unfreeze. rewrite Hfz.
  destruct (finish_waiting_ok WAIT_FROZEN (-1) d O) as (d1 & es1 & [E1 O1 R1 V1 S1]); [apply waits_not_dentry|].
  destruct (Hv d1 V1) as [Ht V2]. rewrite E1. cbn [mbind res_bind]. rewrite Ht. cbn [assert_ mbind res_bind].
  set (d2 := set_fd_obj (state_clear freezing (fd_obj d1)) d1) in *.
  destruct (auth_unpin_keeps (ext + 1) e d2) as (d3 & es3 & E3 & O3 & R3 & F3 & L3 & T3);
    [exact (obj_ok_state _ _ O1)| |by rewrite V2|by rewrite V2|lia|].
  { unfold d2. rewrite fd_obj_set. simpl. lia. }
  destruct (finish_waiting_ok WAIT_UNFREEZE 0 d3 O3) as (d4 & es4 & [E4 O4 R4 V4 S4]); [apply waits_not_dentry|].
  rewrite E3. cbn [mbind res_bind]. rewrite E4. cbn [mbind res_bind].
  assert (sums (es1 ++ es3 ++ es4) = sums es3) as Hs.
  { rewrite !sums_app, S1, S4. unfold plus3. simpl. repeat apply (f_equal2 pair); lia. }
  eexists _, _. split; [done|].
  assert (thaw_sum (es1 ++ es3 ++ es4) = thaw_sum es3) as -> by (by pose proof (f_equal snd Hs)).
  rewrite Hs, V4. split_and!; [done| | | |done].
  - assert (co_ref (fd_obj d2) = co_ref (fd_obj d1)) by done. lia.
  - by replace (ext + 0 + thaw_sum es3) with (ext + 1 + -1 + thaw_sum es3) by lia.
  - rewrite V2 in L3. pose proof (ledger_trans _ _ _ _ _ Hl L3) as L. by destruct (sums es3) as [[? ?] ?].
Qed.

Lemma unfreeze_tree_keeps ext e d :
  obj_ok (fd_obj d) -> co_ref (fd_obj d) < 2 ^ 31 - 1 -> finv ext (view d) ->
  v_pins (view d) + v_nested (view d) < 2 ^ 31 - 1 -> v_FT (view d) = true \/ v_T (view d) = true ->
  keeps ext 0 d (unfreeze_tree e d).
Proof.
  intros O B Hf Hr Hb. pose proof Hf as [F1 F2 F3 F4 F5 F6 F7 F8 F9]. destruct (v_FT (view d)) eqn:HFT.
  - apply (thaw_ok _ _ ext e d _ O Hf HFT (view_clear_FT d));
      [clear - F5 F7 HFT; crush_view (view d)|clear - F5 F7 HFT; crush_view (view d)| |].
    + clear - F1 F2 F3 F4 F5 F6 F7 F8 F9 HFT. split; crush_view (view d).
    + clear - F5 HFT. split; crush_view (view d).
  - destruct Hb as [?|HT]; [done|].
    apply (stop_freeze_ok _ _ ext e d (put_bits false (v_FT (view d)) (v_D (view d)) (v_FD (view d))
      (v_frozenpin (view d)) (view d)) O B HFT HT).
    + intros d' Hd'. split; [by rewrite <- HT, <- Hd'|]. by rewrite view_clear_T, Hd'.
    + clear - F1 F2 F3 F4 F5 F6 F7 F8 F9 HT HFT. split; crush_view (view d).
    + done.
    + done.
    + split; simpl; [done|done|unfold contrib; simpl; lia|unfold held; simpl; lia].
Qed.

Lemma unfreeze_dir_keeps ext e d :
  obj_ok (fd_obj d) -> co_ref (fd_obj d) < 2 ^ 31 - 1 -> finv ext (view d) ->
  v_pins (view d) + v_nested (view d) < 2 ^ 31 - 1 -> v_FD (view d) = true \/ v_D (view d) = true ->
  keeps ext 0 d (unfreeze_dir e d).
Proof.
  intros O B Hf Hr Hb. pose proof Hf as [F1 F2 F3 F4 F5 F6 F7 F8 F9]. destruct (v_FD (view d)) eqn:HFD.
  - apply (thaw_ok _ _ ext e d _ O Hf HFD (view_clear_FD d));
      [clear - F5 F7 HFD; crush_view (view d)|clear - F5 F7 HFD; crush_view (view d)| |].
    + clear - F1 F2 F3 F4 F5 F6 F7 F8 F9 HFD. split; crush_view (view d).
    + clear - F5 HFD. split; crush_view (view d).
  - destruct Hb as [?|HD]; [done|].
    apply (stop_freeze_ok _ _ ext e d (put_bits (v_T (view d)) (v_FT (view d)) false (v_FD (view d))
      (v_frozenpin (view d)) (view d)) O B HFD HD).
    + intros d' Hd'. split; [by rewrite <- HD, <- Hd'|]. by rewrite view_clear_D, Hd'.
    + clear - F1 F2 F3 F4 F5 F6 F7 F8 F9 HD HFD. split; crush_view (view d).
    + done.
    + done.
    + split; simpl; [done|done|unfold contrib; simpl; lia|unfold held; simpl; lia].
Qed.

(** ** The depth of the recursion *)

Lemma maybe_returns unpin e d : auth_pins d <> 1 -> maybe_finish_freeze unpin e d = Ok (d, []).
Proof. intros Hp. unfold maybe_finish_freeze. by rewrite (proj2 (Z.eqb_neq _ _) Hp). Qed.

Lemma pins_of_put pin d d' es : fd_put pin d = Ok (d', es) -> auth_pins d' = auth_pins d.
Proof. unfold fd_put. intros E. apply bind_ok in E as ([x es0] & _ & E). by injection E as <- _. Qed.
Lemma pins_of_get pin d d' es : fd_get pin d = Ok (d', es) -> auth_pins d' = auth_pins d.
Proof. unfold fd_get. intros E. apply bind_ok in E as ([x es0] & _ & E). by injection E as <- _. Qed.
Lemma pins_of_wait m r d d' es : finish_waiting m r d = Ok (d', es) -> auth_pins d' = auth_pins d.
Proof. unfold finish_waiting. intros E. apply bind_ok in E as ([[x es0] ls] & _ & E). by injection E as <- _. Qed.

(** One level of recursion is enough where the release does not leave a single pin. *)
Lemma unpin_one_level n e d :
  s32 (auth_pins d - 1) <> 1 -> auth_unpin_n (S n) e d = auth_unpin_n 1 e d.
Proof.
  intros Hp. cbn [auth_unpin_n]. cbv zeta. set (d0 := set_auth_pins _ d).
  destruct (if auth_pins d0 =? 0 then fd_put PIN_AUTHPIN d0 else Ok (d0, [])) as [[d1 es]|] eqn:E; [|done].
  assert (auth_pins d1 = s32 (auth_pins d - 1)) as Ep.
  { destruct (auth_pins d0 =? 0); [by apply pins_of_put in E|]. by injection E as <- _. }
  cbn [mbind res_bind]. rewrite !maybe_returns by congruence. done.
Qed.

Lemma unpin_to_zero n e d d' es : auth_pins d = 1 -> auth_unpin_n (S n) e d = Ok (d', es) -> auth_pins d' = 0.
Proof.
  intros Hp. rewrite unpin_one_level by (by rewrite Hp). cbn [auth_unpin_n]. cbv zeta. rewrite Hp.
  cbn [auth_pins set_auth_pins]. intros E. apply bind_ok in E as ([d1 es1] & E1 & E).
  apply pins_of_put in E1. apply bind_ok in E as (_ & _ & E).
  rewrite maybe_returns in E by (rewrite E1; done). by injection E as <- _.
Qed.

(** Two levels are enough everywhere. *)
Lemma auth_unpin_depth n e d : auth_unpin_n (S (S n)) e d = auth_unpin e d.
Proof.
  unfold auth_unpin. cbn [auth_unpin_n]. fold (@auth_unpin_n C). cbv zeta.
  set (d0 := set_auth_pins _ d).
  destruct (if auth_pins d0 =? 0 then fd_put PIN_AUTHPIN d0 else Ok (d0, [])) as [[d1 es]|]; [|done].
  cbn [mbind res_bind]. destruct (assert_ _); [|done]. cbn [mbind res_bind].
  assert (maybe_finish_freeze (auth_unpin_n (S n) e) e d1 = maybe_finish_freeze (auth_unpin_n 1 e) e d1) as Em.
  { unfold maybe_finish_freeze. destruct (Z.eqb_spec (auth_pins d1) 1) as [Ep|]; [|done].
    destruct (dir_auth_pins d1 =? 0); [|done]. cbn [negb orb].
    assert (forall d2 es2, _freeze_dir d1 = Ok (d2, es2) -> auth_pins d2 = 1) as Hd.
    { intros d2 es2. unfold _freeze_dir. intros E. apply bind_ok in E as ([x es0] & E & E').
      apply pins_of_get in E. injection E' as <- _. by rewrite E. }
    assert (forall d2 d3 es3, _freeze_tree e d2 = Ok (d3, es3) -> auth_pins d3 = auth_pins d2) as Ht.
    { intros d2 d3 es3. unfold _freeze_tree. intros E. apply bind_ok in E as (_ & _ & E).
      apply bind_ok in E as ([x es0] & E & E'). apply pins_of_get in E. injection E' as <- _. by rewrite E. }
    destruct (fd_test d1 STATE_FREEZINGDIR).
    - destruct (_freeze_dir d1) as [[d2 es2]|] eqn:E2; [|done]. cbn [mbind res_bind].
      pose proof (Hd _ _ eq_refl) as Hp2. rewrite unpin_one_level by (by rewrite Hp2).
      destruct (auth_unpin_n 1 e d2) as [[d3 es3]|] eqn:E3; [|done]. cbn [mbind res_bind].
      apply unpin_to_zero in E3; [|done].
      destruct (finish_waiting WAIT_FROZEN 0 d3) as [[d4 es4]|] eqn:E4; [|done]. cbn [mbind res_bind].
      apply pins_of_wait in E4. destruct (negb _); [done|]. destruct (fd_test d4 STATE_FREEZINGTREE); [|done].
      destruct (negb _ && _); [done|]. destruct (_freeze_tree e d4) as [[d5 es5]|] eqn:E5; [|done].
      cbn [mbind res_bind]. apply Ht in E5. by rewrite unpin_one_level by (by rewrite E5, E4, E3).
    - cbn [mbind res_bind]. destruct (negb _); [done|]. destruct (fd_test d1 STATE_FREEZINGTREE); [|done].
      destruct (negb _ && _); [done|]. destruct (_freeze_tree e d1) as [[d5 es5]|] eqn:E5; [|done].
      cbn [mbind res_bind]. apply Ht in E5. by rewrite unpin_one_level by (by rewrite E5, Ep). }
  pose proof Em as Em'. cbn [auth_unpin_n] in Em'. by rewrite Em'.
Qed.

(** ** The theorems *)

Inductive fop :=
| Pin
| Unpin
| Nest (inc dirinc : Z)
| FreezeTree
| FreezeDir
| UnfreezeTree
| UnfreezeDir.

Definition run_fop (e : fenv) (op : fop) d : res (fdir C * list (fz_effect C)) :=
  match op with
  | Pin => auth_pin d
  | Unpin => auth_unpin e d
  | Nest inc dirinc => adjust_nested_auth_pins inc dirinc e d
  | FreezeTree => '(_, d, es) ← freeze_tree e d; Ok (d, es)
  | FreezeDir => '(_, d, es) ← freeze_dir e d; Ok (d, es)
  | UnfreezeTree => unfreeze_tree e d
  | UnfreezeDir => unfreeze_dir e d
  end.

(** What the callers guarantee: pins are taken where [can_auth_pin] allows, released where they
    are held, and nothing is pinned beneath a frozen tree. *)
Definition fop_pre (e : fenv) (ext : Z) (op : fop) d : Prop :=
  match op with
  | Pin => can_auth_pin e d = true
  | Unpin => 1 <= ext
  | Nest inc dirinc =>
      inc <> 0 /\ 0 <= nested_auth_pins d + inc /\ auth_pins d + nested_auth_pins d + inc < 2 ^ 31 - 1 /\
      0 <= dir_auth_pins d + dirinc < 2 ^ 31 /\ is_frozen_tree_root d = false /\
      (is_frozen_dir d = true -> dirinc = 0)
  | FreezeTree | FreezeDir => is_frozen e d = false /\ is_freezing e d = false
  | UnfreezeTree => is_frozen_tree_root d = true \/ is_freezing_tree_root d = true
  | UnfreezeDir => is_frozen_dir d = true \/ is_freezing_dir d = true
  end.

Definition fop_ext (op : fop) : Z := match op with Pin => 1 | Unpin => -1 | _ => 0 end.

Record fz_ok (ext : Z) d : Prop := {
  fz_obj : obj_ok (fd_obj d);
  fz_inv : finv ext (view d)
}.

(** C3: under what its callers guarantee, each operation on auth pins and freezes passes its
    asserts and keeps the state machine in order: at most one freeze is under way or done, a
    freeze under way holds one pin, a frozen tree has no pin in it and a frozen directory none
    on itself or its inodes.  What the inode is told adds up: one nested pin exactly while
    there are pins here, and one auth pin for each freeze. *)
Theorem freeze_machine_safe e ext op d :
  fz_ok ext d -> co_ref (fd_obj d) < 2 ^ 31 - 2 -> auth_pins d + nested_auth_pins d < 2 ^ 31 - 1 ->
  fop_pre e ext op d ->
  exists d' es, run_fop e op d = Ok (d', es) /\ fz_ok (ext + fop_ext op + thaw_sum es) d' /\
    nest_sum es = contrib (view d') - contrib (view d) /\ hold_sum es = held (view d') - held (view d).
Proof.
  intros [O Hf] B Hr Hpre.
  assert (forall r, keeps ext (fop_ext op) d r -> exists d' es, r = Ok (d', es) /\
    fz_ok (ext + fop_ext op + thaw_sum es) d' /\
    nest_sum es = contrib (view d') - contrib (view d) /\ hold_sum es = held (view d') - held (view d)) as Hk.
  { intros r (d' & es & -> & O' & _ & Hf' & [_ _ L1 L2] & _). by exists d', es. }
  assert (forall r now v, starts ext d r now v -> exists d' es,
    ('(_, d, es) ← r; Ok (d, es)) = Ok (d', es) /\ fz_ok (ext + 0 + thaw_sum es) d' /\
    nest_sum es = contrib (view d') - contrib (view d) /\ hold_sum es = held (view d') - held (view d)) as Hst.
  { intros r now v (d' & es & -> & O' & V & Hf' & [_ _ L1 L2] & Ht). subst v. exists d', es. rewrite Ht, !Z.add_0_r. done. }
  assert (co_ref (fd_obj d) < 2 ^ 31 - 1) as B' by lia.
  destruct op; cbn [run_fop fop_ext fop_pre] in *.
  - apply Hk. unfold can_auth_pin in Hpre. apply andb_true_iff in Hpre as [_ Hpre].
    apply negb_true_iff, orb_false_iff in Hpre as [H1 H2].
    destruct (not_frozen_bits e d H1 H2) as (B1 & B2 & _). by apply auth_pin_keeps.
  - apply Hk. by apply auth_unpin_keeps.
  - apply Hk. destruct Hpre as (H1 & H2 & H3 & H4 & H5 & H6). by apply adjust_keeps.
  - destruct Hpre as [H1 H2]. eapply Hst. by apply freeze_tree_keeps.
  - destruct Hpre as [H1 H2]. eapply Hst. by apply freeze_dir_keeps.
  - apply Hk. by apply unfreeze_tree_keeps.
  - apply Hk. by apply unfreeze_dir_keeps.
Qed.

(** [auth_unpin] after the release. *)
Lemma auth_unpin_eq e d d1 es :
  let d0 := set_auth_pins (s32 (auth_pins d - 1)) d in
  (if auth_pins d0 =? 0 then fd_put PIN_AUTHPIN d0 else Ok (d0, [])) = Ok (d1, es) -> 0 <= auth_pins d1 ->
  auth_unpin e d =
    ('(d2, es1) ← maybe_finish_freeze (auth_unpin_n 1 e) e d1;
     Ok (d2, es ++ es1 ++ (if negb (fd_subtree_root d2) && (get_cum_auth_pins d1 =? 0) then [InodeNested (-1)] else []))).
Proof.
  intros d0 E Hp. unfold auth_unpin. cbn [auth_unpin_n]. cbv zeta. fold d0. rewrite E. cbn [mbind res_bind].
  by rewrite check_true by lia.
Qed.

(** Nothing happens while the freeze still waits for a pin. *)
Lemma noop_incomplete ext v a :
  finv ext v -> noop (put_pins (v_pins v - 1) a v) = true ->
  (v_T v = true -> v_FT v = true <-> ext = 1 /\ v_nested v = 0 /\ v_dirpins v = 0) /\
  (v_D v = true -> v_FD v = true <-> ext = 1 /\ v_dirpins v = 0).
Proof.
  intros Hf En. pose proof (fi_pins _ _ Hf) as F2. split; intros HT.
  - destruct (finv_no_freezing _ _ Hf HT) as (-> & HD & _). rewrite HT, HD in F2. split; [done|].
    intros (H1 & H2 & H3). unfold noop in En. cbn [put_pins v_pins v_nested v_dirpins v_T v_D] in En.
    by rewrite F2, H1, H2, H3, HT, HD in En.
  - destruct (finv_no_freezing_dir _ _ Hf HT) as (HD & _ & ->). rewrite HT, HD in F2. split; [done|].
    intros (H1 & H2). unfold noop in En. cbn [put_pins v_pins v_nested v_dirpins v_T v_D] in En.
    by rewrite F2, H1, H2, HT, HD in En.
Qed.

(** A freeze under way completes with the release of the last pin it waits for, and not
    before, unless the inode of the fragment is itself frozen. *)
Theorem freeze_completes_with_last_pin e ext d :
  fz_ok ext d -> co_ref (fd_obj d) < 2 ^ 31 - 1 -> auth_pins d + nested_auth_pins d < 2 ^ 31 - 1 ->
  1 <= ext -> negb (fd_subtree_root d) && fe_in_frozen e = false ->
  exists d' es, auth_unpin e d = Ok (d', es) /\
    (is_freezing_tree_root d = true ->
       is_frozen_tree_root d' = true <-> ext = 1 /\ nested_auth_pins d = 0 /\ dir_auth_pins d = 0) /\
    (is_freezing_dir d = true -> is_frozen_dir d' = true <-> ext = 1 /\ dir_auth_pins d = 0).
Proof.
  intros [O Hf] B Hr Hx Hz. pose proof Hf as [F1 F2 F3 F4 F5 F6 F7 F8 F9].
  destruct (release_ok ext d O Hf Hr Hx) as (d1 & es & [E1 O1 R1 V1 S1] & Hf1 & Ep & Hp).
  assert (v_nested (view d1) = v_nested (view d) /\ v_dirpins (view d1) = v_dirpins (view d) /\
    v_T (view d1) = v_T (view d) /\ v_D (view d1) = v_D (view d) /\
    v_FT (view d1) = v_FT (view d) /\ v_FD (view d1) = v_FD (view d)) as (N1 & N2 & N3 & N4 & N5 & N6)
    by (by rewrite V1).
  rewrite (auth_unpin_eq e d d1 es E1) by lia.
  change (is_freezing_tree_root d) with (v_T (view d)). change (is_freezing_dir d) with (v_D (view d)).
  change (nested_auth_pins d) with (v_nested (view d)). change (dir_auth_pins d) with (v_dirpins (view d)).
  destruct (noop (view d1)) eqn:En.
  - rewrite maybe_noop by done. cbn [mbind res_bind]. eexists _, _. split; [done|].
    change (is_frozen_tree_root d1) with (v_FT (view d1)). change (is_frozen_dir d1) with (v_FD (view d1)).
    rewrite V1 in En |- *. exact (noop_incomplete ext (view d) _ Hf En).
  - unfold noop in En. rewrite !orb_false_iff, !negb_false_iff in En. destruct En as [[Hp1 Hd1] Hrest].
    apply Z.eqb_eq in Hp1, Hd1. assert (auth_pins d1 = 1) as Hp1' by exact Hp1.
    destruct (v_D (view d1)) eqn:HD.
    + destruct (maybe_dir_result 0 e (ext - 1) d1 O1) as (d2 & es2 & [E2 O2 R2 V2 S2]); [lia|done| |done|done|done|].
      { change (v_pins (view d1)) with (auth_pins d1). cbn in *. lia. }
      rewrite E2. cbn [mbind res_bind]. eexists _, _. split; [done|].
      change (is_frozen_tree_root d2) with (v_FT (view d2)). change (is_frozen_dir d2) with (v_FD (view d2)).
      rewrite V2. cbn [put_pins put_bits v_FT v_FD]. rewrite <- N3, <- N4, <- N2.
      destruct (finv_no_freezing_dir _ _ Hf1 HD) as (HT & HFT & HFD). rewrite HT.
      split; [done|]. intros _. split; [|done]. intros _. split; [|done].
      rewrite Ep, F2, <- N3, <- N4, HT in Hp1'. simpl in Hp1'. lia.
    + cbn [negb andb] in Hrest. apply orb_false_iff in Hrest as [Hn HT]. apply negb_false_iff in Hn, HT.
      apply Z.eqb_eq in Hn. rewrite (maybe_tree_eq 0 e (ext - 1) d1 Hf1 Hp1 Hd1 Hn HT).
      assert (fd_subtree_root d1 = fd_subtree_root d) as Er by (by pose proof (f_equal v_root V1)).
      rewrite Er, Hz.
      destruct (freeze_tree_whole 0 e d1 O1) as (d2 & es2 & [E2 O2 R2 V2 S2]); [lia|done|done| |by rewrite Er|].
      { change (v_authpin (view d1) = 1). by rewrite (fi_authpin _ _ Hf1), Hp1. }
      rewrite E2. cbn [mbind res_bind]. eexists _, _. split; [done|].
      change (is_frozen_tree_root d2) with (v_FT (view d2)). change (is_frozen_dir d2) with (v_FD (view d2)).
      rewrite V2. cbn [put_pins put_bits v_FT v_FD]. rewrite <- N3, <- N4, <- N2, <- N1, HT.
      split; [|done]. intros _. split; [|done]. intros _. split; [|done].
      rewrite Ep, F2, <- N3, <- N4, HT in Hp1'. simpl in Hp1'. lia.
Qed.

(** A directory freeze that waits because the inode is frozen does not wait for the inode
    to thaw: the next pin taken or released anywhere beneath it completes the freeze, while the
    inode is still frozen. *)
Theorem dir_freeze_ignores_frozen_inode e d inc :
  fz_ok 0 d -> co_ref (fd_obj d) < 2 ^ 31 - 1 -> auth_pins d + nested_auth_pins d < 2 ^ 31 - 1 ->
  is_freezing_dir d = true -> dir_auth_pins d = 0 ->
  inc <> 0 -> 0 <= nested_auth_pins d + inc -> auth_pins d + nested_auth_pins d + inc < 2 ^ 31 - 1 ->
  fd_subtree_root d = false -> fe_in_frozen e = true -> fe_in_frozen_dir e = false ->
  is_freezeable_dir true e d = false /\
  exists d' es, adjust_nested_auth_pins inc 0 e d = Ok (d', es) /\ is_frozen_dir d' = true.
Proof.
  intros [O Hf] B Hr HD Hd Hi Hn Hr' Hroot Hz1 Hz2. pose proof Hf as [F1 F2 F3 F4 F5 F6 F7 F8 F9].
  change (is_freezing_dir d) with (v_D (view d)) in HD.
  destruct (finv_no_freezing_dir _ _ Hf HD) as (HT & HFT & HFD).
  rewrite HT, HD in F2. cbn [b2z] in F2. change (v_pins (view d)) with (auth_pins d) in F2.
  split. { unfold is_freezeable_dir. rewrite Hroot, Hz1, Hz2. by destruct (_ || _). }
  unfold adjust_nested_auth_pins. rewrite check_true by (apply negb_true_iff; lia). cbv zeta.
  rewrite !s32_id by (unfold in_s32; cbn in *; lia).
  set (d1 := set_nested _ _ d). rewrite check_true by (apply Z.leb_le; exact Hn).
  rewrite check_true by (apply Z.leb_le; cbn; lia).
  assert (finv 0 (view d1)) as Hf1.
  { destruct Hf as [G1 G2 G3 G4 G5 G6 G7 G8 G9].
    change (nested_auth_pins d) with (v_nested (view d)) in Hn.
    change (view d1) with (mk_view (v_pins (view d)) (v_nested (view d) + inc) (v_dirpins (view d) + 0)
      (v_T (view d)) (v_FT (view d)) (v_D (view d)) (v_FD (view d)) (v_authpin (view d))
      (v_frozenpin (view d)) (v_root (view d)) (v_auth (view d))).
    clear - G1 G2 G3 G4 G5 G6 G7 G8 G9 Hn HFT HFD. split; crush_view (view d). }
  destruct (maybe_dir_result 1 e 0 d1 O B Hf1) as (d2 & es2 & [E2 O2 R2 V2 S2]); [cbn; lia|cbn; lia|cbn; lia|done|].
  change (auth_unpin e) with (auth_unpin_n (C:=C) 2 e). rewrite E2. cbn [mbind res_bind].
  eexists _, _. split; [done|]. change (is_frozen_dir d2) with (v_FD (view d2)). by rewrite V2.
Qed.

End View.

(** ** Witnesses *)

Definition fd_after {A} (r : res (fdir Z * A)) (d : fdir Z) : fdir Z :=
  match r with Ok (d, _) => d | Abort => d end.
Definition fd_started {A} (r : res (bool * fdir Z * A)) (d : fdir Z) : fdir Z :=
  match r with Ok (_, d, _) => d | Abort => d end.

(** A fresh fragment this rank is authoritative for; then with one pin; then being frozen. *)
Definition fd_ex0 : fdir Z := mk_fdir (mk_dfrag (state_set STATE_AUTH cobj_new) ∅ 0 0 0 0 1 ∅) 0 0 0 false.
Definition env_thawed : fenv := mk_fenv false false [].
Definition env_frozen : fenv := mk_fenv true false [].
Definition fd_ex1 : fdir Z := fd_after (auth_pin fd_ex0) fd_ex0.
Definition fd_ex2 : fdir Z := fd_started (freeze_tree env_thawed fd_ex1) fd_ex1.
Definition fd_ex3 : fdir Z := fd_started (freeze_dir env_frozen fd_ex0) fd_ex0.

Lemma fd_ex0_ok : fz_ok 0 fd_ex0.
Proof.
  split; [split; [split|..]|split]; try done.
  all: vm_compute; done.
Qed.

Lemma fd_ex1_ok : fz_ok 1 fd_ex1.
Proof.
  destruct (auth_pin_keeps 0 fd_ex0) as (d & es & E & O & _ & F & _);
    [apply fd_ex0_ok|done|apply fd_ex0_ok|done|done|done|].
  assert (fd_ex1 = d) as -> by (unfold fd_ex1; by rewrite E). split; [done|].
  assert (thaw_sum es = 0) as Ht; [|by rewrite Ht in F].
  vm_compute in E. by injection E as _ <-.
Qed.

Lemma fd_ex2_ok : fz_ok 1 fd_ex2.
Proof.
  destruct (freeze_tree_keeps 1 env_thawed fd_ex1) as (d & es & E & O & V & F & _);
    [apply fd_ex1_ok|done|apply fd_ex1_ok|done|done|done|].
  assert (fd_ex2 = d) as -> by (unfold fd_ex2; by rewrite E). split; [done|]. by rewrite V.
Qed.

Lemma fd_ex3_ok : fz_ok 0 fd_ex3.
Proof.
  destruct (freeze_dir_keeps 0 env_frozen fd_ex0) as (d & es & E & O & V & F & _);
    [apply fd_ex0_ok|done|apply fd_ex0_ok|done|done|done|].
  assert (fd_ex3 = d) as -> by (unfold fd_ex3; by rewrite E). split; [done|]. by rewrite V.
Qed.

Lemma freeze_machine_safe_witness : exists d' es,
  run_fop env_thawed FreezeTree fd_ex1 = Ok (d', es) /\ fz_ok (1 + 0 + thaw_sum es) d' /\
  nest_sum es = contrib (view d') - contrib (view fd_ex1) /\
  hold_sum es = held (view d') - held (view fd_ex1).
Proof.
  apply (freeze_machine_safe env_thawed 1 FreezeTree fd_ex1).
  - apply fd_ex1_ok.
  - vm_compute. reflexivity.
  - vm_compute. reflexivity.
  - split; vm_compute; reflexivity.
Defined.

Lemma freeze_completes_with_last_pin_witness : exists d' es,
  auth_unpin env_thawed fd_ex2 = Ok (d', es) /\
  (is_freezing_tree_root fd_ex2 = true ->
     is_frozen_tree_root d' = true <-> 1 = 1 /\ nested_auth_pins fd_ex2 = 0 /\ dir_auth_pins fd_ex2 = 0) /\
  (is_freezing_dir fd_ex2 = true -> is_frozen_dir d' = true <-> 1 = 1 /\ dir_auth_pins fd_ex2 = 0).
Proof.
  apply (freeze_completes_with_last_pin env_thawed 1 fd_ex2).
  - apply fd_ex2_ok.
  - vm_compute. reflexivity.
  - vm_compute. reflexivity.
  - lia.
  - vm_compute. reflexivity.
Defined.

Lemma dir_freeze_ignores_frozen_inode_witness :
  is_freezeable_dir true env_frozen fd_ex3 = false /\
  exists d' es, adjust_nested_auth_pins 1 0 env_frozen fd_ex3 = Ok (d', es) /\ is_frozen_dir d' = true.
Proof.
  apply (dir_freeze_ignores_frozen_inode env_frozen fd_ex3 1).
  - apply fd_ex3_ok.
  - vm_compute. reflexivity.
  - vm_compute. reflexivity.
  - vm_compute. reflexivity.
  - reflexivity.
  - discriminate.
  - vm_compute. discriminate.
  - vm_compute. reflexivity.
  - reflexivity.
  - reflexivity.
  - reflexivity.
Defined.
