(* ===== verification/Versions.v ===== *)
(** * Versions and dirtiness of a directory fragment (CDir.cc, CDir.h)

    [fnode_t], the stack of projected fnodes, the projected, committing and committed versions,
    and the marks that put a fragment on the lists of a journal segment.  A fragment here is
    [cdir]: the dentries (file Dentries) and the auth pins (file Freeze) with what those files
    leave out.

    What the repository does not hold: the journal ([LogSegment], named by its number), the
    bloom filter (class [Bloom]) and the contexts, which are values of [C]. *)

From stdpp Require Import base tactics numbers list gmap.
From Stdlib Require Import ZArith Lia Ascii.
From S2P Require Import Prelude Keys Stats CacheObject Dentries Freeze.
Open Scope Z_scope.
Open Scope list_scope.

Definition STATE_COMMITTING : Z := Z.shiftl 1 6.
Definition STATE_FETCHING : Z := Z.shiftl 1 7.
Definition STATE_FRAGMENTING : Z := Z.shiftl 1 14.
Definition STATE_BADFRAG : Z := Z.shiftl 1 19.

Definition WAIT_ATFREEZEROOT : Z := WAIT_UNFREEZE.
Definition WAIT_ATSUBTREEROOT : Z := WAIT_SINGLEAUTH.

Record fnode_t (T : Type) := mk_fnode {
  fn_version : Z;
  fn_snap_purged_thru : Z;
  fn_fragstat : frag_info_t T;
  fn_accounted_fragstat : frag_info_t T;
  fn_rstat : nest_info_t T;
  fn_accounted_rstat : nest_info_t T
}.
Arguments mk_fnode {T}.
Arguments fn_version {T}.
Arguments fn_snap_purged_thru {T}.
Arguments fn_fragstat {T}.
Arguments fn_accounted_fragstat {T}.
Arguments fn_rstat {T}.
Arguments fn_accounted_rstat {T}.

(** [bloom_filter]: made for a number of elements, it may say yes wrongly but never no. *)
Class Bloom := {
  bloom_filter : Type;
  bloom_new : Z -> bloom_filter;
  bloom_insert : cstring -> bloom_filter -> bloom_filter;
  bloom_contains : cstring -> bloom_filter -> bool
}.
Class BloomOk `{Bloom} : Prop := {
  bloom_inserted : forall n b, bloom_contains n (bloom_insert n b) = true;
  bloom_keeps : forall n m b, bloom_contains n b = true -> bloom_contains n (bloom_insert m b) = true
}.

Inductive cd_effect (C : Type) :=
| Fz (e : fz_effect C)
| Wake (c : C)                      (* mds->queue_waiter(c) *)
| ParentWait (tag : Z) (c : C)      (* inode->parent->dir->add_waiter(tag, c) *)
| FlushLog
| WhenSafe (pv seg : Z).            (* mdlog->wait_for_safe(C_Dir_Dirty(this, pv, seg)) *)
Arguments Fz {C}.
Arguments Wake {C}.
Arguments ParentWait {C}.
Arguments FlushLog {C}.
Arguments WhenSafe {C}.

Section Versions.
Context {C T : Type} `{Bloom}.
Abbreviation fnode_t := (fnode_t T).
Abbreviation cd_effect := (cd_effect C).

Definition set_fn_version (v : Z) (f : fnode_t) : fnode_t :=
  mk_fnode v (fn_snap_purged_thru f) (fn_fragstat f) (fn_accounted_fragstat f) (fn_rstat f)
    (fn_accounted_rstat f).
Definition set_fn_purged (s : Z) (f : fnode_t) : fnode_t :=
  mk_fnode (fn_version f) s (fn_fragstat f) (fn_accounted_fragstat f) (fn_rstat f)
    (fn_accounted_rstat f).

Record cdir := mk_cdir {
  cd_fdir : fdir C;
  fnode : fnode_t;
  projected_fnode : list fnode_t;
  committing_version : Z;
  committed_version : Z;
  waiting_for_commit : gmap Z (list C);
  item_dirty : option Z;            (* the segment with this on [dirty_dirfrags] *)
  item_new : option Z;              (* the segment with this on [new_dirfrags] *)
  num_dirty : Z;
  bloom : option bloom_filter
}.

Definition cd_dir (d : cdir) : dirfrag C := fd_dir (cd_fdir d).
Definition cd_obj (d : cdir) : cobj C := df_obj (cd_dir d).

Definition set_cd_fdir (x : fdir C) (d : cdir) : cdir :=
  mk_cdir x (fnode d) (projected_fnode d) (committing_version d) (committed_version d)
    (waiting_for_commit d) (item_dirty d) (item_new d) (num_dirty d) (bloom d).
Definition set_fnode (f : fnode_t) (d : cdir) : cdir :=
  mk_cdir (cd_fdir d) f (projected_fnode d) (committing_version d) (committed_version d)
    (waiting_for_commit d) (item_dirty d) (item_new d) (num_dirty d) (bloom d).
Definition set_projected (l : list fnode_t) (d : cdir) : cdir :=
  mk_cdir (cd_fdir d) (fnode d) l (committing_version d) (committed_version d)
    (waiting_for_commit d) (item_dirty d) (item_new d) (num_dirty d) (bloom d).
Definition set_commits (committing committed : Z) (d : cdir) : cdir :=
  mk_cdir (cd_fdir d) (fnode d) (projected_fnode d) committing committed
    (waiting_for_commit d) (item_dirty d) (item_new d) (num_dirty d) (bloom d).
Definition set_commit_waiters (w : gmap Z (list C)) (d : cdir) : cdir :=
  mk_cdir (cd_fdir d) (fnode d) (projected_fnode d) (committing_version d) (committed_version d)
    w (item_dirty d) (item_new d) (num_dirty d) (bloom d).
Definition set_lists (dirty new : option Z) (d : cdir) : cdir :=
  mk_cdir (cd_fdir d) (fnode d) (projected_fnode d) (committing_version d) (committed_version d)
    (waiting_for_commit d) dirty new (num_dirty d) (bloom d).
Definition set_num_dirty (n : Z) (d : cdir) : cdir :=
  mk_cdir (cd_fdir d) (fnode d) (projected_fnode d) (committing_version d) (committed_version d)
    (waiting_for_commit d) (item_dirty d) (item_new d) n (bloom d).
Definition set_bloom (b : option bloom_filter) (d : cdir) : cdir :=
  mk_cdir (cd_fdir d) (fnode d) (projected_fnode d) (committing_version d) (committed_version d)
    (waiting_for_commit d) (item_dirty d) (item_new d) (num_dirty d) b.
Definition set_cd_dir (x : dirfrag C) (d : cdir) : cdir := set_cd_fdir (set_fd_dir x (cd_fdir d)) d.
Definition set_cd_obj (o : cobj C) (d : cdir) : cdir := set_cd_dir (set_obj o (cd_dir d)) d.

Definition cd_test (d : cdir) (mask : Z) : bool := state_test (cd_obj d) mask.
Definition cd_is_auth (d : cdir) : bool := is_auth (cd_obj d).
Definition is_complete (d : cdir) : bool := cd_test d STATE_COMPLETE.

Definition on_fdir {A} (r : res (fdir C * list (fz_effect C))) (d : cdir)
    (k : cdir -> list cd_effect -> res A) : res A :=
  '(x, es) ← r; k (set_cd_fdir x d) (map Fz es).

Definition cd_get (pin : Z) (d : cdir) : res (cdir * list cd_effect) :=
  on_fdir (fd_get pin (cd_fdir d)) d (fun d es => Ok (d, es)).
Definition cd_put (pin : Z) (d : cdir) : res (cdir * list cd_effect) :=
  on_fdir (fd_put pin (cd_fdir d)) d (fun d es => Ok (d, es)).

(** ** Versions *)

Definition get_version (d : cdir) : Z := fn_version (fnode d).
Definition projected_version (d : cdir) : Z := df_projected_version (cd_dir d).
Definition set_projected_version (v : Z) (d : cdir) : cdir :=
  let x := cd_dir d in
  set_cd_dir (mk_dfrag (df_obj x) (df_items x) (num_head_items x) (num_head_null x)
    (num_snap_items x) (num_snap_null x) v (waiting_on_dentry x)) d.

Definition is_projected (d : cdir) : bool := match projected_fnode d with [] => false | _ => true end.

Definition set_version (v : Z) (d : cdir) : res cdir :=
  check (negb (is_projected d)) ;;
  Ok (set_projected_version v (set_fnode (set_fn_version v (fnode d)) d)).

Definition get_projected_fnode (d : cdir) : fnode_t := default (fnode d) (last (projected_fnode d)).

(** What a caller of [get_projected_fnode] writes through the pointer. *)
Definition edit_projected (f : fnode_t -> fnode_t) (d : cdir) : cdir :=
  match last (projected_fnode d) with
  | None => set_fnode (f (fnode d)) d
  | Some p => set_projected (removelast (projected_fnode d) ++ [f p]) d
  end.

Definition project_fnode (d : cdir) : res cdir :=
  check (negb (get_version d =? 0)) ;;
  Ok (set_projected (projected_fnode d ++ [get_projected_fnode d]) d).

Definition pre_dirty (min : Z) (d : cdir) : cdir * Z :=
  let pv := if projected_version d <? min then min else projected_version d in
  let pv := u64 (pv + 1) in
  (set_projected_version pv d, pv).

Definition is_new (d : cdir) : bool := match item_new d with None => false | Some _ => true end.

(** [_set_dirty_flag] *)
Definition _set_dirty_flag (d : cdir) : res (cdir * list cd_effect) :=
  if cd_test d STATE_DIRTY then Ok (d, [])
  else cd_get PIN_DIRTY (set_cd_obj (state_set STATE_DIRTY (cd_obj d)) d).

Definition _mark_dirty (ls : option Z) (d : cdir) : res (cdir * list cd_effect) :=
  '(d, es) ← (if cd_test d STATE_DIRTY then Ok (d, [])
              else '(d, es) ← _set_dirty_flag d; check (bool_decide (is_Some ls)) ;; Ok (d, es));
  Ok (match ls with
      | None => d
      | Some seg =>
          set_lists (Some seg)
            (if (committed_version d =? 0) && negb (is_new d) then Some seg else item_new d) d
      end, es).

Definition mark_dirty (pv : Z) (ls : option Z) (d : cdir) : res (cdir * list cd_effect) :=
  check (get_version d <? pv) ;;
  check (pv <=? projected_version d) ;;
  _mark_dirty ls (set_fnode (set_fn_version pv (fnode d)) d).

Definition pop_and_dirty_projected_fnode (ls : option Z) (d : cdir) : res (cdir * list cd_effect) :=
  match projected_fnode d with
  | [] => Abort
  | f :: fs =>
      '(d, es) ← _mark_dirty ls (set_fnode f d);
      Ok (set_projected fs d, es)
  end.

Definition mark_new (seg : Z) (d : cdir) : cdir := set_lists (item_dirty d) (Some seg) d.

(** [mark_clean]; the pin and the state bit are those of file Dentries. *)
Definition cd_mark_clean (d : cdir) : res (cdir * list cd_effect) :=
  '(x, es) ← mark_clean (cd_dir d);
  let d' := set_cd_dir x d in
  Ok (if cd_test d STATE_DIRTY then set_lists None None d' else d', map (fun e => Fz (PinHook e)) es).

(** [mdlog->get_current_segment()] is [seg]. *)
Definition log_mark_dirty (seg : Z) (d : cdir) : cdir * list cd_effect :=
  let '(d, pv) := pre_dirty 0 d in (d, [FlushLog; WhenSafe pv seg]).

Definition inc_num_dirty (d : cdir) : cdir := set_num_dirty (s32 (num_dirty d + 1)) d.
Definition dec_num_dirty (d : cdir) : res cdir :=
  check (0 <? num_dirty d) ;; Ok (set_num_dirty (s32 (num_dirty d - 1)) d).

(** ** The bloom filter of trimmed names *)

Definition add_to_bloom (name : cstring) (d : cdir) : cdir :=
  match bloom d with
  | Some b => set_bloom (Some (bloom_insert name b)) d
  | None =>
      if negb (is_complete d) then d
      else
        let size := u32 (num_head_items (cd_dir d) + num_snap_items (cd_dir d)) in
        let size := if size <? 100 then 100 else size in
        set_bloom (Some (bloom_insert name (bloom_new size))) d
  end.

Definition is_in_bloom (name : cstring) (d : cdir) : bool :=
  match bloom d with None => false | Some b => bloom_contains name b end.

Definition remove_bloom (d : cdir) : cdir := set_bloom None d.

Definition mark_complete (d : cdir) : cdir :=
  remove_bloom (set_cd_obj (state_set STATE_COMPLETE (cd_obj d)) d).

(** ** Waiters *)

(** [CDir::add_waiter]: waiters for a thaw wait at the root of the freeze, waiters for a single
    authority at the root of the subtree. *)
Definition dir_add_waiter (tag : Z) (c : C) (d : cdir) : res (cdir * list cd_effect) :=
  let x := cd_fdir d in
  if has_bits tag WAIT_ATFREEZEROOT &&
     negb (is_freezing_tree_root x || is_frozen_tree_root x || is_freezing_dir x || is_frozen_dir x)
  then Ok (d, [ParentWait tag c])
  else if has_bits tag WAIT_ATSUBTREEROOT && negb (fd_subtree_root x) then Ok (d, [ParentWait tag c])
  else
    '(o, hs) ← add_waiter (cd_obj d) tag c;
    Ok (set_cd_obj o d, map (fun h => Fz (PinHook (DirHook h))) hs).

Definition cd_auth_pin (d : cdir) : res (cdir * list cd_effect) :=
  on_fdir (auth_pin (cd_fdir d)) d (fun d es => Ok (d, es)).
Definition cd_auth_unpin (e : fenv) (d : cdir) : res (cdir * list cd_effect) :=
  on_fdir (auth_unpin e (cd_fdir d)) d (fun d es => Ok (d, es)).
Definition cd_finish_waiting (mask result : Z) (d : cdir) : res (cdir * list cd_effect) :=
  on_fdir (finish_waiting mask result (cd_fdir d)) d (fun d es => Ok (d, es)).

End Versions.
Arguments cdir C T {_}.
