(* ===== verification/Commit.v ===== *)
(** * Committing a directory fragment to its object (CDir.cc)

    [commit], [_commit], [_omap_commit], [_encode_dentry] and [_committed].  A commit writes the
    dirty dentries to the omap of the object of the fragment, in batches, with the header (the
    fnode) in the last one; when all writes are done, [_committed] cleans what they covered,
    wakes the waiters and starts over when some want a later version.

    Inodes ([CInode], not in the repository) are the records [cinode], found by a handle; the
    encodings of the base types and of an inode are the class [Codec].  The writes are
    [mutation]s, handed to the object store by the effect [Mutate]. *)

From stdpp Require Import base tactics numbers list gmap fin_maps sorting strings.
From Stdlib Require Import ZArith Lia Ascii.
From S2P Require Import Prelude Keys Stats CacheObject Dentries Freeze Versions.
Open Scope Z_scope.
Open Scope list_scope.

Abbreviation bytes := (list ascii).

(** What the code does with the stored part of an inode ([InodeStore]). *)
Class StoreOps (S : Type) := {
  st_ino : S -> Z;
  st_version : S -> Z;
  st_nlink : S -> Z;
  st_dirty_rstat : S -> bool;
  is_multiversion : S -> bool;
  st_purge_stale : gset Z -> S -> S  (* [CInode::purge_stale_snap_data] *)
}.

(** The encoders; each decoder takes its value off the front of the bytes, or throws. *)
Class Codec (S T : Type) := {
  enc_snapid : Z -> bytes;
  dec_snapid : bytes -> option (Z * bytes);
  enc_ino : Z -> bytes;
  dec_ino : bytes -> option (Z * bytes);
  enc_u8 : Z -> bytes;
  dec_u8 : bytes -> option (Z * bytes);
  enc_store : S -> bytes;
  dec_store : bytes -> option (S * bytes);
  enc_fnode : fnode_t T -> bytes;
  dec_fnode : bytes -> option (fnode_t T * bytes)
}.

Class CodecOk (S T : Type) `{Codec S T} : Prop := {
  dec_enc_snapid : forall x r, dec_snapid (enc_snapid x ++ r) = Some (x, r);
  dec_enc_ino : forall x r, dec_ino (enc_ino x ++ r) = Some (x, r);
  dec_enc_u8 : forall x r, dec_u8 (enc_u8 x ++ r) = Some (x, r);
  dec_enc_store : forall x r, dec_store (enc_store x ++ r) = Some (x, r);
  dec_enc_fnode : forall x r, dec_fnode (enc_fnode x ++ r) = Some (x, r)
}.

(** An inode of the cache. *)
Record cinode (S : Type) := mk_cinode {
  ci_info : inode_info;
  ci_auth : bool;
  ci_first : Z;
  ci_last : Z;
  ci_undef : bool;                  (* CInode::STATE_REJOINUNDEF *)
  ci_store : S
}.
Arguments mk_cinode {S}.
Arguments ci_info {S}.
Arguments ci_auth {S}.
Arguments ci_first {S}.
Arguments ci_last {S}.
Arguments ci_undef {S}.
Arguments ci_store {S}.

(** What the code asks of the inode of the fragment and of its snap realm. *)
Record ienv := mk_ienv {
  ie_nlink : Z;
  ie_snaprealm : bool;
  ie_stray : bool;
  ie_past_parents_open : bool;
  ie_last_destroyed : Z;
  ie_snaps : gset Z
}.

(** An [ObjectOperation] of a commit. *)
Record mutation := mk_mutation {
  mu_prio : Z;
  mu_stat : bool;                   (* fails when there is no object *)
  mu_header : option bytes;
  mu_set : gmap cstring bytes;
  mu_rm : gset cstring
}.

Inductive cm_effect (C : Type) :=
| Cd (e : cd_effect C)
| Mutate (m : mutation)
| WhenWritten (v : Z)               (* gather.activate(): C_IO_Dir_Committed(this, v) *)
| ClogError (r : Z)
| HandleWriteError (r : Z)
| MaybeEvalStray.
Arguments Cd {C}.
Arguments Mutate {C}.
Arguments WhenWritten {C}.
Arguments ClogError {C}.
Arguments HandleWriteError {C}.
Arguments MaybeEvalStray {C}.

(** Constants of Ceph and of the cache the commit uses. *)
Class CommitConst (C : Type) := {
  CEPH_MSG_PRIO_DEFAULT : Z;
  max_dir_commit_size : Z;
  C_MDSInternalNoop : C
}.

Section Commit.
Context {C S T : Type} `{CephConst} `{CDentryOps C} `{Bloom} `{StoreOps S} `{Codec S T} `{CommitConst C}.
Abbreviation cinode := (cinode S).
Abbreviation cdir := (cdir C T).
Abbreviation cm_effect := (cm_effect C).

Definition set_ci_store (s : S) (i : cinode) : cinode :=
  mk_cinode (ci_info i) (ci_auth i) (ci_first i) (ci_last i) (ci_undef i) s.
Definition set_ci_info (x : inode_info) (i : cinode) : cinode :=
  mk_cinode x (ci_auth i) (ci_first i) (ci_last i) (ci_undef i) (ci_store i).
Definition upd_obj (h : Z) (i : cinode) (objs : Z -> cinode) : Z -> cinode :=
  fun x => if x =? h then i else objs x.
Definition infos (objs : Z -> cinode) : Z -> inode_info := fun h => ci_info (objs h).
Definition set_infos (inodes : Z -> inode_info) (objs : Z -> cinode) : Z -> cinode := fun h => set_ci_info (inodes h) (objs h).

Definition DnEff (e : dn_effect) : cm_effect := Cd (Fz (PinHook e)).

(** the snapshots that still exist, when it is time to purge those that do not *)
Definition purge_snaps (ie : ienv) (f : fnode_t T) : option (gset Z) :=
  if negb (ie_past_parents_open ie) then None
  else if fn_snap_purged_thru f <? ie_last_destroyed ie then Some (ie_snaps ie)
  else None.

Definition set_new (b : bool) (dn : dentry C) : dentry C :=
  mk_dentry (dn_obj dn) (dn_name dn) (dn_first dn) (dn_last dn) (dn_version dn) (dn_linkage dn)
    (dn_projected dn) b (dn_leases dn).

Definition _encode_dentry (snaps : option (gset Z)) (dn : dentry C) (objs : Z -> cinode)
  : res (dentry C * (Z -> cinode) * bytes) :=
  let dn := set_new false dn in
  let bl := enc_snapid (dn_first dn) in
  match dn_linkage dn with
  | LRemote ino d_type _ => Ok (dn, objs, bl ++ "L"%char :: enc_ino ino ++ enc_u8 d_type)
  | LPrimary h =>
      let i := objs h in
      let i := match snaps with
               | Some s => if is_multiversion (ci_store i) && negb (in_snaprealm (ci_info i))
                           then set_ci_store (st_purge_stale s (ci_store i)) i else i
               | None => i
               end in
      Ok (dn, upd_obj h i objs, bl ++ "I"%char :: enc_store (ci_store i))
  | LNull => Abort                  (* assert(in) *)
  end.

(** the locals of [_omap_commit] *)
Record batch := mk_batch { write_size : Z; to_set : gmap cstring bytes; to_remove : gset cstring }.
Definition batch_new : batch := mk_batch 0 ∅ ∅.

Definition batch_rm (key : cstring) (b : batch) : batch :=
  mk_batch (u32 (write_size b + Z.of_nat (length key))) (to_set b) ({[key]} ∪ to_remove b).
Definition batch_set (key : cstring) (bl : bytes) (b : batch) : batch :=
  mk_batch (u32 (write_size b + (Z.of_nat (length key) + Z.of_nat (length bl))))
    (<[key := bl]> (to_set b)) (to_remove b).

Definition DN_FRAGMENTING (dn : dentry C) : bool := state_test (dn_obj dn) DN_STATE_FRAGMENTING.

(** [!dn->is_dirty() && (!FRAGMENTING || is_null())] *)
Definition skipped (dn : dentry C) : bool :=
  negb (is_dirty (dn_obj dn)) && (negb (DN_FRAGMENTING dn) || is_null dn).

Definition op_start (prio : Z) (d : cdir) (header : option bytes) (b : batch) : mutation :=
  mk_mutation prio (negb (is_new d) && negb (cd_test d STATE_FRAGMENTING)) header (to_set b) (to_remove b).

(** the state of the loop of [_omap_commit] *)
Record cstate := mk_cstate {
  cs_dir : cdir;
  cs_objs : Z -> cinode;
  cs_batch : batch;
  cs_eff : list cm_effect
}.

(** the [try_trim_snap_dentry] branch; [true] when the dentry was trimmed *)
Definition commit_trim (snaps : option (gset Z)) (k : dentry_key_t) (dn : dentry C) (s : cstate)
  : res (cstate * bool) :=
  match snaps with
  | Some sn =>
      if is_head dn then Ok (s, false)
      else
        '(x, es, trimmed) ← try_trim_snap_dentry (infos (cs_objs s)) sn k (cd_dir (cs_dir s));
        if (trimmed : bool) then
          Ok (mk_cstate (set_cd_dir x (cs_dir s)) (cs_objs s)
                (batch_rm (dentry_key_encode k) (cs_batch s)) (cs_eff s ++ map DnEff es), true)
        else Ok (s, false)
  | None => Ok (s, false)
  end.

(** the rest of the loop body, before the size check *)
Definition commit_add (snaps : option (gset Z)) (k : dentry_key_t) (dn : dentry C) (s : cstate)
  : res cstate :=
  let key := dentry_key_encode k in
  if is_null dn then
    Ok (mk_cstate (cs_dir s) (cs_objs s) (batch_rm key (cs_batch s)) (cs_eff s))
  else
    '(dn, objs, bl) ← _encode_dentry snaps dn (cs_objs s);
    Ok (mk_cstate (set_cd_dir (upd_dentry k dn (cd_dir (cs_dir s))) (cs_dir s)) objs
          (batch_set key bl (cs_batch s)) (cs_eff s)).

Definition commit_flush (prio : Z) (s : cstate) : cstate :=
  if max_dir_commit_size <=? write_size (cs_batch s) then
    mk_cstate (cs_dir s) (cs_objs s) batch_new
      (cs_eff s ++ [Mutate (op_start prio (cs_dir s) None (cs_batch s))])
  else s.

Definition commit_dentry (prio : Z) (snaps : option (gset Z)) (k : dentry_key_t) (s : cstate) : res cstate :=
  match df_items (cd_dir (cs_dir s)) !! k with
  | None => Abort
  | Some dn =>
      '(s, trimmed) ← commit_trim snaps k dn s;
      if (trimmed : bool) || skipped dn then Ok s
      else s ← commit_add snaps k dn s; Ok (commit_flush prio s)
  end.

Fixpoint commit_loop (prio : Z) (snaps : option (gset Z)) (ks : list dentry_key_t) (s : cstate) : res cstate :=
  match ks with
  | [] => Ok s
  | k :: ks => s ← commit_dentry prio snaps k s; commit_loop prio snaps ks s
  end.

Definition _omap_commit (op_prio : Z) (ie : ienv) (objs : Z -> cinode) (d : cdir)
  : res (cdir * (Z -> cinode) * list cm_effect) :=
  let prio := if op_prio <? 0 then CEPH_MSG_PRIO_DEFAULT else op_prio in
  let v := get_version d in
  s ← commit_loop prio (purge_snaps ie (fnode d)) (item_keys (cd_dir d)) (mk_cstate d objs batch_new []);
  let last := op_start prio (cs_dir s) (Some (enc_fnode (fnode (cs_dir s)))) (cs_batch s) in
  Ok (cs_dir s, cs_objs s, cs_eff s ++ [Mutate last; WhenWritten v]).

Definition _commit (want op_prio : Z) (ie : ienv) (objs : Z -> cinode) (d : cdir)
  : res (cdir * (Z -> cinode) * list cm_effect) :=
  check ((want <=? get_version d) || (get_version d =? 0)) ;;
  check (cd_is_auth d) ;;
  if want <=? committed_version d then Ok (d, objs, [])
  else if want <=? committing_version d then
    check (cd_test d STATE_COMMITTING) ;; Ok (d, objs, [])
  else if committed_version d <? committing_version d then Ok (d, objs, [])
  else
    let d := set_commits (get_version d) (committed_version d) d in
    let d := if cd_test d STATE_COMMITTING then d
             else set_cd_obj (state_set STATE_COMMITTING (cd_obj d)) d in
    _omap_commit op_prio ie objs d.

Definition wake_opt (c : option C) : list cm_effect :=
  match c with Some c => [Cd (Wake c)] | None => [] end.

Definition add_commit_waiter (want : Z) (c : C) (d : cdir) : cdir :=
  let w := waiting_for_commit d in
  set_commit_waiters (<[want := default [] (w !! want) ++ [c]]> w) d.

Definition commit (want : Z) (c : option C) (ignore_authpinnability : bool) (op_prio : Z)
    (e : fenv) (ie : ienv) (objs : Z -> cinode) (d : cdir)
  : res (cdir * (Z -> cinode) * list cm_effect) :=
  let want := if want =? 0 then get_version d else want in
  check ((want <=? get_version d) || (get_version d =? 0)) ;;
  check (committed_version d <? want) ;;
  check (cd_is_auth d) ;;
  check (ignore_authpinnability || can_auth_pin e (cd_fdir d)) ;;
  if (ie_nlink ie =? 0) && negb (ie_snaprealm ie) then
    '(inodes, x, es) ← try_remove_dentries_for_stray (ie_nlink ie) (ie_snaprealm ie) (infos objs) (cd_dir d);
    let d := set_cd_dir x (if cd_test d STATE_DIRTY then set_lists None None d else d) in
    Ok (d, set_infos inodes objs, map DnEff es ++ wake_opt c)
  else
    let c := default C_MDSInternalNoop c in
    '(d, es) ← (if bool_decide (waiting_for_commit d = ∅) then cd_auth_pin d else Ok (d, []));
    '(d, objs, es') ← _commit want op_prio ie objs (add_commit_waiter want c d);
    Ok (d, objs, map Cd es ++ es').

(** ** When the writes are done *)

(** the inode of a dentry: clean it when the commit covers it *)
Definition committed_inode (cv : Z) (k : dentry_key_t) (dn : dentry C) (objs : Z -> cinode)
  : res (dentry C * (Z -> cinode) * list dn_effect) :=
  match primary_ino dn with
  | None => Ok (dn, objs, [])
  | Some h =>
      let i := objs h in
      check (ci_auth i) ;;
      if st_version (ci_store i) <=? cv then
        if in_dirty (ci_info i) then
          let '(x, dn) := in_mark_clean (ci_info i) dn in
          Ok (dn, upd_obj h (set_ci_info x i) objs, [MarkInodeClean h])
        else Ok (dn, objs, [])
      else
        check (in_dirty (ci_info i) || (ci_last i <? CEPH_NOSNAP)) ;; Ok (dn, objs, [])
  end.

(** the body of the loop over the dentries *)
Definition committed_dentry (stray : bool) (cv : Z) (k : dentry_key_t) (dn : dentry C)
    (objs : Z -> cinode) (x : dirfrag C) : res (dirfrag C * (Z -> cinode) * list dn_effect) :=
  '(dn, objs, es) ← committed_inode cv k dn objs;
  if (dn_version dn <=? cv) && is_dirty (dn_obj dn) then
    let dn := dn_mark_clean dn in
    let x := upd_dentry k dn x in
    if stray && (get_num_ref (dn_obj dn) (-1) =? 0) && negb (dn_projected dn) && is_null dn then
      '(x, es') ← remove_dentry (infos objs) k x;
      Ok (x, objs, es ++ MarkDentryClean k :: es')
    else Ok (x, objs, es ++ [MarkDentryClean k])
  else Ok (upd_dentry k dn x, objs, es).

Fixpoint committed_walk (stray : bool) (cv : Z) (ks : list dentry_key_t) (objs : Z -> cinode)
    (x : dirfrag C) : res (dirfrag C * (Z -> cinode) * list dn_effect) :=
  match ks with
  | [] => Ok (x, objs, [])
  | k :: ks =>
      match df_items x !! k with
      | None => Abort
      | Some dn =>
          '(x, objs, es) ← committed_dentry stray cv k dn objs x;
          '(x, objs, es') ← committed_walk stray cv ks objs x;
          Ok (x, objs, es ++ es')
      end
  end.

(** the loop over the waiters: those woken, those left, and the version to commit next *)
Fixpoint kick_waiters (cv : Z) (l : list (Z * list C)) (w : gmap Z (list C))
  : list (list C) * gmap Z (list C) * option Z :=
  match l with
  | [] => ([], w, None)
  | (v, cs) :: l =>
      if cv <? v then ([], w, Some v)
      else
        let '(ls, w, next) := kick_waiters cv l (delete v w) in
        (cs :: ls, w, next)
  end.

(** the marks of [_committed] on the fragment itself, before the loop over the dentries *)
Definition note_committed (v : Z) (d : cdir) : res (cdir * list cm_effect) :=
  check (committed_version d <? v) ;;
  check (v <=? committing_version d) ;;
  let d := set_commits (committing_version d) v d in
  let d := if committing_version d =? committed_version d
           then set_cd_obj (state_clear STATE_COMMITTING (cd_obj d)) d else d in
  let d := set_lists (item_dirty d) None d in
  if committed_version d =? get_version d then
    '(d, es) ← cd_mark_clean d; Ok (d, map Cd es)
  else Ok (d, []).

Definition _committed (r v : Z) (e : fenv) (ie : ienv) (objs : Z -> cinode) (d : cdir)
  : res (cdir * (Z -> cinode) * list cm_effect) :=
  if r <? 0 then Ok (d, objs, [ClogError r; HandleWriteError r])
  else
    check (cd_is_auth d) ;;
    '(d, es1) ← note_committed v d;
    '(x, objs, es2) ← committed_walk (ie_stray ie) (committed_version d) (item_keys (cd_dir d)) objs (cd_dir d);
    let d := set_cd_dir x d in
    let were_waiters := negb (bool_decide (waiting_for_commit d = ∅)) in
    let '(ls, w, next) := kick_waiters (committed_version d) (ordered (waiting_for_commit d)) (waiting_for_commit d) in
    let woken := map (fun l => Cd (Fz (QueueWaiters l))) ls in
    '(d, objs, es3) ← (match next with
                       | Some want => _commit want (-1) ie objs (set_commit_waiters w d)
                       | None => Ok (set_commit_waiters w d, objs, [])
                       end);
    let es4 := if (ie_nlink ie =? 0) && ie_snaprealm ie then [MaybeEvalStray] else [] in
    '(d, es5) ← (if were_waiters && bool_decide (waiting_for_commit d = ∅) then cd_auth_unpin e d else Ok (d, []));
    Ok (d, objs, es1 ++ map DnEff es2 ++ woken ++ es3 ++ es4 ++ map Cd es5).

End Commit.

(** ** What a commit writes *)

(** The object of a fragment, in its omap form. *)
Record object := mk_object { ob_header : bytes; ob_omap : gmap cstring bytes }.

Definition apply_omap (set : gmap cstring bytes) (rm : gset cstring) (m : gmap cstring bytes) : gmap cstring bytes :=
  filter (fun p => fst p ∉ rm) (set ∪ m).

(** A mutation that has to find the object does nothing when there is none. *)
Definition apply_mutation (o : option object) (m : mutation) : option object :=
  match o with
  | None => if mu_stat m then None
            else Some (mk_object (default [] (mu_header m)) (apply_omap (mu_set m) (mu_rm m) ∅))
  | Some o => Some (mk_object (default (ob_header o) (mu_header m)) (apply_omap (mu_set m) (mu_rm m) (ob_omap o)))
  end.

Definition on_disk (o : option object) (key : cstring) : option bytes := o ≫= fun o => ob_omap o !! key.

Section Writes.
Context {C S T : Type} `{CephConst} `{CDentryOps C} `{Bloom} `{StoreOps S} `{Codec S T} `{CommitConst C}.
Implicit Types d : cdir C T.
Implicit Types dn : dentry C.
Implicit Types objs : Z -> cinode S.
Implicit Types s : cstate (C := C) (S := S) (T := T).

Fixpoint mutations (es : list (cm_effect C)) : list mutation :=
  match es with
  | [] => []
  | Mutate m :: es => m :: mutations es
  | _ :: es => mutations es
  end.

Lemma mutations_app es es' : mutations (es ++ es') = mutations es ++ mutations es'.
Proof. induction es as [|[] es IH]; simpl; by rewrite ?IH. Qed.

Lemma mutations_dn es : mutations (map DnEff es) = [].
Proof. by induction es. Qed.

(** The stored form of an inode at this commit. *)
Definition store_now (snaps : option (gset Z)) (i : cinode S) : S :=
  match snaps with
  | Some sn => if is_multiversion (ci_store i) && negb (in_snaprealm (ci_info i))
               then st_purge_stale sn (ci_store i) else ci_store i
  | None => ci_store i
  end.

Definition dentry_bytes (snaps : option (gset Z)) objs dn : bytes :=
  enc_snapid (dn_first dn) ++
  match dn_linkage dn with
  | LRemote ino d_type _ => "L"%char :: enc_ino ino ++ enc_u8 d_type
  | LPrimary h => "I"%char :: enc_store (store_now snaps (objs h))
  | LNull => []
  end.

Definition trims (snaps : option (gset Z)) objs dn : bool :=
  match snaps with Some sn => negb (is_head dn) && trimmable (infos objs) sn dn | None => false end.

(** What the commit does with the key of a dentry: nothing, remove it, or set it. *)
Definition planned (snaps : option (gset Z)) objs dn : option (option bytes) :=
  if trims snaps objs dn then Some None
  else if skipped dn then None
  else if is_null dn then Some None
  else Some (Some (dentry_bytes snaps objs dn)).

Lemma lookup_apply_omap set rm m key :
  apply_omap set rm m !! key =
    if decide (key ∈ rm) then None else match set !! key with Some v => Some v | None => m !! key end.
Proof.
  unfold apply_omap. destruct (decide (key ∈ rm)) as [Hi|Hi].
  - apply map_lookup_filter_None. right. intros v _. simpl. tauto.
  - destruct ((set ∪ m) !! key) as [v|] eqn:E.
    + rewrite (proj2 (map_lookup_filter_Some _ _ _ _)) by done. rewrite lookup_union in E.
      destruct (set !! key), (m !! key); by simplify_eq.
    + rewrite (proj2 (map_lookup_filter_None _ _ _)) by (by left). rewrite lookup_union in E.
      destruct (set !! key), (m !! key); by simplify_eq.
Qed.

(** The plan of a commit: what is to become of a key. *)
Definition plans (snaps : option (gset Z)) objs d (key : cstring) (a : option bytes) : Prop :=
  exists k dn, df_items (cd_dir d) !! k = Some dn /\ key = dentry_key_encode k /\
    planned snaps objs dn = Some a.

(** A set of writes, all of them planned. *)
Definition sound (P : cstring -> option bytes -> Prop) (w : gmap cstring bytes * gset cstring) : Prop :=
  (forall key, key ∈ snd w -> P key None) /\ (forall key bl, fst w !! key = Some bl -> P key (Some bl)).

Definition has_write (w : gmap cstring bytes * gset cstring) (key : cstring) (a : option bytes) : Prop :=
  match a with None => key ∈ snd w | Some bl => fst w !! key = Some bl end.

Definition mu_writes (m : mutation) : gmap cstring bytes * gset cstring := (mu_set m, mu_rm m).
Definition batch_writes (b : batch) : gmap cstring bytes * gset cstring := (to_set b, to_remove b).

Definition op_stat d : bool := negb (is_new d) && negb (cd_test d STATE_FRAGMENTING).

Definition pieces s : list (gmap cstring bytes * gset cstring) :=
  map mu_writes (mutations (cs_eff s)) ++ [batch_writes (cs_batch s)].

(** After the dentries [done]. *)
Record loop_inv (snaps : option (gset Z)) objs d (done : list dentry_key_t) s : Prop := {
  li_items : forall k, k ∉ done -> df_items (cd_dir (cs_dir s)) !! k = df_items (cd_dir d) !! k;
  li_objs : forall k dn h, k ∉ done -> df_items (cd_dir d) !! k = Some dn -> primary_ino dn = Some h ->
    cs_objs s h = objs h;
  li_infos : forall h, ci_info (cs_objs s h) = ci_info (objs h);
  li_fnode : fnode (cs_dir s) = fnode d;
  li_stat : op_stat (cs_dir s) = op_stat d;
  li_headers : Forall (fun m => mu_header m = None /\ mu_stat m = op_stat d) (mutations (cs_eff s));
  li_sound : Forall (sound (plans snaps objs d)) (pieces s);
  li_complete : forall k dn a, k ∈ done -> df_items (cd_dir d) !! k = Some dn ->
    planned snaps objs dn = Some a -> Exists (fun w => has_write w (dentry_key_encode k) a) (pieces s)
}.

Lemma infos_trimmable objs objs' sn dn :
  (forall h, ci_info (objs' h) = ci_info (objs h)) -> trimmable (infos objs') sn dn = trimmable (infos objs) sn dn.
Proof. intros E. unfold trimmable, infos. destruct (primary_ino dn); by rewrite ?E. Qed.

(** What the removal of a dentry leaves alone. *)
Lemma remove_dentry_frame inodes k (x x' : dirfrag C) es :
  remove_dentry inodes k x = Ok (x', es) ->
  df_items x' = delete k (df_items x) /\ co_state (df_obj x') = co_state (df_obj x) /\
  df_projected_version x' = df_projected_version x /\ waiting_on_dentry x' = waiting_on_dentry x.
Proof.
  unfold remove_dentry. destruct (df_items x !! k) as [dn|]; [|done]. intros E.
  apply bind_ok in E as (? & _ & E). apply bind_ok in E as ([dn1 es1] & _ & E). cbv zeta in E.
  apply bind_ok in E as ([dn2 es2] & _ & E). apply bind_ok in E as ([x1 es3] & E3 & E).
  apply bind_ok in E as (? & _ & E). injection E as <- _.
  destruct (get_num_any _ =? 0); [|by injection E3 as <- _].
  unfold dir_put in E3. apply bind_ok in E3 as ([o hs] & E3 & E). injection E as <- _.
  cbn. split; [done|]. split; [|done]. unfold put in E3. destruct (_ || _).
  - unfold bad_put in E3. apply bind_ok in E3 as (? & _ & E3). apply bind_ok in E3 as (? & _ & E3).
    by injection E3 as <- _.
  - apply bind_ok in E3 as (? & _ & E3). by injection E3 as <- _.
Qed.

Lemma trim_frame inodes sn k (x x' : dirfrag C) es b :
  try_trim_snap_dentry inodes sn k x = Ok (x', es, b) ->
  exists dn, df_items x !! k = Some dn /\ is_head dn = false /\ b = trimmable inodes sn dn /\
    (b = true -> df_items x' = delete k (df_items x) /\ co_state (df_obj x') = co_state (df_obj x)).
Proof.
  unfold try_trim_snap_dentry. destruct (df_items x !! k) as [dn|]; [|done]. intros E. exists dn.
  apply bind_ok in E as (? & Eh & E). apply assert_ok, negb_true_iff in Eh. split; [done|]. split; [done|].
  destruct (trimmable inodes sn dn) eqn:Et; [|by injection E as <- _ <-].
  destruct (clean_inode inodes dn) as [[i' dn'] es0].
  apply bind_ok in E as ([x1 es1] & E1 & E). injection E as <- _ <-. split; [done|]. intros _.
  unfold purge_dentry in E1. apply bind_ok in E1 as ([x2 es2] & E2 & E1). injection E1 as <- _.
  destruct (remove_dentry_frame _ _ _ _ _ E2) as (Ei & Es & _). rewrite Ei, Es. cbn. by rewrite delete_insert_eq.
Qed.

Lemma sound_rm P key b : sound P (batch_writes b) -> P key None -> sound P (batch_writes (batch_rm key b)).
Proof. intros [Hr Hw] HP. split; simpl; [|done]. intros key0 Hk. rewrite elem_of_union, elem_of_singleton in Hk. destruct Hk as [->|]; [done|by apply Hr]. Qed.

Lemma sound_set P key bl b :
  sound P (batch_writes b) -> P key (Some bl) -> sound P (batch_writes (batch_set key bl b)).
Proof.
  intros [Hr Hw] HP. split; simpl; [done|]. intros key' bl'. destruct (decide (key' = key)) as [->|N].
  - rewrite lookup_insert_eq. by intros [= <-].
  - rewrite lookup_insert_ne by done. apply Hw.
Qed.

Lemma sound_new P : sound P (batch_writes batch_new).
Proof. split; simpl; [set_solver|]. intros key bl. by rewrite lookup_empty. Qed.

Lemma write_rm_mono key key' a b : has_write (batch_writes b) key' a -> has_write (batch_writes (batch_rm key b)) key' a.
Proof. destruct a; simpl; [done|set_solver]. Qed.

Lemma write_set_mono key bl key' a b :
  key' <> key -> has_write (batch_writes b) key' a -> has_write (batch_writes (batch_set key bl b)) key' a.
Proof. intros N. destruct a; simpl; [by rewrite lookup_insert_ne|done]. Qed.

(** The state after more writes to the batch. *)
Lemma pieces_batch s s' :
  cs_eff s' = cs_eff s ->
  pieces s' = map mu_writes (mutations (cs_eff s)) ++ [batch_writes (cs_batch s')].
Proof. intros E. unfold pieces. by rewrite E. Qed.

Lemma pieces_flush prio s : exists l, pieces (commit_flush prio s) = pieces s ++ l /\
  Forall (fun w => w = batch_writes batch_new) l.
Proof.
  unfold commit_flush. destruct (_ <=? _).
  - exists [batch_writes batch_new]. split; [|by repeat constructor].
    unfold pieces. simpl. by rewrite mutations_app, map_app, <- !app_assoc.
  - exists []. by rewrite app_nil_r.
Qed.

Lemma loop_inv_flush snaps objs d done prio s :
  loop_inv snaps objs d done s -> loop_inv snaps objs d done (commit_flush prio s).
Proof.
  intros [I1 I2 I3 I4 I5 I6 I7 I8]. destruct (pieces_flush prio s) as (l & El & Hl).
  assert (cs_dir (commit_flush prio s) = cs_dir s /\ cs_objs (commit_flush prio s) = cs_objs s) as [Ed Eo]
    by (unfold commit_flush; by destruct (_ <=? _)).
  split; rewrite ?Ed, ?Eo, ?El; try done.
  - unfold commit_flush. destruct (_ <=? _); [|done]. simpl. rewrite mutations_app. apply Forall_app. split; [done|].
    repeat constructor. exact I5.
  - apply Forall_app. split; [done|]. eapply Forall_impl; [exact Hl|]. intros w ->. apply sound_new.
  - intros k dn a Hk Hd Hp. apply Exists_app. left. by apply (I8 k dn).
Qed.

Definition keys_u64 d : Prop := forall k dn, df_items (cd_dir d) !! k = Some dn -> in_u64 (dk_snapid k).

(** No inode is the primary inode of two dentries. *)
Definition one_primary d : Prop :=
  forall k1 k2 dn1 dn2 h, df_items (cd_dir d) !! k1 = Some dn1 -> df_items (cd_dir d) !! k2 = Some dn2 ->
    primary_ino dn1 = Some h -> primary_ino dn2 = Some h -> k1 = k2.

Lemma encode_inj k1 k2 :
  in_u64 (dk_snapid k1) -> in_u64 (dk_snapid k2) -> dentry_key_encode k1 = dentry_key_encode k2 -> k1 = k2.
Proof.
  destruct k1 as [s1 n1], k2 as [s2 n2]. simpl. intros U1 U2 E.
  pose proof (dentry_key_decode_encode n1 s1 U1) as E1. pose proof (dentry_key_decode_encode n2 s2 U2) as E2.
  rewrite E in E1. rewrite E1 in E2. by injection E2 as -> ->.
Qed.

(** A dentry the commit leaves alone. *)
Lemma loop_inv_skip snaps objs d done s k dn :
  loop_inv snaps objs d done s -> df_items (cd_dir d) !! k = Some dn -> planned snaps objs dn = None ->
  loop_inv snaps objs d (k :: done) s.
Proof.
  intros [I1 I2 I3 I4 I5 I6 I7 I8] Hk Hp. split; try done.
  - intros k' Hn. apply I1. set_solver.
  - intros k' dn' h Hn. apply (I2 k' dn' h). set_solver.
  - intros k' dn' a Hin Hk' Hp'. apply elem_of_cons in Hin as [->|Hin]; [|by apply (I8 k' dn')].
    rewrite Hk in Hk'. injection Hk' as <-. by rewrite Hp in Hp'.
Qed.

(** A dentry that is written: the new batch keeps the old writes, has the new one, and the
    fragment changes at this dentry only. *)
Lemma loop_inv_write snaps objs d done s s' k dn a :
  loop_inv snaps objs d done s -> df_items (cd_dir d) !! k = Some dn -> planned snaps objs dn = Some a ->
  keys_u64 d ->
  (forall k', k' <> k -> df_items (cd_dir (cs_dir s')) !! k' = df_items (cd_dir (cs_dir s)) !! k') ->
  (forall h, primary_ino dn <> Some h -> cs_objs s' h = cs_objs s h) ->
  (forall h, ci_info (cs_objs s' h) = ci_info (cs_objs s h)) ->
  fnode (cs_dir s') = fnode (cs_dir s) -> op_stat (cs_dir s') = op_stat (cs_dir s) ->
  mutations (cs_eff s') = mutations (cs_eff s) ->
  (sound (plans snaps objs d) (batch_writes (cs_batch s)) -> plans snaps objs d (dentry_key_encode k) a ->
   sound (plans snaps objs d) (batch_writes (cs_batch s'))) ->
  has_write (batch_writes (cs_batch s')) (dentry_key_encode k) a ->
  (forall key b, key <> dentry_key_encode k -> has_write (batch_writes (cs_batch s)) key b ->
   has_write (batch_writes (cs_batch s')) key b) ->
  one_primary d -> k ∉ done ->
  loop_inv snaps objs d (k :: done) s'.
Proof.
  intros [I1 I2 I3 I4 I5 I6 I7 I8] Hk Hp U Fi Fo Ff Fn Fs Fm Hs Hw Hmono Hone Hnd.
  assert (pieces s' = map mu_writes (mutations (cs_eff s)) ++ [batch_writes (cs_batch s')]) as Ep
    by (unfold pieces; by rewrite Fm).
  assert (plans snaps objs d (dentry_key_encode k) a) as HP by (exists k, dn; done).
  split; rewrite ?Fn, ?Fs, ?Fm, ?Ep; try done.
  - intros k' Hn. rewrite Fi by set_solver. apply I1. set_solver.
  - intros k' dn' h Hn Hk' Hh. rewrite Fo; [apply (I2 k' dn' h); [set_solver|done..]|].
    intros Hh'. pose proof (Hone k k' dn dn' h Hk Hk' Hh' Hh). set_solver.
  - intros h. by rewrite Ff.
  - unfold pieces in I7. apply Forall_app in I7 as [I7 I7']. apply Forall_app. split; [done|].
    constructor; [|done]. apply Hs; [by apply Forall_inv in I7'|done].
  - intros k' dn' b Hin Hk' Hp'. apply elem_of_cons in Hin as [->|Hin].
    + rewrite Hk in Hk'. injection Hk' as <-. rewrite Hp in Hp'. injection Hp' as <-.
      apply Exists_app. right. by constructor.
    + pose proof (I8 k' dn' b Hin Hk' Hp') as E8. unfold pieces in E8. apply Exists_app in E8.
      apply Exists_app. destruct E8 as [E8|E8]; [by left|right]. apply Exists_cons in E8 as [E8|E8]; [|by apply Exists_nil in E8].
      apply Exists_cons. left. apply Hmono; [|done]. intros E.
      apply encode_inj in E; [subst k'; done|by eapply U|by eapply U].
Qed.

Lemma set_cd_dir_stat x d : co_state (df_obj x) = co_state (cd_obj d) -> op_stat (set_cd_dir x d) = op_stat d.
Proof. intros E. unfold op_stat, is_new, cd_test, state_test. change (cd_obj (set_cd_dir x d)) with (df_obj x). by rewrite E. Qed.

Lemma commit_trim_inv snaps objs d done s s' k dn b :
  loop_inv snaps objs d done s -> df_items (cd_dir d) !! k = Some dn -> k ∉ done ->
  keys_u64 d -> one_primary d -> commit_trim snaps k dn s = Ok (s', b) ->
  b = trims snaps objs dn /\ (b = false -> s' = s) /\ (b = true -> loop_inv snaps objs d (k :: done) s').
Proof.
  intros I Hk Hnd U One E. unfold commit_trim in E. unfold trims. destruct snaps as [sn|]; [|by injection E as <- <-].
  destruct (is_head dn) eqn:Eh; [by injection E as <- <-|].
  apply bind_ok in E as ([[x es] t] & E1 & E).
  destruct (trim_frame _ _ _ _ _ _ _ E1) as (dn' & Hk' & _ & Et & Hx).
  rewrite (li_items _ _ _ _ _ I k Hnd), Hk in Hk'. injection Hk' as <-.
  rewrite (infos_trimmable objs) in Et by apply (li_infos _ _ _ _ _ I). cbn [negb andb].
  destruct t; [|by injection E as <- <-]. injection E as <- <-. destruct (Hx eq_refl) as [Ei Es].
  split; [done|]. split; [done|]. intros _.
  apply (loop_inv_write (Some sn) objs d done s _ k dn None); try done.
  - unfold planned, trims. by rewrite Eh, <- Et.
  - intros k' N. cbn. by rewrite Ei, lookup_delete_ne.
  - apply set_cd_dir_stat. by rewrite Es.
  - cbn. by rewrite mutations_app, mutations_dn, app_nil_r.
  - apply sound_rm.
  - cbn. set_solver.
  - intros key a _. apply write_rm_mono.
Qed.

(** How the encoder sees an inode. *)
Lemma encode_dentry_ok snaps dn objs :
  is_null dn = false -> exists objs',
    _encode_dentry snaps dn objs = Ok (set_new false dn, objs', dentry_bytes snaps objs dn) /\
    (forall h, primary_ino dn <> Some h -> objs' h = objs h) /\
    (forall h, ci_info (objs' h) = ci_info (objs h)).
Proof.
  intros Hn. unfold _encode_dentry, dentry_bytes, primary_ino, is_null in *. cbn [dn_linkage set_new dn_first].
  destruct (dn_linkage dn) as [|h|ino dt i]; [done| |eexists; by split_and!].
  eexists. split_and!.
  - do 2 f_equal. f_equal. unfold store_now. destruct snaps; [|done]. by destruct (_ && _).
  - intros h' Hh. unfold upd_obj. destruct (Z.eqb_spec h' h); [by subst|done].
  - intros h'. unfold upd_obj. destruct (Z.eqb_spec h' h) as [->|]; [|done].
    destruct snaps; [|done]. by destruct (_ && _).
Qed.

Lemma dentry_bytes_ext snaps objs objs' dn :
  (forall h, primary_ino dn = Some h -> objs' h = objs h) -> dentry_bytes snaps objs' dn = dentry_bytes snaps objs dn.
Proof. unfold dentry_bytes, primary_ino. destruct (dn_linkage dn); intros E; [done|by rewrite E|done]. Qed.

Lemma commit_add_inv snaps objs d done s k dn :
  loop_inv snaps objs d done s -> df_items (cd_dir d) !! k = Some dn -> k ∉ done ->
  keys_u64 d -> one_primary d -> trims snaps objs dn = false -> skipped dn = false ->
  exists s', commit_add snaps k dn s = Ok s' /\ loop_inv snaps objs d (k :: done) s'.
Proof.
  intros I Hk Hnd U One Ht Hs. unfold commit_add.
  destruct (is_null dn) eqn:En.
  - eexists. split; [done|]. apply (loop_inv_write snaps objs d done s _ k dn None); try done.
    + unfold planned. by rewrite Ht, Hs, En.
    + apply sound_rm.
    + cbn. set_solver.
    + intros key a _. apply write_rm_mono.
  - destruct (encode_dentry_ok snaps dn (cs_objs s) En) as (objs' & -> & Ho & Hi). cbn [mbind res_bind].
    rewrite (dentry_bytes_ext snaps objs) by (intros h; by apply (li_objs _ _ _ _ _ I k)).
    eexists. split; [done|].
    apply (loop_inv_write snaps objs d done s _ k dn (Some (dentry_bytes snaps objs dn))); try done.
    + unfold planned. by rewrite Ht, Hs, En.
    + intros k' N. cbn. by rewrite lookup_insert_ne.
    + apply sound_set.
    + cbn. by rewrite lookup_insert_eq.
    + intros key a N. by apply write_set_mono.
Qed.

Lemma commit_dentry_inv prio snaps objs d done s s' k :
  loop_inv snaps objs d done s -> k ∉ done -> keys_u64 d -> one_primary d ->
  commit_dentry prio snaps k s = Ok s' -> loop_inv snaps objs d (k :: done) s'.
Proof.
  intros I Hnd U One E. unfold commit_dentry in E. rewrite (li_items _ _ _ _ _ I k Hnd) in E.
  destruct (df_items (cd_dir d) !! k) as [dn|] eqn:Hk; [|done].
  apply bind_ok in E as ([s1 t] & E1 & E).
  destruct (commit_trim_inv _ _ _ _ _ _ _ _ _ I Hk Hnd U One E1) as (-> & Hf & Ht).
  destruct (trims snaps objs dn) eqn:Et; [injection E as <-; by apply Ht|]. rewrite (Hf eq_refl) in E.
  cbn [orb] in E. destruct (skipped dn) eqn:Es.
  - injection E as <-. apply (loop_inv_skip _ _ _ _ _ _ dn); [done..|]. unfold planned. by rewrite Et, Es.
  - destruct (commit_add_inv snaps objs d done s k dn) as (s2 & E2 & I2); [done..|].
    rewrite E2 in E. cbn in E. injection E as <-. by apply loop_inv_flush.
Qed.

(** Without snapshots to purge nothing can go wrong. *)
Lemma commit_dentry_total prio objs d done s k :
  loop_inv None objs d done s -> k ∉ done -> keys_u64 d -> one_primary d ->
  is_Some (df_items (cd_dir d) !! k) -> exists s', commit_dentry prio None k s = Ok s'.
Proof.
  intros I Hnd U One [dn Hk]. unfold commit_dentry. rewrite (li_items _ _ _ _ _ I k Hnd), Hk.
  cbn [commit_trim mbind res_bind orb]. destruct (skipped dn) eqn:Es; [by eexists|].
  destruct (commit_add_inv None objs d done s k dn) as (s2 & E2 & I2); [done..|]. rewrite E2. by eexists.
Qed.

Lemma commit_loop_inv prio snaps objs d ks done s s' :
  loop_inv snaps objs d done s -> NoDup ks -> (forall k, k ∈ ks -> k ∉ done) -> keys_u64 d -> one_primary d ->
  commit_loop prio snaps ks s = Ok s' ->
  exists done', loop_inv snaps objs d done' s' /\ forall k, k ∈ ks \/ k ∈ done -> k ∈ done'.
Proof.
  revert done s. induction ks as [|k ks IH]; intros done s I ND Hd U One E.
  { injection E as <-. exists done. split; [done|]. intros k [Hk|]; [by apply not_elem_of_nil in Hk|done]. }
  apply NoDup_cons in ND as [Hk ND]. apply bind_ok in E as (s1 & E1 & E).
  pose proof (commit_dentry_inv _ _ _ _ _ _ _ _ I (Hd k ltac:(set_solver)) U One E1) as I1.
  destruct (IH (k :: done) s1 I1 ND) as (done' & I' & Hin); [set_solver|done..|].
  exists done'. split; [done|]. set_solver.
Qed.

Lemma commit_loop_total prio objs d ks done s :
  loop_inv None objs d done s -> NoDup ks -> (forall k, k ∈ ks -> k ∉ done) -> keys_u64 d -> one_primary d ->
  (forall k, k ∈ ks -> is_Some (df_items (cd_dir d) !! k)) -> exists s', commit_loop prio None ks s = Ok s'.
Proof.
  revert done s. induction ks as [|k ks IH]; intros done s I ND Hd U One Hi; [by eexists|].
  apply NoDup_cons in ND as [Hk ND].
  destruct (commit_dentry_total prio objs d done s k) as (s1 & E1); [done|set_solver|done|done|set_solver|].
  pose proof (commit_dentry_inv _ _ _ _ _ _ _ _ I (Hd k ltac:(set_solver)) U One E1) as I1.
  cbn [commit_loop]. rewrite E1. cbn [mbind res_bind]. apply (IH (k :: done)); [done|done|set_solver|done|done|set_solver].
Qed.

Lemma loop_inv_start snaps objs d : loop_inv snaps objs d [] (mk_cstate d objs batch_new []).
Proof.
  split; try done.
  - cbn. constructor; [apply sound_new|constructor].
  - intros k dn a Hk. by apply not_elem_of_nil in Hk.
Qed.

(** All the writes of a commit: what [_omap_commit] returns, and its mutations. *)
Lemma omap_commit_plan prio ie objs d d' objs' es :
  keys_u64 d -> one_primary d -> _omap_commit prio ie objs d = Ok (d', objs', es) ->
  let snaps := purge_snaps ie (fnode d) in
  exists ms m, mutations es = ms ++ [m] /\ Forall (fun m => mu_header m = None) ms /\
    mu_header m = Some (enc_fnode (fnode d)) /\ Forall (fun m => mu_stat m = op_stat d) (ms ++ [m]) /\
    Forall (fun m => sound (plans snaps objs d) (mu_writes m)) (ms ++ [m]) /\
    forall key a, plans snaps objs d key a -> Exists (fun m => has_write (mu_writes m) key a) (ms ++ [m]).
Proof.
  intros U One E. unfold _omap_commit in E. apply bind_ok in E as (s & E1 & E). injection E as <- <- <-.
  destruct (commit_loop_inv _ _ objs d _ [] _ _ (loop_inv_start _ objs d) (ordered_nodup _)
    (fun k _ => not_elem_of_nil k) U One E1) as (done' & [I1 I2 I3 I4 I5 I6 I7 I8] & Hd).
  set (snaps := purge_snaps ie (fnode d)) in *. cbv zeta.
  set (m := op_start _ _ _ _). exists (mutations (cs_eff s)), m.
  assert (map mu_writes (mutations (cs_eff s) ++ [m]) = pieces s) as Ep by (unfold pieces; by rewrite map_app).
  split_and!.
  - by rewrite mutations_app.
  - eapply Forall_impl; [exact I6|]. by intros ? [].
  - cbn. by rewrite I4.
  - apply Forall_app. split; [eapply Forall_impl; [exact I6|]; by intros ? []|]. by repeat constructor.
  - rewrite <- Ep in I7. exact (proj1 (Forall_fmap mu_writes _ _) I7).
  - intros key a (k & dn & Hk & -> & Hp). pose proof (I8 k dn a) as HE. rewrite <- Ep in HE.
    apply (Exists_fmap mu_writes (fun w => has_write w (dentry_key_encode k) a)), HE; [|done|done].
    apply Hd. left. apply elem_of_ordered_keys. by rewrite Hk.
Qed.

Lemma omap_commit_total prio ie objs d :
  keys_u64 d -> one_primary d -> purge_snaps ie (fnode d) = None ->
  exists d' objs' es, _omap_commit prio ie objs d = Ok (d', objs', es).
Proof.
  intros U One Ep. unfold _omap_commit. rewrite Ep. cbv zeta.
  destruct (commit_loop_total (if prio <? 0 then CEPH_MSG_PRIO_DEFAULT else prio) objs d (item_keys (cd_dir d)) []
    (mk_cstate d objs batch_new []) (loop_inv_start None objs d) (ordered_nodup _)
    (fun k _ => not_elem_of_nil k) U One) as (s & ->); [|by eexists _, _, _].
  intros k Hk. by apply elem_of_ordered_keys in Hk.
Qed.

(** ** The object while the writes are applied *)

Definition writable (o : option object) (b : bool) : Prop := is_Some o \/ b = false.

Lemma apply_on_disk o m key :
  writable o (mu_stat m) ->
  is_Some (apply_mutation o m) /\
  on_disk (apply_mutation o m) key =
    if decide (key ∈ mu_rm m) then None
    else match mu_set m !! key with Some v => Some v | None => on_disk o key end.
Proof.
  intros Hw. unfold apply_mutation. destruct o as [o|]; [by split; [|apply lookup_apply_omap]|].
  destruct Hw as [[? ?]| ->]; [done|]. split; [done|]. cbn. by rewrite lookup_apply_omap.
Qed.

Lemma plans_fun snaps objs d key a b :
  keys_u64 d -> plans snaps objs d key a -> plans snaps objs d key b -> a = b.
Proof.
  intros U (k & dn & Hk & -> & Hp) (k' & dn' & Hk' & E & Hp').
  apply encode_inj in E; [|by eapply U|by eapply U]. subst k'. congruence.
Qed.

(** Planned writes leave a key as it was or as planned, and as planned once it is written. *)
Lemma apply_planned (P : cstring -> option bytes -> Prop) o ms key :
  (forall a b, P key a -> P key b -> a = b) ->
  Forall (fun m => sound P (mu_writes m)) ms -> Forall (fun m => writable o (mu_stat m)) ms ->
  (on_disk (fold_left apply_mutation ms o) key = on_disk o key \/
   exists a, P key a /\ on_disk (fold_left apply_mutation ms o) key = a) /\
  (forall a, P key a -> Exists (fun m => has_write (mu_writes m) key a) ms ->
     on_disk (fold_left apply_mutation ms o) key = a).
Proof.
  intros HF Hs Hw. revert o Hw. induction Hs as [|m ms [Hr Hset] Hs IH]; intros o Hw.
  { split; [by left|]. intros a _ HE. by apply Exists_nil in HE. }
  apply Forall_cons in Hw as [Hw Hw']. destruct (apply_on_disk o m key Hw) as [Hso Hod]. cbn [fold_left].
  destruct (IH (apply_mutation o m)) as [IH1 IH2].
  { eapply Forall_impl; [exact Hw'|]. intros ? _. by left. }
  assert (forall a, has_write (mu_writes m) key a -> P key a -> on_disk (apply_mutation o m) key = a) as Hone.
  { intros a Ha HP. rewrite Hod. destruct a as [bl|]; cbn in Ha; [|by rewrite decide_True].
    rewrite decide_False, Ha; [done|]. intros Hin. by pose proof (HF _ _ HP (Hr key Hin)). }
  assert (on_disk (apply_mutation o m) key = on_disk o key \/
          exists a, P key a /\ on_disk (apply_mutation o m) key = a) as H1m.
  { rewrite Hod. destruct (decide (key ∈ mu_rm m)) as [Hin|_]; [right; exists None; split; [by apply Hr|done]|].
    destruct (mu_set m !! key) as [bl|] eqn:E; [right; exists (Some bl); split; [by apply Hset|done]|by left]. }
  split.
  - destruct IH1 as [->|]; [done|by right].
  - intros a HP HE. apply Exists_cons in HE as [HE|HE]; [|by apply IH2].
    destruct IH1 as [->|(a' & HP' & ->)]; [by apply Hone|by apply HF].
Qed.

Lemma header_kept o ms :
  Forall (fun m => mu_header m = None) ms -> is_Some o ->
  ob_header <$> fold_left apply_mutation ms o = ob_header <$> o.
Proof.
  intros Hm. revert o. induction Hm as [|m ms Hm Hms IH]; intros o [x ->]; [done|].
  cbn [fold_left]. rewrite IH by done. cbn. by rewrite Hm.
Qed.

Lemma never_created ms : Forall (fun m => mu_stat m = true) ms -> fold_left apply_mutation ms None = None.
Proof. induction 1 as [|m ms Hm Hms IH]; [done|]. cbn [fold_left apply_mutation]. by rewrite Hm. Qed.

(** C6: the batches of a commit are safe against a crash between any two of them.  After any
    number of them each key of the object has its old value or the one the dentries call for
    (a dirty or fragmenting dentry is set, a dirty null dentry and a purged snapshot dentry are
    removed, nothing else is touched), and the header is the old one; after all of them every
    key has its new value and the header is the new fnode.  A fragment that is not new and is
    not being fragmented never creates its object.  Without snapshots to purge the commit
    cannot fail. *)
Theorem omap_commit_crash_safe prio ie objs d :
  keys_u64 d -> one_primary d ->
  (purge_snaps ie (fnode d) = None -> is_ok (_omap_commit prio ie objs d) = true) /\
  forall d' objs' es o n, _omap_commit prio ie objs d = Ok (d', objs', es) ->
    let ms := mutations es in
    let P := plans (purge_snaps ie (fnode d)) objs d in
    let now := fold_left apply_mutation (take n ms) o in
    (o = None -> op_stat d = true -> now = None) /\
    (writable o (op_stat d) ->
       (forall key, on_disk now key = on_disk o key \/ exists a, P key a /\ on_disk now key = a) /\
       ((n < length ms)%nat -> is_Some o -> ob_header <$> now = ob_header <$> o) /\
       ((length ms <= n)%nat -> ob_header <$> now = Some (enc_fnode (fnode d)) /\
          forall key a, P key a -> on_disk now key = a)).
Proof.
  intros U One. split.
  - intros Ep. by destruct (omap_commit_total prio ie objs d U One Ep) as (? & ? & ? & ->).
  - intros d' objs' es o n E. cbv zeta.
    destruct (omap_commit_plan _ _ _ _ _ _ _ U One E) as (l & m & El & Hh & Hm & Hst & Hso & Hall).
    set (P := plans _ objs d) in *. rewrite El. clear El. set (now := fold_left _ _ o).
    assert (forall (Q : mutation -> Prop), Forall Q (l ++ [m]) -> Forall Q (take n (l ++ [m]))) as Htake
      by (intros Q HQ; by apply Forall_take).
    split.
    + intros -> Eop. apply never_created, Htake. eapply Forall_impl; [exact Hst|]. intros ? ->. done.
    + intros Hw. assert (Forall (fun m => writable o (mu_stat m)) (l ++ [m])) as Hwr
        by (eapply Forall_impl; [exact Hst|]; intros ? ->; done).
      assert (forall key a b, P key a -> P key b -> a = b) as HF by (intros key a b; by apply plans_fun).
      split; [|split].
      * intros key. apply (apply_planned P o _ key (HF key)); by apply Htake.
      * intros Hn Ho. apply header_kept; [|done]. rewrite length_app in Hn. simpl in Hn.
        rewrite take_app_le by lia. by apply Forall_take.
      * intros Hn. unfold now. rewrite take_ge by done. split.
        -- rewrite fold_left_app. cbn [fold_left]. apply Forall_app in Hwr as [Hwl Hwm].
           destruct (fold_left apply_mutation l o) as [x|] eqn:Ex.
           ++ cbn. by rewrite Hm.
           ++ assert (o = None) as ->.
              { destruct o as [x|]; [|done]. pose proof (header_kept (Some x) l Hh ltac:(by eexists)) as Hk.
                by rewrite Ex in Hk. }
              apply Forall_inv in Hwm. destruct Hwm as [[? ?]|Hs]; [done|]. cbn. by rewrite Hs, Hm.
        -- intros key a HP. apply (apply_planned P o _ key (HF key)); auto.
Qed.

End Writes.

(** ** A concrete store and codec *)

(** Numbers bit by bit, with an end mark. *)
Fixpoint enc_pos (p : positive) : bytes :=
  match p with xH => ["h"%char] | xO p => "0"%char :: enc_pos p | xI p => "1"%char :: enc_pos p end.
Fixpoint dec_pos (l : bytes) : option (positive * bytes) :=
  match l with
  | [] => None
  | c :: l =>
      if bool_decide (c = "h"%char) then Some (xH, l)
      else '(p, r) ← dec_pos l;
           if bool_decide (c = "0"%char) then Some (xO p, r) else Some (xI p, r)
  end.
Definition enc_Z (z : Z) : bytes :=
  match z with Z0 => ["z"%char] | Zpos p => "+"%char :: enc_pos p | Zneg p => "-"%char :: enc_pos p end.
Definition dec_Z (l : bytes) : option (Z * bytes) :=
  match l with
  | [] => None
  | c :: l =>
      if bool_decide (c = "z"%char) then Some (0, l)
      else '(p, r) ← dec_pos l; Some (if bool_decide (c = "+"%char) then Zpos p else Zneg p, r)
  end.

Lemma dec_enc_pos p r : dec_pos (enc_pos p ++ r) = Some (p, r).
Proof. induction p as [p IH|p IH|]; simpl; [by rewrite IH..|done]. Qed.
Lemma dec_enc_Z z r : dec_Z (enc_Z z ++ r) = Some (z, r).
Proof. destruct z as [|p|p]; simpl; [done|by rewrite dec_enc_pos..]. Qed.

Definition enc_frag (f : frag_info_t Z) : bytes :=
  enc_Z (fi_version f) ++ enc_Z (fi_mtime f) ++ enc_Z (fi_nfiles f) ++ enc_Z (fi_nsubdirs f).
Definition dec_frag (l : bytes) : option (frag_info_t Z * bytes) :=
  '(a, l) ← dec_Z l; '(b, l) ← dec_Z l; '(c, l) ← dec_Z l; '(d, l) ← dec_Z l;
  Some (mk_frag_info a b c d, l).
Definition enc_nest (n : nest_info_t Z) : bytes :=
  enc_Z (ni_version n) ++ enc_Z (ni_rctime n) ++ enc_Z (ni_rbytes n) ++ enc_Z (ni_rfiles n) ++
  enc_Z (ni_rsubdirs n) ++ enc_Z (ni_rsnaprealms n).
Definition dec_nest (l : bytes) : option (nest_info_t Z * bytes) :=
  '(a, l) ← dec_Z l; '(b, l) ← dec_Z l; '(c, l) ← dec_Z l; '(d, l) ← dec_Z l;
  '(e, l) ← dec_Z l; '(f, l) ← dec_Z l; Some (mk_nest_info a b c d e f, l).

Lemma dec_enc_frag f r : dec_frag (enc_frag f ++ r) = Some (f, r).
Proof.
  destruct f as [a b c d].
  change (enc_frag _) with (enc_Z a ++ enc_Z b ++ enc_Z c ++ enc_Z d). unfold dec_frag. rewrite <- !app_assoc.
  by repeat (rewrite dec_enc_Z; cbn [mbind option_bind]).
Qed.
Lemma dec_enc_nest n r : dec_nest (enc_nest n ++ r) = Some (n, r).
Proof.
  destruct n as [a b c d e f].
  change (enc_nest _) with (enc_Z a ++ enc_Z b ++ enc_Z c ++ enc_Z d ++ enc_Z e ++ enc_Z f).
  unfold dec_nest. rewrite <- !app_assoc.
  by repeat (rewrite dec_enc_Z; cbn [mbind option_bind]).
Qed.

Definition enc_fnode_Z (f : fnode_t Z) : bytes :=
  enc_Z (fn_version f) ++ enc_Z (fn_snap_purged_thru f) ++ enc_frag (fn_fragstat f) ++
  enc_frag (fn_accounted_fragstat f) ++ enc_nest (fn_rstat f) ++ enc_nest (fn_accounted_rstat f).
Definition dec_fnode_Z (l : bytes) : option (fnode_t Z * bytes) :=
  '(a, l) ← dec_Z l; '(b, l) ← dec_Z l; '(c, l) ← dec_frag l; '(d, l) ← dec_frag l;
  '(e, l) ← dec_nest l; '(f, l) ← dec_nest l; Some (mk_fnode a b c d e f, l).

Lemma dec_enc_fnode_Z f r : dec_fnode_Z (enc_fnode_Z f ++ r) = Some (f, r).
Proof.
  destruct f as [a b c d e f].
  change (enc_fnode_Z _) with (enc_Z a ++ enc_Z b ++ enc_frag c ++ enc_frag d ++ enc_nest e ++ enc_nest f).
  unfold dec_fnode_Z. rewrite <- !app_assoc.
  repeat (rewrite dec_enc_Z; cbn [mbind option_bind]).
  repeat (rewrite dec_enc_frag; cbn [mbind option_bind]).
  by repeat (rewrite dec_enc_nest; cbn [mbind option_bind]).
Qed.

(** An inode with its number and its version. *)
Record store_ex := mk_store_ex { sx_ino : Z; sx_version : Z }.
Definition enc_store_ex (s : store_ex) : bytes := enc_Z (sx_ino s) ++ enc_Z (sx_version s).
Definition dec_store_ex (l : bytes) : option (store_ex * bytes) :=
  '(a, l) ← dec_Z l; '(b, l) ← dec_Z l; Some (mk_store_ex a b, l).

Definition store_ops_ex : StoreOps store_ex := {|
  st_ino := sx_ino; st_version := sx_version; st_nlink := fun _ => 1; st_dirty_rstat := fun _ => false;
  is_multiversion := fun _ => false; st_purge_stale := fun _ s => s
|}.
Definition codec_ex : Codec store_ex Z := {|
  enc_snapid := enc_Z; dec_snapid := dec_Z; enc_ino := enc_Z; dec_ino := dec_Z; enc_u8 := enc_Z; dec_u8 := dec_Z;
  enc_store := enc_store_ex; dec_store := dec_store_ex; enc_fnode := enc_fnode_Z; dec_fnode := dec_fnode_Z
|}.
Definition bloom_ex : Bloom := {|
  bloom_filter := list cstring; bloom_new := fun _ => []; bloom_insert := fun n b => n :: b;
  bloom_contains := fun n b => bool_decide (n ∈ b)
|}.
Definition commit_const_ex : CommitConst Z := {|
  CEPH_MSG_PRIO_DEFAULT := 127; max_dir_commit_size := 20; C_MDSInternalNoop := -1
|}.
Definition dn_ops_ex : CDentryOps Z := {|
  DN_PIN_FRAGMENTING := -2; DN_PIN_INODEPIN := 1; DN_STATE_FRAGMENTING := Z.shiftl 1 2;
  dn_mark_clean := fun dn =>
    let o := state_clear STATE_DIRTY (dn_obj dn) in
    set_dn_obj (if 0 <? pins o PIN_DIRTY then repin (-1) PIN_DIRTY o else o) dn;
  dn_remove_leases := fun dn => mk_dentry (dn_obj dn) (dn_name dn) (dn_first dn) (dn_last dn) (dn_version dn) (dn_linkage dn)
    (dn_projected dn) (dn_new dn) ∅;
  in_mark_clean := fun i dn =>
    (mk_inode_info (in_num_ref i) false (in_auth_pins i) (in_nested_auth_pins i) (in_snaprealm i), dn)
|}.

Lemma codec_ex_ok : @CodecOk store_ex Z codec_ex.
Proof.
  split; [exact dec_enc_Z|exact dec_enc_Z|exact dec_enc_Z| |exact dec_enc_fnode_Z].
  intros [a b] r. change (dec_store_ex (enc_store_ex (mk_store_ex a b) ++ r) = Some (mk_store_ex a b, r)).
  unfold dec_store_ex, enc_store_ex. rewrite <- app_assoc. cbn [sx_ino sx_version].
  by repeat (rewrite dec_enc_Z; cbn [mbind option_bind]).
Qed.

#[local] Existing Instances nosnap64 dn_ops_ex bloom_ex store_ops_ex codec_ex commit_const_ex.

Definition frag_ex : frag_info_t Z := frag_info_new.
Definition fnode_ex (v : Z) : fnode_t Z := mk_fnode v 0 frag_info_new frag_info_new nest_info_new nest_info_new.
Definition dn_ex (dirty : bool) (name : String.string) (v : Z) (l : linkage_t) : dentry Z :=
  let o := match l with LPrimary _ => repin 1 DN_PIN_INODEPIN cobj_new | _ => cobj_new end in
  mk_dentry (if dirty then state_set STATE_DIRTY (repin 1 PIN_DIRTY o) else o) (str name) 2 CEPH_NOSNAP v l false true ∅.
Definition items_ex : gmap dentry_key_t (dentry Z) :=
  list_to_map (map (fun dn => (dn_key dn, dn))
    [dn_ex true "gone" 3 LNull; dn_ex true "file" 4 (LPrimary 7); dn_ex false "old" 1 (LPrimary 8);
     dn_ex true "link" 4 (LRemote 99 8 None)]).
Definition cdir_ex : cdir Z Z :=
  mk_cdir (mk_fdir (mk_dfrag (repin 1 PIN_CHILD (state_set STATE_AUTH cobj_new)) items_ex 3 1 0 0 5 ∅) 0 0 0 false)
    (fnode_ex 4) [] 0 0 ∅ None None 0 None.
Definition objs_ex (h : Z) : cinode store_ex :=
  mk_cinode (mk_inode_info 1 (h =? 7) 0 0 false) true 2 CEPH_NOSNAP false (mk_store_ex h (h - 5)).
Definition ienv_ex : ienv := mk_ienv 1 false false true 0 ∅.
Definition object_ex : object := mk_object [] {[ dentry_key_encode (mk_key CEPH_NOSNAP (str "gone")) := [] ]}.

Lemma cdir_ex_keys : keys_u64 cdir_ex.
Proof.
  intros k dn Hk. assert ((k, dn) ∈ map_to_list items_ex) as Hin by (by apply elem_of_map_to_list).
  vm_compute in Hin. unfold in_u64. repeat (apply elem_of_cons in Hin as [[= -> ->]|Hin]; [done|]).
  by apply not_elem_of_nil in Hin.
Qed.

Lemma cdir_ex_primary : one_primary cdir_ex.
Proof.
  intros k1 k2 dn1 dn2 h H1 H2.
  assert ((k1, dn1) ∈ map_to_list items_ex) as I1 by (by apply elem_of_map_to_list).
  assert ((k2, dn2) ∈ map_to_list items_ex) as I2 by (by apply elem_of_map_to_list).
  vm_compute in I1, I2. clear H1 H2.
  repeat (apply elem_of_cons in I1 as [[= -> ->]|I1]);
    [..|by apply not_elem_of_nil in I1];
  (repeat (apply elem_of_cons in I2 as [[= -> ->]|I2]); [..|by apply not_elem_of_nil in I2]);
  cbn; congruence.
Qed.

Lemma omap_commit_crash_safe_witness : exists d' objs' es,
  _omap_commit (-1) ienv_ex objs_ex cdir_ex = Ok (d', objs', es) /\ length (mutations es) = 3%nat /\
  ob_header <$> fold_left apply_mutation (take 2 (mutations es)) (Some object_ex) = Some [] /\
  on_disk (fold_left apply_mutation (take 3 (mutations es)) (Some object_ex))
    (dentry_key_encode (mk_key CEPH_NOSNAP (str "gone"))) = None.
Proof.
  destruct (omap_commit_crash_safe (-1) ienv_ex objs_ex cdir_ex cdir_ex_keys cdir_ex_primary) as [_ Hc].
  destruct (_omap_commit (-1) ienv_ex objs_ex cdir_ex) as [[[d' objs'] es]|] eqn:E; [|by vm_compute in E].
  assert (length (mutations es) = 3%nat) as El.
  { pose proof (f_equal (fun r => match r with Ok (_, _, es) => length (mutations es) | Abort => 0%nat end) E) as El.
    vm_compute in El. by symmetry. }
  exists d', objs', es. split; [done|]. split; [done|].
  destruct (Hc d' objs' es (Some object_ex) 2%nat eq_refl) as [_ H2].
  destruct (Hc d' objs' es (Some object_ex) 3%nat eq_refl) as [_ H3].
  destruct H2 as (_ & H2 & _); [by left|]. destruct H3 as (_ & _ & H3); [by left|]. split.
  - rewrite H2; [done|lia|done].
  - apply H3; [lia|]. exists (mk_key CEPH_NOSNAP (str "gone")), (dn_ex true "gone" 3 LNull).
    split_and!; vm_compute; reflexivity.
Defined.
