(* ===== verification/Tidy.v ===== *)
(** * Dentries in order (CDir.cc)

    A commit walks over the dentries of a fragment and may remove some of them: [_omap_commit] those
    whose snapshots are gone, [_committed] the null ones of a stray directory, [commit] of an unlinked
    directory all it can ([try_remove_dentries_for_stray]).  Shown here: in a fragment whose dentries are in order
    ([tidy]) these walks pass their asserts and leave it in order. *)

From stdpp Require Import base tactics numbers list gmap fin_maps sorting strings.
From Stdlib Require Import ZArith Lia Ascii.
From S2P Require Import Prelude Keys Stats CacheObject Dentries Freeze Versions Commit.
Open Scope Z_scope.
Open Scope list_scope.

Section Tidy.
Context {C S T : Type} `{CephConst} `{CDentryOps C} `{Bloom} `{StoreOps S} `{Codec S T} `{CommitConst C}.
Implicit Types d : cdir C T.
Implicit Types x : dirfrag C.
Implicit Types dn : dentry C.
Implicit Types objs : Z -> cinode S.
Implicit Types inodes : Z -> inode_info.

(** ** Cleaning the dentries *)

(** What [mark_clean] of a dentry and of an inode do: they clear the dirty state and drop the
    pin that goes with it; the name, the snapshots and the linkage of a dentry stay. *)
Class CleanOk : Prop := {
  clean_entry : forall dn, same_entry dn (dn_mark_clean dn);
  clean_version : forall dn, dn_version (dn_mark_clean dn) = dn_version dn;
  clean_clean : forall dn, is_dirty (dn_obj (dn_mark_clean dn)) = false;
  in_clean_entry : forall i dn, same_entry dn (snd (in_mark_clean i dn));
  in_clean_version : forall i dn, dn_version (snd (in_mark_clean i dn)) = dn_version dn;
  in_clean_dirty : forall i dn, is_dirty (dn_obj (snd (in_mark_clean i dn))) = is_dirty (dn_obj dn);
  in_clean_clean : forall i dn, in_dirty (fst (in_mark_clean i dn)) = false
}.

(** The pins that go with it: of the dentry, and of a dentry for its inode. *)
Class CleanPins : Prop := {
  pin_kinds : DN_PIN_INODEPIN <> PIN_DIRTY /\ DN_PIN_INODEPIN <> PIN_CLIENTLEASE /\ DN_PIN_FRAGMENTING <> PIN_DIRTY /\
    DN_PIN_FRAGMENTING <> PIN_CLIENTLEASE /\ DN_PIN_FRAGMENTING <> DN_PIN_INODEPIN;
  clean_refs : forall dn, is_dirty (dn_obj dn) = true -> refs_ok (dn_obj dn) -> refs_ok (dn_obj (dn_mark_clean dn));
  clean_pins : forall dn p, p <> PIN_DIRTY -> pins (dn_obj (dn_mark_clean dn)) p = pins (dn_obj dn) p;
  in_clean_refs : forall i dn, refs_ok (dn_obj dn) -> refs_ok (dn_obj (snd (in_mark_clean i dn)));
  in_clean_pins : forall i dn p, p <> DN_PIN_INODEPIN -> pins (dn_obj (snd (in_mark_clean i dn))) p = pins (dn_obj dn) p;
  in_clean_pinned : forall i dn, (in_num_ref i <> 0 -> 0 < pins (dn_obj dn) DN_PIN_INODEPIN) ->
    in_num_ref (fst (in_mark_clean i dn)) <> 0 -> 0 < pins (dn_obj (snd (in_mark_clean i dn))) DN_PIN_INODEPIN
}.

(** [dn_remove_leases] drops the leases and their pin. *)
Class LeasesOk : Prop := {
  rm_leases : forall dn, dn_leases (dn_remove_leases dn) = ∅;
  rm_entry : forall dn, dn_key (dn_remove_leases dn) = dn_key dn /\ dn_linkage (dn_remove_leases dn) = dn_linkage dn /\
    is_dirty (dn_obj (dn_remove_leases dn)) = is_dirty (dn_obj dn);
  rm_refs : forall dn, refs_ok (dn_obj dn) -> refs_ok (dn_obj (dn_remove_leases dn));
  rm_pins : forall dn p, p <> PIN_CLIENTLEASE -> pins (dn_obj (dn_remove_leases dn)) p = pins (dn_obj dn) p
}.

Context `{!CleanOk} `{!CleanPins} `{!LeasesOk}.

Definition covered (cv : Z) (i : cinode S) : Prop :=
  ci_auth i = true /\ (st_version (ci_store i) <= cv \/ in_dirty (ci_info i) = true \/ ci_last i < CEPH_NOSNAP).

Lemma same_entry_refl dn : same_entry dn dn.
Proof. by split. Qed.
Lemma same_entry_trans (a b c : dentry C) : same_entry a b -> same_entry b c -> same_entry a c.
Proof. intros [] []. split; congruence. Qed.

Lemma committed_inode_ok cv k dn objs :
  (forall h, primary_ino dn = Some h -> covered cv (objs h)) ->
  exists dn' objs' es, committed_inode cv k dn objs = Ok (dn', objs', es) /\
    same_entry dn dn' /\ dn_version dn' = dn_version dn /\ is_dirty (dn_obj dn') = is_dirty (dn_obj dn) /\
    (forall h, ci_auth (objs' h) = ci_auth (objs h) /\ ci_store (objs' h) = ci_store (objs h) /\ ci_last (objs' h) = ci_last (objs h) /\
       in_dirty (ci_info (objs' h)) =
         in_dirty (ci_info (objs h)) && negb (bool_decide (primary_ino dn = Some h) && (st_version (ci_store (objs h)) <=? cv))).
Proof.
  intros Hc. unfold committed_inode. destruct (primary_ino dn) as [h|] eqn:Ep.
  2: { eexists _, _, _. split; [done|]. split; [apply same_entry_refl|]. split_and!; [done|done|].
       intros h. by rewrite andb_true_r. }
  destruct (Hc h eq_refl) as [Ha Hd]. rewrite Ha. cbn [assert_ mbind res_bind].
  assert (forall h', in_dirty (ci_info (objs h')) =
    in_dirty (ci_info (objs h')) && negb (bool_decide (Some h = Some h') && (st_version (ci_store (objs h')) <=? cv)) \/
    (h' = h /\ st_version (ci_store (objs h)) <= cv)) as Hsame.
  { intros h'. case_bool_decide as E; [|left; by rewrite andb_true_r]. injection E as <-.
    destruct (Z.leb_spec (st_version (ci_store (objs h))) cv); [by right|left; by rewrite andb_true_r]. }
  destruct (Z.leb_spec (st_version (ci_store (objs h))) cv) as [Hv|Hv].
  - destruct (in_dirty (ci_info (objs h))) eqn:Ed.
    + pose proof (in_clean_entry (ci_info (objs h)) dn) as C1. pose proof (in_clean_version (ci_info (objs h)) dn) as C2.
      pose proof (in_clean_dirty (ci_info (objs h)) dn) as C3. pose proof (in_clean_clean (ci_info (objs h)) dn) as C4.
      destruct (in_mark_clean (ci_info (objs h)) dn) as [i' dn']. simpl in *. eexists _, _, _. split; [done|].
      split_and!; [done|done|done|]. intros h'. unfold upd_obj. destruct (Z.eqb_spec h' h) as [->|N].
      * cbn. rewrite bool_decide_true by done. replace (_ <=? cv) with true by lia.
        rewrite C4. split_and!; [done|done|done|]. by rewrite andb_false_r.
      * split_and!; [done|done|done|]. rewrite bool_decide_false by congruence. by rewrite andb_true_r.
    + eexists _, _, _. split; [done|]. split; [apply same_entry_refl|]. split_and!; [done|done|].
      intros h'. split_and!; [done|done|done|]. destruct (Hsame h') as [|[-> _]]; [done|]. by rewrite Ed.
  - rewrite check_true. 2: { destruct Hd as [?|[->|?]]; [lia|done|]. apply orb_true_iff. right. lia. }
    eexists _, _, _. split; [done|]. split; [apply same_entry_refl|]. split_and!; [done|done|].
    intros h'. split_and!; [done|done|done|]. destruct (Hsame h') as [|[-> ?]]; [done|lia].
Qed.

Lemma kinds_distinct : DN_PIN_FRAGMENTING <> DN_PIN_INODEPIN.
Proof. apply pin_kinds. Qed.

(** ** Order *)

(** A dirty dentry and one with leases are pinned, and a referenced inode pins its primary dentry. *)
Record tidy_dn inodes dn : Prop := {
  tn_dirty : is_dirty (dn_obj dn) = true -> 0 < pins (dn_obj dn) PIN_DIRTY;
  tn_lease : dn_leases dn <> ∅ -> 0 < pins (dn_obj dn) PIN_CLIENTLEASE;
  tn_inode : inode_pinned inodes dn
}.

(** The fragment counts and pins its dentries as it should; no inode is the primary inode of two. *)
Record tidy inodes x : Prop := {
  td_inv : dir_inv x;
  td_u64 : forall k dn, df_items x !! k = Some dn -> in_u64 (dk_snapid k);
  td_one : forall k1 k2 dn1 dn2 h, df_items x !! k1 = Some dn1 -> df_items x !! k2 = Some dn2 ->
    primary_ino dn1 = Some h -> primary_ino dn2 = Some h -> k1 = k2;
  td_dn : forall k dn, df_items x !! k = Some dn -> tidy_dn inodes dn
}.

Lemma tidy_dn_ext inodes inodes' dn :
  (forall h, primary_ino dn = Some h -> inodes' h = inodes h) -> tidy_dn inodes dn -> tidy_dn inodes' dn.
Proof.
  intros E [T1 T2 T3]. split; [done|done|]. unfold inode_pinned, primary_ino in *. destruct (dn_linkage dn); [done| |done].
  by rewrite E.
Qed.

Lemma tidy_ext inodes inodes' x : (forall h, inodes' h = inodes h) -> tidy inodes x -> tidy inodes' x.
Proof. intros E [T1 T2 T3 T4]. split; [done..|]. intros k dn Hk. eapply tidy_dn_ext; [|by eapply T4]. intros h _. apply E. Qed.

(** Another cache object under the same dentries. *)
Lemma tidy_obj inodes x x' :
  tidy inodes x -> df_items x' = df_items x -> (forall null head, counter null head x' = counter null head x) ->
  waiting_on_dentry x' = waiting_on_dentry x -> refs_ok (df_obj x') ->
  pins (df_obj x') PIN_CHILD = pins (df_obj x) PIN_CHILD -> pins (df_obj x') PIN_DNWAITER = pins (df_obj x) PIN_DNWAITER ->
  state_test (df_obj x') STATE_DNPINNEDFRAG = state_test (df_obj x) STATE_DNPINNEDFRAG -> tidy inodes x'.
Proof.
  intros [[[I1 I2 I3 I4 I5] J2 J3 J4] T2 T3 T4] Ei Ec Ew R E1 E2 E3. split; rewrite ?Ei; try done.
  split; [split|done|by rewrite E1, Ei|by rewrite E2, Ew]; rewrite ?Ei, ?E3; try done. intros null head. by rewrite Ec.
Qed.

(** One dentry is replaced by one in the same place, pinned for fragmenting as before. *)
Lemma dir_inv_upd x k dn dn' :
  dir_inv x -> df_items x !! k = Some dn -> dn_key dn' = dn_key dn -> dn_linkage dn' = dn_linkage dn -> refs_ok (dn_obj dn') ->
  pins (dn_obj dn') DN_PIN_FRAGMENTING = pins (dn_obj dn) DN_PIN_FRAGMENTING -> dir_inv (upd_dentry k dn' x).
Proof.
  intros [I1 I2 I3 I4] Hk Ek El R Fr.
  assert (df_items x <> ∅) as Hne by (intros E; by rewrite E, lookup_empty in Hk).
  split; [|done| |done].
  - eapply (items_inv_upd x k dn dn'); try done.
    + rewrite Ek. exact (ii_key _ I1 k dn Hk).
    + intros Hst. rewrite Fr. exact (ii_frag _ I1 Hst k dn Hk).
    + intros null head. assert (dn_last dn' = dn_last dn) as Hl by (by injection Ek).
      assert (in_class null head dn' = in_class null head dn) as ->
        by (unfold in_class, is_null, is_head; by rewrite El, Hl).
      change (counter null head x = counter null head x - in_class null head dn + in_class null head dn). lia.
  - cbn. rewrite I3. rewrite !decide_False; [done|apply insert_non_empty|done].
Qed.

Lemma tidy_upd inodes inodes' x k dn dn' :
  tidy inodes x -> df_items x !! k = Some dn -> dn_key dn' = dn_key dn -> dn_linkage dn' = dn_linkage dn -> refs_ok (dn_obj dn') ->
  pins (dn_obj dn') DN_PIN_FRAGMENTING = pins (dn_obj dn) DN_PIN_FRAGMENTING -> tidy_dn inodes' dn' ->
  (forall h, primary_ino dn <> Some h -> inodes' h = inodes h) -> tidy inodes' (upd_dentry k dn' x).
Proof.
  intros [T1 T2 T3 T4] Hk Ek El R Fr Td Ho.
  assert (primary_ino dn' = primary_ino dn) as Ep by (unfold primary_ino; by rewrite El).
  assert (forall k1 dn1, df_items (upd_dentry k dn' x) !! k1 = Some dn1 ->
    exists dn0, df_items x !! k1 = Some dn0 /\ primary_ino dn1 = primary_ino dn0) as Hb.
  { intros k1 dn1. cbn. destruct (decide (k1 = k)) as [->|N]; [rewrite lookup_insert_eq|rewrite lookup_insert_ne by done]; [intros [= <-]|]; eauto. }
  split.
  - by eapply dir_inv_upd.
  - intros k1 dn1 Hx1. destruct (Hb k1 dn1 Hx1) as (dn0 & Hx0 & _). by eapply T2.
  - intros k1 k2 dn1 dn2 h Hx1 Hx2 P1 P2. destruct (Hb _ _ Hx1) as (a & Ha & Ea), (Hb _ _ Hx2) as (b & Hb' & Eb).
    rewrite Ea in P1. rewrite Eb in P2. by apply (T3 k1 k2 a b h).
  - intros k1 dn1. cbn. destruct (decide (k1 = k)) as [->|N]; [rewrite lookup_insert_eq; by intros [= <-]|].
    rewrite lookup_insert_ne by done. intros Hx1. eapply tidy_dn_ext; [|by eapply T4]. intros h P1. apply Ho. intros P2.
    apply N. symmetry. by apply (T3 k k1 dn dn1 h).
Qed.

(** One dentry is gone. *)
Lemma tidy_del inodes inodes' x x' k dn :
  tidy inodes x -> df_items x !! k = Some dn -> dir_inv x' -> df_items x' = delete k (df_items x) ->
  (forall h, primary_ino dn <> Some h -> inodes' h = inodes h) -> tidy inodes' x'.
Proof.
  intros [T1 T2 T3 T4] Hk I Ed Ho.
  assert (forall k1 dn1, df_items x' !! k1 = Some dn1 -> k1 <> k /\ df_items x !! k1 = Some dn1) as Hb
    by (intros k1 dn1; rewrite Ed, lookup_delete_Some; intros [? ?]; by split).
  split; [done|..].
  - intros k1 dn1 [_ Hx1]%Hb. by eapply T2.
  - intros k1 k2 dn1 dn2 h [_ Hx1]%Hb [_ Hx2]%Hb. by apply T3.
  - intros k1 dn1 [N Hx1]%Hb. eapply tidy_dn_ext; [|by eapply T4]. intros h P1. apply Ho. intros P2.
    apply N. symmetry. by apply (T3 k k1 dn dn1 h).
Qed.

Lemma two_pins (o : cobj C) p q : refs_ok o -> p <> q -> 0 < pins o p -> 0 < pins o q -> 2 <= co_ref o.
Proof.
  intros R N Hp Hq. assert (refs_ok (repin (-1) p o)) as R' by (apply repin_down; [done|lia]).
  pose proof (pins_le_sum _ q R') as B. rewrite pins_repin, decide_False in B by done. cbn in B. lia.
Qed.

(** A dentry with no pins but that of being dirty has no leases. *)
Lemma no_leases inodes dn :
  refs_ok (dn_obj dn) -> tidy_dn inodes dn -> get_num_ref (dn_obj dn) (-1) = bool_Z (is_dirty (dn_obj dn)) -> dn_leases dn = ∅.
Proof.
  intros R [T1 T2 _] E. destruct (decide (dn_leases dn = ∅)) as [|N]; [done|]. specialize (T2 N).
  change (co_ref (dn_obj dn) = bool_Z (is_dirty (dn_obj dn))) in E. destruct (is_dirty (dn_obj dn)).
  - pose proof (two_pins _ PIN_DIRTY PIN_CLIENTLEASE R ltac:(done) (T1 eq_refl) T2). cbn in E. lia.
  - pose proof (pins_le_sum _ PIN_CLIENTLEASE R). cbn in E. lia.
Qed.

(** ** Cleaning keeps the order *)

Lemma mark_clean_tidy inodes dn :
  is_dirty (dn_obj dn) = true -> refs_ok (dn_obj dn) -> tidy_dn inodes dn ->
  refs_ok (dn_obj (dn_mark_clean dn)) /\ tidy_dn inodes (dn_mark_clean dn) /\
  pins (dn_obj (dn_mark_clean dn)) DN_PIN_FRAGMENTING = pins (dn_obj dn) DN_PIN_FRAGMENTING.
Proof.
  intros Hd R [T1 T2 T3]. destruct pin_kinds as (P1 & P2 & P3 & P4 & P5). pose proof (clean_entry dn) as Se. split_and!.
  - by apply clean_refs.
  - split.
    + by rewrite clean_clean.
    + rewrite (se_leases _ _ Se), clean_pins by done. done.
    + unfold inode_pinned in *. rewrite (se_linkage _ _ Se), clean_pins by done. done.
  - by apply clean_pins.
Qed.

(** [inodes] with the inode [h] replaced. *)
Definition upd_info (h : Z) (i : inode_info) inodes : Z -> inode_info := fun y => if y =? h then i else inodes y.

Lemma in_clean_tidy inodes h dn :
  primary_ino dn = Some h -> refs_ok (dn_obj dn) -> tidy_dn inodes dn ->
  let '(i, dn') := in_mark_clean (inodes h) dn in
  refs_ok (dn_obj dn') /\ tidy_dn (upd_info h i inodes) dn' /\ same_entry dn dn' /\
  pins (dn_obj dn') DN_PIN_FRAGMENTING = pins (dn_obj dn) DN_PIN_FRAGMENTING.
Proof.
  intros Hp R [T1 T2 T3]. destruct pin_kinds as (P1 & P2 & P3 & P4 & P5).
  pose proof (in_clean_entry (inodes h) dn) as Se. pose proof (in_clean_dirty (inodes h) dn) as Ed.
  pose proof (in_clean_refs (inodes h) dn R) as R'. pose proof (in_clean_pins (inodes h) dn) as Pn.
  pose proof (in_clean_pinned (inodes h) dn) as Pi. destruct (in_mark_clean (inodes h) dn) as [i dn']. cbn [fst snd] in *.
  split_and!; [done| |done|by apply Pn]. split.
  - rewrite Ed, Pn by done. done.
  - rewrite (se_leases _ _ Se), Pn by done. done.
  - unfold inode_pinned, primary_ino in *. rewrite (se_linkage _ _ Se). destruct (dn_linkage dn) as [|h'|]; [done| |done].
    injection Hp as ->. unfold upd_info. rewrite Z.eqb_refl. by apply Pi.
Qed.

(** [clean_inode] of a dentry of a tidy fragment. *)
Lemma clean_inode_tidy inodes dn :
  refs_ok (dn_obj dn) -> tidy_dn inodes dn ->
  let '(inodes', dn', _) := clean_inode inodes dn in
  refs_ok (dn_obj dn') /\ tidy_dn inodes' dn' /\ same_entry dn dn' /\
  pins (dn_obj dn') DN_PIN_FRAGMENTING = pins (dn_obj dn) DN_PIN_FRAGMENTING /\
  (forall h, primary_ino dn <> Some h -> inodes' h = inodes h).
Proof.
  intros R Td. unfold clean_inode. destruct (primary_ino dn) as [h|] eqn:Hp; [|by split_and!].
  destruct (in_dirty (inodes h)); [|by split_and!]. pose proof (in_clean_tidy inodes h dn Hp R Td) as Hc.
  destruct (in_mark_clean (inodes h) dn) as [i dn']. destruct Hc as (R' & Td' & Se & Fr).
  split_and!; [done|exact Td'|done|done|]. intros h' N. destruct (Z.eqb_spec h' h) as [->|]; [done|done].
Qed.

(** A dentry without leases, of a fragment in order but for it, can be removed. *)
Lemma purge_tidy inodes inodes' x k dn dn' ino :
  tidy inodes x -> df_items x !! k = Some dn -> dn_key dn' = dn_key dn -> dn_linkage dn' = dn_linkage dn -> refs_ok (dn_obj dn') ->
  pins (dn_obj dn') DN_PIN_FRAGMENTING = pins (dn_obj dn) DN_PIN_FRAGMENTING -> tidy_dn inodes' dn' ->
  (forall h, primary_ino dn <> Some h -> inodes' h = inodes h) -> dn_leases dn' = ∅ ->
  exists x' es, purge_dentry inodes' k ino dn' x = Ok (x', es) /\ tidy inodes x' /\ df_items x' = delete k (df_items x).
Proof.
  intros Ty Hk Ek El R Fr Td Ho Hl. pose proof (tidy_upd inodes inodes' x k dn dn' Ty Hk Ek El R Fr Td Ho) as Ty'.
  destruct (remove_ok kinds_distinct inodes' (upd_dentry k dn' x) k dn') as (x' & es & E & I' & Ed);
    [apply Ty'|cbn; by rewrite lookup_insert_eq|split; [done|apply Td]|].
  assert (df_items x' = delete k (df_items x)) as Ed' by (rewrite Ed; cbn; by rewrite delete_insert_eq).
  unfold purge_dentry. rewrite E. cbn [mbind res_bind]. eexists _, _. split; [done|]. split; [|done].
  by apply (tidy_del inodes inodes x x' k dn).
Qed.

Lemma trim_tidy inodes sn x k dn :
  tidy inodes x -> df_items x !! k = Some dn -> is_head dn = false ->
  exists x' es b, try_trim_snap_dentry inodes sn k x = Ok (x', es, b) /\ tidy inodes x' /\
    (forall k', k' <> k -> df_items x' !! k' = df_items x !! k').
Proof.
  intros Ty Hk Hh. unfold try_trim_snap_dentry. rewrite Hk, Hh. cbn [negb assert_ mbind res_bind].
  destruct (trimmable inodes sn dn) eqn:Et; [|by eexists _, _, _].
  pose proof (ii_refs _ (dv_items _ (td_inv _ _ Ty)) _ _ Hk) as R. pose proof (td_dn _ _ Ty _ _ Hk) as Td.
  assert (dn_leases dn = ∅) as Hl.
  { unfold trimmable in Et. apply andb_true_iff in Et as [Et _]. apply andb_true_iff in Et as [_ Et]. eapply no_leases; [done|done|lia]. }
  pose proof (clean_inode_tidy inodes dn R Td) as Hc. destruct (clean_inode inodes dn) as [[i' dn'] es0].
  destruct Hc as (R' & Td' & Se & Fr & Ho).
  destruct (purge_tidy inodes i' x k dn dn' (primary_ino dn)) as (x' & es & -> & Ty' & Ed);
    [done|done|by apply same_entry_key|apply Se|done|done|done|done|by rewrite (se_leases _ _ Se)|].
  cbn [mbind res_bind]. eexists _, _, _. split; [done|]. split; [done|]. intros k' N. by rewrite Ed, lookup_delete_ne.
Qed.

(** ** The walk of [_omap_commit] *)

Definition tidy_at (s : cstate (C := C) (S := S) (T := T)) : Prop := tidy (infos (cs_objs s)) (cd_dir (cs_dir s)).

Lemma commit_trim_tidy snaps k dn (s : cstate (C := C) (S := S) (T := T)) :
  tidy_at s -> df_items (cd_dir (cs_dir s)) !! k = Some dn ->
  exists s' b, commit_trim snaps k dn s = Ok (s', b) /\ tidy_at s' /\ (b = false -> s' = s) /\
    (forall k', k' <> k -> df_items (cd_dir (cs_dir s')) !! k' = df_items (cd_dir (cs_dir s)) !! k').
Proof.
  intros Ty Hk. unfold commit_trim. destruct snaps as [sn|]; [|by eexists _, _].
  destruct (is_head dn) eqn:Hh; [by eexists _, _|].
  destruct (trim_tidy _ sn _ _ _ Ty Hk Hh) as (x & es & b & -> & Ty' & Ho). cbn [mbind res_bind].
  destruct b; [|by eexists _, _]. eexists _, _. split; [done|]. by split_and!.
Qed.

Lemma commit_add_tidy snaps k dn (s : cstate (C := C) (S := S) (T := T)) :
  tidy_at s -> df_items (cd_dir (cs_dir s)) !! k = Some dn ->
  exists s', commit_add snaps k dn s = Ok s' /\ tidy_at s' /\
    (forall k', k' <> k -> df_items (cd_dir (cs_dir s')) !! k' = df_items (cd_dir (cs_dir s)) !! k').
Proof.
  intros Ty Hk. unfold commit_add. destruct (is_null dn) eqn:Hn; [by eexists|].
  destruct (encode_dentry_ok snaps dn (cs_objs s) Hn) as (objs' & -> & _ & Hi). cbn [mbind res_bind].
  eexists. split; [done|]. split; [|intros k' N; cbn; by rewrite lookup_insert_ne].
  apply (tidy_ext (infos (cs_objs s))); [exact Hi|].
  pose proof (ii_refs _ (dv_items _ (td_inv _ _ Ty)) _ _ Hk) as R. destruct (td_dn _ _ Ty _ _ Hk) as [D1 D2 D3].
  by apply (tidy_upd (infos (cs_objs s)) (infos (cs_objs s)) _ k dn (set_new false dn)).
Qed.

Lemma commit_loop_tidy prio snaps ks (s : cstate (C := C) (S := S) (T := T)) :
  NoDup ks -> (forall k, k ∈ ks -> is_Some (df_items (cd_dir (cs_dir s)) !! k)) -> tidy_at s ->
  exists s', commit_loop prio snaps ks s = Ok s' /\ tidy_at s'.
Proof.
  revert s. induction ks as [|k ks IH]; intros s ND Hi Ty; [by eexists|]. apply NoDup_cons in ND as [Hn ND].
  destruct (Hi k ltac:(set_solver)) as [dn Hk]. cbn [commit_loop]. unfold commit_dentry. rewrite Hk.
  destruct (commit_trim_tidy snaps k dn s Ty Hk) as (s1 & b & -> & T1 & E1 & O1). cbn [mbind res_bind].
  destruct (b || skipped dn) eqn:Eb.
  - apply IH; [done| |done]. intros k' Hk'. rewrite O1 by (intros ->; done). apply Hi. set_solver.
  - apply orb_false_iff in Eb as [-> _]. rewrite (E1 eq_refl).
    destruct (commit_add_tidy snaps k dn s Ty Hk) as (s2 & -> & T2 & O2). cbn [mbind res_bind].
    assert (cs_dir (commit_flush prio s2) = cs_dir s2 /\ cs_objs (commit_flush prio s2) = cs_objs s2) as [Ed Eo]
      by (unfold commit_flush; by destruct (_ <=? _)).
    apply IH; [done| |unfold tidy_at; by rewrite Ed, Eo].
    intros k' Hk'. rewrite Ed, O2 by (intros ->; done). apply Hi. set_solver.
Qed.

(** In a fragment in order [_omap_commit] cannot fail, whatever snapshots there are to purge. *)
Lemma omap_commit_tidy prio ie objs d :
  tidy (infos objs) (cd_dir d) ->
  exists d' objs' es, _omap_commit prio ie objs d = Ok (d', objs', es) /\ tidy (infos objs') (cd_dir d').
Proof.
  intros Ty. unfold _omap_commit. cbv zeta.
  destruct (commit_loop_tidy (if prio <? 0 then CEPH_MSG_PRIO_DEFAULT else prio) (purge_snaps ie (fnode d)) (item_keys (cd_dir d))
    (mk_cstate d objs batch_new [])) as (s & -> & Ts); [apply ordered_nodup|intros k; apply elem_of_ordered_keys|done|].
  cbn [mbind res_bind]. by eexists _, _, _.
Qed.

(** ** The walk of [_committed] *)

Definition items_covered (cv : Z) objs x (ks : list dentry_key_t) : Prop :=
  forall k dn h, k ∈ ks -> df_items x !! k = Some dn -> primary_ino dn = Some h -> covered cv (objs h).

Lemma committed_inode_tidy cv k dn objs :
  refs_ok (dn_obj dn) -> tidy_dn (infos objs) dn -> (forall h, primary_ino dn = Some h -> covered cv (objs h)) ->
  exists dn' objs' es, committed_inode cv k dn objs = Ok (dn', objs', es) /\
    refs_ok (dn_obj dn') /\ tidy_dn (infos objs') dn' /\ same_entry dn dn' /\
    pins (dn_obj dn') DN_PIN_FRAGMENTING = pins (dn_obj dn) DN_PIN_FRAGMENTING /\
    (forall h, primary_ino dn <> Some h -> objs' h = objs h).
Proof.
  intros R Td Hc. destruct (committed_inode_ok cv k dn objs Hc) as (dn' & objs' & es & E & Se & _). exists dn', objs', es.
  split; [done|]. unfold committed_inode in E. destruct (primary_ino dn) as [h|] eqn:Hp; [|by injection E as <- <- _].
  apply bind_ok in E as (? & _ & E). destruct (_ <=? cv).
  2: { apply bind_ok in E as (? & _ & E). by injection E as <- <- _. }
  destruct (in_dirty (ci_info (objs h))); [|by injection E as <- <- _].
  pose proof (in_clean_tidy (infos objs) h dn Hp R Td) as Hcl.
  change (infos objs h) with (ci_info (objs h)) in Hcl. destruct (in_mark_clean (ci_info (objs h)) dn) as [i dn1].
  injection E as <- <- _. destruct Hcl as (R' & Td' & Se' & Fr). split_and!; [done| |done|done|].
  - eapply tidy_dn_ext; [|exact Td']. intros y _. unfold infos, upd_obj, upd_info. by destruct (y =? h).
  - intros y N. unfold upd_obj. destruct (Z.eqb_spec y h) as [->|]; [done|done].
Qed.

Lemma committed_dentry_tidy stray cv k dn objs x :
  tidy (infos objs) x -> df_items x !! k = Some dn -> (forall h, primary_ino dn = Some h -> covered cv (objs h)) ->
  exists x' objs' es, committed_dentry stray cv k dn objs x = Ok (x', objs', es) /\ tidy (infos objs') x' /\
    (forall k', k' <> k -> df_items x' !! k' = df_items x !! k') /\
    (forall h, primary_ino dn <> Some h -> objs' h = objs h).
Proof.
  intros Ty Hk Hc. pose proof (ii_refs _ (dv_items _ (td_inv _ _ Ty)) _ _ Hk) as R.
  destruct (committed_inode_tidy cv k dn objs R (td_dn _ _ Ty _ _ Hk) Hc) as (dn1 & objs1 & es1 & E & R1 & Td1 & Se & Fr & Ho).
  unfold committed_dentry. rewrite E. cbn [mbind res_bind]. cbv zeta.
  assert (forall h, primary_ino dn <> Some h -> infos objs1 h = infos objs h) as Hi by (intros h N; unfold infos; by rewrite Ho).
  assert (forall dn2 k', k' <> k -> df_items (upd_dentry k dn2 x) !! k' = df_items x !! k') as Hother
    by (intros dn2 k' N; cbn; by rewrite lookup_insert_ne).
  destruct ((dn_version dn1 <=? cv) && is_dirty (dn_obj dn1)) eqn:Eb.
  2: { eexists _, _, _. split; [done|]. split; [|split; [apply Hother|done]].
       by apply (tidy_upd (infos objs) (infos objs1) x k dn dn1); try apply same_entry_key; try apply Se. }
  apply andb_true_iff in Eb as [_ Hd]. destruct (mark_clean_tidy (infos objs1) dn1 Hd R1 Td1) as (R2 & Td2 & Fr2).
  pose proof (clean_entry dn1) as Se2. pose proof (same_entry_trans _ _ _ Se Se2) as Se3.
  assert (tidy (infos objs1) (upd_dentry k (dn_mark_clean dn1) x)) as Ty'.
  { apply (tidy_upd (infos objs) (infos objs1) x k dn); try done; [by apply same_entry_key|apply Se3|by rewrite Fr2]. }
  destruct (stray && _ && _ && _) eqn:Est; [|eexists _, _, _; split; [done|]; split; [done|]; split; [apply Hother|done]].
  apply andb_true_iff in Est as [Est Hn]. apply andb_true_iff in Est as [Est _]. apply andb_true_iff in Est as [_ Hr].
  assert (dn_leases (dn_mark_clean dn1) = ∅) as Hl by (eapply no_leases; [done|done|]; rewrite clean_clean; cbn [bool_Z]; lia).
  destruct (remove_ok kinds_distinct (infos objs1) (upd_dentry k (dn_mark_clean dn1) x) k (dn_mark_clean dn1)) as (x' & es & -> & I' & Ed);
    [apply Ty'|cbn; by rewrite lookup_insert_eq|split; [done|apply Td2]|].
  cbn [mbind res_bind]. eexists _, _, _. split; [done|]. split; [|split; [|done]].
  - apply (tidy_del (infos objs1) (infos objs1) _ x' k (dn_mark_clean dn1) Ty'); [cbn; by rewrite lookup_insert_eq|done..].
  - intros k' N. rewrite Ed, lookup_delete_ne by done. by apply Hother.
Qed.

Lemma committed_walk_tidy stray cv ks objs x :
  NoDup ks -> (forall k, k ∈ ks -> is_Some (df_items x !! k)) -> items_covered cv objs x ks -> tidy (infos objs) x ->
  exists x' objs' es, committed_walk stray cv ks objs x = Ok (x', objs', es) /\ tidy (infos objs') x'.
Proof.
  revert objs x. induction ks as [|k ks IH]; intros objs x ND Hi Hc Ty; [by eexists _, _, _|].
  apply NoDup_cons in ND as [Hn ND]. destruct (Hi k ltac:(set_solver)) as [dn Hk]. cbn [committed_walk]. rewrite Hk.
  destruct (committed_dentry_tidy stray cv k dn objs x Ty Hk) as (x1 & objs1 & es1 & -> & Ty1 & O1 & Ho).
  { intros h. apply (Hc k dn h); [set_solver|done]. }
  cbn [mbind res_bind]. destruct (IH objs1 x1 ND) as (x2 & objs2 & es2 & -> & Ty2); [..|done|].
  - intros k' Hk'. rewrite O1 by (intros ->; done). apply Hi. set_solver.
  - intros k' dn' h Hk' Hd Hp. rewrite O1 in Hd by (intros ->; done). rewrite Ho; [apply (Hc k' dn' h); [set_solver|done|done]|].
    intros Hp'. pose proof (td_one _ _ Ty k k' dn dn' h Hk Hd Hp' Hp). by subst.
  - cbn [mbind res_bind]. by eexists _, _, _.
Qed.

(** ** The walk of [try_remove_dentries_for_stray] *)

Lemma clean_dentry_tidy inodes k dn :
  refs_ok (dn_obj dn) -> tidy_dn inodes dn ->
  let dn' := fst (clean_dentry k dn) in
  refs_ok (dn_obj dn') /\ tidy_dn inodes dn' /\ same_entry dn dn' /\ is_dirty (dn_obj dn') = false /\
  pins (dn_obj dn') DN_PIN_FRAGMENTING = pins (dn_obj dn) DN_PIN_FRAGMENTING.
Proof.
  intros R Td. unfold clean_dentry. destruct (is_dirty (dn_obj dn)) eqn:Hd; cbn [fst]; [|by split_and!].
  destruct (mark_clean_tidy inodes dn Hd R Td) as (R' & Td' & Fr).
  split_and!; [done|done|apply clean_entry|apply clean_clean|done].
Qed.

(** the leases of a dentry dropped, if it has any *)
Definition drop_leases (k : dentry_key_t) dn : dentry C * list dn_effect :=
  if bool_decide (dn_leases dn = ∅) then (dn, []) else (dn_remove_leases dn, [RemoveLeases k]).

Lemma drop_leases_tidy inodes k dn :
  refs_ok (dn_obj dn) -> tidy_dn inodes dn ->
  let dn' := fst (drop_leases k dn) in
  refs_ok (dn_obj dn') /\ tidy_dn inodes dn' /\ dn_leases dn' = ∅ /\ dn_key dn' = dn_key dn /\ dn_linkage dn' = dn_linkage dn /\
  pins (dn_obj dn') DN_PIN_FRAGMENTING = pins (dn_obj dn) DN_PIN_FRAGMENTING.
Proof.
  intros R [T1 T2 T3]. unfold drop_leases. case_bool_decide as El; cbn [fst]; [by split_and!|].
  destruct (rm_entry dn) as (E1 & E2 & E3). destruct pin_kinds as (P1 & P2 & P3 & P4 & P5).
  split_and!; [by apply rm_refs| |apply rm_leases|done|done|by apply rm_pins]. split.
  - rewrite E3, rm_pins by done. done.
  - by rewrite rm_leases.
  - unfold inode_pinned in *. rewrite E2, rm_pins by done. done.
Qed.

Lemma stray_head_tidy inodes k dn x :
  tidy inodes x -> df_items x !! k = Some dn -> is_head dn = true ->
  exists x' es, stray_dentry true k dn inodes x = Ok (inodes, x', es) /\ tidy inodes x' /\
    (forall k', k' <> k -> df_items x' !! k' = df_items x !! k').
Proof.
  intros Ty Hk Hh. pose proof (ii_refs _ (dv_items _ (td_inv _ _ Ty)) _ _ Hk) as R. pose proof (td_dn _ _ Ty _ _ Hk) as Td.
  unfold stray_dentry. rewrite Hh. destruct (negb (is_null dn) || dn_projected dn); [by eexists _, _|].
  destruct (clean_dentry_tidy inodes k dn R Td) as (R1 & Td1 & Se & _ & F1).
  destruct (clean_dentry k dn) as [dn1 es1]. cbn [fst] in *.
  destruct (drop_leases_tidy inodes k dn1 R1 Td1) as (R2 & Td2 & Hl & K2 & L2 & F2).
  change (if bool_decide _ then _ else _) with (drop_leases k dn1).
  destruct (drop_leases k dn1) as [dn2 es2]. cbn [fst] in *. cbv zeta.
  assert (tidy inodes (upd_dentry k dn2 x)) as Ty'.
  { apply (tidy_upd inodes inodes x k dn); try done.
    - rewrite K2. by apply same_entry_key.
    - rewrite L2. apply Se.
    - by rewrite F2. }
  destruct (_ =? 0).
  - destruct (remove_ok kinds_distinct inodes (upd_dentry k dn2 x) k dn2) as (x' & es & -> & I' & Ed);
      [apply Ty'|cbn; by rewrite lookup_insert_eq|split; [done|apply Td2]|].
    cbn [mbind res_bind]. eexists _, _. split; [done|]. split.
    + apply (tidy_del inodes inodes _ x' k dn2 Ty'); [cbn; by rewrite lookup_insert_eq|done..].
    + intros k' N. rewrite Ed, lookup_delete_ne by done. cbn. by rewrite lookup_insert_ne.
  - eexists _, _. split; [done|]. split; [done|]. intros k' N. cbn. by rewrite lookup_insert_ne.
Qed.

Lemma stray_dentry_tidy inodes k dn x :
  tidy inodes x -> df_items x !! k = Some dn ->
  exists inodes' x' es, stray_dentry true k dn inodes x = Ok (inodes', x', es) /\ tidy inodes' x' /\
    (forall k', k' <> k -> df_items x' !! k' = df_items x !! k').
Proof.
  intros Ty Hk. destruct (is_head dn) eqn:Hh.
  { destruct (stray_head_tidy inodes k dn x Ty Hk Hh) as (x' & es & E & Hs). by exists inodes, x', es. }
  pose proof (ii_refs _ (dv_items _ (td_inv _ _ Ty)) _ _ Hk) as R. pose proof (td_dn _ _ Ty _ _ Hk) as Td.
  unfold stray_dentry. rewrite Hh. destruct (dn_projected dn); [by eexists _, _, _|]. cbv zeta.
  pose proof (clean_inode_tidy inodes dn R Td) as Hc. destruct (clean_inode inodes dn) as [[inodes1 dn1] es1].
  destruct Hc as (R1 & Td1 & Se1 & F1 & Ho).
  destruct (clean_dentry_tidy inodes1 k dn1 R1 Td1) as (R2 & Td2 & Se2 & D2 & F2).
  destruct (clean_dentry k dn1) as [dn2 es2]. cbn [fst] in *. pose proof (same_entry_trans _ _ _ Se1 Se2) as Se.
  destruct (Z.eqb_spec (get_num_ref (dn_obj dn2) (-1)) 0) as [Er|Er].
  - assert (dn_leases dn2 = ∅) as Hl by (eapply no_leases; [done|done|]; by rewrite D2).
    destruct (purge_tidy inodes inodes1 x k dn dn2 (primary_ino dn)) as (x' & es & -> & Ty' & Ed);
      [done|done|by apply same_entry_key|apply Se|done|congruence|done|done|done|].
    cbn [mbind res_bind]. eexists _, _, _. split; [done|]. split; [|intros k' N; by rewrite Ed, lookup_delete_ne].
    by apply (tidy_del inodes inodes1 x x' k dn Ty Hk (td_inv _ _ Ty') Ed).
  - eexists _, _, _. split; [done|]. split; [|intros k' N; cbn; by rewrite lookup_insert_ne].
    apply (tidy_upd inodes inodes1 x k dn); try done; [by apply same_entry_key|apply Se|congruence].
Qed.

Lemma stray_walk_tidy ks inodes x :
  NoDup ks -> (forall k, k ∈ ks -> is_Some (df_items x !! k)) -> tidy inodes x ->
  exists inodes' x' es, stray_walk true ks inodes x = Ok (inodes', x', es) /\ tidy inodes' x'.
Proof.
  revert inodes x. induction ks as [|k ks IH]; intros inodes x ND Hi Ty; [by eexists _, _, _|].
  apply NoDup_cons in ND as [Hn ND]. destruct (Hi k ltac:(set_solver)) as [dn Hk]. cbn [stray_walk]. rewrite Hk.
  destruct (stray_dentry_tidy inodes k dn x Ty Hk) as (i1 & x1 & es1 & -> & Ty1 & O1). cbn [mbind res_bind].
  destruct (IH i1 x1 ND) as (i2 & x2 & es2 & -> & Ty2); [|done|cbn [mbind res_bind]; by eexists _, _, _].
  intros k' Hk'. rewrite O1 by (intros ->; done). apply Hi. set_solver.
Qed.

End Tidy.
