(* ===== verification/CommitMachine.v ===== *)
(** * The commit machine (CDir.cc)

    The versions of a fragment and its commits as a state machine: operations dirty the fragment,
    ask for commits, and the object store reports that the writes are done.  Shown here: the
    asserts of these operations hold, the versions stay in order, one commit at most is under
    way, and every waiter is woken. *)

From stdpp Require Import base tactics numbers list gmap fin_maps sorting strings.
From Stdlib Require Import ZArith Lia Ascii.
From S2P Require Import Prelude Keys Stats CacheObject Dentries Freeze Versions Commit Tidy.
Open Scope Z_scope.
Open Scope list_scope.

(** ** Frames *)

(** What a run over the dentries leaves alone of the fragment: its state bits and all pins but
    the one for having dentries. *)
Record quiet {C} (x x' : dirfrag C) : Prop := {
  qt_obj : obj_ok (df_obj x) -> obj_ok (df_obj x');
  qt_state : co_state (df_obj x') = co_state (df_obj x);
  qt_pins : forall p, p <> PIN_CHILD -> pins (df_obj x') p = pins (df_obj x) p;
  qt_ref : co_ref (df_obj x') <= co_ref (df_obj x);
  qt_projected : df_projected_version x' = df_projected_version x;
  qt_waiting : co_waiting (df_obj x') = co_waiting (df_obj x)
}.

Lemma quiet_refl {C} (x : dirfrag C) : quiet x x.
Proof. by split. Qed.
Lemma quiet_trans {C} (x y z : dirfrag C) : quiet x y -> quiet y z -> quiet x z.
Proof.
  intros [A1 A2 A3 A4 A5 A6] [B1 B2 B3 B4 B5 B6]. split; [auto|congruence| |lia|congruence|congruence].
  intros p Hp. by rewrite B3, A3.
Qed.
Lemma quiet_same {C} (x x' : dirfrag C) :
  df_obj x' = df_obj x -> df_projected_version x' = df_projected_version x -> quiet x x'.
Proof. intros E1 E2. split; rewrite ?E1; done. Qed.

(** A [put] that returns took a pin that was held. *)
Lemma put_inv {C} (o o' : cobj C) pin hs :
  refs_ok o -> put o pin = Ok (o', hs) -> 0 < pins o pin /\ o' = repin (-1) pin o.
Proof.
  intros R E. destruct (Z_lt_le_dec 0 (pins o pin)) as [Hp|Hp].
  - rewrite put_ok in E by done. by injection E as <- _.
  - pose proof (pins_le_sum o pin R). unfold put in E.
    replace (pins o pin =? 0) with true in E by lia. rewrite orb_true_r in E.
    unfold bad_put in E. apply bind_ok in E as (? & E & _). apply assert_ok in E. lia.
Qed.

Section Machine.
Context {C S T : Type} `{CephConst} `{CDentryOps C} `{Bloom} `{StoreOps S} `{Codec S T} `{CommitConst C}.
Implicit Types d : cdir C T.
Implicit Types x : dirfrag C.
Implicit Types f : fdir C.
Implicit Types dn : dentry C.
Implicit Types objs : Z -> cinode S.

Lemma remove_dentry_quiet inodes k x x' es :
  obj_ok (df_obj x) -> remove_dentry inodes k x = Ok (x', es) -> quiet x x'.
Proof.
  intros O E. pose proof (remove_dentry_frame _ _ _ _ _ E) as (_ & _ & Ev & _). unfold remove_dentry in E.
  destruct (df_items x !! k) as [dn|]; [|done].
  apply bind_ok in E as (? & _ & E). apply bind_ok in E as ([dn1 es1] & _ & E). cbv zeta in E.
  apply bind_ok in E as ([dn2 es2] & _ & E). apply bind_ok in E as ([x1 es3] & E3 & E).
  apply bind_ok in E as (? & _ & E). injection E as <- _.
  destruct (get_num_any _ =? 0); [|injection E3 as <- _; by apply quiet_same].
  unfold dir_put in E3. apply bind_ok in E3 as ([o hs] & E3 & E). injection E as <- _. cbn in E3.
  destruct (put_inv _ _ _ _ (oo_refs _ O) E3) as [Hp ->].
  pose proof (ro_sum _ (oo_refs _ O)). pose proof (ro_small _ (oo_refs _ O)).
  split; cbn; [|done| |lia|done|done].
  - intros _. apply obj_ok_repin; [done|done|done|lia|lia].
  - intros p N. change (pins (repin (-1) PIN_CHILD (df_obj x)) p = pins (df_obj x) p).
    by rewrite pins_repin, decide_False.
Qed.

Lemma trim_quiet inodes sn k x x' es b :
  obj_ok (df_obj x) -> try_trim_snap_dentry inodes sn k x = Ok (x', es, b) -> quiet x x'.
Proof.
  intros O E. unfold try_trim_snap_dentry in E. destruct (df_items x !! k) as [dn|]; [|done].
  apply bind_ok in E as (? & _ & E). destruct (trimmable _ _ _); [|injection E as <- _ _; apply quiet_refl].
  destruct (clean_inode inodes dn) as [[i' dn'] es0].
  apply bind_ok in E as ([x1 es1] & E1 & E). injection E as <- _ _.
  unfold purge_dentry in E1. apply bind_ok in E1 as ([x2 es2] & E2 & E1). injection E1 as <- _.
  eapply quiet_trans; [|by eapply remove_dentry_quiet; [|exact E2]]. by apply quiet_same.
Qed.

(** What a run over the dentries leaves alone of a [cdir]. *)
Definition same_cdir d d' : Prop := exists x, quiet (cd_dir d) x /\ d' = set_cd_dir x d.

Lemma same_cdir_refl d : same_cdir d d.
Proof. exists (cd_dir d). split; [apply quiet_refl|]. by destruct d as [[]]. Qed.
Lemma same_cdir_trans d1 d2 d3 : same_cdir d1 d2 -> same_cdir d2 d3 -> same_cdir d1 d3.
Proof.
  intros (x & Q & ->) (y & Q' & ->). exists y. split; [|done]. by eapply quiet_trans.
Qed.
Lemma same_cdir_obj d d' : same_cdir d d' -> obj_ok (cd_obj d) -> obj_ok (cd_obj d').
Proof. intros (x & Q & ->). apply Q. Qed.

Lemma commit_dentry_same prio snaps k (s s' : cstate (C := C) (S := S) (T := T)) :
  obj_ok (cd_obj (cs_dir s)) -> commit_dentry prio snaps k s = Ok s' -> same_cdir (cs_dir s) (cs_dir s').
Proof.
  intros O E. unfold commit_dentry in E. destruct (df_items _ !! k) as [dn|]; [|done].
  apply bind_ok in E as ([s1 t] & E1 & E).
  assert (same_cdir (cs_dir s) (cs_dir s1)) as Q1.
  { unfold commit_trim in E1. destruct snaps as [sn|]; [|injection E1 as <- <-; apply same_cdir_refl].
    destruct (is_head dn); [injection E1 as <- <-; apply same_cdir_refl|].
    apply bind_ok in E1 as ([[x es] t'] & E2 & E1).
    destruct t'; injection E1 as <- <-; [|apply same_cdir_refl]. exists x. split; [|done].
    by eapply trim_quiet; [|exact E2]. }
  destruct (t || skipped dn); [by injection E as <-|]. apply bind_ok in E as (s2 & E2 & E). injection E as <-.
  eapply same_cdir_trans; [exact Q1|].
  assert (cs_dir (commit_flush prio s2) = cs_dir s2) as -> by (unfold commit_flush; by destruct (_ <=? _)).
  unfold commit_add in E2. destruct (is_null dn); [injection E2 as <-; apply same_cdir_refl|].
  apply bind_ok in E2 as ([[dn' objs'] bl] & _ & E2). injection E2 as <-. eexists. split; [|done].
  by apply quiet_same.
Qed.

Lemma commit_loop_same prio snaps ks (s s' : cstate (C := C) (S := S) (T := T)) :
  obj_ok (cd_obj (cs_dir s)) -> commit_loop prio snaps ks s = Ok s' -> same_cdir (cs_dir s) (cs_dir s').
Proof.
  revert s. induction ks as [|k ks IH]; intros s O E; [injection E as <-; apply same_cdir_refl|].
  apply bind_ok in E as (s1 & E1 & E). pose proof (commit_dentry_same _ _ _ _ _ O E1) as Q.
  eapply same_cdir_trans; [exact Q|]. apply IH; [|done]. by apply (same_cdir_obj _ _ Q).
Qed.

Lemma omap_commit_same prio ie objs d d' objs' es :
  obj_ok (cd_obj d) -> _omap_commit prio ie objs d = Ok (d', objs', es) -> same_cdir d d'.
Proof.
  intros O E. apply bind_ok in E as (s & E1 & E). injection E as <- _ _.
  exact (commit_loop_same _ _ _ (mk_cstate d objs batch_new []) _ O E1).
Qed.

Lemma committed_dentry_quiet stray cv k dn objs x x' objs' es :
  obj_ok (df_obj x) -> committed_dentry stray cv k dn objs x = Ok (x', objs', es) -> quiet x x'.
Proof.
  intros O E. unfold committed_dentry in E. apply bind_ok in E as ([[dn1 objs1] es1] & _ & E). cbv zeta in E.
  destruct (_ && is_dirty _); [|injection E as <- _ _; by apply quiet_same].
  destruct (stray && _ && _ && _); [|injection E as <- _ _; by apply quiet_same].
  apply bind_ok in E as ([x1 es2] & E2 & E). injection E as <- _ _.
  eapply quiet_trans; [|by eapply remove_dentry_quiet; [|exact E2]]. by apply quiet_same.
Qed.

Lemma committed_walk_quiet stray cv ks objs x x' objs' es :
  obj_ok (df_obj x) -> committed_walk stray cv ks objs x = Ok (x', objs', es) -> quiet x x'.
Proof.
  revert objs x es. induction ks as [|k ks IH]; intros objs x es O E; [injection E as <- _ _; apply quiet_refl|].
  cbn [committed_walk] in E. destruct (df_items x !! k) as [dn|]; [|done].
  apply bind_ok in E as ([[x1 objs1] es1] & E1 & E). apply bind_ok in E as ([[x2 objs2] es2] & E2 & E).
  injection E as <- <- _. pose proof (committed_dentry_quiet _ _ _ _ _ _ _ _ _ O E1) as Q.
  eapply quiet_trans; [exact Q|]. eapply IH; [|exact E2]. by apply Q.
Qed.

(** ** Marks *)

(** The bits the freezing state machine reads. *)
Definition freeze_bit (k : Z) : Prop := k = 2 \/ k = 3 \/ k = 4 \/ k = 5 \/ k = 30.

Lemma fz_state ext f st :
  (forall k, freeze_bit k -> Z.testbit st k = Z.testbit (co_state (fd_obj f)) k) ->
  fz_ok ext f -> fz_ok ext (set_fd_obj (set_co_state st (fd_obj f)) f).
Proof.
  intros Hb [O I]. split; [by apply obj_ok_state|].
  assert (view (set_fd_obj (set_co_state st (fd_obj f)) f) = view f) as ->; [|done].
  unfold view, is_freezing_tree_root, is_frozen_tree_root, is_freezing_dir, is_frozen_dir, fd_test, is_auth, state_test,
    STATE_FREEZINGTREE, STATE_FROZENTREE, STATE_FREEZINGDIR, STATE_FROZENDIR, STATE_AUTH.
  rewrite !has_bits_testbit by lia.
  change (co_state (fd_obj (set_fd_obj (set_co_state st (fd_obj f)) f))) with st.
  rewrite !Hb by (unfold freeze_bit; tauto). done.
Qed.

Lemma fz_set_bit ext f j :
  0 <= j -> ~ freeze_bit j -> fz_ok ext f -> fz_ok ext (set_fd_obj (state_set (Z.shiftl 1 j) (fd_obj f)) f).
Proof.
  intros Hj Hb. apply fz_state. intros k Hk. rewrite Z.lor_spec, Z.shiftl_1_l, Z.pow2_bits_eqb by done.
  replace (j =? k) with false; [by rewrite orb_false_r|]. symmetry. apply Z.eqb_neq. by intros ->.
Qed.

Lemma fz_clear_bit ext f j :
  0 <= j -> ~ freeze_bit j -> fz_ok ext f -> fz_ok ext (set_fd_obj (state_clear (Z.shiftl 1 j) (fd_obj f)) f).
Proof.
  intros Hj Hb. apply fz_state. intros k Hk. rewrite Z.ldiff_spec, Z.shiftl_1_l, Z.pow2_bits_eqb by done.
  replace (j =? k) with false; [by rewrite andb_true_r|]. symmetry. apply Z.eqb_neq. by intros ->.
Qed.

Lemma fz_repin ext f n pin :
  pin <> PIN_REPLICATED -> pin <> PIN_WAITER -> pin <> PIN_AUTHPIN -> pin <> PIN_FROZEN ->
  0 <= pins (fd_obj f) pin + n -> co_ref (fd_obj f) + n < 2 ^ 31 ->
  fz_ok ext f -> fz_ok ext (set_fd_obj (repin n pin (fd_obj f)) f).
Proof.
  intros N1 N2 N3 N4 Hp Hr [O I]. split; [by apply obj_ok_repin|].
  rewrite view_repin, !decide_False, !Z.add_0_r by done. by destruct (view f).
Qed.

Lemma fz_quiet ext f x : quiet (fd_dir f) x -> fz_ok ext f -> fz_ok ext (set_fd_dir x f).
Proof.
  intros Q [O I]. split; [by apply Q|].
  assert (view (set_fd_dir x f) = view f) as ->; [|done].
  unfold view, is_freezing_tree_root, is_frozen_tree_root, is_freezing_dir, is_frozen_dir, fd_test, is_auth, state_test.
  change (fd_obj (set_fd_dir x f)) with (df_obj x).
  rewrite (qt_state _ _ Q), !(qt_pins _ _ Q) by done. done.
Qed.

(** What auth pins and freezes leave alone. *)
Definition freeze_pin (p : Z) : Prop := p = PIN_AUTHPIN \/ p = PIN_FROZEN \/ p = PIN_WAITER.

Record calm f f' : Prop := {
  ca_items : df_items (fd_dir f') = df_items (fd_dir f);
  ca_pv : df_projected_version (fd_dir f') = df_projected_version (fd_dir f);
  ca_dir : fd_dir f' = set_obj (fd_obj f') (fd_dir f);
  ca_bits : forall k, 0 <= k -> ~ (2 <= k <= 5) -> Z.testbit (co_state (fd_obj f')) k = Z.testbit (co_state (fd_obj f)) k;
  ca_pins : forall p, ~ freeze_pin p -> pins (fd_obj f') p = pins (fd_obj f) p
}.

Lemma set_obj_self x : set_obj (df_obj x) x = x.
Proof. by destruct x. Qed.

Lemma calm_same f f' : fd_dir f' = fd_dir f -> calm f f'.
Proof. intros E. split; unfold fd_obj; rewrite E; try done. symmetry. apply set_obj_self. Qed.
Lemma calm_refl f : calm f f.
Proof. by apply calm_same. Qed.
Lemma calm_trans f1 f2 f3 : calm f1 f2 -> calm f2 f3 -> calm f1 f3.
Proof.
  intros [A1 A2 A5 A3 A4] [B1 B2 B5 B3 B4]. split; [congruence|congruence|by rewrite B5, A5 at 1| |].
  - intros k Hk Hn. by rewrite B3, A3.
  - intros p Hp. by rewrite B4, A4.
Qed.

Lemma put_other (o o' : cobj C) pin hs : put o pin = Ok (o', hs) ->
  co_state o' = co_state o /\ forall p, p <> pin -> pins o' p = pins o p.
Proof.
  unfold put. destruct (_ || _).
  - unfold bad_put. intros E. apply bind_ok in E as (? & _ & E). apply bind_ok in E as (? & _ & E).
    by injection E as <- _.
  - intros E. apply bind_ok in E as (? & _ & E). injection E as <- _. split; [done|].
    intros p N. unfold pins. cbn. by rewrite lookup_insert_ne.
Qed.

Lemma get_other (o o' : cobj C) pin hs : get o pin = Ok (o', hs) ->
  co_state o' = co_state o /\ forall p, p <> pin -> pins o' p = pins o p.
Proof.
  unfold get. intros E. apply bind_ok in E as (? & _ & E). injection E as <- _. split; [done|].
  intros p N. unfold pins. cbn. by rewrite lookup_insert_ne.
Qed.

Lemma calm_obj f o :
  co_state o = co_state (fd_obj f) -> (forall p, ~ freeze_pin p -> pins o p = pins (fd_obj f) p) ->
  calm f (set_fd_obj o f).
Proof. intros E1 E2. split; try done. intros k _ _. change (fd_obj (set_fd_obj o f)) with o. by rewrite E1. Qed.

Lemma calm_get pin f f' es : freeze_pin pin -> fd_get pin f = Ok (f', es) -> calm f f'.
Proof.
  intros Hp E. apply bind_ok in E as ([x es1] & E1 & E). injection E as <- _.
  apply bind_ok in E1 as ([o hs] & E1 & E). injection E as <- _. destruct (get_other _ _ _ _ E1) as [Es Ep].
  apply (calm_obj f o); [done|]. intros p N. apply Ep. by intros ->.
Qed.

Lemma calm_put pin f f' es : freeze_pin pin -> fd_put pin f = Ok (f', es) -> calm f f'.
Proof.
  intros Hp E. apply bind_ok in E as ([x es1] & E1 & E). injection E as <- _.
  apply bind_ok in E1 as ([o hs] & E1 & E). injection E as <- _. destruct (put_other _ _ _ _ E1) as [Es Ep].
  apply (calm_obj f o); [done|]. intros p N. apply Ep. by intros ->.
Qed.

Lemma calm_finish mask r f f' es :
  has_bits mask WAIT_DENTRY = false -> finish_waiting mask r f = Ok (f', es) -> calm f f'.
Proof.
  intros Hm E. apply bind_ok in E as ([[x es1] ls] & E1 & E). injection E as <- _.
  unfold dir_take_waiting in E1. rewrite Hm in E1. apply bind_ok in E1 as ([[x1 es2] ls1] & E2 & E1).
  injection E2 as <- <- <-. apply bind_ok in E1 as ([[o hs] ls2] & E2 & E1). injection E1 as <- _ _.
  apply (calm_obj f o); unfold take_waiting in E2; destruct (co_waiting _) as [|w ws] eqn:Ew;
    try (by injection E2 as <- _ _); destruct (take_loop mask (w :: ws) []) as [l1 rest];
    apply bind_ok in E2 as ([o1 hs1] & E3 & E2); injection E2 as <- _ _;
    (destruct rest; [|by injection E3 as <- _]); destruct (put_other _ _ _ _ E3) as [Es Ep]; [done|].
  intros p N. rewrite Ep; [done|]. intros ->. apply N. unfold freeze_pin. tauto.
Qed.

(** The four state bits of a freeze. *)
Lemma calm_bits f b c :
  2 <= b <= 5 -> 2 <= c <= 5 ->
  calm f (set_fd_obj (state_set (Z.shiftl 1 b) (state_clear (Z.shiftl 1 c) (fd_obj f))) f).
Proof.
  intros Hb Hc. split; try done. intros k Hk Hn.
  change (Z.testbit (Z.lor (Z.ldiff (co_state (fd_obj f)) (Z.shiftl 1 c)) (Z.shiftl 1 b)) k =
    Z.testbit (co_state (fd_obj f)) k).
  rewrite Z.lor_spec, Z.ldiff_spec, !Z.shiftl_1_l, !Z.pow2_bits_eqb by lia.
  replace (b =? k) with false by lia. replace (c =? k) with false by lia. by rewrite orb_false_r, andb_true_r.
Qed.

Lemma calm_auth_pin f f' es : auth_pin f = Ok (f', es) -> calm f f'.
Proof.
  intros E. apply bind_ok in E as ([f1 es1] & E1 & E). injection E as <- _.
  apply (calm_trans f f1); [|by apply calm_same]. destruct (auth_pins f =? 0); [|injection E1 as <- _; apply calm_refl].
  eapply calm_get; [|exact E1]. unfold freeze_pin. tauto.
Qed.

Lemma calm_freeze_dir f f' es : _freeze_dir f = Ok (f', es) -> calm f f'.
Proof.
  intros E. unfold _freeze_dir in E. apply bind_ok in E as ([f1 es1] & E1 & E). injection E as <- _.
  eapply calm_trans; [apply (calm_bits f 4 5); lia|]. eapply calm_get; [|exact E1]. unfold freeze_pin. tauto.
Qed.

Lemma calm_freeze_tree e f f' es : _freeze_tree e f = Ok (f', es) -> calm f f'.
Proof.
  intros E. unfold _freeze_tree in E. apply bind_ok in E as (? & _ & E).
  apply bind_ok in E as ([f1 es1] & E1 & E). injection E as <- _.
  eapply calm_trans; [apply (calm_bits f 2 3); lia|]. eapply calm_get; [|exact E1]. unfold freeze_pin. tauto.
Qed.

Lemma calm_maybe unpin e f f' es :
  (forall g g' es', unpin g = Ok (g', es') -> calm g g') ->
  maybe_finish_freeze unpin e f = Ok (f', es) -> calm f f'.
Proof.
  intros Hu E. unfold maybe_finish_freeze in E. destruct (_ || _); [injection E as <- _; apply calm_refl|].
  apply bind_ok in E as ([f1 es1] & E1 & E).
  assert (calm f f1) as Q1.
  { destruct (fd_test f STATE_FREEZINGDIR); [|injection E1 as <- _; apply calm_refl].
    apply bind_ok in E1 as ([g1 gs1] & G1 & E1). apply bind_ok in E1 as ([g2 gs2] & G2 & E1).
    apply bind_ok in E1 as ([g3 gs3] & G3 & E1). injection E1 as <- _.
    eapply calm_trans; [by eapply calm_freeze_dir|]. eapply calm_trans; [by eapply Hu|].
    eapply calm_finish; [|exact G3]. done. }
  eapply calm_trans; [exact Q1|]. destruct (negb _); [injection E as <- _; apply calm_refl|].
  destruct (fd_test f1 STATE_FREEZINGTREE); [|injection E as <- _; apply calm_refl].
  destruct (_ && _).
  - apply bind_ok in E as ([g1 gs1] & G1 & E). injection E as <- _. by eapply calm_auth_pin.
  - apply bind_ok in E as ([g1 gs1] & G1 & E). apply bind_ok in E as ([g2 gs2] & G2 & E).
    apply bind_ok in E as ([g3 gs3] & G3 & E). injection E as <- _.
    eapply calm_trans; [by eapply calm_freeze_tree|]. eapply calm_trans; [by eapply Hu|].
    eapply calm_finish; [|exact G3]. done.
Qed.

Lemma calm_unpin_n n e f f' es : auth_unpin_n n e f = Ok (f', es) -> calm f f'.
Proof.
  revert f f' es. induction n as [|n IH]; intros f f' es E; [done|]. cbn [auth_unpin_n] in E. cbv zeta in E.
  apply bind_ok in E as ([f1 es1] & E1 & E). apply bind_ok in E as (? & _ & E).
  apply bind_ok in E as ([f2 es2] & E2 & E). injection E as <- _.
  assert (calm f f1) as Q1.
  { apply (calm_trans f (set_auth_pins (s32 (auth_pins f - 1)) f)); [by apply calm_same|].
    destruct (auth_pins _ =? 0); [|injection E1 as <- _; apply calm_refl].
    eapply calm_put; [|exact E1]. unfold freeze_pin. tauto. }
  eapply calm_trans; [exact Q1|]. eapply calm_maybe; [|exact E2]. exact IH.
Qed.

(** [d'] is [d] with other dirty marks. *)
Record only_marks d d' : Prop := {
  om_fnode : fnode d' = fnode d;
  om_projected : projected_fnode d' = projected_fnode d;
  om_committing : committing_version d' = committing_version d;
  om_committed : committed_version d' = committed_version d;
  om_waiting : waiting_for_commit d' = waiting_for_commit d;
  om_pv : projected_version d' = projected_version d;
  om_items : df_items (cd_dir d') = df_items (cd_dir d);
  om_bit : cd_test d' STATE_COMMITTING = cd_test d STATE_COMMITTING;
  om_auth : cd_is_auth d' = cd_is_auth d;
  om_dir : cd_dir d' = set_obj (cd_obj d') (cd_dir d);
  om_held : pins (cd_obj d') PIN_CHILD = pins (cd_obj d) PIN_CHILD /\ pins (cd_obj d') PIN_DNWAITER = pins (cd_obj d) PIN_DNWAITER /\
    cd_test d' STATE_DNPINNEDFRAG = cd_test d STATE_DNPINNEDFRAG
}.

Lemma only_marks_refl d : only_marks d d.
Proof. split; try done. symmetry. apply set_obj_self. Qed.

(** [d'] has the dentries of [d]. *)
Record same_dentries d d' : Prop := {
  sd_fnode : fnode d' = fnode d;
  sd_dir : exists v, cd_dir d' = mk_dfrag (cd_obj d') (df_items (cd_dir d)) (num_head_items (cd_dir d)) (num_head_null (cd_dir d))
    (num_snap_items (cd_dir d)) (num_snap_null (cd_dir d)) v (waiting_on_dentry (cd_dir d));
  sd_held : pins (cd_obj d') PIN_CHILD = pins (cd_obj d) PIN_CHILD /\ pins (cd_obj d') PIN_DNWAITER = pins (cd_obj d) PIN_DNWAITER /\
    cd_test d' STATE_DNPINNEDFRAG = cd_test d STATE_DNPINNEDFRAG;
  sd_refs : refs_ok (cd_obj d')
}.

Lemma same_dentries_trans d1 d2 d3 : same_dentries d1 d2 -> same_dentries d2 d3 -> same_dentries d1 d3.
Proof.
  intros [A1 [v A2] (A3 & A4 & A5) A6] [B1 [w B2] (B3 & B4 & B5) B6]. split; [congruence| |split_and!; congruence|done].
  exists w. rewrite B2. by rewrite A2.
Qed.

Lemma marks_same d d' : only_marks d d' -> refs_ok (cd_obj d') -> same_dentries d d'.
Proof. intros M R. split; [apply M| |apply M|done]. eexists. exact (om_dir _ _ M). Qed.

Lemma tidy_same inodes d d' : same_dentries d d' -> tidy inodes (cd_dir d) -> tidy inodes (cd_dir d').
Proof.
  intros [E1 [v E2] (E3 & E4 & E5) E6] Ty. apply (tidy_obj inodes (cd_dir d)); try done; by rewrite E2.
Qed.

Lemma tidy_marks inodes d d' : only_marks d d' -> refs_ok (cd_obj d') -> tidy inodes (cd_dir d) -> tidy inodes (cd_dir d').
Proof. intros M R. by apply tidy_same, marks_same. Qed.

(** No pins and no auth pins more than before. *)
Definition no_more_pins d d' : Prop :=
  co_ref (cd_obj d') <= co_ref (cd_obj d) /\ auth_pins (cd_fdir d') = auth_pins (cd_fdir d) /\
  nested_auth_pins (cd_fdir d') = nested_auth_pins (cd_fdir d) /\ co_waiting (cd_obj d') = co_waiting (cd_obj d).

(** The pin of a dirty fragment. *)
Record dirty_ok (ext : Z) d : Prop := {
  do_fz : fz_ok ext (cd_fdir d);
  do_pin : pins (cd_obj d) PIN_DIRTY = b2z (cd_test d STATE_DIRTY)
}.

Lemma mark_dirty_keeps ext seg d :
  dirty_ok ext d -> co_ref (cd_obj d) < 2 ^ 31 - 1 ->
  exists d' es, _mark_dirty (Some seg) d = Ok (d', es) /\ dirty_ok ext d' /\ only_marks d d' /\
    cd_test d' STATE_DIRTY = true /\ item_dirty d' = Some seg.
Proof.
  intros [F P] B. unfold _mark_dirty. destruct (cd_test d STATE_DIRTY) eqn:Ed; cbn [mbind res_bind].
  - eexists _, _. split; [done|]. rewrite <- Ed in P. split_and!; [split; [exact F|exact P]|split; try done; symmetry; apply set_obj_self|exact Ed|done].
  - unfold _set_dirty_flag. rewrite Ed. unfold cd_get, on_fdir.
    set (d1 := set_cd_obj _ d).
    assert (fz_ok ext (cd_fdir d1)) as F1.
    { change (cd_fdir d1) with (set_fd_obj (state_set STATE_DIRTY (fd_obj (cd_fdir d))) (cd_fdir d)).
      apply fz_set_bit; [done| |done]. unfold freeze_bit. lia. }
    destruct (fd_get_ok PIN_DIRTY (cd_fdir d1)) as (hs & -> & O1); [apply F1|done|done|done|].
    cbn [mbind res_bind]. rewrite bool_decide_true by done. cbn [mbind res_bind assert_].
    eexists _, _. split; [done|].
    assert (fz_ok ext (set_fd_obj (repin 1 PIN_DIRTY (fd_obj (cd_fdir d1))) (cd_fdir d1))) as F2.
    { apply fz_repin; try done; [|change (co_ref (cd_obj d) + 1 < 2 ^ 31); lia].
      change (0 <= pins (cd_obj d) PIN_DIRTY + 1). rewrite P. simpl. lia. }
    split_and!; [split; [exact F2|]| | |done].
    + change (pins (repin 1 PIN_DIRTY (cd_obj d)) PIN_DIRTY =
        b2z (state_test (state_set STATE_DIRTY (cd_obj d)) STATE_DIRTY)).
      rewrite pins_repin, decide_True, P by done. unfold STATE_DIRTY. by rewrite state_test_set.
    + split; try done.
      * change (state_test (state_set STATE_DIRTY (cd_obj d)) STATE_COMMITTING = cd_test d STATE_COMMITTING).
        unfold STATE_DIRTY, STATE_COMMITTING. by rewrite state_test_set.
      * change (state_test (state_set STATE_DIRTY (cd_obj d)) STATE_AUTH = cd_is_auth d).
        unfold STATE_DIRTY, STATE_AUTH. by rewrite state_test_set.
      * split_and!; [change (pins (repin 1 PIN_DIRTY (cd_obj d)) PIN_CHILD = pins (cd_obj d) PIN_CHILD); by rewrite pins_repin, decide_False
          |change (pins (repin 1 PIN_DIRTY (cd_obj d)) PIN_DNWAITER = pins (cd_obj d) PIN_DNWAITER); by rewrite pins_repin, decide_False|].
        change (state_test (state_set STATE_DIRTY (cd_obj d)) STATE_DNPINNEDFRAG = cd_test d STATE_DNPINNEDFRAG).
        unfold STATE_DIRTY, STATE_DNPINNEDFRAG. by rewrite state_test_set.
    + change (state_test (state_set STATE_DIRTY (cd_obj d)) STATE_DIRTY = true).
      unfold STATE_DIRTY. by rewrite state_test_set.
Qed.

Lemma mark_clean_keeps ext d :
  dirty_ok ext d -> exists d' es, cd_mark_clean d = Ok (d', es) /\ dirty_ok ext d' /\ only_marks d d' /\
    cd_test d' STATE_DIRTY = false /\ no_more_pins d d'.
Proof.
  intros [F P]. unfold cd_mark_clean, mark_clean. change (state_test (df_obj (cd_dir d)) STATE_DIRTY) with (cd_test d STATE_DIRTY).
  destruct (cd_test d STATE_DIRTY) eqn:Ed; cbn [mbind res_bind].
  - set (d1 := set_cd_obj (state_clear STATE_DIRTY (cd_obj d)) d).
    assert (fz_ok ext (cd_fdir d1)) as F1.
    { change (cd_fdir d1) with (set_fd_obj (state_clear STATE_DIRTY (fd_obj (cd_fdir d))) (cd_fdir d)).
      apply fz_clear_bit; [done| |done]. unfold freeze_bit. lia. }
    unfold dir_put. change (df_obj (set_obj _ (cd_dir d))) with (cd_obj d1).
    rewrite put_ok; [|apply F1|change (0 < pins (cd_obj d) PIN_DIRTY); rewrite P; done].
    cbn [mbind res_bind]. eexists _, _. split; [done|].
    assert (fz_ok ext (set_fd_obj (repin (-1) PIN_DIRTY (fd_obj (cd_fdir d1))) (cd_fdir d1))) as F2.
    { apply fz_repin; try done; [change (0 <= pins (cd_obj d) PIN_DIRTY + -1); rewrite P; simpl; lia|].
      pose proof (ro_sum _ (oo_refs _ (fz_obj _ _ F))). pose proof (ro_small _ (oo_refs _ (fz_obj _ _ F))).
      change (co_ref (fd_obj (cd_fdir d)) + -1 < 2 ^ 31). lia. }
    split_and!; [split; [exact F2|]| | |].
    + change (pins (repin (-1) PIN_DIRTY (cd_obj d)) PIN_DIRTY =
        b2z (state_test (state_clear STATE_DIRTY (cd_obj d)) STATE_DIRTY)).
      rewrite pins_repin, decide_True, P by done. unfold STATE_DIRTY. by rewrite state_test_clear.
    + split; try done.
      * change (state_test (state_clear STATE_DIRTY (cd_obj d)) STATE_COMMITTING = cd_test d STATE_COMMITTING).
        unfold STATE_DIRTY, STATE_COMMITTING. by rewrite state_test_clear.
      * change (state_test (state_clear STATE_DIRTY (cd_obj d)) STATE_AUTH = cd_is_auth d).
        unfold STATE_DIRTY, STATE_AUTH. by rewrite state_test_clear.
      * split_and!; [change (pins (repin (-1) PIN_DIRTY (cd_obj d)) PIN_CHILD = pins (cd_obj d) PIN_CHILD); by rewrite pins_repin, decide_False
          |change (pins (repin (-1) PIN_DIRTY (cd_obj d)) PIN_DNWAITER = pins (cd_obj d) PIN_DNWAITER); by rewrite pins_repin, decide_False|].
        change (state_test (state_clear STATE_DIRTY (cd_obj d)) STATE_DNPINNEDFRAG = cd_test d STATE_DNPINNEDFRAG).
        unfold STATE_DIRTY, STATE_DNPINNEDFRAG. by rewrite state_test_clear.
    + change (state_test (state_clear STATE_DIRTY (cd_obj d)) STATE_DIRTY = false).
      unfold STATE_DIRTY. by rewrite state_test_clear.
    + split_and!; [change (co_ref (cd_obj d) + -1 <= co_ref (cd_obj d)); lia|done|done|done].
  - eexists _, _. split; [done|]. destruct (same_cdir_refl d) as (x & _ & Ex).
    replace (set_cd_dir (cd_dir d) d) with d by (by destruct d as [[]]).
    split_and!; [split; [done|by rewrite Ed]|apply only_marks_refl|done|by split_and!].
Qed.

(** ** Cleaning the dentries *)

Context `{!CleanOk} `{!CleanPins} `{!LeasesOk}.

(** [dn'] is [dn] after a commit up to [cv]. *)
Record cleaned (cv : Z) dn dn' : Prop := {
  cl_entry : same_entry dn dn';
  cl_version : dn_version dn' = dn_version dn;
  cl_dirty : is_dirty (dn_obj dn') = is_dirty (dn_obj dn) && (cv <? dn_version dn)
}.

Lemma committed_dentry_ok cv k dn objs x :
  (forall h, primary_ino dn = Some h -> covered cv (objs h)) ->
  exists dn' objs' es, committed_dentry false cv k dn objs x = Ok (upd_dentry k dn' x, objs', es) /\ cleaned cv dn dn' /\
    (forall h, ci_auth (objs' h) = ci_auth (objs h) /\ ci_store (objs' h) = ci_store (objs h) /\ ci_last (objs' h) = ci_last (objs h) /\
       in_dirty (ci_info (objs' h)) =
         in_dirty (ci_info (objs h)) && negb (bool_decide (primary_ino dn = Some h) && (st_version (ci_store (objs h)) <=? cv))).
Proof.
  intros Hc. unfold committed_dentry.
  destruct (committed_inode_ok cv k dn objs Hc) as (dn1 & objs1 & es1 & -> & E1 & V1 & D1 & HO). cbn [mbind res_bind].
  rewrite V1, D1. cbn [andb]. destruct ((dn_version dn <=? cv) && is_dirty (dn_obj dn)) eqn:Eb.
  - apply andb_true_iff in Eb as [Ev Ed]. eexists _, _, _. split; [done|]. split; [|done]. split.
    + by eapply same_entry_trans; [|apply clean_entry].
    + by rewrite clean_version.
    + rewrite clean_clean. replace (cv <? dn_version dn) with false by lia. by rewrite andb_false_r.
  - eexists _, _, _. split; [done|]. split; [|done]. split; [done|done|].
    rewrite D1. destruct (is_dirty (dn_obj dn)); [|done]. cbn [andb]. lia.
Qed.

Lemma committed_walk_ok cv ks objs x :
  NoDup ks -> (forall k, k ∈ ks -> is_Some (df_items x !! k)) -> items_covered cv objs x ks ->
  (forall k1 k2 dn1 dn2 h, df_items x !! k1 = Some dn1 -> df_items x !! k2 = Some dn2 ->
    primary_ino dn1 = Some h -> primary_ino dn2 = Some h -> k1 = k2) ->
  exists x' objs' es, committed_walk false cv ks objs x = Ok (x', objs', es) /\
    (forall k, k ∉ ks -> df_items x' !! k = df_items x !! k) /\
    (forall k dn, k ∈ ks -> df_items x !! k = Some dn -> exists dn', df_items x' !! k = Some dn' /\ cleaned cv dn dn') /\
    (forall k dn h, k ∈ ks -> df_items x !! k = Some dn -> primary_ino dn = Some h ->
       in_dirty (ci_info (objs' h)) = in_dirty (ci_info (objs h)) && (cv <? st_version (ci_store (objs h)))) /\
    (forall h, (forall k dn, k ∈ ks -> df_items x !! k = Some dn -> primary_ino dn <> Some h) ->
       in_dirty (ci_info (objs' h)) = in_dirty (ci_info (objs h))).
Proof.
  revert objs x. induction ks as [|k ks IH]; intros objs x ND Hi Hc One.
  { exists x, objs, []. split; [done|]. split; [done|]. split; [|split]; [..|done].
    - intros k dn Hk. by apply not_elem_of_nil in Hk.
    - intros k dn h Hk. by apply not_elem_of_nil in Hk. }
  apply NoDup_cons in ND as [Hk ND]. destruct (Hi k ltac:(set_solver)) as [dn Hdn]. cbn [committed_walk]. rewrite Hdn.
  destruct (committed_dentry_ok cv k dn objs x) as (dn' & objs1 & es1 & -> & Hcl & HO).
  { intros h. apply (Hc k dn h); [set_solver|done]. }
  cbn [mbind res_bind].
  assert (forall k', k' <> k -> df_items (upd_dentry k dn' x) !! k' = df_items x !! k') as Hother
    by (intros k' N; cbn; by rewrite lookup_insert_ne).
  assert (primary_ino dn' = primary_ino dn) as Epr by (unfold primary_ino; by rewrite (se_linkage _ _ (cl_entry _ _ _ Hcl))).
  destruct (IH objs1 (upd_dentry k dn' x) ND) as (x' & objs' & es' & -> & J1 & J2 & J3 & J4).
  - intros k' Hk'. rewrite Hother by (intros ->; done). apply Hi. set_solver.
  - intros k' dn1 h Hk' Hd1 Hp1. rewrite Hother in Hd1 by (intros ->; done).
    destruct (HO h) as (A1 & A2 & A3 & A4). destruct (Hc k' dn1 h ltac:(set_solver) Hd1 Hp1) as [B1 B2].
    split; [by rewrite A1|]. rewrite A2, A3, A4. rewrite bool_decide_false; [by rewrite andb_true_r|].
    intros Hp. assert (k = k') by (eapply One; eauto). by subst.
  - intros k1 k2 dn1 dn2 h. destruct (decide (k1 = k)) as [->|N1], (decide (k2 = k)) as [->|N2];
      cbn; rewrite ?lookup_insert_eq, ?lookup_insert_ne by done; intros; simplify_eq; try done.
    + rewrite Epr in *. eauto.
    + rewrite Epr in *. eauto.
    + eauto.
  - cbn [mbind res_bind]. exists x', objs', (es1 ++ es'). split; [done|]. split; [|split; [|split]].
    + intros k' Hn. rewrite J1, Hother by set_solver. done.
    + intros k' dn1 Hin Hd1. apply elem_of_cons in Hin as [->|Hin].
      * rewrite Hdn in Hd1. injection Hd1 as <-. rewrite J1 by done. cbn. rewrite lookup_insert_eq. eauto.
      * apply J2; [done|]. rewrite Hother by (intros ->; done). done.
    + intros k' dn1 h Hin Hd1 Hp1. destruct (HO h) as (A1 & A2 & A3 & A4). apply elem_of_cons in Hin as [->|Hin].
      * rewrite Hdn in Hd1. injection Hd1 as <-. rewrite J4.
        -- rewrite A4, bool_decide_true by done. cbn [andb]. by rewrite <- Z.ltb_antisym.
        -- intros k2 dn2 Hk2 Hd2 Hp2. rewrite Hother in Hd2 by (intros ->; done).
           assert (k = k2) by (eapply One; eauto). by subst.
      * rewrite (J3 k' dn1 h Hin); [|by rewrite Hother by (intros ->; done)|done].
        rewrite A4, A2, bool_decide_false; [by rewrite andb_true_r|].
        intros Hp. assert (k = k') by (eapply One; eauto). by subst.
    + intros h Hno. rewrite J4.
      * destruct (HO h) as (_ & _ & _ & ->). rewrite bool_decide_false; [by rewrite andb_true_r|].
        apply (Hno k dn); [set_solver|done].
      * intros k2 dn2 Hk2 Hd2. rewrite Hother in Hd2 by (intros ->; done). apply (Hno k2); [set_solver|done].
Qed.

(** ** Waking the waiters *)

Lemma kick_spec cv (l : list (Z * list C)) w :
  StronglySorted (fun a b => fst a <= fst b) l ->
  let '(ls, w', next) := kick_waiters cv l w in
  ls = map snd (filter (fun p : Z * list C => fst p <= cv) l) /\
  (forall v, w' !! v = if decide (v ∈ l.*1 /\ v <= cv) then None else w !! v) /\
  match next with
  | None => forall v, v ∈ l.*1 -> v <= cv
  | Some v => v ∈ l.*1 /\ cv < v
  end.
Proof.
  intros Hs. revert w. induction Hs as [|[v cs] l Hs IH Hall]; intros w.
  { cbn. split_and!; [done| |]; intros v; [rewrite decide_False; [done|]|]; rewrite elem_of_nil; tauto. }
  cbn [kick_waiters]. destruct (Z.ltb_spec cv v) as [Hv|Hv].
  - assert (forall v', v' ∈ (((v, cs) :: l).*1) -> cv < v') as Hgt.
    { intros v' Hin. cbn in Hin. apply elem_of_cons in Hin as [->|Hin]; [done|].
      apply list_elem_of_fmap in Hin as ([v1 cs1] & -> & Hin). pose proof (Forall_elem _ _ _ Hall Hin). simpl in *. lia. }
    split_and!.
    + rewrite filter_none; [done|]. intros [v1 cs1] Hin. simpl. pose proof (Hgt v1 ltac:(by apply (list_elem_of_fmap_2 fst) in Hin)). lia.
    + intros v'. rewrite decide_False; [done|]. intros [Hin Hle]. pose proof (Hgt v' Hin). lia.
    + cbn. set_solver.
    + done.
  - specialize (IH (delete v w)). destruct (kick_waiters cv l (delete v w)) as [[ls w'] next].
    destruct IH as (-> & IH2 & IH3). split_and!.
    + rewrite filter_cons_True by (simpl; lia). done.
    + intros v'. rewrite IH2. cbn. destruct (decide (v' ∈ l.*1 /\ v' <= cv)) as [[? ?]|Hn].
      * rewrite decide_True; [done|]. split; [set_solver|done].
      * destruct (decide (v' = v)) as [->|N]; [rewrite lookup_delete_eq, decide_True by set_solver; done|].
        rewrite lookup_delete_ne, decide_False by set_solver. done.
    + destruct next as [v1|]; cbn; [set_solver|]. intros v' Hin. apply elem_of_cons in Hin as [->|]; [done|auto].
Qed.

Lemma ordered_le {A} (m : gmap Z A) : StronglySorted (fun a b => fst a <= fst b) (ordered m).
Proof.
  pose proof (ordered_sorted m) as Hs. induction Hs as [|p l Hs IH Hf]; constructor; [done|].
  eapply Forall_impl; [exact Hf|]. intros q Hq. unfold bind_le in Hq. by apply Z.leb_le in Hq.
Qed.

(** The waiters after a commit up to [cv]. *)
Lemma kick_ordered cv (w : gmap Z (list C)) :
  exists next, kick_waiters cv (ordered w) w =
    (map snd (filter (fun p : Z * list C => fst p <= cv) (ordered w)), filter (fun p : Z * list C => cv < fst p) w, next) /\
  match next with
  | None => filter (fun p : Z * list C => cv < fst p) w = ∅
  | Some v => is_Some (w !! v) /\ cv < v
  end.
Proof.
  pose proof (kick_spec cv (ordered w) w (ordered_le w)) as Hk.
  destruct (kick_waiters cv (ordered w) w) as [[ls w'] next]. destruct Hk as (-> & Hw & Hn). exists next.
  assert (w' = filter (fun p : Z * list C => cv < fst p) w) as ->.
  { apply map_eq. intros v. rewrite Hw. destruct (w !! v) as [cs|] eqn:E.
    - destruct (decide (cv < v)) as [Hv|Hv].
      + rewrite decide_False by lia. symmetry. by apply map_lookup_filter_Some.
      + rewrite decide_True. 2: { split; [|lia]. apply elem_of_ordered_keys. by rewrite E. }
        symmetry. apply map_lookup_filter_None. right. intros ? _. simpl. lia.
    - rewrite decide_False. 2: { rewrite elem_of_ordered_keys, E. by intros [[? ?] _]. }
      symmetry. apply map_lookup_filter_None. by left. }
  split; [done|]. destruct next as [v|].
  - by rewrite elem_of_ordered_keys in Hn.
  - apply map_empty. intros v. apply map_lookup_filter_None. destruct (w !! v) eqn:E; [right|by left].
    intros ? _. simpl. assert (v <= cv); [|lia]. apply Hn, elem_of_ordered_keys. by rewrite E.
Qed.

(** ** The invariant *)

(** Versions from the current one to the last one given out. *)
Definition versions_sorted d : Prop :=
  StronglySorted Z.le (get_version d :: map fn_version (projected_fnode d) ++ [projected_version d]).

(** [ext] auth pins are held by others than a commit; a commit under way holds one.  Versions
    are in order: committed, committing, current, those of the projected fnodes and the last
    one given out.  The state bit, the waiters and the auth pin all tell that a commit is under
    way, and each waiter waits for a version that is not yet committed. *)
Record commit_inv (ext : Z) d : Prop := {
  cv_ext : 0 <= ext;
  cv_dirty : dirty_ok (ext + b2z (committed_version d <? committing_version d)) d;
  cv_auth : cd_is_auth d = true;
  cv_order : 0 <= committed_version d <= committing_version d /\ committing_version d <= get_version d;
  cv_stack : versions_sorted d;
  cv_bit : cd_test d STATE_COMMITTING = (committed_version d <? committing_version d);
  cv_wait : waiting_for_commit d = ∅ <-> committed_version d = committing_version d;
  cv_want : forall v cs, waiting_for_commit d !! v = Some cs -> committed_version d < v <= get_version d
}.

(** Sizes within the widths of the counters. *)
Record cd_small d : Prop := {
  sm_ref : co_ref (cd_obj d) < 2 ^ 31 - 2;
  sm_pins : auth_pins (cd_fdir d) + nested_auth_pins (cd_fdir d) < 2 ^ 31 - 2;
  sm_version : projected_version d < 2 ^ 64 - 1
}.

(** Auth pins, seen from the fragment. *)
Lemma calm_marks d f' : calm (cd_fdir d) f' -> only_marks d (set_cd_fdir f' d) /\
  cd_test (set_cd_fdir f' d) STATE_DIRTY = cd_test d STATE_DIRTY /\
  pins (cd_obj (set_cd_fdir f' d)) PIN_DIRTY = pins (cd_obj d) PIN_DIRTY.
Proof.
  intros [Q1 Q2 Qd Q3 Q4].
  assert (forall k, 0 <= k -> ~ (2 <= k <= 5) ->
    cd_test (set_cd_fdir f' d) (Z.shiftl 1 k) = cd_test d (Z.shiftl 1 k)) as Hb.
  { intros k Hk Hn. unfold cd_test, state_test. rewrite !has_bits_testbit by done. by apply Q3. }
  split; [|split].
  - split; try done.
    + apply Hb; lia.
    + apply (Hb 30); lia.
    + split_and!; [apply Q4; unfold freeze_pin; intros [E|[E|E]]; discriminate E..|apply (Hb 16); lia].
  - apply (Hb 29); lia.
  - apply Q4. unfold freeze_pin. intros [E|[E|E]]; discriminate E.
Qed.

Lemma auth_pin_thaw f f' es : auth_pin f = Ok (f', es) -> thaw_sum es = 0.
Proof.
  intros E. apply bind_ok in E as ([f1 es1] & E1 & E). injection E as _ <-.
  assert (sums es1 = (0, 0, 0)) as Hs.
  { destruct (auth_pins f =? 0); [|by injection E1 as _ <-].
    apply bind_ok in E1 as ([x hs] & _ & E1). injection E1 as _ <-. apply sums_hooks. }
  match goal with |- thaw_sum (_ ++ ?l) = 0 =>
    pose proof (f_equal snd (sums_app es1 l)) as Ha; rewrite Hs in Ha; cbn in Ha; rewrite Ha end.
  by destruct (_ && _).
Qed.

Lemma cd_pin_keeps ext d :
  dirty_ok ext d -> co_ref (cd_obj d) < 2 ^ 31 - 1 ->
  auth_pins (cd_fdir d) + nested_auth_pins (cd_fdir d) < 2 ^ 31 - 1 ->
  is_frozen_tree_root (cd_fdir d) = false -> is_frozen_dir (cd_fdir d) = false ->
  exists d' es, cd_auth_pin d = Ok (d', es) /\ dirty_ok (ext + 1) d' /\ only_marks d d' /\
    cd_test d' STATE_DIRTY = cd_test d STATE_DIRTY.
Proof.
  intros [F P] B Hp B1 B2.
  destruct (auth_pin_keeps ext (cd_fdir d)) as (f' & es & E & O' & _ & I' & _); [apply F|done|apply F|done|done|done|].
  rewrite (auth_pin_thaw _ _ _ E), Z.add_0_r in I'. pose proof (calm_marks d f' (calm_auth_pin _ _ _ E)) as (Hm & Hd & Hpn).
  unfold cd_auth_pin, on_fdir. rewrite E. cbn [mbind res_bind]. eexists _, _. split; [done|].
  split; [|by split]. split; [by split|]. by rewrite Hd, Hpn.
Qed.

Lemma cd_unpin_keeps ext e d :
  dirty_ok ext d -> co_ref (cd_obj d) < 2 ^ 31 - 1 ->
  auth_pins (cd_fdir d) + nested_auth_pins (cd_fdir d) < 2 ^ 31 - 1 -> 1 <= ext ->
  exists d' es t, cd_auth_unpin e d = Ok (d', es) /\ 0 <= t /\ dirty_ok (ext - 1 + t) d' /\ only_marks d d' /\
    cd_test d' STATE_DIRTY = cd_test d STATE_DIRTY.
Proof.
  intros [F P] B Hp Hx.
  destruct (auth_unpin_keeps ext e (cd_fdir d)) as (f' & es & E & O' & _ & I' & _ & Ht); [apply F|done|apply F|done|done|].
  pose proof (calm_marks d f' (calm_unpin_n _ _ _ _ _ E)) as (Hm & Hd & Hpn).
  unfold cd_auth_unpin, on_fdir. rewrite E. cbn [mbind res_bind]. eexists _, _, (thaw_sum es). split; [done|].
  split; [done|]. split; [|by split]. split; [by split|]. by rewrite Hd, Hpn.
Qed.

(** ** The operations *)

(** What a commit may not change. *)
Record kept d d' : Prop := {
  kp_fnode : fnode d' = fnode d;
  kp_projected : projected_fnode d' = projected_fnode d;
  kp_pv : projected_version d' = projected_version d;
  kp_waiting : waiting_for_commit d' = waiting_for_commit d;
  kp_committed : committed_version d' = committed_version d;
  kp_auth : cd_is_auth d' = cd_is_auth d
}.

Lemma quiet_dirty ext d x : quiet (cd_dir d) x -> dirty_ok ext d -> dirty_ok ext (set_cd_dir x d).
Proof.
  intros Q [F P]. split; [by apply (fz_quiet ext (cd_fdir d))|].
  unfold cd_test, state_test. change (cd_obj (set_cd_dir x d)) with (df_obj x).
  by rewrite (qt_state _ _ Q), (qt_pins _ _ Q).
Qed.

(** The dentries of [d] can be written. *)
Definition ready ie objs d : Prop := forall prio d1, same_dentries d d1 -> is_ok (_omap_commit prio ie objs d1) = true.

(** [d'] and [objs'] are what writing the dentries of [d] left. *)
Definition wrote ie objs d d' objs' : Prop := exists prio d1 es, same_dentries d d1 /\ _omap_commit prio ie objs d1 = Ok (d', objs', es).

Lemma ready_plain ie objs d : purge_snaps ie (fnode d) = None -> keys_u64 d -> one_primary d -> ready ie objs d.
Proof.
  intros Hp U One prio d1 [E1 [v E2] _ _].
  destruct (omap_commit_total prio ie objs d1) as (? & ? & ? & ->); [..|done]; [intros k dn; rewrite E2; apply U| |by rewrite E1].
  intros k1 k2 dn1 dn2 h. rewrite E2. apply One.
Qed.

Lemma ready_tidy ie objs d : tidy (infos objs) (cd_dir d) -> ready ie objs d.
Proof.
  intros Ty prio d1 Sd. by destruct (omap_commit_tidy prio ie objs d1 (tidy_same _ _ _ Sd Ty)) as (? & ? & ? & -> & _).
Qed.

Lemma wrote_tidy ie objs d d' objs' : wrote ie objs d d' objs' -> tidy (infos objs) (cd_dir d) -> tidy (infos objs') (cd_dir d').
Proof.
  intros (prio & d1 & es & Sd & E) Ty. destruct (omap_commit_tidy prio ie objs d1 (tidy_same _ _ _ Sd Ty)) as (? & ? & ? & E' & Ty').
  rewrite E in E'. by injection E' as <- <- _.
Qed.

(** The state of a fragment that is about to write its object. *)
Definition committing_dir d : cdir C T :=
  let d := set_commits (get_version d) (committed_version d) d in
  if cd_test d STATE_COMMITTING then d else set_cd_obj (state_set STATE_COMMITTING (cd_obj d)) d.

Lemma committing_dir_ok ext d :
  dirty_ok ext d -> dirty_ok ext (committing_dir d) /\ cd_test (committing_dir d) STATE_COMMITTING = true /\
    cd_is_auth (committing_dir d) = cd_is_auth d /\ same_dentries d (committing_dir d).
Proof.
  intros D. unfold committing_dir. cbv zeta. destruct (cd_test _ STATE_COMMITTING) eqn:Eb.
  { split_and!; [by destruct D|done|done|]. split; [done|exists (df_projected_version (cd_dir d)); symmetry; apply set_obj_self|done|apply D]. }
  destruct D as [F P]. split_and!.
  - split; [apply (fz_set_bit ext (cd_fdir d) 6); [done| |done]; unfold freeze_bit; lia|].
    change (pins (cd_obj d) PIN_DIRTY = b2z (state_test (state_set STATE_COMMITTING (cd_obj d)) STATE_DIRTY)).
    rewrite P. unfold cd_test, STATE_COMMITTING, STATE_DIRTY. by rewrite state_test_set.
  - change (state_test (state_set STATE_COMMITTING (cd_obj d)) STATE_COMMITTING = true).
    unfold STATE_COMMITTING. by rewrite state_test_set.
  - change (state_test (state_set STATE_COMMITTING (cd_obj d)) STATE_AUTH = cd_is_auth d).
    unfold cd_is_auth, is_auth, STATE_COMMITTING, STATE_AUTH. by rewrite state_test_set.
  - split; [done|by eexists|split_and!; [done|done|]|by destruct (oo_refs _ (fz_obj _ _ F)); split].
    change (state_test (state_set STATE_COMMITTING (cd_obj d)) STATE_DNPINNEDFRAG = state_test (cd_obj d) STATE_DNPINNEDFRAG).
    unfold STATE_COMMITTING, STATE_DNPINNEDFRAG. by rewrite state_test_set.
Qed.

Lemma start_commit ext want prio ie objs d :
  dirty_ok ext d -> cd_is_auth d = true -> committed_version d = committing_version d ->
  committed_version d < want <= get_version d -> ready ie objs d ->
  exists d' objs' es, _commit want prio ie objs d = Ok (d', objs', es) /\ dirty_ok ext d' /\ kept d d' /\
    cd_test d' STATE_COMMITTING = true /\ committing_version d' = get_version d /\ wrote ie objs d d' objs'.
Proof.
  intros D Ha Ei Hw Hr. unfold _commit. rewrite check_true by (apply orb_true_iff; left; lia).
  rewrite Ha. cbn [assert_ mbind res_bind]. replace (want <=? committed_version d) with false by lia.
  replace (want <=? committing_version d) with false by lia.
  replace (committed_version d <? committing_version d) with false by lia. cbv zeta.
  change (if cd_test (set_commits _ _ d) STATE_COMMITTING then _ else _) with (committing_dir d).
  destruct (committing_dir_ok ext d D) as (D1 & B1 & A1 & Sd). set (d1 := committing_dir d) in *.
  assert (fnode d1 = fnode d /\ projected_fnode d1 = projected_fnode d /\ projected_version d1 = projected_version d /\
    waiting_for_commit d1 = waiting_for_commit d /\ committed_version d1 = committed_version d /\
    committing_version d1 = get_version d) as (E1 & E2 & E3 & E4 & E5 & E6)
    by (unfold d1, committing_dir; cbv zeta; by destruct (cd_test (set_commits _ _ _) _)).
  pose proof (Hr prio d1 Sd) as Hok. destruct (_omap_commit prio ie objs d1) as [[[d2 objs2] es2]|] eqn:E; [clear Hok|done].
  eexists _, _, _. split; [done|]. destruct (omap_commit_same _ _ _ _ _ _ _ (fz_obj _ _ (do_fz _ _ D1)) E) as (x & Q & ->).
  split; [by apply quiet_dirty|]. split; [|split; [|split; [done|by exists prio, d1, es2]]].
  - split; try done.
    + change (df_projected_version x = projected_version d). rewrite (qt_projected _ _ Q). exact E3.
    + rewrite <- A1. unfold cd_is_auth, is_auth, state_test. change (cd_obj (set_cd_dir x d1)) with (df_obj x).
      by rewrite (qt_state _ _ Q).
  - rewrite <- B1. unfold cd_test, state_test. change (cd_obj (set_cd_dir x d1)) with (df_obj x).
    by rewrite (qt_state _ _ Q).
Qed.

(** A commit asked for while one is under way only waits. *)
Lemma busy_commit want prio ie objs d :
  cd_is_auth d = true -> committed_version d < committing_version d -> cd_test d STATE_COMMITTING = true ->
  committed_version d < want <= get_version d -> _commit want prio ie objs d = Ok (d, objs, []).
Proof.
  intros Ha Hb Hc Hw. unfold _commit. rewrite check_true by (apply orb_true_iff; left; lia).
  rewrite Ha. cbn [assert_ mbind res_bind]. replace (want <=? committed_version d) with false by lia.
  rewrite Hc. replace (committed_version d <? committing_version d) with true by lia.
  by destruct (want <=? committing_version d).
Qed.

Inductive cop :=
| PreDirty (min : Z)
| MarkDirty (pv seg : Z)
| Project (min : Z)                 (* project_fnode()->version = pre_dirty(min) *)
| PopProjected (seg : Z)
| CommitTo (want : Z) (c : option C) (prio : Z)
| Written (r v : Z).                (* the writes of the commit to [v] are done, with result [r] *)

Definition lift (objs : Z -> cinode S) (r : res (cdir C T * list (cd_effect C)))
  : res (cdir C T * (Z -> cinode S) * list (cm_effect C)) :=
  '(d, es) ← r; Ok (d, objs, map Cd es).

Definition run_cop (e : fenv) (ie : ienv) (op : cop) objs d
  : res (cdir C T * (Z -> cinode S) * list (cm_effect C)) :=
  match op with
  | PreDirty min => Ok (fst (pre_dirty min d), objs, [])
  | MarkDirty pv seg => lift objs (mark_dirty pv (Some seg) d)
  | Project min =>
      d ← project_fnode d;
      let '(d, pv) := pre_dirty min d in
      Ok (edit_projected (set_fn_version pv) d, objs, [])
  | PopProjected seg => lift objs (pop_and_dirty_projected_fnode (Some seg) d)
  | CommitTo want c prio => commit want c false prio e ie objs d
  | Written r v => _committed r v e ie objs d
  end.

(** What the callers guarantee.  Journal events are applied in order: a version is not marked
    dirty before the projected fnodes of earlier versions are popped.  Commits are not asked
    for beyond the current version; the writes reported are those under way, and then every primary
    inode is ours and is covered by the commit, dirty, or of a snapshot. *)
Definition cop_pre (e : fenv) (ie : ienv) (op : cop) objs d : Prop :=
  match op with
  | PreDirty min => min < 2 ^ 64 - 1
  | MarkDirty pv seg => get_version d < pv <= projected_version d /\ Forall (fun p => pv <= fn_version p) (projected_fnode d)
  | Project min => get_version d <> 0 /\ min < 2 ^ 64 - 1
  | PopProjected seg => projected_fnode d <> []
  | CommitTo want c prio =>
      committed_version d < (if want =? 0 then get_version d else want) <= get_version d /\
      can_auth_pin e (cd_fdir d) = true
  | Written r v =>
      v = committing_version d /\ committed_version d < committing_version d /\
      items_covered v objs (cd_dir d) (item_keys (cd_dir d))
  end.

Lemma stack_version d : versions_sorted d -> get_version d <= projected_version d /\
  Forall (fun p => get_version d <= fn_version p <= projected_version d) (projected_fnode d).
Proof.
  unfold versions_sorted. intros Hs. apply StronglySorted_inv in Hs as [Hs Hf].
  apply Forall_app in Hf as [Hf Hl]. apply Forall_inv in Hl. split; [done|].
  apply Forall_fmap in Hf. clear Hl. induction (projected_fnode d) as [|p l IH]; [done|].
  cbn in Hs. apply StronglySorted_inv in Hs as [Hs Hp]. apply Forall_app in Hp as [_ Hp]. apply Forall_inv in Hp.
  apply Forall_cons in Hf as [Hf1 Hf2]. constructor; [done|by apply IH].
Qed.

Lemma inv_marks ext d d' :
  commit_inv ext d -> only_marks d d' ->
  dirty_ok (ext + b2z (committed_version d <? committing_version d)) d' -> commit_inv ext d'.
Proof.
  intros [I0 I1 I2 I3 I4 I5 I6 I7] [M1 M2 M3 M4 M5 M6 M7 M8 M9 M10 M11] D.
  unfold versions_sorted, get_version in *.
  split; unfold versions_sorted, get_version; rewrite ?M1, ?M2, ?M3, ?M4, ?M5, ?M6, ?M8, ?M9; done.
Qed.

(** A fragment with other dentries. *)
Lemma inv_quiet ext d x : commit_inv ext d -> quiet (cd_dir d) x -> commit_inv ext (set_cd_dir x d).
Proof.
  intros [I0 I1 I2 I3 I4 I5 I6 I7] Q. split; try done.
  - by apply (quiet_dirty _ d).
  - rewrite <- I2. unfold cd_is_auth, is_auth, state_test. change (cd_obj (set_cd_dir x d)) with (df_obj x). by rewrite (qt_state _ _ Q).
  - unfold versions_sorted, projected_version in *. change (cd_dir (set_cd_dir x d)) with x. by rewrite (qt_projected _ _ Q).
  - refine (eq_trans _ I5). unfold cd_test, state_test. change (cd_obj (set_cd_dir x d)) with (df_obj x). by rewrite (qt_state _ _ Q).
Qed.

(** A fragment with a later version. *)
Lemma inv_version ext d d' :
  commit_inv ext d -> cd_fdir d' = cd_fdir d -> committing_version d' = committing_version d ->
  committed_version d' = committed_version d -> waiting_for_commit d' = waiting_for_commit d ->
  get_version d <= get_version d' -> versions_sorted d' -> commit_inv ext d'.
Proof.
  intros [I0 [F P] I2 I3 I4 I5 I6 I7] E1 E2 E3 E4 Hv Hs.
  assert (cd_obj d' = cd_obj d) as Eo by (unfold cd_obj, cd_dir; by rewrite E1).
  split; rewrite ?E2, ?E3, ?E4; try done.
  - split; [by rewrite E1|]. unfold cd_test. by rewrite Eo.
  - unfold cd_is_auth. by rewrite Eo.
  - lia.
  - unfold cd_test. by rewrite Eo.
  - intros v cs Hc. specialize (I7 v cs Hc). lia.
Qed.

Lemma sorted_raise (l : list Z) a b :
  a <= b -> StronglySorted Z.le (l ++ [a]) -> StronglySorted Z.le (l ++ [b]).
Proof.
  intros Hab. induction l as [|c l IH]; intros Hs; [repeat constructor|].
  cbn in *. apply StronglySorted_inv in Hs as [Hs Hf]. constructor; [by apply IH|].
  apply Forall_app in Hf as [Hf Hl]. apply Forall_app. split; [done|]. repeat constructor. apply Forall_inv in Hl. lia.
Qed.

Lemma sorted_push (l : list Z) a b :
  a <= b -> StronglySorted Z.le (l ++ [a]) -> StronglySorted Z.le (l ++ [b; b]).
Proof.
  intros Hab Hs. apply (sorted_raise l a b Hab) in Hs. replace (l ++ [b; b]) with ((l ++ [b]) ++ [b]) by (by rewrite <- app_assoc).
  induction l as [|c l IH]; [repeat constructor; lia|].
  cbn in *. apply StronglySorted_inv in Hs as [Hs Hf]. constructor; [by apply IH|]. apply Forall_app. split; [done|].
  apply Forall_app in Hf as [_ Hl]. repeat constructor. by apply Forall_inv in Hl.
Qed.

(** The version [pre_dirty] gives out. *)
Definition next_version (min : Z) d : Z := Z.max min (projected_version d) + 1.

Lemma pre_dirty_eq min d :
  0 <= projected_version d < 2 ^ 64 - 1 -> min < 2 ^ 64 - 1 ->
  pre_dirty min d = (set_projected_version (next_version min d) d, next_version min d).
Proof.
  intros Hp Hm. unfold pre_dirty, next_version. cbv zeta.
  replace (if projected_version d <? min then min else projected_version d) with (Z.max min (projected_version d))
    by (destruct (Z.ltb_spec (projected_version d) min); lia).
  rewrite u64_id; [done|]. unfold in_u64. lia.
Qed.

Lemma inv_projected_version ext d v :
  commit_inv ext d -> projected_version d <= v -> commit_inv ext (set_projected_version v d).
Proof.
  intros [I0 [F P] I2 I3 I4 I5 I6 I7] Hv. split; try done; [by split; [split; apply F|]|].
  unfold versions_sorted in *. by apply (sorted_raise (get_version d :: map fn_version (projected_fnode d)) (projected_version d)).
Qed.

Lemma tidy_version inodes x v : tidy inodes x ->
  tidy inodes (mk_dfrag (df_obj x) (df_items x) (num_head_items x) (num_head_null x) (num_snap_items x) (num_snap_null x) v (waiting_on_dentry x)).
Proof. intros Ty. apply (tidy_obj inodes x); try done. apply Ty. Qed.

Lemma project_keeps ext min d :
  commit_inv ext d -> get_version d <> 0 -> projected_version d < 2 ^ 64 - 1 -> min < 2 ^ 64 - 1 ->
  exists d1, project_fnode d = Ok d1 /\
    commit_inv ext (edit_projected (set_fn_version (snd (pre_dirty min d1))) (fst (pre_dirty min d1))) /\
    forall inodes, tidy inodes (cd_dir d) -> tidy inodes (cd_dir (edit_projected (set_fn_version (snd (pre_dirty min d1))) (fst (pre_dirty min d1)))).
Proof.
  intros I Hv Hp Hm. destruct (stack_version d (cv_stack _ _ I)) as [Hvp _].
  pose proof (cv_order _ _ I) as Ho.
  unfold project_fnode. rewrite check_true by (apply negb_true_iff; lia).
  eexists. split; [done|]. set (d1 := set_projected _ d).
  rewrite (pre_dirty_eq min d1) by (done || (split; [change (0 <= projected_version d); lia|done])). cbn [fst snd].
  change (next_version min d1) with (next_version min d).
  unfold edit_projected. change (projected_fnode (set_projected_version _ d1)) with (projected_fnode d ++ [get_projected_fnode d]).
  rewrite last_snoc, removelast_last.
  assert (projected_version d <= next_version min d) as Hn by (unfold next_version; lia).
  split; [|intros inodes; apply tidy_version].
  eapply (inv_version ext (set_projected_version (next_version min d) d));
    [by apply inv_projected_version|done|done|done|done|done|].
  unfold versions_sorted. cbn. rewrite map_app, <- app_assoc. cbn.
  apply (sorted_push (get_version d :: map fn_version (projected_fnode d)) (projected_version d)); [done|].
  apply (cv_stack _ _ I).
Qed.

Lemma mark_dirty_inv ext pv seg d :
  commit_inv ext d -> co_ref (cd_obj d) < 2 ^ 31 - 1 -> get_version d < pv <= projected_version d ->
  Forall (fun p => pv <= fn_version p) (projected_fnode d) ->
  exists d' es, mark_dirty pv (Some seg) d = Ok (d', es) /\ commit_inv ext d' /\ (forall inodes, tidy inodes (cd_dir d) -> tidy inodes (cd_dir d')).
Proof.
  intros I B [Hv Hp] Hf. unfold mark_dirty. rewrite !check_true by lia. set (d1 := set_fnode _ d).
  assert (commit_inv ext d1) as I1.
  { apply (inv_version ext d); [done..| |]; [change (get_version d <= pv); lia|].
    unfold versions_sorted. change (get_version d1) with pv. change (projected_fnode d1) with (projected_fnode d).
    pose proof (cv_stack _ _ I) as Hs. apply StronglySorted_inv in Hs as [Hs _]. constructor; [exact Hs|].
    apply Forall_app. split; [by apply Forall_fmap|by repeat constructor]. }
  destruct (mark_dirty_keeps _ seg d1 (cv_dirty _ _ I1) B) as (d' & es & E & D' & M & _).
  exists d', es. split; [done|]. split; [by apply (inv_marks ext d1)|].
  intros inodes Ty. by apply (tidy_marks inodes d1 d' M); [apply D'|].
Qed.

Lemma pop_inv ext seg d :
  commit_inv ext d -> co_ref (cd_obj d) < 2 ^ 31 - 1 -> projected_fnode d <> [] ->
  exists d' es, pop_and_dirty_projected_fnode (Some seg) d = Ok (d', es) /\ commit_inv ext d' /\
    (forall inodes, tidy inodes (cd_dir d) -> tidy inodes (cd_dir d')).
Proof.
  intros I B Hn. unfold pop_and_dirty_projected_fnode. pose proof (cv_stack _ _ I) as Hs.
  unfold versions_sorted in Hs. destruct (projected_fnode d) as [|p ps] eqn:Ep; [done|].
  set (d1 := set_fnode p d). set (d2 := set_projected ps d1). apply StronglySorted_inv in Hs as [Hs Hf].
  assert (commit_inv ext d2) as I2.
  { apply (inv_version ext d); [done..| |exact Hs]. apply Forall_inv in Hf. exact Hf. }
  assert (dirty_ok (ext + b2z (committed_version d1 <? committing_version d1)) d1) as D1
    by (destruct (cv_dirty _ _ I) as [F P]; split; [exact F|exact P]).
  destruct (mark_dirty_keeps _ seg d1 D1 B) as (d' & es & -> & [F' P'] & M & _). pose proof M as [M1 M2 M3 M4 M5 M6 M7 M8 M9 M10 M11].
  cbn [mbind res_bind]. eexists _, _. split; [done|]. split; [apply (inv_marks ext d2); [done|by split|by split]|].
  intros inodes Ty. by apply (tidy_marks inodes d1 d' M); [apply F'|].
Qed.

Lemma waiters_nonempty (w : gmap Z (list C)) v cs : <[v := cs]> w <> ∅.
Proof. intros E. pose proof (lookup_insert_eq w v cs) as L. by rewrite E, lookup_empty in L. Qed.

(** The first waiter starts the commit. *)
Lemma commit_starts ext ie w cc prio objs d :
  commit_inv ext d -> cd_small d -> ready ie objs d ->
  is_frozen_tree_root (cd_fdir d) = false -> is_frozen_dir (cd_fdir d) = false ->
  waiting_for_commit d = ∅ -> committed_version d < w <= get_version d ->
  exists d1 es1 d2 objs' es, cd_auth_pin d = Ok (d1, es1) /\
    _commit w prio ie objs (add_commit_waiter w cc d1) = Ok (d2, objs', es) /\ commit_inv ext d2 /\
    committed_version d2 < committing_version d2 /\ fnode d2 = fnode d /\ waiting_for_commit d2 = {[ w := [cc] ]} /\
    wrote ie objs d d2 objs'.
Proof.
  intros I Sm Hr FT FD Ew Hw. pose proof I as [I0 I1 I2 I3 I4 I5 I6 I7].
  assert (committed_version d = committing_version d) as Ei by (by apply I6).
  rewrite Ei, Z.ltb_irrefl, Z.add_0_r in I1.
  destruct (cd_pin_keeps ext d) as (d1 & es1 & E1 & D1 & M & _);
    [done|destruct Sm; lia|destruct Sm; lia|done|done|].
  pose proof M as [M1 M2 M3 M4 M5 M6 M7 M8 M9 M10 M11].
  assert (get_version d1 = get_version d) as Ev by (unfold get_version; by rewrite M1).
  assert (same_dentries d (add_commit_waiter w cc d1)) as Sd by (destruct (marks_same d d1 M) as [Q1 Q2 Q3 Q4]; [apply D1|by split]).
  destruct (start_commit (ext + 1) w prio ie objs (add_commit_waiter w cc d1)) as (d2 & objs2 & es2 & E2 & D2 & K & B2 & C2 & Ty2).
  - destruct D1 as [F P]. split; [exact F|exact P].
  - change (cd_is_auth d1 = true). by rewrite M9.
  - change (committed_version d1 = committing_version d1). congruence.
  - change (committed_version d1 < w <= get_version d1). rewrite M4, Ev. done.
  - intros p d2 Sd2. apply Hr. by apply (same_dentries_trans d (add_commit_waiter w cc d1)).
  - exists d1, es1, d2, objs2, es2. split; [done|]. split; [done|]. destruct K as [K1 K2 K3 K4 K5 K6].
    change (get_version (add_commit_waiter w cc d1)) with (get_version d1) in C2.
    change (fnode (add_commit_waiter w cc d1)) with (fnode d1) in K1.
    change (projected_fnode (add_commit_waiter w cc d1)) with (projected_fnode d1) in K2.
    change (projected_version (add_commit_waiter w cc d1)) with (projected_version d1) in K3.
    change (committed_version (add_commit_waiter w cc d1)) with (committed_version d1) in K5.
    change (cd_is_auth (add_commit_waiter w cc d1)) with (cd_is_auth d1) in K6.
    assert (get_version d2 = get_version d) as Ev2 by (unfold get_version; by rewrite K1, M1).
    assert (committed_version d2 = committed_version d) as Ec2 by congruence.
    assert (committed_version d2 < committing_version d2) as Hlt by (rewrite C2, Ec2, Ev; lia).
    assert (waiting_for_commit d2 = {[ w := [cc] ]}) as Ewt by (rewrite K4; cbn; by rewrite M5, Ew, lookup_empty).
    split; [|split; [done|split; [congruence|split; [done|]]]].
    2: { destruct Ty2 as (p & d3 & es3 & Sd' & E3). exists p, d3, es3. split; [|done]. by apply (same_dentries_trans d (add_commit_waiter w cc d1)). }
    split.
    + done.
    + by replace (committed_version d2 <? committing_version d2) with true by lia.
    + congruence.
    + rewrite C2, Ec2, Ev2, Ev. lia.
    + unfold versions_sorted. rewrite Ev2, K2, K3, M2, M6. exact I4.
    + rewrite B2. lia.
    + rewrite Ewt. split; [intros E; by apply waiters_nonempty in E|lia].
    + intros v cs. rewrite Ewt, Ev2, Ec2. intros [<- _]%lookup_singleton_Some. done.
Qed.

(** A later one is added to those that wait. *)
Lemma commit_joins ext w cc d :
  commit_inv ext d -> committed_version d < committing_version d -> committed_version d < w <= get_version d ->
  commit_inv ext (add_commit_waiter w cc d).
Proof.
  intros [I0 I1 I2 I3 I4 I5 I6 I7] Hlt Hw. split; try done.
  - destruct I1 as [F P]. split; [exact F|exact P].
  - cbn. split; [intros E; by apply waiters_nonempty in E|lia].
  - cbn. intros v cs. destruct (decide (v = w)) as [->|N]; [by rewrite lookup_insert_eq|].
    rewrite lookup_insert_ne by done. apply I7.
Qed.

(** [commit]: it waits for a version that will be committed. *)
Lemma commit_keeps ext e ie want c ign prio objs d :
  commit_inv ext d -> cd_small d -> ready ie objs d ->
  is_frozen_tree_root (cd_fdir d) = false -> is_frozen_dir (cd_fdir d) = false ->
  committed_version d < (if want =? 0 then get_version d else want) <= get_version d ->
  ign || can_auth_pin e (cd_fdir d) = true -> ie_nlink ie <> 0 \/ ie_snaprealm ie = true ->
  exists d' objs' es, commit want c ign prio e ie objs d = Ok (d', objs', es) /\ commit_inv ext d' /\
    committed_version d' < committing_version d' /\ fnode d' = fnode d /\
    (exists cs, waiting_for_commit d' !! (if want =? 0 then get_version d else want) = Some (cs ++ [default C_MDSInternalNoop c])) /\
    (wrote ie objs d d' objs' \/ cd_dir d' = cd_dir d /\ objs' = objs).
Proof.
  intros I Sm Hp FT FD Hw Hc Hl. pose proof I as [I0 I1 I2 I3 I4 I5 I6 I7]. unfold commit. cbv zeta.
  set (w := if want =? 0 then get_version d else want) in *. set (cc := default C_MDSInternalNoop c).
  rewrite check_true by (apply orb_true_iff; left; lia). rewrite check_true by lia.
  rewrite I2, Hc. cbn [orb assert_ mbind res_bind].
  replace ((ie_nlink ie =? 0) && negb (ie_snaprealm ie)) with false
    by (destruct Hl as [Hl|Hl]; [by replace (ie_nlink ie =? 0) with false by lia|by rewrite Hl, andb_false_r]).
  case_bool_decide as Ew.
  - destruct (commit_starts ext ie w cc prio objs d) as (d1 & es1 & d2 & objs2 & es2 & -> & E2 & I' & Hlt & Ef & Ewt & Ty);
      [done..|]. cbn [mbind res_bind]. rewrite E2. cbn [mbind res_bind]. eexists _, _, _. split; [done|].
    split_and!; [done|done|done| |by left]. exists []. rewrite Ewt. apply lookup_singleton_eq.
  - assert (committed_version d < committing_version d) as Hlt
      by (destruct (decide (committed_version d = committing_version d)) as [E|]; [by apply I6 in E|lia]).
    cbn [mbind res_bind]. rewrite busy_commit; [|done|done|change (cd_test d STATE_COMMITTING = true); rewrite I5; lia|done].
    cbn [mbind res_bind]. eexists _, _, _. split; [done|].
    split; [by apply commit_joins|split; [done|split; [done|split; [|by right]]]]. cbn. rewrite lookup_insert_eq. eauto.
Qed.

Lemma stray_walk_quiet b ks inodes x inodes' x' es :
  obj_ok (df_obj x) -> stray_walk b ks inodes x = Ok (inodes', x', es) -> quiet x x'.
Proof.
  revert inodes x inodes' es. induction ks as [|k ks IH]; intros inodes x inodes' es O E; [injection E as _ <- _; apply quiet_refl|].
  cbn [stray_walk] in E. destruct (df_items x !! k) as [dn|]; [|done].
  apply bind_ok in E as ([[i1 x1] es1] & E1 & E). apply bind_ok in E as ([[i2 x2] es2] & E2 & E). injection E as _ <- _.
  assert (quiet x x1) as Q; [|eapply quiet_trans; [exact Q|]; eapply IH; [|exact E2]; by apply Q].
  unfold stray_dentry in E1. destruct (is_head dn).
  - destruct (_ || dn_projected dn); [injection E1 as _ <- _; apply quiet_refl|].
    destruct (if b then _ else _) as [dn1 es3]. destruct (if bool_decide _ then _ else _) as [dn2 es4]. cbv zeta in E1.
    destruct (_ =? 0); [|injection E1 as _ <- _; by apply quiet_same].
    apply bind_ok in E1 as ([x3 es5] & E3 & E1). injection E1 as _ <- _.
    eapply quiet_trans; [|by eapply remove_dentry_quiet; [|exact E3]]. by apply quiet_same.
  - destruct (dn_projected dn); [injection E1 as _ <- _; apply quiet_refl|]. cbv zeta in E1.
    destruct (if b then clean_inode _ _ else _) as [[i3 dn1] es3]. destruct (if b then clean_dentry _ _ else _) as [dn2 es4].
    destruct (_ =? 0); [|injection E1 as _ <- _; by apply quiet_same].
    apply bind_ok in E1 as ([x3 es5] & E3 & E1). injection E1 as _ <- _.
    unfold purge_dentry in E3. apply bind_ok in E3 as ([x4 es6] & E4 & E3). injection E3 as <- _.
    eapply quiet_trans; [|by eapply remove_dentry_quiet; [|exact E4]]. by apply quiet_same.
Qed.

(** [commit] of an unlinked directory removes what it can and has nothing to write. *)
Lemma commit_stray ext e ie want c ign prio objs d :
  commit_inv ext d -> tidy (infos objs) (cd_dir d) ->
  committed_version d < (if want =? 0 then get_version d else want) <= get_version d ->
  ign || can_auth_pin e (cd_fdir d) = true -> ie_nlink ie = 0 -> ie_snaprealm ie = false ->
  exists d' objs' es, commit want c ign prio e ie objs d = Ok (d', objs', es) /\ commit_inv ext d' /\ tidy (infos objs') (cd_dir d').
Proof.
  intros I Ty Hw Hc Hl Hs. unfold commit. cbv zeta. rewrite check_true by (apply orb_true_iff; left; lia).
  rewrite check_true by lia. rewrite (cv_auth _ _ I), Hc, Hl, Hs. cbn [orb assert_ mbind res_bind negb andb Z.eqb].
  unfold try_remove_dentries_for_stray. cbn [Z.eqb assert_ mbind res_bind negb andb].
  destruct (stray_walk_tidy (item_keys (cd_dir d)) (infos objs) (cd_dir d)) as (i1 & x1 & es1 & E1 & Ty1);
    [apply ordered_nodup|intros k; apply elem_of_ordered_keys|done|].
  pose proof (stray_walk_quiet _ _ _ _ _ _ _ (fz_obj _ _ (do_fz _ _ (cv_dirty _ _ I))) E1) as Q. rewrite E1. cbn [mbind res_bind].
  set (d1 := set_cd_dir x1 d). pose proof (quiet_dirty _ _ _ Q (cv_dirty _ _ I)) as D1.
  destruct (mark_clean_keeps _ d1 D1) as (d2 & es2 & E2 & D2 & M2 & _).
  assert (exists x2 es3, (if is_dirty (df_obj x1) then mark_clean x1 else Ok (x1, [])) = Ok (x2, es3) /\ cd_dir d2 = x2 /\
    d2 = set_cd_dir x2 (if cd_test d STATE_DIRTY then set_lists None None d else d)) as (x2 & es3 & -> & Ex & Ed).
  { unfold cd_mark_clean in E2. change (cd_dir d1) with x1 in E2. apply bind_ok in E2 as ([x2 es3] & E3 & E2).
    assert (cd_test d STATE_DIRTY = is_dirty (df_obj x1)) as -> by (unfold cd_test, is_dirty, state_test; by rewrite (qt_state _ _ Q)).
    exists x2, es3. unfold is_dirty in *. unfold mark_clean in E3 |- *. change (cd_test d1 STATE_DIRTY) with (state_test (df_obj x1) STATE_DIRTY) in E2.
    destruct (state_test (df_obj x1) STATE_DIRTY); injection E2 as <- _; [by split_and!|]. injection E3 as <- <-. by split_and!. }
  cbn [mbind res_bind]. eexists _, _, _. split; [done|]. rewrite <- Ed. split.
  - apply (inv_marks ext d1); [by apply inv_quiet|done|done].
  - apply (tidy_ext i1); [done|]. by apply (tidy_marks i1 d1 d2 M2); [apply D2|].
Qed.

(** The fragment itself after the writes: the versions move, and it is clean when nothing was
    dirtied since. *)
Lemma note_committed_ok ext d :
  commit_inv ext d -> committed_version d < committing_version d ->
  exists d' es, note_committed (committing_version d) d = Ok (d', es) /\ dirty_ok (ext + 1) d' /\
    fnode d' = fnode d /\ projected_fnode d' = projected_fnode d /\ projected_version d' = projected_version d /\
    waiting_for_commit d' = waiting_for_commit d /\ df_items (cd_dir d') = df_items (cd_dir d) /\
    committed_version d' = committing_version d /\ committing_version d' = committing_version d /\
    cd_is_auth d' = true /\ cd_test d' STATE_COMMITTING = false /\ no_more_pins d d' /\
    (forall inodes, tidy inodes (cd_dir d) -> tidy inodes (cd_dir d')) /\
    (committing_version d = get_version d -> cd_test d' STATE_DIRTY = false).
Proof.
  intros [I0 [F P] I2 I3 I4 I5 I6 I7] Hlt. unfold note_committed. rewrite !check_true by lia. cbv zeta.
  cbn [committing_version committed_version set_commits]. rewrite Z.eqb_refl.
  replace (committed_version d <? committing_version d) with true in F by lia. cbn [b2z] in F.
  set (d1 := set_lists _ None _).
  assert (dirty_ok (ext + 1) d1) as D1.
  { split; [apply (fz_clear_bit _ (cd_fdir d) 6); [done|unfold freeze_bit; lia|exact F]|].
    change (pins (cd_obj d) PIN_DIRTY = b2z (state_test (state_clear STATE_COMMITTING (cd_obj d)) STATE_DIRTY)).
    rewrite P. unfold cd_test, STATE_COMMITTING, STATE_DIRTY. by rewrite state_test_clear. }
  assert (cd_is_auth d1 = true) as A1.
  { rewrite <- I2. change (state_test (state_clear STATE_COMMITTING (cd_obj d)) STATE_AUTH = cd_is_auth d).
    unfold cd_is_auth, is_auth, STATE_COMMITTING, STATE_AUTH. by rewrite state_test_clear. }
  assert (cd_test d1 STATE_COMMITTING = false) as B1.
  { change (state_test (state_clear STATE_COMMITTING (cd_obj d)) STATE_COMMITTING = false).
    unfold STATE_COMMITTING. by rewrite state_test_clear. }
  assert (forall inodes, tidy inodes (cd_dir d) -> tidy inodes (cd_dir d1)) as Ty1.
  { intros inodes Ty. apply (tidy_obj inodes (cd_dir d)); try done; [destruct (dv_refs _ (td_inv _ _ Ty)); by split|].
    change (state_test (state_clear STATE_COMMITTING (cd_obj d)) STATE_DNPINNEDFRAG = state_test (cd_obj d) STATE_DNPINNEDFRAG).
    unfold STATE_COMMITTING, STATE_DNPINNEDFRAG. by rewrite state_test_clear. }
  change (committed_version d1) with (committing_version d). change (get_version d1) with (get_version d).
  destruct (Z.eqb_spec (committing_version d) (get_version d)) as [Ev|Ev].
  - destruct (mark_clean_keeps _ d1 D1) as (d2 & es & -> & D2 & M & Hcl & Hn). pose proof M as [M1 M2 M3 M4 M5 M6 M7 M8 M9 M10 M11].
    cbn [mbind res_bind]. eexists _, _. split; [done|]. split; [done|]. rewrite M1, M2, M3, M4, M5, M6, M7, M8, M9. split_and!; try done; [apply Hn..|].
    intros inodes Ty. by apply (tidy_marks inodes d1 d2 M); [apply D2|apply Ty1].
  - eexists _, _. split; [done|]. split; [done|]. by split_and!.
Qed.

Fixpoint woken (es : list (cm_effect C)) : list C :=
  match es with
  | [] => []
  | Cd (Fz (QueueWaiters ls)) :: es => ls ++ woken es
  | _ :: es => woken es
  end.

Lemma woken_app es es' : woken (es ++ es') = woken es ++ woken es'.
Proof. induction es as [|[[[]| | | |]| | | | |] es IH]; simpl; rewrite ?IH; try done. by rewrite app_assoc. Qed.

Lemma woken_dn es : woken (map DnEff es) = [].
Proof. by induction es. Qed.

Lemma woken_queue (ls : list (list C)) : woken (map (fun l => Cd (Fz (QueueWaiters l))) ls) = concat ls.
Proof. induction ls as [|l ls IH]; simpl; by rewrite ?IH. Qed.

Lemma woken_note v d d' es : note_committed v d = Ok (d', es) -> woken es = [].
Proof.
  intros E. unfold note_committed in E. apply bind_ok in E as (? & _ & E). apply bind_ok in E as (? & _ & E).
  cbv zeta in E. destruct (_ =? get_version _); [|by injection E as _ <-].
  apply bind_ok in E as ([d1 es1] & E1 & E). injection E as _ <-.
  apply bind_ok in E1 as ([y es2] & _ & E1). injection E1 as _ <-. by induction es2.
Qed.

(** A commit wakes nobody by itself. *)
Lemma woken_loop prio snaps ks (s s' : cstate (C := C) (S := S) (T := T)) :
  commit_loop prio snaps ks s = Ok s' -> woken (cs_eff s') = woken (cs_eff s).
Proof.
  revert s. induction ks as [|k ks IH]; intros s E; [by injection E as <-|]. cbn [commit_loop] in E.
  apply bind_ok in E as (s1 & E1 & E). rewrite (IH _ E). unfold commit_dentry in E1. destruct (df_items _ !! k) as [dn|]; [|done].
  apply bind_ok in E1 as ([s2 b] & E2 & E1).
  assert (woken (cs_eff s2) = woken (cs_eff s)) as W.
  { unfold commit_trim in E2. destruct snaps as [sn|]; [|by injection E2 as <- _]. destruct (is_head dn); [by injection E2 as <- _|].
    apply bind_ok in E2 as ([[x es] t] & _ & E2). destruct t; injection E2 as <- _; [|done]. cbn. by rewrite woken_app, woken_dn, app_nil_r. }
  destruct (b || skipped dn); [by injection E1 as <-|]. apply bind_ok in E1 as (s3 & E3 & E1). injection E1 as <-.
  assert (cs_eff s3 = cs_eff s2) as E4.
  { unfold commit_add in E3. destruct (is_null dn); [by injection E3 as <-|]. apply bind_ok in E3 as ([[dn' objs'] bl] & _ & E3). by injection E3 as <-. }
  rewrite <- W, <- E4. unfold commit_flush. destruct (_ <=? _); [|done]. cbn. by rewrite woken_app, app_nil_r.
Qed.

Lemma woken_commit want prio ie objs d d' objs' es : _commit want prio ie objs d = Ok (d', objs', es) -> woken es = [].
Proof.
  unfold _commit. intros E. apply bind_ok in E as (? & _ & E). apply bind_ok in E as (? & _ & E).
  destruct (want <=? committed_version d); [by injection E as _ _ <-|].
  destruct (want <=? committing_version d); [apply bind_ok in E as (? & _ & E); by injection E as _ _ <-|].
  destruct (_ <? _); [by injection E as _ _ <-|]. cbv zeta in E. unfold _omap_commit in E.
  apply bind_ok in E as (s & E1 & E). injection E as _ _ <-. by rewrite woken_app, (woken_loop _ _ _ _ _ E1).
Qed.

(** The end of [_committed]: commit again when somebody waits for more, or let go. *)
Lemma finish_committed ext e ie objs d next :
  dirty_ok (ext + 1) d -> 0 <= ext -> cd_small d -> cd_is_auth d = true -> cd_test d STATE_COMMITTING = false ->
  committed_version d = committing_version d -> 0 <= committed_version d <= get_version d -> versions_sorted d ->
  tidy (infos objs) (cd_dir d) ->
  (forall v cs, waiting_for_commit d !! v = Some cs -> committed_version d < v <= get_version d) ->
  match next with
  | None => waiting_for_commit d = ∅
  | Some v => is_Some (waiting_for_commit d !! v)
  end ->
  exists d1 objs1 es1 d2 es2 t,
    (match next with
     | Some want => _commit want (-1) ie objs d
     | None => Ok (d, objs, [])
     end) = Ok (d1, objs1, es1) /\
    (if bool_decide (waiting_for_commit d1 = ∅) then cd_auth_unpin e d1 else Ok (d1, [])) = Ok (d2, es2) /\
    0 <= t /\ commit_inv (ext + t) d2 /\ tidy (infos objs1) (cd_dir d2) /\ fnode d2 = fnode d /\ committed_version d2 = committed_version d /\
    waiting_for_commit d2 = waiting_for_commit d /\
    committing_version d2 = (if decide (waiting_for_commit d = ∅) then committed_version d else get_version d) /\
    woken es1 = [] /\ (if decide (waiting_for_commit d = ∅) then d1 = d /\ cd_auth_unpin e d = Ok (d2, es2) else es2 = []).
Proof.
  intros D Hx Sm Ha Hb Ei Ho Hs Ty Hw Hn. destruct next as [v|].
  - destruct Hn as [cs Hc]. assert (waiting_for_commit d <> ∅) as Hne by (intros E; by rewrite E, lookup_empty in Hc).
    destruct (start_commit (ext + 1) v (-1) ie objs d) as (d1 & objs1 & es1 & E1 & D1 & [K1 K2 K3 K4 K5 K6] & B1 & C1 & Ty1);
      [done|done|done|by apply (Hw v cs)|by apply ready_tidy|].
    assert (get_version d1 = get_version d) as V1 by (unfold get_version; by rewrite K1).
    pose proof (Hw v cs Hc) as Hv. exists d1, objs1, es1, d1, [], 0. rewrite bool_decide_false by (by rewrite K4).
    rewrite !decide_False by done. split_and!; try done; [|by apply (wrote_tidy ie objs d)|by eapply woken_commit]. rewrite Z.add_0_r. split.
    + done.
    + by replace (committed_version d1 <? committing_version d1) with true by lia.
    + congruence.
    + lia.
    + unfold versions_sorted. rewrite V1, K2, K3. exact Hs.
    + rewrite B1. lia.
    + rewrite K4. split; [done|lia].
    + intros v' cs'. rewrite K4, K5, V1. apply Hw.
  - destruct (cd_unpin_keeps (ext + 1) e d) as (d2 & es2 & t & E2 & Ht & D2 & M & _);
      [done|destruct Sm; lia|destruct Sm; lia|lia|]. pose proof M as [M1 M2 M3 M4 M5 M6 M7 M8 M9 M10 M11].
    exists d, objs, [], d2, es2, t. rewrite bool_decide_true, !decide_True by done.
    split_and!; [done|done|done| |by apply (tidy_marks (infos objs) d d2 M); [apply D2|]|done|done|done|congruence|done|done|done]. split.
    + lia.
    + rewrite M3, M4, Ei, Z.ltb_irrefl. by replace (ext + t + b2z false) with (ext + 1 - 1 + t) by (simpl; lia).
    + congruence.
    + unfold get_version in *. rewrite M1. lia.
    + unfold versions_sorted, get_version in *. by rewrite M1, M2, M6.
    + rewrite M8, M3, M4, Ei, Z.ltb_irrefl. done.
    + rewrite M5, M3, M4. by split.
    + intros v cs. by rewrite M5, Hn, lookup_empty.
Qed.

(** What [_committed] wakes: the waiters for versions up to [v], in order, and, when none is left, those
    the release of the auth pin wakes ([ps]), which wait for the fragment to freeze. *)
Definition wakes e v d d' (es : list (cm_effect C)) : Prop := exists es1 ps, es = es1 ++ map Cd ps /\
  woken es1 = concat (map snd (filter (fun p => fst p <= v) (ordered (waiting_for_commit d)))) /\
  if decide (waiting_for_commit d' = ∅)
  then exists d1, co_waiting (cd_obj d1) = co_waiting (cd_obj d) /\ cd_auth_unpin e d1 = Ok (d', ps)
  else ps = [].

(** [_committed] for the writes under way. *)
Lemma written_keeps ext e ie r v objs d :
  0 <= r -> commit_inv ext d -> cd_small d -> tidy (infos objs) (cd_dir d) -> cop_pre e ie (Written r v) objs d ->
  let left := filter (fun p => v < fst p) (waiting_for_commit d) in
  exists d' objs' es t, _committed r v e ie objs d = Ok (d', objs', es) /\ 0 <= t /\ commit_inv (ext + t) d' /\
    tidy (infos objs') (cd_dir d') /\
    fnode d' = fnode d /\ committed_version d' = v /\ waiting_for_commit d' = left /\
    committing_version d' = (if decide (left = ∅) then v else get_version d) /\ wakes e v d d' es.
Proof.
  intros Hr I Sm Ty (-> & Hlt & Hcv) left. unfold _committed.
  replace (r <? 0) with false by lia. rewrite (cv_auth _ _ I). cbn [assert_ mbind res_bind].
  destruct (note_committed_ok ext d I Hlt) as (d1 & es1 & En & D1 & N1 & N2 & N3 & N4 & N5 & N6 & N7 & N8 & N9 & (N10 & N11 & N12 & N13) & Nt & _).
  rewrite En. cbn [mbind res_bind]. rewrite N6.
  destruct (committed_walk_tidy (ie_stray ie) (committing_version d) (item_keys (cd_dir d1)) objs (cd_dir d1)) as (x & objs1 & es2 & Ew & Ty1).
  { apply ordered_nodup. }
  { intros k. apply elem_of_ordered_keys. }
  { intros k dn h. unfold item_keys. rewrite N5. apply Hcv. }
  { by apply Nt. }
  pose proof (committed_walk_quiet _ _ _ _ _ _ _ _ (fz_obj _ _ (do_fz _ _ D1)) Ew) as Q.
  rewrite Ew. cbn [mbind res_bind]. set (d2 := set_cd_dir x d1).
  change (waiting_for_commit d2) with (waiting_for_commit d1). change (committed_version d2) with (committed_version d1).
  rewrite N4, N6. destruct (kick_ordered (committing_version d) (waiting_for_commit d)) as (next & -> & Hn). fold left in Hn |- *.
  assert (negb (bool_decide (waiting_for_commit d = ∅)) = true) as ->.
  { apply negb_true_iff, bool_decide_false. intros E. apply (cv_wait _ _ I) in E. lia. }
  cbv zeta. set (d3 := set_commit_waiters left d2).
  assert (dirty_ok (ext + 1) d3) as D3 by (destruct (quiet_dirty _ _ _ Q D1) as [F P]; split; [exact F|exact P]).
  assert (projected_version d3 = projected_version d) as E3 by (rewrite <- N3; apply (qt_projected _ _ Q)).
  assert (cd_is_auth d3 = true /\ cd_test d3 STATE_COMMITTING = false) as [A3 B3].
  { unfold cd_is_auth, is_auth, cd_test, state_test. change (cd_obj d3) with (df_obj x). rewrite (qt_state _ _ Q). done. }
  assert (get_version d3 = get_version d) as V3 by (unfold get_version; by rewrite <- N1).
  destruct (finish_committed ext e ie objs1 d3 next) as (d4 & objs4 & es4 & d5 & es5 & t & -> & E5 & Ht & I5 & Ty5 & F5 & C5 & W5 & G5 & Z4 & Z5);
    try done; [apply (cv_ext _ _ I)|..].
  - destruct Sm as [Sm1 Sm2 Sm3]. split; [|change (auth_pins (cd_fdir d1) + nested_auth_pins (cd_fdir d1) < 2 ^ 31 - 2); lia|by rewrite E3].
    pose proof (qt_ref _ _ Q). change (co_ref (df_obj x) < 2 ^ 31 - 2). unfold cd_obj, cd_dir in *. lia.
  - change (committed_version d1 = committing_version d1). congruence.
  - change (committed_version d3) with (committed_version d1). rewrite V3, N6. pose proof (cv_order _ _ I). lia.
  - unfold versions_sorted. rewrite V3, E3. change (projected_fnode d3) with (projected_fnode d1). rewrite N2. exact (cv_stack _ _ I).
  - intros v cs Hv. change (left !! v = Some cs) in Hv. apply map_lookup_filter_Some in Hv as [Hv Hl].
    change (committed_version d3) with (committed_version d1). rewrite V3, N6.
    pose proof (cv_want _ _ I v cs Hv). simpl in Hl. lia.
  - destruct next as [v|]; [|done]. destruct Hn as [[cs Hv] Hl]. exists cs. by apply map_lookup_filter_Some.
  - cbn [mbind res_bind andb]. rewrite E5. cbn [mbind res_bind].
    eexists _, _, _, t. split; [done|]. split; [done|]. split; [done|]. split; [done|].
    split; [by rewrite F5|]. split; [by rewrite C5|]. split; [by rewrite W5|].
    split. { rewrite G5. change (waiting_for_commit d3) with left. change (committed_version d3) with (committed_version d1). by rewrite N6, V3. }
    exists (es1 ++ map DnEff es2 ++ map (fun l => Cd (Fz (QueueWaiters l))) (map snd (filter (fun p => fst p <= committing_version d) (ordered (waiting_for_commit d)))) ++
      es4 ++ (if (ie_nlink ie =? 0) && ie_snaprealm ie then [MaybeEvalStray] else [])), es5.
    split; [by rewrite <- !app_assoc|]. split.
    + rewrite !woken_app, (woken_note _ _ _ _ En), woken_dn, woken_queue, Z4, app_nil_l. destruct (_ && _); by rewrite ?app_nil_r.
    + rewrite W5. destruct (decide (waiting_for_commit d3 = ∅)); [|done]. destruct Z5 as [_ Z5]. exists d3. split; [|done].
      change (co_waiting (df_obj x) = co_waiting (cd_obj d)). rewrite (qt_waiting _ _ Q). exact N13.
Qed.

(** ** The theorems *)

(** C2: the versions and commits of a fragment are a safe state machine.  Each operation (giving out a
    version, marking dirty, projecting and popping a fnode, asking for a commit, the report that the
    writes are done or have failed) passes its asserts and keeps the invariant: committed, committing,
    current, projected versions in this order, at most one commit under way, the state bit, the auth
    pin and the waiters agree on whether one is, and the dentries are in order.  The commit may purge
    snapshots, the directory may be a stray or unlinked.  The callers guarantee ([cop_pre]) that events are
    applied in the order of their versions, that commits are for a version not yet committed and given
    out, of a fragment that can be pinned, and that the writes reported are those under way, when every
    primary inode is ours and is covered by the commit, dirty or of a snapshot; counters do not overflow. *)
Theorem commit_machine_safe ext e ie op objs d :
  commit_inv ext d -> cd_small d -> tidy (infos objs) (cd_dir d) -> cop_pre e ie op objs d ->
  exists d' objs' es t, run_cop e ie op objs d = Ok (d', objs', es) /\ 0 <= t /\ commit_inv (ext + t) d' /\ tidy (infos objs') (cd_dir d').
Proof.
  intros I Sm Ty Hpre. destruct (stack_version d (cv_stack _ _ I)) as [Hvp _].
  pose proof (cv_order _ _ I) as Ho. pose proof Sm as [S1 S2 S3].
  destruct op as [min|pv seg|min|seg|want c prio|r v]; cbn [run_cop] in *.
  - rewrite pre_dirty_eq by (done || lia). eexists _, _, _, 0. split; [done|]. split; [done|]. rewrite Z.add_0_r.
    split; [apply inv_projected_version; [done|]; unfold next_version; lia|by apply (tidy_version _ (cd_dir d))].
  - destruct Hpre as [Hv Hf]. destruct (mark_dirty_inv ext pv seg d) as (d' & es & -> & I' & Ty'); [done|lia|done|done|].
    eexists _, _, _, 0. split; [done|]. rewrite Z.add_0_r. split_and!; [done|done|by apply Ty'].
  - destruct Hpre as [Hv Hm]. destruct (project_keeps ext min d) as (d1 & -> & I' & Ty'); [done|done|lia|done|].
    cbn [mbind res_bind]. destruct (pre_dirty min d1) as [d2 pv]. eexists _, _, _, 0. split; [done|].
    rewrite Z.add_0_r. split_and!; [done|done|by apply Ty'].
  - destruct (pop_inv ext seg d) as (d' & es & -> & I' & Ty'); [done|lia|done|].
    eexists _, _, _, 0. split; [done|]. rewrite Z.add_0_r. split_and!; [done|done|by apply Ty'].
  - destruct Hpre as (Hw & Hc). pose proof Hc as Hn. unfold can_auth_pin in Hn.
    apply andb_true_iff in Hn as [_ Hn]. apply negb_true_iff, orb_false_iff in Hn as [Hf Hg].
    destruct (not_frozen_bits e _ Hf Hg) as (B1 & B2 & _).
    assert ((ie_nlink ie = 0 /\ ie_snaprealm ie = false) \/ (ie_nlink ie <> 0 \/ ie_snaprealm ie = true)) as [[Hl Hs]|Hl]
      by (destruct (decide (ie_nlink ie = 0)), (ie_snaprealm ie); auto).
    + destruct (commit_stray ext e ie want c false prio objs d) as (d' & objs' & es & -> & I' & Ty'); [done..|].
      eexists _, _, _, 0. split; [done|]. rewrite Z.add_0_r. done.
    + destruct (commit_keeps ext e ie want c false prio objs d) as (d' & objs' & es & -> & I' & _ & _ & _ & Ty');
        [done|done|by apply ready_tidy|done..|].
      eexists _, _, _, 0. split; [done|]. rewrite Z.add_0_r. split_and!; [done|done|].
      destruct Ty' as [Hwr|[-> ->]]; [by apply (wrote_tidy ie objs d)|done].
  - destruct (decide (0 <= r)) as [Hr|Hr].
    + destruct (written_keeps ext e ie r v objs d) as (d' & objs' & es & t & -> & Ht & I' & Ty' & _); [done..|].
      by eexists _, _, _, t.
    + unfold _committed. replace (r <? 0) with true by lia. eexists _, _, _, 0. split; [done|]. by rewrite Z.add_0_r.
Qed.

(** C25: every waiter for a commit is woken.  When the writes of the commit under way are done,
    exactly the waiters for versions up to it are queued, in the order of their versions, and nobody
    else but those who wait for the fragment to freeze, when the last commit waiter is gone and the
    release of the auth pin lets it; when others are left, a commit of the current version is under way, and a commit of the current
    version leaves none: two rounds of writes serve all waiters of a fragment that is not
    dirtied meanwhile.  What the callers guarantee is as for the machine. *)
Theorem commits_drain ext e ie r v objs d :
  0 <= r -> commit_inv ext d -> cd_small d -> tidy (infos objs) (cd_dir d) -> cop_pre e ie (Written r v) objs d ->
  exists d' objs' es, _committed r v e ie objs d = Ok (d', objs', es) /\ wakes e v d d' es /\
    (forall w cs, waiting_for_commit d' !! w = Some cs <-> waiting_for_commit d !! w = Some cs /\ v < w) /\
    committed_version d' = v /\ get_version d' = get_version d /\
    (waiting_for_commit d' <> ∅ -> committing_version d' = get_version d') /\
    (v = get_version d -> waiting_for_commit d' = ∅).
Proof.
  intros Hr I Sm Ty Hpre.
  destruct (written_keeps ext e ie r v objs d) as (d' & objs' & es & t & E & _ & _ & _ & F & Ec & Ew & Eg & Er); [done..|].
  assert (get_version d' = get_version d) as Ev by (unfold get_version; by rewrite F).
  exists d', objs', es. split_and!; [done|done| |done|done| |].
  - intros w cs. rewrite Ew. by rewrite map_lookup_filter_Some.
  - intros Hne. rewrite Ew in Hne. by rewrite Eg, decide_False.
  - intros ->. rewrite Ew. apply map_empty. intros w. apply map_lookup_filter_None.
    destruct (waiting_for_commit d !! w) as [cs|] eqn:Hw; [right|by left]. intros ? _. simpl.
    pose proof (cv_want _ _ I w cs Hw). lia.
Qed.

(** The walk of [_committed] over the dentries, when the directory is not a stray, cleans
    exactly what the commit wrote: it does not fail when every primary
    inode is one of ours and is either covered by the commit, dirty, or a snapshot; afterwards
    a dentry or its inode is dirty exactly when it was dirty and is newer than the commit, and
    names, snapshots and linkages are as before. *)
Theorem committed_cleans cv objs (x : dirfrag C) :
  items_covered cv objs x (item_keys x) ->
  (forall k1 k2 dn1 dn2 h, df_items x !! k1 = Some dn1 -> df_items x !! k2 = Some dn2 ->
    primary_ino dn1 = Some h -> primary_ino dn2 = Some h -> k1 = k2) ->
  exists x' objs' es, committed_walk false cv (item_keys x) objs x = Ok (x', objs', es) /\
    (forall k, df_items x !! k = None -> df_items x' !! k = None) /\
    (forall k dn, df_items x !! k = Some dn -> exists dn', df_items x' !! k = Some dn' /\ cleaned cv dn dn' /\
       forall h, primary_ino dn = Some h ->
         in_dirty (ci_info (objs' h)) = in_dirty (ci_info (objs h)) && (cv <? st_version (ci_store (objs h)))).
Proof.
  intros Hc One.
  destruct (committed_walk_ok cv (item_keys x) objs x) as (x' & objs' & es & E & J1 & J2 & J3 & _);
    [apply ordered_nodup|intros k; apply elem_of_ordered_keys|done|done|].
  exists x', objs', es. split; [done|]. split.
  - intros k Hk. rewrite J1; [done|]. unfold item_keys. rewrite elem_of_ordered_keys, Hk. by intros [? ?].
  - intros k dn Hk. assert (k ∈ item_keys x) as Hin by (apply elem_of_ordered_keys; by rewrite Hk).
    destruct (J2 k dn Hin Hk) as (dn' & Hk' & Hcl). exists dn'. split; [done|]. split; [done|].
    intros h Hh. by apply (J3 k dn h).
Qed.

End Machine.

(** ** A concrete run *)

#[local] Existing Instances nosnap64 dn_ops_ex bloom_ex store_ops_ex codec_ex commit_const_ex.

#[local] Instance clean_ok_ex : CleanOk (C := Z).
Proof.
  split; intros; try (by split); try done.
  change (state_test (dn_obj (dn_mark_clean dn)) STATE_DIRTY = false).
  assert (co_state (dn_obj (dn_mark_clean dn)) = co_state (state_clear STATE_DIRTY (dn_obj dn))) as E
    by (cbn; by destruct (0 <? _)).
  unfold state_test. rewrite E. change (state_test (state_clear STATE_DIRTY (dn_obj dn)) STATE_DIRTY = false).
  unfold STATE_DIRTY. by rewrite state_test_clear.
Qed.

#[local] Instance clean_pins_ex : CleanPins (C := Z).
Proof.
  split; try done.
  - intros dn _ R. cbn. assert (refs_ok (state_clear STATE_DIRTY (dn_obj dn))) as R' by (by destruct R; split).
    destruct (Z.ltb_spec 0 (pins (state_clear STATE_DIRTY (dn_obj dn)) PIN_DIRTY)); [|done]. by apply repin_down.
  - intros dn p N. cbn. destruct (0 <? _); [|done].
    change (pins (repin (-1) PIN_DIRTY (state_clear STATE_DIRTY (dn_obj dn))) p = pins (dn_obj dn) p). by rewrite pins_repin, decide_False.
Qed.

#[local] Instance leases_ok_ex : LeasesOk (C := Z).
Proof. by split. Qed.

Definition env_ex : fenv := mk_fenv false false [].

Lemma cdir_ex_inv : commit_inv 0 cdir_ex.
Proof.
  split.
  - done.
  - split; [split|vm_compute; reflexivity].
    + apply obj_ok_repin; [|done|done|vm_compute; discriminate|vm_compute; reflexivity].
      split; [split; [done| |done]|done|done]. intros k n. cbn. by rewrite lookup_empty.
    + split; vm_compute; intuition discriminate.
  - vm_compute; reflexivity.
  - vm_compute; intuition discriminate.
  - repeat constructor; vm_compute; discriminate.
  - vm_compute; reflexivity.
  - by split.
  - intros v cs. cbn. by rewrite lookup_empty.
Qed.

Lemma items_ex_all (P : dentry Z -> Prop) :
  (forall b n v l, P (dn_ex b n v l)) -> forall k dn, items_ex !! k = Some dn -> P dn.
Proof.
  intros HP k dn Hk. assert (dn ∈ [dn_ex true "gone"%string 3 LNull; dn_ex true "file"%string 4 (LPrimary 7); dn_ex false "old"%string 1 (LPrimary 8);
     dn_ex true "link"%string 4 (LRemote 99 8 None)]) as Hin.
  { unfold items_ex in Hk. apply elem_of_list_to_map_2, list_elem_of_fmap in Hk as (dn' & [= _ ->] & Hin). done. }
  repeat (apply elem_of_cons in Hin as [->|Hin]; [apply HP|]). by apply not_elem_of_nil in Hin.
Qed.

Lemma dn_ex_refs b n v l : refs_ok (dn_obj (dn_ex b n v l)) /\ 0 <= co_ref (dn_obj (dn_ex b n v l)) <= 2.
Proof.
  assert (refs_ok (cobj_new (C := Z))) as R0 by (split; [done| |done]; intros k m; cbn; by rewrite lookup_empty).
  set (o := match l with LPrimary _ => repin 1 DN_PIN_INODEPIN (@cobj_new Z) | _ => cobj_new end).
  assert (refs_ok o /\ 0 <= co_ref o <= 1) as [R1 B1] by (unfold o; destruct l; (split; [by try apply repin_up|cbn; lia])).
  unfold dn_ex. fold o. destruct b; cbn [dn_obj]; [|split; [done|lia]].
  assert (refs_ok (repin 1 PIN_DIRTY o)) as R2 by (apply repin_up; [done|lia]). split; [by destruct R2; split|].
  change (0 <= co_ref o + 1 <= 2). lia.
Qed.

Lemma cdir_ex_tidy : tidy (infos objs_ex) (cd_dir cdir_ex).
Proof.
  split; [split; [split|..]|exact cdir_ex_keys|exact cdir_ex_primary|].
  - intros k dn Hk. assert ((k, dn) ∈ map_to_list items_ex) as Hin by (by apply elem_of_map_to_list). vm_compute in Hin.
    repeat (apply elem_of_cons in Hin as [[= -> ->]|Hin]; [done|]). by apply not_elem_of_nil in Hin.
  - apply (items_ex_all (fun dn => refs_ok (dn_obj dn))). intros b n v l. apply dn_ex_refs.
  - done.
  - intros [] []; vm_compute; reflexivity.
  - vm_compute. reflexivity.
  - apply (oo_refs _ (fz_obj _ _ (do_fz _ _ (cv_dirty _ _ cdir_ex_inv)))).
  - vm_compute. reflexivity.
  - vm_compute. reflexivity.
  - apply (items_ex_all (tidy_dn (infos objs_ex))). intros b n v l. split; [destruct b, l; vm_compute; done|done|].
    unfold inode_pinned. destruct l; [done| |done]. intros _. destruct b; vm_compute; done.
Qed.

Lemma cdir_ex_small : cd_small cdir_ex.
Proof. split; vm_compute; reflexivity. Qed.

Lemma cdir_ex_pre : cop_pre env_ex ienv_ex (CommitTo 0 (Some 42) (-1)) objs_ex cdir_ex.
Proof. split; [vm_compute; intuition discriminate|vm_compute; reflexivity]. Qed.

Lemma commit_machine_safe_witness : exists d' objs' es t,
  commit 0 (Some 42) false (-1) env_ex ienv_ex objs_ex cdir_ex = Ok (d', objs', es) /\ 0 <= t /\ commit_inv (0 + t) d' /\ tidy (infos objs') (cd_dir d').
Proof.
  apply (commit_machine_safe 0 env_ex ienv_ex (CommitTo 0 (Some 42) (-1)) objs_ex cdir_ex);
    [apply cdir_ex_inv|apply cdir_ex_small|apply cdir_ex_tidy|apply cdir_ex_pre].
Defined.

(** The same fragment with its commit under way. *)
Definition cdir_busy : cdir Z Z :=
  match commit 0 (Some 42) false (-1) env_ex ienv_ex objs_ex cdir_ex with Ok (d', _, _) => d' | Abort => cdir_ex end.
Definition objs_busy : Z -> cinode store_ex :=
  match commit 0 (Some 42) false (-1) env_ex ienv_ex objs_ex cdir_ex with Ok (_, objs', _) => objs' | Abort => objs_ex end.

Lemma cdir_busy_inv : commit_inv 0 cdir_busy /\ tidy (infos objs_busy) (cd_dir cdir_busy).
Proof.
  destruct (commit_keeps 0 env_ex ienv_ex 0 (Some 42) false (-1) objs_ex cdir_ex) as (d' & objs' & es & E & I & _ & _ & _ & Ty);
    [apply cdir_ex_inv|apply cdir_ex_small|apply ready_tidy, cdir_ex_tidy|reflexivity|reflexivity
    |apply cdir_ex_pre|apply cdir_ex_pre|by left|].
  unfold cdir_busy, objs_busy. rewrite E. split; [done|].
  destruct Ty as [Hwr|[-> ->]]; [by apply (wrote_tidy ienv_ex objs_ex cdir_ex); [|apply cdir_ex_tidy]|apply cdir_ex_tidy].
Qed.

Definition entries (d : cdir Z Z) : list (dentry_key_t * dentry Z) := map_to_list (df_items (cd_dir d)).

Lemma entries_spec (d : cdir Z Z) k dn : df_items (cd_dir d) !! k = Some dn <-> (k, dn) ∈ entries d.
Proof. symmetry. apply elem_of_map_to_list. Qed.

Definition covered_b (objs : Z -> cinode store_ex) (cv : Z) (p : dentry_key_t * dentry Z) : bool :=
  match primary_ino (snd p) with Some h => ci_auth (objs h) && (sx_version (ci_store (objs h)) <=? cv) | None => true end.

Lemma covered_check objs cv d :
  forallb (covered_b objs cv) (entries d) = true -> items_covered cv objs (cd_dir d) (item_keys (cd_dir d)).
Proof.
  intros Hf k dn h _ Hk%entries_spec Hp. rewrite forallb_forall in Hf. apply list_elem_of_In in Hk.
  specialize (Hf _ Hk). unfold covered_b in Hf. cbn [snd] in Hf. rewrite Hp in Hf. apply andb_true_iff in Hf as [Ha Hf].
  split; [done|]. left. cbn. lia.
Qed.

Lemma commits_drain_witness : exists d' objs' es es1 rest,
  _committed 0 4 env_ex ienv_ex objs_busy cdir_busy = Ok (d', objs', es) /\ es = es1 ++ rest /\ woken es1 = [42] /\
  committed_version d' = 4 /\ waiting_for_commit d' = ∅.
Proof.
  destruct (commits_drain 0 env_ex ienv_ex 0 4 objs_busy cdir_busy) as (d' & objs' & es & E & (es1 & ps & Ee & Ew & _) & _ & Ec & _ & _ & Hd).
  - lia.
  - apply cdir_busy_inv.
  - split; vm_compute; reflexivity.
  - apply cdir_busy_inv.
  - split; [vm_compute; reflexivity|]. split; [vm_compute; reflexivity|].
    apply covered_check. vm_compute. reflexivity.
  - exists d', objs', es, es1, (map Cd ps). split; [done|]. split; [done|]. split; [rewrite Ew; vm_compute; reflexivity|].
    split; [done|]. apply Hd. vm_compute. reflexivity.
Defined.

Lemma committed_cleans_witness : exists x' objs' es,
  committed_walk false 4 (item_keys (cd_dir cdir_ex)) objs_ex (cd_dir cdir_ex) = Ok (x', objs', es) /\
  in_dirty (ci_info (objs' 7)) = false.
Proof.
  destruct (committed_cleans 4 objs_ex (cd_dir cdir_ex)) as (x' & objs' & es & E & _ & Hk).
  - apply covered_check. vm_compute. reflexivity.
  - apply cdir_ex_primary.
  - exists x', objs', es. split; [done|].
    destruct (Hk (mk_key CEPH_NOSNAP (str "file")) (dn_ex true "file" 4 (LPrimary 7))) as (dn' & _ & _ & Hi);
      [vm_compute; reflexivity|]. rewrite (Hi 7) by reflexivity. vm_compute. reflexivity.
Defined.
