(* ===== verification/Fetch.v ===== *)
(** * Fetching a directory fragment from its object (CDir.cc)

    [fetch] reads the omap of the object ([_omap_fetch], with [_tmap_fetch] for the older
    form); [_omap_fetched] decodes the entries, adds the dentries and inodes the cache does not
    have, cleans those that were written before a crash, and wakes the waiters.

    The cache of inodes ([inode_map] of MDCache) is an [icache]: inodes by handle, and the
    handle of each inode number and last snapshot. *)

From stdpp Require Import base tactics numbers list gmap fin_maps sorting strings.
From Stdlib Require Import ZArith Lia Ascii.
From S2P Require Import Prelude Keys Stats CacheObject Dentries Freeze Versions Commit Tidy CommitMachine.
Open Scope Z_scope.
Open Scope list_scope.

(** The error codes the code names; the values of <errno.h>. *)
Definition ENOENT : Z := 2.
Definition ENODATA : Z := 61.
Definition ECANCELED : Z := 125.

Record icache (S : Type) := mk_icache {
  ic_map : gmap (Z * Z) Z;
  ic_objs : Z -> cinode S;
  ic_next : Z
}.
Arguments mk_icache {S}.
Arguments ic_map {S}.
Arguments ic_objs {S}.
Arguments ic_next {S}.

(** Whether the snap blob of a decoded inode opens a snap realm. *)
Class LoadOps (S : Type) := { st_snaprealm : S -> bool }.

Inductive ft_effect (C : Type) :=
| Fcd (e : cd_effect C)
| OmapRead (want_dn : cstring) (backtrace : bool)
| TmapRead (want_dn : cstring)
| VerifyBacktrace (ret3 : Z)
| ClogMissing                       (* object missing on disk *)
| ClogDup (ino : Z)                 (* loaded dup inode *)
| ExtraBytes
| OpenedUndefDirfrag
| OpenedUndefInode (h : Z)
| LinkRemoteInode (k : dentry_key_t) (h : Z)
| MarkDirtyRstat (h : Z)
| MarkStray (k : dentry_key_t) (h : Z) (orphan : bool)
| TouchDentry (k : dentry_key_t).
Arguments Fcd {C}.
Arguments OmapRead {C}.
Arguments TmapRead {C}.
Arguments VerifyBacktrace {C}.
Arguments ClogMissing {C}.
Arguments ClogDup {C}.
Arguments ExtraBytes {C}.
Arguments OpenedUndefDirfrag {C}.
Arguments OpenedUndefInode {C}.
Arguments LinkRemoteInode {C}.
Arguments MarkDirtyRstat {C}.
Arguments MarkStray {C}.
Arguments TouchDentry {C}.

Section Fetch.
Context {C S T : Type} `{CephConst} `{CDentryOps C} `{Bloom} `{StoreOps S} `{Codec S T} `{LoadOps S}.
Abbreviation cinode := (cinode S).
Abbreviation icache := (icache S).
Abbreviation cdir := (cdir C T).
Abbreviation ft_effect := (ft_effect C).

Definition fdn (e : dn_effect) : ft_effect := Fcd (Fz (PinHook e)).

(** [MDCache::get_inode(ino, last)] *)
Definition get_inode (ino last : Z) (ic : icache) : option Z := ic_map ic !! (ino, last).

Definition put_inode (h : Z) (i : cinode) (ic : icache) : icache :=
  mk_icache (ic_map ic) (upd_obj h i (ic_objs ic)) (ic_next ic).

(** [new CInode] with the given contents: a handle nobody has *)
Definition new_inode (i : cinode) (ic : icache) : icache * Z :=
  (mk_icache (ic_map ic) (upd_obj (ic_next ic) i (ic_objs ic)) (ic_next ic + 1), ic_next ic).

(** [MDCache::add_inode] on the map of inodes; the pointers to the system inodes ([root], [myin],
    [strays], [base_inodes]), which it sets as well, are not read by the load of a fragment. *)
Definition add_inode (h : Z) (ic : icache) : res icache :=
  let i := ic_objs ic h in
  let vino := (st_ino (ci_store i), ci_last i) in
  check (bool_decide (ic_map ic !! vino = None)) ;;
  Ok (mk_icache (<[vino := h]> (ic_map ic)) (ic_objs ic) (ic_next ic)).

(** ** Starting a fetch *)

Definition _omap_fetch (verify_backtrace whole : bool) (want_dn : cstring) : list ft_effect :=
  [OmapRead want_dn (verify_backtrace && whole)].
Definition _tmap_fetch (want_dn : cstring) : list ft_effect := [TmapRead want_dn].

Definition fwake (c : option C) : list ft_effect := match c with Some c => [Fcd (Wake c)] | None => [] end.

(** [verify_backtrace] is [mds_verify_backtrace > 0], [whole] is [frag == frag_t()]. *)
Definition fetch (verify_backtrace whole : bool) (e : fenv) (ie : ienv) (c : option C) (want_dn : cstring)
    (ignore_authpinnability : bool) (d : cdir) : res (cdir * list ft_effect) :=
  check (cd_is_auth d) ;;
  check (negb (is_complete d)) ;;
  if negb (can_auth_pin e (cd_fdir d)) && negb ignore_authpinnability then
    match c with
    | Some c => '(d, es) ← dir_add_waiter WAIT_UNFREEZE c d; Ok (d, map Fcd es)
    | None => Ok (d, [])
    end
  else if (ie_nlink ie =? 0) && negb (ie_snaprealm ie) then
    d ← (if get_version d =? 0 then set_version 1 d else Ok d);
    Ok (mark_complete d, fwake c)
  else
    '(d, es) ← (match c with Some c => dir_add_waiter WAIT_COMPLETE c d | None => Ok (d, []) end);
    if cd_test d STATE_FETCHING then Ok (d, map Fcd es)
    else
      '(d, es') ← cd_auth_pin d;
      let d := set_cd_obj (state_set STATE_FETCHING (cd_obj d)) d in
      Ok (d, map Fcd es ++ map Fcd es' ++ _omap_fetch verify_backtrace whole want_dn).

(** ** What was read *)

Record fstate := mk_fstate {
  fs_dir : cdir;
  fs_cache : icache;
  fs_undef : list Z;
  fs_eff : list ft_effect
}.

Definition log_f (es : list ft_effect) (s : fstate) : fstate :=
  mk_fstate (fs_dir s) (fs_cache s) (fs_undef s) (fs_eff s ++ es).

(** a remote link the cache does not have *)
Definition load_remote (dname : cstring) (ino d_type first last : Z) (s : fstate) : res fstate :=
  '(x, es) ← add_remote_dentry dname ino d_type first last (cd_dir (fs_dir s));
  let k := mk_key last dname in
  match get_inode ino CEPH_NOSNAP (fs_cache s) with
  | Some h =>
      x ← (match df_items x !! k with
           | Some dn => Ok (upd_dentry k (set_linkage (LRemote ino d_type (Some h)) dn) x)
           | None => Abort
           end);
      Ok (log_f (map fdn es ++ [LinkRemoteInode k h])
            (mk_fstate (set_cd_dir x (fs_dir s)) (fs_cache s) (fs_undef s) (fs_eff s)))
  | None =>
      Ok (log_f (map fdn es) (mk_fstate (set_cd_dir x (fs_dir s)) (fs_cache s) (fs_undef s) (fs_eff s)))
  end.

Definition new_info (st : S) : inode_info := mk_inode_info 0 false 0 0 (st_snaprealm st).

(** the contents an inode gets from disk, its stale snapshots purged *)
Definition loaded_store (snaps : option (gset Z)) (st : S) : S :=
  match snaps with
  | Some sn => if st_snaprealm st then st else st_purge_stale sn st
  | None => st
  end.

(** [in->inode = inode_data.inode] and what follows, for the inode [h] *)
Definition fill_inode (snaps : option (gset Z)) (first : Z) (st : S) (i : cinode) : cinode :=
  mk_cinode (mk_inode_info (in_num_ref (ci_info i)) (in_dirty (ci_info i)) (in_auth_pins (ci_info i))
      (in_nested_auth_pins (ci_info i)) (st_snaprealm st))
    (ci_auth i) first (ci_last i) (ci_undef i) (loaded_store snaps st).

(** an inode the cache does not have, or one of which it has the name only *)
Definition load_inode (snaps : option (gset Z)) (stray undef : bool) (dname : cstring) (first last : Z) (st : S)
    (k : dentry_key_t) (found : option Z) (s : fstate) : res fstate :=
  '(ic, h) ← (match found with
              | Some h => if undef
                          then Ok (put_inode h (fill_inode snaps first st (ic_objs (fs_cache s) h)) (fs_cache s), h)
                          else Abort
              | None =>
                  Ok (new_inode (mk_cinode (new_info st) true first last false (loaded_store snaps st)) (fs_cache s))
              end);
  '(ic, x, es) ← (if undef then Ok (ic, cd_dir (fs_dir s), [])
                  else
                    ic ← add_inode h ic;
                    '(x, es) ← add_primary_dentry dname (ci_info (ic_objs ic h)) h first last (cd_dir (fs_dir s));
                    Ok (ic, x, es));
  let rs := if st_dirty_rstat (ci_store (ic_objs ic h)) then [MarkDirtyRstat h] else [] in
  let str := if stray then [MarkStray k h (st_nlink (ci_store (ic_objs ic h)) =? 0)] else [] in
  Ok (log_f (map fdn es ++ rs ++ str) (mk_fstate (set_cd_dir x (fs_dir s)) ic (fs_undef s) (fs_eff s))).

(** an item that is dirty from the journal but was written before the crash *)
Definition clean_underwater (got : Z) (k : dentry_key_t) (s : fstate) : res fstate :=
  match df_items (cd_dir (fs_dir s)) !! k with
  | None => Abort
  | Some dn =>
      if (committed_version (fs_dir s) =? 0) && (dn_version dn <=? got) && is_dirty (dn_obj dn) then
        let dn := dn_mark_clean dn in
        match primary_ino dn with
        | Some h =>
            let i := ic_objs (fs_cache s) h in
            check (st_version (ci_store i) <=? got) ;;
            let '(x, dn) := in_mark_clean (ci_info i) dn in
            Ok (log_f [fdn (MarkDentryClean k); fdn (MarkInodeClean h)]
                  (mk_fstate (set_cd_dir (upd_dentry k dn (cd_dir (fs_dir s))) (fs_dir s))
                     (put_inode h (set_ci_info x i) (fs_cache s)) (fs_undef s) (fs_eff s)))
        | None =>
            Ok (log_f [fdn (MarkDentryClean k)]
                  (mk_fstate (set_cd_dir (upd_dentry k dn (cd_dir (fs_dir s))) (fs_dir s)) (fs_cache s)
                     (fs_undef s) (fs_eff s)))
        end
      else Ok s
  end.

(** the end of the loop body, for the dentry [k] *)
Definition finish_entry (want_dn : cstring) (got : Z) (k : dentry_key_t) (dname : cstring) (s : fstate) : res fstate :=
  let touch := negb (bool_decide (want_dn = [])) && bool_decide (want_dn = dname) in
  clean_underwater got k (if touch then log_f [TouchDentry k] s else s).

Definition is_stale (snaps : option (gset Z)) (first last : Z) : bool :=
  match snaps with
  | Some sn => negb (last =? CEPH_NOSNAP) && no_snap_in sn first last
  | None => false
  end.

(** [linkage_t::get_inode] *)
Definition linkage_inode (dn : dentry C) : option Z :=
  match dn_linkage dn with LNull => None | LPrimary h => Some h | LRemote _ _ i => i end.

(** the inode branch of the loop body *)
Definition load_primary (snaps : option (gset Z)) (stray : bool) (want_dn : cstring) (got : Z) (dname : cstring)
    (first last : Z) (st : S) (s : fstate) : res fstate :=
  let load undef k s :=
    match get_inode (st_ino st) last (fs_cache s), undef with
    | Some h, false => Ok (log_f [ClogDup (st_ino st)] s)
    | found, _ =>
        s ← load_inode snaps stray undef dname first last st k found s;
        finish_entry want_dn got k dname s
    end in
  match lookup dname last (cd_dir (fs_dir s)) with
  | None => load false (mk_key last dname) s
  | Some dn =>
      let k := dn_key dn in
      match linkage_inode dn with
      | Some h =>
          if ci_undef (ic_objs (fs_cache s) h) then
            load true k (mk_fstate (fs_dir s) (fs_cache s) (fs_undef s ++ [h]) (fs_eff s))
          else finish_entry want_dn got k dname s
      | None => finish_entry want_dn got k dname s
      end
  end.

(** the loop body of [_omap_fetched], for one key and its value *)
Definition load_entry (snaps : option (gset Z)) (stray : bool) (want_dn : cstring) (got : Z)
    (p : cstring * bytes) (s : fstate) : res fstate :=
  '(dname, last) ← dentry_key_decode (fst p);
  match dec_snapid (snd p) with
  | None | Some (_, []) => Abort
  | Some (first, ty :: q) =>
      let stale := is_stale snaps first last in
      if bool_decide (ty = "L"%char) then
        match dec_ino q with
        | None => Abort
        | Some (ino, q) =>
            match dec_u8 q with
            | None => Abort
            | Some (d_type, _) =>
                if stale then Ok s
                else match lookup dname last (cd_dir (fs_dir s)) with
                     | Some dn => finish_entry want_dn got (dn_key dn) dname s
                     | None =>
                         s ← load_remote dname ino d_type first last s;
                         finish_entry want_dn got (mk_key last dname) dname s
                     end
            end
        end
      else if bool_decide (ty = "I"%char) then
        match dec_store q with
        | None => Abort
        | Some (st, _) =>
            if stale then Ok s else load_primary snaps stray want_dn got dname first last st s
        end
      else Abort
  end.

Fixpoint load_entries (snaps : option (gset Z)) (stray : bool) (want_dn : cstring) (got : Z)
    (l : list (cstring * bytes)) (s : fstate) : res fstate :=
  match l with
  | [] => Ok s
  | p :: l => s ← load_entry snaps stray want_dn got p s; load_entries snaps stray want_dn got l s
  end.

(** take the header, only if the fragment has no prior state *)
Definition take_header (mds_rejoin : bool) (got : fnode_t T) (d : cdir) : res (cdir * list ft_effect) :=
  if get_version d =? 0 then
    check (negb (is_projected d)) ;;
    check (negb (cd_test d STATE_COMMITTING)) ;;
    let d := set_commits (fn_version got) (fn_version got)
               (set_projected_version (fn_version got) (set_fnode got d)) in
    if cd_test d STATE_REJOINUNDEF then
      check mds_rejoin ;;
      Ok (set_cd_obj (state_clear STATE_REJOINUNDEF (cd_obj d)) d, [OpenedUndefDirfrag])
    else Ok (d, [])
  else Ok (d, []).

(** the end: complete, no longer fetching, the undefined inodes opened, the pin released *)
Definition finish_fetch (e : fenv) (s : fstate) : res (cdir * icache * list ft_effect) :=
  let d := mark_complete (fs_dir s) in
  let d := set_cd_obj (state_clear STATE_FETCHING (cd_obj d)) d in
  let undef h := mk_cinode (ci_info (ic_objs (fs_cache s) h)) (ci_auth (ic_objs (fs_cache s) h))
                   (ci_first (ic_objs (fs_cache s) h)) (ci_last (ic_objs (fs_cache s) h)) false
                   (ci_store (ic_objs (fs_cache s) h)) in
  let ic := fold_left (fun ic h => put_inode h (undef h) ic) (fs_undef s) (fs_cache s) in
  '(d, es1) ← cd_auth_unpin e d;
  '(d, es2) ← cd_finish_waiting WAIT_COMPLETE 0 d;
  Ok (d, ic, fs_eff s ++ map OpenedUndefInode (fs_undef s) ++ map Fcd es1 ++ map Fcd es2).

(** [omap] is the map in the order of its keys; the loop goes from its end. *)
Definition _omap_fetched (mds_rejoin : bool) (e : fenv) (ie : ienv) (hdrbl : bytes)
    (omap : list (cstring * bytes)) (want_dn : cstring) (r : Z) (ic : icache) (d : cdir)
  : res (cdir * icache * list ft_effect) :=
  check ((r =? 0) || (r =? - ENOENT) || (r =? - ENODATA)) ;;
  check (cd_is_auth d) ;;
  check (negb (is_frozen e (cd_fdir d))) ;;
  match hdrbl with
  | [] =>
      if negb (r =? - ENODATA) then Ok (d, ic, _tmap_fetch want_dn)
      else
        let d := set_cd_obj (state_set STATE_BADFRAG (cd_obj d)) d in
        '(d, ic, es) ← finish_fetch e (mk_fstate d ic [] [ClogMissing]);
        Ok (d, ic, es)
  | _ =>
      match dec_fnode hdrbl with
      | None => Abort
      | Some (got, rest) =>
          let extra := match rest with [] => [] | _ => [ExtraBytes] end in
          '(d, es) ← take_header mds_rejoin got d;
          let snaps := purge_snaps ie (fnode d) in
          let d := match snaps with
                   | Some _ => set_fnode (set_fn_purged (ie_last_destroyed ie) (fnode d)) d
                   | None => d
                   end in
          s ← load_entries snaps (ie_stray ie) want_dn (fn_version got) (rev omap)
                (mk_fstate d ic [] (extra ++ es));
          finish_fetch e s
      end
  end.

(** [C_IO_Dir_OMAP_Fetched::finish] *)
Definition omap_read_done (mds_rejoin : bool) (e : fenv) (ie : ienv) (r ret1 ret2 ret3 : Z) (hdrbl : bytes)
    (omap : list (cstring * bytes)) (want_dn : cstring) (ic : icache) (d : cdir)
  : res (cdir * icache * list ft_effect) :=
  let es := if (0 <=? r) && negb (ret3 =? - ECANCELED) then [VerifyBacktrace ret3] else [] in
  let r := if 0 <=? r then ret1 else r in
  let r := if 0 <=? r then ret2 else r in
  '(d, ic, es') ← _omap_fetched mds_rejoin e ie hdrbl omap want_dn r ic d;
  Ok (d, ic, es ++ es').

(** [_tmap_fetched]; [dec_tmap] splits the old form of the object into header and entries. *)
Definition _tmap_fetched (dec_tmap : bytes -> option (bytes * list (cstring * bytes) * bytes)) (mds_rejoin : bool)
    (e : fenv) (ie : ienv) (bl : bytes) (want_dn : cstring) (r : Z) (ic : icache) (d : cdir)
  : res (cdir * icache * list ft_effect) :=
  check ((r =? 0) || (r =? - ENOENT)) ;;
  check (cd_is_auth d) ;;
  check (negb (is_frozen e (cd_fdir d))) ;;
  match bl with
  | [] => _omap_fetched mds_rejoin e ie [] [] want_dn (- ENODATA) ic d
  | _ =>
      match dec_tmap bl with
      | None => Abort
      | Some (header, omap, rest) =>
          '(d, ic, es) ← _omap_fetched mds_rejoin e ie header omap want_dn r ic d;
          Ok (d, ic, (match rest with [] => [] | _ => [ExtraBytes] end) ++ es)
      end
  end.

End Fetch.

(** ** What a fetch adds *)

(** An entry of the object: a remote link or an inode. *)
Inductive drec (S : Type) := RLink (ino d_type : Z) | RInode (st : S).
Arguments RLink {S}.
Arguments RInode {S}.

Section Merge.
Context {C S T : Type} `{CephConst} `{CDentryOps C} `{Bloom} `{StoreOps S} `{Codec S T} `{!CodecOk S T} `{LoadOps S}.
Context `{!CleanOk (C := C)} `{!CleanPins (C := C)}.
Context (bits_distinct : has_bits DN_STATE_FRAGMENTING STATE_DIRTY = false).
Context (purge_ino : forall sn (st : S), st_ino (st_purge_stale sn st) = st_ino st).
Implicit Types d : cdir C T.
Implicit Types x : dirfrag C.
Implicit Types dn : dentry C.
Implicit Types ic : icache S.

Definition rec_bytes (p : Z * drec S) : bytes :=
  enc_snapid (fst p) ++
  match snd p with
  | RLink ino d_type => "L"%char :: enc_ino ino ++ enc_u8 d_type
  | RInode st => "I"%char :: enc_store st
  end.

Definition encoded (R : list (dentry_key_t * (Z * drec S))) : list (cstring * bytes) :=
  map (fun p => (dentry_key_encode (fst p), rec_bytes (snd p))) R.

(** The object of the fragment after its first dentry. *)
Definition child_pinned x0 x : Prop :=
  df_obj x = if decide (df_items x0 = ∅) then (if decide (df_items x = ∅) then df_obj x0 else repin 1 PIN_CHILD (df_obj x0))
             else df_obj x0.

(** [dn'] is the dentry [dn] of the cache, or, if it was washed, what cleaning it leaves. *)
Definition kept_as (washed : bool) dn dn' : Prop :=
  same_entry dn dn' /\ dn_version dn' = dn_version dn /\ if washed then is_dirty (dn_obj dn') = false else dn' = dn.

(** [x] is [x0] with the entries [added] and with the dentries [wet] cleaned. *)
Record merged x0 (added : gmap dentry_key_t (Z * linkage_t)) (wet : gset dentry_key_t) x : Prop := {
  mg_inv : dir_inv x;
  mg_abs : abs x = added ∪ abs x0;
  mg_fresh : forall k, is_Some (added !! k) -> df_items x0 !! k = None;
  mg_old : forall k dn, df_items x0 !! k = Some dn -> exists dn', df_items x !! k = Some dn' /\ kept_as (bool_decide (k ∈ wet)) dn dn';
  mg_new : forall k dn, is_Some (added !! k) -> df_items x !! k = Some dn -> is_dirty (dn_obj dn) = false;
  mg_obj : child_pinned x0 x;
  mg_pv : df_projected_version x = df_projected_version x0
}.

Lemma has_bits_or a b m : has_bits (Z.lor a b) m = has_bits a m || has_bits b m.
Proof.
  unfold has_bits. rewrite Z.land_lor_distr_l. destruct (Z.eqb_spec (Z.land a m) 0) as [Ea|Na], (Z.eqb_spec (Z.land b m) 0) as [Eb|Nb]; cbn [negb orb].
  - by rewrite Ea, Eb.
  - rewrite Ea, Z.lor_0_l. by rewrite (proj2 (Z.eqb_neq _ _) Nb).
  - rewrite Eb, Z.lor_0_r. by rewrite (proj2 (Z.eqb_neq _ _) Na).
  - apply negb_true_iff, Z.eqb_neq. intros E%Z.lor_eq_0_iff. tauto.
Qed.

Lemma dn_get_dirty pin dn dn' es : dn_get pin dn = Ok (dn', es) -> is_dirty (dn_obj dn') = is_dirty (dn_obj dn).
Proof.
  unfold dn_get, get. cbv zeta. intros E. apply bind_ok in E as ([o hs] & E1 & E). injection E as <- _.
  apply bind_ok in E1 as (? & _ & E1). by injection E1 as <- _.
Qed.

Lemma finish_add_frame null head dn0 x x' es :
  finish_add null head dn0 x = Ok (x', es) -> exists dn',
    df_items x' = <[dn_key dn' := dn']> (df_items x) /\
    df_projected_version x' = df_projected_version x /\ is_dirty (dn_obj dn') = is_dirty (dn_obj dn0) /\
    (df_obj x' = df_obj x \/ exists hs, get (df_obj x) PIN_CHILD = Ok (df_obj x', hs)).
Proof.
  unfold finish_add. cbv zeta. intros E. apply bind_ok in E as ([dn1 es1] & E1 & E).
  apply bind_ok in E as ([x1 es2] & E2 & E). injection E as <- _. exists dn1.
  assert (is_dirty (dn_obj dn1) = is_dirty (dn_obj dn0)) as Hd.
  { unfold pin_fragmenting in E1. destruct (state_test _ _); [|by injection E1 as <- _]. apply bind_ok in E1 as ([dn2 es3] & E1 & E4). injection E4 as <- _.
    rewrite <- (dn_get_dirty _ _ _ _ E1). unfold is_dirty, state_test. cbn. by rewrite has_bits_or, bits_distinct, orb_false_r. }
  unfold pin_child in E2. apply bind_ok in E2 as ([x2 es3] & E3 & E2). apply bind_ok in E2 as (? & _ & E2).
  injection E2 as <- _. destruct (get_num_any _ =? 1).
  - apply bind_ok in E3 as ([o hs] & E3 & E4). injection E4 as <- _. split_and!; [done|done|done|]. right. by exists hs.
  - injection E3 as <- _. split_and!; [done|done|done|]. by left.
Qed.

Lemma get_self (o o' : cobj C) pin hs : get o pin = Ok (o', hs) -> pins o' pin = s32 (pins o pin + 1).
Proof.
  unfold get. intros E. apply bind_ok in E as (? & _ & E). injection E as <- _.
  unfold pins at 1. cbn. by rewrite lookup_insert_eq.
Qed.

(** An operation that adds one dentry, as its lemma and its frame describe it. *)
Lemma merged_add x0 added wet x x' k f l dn' :
  merged x0 added wet x -> refs_ok (df_obj x0) -> co_ref (df_obj x0) < 2 ^ 31 - 1 ->
  dir_inv x' -> abs x' = <[k := (f, l)]> (abs x) -> df_items x !! k = None ->
  df_items x' = <[dn_key dn' := dn']> (df_items x) -> df_projected_version x' = df_projected_version x ->
  is_dirty (dn_obj dn') = false -> (df_obj x' = df_obj x \/ exists hs, get (df_obj x) PIN_CHILD = Ok (df_obj x', hs)) ->
  merged x0 (<[k := (f, l)]> added) wet x'.
Proof.
  intros [M1 M2 M3 M4 M4' M5 M6] R B I' Ea Hn Ei Ep Ed Eo.
  assert (df_items x0 !! k = None) as Hn0.
  { destruct (df_items x0 !! k) as [dn|] eqn:E; [|done]. destruct (M4 k dn E) as (dn2 & E2 & _). congruence. }
  assert (dn_key dn' = k) as Ek.
  { assert (is_Some (abs x' !! dn_key dn')) as Hs
      by (unfold abs; rewrite lookup_fmap, Ei, lookup_insert_eq; by eexists).
    destruct (decide (dn_key dn' = k)) as [|N]; [done|].
    assert (abs x' !! k = None) as Hk by (unfold abs; by rewrite lookup_fmap, Ei, lookup_insert_ne, Hn).
    by rewrite Ea, lookup_insert_eq in Hk. }
  split.
  - done.
  - by rewrite Ea, M2, insert_union_l.
  - intros k' [v Hv]. destruct (decide (k' = k)) as [->|N]; [done|]. rewrite lookup_insert_ne in Hv by done. apply M3. by eexists.
  - intros k' dn Hk'. rewrite Ei, Ek, lookup_insert_ne; [by apply M4|]. intros ->. congruence.
  - intros k' dn Hs Hk'. rewrite Ei, Ek in Hk'. destruct (decide (k' = k)) as [->|N].
    + rewrite lookup_insert_eq in Hk'. by injection Hk' as <-.
    + rewrite lookup_insert_ne in Hs by done. rewrite lookup_insert_ne in Hk' by done. by apply (M4' k').
  - unfold child_pinned in *. assert (df_items x' <> ∅) as Hne by (rewrite Ei; apply insert_non_empty).
    assert (pins (df_obj x') PIN_CHILD = 1) as Hp' by (rewrite (dv_child _ I'); by rewrite decide_False).
    assert (pins (df_obj x) PIN_CHILD = if decide (df_items x = ∅) then 0 else 1) as Hp by apply (dv_child _ M1).
    rewrite (decide_False (P := df_items x' = ∅)) by done.
    assert (df_obj x' = if decide (df_items x = ∅) then repin 1 PIN_CHILD (df_obj x) else df_obj x) as Ho.
    { destruct (decide (df_items x = ∅)) as [E|E].
      - destruct Eo as [Eo|[hs Eo]]; [by rewrite Eo, Hp in Hp'|]. rewrite get_ok in Eo; [by injection Eo|apply M1|].
        destruct (decide (df_items x0 = ∅)); rewrite M5; [|done]. done.
      - destruct Eo as [->|[hs Eo]]; [done|]. apply get_self in Eo. rewrite Hp, Hp' in Eo. by vm_compute in Eo. }
    rewrite Ho. destruct (decide (df_items x0 = ∅)) as [E0|E0]; destruct (decide (df_items x = ∅)) as [E|E]; rewrite M5; try done.
    exfalso. apply E0. apply map_empty. intros k'. destruct (df_items x0 !! k') as [dn|] eqn:E1; [|done].
    destruct (M4 k' dn E1) as (dn2 & Hx & _). by rewrite E, lookup_empty in Hx.
  - congruence.
Qed.

(** Room for [n] more dentries. *)
Definition room (n : nat) x0 : Prop :=
  Z.of_nat (size (df_items x0)) + Z.of_nat n < 2 ^ 32 - 1 /\ co_ref (df_obj x0) < 2 ^ 31 - 2.

Lemma merged_room x0 added wet x n :
  merged x0 added wet x -> room n x0 -> (size added < n)%nat -> has_room x.
Proof.
  intros [M1 M2 M3 M4 M4' M5 M6] [R1 R2] Hs. split.
  - assert (size (df_items x) = size (abs x)) as -> by (unfold abs; by rewrite map_size_fmap).
    rewrite M2. rewrite map_size_disj_union.
    + unfold abs. rewrite map_size_fmap. lia.
    + apply map_disjoint_spec. intros k a b Ha Hb. unfold abs in Hb. rewrite lookup_fmap in Hb.
      rewrite (M3 k) in Hb; [done|by eexists].
  - rewrite M5. destruct (decide _); [destruct (decide _)|]; simpl; lia.
Qed.

Lemma new_clean x dname first last l : is_dirty (dn_obj (new_dentry x dname first last l)) = false.
Proof. unfold new_dentry. cbn. by destruct (is_auth (df_obj x)). Qed.
Lemma link_work_dirty i h dn dn' es : link_inode_work i h dn = Ok (dn', es) -> is_dirty (dn_obj dn') = is_dirty (dn_obj dn).
Proof.
  unfold link_inode_work. cbv zeta. intros E. apply bind_ok in E as ([dn1 es1] & E1 & E). injection E as <- _.
  destruct (in_num_ref i =? 0); [by injection E1 as <- _|by eapply dn_get_dirty].
Qed.

Lemma add_remote_merged x0 added wet x dname ino dt first last n :
  merged x0 added wet x -> dir_inv x0 -> room n x0 -> (size added < n)%nat -> df_items x !! mk_key last dname = None ->
  exists x' es, add_remote_dentry dname ino dt first last x = Ok (x', es) /\
    merged x0 (<[mk_key last dname := (first, LRemote ino dt None)]> added) wet x'.
Proof.
  intros M I0 Hr Hs Hn. destruct (add_remote_ok x dname ino dt first last) as (x' & es & E & I' & Ea);
    [apply M|by eapply merged_room|done|]. exists x', es. split; [done|].
  pose proof E as E'. unfold add_remote_dentry in E'. apply bind_ok in E' as (? & _ & E'). cbv zeta in E'.
  apply bind_ok in E' as (? & _ & E'). apply bind_ok in E' as ([y es1] & E1 & E'). injection E' as <- _.
  destruct (finish_add_frame _ _ _ _ _ _ E1) as (dn' & F1 & F2 & F3 & F4).
  destruct Hr as [_ Hr]. eapply (merged_add x0 added wet x y); try done; [apply I0|lia|]. rewrite F3. apply new_clean.
Qed.

Lemma add_primary_merged x0 added wet x dname i h first last n :
  merged x0 added wet x -> dir_inv x0 -> room n x0 -> (size added < n)%nat -> df_items x !! mk_key last dname = None ->
  exists x' es, add_primary_dentry dname i h first last x = Ok (x', es) /\
    merged x0 (<[mk_key last dname := (first, LPrimary h)]> added) wet x'.
Proof.
  intros M I0 Hr Hs Hn. destruct (add_primary_ok kinds_distinct x dname i h first last) as (x' & es & E & I' & Ea);
    [apply M|by eapply merged_room|done|]. exists x', es. split; [done|].
  pose proof E as E'. unfold add_primary_dentry in E'. apply bind_ok in E' as (? & _ & E'). cbv zeta in E'.
  apply bind_ok in E' as (? & _ & E'). apply bind_ok in E' as ([dn1 es1] & Ew & E').
  apply bind_ok in E' as ([y es2] & E1 & E'). injection E' as <- _.
  destruct (finish_add_frame _ _ _ _ _ _ E1) as (dn' & F1 & F2 & F3 & F4).
  destruct Hr as [_ Hr]. eapply (merged_add x0 added wet x y); try done; [apply I0|lia|]. rewrite F3, (link_work_dirty _ _ _ _ _ Ew). apply new_clean.
Qed.

(** [link_remote] of an added dentry: the linkage notes the inode. *)
Lemma relink_merged x0 added wet x k first ino dt i dn :
  merged x0 (<[k := (first, LRemote ino dt None)]> added) wet x -> df_items x !! k = Some dn -> df_items x0 !! k = None ->
  dn_linkage dn = LRemote ino dt None -> dn_first dn = first ->
  merged x0 (<[k := (first, LRemote ino dt i)]> added) wet (upd_dentry k (set_linkage (LRemote ino dt i) dn) x).
Proof.
  intros [M1 M2 M3 M4 M4' M5 M6] Hk Hn Hl Hf. pose proof M1 as [I1 I2 I3 I4].
  assert (df_items x <> ∅) as Hne by (intros E; by rewrite E, lookup_empty in Hk).
  split.
  - split; [|done| |done].
    + eapply (items_inv_upd x k dn (set_linkage (LRemote ino dt i) dn)); try done.
      * exact (ii_key _ I1 k dn Hk).
      * exact (ii_refs _ I1 k dn Hk).
      * intros Hst. exact (ii_frag _ I1 Hst k dn Hk).
      * intros null head.
        assert (in_class null head (set_linkage (LRemote ino dt i) dn) = in_class null head dn) as ->
          by (unfold in_class, is_null, is_head; cbn; by rewrite Hl).
        change (counter null head x = counter null head x - in_class null head dn + in_class null head dn). lia.
    + cbn. rewrite I3. rewrite !decide_False; [done|apply insert_non_empty|done].
  - unfold abs in *. cbn. rewrite fmap_insert, M2, insert_union_l, insert_insert_eq. f_equal.
    unfold entry. cbn. by rewrite Hf.
  - intros k' Hs. apply M3. destruct (decide (k' = k)) as [->|N]; [by rewrite lookup_insert_eq|].
    rewrite lookup_insert_ne in * by done. done.
  - intros k' dn' Hk'. cbn. rewrite lookup_insert_ne; [by apply M4|]. intros ->. congruence.
  - intros k' dn' Hs. cbn. destruct (decide (k' = k)) as [->|N].
    + rewrite lookup_insert_eq. intros [= <-]. cbn. apply (M4' k); [by rewrite lookup_insert_eq|done].
    + rewrite lookup_insert_ne by done. apply M4'. rewrite lookup_insert_ne in * by done. done.
  - unfold child_pinned in *. cbn. rewrite M5. destruct (decide (df_items x0 = ∅)); [|done].
    by rewrite !decide_False by (done || apply insert_non_empty).
  - exact M6.
Qed.

(** A dentry of the cache is cleaned. *)
Lemma wash_merged x0 added wet x k dn dn' :
  merged x0 added wet x -> df_items x0 !! k = Some dn -> df_items x !! k = Some dn -> repinned dn dn' ->
  dn_version dn' = dn_version dn -> is_dirty (dn_obj dn') = false -> merged x0 added ({[k]} ∪ wet) (upd_dentry k dn' x).
Proof.
  intros [M1 M2 M3 M4 M4' M5 M6] H0k Hk (Se & Rf & Fr) Hv Hd. pose proof M1 as [I1 I2 I3 I4].
  assert (df_items x <> ∅) as Hne by (intros E; by rewrite E, lookup_empty in Hk).
  assert (added !! k = None) as Ha by (destruct (added !! k) eqn:E; [|done]; by rewrite (M3 k) in H0k by (by eexists)). split.
  - apply (dir_inv_upd x k dn dn'); try done; [by apply same_entry_key|apply Se].
  - unfold abs in *. cbn. rewrite fmap_insert, M2. apply map_eq. intros k'. destruct (decide (k' = k)) as [->|N]; [|by rewrite lookup_insert_ne].
    rewrite lookup_insert_eq. symmetry. rewrite lookup_union_r by done. rewrite lookup_fmap, H0k. cbn. unfold entry. by rewrite (se_first _ _ Se), (se_linkage _ _ Se).
  - done.
  - intros k' dn2 Hk'. cbn. destruct (decide (k' = k)) as [->|N].
    + rewrite lookup_insert_eq. exists dn'. split; [done|]. rewrite Hk' in H0k. injection H0k as <-. rewrite bool_decide_true by set_solver. done.
    + rewrite lookup_insert_ne by done. destruct (M4 k' dn2 Hk') as (dn3 & E3 & K3). exists dn3. split; [done|].
      by rewrite (bool_decide_ext (k' ∈ {[k]} ∪ wet) (k' ∈ wet)) by set_solver.
  - intros k' dn2 Hs. cbn. destruct (decide (k' = k)) as [->|N]; [by rewrite Ha in Hs; destruct Hs|]. rewrite lookup_insert_ne by done. by apply M4'.
  - unfold child_pinned in *. cbn. rewrite M5. destruct (decide (df_items x0 = ∅)); [|done].
    by rewrite !decide_False by (done || apply insert_non_empty).
  - exact M6.
Qed.

(** The cache has a dentry that is live at the last snapshot of the key. *)
Definition covered_by x (k : dentry_key_t) : option (dentry C) := lookup (dk_name k) (dk_snapid k) x.

(** What was read is in order by itself and beside the cache [x0]: entries of one name do not
    overlap, neither among themselves nor with the dentries of the cache (one that is live at
    the last snapshot of the entry takes its place). *)
Record fetch_pre x0 (R : list (dentry_key_t * (Z * drec S))) : Prop := {
  fp_inv : dir_inv x0;
  fp_overlap : no_overlap x0;
  fp_span : forall k dn, df_items x0 !! k = Some dn -> dn_first dn <= dn_last dn;
  fp_nodup : NoDup R.*1;
  fp_u64 : forall k p, (k, p) ∈ R -> in_u64 (dk_snapid k);
  fp_rspan : forall k p, (k, p) ∈ R -> fst p <= dk_snapid k;
  fp_disjoint : forall k1 p1 k2 p2, (k1, p1) ∈ R -> (k2, p2) ∈ R -> dk_name k1 = dk_name k2 ->
    dk_snapid k1 < dk_snapid k2 -> dk_snapid k1 < fst p2;
  fp_cache : forall k p k' dn, (k, p) ∈ R -> covered_by x0 k = None -> df_items x0 !! k' = Some dn ->
    dn_name dn = dk_name k -> dn_last dn < dk_snapid k -> dn_last dn < fst p
}.

(** An entry that the fetch adds: it is not stale, the cache has no dentry in its place and not its
    inode. *)
Definition fresh_entry (snaps : option (gset Z)) x0 ic0 (k : dentry_key_t) (p : Z * drec S) : Prop :=
  is_stale snaps (fst p) (dk_snapid k) = false /\ covered_by x0 k = None /\
  match snd p with RInode st => ic_map ic0 !! (st_ino st, dk_snapid k) = None | RLink _ _ => True end.

(** What is added are fresh entries of [R]. *)
Definition from_disk snaps x0 ic0 (R : list (dentry_key_t * (Z * drec S))) (added : gmap dentry_key_t (Z * linkage_t)) : Prop :=
  forall k v, added !! k = Some v -> exists p, (k, p) ∈ R /\ fst v = fst p /\ fresh_entry snaps x0 ic0 k p.

Lemma merged_cases x0 added wet x k dn :
  merged x0 added wet x -> df_items x !! k = Some dn ->
  dn_key dn = k /\ ((exists dn0, df_items x0 !! k = Some dn0 /\ same_entry dn0 dn) \/ added !! k = Some (entry dn)).
Proof.
  intros [M1 M2 M3 M4 M4' M5 M6] Hk. split; [by apply (ii_key _ (dv_items _ M1))|].
  destruct (df_items x0 !! k) as [dn0|] eqn:E0; [left|right].
  - destruct (M4 k dn0 E0) as (dn' & E' & Se & _). exists dn0. split; [done|]. congruence.
  - assert (abs x !! k = Some (entry dn)) as Ha by (unfold abs; by rewrite lookup_fmap, Hk).
    rewrite M2 in Ha. apply lookup_union_Some_raw in Ha as [Ha|[_ Ha]]; [done|].
    unfold abs in Ha. by rewrite lookup_fmap, E0 in Ha.
Qed.

Lemma uncovered_live x0 R k dn k' :
  fetch_pre x0 R -> covered_by x0 k = None -> df_items x0 !! k' = Some dn -> dn_name dn = dk_name k ->
  ~ (dn_first dn <= dk_snapid k <= dn_last dn).
Proof.
  intros P Hc Hk Hn Hl. assert (covered_by x0 k = Some dn); [|congruence].
  unfold covered_by. apply (lookup_live x0); [apply P|apply P|]. split; [|done].
  pose proof (ii_key _ (dv_items _ (fp_inv _ _ P)) k' dn Hk) as Ek. unfold dn_key in Ek. by rewrite <- Hn, Ek.
Qed.

Lemma merged_overlap snaps ic0 x0 R added wet x :
  fetch_pre x0 R -> merged x0 added wet x -> from_disk snaps x0 ic0 R added -> no_overlap x.
Proof.
  intros P M F k1 k2 dn1 dn2 H1k H2k Hn Hl.
  destruct (merged_cases _ _ _ _ _ _ M H1k) as [E1 [(a & C1 & Sa)|A1]], (merged_cases _ _ _ _ _ _ M H2k) as [E2 [(b & C2 & Sb)|A2]].
  - rewrite (se_name _ _ Sa), (se_name _ _ Sb) in Hn. rewrite (se_last _ _ Sa), (se_last _ _ Sb) in Hl. rewrite (se_last _ _ Sa), (se_first _ _ Sb).
    exact (fp_overlap _ _ P k1 k2 a b C1 C2 Hn Hl).
  - destruct (F _ _ A2) as (p & Hp & Hf & _ & Hc & _). cbn in Hf. rewrite Hf. subst k2. rewrite (se_name _ _ Sa) in Hn. rewrite (se_last _ _ Sa) in *.
    exact (fp_cache _ _ P _ p k1 a Hp Hc C1 Hn Hl).
  - destruct (F _ _ A1) as (p & Hp & Hf & _ & Hc & _). subst k1. rewrite (se_name _ _ Sb) in Hn. rewrite (se_last _ _ Sb) in Hl. rewrite (se_first _ _ Sb).
    pose proof (uncovered_live x0 R _ b k2 P Hc C2 (eq_sym Hn)) as Hu. cbn in Hu. lia.
  - destruct (F _ _ A1) as (p1 & Hp1 & _), (F _ _ A2) as (p2 & Hp2 & Hf2 & _). cbn in Hf2. rewrite Hf2. subst k1 k2.
    exact (fp_disjoint _ _ P _ p1 _ p2 Hp1 Hp2 Hn Hl).
Qed.

Lemma covered_item x0 R k dn : fetch_pre x0 R -> covered_by x0 k = Some dn -> df_items x0 !! dn_key dn = Some dn.
Proof. intros P Hk. unfold covered_by in Hk. apply (lookup_live x0) in Hk as (Hi & Hn & _); [|apply P|apply P]. unfold dn_key. by rewrite Hn. Qed.

(** The lookup of an entry finds what it found in the cache, when it is not yet added. *)
Lemma merged_lookup snaps ic0 x0 R added wet x k p :
  fetch_pre x0 R -> merged x0 added wet x -> from_disk snaps x0 ic0 R added -> (k, p) ∈ R -> added !! k = None ->
  match covered_by x0 k with
  | Some dn => exists dn', covered_by x k = Some dn' /\ df_items x !! dn_key dn = Some dn' /\ kept_as (bool_decide (dn_key dn ∈ wet)) dn dn'
  | None => covered_by x k = None /\ df_items x !! k = None
  end.
Proof.
  intros P M F Hp Ha. pose proof (merged_overlap _ _ _ _ _ _ _ P M F) as No. destruct (covered_by x0 k) as [dn|] eqn:Hc.
  - destruct (mg_old _ _ _ _ M _ _ (covered_item _ _ _ _ P Hc)) as (dn' & E' & Kp). exists dn'. split; [|done].
    unfold covered_by in *. apply (lookup_live x0) in Hc as (Hi & Hn & Hs); [|apply P|apply P]. apply (lookup_live x); [apply M|done|].
    destruct Kp as (Se & _). unfold dn_key in E'. rewrite Hn in E'. rewrite (se_last _ _ Se), (se_name _ _ Se), (se_first _ _ Se). by split.
  - split.
    + destruct (covered_by x k) as [dn|] eqn:Hx; [|done]. exfalso. unfold covered_by in Hx.
      apply (lookup_live x) in Hx as (Hi & Hn & Hs); [|apply M|done].
      destruct (merged_cases _ _ _ _ _ _ M Hi) as [Ek [(a & C0 & Sa)|A0]].
      * rewrite (se_name _ _ Sa) in Hn. rewrite (se_first _ _ Sa), (se_last _ _ Sa) in Hs. exact (uncovered_live x0 R k a _ P Hc C0 Hn Hs).
      * destruct (F _ _ A0) as (p' & Hp' & Hf & _). cbn in Hf.
        destruct (Z.eq_dec (dn_last dn) (dk_snapid k)) as [El|Nl].
        -- rewrite El in A0. destruct k as [ks kn]. cbn in *. congruence.
        -- pose proof (fp_disjoint _ _ P k p _ p' Hp Hp' eq_refl ltac:(cbn; lia)). lia.
    + destruct (df_items x !! k) as [dn|] eqn:E; [|done].
      destruct (merged_cases _ _ _ _ _ _ M E) as [Ek [(a & C0 & Sa)|A0]]; [|congruence]. exfalso.
      pose proof (fp_span _ _ P k a C0). pose proof (uncovered_live x0 R k a k P Hc C0) as Hu.
      subst k. cbn in Hu. apply Hu; [by rewrite (se_name _ _ Sa)|rewrite (se_last _ _ Sa); lia].
Qed.

(** ** The loop *)

(** How a dentry shows an entry that was read. *)
Definition linked (snaps : option (gset Z)) ic (r : drec S) (last : Z) (l : linkage_t) : Prop :=
  match r with
  | RLink ino dt => exists i, l = LRemote ino dt i
  | RInode st => exists h, l = LPrimary h /\ h < ic_next ic /\ ci_store (ic_objs ic h) = loaded_store snaps st /\ ci_auth (ic_objs ic h) = true /\
      ic_map ic !! (st_ino st, last) = Some h
  end.

(** Each inode is read once; the inodes the cache links are there, none is left undefined by a
    rejoin, and one with a dirty dentry is not newer than that. *)
Record inodes_pre x0 ic0 (R : list (dentry_key_t * (Z * drec S))) : Prop := {
  ip_once : forall k1 f1 st1 k2 f2 st2, (k1, (f1, RInode st1)) ∈ R -> (k2, (f2, RInode st2)) ∈ R ->
    st_ino st1 = st_ino st2 -> dk_snapid k1 = dk_snapid k2 -> k1 = k2;
  ip_known : forall k dn h, df_items x0 !! k = Some dn -> linkage_inode dn = Some h ->
    h < ic_next ic0 /\ ci_undef (ic_objs ic0 h) = false;
  ip_version : forall k dn h, df_items x0 !! k = Some dn -> primary_ino dn = Some h -> is_dirty (dn_obj dn) = true ->
    st_version (ci_store (ic_objs ic0 h)) <= dn_version dn
}.

(** [dn] is underwater, and one of the entries [l] is in its place: it is cleaned.  [cv] is the
    committed version, [got] the version on disk. *)
Definition washed (snaps : option (gset Z)) (cv got : Z) x0 (l : list (dentry_key_t * (Z * drec S))) dn : Prop :=
  cv = 0 /\ dn_version dn <= got /\ is_dirty (dn_obj dn) = true /\
  exists k f r, (k, (f, r)) ∈ l /\ is_stale snaps f (dk_snapid k) = false /\ covered_by x0 k = Some dn.

(** An inode but for its dirty mark. *)
Definition same_inode (i i' : cinode S) : Prop :=
  ci_auth i' = ci_auth i /\ ci_first i' = ci_first i /\ ci_last i' = ci_last i /\ ci_undef i' = ci_undef i /\ ci_store i' = ci_store i.

(** After the entries [done]. *)
Record loaded snaps got d0 ic0 (R done : list (dentry_key_t * (Z * drec S))) (added : gmap dentry_key_t (Z * linkage_t)) (wet : gset dentry_key_t) x
    (s : fstate (C := C) (S := S) (T := T)) : Prop := {
  ld_dir : fs_dir s = set_cd_dir x d0;
  ld_merged : merged (cd_dir d0) added wet x;
  ld_from : from_disk snaps (cd_dir d0) ic0 R added;
  ld_added : forall k f r, (k, (f, r)) ∈ done -> fresh_entry snaps (cd_dir d0) ic0 k (f, r) ->
    exists l, added !! k = Some (f, l) /\ linked snaps (fs_cache s) r (dk_snapid k) l;
  ld_only : forall k, is_Some (added !! k) -> k ∈ done.*1;
  ld_size : (size added <= length done)%nat;
  ld_old : forall h, h < ic_next ic0 -> same_inode (ic_objs ic0 h) (ic_objs (fs_cache s) h) /\
    ((forall k dn, k ∈ wet -> df_items (cd_dir d0) !! k = Some dn -> primary_ino dn <> Some h) -> ic_objs (fs_cache s) h = ic_objs ic0 h);
  ld_next : ic_next ic0 <= ic_next (fs_cache s);
  ld_map : forall v h, ic_map (fs_cache s) !! v = Some h -> ic_map ic0 !! v = Some h \/
    exists k f st, (k, (f, RInode st)) ∈ done /\ v = (st_ino st, dk_snapid k);
  ld_map_old : forall v h, ic_map ic0 !! v = Some h -> ic_map (fs_cache s) !! v = Some h;
  ld_wet : forall k, k ∈ wet -> exists dn, df_items (cd_dir d0) !! k = Some dn /\ washed snaps (committed_version d0) got (cd_dir d0) done dn;
  ld_washed : forall k dn, df_items (cd_dir d0) !! k = Some dn -> washed snaps (committed_version d0) got (cd_dir d0) done dn ->
    k ∈ wet /\ forall h, primary_ino dn = Some h -> in_dirty (ci_info (ic_objs (fs_cache s) h)) = false;
  ld_undef : fs_undef s = [];
  ld_done : forall p, p ∈ done -> p ∈ R
}.

(** Effects do not matter. *)
Lemma loaded_log snaps got d0 ic0 R done added wet x es s :
  loaded snaps got d0 ic0 R done added wet x s -> loaded snaps got d0 ic0 R done added wet x (log_f es s).
Proof. by intros []. Qed.

Lemma washed_cons snaps cv got x0 k p l dn : is_stale snaps (fst p) (dk_snapid k) = true \/ covered_by x0 k <> Some dn ->
  washed snaps cv got x0 ((k, p) :: l) dn -> washed snaps cv got x0 l dn.
Proof.
  intros Hn (W1 & W2 & W3 & k' & f & r & Hin & Hs & Hc). split_and!; [done..|]. exists k', f, r. split; [|done].
  apply elem_of_cons in Hin as [[= -> <-]|]; [|done]. cbn in Hn. destruct Hn; congruence.
Qed.
Lemma washed_mono snaps cv got x0 q l dn : washed snaps cv got x0 l dn -> washed snaps cv got x0 (q :: l) dn.
Proof. intros (W1 & W2 & W3 & k' & f & r & Hin & Hs & Hc). split_and!; [done..|]. exists k', f, r. split; [by right|done]. Qed.

(** An entry that adds nothing, and cleans nothing that is not clean yet. *)
Lemma loaded_skip snaps got d0 ic0 R done added wet x s k p :
  loaded snaps got d0 ic0 R done added wet x s -> (k, p) ∈ R -> ~ fresh_entry snaps (cd_dir d0) ic0 k p ->
  (forall dn, washed snaps (committed_version d0) got (cd_dir d0) ((k, p) :: done) dn -> washed snaps (committed_version d0) got (cd_dir d0) done dn) ->
  loaded snaps got d0 ic0 R ((k, p) :: done) added wet x s.
Proof.
  intros [L1 L2 L3 L4 L5 L6 L7 L8 L9 L9' Lw Lv L10 L11] Hin0 Hc Hw. split; try done.
  - intros k' f r Hin Hf. apply elem_of_cons in Hin as [[= -> <-]|Hin]; [done|by apply (L4 k' f r)].
  - intros k' Hs. cbn. apply elem_of_cons. right. by apply L5.
  - cbn. lia.
  - intros v h Hv. destruct (L9 v h Hv) as [|(k' & f & st & Hin & ->)]; [by left|right]. exists k', f, st. split; [|done]. set_solver.
  - intros k' Hk'. destruct (Lw k' Hk') as (dn & E & W). exists dn. split; [done|]. by apply washed_mono.
  - intros k' dn E W. apply Lv; [done|]. by apply Hw.
  - intros q Hq. apply elem_of_cons in Hq as [->|]; [done|by apply L11].
Qed.

(** An entry that is added, with the cache [ic'] after it. *)
Lemma loaded_step snaps got d0 ic0 R done added wet x s k f r l x' ic' es :
  fetch_pre (cd_dir d0) R -> inodes_pre (cd_dir d0) ic0 R ->
  loaded snaps got d0 ic0 R done added wet x s -> (k, (f, r)) ∈ R -> k ∉ done.*1 -> fresh_entry snaps (cd_dir d0) ic0 k (f, r) ->
  merged (cd_dir d0) (<[k := (f, l)]> added) wet x' -> linked snaps ic' r (dk_snapid k) l ->
  (forall h, h < ic_next (fs_cache s) -> ic_objs ic' h = ic_objs (fs_cache s) h) ->
  ic_next (fs_cache s) <= ic_next ic' ->
  (forall v h, ic_map (fs_cache s) !! v = Some h -> ic_map ic' !! v = Some h) ->
  (forall v h, ic_map ic' !! v = Some h -> ic_map (fs_cache s) !! v = Some h \/
     exists st, r = RInode st /\ v = (st_ino st, dk_snapid k)) ->
  loaded snaps got d0 ic0 R ((k, (f, r)) :: done) (<[k := (f, l)]> added) wet x'
    (log_f es (mk_fstate (set_cd_dir x' (fs_dir s)) ic' (fs_undef s) (fs_eff s))).
Proof.
  intros P Ip [L1 L2 L3 L4 L5 L6 L7 L8 L9 L9' Lw Lv L10 L11] Hin Hnd Hc M' Hl Ho Hn Hm1 Hm2.
  split; cbn [fs_dir fs_cache fs_undef log_f].
  - by rewrite L1.
  - done.
  - intros k' v. destruct (decide (k' = k)) as [->|N].
    + rewrite lookup_insert_eq. intros [= <-]. by exists (f, r).
    + rewrite lookup_insert_ne by done. apply L3.
  - intros k' f' r' Hin' Hc'. apply elem_of_cons in Hin' as [[= -> -> ->]|Hin'].
    + exists l. by rewrite lookup_insert_eq.
    + destruct (L4 k' f' r' Hin' Hc') as (l' & Ha & Hl'). exists l'. split.
      * rewrite lookup_insert_ne; [done|]. intros ->. apply Hnd, list_elem_of_fmap. by exists (k', (f', r')).
      * destruct r' as [|st]; [done|]. destruct Hl' as (h & E1 & E2 & E3 & E4 & E5). exists h.
        rewrite Ho by done. split_and!; [done|lia|done|done|by apply Hm1].
  - intros k' [v Hv]. cbn. apply elem_of_cons. destruct (decide (k' = k)) as [->|N]; [by left|right].
    rewrite lookup_insert_ne in Hv by done. apply L5. by eexists.
  - destruct (added !! k) as [v|] eqn:E.
    + exfalso. apply Hnd, L5. by eexists.
    + rewrite map_size_insert_None by done. cbn. lia.
  - intros h Hh. rewrite Ho by lia. by apply L7.
  - lia.
  - intros v h Hv. destruct (Hm2 v h Hv) as [Hv'|(st & -> & ->)].
    + destruct (L9 v h Hv') as [|(k' & f' & st & Hi & ->)]; [by left|right]. exists k', f', st. split; [set_solver|done].
    + right. exists k, f, st. split; [set_solver|done].
  - intros v h Hv. by apply Hm1, L9'.
  - intros k' Hk'. destruct (Lw k' Hk') as (dn & E & W). exists dn. split; [done|]. by apply washed_mono.
  - intros k' dn E W. apply washed_cons in W; [|right; destruct Hc as (_ & -> & _); done]. destruct (Lv k' dn E W) as [Lv1 Lv2]. split; [done|].
    intros h Hh. assert (linkage_inode dn = Some h) as Hlk by (unfold primary_ino, linkage_inode in *; by destruct (dn_linkage dn)).
    destruct (ip_known _ _ _ Ip _ _ _ E Hlk) as [Hlt _]. rewrite Ho by lia. by apply Lv2.
  - done.
  - intros q Hq. apply elem_of_cons in Hq as [->|]; [done|by apply L11].
Qed.

(** What one value decodes to. *)
Lemma load_entry_eq snaps stray want got k f r (s : fstate (C := C) (S := S) (T := T)) :
  in_u64 (dk_snapid k) ->
  load_entry snaps stray want got (dentry_key_encode k, rec_bytes (f, r)) s =
  if is_stale snaps f (dk_snapid k) then Ok s
  else match r with
  | RLink ino dt =>
      match covered_by (cd_dir (fs_dir s)) k with
      | Some dn => finish_entry want got (dn_key dn) (dk_name k) s
      | None =>
          s ← load_remote (dk_name k) ino dt f (dk_snapid k) s;
          finish_entry want got k (dk_name k) s
      end
  | RInode st => load_primary snaps stray want got (dk_name k) f (dk_snapid k) st s
  end.
Proof.
  intros Hu. destruct k as [ks kn]. unfold load_entry, rec_bytes. cbn [fst snd dk_name dk_snapid] in *.
  rewrite dentry_key_decode_encode by done. cbn [mbind res_bind]. rewrite dec_enc_snapid.
  destruct r as [ino dt|st]; cbv zeta.
  - rewrite bool_decide_true by done. rewrite dec_enc_ino. rewrite <- (app_nil_r (enc_u8 dt)), dec_enc_u8. done.
  - rewrite bool_decide_false, bool_decide_true by done. rewrite <- (app_nil_r (enc_store st)), dec_enc_store. done.
Qed.

(** The end of the loop body for a dentry that is not underwater. *)
Lemma finish_entry_dry want got k dname (s : fstate (C := C) (S := S) (T := T)) dn :
  df_items (cd_dir (fs_dir s)) !! k = Some dn -> (committed_version (fs_dir s) =? 0) && (dn_version dn <=? got) && is_dirty (dn_obj dn) = false ->
  exists es, finish_entry want got k dname s = Ok (log_f es s).
Proof.
  intros Hk Hd. unfold finish_entry, clean_underwater. cbv zeta.
  match goal with |- context [if ?b then log_f ?es s else s] =>
    exists (if b then es else []); destruct b end.
  - cbn. by rewrite Hk, Hd.
  - rewrite Hk, Hd. unfold log_f. rewrite app_nil_r. by destruct s.
Qed.

(** What cleaning leaves of a dentry. *)
Lemma clean_repinned dn i : is_dirty (dn_obj dn) = true -> refs_ok (dn_obj dn) ->
  (repinned dn (dn_mark_clean dn) /\ is_dirty (dn_obj (dn_mark_clean dn)) = false /\ dn_version (dn_mark_clean dn) = dn_version dn) /\
  (repinned dn (snd (in_mark_clean i (dn_mark_clean dn))) /\ is_dirty (dn_obj (snd (in_mark_clean i (dn_mark_clean dn)))) = false /\
   dn_version (snd (in_mark_clean i (dn_mark_clean dn))) = dn_version dn).
Proof.
  intros Hd Hr. pose proof (clean_entry dn) as S1. pose proof (in_clean_entry i (dn_mark_clean dn)) as S2. split; (split; [split; [|split]|split]).
  - done.
  - by apply clean_refs.
  - apply clean_pins, pin_kinds.
  - apply clean_clean.
  - apply clean_version.
  - eapply same_entry_trans; [exact S1|exact S2].
  - by apply in_clean_refs, clean_refs.
  - destruct pin_kinds as (_ & _ & P3 & _ & P5). by rewrite in_clean_pins, clean_pins.
  - by rewrite in_clean_dirty, clean_clean.
  - by rewrite in_clean_version, clean_version.
Qed.

(** An underwater dentry is cleaned, with its inode. *)
Lemma loaded_wash snaps got d0 ic0 R done added wet x s k p dn dn' ic' es :
  inodes_pre (cd_dir d0) ic0 R -> loaded snaps got d0 ic0 R done added wet x s -> (k, p) ∈ R -> fetch_pre (cd_dir d0) R ->
  is_stale snaps (fst p) (dk_snapid k) = false -> covered_by (cd_dir d0) k = Some dn ->
  committed_version d0 = 0 -> dn_version dn <= got -> is_dirty (dn_obj dn) = true ->
  merged (cd_dir d0) added ({[dn_key dn]} ∪ wet) (upd_dentry (dn_key dn) dn' x) ->
  ic_next ic' = ic_next (fs_cache s) -> ic_map ic' = ic_map (fs_cache s) ->
  (forall h, primary_ino dn <> Some h -> ic_objs ic' h = ic_objs (fs_cache s) h) ->
  (forall h, primary_ino dn = Some h -> same_inode (ic_objs (fs_cache s) h) (ic_objs ic' h) /\ in_dirty (ci_info (ic_objs ic' h)) = false) ->
  loaded snaps got d0 ic0 R ((k, p) :: done) added ({[dn_key dn]} ∪ wet) (upd_dentry (dn_key dn) dn' x)
    (log_f es (mk_fstate (set_cd_dir (upd_dentry (dn_key dn) dn' x) (fs_dir s)) ic' (fs_undef s) (fs_eff s))).
Proof.
  intros Ip [L1 L2 L3 L4 L5 L6 L7 L8 L9 L9' Lw Lv L10 L11] Hin P Hst Hc Hcv Hv Hd M' En Em Ho Hp.
  assert (washed snaps (committed_version d0) got (cd_dir d0) ((k, p) :: done) dn) as Wdn.
  { split_and!; [done..|]. destruct p as [f r]. exists k, f, r. split; [by left|done]. }
  pose proof (covered_item _ _ _ _ P Hc) as Hi.
  assert (forall h, same_inode (ic_objs (fs_cache s) h) (ic_objs ic' h)) as Hsame.
  { intros h. destruct (decide (primary_ino dn = Some h)) as [E|N]; [by apply Hp|by rewrite Ho]. }
  split; cbn [fs_dir fs_cache fs_undef log_f].
  - by rewrite L1.
  - done.
  - done.
  - intros k' f' r' Hin' Hf'. apply elem_of_cons in Hin' as [[= -> <-]|Hin']; [destruct Hf' as (_ & Hcn & _); congruence|].
    destruct (L4 k' f' r' Hin' Hf') as (l & Ha & Hl). exists l. split; [done|]. destruct r' as [|st]; [done|].
    destruct Hl as (h & E1 & E2 & E3 & E4 & E5). exists h. destruct (Hsame h) as (S1 & _ & _ & _ & S5). rewrite En, Em, S1, S5. by split_and!.
  - intros k' Hs. cbn. apply elem_of_cons. right. by apply L5.
  - cbn. lia.
  - intros h Hh. destruct (L7 h Hh) as [I1 I2]. split.
    + destruct (Hsame h) as (S1 & S2 & S3 & S4 & S5), I1 as (J1 & J2 & J3 & J4 & J5). split_and!; congruence.
    + intros Hw. rewrite Ho by (apply (Hw (dn_key dn) dn); [set_solver|done]). apply I2. intros k' dn2 Hk'. apply Hw. set_solver.
  - by rewrite En.
  - intros v h. rewrite Em. intros Hv'. destruct (L9 v h Hv') as [|(k' & f & st & Hi' & ->)]; [by left|right]. exists k', f, st. split; [set_solver|done].
  - intros v h Hv'. rewrite Em. by apply L9'.
  - intros k' [->%elem_of_singleton|Hk']%elem_of_union; [by exists dn|]. destruct (Lw k' Hk') as (dn2 & E & W). exists dn2. split; [done|]. by apply washed_mono.
  - intros k' dn2 E W. pose proof (ii_key _ (dv_items _ (fp_inv _ _ P)) k' dn2 E) as Ek. destruct (decide (k' = dn_key dn)) as [->|N].
    + assert (dn2 = dn) as -> by congruence. split; [set_solver|]. intros h Hh. by apply Hp.
    + apply washed_cons in W; [|right; congruence]. destruct (Lv k' dn2 E W) as [W1 W2]. split; [set_solver|]. intros h Hh.
      destruct (decide (primary_ino dn = Some h)) as [Ep|Np]; [by apply Hp|]. rewrite Ho by done. by apply W2.
  - done.
  - intros q Hq. apply elem_of_cons in Hq as [->|]; [done|by apply L11].
Qed.

(** An entry in whose place the cache has a dentry. *)
Lemma covered_finish snaps got d0 ic0 R done added wet x s k p dn want dname :
  fetch_pre (cd_dir d0) R -> inodes_pre (cd_dir d0) ic0 R -> loaded snaps got d0 ic0 R done added wet x s ->
  (k, p) ∈ R -> is_stale snaps (fst p) (dk_snapid k) = false -> covered_by (cd_dir d0) k = Some dn ->
  exists s' wet' x', finish_entry want got (dn_key dn) dname s = Ok s' /\ loaded snaps got d0 ic0 R ((k, p) :: done) added wet' x' s'.
Proof.
  intros P Ip L Hin Hst Hk. pose proof (ld_dir _ _ _ _ _ _ _ _ _ _ L) as L1. pose proof (ld_merged _ _ _ _ _ _ _ _ _ _ L) as L2.
  pose proof (covered_item _ _ _ _ P Hk) as Hi. destruct (mg_old _ _ _ _ L2 _ _ Hi) as (dn1 & E1 & Se & Ev & Ew).
  assert (~ fresh_entry snaps (cd_dir d0) ic0 k p) as Nf by (intros (_ & Hc & _); congruence).
  destruct ((committed_version d0 =? 0) && (dn_version dn <=? got) && is_dirty (dn_obj dn)) eqn:Eu.
  2: { destruct (finish_entry_dry want got (dn_key dn) dname s dn1) as (es & ->); [by rewrite L1| |].
    - rewrite L1. change (committed_version (set_cd_dir x d0)) with (committed_version d0). rewrite Ev. case_bool_decide; [|by rewrite Ew].
      by rewrite Ew, andb_false_r.
    - eexists _, _, _. split; [done|]. apply loaded_log, loaded_skip; [done|done|done|]. intros dn2 (W1 & W2 & W3 & Wk). split_and!; [done..|].
      destruct Wk as (k' & f & r & Hin' & Hs' & Hc'). exists k', f, r. apply elem_of_cons in Hin' as [[= -> <-]|]; [|done].
      rewrite Hk in Hc'. injection Hc' as <-. rewrite W1, W3 in Eu. cbn in Eu. rewrite andb_true_r in Eu. lia. }
  rewrite !andb_true_iff in Eu. destruct Eu as [[Ecv Eve] Ed]. apply Z.eqb_eq in Ecv. apply Z.leb_le in Eve.
  destruct (bool_decide (dn_key dn ∈ wet)) eqn:Ewet.
  { destruct (finish_entry_dry want got (dn_key dn) dname s dn1) as (es & ->); [by rewrite L1|by rewrite Ew, andb_false_r|].
    eexists _, _, _. split; [done|]. apply loaded_log, loaded_skip; [done|done|done|]. intros dn2 W. destruct (decide (dn_key dn2 = dn_key dn)) as [Ek2|N].
    - assert (dn2 = dn) as -> by (destruct W as (_ & _ & _ & k2 & f2 & r2 & _ & _ & Hc2); pose proof (covered_item _ _ _ _ P Hc2); congruence).
      apply bool_decide_eq_true in Ewet. destruct (ld_wet _ _ _ _ _ _ _ _ _ _ L _ Ewet) as (dn3 & E3 & W3). congruence.
    - apply washed_cons in W; [done|]. right. congruence. }
  subst dn1. pose proof (ii_refs _ (dv_items _ (mg_inv _ _ _ _ L2)) _ _ E1) as Hrf.
  unfold finish_entry. match goal with |- context [clean_underwater got _ ?s0] => set (s1 := s0) end.
  assert (exists es1, s1 = log_f es1 s) as (es1 & Es1).
  { unfold s1. match goal with |- context [if ?b then _ else _] => destruct b end; [by eexists|]. exists []. unfold log_f. rewrite app_nil_r. by destruct s. }
  rewrite Es1. unfold clean_underwater. cbn [fs_dir log_f]. rewrite L1. change (cd_dir (set_cd_dir x d0)) with x. rewrite E1.
  change (committed_version (set_cd_dir x d0)) with (committed_version d0). rewrite Ecv, Ed. rewrite (proj2 (Z.leb_le _ _) Eve). cbn [Z.eqb andb].
  assert (primary_ino (dn_mark_clean dn) = primary_ino dn) as Ep by (unfold primary_ino; by rewrite (se_linkage _ _ (clean_entry dn))). rewrite Ep.
  destruct (primary_ino dn) as [h|] eqn:Eh; cbn [fs_cache log_f].
  - destruct (clean_repinned dn (ci_info (ic_objs (fs_cache s) h)) Ed Hrf) as [_ (Rp & Hcl & Hve)].
    assert (linkage_inode dn = Some h) as Hlk by (unfold primary_ino, linkage_inode in *; by destruct (dn_linkage dn)).
    destruct (ip_known _ _ _ Ip _ _ _ Hi Hlk) as [Hlt _]. destruct (ld_old _ _ _ _ _ _ _ _ _ _ L h Hlt) as [(_ & _ & _ & _ & Est) _].
    rewrite check_true by (apply Z.leb_le; rewrite Est; pose proof (ip_version _ _ _ Ip _ _ _ Hi Eh Ed); lia).
    pose proof (in_clean_clean (ci_info (ic_objs (fs_cache s) h)) (dn_mark_clean dn)) as Hic.
    destruct (in_mark_clean (ci_info (ic_objs (fs_cache s) h)) (dn_mark_clean dn)) as [i' dn'] eqn:Em. cbn [fst snd] in *.
    eexists _, _, _. split; [done|]. cbn [fs_undef fs_eff log_f]. rewrite <- L1.
    refine (loaded_wash snaps got d0 ic0 R done added wet x (log_f es1 s) k p dn dn' (put_inode h (set_ci_info i' (ic_objs (fs_cache s) h)) (fs_cache s)) _
      Ip (loaded_log _ _ _ _ _ _ _ _ _ _ _ L) Hin P Hst Hk Ecv Eve Ed _ eq_refl eq_refl _ _).
    + by apply (wash_merged _ _ _ _ _ dn).
    + intros h' N. cbn. unfold upd_obj. destruct (Z.eqb_spec h' h) as [->|]; [congruence|done].
    + intros h' Eh'. assert (h' = h) as -> by congruence. cbn. unfold upd_obj. rewrite Z.eqb_refl. split; [by split_and!|done].
  - destruct (clean_repinned dn (mk_inode_info 0 false 0 0 false) Ed Hrf) as [(Rp & Hcl & Hve) _]. eexists _, _, _. split; [done|]. cbn [fs_undef fs_eff log_f]. rewrite <- L1.
    refine (loaded_wash snaps got d0 ic0 R done added wet x (log_f es1 s) k p dn (dn_mark_clean dn) (fs_cache s) _
      Ip (loaded_log _ _ _ _ _ _ _ _ _ _ _ L) Hin P Hst Hk Ecv Eve Ed _ eq_refl eq_refl _ _); [by apply (wash_merged _ _ _ _ _ dn)|done|congruence].
Qed.

Lemma load_remote_ok snaps got d0 ic0 R done added wet x s k f ino dt :
  fetch_pre (cd_dir d0) R -> inodes_pre (cd_dir d0) ic0 R -> room (length R) (cd_dir d0) -> loaded snaps got d0 ic0 R done added wet x s ->
  (k, (f, RLink ino dt)) ∈ R -> k ∉ done.*1 -> fresh_entry snaps (cd_dir d0) ic0 k (f, RLink ino dt) -> df_items x !! k = None ->
  (length done < length R)%nat ->
  exists s' l x', load_remote (dk_name k) ino dt f (dk_snapid k) s = Ok s' /\
    loaded snaps got d0 ic0 R ((k, (f, RLink ino dt)) :: done) (<[k := (f, l)]> added) wet x' s' /\ is_Some (df_items x' !! k).
Proof.
  intros P Ip Hr L Hin Hnd Hc Hn Hlen. pose proof L as [L1 L2 L3 L4 L5 L6 L7 L8 L9 L9' Lw Lv L10 L11].
  unfold load_remote. rewrite L1. change (cd_dir (set_cd_dir x d0)) with x.
  destruct (add_remote_merged (cd_dir d0) added wet x (dk_name k) ino dt f (dk_snapid k) (length R)) as (x1 & es & -> & M1);
    [done|apply P|done|lia|by destruct k|]. cbn [mbind res_bind].
  replace (mk_key (dk_snapid k) (dk_name k)) with k in * by (by destruct k).
  assert (exists dn, df_items x1 !! k = Some dn /\ dn_linkage dn = LRemote ino dt None /\ dn_first dn = f) as (dn & Hd & Hdl & Hdf).
  { pose proof (mg_abs _ _ _ _ M1) as Ha. assert (abs x1 !! k = Some (f, LRemote ino dt None)) as Hk1
      by (rewrite Ha; apply lookup_union_Some_l; by rewrite lookup_insert_eq).
    unfold abs in Hk1. rewrite lookup_fmap in Hk1. destruct (df_items x1 !! k) as [dn|]; [|done].
    injection Hk1 as Hf Hl. by exists dn. }
  assert (df_items (cd_dir d0) !! k = None) as Hn0.
  { destruct (df_items (cd_dir d0) !! k) as [dn0|] eqn:E; [|done]. destruct (mg_old _ _ _ _ L2 k dn0 E) as (dn1 & E1 & _). congruence. }
  assert (forall l x', merged (cd_dir d0) (<[k := (f, l)]> added) wet x' -> (exists i, l = LRemote ino dt i) -> forall es',
    loaded snaps got d0 ic0 R ((k, (f, RLink ino dt)) :: done) (<[k := (f, l)]> added) wet x'
      (log_f es' (mk_fstate (set_cd_dir x' (set_cd_dir x d0)) (fs_cache s) (fs_undef s) (fs_eff s)))) as Hstep.
  { intros l x' M' Hl es'. rewrite <- L1.
    apply (loaded_step snaps got d0 ic0 R done added wet x s k f (RLink ino dt) l x' (fs_cache s)); try done. intros v h Hv. by left. }
  destruct (get_inode ino CEPH_NOSNAP (fs_cache s)) as [h|].
  - rewrite Hd. cbn [mbind res_bind]. eexists _, _, _. split; [done|]. split.
    + apply (Hstep (LRemote ino dt (Some h))); [|eauto]. by apply relink_merged.
    + cbn. by rewrite lookup_insert_eq.
  - eexists _, _, _. split; [done|]. split; [apply Hstep; [done|eauto]|]. by rewrite Hd.
Qed.

Lemma load_inode_ok snaps got stray d0 ic0 R done added wet x s k f st :
  fetch_pre (cd_dir d0) R -> inodes_pre (cd_dir d0) ic0 R -> room (length R) (cd_dir d0) ->
  loaded snaps got d0 ic0 R done added wet x s ->
  (k, (f, RInode st)) ∈ R -> k ∉ done.*1 -> fresh_entry snaps (cd_dir d0) ic0 k (f, RInode st) -> df_items x !! k = None ->
  (length done < length R)%nat ->
  get_inode (st_ino st) (dk_snapid k) (fs_cache s) = None /\
  exists s' l x', load_inode snaps stray false (dk_name k) f (dk_snapid k) st k None s = Ok s' /\
    loaded snaps got d0 ic0 R ((k, (f, RInode st)) :: done) (<[k := (f, l)]> added) wet x' s' /\ is_Some (df_items x' !! k).
Proof.
  intros P Ip Hr L Hin Hnd Hc Hn Hlen. pose proof L as [L1 L2 L3 L4 L5 L6 L7 L8 L9 L9' Lw Lv L10 L11].
  assert (ic_map (fs_cache s) !! (st_ino st, dk_snapid k) = None) as Hv.
  { destruct (ic_map (fs_cache s) !! _) as [h|] eqn:E; [|done]. exfalso. apply L9 in E as [E|(k' & f' & st' & Hi & [= E1 E2])].
    - destruct Hc as (_ & _ & Hc). cbn in Hc. congruence.
    - apply Hnd, list_elem_of_fmap. exists (k', (f', RInode st')). split; [|done]. cbn.
      exact (ip_once _ _ _ Ip _ _ _ _ _ _ Hin (L11 _ Hi) E1 E2). }
  split; [done|]. unfold load_inode, add_inode. cbn [mbind res_bind new_inode].
  set (i0 := mk_cinode _ _ _ _ _ _).
  assert (upd_obj (ic_next (fs_cache s)) i0 (ic_objs (fs_cache s)) (ic_next (fs_cache s)) = i0) as Eo
    by (unfold upd_obj; by rewrite Z.eqb_refl).
  cbn [ic_objs ic_map ic_next]. rewrite !Eo. change (ci_store i0) with (loaded_store snaps st). change (ci_last i0) with (dk_snapid k).
  assert (st_ino (loaded_store snaps st) = st_ino st) as Ei by (unfold loaded_store; destruct snaps; [|done]; by destruct (st_snaprealm st)).
  rewrite Ei. rewrite bool_decide_true by done. cbn [assert_ mbind res_bind ic_objs]. rewrite Eo, L1. change (cd_dir (set_cd_dir x d0)) with x.
  destruct (add_primary_merged (cd_dir d0) added wet x (dk_name k) (ci_info i0) (ic_next (fs_cache s)) f (dk_snapid k) (length R))
    as (x1 & es & -> & M1); [done|apply P|done|lia|by destruct k|]. cbn [mbind res_bind].
  replace (mk_key (dk_snapid k) (dk_name k)) with k in * by (by destruct k).
  eexists _, (LPrimary (ic_next (fs_cache s))), x1. split; [done|]. split.
  - rewrite <- L1. apply (loaded_step snaps got d0 ic0 R done added wet x s k f (RInode st) (LPrimary (ic_next (fs_cache s))) x1); try done.
    + exists (ic_next (fs_cache s)). cbn. rewrite Eo. split_and!; [done|lia|done|done|]. by rewrite lookup_insert_eq.
    + intros h Hh. cbn. unfold upd_obj. by replace (h =? ic_next (fs_cache s)) with false by lia.
    + cbn. lia.
    + intros v h Hvh. cbn. rewrite lookup_insert_ne; [done|]. intros <-. congruence.
    + intros v h. cbn. destruct (decide (v = (st_ino st, dk_snapid k))) as [->|N]; [intros _; right; by exists st|].
      rewrite lookup_insert_ne by done. by left.
  - pose proof (mg_abs _ _ _ _ M1) as Ha. assert (is_Some (abs x1 !! k)) as Hk1
      by (rewrite Ha; eexists; apply lookup_union_Some_l; by rewrite lookup_insert_eq).
    unfold abs in Hk1. rewrite lookup_fmap in Hk1. by destruct (df_items x1 !! k), Hk1.
Qed.

(** An inode that the cache has elsewhere is not loaded again. *)
Lemma load_dup snaps got d0 ic0 R done added wet x s k f st h :
  loaded snaps got d0 ic0 R done added wet x s -> (k, (f, RInode st)) ∈ R -> covered_by (cd_dir d0) k = None ->
  ic_map ic0 !! (st_ino st, dk_snapid k) = Some h ->
  loaded snaps got d0 ic0 R ((k, (f, RInode st)) :: done) added wet x (log_f [ClogDup (st_ino st)] s).
Proof.
  intros L Hin Hc Hm. apply loaded_log, loaded_skip; [done|done| |].
  - intros (_ & _ & Hn). cbn in Hn. congruence.
  - intros dn. apply washed_cons. right. congruence.
Qed.

(** An entry whose dentry was just added is not underwater. *)
Lemma finish_added snaps got d0 ic0 R done k f l added wet x s want dname :
  loaded snaps got d0 ic0 R done (<[k := (f, l)]> added) wet x s -> is_Some (df_items x !! k) ->
  exists s', finish_entry want got k dname s = Ok s' /\ loaded snaps got d0 ic0 R done (<[k := (f, l)]> added) wet x s'.
Proof.
  intros L [dn Hk]. pose proof (ld_dir _ _ _ _ _ _ _ _ _ _ L) as L1. pose proof (ld_merged _ _ _ _ _ _ _ _ _ _ L) as L2.
  assert (is_dirty (dn_obj dn) = false) as Hd by (apply (mg_new _ _ _ _ L2 k); [by rewrite lookup_insert_eq|done]).
  destruct (finish_entry_dry want got k dname s dn) as (es & ->); [by rewrite L1|by rewrite Hd, andb_false_r|].
  eexists. split; [done|]. by apply loaded_log.
Qed.

Lemma load_entry_ok snaps stray want got d0 ic0 R done added wet x s k f r :
  fetch_pre (cd_dir d0) R -> inodes_pre (cd_dir d0) ic0 R -> room (length R) (cd_dir d0) ->
  loaded snaps got d0 ic0 R done added wet x s -> (k, (f, r)) ∈ R -> k ∉ done.*1 -> (length done < length R)%nat ->
  exists s' added' wet' x', load_entry snaps stray want got (dentry_key_encode k, rec_bytes (f, r)) s = Ok s' /\
    loaded snaps got d0 ic0 R ((k, (f, r)) :: done) added' wet' x' s'.
Proof.
  intros P Ip Hr L Hin Hnd Hlen. pose proof L as [L1 L2 L3 L4 L5 L6 L7 L8 L9 L9' Lw Lv L10 L11].
  rewrite load_entry_eq by (by eapply P). destruct (is_stale snaps f (dk_snapid k)) eqn:Est.
  { exists s, added, wet, x. split; [done|]. apply loaded_skip; [done|done|intros (Hst & _); cbn in Hst; congruence|].
    intros dn. apply washed_cons. by left. }
  assert (added !! k = None) as Ha by (destruct (added !! k) eqn:E; [exfalso; apply Hnd, L5; by eexists|done]).
  pose proof (merged_lookup _ _ _ _ _ _ _ _ _ P L2 L3 Hin Ha) as El.
  assert (covered_by (cd_dir (fs_dir s)) k = covered_by x k) as El' by (by rewrite L1).
  destruct (covered_by (cd_dir d0) k) as [dn|] eqn:Ek.
  - destruct El as (dn1 & Ec1 & Ei1 & Se & _). assert (dn_key dn1 = dn_key dn) as Eky by (by apply same_entry_key).
    destruct (covered_finish snaps got d0 ic0 R done added wet x s k (f, r) dn want (dk_name k)) as (s' & wet' & x' & Ef & L'); [done..|].
    destruct r as [ino dt|st].
    + rewrite El', Ec1, Eky. by eexists _, _, _, _.
    + unfold load_primary. cbv zeta. fold (covered_by (cd_dir (fs_dir s)) k). rewrite El', Ec1, Eky.
      assert (linkage_inode dn1 = linkage_inode dn) as -> by (unfold linkage_inode; by rewrite (se_linkage _ _ Se)).
      destruct (linkage_inode dn) as [h|] eqn:Eh; [|by eexists _, _, _, _].
      destruct (ip_known _ _ _ Ip _ _ _ (covered_item _ _ _ _ P Ek) Eh) as [Hh Hu]. destruct (L7 h Hh) as [(_ & _ & _ & Eu & _) _].
      rewrite Eu, Hu. by eexists _, _, _, _.
  - destruct El as [Ec1 Hnone]. destruct r as [ino dt|st].
    + rewrite El', Ec1. assert (fresh_entry snaps (cd_dir d0) ic0 k (f, RLink ino dt)) as Hf by done.
      destruct (load_remote_ok snaps got d0 ic0 R done added wet x s k f ino dt) as (s1 & l & x1 & -> & Ls & Hs); [done..|].
      cbn [mbind res_bind]. destruct (finish_added snaps got d0 ic0 R _ k f l added wet x1 s1 want (dk_name k) Ls Hs) as (s2 & -> & L').
      by eexists _, _, _, _.
    + unfold load_primary. cbv zeta. fold (covered_by (cd_dir (fs_dir s)) k). rewrite El', Ec1.
      destruct (ic_map ic0 !! (st_ino st, dk_snapid k)) as [h|] eqn:Em.
      { unfold get_inode. rewrite (L9' _ _ Em). eexists _, _, _, _. split; [done|]. by eapply load_dup. }
      assert (fresh_entry snaps (cd_dir d0) ic0 k (f, RInode st)) as Hf by done.
      destruct (load_inode_ok snaps got stray d0 ic0 R done added wet x s k f st) as (Hg & s1 & l & x1 & E1 & Ls & Hs); [done..|].
      rewrite Hg. replace (mk_key (dk_snapid k) (dk_name k)) with k by (by destruct k). rewrite E1. cbn [mbind res_bind].
      destruct (finish_added snaps got d0 ic0 R _ k f l added wet x1 s1 want (dk_name k) Ls Hs) as (s2 & -> & L'). by eexists _, _, _, _.
Qed.

Lemma load_entries_ok snaps stray want got d0 ic0 R l done added wet x s :
  fetch_pre (cd_dir d0) R -> inodes_pre (cd_dir d0) ic0 R -> room (length R) (cd_dir d0) ->
  loaded snaps got d0 ic0 R done added wet x s -> NoDup (l ++ done).*1 -> (forall p, p ∈ l -> p ∈ R) ->
  (length l + length done <= length R)%nat ->
  exists s' added' wet' x', load_entries snaps stray want got (encoded l) s = Ok s' /\ loaded snaps got d0 ic0 R (rev l ++ done) added' wet' x' s'.
Proof.
  intros P Ip Hr. revert done added wet x s. induction l as [|[k [f r]] l IH]; intros done added wet x s L ND Hin Hlen.
  { by exists s, added, wet, x. }
  cbn [app fmap list_fmap fst] in ND. apply NoDup_cons in ND as [Hk ND].
  destruct (load_entry_ok snaps stray want got d0 ic0 R done added wet x s k f r) as (s1 & a1 & w1 & x1 & E1 & L1); try done.
  - apply Hin. set_solver.
  - intros Hd. apply Hk. rewrite fmap_app. apply elem_of_app. by right.
  - cbn in Hlen. lia.
  - destruct (IH ((k, (f, r)) :: done) a1 w1 x1 s1 L1) as (s2 & a2 & w2 & x2 & E2 & L2).
    + rewrite fmap_app. cbn. rewrite <- Permutation_middle. apply NoDup_cons. by rewrite <- fmap_app.
    + intros p Hp. apply Hin. set_solver.
    + cbn in *. lia.
    + exists s2, a2, w2, x2. cbn [encoded map load_entries fst snd]. rewrite E1. cbn [mbind res_bind]. split; [exact E2|].
      cbn [rev]. by rewrite <- app_assoc.
Qed.

Lemma loaded_start snaps got d0 ic0 R eff :
  dir_inv (cd_dir d0) -> loaded snaps got d0 ic0 R [] ∅ ∅ (cd_dir d0) (mk_fstate d0 ic0 [] eff).
Proof.
  intros I. split; try done.
  - by destruct d0 as [[]].
  - split; try done.
    + by rewrite (left_id_L ∅ (∪)).
    + intros k [v Hv]. by rewrite lookup_empty in Hv.
    + intros k dn Hk. exists dn. split; [done|]. by split.
    + intros k dn [v Hv]. by rewrite lookup_empty in Hv.
    + unfold child_pinned. by destruct (decide _).
  - intros k f r Hk. by apply not_elem_of_nil in Hk.
  - intros k [v Hv]. by rewrite lookup_empty in Hv.
  - intros v h Hv. by left.
  - intros k dn _ (_ & _ & _ & k' & f & r & Hin & _). by apply not_elem_of_nil in Hin.
  - intros p Hp. by apply not_elem_of_nil in Hp.
Qed.

(** The freezing machine does not see the new dentries. *)
Lemma merged_fz ext d0 added wet x :
  merged (cd_dir d0) added wet x -> fz_ok ext (cd_fdir d0) -> co_ref (cd_obj d0) < 2 ^ 31 - 2 ->
  fz_ok ext (set_fd_dir x (cd_fdir d0)) /\ co_ref (df_obj x) <= co_ref (cd_obj d0) + 1.
Proof.
  intros M F B. pose proof (mg_obj _ _ _ _ M) as Eo. unfold child_pinned in Eo.
  assert (df_obj x = cd_obj d0 \/ df_obj x = repin 1 PIN_CHILD (cd_obj d0)) as [Eo'|Eo']
    by (rewrite Eo; destruct (decide _); [destruct (decide _)|]; tauto).
  - split; [|rewrite Eo'; lia]. split; [change (obj_ok (df_obj x)); rewrite Eo'; apply F|].
    assert (view (set_fd_dir x (cd_fdir d0)) = view (cd_fdir d0)) as ->; [|apply F].
    apply view_ext; try done; change (fd_obj (set_fd_dir x (cd_fdir d0))) with (df_obj x); by rewrite Eo'.
  - split; [|rewrite Eo'; cbn; lia].
    pose proof (pins_le_sum (cd_obj d0) PIN_CHILD (oo_refs _ (fz_obj _ _ F))) as Hp.
    destruct (fz_repin ext (cd_fdir d0) 1 PIN_CHILD) as [O V]; try done.
    + change (0 <= pins (cd_obj d0) PIN_CHILD + 1). lia.
    + change (co_ref (cd_obj d0) + 1 < 2 ^ 31). lia.
    + split; [change (obj_ok (df_obj x)); by rewrite Eo'|].
      assert (view (set_fd_dir x (cd_fdir d0)) = view (set_fd_obj (repin 1 PIN_CHILD (fd_obj (cd_fdir d0))) (cd_fdir d0))) as ->; [|done].
      apply view_ext; try done; change (fd_obj (set_fd_dir x (cd_fdir d0))) with (df_obj x); by rewrite Eo'.
Qed.

(** No pin is kept for a thaw unless the trace says so. *)
Lemma thaw_none (es : list (fz_effect C)) (es0 es1 : list (ft_effect C)) : 0 <= thaw_sum es ->
  Fcd (Fz UnpinWhenThawed) ∉ es0 ++ map Fcd (map Fz es) ++ es1 -> thaw_sum es = 0.
Proof.
  intros _ Hn. assert (UnpinWhenThawed ∉ es) as Hn'.
  { intros Hin. apply Hn. apply elem_of_app. right. apply elem_of_app. left. by apply (list_elem_of_fmap_2 Fcd), (list_elem_of_fmap_2 Fz). }
  clear Hn. induction es as [|x es IH]; [done|]. apply not_elem_of_cons in Hn' as [N Hn']. specialize (IH Hn'). by destruct x; cbn; rewrite ?IH.
Qed.

Lemma finish_fetch_ok ext e (s : fstate (C := C) (S := S) (T := T)) :
  fz_ok ext (cd_fdir (fs_dir s)) -> 1 <= ext -> co_ref (cd_obj (fs_dir s)) < 2 ^ 31 - 1 ->
  auth_pins (cd_fdir (fs_dir s)) + nested_auth_pins (cd_fdir (fs_dir s)) < 2 ^ 31 - 1 -> fs_undef s = [] ->
  exists d' es, finish_fetch e s = Ok (d', fs_cache s, es) /\ is_complete d' = true /\ cd_test d' STATE_FETCHING = false /\
    fnode d' = fnode (fs_dir s) /\ committed_version d' = committed_version (fs_dir s) /\
    df_items (cd_dir d') = df_items (cd_dir (fs_dir s)) /\ (Fcd (Fz UnpinWhenThawed) ∉ es -> fz_ok (ext - 1) (cd_fdir d')).
Proof.
  intros F Hx B Hp Hu. unfold finish_fetch. rewrite Hu. cbv zeta. cbn [fold_left].
  set (d := set_cd_obj _ (mark_complete (fs_dir s))).
  assert (fz_ok ext (cd_fdir d)) as Fd.
  { pose proof (fz_set_bit ext (cd_fdir (fs_dir s)) 1 ltac:(lia) ltac:(unfold freeze_bit; lia) F) as F1.
    exact (fz_clear_bit ext _ 7 ltac:(lia) ltac:(unfold freeze_bit; lia) F1). }
  assert (is_complete d = true /\ cd_test d STATE_FETCHING = false) as [Hc Hf].
  { split.
    - change (state_test (state_clear STATE_FETCHING (state_set STATE_COMPLETE (cd_obj (fs_dir s)))) STATE_COMPLETE = true).
      unfold STATE_FETCHING, STATE_COMPLETE. by rewrite state_test_clear, state_test_set.
    - change (state_test (state_clear STATE_FETCHING (state_set STATE_COMPLETE (cd_obj (fs_dir s)))) STATE_FETCHING = false).
      unfold STATE_FETCHING. by rewrite state_test_clear. }
  destruct (auth_unpin_keeps ext e (cd_fdir d)) as (f1 & es1 & E1 & O1 & _ & I1 & _ & T1); [apply Fd|exact B|apply Fd|exact Hp|done|].
  destruct (finish_waiting_ok WAIT_COMPLETE 0 f1 O1) as (f2 & es2 & Rs); [done|]. pose proof (rs_ok _ _ _ _ _ _ _ Rs) as E2.
  unfold cd_auth_unpin, on_fdir. rewrite E1. cbn [mbind res_bind]. unfold cd_finish_waiting, on_fdir.
  change (cd_fdir (set_cd_fdir f1 d)) with f1. rewrite E2. cbn [mbind res_bind]. eexists _, _. split; [done|].
  pose proof (calm_trans _ _ _ (calm_unpin_n _ _ _ _ _ E1) (calm_finish WAIT_COMPLETE 0 _ _ _ eq_refl E2)) as [Q1 Q2 Qd Q3 Q4].
  assert (forall b, 0 <= b -> ~ (2 <= b <= 5) -> state_test (fd_obj f2) (Z.shiftl 1 b) = cd_test d (Z.shiftl 1 b)) as Hb.
  { intros b Hb Hn. unfold cd_test, state_test. rewrite !has_bits_testbit by done. by apply Q3. }
  split_and!; [|..|done|done|exact Q1|].
  - rewrite <- Hc. apply (Hb 1); lia.
  - rewrite <- Hf. apply (Hb 7); lia.
  - intros Hn. split; [apply Rs|]. change (finv (ext - 1) (view f2)). rewrite (rs_view _ _ _ _ _ _ _ Rs).
    cbn [map app] in Hn. rewrite (thaw_none es1 _ _ T1 Hn) in I1. by replace (ext + -1 + 0) with (ext - 1) in I1 by lia.
Qed.

(** ** The theorems *)

(** The fnode of the fragment after the header [got] is read. *)
Definition header_fnode (got : fnode_t T) d : fnode_t T := if get_version d =? 0 then got else fnode d.

(** The committed version then. *)
Definition header_committed (got : fnode_t T) d : Z := if get_version d =? 0 then fn_version got else committed_version d.
(** What the snapshots that are gone leave of it. *)
Definition purged_fnode (ie : ienv) (f : fnode_t T) : fnode_t T :=
  match purge_snaps ie f with Some _ => set_fn_purged (ie_last_destroyed ie) f | None => f end.

(** A fragment without prior state is not in use; it is left undefined only during a rejoin. *)
Definition header_ok (rejoin : bool) d : Prop :=
  get_version d = 0 -> is_projected d = false /\ cd_test d STATE_COMMITTING = false /\ (cd_test d STATE_REJOINUNDEF = true -> rejoin = true).

Lemma take_header_ok rejoin got d :
  header_ok rejoin d -> exists d1 es v o, take_header rejoin got d = Ok (d1, es) /\ fnode d1 = header_fnode got d /\
    committed_version d1 = header_committed got d /\ cd_fdir d1 = cd_fdir (set_cd_obj o (set_projected_version v d)) /\
    (o = cd_obj d \/ o = state_clear STATE_REJOINUNDEF (cd_obj d)).
Proof.
  unfold header_ok, take_header, header_fnode, header_committed. destruct (Z.eqb_spec (get_version d) 0) as [Ev|Nv].
  - intros Hh. destruct (Hh Ev) as (H1h & H2h & H3h). rewrite H1h, H2h. cbn [negb assert_ mbind res_bind]. cbv zeta.
    change (cd_test (set_commits _ _ _) STATE_REJOINUNDEF) with (cd_test d STATE_REJOINUNDEF). destruct (cd_test d STATE_REJOINUNDEF).
    + rewrite H3h by done. cbn [assert_ mbind res_bind]. eexists _, _, (fn_version got), _. split; [reflexivity|]. split_and!; [done|done|reflexivity|by right].
    + eexists _, _, (fn_version got), (cd_obj d). split; [reflexivity|]. split_and!; [done|done| |by left]. by destruct d as [[[]]].
  - intros _. eexists _, _, (projected_version d), (cd_obj d). split; [reflexivity|]. split_and!; [done|done| |by left]. by destruct d as [[[]]].
Qed.

Lemma dir_inv_header x o v :
  dir_inv x -> o = df_obj x \/ o = state_clear STATE_REJOINUNDEF (df_obj x) -> dir_inv (mk_dfrag o (df_items x) (num_head_items x) (num_head_null x)
    (num_snap_items x) (num_snap_null x) v (waiting_on_dentry x)).
Proof.
  intros [[I1 I2 I3 I4 I5] J2 J3 J4] [->| ->]; [by split; [split|..]|]. split; [split; try done|by destruct J2; split|done..].
  cbn. unfold STATE_DNPINNEDFRAG, STATE_REJOINUNDEF in *. rewrite state_test_clear by lia. intros [_ Hst]%andb_true_iff. by apply I3.
Qed.

Lemma omap_fetched_ok ext rejoin e ie got R want r ic d :
  let f := header_fnode got d in let snaps := purge_snaps ie f in let cv := header_committed got d in
  r = 0 \/ r = - ENOENT \/ r = - ENODATA -> enc_fnode got <> [] -> header_ok rejoin d ->
  fz_ok ext (cd_fdir d) -> 1 <= ext -> auth_pins (cd_fdir d) + nested_auth_pins (cd_fdir d) < 2 ^ 31 - 1 ->
  cd_is_auth d = true -> is_frozen e (cd_fdir d) = false ->
  fetch_pre (cd_dir d) R -> inodes_pre (cd_dir d) ic R -> room (length R) (cd_dir d) ->
  exists d' ic' es, _omap_fetched rejoin e ie (enc_fnode got) (encoded R) want r ic d = Ok (d', ic', es) /\
    is_complete d' = true /\ cd_test d' STATE_FETCHING = false /\ (Fcd (Fz UnpinWhenThawed) ∉ es -> fz_ok (ext - 1) (cd_fdir d')) /\
    fnode d' = purged_fnode ie f /\
    (forall k dn, df_items (cd_dir d) !! k = Some dn -> exists dn', df_items (cd_dir d') !! k = Some dn' /\ same_entry dn dn' /\ dn_version dn' = dn_version dn /\
       (washed snaps cv (fn_version got) (cd_dir d) R dn -> is_dirty (dn_obj dn') = false /\
          forall h, primary_ino dn = Some h -> in_dirty (ci_info (ic_objs ic' h)) = false) /\
       (~ washed snaps cv (fn_version got) (cd_dir d) R dn -> dn' = dn)) /\
    (forall k f rec, (k, (f, rec)) ∈ R -> fresh_entry snaps (cd_dir d) ic k (f, rec) ->
       exists l, abs (cd_dir d') !! k = Some (f, l) /\ linked snaps ic' rec (dk_snapid k) l) /\
    (forall k, is_Some (df_items (cd_dir d') !! k) -> is_Some (df_items (cd_dir d) !! k) \/ exists p, (k, p) ∈ R /\ fresh_entry snaps (cd_dir d) ic k p).
Proof.
  intros f0 snaps cv Hr Hne Hh F Hx Hp Ha Hz P Ip Rm. unfold _omap_fetched.
  rewrite check_true by (rewrite !orb_true_iff, !Z.eqb_eq; tauto). rewrite Ha, Hz. cbn [negb assert_ mbind res_bind].
  pose proof (dec_enc_fnode got []) as Hdec. rewrite app_nil_r in Hdec.
  destruct (enc_fnode got) as [|c bl] eqn:Eb; [done|]. rewrite Hdec.
  destruct (take_header_ok rejoin got d Hh) as (d1 & es0 & v & o & -> & Ef & Hc & Ed & Eo). cbn [mbind res_bind]. rewrite Ef. fold f0. fold snaps.
  match goal with |- context [load_entries _ _ _ _ _ (mk_fstate ?dd _ _ _)] => set (d2 := dd) end.
  assert (fnode d2 = purged_fnode ie f0 /\ committed_version d2 = cv /\ cd_fdir d2 = cd_fdir d1) as (Ef2 & Hc2 & Ed2).
  { unfold d2, purged_fnode. fold snaps. destruct snaps; [|by split_and!]. by split_and!. }
  rewrite Ed in Ed2. set (x0 := cd_dir (set_cd_obj o (set_projected_version v d))).
  assert (cd_dir d2 = x0) as Ex by (unfold cd_dir; by rewrite Ed2).
  assert (dir_inv x0) as I0 by exact (dir_inv_header (cd_dir d) o v (fp_inv _ _ P) Eo).
  assert (fetch_pre x0 R) as P0 by (destruct P; split; done).
  assert (inodes_pre x0 ic R) as Ip0 by (destruct Ip; split; done).
  assert (room (length R) x0) as Rm0 by (destruct Rm as [R1 R2]; split; [done|]; change (co_ref o < 2 ^ 31 - 2); by destruct Eo as [->| ->]).
  replace (rev (encoded R)) with (encoded (rev R)) by (unfold encoded; by rewrite map_rev).
  rewrite <- Ex in I0, P0, Ip0, Rm0.
  destruct (load_entries_ok snaps (ie_stray ie) want (fn_version got) d2 ic R (rev R) [] ∅ ∅ (cd_dir d2) (mk_fstate d2 ic [] ([] ++ es0)))
    as (s & added & wet & x & -> & L); try done.
  - by apply loaded_start.
  - rewrite app_nil_r. rewrite <- (Permutation_rev R). apply P.
  - intros p. by rewrite <- (Permutation_rev R).
  - rewrite length_rev. simpl. lia.
  - cbn [mbind res_bind]. rewrite rev_involutive, app_nil_r in L. destruct L as [L1 L2 L3 L4 L5 L6 L7 L8 L9 L9' Lw Lv L10 L11].
    assert (fz_ok ext (cd_fdir d2)) as F1.
    { rewrite Ed2. assert (fz_ok ext (cd_fdir (set_projected_version v d))) as Fp by (split; apply F).
      destruct Eo as [->| ->]; [split; apply F|]. exact (fz_clear_bit ext _ 26 ltac:(lia) ltac:(unfold freeze_bit; lia) Fp). }
    destruct (merged_fz ext d2 added wet x L2 F1) as [F2 B2]; [apply Rm0|].
    destruct (finish_fetch_ok ext e s) as (d' & es & -> & C1 & C2 & C3 & C4 & C5 & C6); [by rewrite L1|done|..|done|].
    + rewrite L1. change (co_ref (df_obj x) < 2 ^ 31 - 1). destruct Rm0 as [_ Rm0]. unfold cd_obj in *. lia.
    + rewrite L1. change (auth_pins (cd_fdir d2) + nested_auth_pins (cd_fdir d2) < 2 ^ 31 - 1). by rewrite Ed2.
    + rewrite L1 in C3, C5. change (cd_dir (set_cd_dir x d2)) with x in C5. change (fnode (set_cd_dir x d2)) with (fnode d2) in C3.
      rewrite Hc2 in Lw, Lv. rewrite Ex in *. exists d', (fs_cache s), es. split_and!; [done|done|done|done|by rewrite C3| | |].
      * intros k dn Hk. destruct (mg_old _ _ _ _ L2 k dn Hk) as (dn' & E' & Se & Ve & Kp). exists dn'. rewrite C5. split_and!; [done|done|done| |].
        -- intros W. destruct (Lv k dn Hk W) as [Wk Wh]. rewrite bool_decide_true in Kp by done. done.
        -- intros N. destruct (bool_decide (k ∈ wet)) eqn:Ek; [|done]. apply bool_decide_eq_true in Ek. destruct (Lw k Ek) as (dn2 & E2 & W2).
           change (df_items x0) with (df_items (cd_dir d)) in E2. rewrite Hk in E2. injection E2 as <-. done.
      * intros k f rec Hin Hcv. destruct (L4 k f rec Hin Hcv) as (l & Hl & Hlk). exists l. split; [|done].
        unfold abs. rewrite C5. fold (abs x). rewrite (mg_abs _ _ _ _ L2). by apply lookup_union_Some_l.
      * intros k [dn Hk]. rewrite C5 in Hk. destruct (merged_cases _ _ _ _ _ _ L2 Hk) as [_ [(dn0 & Hk' & _)|Hk']].
        -- left. by eexists.
        -- right. destruct (L3 k _ Hk') as (p & Hp' & _ & Hf'). by exists p.
Qed.

(** C24: a fetch merges what is on disk into the cache.  When the object is well formed, no inode of
    the cache is left undefined by a rejoin and dirty inodes are not newer than their dentries,
    [_omap_fetched] passes its asserts; the fragment is complete and no longer fetching and the pin
    of the fetch is released (unless that leaves a freeze waiting for the thaw of an outer one, which
    the trace shows).  An entry of the object becomes a dentry with the same first snapshot and link,
    its inode new in the cache, exactly if it is not stale for the snapshots that still exist, no
    dentry of the cache covers it and the cache does not have its inode elsewhere; there is nothing
    else.  Dentries of the cache keep name, snapshots, link and version, and are as they were but for
    those underwater: when nothing was committed yet, a dirty dentry no newer than the object that
    an entry falls on is cleaned with its inode.  The fnode of the object is taken only if the
    fragment had none. *)
Theorem omap_fetched_merges ext rejoin e ie got R want r ic d :
  let f := header_fnode got d in let snaps := purge_snaps ie f in let cv := header_committed got d in
  r = 0 \/ r = - ENOENT \/ r = - ENODATA -> enc_fnode got <> [] -> header_ok rejoin d ->
  fz_ok ext (cd_fdir d) -> 1 <= ext -> auth_pins (cd_fdir d) + nested_auth_pins (cd_fdir d) < 2 ^ 31 - 1 ->
  cd_is_auth d = true -> is_frozen e (cd_fdir d) = false ->
  fetch_pre (cd_dir d) R -> inodes_pre (cd_dir d) ic R -> room (length R) (cd_dir d) ->
  exists d' ic' es, _omap_fetched rejoin e ie (enc_fnode got) (encoded R) want r ic d = Ok (d', ic', es) /\
    is_complete d' = true /\ cd_test d' STATE_FETCHING = false /\ (Fcd (Fz UnpinWhenThawed) ∉ es -> fz_ok (ext - 1) (cd_fdir d')) /\
    fnode d' = purged_fnode ie f /\
    (forall k dn, df_items (cd_dir d) !! k = Some dn -> exists dn', df_items (cd_dir d') !! k = Some dn' /\ same_entry dn dn' /\ dn_version dn' = dn_version dn /\
       (washed snaps cv (fn_version got) (cd_dir d) R dn -> is_dirty (dn_obj dn') = false /\
          forall h, primary_ino dn = Some h -> in_dirty (ci_info (ic_objs ic' h)) = false) /\
       (~ washed snaps cv (fn_version got) (cd_dir d) R dn -> dn' = dn)) /\
    (forall k f rec, (k, (f, rec)) ∈ R -> fresh_entry snaps (cd_dir d) ic k (f, rec) ->
       exists l, abs (cd_dir d') !! k = Some (f, l) /\ linked snaps ic' rec (dk_snapid k) l) /\
    (forall k, is_Some (df_items (cd_dir d') !! k) -> is_Some (df_items (cd_dir d) !! k) \/ exists p, (k, p) ∈ R /\ fresh_entry snaps (cd_dir d) ic k p).
Proof. apply omap_fetched_ok. Qed.

(** ** Commit and fetch *)

(** The record of a dentry on disk; [ws] are the snapshots its commit purged by, if it did. *)
Definition dn_rec (ws : option (gset Z)) (objs : Z -> cinode S) dn : option (drec S) :=
  match dn_linkage dn with
  | LNull => None
  | LPrimary h => Some (RInode (store_now ws (objs h)))
  | LRemote ino dt _ => Some (RLink ino dt)
  end.

(** What a commit leaves on disk of the dentries of [x], in the order of its map. *)
Definition image (ws : option (gset Z)) (objs : Z -> cinode S) x : list (cstring * bytes) :=
  base.omap (fun p => (fun _ => (dentry_key_encode (fst p), dentry_bytes ws objs (snd p))) <$> dn_rec ws objs (snd p))
    (ordered (df_items x)).
Definition records (ws : option (gset Z)) (objs : Z -> cinode S) x : list (dentry_key_t * (Z * drec S)) :=
  base.omap (fun p => (fun r => (fst p, (dn_first (snd p), r))) <$> dn_rec ws objs (snd p)) (ordered (df_items x)).

Lemma image_records ws objs x : image ws objs x = encoded (records ws objs x).
Proof.
  unfold image, records, encoded. induction (ordered (df_items x)) as [|[k dn] l IH]; [done|]. cbn.
  unfold dentry_bytes, dn_rec, rec_bytes. destruct (dn_linkage dn); cbn; [exact IH|f_equal; exact IH..].
Qed.

Lemma elem_records ws objs x k f r :
  (k, (f, r)) ∈ records ws objs x <-> exists dn, df_items x !! k = Some dn /\ dn_first dn = f /\ dn_rec ws objs dn = Some r.
Proof.
  unfold records. rewrite list_elem_of_omap. split.
  - intros ([k' dn] & Hin & E). apply elem_of_ordered in Hin. cbn in E.
    destruct (dn_rec ws objs dn) as [r'|] eqn:Er; [|done]. injection E as <- <- <-. by exists dn.
  - intros (dn & Hk & <- & Hr). exists (k, dn). split; [by apply elem_of_ordered|]. cbn. by rewrite Hr.
Qed.

Lemma records_nodup ws objs x : NoDup (records ws objs x).*1.
Proof.
  unfold records. pose proof (ordered_nodup (df_items x)) as ND.
  induction (ordered (df_items x)) as [|[k dn] l IH]; [constructor|]. cbn in ND. apply NoDup_cons in ND as [Hk ND]. cbn.
  destruct (dn_rec ws objs dn) as [r|]; cbn; [|by apply IH]. apply NoDup_cons. split; [|by apply IH].
  intros Hin. apply Hk. apply list_elem_of_fmap in Hin as ([k' p'] & -> & Hin). apply list_elem_of_omap in Hin as ([k2 dn2] & Hin & E).
  cbn in E. destruct (dn_rec ws objs dn2); [|done]. injection E as <- _. cbn. by apply (list_elem_of_fmap_2 fst) in Hin.
Qed.

(** A fragment that can be written and read back. *)
Record storable (ws : option (gset Z)) (objs : Z -> cinode S) x : Prop := {
  so_inv : dir_inv x;
  so_overlap : no_overlap x;
  so_span : forall k dn, df_items x !! k = Some dn -> dn_first dn <= dn_last dn;
  so_u64 : forall k dn, df_items x !! k = Some dn -> in_u64 (dk_snapid k);
  so_once : forall k1 k2 dn1 dn2 st1 st2, df_items x !! k1 = Some dn1 -> df_items x !! k2 = Some dn2 ->
    dn_rec ws objs dn1 = Some (RInode st1) -> dn_rec ws objs dn2 = Some (RInode st2) ->
    st_ino st1 = st_ino st2 -> dk_snapid k1 = dk_snapid k2 -> k1 = k2;
  so_size : Z.of_nat (length (records ws objs x)) < 2 ^ 32 - 1
}.

Lemma storable_pre ws objs x x0 R :
  storable ws objs x -> dir_inv x0 -> df_items x0 = ∅ -> R ≡ₚ records ws objs x -> fetch_pre x0 R.
Proof.
  intros [I No Sp U On Sz] I0 E0 HR.
  assert (forall k p, (k, p) ∈ R -> exists dn, df_items x !! k = Some dn /\ dn_first dn = fst p /\ dk_snapid k = dn_last dn /\ dk_name k = dn_name dn) as Hin.
  { intros k [f r] Hk. rewrite HR, elem_records in Hk. destruct Hk as (dn & Hd & Hf & _). exists dn.
    pose proof (ii_key _ (dv_items _ I) k dn Hd) as Ek. by subst k. }
  split; try done.
  - intros k1 k2 dn1 dn2. by rewrite E0, lookup_empty.
  - intros k dn. by rewrite E0, lookup_empty.
  - rewrite HR. apply records_nodup.
  - intros k p Hk. destruct (Hin k p Hk) as (dn & Hd & _). by eapply U.
  - intros k p Hk. destruct (Hin k p Hk) as (dn & Hd & <- & -> & _). by eapply Sp.
  - intros k1 p1 k2 p2 Hk1 Hk2 Hn Hl. destruct (Hin k1 p1 Hk1) as (a & Ha & _ & Ea & Na), (Hin k2 p2 Hk2) as (b & Hb & <- & Eb & Nb).
    rewrite Ea in *. rewrite Eb in *. apply (No k1 k2 a b Ha Hb); [congruence|done].
  - intros k p k' dn _ _. by rewrite E0, lookup_empty.
Qed.

(** How the dentry [l] read back shows the dentry [dn] that was written: with its inode as it was
    written, purged again if the fetch purges. *)
Definition read_back (ws snaps : option (gset Z)) (objs : Z -> cinode S) ic dn (l : linkage_t) : Prop :=
  match dn_linkage dn with
  | LNull => False
  | LPrimary h => exists h', l = LPrimary h' /\ ci_store (ic_objs ic h') = loaded_store snaps (store_now ws (objs h))
  | LRemote ino dt _ => exists i, l = LRemote ino dt i
  end.


End Merge.

(** ** A concrete fetch *)

#[local] Existing Instances nosnap64 dn_ops_ex bloom_ex store_ops_ex codec_ex.
#[local] Existing Instance codec_ex_ok.
Definition load_ops_ex : LoadOps store_ex := {| st_snaprealm := fun _ => false |}.
#[local] Existing Instance load_ops_ex.

Definition cdir_new : cdir Z Z :=
  mk_cdir (mk_fdir (mk_dfrag (state_set STATE_AUTH cobj_new) ∅ 0 0 0 0 0 ∅) 0 0 0 false)
    (fnode_ex 0) [] 0 0 ∅ None None 0 None.
(** after [fetch] *)
Definition cdir_fetching : cdir Z Z :=
  match fetch true true env_ex ienv_ex None [] false cdir_new with Ok (d, _) => d | Abort => cdir_new end.
(** The inode of the directory itself is cached. *)
Definition icache_ex : icache store_ex := mk_icache {[ (1, CEPH_NOSNAP) := 1 ]} objs_ex 100.

Lemma obj_ok_auth : obj_ok (C := Z) (state_set STATE_AUTH cobj_new).
Proof. split; [split; [done| |done]|done|done]. intros k n. cbn. by rewrite lookup_empty. Qed.

Lemma cdir_fetching_fz : fz_ok 1 (cd_fdir cdir_fetching).
Proof.
  split.
  - change (fd_obj (cd_fdir cdir_fetching)) with (state_set STATE_FETCHING (repin 1 PIN_AUTHPIN (state_set STATE_AUTH (@cobj_new Z)))).
    apply obj_ok_state, obj_ok_repin; [apply obj_ok_auth|done|done|vm_compute; discriminate|vm_compute; reflexivity].
  - split; vm_compute; intuition discriminate.
Qed.

Lemma cdir_fetching_empty : df_items (cd_dir cdir_fetching) = ∅.
Proof. vm_compute. reflexivity. Qed.

Lemma cdir_fetching_inv : dir_inv (cd_dir cdir_fetching).
Proof.
  split.
  - split.
    + intros k dn Hk. by rewrite cdir_fetching_empty, lookup_empty in Hk.
    + intros k dn Hk. by rewrite cdir_fetching_empty, lookup_empty in Hk.
    + intros _ k dn Hk. by rewrite cdir_fetching_empty, lookup_empty in Hk.
    + intros [] []; vm_compute; reflexivity.
    + vm_compute. reflexivity.
  - apply (oo_refs _ (fz_obj _ _ cdir_fetching_fz)).
  - vm_compute. reflexivity.
  - vm_compute. reflexivity.
Qed.

Ltac by_entries Hk :=
  apply elem_of_map_to_list in Hk; vm_compute in Hk;
  repeat (apply elem_of_cons in Hk as [[= -> ->]|Hk]); [..|by apply not_elem_of_nil in Hk].

Lemma cdir_ex_dir : dir_inv (cd_dir cdir_ex).
Proof. apply cdir_ex_tidy. Qed.

Lemma bits_distinct_ex : has_bits (DN_STATE_FRAGMENTING (C := Z)) STATE_DIRTY = false.
Proof. vm_compute. reflexivity. Qed.

Lemma purge_ino_ex sn (st : store_ex) : st_ino (st_purge_stale sn st) = st_ino st.
Proof. reflexivity. Qed.

#[local] Existing Instances clean_ok_ex clean_pins_ex.

Lemma cdir_fetching_header : header_ok false cdir_fetching.
Proof. intros _. split_and!; vm_compute; reflexivity || discriminate. Qed.

Lemma cdir_ex_storable : storable None objs_ex (cd_dir cdir_ex).
Proof.
  split.
  - apply cdir_ex_dir.
  - intros k1 k2 dn1 dn2 Hk1 Hk2. by_entries Hk1; by_entries Hk2; vm_compute; congruence.
  - intros k dn Hk. by_entries Hk; vm_compute; discriminate.
  - intros k dn Hk. by_entries Hk; split; vm_compute; discriminate || reflexivity.
  - intros k1 k2 dn1 dn2 st1 st2 Hk1 Hk2. by_entries Hk1; by_entries Hk2; vm_compute; intros; simplify_eq; done.
  - vm_compute. reflexivity.
Qed.


(** The entries of the same object, as they are read. *)
Definition recs_ex : list (dentry_key_t * (Z * drec store_ex)) :=
  [(mk_key CEPH_NOSNAP (str "file"), (2, RInode (mk_store_ex 7 2))); (mk_key CEPH_NOSNAP (str "link"), (2, RLink 99 8))].

Ltac by_recs Hk := repeat (apply elem_of_cons in Hk as [[= -> ->]|Hk]); [..|by apply not_elem_of_nil in Hk].

Lemma recs_ex_pre : fetch_pre (cd_dir cdir_fetching) recs_ex.
Proof.
  split.
  - apply cdir_fetching_inv.
  - intros k1 k2 dn1 dn2. by rewrite cdir_fetching_empty, lookup_empty.
  - intros k dn. by rewrite cdir_fetching_empty, lookup_empty.
  - by_decide.
  - intros k p Hk. by_recs Hk; split; vm_compute; discriminate || reflexivity.
  - intros k p Hk. by_recs Hk; vm_compute; discriminate.
  - intros k1 p1 k2 p2 Hk1 Hk2. by_recs Hk1; by_recs Hk2; vm_compute; intros; discriminate.
  - intros k p k' dn _ _. by rewrite cdir_fetching_empty, lookup_empty.
Qed.

Lemma recs_ex_inode k f st : (k, (f, RInode st)) ∈ recs_ex -> k = mk_key CEPH_NOSNAP (str "file").
Proof.
  intros Hk. apply elem_of_cons in Hk as [Hk|Hk]; [by injection Hk|].
  apply elem_of_cons in Hk as [Hk|Hk]; [discriminate Hk|by apply not_elem_of_nil in Hk].
Qed.

Lemma omap_fetched_merges_witness : exists d' ic' es,
  _omap_fetched false env_ex ienv_ex (enc_fnode (fnode_ex 4)) (encoded recs_ex) [] 0 icache_ex cdir_fetching = Ok (d', ic', es) /\
  exists i, abs (cd_dir d') !! mk_key CEPH_NOSNAP (str "link") = Some (2, LRemote 99 8 i).
Proof.
  destruct (omap_fetched_merges bits_distinct_ex purge_ino_ex 1 false env_ex ienv_ex (fnode_ex 4) recs_ex [] 0 icache_ex cdir_fetching)
    as (d' & ic' & es & E & _ & _ & _ & _ & _ & Hk & _).
  - by left.
  - vm_compute. discriminate.
  - apply cdir_fetching_header.
  - apply cdir_fetching_fz.
  - lia.
  - vm_compute. reflexivity.
  - vm_compute. reflexivity.
  - vm_compute. reflexivity.
  - apply recs_ex_pre.
  - split.
    + intros k1 f1 st1 k2 f2 st2 Hk1 Hk2 _ _. apply recs_ex_inode in Hk1, Hk2. congruence.
    + intros k dn h. by rewrite cdir_fetching_empty, lookup_empty.
    + intros k dn h. by rewrite cdir_fetching_empty, lookup_empty.
  - split; vm_compute; reflexivity.
  - exists d', ic', es. split; [done|].
    destruct (Hk (mk_key CEPH_NOSNAP (str "link")) 2 (RLink 99 8)) as (l & Ha & i & ->).
    + apply elem_of_cons. right. apply elem_of_cons. by left.
    + split_and!; [vm_compute; reflexivity|vm_compute; reflexivity|done].
    + by exists i.
Defined.
