(* ===== verification/Fragment.v ===== *)
(** * Splitting, merging and migrating directory fragments (CDir.cc)

    [split] hands the dentries of a fragment to new, finer fragments and leaves an empty corpse;
    [merge] gathers the dentries of several fragments into one.  Both move a dentry with
    [steal_dentry], which recounts the statistics of the fragment that receives it, and carry
    over what was counted but not yet gathered by the inode.  [encode_export], [finish_export]
    and [decode_import] move a fragment between ranks.

    What the repository does not hold: [frag_t] (class [FragSplit]), the inode, its children and
    the dentries' auth pins ([ienv]), [CInode::pick_dirfrag] and [CInode::add_dirfrag] (arguments
    of [split]), and the byte encodings ([exported] is the message). *)

From stdpp Require Import base tactics numbers list gmap.
From Stdlib Require Import ZArith Lia Ascii.
From S2P Require Import Prelude Double Stats Subtree LoadVec Keys CacheObject Dentries Freeze Versions.
Open Scope Z_scope.
Open Scope list_scope.

Definition PIN_IMPORTBOUND : Z := 9.
Definition PIN_EXPORTBOUND : Z := 10.
Definition PIN_STICKY : Z := 11.

Definition STATE_IMPORTBOUND : Z := Z.shiftl 1 10.
Definition STATE_EXPORTBOUND : Z := Z.shiftl 1 11.
Definition STATE_EXPORTING : Z := Z.shiftl 1 12.
Definition STATE_IMPORTING : Z := Z.shiftl 1 13.
Definition STATE_STICKY : Z := Z.shiftl 1 15.
Definition STATE_DIRTYDFT : Z := Z.shiftl 1 18.

Definition or_all (l : list Z) : Z := fold_right Z.lor 0 l.

Definition MASK_STATE_EXPORTED : Z :=
  or_all [STATE_COMPLETE; STATE_DIRTY; STATE_DIRTYDFT; STATE_BADFRAG].
Definition MASK_STATE_IMPORT_KEPT : Z :=
  or_all [STATE_IMPORTING; STATE_IMPORTBOUND; STATE_EXPORTBOUND; STATE_FROZENTREE; STATE_STICKY].
Definition MASK_STATE_EXPORT_KEPT : Z :=
  or_all [STATE_EXPORTING; STATE_IMPORTBOUND; STATE_EXPORTBOUND; STATE_FROZENTREE; STATE_FROZENDIR;
          STATE_STICKY].
Definition MASK_STATE_FRAGMENT_KEPT : Z :=
  or_all [STATE_DIRTY; STATE_EXPORTBOUND; STATE_IMPORTBOUND; STATE_REJOINUNDEF].

Definition REP_NONE : Z := 0.

(** [frag_t]: the fragments a fragment is split into, and the bits that name one. *)
Class FragSplit (F : Type) := {
  fg_split : F -> Z -> list F;
  fg_value : F -> Z;
  fg_mask : F -> Z;
  fg_mask_shift : F -> Z
}.

(** [DT_DIR] of the directory entry types *)
Class DirentTypes := { DT_DIR : Z }.

Record old_rstat_t (T : Type) := mk_old_rstat {
  or_first : Z;
  or_rstat : nest_info_t T;
  or_accounted_rstat : nest_info_t T
}.
Arguments mk_old_rstat {T}.

(** What is read of the inode of a primary dentry. *)
Record kid (T : Type) := mk_kid {
  kid_is_dir : bool;
  kid_accounted : nest_info_t T;              (* inode.accounted_rstat *)
  kid_projected_accounted : nest_info_t T;    (* get_projected_inode()->accounted_rstat *)
  kid_dirty_rstat : bool                      (* is_dirty_rstat() *)
}.
Arguments mk_kid {T}.
Arguments kid_is_dir {T}.
Arguments kid_accounted {T}.
Arguments kid_projected_accounted {T}.
Arguments kid_dirty_rstat {T}.

(** The inode of the fragment, its children, and the auth pins of a dentry: its own, those
    nested beneath it, and those it passes on as [dir_auth_pins]. *)
Record ienv (T : Type) := mk_ienv {
  ie_fenv : fenv;
  ie_is_dir : bool;
  ie_auth : bool;
  ie_rstat_version : Z;             (* get_projected_inode()->rstat.version *)
  ie_dirstat_version : Z;           (* get_projected_inode()->dirstat.version *)
  ie_kid : Z -> kid T;
  ie_pins : dentry_key_t -> Z * Z * Z
}.
Arguments mk_ienv {T}.
Arguments ie_fenv {T}.
Arguments ie_is_dir {T}.
Arguments ie_auth {T}.
Arguments ie_rstat_version {T}.
Arguments ie_dirstat_version {T}.
Arguments ie_kid {T}.
Arguments ie_pins {T}.

Inductive fr_effect (X F : Type) :=
| OnFrag (fg : F) (e : cd_effect X)
| CountSplit                        (* logger->inc(l_mds_dir_split) *)
| AddDirfrag (fg : F)
| CloseDirfrag (fg : F)
| MarkNestlock (seg : Z)            (* mark_updated_scatterlock and the segment's list *)
| MarkFilelock (seg : Z)
| MarkDirfragtreelock (seg : Z).
Arguments OnFrag {X F}.
Arguments CountSplit {X F}.
Arguments AddDirfrag {X F}.
Arguments CloseDirfrag {X F}.
Arguments MarkNestlock {X F}.
Arguments MarkFilelock {X F}.
Arguments MarkDirfragtreelock {X F}.

Section Fragment.
Context {X T C R D F : Type} `{CephConst} `{UTime T} `{Bloom} `{CDouble D} `{DecayCounter C T R D}
  `{FragSplit F} `{DirentTypes}.
Abbreviation cdir := (Versions.cdir X T).
Abbreviation fr_effect := (fr_effect X F).
Abbreviation ienv := (ienv T).

Record sdir := mk_sdir {
  sd_dir : cdir;
  frag : F;
  sd_auth : authority_t;                      (* dir_auth *)
  sd_first : Z;
  dirty_old_rstat : gmap Z (old_rstat_t T);
  dirty_rstat_inodes : list Z;
  dir_rep : Z;
  dir_rep_by : gset Z;
  pop_me : list C;
  pop_nested : list C;
  pop_auth_subtree : list C;
  pop_auth_subtree_nested : list C
}.

Definition set_sd_dir (d : cdir) (s : sdir) : sdir :=
  mk_sdir d (frag s) (sd_auth s) (sd_first s) (dirty_old_rstat s) (dirty_rstat_inodes s) (dir_rep s)
    (dir_rep_by s) (pop_me s) (pop_nested s) (pop_auth_subtree s) (pop_auth_subtree_nested s).
Definition set_pops (me nested sub subn : list C) (s : sdir) : sdir :=
  mk_sdir (sd_dir s) (frag s) (sd_auth s) (sd_first s) (dirty_old_rstat s) (dirty_rstat_inodes s)
    (dir_rep s) (dir_rep_by s) me nested sub subn.
Definition set_dirty_rstat_inodes (l : list Z) (s : sdir) : sdir :=
  mk_sdir (sd_dir s) (frag s) (sd_auth s) (sd_first s) (dirty_old_rstat s) l (dir_rep s)
    (dir_rep_by s) (pop_me s) (pop_nested s) (pop_auth_subtree s) (pop_auth_subtree_nested s).
Definition set_dirty_old_rstat (m : gmap Z (old_rstat_t T)) (s : sdir) : sdir :=
  mk_sdir (sd_dir s) (frag s) (sd_auth s) (sd_first s) m (dirty_rstat_inodes s) (dir_rep s)
    (dir_rep_by s) (pop_me s) (pop_nested s) (pop_auth_subtree s) (pop_auth_subtree_nested s).
(** [dir_auth = a], on which [is_subtree_root] depends *)
Definition set_auth_field (a : authority_t) (s : sdir) : sdir :=
  let x := cd_fdir (sd_dir s) in
  let x := mk_fdir (fd_dir x) (auth_pins x) (nested_auth_pins x) (dir_auth_pins x)
             (negb (bool_decide (a = CDIR_AUTH_DEFAULT))) in
  mk_sdir (set_cd_fdir x (sd_dir s)) (frag s) a (sd_first s) (dirty_old_rstat s) (dirty_rstat_inodes s)
    (dir_rep s) (dir_rep_by s) (pop_me s) (pop_nested s) (pop_auth_subtree s) (pop_auth_subtree_nested s).

Definition sd_fdir (s : sdir) : fdir X := cd_fdir (sd_dir s).
Definition sd_dfrag (s : sdir) : dirfrag X := cd_dir (sd_dir s).
Definition sd_obj (s : sdir) : cobj X := cd_obj (sd_dir s).
Definition sd_items (s : sdir) : gmap dentry_key_t (dentry X) := df_items (sd_dfrag s).
Definition sd_fnode (s : sdir) : fnode_t T := fnode (sd_dir s).
Definition sd_test (s : sdir) (mask : Z) : bool := cd_test (sd_dir s) mask.
Definition sd_is_auth (s : sdir) : bool := cd_is_auth (sd_dir s).
Definition sd_subtree_root (s : sdir) : bool := fd_subtree_root (sd_fdir s).
Definition set_sd_obj (o : cobj X) (s : sdir) : sdir := set_sd_dir (set_cd_obj o (sd_dir s)) s.
Definition set_sd_dfrag (x : dirfrag X) (s : sdir) : sdir := set_sd_dir (set_cd_dir x (sd_dir s)) s.
Definition set_sd_fnode (f : fnode_t T) (s : sdir) : sdir := set_sd_dir (set_fnode f (sd_dir s)) s.

Definition on_frag (s : sdir) (es : list (cd_effect X)) : list fr_effect := map (OnFrag (frag s)) es.
Definition lift_cd (r : res (cdir * list (cd_effect X))) (s : sdir) : res (sdir * list fr_effect) :=
  '(d, es) ← r; Ok (set_sd_dir d s, on_frag s es).
Definition lift_fd (r : res (fdir X * list (fz_effect X))) (s : sdir) : res (sdir * list fr_effect) :=
  '(x, es) ← r; Ok (set_sd_dir (set_cd_fdir x (sd_dir s)) s, on_frag s (map Fz es)).

Definition sd_get (pin : Z) (s : sdir) : res (sdir * list fr_effect) := lift_cd (cd_get pin (sd_dir s)) s.
Definition sd_put (pin : Z) (s : sdir) : res (sdir * list fr_effect) := lift_cd (cd_put pin (sd_dir s)) s.
Definition get_if (b : bool) (pin : Z) (s : sdir) : res (sdir * list fr_effect) :=
  if b then sd_get pin s else Ok (s, []).
Definition put_if (b : bool) (pin : Z) (s : sdir) : res (sdir * list fr_effect) :=
  if b then sd_put pin s else Ok (s, []).

(** [take_waiting(mask, ls)] *)
Definition sd_take_waiting (mask : Z) (ls : list X) (s : sdir) : res (sdir * list fr_effect * list X) :=
  '(x, es, ls) ← dir_take_waiting mask ls (sd_dfrag s);
  Ok (set_sd_dfrag x s, on_frag s (map (fun e => Fz (PinHook e)) es), ls).

(** [new CDir(in, fg, mdcache, auth)] *)
Definition zero_fnode : fnode_t T :=
  mk_fnode 0 0 frag_info_new frag_info_new nest_info_new nest_info_new.
Definition new_dir (e : ienv) (now : T) (fg : F) (auth : bool) : res sdir :=
  check (ie_is_dir e) ;;
  let o := if auth then state_set STATE_AUTH cobj_new else cobj_new in
  let v := vec_new DIRFRAG_NUM now in
  Ok (mk_sdir
        (mk_cdir (mk_fdir (mk_dfrag o ∅ 0 0 0 0 0 ∅) 0 0 0 false) zero_fnode [] 0 0 ∅ None None 0 None)
        fg CDIR_AUTH_DEFAULT 2 ∅ [] REP_NONE ∅ v v v v).

(** ** The check of the statistics *)

(** [sub_info.add] over the primary head dentries *)
Definition head_rstat (e : ienv) (dn : dentry X) : option (nest_info_t T) :=
  match dn_linkage dn with
  | LPrimary ino => if is_head dn then Some (kid_accounted (ie_kid e ino)) else None
  | _ => None
  end.
Definition sub_info (e : ienv) (m : gmap dentry_key_t (dentry X)) : nest_info_t T :=
  nest_total (omap (fun p => head_rstat e (snd p)) (ordered m)).

Definition check_rstats (debug_scatterstat : bool) (e : ienv) (s : sdir) : res bool :=
  if negb debug_scatterstat then Ok true
  else if negb (sd_test s STATE_COMPLETE) || negb (sd_is_auth s) || is_frozen (ie_fenv e) (sd_fdir s)
  then Ok true
  else
    let f := sd_fnode s in
    check (num_head_items (sd_dfrag s) =? s64 (fi_nfiles (fn_fragstat f) + fi_nsubdirs (fn_fragstat f))) ;;
    let sub := sub_info e (sd_items s) in
    check (ni_rbytes sub =? ni_rbytes (fn_rstat f)) ;;
    check (ni_rfiles sub =? ni_rfiles (fn_rstat f)) ;;
    check (ni_rsubdirs sub =? ni_rsubdirs (fn_rstat f)) ;;
    Ok true.

(** ** Stealing a dentry *)

Definition count_entry (is_dir : bool) (f : frag_info_t T) : frag_info_t T :=
  if is_dir then mk_frag_info (fi_version f) (fi_mtime f) (fi_nfiles f) (s64 (fi_nsubdirs f + 1))
  else mk_frag_info (fi_version f) (fi_mtime f) (s64 (fi_nfiles f + 1)) (fi_nsubdirs f).

Definition count_rstat (a r : nest_info_t T) : nest_info_t T :=
  mk_nest_info (ni_version r) (ut_max (ni_rctime r) (ni_rctime a))
    (s64 (ni_rbytes r + ni_rbytes a)) (s64 (ni_rfiles r + ni_rfiles a))
    (s64 (ni_rsubdirs r + ni_rsubdirs a)) (s64 (ni_rsnaprealms r + ni_rsnaprealms a)).

Definition set_stats (f : frag_info_t T) (r : nest_info_t T) (n : fnode_t T) : fnode_t T :=
  mk_fnode (fn_version n) (fn_snap_purged_thru n) f (fn_accounted_fragstat n) r (fn_accounted_rstat n).

(** the statistics of a head dentry that is not null *)
Definition count_stats (e : ienv) (dn : dentry X) (n : fnode_t T) : fnode_t T :=
  match dn_linkage dn with
  | LNull => n
  | LPrimary ino =>
      let k := ie_kid e ino in
      set_stats (count_entry (kid_is_dir k) (fn_fragstat n))
        (count_rstat (kid_projected_accounted k) (fn_rstat n)) n
  | LRemote _ d_type _ =>
      set_stats (count_entry (d_type =? DT_DIR) (fn_fragstat n)) (fn_rstat n) n
  end.

(** [dirty_rstat_inodes.push_back(&in->dirty_rstat_item)] takes the item off the list it is on. *)
Definition dirty_ino (e : ienv) (dn : dentry X) : option Z :=
  match dn_linkage dn with
  | LPrimary ino => if kid_dirty_rstat (ie_kid e ino) then Some ino else None
  | _ => None
  end.
Definition move_dirty_rstat (e : ienv) (dn : dentry X) (this old : sdir) : sdir * sdir :=
  match dirty_ino e dn with
  | None => (this, old)
  | Some ino =>
      let rest s := filter (fun i => i <> ino) (dirty_rstat_inodes s) in
      (set_dirty_rstat_inodes (rest this ++ [ino]) this, set_dirty_rstat_inodes (rest old) old)
  end.

(** the auth pins a dentry brings along *)
Definition move_pins (e : ienv) (dn : dentry X) (this old : sdir) : res (sdir * sdir * list fr_effect) :=
  let '(own, nested, dap) := ie_pins e (dn_key dn) in
  if (own =? 0) && (nested =? 0) then Ok (this, old, [])
  else
    let ap := s32 (own + nested) in
    check (dap <=? ap) ;;
    '(this, es1) ← lift_fd (adjust_nested_auth_pins ap dap (ie_fenv e) (sd_fdir this)) this;
    '(old, es2) ← lift_fd (adjust_nested_auth_pins (s32 (- ap)) (s32 (- dap)) (ie_fenv e) (sd_fdir old)) old;
    Ok (this, old, es1 ++ es2).

Definition steal_dentry (e : ienv) (dn : dentry X) (this old : sdir)
  : res (sdir * sdir * list fr_effect) :=
  let k := dn_key dn in
  let this := set_sd_dfrag (set_items (<[k := dn]> (sd_items this)) (sd_dfrag this)) this in
  let old := set_sd_dfrag (set_items (delete k (sd_items old)) (sd_dfrag old)) old in
  '(old, es1) ← put_if (bool_decide (sd_items old = ∅)) PIN_CHILD old;
  '(this, es2) ← get_if (get_num_any (sd_dfrag this) =? 0) PIN_CHILD this;
  let this := set_sd_dfrag (adjust_count (is_null dn) (is_head dn) 1 (sd_dfrag this)) this in
  let '(this, old) :=
    if negb (is_null dn) && is_head dn then
      move_dirty_rstat e dn (set_sd_fnode (count_stats e dn (sd_fnode this)) this) old
    else (this, old) in
  '(this, old, es3) ← move_pins e dn this old;
  let this := if is_dirty (dn_obj dn) then set_sd_dir (inc_num_dirty (sd_dir this)) this else this in
  Ok (this, old, es1 ++ es2 ++ es3).

(** ** Old and new fragments *)

Definition prepare_old_fragment (replay : bool) (s : sdir) : res (sdir * list fr_effect) :=
  if negb replay && sd_is_auth s then lift_cd (cd_auth_pin (sd_dir s)) s else Ok (s, []).

Definition prepare_new_fragment (replay : bool) (s : sdir) : res (sdir * list fr_effect) :=
  if negb replay && sd_is_auth s then
    '(s, es) ← lift_fd (_freeze_dir (sd_fdir s)) s;
    Ok (set_sd_dir (mark_complete (sd_dir s)) s, es)
  else Ok (s, []).

Definition zero_counts (x : dirfrag X) : dirfrag X :=
  mk_dfrag (df_obj x) (df_items x) 0 0 0 0 (df_projected_version x) (waiting_on_dentry x).

(** the waiters, the auth pin of [prepare_old_fragment] and the freeze *)
Definition release_old (e : ienv) (replay : bool) (waiters : list X) (s : sdir)
  : res (sdir * list fr_effect * list X) :=
  if replay then Ok (s, [], waiters)
  else
    '(s, es1, waiters) ← sd_take_waiting WAIT_ANY_MASK waiters s;
    if sd_is_auth s then
      '(s, es2) ← lift_cd (cd_auth_unpin (ie_fenv e) (sd_dir s)) s;
      check (is_frozen_dir (sd_fdir s)) ;;
      '(s, es3) ← lift_fd (unfreeze_dir (ie_fenv e) (sd_fdir s)) s;
      Ok (s, es1 ++ es2 ++ es3, waiters)
    else Ok (s, es1, waiters).

Definition sd_clear_replicas (s : sdir) : res (sdir * list fr_effect) :=
  '(o, hs) ← clear_replica_map (sd_obj s);
  Ok (set_sd_obj o s, on_frag s (map (fun h => Fz (PinHook (DirHook h))) hs)).

Definition finish_old_fragment (e : ienv) (replay : bool) (waiters : list X) (s : sdir)
  : res (sdir * list fr_effect * list X) :=
  '(s, es1, waiters) ← release_old e replay waiters s;
  check (nested_auth_pins (sd_fdir s) =? 0) ;;
  check (dir_auth_pins (sd_fdir s) =? 0) ;;
  check (auth_pins (sd_fdir s) =? 0) ;;
  let s := set_sd_dfrag (zero_counts (sd_dfrag s)) s in
  '(s, es2) ← (if sd_is_auth s then sd_clear_replicas s else Ok (s, []));
  '(s, es3) ← (if sd_test s STATE_DIRTY then lift_cd (cd_mark_clean (sd_dir s)) s else Ok (s, []));
  '(s, es4) ← put_if (sd_test s STATE_IMPORTBOUND) PIN_IMPORTBOUND s;
  '(s, es5) ← put_if (sd_test s STATE_EXPORTBOUND) PIN_EXPORTBOUND s;
  '(s, es6) ← put_if (sd_subtree_root s) PIN_SUBTREE s;
  '(s, es7) ← put_if (0 <? auth_pins (sd_fdir s)) PIN_AUTHPIN s;
  check (co_ref (sd_obj s) =? bool_Z (sd_test s STATE_STICKY)) ;;
  Ok (s, es1 ++ es2 ++ es3 ++ es4 ++ es5 ++ es6 ++ es7, waiters).

Definition init_fragment_pins (s : sdir) : res (sdir * list fr_effect) :=
  '(s, es1) ← get_if (is_replicated (sd_obj s)) PIN_REPLICATED s;
  '(s, es2) ← get_if (sd_test s STATE_DIRTY) PIN_DIRTY s;
  '(s, es3) ← get_if (sd_test s STATE_EXPORTBOUND) PIN_EXPORTBOUND s;
  '(s, es4) ← get_if (sd_test s STATE_IMPORTBOUND) PIN_IMPORTBOUND s;
  '(s, es5) ← get_if (sd_subtree_root s) PIN_SUBTREE s;
  Ok (s, es1 ++ es2 ++ es3 ++ es4 ++ es5).

(** [set_dir_auth] with its calls on the inode *)
Definition sd_set_dir_auth (e : ienv) (a : authority_t) (s : sdir) : res (sdir * list fr_effect) :=
  let was_subtree := sd_subtree_root s in
  let was_ambiguous := 0 <=? snd (sd_auth s) in
  let s := set_auth_field a s in
  let x := sd_fdir s in
  let holds := ie_auth e && (is_frozen_tree_root x || is_frozen_dir x) in
  let nest n := if get_cum_auth_pins x =? 0 then [] else [InodeNested n] in
  let es1 :=
    if negb was_subtree && sd_subtree_root s then nest (-1) ++ (if holds then [InodeAuthUnpin] else [])
    else [] in
  let es2 :=
    if was_subtree && negb (sd_subtree_root s) then nest 1 ++ (if holds then [InodeAuthPin] else [])
    else [] in
  let es := on_frag s (map Fz (es1 ++ es2)) in
  if was_ambiguous && (snd (sd_auth s) =? CDIR_AUTH_UNKNOWN) then
    '(s, es', ls) ← sd_take_waiting WAIT_SINGLEAUTH [] s;
    Ok (s, es ++ es' ++ on_frag s [Fz (QueueWaiters ls)])
  else Ok (s, es).

(** ** split *)

(** [rstatdiff] and [fragstatdiff]: what is counted but not accounted, with the sign turned. *)
Definition rstat_diff (e : ienv) (n : fnode_t T) (diff : nest_info_t T) : nest_info_t T :=
  if ni_version (fn_accounted_rstat n) =? ie_rstat_version e
  then nest_add_delta diff (fn_accounted_rstat n) (fn_rstat n) else diff.
Definition fragstat_diff (e : ienv) (n : fnode_t T) (diff : frag_info_t T) : frag_info_t T :=
  if fi_version (fn_accounted_fragstat n) =? ie_dirstat_version e
  then fst (frag_add_delta diff (fn_accounted_fragstat n) (fn_fragstat n) false) else diff.

(** the body of the loop that creates the fragments; [add_dirfrag] is the inode's *)
Definition make_subfrag (e : ienv) (add_dirfrag : sdir -> res sdir) (now : T) (fac : D)
    (replay : bool) (d : sdir) (fg : F) : res (sdir * list fr_effect) :=
  f ← new_dir e now fg (sd_is_auth d);
  let mask := Z.lor MASK_STATE_FRAGMENT_KEPT STATE_COMPLETE in
  let f := set_sd_obj (set_replicas (co_replica_map (sd_obj d))
             (state_set (Z.land (co_state (sd_obj d)) mask) (sd_obj f))) f in
  let f := set_auth_field (sd_auth d) f in
  '(f, es1) ← init_fragment_pins f;
  c ← set_version (get_version (sd_dir d)) (sd_dir f);
  let f := set_pops (vec_scale fac (pop_me d)) (vec_scale fac (pop_nested d))
             (vec_scale fac (pop_auth_subtree d)) (vec_scale fac (pop_auth_subtree_nested d))
             (set_sd_dir c f) in
  f ← add_dirfrag f;
  '(f, es2) ← sd_set_dir_auth e (sd_auth d) f;
  '(f, es3) ← prepare_new_fragment replay f;
  Ok (f, es1 ++ [AddDirfrag fg] ++ es2 ++ es3).

(** [subfrags] has [1 << bits] slots; a write past the end is out of bounds. *)
Fixpoint make_subfrags (e : ienv) (add_dirfrag : sdir -> res sdir) (now : T) (fac : D)
    (replay : bool) (d : sdir) (slots : nat) (fgs : list F) {struct fgs} : res (list sdir * list fr_effect) :=
  match fgs with
  | [] => Ok ([], [])
  | fg :: fgs =>
      match slots with
      | O => Abort
      | S slots =>
          '(f, es) ← make_subfrag e add_dirfrag now fac replay d fg;
          '(fs, es') ← make_subfrags e add_dirfrag now fac replay d slots fgs;
          Ok (f :: fs, es ++ es')
      end
  end.

(** [n], the slot of the fragment a name belongs to *)
Definition slot (whole sub : F) : Z :=
  Z.shiftr (Z.land (fg_value sub) (Z.lxor (fg_mask sub) (fg_mask whole))) (fg_mask_shift sub).

(** the loop over the dentries; a slot that holds no fragment is not dereferenced *)
Fixpoint repartition (e : ienv) (pick_dirfrag : cstring -> F) (fuel : nat) (d : sdir) (subs : list sdir)
  : res (sdir * list sdir * list fr_effect) :=
  match ordered (sd_items d) with
  | [] => Ok (d, subs, [])
  | (_, dn) :: _ =>
      match fuel with
      | O => Abort
      | S fuel =>
          let n := slot (frag d) (pick_dirfrag (dn_name dn)) in
          match (if n <? 0 then None else subs !! Z.to_nat n) with
          | None => Abort
          | Some f =>
              '(f, d, es) ← steal_dentry e dn f d;
              '(d, subs, es') ← repartition e pick_dirfrag fuel d (<[Z.to_nat n := f]> subs);
              Ok (d, subs, es ++ es')
          end
      end
  end.

(** the statistics of a new fragment count as accounted *)
Definition account (e : ienv) (n : fnode_t T) : fnode_t T :=
  let r := fn_rstat n in
  let r := mk_nest_info (ie_rstat_version e) (ni_rctime r) (ni_rbytes r) (ni_rfiles r) (ni_rsubdirs r)
             (ni_rsnaprealms r) in
  let f := fn_fragstat n in
  let f := mk_frag_info (ie_dirstat_version e) (fi_mtime f) (fi_nfiles f) (fi_nsubdirs f) in
  mk_fnode (fn_version n) (fn_snap_purged_thru n) f f r r.

(** [accounted_rstat.add(rstatdiff)], [accounted_fragstat.add(fragstatdiff)] *)
Definition add_diffs (rd : nest_info_t T) (fd : frag_info_t T) (n : fnode_t T) : fnode_t T :=
  mk_fnode (fn_version n) (fn_snap_purged_thru n) (fn_fragstat n) (frag_add (fn_accounted_fragstat n) fd)
    (fn_rstat n) (nest_add (fn_accounted_rstat n) rd 1).

Definition on_fnode (g : fnode_t T -> fnode_t T) (s : sdir) : sdir := set_sd_fnode (g (sd_fnode s)) s.

Definition split (e : ienv) (pick_dirfrag : cstring -> F) (add_dirfrag : sdir -> res sdir) (now : T)
    (bits : Z) (replay : bool) (waiters : list X) (d : sdir)
  : res (sdir * list sdir * list X * list fr_effect) :=
  check (replay || sd_test d STATE_COMPLETE || negb (sd_is_auth d)) ;;
  let fgs := fg_split (frag d) bits in
  let fac := d_div (d_of_Z 1) (d_of_Z (Z.shiftl 1 bits)) in
  let rstatdiff := rstat_diff e (sd_fnode d) nest_info_new in
  let fragstatdiff := fragstat_diff e (sd_fnode d) frag_info_new in
  '(d, es1) ← prepare_old_fragment replay d;
  '(subs, es2) ← make_subfrags e add_dirfrag now fac replay d (Z.to_nat (Z.shiftl 1 bits)) fgs;
  '(d, subs, es3) ← repartition e pick_dirfrag (size (sd_items d)) d subs;
  match map (on_fnode (account e)) subs with
  | [] => Abort
  | f :: fs =>
      let f := on_fnode (add_diffs rstatdiff fragstatdiff) f in
      '(d, es4, waiters) ← finish_old_fragment e replay waiters d;
      Ok (d, f :: fs, waiters, CountSplit :: es1 ++ es2 ++ es3 ++ es4)
  end.

(** ** merge *)

(** the loop over the replicas of a fragment; reading [replica_map[r]] creates the entry *)
Definition merge_replicas (m : gmap Z Z) (l : list (Z * Z)) : gmap Z Z :=
  fold_left (fun m '(r, nonce) =>
    let cur := default 0 (m !! r) in
    let m := <[r := cur]> m in
    if cur <? nonce then <[r := nonce]> m else m) l m.

Fixpoint steal_all (e : ienv) (fuel : nat) (this dir : sdir) : res (sdir * sdir * list fr_effect) :=
  match ordered (sd_items dir) with
  | [] => Ok (this, dir, [])
  | (_, dn) :: _ =>
      match fuel with
      | O => Abort
      | S fuel =>
          '(this, dir, es) ← steal_dentry e dn this dir;
          '(this, dir, es') ← steal_all e fuel this dir;
          Ok (this, dir, es ++ es')
      end
  end.

(** the body of the loop over the fragments; [inode->close_dirfrag] deletes the fragment *)
Definition merge_one (e : ienv) (replay : bool) (waiters : list X) (dir this : sdir)
  : res (sdir * list X * list fr_effect) :=
  check (negb (sd_is_auth dir) || sd_test dir STATE_COMPLETE || replay) ;;
  '(dir, es1) ← prepare_old_fragment replay dir;
  '(this, dir, es2) ← steal_all e (size (sd_items dir)) this dir;
  let o := sd_obj this in
  let this := set_sd_obj (set_replicas (merge_replicas (co_replica_map o)
                            (ordered (co_replica_map (sd_obj dir)))) o) this in
  c ← (if get_version (sd_dir this) <? get_version (sd_dir dir)
       then set_version (get_version (sd_dir dir)) (sd_dir this) else Ok (sd_dir this));
  let this := set_sd_dir c this in
  let this := set_sd_obj (state_set (Z.land (co_state (sd_obj dir)) MASK_STATE_FRAGMENT_KEPT)
                            (sd_obj this)) this in
  let this := set_auth_field (sd_auth dir) this in
  '(dir, es3, waiters) ← finish_old_fragment e replay waiters dir;
  Ok (this, waiters, es1 ++ es2 ++ es3 ++ [CloseDirfrag (frag dir)]).

Fixpoint merge_loop (e : ienv) (replay : bool) (subs : list sdir) (rd : nest_info_t T) (fd : frag_info_t T)
    (waiters : list X) (this : sdir)
  : res (sdir * nest_info_t T * frag_info_t T * list X * list fr_effect) :=
  match subs with
  | [] => Ok (this, rd, fd, waiters, [])
  | dir :: subs =>
      let rd := rstat_diff e (sd_fnode dir) rd in
      let fd := fragstat_diff e (sd_fnode dir) fd in
      '(this, waiters, es) ← merge_one e replay waiters dir this;
      '(this, rd, fd, waiters, es') ← merge_loop e replay subs rd fd waiters this;
      Ok (this, rd, fd, waiters, es ++ es')
  end.

Definition merge (e : ienv) (replay : bool) (subs : list sdir) (waiters : list X) (this : sdir)
  : res (sdir * list X * list fr_effect) :=
  match subs with
  | [] => Abort
  | front :: _ =>
      '(this, es1) ← sd_set_dir_auth e (sd_auth front) this;
      '(this, es2) ← prepare_new_fragment replay this;
      '(this, rd, fd, waiters, es3) ← merge_loop e replay subs nest_info_new frag_info_new waiters this;
      let this := if sd_is_auth this && negb replay
                  then set_sd_dir (mark_complete (sd_dir this)) this else this in
      let this := on_fnode (fun n => add_diffs rd fd (account e n)) this in
      '(this, es4) ← init_fragment_pins this;
      Ok (this, waiters, es1 ++ es2 ++ es3 ++ es4)
  end.

(** ** Resynchronising with the inode *)

Definition resync_accounted_fragstat (e : ienv) (s : sdir) : sdir :=
  let pf := get_projected_fnode (sd_dir s) in
  if fi_version (fn_accounted_fragstat pf) =? ie_dirstat_version e then s
  else
    set_sd_dir (edit_projected (fun n =>
      let f := fn_fragstat n in
      let f := mk_frag_info (ie_dirstat_version e) (fi_mtime f) (fi_nfiles f) (fi_nsubdirs f) in
      mk_fnode (fn_version n) (fn_snap_purged_thru n) f f (fn_rstat n) (fn_accounted_rstat n))
      (sd_dir s)) s.

Definition resync_accounted_rstat (e : ienv) (s : sdir) : sdir :=
  let pf := get_projected_fnode (sd_dir s) in
  if ni_version (fn_accounted_rstat pf) =? ie_rstat_version e then s
  else
    set_dirty_old_rstat ∅ (set_sd_dir (edit_projected (fun n =>
      let r := fn_rstat n in
      let r := mk_nest_info (ie_rstat_version e) (ni_rctime r) (ni_rbytes r) (ni_rfiles r) (ni_rsubdirs r)
                 (ni_rsnaprealms r) in
      mk_fnode (fn_version n) (fn_snap_purged_thru n) (fn_fragstat n) (fn_accounted_fragstat n) r r)
      (sd_dir s)) s).

(** ** Import and export *)

Record exported := mk_exported {
  ex_first : Z;
  ex_fnode : fnode_t T;
  ex_dirty_old_rstat : gmap Z (old_rstat_t T);
  ex_committed_version : Z;
  ex_state : Z;
  ex_dir_rep : Z;
  ex_pop_me : list C;
  ex_pop_auth_subtree : list C;
  ex_dir_rep_by : gset Z;
  ex_replica_map : gmap Z Z
}.

Definition encode_export (s : sdir) : res (exported * sdir * list fr_effect) :=
  check (negb (is_projected (sd_dir s))) ;;
  '(s', es) ← sd_get PIN_TEMPEXPORTING s;
  Ok (mk_exported (sd_first s) (sd_fnode s) (dirty_old_rstat s) (committed_version (sd_dir s))
        (co_state (sd_obj s)) (dir_rep s) (pop_me s) (pop_auth_subtree s) (dir_rep_by s)
        (co_replica_map (sd_obj s)), s', es).

Definition finish_export (now : T) (rate : R) (s : sdir) : res (sdir * list fr_effect) :=
  let s := set_sd_obj (set_co_state (Z.land (co_state (sd_obj s)) MASK_STATE_EXPORT_KEPT) (sd_obj s)) s in
  let '(subn, sub) := vec_sub now rate (pop_auth_subtree_nested s) (pop_auth_subtree s) in
  let s := set_pops (vec_zero now (pop_me s)) (pop_nested s) (vec_zero now sub) subn s in
  '(s, es) ← sd_put PIN_TEMPEXPORTING s;
  Ok (set_dirty_old_rstat ∅ s, es).

(** [redate now] is what [::decode(v, now, blp)] does to a load vector; [dft_stale] says that the
    lock of the fragment tree is stable and not in the mix state. *)
Definition decode_import (redate : T -> list C -> list C) (dft_stale : bool) (now : T) (rate : R) (ls : Z)
    (x : exported) (s : sdir) : res (sdir * list fr_effect) :=
  let d := set_commits (ex_committed_version x) (ex_committed_version x)
             (set_projected_version (fn_version (ex_fnode x)) (set_fnode (ex_fnode x) (sd_dir s))) in
  let o := cd_obj d in
  let d := set_cd_obj (set_co_state (Z.lor (Z.land (co_state o) MASK_STATE_IMPORT_KEPT)
                         (Z.land (ex_state x) MASK_STATE_EXPORTED)) o) d in
  '(d, es1) ← (if cd_test d STATE_DIRTY then
                 '(d, es) ← cd_get PIN_DIRTY d;
                 '(d, es') ← _mark_dirty (Some ls) d;
                 Ok (d, es ++ es')
               else Ok (d, []));
  let me := redate now (ex_pop_me x) in
  let '(subn, sub) := vec_add now rate (pop_auth_subtree_nested s) (redate now (ex_pop_auth_subtree x)) in
  let s := mk_sdir (set_cd_obj (set_replicas (ex_replica_map x) (cd_obj d)) d) (frag s) (sd_auth s)
             (ex_first x) (ex_dirty_old_rstat x) (dirty_rstat_inodes s) (ex_dir_rep x) (ex_dir_rep_by x)
             me (pop_nested s) sub subn in
  '(s, es2) ← get_if (is_replicated (sd_obj s)) PIN_REPLICATED s;
  let s := set_sd_obj (set_replica_nonce 0 (sd_obj s)) s in
  let n := sd_fnode s in
  let nest := negb (bool_decide (dirty_old_rstat s = ∅)) ||
              negb (bool_decide (fn_rstat n = fn_accounted_rstat n)) in
  let dirs := negb (bool_decide (fn_fragstat n = fn_accounted_fragstat n)) in
  let dft := sd_test s STATE_DIRTYDFT in
  let es3 := (if nest then [MarkNestlock ls] else []) ++ (if dirs then [MarkFilelock ls] else []) ++
             (if dft && negb dft_stale then [MarkDirfragtreelock ls] else []) in
  let s := if dft && dft_stale then set_sd_obj (state_clear STATE_DIRTYDFT (sd_obj s)) s else s in
  Ok (s, on_frag s es1 ++ es2 ++ es3).

End Fragment.
Arguments sdir X T C F {_}.
Arguments exported T C : clear implicits.
