(* ===== verification/Refragment.v ===== *)
(** * Correctness of splitting and merging fragments

    [split] and [merge] of file Fragment move every dentry to the fragment it belongs to, keep
    counters, pins and statistics exact, and hand over what the inode has not gathered yet. *)

From stdpp Require Import base tactics numbers list gmap fin_maps sorting.
From Stdlib Require Import ZArith Lia Ascii.
From S2P Require Import Prelude Double Stats Subtree LoadVec Keys CacheObject Dentries Freeze Versions Fragment.
Open Scope Z_scope.
Open Scope list_scope.

(** ** Sums over a map *)

Section MapSums.
Context {K : Type} `{EqDecision K} `{Countable K} {V : Type}.
Implicit Types m : gmap K V.

Definition isum (f : V -> Z) m : Z := map_fold (fun _ v acc => f v + acc) 0 m.

Lemma isum_empty f : isum f ∅ = 0.
Proof. apply map_fold_empty. Qed.

Lemma isum_insert f m k v : m !! k = None -> isum f (<[k := v]> m) = f v + isum f m.
Proof. intros Hk. unfold isum. rewrite map_fold_insert_L; [done| |done]. intros. lia. Qed.

Lemma isum_delete f m k v : m !! k = Some v -> isum f m = f v + isum f (delete k m).
Proof. intros Hk. rewrite <- (insert_delete_id m k v Hk) at 1. apply isum_insert, lookup_delete_eq. Qed.

Lemma isum_nonneg f m : (forall k v, m !! k = Some v -> 0 <= f v) -> 0 <= isum f m.
Proof.
  induction m as [|k v m Hk IH] using map_ind; intros Hf; [by rewrite isum_empty|].
  rewrite isum_insert by done. pose proof (Hf k v (lookup_insert_eq _ _ _)).
  enough (0 <= isum f m) by lia. apply IH. intros k' v' E. apply (Hf k'). rewrite lookup_insert_ne; [done|congruence].
Qed.

Lemma isum_ext f g m : (forall k v, m !! k = Some v -> f v = g v) -> isum f m = isum g m.
Proof.
  induction m as [|k v m Hk IH] using map_ind; intros Hf; [by rewrite !isum_empty|].
  rewrite !isum_insert by done. rewrite (Hf k v) by apply lookup_insert_eq. rewrite IH; [done|].
  intros k' v' E. apply (Hf k'). rewrite lookup_insert_ne; [done|congruence].
Qed.

Lemma isum_add f g m : isum (fun v => f v + g v) m = isum f m + isum g m.
Proof.
  induction m as [|k v m Hk IH] using map_ind; [by rewrite !isum_empty|].
  rewrite !isum_insert by done. lia.
Qed.

Lemma isum_list f m : isum f m = foldr Z.add 0 (map (fun p => f (snd p)) (map_to_list m)).
Proof.
  unfold isum. rewrite map_fold_foldr. induction (map_to_list m) as [|[k v] l IH]; [done|].
  simpl. by rewrite IH.
Qed.

End MapSums.

(** ** Pins *)

(** Only the pins of [ks] are held. *)
Lemma pin_sum_zero m : (forall k n, m !! k = Some n -> n = 0) -> pin_sum m = 0.
Proof.
  induction m as [|k n m Hk IH] using map_ind; intros Hz; [done|].
  rewrite pin_sum_insert_fresh by done. rewrite (Hz k n) by apply lookup_insert_eq.
  rewrite IH; [done|]. intros k' n' E. apply (Hz k'). rewrite lookup_insert_ne; [done|congruence].
Qed.

Lemma pin_sum_support ks (m : gmap Z Z) :
  NoDup ks -> (forall k, k ∉ ks -> default 0 (m !! k) = 0) ->
  pin_sum m = foldr Z.add 0 (map (fun k => default 0 (m !! k)) ks).
Proof.
  intros Hnd. revert m. induction Hnd as [|k ks Hk Hnd IH]; intros m Hz; simpl.
  - apply pin_sum_zero. intros k n E. specialize (Hz k). rewrite E in Hz. apply Hz. by apply not_elem_of_nil.
  - rewrite (pin_sum_delete m k). f_equal. rewrite IH.
    + f_equal. apply map_ext_in. intros k' Hk'%list_elem_of_In. rewrite lookup_delete_ne; [done|congruence].
    + intros k' Hk'. destruct (decide (k' = k)) as [->|N]; [by rewrite lookup_delete_eq|].
      rewrite lookup_delete_ne by done. apply Hz. intros [?|?]%elem_of_cons; done.
Qed.

Section Steal.
Context {X T C R D F : Type} `{CephConst} `{UTime T} `{Bloom} `{CDouble D} `{DecayCounter C T R D}
  `{FragSplit F} `{DirentTypes}.
Abbreviation sdir := (sdir X T C F).
Abbreviation dentry := (dentry X).
Implicit Types e : ienv T.
Implicit Types s : sdir.
Implicit Types dn : dentry.

Definition pins_of e dn : Z := let '(own, nested, _) := ie_pins e (dn_key dn) in own + nested.
Definition dirpins_of e dn : Z := snd (ie_pins e (dn_key dn)).

(** The auth pins a dentry reports are counts, and [assert(dap <= ap)] holds of them. *)
Definition pins_sane e dn : Prop :=
  let '(own, nested, d) := ie_pins e (dn_key dn) in 0 <= own /\ 0 <= nested /\ 0 <= d <= own + nested.

Definition keyed (m : gmap dentry_key_t dentry) : Prop := forall k dn, m !! k = Some dn -> dn_key dn = k.

(** What holds of a fragment at every step: its dentries are under their keys, it pins itself once
    exactly while it has any, holds a bounded number of other pins, its nested auth pins are those
    of its dentries, and it is not about to freeze. *)
Record frag_ok e s : Prop := {
  fo_keyed : keyed (sd_items s);
  fo_refs : refs_ok (sd_obj s);
  fo_child : pins (sd_obj s) PIN_CHILD = (if decide (sd_items s = ∅) then 0 else 1);
  fo_few : co_ref (sd_obj s) <= 50 + pins (sd_obj s) PIN_CHILD;
  fo_nested : nested_auth_pins (sd_fdir s) = isum (pins_of e) (sd_items s);
  fo_dirpins : dir_auth_pins (sd_fdir s) = isum (dirpins_of e) (sd_items s);
  fo_sane : forall k dn, sd_items s !! k = Some dn -> pins_sane e dn;
  fo_freezing_dir : is_freezing_dir (sd_fdir s) = false;
  fo_freezing_tree : is_freezing_tree_root (sd_fdir s) = false
}.

(** ** What a dentry counts for *)

Definition live dn : bool := negb (is_null dn) && is_head dn.
Definition ent_is_dir e dn : bool :=
  match dn_linkage dn with
  | LNull => false
  | LPrimary ino => kid_is_dir (ie_kid e ino)
  | LRemote _ d_type _ => d_type =? DT_DIR
  end.
Definition file_of e dn : Z := if live dn && negb (ent_is_dir e dn) then 1 else 0.
Definition subdir_of e dn : Z := if live dn && ent_is_dir e dn then 1 else 0.
Definition kid_of e (g : nest_info_t T -> Z) dn : Z :=
  match dn_linkage dn with
  | LPrimary ino => if is_head dn then g (kid_projected_accounted (ie_kid e ino)) else 0
  | _ => 0
  end.
Definition dirty_of dn : Z := bool_Z (is_dirty (dn_obj dn)).

(** One of the four counters of a [nest_info_t]. *)
Record nest_field (g : nest_info_t T -> Z) : Prop := {
  nf_zero : g nest_info_new = 0;
  nf_add : forall a b, g (nest_add a b 1) = s64 (g a + g b);
  nf_count : forall a r, g (count_rstat a r) = s64 (g r + g a);
  nf_delta : forall n a b, g (nest_add_delta n a b) = s64 (g n + s64 (g a - g b));
  nf_account : forall e n, g (fn_rstat (account e n)) = g (fn_rstat n)
}.

Lemma nest_field_rbytes : nest_field ni_rbytes.
Proof. split; try done. intros a b. unfold nest_add; simpl. solve_s64. Qed.
Lemma nest_field_rfiles : nest_field ni_rfiles.
Proof. split; try done. intros a b. unfold nest_add; simpl. solve_s64. Qed.
Lemma nest_field_rsubdirs : nest_field ni_rsubdirs.
Proof. split; try done. intros a b. unfold nest_add; simpl. solve_s64. Qed.
Lemma nest_field_rsnaprealms : nest_field ni_rsnaprealms.
Proof. split; try done. intros a b. unfold nest_add; simpl. solve_s64. Qed.

(** The counters and the statistics of a new fragment are those of its dentries. *)
Record counted e s : Prop := {
  ct_count : forall null head, counter null head (sd_dfrag s) = class_size null head (sd_items s);
  ct_files : fi_nfiles (fn_fragstat (sd_fnode s)) = s64 (isum (file_of e) (sd_items s));
  ct_subdirs : fi_nsubdirs (fn_fragstat (sd_fnode s)) = s64 (isum (subdir_of e) (sd_items s));
  ct_rstat : forall g, nest_field g -> g (fn_rstat (sd_fnode s)) = s64 (isum (kid_of e g) (sd_items s));
  ct_dirty : num_dirty (sd_dir s) = s32 (isum dirty_of (sd_items s))
}.

(** ** The two sides of [steal_dentry] *)

Definition renest (n m : Z) s : sdir :=
  let x := sd_fdir s in
  set_sd_dir (set_cd_fdir (set_nested (nested_auth_pins x + n) (dir_auth_pins x + m) x) (sd_dir s)) s.
Definition with_items (m : gmap dentry_key_t dentry) s : sdir :=
  set_sd_dfrag (set_items m (sd_dfrag s)) s.
Definition repin_sd (n pin : Z) s : sdir := set_sd_obj (repin n pin (sd_obj s)) s.
Definition unlist_dirty e dn s : sdir :=
  match dirty_ino e dn with
  | Some ino => if live dn then
      set_dirty_rstat_inodes (filter (fun i => i <> ino) (dirty_rstat_inodes s)) s else s
  | None => s
  end.
Definition list_dirty e dn s : sdir :=
  match dirty_ino e dn with
  | Some ino => if live dn then
      set_dirty_rstat_inodes (filter (fun i => i <> ino) (dirty_rstat_inodes s) ++ [ino]) s else s
  | None => s
  end.

(** The map without, or with, a dentry, and the pin for having dentries at all. *)
Definition drop_item k s : sdir :=
  let m := delete k (sd_items s) in
  if decide (m = ∅) then repin_sd (-1) PIN_CHILD (with_items m s) else with_items m s.
Definition take_item dn s : sdir :=
  let m := sd_items s in
  let s := with_items (<[dn_key dn := dn]> m) s in
  if decide (m = ∅) then repin_sd 1 PIN_CHILD s else s.

Definition robbed e dn s : sdir :=
  renest (- pins_of e dn) (- dirpins_of e dn) (unlist_dirty e dn (drop_item (dn_key dn) s)).

Definition stolen e dn s : sdir :=
  let s := take_item dn s in
  let s := set_sd_dfrag (adjust_count (is_null dn) (is_head dn) 1 (sd_dfrag s)) s in
  let s := if live dn then set_sd_fnode (count_stats e dn (sd_fnode s)) s else s in
  let s := renest (pins_of e dn) (dirpins_of e dn) (list_dirty e dn s) in
  if is_dirty (dn_obj dn) then set_sd_dir (inc_num_dirty (sd_dir s)) s else s.

Lemma renest_0 s : renest 0 0 s = s.
Proof.
  destruct s as [[[d ap nap dap root] ? ? ? ? ? ? ? ? ?] ? ? ? ? ? ? ? ? ? ? ?].
  unfold renest, set_sd_dir, set_cd_fdir, set_nested; simpl. by rewrite !Z.add_0_r.
Qed.

Lemma sd_get_ok pin s :
  refs_ok (sd_obj s) -> co_ref (sd_obj s) < 2 ^ 31 - 1 ->
  exists es, sd_get pin s = Ok (repin_sd 1 pin s, es).
Proof.
  intros R' B. unfold sd_get, lift_cd, cd_get, on_fdir, fd_get, dir_get.
  change (df_obj (fd_dir (cd_fdir (sd_dir s)))) with (sd_obj s). rewrite get_ok by done. simpl. eauto.
Qed.

Lemma sd_put_ok pin s :
  refs_ok (sd_obj s) -> 0 < pins (sd_obj s) pin ->
  exists es, sd_put pin s = Ok (repin_sd (-1) pin s, es).
Proof.
  intros R' B. unfold sd_put, lift_cd, cd_put, on_fdir, fd_put, dir_put.
  change (df_obj (fd_dir (cd_fdir (sd_dir s)))) with (sd_obj s). rewrite put_ok by done. simpl. eauto.
Qed.

(** Without a freeze under way, the nested auth pins move and nothing else happens. *)
Lemma maybe_finish_freeze_idle unpin fe (x : fdir X) :
  is_freezing_dir x = false -> is_freezing_tree_root x = false ->
  maybe_finish_freeze unpin fe x = Ok (x, []).
Proof.
  intros E1 E2. unfold is_freezing_dir, is_freezing_tree_root in *. unfold maybe_finish_freeze.
  destruct (_ || _); [done|]. rewrite E1. simpl. rewrite E2. by destruct (negb _).
Qed.

Lemma adjust_nested_idle n m fe (x : fdir X) :
  is_freezing_dir x = false -> is_freezing_tree_root x = false -> n <> 0 ->
  0 <= nested_auth_pins x + n < 2 ^ 31 -> 0 <= dir_auth_pins x + m < 2 ^ 31 ->
  exists es, adjust_nested_auth_pins n m fe x =
    Ok (set_nested (nested_auth_pins x + n) (dir_auth_pins x + m) x, es).
Proof.
  intros E1 E2 N B1 B2. unfold adjust_nested_auth_pins.
  rewrite (s32_id (nested_auth_pins x + n)), (s32_id (dir_auth_pins x + m)) by (unfold in_s32; lia).
  rewrite check_true by lia. rewrite check_true by (simpl; lia). rewrite check_true by (simpl; lia).
  rewrite maybe_finish_freeze_idle by done. simpl. eauto.
Qed.


Lemma sane_bounds e dn : pins_sane e dn -> 0 <= dirpins_of e dn <= pins_of e dn.
Proof. unfold pins_sane, dirpins_of, pins_of. destruct (ie_pins e (dn_key dn)) as [[? ?] ?]. simpl. lia. Qed.

Lemma move_pins_ok e dn (this old : sdir) :
  pins_sane e dn ->
  is_freezing_dir (sd_fdir this) = false -> is_freezing_tree_root (sd_fdir this) = false ->
  is_freezing_dir (sd_fdir old) = false -> is_freezing_tree_root (sd_fdir old) = false ->
  0 <= nested_auth_pins (sd_fdir this) -> nested_auth_pins (sd_fdir this) + pins_of e dn < 2 ^ 31 ->
  0 <= dir_auth_pins (sd_fdir this) <= nested_auth_pins (sd_fdir this) ->
  pins_of e dn <= nested_auth_pins (sd_fdir old) < 2 ^ 31 ->
  dirpins_of e dn <= dir_auth_pins (sd_fdir old) < 2 ^ 31 ->
  exists es, move_pins e dn this old =
    Ok (renest (pins_of e dn) (dirpins_of e dn) this,
        renest (- pins_of e dn) (- dirpins_of e dn) old, es).
Proof.
  intros Hs F1 F2 F3 F4 B1 B2 B3 B4 B5. pose proof (sane_bounds _ _ Hs) as Hb.
  unfold move_pins. unfold pins_sane in Hs. unfold pins_of, dirpins_of in *.
  destruct (ie_pins e (dn_key dn)) as [[own nested] d]. simpl in *.
  destruct ((own =? 0) && (nested =? 0)) eqn:E.
  { assert (own + nested = 0) as -> by lia. assert (d = 0) as -> by lia.
    change (- 0) with 0. rewrite !renest_0. eauto. }
  rewrite (s32_id (own + nested)), (s32_id (- (own + nested))), (s32_id (- d)) by (unfold in_s32; lia).
  rewrite check_true by lia.
  destruct (adjust_nested_idle (own + nested) d (ie_fenv e) (sd_fdir this)) as [es1 ->]; [done|done|lia..|].
  destruct (adjust_nested_idle (- (own + nested)) (- d) (ie_fenv e) (sd_fdir old)) as [es2 E2]; [done|done|lia..|].
  simpl. rewrite E2. simpl. unfold renest. eauto.
Qed.

Lemma num_any_counted e s : counted e s -> Z.of_nat (size (sd_items s)) < 2 ^ 32 ->
  get_num_any (sd_dfrag s) = Z.of_nat (size (sd_items s)).
Proof.
  intros Hc Hs. unfold get_num_any. pose proof (class_sizes (sd_items s)) as Hsum.
  rewrite <- !(ct_count _ _ Hc) in Hsum. simpl in Hsum. rewrite u32_id; [lia|]. unfold in_u32. lia.
Qed.

(** [move_dirty_rstat] is the two list updates. *)
Lemma move_dirty_eq e dn (this old : sdir) :
  live dn = true -> move_dirty_rstat e dn this old = (list_dirty e dn this, unlist_dirty e dn old).
Proof. intros L. unfold move_dirty_rstat, list_dirty, unlist_dirty. rewrite L. by destruct (dirty_ino e dn). Qed.

Lemma list_dirty_frame e dn s :
  sd_dir (list_dirty e dn s) = sd_dir s /\ frag (list_dirty e dn s) = frag s /\
  sd_auth (list_dirty e dn s) = sd_auth s.
Proof. unfold list_dirty. destruct (dirty_ino e dn); [|done]. by destruct (live dn). Qed.

Lemma unlist_dirty_frame e dn s :
  sd_dir (unlist_dirty e dn s) = sd_dir s /\ frag (unlist_dirty e dn s) = frag s /\
  sd_auth (unlist_dirty e dn s) = sd_auth s.
Proof. unfold unlist_dirty. destruct (dirty_ino e dn); [|done]. by destruct (live dn). Qed.

Lemma dirty_dead e dn s : live dn = false -> list_dirty e dn s = s /\ unlist_dirty e dn s = s.
Proof. intros L. unfold list_dirty, unlist_dirty. rewrite L. by destruct (dirty_ino e dn). Qed.

Lemma nested_nonneg e s : frag_ok e s -> 0 <= nested_auth_pins (sd_fdir s).
Proof.
  intros O. rewrite (fo_nested _ _ O). apply isum_nonneg. intros k dn Hk.
  pose proof (sane_bounds _ _ (fo_sane _ _ O k dn Hk)). lia.
Qed.

Lemma isum_le {K V} `{EqDecision K} `{Countable K} (f g : V -> Z) (m : gmap K V) :
  (forall k v, m !! k = Some v -> f v <= g v) -> isum f m <= isum g m.
Proof.
  intros Hle. enough (0 <= isum (fun v => g v + - f v) m) as Hn.
  { rewrite isum_add in Hn. assert (isum (fun v => - f v) m = - isum f m) as E; [|lia].
    clear. induction m as [|k v m Hk IH] using map_ind; [done|]. rewrite !isum_insert by done. lia. }
  apply isum_nonneg. intros k v Hk. specialize (Hle k v Hk). lia.
Qed.

Lemma dirpins_bounds e s : frag_ok e s ->
  0 <= dir_auth_pins (sd_fdir s) <= nested_auth_pins (sd_fdir s).
Proof.
  intros O. rewrite (fo_nested _ _ O), (fo_dirpins _ _ O). split.
  - apply isum_nonneg. intros k dn Hk. pose proof (sane_bounds _ _ (fo_sane _ _ O k dn Hk)). lia.
  - apply isum_le. intros k dn Hk. pose proof (sane_bounds _ _ (fo_sane _ _ O k dn Hk)). lia.
Qed.

(** A dentry of a fragment brings no more pins than the fragment has. *)
Lemma pins_of_le e s k dn : frag_ok e s -> sd_items s !! k = Some dn ->
  pins_of e dn <= nested_auth_pins (sd_fdir s) /\ dirpins_of e dn <= dir_auth_pins (sd_fdir s).
Proof.
  intros O Hk. rewrite (fo_nested _ _ O), (fo_dirpins _ _ O), !(isum_delete _ _ _ _ Hk).
  assert (forall k' v, delete k (sd_items s) !! k' = Some v -> 0 <= dirpins_of e v <= pins_of e v) as Hn.
  { intros k' v [_ Hv]%lookup_delete_Some. apply sane_bounds, (fo_sane _ _ O _ _ Hv). }
  split.
  - enough (0 <= isum (pins_of e) (delete k (sd_items s))) by lia.
    apply isum_nonneg. intros k' v Hv. specialize (Hn k' v Hv). lia.
  - enough (0 <= isum (dirpins_of e) (delete k (sd_items s))) by lia.
    apply isum_nonneg. intros k' v Hv. specialize (Hn k' v Hv). lia.
Qed.

Lemma frag_few e s : frag_ok e s -> co_ref (sd_obj s) <= 51.
Proof. intros O. pose proof (fo_few _ _ O) as Hf. rewrite (fo_child _ _ O) in Hf. case_decide; lia. Qed.

Lemma drop_item_ok e s k dn :
  frag_ok e s -> sd_items s !! k = Some dn ->
  let s0 := with_items (delete k (sd_items s)) s in
  exists es, put_if (bool_decide (sd_items s0 = ∅)) PIN_CHILD s0 = Ok (drop_item k s, es).
Proof.
  intros O Hk s0. change (sd_items s0) with (delete k (sd_items s)). unfold put_if, drop_item. fold s0.
  case_bool_decide as E; case_decide; try done; [|eauto].
  apply sd_put_ok; [apply (fo_refs _ _ O)|]. change (0 < pins (sd_obj s) PIN_CHILD).
  rewrite (fo_child _ _ O), decide_False; [lia|]. intros Hi. by rewrite Hi in Hk.
Qed.

Lemma take_item_ok e s dn :
  frag_ok e s -> counted e s -> Z.of_nat (size (sd_items s)) < 2 ^ 32 ->
  let s0 := with_items (<[dn_key dn := dn]> (sd_items s)) s in
  exists es, get_if (get_num_any (sd_dfrag s0) =? 0) PIN_CHILD s0 = Ok (take_item dn s, es).
Proof.
  intros O Hc Hz s0. change (get_num_any (sd_dfrag s0)) with (get_num_any (sd_dfrag s)).
  rewrite (num_any_counted e) by done. unfold take_item, get_if. fold s0.
  destruct (Z.eqb_spec (Z.of_nat (size (sd_items s))) 0) as [E|E].
  - rewrite decide_True by by apply size_zero. apply sd_get_ok; [apply (fo_refs _ _ O)|].
    change (co_ref (sd_obj s) < 2 ^ 31 - 1). pose proof (frag_few _ _ O). lia.
  - rewrite decide_False; [eauto|]. intros Hi. apply E. by rewrite Hi.
Qed.

(** Auth pins and state bits, which the two do not touch. *)
Definition same_pins (s s' : sdir) : Prop :=
  nested_auth_pins (sd_fdir s') = nested_auth_pins (sd_fdir s) /\
  dir_auth_pins (sd_fdir s') = dir_auth_pins (sd_fdir s) /\
  co_state (sd_obj s') = co_state (sd_obj s).

Lemma same_pins_freezing s s' : same_pins s s' ->
  is_freezing_dir (sd_fdir s') = is_freezing_dir (sd_fdir s) /\
  is_freezing_tree_root (sd_fdir s') = is_freezing_tree_root (sd_fdir s).
Proof.
  intros (_ & _ & E). unfold is_freezing_dir, is_freezing_tree_root, fd_test, state_test.
  by change (fd_obj (sd_fdir s')) with (sd_obj s'); rewrite E.
Qed.

Lemma drop_item_same e dn k s : same_pins s (unlist_dirty e dn (drop_item k s)).
Proof.
  unfold same_pins, sd_fdir, sd_obj. rewrite (proj1 (unlist_dirty_frame e dn _)).
  unfold drop_item. by case_decide.
Qed.

Definition counted_in e dn s : sdir :=
  let s := take_item dn s in
  let s := set_sd_dfrag (adjust_count (is_null dn) (is_head dn) 1 (sd_dfrag s)) s in
  list_dirty e dn (if live dn then set_sd_fnode (count_stats e dn (sd_fnode s)) s else s).

Lemma counted_in_same e dn s : same_pins s (counted_in e dn s).
Proof.
  unfold same_pins, sd_fdir, sd_obj, counted_in. rewrite (proj1 (list_dirty_frame e dn _)).
  unfold take_item. case_decide; by destruct (live dn).
Qed.

Lemma steal_dentry_eq e dn (this old : sdir) :
  frag_ok e this -> frag_ok e old -> counted e this ->
  sd_items old !! dn_key dn = Some dn -> pins_sane e dn ->
  nested_auth_pins (sd_fdir this) + nested_auth_pins (sd_fdir old) < 2 ^ 31 ->
  Z.of_nat (size (sd_items this)) < 2 ^ 32 ->
  exists es, steal_dentry e dn this old = Ok (stolen e dn this, robbed e dn old, es).
Proof.
  intros O1 O2 Hc Hk Hs Hn Hz. pose proof (sane_bounds _ _ Hs). pose proof (pins_of_le _ _ _ _ O2 Hk).
  pose proof (nested_nonneg _ _ O1). pose proof (dirpins_bounds _ _ O1). pose proof (dirpins_bounds _ _ O2).
  destruct (drop_item_ok e old _ _ O2 Hk) as [es1 E1]. destruct (take_item_ok e this dn O1 Hc Hz) as [es2 E2].
  unfold with_items in E1, E2. cbn zeta in E1, E2. unfold steal_dentry. rewrite E1. cbn [mbind res_bind].
  rewrite E2. cbn [mbind res_bind].
  change (negb (is_null dn) && is_head dn) with (live dn).
  assert (forall t, (if live dn then move_dirty_rstat e dn (set_sd_fnode (count_stats e dn (sd_fnode t)) t)
      (drop_item (dn_key dn) old) else (t, drop_item (dn_key dn) old)) =
    (list_dirty e dn (if live dn then set_sd_fnode (count_stats e dn (sd_fnode t)) t else t),
     unlist_dirty e dn (drop_item (dn_key dn) old))) as ->.
  { intros t. destruct (live dn) eqn:L; [by apply move_dirty_eq|]. by rewrite !(proj1 (dirty_dead _ _ _ L)),
      !(proj2 (dirty_dead _ _ _ L)). }
  fold (counted_in e dn this). pose proof (counted_in_same e dn this) as S1.
  pose proof (drop_item_same e dn (dn_key dn) old) as S2.
  destruct (same_pins_freezing _ _ S1) as [F1 F2], (same_pins_freezing _ _ S2) as [F3 F4].
  destruct S1 as (N1 & N2 & _), S2 as (N3 & N4 & _).
  edestruct (move_pins_ok e dn (counted_in e dn this) (unlist_dirty e dn (drop_item (dn_key dn) old)))
    as [es3 E3]; rewrite ?F1, ?F2, ?F3, ?F4, ?N1, ?N2, ?N3, ?N4;
    [done|apply O1|apply O1|apply O2|apply O2|lia..|].
  rewrite E3. simpl. eauto.
Qed.

(** ** What moving dentries leaves alone *)

Record moved (s s' : sdir) : Prop := {
  mv_frag : frag s' = frag s;
  mv_auth : sd_auth s' = sd_auth s;
  mv_state : co_state (sd_obj s') = co_state (sd_obj s);
  mv_replicas : co_replica_map (sd_obj s') = co_replica_map (sd_obj s);
  mv_waiting : co_waiting (sd_obj s') = co_waiting (sd_obj s);
  mv_dn_waiting : waiting_on_dentry (sd_dfrag s') = waiting_on_dentry (sd_dfrag s);
  mv_auth_pins : auth_pins (sd_fdir s') = auth_pins (sd_fdir s);
  mv_root : fd_subtree_root (sd_fdir s') = fd_subtree_root (sd_fdir s);
  mv_version : fn_version (sd_fnode s') = fn_version (sd_fnode s);
  mv_projected : projected_fnode (sd_dir s') = projected_fnode (sd_dir s);
  mv_mtime : fi_mtime (fn_fragstat (sd_fnode s')) = fi_mtime (fn_fragstat (sd_fnode s));
  mv_pins : forall p, p <> PIN_CHILD -> pins (sd_obj s') p = pins (sd_obj s) p
}.

#[local] Instance moved_preorder : PreOrder moved.
Proof.
  split; [by intros s|]. intros s1 s2 s3 [] []. split; try congruence.
  intros p Hp. by rewrite mv_pins1, mv_pins0.
Qed.

Lemma moved_test s s' mask : moved s s' -> sd_test s' mask = sd_test s mask.
Proof. intros M. unfold sd_test, cd_test, state_test. by change (cd_obj (sd_dir s')) with (sd_obj s'); rewrite (mv_state _ _ M). Qed.

Lemma moved_is_auth s s' : moved s s' -> sd_is_auth s' = sd_is_auth s.
Proof. apply (moved_test s s' STATE_AUTH). Qed.

Lemma robbed_dir e dn s :
  sd_dir (robbed e dn s) =
    sd_dir (renest (- pins_of e dn) (- dirpins_of e dn) (drop_item (dn_key dn) s)).
Proof.
  unfold robbed, renest, sd_fdir. cbn [sd_dir set_sd_dir]. by rewrite (proj1 (unlist_dirty_frame e dn _)).
Qed.

Lemma robbed_items e dn s : sd_items (robbed e dn s) = delete (dn_key dn) (sd_items s).
Proof.
  unfold sd_items at 1, sd_dfrag. rewrite robbed_dir. unfold drop_item. by case_decide.
Qed.

Lemma robbed_obj e dn s : sd_obj (robbed e dn s) =
  if decide (delete (dn_key dn) (sd_items s) = ∅) then repin (-1) PIN_CHILD (sd_obj s) else sd_obj s.
Proof. unfold sd_obj at 1. rewrite robbed_dir. unfold drop_item. by case_decide. Qed.

Lemma robbed_nested e dn s :
  nested_auth_pins (sd_fdir (robbed e dn s)) = nested_auth_pins (sd_fdir s) - pins_of e dn /\
  dir_auth_pins (sd_fdir (robbed e dn s)) = dir_auth_pins (sd_fdir s) - dirpins_of e dn.
Proof. unfold sd_fdir at 1 3. rewrite robbed_dir. unfold drop_item. by case_decide. Qed.

Lemma robbed_fnode e dn s : sd_fnode (robbed e dn s) = sd_fnode s.
Proof. unfold sd_fnode. rewrite robbed_dir. unfold drop_item. by case_decide. Qed.

Lemma robbed_moved e dn s : moved s (robbed e dn s).
Proof.
  split; unfold sd_dfrag, sd_fdir, sd_fnode; rewrite ?robbed_obj, ?robbed_dir;
    try (unfold drop_item; case_decide; done).
  - unfold robbed, renest. cbn [frag set_sd_dir]. rewrite (proj1 (proj2 (unlist_dirty_frame e dn _))).
    unfold drop_item. by case_decide.
  - unfold robbed, renest. cbn [sd_auth set_sd_dir]. rewrite (proj2 (proj2 (unlist_dirty_frame e dn _))).
    unfold drop_item. by case_decide.
  - intros p Hp. case_decide; [|done]. by rewrite pins_repin, decide_False.
Qed.

Lemma robbed_ok e dn s : frag_ok e s -> sd_items s !! dn_key dn = Some dn -> frag_ok e (robbed e dn s).
Proof.
  intros O Hk. pose proof (robbed_moved e dn s) as M. destruct (robbed_nested e dn s) as [N1 N2].
  assert (0 < pins (sd_obj s) PIN_CHILD) as Hp.
  { rewrite (fo_child _ _ O), decide_False; [lia|]. intros Hi. by rewrite Hi in Hk. }
  pose proof (pins_le_sum _ PIN_CHILD (fo_refs _ _ O)). pose proof (fo_few _ _ O). pose proof (frag_few _ _ O).
  split; rewrite ?robbed_items, ?robbed_obj, ?N1, ?N2.
  - intros k x [_ Hx]%lookup_delete_Some. by apply (fo_keyed _ _ O).
  - case_decide; [|apply O]. apply repin_ok; [apply O|lia|lia].
  - case_decide; [|by rewrite (fo_child _ _ O), decide_False by (intros Hi; by rewrite Hi in Hk)].
    rewrite pins_repin, decide_True, (fo_child _ _ O), decide_False; [lia| |done].
    intros Hi. by rewrite Hi in Hk.
  - case_decide; [rewrite pins_repin, decide_True by done; simpl|]; lia.
  - rewrite (fo_nested _ _ O), (isum_delete _ _ _ _ Hk). lia.
  - rewrite (fo_dirpins _ _ O), (isum_delete _ _ _ _ Hk). lia.
  - intros k x [_ Hx]%lookup_delete_Some. by apply (fo_sane _ _ O k).
  - unfold is_freezing_dir, fd_test. change (sd_test (robbed e dn s) STATE_FREEZINGDIR = false).
    rewrite (moved_test _ _ _ M). apply (fo_freezing_dir _ _ O).
  - change (sd_test (robbed e dn s) STATE_FREEZINGTREE = false).
    rewrite (moved_test _ _ _ M). apply (fo_freezing_tree _ _ O).
Qed.

(** the fragment that received the dentry, before the list of dirty inodes and the count of dirty
    dentries *)
Definition received e dn s : sdir :=
  let s := take_item dn s in
  let s := set_sd_dfrag (adjust_count (is_null dn) (is_head dn) 1 (sd_dfrag s)) s in
  renest (pins_of e dn) (dirpins_of e dn)
    (if live dn then set_sd_fnode (count_stats e dn (sd_fnode s)) s else s).

Lemma stolen_dir e dn s :
  sd_dir (stolen e dn s) =
    if is_dirty (dn_obj dn) then inc_num_dirty (sd_dir (received e dn s)) else sd_dir (received e dn s).
Proof.
  unfold stolen, received. cbn zeta. set (t := if live dn then _ else _).
  assert (sd_dir (renest (pins_of e dn) (dirpins_of e dn) (list_dirty e dn t)) =
    sd_dir (renest (pins_of e dn) (dirpins_of e dn) t)) as E.
  { unfold renest, sd_fdir. cbn [sd_dir set_sd_dir]. by rewrite (proj1 (list_dirty_frame e dn _)). }
  destruct (is_dirty (dn_obj dn)); [|done]. cbn [sd_dir set_sd_dir]. by rewrite E.
Qed.

Ltac open_stolen e dn s :=
  unfold sd_items, sd_obj, sd_fdir, sd_fnode, sd_dfrag; rewrite ?(stolen_dir e dn s);
  destruct (is_dirty (dn_obj dn)); unfold received, take_item, sd_items, sd_dfrag;
  destruct (live dn); case_decide.

Lemma stolen_items e dn s : sd_items (stolen e dn s) = <[dn_key dn := dn]> (sd_items s).
Proof. unfold sd_items at 1, sd_dfrag. rewrite stolen_dir. open_stolen e dn s; done. Qed.

Lemma stolen_obj e dn s : sd_obj (stolen e dn s) =
  if decide (sd_items s = ∅) then repin 1 PIN_CHILD (sd_obj s) else sd_obj s.
Proof. unfold sd_obj at 1. rewrite stolen_dir. open_stolen e dn s; done. Qed.

Lemma stolen_nested e dn s :
  nested_auth_pins (sd_fdir (stolen e dn s)) = nested_auth_pins (sd_fdir s) + pins_of e dn /\
  dir_auth_pins (sd_fdir (stolen e dn s)) = dir_auth_pins (sd_fdir s) + dirpins_of e dn.
Proof. unfold sd_fdir at 1 3. rewrite stolen_dir. open_stolen e dn s; done. Qed.

Lemma stolen_fnode e dn s :
  sd_fnode (stolen e dn s) = if live dn then count_stats e dn (sd_fnode s) else sd_fnode s.
Proof. unfold sd_fnode at 1. rewrite stolen_dir. open_stolen e dn s; done. Qed.

Lemma stolen_counter e dn s null head :
  counter null head (sd_dfrag (stolen e dn s)) =
    counter null head (adjust_count (is_null dn) (is_head dn) 1 (sd_dfrag s)).
Proof. unfold sd_dfrag at 1. rewrite stolen_dir. open_stolen e dn s; by destruct null, head. Qed.

Lemma stolen_dirty e dn s :
  num_dirty (sd_dir (stolen e dn s)) =
    if is_dirty (dn_obj dn) then s32 (num_dirty (sd_dir s) + 1) else num_dirty (sd_dir s).
Proof. open_stolen e dn s; done. Qed.

Lemma stolen_moved e dn s : moved s (stolen e dn s).
Proof.
  split; rewrite ?stolen_obj, ?stolen_fnode; try (case_decide; done).
  - unfold stolen. assert (forall t, frag (if is_dirty (dn_obj dn) then set_sd_dir (inc_num_dirty (sd_dir t)) t else t) = frag t) as ->
      by (intros; by destruct (is_dirty _)).
    cbn [frag renest set_sd_dir]. rewrite (proj1 (proj2 (list_dirty_frame e dn _))).
    unfold take_item. destruct (live dn); by case_decide.
  - unfold stolen. assert (forall t, sd_auth (if is_dirty (dn_obj dn) then set_sd_dir (inc_num_dirty (sd_dir t)) t else t) = sd_auth t) as ->
      by (intros; by destruct (is_dirty _)).
    cbn [sd_auth renest set_sd_dir]. rewrite (proj2 (proj2 (list_dirty_frame e dn _))).
    unfold take_item. destruct (live dn); by case_decide.
  - open_stolen e dn s; done.
  - open_stolen e dn s; done.
  - open_stolen e dn s; done.
  - destruct (live dn); [|done]. unfold count_stats. by destruct (dn_linkage dn).
  - open_stolen e dn s; done.
  - destruct (live dn); [|done]. unfold count_stats, count_entry.
    destruct (dn_linkage dn) as [|i|i t o]; [done| |]; simpl; by case_match.
  - intros p Hp. case_decide; [|done]. by rewrite pins_repin, decide_False.
Qed.

Lemma stolen_ok e dn s :
  frag_ok e s -> sd_items s !! dn_key dn = None -> pins_sane e dn -> frag_ok e (stolen e dn s).
Proof.
  intros O Hk Hs. pose proof (frag_few _ _ O) as B. pose proof (stolen_moved e dn s) as M. destruct (stolen_nested e dn s) as [N1 N2].
  pose proof (pins_le_sum _ PIN_CHILD (fo_refs _ _ O)).
  split; rewrite ?stolen_items, ?stolen_obj, ?N1, ?N2.
  - intros k x. destruct (decide (k = dn_key dn)) as [->|N]; [rewrite lookup_insert_eq; by intros [= <-]|].
    rewrite lookup_insert_ne by done. apply O.
  - case_decide; [|apply O]. apply repin_ok; [apply O|lia|lia].
  - rewrite (decide_False (P := <[_ := _]> _ = _)) by apply insert_non_empty. case_decide.
    + rewrite pins_repin, decide_True, (fo_child _ _ O), decide_True by done. lia.
    + by rewrite (fo_child _ _ O), decide_False.
  - pose proof (fo_few _ _ O). case_decide; [rewrite pins_repin, decide_True by done; simpl|]; lia.
  - rewrite isum_insert, (fo_nested _ _ O) by done. lia.
  - rewrite isum_insert, (fo_dirpins _ _ O) by done. lia.
  - intros k x. destruct (decide (k = dn_key dn)) as [->|N]; [rewrite lookup_insert_eq; by intros [= <-]|].
    rewrite lookup_insert_ne by done. apply O.
  - change (sd_test (stolen e dn s) STATE_FREEZINGDIR = false).
    rewrite (moved_test _ _ _ M). apply (fo_freezing_dir _ _ O).
  - change (sd_test (stolen e dn s) STATE_FREEZINGTREE = false).
    rewrite (moved_test _ _ _ M). apply (fo_freezing_tree _ _ O).
Qed.

Lemma s64_add_l a b : s64 (s64 a + b) = s64 (b + a).
Proof. apply s64_cong. rewrite s64_eqm. by rewrite Z.add_comm. Qed.

Lemma s32_add_l a b : s32 (s32 a + b) = s32 (b + a).
Proof. rewrite s32_idem_l. f_equal. lia. Qed.

Lemma s64_same a : s64 (s64 a) = s64 a.
Proof. apply s64_cong, s64_eqm. Qed.

Lemma count_stats_files e dn n : live dn = true ->
  fi_nfiles (fn_fragstat (count_stats e dn n)) =
    (if ent_is_dir e dn then fi_nfiles (fn_fragstat n) else s64 (fi_nfiles (fn_fragstat n) + 1)) /\
  fi_nsubdirs (fn_fragstat (count_stats e dn n)) =
    (if ent_is_dir e dn then s64 (fi_nsubdirs (fn_fragstat n) + 1) else fi_nsubdirs (fn_fragstat n)).
Proof.
  unfold live, is_null, count_stats, ent_is_dir, count_entry.
  destruct (dn_linkage dn); simpl; [done| |]; intros _; by case_match.
Qed.

Lemma stolen_counted e dn s :
  counted e s -> sd_items s !! dn_key dn = None -> Z.of_nat (size (sd_items s)) < 2 ^ 32 - 1 ->
  counted e (stolen e dn s).
Proof.
  intros [Hc Hf Hd Hr Hy] Hk Hz. split; rewrite ?stolen_items, ?stolen_fnode.
  - intros null head. rewrite stolen_counter, class_size_insert by done.
    rewrite counter_adjust, Hc. pose proof (class_size_range null head (sd_items s)).
    case_bool_decide as E.
    + injection E as -> ->. rewrite in_class_self. apply u32_id. unfold in_u32. lia.
    + rewrite in_class_other by done. lia.
  - rewrite isum_insert by done. unfold file_of at 1. destruct (live dn) eqn:L; simpl; [|done].
    rewrite (proj1 (count_stats_files e dn _ L)), Hf. destruct (ent_is_dir e dn); simpl; [done|].
    apply s64_add_l.
  - rewrite isum_insert by done. unfold subdir_of at 1. destruct (live dn) eqn:L; simpl; [|done].
    rewrite (proj2 (count_stats_files e dn _ L)), Hd. destruct (ent_is_dir e dn); simpl; [|done].
    apply s64_add_l.
  - intros g G. rewrite isum_insert by done. unfold kid_of at 1, live, is_null, count_stats.
    destruct (dn_linkage dn) as [|i|i t o]; simpl; [by apply Hr| |destruct (is_head dn); simpl; by apply Hr].
    destruct (is_head dn); [|by apply Hr]. simpl. rewrite (nf_count _ G), (Hr g G). apply s64_add_l.
  - rewrite stolen_dirty, isum_insert, Hy by done. change (dirty_of dn) with (bool_Z (is_dirty (dn_obj dn))).
    destruct (is_dirty (dn_obj dn)); simpl; [apply s32_add_l|done].
Qed.

(** ** Moving many dentries *)

(** Two sets of dentries are disjoint, and small enough together. *)
Record fits e (m m' : gmap dentry_key_t dentry) : Prop := {
  ft_disjoint : m ##ₘ m';
  ft_pins : isum (pins_of e) m + isum (pins_of e) m' < 2 ^ 31;
  ft_size : Z.of_nat (size m) + Z.of_nat (size m') < 2 ^ 32
}.

Definition all_sane e (m : gmap dentry_key_t dentry) : Prop :=
  forall k dn, m !! k = Some dn -> pins_sane e dn.

Lemma size_delete_item {V} (m : gmap dentry_key_t V) k v :
  m !! k = Some v -> size m = S (size (delete k m)).
Proof.
  intros Hk. rewrite <- (insert_delete_id m k v Hk) at 1. apply map_size_insert_None, lookup_delete_eq.
Qed.

Lemma fits_move e m m' k dn : fits e m m' -> m' !! k = Some dn -> fits e (<[k := dn]> m) (delete k m').
Proof.
  intros [Dj P S] Hk. assert (m !! k = None) as Hn by (by eapply map_disjoint_Some_r).
  split.
  - apply map_disjoint_insert_l. split; [apply lookup_delete_eq|]. by apply map_disjoint_delete_r.
  - rewrite isum_insert by done. rewrite (isum_delete _ _ _ _ Hk) in P. lia.
  - pose proof (size_delete_item _ _ _ Hk). rewrite map_size_insert_None by done. lia.
Qed.

Lemma fits_shrink e m m' k : fits e m m' -> all_sane e m' -> fits e m (delete k m').
Proof.
  intros [Dj P S] Hs. split.
  - by apply map_disjoint_delete_r.
  - destruct (m' !! k) as [dn|] eqn:E; [|by rewrite delete_id].
    rewrite (isum_delete _ _ _ _ E) in P. pose proof (sane_bounds _ _ (Hs _ _ E)). lia.
  - rewrite map_size_delete. destruct (m' !! k); simpl; lia.
Qed.

Lemma steal_step e dn (this old : sdir) :
  frag_ok e this -> frag_ok e old -> counted e this -> fits e (sd_items this) (sd_items old) ->
  sd_items old !! dn_key dn = Some dn ->
  exists es, steal_dentry e dn this old = Ok (stolen e dn this, robbed e dn old, es) /\
    frag_ok e (stolen e dn this) /\ counted e (stolen e dn this) /\ frag_ok e (robbed e dn old).
Proof.
  intros O1 O2 Hc Hf Hk. pose proof (fo_sane _ _ O2 _ _ Hk) as Hs. pose proof (ft_pins _ _ _ Hf) as Hp.
  rewrite <- (fo_nested _ _ O1), <- (fo_nested _ _ O2) in Hp.
  assert (sd_items this !! dn_key dn = None) as Hn by (eapply map_disjoint_Some_r; [apply Hf|done]).
  pose proof (size_delete_item _ _ _ Hk) as Hz. pose proof (ft_size _ _ _ Hf).
  destruct (steal_dentry_eq e dn this old O1 O2 Hc Hk Hs Hp) as [es E]; [lia|].
  exists es. split_and!; [done|by apply stolen_ok|apply stolen_counted; [done..|lia]|by apply robbed_ok].
Qed.

Lemma steal_all_ok e fuel (this dir : sdir) :
  frag_ok e this -> frag_ok e dir -> counted e this -> fits e (sd_items this) (sd_items dir) ->
  (size (sd_items dir) <= fuel)%nat ->
  exists this' dir' es, steal_all e fuel this dir = Ok (this', dir', es) /\
    frag_ok e this' /\ counted e this' /\ frag_ok e dir' /\ moved this this' /\ moved dir dir' /\
    sd_items this' = sd_items this ∪ sd_items dir /\ sd_items dir' = ∅ /\ sd_fnode dir' = sd_fnode dir.
Proof.
  revert this dir. induction fuel as [|fuel IH]; intros this dir O1 O2 Hc Hf Hz; simpl;
    (destruct (ordered (sd_items dir)) as [|[k dn] l] eqn:El;
     [apply ordered_nil in El; eexists this, dir, []; rewrite El, map_union_empty; by split_and!|]).
  { assert (size (sd_items dir) = 0%nat) as E by lia. apply map_size_empty_inv in E.
    apply ordered_nil in E. by rewrite E in El. }
  assert (sd_items dir !! k = Some dn) as Hk by (apply elem_of_ordered; rewrite El; left).
  pose proof (fo_keyed _ _ O2 _ _ Hk) as <-.
  destruct (steal_step e dn this dir O1 O2 Hc Hf Hk) as (es & -> & O1' & Hc' & O2'). cbn [mbind res_bind].
  destruct (IH (stolen e dn this) (robbed e dn dir)) as (t' & d' & es' & E & H1' & H2' & H3' & M1 & M2 & I1 & I2 & I3);
    [done..| |rewrite robbed_items; pose proof (size_delete_item _ _ _ Hk); lia|].
  { rewrite stolen_items, robbed_items. by apply fits_move. }
  rewrite E. eexists t', d', _. split_and!; [done..| | | |done|].
  - etrans; [apply stolen_moved|done].
  - etrans; [apply robbed_moved|done].
  - rewrite I1, stolen_items, robbed_items, <- insert_union_l, insert_union_r.
    + by rewrite insert_delete_id.
    + by eapply map_disjoint_Some_r; [apply Hf|].
  - by rewrite I3, robbed_fnode.
Qed.

(** The dentries that go to slot [i]. *)
Definition slot_items (whole : F) (pick : cstring -> F) (i : nat) (m : gmap dentry_key_t dentry) :=
  filter (fun p : dentry_key_t * dentry => slot whole (pick (dn_name (snd p))) = Z.of_nat i) m.

Lemma slot_items_here whole pick i m k dn :
  m !! k = Some dn -> slot whole (pick (dn_name dn)) = Z.of_nat i ->
  slot_items whole pick i m = <[k := dn]> (slot_items whole pick i (delete k m)).
Proof.
  intros Hk Hs. unfold slot_items. rewrite <- (insert_delete_id m k dn Hk) at 1.
  by rewrite map_filter_insert_True by done.
Qed.

Lemma slot_items_there whole pick i m k dn :
  m !! k = Some dn -> slot whole (pick (dn_name dn)) <> Z.of_nat i ->
  slot_items whole pick i m = slot_items whole pick i (delete k m).
Proof.
  intros Hk Hs. unfold slot_items. rewrite <- (insert_delete_id m k dn Hk) at 1.
  rewrite map_filter_insert_False by done. by rewrite delete_delete_eq.
Qed.

(** A new fragment [f'] got from [f] and the dentries [m]. *)
Record filled e f f' (m : gmap dentry_key_t dentry) : Prop := {
  fl_ok : frag_ok e f';
  fl_counted : counted e f';
  fl_moved : moved f f';
  fl_items : sd_items f' = sd_items f ∪ m
}.

Definition receives e (m : gmap dentry_key_t dentry) f : Prop :=
  frag_ok e f /\ counted e f /\ fits e (sd_items f) m.

Lemma repartition_ok e pick fuel (d : sdir) (subs : list sdir) :
  frag_ok e d -> Forall (receives e (sd_items d)) subs ->
  (forall k dn, sd_items d !! k = Some dn ->
     0 <= slot (frag d) (pick (dn_name dn)) < Z.of_nat (length subs)) ->
  (size (sd_items d) <= fuel)%nat ->
  exists d' subs' es, repartition e pick fuel d subs = Ok (d', subs', es) /\
    frag_ok e d' /\ moved d d' /\ sd_items d' = ∅ /\ sd_fnode d' = sd_fnode d /\
    length subs' = length subs /\
    forall i f, subs !! i = Some f ->
      exists f', subs' !! i = Some f' /\ filled e f f' (slot_items (frag d) pick i (sd_items d)).
Proof.
  revert d subs. induction fuel as [|fuel IH]; intros d subs O Hr Hs Hz; simpl;
    (destruct (ordered (sd_items d)) as [|[k dn] l] eqn:El;
     [apply ordered_nil in El; eexists d, subs, []; split_and!; try done; intros i f Hf; exists f;
      destruct (Forall_lookup_1 _ _ _ _ Hr Hf) as (? & ? & ?); split; [done|]; split; try done;
      rewrite El; unfold slot_items; by rewrite map_filter_empty, map_union_empty|]).
  { assert (size (sd_items d) = 0%nat) as E by lia. apply map_size_empty_inv in E.
    apply ordered_nil in E. by rewrite E in El. }
  assert (sd_items d !! k = Some dn) as Hk by (apply elem_of_ordered; rewrite El; left).
  pose proof (fo_keyed _ _ O _ _ Hk) as <-. pose proof (Hs _ _ Hk) as Hn. cbn zeta.
  set (n := slot (frag d) (pick (dn_name dn))) in *.
  rewrite (proj2 (Z.ltb_ge n 0)) by lia.
  destruct (lookup_lt_is_Some_2 subs (Z.to_nat n)) as [f Hf]; [lia|]. rewrite Hf.
  destruct (Forall_lookup_1 _ _ _ _ Hr Hf) as (O1 & Hc & Hft).
  destruct (steal_step e dn f d O1 O Hc Hft Hk) as (es & -> & O1' & Hc' & O2'). cbn [mbind res_bind].
  pose proof (robbed_moved e dn d) as Md.
  destruct (IH (robbed e dn d) (<[Z.to_nat n := stolen e dn f]> subs))
    as (d' & subs' & es' & E & R1 & R2 & R3 & R4 & R5 & R6); rewrite ?robbed_items in *.
  - done.
  - apply Forall_insert; [|unfold receives; rewrite stolen_items; split_and!; [done..|by apply fits_move]].
    eapply Forall_impl; [done|]. intros g (G1 & G2 & G3). split_and!; [done..|].
    apply fits_shrink; [done|]. exact (fo_sane _ _ O).
  - intros k' x [_ Hx]%lookup_delete_Some. rewrite length_insert, (mv_frag _ _ Md). by apply (Hs k').
  - pose proof (size_delete_item _ _ _ Hk). lia.
  - rewrite E. cbn [mbind res_bind]. eexists d', subs', _. split_and!; [done..| |done| | |].
    + by etrans.
    + by rewrite R4, robbed_fnode.
    + by rewrite R5, length_insert.
    + rewrite (mv_frag _ _ Md) in R6. intros i g Hg. destruct (decide (i = Z.to_nat n)) as [->|N].
      * simplify_eq. destruct (R6 (Z.to_nat n) (stolen e dn f)) as (f' & Hf' & [F1 F2 F3 F4]).
        { apply list_lookup_insert_eq. by eapply lookup_lt_Some. }
        exists f'. split; [done|]. split; [done|done|etrans; [apply stolen_moved|done]|].
        rewrite F4, stolen_items, (slot_items_here _ _ _ _ _ _ Hk) by (fold n; lia).
        rewrite <- insert_union_l, insert_union_r; [done|]. by eapply map_disjoint_Some_r; [apply Hft|].
      * destruct (R6 i g) as (f' & Hf' & Ff); [by rewrite list_lookup_insert_ne|].
        exists f'. by rewrite (slot_items_there _ _ _ _ _ _ Hk) by (fold n; lia).
Qed.

End Steal.
