(* ===== verification/FragmentPins.v ===== *)
(** * The pins of fragments that are split or merged

    A fragment that is [ready] holds exactly the pins its state accounts for.  Then
    [finish_old_fragment] leaves a corpse without pins, and the new fragments are [ready] again.
    File Refragment has the part about moving the dentries. *)

From stdpp Require Import base tactics numbers list gmap fin_maps sorting.
From Stdlib Require Import ZArith Lia Ascii.
From S2P Require Import Prelude Double Stats Subtree LoadVec Keys CacheObject Dentries Freeze Versions Fragment Refragment.
Open Scope Z_scope.
Open Scope list_scope.

Section Finish.
Context {X T C R D F : Type} `{CephConst} `{UTime T} `{Bloom} `{CDouble D} `{DecayCounter C T R D}
  `{FragSplit F} `{DirentTypes}.
Abbreviation sdir := (sdir X T C F).
Implicit Types e : ienv T.
Implicit Types s : sdir.

(** A count of pins, of the kinds below and no other. *)
Definition pin_kinds : list Z :=
  [PIN_CHILD; PIN_FROZEN; PIN_AUTHPIN; PIN_DNWAITER; PIN_WAITER; PIN_REPLICATED; PIN_DIRTY;
   PIN_IMPORTBOUND; PIN_EXPORTBOUND; PIN_SUBTREE; PIN_STICKY].

Definition pin_table (c fr ap dw w r d ib eb st sk : Z) (p : Z) : Z :=
  if p =? PIN_CHILD then c else if p =? PIN_FROZEN then fr else if p =? PIN_AUTHPIN then ap
  else if p =? PIN_DNWAITER then dw else if p =? PIN_WAITER then w else if p =? PIN_REPLICATED then r
  else if p =? PIN_DIRTY then d else if p =? PIN_IMPORTBOUND then ib else if p =? PIN_EXPORTBOUND then eb
  else if p =? PIN_SUBTREE then st else if p =? PIN_STICKY then sk else 0.

(** The pins that the state of a fragment accounts for. *)
Definition own_pins s : Z -> Z :=
  pin_table
    (bool_Z (negb (bool_decide (sd_items s = ∅))))
    (bool_Z (is_frozen_dir (sd_fdir s)))
    (bool_Z (0 <? auth_pins (sd_fdir s)))
    (bool_Z (negb (bool_decide (waiting_on_dentry (sd_dfrag s) = ∅))))
    (bool_Z (match co_waiting (sd_obj s) with [] => false | _ => true end))
    (bool_Z (is_replicated (sd_obj s)))
    (bool_Z (sd_test s STATE_DIRTY))
    (bool_Z (sd_test s STATE_IMPORTBOUND))
    (bool_Z (sd_test s STATE_EXPORTBOUND))
    (bool_Z (sd_subtree_root s))
    (bool_Z (sd_test s STATE_STICKY)).

(** Only the eleven kinds are held: the references are their sum. *)
Lemma ref_of_table (o : cobj X) c fr ap dw w r d ib eb st sk :
  refs_ok o -> (forall p, pins o p = pin_table c fr ap dw w r d ib eb st sk p) ->
  co_ref o = c + fr + ap + dw + w + r + d + ib + eb + st + sk.
Proof.
  intros Ro Hp. rewrite (ro_sum _ Ro), (pin_sum_support pin_kinds).
  - pose proof (fun p => eq_sym (Hp p)) as Hq. unfold pins in Hq.
    unfold pin_kinds. cbn [map foldr]. rewrite <- !Hq. unfold pin_table. simpl. lia.
  - apply (bool_decide_eq_true_1 (NoDup pin_kinds)). by vm_compute.
  - intros k Hk. fold (pins o k). rewrite Hp. unfold pin_table, pin_kinds in *.
    repeat case_match; subst; try done; exfalso; apply Hk;
      repeat match goal with E : (_ =? _) = true |- _ => apply Z.eqb_eq in E; subst end; set_solver.
Qed.

Definition pins_are (o : cobj X) (g : Z -> Z) : Prop := refs_ok o /\ forall p, pins o p = g p.
Definition bump (n pin : Z) (g : Z -> Z) (p : Z) : Z := if p =? pin then g p + n else g p.

Lemma pins_are_repin n pin (o : cobj X) g :
  pins_are o g -> 0 <= g pin + n -> co_ref o + n < 2 ^ 31 -> pins_are (repin n pin o) (bump n pin g).
Proof.
  intros [Ro Hg] B1 B2. split; [apply repin_ok; by rewrite ?Hg|].
  intros p. rewrite pins_repin. unfold bump.
  destruct (Z.eqb_spec p pin) as [->|N]; [by rewrite decide_True, Hg|by rewrite decide_False, Hg].
Qed.

Lemma pins_are_state o g st : pins_are o g -> pins_are (set_co_state st o) g.
Proof. intros [[] Hg]. split; [by split|done]. Qed.

(** How far the dismantling of [s0] has come: the pins, state word, auth pins and replicas that
    are left, when the waiters are gone. *)
Record stage (s0 s : sdir) (g : Z -> Z) (st ap : Z) (rm : gmap Z Z) : Prop := {
  sg_pins : pins_are (sd_obj s) g;
  sg_state : co_state (sd_obj s) = st;
  sg_auth_pins : auth_pins (sd_fdir s) = ap;
  sg_replicas : co_replica_map (sd_obj s) = rm;
  sg_waiting : co_waiting (sd_obj s) = [];
  sg_dn_waiting : waiting_on_dentry (sd_dfrag s) = ∅;
  sg_items : sd_items s = sd_items s0;
  sg_frag : frag s = frag s0;
  sg_auth : sd_auth s = sd_auth s0;
  sg_root : fd_subtree_root (sd_fdir s) = fd_subtree_root (sd_fdir s0);
  sg_nested : nested_auth_pins (sd_fdir s) = nested_auth_pins (sd_fdir s0);
  sg_dirpins : dir_auth_pins (sd_fdir s) = dir_auth_pins (sd_fdir s0)
}.

Definition lower (b : bool) (pin : Z) (g : Z -> Z) (p : Z) : Z := if b then bump (-1) pin g p else g p.

Lemma stage_put_if s0 s g st ap rm b pin :
  stage s0 s g st ap rm -> (b = true -> 0 < g pin) ->
  exists s' es, put_if b pin s = Ok (s', es) /\ stage s0 s' (lower b pin g) st ap rm.
Proof.
  intros [] Hb. destruct b; unfold put_if; [|eexists s, []; by split].
  specialize (Hb eq_refl). pose proof sg_pins0 as [Ro Hg]. rewrite <- Hg in Hb.
  destruct (sd_put_ok pin s Ro Hb) as [es E]. exists (repin_sd (-1) pin s), es. split; [done|].
  pose proof (pins_le_sum _ pin Ro). pose proof (ro_small _ Ro). pose proof (ro_sum _ Ro).
  split; try done. apply pins_are_repin; [done|rewrite <- Hg; lia|lia].
Qed.

(** Taking the waiters. *)
Definition waiters_of s : list X := all_dentry_waiters (sd_dfrag s) ++ (co_waiting (sd_obj s)).*2.

Lemma take_any (o : cobj X) g ls :
  pins_are o g -> g PIN_WAITER = bool_Z (match co_waiting o with [] => false | _ => true end) ->
  Forall (fun w => has_bits (fst w) WAIT_ANY_MASK = true) (co_waiting o) ->
  exists o' hs, take_waiting o WAIT_ANY_MASK ls = Ok (o', hs, ls ++ (co_waiting o).*2) /\
    pins_are o' (lower (match co_waiting o with [] => false | _ => true end) PIN_WAITER g) /\
    co_waiting o' = [] /\ co_state o' = co_state o /\ co_replica_map o' = co_replica_map o.
Proof.
  intros P Hw Ht. unfold take_waiting. destruct (co_waiting o) as [|w ws] eqn:E.
  { eexists o, []. by rewrite app_nil_r. }
  rewrite take_loop_spec.
  assert (filter (fun p => has_bits (fst p) WAIT_ANY_MASK = false) (w :: ws) = []) as ->.
  { apply filter_none. intros x Hx. pose proof (Forall_elem _ _ _ Ht Hx) as Hb. simpl in Hb. congruence. }
  assert (filter (fun p => has_bits (fst p) WAIT_ANY_MASK = true) (w :: ws) = w :: ws) as ->.
  { clear -Ht. induction Ht as [|x l Hx Hl IH]; [done|]. by rewrite filter_cons_True, IH. }
  simpl in Hw. destruct P as [Ro Hg].
  rewrite put_ok; [|by destruct Ro; split|change (0 < pins o PIN_WAITER); rewrite Hg; lia].
  eexists _, _. split; [done|]. split_and!; try done.
  assert (pins_are (set_waiting [] o) g) as P' by (destruct Ro; by split).
  apply (pins_are_repin (-1) PIN_WAITER (set_waiting [] o) g P'); [lia|].
  pose proof (ro_small _ Ro). pose proof (ro_sum _ Ro). simpl. lia.
Qed.

Lemma take_all_waiting s0 s g ws :
  pins_are (sd_obj s) g ->
  g PIN_WAITER = bool_Z (match co_waiting (sd_obj s) with [] => false | _ => true end) ->
  g PIN_DNWAITER = bool_Z (negb (bool_decide (waiting_on_dentry (sd_dfrag s) = ∅))) ->
  Forall (fun w => has_bits (fst w) WAIT_ANY_MASK = true) (co_waiting (sd_obj s)) ->
  s0 = s ->
  exists s' es, sd_take_waiting WAIT_ANY_MASK ws s = Ok (s', es, ws ++ waiters_of s) /\
    stage s0 s' (lower (match co_waiting (sd_obj s) with [] => false | _ => true end) PIN_WAITER
        (lower (negb (bool_decide (waiting_on_dentry (sd_dfrag s) = ∅))) PIN_DNWAITER g))
      (co_state (sd_obj s)) (auth_pins (sd_fdir s)) (co_replica_map (sd_obj s)).
Proof.
  intros P Hw Hd Ht ->. unfold sd_take_waiting, dir_take_waiting, waiters_of.
  change (has_bits WAIT_ANY_MASK WAIT_DENTRY) with true. cbn [mbind res_bind]. unfold take_sub_waiting.
  destruct P as [Ro Hg]. case_bool_decide as E; simpl in Hd.
  - destruct (take_any (sd_obj s) g ws) as (o' & hs & T1 & T2 & T3 & T4 & T5); [done|done|done|].
    change (df_obj (sd_dfrag s)) with (sd_obj s). cbn [mbind res_bind]. change (df_obj (sd_dfrag s)) with (sd_obj s).
    rewrite T1. cbn [mbind res_bind]. eexists _, _. split.
    { assert (all_dentry_waiters (sd_dfrag s) = []) as -> by (unfold all_dentry_waiters; by rewrite E). done. }
    by split.
  - unfold dir_put. change (df_obj (set_dn_waiting ∅ (sd_dfrag s))) with (sd_obj s).
    rewrite put_ok; [|done|rewrite Hg; lia]. cbn [mbind res_bind].
    set (o1 := repin (-1) PIN_DNWAITER (sd_obj s)).
    assert (pins_are o1 (bump (-1) PIN_DNWAITER g)) as P1.
    { apply pins_are_repin; [done|lia|]. pose proof (ro_small _ Ro). pose proof (ro_sum _ Ro). lia. }
    destruct (take_any o1 (bump (-1) PIN_DNWAITER g) (ws ++ all_dentry_waiters (sd_dfrag s)))
      as (o' & hs & T1 & T2 & T3 & T4 & T5); [done|done|done|].
    cbn [df_obj set_obj]. rewrite T1. cbn [mbind res_bind]. eexists _, _. split; [by rewrite app_assoc|].
    by split.
Qed.

Lemma stage_auth_unpin fe s0 s g st rm :
  stage s0 s g st 1 rm -> 0 < g PIN_AUTHPIN ->
  is_freezing_dir (sd_fdir s) = false -> is_freezing_tree_root (sd_fdir s) = false ->
  exists s' es, lift_cd (cd_auth_unpin fe (sd_dir s)) s = Ok (s', es) /\
    stage s0 s' (lower true PIN_AUTHPIN g) st 0 rm.
Proof.
  intros [] Hb F1 F2. pose proof sg_pins0 as [Ro Hg]. rewrite <- Hg in Hb.
  unfold lift_cd, cd_auth_unpin, on_fdir, auth_unpin. cbn [auth_unpin_n]. unfold sd_fdir in *.
  rewrite sg_auth_pins0. change (s32 (1 - 1)) with 0. cbn [auth_pins set_auth_pins]. change (0 =? 0) with true.
  cbn iota. unfold fd_put, dir_put.
  change (df_obj (fd_dir (set_auth_pins 0 (cd_fdir (sd_dir s))))) with (sd_obj s).
  rewrite put_ok by done. cbn [mbind res_bind auth_pins set_fd_dir set_auth_pins].
  rewrite check_true by done. rewrite maybe_finish_freeze_idle by done. cbn [mbind res_bind].
  eexists _, _. split; [done|].
  pose proof (pins_le_sum _ PIN_AUTHPIN Ro). pose proof (ro_small _ Ro). pose proof (ro_sum _ Ro).
  split; try done. apply pins_are_repin; [done|rewrite <- Hg; lia|lia].
Qed.

Lemma stage_unfreeze fe s0 s g st ap rm :
  stage s0 s g st ap rm -> 0 < g PIN_FROZEN -> is_frozen_dir (sd_fdir s) = true ->
  exists s' es, lift_fd (unfreeze_dir fe (sd_fdir s)) s = Ok (s', es) /\
    stage s0 s' (lower true PIN_FROZEN g) (Z.ldiff st STATE_FROZENDIR) ap rm.
Proof.
  intros [] Hb F1. pose proof sg_pins0 as [Ro Hg]. rewrite <- Hg in Hb.
  unfold lift_fd, unfreeze_dir, unfreeze, is_frozen_dir in *. rewrite F1. unfold fd_put, dir_put.
  set (o1 := state_clear STATE_FROZENDIR (fd_obj (sd_fdir s))).
  assert (pins_are o1 g) as P1 by (by apply pins_are_state). destruct P1 as [Ro1 Hg1].
  change (df_obj (fd_dir (set_fd_obj o1 (sd_fdir s)))) with o1.
  rewrite put_ok by done. cbn [mbind res_bind]. unfold finish_waiting, dir_take_waiting.
  change (has_bits WAIT_UNFREEZE WAIT_DENTRY) with false. cbn [mbind res_bind]. unfold take_waiting.
  match goal with |- context [co_waiting ?x] => change (co_waiting x) with (co_waiting (sd_obj s)) end.
  rewrite sg_waiting0. cbn [mbind res_bind]. eexists _, _. split; [done|].
  pose proof (pins_le_sum _ PIN_FROZEN Ro). pose proof (ro_small _ Ro). pose proof (ro_sum _ Ro).
  split; try done.
  - change (pins_are (repin (-1) PIN_FROZEN o1) (bump (-1) PIN_FROZEN g)).
    apply pins_are_repin; [done|rewrite <- Hg; lia|change (co_ref o1) with (co_ref (sd_obj s)); lia].
  - by rewrite <- sg_state0.
Qed.

Lemma stage_clear_replicas s0 s g st ap rm :
  stage s0 s g st ap rm -> (is_replicated (sd_obj s) = true -> 0 < g PIN_REPLICATED) ->
  exists s' es, sd_clear_replicas s = Ok (s', es) /\
    stage s0 s' (lower (is_replicated (sd_obj s)) PIN_REPLICATED g) st ap ∅.
Proof.
  intros [] Hb. pose proof sg_pins0 as [Ro Hg]. unfold sd_clear_replicas, clear_replica_map.
  destruct (is_replicated (sd_obj s)).
  - specialize (Hb eq_refl). rewrite <- Hg in Hb. rewrite put_ok by done. cbn [mbind res_bind].
    eexists _, _. split; [done|].
    pose proof (pins_le_sum _ PIN_REPLICATED Ro). pose proof (ro_small _ Ro). pose proof (ro_sum _ Ro).
    assert (pins_are (repin (-1) PIN_REPLICATED (sd_obj s)) (bump (-1) PIN_REPLICATED g)) as [[] P']
      by (apply pins_are_repin; [done|rewrite <- Hg; lia|lia]).
    split; try done; by split.
  - eexists _, _. split; [done|]. split; try done; destruct Ro; by split.
Qed.

Lemma stage_mark_clean s0 s g st ap rm :
  stage s0 s g st ap rm -> sd_test s STATE_DIRTY = true -> 0 < g PIN_DIRTY ->
  exists s' es, lift_cd (cd_mark_clean (sd_dir s)) s = Ok (s', es) /\
    stage s0 s' (lower true PIN_DIRTY g) (Z.ldiff st STATE_DIRTY) ap rm.
Proof.
  intros [] Ht Hb. pose proof sg_pins0 as [Ro Hg]. rewrite <- Hg in Hb.
  unfold lift_cd, cd_mark_clean, mark_clean, sd_test, cd_test in *.
  change (state_test (df_obj (cd_dir (sd_dir s))) STATE_DIRTY) with (state_test (cd_obj (sd_dir s)) STATE_DIRTY).
  rewrite Ht. unfold dir_put.
  set (o1 := state_clear STATE_DIRTY (df_obj (cd_dir (sd_dir s)))).
  assert (pins_are o1 g) as P1 by (by apply pins_are_state). destruct P1 as [Ro1 Hg1].
  change (df_obj (set_obj o1 (cd_dir (sd_dir s)))) with o1.
  rewrite put_ok by done. cbn [mbind res_bind].
  eexists _, _. split; [done|].
  pose proof (pins_le_sum _ PIN_DIRTY Ro). pose proof (ro_small _ Ro). pose proof (ro_sum _ Ro).
  split; try done.
  - change (pins_are (repin (-1) PIN_DIRTY o1) (bump (-1) PIN_DIRTY g)).
    apply pins_are_repin; [done|rewrite <- Hg; lia|change (co_ref o1) with (co_ref (sd_obj s)); lia].
  - by rewrite <- sg_state0.
Qed.

Lemma stage_zero_counts s0 s g st ap rm :
  stage s0 s g st ap rm -> stage s0 (set_sd_dfrag (zero_counts (sd_dfrag s)) s) g st ap rm.
Proof. intros []. by split. Qed.

(** ** Dismantling a fragment *)

(** The fragment can be split or merged: it holds the pins its state accounts for, is frozen when
    this is not a replay and it is authoritative, and what a replica or a replay cannot have is
    not there. *)
Record ready e (replay : bool) s : Prop := {
  rd_ok : frag_ok e s;
  rd_pins : forall p, pins (sd_obj s) p = own_pins s p;
  rd_frozen : is_frozen_dir (sd_fdir s) = negb replay && sd_is_auth s;
  rd_tags : Forall (fun w => has_bits (fst w) WAIT_ANY_MASK = true) (co_waiting (sd_obj s));
  rd_replay : replay = true -> co_waiting (sd_obj s) = [] /\ waiting_on_dentry (sd_dfrag s) = ∅;
  rd_replicas : sd_is_auth s = false -> co_replica_map (sd_obj s) = ∅;
  rd_root : fd_subtree_root (sd_fdir s) = negb (bool_decide (sd_auth s = CDIR_AUTH_DEFAULT))
}.

(** what is left when the waiters, the auth pin and the freeze are gone *)
Definition left_pins s : Z -> Z :=
  pin_table (bool_Z (negb (bool_decide (sd_items s = ∅)))) 0 0 0 0
    (bool_Z (is_replicated (sd_obj s))) (bool_Z (sd_test s STATE_DIRTY))
    (bool_Z (sd_test s STATE_IMPORTBOUND)) (bool_Z (sd_test s STATE_EXPORTBOUND))
    (bool_Z (sd_subtree_root s)) (bool_Z (sd_test s STATE_STICKY)).

Lemma stage_ext s0 s g g' st ap rm :
  stage s0 s g st ap rm -> (forall p, g p = g' p) -> stage s0 s g' st ap rm.
Proof. intros [] E. split; try done. destruct sg_pins0 as [Ro Hg]. split; [done|]. intros p. by rewrite Hg. Qed.

End Finish.

(** Two tables agree at every kind of pin. *)
Ltac table_eq p :=
  unfold lower, bump, own_pins, left_pins, pin_table, PIN_CHILD, PIN_FROZEN, PIN_AUTHPIN, PIN_DNWAITER,
    PIN_WAITER, PIN_REPLICATED, PIN_DIRTY, PIN_IMPORTBOUND, PIN_EXPORTBOUND, PIN_SUBTREE, PIN_STICKY;
  repeat match goal with
  | |- context [p =? ?k] => destruct (Z.eqb_spec p k) as [->|?]; [simpl|]
  end.

(** The number of pins a table holds of one kind. *)
Ltac at_pin :=
  unfold lower, bump, own_pins, left_pins, pin_table, PIN_CHILD, PIN_FROZEN, PIN_AUTHPIN, PIN_DNWAITER,
    PIN_WAITER, PIN_REPLICATED, PIN_DIRTY, PIN_IMPORTBOUND, PIN_EXPORTBOUND, PIN_SUBTREE, PIN_STICKY;
  simpl.

Section Finish2.
Context {X T C R D F : Type} `{CephConst} `{UTime T} `{Bloom} `{CDouble D} `{DecayCounter C T R D}
  `{FragSplit F} `{DirentTypes}.
Abbreviation sdir := (sdir X T C F).
Implicit Types e : ienv T.
Implicit Types s d f : sdir.

Definition clear_frozen (replay : bool) s : Z :=
  if negb replay && sd_is_auth s then Z.ldiff (co_state (sd_obj s)) STATE_FROZENDIR else co_state (sd_obj s).

Lemma release_old_ok e replay ws s :
  ready e replay s -> auth_pins (sd_fdir s) = bool_Z (negb replay && sd_is_auth s) ->
  exists s' es, release_old e replay ws s = Ok (s', es, ws ++ (if replay then [] else waiters_of s)) /\
    stage s s' (left_pins s) (clear_frozen replay s) 0 (co_replica_map (sd_obj s)).
Proof.
  intros [O Hp Hf Ht Hr _ _] Ha. unfold release_old, clear_frozen. destruct replay; simpl in *.
  { destruct (Hr eq_refl) as [W1 W2]. eexists s, []. rewrite app_nil_r. split; [done|].
    split; try done. split; [apply O|]. intros p. rewrite Hp.
    table_eq p; rewrite ?Hf, ?Ha, ?W1, ?W2; done. }
  destruct (take_all_waiting s s (own_pins s) ws) as (s1 & es1 & -> & S1); try done.
  { by split; [apply O|]. }
  cbn [mbind res_bind]. assert (sd_is_auth s1 = sd_is_auth s) as ->.
  { unfold sd_is_auth, cd_is_auth, is_auth, state_test.
    change (cd_obj (sd_dir s1)) with (sd_obj s1). by rewrite (sg_state _ _ _ _ _ _ S1). }
  assert (forall mask, fd_test (sd_fdir s1) mask = fd_test (sd_fdir s) mask) as Hst.
  { intros mask. unfold fd_test, state_test. change (fd_obj (sd_fdir s1)) with (sd_obj s1).
    by rewrite (sg_state _ _ _ _ _ _ S1). }
  rewrite Ha in S1. destruct (sd_is_auth s); simpl in *.
  - destruct (stage_auth_unpin (ie_fenv e) s s1 _ _ _ S1) as (s2 & es2 & -> & S2).
    { unfold lower, bump. simpl. unfold own_pins, pin_table. rewrite Ha. repeat case_match; done. }
    { unfold is_freezing_dir. rewrite Hst. apply O. }
    { unfold is_freezing_tree_root. rewrite Hst. apply O. }
    cbn [mbind res_bind]. assert (is_frozen_dir (sd_fdir s2) = true) as F2.
    { unfold is_frozen_dir, fd_test, state_test. change (fd_obj (sd_fdir s2)) with (sd_obj s2).
      by rewrite (sg_state _ _ _ _ _ _ S2). }
    rewrite check_true by done.
    destruct (stage_unfreeze (ie_fenv e) s s2 _ _ _ _ S2) as (s3 & es3 & -> & S3); [|done|].
    { unfold lower, bump. simpl. unfold own_pins, pin_table. rewrite Hf. repeat case_match; done. }
    cbn [mbind res_bind]. eexists _, _. split; [done|]. eapply stage_ext; [done|].
    intros p. table_eq p; rewrite ?Hf, ?Ha; repeat case_match; simpl; try case_bool_decide; done.
  - eexists _, _. split; [done|]. eapply stage_ext; [done|].
    intros p. table_eq p; rewrite ?Hf, ?Ha; repeat case_match; simpl; try case_bool_decide; done.
Qed.


(** The bits tested after the freeze and the dirty mark are gone. *)
Lemma ldiff_test st a k : 0 <= a -> 0 <= k -> a <> k ->
  has_bits (Z.ldiff st (Z.shiftl 1 a)) (Z.shiftl 1 k) = has_bits st (Z.shiftl 1 k).
Proof.
  intros Ha Hk N. rewrite !has_bits_testbit, Z.ldiff_spec, Z.shiftl_1_l, Z.pow2_bits_false by done.
  apply andb_true_r.
Qed.

Lemma stage_test s0 s g st ap rm mask : stage s0 s g st ap rm -> sd_test s mask = has_bits st mask.
Proof. intros S. unfold sd_test, cd_test, state_test. by rewrite <- (sg_state _ _ _ _ _ _ S). Qed.

Lemma clear_frozen_test replay s k : 0 <= k -> k <> 4 ->
  has_bits (clear_frozen replay s) (Z.shiftl 1 k) = sd_test s (Z.shiftl 1 k).
Proof.
  intros Hk N. unfold clear_frozen. destruct (_ && _); [|done].
  unfold STATE_FROZENDIR. by rewrite ldiff_test.
Qed.

(** the state word of the corpse *)
Definition corpse_state (replay : bool) s : Z :=
  if sd_test s STATE_DIRTY then Z.ldiff (clear_frozen replay s) STATE_DIRTY else clear_frozen replay s.

Lemma corpse_state_test replay s k : 0 <= k -> k <> 4 -> k <> 29 ->
  has_bits (corpse_state replay s) (Z.shiftl 1 k) = sd_test s (Z.shiftl 1 k).
Proof.
  intros Hk N1 N2. unfold corpse_state. destruct (sd_test s STATE_DIRTY); [|by apply clear_frozen_test].
  unfold STATE_DIRTY. rewrite ldiff_test by done. by apply clear_frozen_test.
Qed.

(** The replicas and the dirty mark. *)
Lemma clear_marks e replay s s1 ap :
  ready e replay s ->
  stage s s1 (left_pins s) (clear_frozen replay s) ap (co_replica_map (sd_obj s)) ->
  exists s3 es2 es3,
    ('(s, es2) ← (if sd_is_auth s1 then sd_clear_replicas s1 else Ok (s1, []));
     '(s, es3) ← (if sd_test s STATE_DIRTY then lift_cd (cd_mark_clean (sd_dir s)) s else Ok (s, []));
     Ok (s, es2, es3)) = Ok (s3, es2, es3) /\
    stage s s3 (lower (sd_test s STATE_DIRTY) PIN_DIRTY
                  (lower (is_replicated (sd_obj s)) PIN_REPLICATED (left_pins s)))
      (corpse_state replay s) ap ∅.
Proof.
  intros Hr S1. pose proof (stage_test _ _ _ _ _ _ STATE_AUTH S1) as Ha.
  unfold STATE_AUTH in Ha. rewrite clear_frozen_test in Ha by done.
  change (sd_is_auth s1 = sd_is_auth s) in Ha. rewrite Ha.
  assert (is_replicated (sd_obj s1) = is_replicated (sd_obj s)) as Hrep.
  { unfold is_replicated. by rewrite (sg_replicas _ _ _ _ _ _ S1). }
  assert (exists s2 es2, (if sd_is_auth s then sd_clear_replicas s1 else Ok (s1, [])) = Ok (s2, es2) /\
    stage s s2 (lower (is_replicated (sd_obj s)) PIN_REPLICATED (left_pins s)) (clear_frozen replay s) ap ∅)
    as (s2 & es2 & -> & S2).
  { destruct (sd_is_auth s) eqn:Ea.
    - destruct (stage_clear_replicas _ _ _ _ _ _ S1) as (s2 & es2 & E & S2); rewrite Hrep in *; eauto.
      intros E. unfold left_pins. rewrite E. done.
    - pose proof (rd_replicas _ _ _ Hr Ea) as E. unfold is_replicated. rewrite E in *. eexists _, _. split; [done|].
      by case_bool_decide. }
  cbn [mbind res_bind]. pose proof (stage_test _ _ _ _ _ _ STATE_DIRTY S2) as Hd.
  unfold STATE_DIRTY in Hd. rewrite clear_frozen_test in Hd by done. fold STATE_DIRTY in Hd. rewrite Hd.
  unfold corpse_state. destruct (sd_test s STATE_DIRTY) eqn:Ed; [|eexists _, _, _; by split].
  destruct (stage_mark_clean _ _ _ _ _ _ S2) as (s3 & es3 & -> & S3); [done| |eexists _, _, _; by split].
  at_pin. rewrite Ed. case_match; unfold bool_Z; lia.
Qed.

Lemma stage_put_bit replay s s1 g k pin :
  stage s s1 g (corpse_state replay s) 0 ∅ -> 0 <= k -> k <> 4 -> k <> 29 ->
  (sd_test s (Z.shiftl 1 k) = true -> 0 < g pin) ->
  exists s2 es, put_if (sd_test s1 (Z.shiftl 1 k)) pin s1 = Ok (s2, es) /\
    stage s s2 (lower (sd_test s (Z.shiftl 1 k)) pin g) (corpse_state replay s) 0 ∅.
Proof.
  intros S1 K1 K2 K3 Hg. rewrite (stage_test _ _ _ _ _ _ _ S1), corpse_state_test by done.
  by apply stage_put_if.
Qed.

(** [finish_old_fragment] hands over the waiters and leaves no pin but that of a sticky inode. *)
Lemma finish_old_ok e replay ws s :
  ready e replay s -> auth_pins (sd_fdir s) = bool_Z (negb replay && sd_is_auth s) -> sd_items s = ∅ ->
  exists s' es, finish_old_fragment e replay ws s = Ok (s', es, ws ++ (if replay then [] else waiters_of s)) /\
    sd_items s' = ∅ /\ frag s' = frag s /\ co_ref (sd_obj s') = bool_Z (sd_test s STATE_STICKY).
Proof.
  intros Hr Ha Hi. destruct (release_old_ok e replay ws s Hr Ha) as (s1 & es1 & E1 & S1).
  unfold finish_old_fragment. rewrite E1. cbn [mbind res_bind]. pose proof (rd_ok _ _ _ Hr) as O.
  rewrite (sg_nested _ _ _ _ _ _ S1), (sg_dirpins _ _ _ _ _ _ S1), (sg_auth_pins _ _ _ _ _ _ S1).
  rewrite (fo_nested _ _ O), (fo_dirpins _ _ O), Hi, !isum_empty. rewrite !check_true by done.
  apply stage_zero_counts in S1. set (s1' := set_sd_dfrag _ s1) in *.
  destruct (clear_marks e replay s s1' 0 Hr S1) as (s3 & es2 & es3 & E3 & S3).
  apply bind_ok in E3 as ([s2 es2'] & E2 & E3). rewrite E2. cbn [mbind res_bind] in *.
  apply bind_ok in E3 as ([s3' es3'] & E3 & [= -> -> ->]). rewrite E3. cbn [mbind res_bind]. clear E1 E2 E3.
  unfold STATE_IMPORTBOUND, STATE_EXPORTBOUND, STATE_STICKY.
  destruct (stage_put_bit replay s s3 _ 10 PIN_IMPORTBOUND S3) as (s4 & es4 & -> & S4); [done..| |].
  { intros E. at_pin. unfold STATE_IMPORTBOUND. rewrite E. repeat case_match; unfold bool_Z; lia. }
  cbn [mbind res_bind].
  destruct (stage_put_bit replay s s4 _ 11 PIN_EXPORTBOUND S4) as (s5 & es5 & -> & S5); [done..| |].
  { intros E. at_pin. unfold STATE_EXPORTBOUND. rewrite E. repeat case_match; unfold bool_Z; lia. }
  cbn [mbind res_bind].
  assert (sd_subtree_root s5 = sd_subtree_root s) as -> by apply (sg_root _ _ _ _ _ _ S5).
  destruct (stage_put_if s s5 _ _ _ _ (sd_subtree_root s) PIN_SUBTREE S5) as (s6 & es6 & -> & S6).
  { intros E. at_pin. rewrite E. repeat case_match; unfold bool_Z; lia. }
  cbn [mbind res_bind]. rewrite (sg_auth_pins _ _ _ _ _ _ S6). change (0 <? 0) with false.
  cbn [put_if mbind res_bind]. rewrite (stage_test _ _ _ _ _ _ _ S6), corpse_state_test by done.
  assert (co_ref (sd_obj s6) = bool_Z (sd_test s (Z.shiftl 1 15))) as Href.
  { destruct (sg_pins _ _ _ _ _ _ S6) as [Ro Hg].
    rewrite (ref_of_table _ 0 0 0 0 0 0 0 0 0 0 (bool_Z (sd_test s (Z.shiftl 1 15))) Ro); [lia|].
    intros p. rewrite Hg. clear -Hi. table_eq p; rewrite ?Hi;
    unfold STATE_IMPORTBOUND, STATE_EXPORTBOUND, STATE_STICKY; by repeat case_match. }
  rewrite check_true by (rewrite Href; apply Z.eqb_refl). eexists s6, _. split; [done|].
  rewrite (sg_items _ _ _ _ _ _ S6), (sg_frag _ _ _ _ _ _ S6). by split_and!.
Qed.

(** ** Pinning a new fragment *)

Lemma set_sd_obj_id s : set_sd_obj (sd_obj s) s = s.
Proof. by destruct s as [[[[] ? ? ? ?] ? ? ? ? ? ? ? ? ?] ? ? ? ? ? ? ? ? ? ? ?]. Qed.

Definition raise (b : bool) (pin : Z) (g : Z -> Z) (p : Z) : Z := if b then bump 1 pin g p else g p.

(** [o'] is [o] with other pins. *)
Record repinned_obj (o o' : cobj X) (g : Z -> Z) (n : Z) : Prop := {
  ro_pins : pins_are o' g;
  ro_state : co_state o' = co_state o;
  ro_replicas : co_replica_map o' = co_replica_map o;
  ro_waiting : co_waiting o' = co_waiting o;
  ro_few : co_ref o' <= co_ref o + n
}.

Lemma get_if_ok b pin s g :
  pins_are (sd_obj s) g -> co_ref (sd_obj s) < 2 ^ 31 - 1 -> 0 <= g pin ->
  exists o es, get_if b pin s = Ok (set_sd_obj o s, es) /\ repinned_obj (sd_obj s) o (raise b pin g) 1.
Proof.
  intros P B Hg. unfold get_if. destruct b.
  - destruct P as [Ro Hp]. destruct (sd_get_ok pin s Ro B) as [es E].
    eexists _, es. split; [exact E|]. split; try done. apply pins_are_repin; [done|lia|lia].
  - exists (sd_obj s), []. rewrite set_sd_obj_id. split; [done|]. split; try done. lia.
Qed.

Definition init_pins s (g : Z -> Z) : Z -> Z :=
  raise (sd_subtree_root s) PIN_SUBTREE (raise (sd_test s STATE_IMPORTBOUND) PIN_IMPORTBOUND
    (raise (sd_test s STATE_EXPORTBOUND) PIN_EXPORTBOUND (raise (sd_test s STATE_DIRTY) PIN_DIRTY
      (raise (is_replicated (sd_obj s)) PIN_REPLICATED g)))).

Lemma raise_nonneg b pin g : (forall p, 0 <= g p) -> forall p, 0 <= raise b pin g p.
Proof. intros Hg p. unfold raise, bump. specialize (Hg p). destruct b; [|done]. case_match; lia. Qed.

Lemma get_if_then b pin s o0 g n :
  repinned_obj (sd_obj s) o0 g n -> co_ref (sd_obj s) + n < 2 ^ 31 - 1 -> (forall p, 0 <= g p) ->
  exists o es, get_if b pin (set_sd_obj o0 s) = Ok (set_sd_obj o s, es) /\
    repinned_obj (sd_obj s) o (raise b pin g) (n + 1).
Proof.
  intros [P1 P2 P3 P4 P5] B Hg.
  destruct (get_if_ok b pin (set_sd_obj o0 s) g) as (o & es & E & [Q1 Q2 Q3 Q4 Q5]);
    [done|change (co_ref o0 < 2 ^ 31 - 1); lia|done|].
  exists o, es. split; [done|]. change (sd_obj (set_sd_obj o0 s)) with o0 in *. split; [done|congruence..|lia].
Qed.

Lemma init_fragment_pins_ok s g :
  pins_are (sd_obj s) g -> (forall p, 0 <= g p) -> co_ref (sd_obj s) <= 100 ->
  exists o es, init_fragment_pins s = Ok (set_sd_obj o s, es) /\ repinned_obj (sd_obj s) o (init_pins s g) 5.
Proof.
  intros P Hg B. unfold init_fragment_pins.
  destruct (get_if_ok (is_replicated (sd_obj s)) PIN_REPLICATED s g) as (o1 & es1 & -> & P1); [done|lia|done|].
  cbn [mbind res_bind].
  assert (forall o n g', repinned_obj (sd_obj s) o g' n -> forall mask, sd_test (set_sd_obj o s) mask = sd_test s mask) as Ht.
  { intros o n g' [] mask. unfold sd_test, cd_test, state_test.
    change (cd_obj (sd_dir (set_sd_obj o s))) with o. by rewrite ro_state0. }
  rewrite (Ht _ _ _ P1).
  edestruct (get_if_then (sd_test s STATE_DIRTY) PIN_DIRTY s) as (o2 & es2 & -> & P2);
    [exact P1|lia|by apply raise_nonneg|]. cbn [mbind res_bind]. rewrite (Ht _ _ _ P2).
  edestruct (get_if_then (sd_test s STATE_EXPORTBOUND) PIN_EXPORTBOUND s) as (o3 & es3 & -> & P3);
    [exact P2|lia|by do 2 apply raise_nonneg|]. cbn [mbind res_bind]. rewrite (Ht _ _ _ P3).
  edestruct (get_if_then (sd_test s STATE_IMPORTBOUND) PIN_IMPORTBOUND s) as (o4 & es4 & -> & P4);
    [exact P3|lia|by do 3 apply raise_nonneg|]. cbn [mbind res_bind].
  change (sd_subtree_root (set_sd_obj o4 s)) with (sd_subtree_root s).
  edestruct (get_if_then (sd_subtree_root s) PIN_SUBTREE s) as (o5 & es5 & -> & P5);
    [exact P4|lia|by do 4 apply raise_nonneg|]. cbn [mbind res_bind]. eexists o5, _. by split.
Qed.

(** ** New fragments *)

(** [CInode::add_dirfrag] enters the fragment in the map of the inode; when the inode keeps its
    fragments in cache it marks and pins it as sticky. *)
Definition adds_dirfrag (add : sdir -> res sdir) : Prop :=
  forall f, refs_ok (sd_obj f) -> (forall p, pins (sd_obj f) p = own_pins f p) ->
    co_ref (sd_obj f) <= 20 -> sd_test f STATE_STICKY = false ->
  exists o, add f = Ok (set_sd_obj o f) /\ refs_ok o /\
    (forall p, pins o p = own_pins (set_sd_obj o f) p) /\ co_ref o <= co_ref (sd_obj f) + 1 /\
    co_replica_map o = co_replica_map (sd_obj f) /\ co_waiting o = co_waiting (sd_obj f) /\
    (co_state o = co_state (sd_obj f) \/ co_state o = Z.lor (co_state (sd_obj f)) STATE_STICKY).

(** The state bits of a new fragment. *)
Definition sub_bits (d : sdir) (k : Z) : bool :=
  (k =? 30) && sd_is_auth d ||
  Z.testbit (Z.lor MASK_STATE_FRAGMENT_KEPT STATE_COMPLETE) k && sd_test d (Z.shiftl 1 k).

Definition sub_obj (d : sdir) : cobj X :=
  set_replicas (co_replica_map (sd_obj d))
    (state_set (Z.land (co_state (sd_obj d)) (Z.lor MASK_STATE_FRAGMENT_KEPT STATE_COMPLETE))
       (if sd_is_auth d then state_set STATE_AUTH cobj_new else cobj_new)).

Lemma sub_obj_test d k : 0 <= k -> has_bits (co_state (sub_obj d)) (Z.shiftl 1 k) = sub_bits d k.
Proof.
  intros Hk. unfold sub_bits, sd_test, cd_test, state_test. rewrite !has_bits_testbit by done.
  unfold sub_obj. cbn [co_state set_replicas state_set set_co_state].
  rewrite Z.lor_spec, Z.land_spec, (andb_comm (Z.testbit (co_state _) k)). f_equal.
  destruct (sd_is_auth d); cbn [co_state state_set set_co_state cobj_new];
    [|by rewrite Z.bits_0, andb_false_r].
  rewrite andb_true_r, Z.lor_0_l. change STATE_AUTH with (2 ^ 30). destruct (Z.eqb_spec k 30) as [->|N]; [done|].
  by rewrite Z.pow2_bits_false by done.
Qed.

Lemma sub_obj_pins d : pins_are (sub_obj d) (fun _ => 0) /\ co_ref (sub_obj d) = 0 /\ co_waiting (sub_obj d) = [].
Proof.
  unfold sub_obj. destruct (sd_is_auth d); (split_and!; [|done|done]);
    (split; [split; [done| |done]|]; done).
Qed.

(** The fragment before it is entered in the map of the inode. *)
Definition sub_start (d : sdir) (fg : F) (now : T) : sdir :=
  let v := vec_new DIRFRAG_NUM now in
  set_auth_field (sd_auth d)
    (mk_sdir (mk_cdir (mk_fdir (mk_dfrag (sub_obj d) ∅ 0 0 0 0 0 ∅) 0 0 0 false) zero_fnode [] 0 0 ∅ None None 0 None)
       fg CDIR_AUTH_DEFAULT 2 ∅ [] REP_NONE ∅ v v v v).

Lemma sub_start_test d fg now k : 0 <= k -> sd_test (sub_start d fg now) (Z.shiftl 1 k) = sub_bits d k.
Proof. intros Hk. by apply sub_obj_test. Qed.

(** Any later fragment whose state word is that of [sub_start], but for [mask]. *)
Lemma sub_pins (d f : sdir) fg now o :
  f = set_sd_obj o (sub_start d fg now) -> repinned_obj (sub_obj d) o (init_pins (sub_start d fg now) (fun _ => 0)) 5 ->
  forall p, pins o p = own_pins f p.
Proof.
  intros -> [[Ro Hp] Hs Hr Hw _] p. rewrite Hp. unfold init_pins, own_pins.
  assert (forall k, 0 <= k -> sd_test (set_sd_obj o (sub_start d fg now)) (Z.shiftl 1 k) = sub_bits d k) as Ht.
  { intros k Hk. unfold sd_test, cd_test, state_test.
    change (cd_obj (sd_dir (set_sd_obj o (sub_start d fg now)))) with o. rewrite Hs. by apply sub_obj_test. }
  assert (is_frozen_dir (sd_fdir (set_sd_obj o (sub_start d fg now))) = sub_bits d 4) as -> by apply (Ht 4 ltac:(done)).
  unfold STATE_DIRTY, STATE_IMPORTBOUND, STATE_EXPORTBOUND, STATE_STICKY. rewrite !Ht, !sub_start_test by done.
  change (sub_bits d 4) with false. change (sub_bits d 15) with false.
  unfold is_replicated. change (sd_obj (set_sd_obj o (sub_start d fg now))) with o.
  change (sd_obj (sub_start d fg now)) with (sub_obj d). rewrite Hr, Hw, (proj2 (proj2 (sub_obj_pins d))).
  rewrite (bool_decide_true (sd_items _ = ∅)) by done.
  change (sd_subtree_root (set_sd_obj o (sub_start d fg now))) with (sd_subtree_root (sub_start d fg now)).
  rewrite (bool_decide_true (waiting_on_dentry _ = ∅)) by done.
  unfold raise. table_eq p; by repeat case_match.
Qed.

(** A new fragment without dentries, with the state bits [bits]. *)
Record empty_frag (d : sdir) (fg : F) (bits : Z -> bool) (f : sdir) : Prop := {
  ef_refs : refs_ok (sd_obj f);
  ef_pins : forall p, pins (sd_obj f) p = own_pins f p;
  ef_few : co_ref (sd_obj f) <= 6 + bool_Z (bits 4);
  ef_bits : forall k, 0 <= k -> k <> 15 -> sd_test f (Z.shiftl 1 k) = bits k;
  ef_replicas : co_replica_map (sd_obj f) = co_replica_map (sd_obj d);
  ef_waiting : co_waiting (sd_obj f) = [];
  ef_dn_waiting : waiting_on_dentry (sd_dfrag f) = ∅;
  ef_items : sd_items f = ∅;
  ef_frag : frag f = fg;
  ef_auth : sd_auth f = sd_auth d;
  ef_root : fd_subtree_root (sd_fdir f) = negb (bool_decide (sd_auth d = CDIR_AUTH_DEFAULT));
  ef_auth_pins : auth_pins (sd_fdir f) = 0;
  ef_nested : nested_auth_pins (sd_fdir f) = 0 /\ dir_auth_pins (sd_fdir f) = 0;
  ef_counts : forall null head, counter null head (sd_dfrag f) = 0;
  ef_dirty : num_dirty (sd_dir f) = 0;
  ef_fnode : sd_fnode f = set_fn_version (get_version (sd_dir d)) zero_fnode;
  ef_projected : projected_fnode (sd_dir f) = []
}.

Lemma set_dir_auth_same e a s :
  sd_auth s = a -> fd_subtree_root (sd_fdir s) = negb (bool_decide (a = CDIR_AUTH_DEFAULT)) ->
  sd_set_dir_auth e a s = Ok (set_auth_field a s, []).
Proof.
  intros Ha Hr. unfold sd_set_dir_auth. change (sd_subtree_root (set_auth_field a s)) with
    (negb (bool_decide (a = CDIR_AUTH_DEFAULT))). unfold sd_subtree_root. rewrite Hr, Ha.
  rewrite andb_negb_l, andb_negb_r. change (sd_auth (set_auth_field a s)) with a.
  replace ((0 <=? snd a) && (snd a =? CDIR_AUTH_UNKNOWN)) with false; [done|].
  symmetry. apply andb_false_iff. unfold CDIR_AUTH_UNKNOWN. lia.
Qed.

Lemma entered_frag (add : sdir -> res sdir) e now (fac : D) (d : sdir) fg :
  adds_dirfrag add -> ie_is_dir e = true ->
  exists f es, empty_frag d fg (sub_bits d) f /\
    forall replay, make_subfrag e add now fac replay d fg =
      ('(f, es3) ← prepare_new_fragment replay f; Ok (f, es ++ es3)).
Proof.
  intros Hadd Hdir. set (f1 := sub_start d fg now).
  destruct (sub_obj_pins d) as (P0 & R0 & W0).
  destruct (init_fragment_pins_ok f1 (fun _ => 0)) as (o & es1 & E1 & P1); [done|done|change (co_ref (sub_obj d) <= 100); lia|].
  assert (forall p, pins o p = own_pins (set_sd_obj o f1) p) as Hown by (by eapply sub_pins).
  set (c := set_projected_version (get_version (sd_dir d))
              (set_fnode (set_fn_version (get_version (sd_dir d)) zero_fnode) (sd_dir (set_sd_obj o f1)))).
  set (f3 := set_pops (vec_scale fac (pop_me d)) (vec_scale fac (pop_nested d))
             (vec_scale fac (pop_auth_subtree d)) (vec_scale fac (pop_auth_subtree_nested d))
             (set_sd_dir c (set_sd_obj o f1))).
  destruct P1 as [[Ro Hp] Hs Hr Hw Hf]. change (sd_obj f1) with (sub_obj d) in *.
  assert (forall k, 0 <= k -> sd_test f3 (Z.shiftl 1 k) = sub_bits d k) as Hb.
  { intros k Hk. unfold sd_test, cd_test, state_test. change (cd_obj (sd_dir f3)) with o. rewrite Hs.
    by apply sub_obj_test. }
  destruct (Hadd f3) as (o3 & E3 & Ro3 & Hp3 & Hf3 & Hr3 & Hw3 & Hs3);
    [done|done|change (co_ref o <= 20); lia|by apply (Hb 15)|].
  change (sd_obj f3) with o in *.
  exists (set_auth_field (sd_auth d) (set_sd_obj o3 f3)), ((es1 ++ [AddDirfrag fg]) ++ []). split.
  - split; try done.
    + change (co_ref o3 <= 6). lia.
    + intros k Hk N. rewrite <- Hb by done. unfold sd_test, cd_test, state_test.
      change (cd_obj (sd_dir (set_auth_field (sd_auth d) (set_sd_obj o3 f3)))) with o3.
      change (cd_obj (sd_dir f3)) with o. rewrite !has_bits_testbit by done.
      destruct Hs3 as [->| ->]; [done|]. rewrite Z.lor_spec. change STATE_STICKY with (2 ^ 15).
      by rewrite Z.pow2_bits_false, orb_false_r.
    + change (co_replica_map o3 = co_replica_map (sd_obj d)). by rewrite Hr3, Hr.
    + change (co_waiting o3 = []). by rewrite Hw3, Hw.
    + by intros [] [].
  - intros replay. unfold make_subfrag, new_dir. rewrite check_true by done. cbn [mbind res_bind].
    match goal with |- context [init_fragment_pins ?x] => change x with f1 end. rewrite E1. cbn [mbind res_bind].
    unfold set_version. change (is_projected (sd_dir (set_sd_obj o f1))) with false. cbn [negb].
    rewrite check_true by done. cbn [mbind res_bind].
    match goal with |- context [add ?x] => change x with f3 end. rewrite E3. cbn [mbind res_bind].
    rewrite set_dir_auth_same by done. cbn [mbind res_bind].
    destruct (prepare_new_fragment replay _) as [[f es]|]; [|done]. cbn [mbind res_bind].
    by rewrite <- !app_assoc.
Qed.

Definition new_bits (replay : bool) (d : sdir) (k : Z) : bool :=
  if negb replay && sd_is_auth d then (k =? 1) || ((k =? 4) || negb (k =? 5) && sub_bits d k)
  else sub_bits d k.

(** The pins of a fragment whose state bits, but for the freeze, are those of another. *)
Lemma own_pins_frozen (f f' : sdir) :
  sd_items f' = sd_items f -> sd_fdir f' = set_fd_obj (sd_obj f') (sd_fdir f) ->
  co_replica_map (sd_obj f') = co_replica_map (sd_obj f) -> co_waiting (sd_obj f') = co_waiting (sd_obj f) ->
  (forall k, k = 29 \/ k = 10 \/ k = 11 \/ k = 15 -> sd_test f' (Z.shiftl 1 k) = sd_test f (Z.shiftl 1 k)) ->
  is_frozen_dir (sd_fdir f) = false -> is_frozen_dir (sd_fdir f') = true ->
  forall p, raise true PIN_FROZEN (own_pins f) p = own_pins f' p.
Proof.
  intros Hi Hd Hr Hw Hb F1 F2 p. unfold own_pins.
  assert (waiting_on_dentry (sd_dfrag f') = waiting_on_dentry (sd_dfrag f)) as ->
    by (change (sd_dfrag f') with (fd_dir (sd_fdir f')); by rewrite Hd).
  unfold sd_subtree_root, is_replicated. rewrite Hi, Hr, Hw, F1, F2.
  assert (auth_pins (sd_fdir f') = auth_pins (sd_fdir f)) as -> by by rewrite Hd.
  assert (fd_subtree_root (sd_fdir f') = fd_subtree_root (sd_fdir f)) as -> by by rewrite Hd.
  unfold STATE_DIRTY, STATE_IMPORTBOUND, STATE_EXPORTBOUND, STATE_STICKY.
  rewrite !Hb by tauto. unfold raise. table_eq p; done.
Qed.

Lemma freeze_new_ok (f : sdir) :
  pins_are (sd_obj f) (own_pins f) -> co_ref (sd_obj f) <= 100 -> is_frozen_dir (sd_fdir f) = false ->
  exists f' es, ('(s, es) ← lift_fd (_freeze_dir (sd_fdir f)) f;
                 Ok (set_sd_dir (mark_complete (sd_dir s)) s, es)) = Ok (f', es) /\
    refs_ok (sd_obj f') /\ (forall p, pins (sd_obj f') p = own_pins f' p) /\
    co_ref (sd_obj f') = co_ref (sd_obj f) + 1 /\
    (forall k, 0 <= k -> sd_test f' (Z.shiftl 1 k) =
       (k =? 1) || ((k =? 4) || negb (k =? 5) && sd_test f (Z.shiftl 1 k))) /\
    exists o, f' = set_sd_dir (mark_complete (sd_dir (set_sd_obj o f))) (set_sd_obj o f) /\
      co_replica_map o = co_replica_map (sd_obj f) /\ co_waiting o = co_waiting (sd_obj f).
Proof.
  intros [Ro Hp] B Hf. set (o1 := state_set STATE_FROZENDIR (state_clear STATE_FREEZINGDIR (sd_obj f))).
  assert (pins_are o1 (own_pins f)) as P1 by (by do 2 apply pins_are_state).
  unfold lift_fd, _freeze_dir, fd_get, dir_get.
  match goal with |- context [get ?x] => change x with o1 end.
  rewrite get_ok; [|apply P1|change (co_ref (sd_obj f) < 2 ^ 31 - 1); lia]. cbn [mbind res_bind].
  set (g := set_sd_obj (repin 1 PIN_FROZEN o1) f). set (f' := set_sd_dir (mark_complete (sd_dir g)) g).
  assert (forall k, 0 <= k -> sd_test f' (Z.shiftl 1 k) =
     (k =? 1) || ((k =? 4) || negb (k =? 5) && sd_test f (Z.shiftl 1 k))) as Hb.
  { intros k Hk. change (sd_test f' (Z.shiftl 1 k)) with (state_test (state_set (Z.shiftl 1 1)
      (state_set (Z.shiftl 1 4) (state_clear (Z.shiftl 1 5) (sd_obj f)))) (Z.shiftl 1 k)).
    rewrite !state_test_set, state_test_clear by done.
    by rewrite (Z.eqb_sym 1), (Z.eqb_sym 4), (Z.eqb_sym 5). }
  assert (pins_are (sd_obj f') (raise true PIN_FROZEN (own_pins f))) as [Ro2 Hp2].
  { apply pins_are_state, pins_are_repin; [done| |change (co_ref (sd_obj f) + 1 < 2 ^ 31); lia].
    at_pin. rewrite Hf. unfold bool_Z. lia. }
  exists f'. eexists. split; [done|]. split; [done|]. split_and!; [|done|done|by eexists].
  intros p. rewrite Hp2. apply own_pins_frozen; try done; [|by apply (Hb 4)].
  intros k [->|[->|[->| ->]]]; by rewrite Hb.
Qed.

Lemma prepare_new_ok replay (d : sdir) fg (f : sdir) :
  empty_frag d fg (sub_bits d) f ->
  exists f' es, prepare_new_fragment replay f = Ok (f', es) /\ empty_frag d fg (new_bits replay d) f'.
Proof.
  intros E. unfold prepare_new_fragment, new_bits. pose proof (ef_bits _ _ _ _ E) as Hb.
  assert (sd_is_auth f = sd_is_auth d) as ->.
  { change (sd_test f (Z.shiftl 1 30) = sd_is_auth d). rewrite Hb by done.
    unfold sub_bits. by rewrite andb_true_l, andb_false_l, orb_false_r. }
  destruct (negb replay && sd_is_auth d); [|eauto].
  pose proof (ef_few _ _ _ _ E) as B. change (sub_bits d 4) with false in B. simpl in B.
  destruct (freeze_new_ok f) as (f' & es & E' & R1 & R2 & R3 & R4 & o & -> & R5 & R6);
    [by split; apply E|lia|apply (Hb 4); done|].
  rewrite E'. eexists _, _. split; [done|]. destruct E. split; try done.
  - rewrite R3. simpl. lia.
  - intros k Hk N. by rewrite R4, Hb.
  - by change (co_replica_map o = co_replica_map (sd_obj d)); rewrite R5.
  - by change (co_waiting o = []); rewrite R6.
Qed.

(** ** Filling the new fragments *)

Lemma new_bits_off replay (d : sdir) k : k = 3 \/ k = 5 -> new_bits replay d k = false.
Proof. intros [->| ->]; unfold new_bits; by destruct (_ && _). Qed.

Lemma new_bits_frozen replay (d : sdir) : new_bits replay d 4 = negb replay && sd_is_auth d.
Proof. unfold new_bits. by destruct (_ && _). Qed.

Lemma new_bits_auth replay (d : sdir) : new_bits replay d 30 = sd_is_auth d.
Proof.
  unfold new_bits, sub_bits. change (Z.testbit _ 30) with false. simpl.
  destruct (negb replay && sd_is_auth d); by rewrite orb_false_r.
Qed.

Lemma empty_receives e replay (d : sdir) fg f (m : gmap dentry_key_t (dentry X)) :
  empty_frag d fg (new_bits replay d) f -> fits e ∅ m -> receives e m f.
Proof.
  intros E Hf. pose proof E as []. destruct ef_nested0 as [N1 N2]. split_and!.
  - assert (pins (sd_obj f) PIN_CHILD = 0) as Hc.
    { rewrite ef_pins0. unfold own_pins. rewrite ef_items0. at_pin. by rewrite bool_decide_true. }
    split; rewrite ?ef_items0, ?N1, ?N2, ?isum_empty, ?Hc; try done.
    + destruct (new_bits replay d 4); simpl in *; lia.
    + change (sd_test f (Z.shiftl 1 5) = false). rewrite ef_bits0 by done. apply new_bits_off. tauto.
    + change (sd_test f (Z.shiftl 1 3) = false). rewrite ef_bits0 by done. apply new_bits_off. tauto.
  - split; rewrite ?ef_items0, ?ef_fnode0; try done.
    intros g G. rewrite isum_empty. apply (nf_zero _ G).
  - by rewrite ef_items0.
Qed.

(** The pins stay those the state accounts for while dentries move. *)
Lemma moved_own_pins e f f' :
  frag_ok e f' -> moved f f' -> (forall p, pins (sd_obj f) p = own_pins f p) ->
  forall p, pins (sd_obj f') p = own_pins f' p.
Proof.
  intros O M Hp p. unfold own_pins, sd_subtree_root, is_frozen_dir, fd_test, is_replicated.
  change (state_test (fd_obj (sd_fdir f')) STATE_FROZENDIR) with (sd_test f' STATE_FROZENDIR).
  rewrite !(moved_test _ _ _ M), (mv_replicas _ _ M), (mv_waiting _ _ M), (mv_dn_waiting _ _ M),
    (mv_auth_pins _ _ M), (mv_root _ _ M).
  destruct (decide (p = PIN_CHILD)) as [->|N].
  - rewrite (fo_child _ _ O). at_pin. case_decide; [by rewrite bool_decide_true|by rewrite bool_decide_false].
  - rewrite (mv_pins _ _ M) by done. rewrite Hp. unfold own_pins, pin_table.
    by rewrite (proj2 (Z.eqb_neq p PIN_CHILD)) by done.
Qed.

Lemma filled_ready e replay (d : sdir) fg f f' m :
  empty_frag d fg (new_bits replay d) f -> ready e replay d -> filled e f f' m -> ready e replay f'.
Proof.
  intros E Hr [O _ M _]. split.
  - done.
  - apply (moved_own_pins e f); [done..|apply E].
  - change (sd_test f' (Z.shiftl 1 4) = negb replay && sd_test f' (Z.shiftl 1 30)).
    rewrite !(moved_test _ _ _ M), !(ef_bits _ _ _ _ E), new_bits_frozen, new_bits_auth by done. done.
  - rewrite (mv_waiting _ _ M), (ef_waiting _ _ _ _ E). done.
  - rewrite (mv_waiting _ _ M), (ef_waiting _ _ _ _ E), (mv_dn_waiting _ _ M), (ef_dn_waiting _ _ _ _ E). done.
  - change (sd_test f' (Z.shiftl 1 30) = false -> co_replica_map (sd_obj f') = ∅).
    rewrite (moved_test _ _ _ M), (ef_bits _ _ _ _ E), new_bits_auth, (mv_replicas _ _ M), (ef_replicas _ _ _ _ E)
      by done. apply (rd_replicas _ _ _ Hr).
  - by rewrite (mv_root _ _ M), (mv_auth _ _ M), (ef_root _ _ _ _ E), (ef_auth _ _ _ _ E).
Qed.

Lemma make_subfrags_ok (add : sdir -> res sdir) e now (fac : D) replay (d : sdir) slots fgs :
  adds_dirfrag add -> ie_is_dir e = true -> (length fgs <= slots)%nat ->
  exists subs es, make_subfrags e add now fac replay d slots fgs = Ok (subs, es) /\
    Forall2 (fun fg f => empty_frag d fg (new_bits replay d) f) fgs subs.
Proof.
  intros Ha Hd. revert slots. induction fgs as [|fg fgs IH]; intros slots Hl; simpl.
  - eexists [], []. split; [done|constructor].
  - destruct slots as [|slots]; [simpl in Hl; lia|].
    destruct (entered_frag add e now fac d fg Ha Hd) as (f0 & es0 & E0 & ->).
    destruct (prepare_new_ok replay d fg f0 E0) as (f & es & -> & E). cbn [mbind res_bind].
    destruct (IH slots) as (subs & es' & -> & F'); [simpl in Hl; lia|].
    eexists _, _. split; [done|]. by constructor.
Qed.

Lemma own_few s : refs_ok (sd_obj s) -> (forall p, pins (sd_obj s) p = own_pins s p) ->
  co_ref (sd_obj s) <= 10 + pins (sd_obj s) PIN_CHILD.
Proof.
  intros Ro Hp. rewrite (ref_of_table _ _ _ _ _ _ _ _ _ _ _ _ Ro Hp), Hp. at_pin.
  assert (forall b, 0 <= bool_Z b <= 1) as Hb by (intros []; simpl; lia).
  repeat match goal with |- context [bool_Z ?b] => pose proof (Hb b); generalize dependent (bool_Z b); intros end.
  lia.
Qed.

(** The fragment with the auth pin of [prepare_old_fragment]. *)
Lemma pinned_ready e replay d :
  ready e replay d -> auth_pins (sd_fdir d) = 0 ->
  let d1 := set_sd_obj (repin 1 PIN_AUTHPIN (sd_obj d)) d in
  ready e replay (set_sd_dir (set_cd_fdir (set_auth_pins 1 (sd_fdir d1)) (sd_dir d1)) d1).
Proof.
  intros Hr Ha d1. pose proof (rd_ok _ _ _ Hr) as O. pose proof (fo_refs _ _ O) as Ro.
  pose proof (own_few _ Ro (rd_pins _ _ _ Hr)) as B. pose proof (frag_few _ _ O).
  assert (pins_are (repin 1 PIN_AUTHPIN (sd_obj d)) (raise true PIN_AUTHPIN (own_pins d))) as [Ro' Hp'].
  { apply pins_are_repin; [split; [done|apply Hr]| |lia]. at_pin. rewrite Ha. simpl. lia. }
  assert (pins (repin 1 PIN_AUTHPIN (sd_obj d)) PIN_CHILD = pins (sd_obj d) PIN_CHILD) as Hc
    by (by rewrite pins_repin, decide_False).
  set (d' := set_sd_dir _ d1). destruct O, Hr. split; try done.
  - split; try done; change (sd_obj d') with (repin 1 PIN_AUTHPIN (sd_obj d)); rewrite ?Hc; [done|].
    cbn [co_ref repin set_refs]. lia.
  - intros p. change (sd_obj d') with (repin 1 PIN_AUTHPIN (sd_obj d)). rewrite Hp'.
    change (raise true PIN_AUTHPIN (own_pins d) p = own_pins d' p). unfold raise, own_pins. rewrite Ha.
    table_eq p; done.
Qed.

Lemma prepare_old_ok e replay d :
  ready e replay d -> auth_pins (sd_fdir d) = 0 ->
  exists d' es, prepare_old_fragment replay d = Ok (d', es) /\ ready e replay d' /\
    auth_pins (sd_fdir d') = bool_Z (negb replay && sd_is_auth d') /\
    sd_is_auth d' = sd_is_auth d /\ sd_items d' = sd_items d /\ sd_fnode d' = sd_fnode d /\
    frag d' = frag d /\ waiters_of d' = waiters_of d /\ sd_auth d' = sd_auth d /\
    co_state (sd_obj d') = co_state (sd_obj d) /\ co_replica_map (sd_obj d') = co_replica_map (sd_obj d).
Proof.
  intros Hr Ha. unfold prepare_old_fragment. destruct (negb replay && sd_is_auth d) eqn:L.
  - pose proof (rd_ok _ _ _ Hr) as O. pose proof (frag_few _ _ O). pose proof (fo_refs _ _ O) as Ro.
    pose proof (pinned_ready e replay d Hr Ha) as Hr'. cbn zeta in Hr'.
    unfold lift_cd, cd_auth_pin, on_fdir, auth_pin, fd_get, dir_get.
    change (auth_pins (cd_fdir (sd_dir d))) with (auth_pins (sd_fdir d)). rewrite Ha.
    change (0 =? 0) with true. cbn iota. change (df_obj (fd_dir (cd_fdir (sd_dir d)))) with (sd_obj d).
    rewrite get_ok by (done || lia). cbn [mbind res_bind set_fd_dir auth_pins].
    change (auth_pins (cd_fdir (sd_dir d))) with (auth_pins (sd_fdir d)). rewrite Ha.
    change (s32 (0 + 1)) with 1. eexists _, _. split; [done|]. split; [exact Hr'|].
    split_and!; try done. change (1 = bool_Z (negb replay && sd_is_auth d)). by rewrite L.
  - eexists d, []. split_and!; try done. by rewrite L.
Qed.

End Finish2.
