(* ===== verification/SplitMerge.v ===== *)
(** * split and merge of fragments

    Neither aborts on fragments that are [ready]; every dentry ends in the fragment its name
    belongs to; the statistics of the new fragments pass [check_rstats]; what the inode has not
    gathered yet is handed over; and splitting and merging again restores the directory. *)

From stdpp Require Import base tactics numbers list gmap fin_maps sorting.
From Stdlib Require Import ZArith QArith Lia Ascii.
From S2P Require Import Prelude Double Stats Subtree LoadVec Keys CacheObject Dentries Freeze Versions Fragment Refragment FragmentPins.
Open Scope Z_scope.
Open Scope list_scope.

Section Split.
Context {X T C R D F : Type} `{CephConst} `{UTime T} `{Bloom} `{CDouble D} `{DecayCounter C T R D}
  `{FragSplit F} `{DirentTypes} `{EqDecision F}.
Abbreviation sdir := (sdir X T C F).
Implicit Types e : ienv T.
Implicit Types s d f : sdir.

(** [frag_t]: [split] lists the [1 << bits] parts, and the bits of a part name its position. *)
Record splits_into (whole : F) (bits : Z) : Prop := {
  si_bits : 0 <= bits;
  si_length : Z.of_nat (length (fg_split whole bits)) = Z.shiftl 1 bits;
  si_slot : forall i fg, fg_split whole bits !! i = Some fg -> slot whole fg = Z.of_nat i
}.

(** The dentries whose name belongs to [fg]. *)
Definition dentries_of (pick : cstring -> F) (fg : F) (m : gmap dentry_key_t (dentry X)) :=
  filter (fun p : dentry_key_t * dentry X => pick (dn_name (snd p)) = fg) m.

(** [f] is the part [fg] of [d] once its dentries are there. *)
Record part_of e (replay : bool) (pick : cstring -> F) d (fg : F) f : Prop := {
  pt_frag : frag f = fg;
  pt_items : sd_items f = dentries_of pick fg (sd_items d);
  pt_ready : ready e replay f;
  pt_counted : counted e f;
  pt_auth_pins : auth_pins (sd_fdir f) = 0;
  pt_auth : sd_auth f = sd_auth d;
  pt_is_auth : sd_is_auth f = sd_is_auth d;
  pt_complete : negb replay && sd_is_auth d = true -> sd_test f STATE_COMPLETE = true;
  pt_waiters : co_waiting (sd_obj f) = [] /\ waiting_on_dentry (sd_dfrag f) = ∅;
  pt_version : fn_version (sd_fnode f) = fn_version (sd_fnode d);
  pt_projected : projected_fnode (sd_dir f) = [];
  pt_mtime : fi_mtime (fn_fragstat (sd_fnode f)) = ut_zero
}.

Lemma slot_items_part whole bits pick i fg (m : gmap dentry_key_t (dentry X)) :
  splits_into whole bits -> fg_split whole bits !! i = Some fg ->
  (forall k dn, m !! k = Some dn -> pick (dn_name dn) ∈ fg_split whole bits) ->
  slot_items whole pick i m = dentries_of pick fg m.
Proof.
  intros S Hi Hp. apply map_filter_ext. intros k dn Hk. simpl.
  apply Hp, list_elem_of_lookup in Hk as [j Hj].
  rewrite (si_slot _ _ S j _ Hj). split; [|intros E; rewrite E in Hj].
  - intros E%Nat2Z.inj. subst j. congruence.
  - pose proof (si_slot _ _ S i _ Hi). pose proof (si_slot _ _ S j _ Hj). congruence.
Qed.

Lemma filled_part e replay pick d fg f f' :
  empty_frag d fg (new_bits replay d) f -> ready e replay d ->
  filled e f f' (dentries_of pick fg (sd_items d)) -> part_of e replay pick d fg f'.
Proof.
  intros E Hr Hf. pose proof Hf as [O Hc M Hi]. split; try done.
  - by rewrite (mv_frag _ _ M), (ef_frag _ _ _ _ E).
  - by rewrite Hi, (ef_items _ _ _ _ E), map_empty_union.
  - by eapply filled_ready.
  - by rewrite (mv_auth_pins _ _ M), (ef_auth_pins _ _ _ _ E).
  - by rewrite (mv_auth _ _ M), (ef_auth _ _ _ _ E).
  - rewrite (moved_is_auth _ _ M). change (sd_test f (Z.shiftl 1 30) = sd_is_auth d).
    rewrite (ef_bits _ _ _ _ E) by done. apply new_bits_auth.
  - intros L. rewrite (moved_test _ _ _ M). unfold STATE_COMPLETE. rewrite (ef_bits _ _ _ _ E) by done.
    unfold new_bits. by rewrite L.
  - by rewrite (mv_waiting _ _ M), (mv_dn_waiting _ _ M), (ef_waiting _ _ _ _ E), (ef_dn_waiting _ _ _ _ E).
  - rewrite (mv_version _ _ M), (ef_fnode _ _ _ _ E). done.
  - by rewrite (mv_projected _ _ M), (ef_projected _ _ _ _ E).
  - by rewrite (mv_mtime _ _ M), (ef_fnode _ _ _ _ E).
Qed.

(** What [split] needs of a fragment. *)
Record can_split e (replay : bool) (pick : cstring -> F) (bits : Z) d : Prop := {
  cs_ready : ready e replay d;
  cs_auth_pins : auth_pins (sd_fdir d) = 0;
  cs_complete : replay || sd_test d STATE_COMPLETE || negb (sd_is_auth d) = true;
  cs_dir : ie_is_dir e = true;
  cs_frag : splits_into (frag d) bits;
  cs_names : forall k dn, sd_items d !! k = Some dn -> pick (dn_name dn) ∈ fg_split (frag d) bits;
  cs_fits : fits e ∅ (sd_items d)
}.

Lemma moved_ready e replay d d' : ready e replay d -> moved d d' -> frag_ok e d' -> ready e replay d'.
Proof.
  intros Hr M O. destruct Hr. split; try done.
  - by apply (moved_own_pins e d).
  - change (sd_test d' STATE_FROZENDIR = negb replay && sd_is_auth d').
    by rewrite (moved_test _ _ _ M), (moved_is_auth _ _ M).
  - by rewrite (mv_waiting _ _ M).
  - by rewrite (mv_waiting _ _ M), (mv_dn_waiting _ _ M).
  - by rewrite (moved_is_auth _ _ M), (mv_replicas _ _ M).
  - by rewrite (mv_root _ _ M), (mv_auth _ _ M).
Qed.

Lemma moved_waiters d d' : moved d d' -> waiters_of d' = waiters_of d.
Proof.
  intros M. unfold waiters_of, all_dentry_waiters. by rewrite (mv_waiting _ _ M), (mv_dn_waiting _ _ M).
Qed.

(** The loops of [split]: fragments are made, and the dentries go to them. *)
Lemma split_loops (add : sdir -> res sdir) e pick now fac bits replay d d1 :
  adds_dirfrag add -> can_split e replay pick bits d -> ready e replay d1 ->
  sd_is_auth d1 = sd_is_auth d -> sd_items d1 = sd_items d -> sd_fnode d1 = sd_fnode d ->
  frag d1 = frag d -> sd_auth d1 = sd_auth d ->
  exists subs es2 d2 subs' es3,
    make_subfrags e add now fac replay d1 (Z.to_nat (Z.shiftl 1 bits)) (fg_split (frag d) bits) = Ok (subs, es2) /\
    repartition e pick (size (sd_items d1)) d1 subs = Ok (d2, subs', es3) /\
    ready e replay d2 /\ moved d1 d2 /\ sd_items d2 = ∅ /\
    Forall2 (part_of e replay pick d) (fg_split (frag d) bits) subs'.
Proof.
  intros Ha [Hr Hap Hcm Hdir Hfg Hnm Hft] R1 I1 M1 N1 F1 U1.
  destruct (make_subfrags_ok add e now fac replay d1 (Z.to_nat (Z.shiftl 1 bits)) (fg_split (frag d) bits))
    as (subs & es2 & E2 & F2); [done|done| |].
  { pose proof (si_length _ _ Hfg). lia. }
  destruct (repartition_ok e pick (size (sd_items d1)) d1 subs) as (d2 & subs' & es3 & E3 & O2 & M2 & I2 & N2 & L2 & G2).
  { apply R1. }
  { apply Forall_forall. intros f Hf. apply list_elem_of_lookup in Hf as [i Hi].
    destruct (Forall2_lookup_r _ _ _ _ _ F2 Hi) as (fg & _ & E). eapply empty_receives; [exact E|]. by rewrite M1. }
  { intros k dn Hk. rewrite M1, F1 in *. apply Hnm, list_elem_of_lookup in Hk as [j Hj].
    rewrite (si_slot _ _ Hfg _ _ Hj), <- (Forall2_length _ _ _ F2). apply lookup_lt_Some in Hj. lia. }
  { done. }
  exists subs, es2, d2, subs', es3. split_and!; [done|done|by eapply moved_ready|done|done|].
  apply Forall2_same_length_lookup_2; [by rewrite L2, (Forall2_length _ _ _ F2)|]. intros i fg f' Hi Hf'.
  destruct (Forall2_lookup_l _ _ _ _ _ F2 Hi) as (f & Hf & E). destruct (G2 i f Hf) as (f'' & Hf'' & Fl).
  assert (f'' = f') as -> by congruence. rewrite F1, M1 in Fl.
  rewrite (slot_items_part _ bits pick i fg) in Fl by done. rewrite <- M1 in Fl.
  destruct (filled_part e replay pick d1 fg f f' E R1 Fl). split; try done; try congruence.
  by rewrite <- I1.
Qed.

(** The shape of the result of [split]. *)
Lemma split_shape (add : sdir -> res sdir) e pick now bits replay ws d :
  adds_dirfrag add -> can_split e replay pick bits d ->
  exists d' f fs es,
    split e pick add now bits replay ws d =
      Ok (d', on_fnode (add_diffs (rstat_diff e (sd_fnode d) nest_info_new)
                          (fragstat_diff e (sd_fnode d) frag_info_new)) (on_fnode (account e) f) ::
              map (on_fnode (account e)) fs, ws ++ (if replay then [] else waiters_of d), es) /\
    sd_items d' = ∅ /\ frag d' = frag d /\ co_ref (sd_obj d') = bool_Z (sd_test d STATE_STICKY) /\
    Forall2 (part_of e replay pick d) (fg_split (frag d) bits) (f :: fs).
Proof.
  intros Ha Hcs. unfold split. rewrite check_true by apply Hcs.
  destruct (prepare_old_ok e replay d (cs_ready _ _ _ _ _ Hcs) (cs_auth_pins _ _ _ _ _ Hcs))
    as (d1 & es1 & -> & R1 & A1 & I1 & M1 & N1 & F1 & W1 & U1 & S1 & P1). cbn [mbind res_bind].
  destruct (split_loops add e pick now (d_div (d_of_Z 1) (d_of_Z (Z.shiftl 1 bits))) bits replay d d1 Ha Hcs R1)
    as (subs & es2 & d2 & subs' & es3 & -> & E3 & R2 & M2 & I2 & Hpart); [done..|]. cbn [mbind res_bind].
  rewrite E3. cbn [mbind res_bind]. pose proof (cs_frag _ _ _ _ _ Hcs) as Hfg.
  destruct subs' as [|f fs].
  { apply Forall2_length in Hpart. pose proof (si_length _ _ Hfg) as Hl. rewrite Hpart, Z.shiftl_1_l in Hl.
    pose proof (Z.pow_pos_nonneg 2 bits ltac:(done) (si_bits _ _ Hfg)). simpl in Hl. lia. }
  cbn [map].
  destruct (finish_old_ok e replay ws d2 R2) as (d3 & es4 & -> & I3 & F3 & R3); [|done|].
  { by rewrite (mv_auth_pins _ _ M2), (moved_is_auth _ _ M2). }
  cbn [mbind res_bind]. eexists d3, f, fs, _. split; [|split_and!; [done| | |done]].
  - by rewrite (moved_waiters _ _ M2), W1.
  - by rewrite F3, (mv_frag _ _ M2).
  - rewrite R3, (moved_test _ _ _ M2). unfold sd_test, cd_test, state_test.
    by change (cd_obj (sd_dir d1)) with (sd_obj d1); rewrite S1.
Qed.

(** ** Statistics *)

Lemma sum_perm (l l' : list Z) : l ≡ₚ l' -> foldr Z.add 0 l = foldr Z.add 0 l'.
Proof. induction 1; simpl; lia. Qed.

Lemma nest_fold_field g (l : list (nest_info_t T)) n :
  nest_field g -> g (fold_left (fun acc x => nest_add acc x 1) l n) =
    match l with [] => g n | _ => s64 (g n + foldr Z.add 0 (map g l)) end.
Proof.
  intros G. revert n. induction l as [|x l IH]; intros n; [done|]. simpl fold_left. rewrite IH.
  destruct l as [|y l]; simpl; [rewrite (nf_add _ G); f_equal; lia|].
  rewrite (nf_add _ G), s64_add_l. f_equal. simpl. lia.
Qed.

Lemma nest_total_field g (l : list (nest_info_t T)) :
  nest_field g -> g (nest_total l) = s64 (foldr Z.add 0 (map g l)).
Proof.
  intros G. unfold nest_total. rewrite nest_fold_field, (nf_zero _ G) by done. by destruct l.
Qed.

(** The accounted statistics of the children are settled: nothing is projected. *)
Definition kids_settled e (m : gmap dentry_key_t (dentry X)) : Prop :=
  forall k dn ino, m !! k = Some dn -> dn_linkage dn = LPrimary ino ->
    kid_projected_accounted (ie_kid e ino) = kid_accounted (ie_kid e ino).

Lemma sub_info_field e g (m : gmap dentry_key_t (dentry X)) :
  nest_field g -> kids_settled e m -> g (sub_info e m) = s64 (isum (kid_of e g) m).
Proof.
  intros G Hk. unfold sub_info. rewrite nest_total_field, isum_list by done. f_equal.
  set (v := fun p : dentry_key_t * dentry X => match head_rstat e (snd p) with Some x => g x | None => 0 end).
  assert (forall l, foldr Z.add 0 (map g (omap (fun p => head_rstat e (snd p)) l)) = foldr Z.add 0 (map v l)) as ->.
  { induction l as [|p l IH]; [done|]. cbn [map foldr]. rewrite <- IH. unfold v at 1. cbn [omap list_omap].
    by destruct (head_rstat e (snd p)). }
  rewrite (sum_perm _ (map v (map_to_list m))) by (by rewrite ordered_perm). f_equal. apply map_ext_in.
  intros [k dn] Hin%list_elem_of_In%elem_of_map_to_list. unfold v, head_rstat, kid_of. simpl.
  destruct (dn_linkage dn) as [|ino|] eqn:E; [done| |done]. rewrite (Hk k dn ino) by done. by destruct (is_head dn).
Qed.

Lemma head_items_sum e (m : gmap dentry_key_t (dentry X)) :
  class_size false true m = isum (file_of e) m + isum (subdir_of e) m.
Proof.
  rewrite <- isum_add. induction m as [|k dn m Hk IH] using map_ind.
  - unfold class_size. by rewrite map_filter_empty, map_size_empty, isum_empty.
  - rewrite class_size_insert, isum_insert, IH by done. unfold in_class, file_of, subdir_of, live.
    destruct (is_null dn), (is_head dn), (ent_is_dir e dn); simpl; lia.
Qed.

(** A fragment that counts its dentries passes the check. *)
Lemma counted_check dbg e s :
  counted e s -> kids_settled e (sd_items s) -> Z.of_nat (size (sd_items s)) < 2 ^ 32 ->
  check_rstats dbg e s = Ok true.
Proof.
  intros Hc Hk Hz. unfold check_rstats. destruct (negb dbg); [done|]. destruct (_ || _); [done|].
  assert (num_head_items (sd_dfrag s) =
    s64 (fi_nfiles (fn_fragstat (sd_fnode s)) + fi_nsubdirs (fn_fragstat (sd_fnode s)))) as E.
  { pose proof (ct_count _ _ Hc false true) as En. simpl in En. rewrite En, (ct_files _ _ Hc), (ct_subdirs _ _ Hc).
    pose proof (class_size_range false true (sd_items s)) as Hr. rewrite (head_items_sum e) in *.
    rewrite <- (s64_id (isum _ _ + _)) at 1 by (unfold in_s64; lia). solve_s64. }
  rewrite check_true by (by apply Z.eqb_eq).
  pose proof (fun g G => sub_info_field e g (sd_items s) G Hk) as Hs. pose proof (ct_rstat _ _ Hc) as Hr.
  rewrite (Hs _ nest_field_rbytes), (Hr _ nest_field_rbytes), check_true by apply Z.eqb_refl.
  rewrite (Hs _ nest_field_rfiles), (Hr _ nest_field_rfiles), check_true by apply Z.eqb_refl.
  by rewrite (Hs _ nest_field_rsubdirs), (Hr _ nest_field_rsubdirs), check_true by apply Z.eqb_refl.
Qed.

(** What [account] and [add_diffs] do to the fnode does not show in the counts. *)
Definition keeps_stats (h : fnode_t T -> fnode_t T) : Prop := forall n,
  fn_version (h n) = fn_version n /\ fi_nfiles (fn_fragstat (h n)) = fi_nfiles (fn_fragstat n) /\
  fi_nsubdirs (fn_fragstat (h n)) = fi_nsubdirs (fn_fragstat n) /\
  fi_mtime (fn_fragstat (h n)) = fi_mtime (fn_fragstat n) /\
  forall g, nest_field g -> g (fn_rstat (h n)) = g (fn_rstat n).

Lemma keeps_account e : keeps_stats (account e).
Proof. intros n. split_and!; try done. intros g G. apply (nf_account _ G). Qed.

Lemma keeps_diffs rd fd : keeps_stats (add_diffs rd fd).
Proof. by intros n. Qed.

Lemma counted_on_fnode e f h : keeps_stats h -> counted e f -> counted e (on_fnode h f).
Proof.
  intros Hh [C1 C2 C3 C4 C5]. destruct (Hh (sd_fnode f)) as (_ & N1 & N2 & _ & G).
  assert (sd_fnode (on_fnode h f) = h (sd_fnode f)) as Ef by done.
  split; rewrite ?Ef, ?N1, ?N2; try done. intros g Hg. rewrite G by done. by apply C4.
Qed.

Lemma part_on_fnode e replay pick d fg f h :
  keeps_stats h -> part_of e replay pick d fg f -> part_of e replay pick d fg (on_fnode h f).
Proof.
  intros Hh []. destruct (Hh (sd_fnode f)) as (V & _ & _ & M & _).
  assert (sd_fnode (on_fnode h f) = h (sd_fnode f)) as Ef by done.
  split; try done; rewrite ?Ef, ?V, ?M; try done.
  - destruct pt_ready0 as [[] ? ? ? ? ? ?]. by split.
  - by apply counted_on_fnode.
Qed.

Lemma settled_parts e replay pick d fgs f fs rd fd :
  Forall2 (part_of e replay pick d) fgs (f :: fs) ->
  Forall2 (part_of e replay pick d) fgs
    (on_fnode (add_diffs rd fd) (on_fnode (account e) f) :: map (on_fnode (account e)) fs).
Proof.
  intros P. apply Forall2_cons_inv_r in P as (fg & fgs' & Pf & Pfs & ->).
  constructor; [by apply part_on_fnode, part_on_fnode; [apply keeps_diffs|apply keeps_account|]|].
  clear -Pfs. induction Pfs; constructor; [by apply part_on_fnode; [apply keeps_account|]|done].
Qed.

Lemma dentries_of_sub pick fg (m : gmap dentry_key_t (dentry X)) : dentries_of pick fg m ⊆ m.
Proof. apply map_filter_subseteq. Qed.

Lemma part_check e replay pick d fg f dbg :
  part_of e replay pick d fg f -> kids_settled e (sd_items d) ->
  Z.of_nat (size (∅ : gmap dentry_key_t (dentry X))) + Z.of_nat (size (sd_items d)) < 2 ^ 32 ->
  check_rstats dbg e f = Ok true.
Proof.
  intros P Hk Hz. pose proof (dentries_of_sub pick fg (sd_items d)) as Hs.
  apply counted_check; [apply P|rewrite (pt_items _ _ _ _ _ _ P)..].
  - intros k dn ino Hd. apply (Hk k). by eapply lookup_weaken.
  - pose proof (map_subseteq_size _ _ Hs). rewrite map_size_empty in Hz. lia.
Qed.

(** C16: [split] of a fragment that is ready and complete does not abort.  The corpse is empty and
    holds no pin but that of a sticky inode; its waiters are handed over in order; for each
    fragment of [frag.split] there is one with exactly the dentries whose name belongs there,
    whose counters, statistics, pins and auth pins are those of its dentries, so that it passes
    [check_rstats] when nothing is projected on the children. *)
Theorem split_partitions (add : sdir -> res sdir) e pick now bits replay ws d :
  adds_dirfrag add -> can_split e replay pick bits d ->
  exists d' subs es,
    split e pick add now bits replay ws d = Ok (d', subs, ws ++ (if replay then [] else waiters_of d), es) /\
    sd_items d' = ∅ /\ co_ref (sd_obj d') = bool_Z (sd_test d STATE_STICKY) /\
    Forall2 (part_of e replay pick d) (fg_split (frag d) bits) subs /\
    (kids_settled e (sd_items d) -> forall dbg f, f ∈ subs -> check_rstats dbg e f = Ok true).
Proof.
  intros Ha Hcs. destruct (split_shape add e pick now bits replay ws d Ha Hcs)
    as (d' & f & fs & es & E & I & _ & Rf & P). eexists d', _, es. split; [exact E|].
  apply settled_parts with (rd := rstat_diff e (sd_fnode d) nest_info_new)
    (fd := fragstat_diff e (sd_fnode d) frag_info_new) in P.
  split_and!; [done..|]. intros Hk dbg x Hx. apply list_elem_of_lookup in Hx as [i Hi].
  destruct (Forall2_lookup_r _ _ _ _ _ P Hi) as (fg & _ & Hp).
  eapply part_check; [done|done|apply (ft_size _ _ _ (cs_fits _ _ _ _ _ Hcs))].
Qed.

End Split.

Section Merge.
Context {X T C R D F : Type} `{CephConst} `{UTime T} `{Bloom} `{CDouble D} `{DecayCounter C T R D}
  `{FragSplit F} `{DirentTypes} `{EqDecision F}.
Abbreviation sdir := (sdir X T C F).
Implicit Types e : ienv T.
Implicit Types s d f t dir : sdir.

(** ** merge *)

(** The new fragment during [merge]: beside that for its dentries it holds the pin of the freeze
    only, until [init_fragment_pins]. *)
Record merging e (replay : bool) t : Prop := {
  mg_ok : frag_ok e t;
  mg_counted : counted e t;
  mg_pins : forall p, p <> PIN_CHILD ->
    pins (sd_obj t) p = bool_Z ((p =? PIN_FROZEN) && is_frozen_dir (sd_fdir t));
  mg_frozen : is_frozen_dir (sd_fdir t) = negb replay && sd_is_auth t;
  mg_auth_pins : auth_pins (sd_fdir t) = 0;
  mg_waiting : co_waiting (sd_obj t) = [] /\ waiting_on_dentry (sd_dfrag t) = ∅;
  mg_root : fd_subtree_root (sd_fdir t) = negb (bool_decide (sd_auth t = CDIR_AUTH_DEFAULT));
  mg_projected : projected_fnode (sd_dir t) = [];
  mg_replicas : sd_is_auth t = false -> co_replica_map (sd_obj t) = ∅;
  mg_sticky : sd_test t STATE_STICKY = false
}.

Lemma moved_merging e replay t t' :
  merging e replay t -> moved t t' -> frag_ok e t' -> counted e t' -> merging e replay t'.
Proof.
  intros [] M O Hc. split; try done.
  - intros p Hp. rewrite (mv_pins _ _ M) by done. rewrite mg_pins0 by done. unfold is_frozen_dir.
    change (fd_test (sd_fdir t') STATE_FROZENDIR) with (sd_test t' STATE_FROZENDIR). by rewrite (moved_test _ _ _ M).
  - change (sd_test t' STATE_FROZENDIR = negb replay && sd_is_auth t').
    by rewrite (moved_test _ _ _ M), (moved_is_auth _ _ M).
  - by rewrite (mv_auth_pins _ _ M).
  - by rewrite (mv_waiting _ _ M), (mv_dn_waiting _ _ M).
  - by rewrite (mv_root _ _ M), (mv_auth _ _ M).
  - by rewrite (mv_projected _ _ M).
  - by rewrite (moved_is_auth _ _ M), (mv_replicas _ _ M).
  - by rewrite (moved_test _ _ _ M).
Qed.

Lemma merge_replicas_empty m : merge_replicas m [] = m.
Proof. done. Qed.

(** The part of the state word that is kept has none of the bits [merging] is about. *)
Lemma kept_bits st x k : 0 <= k -> Z.testbit MASK_STATE_FRAGMENT_KEPT k = false ->
  has_bits (Z.lor st (Z.land x MASK_STATE_FRAGMENT_KEPT)) (Z.shiftl 1 k) = has_bits st (Z.shiftl 1 k).
Proof.
  intros Hk Hm. rewrite !has_bits_testbit, Z.lor_spec, Z.land_spec, Hm by done.
  by rewrite andb_false_r, orb_false_r.
Qed.

(** Replicas, version, state and authority are taken over. *)
Definition take_over (rm : gmap Z Z) (c : Versions.cdir X T) (st : Z) (a : authority_t) t : sdir :=
  let t := set_sd_dir c (set_sd_obj (set_replicas rm (sd_obj t)) t) in
  set_auth_field a (set_sd_obj (state_set (Z.land st MASK_STATE_FRAGMENT_KEPT) (sd_obj t)) t).

Lemma take_over_merging e replay t rm st a c v :
  merging e replay t -> (sd_is_auth t = false -> rm = ∅) ->
  c = sd_dir (set_sd_obj (set_replicas rm (sd_obj t)) t) \/
  c = set_projected_version v (set_fnode (set_fn_version v (sd_fnode t))
        (sd_dir (set_sd_obj (set_replicas rm (sd_obj t)) t))) ->
  merging e replay (take_over rm c st a t) /\ sd_is_auth (take_over rm c st a t) = sd_is_auth t /\
  sd_items (take_over rm c st a t) = sd_items t /\ frag (take_over rm c st a t) = frag t /\
  sd_auth (take_over rm c st a t) = a.
Proof.
  intros Hm Hrm Hc. set (t' := take_over rm c st a t).
  assert (sd_obj t' = state_set (Z.land st MASK_STATE_FRAGMENT_KEPT) (set_replicas rm (sd_obj t))) as Ho
    by (destruct Hc as [->| ->]; done).
  assert (forall k, 0 <= k -> Z.testbit MASK_STATE_FRAGMENT_KEPT k = false ->
    sd_test t' (Z.shiftl 1 k) = sd_test t (Z.shiftl 1 k)) as Hb.
  { intros k Hk Hz. unfold sd_test, cd_test, state_test. change (cd_obj (sd_dir t')) with (sd_obj t').
    rewrite Ho. by apply kept_bits. }
  pose proof (Hb 30 ltac:(done) ltac:(done)) as H30. change (sd_is_auth t' = sd_is_auth t) in H30.
  pose proof (Hb 4 ltac:(done) ltac:(done)) as Hfr. change (is_frozen_dir (sd_fdir t') = is_frozen_dir (sd_fdir t)) in Hfr.
  assert (forall p, pins (sd_obj t') p = pins (sd_obj t) p) as Hp by (rewrite Ho; done).
  split; [|destruct Hc as [->| ->]; done]. destruct Hm as [O Hct Hpn Hf Hap Hw Hr Hpj Hrp Hst].
  split; rewrite ?H30, ?Hfr; try done.
  - destruct O as [O1 O2 O3 O4 O5 O6 O7 O8 O9].
    split; rewrite ?Hp, ?Ho; try (destruct Hc as [->| ->]; done).
    + destruct O2. by split.
    + by change (sd_test t' (Z.shiftl 1 5) = false); rewrite Hb.
    + by change (sd_test t' (Z.shiftl 1 3) = false); rewrite Hb.
  - destruct Hct. destruct Hc as [->| ->]; by split.
  - intros p N. rewrite Hp, Hpn by done. done.
  - destruct Hc as [->| ->]; done.
  - rewrite Ho. destruct Hc as [->| ->]; done.
  - destruct Hc as [->| ->]; done.
  - intros E. rewrite Ho. by apply Hrm.
  - by change (sd_test t' (Z.shiftl 1 15) = false); rewrite Hb.
Qed.

(** A fragment that can be merged into [t]. *)
Record can_merge e (replay : bool) dir : Prop := {
  cm_ready : ready e replay dir;
  cm_auth_pins : auth_pins (sd_fdir dir) = 0;
  cm_complete : negb (sd_is_auth dir) || sd_test dir STATE_COMPLETE || replay = true
}.

Lemma merge_one_ok e replay ws dir t :
  merging e replay t -> can_merge e replay dir -> sd_is_auth dir = sd_is_auth t ->
  fits e (sd_items t) (sd_items dir) ->
  exists t' es, merge_one e replay ws dir t =
      Ok (t', ws ++ (if replay then [] else waiters_of dir), es) /\
    merging e replay t' /\ sd_is_auth t' = sd_is_auth t /\ sd_items t' = sd_items t ∪ sd_items dir /\
    frag t' = frag t /\ sd_auth t' = sd_auth dir.
Proof.
  intros Hm [Hr Hap Hcm] Hau Hft. unfold merge_one. rewrite check_true by done.
  destruct (prepare_old_ok e replay dir Hr Hap)
    as (d1 & es1 & -> & R1 & A1 & I1 & M1 & N1 & F1 & W1 & U1 & S1 & P1). cbn [mbind res_bind].
  destruct (steal_all_ok e (size (sd_items d1)) t d1) as (t1 & d2 & es2 & -> & O1 & Hc1 & O2 & Mt & Md & It & Id & Nd);
    [apply Hm|apply R1|apply Hm|by rewrite M1|done|]. cbn [mbind res_bind].
  pose proof (moved_merging _ _ _ _ Hm Mt O1 Hc1) as Hm1.
  set (rm := merge_replicas (co_replica_map (sd_obj t1)) (ordered (co_replica_map (sd_obj d2)))).
  set (t2 := set_sd_obj (set_replicas rm (sd_obj t1)) t1).
  assert (exists c v, (if get_version (sd_dir t2) <? get_version (sd_dir d2)
       then set_version (get_version (sd_dir d2)) (sd_dir t2) else Ok (sd_dir t2)) = Ok c /\
    (c = sd_dir t2 \/ c = set_projected_version v (set_fnode (set_fn_version v (sd_fnode t1)) (sd_dir t2))))
    as (c & v & -> & Hc).
  { case_match; [|eexists _, 0; eauto]. unfold set_version, is_projected.
    change (projected_fnode (sd_dir t2)) with (projected_fnode (sd_dir t1)). rewrite (mg_projected _ _ _ Hm1).
    rewrite check_true by done. eexists _, _. eauto. }
  cbn [mbind res_bind].
  destruct (take_over_merging e replay t1 rm (co_state (sd_obj d2)) (sd_auth d2) c v Hm1) as (G1 & G2 & G3 & G4 & G5).
  { intros E. unfold rm. rewrite (mg_replicas _ _ _ Hm1 E), (mv_replicas _ _ Md), (rd_replicas _ _ _ R1); [done|].
    by rewrite I1, Hau, <- (moved_is_auth _ _ Mt). }
  { done. }
  destruct (finish_old_ok e replay ws d2) as (d3 & es3 & E3 & I3 & F3 & R3); [by eapply moved_ready| |done|].
  { by rewrite (mv_auth_pins _ _ Md), (moved_is_auth _ _ Md). }
  rewrite E3. cbn [mbind res_bind]. eexists _, _. split; [by rewrite (moved_waiters _ _ Md), W1|].
  split_and!; [exact G1| | | |].
  - etrans; [exact G2|]. apply (moved_is_auth _ _ Mt).
  - etrans; [exact G3|]. by rewrite It, M1.
  - etrans; [exact G4|]. apply (mv_frag _ _ Mt).
  - etrans; [exact G5|]. by rewrite (mv_auth _ _ Md).
Qed.

(** The dentries gathered so far, and those of each fragment to come, are disjoint and few. *)
Fixpoint all_fit e (m : gmap dentry_key_t (dentry X)) (subs : list sdir) : Prop :=
  match subs with
  | [] => True
  | dir :: subs => fits e m (sd_items dir) /\ all_fit e (m ∪ sd_items dir) subs
  end.

Definition union_items (subs : list sdir) (m : gmap dentry_key_t (dentry X)) : gmap dentry_key_t (dentry X) :=
  fold_left (fun m dir => m ∪ sd_items dir) subs m.

(** What the fragments have counted and the inode has not gathered. *)
Definition diffs e (subs : list sdir) (rd : nest_info_t T) (fd : frag_info_t T) : nest_info_t T * frag_info_t T :=
  fold_left (fun '(rd, fd) dir => (rstat_diff e (sd_fnode dir) rd, fragstat_diff e (sd_fnode dir) fd)) subs (rd, fd).

Lemma merge_loop_ok e replay subs rd fd ws t :
  merging e replay t -> Forall (can_merge e replay) subs -> Forall (fun dir => sd_is_auth dir = sd_is_auth t) subs ->
  all_fit e (sd_items t) subs ->
  exists t' es, merge_loop e replay subs rd fd ws t =
      Ok (t', fst (diffs e subs rd fd), snd (diffs e subs rd fd),
          ws ++ (if replay then [] else concat (map waiters_of subs)), es) /\
    merging e replay t' /\ sd_is_auth t' = sd_is_auth t /\ sd_items t' = union_items subs (sd_items t) /\
    frag t' = frag t /\ sd_auth t' = default (sd_auth t) (sd_auth <$> last subs).
Proof.
  revert rd fd ws t. induction subs as [|dir subs IH]; intros rd fd ws t Hm Hc Ha Hf; simpl.
  { eexists t, []. assert ((if replay then [] else []) = @nil X) as -> by by destruct replay.
    rewrite app_nil_r. by split_and!. }
  inversion_clear Hc as [|? ? Hc1 Hc2]. inversion_clear Ha as [|? ? Ha1 Ha2]. destruct Hf as [Hf1 Hf2].
  destruct (merge_one_ok e replay ws dir t Hm Hc1 Ha1 Hf1) as (t1 & es1 & -> & G1 & G2 & G3 & G4 & G5).
  cbn [mbind res_bind]. rewrite <- G2 in Ha2. rewrite <- G3 in Hf2.
  destruct (IH (rstat_diff e (sd_fnode dir) rd) (fragstat_diff e (sd_fnode dir) fd)
    (ws ++ (if replay then [] else waiters_of dir)) t1 G1 Hc2 Ha2 Hf2) as (t' & es2 & E2 & K1 & K2 & K3 & K4 & K5).
  rewrite E2. cbn [mbind res_bind]. eexists t', _. split; [|split_and!].
  - assert (forall w, (w ++ (if replay then [] else waiters_of dir)) ++ (if replay then [] else concat (map waiters_of subs)) =
      w ++ (if replay then [] else waiters_of dir ++ concat (map waiters_of subs))) as ->; [|done].
    intros w. rewrite <- app_assoc. by destruct replay.
  - done.
  - by rewrite K2.
  - by rewrite K3, G3.
  - by rewrite K4.
  - rewrite K5, G5. destruct subs as [|x xs]; [done|]. change (last (dir :: x :: xs)) with (last (x :: xs)).
    destruct (last (x :: xs)) eqn:E; [done|]. by apply last_None in E.
Qed.

(** The fragment [merge] is called on: just made. *)
Definition fresh_dir (now : T) (fg : F) (auth : bool) : sdir :=
  let v := vec_new DIRFRAG_NUM now in
  mk_sdir (mk_cdir (mk_fdir (mk_dfrag (if auth then state_set STATE_AUTH cobj_new else cobj_new) ∅ 0 0 0 0 0 ∅)
             0 0 0 false) zero_fnode [] 0 0 ∅ None None 0 None)
    fg CDIR_AUTH_DEFAULT 2 ∅ [] REP_NONE ∅ v v v v.

Lemma fresh_merging e now fg auth a :
  merging e true (set_auth_field a (fresh_dir now fg auth)) /\
  sd_is_auth (set_auth_field a (fresh_dir now fg auth)) = auth /\
  forall p, pins (sd_obj (set_auth_field a (fresh_dir now fg auth))) p = 0.
Proof.
  split_and!; [|by destruct auth|by destruct auth]. split; try (by destruct auth).
  - split; [by intros [] []; destruct auth|by destruct auth|by destruct auth| |by destruct auth].
    intros g G. destruct auth; apply (nf_zero _ G).
  - intros p _. assert (is_frozen_dir (sd_fdir (set_auth_field a (fresh_dir now fg auth))) = false) as ->
      by by destruct auth. rewrite andb_false_r. by destruct auth.
Qed.

(** Before the loop: authority, freeze. *)
Lemma merge_start e now fg auth a replay :
  exists t es1 es2,
    sd_set_dir_auth e a (fresh_dir now fg auth) = Ok (set_auth_field a (fresh_dir now fg auth), es1) /\
    prepare_new_fragment replay (set_auth_field a (fresh_dir now fg auth)) = Ok (t, es2) /\
    merging e replay t /\ sd_is_auth t = auth /\ sd_items t = ∅ /\ frag t = fg /\
    fi_mtime (fn_fragstat (sd_fnode t)) = ut_zero.
Proof.
  destruct (fresh_merging e now fg auth a) as (M0 & A0 & P0).
  set (f := set_auth_field a (fresh_dir now fg auth)) in *. unfold prepare_new_fragment. rewrite A0.
  assert (exists es1, sd_set_dir_auth e a (fresh_dir now fg auth) = Ok (f, es1)) as [es1 E1].
  { unfold sd_set_dir_auth. by eexists. }
  destruct (negb replay && auth) eqn:L.
  - set (o1 := state_set STATE_FROZENDIR (state_clear STATE_FREEZINGDIR (sd_obj f))).
    assert (pins_are o1 (fun _ => 0)) as P1.
    { do 2 apply pins_are_state. split; [apply M0|done]. }
    assert (co_ref (sd_obj f) = 0) as C0 by (by destruct auth).
    unfold lift_fd, _freeze_dir, fd_get, dir_get. match goal with |- context [get ?x] => change x with o1 end.
    rewrite get_ok; [|apply P1|change (co_ref (sd_obj f) < 2 ^ 31 - 1); lia]. cbn [mbind res_bind].
    eexists _, _, _. split; [done|]. split; [done|].
    apply andb_prop in L as [L1 L2]. destruct replay; [done|]. destruct auth; [|done].
    assert (pins_are (repin 1 PIN_FROZEN o1) (raise true PIN_FROZEN (fun _ => 0))) as [Ro Hp]
      by (apply pins_are_repin; [done|lia|change (co_ref (sd_obj f) + 1 < 2 ^ 31); lia]).
    split_and!; try done. split; try done.
    + split; try done. destruct Ro. by split.
    + split; try done; [by intros [] []|]. intros g G. apply (nf_zero _ G).
    + intros p N. change (pins (repin 1 PIN_FROZEN o1) p = bool_Z ((p =? PIN_FROZEN) && true)).
      rewrite Hp. unfold raise, bump. by destruct (p =? PIN_FROZEN).
  - eexists f, es1, []. split_and!; try done. destruct M0. split; try done.
    rewrite A0, L. by destruct auth.
Qed.

(** With [init_fragment_pins] the new fragment is ready. *)
Lemma merging_ready e replay t o :
  merging e replay t -> repinned_obj (sd_obj t) o (init_pins t (pins (sd_obj t))) 5 ->
  ready e replay (set_sd_obj o t).
Proof.
  intros [O Hct Hpn Hf Hap [Hw1 Hw2] Hr Hpj Hrp Hst] [[Ro Hp] Hs Hrm Hw Hfew]. set (t' := set_sd_obj o t).
  assert (forall mask, sd_test t' mask = sd_test t mask) as Hb.
  { intros mask. unfold sd_test, cd_test, state_test. change (cd_obj (sd_dir t')) with o. by rewrite Hs. }
  assert (pins o PIN_CHILD = pins (sd_obj t) PIN_CHILD) as Hch.
  { rewrite Hp. unfold init_pins, raise. at_pin. by repeat case_match. }
  assert (forall p, pins o p = own_pins t' p) as Hown.
  { intros p. rewrite Hp. unfold init_pins, own_pins. rewrite !Hb.
    change (is_frozen_dir (sd_fdir t')) with (sd_test t' STATE_FROZENDIR). rewrite Hb.
    change (sd_test t STATE_FROZENDIR) with (is_frozen_dir (sd_fdir t)). unfold is_replicated.
    change (sd_obj t') with o. rewrite Hrm, Hw, Hw1, Hst.
    change (auth_pins (sd_fdir t')) with (auth_pins (sd_fdir t)). rewrite Hap.
    change (waiting_on_dentry (sd_dfrag t')) with (waiting_on_dentry (sd_dfrag t)). rewrite Hw2.
    change (sd_items t') with (sd_items t). change (sd_subtree_root t') with (sd_subtree_root t).
    assert (pins (sd_obj t) PIN_CHILD = bool_Z (negb (bool_decide (sd_items t = ∅)))) as Hc.
    { rewrite (fo_child _ _ O). destruct (decide (sd_items t = ∅)); [by rewrite bool_decide_true|by rewrite bool_decide_false]. }
    unfold raise, bump.
    destruct (decide (p = PIN_CHILD)) as [->|N].
    - rewrite Hc. at_pin. by repeat case_match.
    - rewrite !(Hpn p N). clear -N. table_eq p; repeat case_match; done. }
  split; try done.
  - destruct O as [O1 O2 O3 O4 O5 O6 O7 O8 O9]. split; try done; change (sd_obj t') with o; rewrite ?Hch; try done.
    + pose proof (own_few t' Ro Hown) as Hx. change (sd_obj t') with o in Hx. rewrite Hch in Hx. lia.
    + change (sd_test t' STATE_FREEZINGDIR = false). by rewrite Hb.
    + change (sd_test t' STATE_FREEZINGTREE = false). by rewrite Hb.
  - change (sd_test t' STATE_FROZENDIR = negb replay && sd_test t' STATE_AUTH). by rewrite !Hb.
  - change (sd_obj t') with o. by rewrite Hw, Hw1.
  - change (sd_obj t') with o. by rewrite Hw, Hw1.
  - change (sd_test t' STATE_AUTH = false -> co_replica_map o = ∅). rewrite Hb, Hrm. done.
Qed.

Lemma complete_merging e replay t :
  merging e replay t -> merging e replay (set_sd_dir (mark_complete (sd_dir t)) t).
Proof.
  intros [O Hct Hpn Hf Hap Hw Hr Hpj Hrp Hst]. set (t' := set_sd_dir _ t).
  assert (forall k, 0 <= k -> k <> 1 -> sd_test t' (Z.shiftl 1 k) = sd_test t (Z.shiftl 1 k)) as Hb.
  { intros k Hk N. change (sd_test t' (Z.shiftl 1 k)) with (state_test (state_set (Z.shiftl 1 1) (sd_obj t)) (Z.shiftl 1 k)).
    rewrite state_test_set by done. by destruct (Z.eqb_spec 1 k) as [E|E]; [subst k|]. }
  pose proof (Hb 30 ltac:(done) ltac:(done)) as H30. change (sd_is_auth t' = sd_is_auth t) in H30.
  pose proof (Hb 4 ltac:(done) ltac:(done)) as Hfr. change (is_frozen_dir (sd_fdir t') = is_frozen_dir (sd_fdir t)) in Hfr.
  split; rewrite ?H30, ?Hfr; try done.
  - destruct O as [O1 O2 O3 O4 O5 O6 O7 O8 O9]. split; try done.
    + destruct O2. by split.
    + by change (sd_test t' (Z.shiftl 1 5) = false); rewrite Hb.
    + by change (sd_test t' (Z.shiftl 1 3) = false); rewrite Hb.
  - destruct Hct. by split.
  - by change (sd_test t' (Z.shiftl 1 15) = false); rewrite Hb.
Qed.

Lemma fnode_merging e replay t h : keeps_stats h -> merging e replay t -> merging e replay (on_fnode h t).
Proof.
  intros Hh [O Hct Hpn Hf Hap Hw Hr Hpj Hrp Hst]. split; try done.
  - destruct O. by split.
  - by apply counted_on_fnode.
Qed.

Lemma merge_shape e now fg auth replay subs ws :
  subs <> [] -> Forall (can_merge e replay) subs -> Forall (fun dir => sd_is_auth dir = auth) subs ->
  all_fit e ∅ subs ->
  exists t n es, merge e replay subs ws (fresh_dir now fg auth) =
      Ok (t, ws ++ (if replay then [] else concat (map waiters_of subs)), es) /\
    ready e replay t /\ counted e t /\ auth_pins (sd_fdir t) = 0 /\ sd_is_auth t = auth /\ frag t = fg /\
    sd_items t = union_items subs ∅ /\ sd_auth t = default CDIR_AUTH_DEFAULT (sd_auth <$> last subs) /\
    sd_fnode t = add_diffs (fst (diffs e subs nest_info_new frag_info_new))
                   (snd (diffs e subs nest_info_new frag_info_new)) (account e n).
Proof.
  intros Hne Hc Ha Hf. unfold merge. destruct subs as [|front subs0] eqn:Es; [done|]. rewrite <- Es in *. clear Es subs0.
  destruct (merge_start e now fg auth (sd_auth front) replay) as (t0 & es1 & es2 & -> & E2 & M0 & A0 & I0 & F0 & T0).
  cbn [mbind res_bind]. rewrite E2. cbn [mbind res_bind]. rewrite <- I0 in Hf. rewrite <- A0 in Ha.
  destruct (merge_loop_ok e replay subs nest_info_new frag_info_new ws t0 M0 Hc Ha Hf)
    as (t1 & es3 & -> & M1 & A1 & I1 & F1 & U1). cbn [mbind res_bind].
  set (t2 := if sd_is_auth t1 && negb replay then set_sd_dir (mark_complete (sd_dir t1)) t1 else t1).
  assert (merging e replay t2 /\ sd_is_auth t2 = sd_is_auth t1 /\ sd_items t2 = sd_items t1 /\
    frag t2 = frag t1 /\ sd_auth t2 = sd_auth t1) as (M2 & A2 & I2 & F2 & U2).
  { unfold t2. destruct (sd_is_auth t1) eqn:E; destruct replay; try done. split_and!; try done.
    - by apply complete_merging.
    - change (state_test (state_set (Z.shiftl 1 1) (sd_obj t1)) (Z.shiftl 1 30) = true).
      rewrite state_test_set by done. exact E. }
  set (h := fun n => add_diffs _ _ (account e n)). clearbody t2.
  assert (keeps_stats h) as Hh.
  { intros n. unfold h. destruct (keeps_account e n) as (? & ? & ? & ? & ?). by split_and!. }
  pose proof (fnode_merging e replay t2 h Hh M2) as M3. pose proof (frag_few _ _ (mg_ok _ _ _ M3)) as B.
  destruct (init_fragment_pins_ok (on_fnode h t2) (pins (sd_obj (on_fnode h t2)))) as (o & es4 & -> & P4).
  { split; [apply M3|done]. }
  { intros p. destruct (pins_le_sum _ p (fo_refs _ _ (mg_ok _ _ _ M3))). lia. }
  { lia. }
  cbn [mbind res_bind]. eexists _, (sd_fnode t2), _. split; [done|].
  pose proof (merging_ready e replay _ o M3 P4) as Hr. split_and!; [exact Hr| | | | | | |].
  - destruct (mg_counted _ _ _ M3). by split.
  - apply M2.
  - change (sd_test (set_sd_obj o (on_fnode h t2)) STATE_AUTH = auth). unfold sd_test, cd_test, state_test.
    change (cd_obj _) with o. rewrite (ro_state _ _ _ _ P4). by rewrite <- A0, <- A1, <- A2.
  - change (frag t2 = fg). congruence.
  - change (sd_items t2 = union_items subs ∅). by rewrite I2, I1, I0.
  - change (sd_auth t2 = default CDIR_AUTH_DEFAULT (sd_auth <$> last subs)). rewrite U2, U1.
    destruct (last subs) eqn:E; [done|]. by apply last_None in E.
  - done.
Qed.

(** ** What the inode has not gathered *)

(** One of the two counters of a [frag_info_t]. *)
Record frag_field (h : frag_info_t T -> Z) : Prop := {
  ff_zero : h frag_info_new = 0;
  ff_add : forall a b, h (frag_add a b) = s64 (h a + h b);
  ff_delta : forall n a b touched, h (fst (frag_add_delta n a b touched)) = s64 (h n + s64 (h a - h b));
  ff_account : forall e n, h (fn_fragstat (account e n)) = h (fn_fragstat n) /\
                           h (fn_accounted_fragstat (account e n)) = h (fn_fragstat n)
}.

Lemma frag_field_nfiles : frag_field fi_nfiles.
Proof. split; try done. intros n a b t. unfold frag_add_delta. by case_decide. Qed.
Lemma frag_field_nsubdirs : frag_field fi_nsubdirs.
Proof. split; try done. intros n a b t. unfold frag_add_delta. by case_decide. Qed.

(** The accounted statistics less the counted ones, when they are of the inode's version. *)
Definition out_r (g : nest_info_t T -> Z) e (n : fnode_t T) : Z :=
  if ni_version (fn_accounted_rstat n) =? ie_rstat_version e
  then g (fn_accounted_rstat n) - g (fn_rstat n) else 0.
Definition out_f (h : frag_info_t T -> Z) e (n : fnode_t T) : Z :=
  if fi_version (fn_accounted_fragstat n) =? ie_dirstat_version e
  then h (fn_accounted_fragstat n) - h (fn_fragstat n) else 0.

(** The same difference at 64 bits, for each of the six counters. *)
Definition same_outstanding e (n : list (fnode_t T)) (n' : list (fnode_t T)) : Prop :=
  (forall g, nest_field g ->
     eqm64 (foldr Z.add 0 (map (out_r g e) n)) (foldr Z.add 0 (map (out_r g e) n'))) /\
  (forall h, frag_field h ->
     eqm64 (foldr Z.add 0 (map (out_f h e) n)) (foldr Z.add 0 (map (out_f h e) n'))).

Lemma rstat_diff_out g e n diff : nest_field g -> eqm64 (g (rstat_diff e n diff)) (g diff + out_r g e n).
Proof.
  intros G. unfold rstat_diff, out_r. case_match; [|by rewrite Z.add_0_r].
  rewrite (nf_delta _ G), !s64_eqm. done.
Qed.

Lemma fragstat_diff_out h e n diff : frag_field h -> eqm64 (h (fragstat_diff e n diff)) (h diff + out_f h e n).
Proof.
  intros G. unfold fragstat_diff, out_f. case_match; [|by rewrite Z.add_0_r].
  rewrite (ff_delta _ G), !s64_eqm. done.
Qed.

Lemma diffs_out e subs rd fd :
  (forall g, nest_field g ->
     eqm64 (g (fst (diffs e subs rd fd))) (g rd + foldr Z.add 0 (map (out_r g e) (map sd_fnode subs)))) /\
  (forall h, frag_field h ->
     eqm64 (h (snd (diffs e subs rd fd))) (h fd + foldr Z.add 0 (map (out_f h e) (map sd_fnode subs)))).
Proof.
  revert rd fd. induction subs as [|d subs IH]; intros rd fd; simpl.
  - split; intros; by rewrite Z.add_0_r.
  - destruct (IH (rstat_diff e (sd_fnode d) rd) (fragstat_diff e (sd_fnode d) fd)) as [I1 I2].
    unfold diffs in *. simpl. split; intros g G.
    + rewrite (I1 g G), (rstat_diff_out g e _ _ G). by rewrite Z.add_assoc.
    + rewrite (I2 g G), (fragstat_diff_out g e _ _ G). by rewrite Z.add_assoc.
Qed.

Lemma out_account e n : (forall g, nest_field g -> out_r g e (account e n) = 0) /\
  (forall h, frag_field h -> out_f h e (account e n) = 0).
Proof.
  split; intros g G; unfold out_r, out_f; simpl; rewrite Z.eqb_refl.
  - lia.
  - lia.
Qed.

Lemma out_diffs e n rd fd :
  (forall g, nest_field g -> eqm64 (out_r g e (add_diffs rd fd (account e n))) (g rd)) /\
  (forall h, frag_field h -> eqm64 (out_f h e (add_diffs rd fd (account e n))) (h fd)).
Proof.
  split; intros g G; unfold out_r, out_f; simpl; rewrite Z.eqb_refl.
  - rewrite (nf_add _ G), s64_eqm. apply eq_subrelation; [apply _|lia].
  - rewrite (ff_add _ G), s64_eqm. apply eq_subrelation; [apply _|lia].
Qed.

Lemma on_fnode_fnode h s : sd_fnode (on_fnode h s) = h (sd_fnode s).
Proof. done. Qed.

Lemma settled_outstanding e (d f : sdir) fs :
  same_outstanding e
    (map sd_fnode (on_fnode (add_diffs (rstat_diff e (sd_fnode d) nest_info_new)
                     (fragstat_diff e (sd_fnode d) frag_info_new)) (on_fnode (account e) f) ::
       map (on_fnode (account e)) fs))
    [sd_fnode d].
Proof.
  assert (forall k : fnode_t T -> Z, (forall n, k (account e n) = 0) ->
    foldr Z.add 0 (map k (map sd_fnode (map (on_fnode (account e)) fs))) = 0) as Hz.
  { intros k Hk. induction fs as [|x fs IH]; [done|]. cbn [map foldr]. by rewrite IH, on_fnode_fnode, Hk. }
  split; intros g G; cbn [map foldr].
  - rewrite (Hz (out_r g e)) by (intros n; by apply out_account).
    rewrite !on_fnode_fnode, (proj1 (out_diffs e (sd_fnode f) _ _) g G), (rstat_diff_out g e _ _ G), (nf_zero _ G). done.
  - rewrite (Hz (out_f g e)) by (intros n; by apply out_account).
    rewrite !on_fnode_fnode, (proj2 (out_diffs e (sd_fnode f) _ _) g G), (fragstat_diff_out g e _ _ G), (ff_zero _ G). done.
Qed.

(** ** Parts put together again *)

Lemma isum_union (v : dentry X -> Z) (m m' : gmap dentry_key_t (dentry X)) : m ##ₘ m' -> isum v (m ∪ m') = isum v m + isum v m'.
Proof.
  induction m as [|k dn m Hk IH] using map_ind; intros Hd.
  - by rewrite map_empty_union, isum_empty.
  - apply map_disjoint_insert_l in Hd as [Hn Hd]. rewrite <- insert_union_l, !isum_insert, IH by (by rewrite ?lookup_union_None).
    lia.
Qed.

Lemma fits_sub e (m m' M : gmap dentry_key_t (dentry X)) :
  m ##ₘ m' -> m ∪ m' ⊆ M -> all_sane e M -> fits e ∅ M -> fits e m m'.
Proof.
  intros Hd Hs Ha [_ P Z]. rewrite isum_empty in P. rewrite map_size_empty in Z.
  pose proof (map_difference_union _ _ Hs) as Em. pose proof (map_disjoint_difference_r1 M (m ∪ m') (m ∪ m') (reflexivity _)) as Hdd.
  split; [done| |].
  - rewrite <- (isum_union _ _ _ Hd). rewrite <- Em, isum_union in P by done.
    enough (0 <= isum (pins_of e) (M ∖ (m ∪ m'))) by lia. apply isum_nonneg. intros k dn Hk.
    apply lookup_difference_Some in Hk as [Hk _]. pose proof (sane_bounds _ _ (Ha _ _ Hk)). lia.
  - pose proof (map_subseteq_size _ _ Hs) as Hz. rewrite map_size_disj_union in Hz by done. lia.
Qed.

(** The parts of [d] from [fgs] on, when [m] are dentries of the parts before. *)
Lemma parts_fit e replay pick d fgs subs (m : gmap dentry_key_t (dentry X)) :
  Forall2 (part_of e replay pick d) fgs subs -> NoDup fgs -> all_sane e (sd_items d) -> fits e ∅ (sd_items d) ->
  m ⊆ sd_items d -> (forall k dn, m !! k = Some dn -> pick (dn_name dn) ∉ fgs) ->
  all_fit e m subs /\
  (forall k dn, union_items subs m !! k = Some dn <->
     m !! k = Some dn \/ sd_items d !! k = Some dn /\ pick (dn_name dn) ∈ fgs).
Proof.
  intros P. revert m. induction P as [|fg f fgs subs Pf P IH]; intros m Hnd Ha Hf Hm Hn.
  { split; [done|]. intros k dn. simpl. rewrite elem_of_nil. tauto. }
  apply NoDup_cons in Hnd as [Hfg Hnd]. pose proof (pt_items _ _ _ _ _ _ Pf) as Hi.
  assert (m ##ₘ sd_items f) as Hd.
  { apply map_disjoint_spec. intros k x y Hx Hy. rewrite Hi in Hy. apply map_lookup_filter_Some in Hy as [Hy1 Hy2].
    simpl in Hy2. pose proof (lookup_weaken _ _ _ _ Hx Hm) as Hx'. assert (x = y) as <- by congruence. apply (Hn k x Hx). rewrite Hy2. left. }
  assert (m ∪ sd_items f ⊆ sd_items d) as Hs.
  { apply map_union_least; [done|]. rewrite Hi. apply dentries_of_sub. }
  assert (forall k dn, (m ∪ sd_items f) !! k = Some dn <-> m !! k = Some dn \/
    sd_items d !! k = Some dn /\ pick (dn_name dn) = fg) as Hu.
  { intros k dn. rewrite lookup_union_Some by done. rewrite Hi. unfold dentries_of.
    rewrite map_lookup_filter_Some. done. }
  destruct (IH (m ∪ sd_items f)) as [I1 I2]; [done..| |].
  { intros k dn [Hk|[_ Hk]]%Hu; [|by rewrite Hk]. intros Hin. apply (Hn k dn Hk). by right. }
  split; [split; [by eapply fits_sub|done]|]. intros k dn. simpl. unfold union_items in I2. rewrite I2, Hu.
  rewrite elem_of_cons. split; [intros [[?|[? ?]]|[? ?]]|intros [?|[? [?|?]]]]; eauto 6.
Qed.

Lemma parts_union e replay pick bits d subs :
  can_split e replay pick bits d -> Forall2 (part_of e replay pick d) (fg_split (frag d) bits) subs ->
  all_fit e ∅ subs /\ union_items subs ∅ = sd_items d.
Proof.
  intros Hcs P. destruct (parts_fit e replay pick d _ _ ∅ P) as [A U].
  - apply NoDup_alt. intros i j x Hi Hj.
    pose proof (si_slot _ _ (cs_frag _ _ _ _ _ Hcs) _ _ Hi). pose proof (si_slot _ _ (cs_frag _ _ _ _ _ Hcs) _ _ Hj). lia.
  - exact (fo_sane _ _ (rd_ok _ _ _ (cs_ready _ _ _ _ _ Hcs))).
  - apply Hcs.
  - apply map_empty_subseteq.
  - intros k dn Hk. by rewrite lookup_empty in Hk.
  - split; [done|]. apply map_eq. intros k. apply option_eq. intros dn. rewrite U, lookup_empty.
    split; [intros [?|[? _]]; done|]. intros Hk. right. split; [done|]. by apply (cs_names _ _ _ _ _ Hcs k).
Qed.

Lemma part_can_merge e replay pick d fg f : part_of e replay pick d fg f -> can_merge e replay f.
Proof.
  intros []. split; [done|done|]. rewrite pt_is_auth0.
  destruct replay; [by rewrite orb_true_r|]. destruct (sd_is_auth d); [|done]. simpl. by rewrite pt_complete0.
Qed.

(** ** Theorems *)

(** What was counted but not yet gathered by the inode (accounted less counted, when both are
    of the inode's version) is the same before and after [split], at 64 bits, for each of the six
    counters: the first fragment gets all of it. *)
Theorem split_keeps_outstanding (add : sdir -> res sdir) e pick now bits replay ws d :
  adds_dirfrag add -> can_split e replay pick bits d ->
  exists d' subs ws' es, split e pick add now bits replay ws d = Ok (d', subs, ws', es) /\
    same_outstanding e (map sd_fnode subs) [sd_fnode d].
Proof.
  intros Ha Hcs. destruct (split_shape add e pick now bits replay ws d Ha Hcs) as (d' & f & fs & es & E & _).
  eexists _, _, _, _. split; [exact E|]. apply settled_outstanding.
Qed.

(** [merge] of fragments with disjoint dentries into a new one does not abort.  The new
    fragment has all their dentries, its counters, statistics, pins and auth pins are those of
    its dentries, what the inode has not gathered of the fragments is not gathered of it either,
    and their waiters are handed over in order. *)
Theorem merge_gathers e now fg auth replay subs ws :
  subs <> [] -> Forall (can_merge e replay) subs -> Forall (fun dir => sd_is_auth dir = auth) subs ->
  all_fit e ∅ subs ->
  exists t es, merge e replay subs ws (fresh_dir now fg auth) =
      Ok (t, ws ++ (if replay then [] else concat (map waiters_of subs)), es) /\
    ready e replay t /\ counted e t /\ frag t = fg /\ sd_items t = union_items subs ∅ /\
    same_outstanding e [sd_fnode t] (map sd_fnode subs).
Proof.
  intros Hne Hc Ha Hf. destruct (merge_shape e now fg auth replay subs ws Hne Hc Ha Hf)
    as (t & n & es & E & R1 & R2 & _ & _ & R3 & R4 & _ & R5). exists t, es. split_and!; [done..|].
  rewrite R5. destruct (diffs_out e subs nest_info_new frag_info_new) as [D1 D2].
  split; intros g G; cbn [map foldr].
  - rewrite (proj1 (out_diffs e n _ _) g G), (D1 g G), (nf_zero _ G). by rewrite Z.add_0_r.
  - rewrite (proj2 (out_diffs e n _ _) g G), (D2 g G), (ff_zero _ G). by rewrite Z.add_0_r.
Qed.

(** C17: Splitting a fragment and merging the parts into a new fragment neither aborts nor changes
    the dentries: the new fragment has the dentries and the authority of the one that was split and
    is again ready to be split or merged, and each of the six counters (files and subdirectories of
    the fragment; bytes, files, subdirectories and snap realms below it) has the same difference left
    for the inode to gather.  This is of the counters only: the times are not kept, and
    [split_forgets_mtime] shows that a modification time not yet gathered is lost. *)
Theorem split_merge_roundtrip (add : sdir -> res sdir) e pick now now' bits replay ws d :
  adds_dirfrag add -> can_split e replay pick bits d ->
  exists d' subs ws1 es1 t ws2 es2,
    split e pick add now bits replay ws d = Ok (d', subs, ws1, es1) /\
    merge e replay subs [] (fresh_dir now' (frag d) (sd_is_auth d)) = Ok (t, ws2, es2) /\
    sd_items t = sd_items d /\ frag t = frag d /\ sd_auth t = sd_auth d /\ ready e replay t /\ counted e t /\
    same_outstanding e [sd_fnode t] [sd_fnode d].
Proof.
  intros Ha Hcs. destruct (split_shape add e pick now bits replay ws d Ha Hcs) as (d' & f & fs & es & E & _ & _ & _ & P).
  pose proof (settled_outstanding e d f fs) as [S1 S2].
  apply settled_parts with (rd := rstat_diff e (sd_fnode d) nest_info_new)
    (fd := fragstat_diff e (sd_fnode d) frag_info_new) in P.
  set (subs := _ :: map _ fs) in *. destruct (parts_union e replay pick bits d subs Hcs P) as [Hfit Hun].
  assert (forall x, x ∈ subs -> exists fg, part_of e replay pick d fg x) as Hp.
  { intros x Hx. apply list_elem_of_lookup in Hx as [i Hi]. destruct (Forall2_lookup_r _ _ _ _ _ P Hi) as (fg & _ & ?).
    eauto. }
  destruct (merge_shape e now' (frag d) (sd_is_auth d) replay subs []) as (t & n & es2 & Em & R1 & R2 & _ & _ & R3 & R4 & R6 & R5).
  - done.
  - apply Forall_forall. intros x [fg Hx]%Hp. by eapply part_can_merge.
  - apply Forall_forall. intros x [fg Hx]%Hp. apply Hx.
  - done.
  - eexists _, _, _, _, t, _, _. split; [exact E|]. split; [exact Em|]. split_and!; [congruence|done| |done..|].
    + destruct (last subs) as [x|] eqn:El; [|by apply last_None in El]. rewrite R6.
      apply last_Some_elem_of, Hp in El as [fg Hx]. apply Hx.
    + rewrite R5. destruct (diffs_out e subs nest_info_new frag_info_new) as [D1 D2].
      split; intros g G; cbn [map foldr].
      * rewrite (proj1 (out_diffs e n _ _) g G), (D1 g G), (nf_zero _ G), (S1 g G). cbn [map foldr]. by rewrite !Z.add_0_r.
      * rewrite (proj2 (out_diffs e n _ _) g G), (D2 g G), (ff_zero _ G), (S2 g G). cbn [map foldr]. by rewrite !Z.add_0_r.
Qed.

Lemma delta_mtime (n a b : frag_info_t T) touched :
  fi_mtime (fst (frag_add_delta n a b touched)) =
    if decide (fi_mtime a = fi_mtime b) then fi_mtime n else fi_mtime a.
Proof. unfold frag_add_delta. by case_decide. Qed.

(** [split] forgets the modification time.  When the fragment was modified since the inode
    last gathered its statistics, no new fragment has the new time, and the first one is left with
    no time but an accounted one: the next gathering ([add_delta] of the first fragment) sets the
    directory's time to zero. *)
Theorem split_forgets_mtime (add : sdir -> res sdir) e pick now bits replay ws d :
  adds_dirfrag add -> can_split e replay pick bits d ->
  fi_version (fn_accounted_fragstat (sd_fnode d)) = ie_dirstat_version e ->
  fi_mtime (fn_fragstat (sd_fnode d)) <> fi_mtime (fn_accounted_fragstat (sd_fnode d)) ->
  k_ltb ut_zero (fi_mtime (fn_accounted_fragstat (sd_fnode d))) = true ->
  ut_zero <> fi_mtime (fn_accounted_fragstat (sd_fnode d)) ->
  exists d' f fs ws' es, split e pick add now bits replay ws d = Ok (d', f :: fs, ws', es) /\
    Forall (fun x => fi_mtime (fn_fragstat (sd_fnode x)) = ut_zero) (f :: fs) /\
    forall dirstat touched,
      fi_mtime (fst (frag_add_delta dirstat (fn_fragstat (sd_fnode f)) (fn_accounted_fragstat (sd_fnode f)) touched))
      = ut_zero.
Proof.
  intros Ha Hcs Hv Hm Hz Hz'. destruct (split_shape add e pick now bits replay ws d Ha Hcs)
    as (d' & f & fs & es & E & _ & _ & _ & P).
  pose proof (settled_parts _ _ _ _ _ _ _ (rstat_diff e (sd_fnode d) nest_info_new)
    (fragstat_diff e (sd_fnode d) frag_info_new) P) as P'.
  eexists d', _, _, _, es. split; [exact E|]. split.
  - apply Forall_forall. intros x Hx. apply list_elem_of_lookup in Hx as [i Hi].
    destruct (Forall2_lookup_r _ _ _ _ _ P' Hi) as (fg & _ & Hp). apply (pt_mtime _ _ _ _ _ _ Hp).
  - intros dirstat touched. apply Forall2_cons_inv_r in P as (fg & fgs & Pf & _ & _).
    rewrite !on_fnode_fnode. cbn [fn_fragstat fn_accounted_fragstat add_diffs account frag_add].
    rewrite delta_mtime. cbn [fi_mtime frag_add]. unfold fragstat_diff.
    rewrite Hv, Z.eqb_refl, delta_mtime, (pt_mtime _ _ _ _ _ _ Pf).
    destruct (decide (fi_mtime (fn_accounted_fragstat _) = fi_mtime (fn_fragstat _))) as [E'|_]; [congruence|].
    unfold ut_max. rewrite Hz. by destruct (decide _).
Qed.

End Merge.

(** ** Witnesses

    A frozen fragment with a file [a], a directory [b] and a link [c], dirty, replicated and with
    a waiter; the inode keeps its fragments in cache. *)

Definition split_ceph : CephConst := {| CEPH_NOSNAP := 2 ^ 64 - 2 |}.
Definition split_bloom : Bloom := {|
  bloom_filter := list cstring; bloom_new := fun _ => []; bloom_insert := fun n b => n :: b;
  bloom_contains := fun n b => bool_decide (n ∈ b)
|}.
Definition split_types : DirentTypes := {| DT_DIR := 4 |}.
(** a fragment is its number of bits and its value, the high bits of 24 *)
Definition split_frags : FragSplit (Z * Z) := {|
  fg_split := fun '(bits, v) nb =>
    map (fun i => (bits + nb, Z.lor v (Z.shiftl (Z.of_nat i) (24 - (bits + nb))))) (seq 0 (Z.to_nat (2 ^ nb)));
  fg_value := snd;
  fg_mask := fun '(bits, _) => Z.land (Z.shiftl (2 ^ 24 - 1) (24 - bits)) (2 ^ 24 - 1);
  fg_mask_shift := fun '(bits, _) => 24 - bits
|}.
#[local] Existing Instances split_ceph split_bloom split_types split_frags.

Abbreviation sdirZ := (sdir Z Z Q (Z * Z)).

Definition sticky_add (f : sdirZ) : res sdirZ :=
  Ok (set_sd_obj (repin 1 PIN_STICKY (state_set STATE_STICKY (sd_obj f))) f).

Lemma sticky_adds : adds_dirfrag sticky_add.
Proof.
  intros f Ro Hp B Hs. eexists. split; [done|]. set (o := repin 1 PIN_STICKY _). set (f' := set_sd_obj o f).
  assert (pins (sd_obj f) PIN_STICKY = 0) as Hz by (rewrite Hp; at_pin; by rewrite Hs).
  assert (pins_are o (raise true PIN_STICKY (own_pins f))) as [Ro' Hp'].
  { apply pins_are_repin; [by apply pins_are_state|rewrite <- Hp; lia|simpl; lia]. }
  split_and!; [done| |simpl; lia|done|done|by right].
  intros p. change (pins o p = own_pins f' p). rewrite Hp'.
  assert (forall k, 0 <= k -> k <> 15 -> sd_test f' (Z.shiftl 1 k) = sd_test f (Z.shiftl 1 k)) as Hb.
  { intros k Hk N. change (sd_test f' (Z.shiftl 1 k)) with (state_test (state_set (Z.shiftl 1 15) (sd_obj f)) (Z.shiftl 1 k)).
    rewrite state_test_set by done. by rewrite (proj2 (Z.eqb_neq 15 k)) by congruence. }
  assert (sd_test f' STATE_STICKY = true) as Hst.
  { change (state_test (state_set (Z.shiftl 1 15) (sd_obj f)) (Z.shiftl 1 15) = true). by rewrite state_test_set. }
  unfold own_pins. rewrite Hst, Hs. change (is_frozen_dir (sd_fdir f')) with (sd_test f' (Z.shiftl 1 4)).
  change (is_frozen_dir (sd_fdir f)) with (sd_test f (Z.shiftl 1 4)).
  unfold STATE_DIRTY, STATE_IMPORTBOUND, STATE_EXPORTBOUND. rewrite !Hb by done. unfold raise. by table_eq p.
Qed.

Definition kid_stat (b f d : Z) : nest_info_t Z := mk_nest_info 0 7 b f d 0.
Definition split_env : ienv Z :=
  mk_ienv (mk_fenv false false []) true true 3 5
    (fun ino => mk_kid (ino =? 8) (kid_stat 10 1 0) (kid_stat 10 1 0) false)
    (fun k => if bool_decide (dk_name k = ["a"%char]) then (1, 2, 1) else (0, 0, 0)).
Definition split_dn (name : ascii) (l : linkage_t) : dentry Z :=
  mk_dentry cobj_new [name] 2 CEPH_NOSNAP 1 l false false ∅.
Definition split_items : gmap dentry_key_t (dentry Z) :=
  list_to_map (map (fun dn => (dn_key dn, dn))
    [split_dn "a" (LPrimary 7); split_dn "b" (LPrimary 8); split_dn "c" (LRemote 9 8 None)]).
Definition split_fnode : fnode_t Z :=
  mk_fnode 12 0 (mk_frag_info 5 90 2 1) (mk_frag_info 5 80 1 1)
    (mk_nest_info 3 90 20 2 1 0) (mk_nest_info 3 80 15 2 1 0).
Definition split_refs : gmap Z Z :=
  <[PIN_CHILD := 1]> (<[PIN_FROZEN := 1]> (<[PIN_WAITER := 1]> (<[PIN_REPLICATED := 1]> (<[PIN_DIRTY := 1]> ∅)))).
Definition split_dir : sdirZ :=
  mk_sdir
    (mk_cdir (mk_fdir (mk_dfrag
        (mk_cobj (or_all [STATE_AUTH; STATE_COMPLETE; STATE_FROZENDIR; STATE_DIRTY]) 5 split_refs 0 {[1 := 1]} [(WAIT_UNFREEZE, 42)])
        split_items 3 0 0 0 12 ∅) 0 3 1 false)
      split_fnode [] 0 12 ∅ (Some 1) None 0 None)
    (0, 0) CDIR_AUTH_DEFAULT 2 ∅ [] 0 ∅ [1%Q] [1%Q] [1%Q] [1%Q].
Definition split_pick (name : cstring) : Z * Z :=
  if bool_decide (name = ["b"%char]) then (1, 2 ^ 23) else (1, 0).

Lemma split_items_in k dn : split_items !! k = Some dn -> (k, dn) ∈ map_to_list split_items.
Proof. apply elem_of_map_to_list. Qed.

Lemma split_items_all (P : dentry Z -> Prop) :
  P (split_dn "a" (LPrimary 7)) -> P (split_dn "b" (LPrimary 8)) -> P (split_dn "c" (LRemote 9 8 None)) ->
  forall k dn, split_items !! k = Some dn -> P dn.
Proof.
  intros Pa Pb Pc k dn Hk%split_items_in. vm_compute in Hk.
  repeat (apply elem_of_cons in Hk as [[= -> ->]|Hk]; [assumption|]). by apply not_elem_of_nil in Hk.
Qed.

Lemma split_dir_pins p : pins (sd_obj split_dir) p = own_pins split_dir p.
Proof.
  destruct (decide (p ∈ pin_kinds)) as [Hin|Hout].
  - unfold pin_kinds in Hin.
    repeat (apply elem_of_cons in Hin as [->|Hin]; [vm_compute; reflexivity|]). by apply not_elem_of_nil in Hin.
  - assert (forall k, k ∈ pin_kinds -> p <> k) as Hne by (intros k Hk ->; done).
    unfold pins. change (co_ref_map (sd_obj split_dir)) with split_refs. unfold split_refs.
    rewrite !lookup_insert_ne by (intros <-; apply Hout; by_decide). rewrite lookup_empty.
    unfold own_pins, pin_table. rewrite !(proj2 (Z.eqb_neq p _)) by (apply Hne; by_decide). done.
Qed.

Lemma split_dir_ok : frag_ok split_env split_dir.
Proof.
  split.
  - intros k dn Hk. assert (map_Forall (fun k dn => dn_key dn = k) split_items) as Hm by by_decide. exact (Hm k dn Hk).
  - split; [vm_compute; reflexivity| |vm_compute; reflexivity].
    intros b n Hn. assert (map_Forall (fun _ n => 0 <= n) split_refs) as Hm by by_decide. exact (Hm b n Hn).
  - vm_compute; reflexivity.
  - vm_compute; congruence.
  - vm_compute; reflexivity.
  - vm_compute; reflexivity.
  - intros k dn. apply (split_items_all (fun dn => pins_sane split_env dn)); vm_compute; repeat split; congruence.
  - vm_compute; reflexivity.
  - vm_compute; reflexivity.
Qed.

Lemma split_dir_ready : ready split_env false split_dir.
Proof.
  split; [exact split_dir_ok|exact split_dir_pins|vm_compute; reflexivity| |done|done|vm_compute; reflexivity].
  constructor; [vm_compute; reflexivity|constructor].
Qed.

Lemma split_dir_can : can_split split_env false split_pick 1 split_dir.
Proof.
  split.
  - exact split_dir_ready.
  - reflexivity.
  - vm_compute; reflexivity.
  - reflexivity.
  - split; [lia|vm_compute; reflexivity|]. intros [|[|i]] fg; cbn; intros E; try discriminate; injection E as <-;
      vm_compute; reflexivity.
  - intros k dn. apply (split_items_all (fun dn => split_pick (dn_name dn) ∈ fg_split (frag split_dir) 1));
      by_decide.
  - split; [apply map_disjoint_empty_l|vm_compute; reflexivity|vm_compute; reflexivity].
Qed.

Lemma split_partitions_witness : exists d' subs es,
  split (R := unit) split_env split_pick sticky_add 0 1 false [7] split_dir = Ok (d', subs, [7; 42], es) /\
  co_ref (sd_obj d') = 0 /\
  Forall2 (part_of split_env false split_pick split_dir) (fg_split (0, 0) 1) subs.
Proof.
  destruct (split_partitions (R := unit) sticky_add split_env split_pick 0 1 false [7] split_dir sticky_adds split_dir_can)
    as (d' & subs & es & E & _ & Hr & P & _).
  exists d', subs, es. split; [exact E|]. split; [exact Hr|exact P].
Defined.

Lemma split_keeps_outstanding_witness : exists d' subs ws' es,
  split (R := unit) split_env split_pick sticky_add 0 1 false [] split_dir = Ok (d', subs, ws', es) /\
  eqm64 (foldr Z.add 0 (map (out_r ni_rbytes split_env) (map sd_fnode subs))) (-5).
Proof.
  destruct (split_keeps_outstanding (R := unit) sticky_add split_env split_pick 0 1 false [] split_dir sticky_adds split_dir_can)
    as (d' & subs & ws' & es & E & Hr & _).
  exists d', subs, ws', es. split; [exact E|]. exact (Hr ni_rbytes nest_field_rbytes).
Defined.

Lemma merge_gathers_witness : exists t es,
  merge split_env false [split_dir] [7] (fresh_dir 0 (0, 0) true) = Ok (t, [7; 42], es) /\
  sd_items t = ∅ ∪ split_items.
Proof.
  destruct (merge_gathers split_env 0 (0, 0) true false [split_dir] [7]) as (t & es & E & _ & _ & _ & Hi & _).
  - done.
  - constructor; [|constructor]. split; [exact split_dir_ready|reflexivity|vm_compute; reflexivity].
  - constructor; [reflexivity|constructor].
  - split; [|exact I]. apply split_dir_can.
  - exists t, es. split; [exact E|exact Hi].
Defined.

Lemma split_merge_roundtrip_witness : exists d' subs ws1 es1 t ws2 es2,
  split (R := unit) split_env split_pick sticky_add 0 1 false [] split_dir = Ok (d', subs, ws1, es1) /\
  merge split_env false subs [] (fresh_dir 1 (0, 0) true) = Ok (t, ws2, es2) /\
  sd_items t = split_items.
Proof.
  destruct (split_merge_roundtrip (R := unit) sticky_add split_env split_pick 0 1 1 false [] split_dir sticky_adds split_dir_can)
    as (d' & subs & ws1 & es1 & t & ws2 & es2 & E1 & E2 & Hi & _).
  exists d', subs, ws1, es1, t, ws2, es2. split; [exact E1|]. split; [exact E2|exact Hi].
Defined.

Lemma split_forgets_mtime_witness : exists d' f fs ws' es,
  split (R := unit) split_env split_pick sticky_add 0 1 false [] split_dir = Ok (d', f :: fs, ws', es) /\
  fi_mtime (fn_fragstat (sd_fnode split_dir)) = 90 /\
  fi_mtime (fst (frag_add_delta (mk_frag_info 5 80 1 1) (fn_fragstat (sd_fnode f))
                   (fn_accounted_fragstat (sd_fnode f)) false)) = 0.
Proof.
  destruct (split_forgets_mtime (R := unit) sticky_add split_env split_pick 0 1 false [] split_dir sticky_adds split_dir_can)
    as (d' & f & fs & ws' & es & E & _ & Hm); [reflexivity|vm_compute; congruence|reflexivity|vm_compute; congruence|].
  exists d', f, fs, ws', es. split; [exact E|]. split; [reflexivity|apply Hm].
Defined.
