(* ===== verification/Migration.v ===== *)
(** * Export and import of a fragment

    What [decode_import] makes of the message of [encode_export] on the importing rank. *)

From stdpp Require Import base tactics numbers list gmap fin_maps sorting.
From Stdlib Require Import ZArith QArith Lia Ascii.
From S2P Require Import Prelude Double Stats Subtree LoadVec Keys CacheObject Dentries Freeze Versions Fragment Refragment FragmentPins SplitMerge.
Open Scope Z_scope.
Open Scope list_scope.

Section Migration.
Context {X T C R D F : Type} `{CephConst} `{UTime T} `{Bloom} `{CDouble D} `{DecayCounter C T R D}
  `{FragSplit F} `{DirentTypes}.
Abbreviation sdir := (sdir X T C F).
Implicit Types s d : sdir.

(** The bits of the imported fragment: those of the exporter that migrate, and those the importer
    keeps. *)
Definition import_bits (dft_stale : bool) d s (k : Z) : bool :=
  Z.testbit MASK_STATE_IMPORT_KEPT k && sd_test s (Z.shiftl 1 k) ||
  Z.testbit MASK_STATE_EXPORTED k && sd_test d (Z.shiftl 1 k) && negb ((k =? 18) && dft_stale).

(** The statistics of [n] that the inode has to gather. *)
Definition nest_outstanding (old : gmap Z (old_rstat_t T)) (n : fnode_t T) : bool :=
  negb (bool_decide (old = ∅)) || negb (bool_decide (fn_rstat n = fn_accounted_rstat n)).
Definition frag_outstanding (n : fnode_t T) : bool :=
  negb (bool_decide (fn_fragstat n = fn_accounted_fragstat n)).

(** What the import sets on the fragment itself, before the pin for replicas. *)
Definition import_state (x st : Z) : Z :=
  Z.lor (Z.land st MASK_STATE_IMPORT_KEPT) (Z.land x MASK_STATE_EXPORTED).

Lemma import_state_test x st k : 0 <= k ->
  has_bits (import_state x st) (Z.shiftl 1 k) =
    Z.testbit MASK_STATE_IMPORT_KEPT k && has_bits st (Z.shiftl 1 k) ||
    Z.testbit MASK_STATE_EXPORTED k && has_bits x (Z.shiftl 1 k).
Proof.
  intros Hk. rewrite !has_bits_testbit by done. unfold import_state. rewrite Z.lor_spec, !Z.land_spec.
  by rewrite (andb_comm (Z.testbit st k)), (andb_comm (Z.testbit x k)).
Qed.

(** The dirty mark of the import. *)
Lemma import_dirty ls (c : Versions.cdir X T) g :
  pins_are (cd_obj c) g -> co_ref (cd_obj c) < 2 ^ 31 - 2 -> g PIN_DIRTY = 0 ->
  exists c' es, (if cd_test c STATE_DIRTY then
                   '(d, es) ← cd_get PIN_DIRTY c;
                   '(d, es') ← _mark_dirty (Some ls) d;
                   Ok (d, es ++ es')
                 else Ok (c, [])) = Ok (c', es) /\
    pins_are (cd_obj c') (raise (cd_test c STATE_DIRTY) PIN_DIRTY g) /\
    co_state (cd_obj c') = co_state (cd_obj c) /\ co_ref (cd_obj c') < 2 ^ 31 - 1 /\
    fnode c' = fnode c /\ projected_version c' = projected_version c /\
    committing_version c' = committing_version c /\ committed_version c' = committed_version c /\
    df_items (cd_dir c') = df_items (cd_dir c) /\
    item_dirty c' = (if cd_test c STATE_DIRTY then Some ls else item_dirty c).
Proof.
  intros [Ro Hg] B G0. destruct (cd_test c STATE_DIRTY) eqn:E; [|eexists c, []; split_and!; try done; lia].
  unfold cd_get, on_fdir, fd_get, dir_get. change (df_obj (fd_dir (cd_fdir c))) with (cd_obj c).
  rewrite get_ok by (done || lia). cbn [mbind res_bind]. unfold _mark_dirty.
  match goal with |- context [cd_test ?x STATE_DIRTY] => change (cd_test x STATE_DIRTY) with (cd_test c STATE_DIRTY) end.
  rewrite E. cbn [mbind res_bind]. eexists _, _. split; [done|]. split_and!; try done.
  - apply pins_are_repin; [done|lia|lia].
  - change (co_ref (cd_obj c) + 1 < 2 ^ 31 - 1). lia.
Qed.

(** The calls on the fragment itself are not those on the locks. *)
Definition own_call (y : fr_effect X F) : Prop := match y with OnFrag _ _ => True | _ => False end.

Lemma on_frag_own s es : Forall own_call (on_frag s es).
Proof. unfold on_frag. induction es; by constructor. Qed.

Lemma get_if_own b pin s s' es : get_if b pin s = Ok (s', es) -> Forall own_call es.
Proof.
  unfold get_if, sd_get, lift_cd. destruct b; intros E.
  - apply bind_ok in E as ([c es0] & _ & [= <- <-]). apply on_frag_own.
  - injection E as <- <-. constructor.
Qed.

Lemma lock_marks (es1 es2 : list (fr_effect X F)) (b1 b2 b3 : bool) ls :
  Forall own_call es1 -> Forall own_call es2 ->
  let es := es1 ++ es2 ++ (if b1 then [MarkNestlock ls] else []) ++ (if b2 then [MarkFilelock ls] else []) ++
            (if b3 then [MarkDirfragtreelock ls] else []) in
  (MarkNestlock ls ∈ es <-> b1 = true) /\ (MarkFilelock ls ∈ es <-> b2 = true).
Proof.
  intros F1 F2 es.
  assert (forall y : fr_effect X F, ~ own_call y -> (y ∉ es1) /\ (y ∉ es2)) as Hn.
  { intros y Hy. rewrite Forall_forall in F1, F2. by split; intros ?; apply Hy; auto. }
  unfold es. rewrite !elem_of_app.
  destruct (Hn (MarkNestlock ls)) as [? ?], (Hn (MarkFilelock ls)) as [? ?]; [tauto..|].
  destruct b1, b2, b3; rewrite ?list_elem_of_singleton, ?elem_of_nil; split; split; intros; try done; try tauto;
    naive_solver.
Qed.

(** A stale mark of the fragment tree is dropped. *)
Lemma import_bits_clear dft_stale d s s3 :
  (forall k, 0 <= k -> sd_test s3 (Z.shiftl 1 k) = import_bits false d s k) ->
  forall k, 0 <= k ->
    sd_test (if sd_test s3 STATE_DIRTYDFT && dft_stale
             then set_sd_obj (state_clear STATE_DIRTYDFT (sd_obj s3)) s3 else s3) (Z.shiftl 1 k) =
    import_bits dft_stale d s k.
Proof.
  intros Hb k Hk. assert (k <> 18 -> import_bits true d s k = import_bits false d s k) as Hne.
  { intros N. unfold import_bits. by rewrite (proj2 (Z.eqb_neq k 18)). }
  assert (import_bits true d s 18 = false) as H18.
  { unfold import_bits. change (Z.testbit MASK_STATE_IMPORT_KEPT 18) with false. by rewrite andb_false_r. }
  destruct dft_stale; [|rewrite andb_false_r; by apply Hb]. rewrite andb_true_r.
  destruct (sd_test s3 STATE_DIRTYDFT) eqn:E.
  - change (sd_test _ (Z.shiftl 1 k)) with (state_test (state_clear (Z.shiftl 1 18) (sd_obj s3)) (Z.shiftl 1 k)).
    rewrite state_test_clear by done. change (state_test (sd_obj s3) (Z.shiftl 1 k)) with (sd_test s3 (Z.shiftl 1 k)).
    rewrite Hb by done. destruct (Z.eqb_spec 18 k) as [<-|N]; [done|]. simpl. by rewrite Hne.
  - rewrite Hb by done. destruct (Z.eq_dec k 18) as [->|N]; [|by rewrite Hne].
    unfold STATE_DIRTYDFT in E. rewrite Hb in E by done. by rewrite H18.
Qed.

(** C35: What is exported is what is imported.  [decode_import] of the message of [encode_export]
    succeeds on a fragment that is neither pinned as dirty nor as replicated.  The importer then
    has the exporter's fnode, versions and replicas; exactly the migrating state bits of the
    exporter and the kept ones of the importer; the pin and the place on the journal segment that
    go with being dirty, and the pin that goes with having replicas; the scatter locks are marked
    exactly when statistics are still to be gathered; the dentries are not touched. *)
Theorem export_import (redate : T -> list C -> list C) dft_stale now (rate : R) ls d d' x es s :
  encode_export d = Ok (x, d', es) -> refs_ok (sd_obj s) -> co_ref (sd_obj s) < 2 ^ 31 - 2 ->
  pins (sd_obj s) PIN_DIRTY = 0 -> pins (sd_obj s) PIN_REPLICATED = 0 ->
  exists s' es', decode_import redate dft_stale now rate ls x s = Ok (s', es') /\
    sd_fnode s' = sd_fnode d /\ projected_version (sd_dir s') = get_version (sd_dir d) /\
    committed_version (sd_dir s') = committed_version (sd_dir d) /\
    committing_version (sd_dir s') = committed_version (sd_dir d) /\
    co_replica_map (sd_obj s') = co_replica_map (sd_obj d) /\ sd_items s' = sd_items s /\
    (forall k, 0 <= k -> sd_test s' (Z.shiftl 1 k) = import_bits dft_stale d s k) /\
    pins (sd_obj s') PIN_DIRTY = bool_Z (sd_test d STATE_DIRTY) /\
    pins (sd_obj s') PIN_REPLICATED = bool_Z (is_replicated (sd_obj d)) /\
    item_dirty (sd_dir s') = (if sd_test d STATE_DIRTY then Some ls else item_dirty (sd_dir s)) /\
    (MarkNestlock ls ∈ es' <-> nest_outstanding (dirty_old_rstat d) (sd_fnode d) = true) /\
    (MarkFilelock ls ∈ es' <-> frag_outstanding (sd_fnode d) = true).
Proof.
  intros Ee Ro B P1 P2. unfold encode_export in Ee.
  apply bind_ok in Ee as (u & _ & Ee). apply bind_ok in Ee as ([d1 es0] & _ & [= <- <- <-]).
  unfold decode_import.
  cbn [ex_first ex_fnode ex_dirty_old_rstat ex_committed_version ex_state ex_dir_rep ex_pop_me
       ex_pop_auth_subtree ex_dir_rep_by ex_replica_map].
  set (c1 := set_cd_obj _ _).
  assert (co_state (cd_obj c1) = import_state (co_state (sd_obj d)) (co_state (sd_obj s))) as Es by done.
  assert (cd_test c1 STATE_DIRTY = sd_test d STATE_DIRTY) as Ed.
  { unfold cd_test, state_test, STATE_DIRTY. rewrite Es, import_state_test by done. done. }
  destruct (import_dirty ls c1 (pins (sd_obj s))) as (c2 & es1 & -> & Hp & Hs & Hb & Hf & Hv & Hc1 & Hc2 & Hi & Hl).
  { by apply pins_are_state. }
  { change (co_ref (sd_obj s) < 2 ^ 31 - 2). lia. }
  { done. }
  cbn [mbind res_bind]. rewrite Ed in *.
  destruct (vec_add now rate (pop_auth_subtree_nested s) (redate now (pop_auth_subtree d))) as [subn sub].
  match goal with |- context [get_if ?b PIN_REPLICATED ?y] => set (s2 := y) end.
  assert (pins_are (sd_obj s2) (raise (sd_test d STATE_DIRTY) PIN_DIRTY (pins (sd_obj s)))) as Hp2
    by (destruct Hp as [[] ?]; split; [by split|done]).
  destruct (get_if_ok (is_replicated (sd_obj s2)) PIN_REPLICATED s2 _ Hp2) as (o3 & es2 & E3 & [[Ro3 Q1] Q2 Q3 _ _]).
  { done. }
  { unfold raise, bump. rewrite P2. by destruct (sd_test d STATE_DIRTY). }
  rewrite E3. cbn [mbind res_bind]. eexists _, _. split; [done|].
  set (s3 := set_sd_obj (set_replica_nonce 0 _) _).
  assert (forall k, 0 <= k -> sd_test s3 (Z.shiftl 1 k) = import_bits false d s k) as Hb3.
  { intros k Hk. unfold sd_test, cd_test, state_test, import_bits. change (cd_obj (sd_dir s3)) with (set_replica_nonce 0 o3).
    cbn [co_state set_replica_nonce]. rewrite Q2. change (co_state (sd_obj s2)) with (co_state (cd_obj c2)).
    rewrite Hs, Es, import_state_test by done. by rewrite andb_false_r, andb_true_r. }
  pose proof (lock_marks (on_frag (if sd_test s3 STATE_DIRTYDFT && dft_stale
      then set_sd_obj (state_clear STATE_DIRTYDFT (sd_obj s3)) s3 else s3) es1) es2
    (nest_outstanding (dirty_old_rstat d) (fnode c2)) (frag_outstanding (fnode c2))
    (sd_test s3 STATE_DIRTYDFT && negb dft_stale) ls (on_frag_own _ _) (get_if_own _ _ _ _ _ E3)) as [L1 L2].
  assert (sd_fnode d = fnode c2) as Efn by (by rewrite Hf). pose proof (import_bits_clear dft_stale d s s3 Hb3) as Hbits.
  split_and!; [destruct (_ && dft_stale); done..|exact Hbits| | | |rewrite Efn; exact L1|rewrite Efn; exact L2].
  - destruct (_ && dft_stale); change (pins o3 PIN_DIRTY = bool_Z (sd_test d STATE_DIRTY)); rewrite Q1;
      unfold raise, bump; simpl; rewrite P1; by repeat case_match.
  - destruct (_ && dft_stale); change (pins o3 PIN_REPLICATED = bool_Z (is_replicated (sd_obj s2))); rewrite Q1;
      unfold raise, bump; simpl; rewrite P2; by repeat case_match.
  - destruct (_ && dft_stale); exact Hl.
Qed.

End Migration.

#[local] Existing Instances split_ceph split_bloom split_types split_frags.

(** The fragment of the example is exported to a rank that has an empty replica of it. *)
Lemma export_import_witness : exists x d' es s' (es' : list (fr_effect Z (Z * Z))),
  encode_export split_dir = Ok (x, d', es) /\
  decode_import (fun _ v => v) false 1 tt 9 x (fresh_dir 0 (0, 0) false) = Ok (s', es') /\
  sd_fnode s' = split_fnode /\ pins (sd_obj s') PIN_DIRTY = 1 /\ MarkFilelock 9 ∈ es'.
Proof.
  destruct (encode_export split_dir) as [[[x d'] es]|] eqn:E; [|by vm_compute in E].
  destruct (export_import (fun _ v => v) false 1 tt 9 split_dir d' x es (fresh_dir 0 (0, 0) false))
    as (s' & es' & E' & Hf & _ & _ & _ & _ & _ & _ & Hp & _ & _ & _ & Hl).
  - exact E.
  - split; [reflexivity|intros b n Hn; change ((∅ : gmap Z Z) !! b = Some n) in Hn; by rewrite lookup_empty in Hn|reflexivity].
  - vm_compute; reflexivity.
  - reflexivity.
  - reflexivity.
  - exists x, d', es, s', es'. split; [done|]. split; [exact E'|]. split; [exact Hf|].
    split; [exact Hp|]. apply Hl. vm_compute. reflexivity.
Defined.
