(* ===== verification/DirFreeze.v ===== *)
(** * A directory freeze, exactly (CDir.cc)

    [Freeze] shows that the operations on auth pins and freezes keep an invariant.  Those who
    drive the freeze of a directory also need to know what comes out: this file gives the view
    of the fragment after [auth_unpin], [freeze_dir] and [unfreeze_dir], and what they leave
    alone. *)

From stdpp Require Import base tactics numbers list gmap.
From Stdlib Require Import ZArith Lia.
From S2P Require Import Prelude Keys CacheObject Dentries Freeze Versions Commit CommitMachine.
Open Scope Z_scope.
Open Scope list_scope.

Ltac split_view v :=
  unfold put_pins, put_bits in *; destruct v;
  cbn [v_pins v_nested v_dirpins v_T v_FT v_D v_FD v_authpin v_frozenpin v_root v_auth fst snd] in *; subst;
  repeat match goal with b : bool |- _ => destruct b; try discriminate end;
  cbn [b2z negb andb orb] in *; try (discriminate || lia);
  try (repeat match goal with
       | |- context [?a =? ?b] => destruct (Z.eqb_spec a b)
       | H : context [?a =? ?b] |- _ => destruct (Z.eqb_spec a b)
       end; cbn [b2z negb andb orb] in *; intuition (discriminate || lia)).

(** The view after a pin is released: the last one completes the freeze of the directory. *)
Definition unpin_view (v : fview) : fview :=
  if v_D v && (v_pins v =? 2) && (v_dirpins v =? 0)
  then put_pins 0 0 (put_bits (v_T v) (v_FT v) false true (v_frozenpin v + 1) v)
  else put_pins (v_pins v - 1) (v_authpin v - b2z (v_pins v =? 1)) v.

(** ... and after the freeze is undone. *)
Definition thaw_view (v : fview) : fview :=
  if v_FD v then put_bits (v_T v) (v_FT v) (v_D v) false (v_frozenpin v - 1) v
  else put_pins (v_pins v - 1) (v_authpin v - b2z (v_pins v =? 1))
         (put_bits (v_T v) (v_FT v) false (v_FD v) (v_frozenpin v) v).

(** Neither adds pins. *)
Lemma unpin_view_le ext v : finv ext v ->
  v_pins (unpin_view v) + v_nested (unpin_view v) <= v_pins v + v_nested v.
Proof. intros [I1 I2 I3 I4 I5 I6 I7 I8 I9]. unfold unpin_view. destruct (_ && _); cbn; [|lia]. destruct (v_T v), (v_D v); cbn [b2z] in *; lia. Qed.
Lemma thaw_view_le v : v_pins (thaw_view v) + v_nested (thaw_view v) <= v_pins v + v_nested v.
Proof. unfold thaw_view. destruct (v_FD v); cbn; lia. Qed.

Section DirFreeze.
Context {C : Type}.
Implicit Types d : fdir C.

(** Within the widths of the counters. *)
Definition within d : Prop :=
  co_ref (fd_obj d) < 2 ^ 31 - 2 /\ auth_pins d + nested_auth_pins d < 2 ^ 31 - 2.

(** [d'] comes out of [r] with a given view. *)
Definition gives (ext : Z) d (r : res (fdir C * list (fz_effect C))) (v : fview) : Prop :=
  exists d' es, r = Ok (d', es) /\ fz_ok ext d' /\ view d' = v /\ calm d d' /\
    co_ref (fd_obj d') <= co_ref (fd_obj d) + 1.

Lemma auth_pin_gives ext d :
  fz_ok ext d -> within d -> is_frozen_tree_root d = false -> is_frozen_dir d = false ->
  gives (ext + 1) d (auth_pin d)
    (put_pins (v_pins (view d) + 1) (v_authpin (view d) + b2z (v_pins (view d) =? 0)) (view d)).
Proof.
  intros [O I] [B Hp] FT FD. pose proof I as [I1 I2 I3 I4 I5 I6 I7 I8 I9].
  assert (0 <= v_pins (view d)) as Hp0 by (rewrite I2; destruct (v_T (view d)), (v_D (view d)); simpl; lia).
  destruct (auth_pin_ok d (view d) O) as (d1 & es & [E O1 R1 V1 S1]); [lia|done|done|done|cbn in *; lia|].
  exists d1, es. split_and!; [done| |done|by eapply calm_auth_pin|done]. split; [done|]. rewrite V1.
  change (v_FT (view d) = false) in FT. change (v_FD (view d) = false) in FD.
  clear - I1 I2 I3 I4 I5 I6 I7 I8 I9 FT FD Hp0. split; split_view (view d).
Qed.

Lemma auth_unpin_gives ext e d :
  fz_ok ext d -> within d -> 1 <= ext -> is_freezing_tree_root d = false ->
  gives (ext - 1) d (auth_unpin e d) (unpin_view (view d)).
Proof.
  intros [O I] [B Hp] Hx HT. pose proof I as [I1 I2 I3 I4 I5 I6 I7 I8 I9].
  change (v_T (view d) = false) in HT.
  destruct (release_ok ext d O I) as (d1 & es & [E1 O1 R1 V1 S1] & I' & Ep & Hp1); [cbn in *; lia|done|].
  destruct (noop (view d1)) eqn:En.
  - pose proof (auth_unpin_eq e d d1 es E1 ltac:(lia)) as Eq. rewrite maybe_noop in Eq by done.
    cbn [mbind res_bind] in Eq. eexists d1, _. split; [exact Eq|]. split; [by split|]. split; [|split; [|lia]].
    + rewrite V1. rewrite V1 in En. clear - En HT I2 I5 Hx. unfold unpin_view, noop in *.
      replace (v_D (view d) && (v_pins (view d) =? 2) && (v_dirpins (view d) =? 0)) with false; [done|].
      symmetry. split_view (view d).
    + eapply calm_unpin_n. exact Eq.
  - unfold noop in En. rewrite !orb_false_iff, !negb_false_iff in En. destruct En as [[Hq Hd] Hr].
    apply Z.eqb_eq in Hq, Hd.
    assert (v_D (view d1) = true) as HD.
    { destruct (v_D (view d1)) eqn:HD; [done|]. cbn [negb andb] in Hr. apply orb_false_iff in Hr as [_ Hr].
      assert (v_T (view d1) = false) as HT1 by (rewrite V1; exact HT). by rewrite HT1 in Hr. }
    destruct (maybe_dir_result 0 e (ext - 1) d1 O1) as (d2 & es2 & [E2 O2 R2 V2 S2]); [lia|done| |done|done|done|].
    { rewrite V1. cbn in *. lia. }
    assert (v_pins (view d) - 1 = 1) as Hq' by (rewrite V1 in Hq; exact Hq).
    assert (v_dirpins (view d) = 0) as Hd' by (rewrite V1 in Hd; exact Hd).
    assert (v_D (view d) = true) as HD' by (rewrite V1 in HD; exact HD).
    assert (unpin_view (view d) = put_pins 0 0 (put_bits (v_T (view d)) (v_FT (view d)) false true
      (v_frozenpin (view d) + 1) (view d))) as Eu.
    { unfold unpin_view. rewrite HD'.
      replace (v_pins (view d) =? 2) with true by lia. by replace (v_dirpins (view d) =? 0) with true by lia. }
    pose proof (auth_unpin_eq e d d1 es E1 ltac:(lia)) as Eq. rewrite E2 in Eq. cbn [mbind res_bind] in Eq.
    eexists d2, _. split; [exact Eq|]. split; [split; [done|]|split; [|split; [|lia]]].
    + rewrite V2, V1. clear - I1 I2 I3 I4 I5 I6 I7 I8 I9 Hq' Hd' HD' HT. split; split_view (view d).
    + rewrite V2, Eu, V1. done.
    + eapply calm_unpin_n. exact Eq.
Qed.

(** A state bit of the freezes is set or cleared. *)
Lemma calm_bit d st :
  (forall k, 0 <= k -> ~ (2 <= k <= 5) -> Z.testbit st k = Z.testbit (co_state (fd_obj d)) k) ->
  calm d (set_fd_obj (set_co_state st (fd_obj d)) d).
Proof. intros Hb. by split. Qed.

Lemma calm_set_bit d k : 2 <= k <= 5 -> calm d (set_fd_obj (state_set (Z.shiftl 1 k) (fd_obj d)) d).
Proof.
  intros Hk. apply calm_bit. intros j Hj Hn. rewrite Z.lor_spec, Z.shiftl_1_l, Z.pow2_bits_eqb by lia.
  replace (k =? j) with false by lia. by rewrite orb_false_r.
Qed.

Lemma calm_clear_bit d k : 2 <= k <= 5 -> calm d (set_fd_obj (state_clear (Z.shiftl 1 k) (fd_obj d)) d).
Proof.
  intros Hk. apply calm_bit. intros j Hj Hn. rewrite Z.ldiff_spec, Z.shiftl_1_l, Z.pow2_bits_eqb by lia.
  replace (k =? j) with false by lia. by rewrite andb_true_r.
Qed.

(** A freeze of a directory somebody has pinned starts and waits. *)
Lemma freeze_dir_gives ext e d :
  fz_ok ext d -> within d -> 1 <= ext -> is_frozen e d = false -> is_freezing e d = false ->
  exists d' es, freeze_dir e d = Ok (false, d', es) /\ fz_ok ext d' /\
    view d' = put_pins (v_pins (view d) + 1) (v_authpin (view d)) (put_bits false false true false 0 (view d)) /\
    calm d d' /\ co_ref (fd_obj d') <= co_ref (fd_obj d) + 1.
Proof.
  intros F Fi Hx Hf Hg. pose proof F as [O I]. pose proof I as [I1 I2 I3 I4 I5 I6 I7 I8 I9].
  destruct (not_frozen_bits e d Hf Hg) as (FT & FD & HT & HD). unfold freeze_dir. rewrite Hf, Hg.
  cbn [negb assert_ mbind res_bind].
  destruct (auth_pin_gives ext d F Fi FT FD) as (d1 & es & E & F1 & V1 & Ca & R1). rewrite E. cbn [mbind res_bind].
  assert (is_freezeable_dir true e d1 = false) as ->.
  { unfold is_freezeable_dir. replace (0 <? auth_pins d1 - bool_Z true) with true; [done|].
    change (auth_pins d1) with (v_pins (view d1)). rewrite V1. cbn [put_pins v_pins bool_Z].
    rewrite I2, HT, HD. cbn [b2z]. lia. }
  assert ((v_pins (view d) =? 0) = false) as Hp by (rewrite I2, HT, HD; cbn [b2z]; lia).
  eexists _, _. split; [done|]. split; [split|split; [|split]].
  - exact (obj_ok_state _ _ (fz_obj _ _ F1)).
  - rewrite view_set_dir, V1. rewrite Hp in *. clear - I1 I2 I3 I4 I5 I6 I7 I8 I9 FT FD HT HD Hp Hx. split; split_view (view d).
  - rewrite view_set_dir, V1, Hp. rewrite FT, FD in I7. cbn [b2z] in I7 |- *.
    unfold put_pins, put_bits. cbn [v_pins v_nested v_dirpins v_T v_FT v_D v_FD v_authpin v_frozenpin v_root v_auth].
    f_equal; (done || lia).
  - eapply calm_trans; [exact Ca|]. by apply (calm_set_bit d1 5).
  - exact R1.
Qed.

Lemma finish_waiting_gives ext mask r d :
  fz_ok ext d -> has_bits mask WAIT_DENTRY = false ->
  exists d' es, finish_waiting mask r d = Ok (d', es) /\ fz_ok ext d' /\ view d' = view d /\ calm d d' /\
    co_ref (fd_obj d') <= co_ref (fd_obj d).
Proof.
  intros [O I] Hm. destruct (finish_waiting_ok mask r d O Hm) as (d' & es & [E O' R' V' _]).
  exists d', es. split_and!; [done|split; [done|by rewrite V']|done|by eapply calm_finish|lia].
Qed.

Lemma within_le d d' : within d -> co_ref (fd_obj d') <= co_ref (fd_obj d) -> view d' = view d -> within d'.
Proof.
  intros [H1 H2] Hr V. split; [lia|]. change (v_pins (view d') + v_nested (view d') < 2 ^ 31 - 2). by rewrite V.
Qed.

Lemma thaw_gives ext e d :
  fz_ok ext d -> within d -> is_frozen_dir d = true -> gives ext d (unfreeze_dir e d) (thaw_view (view d)).
Proof.
  intros [O I] Fi FD. pose proof I as [I1 I2 I3 I4 I5 I6 I7 I8 I9]. unfold unfreeze_dir, unfreeze.
  change (fd_test d STATE_FROZENDIR) with (is_frozen_dir d). rewrite FD. cbv zeta. change (v_FD (view d) = true) in FD.
  set (d1 := set_fd_obj (state_clear STATE_FROZENDIR (fd_obj d)) d).
  assert (v_frozenpin (view d) = 1) as Hz by (clear - I5 I7 FD; split_view (view d)).
  destruct (fd_put_ok PIN_FROZEN d1) as (hs & E2 & O2); [exact (obj_ok_state _ _ O)|done|done| |].
  { change (pins (fd_obj d1) PIN_FROZEN) with (v_frozenpin (view d)). lia. }
  set (d2 := set_fd_obj (repin (-1) PIN_FROZEN (fd_obj d1)) d1) in *.
  assert (view d2 = thaw_view (view d)) as V2.
  { unfold d2, thaw_view. rewrite view_repin by done. unfold d1. rewrite view_clear_FD, FD, decide_False, decide_True by done.
    unfold put_bits. cbn. f_equal; lia. }
  assert (fz_ok ext d2) as F2.
  { split; [done|]. rewrite V2. unfold thaw_view. rewrite FD, Hz.
    clear - I1 I2 I3 I4 I5 I6 I7 I8 I9 FD. split; split_view (view d). }
  destruct (finish_waiting_gives ext WAIT_UNFREEZE 0 d2 F2) as (d3 & es3 & E3 & F3 & V3 & C3 & R3); [done|].
  rewrite E2. cbn [mbind res_bind]. rewrite E3. cbn [mbind res_bind]. exists d3.
  eexists. split; [done|]. split; [done|]. split; [by rewrite V3|]. split.
  - eapply calm_trans; [|exact C3]. apply (calm_trans _ d1); [by apply (calm_clear_bit d 4)|].
    eapply calm_put; [|exact E2]. unfold freeze_pin. tauto.
  - assert (co_ref (fd_obj d2) = co_ref (fd_obj d) - 1) by done. lia.
Qed.

Lemma stop_gives ext e d :
  fz_ok ext d -> within d -> is_freezing_dir d = true -> gives ext d (unfreeze_dir e d) (thaw_view (view d)).
Proof.
  intros F Fi HD. pose proof F as [O I]. pose proof I as [I1 I2 I3 I4 I5 I6 I7 I8 I9].
  change (v_D (view d) = true) in HD. destruct (finv_no_freezing_dir _ _ I HD) as (HT & HFT & HFD).
  unfold unfreeze_dir, unfreeze. change (fd_test d STATE_FROZENDIR) with (v_FD (view d)). rewrite HFD.
  destruct (finish_waiting_gives ext WAIT_FROZEN (-1) d F) as (d1 & es1 & E1 & F1 & V1 & C1 & R1); [done|].
  rewrite E1. cbn [mbind res_bind]. change (fd_test d1 STATE_FREEZINGDIR) with (v_D (view d1)). rewrite V1, HD.
  cbn [assert_ mbind res_bind]. set (d2 := set_fd_obj (state_clear STATE_FREEZINGDIR (fd_obj d1)) d1).
  assert (view d2 = put_bits false false false false (v_frozenpin (view d)) (view d)) as V2.
  { unfold d2. rewrite view_clear_D, V1, HT, HFT, HFD. done. }
  assert (fz_ok (ext + 1) d2) as F2.
  { split; [exact (obj_ok_state _ _ (fz_obj _ _ F1))|]. rewrite V2.
    clear - I1 I2 I3 I4 I5 I6 I7 I8 I9 HT HFT HFD HD. split; split_view (view d). }
  assert (within d2) as Fi2.
  { destruct Fi as [A1 A2]. split; [change (co_ref (fd_obj d2)) with (co_ref (fd_obj d1)); lia|].
    change (v_pins (view d2) + v_nested (view d2) < 2 ^ 31 - 2). rewrite V2. exact A2. }
  destruct (auth_unpin_gives (ext + 1) e d2 F2 Fi2) as (d3 & es3 & E3 & F3 & V3 & C3 & R3); [lia|by change (v_T (view d2) = false); rewrite V2|].
  destruct (finish_waiting_gives (ext + 1 - 1) WAIT_UNFREEZE 0 d3 F3) as (d4 & es4 & E4 & F4 & V4 & C4 & R4); [done|].
  rewrite E3. cbn [mbind res_bind]. rewrite E4. cbn [mbind res_bind]. exists d4. eexists. split; [done|].
  replace (ext + 1 - 1) with ext in F4 by lia. split; [done|]. split; [|split].
  - rewrite V4, V3, V2. unfold unpin_view, thaw_view. rewrite HT, HFT, HFD. done.
  - eapply calm_trans; [exact C1|]. eapply calm_trans; [by apply (calm_clear_bit d1 5)|].
    eapply calm_trans; [exact C3|exact C4].
  - assert (co_ref (fd_obj d2) = co_ref (fd_obj d1)) by done. lia.
Qed.

Lemma unfreeze_dir_gives ext e d :
  fz_ok ext d -> within d -> is_freezing_dir d = true \/ is_frozen_dir d = true ->
  gives ext d (unfreeze_dir e d) (thaw_view (view d)).
Proof. intros F Fi [Hd|Hd]; [by apply stop_gives|by apply thaw_gives]. Qed.

(** The bits of a freeze decide whether the fragment is frozen, the rest is its ancestors';
    auth pins do not matter. *)
Lemma is_frozen_pins e d d' n a : view d' = put_pins n a (view d) ->
  is_frozen e d' = is_frozen e d /\ is_freezing e d' = is_freezing e d.
Proof.
  intros V. unfold is_frozen, is_freezing, is_frozen_tree, is_freezing_tree, own.
  change (is_frozen_dir d') with (v_FD (view d')). change (is_freezing_dir d') with (v_D (view d')).
  change (is_frozen_tree_root d') with (v_FT (view d')). change (is_freezing_tree_root d') with (v_T (view d')).
  change (fd_subtree_root d') with (v_root (view d')). by rewrite V.
Qed.

End DirFreeze.
