(* ===== verification/Fragmenting.v ===== *)
(** * Refragmenting directories (MDCache.cc, MDCache.h)

    The fragments of a directory are split or merged in steps that other work is interleaved
    with.  [split_dir] and [merge_dir] start freezing the fragments; [fragment_mark_and_complete]
    reads them in and marks their dentries; once all are frozen [dispatch_fragment_dir] takes
    locks, journals the change and refragments ([adjust_dir_fragments]); the new fragments are
    stored, the commit is journalled, and the objects of the old fragments are removed.
    [find_stale_fragment_freeze] gives up a freeze others wait for.  [uncommitted_fragments] is
    what has to be rolled back after a crash.

    A handler runs in the monad [M]: the cache, an abort when an assert fails, and the trace of
    the calls on parts that are not in the repository (inodes, locks, journal, object store,
    the gathers of contexts) as [mc_effect]s.  Fragments are found by a number that stands for
    their address. *)

From stdpp Require Import base tactics numbers list gmap.
From Stdlib Require Import ZArith Lia Ascii.
From S2P Require Import Prelude Double Stats Inodes Subtree LoadVec Keys CacheObject Dentries Freeze Versions Commit Fetch Fragment.
Open Scope Z_scope.
Open Scope list_scope.

(** ** Keys *)

Section DirfragKeys.
Context {F : Type} `{Countable F}.

#[export] Instance dirfrag_eq_dec : EqDecision (dirfrag_t F).
Proof. solve_decision. Defined.
#[export] Program Instance dirfrag_countable : Countable (dirfrag_t F) :=
  inj_countable' (fun f => (df_ino f, df_frag f)) (fun p => mk_dirfrag (fst p) (snd p)) _.
Next Obligation. by intros []. Qed.
#[export] Instance dirfrag_order `{KeyOrder F} : KeyOrder (dirfrag_t F) :=
  fun a b => negb (dirfrag_ltb b a).

End DirfragKeys.

(** ** What is not in the repository *)

(** [frag_t] beside its splitting: [frag_t()], [bits()], [parent()], [contains()]. *)
Class FragTree (F : Type) := {
  fg_root : F;
  fg_bits : F -> Z;
  fg_parent : F -> F;
  fg_contains : F -> F -> bool
}.

(** [fragtree_t], and [CInode::pick_dirfrag] and [CInode::get_dirfrags_under], which read it. *)
Class DirFragTree (F G : Type) := {
  ft_is_leaf : F -> G -> bool;
  ft_force_to_leaf : F -> G -> G;
  ft_split : F -> Z -> G -> G;
  ft_branch_or_leaf : F -> G -> F;
  ft_leaves_under : F -> G -> list F;
  ft_pick : G -> cstring -> F;
  ft_dirfrags_under : F -> G -> list F -> bool * list F  (* the frags there are; all of them? *)
}.

(** [EFragment::OP_*], [MDSMap::STATE_REJOIN], and the subtraction of seconds from a time *)
Class FragConst (T D : Type) := {
  OP_PREPARE : Z;
  OP_COMMIT : Z;
  OP_ROLLBACK : Z;
  OP_FINISH : Z;
  MDS_STATE_REJOIN : Z;
  ut_minus : T -> D -> T
}.

(** The subs of the gathers that end in [C_MDC_FragmentMarking], [C_MDC_FragmentFrozen] and
    [C_MDC_FragmentStore]. *)
Class FragContexts (X : Type) := {
  sub_marking : Z -> X;
  sub_frozen : Z -> X;
  sub_store : Z -> X
}.

(** ** The state *)

Section Fragmenting.
Context {X T C R D F G S : Type} `{CephConst} `{UTime T} `{Bloom} `{CDouble D} `{DecayCounter C T R D}
  `{FragSplit F} `{DirentTypes} `{CDentryOps X} `{StoreOps S} `{Codec S T} `{CommitConst X}
  `{Countable F} `{KeyOrder F} `{FragTree F} `{DirFragTree F G} `{FragConst T D}
  `{FragContexts X}.
Abbreviation sdir := (Fragment.sdir X T C F).
Abbreviation dirfrag := (dirfrag_t F).

(** An inode with fragments, as the code here sees it. *)
Record dinode := mk_dinode {
  dirfrags : gmap F Z;
  dirfragtree : G;
  di_env : Fragment.ienv T;
  di_cenv : Commit.ienv;
  di_root : bool;                   (* is_root() *)
  di_mdsdir : bool;                 (* is_mdsdir() *)
  di_stray : bool;                  (* is_stray() *)
  di_authority : authority_t;       (* authority() *)
  di_add : sdir -> res sdir;        (* what add_dirfrag does to the fragment *)
  di_waiting : gmap F (list X)      (* the contexts that wait for a fragment *)
}.

(** A fragment and its [inode]. *)
Record mdir := mk_mdir { md_inode : Z; md_dir : sdir }.

(** A request; [rq_ls] is its log segment. *)
Record mreq := mk_mreq { fragment_base : dirfrag; aborted : bool; rq_ls : Z }.

Record fragment_info_t := mk_finfo {
  fi_bits : Z;
  fi_dirs : list Z;
  fi_resultfrags : list Z;
  fi_mdr : Z;
  fi_all_frozen : bool;
  fi_last_change : T;               (* last_cum_auth_pins_change *)
  fi_last_pins : Z;                 (* last_cum_auth_pins *)
  fi_remote_waiters : Z             (* num_remote_waiters *)
}.

Record ufragment := mk_ufrag {
  uf_bits : Z;
  uf_committed : bool;
  uf_ls : Z;
  uf_waiters : list X;
  uf_old_frags : list F;
  uf_rollback : list (fnode_t T)
}.

Record mcache := mk_mcache {
  mc_dirs : gmap Z mdir;
  mc_next : Z;                                     (* the next address *)
  mc_inodes : gmap Z dinode;
  mc_objs : Z -> cinode S;
  mc_subtrees : gmap Z (gset Z);
  fragments : gmap dirfrag fragment_info_t;
  uncommitted_fragments : gmap dirfrag ufragment;
  mc_segments : gmap Z (gset dirfrag);             (* LogSegment::uncommitted_fragments *)
  mc_reqs : gmap Z mreq
}.

(** The rest of the daemon. *)
Record menv := mk_menv {
  me_readonly : bool;
  me_degraded : bool;               (* mdsmap->is_degraded() *)
  me_state : Z;                     (* mds->get_state() *)
  me_peer_state : Z -> Z;           (* mdsmap->get_state() *)
  me_rejoin_gather : gset Z;
  me_segment : Z;                   (* mdlog->get_current_segment() *)
  me_now : T;
  me_freeze_tree_timeout : D;
  me_debug_frag : bool;
  me_verify_backtrace : bool;
  me_fetch_whole : bool
}.

(** What is added to the [EMetaBlob] of a journal entry. *)
Inductive blob_item :=
| DirContext (d : Z)
| FragmentedDir (d : Z) (dirty dirtydft : bool)
| DirtyInode (ino : Z)                             (* journal_dirty_inode *)
| PrimaryDentry (ino : Z).

Inductive mc_effect :=
| OnDir (d : Z) (e : fr_effect X F)
| OnFetch (d : Z) (e : ft_effect X)
| OnCommit (d : Z) (e : cm_effect X)
| RequestStart (mdr : Z)
| RequestFinish (mdr : Z)
| GatherMarking (mdr : Z)                          (* gather.activate() *)
| GatherFrozen (mdr : Z)
| GatherStore (mdr : Z)
| FlushLog
| RequeueSplit (d : Z)                             (* balancer->queue_split *)
| RequeueMerge (d : Z)
| VerifyDirfrags (ino : Z)
| WakeWaiters (ls : list X)                        (* mds->queue_waiters *)
| MarkScatterlock (ino : Z) (ls : Z)               (* dirfragtreelock, and the list of the segment *)
| ProjectInode (ino : Z)                           (* project_inode, pre_dirty *)
| PopInode (ino : Z) (ls : Z)                      (* pop_and_dirty_projected_inode *)
| ApplyRequest (mdr : Z)
| DropLocks (mdr : Z)
| Journal (op : Z) (base : dirfrag) (bits : Z) (orig : list (F * option (fnode_t T))) (blob : list blob_item)
| SendNotify (rank : Z) (base : dirfrag) (bits : Z) (dirs : list Z)
| RemoveObject (base : dirfrag) (fg : F)
| TruncateObject (base : dirfrag) (fg : F)
| WhenRemoved (base : dirfrag) (dirs : list Z)     (* C_IO_MDC_FragmentFinish *)
| WhenCommitted (base : dirfrag) (dirs : list Z).  (* C_MDC_FragmentCommit *)

Definition set_dirs (x : gmap Z mdir) (m : mcache) : mcache :=
  mk_mcache x (mc_next m) (mc_inodes m) (mc_objs m) (mc_subtrees m) (fragments m) (uncommitted_fragments m)
    (mc_segments m) (mc_reqs m).
Definition set_next (x : Z) (m : mcache) : mcache :=
  mk_mcache (mc_dirs m) x (mc_inodes m) (mc_objs m) (mc_subtrees m) (fragments m) (uncommitted_fragments m)
    (mc_segments m) (mc_reqs m).
Definition set_inodes (x : gmap Z dinode) (m : mcache) : mcache :=
  mk_mcache (mc_dirs m) (mc_next m) x (mc_objs m) (mc_subtrees m) (fragments m) (uncommitted_fragments m)
    (mc_segments m) (mc_reqs m).
Definition set_objs (x : Z -> cinode S) (m : mcache) : mcache :=
  mk_mcache (mc_dirs m) (mc_next m) (mc_inodes m) x (mc_subtrees m) (fragments m) (uncommitted_fragments m)
    (mc_segments m) (mc_reqs m).
Definition set_subtrees (x : gmap Z (gset Z)) (m : mcache) : mcache :=
  mk_mcache (mc_dirs m) (mc_next m) (mc_inodes m) (mc_objs m) x (fragments m) (uncommitted_fragments m)
    (mc_segments m) (mc_reqs m).
Definition set_fragments (x : gmap dirfrag fragment_info_t) (m : mcache) : mcache :=
  mk_mcache (mc_dirs m) (mc_next m) (mc_inodes m) (mc_objs m) (mc_subtrees m) x (uncommitted_fragments m)
    (mc_segments m) (mc_reqs m).
Definition set_uncommitted (x : gmap dirfrag ufragment) (s : gmap Z (gset dirfrag)) (m : mcache) : mcache :=
  mk_mcache (mc_dirs m) (mc_next m) (mc_inodes m) (mc_objs m) (mc_subtrees m) (fragments m) x s (mc_reqs m).
Definition set_reqs (x : gmap Z mreq) (m : mcache) : mcache :=
  mk_mcache (mc_dirs m) (mc_next m) (mc_inodes m) (mc_objs m) (mc_subtrees m) (fragments m)
    (uncommitted_fragments m) (mc_segments m) x.

(** ** The monad *)

Definition M (A : Type) : Type := mcache -> res (A * mcache * list mc_effect).

#[export] Instance M_ret : MRet M := fun A a m => Ok (a, m, []).
#[export] Instance M_bind : MBind M := fun A B k p m =>
  match p m with
  | Ok (a, m, es) => match k a m with Ok (b, m, es') => Ok (b, m, es ++ es') | Abort => Abort end
  | Abort => Abort
  end.

Definition assertM (b : bool) : M unit := fun m => if b then Ok (tt, m, []) else Abort.
Definition the {A} (o : option A) : M A := fun m => match o with Some a => Ok (a, m, []) | None => Abort end.
Definition cache : M mcache := fun m => Ok (m, m, []).
Definition modify (f : mcache -> mcache) : M unit := fun m => Ok (tt, f m, []).
Definition emit (es : list mc_effect) : M unit := fun m => Ok (tt, m, es).
Definition skip : M unit := mret tt.

Fixpoint for_each {A} (f : A -> M unit) (l : list A) : M unit :=
  match l with
  | [] => skip
  | a :: l => f a ;; for_each f l
  end.

(** What the pointers point to. *)
Definition the_dir (d : Z) : M mdir := m ← cache; the (mc_dirs m !! d).
Definition the_inode (i : Z) : M dinode := m ← cache; the (mc_inodes m !! i).
Definition the_req (r : Z) : M mreq := m ← cache; the (mc_reqs m !! r).
Definition inode_of (d : Z) : M dinode := x ← the_dir d; the_inode (md_inode x).

Definition put_dir (d : Z) (s : sdir) : M unit :=
  modify (fun m => set_dirs (alter (fun x => mk_mdir (md_inode x) s) d (mc_dirs m)) m).
Definition put_inode (i : Z) (x : dinode) : M unit := modify (fun m => set_inodes (<[i := x]> (mc_inodes m)) m).

(** [dir->op()] *)
Definition on_dir (op : Fragment.ienv T -> sdir -> res (sdir * list (fr_effect X F))) (d : Z) : M unit :=
  x ← the_dir d;
  i ← the_inode (md_inode x);
  match op (di_env i) (md_dir x) with
  | Ok (s, es) => put_dir d s ;; emit (map (OnDir d) es)
  | Abort => fun _ => Abort
  end.

Definition dir_set (mask : Z) (d : Z) : M unit :=
  on_dir (fun _ s => Ok (set_sd_obj (state_set mask (sd_obj s)) s, [])) d.
Definition dir_clear (mask : Z) (d : Z) : M unit :=
  on_dir (fun _ s => Ok (set_sd_obj (state_clear mask (sd_obj s)) s, [])) d.
Definition dir_auth_pin (d : Z) : M unit := on_dir (fun _ s => lift_cd (cd_auth_pin (sd_dir s)) s) d.
Definition dir_auth_unpin (d : Z) : M unit :=
  on_dir (fun e s => lift_cd (cd_auth_unpin (ie_fenv e) (sd_dir s)) s) d.
Definition dir_freeze (d : Z) : M unit :=
  on_dir (fun e s => '(_, x, es) ← freeze_dir (ie_fenv e) (sd_fdir s); lift_fd (Ok (x, es)) s) d.
Definition dir_unfreeze (d : Z) : M unit :=
  on_dir (fun e s => lift_fd (unfreeze_dir (ie_fenv e) (sd_fdir s)) s) d.
Definition dir_wait (tag : Z) (c : X) (d : Z) : M unit :=
  on_dir (fun _ s => lift_cd (dir_add_waiter tag c (sd_dir s)) s) d.

(** ** May the fragments be changed? *)

(** [get_parent_dir()] of an inode: the fragment that holds its primary dentry *)
Definition holds_primary (ino : Z) (s : sdir) : bool :=
  existsb (fun p => match dn_linkage (snd p) with LPrimary h => h =? ino | _ => false end) (ordered (sd_items s)).
Definition get_parent_dir (m : mcache) (ino : Z) : option Z :=
  fst <$> head (filter (fun p => holds_primary ino (md_dir (snd p)) = true) (ordered (mc_dirs m))).

Definition dir_is_frozen (i : dinode) (s : sdir) : bool := is_frozen (ie_fenv (di_env i)) (sd_fdir s).
Definition dir_is_freezing (i : dinode) (s : sdir) : bool := is_freezing (ie_fenv (di_env i)) (sd_fdir s).

(** the body of the loop: is this fragment in the way? *)
Definition in_the_way (i : dinode) (s : sdir) : bool :=
  sd_test s STATE_FRAGMENTING || negb (sd_is_auth s) || sd_test s STATE_BADFRAG ||
  (dir_is_frozen i s || dir_is_freezing i s).

Definition can_fragment (env : menv) (diri : Z) (dirs : list Z) : M bool :=
  m ← cache;
  i ← the_inode diri;
  if me_readonly env then mret false
  else if me_degraded env then mret false
  else
    in_stray ← (match get_parent_dir m diri with
                | None => mret false
                | Some p => x ← the_dir p; j ← the_inode (md_inode x); mret (di_stray j)
                end);
    if in_stray : bool then mret false
    else if di_mdsdir i || di_stray i || (diri =? MDS_INO_CEPH) then mret false
    else
      (fix loop (l : list Z) : M bool :=
         match l with
         | [] => mret true
         | d :: l =>
             x ← the_dir d;
             j ← the_inode (md_inode x);
             if in_the_way j (md_dir x) then mret false else loop l
         end) dirs.

(** ** Freezing and marking *)

(** the body of the loop of [fragment_freeze_dirs] *)
Definition freeze_one (d : Z) : M unit :=
  dir_auth_pin d ;;
  dir_set STATE_FRAGMENTING d ;;
  dir_freeze d ;;
  x ← the_dir d;
  assertM (is_freezing_dir (sd_fdir (md_dir x))).
Definition fragment_freeze_dirs (dirs : list Z) : M unit := for_each freeze_one dirs.

Definition mark_dentry (dn : dentry X) : res (dentry X * list dn_effect) :=
  '(dn, es) ← dn_get DN_PIN_FRAGMENTING dn;
  check (negb (state_test (dn_obj dn) DN_STATE_FRAGMENTING)) ;;
  Ok (set_dn_obj (state_set DN_STATE_FRAGMENTING (dn_obj dn)) dn, es).

Definition unmark_dentry (dn : dentry X) : res (dentry X * list dn_effect) :=
  check (state_test (dn_obj dn) DN_STATE_FRAGMENTING) ;;
  dn_put DN_PIN_FRAGMENTING (set_dn_obj (state_clear DN_STATE_FRAGMENTING (dn_obj dn)) dn).

(** the loop over [dir->items] *)
Fixpoint each_dentry (f : dentry X -> res (dentry X * list dn_effect)) (l : list (dentry_key_t * dentry X))
    (x : gmap dentry_key_t (dentry X)) : res (gmap dentry_key_t (dentry X) * list dn_effect) :=
  match l with
  | [] => Ok (x, [])
  | (k, dn) :: l =>
      '(dn, es) ← f dn;
      '(x, es') ← each_dentry f l (<[k := dn]> x);
      Ok (x, es ++ es')
  end.
Definition each_item (f : dentry X -> res (dentry X * list dn_effect)) (s : sdir)
  : res (sdir * list (fr_effect X F)) :=
  '(x, es) ← each_dentry f (ordered (sd_items s)) (sd_items s);
  Ok (set_sd_dfrag (set_items x (sd_dfrag s)) s, on_frag s (map (fun e => Fz (PinHook e)) es)).

(** the dentries of a fragment that is read in *)
Definition mark_dir (d : Z) : M unit :=
  x ← the_dir d;
  if sd_test (md_dir x) STATE_DNPINNEDFRAG then skip
  else
    on_dir (fun _ s => each_item mark_dentry s) d ;;
    dir_set STATE_DNPINNEDFRAG d ;;
    dir_auth_unpin d.

(** [dir->fetch(gather.new_sub(), true)] *)
Definition dir_fetch (env : menv) (c : X) (d : Z) : M unit :=
  x ← the_dir d;
  i ← the_inode (md_inode x);
  match fetch (me_verify_backtrace env) (me_fetch_whole env) (ie_fenv (di_env i)) (di_cenv i) (Some c) [] true
          (sd_dir (md_dir x)) with
  | Ok (y, es) => put_dir d (set_sd_dir y (md_dir x)) ;; emit (map (OnFetch d) es)
  | Abort => fun _ => Abort
  end.

(** [dir->commit(0, gather.new_sub(), true)] *)
Definition dir_commit (c : X) (d : Z) : M unit :=
  x ← the_dir d;
  i ← the_inode (md_inode x);
  m ← cache;
  match commit 0 (Some c) true (-1) (ie_fenv (di_env i)) (di_cenv i) (mc_objs m) (sd_dir (md_dir x)) with
  | Ok (y, objs, es) =>
      modify (set_objs objs) ;; put_dir d (set_sd_dir y (md_dir x)) ;; emit (map (OnCommit d) es)
  | Abort => fun _ => Abort
  end.

(** the body of the first loop: does it leave something to wait for? *)
Definition complete_one (env : menv) (mdr : Z) (d : Z) : M bool :=
  x ← the_dir d;
  let incomplete := negb (sd_test (md_dir x) STATE_COMPLETE) in
  (if incomplete then dir_fetch env (sub_marking mdr) d else skip) ;;
  x ← the_dir d;
  let fresh := bool_decide (frag (md_dir x) = fg_root) && is_new (sd_dir (md_dir x)) in
  (if fresh then assertM (sd_test (md_dir x) STATE_DIRTY) ;; dir_commit (sub_marking mdr) d else skip) ;;
  (if incomplete || fresh then skip else mark_dir d) ;;
  mret (incomplete || fresh).

(** the body of the second loop *)
Definition wait_frozen_one (mdr : Z) (d : Z) : M bool :=
  x ← the_dir d;
  if is_frozen_dir (sd_fdir (md_dir x)) then mret false
  else
    assertM (is_freezing_dir (sd_fdir (md_dir x))) ;;
    dir_wait WAIT_FROZEN (sub_frozen mdr) d ;;
    mret true.

(** a loop that adds subs to a gather: [gather.has_subs()] *)
Fixpoint any_each {A} (f : A -> M bool) (l : list A) : M bool :=
  match l with
  | [] => mret false
  | a :: l => b ← f a; b' ← any_each f l; mret (b || b')
  end.

(** the entry of a request that is still under way *)
Definition current (mdr : Z) (m : mcache) : option (dirfrag * fragment_info_t) :=
  match mc_reqs m !! mdr with
  | None => None
  | Some rq =>
      match fragments m !! fragment_base rq with
      | Some info => if fi_mdr info =? mdr then Some (fragment_base rq, info) else None
      | None => None
      end
  end.

Definition put_info (base : dirfrag) (info : fragment_info_t) : M unit :=
  modify (fun m => set_fragments (<[base := info]> (fragments m)) m).
Definition erase_fragment (base : dirfrag) : M unit := modify (fun m => set_fragments (delete base (fragments m)) m).

Definition set_frozen (i : fragment_info_t) : fragment_info_t :=
  mk_finfo (fi_bits i) (fi_dirs i) (fi_resultfrags i) (fi_mdr i) true (fi_last_change i) (fi_last_pins i)
    (fi_remote_waiters i).
Definition set_results (l : list Z) (i : fragment_info_t) : fragment_info_t :=
  mk_finfo (fi_bits i) (fi_dirs i) l (fi_mdr i) (fi_all_frozen i) (fi_last_change i) (fi_last_pins i)
    (fi_remote_waiters i).
Definition set_last (n : Z) (t : T) (i : fragment_info_t) : fragment_info_t :=
  mk_finfo (fi_bits i) (fi_dirs i) (fi_resultfrags i) (fi_mdr i) (fi_all_frozen i) t n (fi_remote_waiters i).
Definition add_remote_waiter (i : fragment_info_t) : fragment_info_t :=
  mk_finfo (fi_bits i) (fi_dirs i) (fi_resultfrags i) (fi_mdr i) (fi_all_frozen i) (fi_last_change i)
    (fi_last_pins i) (s32 (fi_remote_waiters i + 1)).

(** [info.dirs.front()] *)
Definition front (l : list Z) : M Z := the (head l).

(** the body of the loop of [fragment_unmark_unfreeze_dirs] *)
Definition unmark_one (d : Z) : M unit :=
  x ← the_dir d;
  assertM (sd_test (md_dir x) STATE_FRAGMENTING) ;;
  dir_clear STATE_FRAGMENTING d ;;
  (if sd_test (md_dir x) STATE_DNPINNEDFRAG then
     dir_clear STATE_DNPINNEDFRAG d ;;
     on_dir (fun _ s => each_item unmark_dentry s) d
   else dir_auth_unpin d) ;;
  dir_unfreeze d.
Definition fragment_unmark_unfreeze_dirs (dirs : list Z) : M unit := for_each unmark_one dirs.

(** the walk from [lower_bound(dirfrag_t(ino, 0))] to the entry that contains the fragment *)
Fixpoint find_containing (ino : Z) (fg : F) (l : list (dirfrag * fragment_info_t))
  : option (dirfrag * fragment_info_t) :=
  match l with
  | [] => None
  | (b, info) :: l =>
      if negb (df_ino b =? ino) then None
      else if fg_contains (df_frag b) fg then Some (b, info)
      else find_containing ino fg l
  end.
Definition entry_of (m : mcache) (ino : Z) (fg : F) : option (dirfrag * fragment_info_t) :=
  find_containing ino fg (lower_bound (mk_dirfrag ino fg_root) (fragments m)).

Definition fragment_are_all_frozen (d : Z) : M bool :=
  x ← the_dir d;
  assertM (is_frozen_dir (sd_fdir (md_dir x))) ;;
  m ← cache;
  p ← the (entry_of m (md_inode x) (frag (md_dir x)));
  mret (fi_all_frozen (snd p)).

Definition fragment_freeze_inc_num_waiters (d : Z) : M unit :=
  x ← the_dir d;
  m ← cache;
  p ← the (entry_of m (md_inode x) (frag (md_dir x)));
  put_info (fst p) (add_remote_waiter (snd p)).

(** ** Refragmenting *)

Definition is_subtree_root_in (m : mcache) (d : Z) : bool :=
  match mc_dirs m !! d with Some x => sd_subtree_root (md_dir x) | None => false end.

(** [get_subtree_root]: up the parents, of which there are at most as many as fragments *)
Fixpoint subtree_walk (fuel : nat) (m : mcache) (d : Z) : option Z :=
  if is_subtree_root_in m d then Some d
  else match fuel with
       | O => None
       | Datatypes.S fuel =>
           match mc_dirs m !! d ≫= fun x => get_parent_dir m (md_inode x) with
           | None => None
           | Some p => subtree_walk fuel m p
           end
       end.
Definition get_subtree_root (m : mcache) (d : Z) : option Z := subtree_walk (size (mc_dirs m)) m d.

(** [subtrees[d]], which adds the key when it is missing *)
Definition bounds_at (m : mcache) (d : Z) : gset Z := default ∅ (mc_subtrees m !! d).
Definition put_bounds (d : Z) (b : gset Z) : M unit :=
  modify (fun m => set_subtrees (<[d := b]> (mc_subtrees m)) m).
Definition drop_subtree (d : Z) : M unit := modify (fun m => set_subtrees (delete d (mc_subtrees m)) m).
Definition insert_bound (d b : Z) : M unit := m ← cache; put_bounds d ({[b]} ∪ bounds_at m d).
Definition erase_bound (d b : Z) : M unit := m ← cache; put_bounds d (bounds_at m d ∖ {[b]}).

(** [dirfrags[fg] = dir] and [dirfrags.erase(fg)] of the inode *)
Definition set_dirfrags (x : gmap F Z) (i : dinode) : dinode :=
  mk_dinode x (dirfragtree i) (di_env i) (di_cenv i) (di_root i) (di_mdsdir i) (di_stray i) (di_authority i)
    (di_add i) (di_waiting i).
Definition set_tree (t : G) (i : dinode) : dinode :=
  mk_dinode (dirfrags i) t (di_env i) (di_cenv i) (di_root i) (di_mdsdir i) (di_stray i) (di_authority i)
    (di_add i) (di_waiting i).
Definition set_waiting (w : gmap F (list X)) (i : dinode) : dinode :=
  mk_dinode (dirfrags i) (dirfragtree i) (di_env i) (di_cenv i) (di_root i) (di_mdsdir i) (di_stray i)
    (di_authority i) (di_add i) w.

(** a new fragment at a new address *)
Definition new_frag (diri : Z) (s : sdir) : M Z :=
  m ← cache;
  i ← the_inode diri;
  let d := mc_next m in
  modify (fun m => set_next (d + 1) (set_dirs (<[d := mk_mdir diri s]> (mc_dirs m)) m)) ;;
  put_inode diri (set_dirfrags (<[frag s := d]> (dirfrags i)) i) ;;
  mret d.
Fixpoint new_frags (diri : Z) (l : list sdir) : M (list Z) :=
  match l with
  | [] => mret []
  | s :: l => d ← new_frag diri s; ds ← new_frags diri l; mret (d :: ds)
  end.

(** [diri->close_dirfrag(fg)] deletes the fragment *)
Definition close_dirfrag (diri : Z) (d : Z) : M unit :=
  x ← the_dir d;
  i ← the_inode diri;
  put_inode diri (set_dirfrags (delete (frag (md_dir x)) (dirfrags i)) i) ;;
  modify (fun m => set_dirs (delete d (mc_dirs m)) m).

(** "did i change the subtree map?", after a split *)
Definition split_subtree (d : Z) (resultfrags : list Z) (parent_subtree : option Z) : M unit :=
  for_each (fun p => put_bounds p ∅) resultfrags ;;
  (match parent_subtree with
   | None => skip
   | Some ps =>
       m ← cache;
       assertM (bool_decide (d ∈ bounds_at m ps)) ;;
       erase_bound ps d ;;
       for_each (fun p => insert_bound ps p) resultfrags
   end) ;;
  m ← cache;
  let bounds := bounds_at m d in
  drop_subtree d ;;
  for_each (fun p =>
    m ← cache;
    x ← the_dir p;
    q ← the (get_parent_dir m (md_inode x));
    insert_bound (default null_dir (get_subtree_root m q)) p) (ordered_elems bounds) ;;
  on_dir (fun _ s => Ok (set_auth_field CDIR_AUTH_DEFAULT s, [])) d.

Definition do_split (env : menv) (diri : Z) (d : Z) (bits : Z) (replay : bool) (parent_subtree : option Z)
    (resultfrags : list Z) (waiters : list X) : M (list Z * list X) :=
  x ← the_dir d;
  i ← the_inode diri;
  match split (di_env i) (ft_pick (dirfragtree i)) (di_add i) (me_now env) bits replay waiters (md_dir x) with
  | Abort => fun _ => Abort
  | Ok (s, subs, waiters, es) =>
      put_dir d s ;;
      emit (map (OnDir d) es) ;;
      ds ← new_frags diri subs;
      let resultfrags := resultfrags ++ ds in
      (if sd_subtree_root s then split_subtree d resultfrags parent_subtree else skip) ;;
      emit [OnDir d (CloseDirfrag (frag s))] ;;
      close_dirfrag diri d ;;
      mret (resultfrags, waiters)
  end.

(** "are my constituent bits subtrees?", before a merge *)
Fixpoint gather_subtrees (parent_subtree : option Z) (srcs : list Z) (was_subtree : bool) (new_bounds : gset Z)
  : M (bool * gset Z) :=
  match srcs with
  | [] => mret (was_subtree, new_bounds)
  | d :: srcs =>
      x ← the_dir d;
      if sd_subtree_root (md_dir x) then
        m ← cache;
        b ← the (mc_subtrees m !! d);
        drop_subtree d ;;
        (match parent_subtree with None => skip | Some ps => erase_bound ps d end) ;;
        gather_subtrees parent_subtree srcs true (new_bounds ∪ b)
      else gather_subtrees parent_subtree srcs was_subtree new_bounds
  end.

Fixpoint the_sdirs (l : list Z) : M (list sdir) :=
  match l with
  | [] => mret []
  | d :: l => x ← the_dir d; xs ← the_sdirs l; mret (md_dir x :: xs)
  end.

Definition do_merge (env : menv) (diri : Z) (srcs : list Z) (basefrag : F) (replay : bool)
    (parent_subtree : option Z) (resultfrags : list Z) (waiters : list X) : M (list Z * list X) :=
  g ← gather_subtrees parent_subtree srcs false ∅;
  let '(was_subtree, new_bounds) := (g : bool * gset Z) in
  i ← the_inode diri;
  subs ← the_sdirs srcs;
  first ← the (head subs);
  match (f ← new_dir (di_env i) (me_now env) basefrag (sd_is_auth first);
         '(f, waiters, es) ← merge (di_env i) replay subs waiters f;
         f ← di_add i f;
         Ok (f, waiters, es)) with
  | Abort => fun _ => Abort
  | Ok (f, waiters, es) =>
      for_each (close_dirfrag diri) srcs ;;
      d ← new_frag diri f;
      emit (map (OnDir d) es ++ [OnDir d (AddDirfrag basefrag)]) ;;
      (if was_subtree then
         put_bounds d new_bounds ;;
         match parent_subtree with None => skip | Some ps => insert_bound ps d end
       else skip) ;;
      mret (resultfrags ++ [d], waiters)
  end.

(** [adjust_dir_fragments] on given fragments *)
Definition adjust_dir_fragments (env : menv) (diri : Z) (srcfrags : list Z) (basefrag : F) (bits : Z)
    (resultfrags : list Z) (waiters : list X) (replay : bool) : M (list Z * list X) :=
  i ← the_inode diri;
  let t := dirfragtree i in
  let t := if ft_is_leaf basefrag t then t else ft_force_to_leaf basefrag t in
  let t := if 0 <? bits then ft_split basefrag bits t else t in
  put_inode diri (set_tree t i) ;;
  m ← cache;
  match srcfrags with
  | [] => mret (resultfrags, waiters)
  | d :: rest =>
      let parent_subtree := get_parent_dir m diri ≫= get_subtree_root m in
      if 0 <? bits then
        assertM (bool_decide (rest = [])) ;;
        do_split env diri d bits replay parent_subtree resultfrags waiters
      else do_merge env diri srcfrags basefrag replay parent_subtree resultfrags waiters
  end.

(** [diri->get_dirfrags_under(fg, dirs)] *)
Definition get_dirfrags_under (i : dinode) (fg : F) : bool * list Z :=
  let '(all, fgs) := ft_dirfrags_under fg (dirfragtree i) (map fst (ordered (dirfrags i))) in
  (all, omap (fun f => dirfrags i !! f) fgs).

(** [adjust_dir_fragments] on the fragments there are *)
Definition adjust_dir_fragments_under (env : menv) (diri : Z) (basefrag : F) (bits : Z)
    (resultfrags : list Z) (waiters : list X) (replay : bool) : M (list Z * list X) :=
  i ← the_inode diri;
  adjust_dir_fragments env diri (snd (get_dirfrags_under i basefrag)) basefrag bits resultfrags waiters replay.

(** the loop of [force_dir_fragment] over the parents of a fragment *)
Fixpoint split_parent (fuel : nat) (env : menv) (diri : Z) (fg parent : F) (src result : list Z) (waiters : list X)
    (replay : bool) : M (option Z * list Z * list Z * list X) :=
  match fuel with
  | O => fun _ => Abort
  | Datatypes.S fuel =>
      i ← the_inode diri;
      '(dir, src, result, waiters) ←
        (match dirfrags i !! parent with
         | None => mret (None, src, result, waiters)
         | Some pdir =>
             let src := src ++ [pdir] in
             r ← adjust_dir_fragments env diri src parent (fg_bits fg - fg_bits parent) result waiters replay;
             i ← the_inode diri;
             mret (dirfrags i !! fg, src, fst r, snd r)
         end : M (option Z * list Z * list Z * list X));
      match dir with
      | Some _ => mret (dir, src, result, waiters)
      | None =>
          if bool_decide (parent = fg_root) then mret (None, src, result, waiters)
          else split_parent fuel env diri fg (fg_parent parent) src result waiters replay
      end
  end.

(** The loop ends at the root, which is [bits()] parents away. *)
Definition force_dir_fragment (env : menv) (diri : Z) (fg : F) (replay : bool) : M (option Z) :=
  i ← the_inode diri;
  match dirfrags i !! fg with
  | Some d => mret (Some d)
  | None =>
      let parent := ft_branch_or_leaf fg (dirfragtree i) in
      '(dir, src, result, waiters) ← split_parent (Datatypes.S (Z.to_nat (fg_bits parent))) env diri fg parent
                                       [] [] [] replay;
      '(dir, waiters) ←
        (match dir with
         | Some _ => mret (dir, waiters)
         | None =>
             i ← the_inode diri;
             let src := src ++ snd (get_dirfrags_under i fg) in
             match src with
             | [] => mret (None, waiters)
             | _ =>
                 r ← adjust_dir_fragments env diri src fg 0 result waiters replay;
                 d ← front (fst r);
                 mret (Some d, snd r)
             end
         end : M (option Z * list X));
      (if replay then skip else emit [WakeWaiters waiters]) ;;
      mret dir
  end.

(** ** The uncommitted fragments *)

Definition segment_of (m : mcache) (ls : Z) : gset dirfrag := default ∅ (mc_segments m !! ls).

Definition add_uncommitted_fragment (base : dirfrag) (bits : Z) (old_frags : list F) (ls : Z)
    (rollback : option (list (fnode_t T))) : M unit :=
  m ← cache;
  assertM (bool_decide (uncommitted_fragments m !! base = None)) ;;
  modify (fun m => set_uncommitted
    (<[base := mk_ufrag bits false ls [] old_frags (default [] rollback)]> (uncommitted_fragments m))
    (<[ls := {[base]} ∪ segment_of m ls]> (mc_segments m)) m).

(** the entry leaves the map and its segment *)
Definition forget (base : dirfrag) (ls : Z) (m : mcache) : mcache :=
  set_uncommitted (delete base (uncommitted_fragments m)) (<[ls := segment_of m ls ∖ {[base]}]> (mc_segments m)) m.
Definition put_ufrag (base : dirfrag) (uf : ufragment) (m : mcache) : mcache :=
  set_uncommitted (<[base := uf]> (uncommitted_fragments m)) (mc_segments m) m.
Definition set_committed (old : list F) (uf : ufragment) : ufragment :=
  mk_ufrag (uf_bits uf) true (uf_ls uf) (uf_waiters uf) old (uf_rollback uf).

Definition finish_uncommitted_fragment (base : dirfrag) (op : Z) : M unit :=
  m ← cache;
  match uncommitted_fragments m !! base with
  | None => skip
  | Some uf =>
      if negb (op =? OP_FINISH) && negb (bool_decide (uf_old_frags uf = [])) then
        modify (put_ufrag base (set_committed (uf_old_frags uf) uf))
      else emit [WakeWaiters (uf_waiters uf)] ;; modify (forget base (uf_ls uf))
  end.

(** [old_frags] is swapped with the entry's *)
Definition rollback_uncommitted_fragment (base : dirfrag) (old_frags : list F) : M (list F) :=
  m ← cache;
  match uncommitted_fragments m !! base with
  | None => mret old_frags
  | Some uf =>
      if negb (bool_decide (uf_old_frags uf = [])) then
        modify (put_ufrag base (set_committed old_frags uf)) ;; mret (uf_old_frags uf)
      else modify (forget base (uf_ls uf)) ;; mret old_frags
  end.

Definition wait_for_uncommitted_fragment (base : dirfrag) (c : X) : M unit :=
  m ← cache;
  uf ← the (uncommitted_fragments m !! base);
  modify (put_ufrag base (mk_ufrag (uf_bits uf) (uf_committed uf) (uf_ls uf) (uf_waiters uf ++ [c])
                            (uf_old_frags uf) (uf_rollback uf))).

(** ** The steps *)

Definition set_ls (ls : Z) (rq : mreq) : mreq := mk_mreq (fragment_base rq) (aborted rq) ls.
Definition set_aborted (b : bool) (rq : mreq) : mreq := mk_mreq (fragment_base rq) b (rq_ls rq).
Definition put_req (mdr : Z) (rq : mreq) : M unit := modify (fun m => set_reqs (<[mdr := rq]> (mc_reqs m)) m).

(** the [rollback] of a fragment: its fnode *)
Definition orig_frag (d : Z) : M (F * option (fnode_t T)) :=
  x ← the_dir d; mret (frag (md_dir x), Some (sd_fnode (md_dir x))).
Fixpoint orig_frags (l : list Z) : M (list (F * option (fnode_t T))) :=
  match l with
  | [] => mret []
  | d :: l => o ← orig_frag d; os ← orig_frags l; mret (o :: os)
  end.

(** the aborted request of [dispatch_fragment_dir] *)
Definition abandon (mdr : Z) (base : dirfrag) (info : fragment_info_t) : M unit :=
  d ← front (fi_dirs info);
  emit [if 0 <? fi_bits info then RequeueSplit d else RequeueMerge d] ;;
  fragment_unmark_unfreeze_dirs (fi_dirs info) ;;
  erase_fragment base ;;
  emit [RequestFinish mdr].

(** the refragmentation of [dispatch_fragment_dir], when it has its locks *)
Definition refragment (env : menv) (mdr : Z) (base : dirfrag) (diri : Z) (info : fragment_info_t) : M unit :=
  rq ← the_req mdr;
  let ls := me_segment env in
  put_req mdr (set_ls ls rq) ;;
  orig ← orig_frags (fi_dirs info);
  r ← adjust_dir_fragments env diri (fi_dirs info) (df_frag base) (fi_bits info) (fi_resultfrags info) [] false;
  let '(results, waiters) := (r : list Z * list X) in
  put_info base (set_results results info) ;;
  emit ((if me_debug_frag env then [VerifyDirfrags diri] else []) ++ [WakeWaiters waiters]) ;;
  i ← the_inode diri;
  assertM (forallb (fun o => negb (ft_is_leaf (fst o) (dirfragtree i))) orig) ;;
  first ← front results;
  let auth := ie_auth (di_env i) in
  (if auth then skip else for_each (dir_set STATE_DIRTYDFT) results) ;;
  emit (if auth then [ProjectInode diri] else [MarkScatterlock diri ls]) ;;
  add_uncommitted_fragment base (fi_bits info) (map fst orig) ls None ;;
  emit [Journal OP_PREPARE base (fi_bits info) orig
          (DirContext first :: map (fun d => FragmentedDir d false (negb auth)) results ++
           (if auth then [DirtyInode diri] else [])); FlushLog].

(** [locks] is what [acquire_locks] does: its answer, and whether it aborts the request *)
Definition dispatch_fragment_dir (env : menv) (locks : bool * bool) (mdr : Z) : M unit :=
  m ← cache;
  match current mdr m with
  | None => emit [RequestFinish mdr]
  | Some (base, info) =>
      d ← front (fi_dirs info);
      x ← the_dir d;
      rq ← the_req mdr;
      let ab := if aborted rq then true else snd locks in
      put_req mdr (set_aborted ab rq) ;;
      if negb (aborted rq) && negb (fst locks) && negb ab then skip
      else if ab then abandon mdr base info
      else refragment env mdr base (md_inode x) info
  end.

Definition fragment_frozen (env : menv) (locks : bool * bool) (mdr : Z) (r : Z) : M unit :=
  m ← cache;
  match current mdr m with
  | None => emit [RequestFinish mdr]
  | Some (base, info) =>
      assertM (r =? 0) ;;
      put_info base (set_frozen info) ;;
      dispatch_fragment_dir env locks mdr
  end.

Definition fragment_mark_and_complete (env : menv) (locks : bool * bool) (mdr : Z) : M unit :=
  m ← cache;
  match current mdr m with
  | None => emit [RequestFinish mdr]
  | Some (base, info) =>
      subs ← any_each (complete_one env mdr) (fi_dirs info);
      if subs : bool then emit [GatherMarking mdr]
      else
        subs ← any_each (wait_frozen_one mdr) (fi_dirs info);
        if subs : bool then emit [GatherFrozen mdr; FlushLog]
        else fragment_frozen env locks mdr 0
  end.

(** [request_start_internal], the entry, the freeze and the first pass *)
Definition start_fragment (env : menv) (locks : bool * bool) (base : dirfrag) (dirs : list Z) (bits : Z) : M unit :=
  m ← cache;
  let mdr := mc_next m in
  modify (fun m => set_next (mdr + 1) m) ;;
  put_req mdr (mk_mreq base false 0) ;;
  emit [RequestStart mdr] ;;
  assertM (bool_decide (fragments m !! base = None)) ;;
  put_info base (mk_finfo bits dirs [] mdr false (me_now env) 0 0) ;;
  fragment_freeze_dirs dirs ;;
  fragment_mark_and_complete env locks mdr.

Definition split_dir (env : menv) (locks : bool * bool) (d : Z) (bits : Z) : M unit :=
  x ← the_dir d;
  assertM (sd_is_auth (md_dir x)) ;;
  ok ← can_fragment env (md_inode x) [d];
  if negb ok then skip
  else start_fragment env locks (mk_dirfrag (md_inode x) (frag (md_dir x))) [d] bits.

Definition merge_dir (env : menv) (locks : bool * bool) (diri : Z) (fg : F) : M unit :=
  i ← the_inode diri;
  let '(all, dirs) := get_dirfrags_under i fg in
  if negb all then skip
  else if ft_is_leaf fg (dirfragtree i) then skip
  else
    ok ← can_fragment env diri dirs;
    if negb ok then skip
    else
      first ← front dirs;
      x ← the_dir first;
      start_fragment env locks (mk_dirfrag diri fg) dirs (- (fg_bits (frag (md_dir x)) - fg_bits fg)).

(** ** Stale freezes *)

Fixpoint stale_pins (l : list Z) (total : Z) : M Z :=
  match l with
  | [] => mret total
  | d :: l =>
      x ← the_dir d;
      let s := md_dir x in
      if negb (sd_test s STATE_DNPINNEDFRAG) then mret (-1)
      else if is_frozen_dir (sd_fdir s) then stale_pins l total
      else stale_pins l (s32 (total + s32 (auth_pins (sd_fdir s) + dir_auth_pins (sd_fdir s))))
  end.

(** somebody waits for the freeze to be over *)
Definition is_awaited (info : fragment_info_t) : M bool :=
  m ← cache;
  d ← front (fi_dirs info);
  x ← the_dir d;
  i ← the_inode (md_inode x);
  if 0 <? fi_remote_waiters info then mret true
  else if di_root i then mret false
  else
    p ← the (get_parent_dir m (md_inode x));
    y ← the_dir p;
    j ← the_inode (md_inode y);
    mret (dir_is_freezing j (md_dir y)).

Definition stale_one (env : menv) (cutoff : T) (base : dirfrag) : M unit :=
  m ← cache;
  info ← the (fragments m !! base);
  if fi_all_frozen info then skip
  else
    total ← stale_pins (fi_dirs info) 0;
    if total <? 0 then skip
    else if negb (fi_last_pins info =? total) then put_info base (set_last total (me_now env) info)
    else if k_leb cutoff (fi_last_change info) then skip
    else
      b ← is_awaited info;
      if b : bool then erase_fragment base ;; fragment_unmark_unfreeze_dirs (fi_dirs info) else skip.

Definition find_stale_fragment_freeze (env : menv) : M unit :=
  m ← cache;
  for_each (stale_one env (ut_minus (me_now env) (me_freeze_tree_timeout env))) (map fst (ordered (fragments m))).

(** ** After the journal entry *)

Definition _fragment_logged (mdr : Z) : M unit :=
  rq ← the_req mdr;
  m ← cache;
  info ← the (fragments m !! fragment_base rq);
  d ← front (fi_resultfrags info);
  x ← the_dir d;
  i ← the_inode (md_inode x);
  emit ((if ie_auth (di_env i) then [PopInode (md_inode x) (rq_ls rq)] else []) ++ [ApplyRequest mdr]) ;;
  for_each (fun d => dir_auth_pin d ;; dir_set STATE_FRAGMENTING d ;; dir_commit (sub_store mdr) d)
    (fi_resultfrags info) ;;
  emit [GatherStore mdr].

(** the peers that are told: up, and not yet to be told by the rejoin *)
Definition is_told (env : menv) (rank : Z) : bool :=
  negb ((me_peer_state env rank <? MDS_STATE_REJOIN) ||
        ((me_peer_state env rank =? MDS_STATE_REJOIN) && bool_decide (rank ∈ me_rejoin_gather env))).

Definition unmark_result (d : Z) : M unit := on_dir (fun _ s => each_item unmark_dentry s) d ;; dir_unfreeze d.

(** [replicate_dir(dir, rank, notify->basebl)] *)
Definition replicate_dir (rank d : Z) : M unit :=
  on_dir (fun _ s => '(o, hs, _) ← add_replica (sd_obj s) rank;
                     Ok (set_sd_obj o s, on_frag s (map (fun h => Fz (PinHook (DirHook h))) hs))) d.
Definition tell_peer (base : dirfrag) (bits : Z) (results : list Z) (rank : Z) : M unit :=
  for_each (replicate_dir rank) results ;; emit [SendNotify rank base bits results].

Definition _fragment_stored (env : menv) (mdr : Z) : M unit :=
  rq ← the_req mdr;
  let base := fragment_base rq in
  m ← cache;
  info ← the (fragments m !! base);
  d ← front (fi_resultfrags info);
  x ← the_dir d;
  let peers := filter (fun r => is_told env r = true) (map fst (ordered (co_replica_map (sd_obj (md_dir x))))) in
  for_each (tell_peer base (fi_bits info) (fi_resultfrags info)) peers ;;
  emit [Journal OP_COMMIT base (fi_bits info) [] []; WhenCommitted base (fi_resultfrags info); DropLocks mdr] ;;
  for_each unmark_result (fi_resultfrags info) ;;
  erase_fragment base ;;
  emit [RequestFinish mdr].

Definition remove_object (base : dirfrag) (fg : F) : mc_effect :=
  if bool_decide (fg = fg_root) then TruncateObject base fg else RemoveObject base fg.

Definition _fragment_committed (base : dirfrag) (resultfrags : list Z) : M unit :=
  m ← cache;
  uf ← the (uncommitted_fragments m !! base);
  emit (map (remove_object base) (uf_old_frags uf)) ;;
  assertM (negb (bool_decide (uf_old_frags uf = []))) ;;
  emit [WhenRemoved base resultfrags].

Definition _fragment_finish (base : dirfrag) (resultfrags : list Z) : M unit :=
  m ← cache;
  uf ← the (uncommitted_fragments m !! base);
  for_each (fun d => dir_clear STATE_FRAGMENTING d ;; dir_auth_unpin d) resultfrags ;;
  emit [Journal OP_FINISH base (uf_bits uf) [] []] ;;
  finish_uncommitted_fragment base OP_FINISH.

(** [C_IO_MDC_FragmentFinish::finish] *)
Definition fragment_removed (r : Z) (base : dirfrag) (resultfrags : list Z) : M unit :=
  assertM ((r =? 0) || (r =? - ENOENT)) ;; _fragment_finish base resultfrags.

(** ** Rolling back after a crash *)

Definition CDIR_AUTH_UNDEF : authority_t := (CDIR_AUTH_UNKNOWN, CDIR_AUTH_UNKNOWN).

Definition hold_result (d : Z) : M unit := dir_auth_pin d ;; dir_set STATE_FRAGMENTING d.

(** the fnode of a fragment is the one the journal entry kept *)
Definition restore_fnode (ls : Z) (f : fnode_t T) (s : sdir) : res (sdir * list (fr_effect X F)) :=
  c ← set_version (fn_version f) (sd_dir s);
  '(s, es) ← lift_cd (_mark_dirty (Some ls) (set_fnode f c)) s;
  Ok (s, es ++ (if bool_decide (fn_rstat f = fn_accounted_rstat f) then [] else [MarkNestlock ls]) ++
             (if bool_decide (fn_fragstat f = fn_accounted_fragstat f) then [] else [MarkFilelock ls])).

(** the loop over [uf.old_frags]; the rollback is decoded along *)
Fixpoint restore_frags (env : menv) (diri : Z) (diri_auth : bool) (fgs : list F) (rollback : list (fnode_t T))
  : M (list Z * list blob_item) :=
  match fgs with
  | [] => mret ([], [])
  | fg :: fgs =>
      o ← force_dir_fragment env diri fg true;
      d ← the o;
      f ← the (head rollback);
      on_dir (fun _ s => restore_fnode (me_segment env) f s) d ;;
      (if diri_auth then skip else dir_set STATE_DIRTYDFT d) ;;
      r ← restore_frags env diri diri_auth fgs (tail rollback);
      mret (d :: fst r, DirContext d :: FragmentedDir d true (negb diri_auth) :: snd r)
  end.

Fixpoint frags_of (l : list Z) : M (list F) :=
  match l with
  | [] => mret []
  | d :: l => x ← the_dir d; fs ← frags_of l; mret (frag (md_dir x) :: fs)
  end.

Definition roll_back (env : menv) (base : dirfrag) (uf : ufragment) (i : dinode) : M unit :=
  let diri := df_ino base in
  let ls := me_segment env in
  let diri_auth := negb (bool_decide (di_authority i = CDIR_AUTH_UNDEF)) in
  let old_frags := ft_leaves_under (df_frag base) (dirfragtree i) in
  r ← (match uf_old_frags uf with
       | [] => r ← adjust_dir_fragments_under env diri (df_frag base) (- uf_bits uf) [] [] true; mret (fst r, [])
       | fgs => restore_frags env diri diri_auth fgs (uf_rollback uf)
       end : M (list Z * list blob_item));
  let '(results, blob) := (r : list Z * list blob_item) in
  orig ← (match uf_old_frags uf with [] => mret [] | _ => frags_of results end : M (list F));
  emit (if diri_auth then [ProjectInode diri; PopInode diri ls] else [MarkScatterlock diri ls]) ;;
  emit (if me_debug_frag env then [VerifyDirfrags diri] else []) ;;
  i ← the_inode diri;
  assertM (forallb (fun fg => negb (ft_is_leaf fg (dirfragtree i))) old_frags) ;;
  for_each hold_result results ;;
  emit [Journal OP_ROLLBACK base (uf_bits uf) (map (fun fg => (fg, None)) orig)
          (blob ++ (if diri_auth then [PrimaryDentry diri] else []))] ;;
  modify (put_ufrag base (mk_ufrag (uf_bits uf) (uf_committed uf) (uf_ls uf) (uf_waiters uf) old_frags
                            (uf_rollback uf))) ;;
  _fragment_committed base results.

Definition rollback_one (env : menv) (base : dirfrag) : M unit :=
  m ← cache;
  uf ← the (uncommitted_fragments m !! base);
  i ← the_inode (df_ino base);
  if uf_committed uf then
    let frags := snd (get_dirfrags_under i (df_frag base)) in
    for_each hold_result frags ;; _fragment_committed base frags
  else roll_back env base uf i.

Definition rollback_uncommitted_fragments (env : menv) : M unit :=
  m ← cache; for_each (rollback_one env) (map fst (ordered (uncommitted_fragments m))).

Definition get_num_fragmenting_dirs (m : mcache) : Z := s32 (Z.of_nat (size (fragments m))).

End Fragmenting.
Arguments mcache X T C F G S {_ _ _}.
Arguments M X T C F G S {_ _ _} A.
Arguments dinode X T C F G {_ _ _}.
Arguments mdir X T C F {_}.
Arguments menv T D : clear implicits.
Arguments fragment_info_t T : clear implicits.
Arguments ufragment X T F : clear implicits.
Arguments mreq F : clear implicits.
Arguments mc_effect X T F : clear implicits.
