(* ===== verification/FragmentFreeze.v ===== *)
(** * Freezing and marking the fragments to be changed (MDCache.cc)

    A small logic for the handlers of [Fragmenting], and what the steps of a freeze
    ([fragment_freeze_dirs], the passes of [fragment_mark_and_complete],
    [fragment_unmark_unfreeze_dirs]) do to one fragment. *)

From stdpp Require Import base tactics numbers list gmap.
From Stdlib Require Import ZArith Lia Ascii.
From S2P Require Import Prelude Double Stats Subtree LoadVec Keys CacheObject Dentries Freeze Versions Commit CommitMachine Fetch Fragment DirFreeze Fragmenting.
Open Scope Z_scope.
Open Scope list_scope.

(** ** Running a handler *)

Section Logic.
Context {X T C F G S : Type} `{Bloom} `{Countable F}.
Abbreviation mcache := (mcache X T C F G S).
Abbreviation M := (M X T C F G S).
Implicit Types m : mcache.

(** [p] passes its asserts in [m], and what it returns and leaves satisfies [Q]. *)
Definition wp {A} (p : M A) m (Q : A -> mcache -> Prop) : Prop :=
  exists a m' es, p m = Ok (a, m', es) /\ Q a m'.

Lemma wp_conseq {A} (p : M A) m (Q Q' : A -> mcache -> Prop) :
  wp p m Q -> (forall a m', Q a m' -> Q' a m') -> wp p m Q'.
Proof. intros (a & m' & es & E & HQ) HI. exists a, m', es. eauto. Qed.

Lemma wp_ret {A} (a : A) m (Q : A -> mcache -> Prop) : Q a m -> wp (mret a) m Q.
Proof. intros HQ. by exists a, m, []. Qed.

Lemma wp_then {A B} (p : M A) (k : A -> M B) m (Q : B -> mcache -> Prop) :
  wp p m (fun a m' => wp (k a) m' Q) -> wp (p ≫= k) m Q.
Proof.
  intros (a & m1 & es1 & E1 & (b & m2 & es2 & E2 & HQ)). exists b, m2, (es1 ++ es2). split; [|done].
  unfold mbind, M_bind. by rewrite E1, E2.
Qed.

Lemma wp_cache {B} (k : mcache -> M B) m (Q : B -> mcache -> Prop) : wp (k m) m Q -> wp (cache ≫= k) m Q.
Proof. intros HQ. apply wp_then. by exists m, m, []. Qed.

Lemma wp_the {A B} (a : A) o (k : A -> M B) m (Q : B -> mcache -> Prop) :
  o = Some a -> wp (k a) m Q -> wp (the o ≫= k) m Q.
Proof. intros -> HQ. apply wp_then. by exists a, m, []. Qed.

Lemma wp_emit {B} es (k : unit -> M B) m (Q : B -> mcache -> Prop) : wp (k tt) m Q -> wp (emit es ≫= k) m Q.
Proof. intros HQ. apply wp_then. by exists tt, m, es. Qed.

Lemma wp_assert {B} b (k : unit -> M B) m (Q : B -> mcache -> Prop) :
  b = true -> wp (k tt) m Q -> wp (assertM b ≫= k) m Q.
Proof. intros -> HQ. apply wp_then. by exists tt, m, []. Qed.

Lemma wp_change {B} f (k : unit -> M B) m (Q : B -> mcache -> Prop) : wp (k tt) (f m) Q -> wp (modify f ≫= k) m Q.
Proof. intros HQ. apply wp_then. by exists tt, (f m), []. Qed.

Lemma wp_skip {B} (k : unit -> M B) m (Q : B -> mcache -> Prop) : wp (k tt) m Q -> wp (skip ≫= k) m Q.
Proof. intros HQ. apply wp_then. by apply wp_ret. Qed.

Lemma wp_dir {B} d x (k : _ -> M B) m (Q : B -> mcache -> Prop) :
  mc_dirs m !! d = Some x -> wp (k x) m Q -> wp (the_dir d ≫= k) m Q.
Proof. intros E HQ. apply wp_then. exists x, m, []. split; [|done]. unfold the_dir, mbind, M_bind, cache, the. by rewrite E. Qed.

Lemma wp_inode {B} i x (k : _ -> M B) m (Q : B -> mcache -> Prop) :
  mc_inodes m !! i = Some x -> wp (k x) m Q -> wp (the_inode i ≫= k) m Q.
Proof. intros E HQ. apply wp_then. exists x, m, []. split; [|done]. unfold the_inode, mbind, M_bind, cache, the. by rewrite E. Qed.

Lemma wp_req {B} i x (k : _ -> M B) m (Q : B -> mcache -> Prop) :
  mc_reqs m !! i = Some x -> wp (k x) m Q -> wp (the_req i ≫= k) m Q.
Proof. intros E HQ. apply wp_then. exists x, m, []. split; [|done]. unfold the_req, mbind, M_bind, cache, the. by rewrite E. Qed.

(** A loop, with an invariant on what is done and what is left. *)
Lemma wp_for_each {A} (f : A -> M unit) (I : list A -> mcache -> Prop) l m :
  I l m -> (forall a l m, I (a :: l) m -> wp (f a) m (fun _ => I l)) -> wp (for_each f l) m (fun _ => I []).
Proof.
  intros HI Hf. revert m HI. induction l as [|a l IH]; intros m HI; [by apply wp_ret|].
  apply wp_then. eapply wp_conseq; [by apply Hf|]. intros [] m'. apply IH.
Qed.

Lemma wp_any_each {A} (f : A -> M bool) (I : list A -> bool -> mcache -> Prop) l b m :
  I l b m -> (forall a l b m, I (a :: l) b m -> wp (f a) m (fun b' => I l (b || b'))) ->
  wp (any_each f l) m (fun b' => I [] (b || b')).
Proof.
  intros HI Hf. revert b m HI. induction l as [|a l IH]; intros b m HI; [apply wp_ret; by rewrite orb_false_r|].
  apply wp_then. eapply wp_conseq; [by apply Hf|]. intros b1 m1 H1. apply wp_then.
  eapply wp_conseq; [by apply (IH _ _ H1)|]. intros b2 m2 H2. apply wp_ret. by rewrite orb_assoc.
Qed.

(** ** Programs that work on one fragment *)

(** The fragment [d] is replaced. *)
Definition upd (d : Z) (s : sdir X T C F) m : mcache :=
  set_dirs (alter (fun x => mk_mdir (md_inode x) s) d (mc_dirs m)) m.

Lemma upd_dir d s m x : mc_dirs m !! d = Some x -> mc_dirs (upd d s m) !! d = Some (mk_mdir (md_inode x) s).
Proof. intros E. cbn. by rewrite lookup_alter_eq, E. Qed.
Lemma upd_other d d' s m : d <> d' -> mc_dirs (upd d s m) !! d' = mc_dirs m !! d'.
Proof. intros N. cbn. by rewrite lookup_alter_ne. Qed.
Lemma upd_upd d s s' m : upd d s' (upd d s m) = upd d s' m.
Proof. 
  unfold upd, set_dirs. cbn. f_equal. apply map_eq. intros k. destruct (decide (d = k)) as [<-|N].
  - rewrite !lookup_alter_eq. by destruct (mc_dirs m !! d).
  - by rewrite !lookup_alter_ne.
Qed.

Lemma wp_on_dir {B} (op : Fragment.ienv T -> sdir X T C F -> res (sdir X T C F * list (fr_effect X F)))
    d x i s es (k : unit -> M B) m (Q : B -> mcache -> Prop) :
  mc_dirs m !! d = Some x -> mc_inodes m !! md_inode x = Some i -> op (di_env i) (md_dir x) = Ok (s, es) ->
  wp (k tt) (upd d s m) Q -> wp (on_dir op d ≫= k) m Q.
Proof.
  intros Ed Ei Eo HQ. apply wp_then. eapply wp_dir; [done|]. eapply wp_inode; [done|]. rewrite Eo.
  apply wp_change. exists tt, (upd d s m), (map (OnDir d) es). done.
Qed.

End Logic.

(** ** One fragment *)

Section OneDir.
Context {X T C R D F G S : Type} `{CephConst} `{UTime T} `{Bloom} `{CDouble D} `{DecayCounter C T R D}
  `{FragSplit F} `{DirentTypes} `{CDentryOps X} `{StoreOps S} `{Codec S T} `{CommitConst X}
  `{Countable F} `{KeyOrder F} `{FragTree F} `{DirFragTree F G} `{FragConst T D}
  `{FragContexts X}.
Abbreviation sdir := (Fragment.sdir X T C F).
Implicit Types s : sdir.
Implicit Types x f : fdir X.
Implicit Types dn : dentry X.

(** The mark of a dentry and the pin that goes with it. *)
Record dn_fine (b : bool) dn : Prop := {
  dnf_refs : refs_ok (dn_obj dn);
  dnf_mark : DN_FRAGMENTING dn = b;
  dnf_pin : b = true -> 0 < pins (dn_obj dn) DN_PIN_FRAGMENTING
}.

(** A fragment we are the authority of, with [ext] auth pins held by others than its freeze and
    its commit; its dentries are marked exactly when it says so. *)
Record frag_dir (ext : Z) s : Prop := {
  gd_commit : commit_inv ext (sd_dir s);
  gd_keys : keys_u64 (sd_dir s);
  gd_primary : one_primary (sd_dir s);
  gd_dns : forall k dn, sd_items s !! k = Some dn -> dn_fine (sd_test s STATE_DNPINNEDFRAG) dn;
  gd_new : is_new (sd_dir s) = true ->
    sd_test s STATE_DIRTY = true /\ committed_version (sd_dir s) < get_version (sd_dir s)
}.

(** The phases of a fragment that is to be changed: its dentries are being read and marked,
    under an auth pin; or they are marked, and the freeze completes on its own. *)
Inductive phase := Idle | Marking | Marked.

Record in_phase (p : phase) (ext : Z) s : Prop := {
  ph_fragmenting : sd_test s STATE_FRAGMENTING = match p with Idle => false | _ => true end;
  ph_marked : sd_test s STATE_DNPINNEDFRAG = match p with Marked => true | _ => false end;
  ph_freeze : match p with
              | Idle => True
              | Marking => is_freezing_dir (sd_fdir s) = true /\ 1 <= ext
              | Marked => is_freezing_dir (sd_fdir s) = true \/ is_frozen_dir (sd_fdir s) = true
              end
}.

(** Two fragments have the same dentries, up to a relation. *)
Definition all_changed (Rl : dentry X -> dentry X -> Prop) (a b : gmap dentry_key_t (dentry X)) : Prop :=
  forall k, match a !! k, b !! k with
            | Some dn, Some dn' => Rl dn dn'
            | None, None => True
            | _, _ => False
            end.

Lemma all_changed_at Rl a b k dn' : all_changed Rl a b -> b !! k = Some dn' -> exists dn, a !! k = Some dn /\ Rl dn dn'.
Proof. intros A Hb. specialize (A k). rewrite Hb in A. destruct (a !! k) as [dn|]; [eauto|done]. Qed.
Lemma all_changed_from Rl a b k dn : all_changed Rl a b -> a !! k = Some dn -> exists dn', b !! k = Some dn' /\ Rl dn dn'.
Proof. intros A Hb. specialize (A k). rewrite Hb in A. destruct (b !! k) as [dn'|]; [eauto|done]. Qed.
Lemma all_changed_refl (Rl : dentry X -> dentry X -> Prop) a : (forall dn, Rl dn dn) -> all_changed Rl a a.
Proof. intros Hr k. by destruct (a !! k). Qed.
Lemma all_changed_impl (Ra Rb : dentry X -> dentry X -> Prop) a b :
  all_changed Ra a b -> (forall dn dn', Ra dn dn' -> Rb dn dn') -> all_changed Rb a b.
Proof. intros A Hi k. specialize (A k). destruct (a !! k), (b !! k); auto. Qed.
Lemma all_changed_trans (Ra Rb Rc : dentry X -> dentry X -> Prop) a b c :
  all_changed Ra a b -> all_changed Rb b c -> (forall dn1 dn2 dn3, Ra dn1 dn2 -> Rb dn2 dn3 -> Rc dn1 dn3) -> all_changed Rc a c.
Proof. intros A B Hi k. specialize (A k). specialize (B k). destruct (a !! k), (b !! k), (c !! k); try done. eauto. Qed.

(** Counts that are [n] or more below the width of their counters, and how far a step moves
    them. *)
Record small_dir (n : Z) s : Prop := {
  sl_ref : co_ref (sd_obj s) < 2 ^ 31 - n;
  sl_pins : auth_pins (sd_fdir s) + nested_auth_pins (sd_fdir s) < 2 ^ 31 - n;
  sl_version : projected_version (sd_dir s) < 2 ^ 64 - 1;
  sl_dns : forall k dn, sd_items s !! k = Some dn -> co_ref (dn_obj dn) < 2 ^ 31 - n
}.

Definition dn_evolves (n : Z) dn dn' : Prop :=
  dn_linkage dn' = dn_linkage dn /\ co_ref (dn_obj dn') <= co_ref (dn_obj dn) + n.

Record evolves (n : Z) s s' : Prop := {
  ev_frag : frag s' = frag s;
  ev_fnode : sd_fnode s' = sd_fnode s;
  ev_ref : co_ref (sd_obj s') <= co_ref (sd_obj s) + n;
  ev_pins : auth_pins (sd_fdir s') + nested_auth_pins (sd_fdir s') <=
            auth_pins (sd_fdir s) + nested_auth_pins (sd_fdir s) + n;
  ev_pv : projected_version (sd_dir s') = projected_version (sd_dir s);
  ev_dns : all_changed (dn_evolves n) (sd_items s) (sd_items s')
}.

Lemma evolves_small k n s s' : small_dir k s -> evolves n s s' -> small_dir (k - n) s'.
Proof.
  intros [A1 A2 A3 A4] [B1 B2 B3 B4 B5 B6]. split; [lia|lia|lia|].
  intros j dn' Hk. destruct (all_changed_at _ _ _ _ _ B6 Hk) as (dn & Hd & _ & Hr). specialize (A4 j dn Hd). lia.
Qed.

Lemma evolves_refl n s : 0 <= n -> evolves n s s.
Proof. intros Hn. split; try done; try lia. apply all_changed_refl. intros dn. split; [done|lia]. Qed.

Lemma evolves_trans a b s1 s2 s3 : evolves a s1 s2 -> evolves b s2 s3 -> evolves (a + b) s1 s3.
Proof.
  intros [A1 A2 A3 A4 A5 A6] [B1 B2 B3 B4 B5 B6]. split; try congruence; try lia.
  eapply all_changed_trans; [exact A6|exact B6|]. intros x1 x2 x3 [L1 R1] [L2 R2]. split; [congruence|lia].
Qed.

Lemma evolves_mono a b s s' : evolves a s s' -> a <= b -> evolves b s s'.
Proof.
  intros [A1 A2 A3 A4 A5 A6] Hab. split; try done; try lia. eapply all_changed_impl; [exact A6|].
  intros dn dn' [L1 R1]. split; [done|lia].
Qed.

(** The steps here replace the part of the fragment that has the pins and the dentries. *)
Definition with_fdir x s : sdir := set_sd_dir (set_cd_fdir x (sd_dir s)) s.

Lemma all_evolve_same n (a : gmap dentry_key_t (dentry X)) : 0 <= n -> all_changed (dn_evolves n) a a.
Proof. intros Hn. apply all_changed_refl. intros dn. split; [done|lia]. Qed.

Lemma evolves_with s x :
  df_projected_version (fd_dir x) = df_projected_version (sd_dfrag s) ->
  co_ref (fd_obj x) <= co_ref (sd_obj s) + 4 ->
  v_pins (view x) + v_nested (view x) <= v_pins (view (sd_fdir s)) + v_nested (view (sd_fdir s)) + 4 ->
  all_changed (dn_evolves 4) (sd_items s) (df_items (fd_dir x)) ->
  evolves 4 s (with_fdir x s).
Proof. intros A1 A2 A3 A4. by split. Qed.

(** What they may change of it: the bits and pins of the freeze, the bits [FETCHING],
    [FRAGMENTING] and [DNPINNEDFRAG], and the dentries, not their linkages. *)
Record tracks f x : Prop := {
  tr_bits : forall k, 0 <= k -> ~ (2 <= k <= 5) -> k <> 7 -> k <> 14 -> k <> 16 ->
    Z.testbit (co_state (fd_obj x)) k = Z.testbit (co_state (fd_obj f)) k;
  tr_dirty : pins (fd_obj x) PIN_DIRTY = pins (fd_obj f) PIN_DIRTY;
  tr_pv : df_projected_version (fd_dir x) = df_projected_version (fd_dir f);
  tr_items : forall k dn, df_items (fd_dir x) !! k = Some dn ->
    exists dn0, df_items (fd_dir f) !! k = Some dn0 /\ dn_linkage dn = dn_linkage dn0
}.

Lemma tracks_refl f : tracks f f.
Proof. split; try done. eauto. Qed.

Lemma tracks_trans f x y : tracks f x -> tracks x y -> tracks f y.
Proof.
  intros [A1 A2 A3 A4] [B1 B2 B3 B4]. split; [|congruence|congruence|].
  - intros k K1 K2 K0 K3 K4. by rewrite B1, A1.
  - intros k dn Hk. destruct (B4 k dn Hk) as (dn1 & L1 & E1). destruct (A4 k dn1 L1) as (dn2 & L2 & E2).
    exists dn2. split; [done|congruence].
Qed.

Lemma calm_tracks f x : calm f x -> tracks f x.
Proof.
  intros [A1 A2 Ad A3 A4]. split; [|apply A4; intros [E|[E|E]]; discriminate E|done|].
  - intros k K1 K2 _ _ _. by apply A3.
  - intros k dn. rewrite A1. eauto.
Qed.

Lemma tracks_state f st :
  (forall k, 0 <= k -> ~ (2 <= k <= 5) -> k <> 7 -> k <> 14 -> k <> 16 -> Z.testbit st k = Z.testbit (co_state (fd_obj f)) k) ->
  tracks f (set_fd_obj (set_co_state st (fd_obj f)) f).
Proof. intros Hb. split; try done. eauto. Qed.

Lemma tracks_test f x k : tracks f x -> 0 <= k -> ~ (2 <= k <= 5) -> k <> 7 -> k <> 14 -> k <> 16 ->
  fd_test x (Z.shiftl 1 k) = fd_test f (Z.shiftl 1 k).
Proof. intros Tr K1 K2 K0 K3 K4. unfold fd_test, state_test. rewrite !has_bits_testbit by done. by apply Tr. Qed.

Definition committing s : Z := b2z (committed_version (sd_dir s) <? committing_version (sd_dir s)).

Lemma frag_dir_with ext ext' s x :
  frag_dir ext s -> tracks (sd_fdir s) x -> 0 <= ext' -> fz_ok (ext' + committing s) x ->
  (forall k dn, df_items (fd_dir x) !! k = Some dn -> dn_fine (fd_test x STATE_DNPINNEDFRAG) dn) ->
  frag_dir ext' (with_fdir x s).
Proof.
  intros [G1 G2 G3 G4 G5] Tr Hx Fz Hd. pose proof Tr as [T1 T2 T3 T4]. pose proof G1 as [I0 I1 I2 I3 I4 I5 I6 I7].
  assert (forall k, 0 <= k -> ~ (2 <= k <= 5) -> k <> 7 -> k <> 14 -> k <> 16 ->
    cd_test (sd_dir (with_fdir x s)) (Z.shiftl 1 k) = cd_test (sd_dir s) (Z.shiftl 1 k)) as Hb
    by (intros; by apply (tracks_test (sd_fdir s) x)).
  split.
  - split; try done.
    + split; [exact Fz|]. change (pins (fd_obj x) PIN_DIRTY = b2z (cd_test (sd_dir (with_fdir x s)) STATE_DIRTY)).
      unfold STATE_DIRTY. rewrite T2, Hb by lia. exact (do_pin _ _ I1).
    + change (cd_test (sd_dir (with_fdir x s)) (Z.shiftl 1 30) = true). rewrite Hb by lia. exact I2.
    + unfold versions_sorted, projected_version, cd_dir. cbn. rewrite T3. exact I4.
    + unfold STATE_COMMITTING. rewrite Hb by lia. exact I5.
  - intros k dn Hk. destruct (T4 k dn Hk) as (dn0 & L0 & _). by apply (G2 k dn0).
  - intros k1 k2 dn1 dn2 h K1 K2 L1 L2. destruct (T4 k1 dn1 K1) as (a & A1 & A2). destruct (T4 k2 dn2 K2) as (b & B1 & B2).
    unfold primary_ino in L1, L2. rewrite A2 in L1. rewrite B2 in L2. by apply (G3 k1 k2 a b h).
  - exact Hd.
  - intros Hn. unfold sd_test, STATE_DIRTY. rewrite Hb by lia. exact (G5 Hn).
Qed.

Lemma frag_dir_fz ext s : frag_dir ext s -> fz_ok (ext + committing s) (sd_fdir s).
Proof. intros Gd. exact (do_fz _ _ (cv_dirty _ _ (gd_commit _ _ Gd))). Qed.

Lemma committing_nonneg s : 0 <= committing s.
Proof. unfold committing. by destruct (_ <? _). Qed.

Lemma small_within n s : 4 <= n -> small_dir n s -> within (sd_fdir s).
Proof. intros Hn [A1 A2 _ _]. split; [change (co_ref (sd_obj s) < 2 ^ 31 - 2)|]; lia. Qed.

(** *** The marks of the dentries *)

Context (mark_bit : DN_STATE_FRAGMENTING <> 0).

Lemma test_set (o : cobj X) mask : mask <> 0 -> state_test (state_set mask o) mask = true.
Proof.
  intros Hm. unfold state_test, has_bits. cbn. apply negb_true_iff, Z.eqb_neq. intros E. apply Hm.
  apply Z.bits_inj'. intros n Hn. pose proof (f_equal (fun z => Z.testbit z n) E) as B. cbn in B.
  rewrite Z.land_spec, Z.lor_spec, Z.bits_0 in B. rewrite Z.bits_0. by destruct (Z.testbit mask n), (Z.testbit (co_state o) n).
Qed.
Lemma test_clear (o : cobj X) mask : state_test (state_clear mask o) mask = false.
Proof.
  unfold state_test, has_bits. cbn. apply negb_false_iff, Z.eqb_eq, Z.bits_inj'. intros n Hn.
  rewrite Z.land_spec, Z.ldiff_spec, Z.bits_0. by destruct (Z.testbit (co_state o) n), (Z.testbit mask n).
Qed.

Lemma refs_ok_state (o : cobj X) v : refs_ok o -> refs_ok (set_co_state v o).
Proof. intros [A1 A2 A3]. by split. Qed.

Lemma mark_dentry_ok dn : dn_fine false dn -> co_ref (dn_obj dn) < 2 ^ 31 - 1 ->
  exists es, let dn' := set_dn_obj (state_set DN_STATE_FRAGMENTING (repin 1 DN_PIN_FRAGMENTING (dn_obj dn))) dn in
    mark_dentry dn = Ok (dn', es) /\ dn_fine true dn'.
Proof.
  intros [A1 A2 A3] B. unfold mark_dentry, dn_get. rewrite get_ok by done. cbn [mbind res_bind].
  change (state_test (dn_obj (set_dn_obj (repin 1 DN_PIN_FRAGMENTING (dn_obj dn)) dn)) DN_STATE_FRAGMENTING) with (DN_FRAGMENTING dn).
  rewrite A2. cbn [negb assert_ mbind res_bind]. eexists. split; [done|].
  pose proof (pins_le_sum (dn_obj dn) DN_PIN_FRAGMENTING A1). split.
  - apply refs_ok_state, repin_ok; [done|lia|lia].
  - by apply test_set.
  - intros _. change (0 < pins (repin 1 DN_PIN_FRAGMENTING (dn_obj dn)) DN_PIN_FRAGMENTING).
    rewrite pins_repin, decide_True by done. lia.
Qed.

Lemma unmark_dentry_ok dn : dn_fine true dn ->
  exists es, let dn' := set_dn_obj (repin (-1) DN_PIN_FRAGMENTING (state_clear DN_STATE_FRAGMENTING (dn_obj dn))) dn in
    unmark_dentry dn = Ok (dn', es) /\ dn_fine false dn'.
Proof.
  intros [A1 A2 A3]. unfold unmark_dentry. change (state_test (dn_obj dn) DN_STATE_FRAGMENTING) with (DN_FRAGMENTING dn).
  rewrite A2. cbn [assert_ mbind res_bind]. specialize (A3 eq_refl). unfold dn_put.
  pose proof (refs_ok_state (dn_obj dn) (Z.ldiff (co_state (dn_obj dn)) DN_STATE_FRAGMENTING) A1) as R'.
  rewrite put_ok by (exact R' || exact A3). cbn [mbind res_bind]. eexists. split; [done|].
  pose proof (pins_le_sum (dn_obj dn) DN_PIN_FRAGMENTING A1). pose proof (ro_sum _ A1). pose proof (ro_small _ A1). split.
  - apply repin_ok; [exact R'|change (0 <= pins (dn_obj dn) DN_PIN_FRAGMENTING + -1); lia|
      change (co_ref (dn_obj dn) + -1 < 2 ^ 31); lia].
  - apply test_clear.
  - done.
Qed.

Lemma each_dentry_ok (f : dentry X -> res (dentry X * list dn_effect)) (Rl : dentry X -> dentry X -> Prop) l
    (m : gmap dentry_key_t (dentry X)) :
  NoDup l.*1 -> (forall k dn, (k, dn) ∈ l -> exists dn' es, f dn = Ok (dn', es) /\ Rl dn dn') ->
  exists m' es, each_dentry f l m = Ok (m', es) /\ (forall k, k ∉ l.*1 -> m' !! k = m !! k) /\
    forall k dn, (k, dn) ∈ l -> exists dn', m' !! k = Some dn' /\ Rl dn dn'.
Proof.
  revert m. induction l as [|[k0 dn0] l IH]; intros m Hn Hf.
  { exists m, []. split_and!; [done|done|]. intros k dn Hk. by apply not_elem_of_nil in Hk. }
  apply NoDup_cons in Hn as [Hk0 Hn]. destruct (Hf k0 dn0) as (dn1 & es1 & E1 & R1); [by left|].
  destruct (IH (<[k0 := dn1]> m) Hn) as (m' & es2 & E2 & Ho & Hi). { intros k dn Hk. apply (Hf k). by right. }
  cbn [each_dentry]. rewrite E1. cbn [mbind res_bind]. rewrite E2. cbn [mbind res_bind]. eexists m', _. split; [done|].
  split.
  - intros k [Nk Nl]%not_elem_of_cons. rewrite Ho by done. by apply lookup_insert_ne.
  - intros k dn [[= -> ->]|Hk]%elem_of_cons; [|by apply Hi]. exists dn1. split; [|done].
    rewrite Ho by done. apply lookup_insert_eq.
Qed.

Lemma each_item_ok (f : dentry X -> res (dentry X * list dn_effect)) (Rl : dentry X -> dentry X -> Prop) s :
  (forall k dn, sd_items s !! k = Some dn -> exists dn' es, f dn = Ok (dn', es) /\ Rl dn dn') ->
  exists m es, each_item f s = Ok (with_fdir (set_fd_dir (set_items m (sd_dfrag s)) (sd_fdir s)) s, es) /\
    all_changed Rl (sd_items s) m.
Proof.
  intros Hf. destruct (each_dentry_ok f Rl (ordered (sd_items s)) (sd_items s)) as (m & es & E & Ho & Hi);
    [apply ordered_nodup|intros k dn Hk%elem_of_ordered; by apply (Hf k)|].
  exists m. eexists. unfold each_item. rewrite E. cbn [mbind res_bind]. split; [done|].
  intros k. destruct (sd_items s !! k) as [dn|] eqn:Ek.
  - destruct (Hi k dn) as (dn' & Ed & Hr); [by apply elem_of_ordered|]. by rewrite Ed.
  - rewrite Ho, Ek; [done|]. rewrite elem_of_ordered_keys, Ek. by intros [? ?].
Qed.

(** *** The bits of the protocol *)

Definition frag_bit (j : Z) : Prop := j = 7 \/ j = 14 \/ j = 16.

Lemma set_bit_ok f j : frag_bit j ->
  let x := set_fd_obj (state_set (Z.shiftl 1 j) (fd_obj f)) f in
  tracks f x /\ view x = view f /\ (forall ext, fz_ok ext f -> fz_ok ext x) /\
  forall k, 0 <= k -> fd_test x (Z.shiftl 1 k) = (j =? k) || fd_test f (Z.shiftl 1 k).
Proof.
  intros Hj x. split_and!.
  - apply tracks_state. intros k K1 K2 K0 K3 K4. rewrite Z.lor_spec, Z.shiftl_1_l, Z.pow2_bits_eqb by (unfold frag_bit in Hj; lia).
    replace (j =? k) with false by (unfold frag_bit in Hj; lia). by rewrite orb_false_r.
  - unfold view, is_freezing_tree_root, is_frozen_tree_root, is_freezing_dir, is_frozen_dir, fd_test, is_auth.
    change (fd_obj x) with (state_set (Z.shiftl 1 j) (fd_obj f)).
    unfold STATE_FREEZINGTREE, STATE_FROZENTREE, STATE_FREEZINGDIR, STATE_FROZENDIR, STATE_AUTH.
    by destruct Hj as [->|[->| ->]]; rewrite !state_test_set by lia.
  - intros ext. apply fz_set_bit; [unfold frag_bit in Hj; lia|]. unfold freeze_bit, frag_bit in *. lia.
  - intros k Hk. apply state_test_set; [unfold frag_bit in Hj; lia|done].
Qed.

Lemma clear_bit_ok f j : frag_bit j ->
  let x := set_fd_obj (state_clear (Z.shiftl 1 j) (fd_obj f)) f in
  tracks f x /\ view x = view f /\ (forall ext, fz_ok ext f -> fz_ok ext x) /\
  forall k, 0 <= k -> fd_test x (Z.shiftl 1 k) = negb (j =? k) && fd_test f (Z.shiftl 1 k).
Proof.
  intros Hj x. split_and!.
  - apply tracks_state. intros k K1 K2 K0 K3 K4. rewrite Z.ldiff_spec, Z.shiftl_1_l, Z.pow2_bits_eqb by (unfold frag_bit in Hj; lia).
    replace (j =? k) with false by (unfold frag_bit in Hj; lia). by rewrite andb_true_r.
  - unfold view, is_freezing_tree_root, is_frozen_tree_root, is_freezing_dir, is_frozen_dir, fd_test, is_auth.
    change (fd_obj x) with (state_clear (Z.shiftl 1 j) (fd_obj f)).
    unfold STATE_FREEZINGTREE, STATE_FROZENTREE, STATE_FREEZINGDIR, STATE_FROZENDIR, STATE_AUTH.
    by destruct Hj as [->|[->| ->]]; rewrite !state_test_clear by lia.
  - intros ext. apply fz_clear_bit; [unfold frag_bit in Hj; lia|]. unfold freeze_bit, frag_bit in *. lia.
  - intros k Hk. apply state_test_clear; [unfold frag_bit in Hj; lia|done].
Qed.

Lemma calm_test f x k : calm f x -> 0 <= k -> ~ (2 <= k <= 5) -> fd_test x (Z.shiftl 1 k) = fd_test f (Z.shiftl 1 k).
Proof. intros Ca K1 K2. unfold fd_test, state_test. rewrite !has_bits_testbit by done. by apply Ca. Qed.

(** The fragment [s] has become [s']: a new part with the pins and dentries. *)
Definition becomes s s' : Prop := exists x, s' = with_fdir x s /\ tracks (sd_fdir s) x.

Lemma becomes_refl s : becomes s s.
Proof. exists (sd_fdir s). split; [|apply tracks_refl]. by destruct s as [[]]. Qed.

Lemma becomes_trans s1 s2 s3 : becomes s1 s2 -> becomes s2 s3 -> becomes s1 s3.
Proof. intros (x & -> & T1) (y & -> & T2). exists y. split; [done|]. by eapply tracks_trans. Qed.

Lemma becomes_test s s' k : becomes s s' -> 0 <= k -> ~ (2 <= k <= 5) -> k <> 7 -> k <> 14 -> k <> 16 ->
  sd_test s' (Z.shiftl 1 k) = sd_test s (Z.shiftl 1 k).
Proof. intros (x & -> & Tr). apply tracks_test. exact Tr. Qed.

(** *** Starting the freeze *)

Abbreviation mcache := (mcache X T C F G S).
Implicit Types m : mcache.

(** Where a fragment is. *)
Record at_dir m (d : Z) s (i : dinode X T C F G) : Prop := {
  ad_dir : exists y : mdir X T C F, mc_dirs m !! d = Some y /\ md_dir y = s /\ mc_inodes m !! md_inode y = Some i
}.

Lemma at_upd m d s i s' : at_dir m d s i -> at_dir (upd d s' m) d s' i.
Proof. intros [(y & E & <- & Ei)]. split. exists (mk_mdir (md_inode y) s'). by rewrite (upd_dir _ _ _ y). Qed.

Lemma wp_at {B} op d s i s' es (k : unit -> M X T C F G S B) m (Q : B -> mcache -> Prop) :
  at_dir m d s i -> op (di_env i) s = Ok (s', es) -> wp (k tt) (upd d s' m) Q -> wp (on_dir op d ≫= k) m Q.
Proof. intros [(x & E & <- & Ei)] Eo HQ. by eapply wp_on_dir. Qed.

Lemma wp_at_end op d s i s' es m (Q : unit -> mcache -> Prop) :
  at_dir m d s i -> op (di_env i) s = Ok (s', es) -> Q tt (upd d s' m) -> wp (on_dir op d) m Q.
Proof.
  intros [(x & E & <- & Ei)] Eo HQ. eapply wp_dir; [done|]. eapply wp_inode; [done|]. rewrite Eo.
  apply wp_change. exists tt, (upd d s' m), (map (OnDir d) es). done.
Qed.

Lemma wp_the_dir {B} d s i (k : _ -> M X T C F G S B) m (Q : B -> mcache -> Prop) :
  at_dir m d s i -> (forall y : mdir X T C F, md_dir y = s -> mc_dirs m !! d = Some y -> wp (k y) m Q) -> wp (the_dir d ≫= k) m Q.
Proof. intros [(x & E & Es & Ei)] HQ. eapply wp_dir; [done|]. by apply HQ. Qed.

Lemma freeze_one_ok n ext s i d m :
  at_dir m d s i -> frag_dir ext s -> in_phase Idle ext s -> small_dir n s -> 8 <= n ->
  dir_is_frozen i s = false -> dir_is_freezing i s = false ->
  wp (freeze_one d) m (fun _ m' => exists s', m' = upd d s' m /\ becomes s s' /\ evolves 4 s s' /\ frag_dir (ext + 1) s' /\
    in_phase Marking (ext + 1) s').
Proof.
  intros A Gd [P1 P2 _] Sm Hn Hf Hg. pose proof (committing_nonneg s) as Hc. pose proof (frag_dir_fz _ _ Gd) as Fz.
  pose proof (cv_ext _ _ (gd_commit _ _ Gd)) as Hx. destruct (not_frozen_bits _ _ Hf Hg) as (FT & FD & HT & HD).
  destruct (auth_pin_gives _ _ Fz (small_within n s ltac:(lia) Sm) FT FD) as (x1 & es1 & E1 & F1 & V1 & C1 & R1).
  destruct (set_bit_ok x1 14 ltac:(unfold frag_bit; lia)) as (T2 & V2 & F2 & B2).
  set (x2 := set_fd_obj (state_set (Z.shiftl 1 14) (fd_obj x1)) x1) in *. rewrite V1 in V2.
  destruct (is_frozen_pins (ie_fenv (di_env i)) (sd_fdir s) x2 _ _ V2) as [Ef Eg].
  destruct (freeze_dir_gives (ext + committing s + 1) (ie_fenv (di_env i)) x2 (F2 _ F1))
    as (x3 & es3 & E3 & F3 & V3 & C3 & R3); [|lia|by rewrite Ef|by rewrite Eg|].
  { destruct Sm as [A1 A2 _ _]. split; [change (co_ref (fd_obj x2)) with (co_ref (fd_obj x1)); unfold sd_obj in A1; change (cd_obj (sd_dir s)) with (fd_obj (sd_fdir s)) in A1; lia|].
    change (v_pins (view x2) + v_nested (view x2) < 2 ^ 31 - 2). rewrite V2. cbn in *. lia. }
  unfold freeze_one.
  eapply (wp_at _ _ _ _ (with_fdir x1 s)); [done|unfold lift_cd, cd_auth_pin, on_fdir; fold (sd_fdir s); rewrite E1; done|].
  apply at_upd with (s' := with_fdir x1 s) in A.
  eapply (wp_at _ _ _ _ (with_fdir x2 s)); [exact A|done|]. rewrite upd_upd.
  apply at_upd with (s' := with_fdir x2 s) in A. rewrite upd_upd in A.
  eapply (wp_at _ _ _ _ (with_fdir x3 s)); [exact A|cbn beta; change (sd_fdir (with_fdir x2 s)) with x2; rewrite E3; done|].
  rewrite upd_upd. apply at_upd with (s' := with_fdir x3 s) in A. rewrite upd_upd in A.
  eapply wp_the_dir; [exact A|]. intros y -> _.
  assert (is_freezing_dir x3 = true) as HD3 by (by change (v_D (view x3) = true); rewrite V3).
  exists tt, (upd d (with_fdir x3 s) m), []. split; [unfold assertM; by change (sd_fdir (with_fdir x3 s)) with x3; rewrite HD3|].
  assert (tracks (sd_fdir s) x3) as Tr.
  { eapply tracks_trans; [exact (calm_tracks _ _ C1)|]. eapply tracks_trans; [exact T2|]. exact (calm_tracks _ _ C3). }
  assert (forall k, 0 <= k -> ~ (2 <= k <= 5) -> fd_test x3 (Z.shiftl 1 k) = (14 =? k) || sd_test s (Z.shiftl 1 k)) as Hb.
  { intros k K1 K2. rewrite (calm_test _ _ k C3), B2, (calm_test _ _ k C1) by done. done. }
  exists (with_fdir x3 s). split; [done|]. split; [by exists x3|]. split; [|split].
  - apply evolves_with.
    + apply Tr.
    + change (co_ref (fd_obj x2)) with (co_ref (fd_obj x1)) in R3. change (sd_obj s) with (fd_obj (sd_fdir s)). lia.
    + rewrite V3, V2. cbn [put_pins put_bits v_pins v_nested]. lia.
    + rewrite (ca_items _ _ C3). change (df_items (fd_dir x2)) with (df_items (fd_dir x1)).
      rewrite (ca_items _ _ C1). by apply all_evolve_same.
  - apply (frag_dir_with ext); [done|done|lia|by replace (ext + 1 + committing s) with (ext + committing s + 1) by lia|].
    intros k dn. rewrite (ca_items _ _ C3). change (df_items (fd_dir x2)) with (df_items (fd_dir x1)). rewrite (ca_items _ _ C1).
    intros Hk. unfold STATE_DNPINNEDFRAG. rewrite Hb by lia. apply (gd_dns _ _ Gd _ _ Hk).
  - split; [exact (Hb 14 ltac:(lia) ltac:(lia))| |by split; [|lia]].
    unfold sd_test, cd_test. change (fd_test x3 (Z.shiftl 1 16) = false). rewrite Hb by lia. exact P2.
Qed.

(** *** Marking *)

(** The dentries are replaced; the pins and bits of the fragment stay. *)
Lemma set_items_ok f (m' : gmap dentry_key_t (dentry X)) (Rl : dentry X -> dentry X -> Prop) :
  all_changed Rl (df_items (fd_dir f)) m' -> (forall dn dn', Rl dn dn' -> dn_linkage dn' = dn_linkage dn) ->
  let x := set_fd_dir (set_items m' (fd_dir f)) f in
  tracks f x /\ view x = view f /\ (forall ext, fz_ok ext f -> fz_ok ext x) /\ fd_obj x = fd_obj f.
Proof.
  intros A Hl x. split_and!; [|done| |done].
  - split; try done. intros k dn Hk. destruct (all_changed_at _ _ _ _ _ A Hk) as (dn0 & H0' & Hr). exists dn0. eauto.
  - intros ext. apply fz_quiet. by apply quiet_same.
Qed.

Definition marks dn dn' : Prop :=
  dn' = set_dn_obj (state_set DN_STATE_FRAGMENTING (repin 1 DN_PIN_FRAGMENTING (dn_obj dn))) dn /\ dn_fine true dn'.
Definition unmarks dn dn' : Prop :=
  dn' = set_dn_obj (repin (-1) DN_PIN_FRAGMENTING (state_clear DN_STATE_FRAGMENTING (dn_obj dn))) dn /\ dn_fine false dn'.

Lemma mark_items_ok s :
  (forall k dn, sd_items s !! k = Some dn -> dn_fine false dn /\ co_ref (dn_obj dn) < 2 ^ 31 - 1) ->
  exists its es, each_item mark_dentry s = Ok (with_fdir (set_fd_dir (set_items its (sd_dfrag s)) (sd_fdir s)) s, es) /\
    all_changed marks (sd_items s) its.
Proof.
  intros Hd. apply each_item_ok. intros k dn Hk. destruct (Hd k dn Hk) as [Hf Hs].
  destruct (mark_dentry_ok dn Hf Hs) as (es & E & Hf'). by eexists _, es.
Qed.

Lemma unmark_items_ok s :
  (forall k dn, sd_items s !! k = Some dn -> dn_fine true dn) ->
  exists its es, each_item unmark_dentry s = Ok (with_fdir (set_fd_dir (set_items its (sd_dfrag s)) (sd_fdir s)) s, es) /\
    all_changed unmarks (sd_items s) its.
Proof.
  intros Hd. apply each_item_ok. intros k dn Hk. destruct (unmark_dentry_ok dn (Hd k dn Hk)) as (es & E & Hf').
  by eexists _, es.
Qed.

Lemma freezing_only ext s : frag_dir ext s -> is_freezing_dir (sd_fdir s) = true ->
  is_freezing_tree_root (sd_fdir s) = false /\ is_frozen_tree_root (sd_fdir s) = false /\ is_frozen_dir (sd_fdir s) = false.
Proof. intros Gd HD. exact (finv_no_freezing_dir _ _ (fz_inv _ _ (frag_dir_fz _ _ Gd)) HD). Qed.

(** The last pin completes the freeze, others leave it under way. *)
Lemma unpin_view_freezes v : v_D v = true -> v_D (unpin_view v) = true \/ v_FD (unpin_view v) = true.
Proof. intros HD. unfold unpin_view. rewrite HD. destruct (_ && _); [by right|by left]. Qed.

Lemma mark_dir_ok n ext s i d m :
  at_dir m d s i -> frag_dir ext s -> in_phase Marking ext s -> small_dir n s -> 8 <= n ->
  wp (mark_dir d) m (fun _ m' => exists s', m' = upd d s' m /\ becomes s s' /\ evolves 4 s s' /\ frag_dir (ext - 1) s' /\
    in_phase Marked (ext - 1) s' /\ all_changed marks (sd_items s) (sd_items s')).
Proof.
  intros A Gd [P1 P2 [HD Hx]] Sm Hn. pose proof (committing_nonneg s) as Hc. pose proof (frag_dir_fz _ _ Gd) as Fz.
  destruct (freezing_only _ _ Gd HD) as (HT & _ & _).
  destruct (mark_items_ok s) as (m1 & es1 & E1 & M1).
  { intros k dn Hk. split; [by rewrite <- P2; apply (gd_dns _ _ Gd k)|pose proof (sl_dns _ _ Sm k dn Hk); lia]. }
  destruct (set_items_ok (sd_fdir s) m1 marks M1) as (T1 & V1 & F1 & O1); [by intros ? ? [-> _]|].
  set (x1 := set_fd_dir (set_items m1 (fd_dir (sd_fdir s))) (sd_fdir s)) in *.
  destruct (set_bit_ok x1 16 ltac:(unfold frag_bit; lia)) as (T2 & V2 & F2 & B2).
  set (x2 := set_fd_obj (state_set (Z.shiftl 1 16) (fd_obj x1)) x1) in *. rewrite V1 in V2.
  destruct (auth_unpin_gives (ext + committing s) (ie_fenv (di_env i)) x2) as (x3 & es3 & E3 & F3 & V3 & C3 & R3).
  { auto. } { exact (small_within n s ltac:(lia) Sm). } { lia. } { by change (v_T (view x2) = false); rewrite V2. }
  rewrite V2 in V3. unfold mark_dir. eapply wp_the_dir; [exact A|]. intros y -> _. rewrite P2.
  eapply (wp_at _ _ _ _ (with_fdir x1 s)); [exact A|exact E1|]. apply at_upd with (s' := with_fdir x1 s) in A.
  eapply (wp_at _ _ _ _ (with_fdir x2 s)); [exact A|done|]. rewrite upd_upd.
  apply at_upd with (s' := with_fdir x2 s) in A. rewrite upd_upd in A.
  eapply (wp_at_end _ _ _ _ (with_fdir x3 s)); [exact A|unfold lift_cd, cd_auth_unpin, on_fdir; cbn [sd_dir with_fdir set_sd_dir cd_fdir set_cd_fdir]; rewrite E3; done|].
  rewrite upd_upd. exists (with_fdir x3 s).
  assert (forall k, 0 <= k -> ~ (2 <= k <= 5) -> fd_test x3 (Z.shiftl 1 k) = (16 =? k) || sd_test s (Z.shiftl 1 k)) as Hb.
  { intros k K1 K2. rewrite (calm_test _ _ k C3), B2 by done. unfold fd_test. by rewrite O1. }
  assert (df_items (fd_dir x3) = m1) as Hi by (by rewrite (ca_items _ _ C3)).
  split_and!; [done| | | | |by change (all_changed marks (sd_items s) (df_items (fd_dir x3))); rewrite Hi].
  2: { apply evolves_with.
    - by rewrite (ca_pv _ _ C3).
    - change (co_ref (fd_obj x2)) with (co_ref (sd_obj s)) in R3. lia.
    - rewrite V3. pose proof (unpin_view_le _ _ (fz_inv _ _ Fz)). lia.
    - rewrite Hi. eapply all_changed_impl; [exact M1|]. intros dn dn' [-> _]. split; [done|cbn; lia]. }
  - exists x3. split; [done|]. eapply tracks_trans; [exact T1|]. eapply tracks_trans; [exact T2|]. exact (calm_tracks _ _ C3).
  - apply (frag_dir_with ext); [done| |lia|by replace (ext - 1 + committing s) with (ext + committing s - 1) by lia|].
    + eapply tracks_trans; [exact T1|]. eapply tracks_trans; [exact T2|]. exact (calm_tracks _ _ C3).
    + rewrite Hi. intros k dn Hk. unfold STATE_DNPINNEDFRAG. rewrite Hb by lia.
      destruct (all_changed_at _ _ _ _ _ M1 Hk) as (? & _ & _ & Hf). exact Hf.
  - split; [|exact (Hb 16 ltac:(lia) ltac:(lia))|].
    + change (fd_test x3 (Z.shiftl 1 14) = true). rewrite Hb by lia. exact P1.
    + change (v_D (view x3) = true \/ v_FD (view x3) = true). rewrite V3. apply unpin_view_freezes. exact HD.
Qed.

(** *** Giving up *)

(** Neither frozen nor freezing. *)
Definition thawed s : Prop := is_freezing_dir (sd_fdir s) = false /\ is_frozen_dir (sd_fdir s) = false.

Lemma thaw_view_thaws ext v : finv ext v -> v_D v = true \/ v_FD v = true ->
  v_D (thaw_view v) = false /\ v_FD (thaw_view v) = false.
Proof.
  intros I Hv. pose proof (fi_one _ _ I) as I5. unfold thaw_view. clear - I5 Hv. destruct v; cbn in *.
  destruct v_FD; cbn in *; [|done]. split; [|done]. destruct v_D; [destruct v_T, v_FT; cbn in *; lia|done].
Qed.

Lemma unfreeze_ok ext s e x :
  frag_dir ext s -> tracks (sd_fdir s) x -> 0 <= ext -> fz_ok (ext + committing s) x -> within x ->
  fd_test x STATE_FRAGMENTING = false -> fd_test x STATE_DNPINNEDFRAG = false ->
  (forall k dn, df_items (fd_dir x) !! k = Some dn -> dn_fine false dn) ->
  is_freezing_dir x = true \/ is_frozen_dir x = true ->
  exists x' es, unfreeze_dir e x = Ok (x', es) /\ tracks (sd_fdir s) x' /\ frag_dir ext (with_fdir x' s) /\
    in_phase Idle ext (with_fdir x' s) /\ thawed (with_fdir x' s) /\ df_items (fd_dir x') = df_items (fd_dir x) /\
    co_ref (fd_obj x') <= co_ref (fd_obj x) + 1 /\ v_pins (view x') + v_nested (view x') <= v_pins (view x) + v_nested (view x).
Proof.
  intros Gd Tr Hx Fz W B1 B2 Hd Hv. destruct (unfreeze_dir_gives _ e x Fz W Hv) as (x' & es & E & F' & V' & Ca & R').
  assert (forall k, 0 <= k -> ~ (2 <= k <= 5) -> fd_test x' (Z.shiftl 1 k) = fd_test x (Z.shiftl 1 k)) as Hb
    by (intros; by apply calm_test).
  assert (fd_test x' STATE_DNPINNEDFRAG = false) as B2' by (unfold STATE_DNPINNEDFRAG; by rewrite Hb by lia).
  assert (tracks (sd_fdir s) x') as Tr' by (eapply tracks_trans; [exact Tr|by apply calm_tracks]).
  exists x', es. split_and!; [done|done| | | |apply Ca|done|rewrite V'; apply thaw_view_le].
  - apply (frag_dir_with ext); [done..|]. intros k dn. rewrite (ca_items _ _ Ca), B2'. apply Hd.
  - split; [|exact B2'|done]. change (fd_test x' STATE_FRAGMENTING = false). unfold STATE_FRAGMENTING. by rewrite Hb by lia.
  - destruct (thaw_view_thaws _ _ (fz_inv _ _ Fz) Hv) as [D1 D2]. rewrite <- V' in D1, D2. by split.
Qed.

(** The dentries afterwards: those that were marked are not, the others are the same. *)
Definition items_freed s s' : Prop :=
  if sd_test s STATE_DNPINNEDFRAG then all_changed unmarks (sd_items s) (sd_items s') else sd_items s' = sd_items s.

Lemma unmark_marking n ext s i d m :
  at_dir m d s i -> frag_dir ext s -> in_phase Marking ext s -> small_dir n s -> 8 <= n ->
  wp (unmark_one d) m (fun _ m' => exists s', m' = upd d s' m /\ becomes s s' /\ evolves 4 s s' /\ frag_dir (ext - 1) s' /\
    in_phase Idle (ext - 1) s' /\ thawed s' /\ sd_items s' = sd_items s).
Proof.
  intros A Gd [P1 P2 [HD Hx]] Sm Hn. pose proof (committing_nonneg s) as Hc. pose proof (frag_dir_fz _ _ Gd) as Fz.
  destruct (freezing_only _ _ Gd HD) as (HT & _ & _).
  destruct (clear_bit_ok (sd_fdir s) 14 ltac:(unfold frag_bit; lia)) as (T1 & V1 & F1 & B1).
  set (x1 := set_fd_obj (state_clear (Z.shiftl 1 14) (fd_obj (sd_fdir s))) (sd_fdir s)) in *.
  destruct (auth_unpin_gives (ext + committing s) (ie_fenv (di_env i)) x1) as (x2 & es2 & E2 & F2 & V2 & C2 & R2);
    [auto|exact (small_within n s ltac:(lia) Sm)|lia|by change (v_T (view x1) = false); rewrite V1|]. rewrite V1 in V2.
  assert (forall k, 0 <= k -> ~ (2 <= k <= 5) -> fd_test x2 (Z.shiftl 1 k) = negb (14 =? k) && sd_test s (Z.shiftl 1 k)) as Hb.
  { intros k K1 K2. by rewrite (calm_test _ _ k C2), B1. }
  assert (df_items (fd_dir x2) = sd_items s) as Hi by exact (ca_items _ _ C2).
  destruct (unfreeze_ok (ext - 1) (with_fdir x2 s) (ie_fenv (di_env i)) x2) as (x3 & es3 & E3 & T3 & G3 & I3 & Th & Hi3 & R3 & Pv3).
  - apply (frag_dir_with ext); [done| |lia|by replace (ext - 1 + committing s) with (ext + committing s - 1) by lia|].
    + eapply tracks_trans; [exact T1|by apply calm_tracks].
    + rewrite Hi. intros k dn Hk. unfold STATE_DNPINNEDFRAG. rewrite Hb by lia. apply (gd_dns _ _ Gd k dn Hk).
  - apply tracks_refl.
  - lia.
  - by replace (ext - 1 + committing (with_fdir x2 s)) with (ext + committing s - 1) by (unfold committing; cbn; lia).
  - destruct Sm as [A1 A2 _ _]. split.
    + change (co_ref (fd_obj x1)) with (co_ref (sd_obj s)) in R2. lia.
    + change (v_pins (view x2) + v_nested (view x2) < 2 ^ 31 - 2). rewrite V2. unfold unpin_view.
      change (v_pins (view (sd_fdir s)) + v_nested (view (sd_fdir s)) < 2 ^ 31 - n) in A2. pose proof (fi_pins _ _ (fz_inv _ _ Fz)) as Hp.
      change (v_D (view (sd_fdir s)) = true) in HD. change (v_T (view (sd_fdir s)) = false) in HT. rewrite HD, HT in Hp.
      cbn [b2z] in Hp. destruct (_ && _); cbn [put_pins put_bits v_pins v_nested]; lia.
  - exact (Hb 14 ltac:(lia) ltac:(lia)).
  - unfold STATE_DNPINNEDFRAG. rewrite Hb by lia. exact P2.
  - rewrite Hi. intros k dn Hk. rewrite <- P2. by apply (gd_dns _ _ Gd k).
  - change (v_D (view x2) = true \/ v_FD (view x2) = true). rewrite V2. by apply unpin_view_freezes.
  - unfold unmark_one. eapply wp_the_dir; [exact A|]. intros y -> _. apply wp_assert; [done|].
    eapply (wp_at _ _ _ _ (with_fdir x1 s)); [exact A|done|]. apply at_upd with (s' := with_fdir x1 s) in A. rewrite P2.
    eapply (wp_at _ _ _ _ (with_fdir x2 s)); [exact A|unfold lift_cd, cd_auth_unpin, on_fdir; cbn [sd_dir with_fdir set_sd_dir cd_fdir set_cd_fdir]; rewrite E2; done|].
    rewrite upd_upd. apply at_upd with (s' := with_fdir x2 s) in A. rewrite upd_upd in A.
    eapply (wp_at_end _ _ _ _ (with_fdir x3 s)); [exact A|unfold lift_fd; cbn beta; change (sd_fdir (with_fdir x2 s)) with x2; rewrite E3; done|].
    rewrite upd_upd. exists (with_fdir x3 s). split_and!; [done| | |done|done|done|].
    2: { apply evolves_with.
      - rewrite (tr_pv _ _ T3). change (df_projected_version (fd_dir x2) = df_projected_version (fd_dir x1)). apply C2.
      - change (co_ref (fd_obj x1)) with (co_ref (sd_obj s)) in R2. lia.
      - pose proof (unpin_view_le _ _ (fz_inv _ _ Fz)). rewrite V2 in Pv3. lia.
      - rewrite Hi3, Hi. by apply all_evolve_same. }
    + exists x3. split; [done|]. eapply tracks_trans; [exact T1|]. eapply tracks_trans; [by apply calm_tracks|exact T3].
    + change (df_items (fd_dir x3) = sd_items s). by rewrite Hi3.
Qed.

Lemma unmark_marked n ext s i d m :
  at_dir m d s i -> frag_dir ext s -> in_phase Marked ext s -> small_dir n s -> 8 <= n ->
  wp (unmark_one d) m (fun _ m' => exists s', m' = upd d s' m /\ becomes s s' /\ evolves 4 s s' /\ frag_dir ext s' /\
    in_phase Idle ext s' /\ thawed s' /\ all_changed unmarks (sd_items s) (sd_items s')).
Proof.
  intros A Gd [P1 P2 Hv] Sm Hn. pose proof (frag_dir_fz _ _ Gd) as Fz. pose proof (cv_ext _ _ (gd_commit _ _ Gd)) as Hx.
  destruct (clear_bit_ok (sd_fdir s) 14 ltac:(unfold frag_bit; lia)) as (T1 & V1 & F1 & B1).
  set (x1 := set_fd_obj (state_clear (Z.shiftl 1 14) (fd_obj (sd_fdir s))) (sd_fdir s)) in *.
  destruct (clear_bit_ok x1 16 ltac:(unfold frag_bit; lia)) as (T2 & V2 & F2 & B2).
  set (x2 := set_fd_obj (state_clear (Z.shiftl 1 16) (fd_obj x1)) x1) in *. rewrite V1 in V2.
  destruct (unmark_items_ok (with_fdir x2 s)) as (its & es3 & E3 & M3).
  { intros k dn Hk. rewrite <- P2. by apply (gd_dns _ _ Gd k). }
  destruct (set_items_ok x2 its unmarks M3) as (T3 & V3 & F3 & O3); [by intros ? ? [-> _]|].
  set (x3 := set_fd_dir (set_items its (fd_dir x2)) x2) in *. rewrite V2 in V3.
  assert (forall k dn, df_items (fd_dir x3) !! k = Some dn -> dn_fine false dn) as Hd.
  { intros k dn Hk. destruct (all_changed_at _ _ _ _ _ M3 Hk) as (? & _ & _ & Hf). exact Hf. }
  assert (forall k, 0 <= k -> fd_test x3 (Z.shiftl 1 k) = negb (16 =? k) && (negb (14 =? k) && sd_test s (Z.shiftl 1 k))) as Hb.
  { intros k Hk. transitivity (fd_test x2 (Z.shiftl 1 k)); [unfold fd_test; by rewrite O3|]. by rewrite B2, B1. }
  assert (tracks (sd_fdir s) x3) as Tr.
  { eapply tracks_trans; [exact T1|]. eapply tracks_trans; [exact T2|exact T3]. }
  destruct (unfreeze_ok ext s (ie_fenv (di_env i)) x3) as (x4 & es4 & E4 & T4 & G4 & I4 & Th & Hi4 & R4 & Pv4);
    [done|done|done|auto|exact (small_within n s ltac:(lia) Sm)|exact (Hb 14 ltac:(lia))|exact (Hb 16 ltac:(lia))|done| |].
  { change (v_D (view x3) = true \/ v_FD (view x3) = true). by rewrite V3. }
  unfold unmark_one. eapply wp_the_dir; [exact A|]. intros y -> _. apply wp_assert; [done|].
  eapply (wp_at _ _ _ _ (with_fdir x1 s)); [exact A|done|]. apply at_upd with (s' := with_fdir x1 s) in A. rewrite P2.
  apply wp_then. eapply (wp_at _ _ _ _ (with_fdir x2 s)); [exact A|done|]. rewrite upd_upd.
  apply at_upd with (s' := with_fdir x2 s) in A. rewrite upd_upd in A.
  eapply (wp_at_end _ _ _ _ (with_fdir x3 s)); [exact A|exact E3|]. rewrite upd_upd.
  apply at_upd with (s' := with_fdir x3 s) in A. rewrite upd_upd in A.
  eapply (wp_at_end _ _ _ _ (with_fdir x4 s)); [exact A|unfold lift_fd; cbn beta; change (sd_fdir (with_fdir x3 s)) with x3; rewrite E4; done|].
  rewrite upd_upd. exists (with_fdir x4 s). split_and!; [done|by exists x4| |done|done|done|].
  { apply evolves_with.
    - by rewrite (tr_pv _ _ T4).
    - change (co_ref (fd_obj x3)) with (co_ref (sd_obj s)) in R4. lia.
    - rewrite V3 in Pv4. lia.
    - rewrite Hi4. eapply all_changed_impl; [exact M3|]. intros dn dn' [-> _]. split; [done|cbn; lia]. }
  change (all_changed unmarks (sd_items s) (df_items (fd_dir x4))). by rewrite Hi4.
Qed.

(** *** Waiting for the freeze *)

(** A waiter that is not sent to a parent. *)
Lemma add_waiter_fdir n ext tag c s :
  fz_ok ext (sd_fdir s) -> small_dir n s -> 8 <= n -> has_bits tag WAIT_ATFREEZEROOT = false ->
  has_bits tag WAIT_ATSUBTREEROOT = false ->
  exists x es, dir_add_waiter tag c (sd_dir s) = Ok (set_cd_fdir x (sd_dir s), es) /\ fz_ok ext x /\
    view x = view (sd_fdir s) /\ calm (sd_fdir s) x /\ co_ref (fd_obj x) <= co_ref (sd_obj s) + 1.
Proof.
  intros Fz Sm Hn W1 W2. destruct Sm as [Sr _ _ _].
  assert (exists o hs, add_waiter (sd_obj s) tag c = Ok (o, hs) /\ obj_ok o /\ co_state o = co_state (sd_obj s) /\
    co_ref o <= co_ref (sd_obj s) + 1 /\
    forall q, q <> PIN_WAITER -> pins o q = pins (sd_obj s) q) as (o & hs & E & O & Es & Er & Ep).
  { destruct (add_waiter_ok (sd_obj s) tag c (fz_obj _ _ Fz)) as (o & hs & E & O & _); [lia|].
    exists o, hs. split; [done|]. split; [done|].
    unfold add_waiter in E. apply bind_ok in E as ([o1 hs1] & E1 & E). injection E as <- _. cbn.
    destruct (co_waiting (sd_obj s)); [|injection E1 as <- _; split; [done|split; [lia|done]]].
    destruct (get_other _ _ _ _ E1) as [G1 G2]. split; [done|]. split; [|intros q Hq; by apply G2].
    rewrite get_ok in E1; [|apply Fz|lia]. injection E1 as <- _. cbn. lia. }
  assert (view (set_fd_obj o (sd_fdir s)) = view (sd_fdir s)) as V by (by apply view_ext).
  exists (set_fd_obj o (sd_fdir s)). eexists. split_and!; [|split; [done|rewrite V; apply Fz]|done| |done].
  - unfold dir_add_waiter. rewrite W1, W2. cbn [andb]. unfold sd_obj in E. rewrite E. done.
  - apply calm_obj; [done|]. intros q Hq. apply Ep. intros ->. apply Hq. unfold freeze_pin. tauto.
Qed.

(** A step that only takes or adds pins. *)
Lemma calm_frag_dir ext ext' s x :
  frag_dir ext s -> calm (sd_fdir s) x -> 0 <= ext' -> fz_ok (ext' + committing s) x -> frag_dir ext' (with_fdir x s).
Proof.
  intros Gd Ca Hx Fx. apply (frag_dir_with ext); [done|by apply calm_tracks|done|done|]. rewrite (ca_items _ _ Ca).
  intros k dn Hk. unfold STATE_DNPINNEDFRAG. rewrite (calm_test _ _ 16 Ca) by lia. by apply (gd_dns _ _ Gd k).
Qed.

Lemma calm_phase p ext ext' s x :
  in_phase p ext s -> calm (sd_fdir s) x -> v_D (view x) = v_D (view (sd_fdir s)) -> v_FD (view x) = v_FD (view (sd_fdir s)) ->
  ext <= ext' -> in_phase p ext' (with_fdir x s).
Proof.
  intros [P1 P2 P3] Ca V1 V2 Hx. split.
  - rewrite <- P1. apply (calm_test _ _ 14 Ca); lia.
  - rewrite <- P2. apply (calm_test _ _ 16 Ca); lia.
  - change (is_freezing_dir (sd_fdir (with_fdir x s))) with (v_D (view x)).
    change (is_frozen_dir (sd_fdir (with_fdir x s))) with (v_FD (view x)). rewrite V1, V2.
    destruct p; [done| |exact P3]. destruct P3 as [P3 P4]. split; [exact P3|lia].
Qed.

Lemma calm_evolves s x : calm (sd_fdir s) x -> co_ref (fd_obj x) <= co_ref (sd_obj s) + 4 ->
  v_pins (view x) + v_nested (view x) <= v_pins (view (sd_fdir s)) + v_nested (view (sd_fdir s)) + 4 ->
  evolves 4 s (with_fdir x s).
Proof.
  intros Ca Hr Hp. apply evolves_with; [apply Ca|done|done|]. rewrite (ca_items _ _ Ca).
  by apply all_evolve_same.
Qed.

Lemma dir_wait_ok n ext p s i d m :
  at_dir m d s i -> frag_dir ext s -> in_phase p ext s -> small_dir n s -> 8 <= n -> is_frozen_dir (sd_fdir s) = false ->
  forall c, wp (dir_wait WAIT_FROZEN c d) m (fun _ m' => exists s', m' = upd d s' m /\ becomes s s' /\ evolves 4 s s' /\ frag_dir ext s' /\
    in_phase p ext s' /\ is_frozen_dir (sd_fdir s') = false).
Proof.
  intros A Gd Ph Sm Hn Hf c. pose proof (frag_dir_fz _ _ Gd) as Fz. pose proof (cv_ext _ _ (gd_commit _ _ Gd)) as Hx.
  destruct (add_waiter_fdir n _ WAIT_FROZEN c s Fz Sm Hn) as (x & es & E & Fx & V & Ca & R1); [done|done|].
  unfold dir_wait. eapply (wp_at_end _ _ _ _ (with_fdir x s)); [exact A|cbn beta; unfold lift_cd; rewrite E; done|].
  exists (with_fdir x s). split_and!; [done| | | | |].
  - exists x. split; [done|by apply calm_tracks].
  - apply calm_evolves; [done|lia|rewrite V; lia].
  - by apply (calm_frag_dir ext).
  - apply (calm_phase p ext); [done|done|by rewrite V|by rewrite V|lia].
  - change (v_FD (view x) = false). rewrite V. exact Hf.
Qed.

(** *** Reading in *)

Definition linked (i : dinode X T C F G) : Prop :=
  Commit.ie_nlink (di_cenv i) <> 0 \/ Commit.ie_snaprealm (di_cenv i) = true.

Lemma linked_test i : linked i -> (Commit.ie_nlink (di_cenv i) =? 0) && negb (Commit.ie_snaprealm (di_cenv i)) = false.
Proof. intros [Hl|Hl]; [by replace (Commit.ie_nlink (di_cenv i) =? 0) with false by lia|by rewrite Hl, andb_false_r]. Qed.

(** The bit [FETCHING] does not matter to the freeze. *)
Lemma fetching_ok ext p s : frag_dir ext s -> in_phase p ext s ->
  let x := set_fd_obj (state_set STATE_FETCHING (sd_obj s)) (sd_fdir s) in
  frag_dir ext (with_fdir x s) /\ in_phase p ext (with_fdir x s) /\ evolves 4 s (with_fdir x s).
Proof.
  intros Gd [P1 P2 P3]. destruct (set_bit_ok (sd_fdir s) 7 ltac:(unfold frag_bit; lia)) as (Tr & V & Fx & Hb). cbv zeta.
  set (x := set_fd_obj (state_set (Z.shiftl 1 7) (fd_obj (sd_fdir s))) (sd_fdir s)) in *.
  change (set_fd_obj (state_set STATE_FETCHING (sd_obj s)) (sd_fdir s)) with x. split; [|split].
  - apply (frag_dir_with ext); [done|done|exact (cv_ext _ _ (gd_commit _ _ Gd))|by apply Fx, frag_dir_fz|].
    intros k dn Hk. unfold STATE_DNPINNEDFRAG. rewrite Hb by lia. apply (gd_dns _ _ Gd k dn Hk).
  - split; [rewrite <- P1; apply (Hb 14); lia|rewrite <- P2; apply (Hb 16); lia|].
    change (is_freezing_dir (sd_fdir (with_fdir x s))) with (v_D (view x)).
    change (is_frozen_dir (sd_fdir (with_fdir x s))) with (v_FD (view x)). rewrite V. exact P3.
  - apply evolves_with; [done|change (co_ref (fd_obj x)) with (co_ref (sd_obj s)); lia|rewrite V; lia|]. by apply all_evolve_same.
Qed.

Lemma dir_fetch_ok (env : menv T D) c n ext s i d m :
  at_dir m d s i -> frag_dir ext s -> in_phase Marking ext s -> small_dir n s -> 8 <= n -> linked i ->
  sd_test s STATE_COMPLETE = false ->
  wp (dir_fetch env c d) m (fun _ m' => exists s' ext', m' = upd d s' m /\ evolves 4 s s' /\ frag_dir ext' s' /\
    in_phase Marking ext' s').
Proof.
  intros A Gd Ph Sm Hn Hl Hc. pose proof (frag_dir_fz _ _ Gd) as Fz. pose proof Ph as [P1 P2 [HD Hx]].
  destruct (freezing_only _ _ Gd HD) as (HT & HFT & HFD).
  destruct (add_waiter_fdir n _ WAIT_COMPLETE c s Fz Sm Hn) as (x & es & E & Fx & V & Ca & R1); [done|done|].
  assert (cd_test (set_cd_fdir x (sd_dir s)) STATE_FETCHING = sd_test s STATE_FETCHING) as Eft by (apply (calm_test _ _ 7 Ca); lia).
  unfold dir_fetch. destruct A as [(y & Ey & Es & Ei)]. eapply wp_dir; [done|]. eapply wp_inode; [done|]. rewrite Es.
  unfold fetch. rewrite (cv_auth _ _ (gd_commit _ _ Gd)). unfold is_complete.
  change (cd_test (sd_dir s) STATE_COMPLETE) with (sd_test s STATE_COMPLETE). rewrite Hc, andb_false_r.
  cbn [negb assert_ mbind res_bind]. rewrite linked_test by done. rewrite E. cbn [mbind res_bind]. rewrite Eft.
  destruct (sd_test s STATE_FETCHING) eqn:Eb.
  - apply wp_change. exists tt. eexists _, _. split; [done|]. exists (with_fdir x s), ext. split_and!; [done| | |].
    + apply calm_evolves; [done|lia|rewrite V; lia].
    + apply (calm_frag_dir ext); [done|done|lia|done].
    + apply (calm_phase Marking ext); [done|done|by rewrite V|by rewrite V|lia].
  - destruct (auth_pin_gives _ x Fx) as (x2 & es2 & E2 & F2 & V2 & C2 & R2).
    { destruct Sm as [A1 A2 _ _]. split; [lia|]. change (v_pins (view x) + v_nested (view x) < 2 ^ 31 - 2). rewrite V.
      cbn in *. lia. }
    { change (v_FT (view x) = false). by rewrite V. } { change (v_FD (view x) = false). by rewrite V. }
    assert (calm (sd_fdir s) x2) as C3 by (by eapply calm_trans).
    assert (frag_dir (ext + 1) (with_fdir x2 s)) as G2.
    { apply (calm_frag_dir ext); [done|done|lia|]. by replace (ext + 1 + committing s) with (ext + committing s + 1) by lia. }
    assert (in_phase Marking (ext + 1) (with_fdir x2 s)) as I2
      by (apply (calm_phase Marking ext); [done|done|by rewrite V2, V|by rewrite V2, V|lia]).
    destruct (fetching_ok _ _ _ G2 I2) as (G3 & I3 & _).
    unfold cd_auth_pin, on_fdir. cbn [cd_fdir set_cd_fdir]. rewrite E2. cbn [mbind res_bind].
    apply wp_change. exists tt. eexists _, _. split; [done|].
    exists (with_fdir (set_fd_obj (state_set STATE_FETCHING (fd_obj x2)) x2) s), (ext + 1). split_and!; [done| |exact G3|exact I3].
    apply evolves_with; [apply C3|cbn; lia| |].
    + change (v_pins (view x2) + v_nested (view x2) <= v_pins (view (sd_fdir s)) + v_nested (view (sd_fdir s)) + 4).
      rewrite V2, V. cbn. lia.
    + change (all_changed (dn_evolves 4) (sd_items s) (df_items (fd_dir x2))). rewrite (ca_items _ _ C3). by apply all_evolve_same.
Qed.

(** *** Storing a new fragment *)

Definition same_dn dn dn' : Prop := dn_obj dn' = dn_obj dn /\ dn_linkage dn' = dn_linkage dn.

Lemma same_dn_all (its : gmap dentry_key_t (dentry X)) : all_changed same_dn its its.
Proof. by apply all_changed_refl. Qed.

Abbreviation cdir := (Versions.cdir X T).
Abbreviation cstate := (Commit.cstate (C := X) (S := S) (T := T)).

(** A commit that trims nothing writes the dentries and leaves them as they are, but for the
    mark of a new one. *)
Definition only_items (a b : cdir) : Prop :=
  exists its, b = set_cd_dir (set_items its (cd_dir a)) a /\ all_changed same_dn (df_items (cd_dir a)) its.

Lemma only_items_refl (a : cdir) : only_items a a.
Proof. exists (df_items (cd_dir a)). split; [by destruct a as [[[]]]|apply same_dn_all]. Qed.

Lemma commit_dentry_items prio k (st st' : cstate) :
  commit_dentry prio None k st = Ok st' -> only_items (cs_dir st) (cs_dir st').
Proof.
  intros E. unfold commit_dentry in E. destruct (df_items _ !! k) as [dn|] eqn:Ek; [|done].
  cbn [commit_trim mbind res_bind orb] in E. destruct (skipped dn); [injection E as <-; apply only_items_refl|].
  apply bind_ok in E as (st1 & E1 & E). injection E as <-.
  assert (cs_dir (commit_flush prio st1) = cs_dir st1) as -> by (unfold commit_flush; by destruct (_ <=? _)).
  unfold commit_add in E1. destruct (is_null dn); [injection E1 as <-; apply only_items_refl|].
  apply bind_ok in E1 as ([[dn' objs'] bl] & E2 & E1). injection E1 as <-. exists (<[k := dn']> (df_items (cd_dir (cs_dir st)))).
  split; [done|]. assert (same_dn dn dn') as Hs by (unfold _encode_dentry in E2; destruct (dn_linkage _); by simplify_eq).
  intros j. destruct (decide (j = k)) as [->|N]; [by rewrite Ek, lookup_insert_eq|].
  rewrite lookup_insert_ne by done. apply same_dn_all.
Qed.

Lemma commit_loop_items prio ks (st st' : cstate) :
  commit_loop prio None ks st = Ok st' -> only_items (cs_dir st) (cs_dir st').
Proof.
  revert st. induction ks as [|k ks IH]; intros st E; [injection E as <-; apply only_items_refl|].
  apply bind_ok in E as (st1 & E1 & E). destruct (commit_dentry_items _ _ _ _ E1) as (its & Ed & A1).
  destruct (IH _ E) as (its' & Ed' & A2). rewrite Ed in Ed', A2. exists its'. split; [exact Ed'|].
  eapply all_changed_trans; [exact A1|exact A2|]. intros a b c [B1 B2] [C1 C2]. split; congruence.
Qed.

(** What a commit does to the fragment. *)
Record stored (d d' : cdir) (f : fdir X) : Prop := {
  st_pinned : f = cd_fdir d \/ exists es, auth_pin (cd_fdir d) = Ok (f, es);
  st_fdir : exists its, all_changed same_dn (df_items (fd_dir f)) its /\
    (cd_fdir d' = set_fd_dir (set_items its (fd_dir f)) f \/
     cd_fdir d' = set_fd_dir (set_items its (set_obj (state_set STATE_COMMITTING (fd_obj f)) (fd_dir f))) f);
  st_new : item_new d' = item_new d;
  st_committed : committed_version d' = committed_version d;
  st_fnode : fnode d' = fnode d
}.

Lemma commit_frame want c prio e ie objs (d d' : cdir) objs' es :
  purge_snaps ie (fnode d) = None -> (Commit.ie_nlink ie =? 0) && negb (Commit.ie_snaprealm ie) = false ->
  commit want c true prio e ie objs d = Ok (d', objs', es) -> exists f, stored d d' f.
Proof.
  intros Hp Hl E. unfold commit in E. rewrite Hl in E. cbv zeta in E. do 4 apply bind_ok in E as (? & _ & E).
  set (w := if want =? 0 then _ else _) in E. set (cc := default C_MDSInternalNoop c) in E.
  apply bind_ok in E as ([d1 es1] & E1 & E). apply bind_ok in E as ([[d2 objs2] es2] & E2 & E). injection E as <- <- <-.
  assert (exists f, (f = cd_fdir d \/ exists es, auth_pin (cd_fdir d) = Ok (f, es)) /\ d1 = set_cd_fdir f d) as (f & Hf & ->).
  { destruct (bool_decide _).
    - unfold cd_auth_pin, on_fdir in E1. apply bind_ok in E1 as ([f es0] & E0 & E1). injection E1 as <- _. exists f. eauto.
    - injection E1 as <- _. exists (cd_fdir d). split; [by left|by destruct d]. }
  exists f. unfold _commit in E2. apply bind_ok in E2 as (? & _ & E2). apply bind_ok in E2 as (? & _ & E2).
  assert (stored d (add_commit_waiter w cc (set_cd_fdir f d)) f) as Hst.
  { split; try done. exists (df_items (fd_dir f)). split; [apply same_dn_all|]. left. by destruct f as [[]]. }
  destruct (w <=? committed_version _); [by injection E2 as <- _ _|].
  destruct (w <=? committing_version _); [apply bind_ok in E2 as (? & _ & E2); by injection E2 as <- _ _|].
  destruct (committed_version _ <? committing_version _); [by injection E2 as <- _ _|]. cbv zeta in E2.
  unfold _omap_commit in E2. apply bind_ok in E2 as (st & E2 & E3). injection E3 as <- _ _.
  match type of E2 with commit_loop _ (purge_snaps ie (fnode ?dd)) _ _ = _ => assert (fnode dd = fnode d) as Ef by (by destruct (cd_test _ _)) end.
  rewrite Ef, Hp in E2. destruct (commit_loop_items _ _ _ _ E2) as (its & -> & A). cbn [cs_dir] in A |- *.
  destruct (cd_test _ STATE_COMMITTING); split; try done; exists its; (split; [exact A|]); [by left|by right].
Qed.

(** The fragment a commit works on: pinned, or as it was. *)
Lemma stored_fdir n ext s f :
  frag_dir ext s -> is_freezing_dir (sd_fdir s) = true -> small_dir n s -> 8 <= n ->
  (f = sd_fdir s \/ exists es, auth_pin (sd_fdir s) = Ok (f, es)) ->
  calm (sd_fdir s) f /\ is_freezing_dir f = true /\ co_ref (fd_obj f) <= co_ref (sd_obj s) + 1 /\
  auth_pins f + nested_auth_pins f <= auth_pins (sd_fdir s) + nested_auth_pins (sd_fdir s) + 1.
Proof.
  intros Gd HD Sm Hn [->|[es E]]; [split_and!; [apply calm_refl|done|unfold sd_obj; change (cd_obj (sd_dir s)) with (fd_obj (sd_fdir s)); lia|lia]|].
  destruct (freezing_only _ _ Gd HD) as (HT & HFT & HFD).
  destruct (auth_pin_gives _ _ (frag_dir_fz _ _ Gd) (small_within n s ltac:(lia) Sm) HFT HFD) as (f' & es' & E' & _ & V & Ca & Rf).
  rewrite E in E'. injection E' as <- <-. split_and!; [done| |done|].
  - change (v_D (view f) = true). rewrite V. exact HD.
  - change (v_pins (view f) + v_nested (view f) <= v_pins (view (sd_fdir s)) + v_nested (view (sd_fdir s)) + 1).
    rewrite V. cbn. lia.
Qed.

Lemma stored_bits (d d' : cdir) f k : stored d d' f -> 0 <= k -> k <> 6 -> cd_test d' (Z.shiftl 1 k) = fd_test f (Z.shiftl 1 k).
Proof.
  intros [_ (its & _ & Hf) _ _ _] K1 K2. unfold cd_test, cd_obj, cd_dir. destruct Hf as [-> | ->]; [done|].
  cbn. unfold STATE_COMMITTING. rewrite state_test_set by lia. by replace (6 =? k) with false by lia.
Qed.

Lemma stored_items (d d' : cdir) f : stored d d' f -> all_changed same_dn (df_items (fd_dir f)) (df_items (cd_dir d')).
Proof. intros [_ (its & A & Hf) _ _ _]. unfold cd_dir. by destruct Hf as [-> | ->]. Qed.

Lemma dir_commit_ok c n ext s i d m :
  at_dir m d s i -> frag_dir ext s -> in_phase Marking ext s -> small_dir n s -> 8 <= n -> linked i ->
  purge_snaps (di_cenv i) (sd_fnode s) = None -> is_new (sd_dir s) = true ->
  wp (dir_commit c d) m (fun _ m' => exists s' objs, m' = upd d s' (set_objs objs m) /\ evolves 4 s s' /\ frag_dir ext s' /\
    in_phase Marking ext s').
Proof.
  intros A Gd Ph Sm Hn Hl Hp Nw. pose proof Ph as [P1 P2 [HD Hx]]. pose proof Gd as [G1 G2 G3 G4 G5].
  destruct (freezing_only _ _ Gd HD) as (HT & HFT & HFD). destruct (G5 Nw) as [Hdirty Hv].
  unfold dir_commit. destruct A as [(y & Ey & Es & Ei)]. eapply wp_dir; [done|]. eapply wp_inode; [done|]. apply wp_cache.
  rewrite Es.
  destruct (commit_keeps ext (ie_fenv (di_env i)) (di_cenv i) 0 (Some c) true (-1) (mc_objs m) (sd_dir s))
    as (d' & objs' & es & E & I' & Hlt & Ef & _); [done| |by apply ready_plain|done|done|cbn; lia|done|exact Hl|].
  { destruct Sm as [A1 A2 A3 _]. split; [change (co_ref (sd_obj s) < 2 ^ 31 - 2)|change (auth_pins (sd_fdir s) + nested_auth_pins (sd_fdir s) < 2 ^ 31 - 2)|exact A3]; lia. }
  rewrite E. destruct (commit_frame _ _ _ _ _ _ _ _ _ _ Hp (linked_test i Hl) E) as (f & Hst).
  destruct (stored_fdir n ext s f Gd HD Sm Hn (st_pinned _ _ _ Hst)) as (Ca & HDf & Rf & Pf).
  assert (forall k, 0 <= k -> k <> 6 -> ~ (2 <= k <= 5) -> cd_test d' (Z.shiftl 1 k) = sd_test s (Z.shiftl 1 k)) as Hb.
  { intros k K1 K2 K3. rewrite (stored_bits _ _ _ k Hst) by done. by apply (calm_test _ _ k Ca). }
  pose proof (stored_items _ _ _ Hst) as Ai. rewrite (ca_items _ _ Ca) in Ai. change (df_items (fd_dir (sd_fdir s))) with (sd_items s) in Ai.
  assert (forall k dn', df_items (cd_dir d') !! k = Some dn' -> exists dn, sd_items s !! k = Some dn /\ same_dn dn dn') as Hi
    by (intros k dn'; apply (all_changed_at _ _ _ _ _ Ai)).
  apply wp_change. apply wp_change. exists tt. eexists _, _. split; [done|].
  exists (set_sd_dir d' s), objs'. split_and!; [by destruct m| | |].
  - split; try done.
    + change (co_ref (cd_obj d') <= co_ref (sd_obj s) + 4). destruct Hst as [_ (its & _ & Hf) _ _ _].
      unfold cd_obj, cd_dir. destruct Hf as [-> | ->]; change (co_ref (fd_obj f) <= co_ref (sd_obj s) + 4); lia.
    + change (auth_pins (cd_fdir d') + nested_auth_pins (cd_fdir d') <= auth_pins (sd_fdir s) + nested_auth_pins (sd_fdir s) + 4).
      destruct Hst as [_ (its & _ & Hf) _ _ _].
      destruct Hf as [-> | ->];
        change (auth_pins f + nested_auth_pins f <= auth_pins (sd_fdir s) + nested_auth_pins (sd_fdir s) + 4); lia.
    + unfold projected_version. change (df_projected_version (cd_dir d') = df_projected_version (fd_dir (sd_fdir s))).
      rewrite <- (ca_pv _ _ Ca). destruct Hst as [_ (its & _ & Hf) _ _ _]. unfold cd_dir. by destruct Hf as [-> | ->].
    + eapply all_changed_impl; [exact Ai|]. intros dn dn' [Eo El]. split; [done|]. rewrite Eo. lia.
  - split; [exact I'| | | |].
    + intros k dn' Hk. destruct (Hi k dn' Hk) as (dn & Hd & _). by apply (G2 k dn).
    + intros k1 k2 dn1 dn2 h K1 K2 L1 L2. destruct (Hi k1 dn1 K1) as (a & A1 & _ & A2). destruct (Hi k2 dn2 K2) as (b & B1 & _ & B2).
      unfold primary_ino in L1, L2. rewrite A2 in L1. rewrite B2 in L2. by apply (G3 k1 k2 a b h).
    + intros k dn' Hk. change (sd_test (set_sd_dir d' s) STATE_DNPINNEDFRAG) with (cd_test d' (Z.shiftl 1 16)). rewrite Hb by lia.
      destruct (Hi k dn' Hk) as (dn & Hd & Eo & _). destruct (G4 k dn Hd) as [D1 D2 D3].
      unfold DN_FRAGMENTING in *. split; unfold DN_FRAGMENTING; by rewrite Eo.
    + intros _. change (sd_test (set_sd_dir d' s) STATE_DIRTY) with (cd_test d' (Z.shiftl 1 29)). rewrite Hb by lia.
      split; [exact Hdirty|]. change (committed_version d' < get_version d'). unfold get_version.
      rewrite Ef, (st_committed _ _ _ Hst). exact Hv.
  - split; [rewrite <- P1; apply (Hb 14); lia|rewrite <- P2; apply (Hb 16); lia|]. split; [|done].
    change (cd_test d' (Z.shiftl 1 5) = true). rewrite (stored_bits _ _ _ 5 Hst) by lia. exact HDf.
Qed.

End OneDir.
