(* ===== verification/FragmentSafe.v ===== *)
(** * The protocol until its locks are granted (MDCache.cc)

    [split_dir], [merge_dir], the passes of [fragment_mark_and_complete], the end of a freeze,
    requests that wait for locks or are aborted, and the search for stale freezes, in any order
    and with other work on the fragments in between: no assert fails, and every entry of
    [fragments] owns fragments that are freezing or frozen for it alone. *)

From stdpp Require Import base tactics numbers list gmap sorting.
From Stdlib Require Import ZArith Lia Ascii.
From S2P Require Import Prelude Double Stats Inodes Subtree LoadVec Keys CacheObject Dentries Freeze Versions Commit CommitMachine Fetch Fragment DirFreeze Fragmenting FragmentFreeze.
Open Scope Z_scope.
Open Scope list_scope.

(** What is known of the tree of fragments: the fragments found under one that has leaves within
    it are there and within it, all the leaves within it are found, and a search that finds all
    finds some. *)
Class DirFragTreeOk (F G : Type) `{FragTree F} `{DirFragTree F G} : Prop := {
  under_sound : forall fg t l b r f f0, ft_dirfrags_under fg t l = (b, r) -> ft_is_leaf f0 t = true ->
    fg_contains fg f0 = true -> f ∈ r -> f ∈ l /\ fg_contains fg f = true;
  under_complete : forall fg t l b r f, ft_dirfrags_under fg t l = (b, r) -> f ∈ l -> fg_contains fg f = true ->
    ft_is_leaf f t = true -> f ∈ r;
  under_nodup : forall fg t l b r, ft_dirfrags_under fg t l = (b, r) -> NoDup l -> NoDup r;
  under_some : forall fg t l r, ft_dirfrags_under fg t l = (true, r) -> r <> []
}.

Section Safe.
Context {X T C R D F G S : Type} `{CephConst} `{UTime T} `{Bloom} `{CDouble D} `{DecayCounter C T R D}
  `{FragSplit F} `{DirentTypes} `{CDentryOps X} `{StoreOps S} `{Codec S T} `{CommitConst X}
  `{Countable F} `{KeyOrder F} `{FragTree F} `{DirFragTree F G} `{FragConst T D}
  `{FragContexts X} `{!DirFragTreeOk F G}.
Context (mark_bit : DN_STATE_FRAGMENTING <> 0).
Abbreviation sdir := (Fragment.sdir X T C F).
Abbreviation mcache := (mcache X T C F G S).
Abbreviation M := (M X T C F G S).
Abbreviation dinode := (dinode X T C F G).
Implicit Types s : sdir.
Implicit Types m : mcache.
Implicit Types i : dinode.

(** ** Loops over fragments *)

(** The fragments of [l], and no others, have changed; nothing else has, but inodes a commit
    wrote. *)
Record redirs (Q : sdir -> sdir -> Prop) (l : list Z) m m' : Prop := {
  rd_in : forall d, d ∈ l -> exists y s', mc_dirs m !! d = Some y /\
    mc_dirs m' !! d = Some (mk_mdir (md_inode y) s') /\ Q (md_dir y) s';
  rd_out : forall d, d ∉ l -> mc_dirs m' !! d = mc_dirs m !! d;
  rd_rest : set_objs (mc_objs m) (set_dirs (mc_dirs m) m') = m
}.

Lemma redirs_nil Q m : redirs Q [] m m.
Proof. split; [by intros d Hd%not_elem_of_nil|done|by destruct m]. Qed.

Lemma redirs_fields Q l m m' : redirs Q l m m' ->
  mc_inodes m' = mc_inodes m /\ fragments m' = fragments m /\ mc_reqs m' = mc_reqs m /\ mc_next m' = mc_next m.
Proof. intros [_ _ E]. destruct m, m'. cbn in E. by injection E as <- <- <- <- <- <- <-. Qed.

Lemma redirs_impl (Q Q' : sdir -> sdir -> Prop) l m m' :
  redirs Q l m m' -> (forall s s', Q s s' -> Q' s s') -> redirs Q' l m m'.
Proof. intros [A1 A2 A3] Hi. split; [|done|done]. intros d Hd. destruct (A1 d Hd) as (y & s' & B1 & B2 & B3). eauto 6. Qed.

Lemma at_other m d d' s' objs s i : d <> d' -> at_dir m d' s i -> at_dir (upd d s' (set_objs objs m)) d' s i.
Proof. intros N [(y & E & Es & Ei)]. split. exists y. split; [|done]. rewrite upd_other by done. exact E. Qed.

Lemma redirs_cons Q d l m s s' i objs m' :
  d ∉ l -> at_dir m d s i -> Q s s' -> redirs Q l (upd d s' (set_objs objs m)) m' -> redirs Q (d :: l) m m'.
Proof.
  intros Hd [(y & E & <- & Ei)] HQ [A1 A2 A3]. split.
  - intros d' [->|Hd']%elem_of_cons.
    + exists y, s'. split; [done|]. split; [|done]. rewrite A2 by done. by apply (upd_dir d s' (set_objs objs m)).
    + destruct (A1 d' Hd') as (y' & t & B1 & B2 & B3). exists y', t. split; [|done].
      rewrite upd_other in B1 by (by intros ->). exact B1.
  - intros d' [N Hn]%not_elem_of_cons. rewrite A2 by done. by rewrite upd_other.
  - transitivity (set_objs (mc_objs m) (set_dirs (mc_dirs m) (upd d s' (set_objs objs m)))); [|by destruct m].
    by rewrite <- A3.
Qed.

Lemma wp_each_dir (f : Z -> M unit) (Q : sdir -> sdir -> Prop) l m :
  NoDup l ->
  (forall d, d ∈ l -> exists s i, at_dir m d s i /\ forall m', at_dir m' d s i ->
     wp (f d) m' (fun _ m2 => exists s' objs, m2 = upd d s' (set_objs objs m') /\ Q s s')) ->
  wp (for_each f l) m (fun _ m' => redirs Q l m m').
Proof.
  revert m. induction l as [|d l IH]; intros m Hn Hf; [apply wp_ret, redirs_nil|].
  apply NoDup_cons in Hn as [Hd Hn]. destruct (Hf d) as (s & i & A & Hw); [by left|].
  apply wp_then. eapply wp_conseq; [by apply Hw|]. intros [] m1 (s' & objs & -> & HQ).
  eapply wp_conseq; [apply IH; [done|]|].
  - intros d' Hd'. destruct (Hf d') as (t & j & A' & Hw'); [by right|]. exists t, j. split; [|done].
    apply at_other; [by intros ->|done].
  - intros [] m' Rd. exact (redirs_cons Q d l m s s' i objs m' Hd A HQ Rd).
Qed.

Lemma wp_any_dir (f : Z -> M bool) (Q : bool -> sdir -> sdir -> Prop) l m :
  NoDup l ->
  (forall d, d ∈ l -> exists s i, at_dir m d s i /\ forall m', at_dir m' d s i ->
     wp (f d) m' (fun b m2 => exists s' objs, m2 = upd d s' (set_objs objs m') /\ Q b s s')) ->
  wp (any_each f l) m (fun b m' => redirs (fun s s' => exists b', Q b' s s' /\ (b = false -> b' = false)) l m m').
Proof.
  revert m. induction l as [|d l IH]; intros m Hn Hf; [apply wp_ret, redirs_nil|].
  apply NoDup_cons in Hn as [Hd Hn]. destruct (Hf d) as (s & i & A & Hw); [by left|].
  apply wp_then. eapply wp_conseq; [by apply Hw|]. intros b1 m1 (s' & objs & -> & HQ).
  apply wp_then. eapply wp_conseq; [apply IH; [done|]|].
  - intros d' Hd'. destruct (Hf d') as (t & j & A' & Hw'); [by right|]. exists t, j. split; [|done].
    apply at_other; [by intros ->|done].
  - intros b2 m' Rd. apply wp_ret. eapply (redirs_cons _ d l m s s' i objs); [done|done| |].
    + exists b1. split; [done|]. by intros [? _]%orb_false_iff.
    + eapply redirs_impl; [exact Rd|]. intros u v (b' & HQ' & Hb'). exists b'. split; [done|].
      intros [_ ?]%orb_false_iff. auto.
Qed.

(** ** The steps, for one fragment *)

(** A fragment in some phase, and one that is being changed. *)
Definition fresh s : bool := bool_decide (frag s = fg_root) && is_new (sd_dir s).
Definition settled s : Prop := sd_test s STATE_COMPLETE = true /\ fresh s = false.
Definition ok_dir s : Prop := exists ext p, frag_dir ext s /\ in_phase p ext s /\ (p = Marked -> settled s).
Definition busy s : Prop := exists ext p, frag_dir ext s /\ in_phase p ext s /\ (p = Marked -> settled s) /\ p <> Idle.
Definition all_marked s : Prop := exists ext, frag_dir ext s /\ in_phase Marked ext s /\ settled s.
Definition frozen s : Prop := is_frozen_dir (sd_fdir s) = true.

Lemma busy_ok s : busy s -> ok_dir s.
Proof. intros (ext & p & A & B & St & _). by exists ext, p. Qed.
Lemma busy_test s : busy s -> sd_test s STATE_FRAGMENTING = true.
Proof. intros (ext & p & _ & [A _ _] & _ & N). by destruct p. Qed.
Lemma settled_becomes s s' : becomes s s' -> settled s -> settled s'.
Proof.
  intros Be [A B]. split; [|by destruct Be as (x & -> & _)]. rewrite <- A. apply (becomes_test s s' 1); [done|lia..].
Qed.
Lemma ok_auth s : ok_dir s -> sd_is_auth s = true.
Proof. intros (ext & p & Gd & _). exact (cv_auth _ _ (gd_commit _ _ Gd)). Qed.
Lemma ok_busy s : ok_dir s -> sd_test s STATE_FRAGMENTING = true -> busy s.
Proof. intros (ext & p & A & B & St) E. exists ext, p. split_and!; [done..|]. intros ->. destruct B as [B _ _]. congruence. Qed.
Lemma marked_busy s : all_marked s -> busy s.
Proof. intros (ext & A & B & St). by exists ext, Marked. Qed.

(** The rest of the world: counters have room, the directory is linked and no snapshot data is
    to be purged. *)
Definition dir_world (n : Z) s i : Prop :=
  small_dir n s /\ linked i /\ purge_snaps (di_cenv i) (sd_fnode s) = None.

Lemma dir_world_evolves n k s s' i : dir_world n s i -> evolves k s s' -> dir_world (n - k) s' i.
Proof.
  intros (A1 & A2 & A3) Ev. split_and!; [by eapply evolves_small|done|]. by rewrite (ev_fnode _ _ _ Ev).
Qed.

Lemma set_objs_same m : set_objs (mc_objs m) m = m.
Proof. by destruct m. Qed.
Lemma upd_plain d s' m : upd d s' m = upd d s' (set_objs (mc_objs m) m).
Proof. by rewrite set_objs_same. Qed.
Lemma upd_same d s i m : at_dir m d s i -> m = upd d s (set_objs (mc_objs m) m).
Proof.
  intros [(y & E & <- & _)]. rewrite <- upd_plain. unfold upd, set_dirs. destruct m as [dirs]. cbn in *. f_equal.
  symmetry. apply map_eq. intros k. destruct (decide (d = k)) as [<-|N]; [|by rewrite lookup_alter_ne].
  rewrite lookup_alter_eq, E. by destruct y.
Qed.
Lemma set_objs_upd o d s m : set_objs o (upd d s m) = upd d s (set_objs o m).
Proof. by destruct m. Qed.
Lemma set_objs_twice o o' m : set_objs o (set_objs o' m) = set_objs o m.
Proof. by destruct m. Qed.

Definition idle s : Prop := exists ext, frag_dir ext s /\ in_phase Idle ext s.

Lemma freeze_step d s i m :
  at_dir m d s i -> idle s -> small_dir 8 s -> dir_is_frozen i s = false -> dir_is_freezing i s = false ->
  wp (freeze_one d) m (fun b m2 => exists s' objs, m2 = upd d s' (set_objs objs m) /\ evolves 4 s s' /\ busy s').
Proof.
  intros A (ext & Gd & Ph) Sm Hf Hg. eapply wp_conseq; [by eapply (freeze_one_ok 8)|].
  intros [] m2 (s' & -> & _ & Ev & Gd' & Ph'). exists s', (mc_objs m). split; [apply upd_plain|]. split; [done|].
  by exists (ext + 1), Marking.
Qed.

(** What giving up leaves of a fragment. *)
Record unmarked s s' : Prop := {
  un_evolves : evolves 4 s s';
  un_idle : idle s';
  un_thawed : thawed s';
  un_items : items_freed s s'
}.

Lemma unmark_step d s i m :
  at_dir m d s i -> busy s -> small_dir 8 s ->
  wp (unmark_one d) m (fun b m2 => exists s' objs, m2 = upd d s' (set_objs objs m) /\ unmarked s s').
Proof.
  intros A (ext & p & Gd & Ph & _ & N) Sm. pose proof (ph_marked _ _ _ Ph) as Pm. destruct p; [done| |].
  - eapply wp_conseq; [by eapply (unmark_marking 8)|]. intros [] m2 (s' & -> & _ & Ev & Gd' & Ph' & Th & Hi).
    exists s', (mc_objs m). split; [apply upd_plain|]. split; [done|by exists (ext - 1)|done|]. unfold items_freed. by rewrite Pm.
  - eapply wp_conseq; [by eapply (unmark_marked 8)|]. intros [] m2 (s' & -> & _ & Ev & Gd' & Ph' & Th & Hi).
    exists s', (mc_objs m). split; [apply upd_plain|]. split; [done|by exists ext|done|]. unfold items_freed. by rewrite Pm.
Qed.

Lemma frozen_marked s : busy s -> frozen s -> all_marked s.
Proof.
  intros (ext & p & Gd & Ph & St & N) Fz. destruct p; [done| |by exists ext; auto]. destruct Ph as [_ _ [HD _]].
  destruct (freezing_only _ _ Gd HD) as (_ & _ & E). unfold frozen in Fz. congruence.
Qed.

(** One pass of marking: when it leaves nothing to wait for, the fragment is marked. *)
Definition pass_ok (b : bool) s s' : Prop :=
  evolves 8 s s' /\ busy s' /\ (frozen s -> frozen s') /\ (b = false -> all_marked s').

Lemma wait_step mdr d s i m :
  at_dir m d s i -> busy s -> small_dir 8 s ->
  wp (wait_frozen_one mdr d) m (fun b m2 => exists s' objs, m2 = upd d s' (set_objs objs m) /\
    evolves 4 s s' /\ busy s' /\ (frozen s -> frozen s') /\ (b = false -> frozen s')).
Proof.
  intros A B Sm. pose proof B as (ext & p & Gd & Ph & St & N). unfold wait_frozen_one. eapply wp_the_dir; [exact A|].
  intros y -> _. destruct (is_frozen_dir (sd_fdir s)) eqn:Hf.
  - apply wp_ret. exists s, (mc_objs m). split; [by eapply upd_same|]. split_and!; [by apply evolves_refl|done|done|done].
  - apply wp_assert.
    { destruct p; [done| |]; destruct Ph as [_ _ P3]; [by destruct P3|]. destruct P3 as [P3|P3]; [done|congruence]. }
    apply wp_then. eapply wp_conseq; [eapply dir_wait_ok with (n := 8); done|]. intros [] m2 (s' & -> & Be & Ev & Gd' & Ph' & Hf').
    apply wp_ret. exists s', (mc_objs m). split; [apply upd_plain|].
    split_and!; [done|exists ext, p; split_and!; [done|done|eauto using settled_becomes|done]| |done].
    unfold frozen. congruence.
Qed.

Lemma mark_step d s i m ext :
  at_dir m d s i -> frag_dir ext s -> in_phase Marking ext s -> settled s -> small_dir 8 s ->
  wp (mark_dir d) m (fun _ m2 => exists s', m2 = upd d s' m /\ pass_ok false s s').
Proof.
  intros A Gd Ph St Sm. eapply wp_conseq; [eapply mark_dir_ok with (n := 8); done|].
  intros [] m2 (s' & -> & Be & Ev & Gd' & Ph' & _). exists s'. split; [done|].
  assert (all_marked s') as Am by (exists (ext - 1); split_and!; [done|done|by eapply settled_becomes]).
  split; [eapply evolves_mono; [done|lia]|]. split; [by apply marked_busy|]. split; [|done].
  destruct Ph as [_ _ [HD _]]. destruct (freezing_only _ _ Gd HD) as (_ & _ & E). unfold frozen. congruence.
Qed.

(** The part of a pass that may commit a new fragment. *)
Lemma store_step mdr d s i m ext :
  at_dir m d s i -> frag_dir ext s -> in_phase Marking ext s -> dir_world 8 s i -> fresh s = true ->
  wp (assertM (sd_test s STATE_DIRTY) ;; dir_commit (sub_marking mdr) d) m
    (fun _ m2 => exists s' objs, m2 = upd d s' (set_objs objs m) /\ evolves 4 s s' /\ frag_dir ext s' /\ in_phase Marking ext s').
Proof.
  intros A Gd Ph (Sm & Hl & Hp) Hf. apply andb_true_iff in Hf as [_ Hn]. destruct (gd_new _ _ Gd Hn) as [Hd _].
  apply wp_assert; [done|]. eapply dir_commit_ok with (n := 8); done.
Qed.

Lemma complete_step (env : menv T D) mdr d s i m :
  at_dir m d s i -> busy s -> dir_world 16 s i ->
  wp (complete_one env mdr d) m (fun b m2 => exists s' objs, m2 = upd d s' (set_objs objs m) /\ pass_ok b s s').
Proof.
  intros A B (Sm & Hl & Hp). pose proof B as (ext & p & Gd & Ph & St & N). unfold complete_one.
  assert (small_dir 8 s) as Sm8 by (destruct Sm as [A1 A2 A3 A4]; split; [lia|lia|done|intros k dn Hk; specialize (A4 k dn Hk); lia]).
  eapply wp_the_dir; [exact A|]. intros y -> _. destruct p; [done| |].
  2: { destruct (St eq_refl) as [E1 E2]. rewrite E1. cbn [negb]. apply wp_skip.
    eapply wp_the_dir; [exact A|]. intros y' -> _. change (bool_decide (frag s = fg_root) && is_new (sd_dir s)) with (fresh s).
    rewrite E2. apply wp_skip. cbn [orb]. apply wp_then. unfold mark_dir. eapply wp_the_dir; [exact A|]. intros y2 -> _.
    rewrite (ph_marked _ _ _ Ph). apply wp_ret, wp_ret. exists s, (mc_objs m). split; [by eapply upd_same|].
    split_and!; [by apply evolves_refl|done|done|]. intros _. exists ext. auto. }
  assert (~ frozen s) as Nf.
  { destruct Ph as [_ _ [HD _]]. destruct (freezing_only _ _ Gd HD) as (_ & _ & E). unfold frozen. congruence. }
  destruct (sd_test s STATE_COMPLETE) eqn:Ec; cbn [negb].
  - apply wp_skip. eapply wp_the_dir; [exact A|]. intros y' -> _.
    change (bool_decide (frag s = fg_root) && is_new (sd_dir s)) with (fresh s). destruct (fresh s) eqn:Ef; cbn [orb].
    + apply wp_then. eapply wp_conseq; [by eapply store_step|]. intros [] m2 (s' & objs & -> & Ev & Gd' & Ph').
      apply wp_skip, wp_ret. exists s', objs. split; [done|]. split_and!; [by eapply evolves_mono|by exists ext, Marking|done|done].
    + apply wp_skip, wp_then. eapply wp_conseq; [by eapply mark_step|]. intros [] m2 (s' & -> & Pk). apply wp_ret.
      exists s', (mc_objs m). split; [apply upd_plain|done].
  - apply wp_then. eapply wp_conseq; [eapply dir_fetch_ok with (n := 8); done|]. intros [] m1 (s1 & ext1 & -> & Ev & Gd1 & Ph1).
    apply (at_upd _ _ _ _ s1) in A. eapply wp_the_dir; [exact A|]. intros y' -> _.
    change (bool_decide (frag s1 = fg_root) && is_new (sd_dir s1)) with (fresh s1). cbn [orb].
    assert (dir_world 8 s1 i) as W1.
    { destruct (dir_world_evolves 16 4 s s1 i) as (W1 & W2 & W3); [done|done|]. split_and!; [|done|done].
      destruct W1 as [A1 A2 A3 A4]; split; [lia|lia|done|intros k dn Hk; specialize (A4 k dn Hk); lia]. }
    destruct (fresh s1) eqn:Ef.
    + apply wp_then. eapply wp_conseq; [by eapply store_step|]. intros [] m2 (s' & objs & -> & Ev' & Gd' & Ph').
      apply wp_skip, wp_ret. exists s', objs. rewrite set_objs_upd, upd_upd. split; [done|].
      split_and!; [exact (evolves_trans 4 4 _ _ _ Ev Ev')|by exists ext1, Marking|done|done].
    + apply wp_skip, wp_skip, wp_ret. exists s1, (mc_objs m). split; [apply upd_plain|].
      split_and!; [by eapply evolves_mono|by exists ext1, Marking|done|done].
Qed.

(** ** The invariant *)

(** An entry: its fragments are changed for it, they are the fragment to be split or lie within
    the one to be merged into, and its request is there. *)
Record entry_ok m (base : dirfrag_t F) (info : fragment_info_t T) : Prop := {
  eo_some : fi_dirs info <> [];
  eo_nodup : NoDup (fi_dirs info);
  eo_results : fi_resultfrags info = [];
  eo_dirs : forall d, d ∈ fi_dirs info -> exists y, mc_dirs m !! d = Some y /\ md_inode y = df_ino base /\ busy (md_dir y);
  eo_frozen : fi_all_frozen info = true -> forall d y, d ∈ fi_dirs info -> mc_dirs m !! d = Some y -> frozen (md_dir y);
  eo_req : exists rq, mc_reqs m !! fi_mdr info = Some rq /\ fragment_base rq = base;
  eo_frag : (exists d y, fi_dirs info = [d] /\ mc_dirs m !! d = Some y /\ frag (md_dir y) = df_frag base) \/
    exists i, mc_inodes m !! df_ino base = Some i /\ ft_is_leaf (df_frag base) (dirfragtree i) = false /\
      forall d y, d ∈ fi_dirs info -> mc_dirs m !! d = Some y -> fg_contains (df_frag base) (frag (md_dir y)) = true
}.

Record dirs_ok m : Prop := {
  dk_dirs : forall d y, mc_dirs m !! d = Some y -> exists i, mc_inodes m !! md_inode y = Some i /\
    dirfrags i !! frag (md_dir y) = Some d /\ ft_is_leaf (frag (md_dir y)) (dirfragtree i) = true;
  dk_frags : forall ino i f d, mc_inodes m !! ino = Some i -> dirfrags i !! f = Some d ->
    exists y, mc_dirs m !! d = Some y /\ md_inode y = ino /\ frag (md_dir y) = f;
  dk_auth : forall d y, mc_dirs m !! d = Some y -> sd_is_auth (md_dir y) = true -> ok_dir (md_dir y)
}.

Record fragmenting_inv m : Prop := {
  fv_dirs : dirs_ok m;
  fv_entry : forall base info, fragments m !! base = Some info -> entry_ok m base info;
  fv_disjoint : forall b1 b2 f1 f2 d, fragments m !! b1 = Some f1 -> fragments m !! b2 = Some f2 ->
    d ∈ fi_dirs f1 -> d ∈ fi_dirs f2 -> b1 = b2;
  fv_reqs : forall r rq, mc_reqs m !! r = Some rq -> r < mc_next m
}.

(** The rest of the world, for all fragments; those that are not the root have a parent. *)
Definition world (n : Z) m : Prop := forall d s i, at_dir m d s i -> dir_world n s i.
Definition has_parents m : Prop := forall d y i, mc_dirs m !! d = Some y -> mc_inodes m !! md_inode y = Some i ->
  di_root i = true \/ is_Some (get_parent_dir m (md_inode y)).

Lemma small_le n k s : small_dir n s -> k <= n -> small_dir k s.
Proof. intros [A1 A2 A3 A4] Hk. split; [lia|lia|done|]. intros j dn Hj. specialize (A4 j dn Hj). lia. Qed.
Lemma world_le n k m : world n m -> k <= n -> world k m.
Proof. intros W Hk d s i A. destruct (W d s i A) as (W1 & W2 & W3). split_and!; [by eapply small_le|done|done]. Qed.

Lemma dirs_at m d y : dirs_ok m -> mc_dirs m !! d = Some y -> exists i, at_dir m d (md_dir y) i /\ mc_inodes m !! md_inode y = Some i.
Proof. intros Dk E. destruct (dk_dirs m Dk d y E) as (i & Ei & _). exists i. split; [|done]. split. by exists y. Qed.

(** *** Parents *)

Lemma parent_spec m ino : is_Some (get_parent_dir m ino) <->
  exists d y, mc_dirs m !! d = Some y /\ holds_primary ino (md_dir y) = true.
Proof.
  unfold get_parent_dir. split.
  - intros [p Hp]. apply fmap_Some in Hp as ([d y] & Hh & _). apply head_Some_elem_of in Hh.
    apply list_elem_of_filter in Hh as [Hh Hd%elem_of_ordered]. eauto.
  - intros (d & y & Hd & Hh). assert ((d, y) ∈ filter (fun p => holds_primary ino (md_dir (snd p)) = true) (ordered (mc_dirs m))) as Hf.
    { apply list_elem_of_filter. split; [done|by apply elem_of_ordered]. }
    destruct (filter _ _) as [|p l]; [by apply not_elem_of_nil in Hf|]. by eexists.
Qed.

Lemma parent_in m ino p : get_parent_dir m ino = Some p -> exists y, mc_dirs m !! p = Some y.
Proof.
  unfold get_parent_dir. intros Hp. apply fmap_Some in Hp as ([d y] & Hh & ->). apply head_Some_elem_of in Hh.
  apply list_elem_of_filter in Hh as [_ Hd%elem_of_ordered]. by exists y.
Qed.

Lemma holds_spec ino s : holds_primary ino s = true <-> exists k dn, sd_items s !! k = Some dn /\ dn_linkage dn = LPrimary ino.
Proof.
  unfold holds_primary. rewrite existsb_exists. split.
  - intros ([k dn] & Hk%list_elem_of_In%elem_of_ordered & Hl). exists k, dn. split; [done|].
    cbn in Hl. destruct (dn_linkage dn); try done. apply Z.eqb_eq in Hl. by subst.
  - intros (k & dn & Hk & Hl). exists (k, dn). split; [by apply list_elem_of_In, elem_of_ordered|]. cbn. rewrite Hl. apply Z.eqb_refl.
Qed.

Lemma evolves_holds ino n s s' : evolves n s s' -> holds_primary ino s' = true -> holds_primary ino s = true.
Proof.
  intros Ev (k & dn & Hk & Hl)%holds_spec. apply holds_spec.
  destruct (all_changed_at _ _ _ _ _ (ev_dns _ _ _ Ev) Hk) as (dn' & Hk' & El & _). exists k, dn'. split; [done|congruence].
Qed.

Lemma holds_evolves ino n s s' : evolves n s s' -> holds_primary ino s = true -> holds_primary ino s' = true.
Proof.
  intros Ev (k & dn & Hk & Hl)%holds_spec. apply holds_spec.
  destruct (all_changed_from _ _ _ _ _ (ev_dns _ _ _ Ev) Hk) as (dn' & Hk' & El & _). exists k, dn'. split; [done|congruence].
Qed.

Lemma head_filter_least (P : Z * mdir X T C F -> Prop) `{!forall p, Decision (P p)} l p : StronglySorted bind_le l ->
  head (filter P l) = Some p <-> (p ∈ l /\ P p) /\ head (filter P l) = Some p /\ forall q, q ∈ l -> P q -> fst p <= fst q.
Proof.
  intros Hs. split; [|tauto]. intros Hh. pose proof (head_Some_elem_of _ _ Hh) as Hp. apply list_elem_of_filter in Hp as [Pp Hp].
  split; [done|]. split; [done|]. clear Hp Pp. induction Hs as [|b l Hs IH Ha]; [done|]. rewrite filter_cons in Hh.
  intros q [->|Hq]%elem_of_cons Pq; destruct (decide (P b)) as [Hb|Hb].
  - by injection Hh as <-.
  - done.
  - injection Hh as <-. pose proof (Forall_elem _ _ _ Ha Hq) as Hle. unfold bind_le, k_leb, Z_order in Hle. lia.
  - by apply IH.
Qed.

Lemma parent_least m ino p : get_parent_dir m ino = Some p <->
  (exists y, mc_dirs m !! p = Some y /\ holds_primary ino (md_dir y) = true) /\
  forall d y, mc_dirs m !! d = Some y -> holds_primary ino (md_dir y) = true -> p <= d.
Proof.
  unfold get_parent_dir. set (P := fun p : Z * mdir X T C F => holds_primary ino (md_dir (snd p)) = true). split.
  - intros ([d y] & Hh & ->)%fmap_Some. apply (head_filter_least P) in Hh as ([Hd Hp] & _ & Hl); [|apply ordered_sorted].
    split; [exists y; split; [by apply elem_of_ordered|done]|]. intros d' y' Hd' Hh'. by apply (Hl (d', y')); [apply elem_of_ordered|].
  - intros [(y & Hy & Hh) Hl]. destruct (head (filter P (ordered (mc_dirs m)))) as [[d z]|] eqn:E.
    + cbn. f_equal. apply (head_filter_least P) in E as ([Hd Hp] & _ & Hm); [|apply ordered_sorted]. apply elem_of_ordered in Hd.
      apply Z.le_antisymm; [by apply (Hm (p, y)); [apply elem_of_ordered|]|by apply (Hl d z)].
    + apply head_None in E. assert ((p, y) ∈ filter P (ordered (mc_dirs m))) as Hin
        by (apply list_elem_of_filter; split; [done|by apply elem_of_ordered]). rewrite E in Hin. by apply not_elem_of_nil in Hin.
Qed.

(** *** The loops *)

Section Redirs.
Context (n : Z) (Q : sdir -> sdir -> Prop) (l : list Z) (m m' : mcache).
Context (HQ : forall s s', Q s s' -> evolves n s s') (Hn : 0 <= n) (Rd : redirs Q l m m').

(** A fragment afterwards is the same, or one of those changed. *)
Lemma redirs_back d y : mc_dirs m' !! d = Some y ->
  exists y0, mc_dirs m !! d = Some y0 /\ md_inode y = md_inode y0 /\
    (((d ∉ l) /\ y = y0) \/ ((d ∈ l) /\ Q (md_dir y0) (md_dir y))).
Proof.
  intros E. destruct (decide (d ∈ l)) as [Hd|Hd].
  - destruct (rd_in _ _ _ _ Rd d Hd) as (y0 & s' & E0 & E1 & HQ'). rewrite E in E1. injection E1 as ->.
    exists y0. split_and!; [done|done|]. by right.
  - exists y. rewrite (rd_out _ _ _ _ Rd d Hd) in E. split_and!; [done|done|]. by left.
Qed.

Lemma redirs_forth d y0 : mc_dirs m !! d = Some y0 ->
  exists y, mc_dirs m' !! d = Some y /\ md_inode y = md_inode y0 /\ evolves n (md_dir y0) (md_dir y).
Proof.
  intros E. destruct (decide (d ∈ l)) as [Hd|Hd].
  - destruct (rd_in _ _ _ _ Rd d Hd) as (y1 & s' & E0 & E1 & HQ'). rewrite E in E0. injection E0 as <-.
    eexists. split; [exact E1|]. split; [done|]. by apply HQ.
  - exists y0. rewrite (rd_out _ _ _ _ Rd d Hd). split_and!; [done|done|by apply evolves_refl].
Qed.

Lemma redirs_evolves d y y0 : mc_dirs m' !! d = Some y -> mc_dirs m !! d = Some y0 -> evolves n (md_dir y0) (md_dir y).
Proof. intros E E0. destruct (redirs_forth d y0 E0) as (y1 & E1 & _ & Ev). congruence. Qed.

Lemma redirs_world k : world k m -> world (k - n) m'.
Proof.
  intros W d s i [(y & E & <- & Ei)]. destruct (redirs_back d y E) as (y0 & E0 & Eo & _).
  destruct (redirs_fields _ _ _ _ Rd) as (Fi & _). rewrite Fi, Eo in Ei.
  apply (dir_world_evolves k n (md_dir y0)); [|by apply (redirs_evolves d)]. apply (W d). split. by exists y0.
Qed.

Lemma redirs_parents : has_parents m -> has_parents m'.
Proof.
  intros Hp d y i E Ei. destruct (redirs_back d y E) as (y0 & E0 & Eo & _).
  destruct (redirs_fields _ _ _ _ Rd) as (Fi & _). rewrite Fi, Eo in Ei. destruct (Hp d y0 i E0 Ei) as [Hr|Hs]; [by left|right].
  rewrite Eo. apply parent_spec in Hs as (p & z & Ez & Hh). apply parent_spec.
  destruct (redirs_forth p z Ez) as (z' & Ez' & _ & Ev). exists p, z'. split; [done|]. by eapply holds_evolves.
Qed.

Lemma redirs_parent ino : get_parent_dir m' ino = get_parent_dir m ino.
Proof.
  apply option_eq. intros p. rewrite !parent_least. split; intros [(y & Ey & Hh) Hl]; split.
  - destruct (redirs_back p y Ey) as (y0 & E0 & _). exists y0. split; [done|].
    exact (evolves_holds ino n _ _ (redirs_evolves p y y0 Ey E0) Hh).
  - intros d z Ez Hz. destruct (redirs_forth d z Ez) as (z' & Ez' & _ & Ev). apply (Hl d z' Ez'). by eapply holds_evolves.
  - destruct (redirs_forth p y Ey) as (y' & Ey' & _ & Ev). exists y'. split; [done|]. by eapply holds_evolves.
  - intros d z Ez Hz. destruct (redirs_back d z Ez) as (z0 & E0 & _). apply (Hl d z0 E0).
    exact (evolves_holds ino n _ _ (redirs_evolves d z z0 Ez E0) Hz).
Qed.

Lemma redirs_dirs : dirs_ok m -> (forall s s', Q s s' -> ok_dir s') -> dirs_ok m'.
Proof.
  intros [A1 A2 A3] Ho. destruct (redirs_fields _ _ _ _ Rd) as (Fi & _). split.
  - intros d y E. destruct (redirs_back d y E) as (y0 & E0 & Eo & _). rewrite Fi, Eo.
    rewrite (ev_frag _ _ _ (redirs_evolves d y y0 E E0)). by apply A1.
  - intros ino i f d. rewrite Fi. intros Ei Ef. destruct (A2 ino i f d Ei Ef) as (y0 & E0 & B1 & B2).
    destruct (redirs_forth d y0 E0) as (y & E & Eo & Ev). exists y. split_and!; [done|congruence|]. by rewrite (ev_frag _ _ _ Ev).
  - intros d y E Ha. destruct (redirs_back d y E) as (y0 & E0 & Eo & [[_ ->]|[_ HQ']]); [by apply (A3 d)|by eapply Ho].
Qed.

(** Entries whose fragments keep what the entry needs. *)
Lemma redirs_entry base info : entry_ok m base info ->
  (forall d y0 y, d ∈ fi_dirs info -> d ∈ l -> mc_dirs m !! d = Some y0 -> mc_dirs m' !! d = Some y ->
     Q (md_dir y0) (md_dir y) -> busy (md_dir y) /\ (frozen (md_dir y0) -> frozen (md_dir y))) ->
  entry_ok m' base info.
Proof.
  intros [A1 A2 A3 A4 A5 A6 A7] Hk. destruct (redirs_fields _ _ _ _ Rd) as (Fi & _ & Fr & _).
  assert (forall d y, d ∈ fi_dirs info -> mc_dirs m' !! d = Some y -> exists y0, mc_dirs m !! d = Some y0 /\
    md_inode y = md_inode y0 /\ evolves n (md_dir y0) (md_dir y) /\ busy (md_dir y) /\ (frozen (md_dir y0) -> frozen (md_dir y))) as Hb.
  { intros d y Hd E. destruct (redirs_back d y E) as (y0 & E0 & Eo & Hc). exists y0. split; [done|]. split; [done|].
    split; [by apply (redirs_evolves d)|]. destruct Hc as [[_ ->]|[Hl HQ']]; [|by apply (Hk d y0 y)].
    destruct (A4 d Hd) as (z & Ez & _ & Bz). rewrite E0 in Ez. injection Ez as <-. done. }
  assert (forall d y0, d ∈ fi_dirs info -> mc_dirs m !! d = Some y0 -> exists y, mc_dirs m' !! d = Some y) as Hf.
  { intros d y0 _ E0. destruct (redirs_forth d y0 E0) as (y & E & _). eauto. }
  split; [done|done|done| | |by rewrite Fr|].
  - intros d Hd. destruct (A4 d Hd) as (y0 & E0 & B1 & B2). destruct (Hf d y0 Hd E0) as (y & E). exists y.
    destruct (Hb d y Hd E) as (z & Ez & Eo & _ & By & _). split_and!; [done|congruence|done].
  - intros Ha d y Hd E. destruct (Hb d y Hd E) as (y0 & E0 & _ & _ & _ & Hz). by eapply Hz, A5.
  - destruct A7 as [(d & y0 & Ed & E0 & Ef)|(i & Ei & Hl & Hc)]; [left|right].
    + destruct (Hf d y0) as (y & E); [rewrite Ed; by left|done|]. exists d, y. split_and!; [done|done|].
      by rewrite (ev_frag _ _ _ (redirs_evolves d y y0 E E0)).
    + exists i. rewrite Fi. split_and!; [done|done|]. intros d y Hd E. destruct (Hb d y Hd E) as (y0 & E0 & _ & Ev & _).
      rewrite (ev_frag _ _ _ Ev). by apply (Hc d).
Qed.

End Redirs.

(** ** The handlers keep the invariant *)

Lemma wp_emit_end es m (Q : unit -> mcache -> Prop) : Q tt m -> wp (emit es) m Q.
Proof. intros HQ. by exists tt, m, es. Qed.
Lemma wp_modify_end f m (Q : unit -> mcache -> Prop) : Q tt (f m) -> wp (modify f) m Q.
Proof. intros HQ. by exists tt, (f m), []. Qed.

(** What the invariant reads of the cache. *)
Lemma entry_ok_same m m' base info : mc_dirs m' = mc_dirs m -> mc_inodes m' = mc_inodes m -> mc_reqs m' = mc_reqs m ->
  entry_ok m base info -> entry_ok m' base info.
Proof. intros E1 E2 E3 [A1 A2 A3 A4 A5 A6 A7]. by split; rewrite ?E1, ?E2, ?E3. Qed.
Lemma dirs_ok_same m m' : mc_dirs m' = mc_dirs m -> mc_inodes m' = mc_inodes m -> dirs_ok m -> dirs_ok m'.
Proof. intros E1 E2 [A1 A2 A3]. by split; rewrite ?E1, ?E2. Qed.
Lemma world_same n m m' : mc_dirs m' = mc_dirs m -> mc_inodes m' = mc_inodes m -> world n m -> world n m'.
Proof. intros E1 E2 W d s i [(y & A1 & A2 & A3)]. rewrite E1 in A1. rewrite E2 in A3. apply (W d). split. by exists y. Qed.

Lemma current_inv m mdr base info : current mdr m = Some (base, info) ->
  exists rq, mc_reqs m !! mdr = Some rq /\ fragment_base rq = base /\ fragments m !! base = Some info /\ fi_mdr info = mdr.
Proof.
  unfold current. destruct (mc_reqs m !! mdr) as [rq|]; [|done]. destruct (fragments m !! _) as [info'|] eqn:E; [|done].
  destruct (Z.eqb_spec (fi_mdr info') mdr); [|done]. intros [= <- <-]. by exists rq.
Qed.

Lemma inv_put_req m mdr rq rq' : fragmenting_inv m -> mc_reqs m !! mdr = Some rq -> fragment_base rq' = fragment_base rq ->
  fragmenting_inv (set_reqs (<[mdr := rq']> (mc_reqs m)) m).
Proof.
  intros [A1 A2 A3 A4] E Eb. split; [by apply (dirs_ok_same m)| |done|].
  - intros base info Hf. destruct (A2 base info Hf) as [B1 B2 B3 B4 B5 (rq0 & Er & Ef) B7]. split; try done.
    cbn. destruct (decide (mdr = fi_mdr info)) as [Ed|N]; [|by rewrite lookup_insert_ne; eauto].
    rewrite <- Ed in Er |- *. rewrite lookup_insert_eq. exists rq'. split; [done|]. congruence.
  - intros r rq0. cbn. destruct (decide (mdr = r)) as [<-|N]; [intros _; by apply (A4 mdr rq)|].
    rewrite lookup_insert_ne by done. apply A4.
Qed.

Lemma idle_ok s : idle s -> ok_dir s.
Proof. intros (ext & A & B). by exists ext, Idle. Qed.

(** The fragments of an entry that is gone are released. *)
Lemma cancel_ok m base info m' : fragmenting_inv m -> fragments m !! base = Some info ->
  redirs unmarked (fi_dirs info) (set_fragments (delete base (fragments m)) m) m' -> fragmenting_inv m'.
Proof.
  intros [A1 A2 A3 A4] Hi Rd. destruct (redirs_fields _ _ _ _ Rd) as (Fi & Ff & Fr & Fn). cbn in Fi, Ff, Fr, Fn.
  set (m0 := set_fragments (delete base (fragments m)) m) in *. split.
  - apply (redirs_dirs 4 unmarked (fi_dirs info) m0); [apply un_evolves|done|done|by apply (dirs_ok_same m)|].
    intros s s' Un. apply idle_ok, Un.
  - intros b f. rewrite Ff. intros [N Hf]%lookup_delete_Some.
    apply (redirs_entry 4 unmarked (fi_dirs info) m0 m'); [apply un_evolves|done|done|by apply (entry_ok_same m), A2|].
    intros d y0 y Hd Hd' _ _ _. by destruct N; apply (A3 base b info f d).
  - intros b1 b2 f1 f2 d. rewrite Ff. intros [_ H1']%lookup_delete_Some [_ H2']%lookup_delete_Some. by apply (A3 b1 b2 f1 f2 d).
  - intros r rq. rewrite Fr, Fn. apply A4.
Qed.

Lemma redirs_erase Q l m m' fr : redirs Q l m m' -> redirs Q l (set_fragments fr m) (set_fragments fr m').
Proof. intros [B1 B2 B3]. split; [done|done|]. rewrite <- B3. by destruct m'. Qed.

(** Room in the counters of the fragments that are being changed. *)
Definition entries_small m : Prop := forall b f d s i, fragments m !! b = Some f -> d ∈ fi_dirs f -> at_dir m d s i -> small_dir 8 s.

Lemma world_entries n m : world n m -> 8 <= n -> entries_small m.
Proof. intros W Hn b f d s i _ _ A. destruct (W d s i A) as (Ws & _). by apply (small_le n). Qed.

Lemma unmark_all m base info : fragmenting_inv m -> entries_small m -> fragments m !! base = Some info ->
  forall fr, wp (fragment_unmark_unfreeze_dirs (fi_dirs info)) (set_fragments fr m)
    (fun _ m' => redirs unmarked (fi_dirs info) (set_fragments fr m) m').
Proof.
  intros I W Hi fr. destruct (fv_entry _ I _ _ Hi) as [B1 B2 B3 B4 B5 B6 B7]. apply wp_each_dir; [done|].
  intros d Hd. destruct (B4 d Hd) as (y & E & Eo & Bz). destruct (dirs_at m d y (fv_dirs _ I) E) as (i & [A] & _).
  exists (md_dir y), i. split; [by split|]. intros m1 A1. apply (unmark_step d (md_dir y) i m1); [done|done|].
  apply (W base info d (md_dir y) i); [done|done|by split].
Qed.

Lemma front_ok {B} (l : list Z) (k : Z -> M B) m (Q : B -> mcache -> Prop) :
  l <> [] -> (forall d, d ∈ l -> wp (k d) m Q) -> wp (front l ≫= k) m Q.
Proof. intros N HQ. destruct l as [|d l]; [done|]. eapply wp_the; [done|]. apply HQ. by left. Qed.

Lemma abandon_frees mdr m base info : fragmenting_inv m -> entries_small m -> fragments m !! base = Some info ->
  wp (abandon mdr base info) m (fun _ m' =>
    redirs unmarked (fi_dirs info) (set_fragments (delete base (fragments m)) m) m').
Proof.
  intros I W Hi. unfold abandon. apply front_ok; [apply (fv_entry _ I _ _ Hi)|]. intros d Hd. apply wp_emit, wp_then.
  assert (m = set_fragments (fragments m) m) as Em by (by destruct m). rewrite Em.
  eapply wp_conseq; [by apply (unmark_all m base)|]. intros [] m1 Rd. rewrite <- Em in Rd.
  apply wp_change. apply wp_emit_end. destruct (redirs_fields _ _ _ _ Rd) as (_ & Ff & _). rewrite Ff. exact (redirs_erase _ _ _ _ (delete base (fragments m)) Rd).
Qed.

Lemma abandon_ok mdr m base info : fragmenting_inv m -> world 8 m -> fragments m !! base = Some info ->
  wp (abandon mdr base info) m (fun _ m' => fragmenting_inv m').
Proof.
  intros I W Hi. eapply wp_conseq; [by apply abandon_frees; [|eapply world_entries|]|]. intros [] m' Rd. by eapply cancel_ok.
Qed.

Lemma dispatch_ok (env : menv T D) ab mdr m : fragmenting_inv m -> world 8 m ->
  wp (dispatch_fragment_dir env (false, ab) mdr) m (fun _ m' => fragmenting_inv m').
Proof.
  intros I W. unfold dispatch_fragment_dir. apply wp_cache. destruct (current mdr m) as [[base info]|] eqn:Ec; [|by apply wp_emit_end].
  destruct (current_inv _ _ _ _ Ec) as (rq & Er & Eb & Hi & Em). pose proof (fv_entry _ I _ _ Hi) as Eo.
  apply front_ok; [apply Eo|]. intros d Hd. destruct (eo_dirs _ _ _ Eo d Hd) as (y & E & _).
  eapply wp_dir; [done|]. eapply wp_req; [done|]. apply wp_change.
  pose proof (inv_put_req m mdr rq (set_aborted (if aborted rq then true else snd (false, ab)) rq) I Er eq_refl) as I'.
  assert (world 8 (set_reqs (<[mdr := set_aborted (if aborted rq then true else snd (false, ab)) rq]> (mc_reqs m)) m)) as W'
    by (by apply (world_same 8 m)).
  destruct (aborted rq); [by apply abandon_ok|]. destruct ab; cbn [negb andb fst snd]; [by apply abandon_ok|by apply wp_ret].
Qed.

Lemma inv_put_info m base info info' : fragmenting_inv m -> fragments m !! base = Some info ->
  fi_dirs info' = fi_dirs info -> fi_resultfrags info' = fi_resultfrags info -> fi_mdr info' = fi_mdr info ->
  (fi_all_frozen info' = true -> forall d y, d ∈ fi_dirs info -> mc_dirs m !! d = Some y -> frozen (md_dir y)) ->
  fragmenting_inv (set_fragments (<[base := info']> (fragments m)) m).
Proof.
  intros [A1 A2 A3 A4] Hi E1 E2 E3 Hz. split; [by apply (dirs_ok_same m)| | |done].
  - intros b f. cbn. destruct (decide (base = b)) as [<-|N]; [rewrite lookup_insert_eq; intros [= <-]|].
    + destruct (A2 base info Hi) as [B1 B2 B3 B4 B5 B6 B7]. by split; rewrite ?E1, ?E2, ?E3.
    + rewrite lookup_insert_ne by done. intros Hf. by apply (entry_ok_same m), A2.
  - assert (forall b f, <[base := info']> (fragments m) !! b = Some f -> exists f0, fragments m !! b = Some f0 /\ fi_dirs f0 = fi_dirs f) as Hb.
    { intros b f. destruct (decide (base = b)) as [<-|N]; [rewrite lookup_insert_eq; intros [= <-]; by exists info|].
      rewrite lookup_insert_ne by done. eauto. }
    intros b1 b2 f1 f2 d (g1 & G1 & Gd1)%Hb (g2 & G2 & Gd2)%Hb. rewrite <- Gd1, <- Gd2. by apply A3.
Qed.

Definition all_frozen_at m (l : list Z) : Prop := forall d y, d ∈ l -> mc_dirs m !! d = Some y -> frozen (md_dir y).

Lemma frozen_ok (env : menv T D) ab mdr r m : fragmenting_inv m -> world 8 m ->
  (forall base info, current mdr m = Some (base, info) -> r = 0 /\ all_frozen_at m (fi_dirs info)) ->
  wp (fragment_frozen env (false, ab) mdr r) m (fun _ m' => fragmenting_inv m').
Proof.
  intros I W Hr. unfold fragment_frozen. apply wp_cache. destruct (current mdr m) as [[base info]|] eqn:Ec; [|by apply wp_emit_end].
  destruct (Hr base info eq_refl) as [-> Hz]. destruct (current_inv _ _ _ _ Ec) as (rq & Er & Eb & Hi & Em).
  apply wp_assert; [done|]. apply wp_change. apply dispatch_ok; [|by apply (world_same 8 m)].
  by apply (inv_put_info m base info (set_frozen info)).
Qed.

(** A pass over the fragments of an entry that keeps them changed and frozen. *)
Lemma pass_inv k Q m m' base info : fragmenting_inv m -> fragments m !! base = Some info ->
  redirs Q (fi_dirs info) m m' ->
  (forall s s', Q s s' -> evolves k s s' /\ busy s' /\ (frozen s -> frozen s')) -> 0 <= k -> fragmenting_inv m'.
Proof.
  intros [A1 A2 A3 A4] Hi Rd HQ Hk. destruct (redirs_fields _ _ _ _ Rd) as (Fi & Ff & Fr & Fn).
  assert (forall s s', Q s s' -> evolves k s s') as Ev by (intros s s' Hs; by apply HQ). split.
  - apply (redirs_dirs k Q (fi_dirs info) m); [done..|]. intros s s' Hs. by apply busy_ok, (HQ s).
  - intros b f. rewrite Ff. intros Hf. apply (redirs_entry k Q (fi_dirs info) m m'); [done|done|done|by apply A2|].
    intros d y0 y _ _ _ _ Hs. by apply HQ.
  - intros b1 b2 f1 f2 d. rewrite Ff. apply A3.
  - intros r rq. rewrite Fr, Fn. apply A4.
Qed.

Lemma entry_at m base info d n : fragmenting_inv m -> world n m -> fragments m !! base = Some info -> d ∈ fi_dirs info ->
  exists s i, at_dir m d s i /\ busy s /\ dir_world n s i.
Proof.
  intros I W Hi Hd. destruct (eo_dirs _ _ _ (fv_entry _ I _ _ Hi) d Hd) as (y & E & _ & Bz).
  destruct (dirs_at m d y (fv_dirs _ I) E) as (i & A & _). exists (md_dir y), i. split_and!; [done|done|by apply (W d)].
Qed.

Lemma redirs_all Q l m m' d y : redirs Q l m m' -> d ∈ l -> mc_dirs m' !! d = Some y -> exists s, Q s (md_dir y).
Proof.
  intros Rd Hd E. destruct (rd_in _ _ _ _ Rd d Hd) as (y0 & s' & _ & E1 & HQ). rewrite E in E1. injection E1 as ->. by exists (md_dir y0).
Qed.

Lemma current_redirs Q l m m' mdr : redirs Q l m m' -> current mdr m' = current mdr m.
Proof. intros Rd. destruct (redirs_fields _ _ _ _ Rd) as (_ & Ff & Fr & _). unfold current. by rewrite Ff, Fr. Qed.

Lemma mark_ok (env : menv T D) ab mdr m : fragmenting_inv m -> world 24 m ->
  wp (fragment_mark_and_complete env (false, ab) mdr) m (fun _ m' => fragmenting_inv m').
Proof.
  intros I W. unfold fragment_mark_and_complete. apply wp_cache.
  destruct (current mdr m) as [[base info]|] eqn:Ec; [|by apply wp_emit_end].
  destruct (current_inv _ _ _ _ Ec) as (rq & Er & Eb & Hi & Em). pose proof (fv_entry _ I _ _ Hi) as Eo. apply wp_then.
  eapply wp_conseq; [apply (wp_any_dir (complete_one env mdr) pass_ok); [apply Eo|]|].
  { intros d Hd. destruct (entry_at m base info d 24 I W Hi Hd) as (s & i & A & Bz & Wd). exists s, i. split; [done|].
    intros m1 A1. apply (complete_step env mdr d s i m1); [done|done|]. destruct Wd as (W1 & W2 & W3).
    split_and!; [by eapply small_le|done|done]. }
  intros b m1 Rd. set (Q1 := fun s s' => exists b', pass_ok b' s s' /\ (b = false -> b' = false)) in Rd.
  assert (forall s s', Q1 s s' -> evolves 8 s s' /\ busy s' /\ (frozen s -> frozen s')) as H1' by (by intros s s' (b' & (? & ? & ? & _) & _)).
  pose proof (pass_inv 8 Q1 m m1 base info I Hi Rd H1' ltac:(lia)) as I1.
  assert (world 16 m1) as W1 by (apply (redirs_world 8 Q1 (fi_dirs info) m m1 ltac:(intros; by apply H1') ltac:(lia) Rd 24); done).
  destruct b; [by apply wp_emit_end|].
  assert (fragments m1 !! base = Some info) as Hi1 by (destruct (redirs_fields _ _ _ _ Rd) as (_ & -> & _); done).
  apply wp_then. eapply wp_conseq; [apply (wp_any_dir (wait_frozen_one mdr)
    (fun b s s' => evolves 4 s s' /\ busy s' /\ (frozen s -> frozen s') /\ (b = false -> frozen s'))); [apply Eo|]|].
  { intros d Hd. destruct (entry_at m1 base info d 16 I1 W1 Hi1 Hd) as (s & i & A & Bz & Wd). exists s, i. split; [done|].
    intros m2 A2. apply (wait_step mdr d s i m2); [done|done|]. by eapply small_le; [apply Wd|]. }
  intros b m2 Rd2. cbv beta in Rd2. match type of Rd2 with redirs ?q _ _ _ => set (Q2 := q) in Rd2 end.
  assert (forall s s', Q2 s s' -> evolves 4 s s' /\ busy s' /\ (frozen s -> frozen s')) as H2' by (by intros s s' (b' & (? & ? & ? & _) & _)).
  pose proof (pass_inv 4 Q2 m1 m2 base info I1 Hi1 Rd2 H2' ltac:(lia)) as I2.
  destruct b; [by apply wp_emit_end|]. apply frozen_ok; [done| |].
  - eapply world_le; [apply (redirs_world 4 Q2 (fi_dirs info) m1 m2 ltac:(intros; by apply H2') ltac:(lia) Rd2 16); done|lia].
  - intros base' info'. rewrite (current_redirs _ _ _ _ _ Rd2), (current_redirs _ _ _ _ _ Rd), Ec. intros [= <- <-]. split; [done|].
    intros d y Hd E. destruct (redirs_all _ _ _ _ d y Rd2 Hd E) as (s & b' & (_ & _ & _ & Hz) & Hb). auto.
Qed.

(** *** Starting *)

Lemma can_fragment_ok (env : menv T D) diri i dirs m : dirs_ok m -> mc_inodes m !! diri = Some i ->
  (forall d, d ∈ dirs -> is_Some (mc_dirs m !! d)) ->
  wp (can_fragment env diri dirs) m (fun b m' => m' = m /\ (b = true ->
    forall d s j, d ∈ dirs -> at_dir m d s j -> in_the_way j s = false)).
Proof.
  intros Dk Ei Hd. unfold can_fragment. apply wp_cache. eapply wp_inode; [done|].
  destruct (me_readonly env); [by apply wp_ret|]. destruct (me_degraded env); [by apply wp_ret|]. apply wp_then.
  assert (wp (match get_parent_dir m diri with
      | Some p => x ← the_dir p; j ← the_inode (md_inode x); mret (di_stray j) | None => mret false end) m (fun _ m' => m' = m)) as Hs.
  { destruct (get_parent_dir m diri) as [p|] eqn:Ep; [|by apply wp_ret]. destruct (parent_in _ _ _ Ep) as (y & Ey).
    destruct (dk_dirs _ Dk p y Ey) as (j & Ej & _). eapply wp_dir; [done|]. eapply wp_inode; [done|]. by apply wp_ret. }
  eapply wp_conseq; [exact Hs|]. intros st m1 ->. destruct st; [by apply wp_ret|].
  destruct (di_mdsdir i || di_stray i || (diri =? MDS_INO_CEPH)); [by apply wp_ret|].
  clear Hs. induction dirs as [|d dirs IH].
  - apply wp_ret. split; [done|]. intros _ d s j Hd'. by apply not_elem_of_nil in Hd'.
  - destruct (Hd d ltac:(by left)) as (y & Ey). destruct (dk_dirs _ Dk d y Ey) as (j & Ej & _).
    eapply wp_dir; [done|]. eapply wp_inode; [done|]. destruct (in_the_way j (md_dir y)) eqn:Ew; [by apply wp_ret|].
    eapply wp_conseq; [apply IH; intros d' Hd'; apply Hd; by right|]. intros b m' [-> Hb]. split; [done|].
    intros Eb d' s j' [->|Hd']%elem_of_cons [(y' & Ey' & <- & Ej')]; [congruence|]. apply (Hb Eb d'); [done|]. split. eauto.
Qed.

Lemma in_the_way_idle i s : in_the_way i s = false ->
  sd_test s STATE_FRAGMENTING = false /\ sd_is_auth s = true /\ dir_is_frozen i s = false /\ dir_is_freezing i s = false.
Proof.
  unfold in_the_way. rewrite !orb_false_iff, negb_false_iff. intros (((A1 & A2) & A3) & A4 & A5). done.
Qed.

(** The fragments a new entry is for. *)
Record startable m (base : dirfrag_t F) (dirs : list Z) : Prop := {
  sb_some : dirs <> [];
  sb_nodup : NoDup dirs;
  sb_dirs : forall d, d ∈ dirs -> exists y i, mc_dirs m !! d = Some y /\ md_inode y = df_ino base /\
    mc_inodes m !! md_inode y = Some i /\ in_the_way i (md_dir y) = false;
  sb_frag : (exists d y, dirs = [d] /\ mc_dirs m !! d = Some y /\ frag (md_dir y) = df_frag base) \/
    exists i, mc_inodes m !! df_ino base = Some i /\ ft_is_leaf (df_frag base) (dirfragtree i) = false /\
      forall d y, d ∈ dirs -> mc_dirs m !! d = Some y -> fg_contains (df_frag base) (frag (md_dir y)) = true
}.

Lemma startable_idle m base dirs d y : dirs_ok m -> startable m base dirs -> d ∈ dirs -> mc_dirs m !! d = Some y -> idle (md_dir y).
Proof.
  intros Dk Sb Hd E. destruct (sb_dirs _ _ _ Sb d Hd) as (y' & i & E' & _ & Ei & Hw). rewrite E in E'. injection E' as <-.
  destruct (in_the_way_idle i _ Hw) as (B1 & B2 & _). destruct (dk_auth _ Dk d y E B2) as (ext & p & Gd & Ph & _).
  exists ext. split; [done|]. destruct p; [done| |]; destruct Ph as [P1 _ _]; congruence.
Qed.

(** No entry has them. *)
Lemma startable_apart m base dirs b f d : fragmenting_inv m -> startable m base dirs -> fragments m !! b = Some f ->
  d ∈ fi_dirs f -> d ∈ dirs -> False.
Proof.
  intros I Sb Hf Hd Hd'. destruct (eo_dirs _ _ _ (fv_entry _ I b f Hf) d Hd) as (y & E & _ & Bz).
  destruct (startable_idle m base dirs d y (fv_dirs _ I) Sb Hd' E) as (ext & _ & [P1 _ _]).
  pose proof (busy_test _ Bz). congruence.
Qed.

Definition with_entry (base : dirfrag_t F) (info : fragment_info_t T) (rq : mreq F) m : mcache :=
  set_fragments (<[base := info]> (fragments m)) (set_reqs (<[mc_next m := rq]> (mc_reqs m)) (set_next (mc_next m + 1) m)).

Lemma frozen_started m base dirs info m' :
  fragmenting_inv m -> startable m base dirs -> fragments m !! base = None ->
  fi_dirs info = dirs -> fi_resultfrags info = [] -> fi_mdr info = mc_next m -> fi_all_frozen info = false ->
  redirs (fun s s' => evolves 4 s s' /\ busy s') dirs (with_entry base info (mk_mreq base false 0) m) m' -> fragmenting_inv m'.
Proof.
  intros I Sb Hb E1 E2 E3 E4 Rd. pose proof I as [A1 A2 A3 A4]. set (m1 := with_entry _ _ _ m) in Rd.
  destruct (redirs_fields _ _ _ _ Rd) as (Fi & Ff & Fr & Fn). cbn in Fi, Ff, Fr, Fn.
  assert (dirs_ok m') as Dk.
  { apply (redirs_dirs 4 (fun s s' => evolves 4 s s' /\ busy s') dirs m1); [by intros ? ? [? _]|done|done|by apply (dirs_ok_same m)|].
    intros ? ? [_ ?]. by apply busy_ok. }
  assert (forall b f, fragments m !! b = Some f -> entry_ok m' b f) as Old.
  { intros b f Hf. destruct (A2 b f Hf) as [B1 B2 B3 B4 B5 (rq & Er & Eb) B7].
    apply (redirs_entry 4 (fun s s' => evolves 4 s s' /\ busy s') dirs m1 m'); [by intros ? ? [? _]|done|done| |].
    - split; try done. exists rq. split; [|done]. cbn. rewrite lookup_insert_ne; [done|]. specialize (A4 _ _ Er). lia.
    - intros d y0 y Hd Hd' _ _ _. destruct (startable_apart m base dirs b f d I Sb Hf Hd Hd'). }
  assert (entry_ok m' base info) as New.
  { destruct Sb as [S1 S2 S3 S4]. split; rewrite ?E1, ?E2, ?E3; try done.
    - intros d Hd. destruct (rd_in _ _ _ _ Rd d Hd) as (y & s' & Ey & Ey' & _ & Bz). eexists. split; [exact Ey'|]. split; [|done].
      destruct (S3 d Hd) as (z & i & Ez & Eo & _). cbn in Ey. rewrite Ez in Ey. by injection Ey as <-.
    - rewrite E4. done.
    - rewrite Fr. exists (mk_mreq base false 0). split; [apply lookup_insert_eq|done].
    - assert (forall d y, d ∈ dirs -> mc_dirs m' !! d = Some y -> exists z, mc_dirs m !! d = Some z /\ frag (md_dir y) = frag (md_dir z)) as Hfr.
      { intros d y Hd E. destruct (rd_in _ _ _ _ Rd d Hd) as (z & s' & Ez & Ez' & Ev & _). rewrite E in Ez'. injection Ez' as ->.
        exists z. split; [exact Ez|exact (ev_frag _ _ _ Ev)]. }
      destruct S4 as [(d & y & -> & Ey & Ef)|(i & Ei & Hl & Hc)]; [left|right].
      + destruct (rd_in _ _ _ _ Rd d ltac:(by left)) as (z & s' & Ez & Ez' & Ev & _). cbn in Ez. rewrite Ey in Ez. injection Ez as <-.
        exists d. eexists. split_and!; [done|exact Ez'|]. cbn. by rewrite (ev_frag _ _ _ Ev).
      + exists i. rewrite Fi. split_and!; [done|done|]. intros d y Hd E. destruct (Hfr d y Hd E) as (z & Ez & ->). by apply (Hc d). }
  split; [done| | |].
  - intros b f. rewrite Ff. destruct (decide (base = b)) as [<-|N]; [rewrite lookup_insert_eq; by intros [= <-]|].
    rewrite lookup_insert_ne by done. apply Old.
  - intros b1 b2 f1 f2 d. rewrite Ff. destruct (decide (base = b1)) as [<-|N1], (decide (base = b2)) as [<-|N2];
      rewrite ?lookup_insert_eq, ?lookup_insert_ne by done; [done| | |by apply A3].
    + intros [= <-] Hf Hd Hd'. rewrite E1 in Hd. destruct (startable_apart m base dirs b2 f2 d I Sb Hf Hd' Hd).
    + intros Hf [= <-] Hd Hd'. rewrite E1 in Hd'. destruct (startable_apart m base dirs b1 f1 d I Sb Hf Hd Hd').
  - intros r rq. rewrite Fr, Fn. destruct (decide (mc_next m = r)) as [<-|N]; [lia|]. rewrite lookup_insert_ne by done.
    intros Hr. specialize (A4 _ _ Hr). lia.
Qed.

Lemma start_ok (env : menv T D) ab base dirs bits m :
  fragmenting_inv m -> world 32 m -> startable m base dirs -> fragments m !! base = None ->
  wp (start_fragment env (false, ab) base dirs bits) m (fun _ m' => fragmenting_inv m').
Proof.
  intros I W Sb Hb. unfold start_fragment. apply wp_cache, wp_change, wp_change, wp_emit, wp_assert; [by rewrite Hb|].
  apply wp_change, wp_then. set (info := mk_finfo bits dirs [] (mc_next m) false (me_now env) 0 0).
  change (set_fragments _ _) with (with_entry base info (mk_mreq base false 0) m). set (m1 := with_entry _ _ _ m).
  eapply wp_conseq; [apply (wp_each_dir freeze_one (fun s s' => evolves 4 s s' /\ busy s')); [apply Sb|]|].
  - intros d Hd. destruct (sb_dirs _ _ _ Sb d Hd) as (y & i & E & Eo & Ei & Hw). exists (md_dir y), i.
    split; [split; by exists y|]. intros m2 A. destruct (in_the_way_idle i _ Hw) as (_ & _ & Hf & Hg).
    apply (freeze_step d (md_dir y) i m2); [done|by eapply startable_idle; [apply I| | |]| |done|done].
    destruct (W d (md_dir y) i) as (Ws & _); [split; by exists y|]. by apply (small_le 32).
  - intros [] m2 Rd. apply mark_ok; [by apply (frozen_started m base dirs info)|].
    apply (world_le 28); [|lia]. apply (redirs_world 4 (fun s s' => evolves 4 s s' /\ busy s') dirs m1 m2 ltac:(by intros ? ? [? _]) ltac:(lia) Rd 32).
    by apply (world_same 32 m).
Qed.

Lemma split_ok (env : menv T D) ab d bits m y : fragmenting_inv m -> world 32 m ->
  mc_dirs m !! d = Some y -> sd_is_auth (md_dir y) = true ->
  wp (split_dir env (false, ab) d bits) m (fun _ m' => fragmenting_inv m').
Proof.
  intros I W E Ha. pose proof (fv_dirs _ I) as Dk. destruct (dk_dirs _ Dk d y E) as (i & Ei & Ef & Hl). unfold split_dir.
  eapply wp_dir; [done|]. apply wp_assert; [done|]. apply wp_then.
  eapply wp_conseq; [apply (can_fragment_ok env (md_inode y) i); [done|done|intros d' ->%list_elem_of_singleton; by exists y]|].
  intros b m' [-> Hb]. destruct b; [|by apply wp_ret]. specialize (Hb eq_refl d (md_dir y) i ltac:(by left)).
  assert (in_the_way i (md_dir y) = false) as Hw by (apply Hb; split; by exists y).
  apply start_ok; [done|done| |].
  - split; [done|apply NoDup_singleton| |left; by exists d, y]. intros d' ->%list_elem_of_singleton. by exists y, i.
  - destruct (fragments m !! _) as [info|] eqn:Hi; [exfalso|done].
    destruct (fv_entry _ I _ _ Hi) as [_ _ _ B4 _ _ [(d' & y' & B1 & B2 & B3)|(j & Ej & Hn & _)]].
    + destruct (B4 d') as (z & Ez & Eo & Bz); [rewrite B1; by left|]. rewrite B2 in Ez. injection Ez as <-. cbn in Eo, B3.
      destruct (dk_dirs _ Dk d' y' B2) as (i' & Ei' & Ef' & _). rewrite Eo, Ei in Ei'. injection Ei' as <-.
      rewrite B3, Ef in Ef'. injection Ef' as <-. rewrite E in B2. injection B2 as <-.
      destruct (in_the_way_idle i _ Hw) as (Hf & _). pose proof (busy_test _ Bz). congruence.
    + cbn in Ej, Hn. rewrite Ei in Ej. injection Ej as <-. congruence.
Qed.

Lemma under_dirs i fg all dirs : get_dirfrags_under i fg = (all, dirs) ->
  exists fgs, ft_dirfrags_under fg (dirfragtree i) (map fst (ordered (dirfrags i))) = (all, fgs) /\
    dirs = omap (fun f => dirfrags i !! f) fgs.
Proof. unfold get_dirfrags_under. destruct (ft_dirfrags_under _ _ _) as [a fgs]. intros [= <- <-]. by exists fgs. Qed.

Lemma elem_under i (fgs : list F) (d : Z) : d ∈ omap (fun f => dirfrags i !! f) fgs <-> exists f, f ∈ fgs /\ dirfrags i !! f = Some d.
Proof. apply list_elem_of_omap. Qed.

Lemma nodup_omap (f : F -> option Z) l : NoDup l ->
  (forall x1 x2 d, f x1 = Some d -> f x2 = Some d -> x1 = x2) -> NoDup (omap f l).
Proof.
  intros Hn Hi. induction Hn as [|x l Hx Hn IH]; cbn; [constructor|]. destruct (f x) as [d|] eqn:E; [|done].
  apply NoDup_cons. split; [|done]. intros (x' & Hx' & E')%list_elem_of_omap. by rewrite (Hi x x' d E E') in Hx.
Qed.

Lemma merge_ok (env : menv T D) ab diri fg i f0 m : fragmenting_inv m -> world 32 m -> mc_inodes m !! diri = Some i ->
  ft_is_leaf f0 (dirfragtree i) = true -> fg_contains fg f0 = true ->
  wp (merge_dir env (false, ab) diri fg) m (fun _ m' => fragmenting_inv m').
Proof.
  intros I W Ei L0 C0. pose proof (fv_dirs _ I) as Dk. unfold merge_dir. eapply wp_inode; [done|].
  destruct (get_dirfrags_under i fg) as [all dirs] eqn:Eu. destruct (under_dirs _ _ _ _ Eu) as (fgs & Ef & Ed).
  destruct all; [|by apply wp_ret]. cbn [negb]. destruct (ft_is_leaf fg (dirfragtree i)) eqn:Hl; [by apply wp_ret|].
  assert (forall d, d ∈ dirs -> exists y, mc_dirs m !! d = Some y /\ md_inode y = diri /\ fg_contains fg (frag (md_dir y)) = true /\
    dirfrags i !! frag (md_dir y) = Some d) as Hd.
  { intros d Hd. rewrite Ed in Hd. apply elem_under in Hd as (f & Hf & Hfd). destruct (dk_frags _ Dk diri i f d Ei Hfd) as (y & Ey & Eo & Efr).
    exists y. rewrite Efr. split_and!; [done|done| |done]. by apply (under_sound fg _ _ _ _ f f0 Ef). }
  assert (NoDup dirs) as Nd.
  { rewrite Ed. apply nodup_omap; [exact (under_nodup _ _ _ _ _ Ef (ordered_nodup _))|].
    intros f1 f2 d F1 F2. destruct (dk_frags _ Dk _ _ _ _ Ei F1) as (y1 & E1 & _ & <-).
    destruct (dk_frags _ Dk _ _ _ _ Ei F2) as (y2 & E2 & _ & <-). congruence. }
  assert (dirs <> []) as Hs.
  { destruct fgs as [|f fgs']; [by destruct (under_some _ _ _ _ Ef)|].
    destruct (under_sound _ _ _ _ _ f f0 Ef L0 C0 ltac:(by left)) as [Hf _]. apply elem_of_ordered_keys in Hf as [d Hfd].
    intros E0. assert (d ∈ dirs) as Hin by (rewrite Ed; apply elem_under; exists f; split; [by left|done]).
    rewrite E0 in Hin. by apply not_elem_of_nil in Hin. }
  apply wp_then. eapply wp_conseq; [apply (can_fragment_ok env diri i); [done|done|intros d Hin; destruct (Hd d Hin) as (y & Ey & _); by exists y]|].
  intros b m' [-> Hb]. destruct b; [|by apply wp_ret]. specialize (Hb eq_refl).
  assert (startable m (mk_dirfrag diri fg) dirs) as Sb.
  { split; [done|done| |right; exists i; split_and!; [done|done|]].
    - intros d Hin. destruct (Hd d Hin) as (y & Ey & Eo & _). exists y, i. rewrite Eo. split_and!; [done|done|done|].
      apply (Hb d); [done|]. split. exists y. by rewrite Eo.
    - intros d y Hin Ey. destruct (Hd d Hin) as (z & Ez & _ & Hc & _). rewrite Ey in Ez. by injection Ez as <-. }
  apply front_ok; [done|]. intros d0 Hd0. destruct (Hd d0 Hd0) as (y0 & Ey0 & _). eapply wp_dir; [done|].
  apply start_ok; [done|done|done|]. destruct (fragments m !! _) as [info|] eqn:Hi; [exfalso|done].
  destruct (fv_entry _ I _ _ Hi) as [B1 _ _ B4 _ _ [(d' & y' & C1 & C2 & C3)|(j & Ej & Hn & Hc)]].
  - destruct (dk_dirs _ Dk d' y' C2) as (i' & Ei' & _ & Hl'). destruct (B4 d') as (z & Ez & Eo & _); [rewrite C1; by left|].
    rewrite C2 in Ez. injection Ez as <-. cbn in Eo, C3. rewrite Eo, Ei in Ei'. injection Ei' as <-. rewrite C3 in Hl'. congruence.
  - cbn in Ej, Hn, Hc. destruct (fi_dirs info) as [|d1 l1] eqn:El; [done|]. destruct (B4 d1 ltac:(by left)) as (z & Ez & Eo & Bz). cbn in Eo.
    destruct (dk_dirs _ Dk d1 z Ez) as (i' & Ei' & Ef' & Hl'). rewrite Eo, Ei in Ei'. injection Ei' as <-.
    assert (d1 ∈ dirs) as Hin.
    { rewrite Ed. apply elem_under. exists (frag (md_dir z)). split; [|done]. apply (under_complete _ _ _ _ _ _ Ef); [|by apply (Hc d1 z); [left|]|done].
      apply elem_of_ordered_keys. by exists d1. }
    apply (startable_apart m _ dirs (mk_dirfrag diri fg) info d1 I Sb Hi); [rewrite El; by left|done].
Qed.

(** *** Stale freezes *)

Lemma stale_pins_ok l t m : (forall d, d ∈ l -> is_Some (mc_dirs m !! d)) -> wp (stale_pins l t) m (fun _ m' => m' = m).
Proof.
  revert t. induction l as [|d l IH]; intros t Hl; [by apply wp_ret|]. destruct (Hl d ltac:(by left)) as (y & Ey).
  cbn [stale_pins]. eapply wp_dir; [done|]. assert (forall t', wp (stale_pins l t') m (fun _ m' => m' = m)) as IH'
    by (intros t'; apply IH; intros d' Hd'; apply Hl; by right).
  destruct (negb _); [by apply wp_ret|]. by destruct (is_frozen_dir _).
Qed.

Lemma is_awaited_ok base info m : fragmenting_inv m -> has_parents m -> fragments m !! base = Some info ->
  wp (is_awaited info) m (fun _ m' => m' = m).
Proof.
  intros I Hp Hi. pose proof (fv_entry _ I _ _ Hi) as Eo. unfold is_awaited. apply wp_cache, front_ok; [apply Eo|].
  intros d Hd. destruct (eo_dirs _ _ _ Eo d Hd) as (y & Ey & _). destruct (dk_dirs _ (fv_dirs _ I) d y Ey) as (i & Ei & _).
  eapply wp_dir; [done|]. eapply wp_inode; [done|]. destruct (0 <? _); [by apply wp_ret|].
  destruct (Hp d y i Ey Ei) as [->|[p Ep]]; [by apply wp_ret|]. destruct (di_root i); [by apply wp_ret|].
  eapply wp_the; [exact Ep|]. destruct (parent_in _ _ _ Ep) as (z & Ez).
  destruct (dk_dirs _ (fv_dirs _ I) p z Ez) as (j & Ej & _). eapply wp_dir; [done|]. eapply wp_inode; [done|]. by apply wp_ret.
Qed.

(** What the search relies on while it erases entries. *)
Record searchable m : Prop := {
  se_inv : fragmenting_inv m;
  se_small : entries_small m;
  se_parents : has_parents m
}.

Lemma searchable_put m base info info' : searchable m -> fragments m !! base = Some info ->
  fi_dirs info' = fi_dirs info -> fi_resultfrags info' = fi_resultfrags info -> fi_mdr info' = fi_mdr info ->
  fi_all_frozen info' = fi_all_frozen info -> searchable (set_fragments (<[base := info']> (fragments m)) m).
Proof.
  intros [I Sm Hp] Hi E1 E2 E3 E4. split; [|intros b f d s i Hb Hd A|exact Hp].
  - apply (inv_put_info m base info); [done..|]. rewrite E4. apply (eo_frozen _ _ _ (fv_entry _ I _ _ Hi)).
  - cbn in Hb. destruct A as [A]. destruct (decide (base = b)) as [<-|N].
    + rewrite lookup_insert_eq in Hb. injection Hb as <-. rewrite E1 in Hd. by apply (Sm base info d s i); [..|split].
    + rewrite lookup_insert_ne in Hb by done. by apply (Sm b f d s i); [..|split].
Qed.

Lemma searchable_cancel m base info m' : searchable m -> fragments m !! base = Some info ->
  redirs unmarked (fi_dirs info) (set_fragments (delete base (fragments m)) m) m' -> searchable m'.
Proof.
  intros [I Sm Hp] Hi Rd. destruct (redirs_fields _ _ _ _ Rd) as (Fi & Ff & _). cbn in Fi, Ff. split; [by eapply cancel_ok| |].
  - intros b f d s i. rewrite Ff. intros [N Hf]%lookup_delete_Some Hd [(y & E & Es & Ei)].
    rewrite (rd_out _ _ _ _ Rd) in E by (intros Hd'; destruct N; by apply (fv_disjoint _ I base b info f d)).
    rewrite Fi in Ei. apply (Sm b f d s i); [done|done|split; by exists y].
  - apply (redirs_parents 4 unmarked (fi_dirs info) _ m' un_evolves ltac:(lia) Rd). exact Hp.
Qed.

(** What a step of the search leaves alone. *)
Record spares (base : dirfrag_t F) (info : fragment_info_t T) m m' : Prop := {
  sp_entries : forall k, k <> base -> fragments m' !! k = fragments m !! k;
  sp_self : forall g, fragments m' !! base = Some g -> fi_dirs g = fi_dirs info;
  sp_dirs : forall d, d ∉ fi_dirs info -> mc_dirs m' !! d = mc_dirs m !! d;
  sp_inodes : mc_inodes m' = mc_inodes m;
  sp_parent : forall ino, get_parent_dir m' ino = get_parent_dir m ino
}.

Lemma spares_refl base info m : fragments m !! base = Some info -> spares base info m m.
Proof. intros Hi. split; try done. intros g Hg. congruence. Qed.

Lemma cancel_spares m base info m' :
  redirs unmarked (fi_dirs info) (set_fragments (delete base (fragments m)) m) m' -> spares base info m m'.
Proof.
  intros Rd. destruct (redirs_fields _ _ _ _ Rd) as (Fi & Ff & _). split; [| |apply Rd|exact Fi|].
  - intros k N. rewrite Ff. cbn. by apply lookup_delete_ne.
  - intros g. rewrite Ff. cbn. by rewrite lookup_delete_eq.
  - intros ino. exact (redirs_parent 4 unmarked (fi_dirs info) _ m' un_evolves ltac:(lia) Rd ino).
Qed.

Lemma stale_one_ok (env : menv T D) cutoff base info m : searchable m -> fragments m !! base = Some info ->
  wp (stale_one env cutoff base) m (fun _ m' => searchable m' /\ spares base info m m').
Proof.
  intros Se Hi. pose proof (spares_refl base info m Hi) as Sp. pose proof (fv_entry _ (se_inv _ Se) _ _ Hi) as Eo. unfold stale_one. apply wp_cache. eapply wp_the; [done|].
  destruct (fi_all_frozen info); [by apply wp_ret|]. apply wp_then.
  eapply wp_conseq; [apply stale_pins_ok; intros d Hd; destruct (eo_dirs _ _ _ Eo d Hd) as (y & Ey & _); by exists y|].
  intros t m1 ->. destruct (t <? 0); [by apply wp_ret|]. destruct (negb _).
  { apply wp_modify_end. split; [by apply (searchable_put m base info)|]. split; try done; cbn; [intros k N; by rewrite lookup_insert_ne|].
    intros g. rewrite lookup_insert_eq. by intros [= <-]. }
  destruct (k_leb _ _); [by apply wp_ret|]. apply wp_then. eapply wp_conseq; [by apply (is_awaited_ok base info); [apply Se..|]|].
  intros b m1 ->. destruct b; [|by apply wp_ret]. apply wp_change.
  eapply wp_conseq; [by apply (unmark_all m base info); [apply Se..|]|]. intros [] m' Rd. split; [by eapply searchable_cancel|by apply cancel_spares].
Qed.

Lemma search_ok (env : menv T D) cut l m : NoDup l -> searchable m -> (forall k, k ∈ l -> is_Some (fragments m !! k)) ->
  wp (for_each (stale_one env cut) l) m (fun _ m' => searchable m').
Proof.
  intros Hn. revert m. induction Hn as [|k l Hk _ IH]; intros m Se Hp; [by apply wp_ret|]. destruct (Hp k ltac:(by left)) as [info Hi].
  apply wp_then. eapply wp_conseq; [by apply (stale_one_ok env cut k info)|]. intros [] m2 [Se2 Sp]. apply IH; [done|].
  intros k' Hk'. rewrite (sp_entries _ _ _ _ Sp) by (by intros ->). apply Hp. by right.
Qed.

Lemma stale_ok (env : menv T D) m : searchable m -> wp (find_stale_fragment_freeze env) m (fun _ m' => fragmenting_inv m').
Proof.
  intros Se. unfold find_stale_fragment_freeze. apply wp_cache. eapply wp_conseq; [apply search_ok; [apply ordered_nodup|done|]|].
  - intros k Hk. by apply elem_of_ordered_keys.
  - intros [] m' Se'. apply Se'.
Qed.

End Safe.
