(* ===== verification/FragmentProtocol.v ===== *)
(** * Interleavings of the refragmentation protocol (MDCache.cc)

    The handlers that start, complete and give up the freeze of fragments run in any order, with
    other work on the fragments in between, until the locks of a request are granted.  No assert
    of the handlers fails, and the fragments of an entry are changed for it alone. *)

From Stdlib Require Import ZArith QArith Qround Lia Ascii String.
From stdpp Require Import base tactics numbers list gmap sorting.
From S2P Require Import Prelude Double Stats Inodes Subtree LoadVec Keys CacheObject Dentries Freeze Versions Commit CommitMachine Fetch Fragment DirFreeze Fragmenting FragmentFreeze FragmentSafe.
Open Scope Z_scope.
Open Scope list_scope.

(** What is known of fragments: a fragment contains itself, and the root is the least. *)
Class FragOrderOk (F : Type) `{KeyOrder F} `{FragTree F} : Prop := {
  fg_contains_refl : forall f, fg_contains f f = true;
  fg_root_least : forall f, k_leb fg_root f = true
}.

Section Protocol.
Context {X T C R D F G S : Type} `{CephConst} `{UTime T} `{Bloom} `{CDouble D} `{DecayCounter C T R D}
  `{FragSplit F} `{DirentTypes} `{CDentryOps X} `{StoreOps S} `{Codec S T} `{CommitConst X}
  `{Countable F} `{KeyOrder F} `{!KeyOrderOk F} `{FragTree F} `{DirFragTree F G} `{FragConst T D}
  `{FragContexts X} `{!DirFragTreeOk F G} `{!FragOrderOk F}.
Context (mark_bit : DN_STATE_FRAGMENTING <> 0).
Abbreviation sdir := (Fragment.sdir X T C F).
Abbreviation mcache := (mcache X T C F G S).
Abbreviation M := (M X T C F G S).
Implicit Types s : sdir.
Implicit Types m : mcache.

(** ** The entry of a fragment *)

#[local] Instance dirfrag_order_ok : KeyOrderOk (dirfrag_t F).
Proof.
  assert (forall a b : dirfrag_t F, k_leb a b = true <->
    df_ino a < df_ino b \/ (df_ino a = df_ino b /\ k_leb (df_frag a) (df_frag b) = true)) as Hk.
  { intros a b. unfold k_leb at 1, dirfrag_order, dirfrag_ltb, k_ltb. destruct (Z.ltb_spec (df_ino b) (df_ino a)); [split; [done|lia]|].
    destruct (Z.eqb_spec (df_ino b) (df_ino a)); cbn [andb]; [|split; [lia|done]].
    destruct (k_leb (df_frag a) (df_frag b)) eqn:E; cbn; split; try done; [by right|]. intros [?|[_ ?]]; [lia|done]. }
  split.
  - intros a b. rewrite !Hk. destruct (Z.lt_trichotomy (df_ino a) (df_ino b)) as [?|[?|?]]; [lia| |lia].
    destruct (k_leb_total (df_frag a) (df_frag b)); auto.
  - intros a b c. rewrite !Hk. intros [?|[? ?]] [?|[? ?]]; [lia..|]. right. split; [lia|]. by eapply k_leb_trans.
  - intros [] []. rewrite !Hk. cbn. intros [?|[? ?]] [?|[? ?]]; [lia..|]. subst. f_equal. by apply k_leb_antisym.
Qed.

Lemma find_containing_some ino fg b info (l : list (dirfrag_t F * fragment_info_t T)) :
  StronglySorted bind_le l -> (b, info) ∈ l -> df_ino b = ino -> fg_contains (df_frag b) fg = true ->
  (forall c, c ∈ l -> ino <= df_ino (fst c)) -> exists p, find_containing ino fg l = Some p /\ p ∈ l.
Proof.
  intros Hs Hb Ei Hc. induction Hs as [|[b0 i0] l Hs IH Ha]; [by apply not_elem_of_nil in Hb|]. intros Hl. cbn [find_containing].
  assert (df_ino b0 = ino) as ->.
  { pose proof (Hl (b0, i0) ltac:(by left)) as L0. cbn in L0. apply elem_of_cons in Hb as [[= <- <-]|Hb]; [done|].
    pose proof (Forall_elem _ _ _ Ha Hb) as Hle. unfold bind_le in Hle. cbn in Hle. unfold k_leb, dirfrag_order, dirfrag_ltb in Hle.
    destruct (Z.ltb_spec (df_ino b) (df_ino b0)); [done|lia]. }
  rewrite Z.eqb_refl. cbn [negb]. destruct (fg_contains (df_frag b0) fg) eqn:E0; [eexists; split; [done|by left]|].
  apply elem_of_cons in Hb as [[= <- <-]|Hb]; [congruence|]. destruct (IH Hb) as (p & E & Hp); [intros c Hin; apply Hl; by right|].
  exists p. split; [done|by right].
Qed.

Lemma drop_below_suffix (k : dirfrag_t F) (l : list (dirfrag_t F * fragment_info_t T)) : StronglySorted bind_le l ->
  StronglySorted bind_le (drop_below k l) /\ (forall c, c ∈ drop_below k l <-> c ∈ l /\ k_ltb (fst c) k = false).
Proof.
  induction 1 as [|b l Hs [IH1 IH2] Ha]; [split; [constructor|]; intros c; split; [by intros ?%not_elem_of_nil|by intros [?%not_elem_of_nil _]]|].
  cbn [drop_below]. destruct (k_ltb (fst b) k) eqn:E.
  - split; [done|]. intros c. rewrite IH2, elem_of_cons. split; [tauto|]. intros [[->|Hc] Hk]; [congruence|done].
  - split; [by constructor|]. intros c. split; [|tauto]. intros Hc. split; [done|]. apply elem_of_cons in Hc as [->|Hc]; [done|].
    pose proof (Forall_elem _ _ _ Ha Hc) as Hle. unfold k_ltb in *. rewrite negb_false_iff in *. exact (k_leb_trans _ _ _ E Hle).
Qed.

Lemma root_below ino (b : dirfrag_t F) : k_ltb b (mk_dirfrag ino fg_root) = false <-> ino <= df_ino b.
Proof.
  unfold k_ltb. rewrite negb_false_iff. unfold k_leb, dirfrag_order, dirfrag_ltb. cbn [df_ino df_frag].
  destruct (Z.ltb_spec (df_ino b) ino); [split; [done|lia]|]. unfold k_ltb. rewrite fg_root_least. cbn [negb]. rewrite andb_false_r.
  split; [lia|done].
Qed.

Lemma entry_of_some m b info d y : fragmenting_inv m -> fragments m !! b = Some info -> d ∈ fi_dirs info -> mc_dirs m !! d = Some y ->
  exists b' info', entry_of m (md_inode y) (frag (md_dir y)) = Some (b', info') /\ fragments m !! b' = Some info'.
Proof.
  intros I Hb Hd E. pose proof (fv_entry _ I _ _ Hb) as Eo. destruct (eo_dirs _ _ _ Eo d Hd) as (z & Ez & Ei & _).
  rewrite E in Ez. injection Ez as <-.
  destruct (drop_below_suffix (mk_dirfrag (md_inode y) fg_root) (ordered (fragments m))) as [D1 D2]; [apply ordered_sorted|].
  destruct (find_containing_some (md_inode y) (frag (md_dir y)) b info (drop_below (mk_dirfrag (md_inode y) fg_root) (ordered (fragments m))))
    as ([b' info'] & Ef & Hp); [done| |done| | |].
  - apply D2. split; [by apply elem_of_ordered|]. apply root_below. cbn. lia.
  - destruct (eo_frag _ _ _ Eo) as [(d' & y' & Ed & Ey & <-)|(i & _ & _ & Hc)]; [|by apply (Hc d)].
    rewrite Ed in Hd. apply list_elem_of_singleton in Hd as ->. rewrite E in Ey. injection Ey as <-. apply fg_contains_refl.
  - intros c [_ Hc]%D2. by apply root_below in Hc.
  - exists b', info'. split; [exact Ef|]. apply D2 in Hp as [Hp _]. by apply elem_of_ordered.
Qed.

Lemma waiter_ok d m : fragmenting_inv m -> (exists b info, fragments m !! b = Some info /\ d ∈ fi_dirs info) ->
  wp (fragment_freeze_inc_num_waiters d) m (fun _ m' => fragmenting_inv m').
Proof.
  intros I (b & info & Hb & Hd). destruct (eo_dirs _ _ _ (fv_entry _ I _ _ Hb) d Hd) as (y & E & _).
  destruct (entry_of_some m b info d y I Hb Hd E) as (b' & info' & Ee & Hb'). unfold fragment_freeze_inc_num_waiters.
  eapply wp_dir; [done|]. apply wp_cache. eapply wp_the; [exact Ee|]. apply wp_modify_end.
  apply (inv_put_info m b' info'); [done..|]. apply (eo_frozen _ _ _ (fv_entry _ I _ _ Hb')).
Qed.

(** ** Other work on a fragment *)

(** It stays in its phase and keeps its frag; one that is frozen for an entry stays frozen. *)
Record keeps_phase s s' : Prop := {
  kp_frag : frag s' = frag s;
  kp_auth : sd_is_auth s' = sd_is_auth s;
  kp_ok : ok_dir s -> ok_dir s';
  kp_busy : busy s -> busy s';
  kp_frozen : busy s -> frozen s -> frozen s'
}.

Lemma keeps_inv m d s i s' : fragmenting_inv m -> at_dir m d s i -> keeps_phase s s' -> fragmenting_inv (upd d s' m).
Proof.
  intros [[A1 A2 A3] B1 B2 B3] [(y & E & <- & Ei)] [K1 K2 K3 K4 K5].
  assert (forall d' z, mc_dirs (upd d s' m) !! d' = Some z -> exists z0, mc_dirs m !! d' = Some z0 /\ md_inode z = md_inode z0 /\
    keeps_phase (md_dir z0) (md_dir z)) as Hb.
  { intros d' z. destruct (decide (d = d')) as [<-|N].
    - rewrite (upd_dir d s' m y E). intros [= <-]. exists y. done.
    - rewrite upd_other by done. intros Ez. exists z. split_and!; [done|done|]. by split. }
  assert (forall d' z0, mc_dirs m !! d' = Some z0 -> exists z, mc_dirs (upd d s' m) !! d' = Some z) as Hf.
  { intros d' z0 Ez. destruct (decide (d = d')) as [<-|N]; [rewrite (upd_dir d s' m y E); eauto|rewrite upd_other by done; eauto]. }
  split; [split| |done|done].
  - intros d' z (z0 & Ez & -> & [-> _ _ _ _])%Hb. exact (A1 d' z0 Ez).
  - intros ino j f d' Ej Ef. destruct (A2 ino j f d' Ej Ef) as (z0 & Ez & <- & <-). destruct (Hf d' z0 Ez) as (z & Ez').
    exists z. destruct (Hb d' z Ez') as (z1 & E1 & -> & [-> _ _ _ _]). rewrite Ez in E1. by injection E1 as <-.
  - intros d' z (z0 & Ez & _ & [_ Ka Ko _ _])%Hb Ha. rewrite Ka in Ha. by apply Ko, (A3 d').
  - intros base info Hi. destruct (B1 base info Hi) as [C1 C2 C3 C4 C5 C6 C7]. split; try done.
    + intros d' Hd. destruct (C4 d' Hd) as (z0 & Ez & Eo & Bz). destruct (Hf d' z0 Ez) as (z & Ez'). exists z.
      destruct (Hb d' z Ez') as (z1 & E1 & -> & [_ _ _ Kb _]). rewrite Ez in E1. injection E1 as <-. auto.
    + intros Ha d' z Hd (z0 & Ez & _ & [_ _ _ _ Kf])%Hb. destruct (C4 d' Hd) as (z1 & E1 & _ & Bz). rewrite Ez in E1. injection E1 as <-.
      by apply Kf, (C5 Ha d').
    + destruct C7 as [(d' & z0 & Ed & Ez & <-)|(j & Ej & Hl & Hc)]; [left|right].
      * destruct (Hf d' z0 Ez) as (z & Ez'). exists d', z. destruct (Hb d' z Ez') as (z1 & E1 & _ & [-> _ _ _ _]). split_and!; [done|done|congruence].
      * exists j. split_and!; [done|done|]. intros d' z Hd (z0 & Ez & _ & [-> _ _ _ _])%Hb. by apply (Hc d').
Qed.

(** Auth pins others hold: more than the one of the protocol. *)
Definition held_by_others s : Prop := exists ext p, frag_dir ext s /\ in_phase p ext s /\ (p = Marked -> settled s) /\
  1 <= ext /\ (p = Marking -> 2 <= ext).

Lemma phase_keeps ext p ext' s s' : frag_dir ext s -> in_phase p ext s -> (p = Marked -> settled s) ->
  frag s' = frag s -> becomes s s' -> frag_dir ext' s' -> in_phase p ext' s' -> (busy s -> frozen s -> frozen s') -> keeps_phase s s'.
Proof.
  intros Gd Ph St Ef Be Gd' Ph' Hz.
  assert (ok_dir s') as Ok' by (exists ext', p; split_and!; [done|done|intros Ep; exact (settled_becomes s s' Be (St Ep))]). split; [done| |done| |done].
  - rewrite (ok_auth s'), (ok_auth s); [done| |done]. by exists ext, p.
  - intros Bz. apply ok_busy; [done|]. pose proof (busy_test _ Bz) as Ht. destruct Ph as [P1 _ _], Ph' as [P1' _ _]. congruence.
Qed.

Lemma pin_keeps d s i m : at_dir m d s i -> ok_dir s -> small_dir 8 s -> dir_is_frozen i s = false ->
  wp (dir_auth_pin d) m (fun _ m' => exists s', m' = upd d s' m /\ keeps_phase s s').
Proof.
  intros A (ext & p & Gd & Ph & St) Sm Hf. pose proof (frag_dir_fz _ _ Gd) as Fz. pose proof (cv_ext _ _ (gd_commit _ _ Gd)) as Hx.
  unfold dir_is_frozen, is_frozen in Hf. apply orb_false_iff in Hf as [FD FT].
  assert (is_frozen_tree_root (sd_fdir s) = false) as FT'.
  { unfold is_frozen_tree, own in FT. by destruct (is_frozen_tree_root (sd_fdir s)). }
  destruct (auth_pin_gives _ _ Fz (small_within 8 s ltac:(lia) Sm) FT' FD) as (x & es & E & Fx & V & Ca & Rx).
  unfold dir_auth_pin. eapply (wp_at_end _ _ _ _ (with_fdir x s)); [exact A|unfold lift_cd, cd_auth_pin, on_fdir; unfold sd_fdir in E; cbn beta; rewrite E; done|].
  exists (with_fdir x s). split; [done|]. apply (phase_keeps ext p (ext + 1)); [done|done|done|done| | | |].
  - exists x. split; [done|by apply calm_tracks].
  - apply (calm_frag_dir ext); [done|done|lia|]. by replace (ext + 1 + committing s) with (ext + committing s + 1) by lia.
  - apply (calm_phase p ext); [done|done|by rewrite V|by rewrite V|lia].
  - intros _ Hz. change (v_FD (view x) = true). rewrite V. exact Hz.
Qed.

(** The unpin may be the one that completes the freeze. *)
Lemma unpin_keeps d s i m : at_dir m d s i -> held_by_others s -> small_dir 8 s -> is_freezing_tree_root (sd_fdir s) = false ->
  wp (dir_auth_unpin d) m (fun _ m' => exists s', m' = upd d s' m /\ keeps_phase s s').
Proof.
  intros A (ext & p & Gd & Ph & St & Hx & Hx2) Sm HT. pose proof (frag_dir_fz _ _ Gd) as Fz. pose proof (committing_nonneg s) as Hc.
  destruct (auth_unpin_gives _ (ie_fenv (di_env i)) _ Fz (small_within 8 s ltac:(lia) Sm) ltac:(lia) HT) as (x & es & E & Fx & V & Ca & Rx).
  unfold dir_auth_unpin. eapply (wp_at_end _ _ _ _ (with_fdir x s)); [exact A|unfold lift_cd, cd_auth_unpin, on_fdir; unfold sd_fdir in E; cbn beta; rewrite E; done|].
  exists (with_fdir x s). split; [done|].
  assert (v_FD (view (sd_fdir s)) = true -> v_FD (view x) = true) as Hz
    by (rewrite V; unfold unpin_view; destruct (_ && _); [done|exact id]).
  apply (phase_keeps ext p (ext - 1)); [done|done|done|done| | | |intros _; exact Hz].
  - exists x. split; [done|by apply calm_tracks].
  - apply (calm_frag_dir ext); [done|done|lia|]. by replace (ext - 1 + committing s) with (ext + committing s - 1) by lia.
  - destruct Ph as [P1 P2 P3]. split.
    + rewrite <- P1. apply (calm_test _ _ 14 Ca); lia.
    + rewrite <- P2. apply (calm_test _ _ 16 Ca); lia.
    + destruct p; [done| |].
      * destruct P3 as [P3 _]. specialize (Hx2 eq_refl). split; [|lia]. change (v_D (view x) = true). rewrite V. unfold unpin_view.
        change (v_D (view (sd_fdir s)) = true) in P3. pose proof (fz_inv _ _ Fz) as [I1 I2 _ _ _ _ _ _ _].
        rewrite I2, P3. replace (_ =? 2) with false by (destruct (v_T _); cbn [b2z]; lia). by cbn.
      * destruct P3 as [P3|P3]; [|right; by apply Hz]. change (v_D (view x) = true \/ v_FD (view x) = true). rewrite V.
        by apply unpin_view_freezes.
Qed.

(** ** The machine *)

Inductive frag_op :=
| SplitDir (d bits : Z)
| MergeDir (diri : Z) (fg : F)
| MarkingDone (mdr : Z)             (* C_MDC_FragmentMarking *)
| FrozenDone (mdr r : Z)            (* C_MDC_FragmentFrozen *)
| Dispatch (mdr : Z)                (* the request is retried *)
| FindStale
| AddRemoteWaiter (d : Z)
| Pin (d : Z)
| Unpin (d : Z)
| Other (d : Z) (s' : sdir).

(** [ab]: a request that waits for its locks is aborted. *)
Definition run_op (env : menv T D) (ab : bool) (op : frag_op) : M unit :=
  match op with
  | SplitDir d bits => split_dir env (false, ab) d bits
  | MergeDir diri fg => merge_dir env (false, ab) diri fg
  | MarkingDone mdr => fragment_mark_and_complete env (false, ab) mdr
  | FrozenDone mdr r => fragment_frozen env (false, ab) mdr r
  | Dispatch mdr => dispatch_fragment_dir env (false, ab) mdr
  | FindStale => find_stale_fragment_freeze env
  | AddRemoteWaiter d => fragment_freeze_inc_num_waiters d
  | Pin d => dir_auth_pin d
  | Unpin d => dir_auth_unpin d
  | Other d s' => put_dir d s'
  end.

(** When the rest of the cache calls them: on fragments and directories it has, to merge what is
    split; the gather of a freeze completes without error when all its fragments are frozen. *)
Definition enabled m (op : frag_op) : Prop :=
  match op with
  | SplitDir d _ => exists y, mc_dirs m !! d = Some y /\ sd_is_auth (md_dir y) = true
  | MergeDir diri fg => exists i f, mc_inodes m !! diri = Some i /\ ft_is_leaf f (dirfragtree i) = true /\ fg_contains fg f = true
  | FrozenDone mdr r => forall base info, current mdr m = Some (base, info) -> r = 0 /\ all_frozen_at m (fi_dirs info)
  | AddRemoteWaiter d => exists b info, fragments m !! b = Some info /\ d ∈ fi_dirs info
  | Pin d => exists s i, at_dir m d s i /\ sd_is_auth s = true /\ dir_is_frozen i s = false
  | Unpin d => exists s i, at_dir m d s i /\ held_by_others s /\ is_freezing_tree_root (sd_fdir s) = false
  | Other d s' => exists s i, at_dir m d s i /\ keeps_phase s s'
  | _ => True
  end.

(** Counters have room, and the fragments belong to directories that are linked. *)
Definition roomy m : Prop := world 32 m /\ has_parents m.

Inductive reached m0 : mcache -> Prop :=
| reached_start : reached m0 m0
| reached_step m env ab op u m' es : reached m0 m -> enabled m op -> roomy m ->
    run_op env ab op m = Ok (u, m', es) -> reached m0 m'.

Lemma op_ok env ab op m : fragmenting_inv m -> enabled m op -> roomy m ->
  wp (run_op env ab op) m (fun _ m' => fragmenting_inv m').
Proof.
  intros I En [W Hp]. destruct op as [d bits|diri fg|mdr|mdr r|mdr| |d|d|d|d s']; cbn [run_op enabled] in *.
  - destruct En as (y & E & Ha). by eapply split_ok.
  - destruct En as (i & f & Ei & Hl & Hc). by eapply merge_ok.
  - apply mark_ok; try done; by apply (world_le 32).
  - apply frozen_ok; try done; by apply (world_le 32).
  - apply dispatch_ok; try done; by apply (world_le 32).
  - apply stale_ok. split; [done|by apply (world_entries 32)|done].
  - by apply waiter_ok.
  - destruct En as (s & i & A & Ha & Hf). destruct (W d s i A) as (Ws & _). pose proof A as [(y & E & Es & _)].
    eapply wp_conseq; [apply (pin_keeps d s i m A); [rewrite <- Es in *; by apply (dk_auth _ (fv_dirs _ I) d)|by apply (small_le 32)|done]|].
    intros [] m' (s' & -> & K). by eapply keeps_inv.
  - destruct En as (s & i & A & Hh & HT). destruct (W d s i A) as (Ws & _).
    eapply wp_conseq; [apply (unpin_keeps d s i m A); [done|by apply (small_le 32)|done]|]. intros [] m' (s' & -> & K). by eapply keeps_inv.
  - destruct En as (s & i & A & K). apply wp_modify_end. by eapply (keeps_inv m d s i s').
Qed.

Lemma reached_inv m0 m : fragmenting_inv m0 -> reached m0 m -> fragmenting_inv m.
Proof.
  intros I Re. induction Re as [|m env ab op u m' es Re IH En Ro Eq]; [done|].
  destruct (op_ok env ab op m IH En Ro) as (u' & m2 & es' & Eq' & I'). rewrite Eq in Eq'. by injection Eq' as <- <- <-.
Qed.

(** C5: From a cache with no fragments under change, whatever handlers of the protocol run up to
    the grant of locks, retried, aborted or found stale, with auth pins and other work in
    between: no assert fails in the next handler, each fragment of an entry is marked as
    fragmenting and freezing or frozen, it belongs to no other entry, and once the entry says so
    the fragment is frozen with all its dentries marked and pinned. *)
Theorem fragmenting_safe m0 m : dirs_ok m0 -> fragments m0 = ∅ ->
  (forall r rq, mc_reqs m0 !! r = Some rq -> r < mc_next m0) -> reached m0 m ->
  (forall env ab op, enabled m op -> roomy m -> exists r, run_op env ab op m = Ok r) /\
  forall base info d, fragments m !! base = Some info -> d ∈ fi_dirs info ->
    (forall b f, fragments m !! b = Some f -> d ∈ fi_dirs f -> b = base) /\
    exists y, mc_dirs m !! d = Some y /\ md_inode y = df_ino base /\ sd_test (md_dir y) STATE_FRAGMENTING = true /\
      (is_freezing_dir (sd_fdir (md_dir y)) = true \/ is_frozen_dir (sd_fdir (md_dir y)) = true) /\
      (fi_all_frozen info = true -> is_frozen_dir (sd_fdir (md_dir y)) = true /\
         forall k dn, sd_items (md_dir y) !! k = Some dn ->
           DN_FRAGMENTING dn = true /\ 0 < pins (dn_obj dn) DN_PIN_FRAGMENTING).
Proof.
  intros Dk Hf Hr Re. assert (fragmenting_inv m0) as I0.
  { split; [done| | |done]; intros *; rewrite Hf, lookup_empty; done. }
  pose proof (reached_inv m0 m I0 Re) as I. split.
  - intros env ab op En Ro. destruct (op_ok env ab op m I En Ro) as (u & m' & es & E & _). eauto.
  - intros base info d Hi Hd. split; [intros b f Hb Hd'; by apply (fv_disjoint _ I b base f info d)|].
    pose proof (fv_entry _ I _ _ Hi) as Eo. destruct (eo_dirs _ _ _ Eo d Hd) as (y & E & Ei & Bz). exists y.
    split_and!; [done|done|by apply busy_test| |].
    + destruct Bz as (ext & p & _ & [_ _ P3] & _ & N). destruct p; [done| |done]. left. apply P3.
    + intros Ha. pose proof (eo_frozen _ _ _ Eo Ha d y Hd E) as Fz. split; [done|].
      destruct (frozen_marked _ Bz Fz) as (ext & Gd & [_ P2 _] & _). intros k dn Hk. destruct (gd_dns _ _ Gd k dn Hk) as [_ D1 D2].
      rewrite P2 in *. auto.
Qed.

End Protocol.

(** ** A concrete cache: a root directory of one fragment that is read in *)

Fixpoint bits_leb (a b : list bool) : bool :=
  match a, b with
  | [], _ => true
  | _, [] => false
  | x :: a, y :: b => if Bool.eqb x y then bits_leb a b else y
  end.
Fixpoint bits_prefix (a b : list bool) : bool :=
  match a, b with
  | [], _ => true
  | _, [] => false
  | x :: a, y :: b => Bool.eqb x y && bits_prefix a b
  end.

#[local] Instance bits_order : KeyOrder (list bool) := bits_leb.
#[local] Instance bits_order_ok : KeyOrderOk (list bool).
Proof.
  unfold k_leb, bits_order. split.
  - induction a as [|[] a IH]; intros [|[] b]; cbn; auto.
  - induction a as [|x a IH]; intros [|y b] [|z c]; cbn; try done. destruct x, y, z; cbn; try done; apply IH.
  - induction a as [|x a IH]; intros [|y b]; cbn; try done. destruct x, y; cbn; try done; intros; f_equal; auto.
Qed.

Definition bits_split : FragSplit (list bool) := {|
  fg_split := fun f n => map (fun b => f ++ [b]) [false; true];
  fg_value := fun f => 0; fg_mask := fun f => 0; fg_mask_shift := fun f => 0
|}.
Definition bits_tree : FragTree (list bool) := {|
  fg_root := []; fg_bits := fun f => Z.of_nat (length f); fg_parent := @removelast bool; fg_contains := bits_prefix
|}.
(** the tree is the list of its leaves *)
Definition bits_leaves : @DirFragTree (list bool) (list (list bool)) := {|
  ft_is_leaf := fun f t => bool_decide (f ∈ t);
  ft_force_to_leaf := fun f t => f :: filter (fun g => bits_prefix f g = false) t;
  ft_split := fun f n t => (f ++ [false]) :: (f ++ [true]) :: filter (fun g => g <> f) t;
  ft_branch_or_leaf := fun f t => f;
  ft_leaves_under := fun f t => filter (fun g => bits_prefix f g = true) t;
  ft_pick := fun t n => default [] (head t);
  ft_dirfrags_under := fun f t l =>
    let r := filter (fun g => bits_prefix f g = true) l in
    (negb (bool_decide (r = [])) && bool_decide (Forall (fun g => g ∈ l) (filter (fun g => bits_prefix f g = true) t)), r)
|}.
Definition frag_const_ex : FragConst Z Q := {|
  OP_PREPARE := 1; OP_COMMIT := 2; OP_ROLLBACK := 3; OP_FINISH := 4; MDS_STATE_REJOIN := 10;
  ut_minus := fun t s => t - Qfloor s
|}.
Definition frag_contexts_ex : FragContexts Z := {|
  sub_marking := fun mdr => 3 * mdr; sub_frozen := fun mdr => 3 * mdr + 1; sub_store := fun mdr => 3 * mdr + 2
|}.
Definition dirent_ex : DirentTypes := {| DT_DIR := 4 |}.
#[local] Existing Instances nosnap64 dn_ops_ex bloom_ex store_ops_ex codec_ex commit_const_ex dirent_ex
  bits_split bits_tree bits_leaves frag_const_ex frag_contexts_ex.

#[local] Instance bits_leaves_ok : DirFragTreeOk (list bool) (list (list bool)).
Proof.
  split; cbn; intros fg t l.
  - intros b r f f0 [= _ <-] _ _ [Hp Hl]%list_elem_of_filter. done.
  - intros b r f [= _ <-] Hl Hp _. by apply list_elem_of_filter.
  - intros b r [= _ <-] Hn. by apply NoDup_filter.
  - intros r [= Hb <-]. apply andb_true_iff in Hb as [Hb _]. apply negb_true_iff in Hb. by apply bool_decide_eq_false in Hb.
Qed.
#[local] Instance bits_frag_order : FragOrderOk (list bool).
Proof. split; [|done]. cbn. induction f as [|[] f IH]; done. Qed.

Definition read_cdir : cdir Z Z :=
  mk_cdir (mk_fdir (mk_dfrag (repin 1 PIN_CHILD (state_set STATE_COMPLETE (state_set STATE_AUTH cobj_new))) items_ex 3 1 0 0 5 ∅) 0 0 0 false)
    (fnode_ex 4) [] 0 0 ∅ None None 0 None.
Definition read_sdir : Fragment.sdir Z Z Q (list bool) :=
  mk_sdir read_cdir [] CDIR_AUTH_DEFAULT 2 ∅ [] 0 ∅ [] [] [] [].
Definition one_env : Fragment.ienv Z :=
  mk_ienv (mk_fenv false false []) true true 3 5 (fun _ => mk_kid false nest_info_new nest_info_new false) (fun _ => (0, 0, 0)).
Definition one_inode : dinode Z Z Q (list bool) (list (list bool)) :=
  mk_dinode {[ [] := 10 ]} [[]] one_env ienv_ex true false false (0, -2) (fun s => Ok s) ∅.
Definition one_dir_cache : mcache Z Z Q (list bool) (list (list bool)) store_ex :=
  mk_mcache {[ 10 := mk_mdir 1 read_sdir ]} 20 {[ 1 := one_inode ]} objs_ex {[ 10 := ∅ ]} ∅ ∅ ∅ ∅.
Definition menv_ex : menv Z Q := mk_menv false false 13 (fun _ => 13) ∅ 7 100 30%Q false false false.

Lemma read_cdir_inv : commit_inv 0 read_cdir.
Proof.
  split.
  - done.
  - split; [split|vm_compute; reflexivity].
    + apply obj_ok_repin; [|done|done|vm_compute; discriminate|vm_compute; reflexivity].
      split; [split; [done| |done]|done|done]. intros k n. cbn. by rewrite lookup_empty.
    + split; vm_compute; intuition discriminate.
  - vm_compute; reflexivity.
  - vm_compute; intuition discriminate.
  - repeat constructor; vm_compute; discriminate.
  - vm_compute; reflexivity.
  - by split.
  - intros v cs. cbn. by rewrite lookup_empty.
Qed.

Lemma read_sdir_ok : frag_dir 0 read_sdir /\ in_phase Idle 0 read_sdir /\ dir_world 32 read_sdir one_inode.
Proof.
  assert (forall k dn, items_ex !! k = Some dn -> dn_fine false dn /\ 0 <= co_ref (dn_obj dn) <= 2) as Hd.
  { apply (items_ex_all (fun dn => dn_fine false dn /\ 0 <= co_ref (dn_obj dn) <= 2)). intros b n v l.
    destruct (dn_ex_refs b n v l) as [R B]. split; [|done]. split; [done|..]; by destruct b, l. }
  split_and!.
  - split; [exact read_cdir_inv|exact cdir_ex_keys|exact cdir_ex_primary| |done]. intros k dn Hk. by apply (Hd k dn).
  - by split.
  - unfold dir_world. split_and!; [|by left|done]. split; [vm_compute; reflexivity|vm_compute; reflexivity|vm_compute; reflexivity|]. intros k dn Hk.
    destruct (Hd k dn Hk) as [_ B]. lia.
Qed.

Lemma one_dir_at d s i : at_dir one_dir_cache d s i -> d = 10 /\ s = read_sdir /\ i = one_inode.
Proof.
  intros [(y & E & <- & Ei)]. cbn in E, Ei. apply lookup_singleton_Some in E as [<- <-].
  cbn in Ei. apply lookup_singleton_Some in Ei as [_ <-]. done.
Qed.

Lemma one_dir_ok : dirs_ok one_dir_cache.
Proof.
  split; cbn.
  - intros d y [<- <-]%lookup_singleton_Some. exists one_inode. by split_and!.
  - intros ino i f d [<- <-]%lookup_singleton_Some Hf. cbn in Hf. apply lookup_singleton_Some in Hf as [<- <-].
    eexists. by split_and!.
  - intros d y [<- <-]%lookup_singleton_Some _. exists 0, Idle. by split_and!; [apply read_sdir_ok..|].
Qed.

Lemma one_dir_roomy : roomy one_dir_cache.
Proof.
  split.
  - intros d s i (-> & -> & ->)%one_dir_at. apply read_sdir_ok.
  - intros d y i Hd Hi. destruct (one_dir_at d (md_dir y) i) as (_ & _ & ->); [split; by exists y|by left].
Qed.

(** Checks that decide what the handlers need of a concrete cache. *)
Abbreviation cacheZ := (mcache Z Z Q (list bool) (list (list bool)) store_ex).

Definition small_check (s : Fragment.sdir Z Z Q (list bool)) : bool :=
  (co_ref (sd_obj s) <? 2 ^ 31 - 32) && (auth_pins (sd_fdir s) + nested_auth_pins (sd_fdir s) <? 2 ^ 31 - 32) &&
  (projected_version (sd_dir s) <? 2 ^ 64 - 1) &&
  forallb (fun p => co_ref (dn_obj (snd p)) <? 2 ^ 31 - 32) (map_to_list (sd_items s)).
Definition inode_check (s : Fragment.sdir Z Z Q (list bool)) (i : dinode Z Z Q (list bool) (list (list bool))) : bool :=
  di_root i && negb (Commit.ie_nlink (di_cenv i) =? 0) &&
  match purge_snaps (di_cenv i) (sd_fnode s) with None => true | Some _ => false end.
Definition roomy_check (m : cacheZ) : bool :=
  forallb (fun p => small_check (md_dir (snd p)) &&
    match mc_inodes m !! md_inode (snd p) with Some i => inode_check (md_dir (snd p)) i | None => false end)
    (map_to_list (mc_dirs m)).

Lemma small_checked s : small_check s = true -> small_dir 32 s.
Proof.
  unfold small_check. rewrite !andb_true_iff, !Z.ltb_lt. intros [[[A1 A2] A3] A4]. split; [done|done|done|].
  intros k dn Hk%elem_of_map_to_list. rewrite forallb_forall in A4. apply list_elem_of_In in Hk. apply Z.ltb_lt, (A4 _ Hk).
Qed.

Lemma roomy_checked m : roomy_check m = true -> roomy m.
Proof.
  unfold roomy_check. rewrite forallb_forall. intros Hc.
  assert (forall d y i, mc_dirs m !! d = Some y -> mc_inodes m !! md_inode y = Some i ->
    small_check (md_dir y) = true /\ inode_check (md_dir y) i = true) as Ha.
  { intros d y i Ey Ei. apply elem_of_map_to_list, list_elem_of_In in Ey. specialize (Hc _ Ey). cbn [snd] in Hc.
    rewrite Ei in Hc. by apply andb_true_iff in Hc. }
  split.
  - intros d s i [(y & Ey & <- & Ei)]. destruct (Ha d y i Ey Ei) as [Hs Hi]. unfold dir_world, linked.
    apply andb_true_iff in Hi as [Hi Hp]. apply andb_true_iff in Hi as [_ Hl]. apply negb_true_iff, Z.eqb_neq in Hl.
    split_and!; [by apply small_checked|by left|]. by destruct (purge_snaps _ _).
  - intros d y i Ey Ei. destruct (Ha d y i Ey Ei) as [_ Hi]. left. unfold inode_check in Hi. rewrite !andb_true_iff in Hi. apply Hi.
Qed.

(** The cache after a handler. *)
Definition after (env : menv Z Q) (op : frag_op) (m : cacheZ) : cacheZ :=
  match run_op env false op m with Ok (_, m', _) => m' | Abort => m end.

Lemma after_inv env op m : fragmenting_inv m -> enabled m op -> roomy m -> fragmenting_inv (after env op m).
Proof.
  intros I En Ro. unfold after. assert (DN_STATE_FRAGMENTING <> 0) as Mb by done. destruct (op_ok Mb env false op m I En Ro) as (u & m' & es & -> & I'). exact I'.
Qed.

Lemma one_dir_inv : fragmenting_inv one_dir_cache.
Proof. split; [exact one_dir_ok|done| |]; intros *; cbn; by rewrite lookup_empty. Qed.

(** The root fragment is split: it freezes at once, and the request waits for its locks. *)
Lemma fragmenting_safe_witness : exists m es info y,
  run_op menv_ex false (SplitDir 10 1) one_dir_cache = Ok (tt, m, es) /\
  fragments m !! mk_dirfrag 1 [] = Some info /\ fi_all_frozen info = true /\ mc_dirs m !! 10 = Some y /\
  is_frozen_dir (sd_fdir (md_dir y)) = true /\
  forall k dn, sd_items (md_dir y) !! k = Some dn -> DN_FRAGMENTING dn = true.
Proof.
  assert (forall r rq, mc_reqs one_dir_cache !! r = Some rq -> r < mc_next one_dir_cache) as Hr by (intros r rq; cbn; by rewrite lookup_empty).
  assert (DN_STATE_FRAGMENTING <> 0) as Mb by done.
  assert (enabled one_dir_cache (SplitDir 10 1)) as En by (exists (mk_mdir 1 read_sdir); split; reflexivity).
  destruct (fragmenting_safe Mb one_dir_cache one_dir_cache one_dir_ok eq_refl Hr (reached_start _)) as [P0 _].
  destruct (P0 menv_ex false _ En one_dir_roomy) as ([[[] m] es] & E).
  destruct (fragmenting_safe Mb one_dir_cache m one_dir_ok eq_refl Hr) as [_ P1].
  { exact (reached_step _ _ _ _ _ _ _ _ (reached_start _) En one_dir_roomy E). }
  assert (match run_op menv_ex false (SplitDir 10 1) one_dir_cache with
    | Ok (_, m, _) => (fun i => (fi_dirs i, fi_all_frozen i)) <$> fragments m !! mk_dirfrag 1 [] | Abort => None end
    = Some ([10], true)) as Ef by (vm_compute; reflexivity).
  rewrite E in Ef. apply fmap_Some in Ef as (info & Ei & [= Ed Ea]).
  destruct (P1 _ info 10 Ei) as [_ (y & Ey & _ & _ & _ & Hz)]; [rewrite <- Ed; by left|].
  destruct (Hz ltac:(by rewrite <- Ea)) as [Hfz Hdn]. exists m, es, info, y.
  split; [exact E|]. split; [exact Ei|]. split; [by rewrite <- Ea|]. split; [exact Ey|]. split; [exact Hfz|].
  intros k dn Hk. exact (proj1 (Hdn k dn Hk)).
Defined.
