(* ===== verification/FragmentStale.v ===== *)
(** * Giving up a freeze (MDCache.cc)

    What [dispatch_fragment_dir] does with an aborted request, and that
    [find_stale_fragment_freeze] ends a freeze that others wait for and that makes no progress. *)

From Stdlib Require Import ZArith QArith Lia Ascii String.
From stdpp Require Import base tactics numbers list gmap sorting.
From S2P Require Import Prelude Double Stats Subtree LoadVec Keys CacheObject Dentries Freeze Versions Commit CommitMachine Fetch Fragment DirFreeze Fragmenting FragmentFreeze FragmentSafe FragmentProtocol.
Open Scope Z_scope.
Open Scope list_scope.

Section Stale.
Context {X T C R D F G S : Type} `{CephConst} `{UTime T} `{Bloom} `{CDouble D} `{DecayCounter C T R D}
  `{FragSplit F} `{DirentTypes} `{CDentryOps X} `{StoreOps S} `{Codec S T} `{CommitConst X}
  `{Countable F} `{KeyOrder F} `{FragTree F} `{DirFragTree F G} `{FragConst T D}
  `{FragContexts X} `{!DirFragTreeOk F G}.
Abbreviation sdir := (Fragment.sdir X T C F).
Abbreviation mcache := (mcache X T C F G S).
Implicit Types s : sdir.
Implicit Types m : mcache.

(** ** What is released *)

(** A fragment that was given up: its state, and its dentries, which have lost the mark and one
    pin if they had them. *)
Record given_up s s' : Prop := {
  gu_state : sd_test s' STATE_FRAGMENTING = false /\ sd_test s' STATE_DNPINNEDFRAG = false;
  gu_thawed : is_freezing_dir (sd_fdir s') = false /\ is_frozen_dir (sd_fdir s') = false;
  gu_names : forall k, sd_items s' !! k = None <-> sd_items s !! k = None;
  gu_items : forall k dn dn', sd_items s !! k = Some dn -> sd_items s' !! k = Some dn' ->
    DN_FRAGMENTING dn' = false /\ dn_linkage dn' = dn_linkage dn /\
    forall p, pins (dn_obj dn') p = pins (dn_obj dn) p -
      (if decide (p = DN_PIN_FRAGMENTING) then b2z (sd_test s STATE_DNPINNEDFRAG) else 0)
}.

Lemma unmarked_given_up s s' : busy s -> unmarked s s' -> given_up s s'.
Proof.
  intros (ext & p & Gd & _) [Ev (ext' & Gd' & [P1 P2 _]) Th It]. split; [done|done| |].
  - intros k. pose proof (ev_dns _ _ _ Ev k) as Hk. by destruct (sd_items s !! k), (sd_items s' !! k).
  - intros k dn dn' Hk Hk'. split; [by destruct (gd_dns _ _ Gd' k dn' Hk') as [_ D1 _]; rewrite P2 in D1|].
    unfold items_freed in It. destruct (sd_test s STATE_DNPINNEDFRAG).
    + pose proof (It k) as Ik. rewrite Hk, Hk' in Ik. destruct Ik as [-> _]. split; [done|]. intros q.
      change (pins (repin (-1) DN_PIN_FRAGMENTING (dn_obj dn)) q = pins (dn_obj dn) q - (if decide (q = DN_PIN_FRAGMENTING) then 1 else 0)).
      rewrite pins_repin. destruct (decide (q = DN_PIN_FRAGMENTING)) as [->|N]; lia.
    + rewrite It in Hk'. assert (dn' = dn) as -> by congruence. split; [done|]. intros q. cbn [b2z]. destruct (decide _); lia.
Qed.

(** Giving up a freeze does not abort, whatever has become of its fragments so far: its
    entry and nothing else leaves the map, its fragments are neither frozen nor freezing nor
    marked, each of their dentries loses the pin and the mark it was given and keeps all its
    other pins, and no other fragment changes. *)
Theorem abandon_releases mdr m base info : fragmenting_inv m -> entries_small m -> fragments m !! base = Some info ->
  exists m' es, abandon mdr base info m = Ok (tt, m', es) /\ fragmenting_inv m' /\
    fragments m' = delete base (fragments m) /\
    (forall d, d ∉ fi_dirs info -> mc_dirs m' !! d = mc_dirs m !! d) /\
    forall d, d ∈ fi_dirs info -> exists y y', mc_dirs m !! d = Some y /\ mc_dirs m' !! d = Some y' /\
      md_inode y' = md_inode y /\ given_up (md_dir y) (md_dir y').
Proof.
  intros I W Hi. destruct (abandon_frees mdr m base info I W Hi) as ([] & m' & es & E & Rd). exists m', es.
  destruct (redirs_fields _ _ _ _ Rd) as (_ & Ff & _). split_and!; [done|by eapply cancel_ok|exact Ff|apply Rd|].
  intros d Hd. destruct (rd_in _ _ _ _ Rd d Hd) as (y & s' & Ey & Ey' & Un). exists y. eexists. split; [exact Ey|]. split; [exact Ey'|].
  split; [done|]. apply unmarked_given_up; [|done]. destruct (eo_dirs _ _ _ (fv_entry _ I _ _ Hi) d Hd) as (z & Ez & _ & Bz).
  cbn in Ey. congruence.
Qed.

(** ** Stale freezes *)

(** A freeze that has all its dentries marked and has made no progress since before [cutoff]:
    the pins that hold it up are as many as then. *)
Record stalled (cutoff : T) m (info : fragment_info_t T) : Prop := {
  st_unfrozen : fi_all_frozen info = false;
  st_pins : stale_pins (fi_dirs info) 0 m = Ok (fi_last_pins info, m, []);
  st_some : 0 <= fi_last_pins info;
  st_old : k_leb cutoff (fi_last_change info) = false
}.

(** Somebody waits for it: a peer, or a freeze of the parent, which is not itself the freeze of
    an entry. *)
Definition awaited m (base : dirfrag_t F) (info : fragment_info_t T) : Prop :=
  0 < fi_remote_waiters info \/
  exists i p y j, mc_inodes m !! df_ino base = Some i /\ di_root i = false /\
    get_parent_dir m (df_ino base) = Some p /\ mc_dirs m !! p = Some y /\ mc_inodes m !! md_inode y = Some j /\
    dir_is_freezing j (md_dir y) = true /\ forall b f, fragments m !! b = Some f -> p ∉ fi_dirs f.

Lemma stale_pins_same l t m m' n : (forall d, d ∈ l -> mc_dirs m' !! d = mc_dirs m !! d) ->
  stale_pins l t m = Ok (n, m, []) -> stale_pins l t m' = Ok (n, m', []).
Proof.
  revert t. induction l as [|d l IH]; intros t Hl; [by intros [= <-]|]. cbn [stale_pins].
  cbv [mbind M_bind the_dir cache the mret M_ret]. rewrite (Hl d) by (by left). destruct (mc_dirs m !! d) as [y|]; [|done].
  assert (forall t', stale_pins l t' m = Ok (n, m, []) -> stale_pins l t' m' = Ok (n, m', [])) as IH'
    by (intros t'; apply IH; intros d' Hd'; apply Hl; by right).
  assert (forall t', match stale_pins l t' m with Ok (b, m, es') => Ok (b, m, es') | Abort => Abort end = stale_pins l t' m) as Hm
    by (intros t'; by destruct (stale_pins l t' m) as [[[? ?] ?]|]).
  assert (forall t', match stale_pins l t' m' with Ok (b, m, es') => Ok (b, m, es') | Abort => Abort end = stale_pins l t' m') as Hm'
    by (intros t'; by destruct (stale_pins l t' m') as [[[? ?] ?]|]).
  cbn [app]. destruct (negb _); [by intros [= <-]|]. destruct (is_frozen_dir _); rewrite Hm, Hm'; apply IH'.
Qed.

Lemma stalled_same cutoff base info b f m m' : fragmenting_inv m -> fragments m !! base = Some info -> fragments m !! b = Some f ->
  b <> base -> spares b f m m' -> stalled cutoff m info -> stalled cutoff m' info.
Proof.
  intros I Hi Hb N Sp [S1 S2 S3 S4]. split; [done| |done|done]. apply (stale_pins_same _ _ m); [|done].
  intros d Hd. apply (sp_dirs _ _ _ _ Sp). intros Hd'. apply N. by apply (fv_disjoint _ I b base f info d).
Qed.

Lemma awaited_same base info b f m m' : fragments m !! b = Some f -> spares b f m m' -> awaited m base info -> awaited m' base info.
Proof.
  intros Hb [S1 Hg S2 S3 S4] [Hw|(i & p & y & j & A1 & A2 & A3 & A4 & A5 & A6 & A7)]; [by left|right].
  exists i, p, y, j. rewrite S3, S4, S2 by (by apply (A7 b)). split_and!; try done. intros b' f' Hb'.
  destruct (decide (b' = b)) as [->|N]; [rewrite (Hg f' Hb'); by apply (A7 b)|apply (A7 b'); by rewrite <- S1].
Qed.

Lemma is_awaited_true base info m : fragmenting_inv m -> fragments m !! base = Some info -> awaited m base info ->
  is_awaited info m = Ok (true, m, []).
Proof.
  intros I Hi Aw. pose proof (fv_entry _ I _ _ Hi) as Eo. unfold is_awaited, front.
  destruct (fi_dirs info) as [|d l] eqn:El; [by destruct (eo_some _ _ _ Eo)|].
  destruct (eo_dirs _ _ _ Eo d) as (z & Ez & Ei & _); [rewrite El; by left|].
  destruct (dk_dirs _ (fv_dirs _ I) d z Ez) as (i' & Ei' & _).
  cbv [mbind M_bind cache the the_dir the_inode mret M_ret head]. rewrite Ez, Ei'. destruct Aw as [Hw|(i & p & y & j & A1 & A2 & A3 & A4 & A5 & A6 & _)].
  - by rewrite (proj2 (Z.ltb_lt 0 _) Hw).
  - rewrite Ei in Ei' |- *. rewrite A1 in Ei'. injection Ei' as <-. destruct (0 <? _); [done|].
    rewrite A2, A3. cbv beta iota. rewrite A4. cbv beta iota. rewrite A5. cbv beta iota. by rewrite A6.
Qed.

Lemma stale_one_cancels (env : menv T D) cutoff base info m : searchable m -> fragments m !! base = Some info ->
  stalled cutoff m info -> awaited m base info ->
  wp (stale_one env cutoff base) m (fun _ m' => redirs unmarked (fi_dirs info) (set_fragments (delete base (fragments m)) m) m').
Proof.
  intros Se Hi [S1 S2 S3 S4] Aw. unfold stale_one. apply wp_cache. eapply wp_the; [done|]. rewrite S1. apply wp_then.
  eexists _, _, _. split; [exact S2|]. rewrite (proj2 (Z.ltb_ge _ _)), Z.eqb_refl, S4 by lia. cbn [negb]. apply wp_then.
  eexists _, _, _. split; [by apply (is_awaited_true base), Aw; [apply Se|]|]. apply wp_change. by apply (unmark_all m base info); [apply Se..|].
Qed.

Lemma wp_for_each_app {A} (f : A -> M X T C F G S unit) l1 l2 m (Q : unit -> mcache -> Prop) :
  wp (for_each f l1) m (fun _ m1 => wp (for_each f l2) m1 Q) -> wp (for_each f (l1 ++ l2)) m Q.
Proof.
  revert m. induction l1 as [|a l1 IH]; intros m Hw; [by destruct Hw as ([] & m1 & es & [= <- <-] & Hw)|].
  apply wp_then. destruct Hw as ([] & m1 & es & E & Hw). cbn [for_each] in E. unfold mbind, M_bind in E.
  destruct (f a m) as [[[[] m2] es2]|] eqn:Ea; [|done]. exists tt, m2, es2. split; [done|]. apply IH.
  destruct (for_each f l1 m2) as [[[[] m3] es3]|] eqn:E3; [|done]. injection E as <- <-. by exists tt, m3, es3.
Qed.

(** The fragments of an entry that has left the map stay as they are. *)
Record gone (base : dirfrag_t F) (dirs : list Z) m : Prop := {
  go_entry : fragments m !! base = None;
  go_dirs : forall b f d, fragments m !! b = Some f -> d ∈ dirs -> d ∉ fi_dirs f
}.

Lemma gone_same base dirs b f m m' : gone base dirs m -> fragments m !! b = Some f -> spares b f m m' ->
  gone base dirs m' /\ forall d, d ∈ dirs -> mc_dirs m' !! d = mc_dirs m !! d.
Proof.
  intros [G1 G2] Hb [S1 Hg S2 _ _]. assert (base <> b) as N by congruence. split; [split|].
  - by rewrite S1.
  - intros b' f' d Hb' Hd. destruct (decide (b' = b)) as [->|N']; [rewrite (Hg f' Hb'); by apply (G2 b)|].
    rewrite S1 in Hb' by done. by apply (G2 b').
  - intros d Hd. by apply S2, (G2 b).
Qed.

Lemma search_gone (env : menv T D) cutoff base dirs l m : NoDup l -> searchable m ->
  (forall k, k ∈ l -> is_Some (fragments m !! k)) -> gone base dirs m ->
  wp (for_each (stale_one env cutoff) l) m (fun _ m' => fragments m' !! base = None /\
    forall d, d ∈ dirs -> mc_dirs m' !! d = mc_dirs m !! d).
Proof.
  intros Hn. revert m. induction Hn as [|k l Hk _ IH]; intros m Se Hp Go; [apply wp_ret; split; [apply Go|done]|].
  destruct (Hp k ltac:(by left)) as [f Hf]. apply wp_then. eapply wp_conseq; [by apply (stale_one_ok env cutoff k f)|].
  intros [] m2 [Se2 Sp]. destruct (gone_same base dirs k f m m2 Go Hf Sp) as [Go2 Hd2]. eapply wp_conseq; [apply IH; [done| |done]|].
  - intros k' Hk'. rewrite (sp_entries _ _ _ _ Sp) by (by intros ->). apply Hp. by right.
  - intros [] m' [Hg Hd]. split; [done|]. intros d Hin. by rewrite Hd, Hd2.
Qed.

(** Before the search comes to the entry. *)
Lemma search_before (env : menv T D) cutoff base info l1 l2 m : NoDup (l1 ++ base :: l2) -> searchable m ->
  (forall k, k ∈ l1 ++ base :: l2 -> is_Some (fragments m !! k)) -> fragments m !! base = Some info ->
  stalled cutoff m info -> awaited m base info ->
  wp (for_each (stale_one env cutoff) l1) m (fun _ m' => searchable m' /\ (forall k, k ∈ base :: l2 -> is_Some (fragments m' !! k)) /\
    fragments m' !! base = Some info /\ stalled cutoff m' info /\ awaited m' base info /\
    forall d, d ∈ fi_dirs info -> mc_dirs m' !! d = mc_dirs m !! d).
Proof.
  revert m. induction l1 as [|k l1 IH]; intros m Hn Se Hp Hi St Aw; [by apply wp_ret|].
  cbn in Hn, Hp. apply NoDup_cons in Hn as [Hk Hn]. destruct (Hp k ltac:(by left)) as [f Hf].
  assert (k <> base) as N by (intros ->; apply Hk, elem_of_app; right; by left).
  apply wp_then. eapply wp_conseq; [by apply (stale_one_ok env cutoff k f)|]. intros [] m2 [Se2 Sp].
  assert (forall d, d ∈ fi_dirs info -> mc_dirs m2 !! d = mc_dirs m !! d) as Hd2.
  { intros d Hd. apply (sp_dirs _ _ _ _ Sp). intros Hd'. apply N. by apply (fv_disjoint _ (se_inv _ Se) k base f info d). }
  eapply wp_conseq; [apply IH; [done|done| | |by apply (stalled_same cutoff base info k f m); [apply Se|..]|by apply (awaited_same base info k f m)]|].
  - intros k' Hk'. rewrite (sp_entries _ _ _ _ Sp) by (by intros ->). apply Hp. by right.
  - by rewrite (sp_entries _ _ _ _ Sp).
  - intros [] m' (A1 & A2 & A3 & A4 & A5 & A6). split_and!; try done. intros d Hd. by rewrite A6, Hd2.
Qed.

(** C26: No freeze blocks others for ever.  When all dentries of the fragments of an entry are marked
    but the pins that hold up its freeze have not changed for [mds_freeze_tree_timeout], and a
    peer or a freeze of the parent waits for it, then the search for stale freezes gives it up:
    the entry is gone and its fragments are thawed and unmarked, whatever happens to the other
    entries of the same search. *)
Theorem stale_freeze_given_up (env : menv T D) m base info :
  searchable m -> fragments m !! base = Some info ->
  stalled (ut_minus (me_now env) (me_freeze_tree_timeout env)) m info -> awaited m base info ->
  exists m' es, find_stale_fragment_freeze env m = Ok (tt, m', es) /\ fragments m' !! base = None /\
    forall d, d ∈ fi_dirs info -> exists y y', mc_dirs m !! d = Some y /\ mc_dirs m' !! d = Some y' /\
      md_inode y' = md_inode y /\ given_up (md_dir y) (md_dir y').
Proof.
  intros Se Hi St Aw. set (cut := ut_minus _ _) in *.
  assert (base ∈ map fst (ordered (fragments m))) as Hb by (apply elem_of_ordered_keys; by exists info).
  apply list_elem_of_split in Hb as (l1 & l2 & El). pose proof (ordered_nodup (fragments m)) as Hn.
  assert (forall k, k ∈ map fst (ordered (fragments m)) -> is_Some (fragments m !! k)) as Hp by (intros k; apply elem_of_ordered_keys).
  change ((ordered (fragments m)).*1) with (map fst (ordered (fragments m))) in Hn. rewrite El in Hn, Hp.
  enough (wp (find_stale_fragment_freeze env) m (fun _ m' => fragments m' !! base = None /\
    forall d, d ∈ fi_dirs info -> exists y y', mc_dirs m !! d = Some y /\ mc_dirs m' !! d = Some y' /\
      md_inode y' = md_inode y /\ given_up (md_dir y) (md_dir y'))) as ([] & m' & es & E & HQ) by eauto.
  unfold find_stale_fragment_freeze. apply wp_cache. rewrite El. fold cut. apply wp_for_each_app.
  eapply wp_conseq; [by apply (search_before env cut base info l1 l2)|]. intros [] m1 (Se1 & Hp1 & Hi1 & St1 & Aw1 & Hd1).
  apply wp_then. eapply wp_conseq; [by apply (stale_one_cancels env cut base info)|]. intros [] m2 Rd.
  apply NoDup_app in Hn as (_ & _ & Hn). apply NoDup_cons in Hn as [Hb Hn].
  pose proof (cancel_spares m1 base info m2 Rd) as Sp. destruct (redirs_fields _ _ _ _ Rd) as (_ & Ff & _). cbn in Ff.
  eapply wp_conseq; [apply (search_gone env cut base (fi_dirs info)); [done|by eapply searchable_cancel| |]|].
  - intros k Hk. rewrite (sp_entries _ _ _ _ Sp) by (by intros ->). apply Hp1. by right.
  - split; [by rewrite Ff, lookup_delete_eq|]. intros b f d. rewrite Ff. intros [N Hf]%lookup_delete_Some Hd Hd'.
    apply N. by apply (fv_disjoint _ (se_inv _ Se1) base b info f d).
  - intros [] m3 [G1 G2]. split; [done|]. intros d Hd. rewrite (G2 d Hd), <- (Hd1 d Hd).
    destruct (rd_in _ _ _ _ Rd d Hd) as (y & s' & Ey & Ey' & Un). exists y. eexists. split; [exact Ey|]. split; [exact Ey'|].
    split; [done|]. apply unmarked_given_up; [|done]. destruct (eo_dirs _ _ _ (fv_entry _ (se_inv _ Se1) _ _ Hi1) d Hd) as (z & Ez & _ & Bz).
    cbn in Ey. congruence.
Qed.

End Stale.

(** ** A concrete run *)

#[local] Existing Instances nosnap64 dn_ops_ex bloom_ex store_ops_ex codec_ex commit_const_ex dirent_ex bits_order bits_order_ok
  bits_split bits_tree bits_leaves frag_const_ex frag_contexts_ex bits_leaves_ok bits_frag_order.

(** The root fragment is pinned, so its freeze waits; a search notes the pins, and a peer comes to
    wait. *)
Definition pinned_cache : cacheZ := after menv_ex (Pin 10) one_dir_cache.
Definition waiting_cache : cacheZ := after menv_ex (SplitDir 10 1) pinned_cache.
Definition noted_cache : cacheZ := after menv_ex FindStale waiting_cache.
Definition awaited_cache : cacheZ := after menv_ex (AddRemoteWaiter 10) noted_cache.
Definition later_env : menv Z Q := mk_menv false false 13 (fun _ => 13) ∅ 7 200 30%Q false false false.

Lemma pinned_inv : fragmenting_inv pinned_cache /\ roomy pinned_cache.
Proof.
  split; [|apply roomy_checked; vm_compute; reflexivity]. apply after_inv; [exact one_dir_inv| |exact one_dir_roomy].
  exists read_sdir, one_inode. split; [split; by exists (mk_mdir 1 read_sdir)|]. by split.
Qed.
Lemma waiting_inv : fragmenting_inv waiting_cache /\ roomy waiting_cache.
Proof.
  split; [|apply roomy_checked; vm_compute; reflexivity]. apply after_inv; [apply pinned_inv| |apply pinned_inv].
  assert (match mc_dirs pinned_cache !! 10 with Some y => sd_is_auth (md_dir y) | None => false end = true) as Hc by (vm_compute; reflexivity).
  cbn [enabled]. destruct (mc_dirs pinned_cache !! 10) as [y|]; [|discriminate Hc]. exists y. split; [reflexivity|exact Hc].
Qed.

Lemma noted_inv : fragmenting_inv noted_cache /\ roomy noted_cache.
Proof.
  split; [|apply roomy_checked; vm_compute; reflexivity]. by apply after_inv; [apply waiting_inv| |apply waiting_inv].
Qed.
Lemma awaited_inv : fragmenting_inv awaited_cache /\ roomy awaited_cache.
Proof.
  split; [|apply roomy_checked; vm_compute; reflexivity]. apply after_inv; [apply noted_inv| |apply noted_inv].
  assert (fi_dirs <$> fragments noted_cache !! mk_dirfrag 1 [] = Some [10]) as Hc by (vm_compute; reflexivity).
  apply fmap_Some in Hc as (info & Hi & Hd). exists (mk_dirfrag 1 []), info. split; [exact Hi|]. rewrite <- Hd. by left.
Qed.
Lemma awaited_searchable : searchable awaited_cache.
Proof.
  destruct awaited_inv as [I [W Hp]]. split; [exact I| |exact Hp]. apply (world_entries 32); [exact W|lia].
Qed.

Lemma awaited_entry : exists info, fragments awaited_cache !! mk_dirfrag 1 [] = Some info /\ fi_dirs info = [10] /\
  fi_remote_waiters info = 1 /\ stalled (ut_minus (me_now later_env) (me_freeze_tree_timeout later_env)) awaited_cache info.
Proof.
  assert ((fun i => (fi_dirs i, fi_remote_waiters i, fi_all_frozen i, fi_last_change i, fi_last_pins i)) <$>
    fragments awaited_cache !! mk_dirfrag 1 [] = Some ([10], 1, false, 100, 2)) as Hc by (vm_compute; reflexivity).
  apply fmap_Some in Hc as (info & Hi & [= E1 E2 E3 E4 E5]). exists info. split; [exact Hi|]. split; [done|]. split; [done|].
  split; [done| |rewrite <- E5; lia|rewrite <- E4; reflexivity]. rewrite <- E1, <- E5.
  destruct (stale_pins_ok [10] 0 awaited_cache) as (n & m' & es & E & ->).
  { intros d ->%list_elem_of_singleton. vm_compute. by eexists. }
  assert (match stale_pins [10] 0 awaited_cache with Ok (n, _, es) => (n, length es) | Abort => (0, 1%nat) end = (2, 0%nat)) as Hn
    by (vm_compute; reflexivity).
  rewrite E in Hn |- *. injection Hn as -> Hl. by destruct es.
Qed.

Lemma abandon_releases_witness : exists m' es y', abandon 20 (mk_dirfrag 1 []) (mk_finfo 1 [10] [] 20 false 100 2 1) awaited_cache = Ok (tt, m', es) /\
  fragments m' !! mk_dirfrag 1 [] = None /\ mc_dirs m' !! 10 = Some y' /\ sd_test (md_dir y') STATE_FRAGMENTING = false.
Proof.
  assert (fragments awaited_cache !! mk_dirfrag 1 [] = Some (mk_finfo 1 [10] [] 20 false 100 2 1)) as Hi by (vm_compute; reflexivity).
  destruct (abandon_releases 20 awaited_cache _ _ (se_inv _ awaited_searchable) (se_small _ awaited_searchable) Hi)
    as (m' & es & E & _ & Ef & _ & Hd).
  destruct (Hd 10 ltac:(by left)) as (y & y' & _ & Ey & _ & [[Hs _] _ _ _]). exists m', es, y'. split; [exact E|].
  split; [rewrite Ef; apply lookup_delete_eq|]. split; [exact Ey|exact Hs].
Defined.

Lemma stale_freeze_given_up_witness : exists m' es y', find_stale_fragment_freeze later_env awaited_cache = Ok (tt, m', es) /\
  fragments m' !! mk_dirfrag 1 [] = None /\ mc_dirs m' !! 10 = Some y' /\ is_freezing_dir (sd_fdir (md_dir y')) = false.
Proof.
  destruct awaited_entry as (info & Hi & Ed & Ew & St).
  destruct (stale_freeze_given_up later_env awaited_cache (mk_dirfrag 1 []) info awaited_searchable Hi St) as (m' & es & E & Hg & Hd);
    [left; by rewrite Ew|].
  destruct (Hd 10) as (y & y' & _ & Ey & _ & [_ [Hf _] _ _]); [rewrite Ed; by left|].
  exists m', es, y'. split; [exact E|]. split; [exact Hg|]. split; [exact Ey|exact Hf].
Defined.
