(* ===== verification/FragmentJournal.v ===== *)
(** * The uncommitted fragmentations (MDCache.cc)

    [uncommitted_fragments] is what the journal says of fragmentations that are not over; each
    log segment has the set of those that keep it from being trimmed.  The functions that change
    them follow the entries of the journal: PREPARE, COMMIT, ROLLBACK and FINISH. *)

From Stdlib Require Import ZArith QArith Lia Ascii String.
From stdpp Require Import base tactics numbers list gmap sorting.
From S2P Require Import Prelude Double Stats Subtree LoadVec Keys CacheObject Dentries Freeze Versions Commit CommitMachine Fetch Fragment DirFreeze Fragmenting FragmentFreeze FragmentSafe FragmentProtocol.
Open Scope Z_scope.
Open Scope list_scope.

(** ** The specification *)

Section Journal.
Context {F : Type} `{Countable F}.

(** A fragmentation in the journal: the fragments to be removed when it is over. *)
Inductive jstate :=
| Prepared (old : list F)                   (* a crash rolls it back *)
| Committed (old : list F).                 (* a crash finishes it *)

Inductive jevent :=
| EvPrepare (base : dirfrag_t F) (bits : Z) (old : list F) (ls : Z)
| EvCommit (base : dirfrag_t F)
| EvRollback (base : dirfrag_t F) (old : list F)
| EvFinish (base : dirfrag_t F).

Definition j_old (j : jstate) : list F := match j with Prepared l | Committed l => l end.

(** One without fragments to remove is over at once. *)
Definition settle (base : dirfrag_t F) (old : list F) (new : list F) (j : gmap (dirfrag_t F) jstate) : gmap (dirfrag_t F) jstate :=
  match old with [] => delete base j | _ => <[base := Committed new]> j end.

Definition jstep (e : jevent) (j : gmap (dirfrag_t F) jstate) : gmap (dirfrag_t F) jstate :=
  match e with
  | EvPrepare base _ old _ => <[base := Prepared old]> j
  | EvCommit base => match j !! base with Some x => settle base (j_old x) (j_old x) j | None => j end
  | EvRollback base old => match j !! base with Some x => settle base (j_old x) old j | None => j end
  | EvFinish base => delete base j
  end.

(** A fragmentation is prepared once. *)
Definition j_legal (e : jevent) (j : gmap (dirfrag_t F) jstate) : Prop :=
  match e with EvPrepare base _ _ _ => j !! base = None | _ => True end.

Fixpoint j_run (es : list jevent) (j : gmap (dirfrag_t F) jstate) : gmap (dirfrag_t F) jstate :=
  match es with [] => j | e :: es => j_run es (jstep e j) end.
Fixpoint j_all_legal (es : list jevent) (j : gmap (dirfrag_t F) jstate) : Prop :=
  match es with [] => True | e :: es => j_legal e j /\ j_all_legal es (jstep e j) end.

End Journal.
Arguments jstate F : clear implicits.
Arguments jevent F : clear implicits.

(** ** The implementation *)

Section Uncommitted.
Context {X T C R D F G S : Type} `{CephConst} `{UTime T} `{Bloom} `{CDouble D} `{DecayCounter C T R D}
  `{FragSplit F} `{DirentTypes} `{CDentryOps X} `{StoreOps S} `{Codec S T} `{CommitConst X}
  `{Countable F} `{KeyOrder F} `{FragTree F} `{DirFragTree F G} `{FragConst T D}
  `{FragContexts X}.
Context (finish_op : OP_COMMIT <> OP_FINISH).
Abbreviation mcache := (mcache X T C F G S).
Implicit Types m : mcache.

Definition run_event (e : jevent F) : M X T C F G S unit :=
  match e with
  | EvPrepare base bits old ls => add_uncommitted_fragment base bits old ls None
  | EvCommit base => finish_uncommitted_fragment base OP_COMMIT
  | EvRollback base old => rollback_uncommitted_fragment base old ;; skip
  | EvFinish base => finish_uncommitted_fragment base OP_FINISH
  end.
Definition run_events (es : list (jevent F)) : M X T C F G S unit := for_each run_event es.

Definition jstate_of (uf : ufragment X T F) : jstate F :=
  if uf_committed uf then Committed (uf_old_frags uf) else Prepared (uf_old_frags uf).
Definition journal_of m : gmap (dirfrag_t F) (jstate F) := jstate_of <$> uncommitted_fragments m.

(** The sets of the segments say which fragmentations began in them. *)
Definition segments_ok m : Prop := forall base ls, base ∈ segment_of m ls <->
  exists uf, uncommitted_fragments m !! base = Some uf /\ uf_ls uf = ls.

Lemma journal_lookup m base : journal_of m !! base = jstate_of <$> uncommitted_fragments m !! base.
Proof. apply lookup_fmap. Qed.

Lemma j_old_of uf : j_old (jstate_of uf) = uf_old_frags uf.
Proof. unfold jstate_of. by destruct (uf_committed uf). Qed.

Lemma put_segments base uf uf' m : segments_ok m -> uncommitted_fragments m !! base = Some uf -> uf_ls uf' = uf_ls uf ->
  segments_ok (put_ufrag base uf' m).
Proof.
  intros So Hb El b ls. etransitivity; [apply (So b ls)|]. cbn. destruct (decide (base = b)) as [<-|N].
  - rewrite lookup_insert_eq, Hb. split; intros (u & [= <-] & <-); eauto.
  - by rewrite lookup_insert_ne.
Qed.

Lemma forget_segments base uf m : segments_ok m -> uncommitted_fragments m !! base = Some uf -> segments_ok (forget base (uf_ls uf) m).
Proof.
  intros So Hb b ls. unfold segment_of. cbn. destruct (decide (uf_ls uf = ls)) as [<-|N].
  - rewrite lookup_insert_eq. cbn. rewrite elem_of_difference, elem_of_singleton, (So b (uf_ls uf)).
    split; [intros [(u & Hu & E) N]; exists u; by rewrite lookup_delete_ne|].
    intros (u & [N Hu]%lookup_delete_Some & E). split; [by exists u|congruence].
  - rewrite lookup_insert_ne by done. etransitivity; [apply (So b ls)|]. split; intros (u & Hu & E); exists u; (split; [|done]).
    + rewrite lookup_delete_ne; [done|]. intros <-. congruence.
    + by apply lookup_delete_Some in Hu as [_ Hu].
Qed.

Lemma add_segments base bits old ls m : segments_ok m -> uncommitted_fragments m !! base = None ->
  segments_ok (set_uncommitted (<[base := mk_ufrag bits false ls [] old []]> (uncommitted_fragments m))
    (<[ls := {[base]} ∪ segment_of m ls]> (mc_segments m)) m).
Proof.
  intros So Hb b l. unfold segment_of at 1. cbn.
  assert (base <> b -> (exists uf, <[base := mk_ufrag bits false ls [] old []]> (uncommitted_fragments m) !! b = Some uf /\ uf_ls uf = l) <->
    b ∈ segment_of m l) as Ho by (intros N; rewrite lookup_insert_ne by done; symmetry; apply So).
  assert (base ∉ segment_of m l) as Hn by (rewrite (So base l), Hb; by intros (? & ? & _)).
  destruct (decide (ls = l)) as [<-|Nl]; [rewrite lookup_insert_eq; cbn; rewrite elem_of_union, elem_of_singleton|rewrite lookup_insert_ne by done; fold (segment_of m l)];
    (destruct (decide (base = b)) as [<-|N]; [rewrite lookup_insert_eq|rewrite (Ho N)]).
  - split; [eauto|by left].
  - split; [by intros [->|?]|by right].
  - split; [done|]. intros (uf & [= <-] & ?). done.
  - done.
Qed.

Lemma event_ok e m : segments_ok m -> j_legal e (journal_of m) ->
  wp (run_event e) m (fun _ m' => segments_ok m' /\ journal_of m' = jstep e (journal_of m) /\ mc_dirs m' = mc_dirs m).
Proof.
  intros So. assert (forall base uf new, uncommitted_fragments m !! base = Some uf ->
    journal_of (put_ufrag base (set_committed new uf) m) = <[base := Committed new]> (journal_of m)) as Jp.
  { intros base uf new Hb. unfold journal_of. cbn. by rewrite fmap_insert. }
  assert (forall base ls, journal_of (forget base ls m) = delete base (journal_of m)) as Jf.
  { intros base ls. unfold journal_of. cbn. by rewrite fmap_delete. }
  destruct e as [base bits old ls|base|base old|base]; cbn [run_event jstep j_legal]; rewrite ?journal_lookup.
  - intros Hb%fmap_None. unfold add_uncommitted_fragment. apply wp_cache, wp_assert; [by rewrite Hb|]. apply wp_modify_end.
    split; [by apply add_segments|]. split; [|done]. unfold journal_of. cbn. by rewrite fmap_insert.
  - intros _. unfold finish_uncommitted_fragment. apply wp_cache. destruct (uncommitted_fragments m !! base) as [uf|] eqn:Hb; [|by apply wp_ret].
    rewrite (proj2 (Z.eqb_neq _ _) finish_op). cbn [negb andb fmap option_fmap option_map]. rewrite j_old_of. destruct (uf_old_frags uf) as [|f l] eqn:Eo.
    + apply wp_emit, wp_modify_end. split_and!; [by apply forget_segments|apply Jf|done].
    + apply wp_modify_end. split_and!; [by apply (put_segments _ uf)|by apply Jp|done].
  - intros _. unfold rollback_uncommitted_fragment. apply wp_then, wp_cache. destruct (uncommitted_fragments m !! base) as [uf|] eqn:Hb; [|by apply wp_ret, wp_ret].
    cbn [fmap option_fmap option_map]. rewrite j_old_of. destruct (uf_old_frags uf) as [|f l] eqn:Eo.
    + apply wp_change, wp_ret, wp_ret. split_and!; [by apply forget_segments|apply Jf|done].
    + apply wp_change, wp_ret, wp_ret. split_and!; [by apply (put_segments _ uf)|by apply Jp|done].
  - intros _. unfold finish_uncommitted_fragment. apply wp_cache. destruct (uncommitted_fragments m !! base) as [uf|] eqn:Hb.
    + rewrite Z.eqb_refl. cbn [negb andb]. apply wp_emit, wp_modify_end. split_and!; [by apply forget_segments|apply Jf|done].
    + apply wp_ret. split_and!; [done| |done]. rewrite delete_id; [done|]. by rewrite journal_lookup, Hb.
Qed.

(** C27: The map of uncommitted fragmentations follows the journal: for any legal sequence of
    PREPARE, COMMIT, ROLLBACK and FINISH entries no assert fails, a fragmentation is in the map
    with the fragments to be removed and marked as committed exactly as the specification says,
    and a log segment has in its set exactly those of the fragmentations that began in it, so it
    is free to be trimmed once they are over. *)
Theorem uncommitted_refines es m : segments_ok m -> j_all_legal es (journal_of m) ->
  exists m' fx, run_events es m = Ok (tt, m', fx) /\ journal_of m' = j_run es (journal_of m) /\ segments_ok m' /\
    forall ls, segment_of m' ls = ∅ <-> forall base uf, uncommitted_fragments m' !! base = Some uf -> uf_ls uf <> ls.
Proof.
  intros So Hl. enough (wp (run_events es) m (fun _ m' => journal_of m' = j_run es (journal_of m) /\ segments_ok m')) as ([] & m' & fx & E & Hj & So').
  { exists m', fx. split_and!; [done..|]. intros ls. rewrite elem_of_equiv_empty_L. setoid_rewrite (So' _ ls). naive_solver. }
  revert m So Hl. induction es as [|e es IH]; intros m So Hl; [by apply wp_ret|]. destruct Hl as [He Hl]. apply wp_then.
  eapply wp_conseq; [by apply event_ok|]. intros [] m1 (So1 & Hj & _). cbn [j_run]. rewrite <- Hj in Hl |- *. by apply IH.
Qed.

End Uncommitted.

(** A split that is committed and finished, and one that is only prepared, in one segment. *)
#[local] Existing Instances nosnap64 dn_ops_ex bloom_ex store_ops_ex codec_ex commit_const_ex dirent_ex bits_order
  bits_split bits_tree bits_leaves frag_const_ex frag_contexts_ex.

Definition events_ex : list (jevent (list bool)) :=
  [EvPrepare (mk_dirfrag 1 []) 1 [[]] 7; EvPrepare (mk_dirfrag 5 []) 1 [[]] 7; EvCommit (mk_dirfrag 1 []); EvFinish (mk_dirfrag 1 [])].

Lemma uncommitted_refines_witness : exists m' fx, run_events events_ex one_dir_cache = Ok (tt, m', fx) /\
  journal_of m' = {[ mk_dirfrag 5 [] := Prepared [[]] ]} /\ segment_of m' 7 <> ∅.
Proof.
  assert (OP_COMMIT <> OP_FINISH) as No by done.
  destruct (uncommitted_refines No events_ex one_dir_cache) as (m' & fx & E & Hj & So & Hs).
  - intros base ls. unfold segment_of. cbn. rewrite lookup_empty. cbn. rewrite lookup_empty. split; [by intros ?%elem_of_empty|by intros (? & ? & _)].
  - cbn [events_ex j_all_legal j_legal]. repeat split; vm_compute; reflexivity.
  - assert (journal_of m' = {[ mk_dirfrag 5 [] := Prepared [[]] ]}) as Hj' by (rewrite Hj; vm_compute; reflexivity).
    exists m', fx. split; [exact E|]. split; [exact Hj'|]. intros He. rewrite Hs in He.
    assert (journal_of m' !! mk_dirfrag 5 [] = Some (Prepared [[]])) as Hl by (rewrite Hj'; apply lookup_singleton_eq).
    rewrite journal_lookup in Hl. apply fmap_Some in Hl as (uf & Hu & _). apply (He _ uf Hu).
    assert (match run_events events_ex one_dir_cache with Ok (_, m, _) => uf_ls <$> uncommitted_fragments m !! mk_dirfrag 5 [] | Abort => None end = Some 7) as Hc
      by (vm_compute; reflexivity).
    rewrite E, Hu in Hc. by injection Hc.
Defined.
