(* ===== verification/Daemon.v ===== *)
(** * The daemon: its life from boot to stop (MDS.cc, MDS.h)

    A daemon is in a state of the MDS map, which the monitor confirms, and wants a state, which
    it tells the monitor through the beacon.  Each new map may change its state; the change
    starts the work of the new state (replaying the journal, resolving, reconnecting the
    clients, rejoining the caches, ...), and when that work is done the daemon asks for the
    next one.

    The operations run in a small monad: they change the record [mds], which contains the
    beacon (file Beacon), leave a trace of the calls on other parts ([ev]), and may die of an
    [assert] or replace the process image ([respawn]).  A callback left with another service is
    the event [Later]; contexts that are finished are the event [FinishContexts], what they do
    are later operations.  The MDS map ([MDSMap], not in the repository) is the interface
    [MDSMapOps], what the other parts answer is the oracle [World], asked by the number of the
    question. *)

From stdpp Require Import base tactics numbers list gmap strings sorting.
From Stdlib Require Import ZArith Lia.
From S2P Require Import Prelude Stats Beacon.
Open Scope Z_scope.
Open Scope list_scope.

(** [MDSMap::DaemonState], by the names the code uses. *)
Inductive daemon_state :=
| STATE_NULL | STATE_DNE | STATE_STOPPED | STATE_BOOT | STATE_STANDBY | STATE_CREATING
| STATE_STARTING | STATE_STANDBY_REPLAY | STATE_ONESHOT_REPLAY | STATE_REPLAY | STATE_RESOLVE
| STATE_RECONNECT | STATE_REJOIN | STATE_CLIENTREPLAY | STATE_ACTIVE | STATE_STOPPING.

#[export] Instance daemon_state_eqdec : EqDecision daemon_state.
Proof. solve_decision. Defined.

(** The numbers of the states, which the code compares and tests for zero, and an error
    number of the object store. *)
Class DaemonStates := { state_val : daemon_state -> Z; EBLACKLISTED : Z }.

(** The map of the cluster; [A] is an address, [I] an instance, [CS] a compat set.  The rank
    and the state of a daemon that is not in the map are those of [get_rank_gid] and
    [get_state_gid]; [get_inst] asserts that the rank is up. *)
Class MDSMapOps (M CS A I : Type) := {
  get_epoch : M -> Z;
  get_compat : M -> CS;
  compat_writeable : CS -> bool;             (* get_mdsmap_compat_set_all().writeable() *)
  get_rank_gid : M -> Z -> Z;
  get_state_gid : M -> Z -> daemon_state;
  get_inc_gid : M -> Z -> Z;
  get_mds_info : M -> gmap Z A;              (* the address of each daemon, by its gid *)
  info_standby_for_rank : M -> Z -> Z;
  find_mds_gid_by_name : M -> string -> Z;   (* 0 when there is none *)
  is_resolving : M -> bool;
  is_rejoining : M -> bool;
  get_mds_set : M -> daemon_state -> gset Z;
  get_recovery_mds_set : M -> gset Z;
  get_failed_mds_set : M -> gset Z;
  get_stopped_mds_set : M -> gset Z;
  get_up_mds_set : M -> gset Z;
  get_serving_mds_set : M -> gset Z;         (* clientreplay, active or stopping *)
  have_inst : M -> Z -> bool;
  get_inst : M -> Z -> res I;
  inst_addr : I -> A;
  inst_eqdec :: EqDecision I;
  is_up : M -> Z -> bool;
  is_down : M -> Z -> bool;
  get_root : M -> Z;
  get_tableserver : M -> Z;
  get_num_in_mds : M -> Z;
  get_num_failed_mds : M -> Z;
  get_last_failure_osd_epoch : M -> Z
}.

(** Questions to the other parts of the daemon. *)
Inductive question :=
| QHealthy             (* the heartbeat map is healthy *)
| QExec                (* execv replaces the process *)
| QOsdmapReady (e : Z) (* objecter->wait_for_map(e) *)
| QSubtrees            (* mdcache->is_subtrees() *)
| QSessionsEmpty       (* sessionmap.empty() *)
| QObjecterInit        (* objecter->initialized *)
| QJournalAtEnd        (* the read position is the write position *)
| QSnapserver          (* snapserver != NULL *)
| QCacheOpen           (* mdcache->is_open() *)
| QShutdownPass.       (* mdcache->shutdown_pass() *)
Inductive nquestion :=
| NReadPos | NTrimmedPos | NStreamFormat | NOsdEpoch | NClientIncarnation | NClientRequests.

Class World (T : Type) := {
  w_now : nat -> T;
  w_yes : question -> nat -> bool;
  w_num : nquestion -> nat -> Z;
  w_view : nat -> mds_view (T := T)          (* what notify_health is shown *)
}.

(** Options of [g_conf]. *)
Record mds_conf := mk_mds_conf {
  mds_kill_create_at : Z;
  mds_journal_format : Z;
  mds_wipe_sessions : bool;
  mds_wipe_ino_prealloc : bool;
  mds_skip_ino : Z;
  mds_dump_cache_on_map : bool;
  mds_dump_cache_after_rejoin : bool;
  mds_enforce_unique_name : bool;
  mds_action_on_write_error : Z;
  mds_standby_replay : bool;
  mds_standby_for_rank : Z;
  mds_standby_for_name : string
}.

Inductive boot_step := MDS_BOOT_INITIAL | MDS_BOOT_OPEN_ROOT | MDS_BOOT_PREPARE_LOG | MDS_BOOT_REPLAY_DONE.

(** The callbacks of this file. *)
Inductive kont :=
| C_MDS_CreateFinish
| C_MDS_BootStart (next : boot_step)
| C_MDS_StandbyReplayRestartFinish (old_read_pos : Z)
| C_MDS_StandbyReplayRestart
| C_MDS_Tick.

#[export] Instance boot_step_eqdec : EqDecision boot_step.
Proof. solve_decision. Defined.
#[export] Instance kont_eqdec : EqDecision kont.
Proof. solve_decision. Defined.

Inductive cache_call :=
| InitLayouts | CreateEmptyHierarchy | CreateMydirHierarchy | OpenMydirInode | OpenRootInode
| CreateRootInode | OpenRoot | SetRecoverySet (rs : gset Z) | RollbackUncommittedFragments
| ResolveStart | SendResolves | RejoinSendRejoins | RejoinStart | ShowSubtrees | ShowCache
| CleanOpenFileLists | ExportRemainingImportedCaps | StartRecoveredTruncates | DoFileRecover
| ReissueAllCaps | PopulateMydir | CacheMdsRecovery (who : Z) | CacheMdsFailure (who : Z)
| MigratorMdsStopped (who : Z) | ShutdownStart | ForceReadonly
| KickDiscovers (who : Z) | KickOpenInoPeers (who : Z) | DumpCache | CacheTrim
| TrimClientLeases | CheckMemoryUsage | LogStat | FindStaleFragmentFreeze | FindStaleExportFreeze.

Inductive log_call :=
| LogCreate | LogPrepareNewSegment | LogJournalSubtreeMap | LogFlush | LogOpen | LogReplay
| LogAppend | LogStartNewSegment | LogStandbyTrim | LogRereadHeadAndProbe | LogReopen
| LogSetWriteable | LogTrimTail | LogTrim.

(** What [suicide] stops. *)
Inductive service :=
| SvcLog | SvcFinisher | SvcTimerEvents | SvcTimer | SvcAdminSocket | SvcCache | SvcObjecter
| SvcMonc | SvcOpTracker | SvcProgress | SvcMessenger | SvcHeartbeat.

Inductive table := TInotable | TSessionmap | TSnapserver.
Inductive table_call := TSetRank (r : Z) | TReset | TSave | TLoad | TWipe | TWipeInoPrealloc | TSkipInos (n : Z).

Inductive ev (T CS C A : Type) :=
| Bcn (e : beffect T CS)
| Later (k : kont)
| FinishContexts (ls : list C)
| Cache (c : cache_call)
| Log (c : log_call)
| Table (t : table) (c : table_call)
| SnapFinishRecovery (active : gset Z)
| SnapMdsRecovery (who : Z)
| SnapclientMdsFailure (who : Z)
| SnapCheckOsdMap (force : bool)
| MarkDown (a : A)
| SetMyname (n : Z)
| SubGot (e : Z)
| SetClientIncarnation (i : Z)
| TryRebalance
| BalancerTick
| LockerTick
| FindIdleSessions
| ReconnectTick
| ReconnectClients
| CheckOps
| Signal                            (* progress_thread.signal() *)
| ResetTimeout                      (* heartbeat map *)
| CancelTick
| Execv
| Stop (s : service).
Arguments Bcn {T CS C A}.
Arguments Later {T CS C A}.
Arguments FinishContexts {T CS C A}.
Arguments Cache {T CS C A}.
Arguments Log {T CS C A}.
Arguments Table {T CS C A}.
Arguments SnapFinishRecovery {T CS C A}.
Arguments SnapMdsRecovery {T CS C A}.
Arguments SnapclientMdsFailure {T CS C A}.
Arguments SnapCheckOsdMap {T CS C A}.
Arguments MarkDown {T CS C A}.
Arguments SetMyname {T CS C A}.
Arguments SubGot {T CS C A}.
Arguments SetClientIncarnation {T CS C A}.
Arguments TryRebalance {T CS C A}.
Arguments BalancerTick {T CS C A}.
Arguments LockerTick {T CS C A}.
Arguments FindIdleSessions {T CS C A}.
Arguments ReconnectTick {T CS C A}.
Arguments ReconnectClients {T CS C A}.
Arguments CheckOps {T CS C A}.
Arguments Signal {T CS C A}.
Arguments ResetTimeout {T CS C A}.
Arguments CancelTick {T CS C A}.
Arguments Execv {T CS C A}.
Arguments Stop {T CS C A}.

Section Daemon.
Context {T CS C M A I G : Type}.
Context `{BeaconTime T} `{DaemonStates} `{MDSMapOps M CS A I} `{World T}.
Context (compat_default : CS) (compat_merge : CS -> CS -> CS) (bconf : beacon_conf T) (conf : mds_conf).
(** [monc->get_global_id()] and the name of the daemon *)
Context (gid : Z) (name : string).
Abbreviation ev := (ev T CS C A).

Record mds := mk_mds {
  whoami : Z;
  incarnation : Z;
  standby_for_rank : Z;
  standby_for_name : string;
  standby_type : daemon_state;
  standby_replaying : bool;
  mdsmap : M;
  last_state : daemon_state;
  state : daemon_state;
  want_state : daemon_state;
  waiting_for_active : list C;
  waiting_for_replay : list C;
  waiting_for_reconnect : list C;
  waiting_for_resolve : list C;
  replay_queue : list C;
  waiting_for_active_peer : gmap Z (list C);
  waiting_for_nolaggy : list G;
  waiting_for_mdsmap : gmap Z (list C);
  finished_queue : list C;
  peer_mdsmap_epoch : gmap Z Z;
  osd_epoch_barrier : Z;
  dispatch_depth : Z;
  hb : bool;                      (* the heartbeat handle is not NULL *)
  tick_event : bool;
  progress_stopping : bool;
  beacon_ : beacon T CS;
  reads : nat                     (* questions asked of the world *)
}.

Definition eta (s : mds) : mds :=
  mk_mds (whoami s) (incarnation s) (standby_for_rank s) (standby_for_name s) (standby_type s)
    (standby_replaying s) (mdsmap s) (last_state s) (state s) (want_state s) (waiting_for_active s)
    (waiting_for_replay s) (waiting_for_reconnect s) (waiting_for_resolve s) (replay_queue s)
    (waiting_for_active_peer s) (waiting_for_nolaggy s) (waiting_for_mdsmap s) (finished_queue s)
    (peer_mdsmap_epoch s) (osd_epoch_barrier s) (dispatch_depth s) (hb s) (tick_event s)
    (progress_stopping s) (beacon_ s) (reads s).

(** The record [s] with [v] in the field [getter]. *)
Ltac with_field s getter v :=
  let r := eval cbv beta delta [eta] in (eta s) in
  match r with context X [getter s] => let r' := context X [v] in exact r' end.

Definition set_whoami (v : Z) (s : mds) : mds := ltac:(with_field s whoami v).
Definition set_incarnation (v : Z) (s : mds) : mds := ltac:(with_field s incarnation v).
Definition set_standby_for_rank (v : Z) (s : mds) : mds := ltac:(with_field s standby_for_rank v).
Definition set_standby_for_name (v : string) (s : mds) : mds := ltac:(with_field s standby_for_name v).
Definition set_standby_type (v : daemon_state) (s : mds) : mds := ltac:(with_field s standby_type v).
Definition set_standby_replaying (v : bool) (s : mds) : mds := ltac:(with_field s standby_replaying v).
Definition set_mdsmap (v : M) (s : mds) : mds := ltac:(with_field s mdsmap v).
Definition set_last_state (v : daemon_state) (s : mds) : mds := ltac:(with_field s last_state v).
Definition set_state (v : daemon_state) (s : mds) : mds := ltac:(with_field s state v).
Definition set_want (v : daemon_state) (s : mds) : mds := ltac:(with_field s want_state v).
Definition set_for_active (v : list C) (s : mds) : mds := ltac:(with_field s waiting_for_active v).
Definition set_for_replay (v : list C) (s : mds) : mds := ltac:(with_field s waiting_for_replay v).
Definition set_for_reconnect (v : list C) (s : mds) : mds := ltac:(with_field s waiting_for_reconnect v).
Definition set_for_resolve (v : list C) (s : mds) : mds := ltac:(with_field s waiting_for_resolve v).
Definition set_replay_queue (v : list C) (s : mds) : mds := ltac:(with_field s replay_queue v).
Definition set_for_peer (v : gmap Z (list C)) (s : mds) : mds := ltac:(with_field s waiting_for_active_peer v).
Definition set_nolaggy (v : list G) (s : mds) : mds := ltac:(with_field s waiting_for_nolaggy v).
Definition set_for_map (v : gmap Z (list C)) (s : mds) : mds := ltac:(with_field s waiting_for_mdsmap v).
Definition set_finished (v : list C) (s : mds) : mds := ltac:(with_field s finished_queue v).
Definition set_peer_epoch (v : gmap Z Z) (s : mds) : mds := ltac:(with_field s peer_mdsmap_epoch v).
Definition set_barrier (v : Z) (s : mds) : mds := ltac:(with_field s osd_epoch_barrier v).
Definition set_depth (v : Z) (s : mds) : mds := ltac:(with_field s dispatch_depth v).
Definition set_hb (v : bool) (s : mds) : mds := ltac:(with_field s hb v).
Definition set_tick_event (v : bool) (s : mds) : mds := ltac:(with_field s tick_event v).
Definition set_stopping (v : bool) (s : mds) : mds := ltac:(with_field s progress_stopping v).
Definition set_beacon (v : beacon T CS) (s : mds) : mds := ltac:(with_field s beacon_ v).
Definition set_reads (v : nat) (s : mds) : mds := ltac:(with_field s reads v).

(** ** The monad *)

Inductive out (X : Type) :=
| Ret (x : X) (s : mds) (t : list ev)
| Died (t : list ev)
| Execed (t : list ev).
Arguments Ret {X}.
Arguments Died {X}.
Arguments Execed {X}.

Definition after {X} (t : list ev) (o : out X) : out X :=
  match o with
  | Ret x s t' => Ret x s (t ++ t')
  | Died t' => Died (t ++ t')
  | Execed t' => Execed (t ++ t')
  end.

Definition D (X : Type) : Type := mds -> out X.

#[export] Instance D_ret : MRet D := fun X x s => Ret x s [].
#[export] Instance D_bind : MBind D := fun X Y f m s =>
  match m s with
  | Ret x s' t => after t (f x s')
  | Died t => Died t
  | Execed t => Execed t
  end.

Definition skip : D unit := mret tt.
Definition tell (e : ev) : D unit := fun s => Ret tt s [e].
Definition gets {X} (f : mds -> X) : D X := fun s => Ret (f s) s [].
Definition modify (f : mds -> mds) : D unit := fun s => Ret tt (f s) [].
Definition must (b : bool) : D unit := fun s => if b then Ret tt s [] else Died [].
Definition lift_res {X} (r : res X) : D X := fun s => match r with Ok x => Ret x s [] | Abort => Died [] end.
Definition when (b : bool) (m : D unit) : D unit := if b then m else skip.

Definition ask (q : question) : D bool := fun s => Ret (w_yes q (reads s)) (set_reads (S (reads s)) s) [].
Definition ask_num (q : nquestion) : D Z := fun s => Ret (w_num q (reads s)) (set_reads (S (reads s)) s) [].
Definition ceph_clock_now : D T := fun s => Ret (w_now (reads s)) (set_reads (S (reads s)) s) [].
Definition ask_view : D (mds_view (T := T)) := fun s => Ret (w_view (reads s)) (set_reads (S (reads s)) s) [].

Fixpoint each {X} (f : X -> D unit) (l : list X) : D unit :=
  match l with
  | [] => skip
  | x :: l => f x ;; each f l
  end.

(** ** States and the beacon *)

Definition in_state (x : daemon_state) (s : mds) : bool := bool_decide (state s = x).
Definition is_any_replay (s : mds) : bool :=
  in_state STATE_REPLAY s || in_state STATE_STANDBY_REPLAY s || in_state STATE_ONESHOT_REPLAY s.

Definition with_beacon (f : beacon T CS -> beacon T CS * list (beffect T CS)) : D unit :=
  b ← gets beacon_;
  let '(b, es) := f b in
  modify (set_beacon b) ;; each (fun e => tell (Bcn e)) es.

Definition beacon_send : D unit :=
  healthy ← ask QHealthy;
  now ← ceph_clock_now;
  with_beacon (Beacon.send bconf healthy now).

Definition beacon_laggy : D bool :=
  now ← ceph_clock_now;
  b ← gets beacon_;
  let '(b, es, r) := Beacon.is_laggy bconf now b in
  modify (set_beacon b) ;; each (fun e => tell (Bcn e)) es ;; mret r.

Definition set_want_state (newstate : daemon_state) : D unit :=
  w ← gets want_state;
  when (negb (bool_decide (w = newstate)))
    (modify (set_want newstate) ;;
     with_beacon (fun b => (notify_want_state (state_val newstate) b, []))).

Definition request_state (x : daemon_state) : D unit := set_want_state x ;; beacon_send.

Definition queue_waiter (c : C) : D unit :=
  modify (fun s => set_finished (finished_queue s ++ [c]) s) ;; tell Signal.
Definition queue_waiters (ls : list C) : D unit :=
  modify (fun s => set_finished (finished_queue s ++ ls) s) ;; tell Signal.
Definition queue_one_replay : D bool :=
  q ← gets replay_queue;
  match q with
  | [] => mret false
  | c :: q => queue_waiter c ;; modify (set_replay_queue q) ;; mret true
  end.

(** [finish_contexts] on a list of the daemon, which it empties first *)
Definition finish_contexts (get_ : mds -> list C) (set_ : list C -> mds -> mds) : D unit :=
  ls ← gets get_;
  match ls with
  | [] => skip
  | _ => modify (set_ []) ;; tell (FinishContexts ls)
  end.

(** ** Death *)

Definition suicide : D unit :=
  set_want_state STATE_DNE ;;
  tell (Stop SvcLog) ;;
  tell (Stop SvcFinisher) ;;
  with_beacon Beacon.shutdown ;;
  armed ← gets tick_event;
  when armed (tell CancelTick ;; modify (set_tick_event false)) ;;
  tell (Stop SvcTimerEvents) ;;
  tell (Stop SvcTimer) ;;
  tell (Stop SvcAdminSocket) ;;
  tell (Stop SvcCache) ;;
  init ← ask QObjecterInit;
  when init (tell (Stop SvcObjecter)) ;;
  tell (Stop SvcMonc) ;;
  tell (Stop SvcOpTracker) ;;
  modify (set_stopping true) ;; tell (Stop SvcProgress) ;;
  tell (Stop SvcMessenger) ;;
  h ← gets hb;
  when h (tell (Stop SvcHeartbeat) ;; modify (set_hb false)).

(** [execv] returns only when it fails. *)
Definition replace_process : D unit := fun _ => Execed [Execv].
Definition respawn : D unit :=
  ok ← ask QExec;
  if (ok : bool) then replace_process else suicide.

Definition handle_signal : D unit := suicide.

Definition handle_write_error (err : Z) : D unit :=
  if err =? - EBLACKLISTED then respawn
  else if 2 <=? mds_action_on_write_error conf then suicide
  else if mds_action_on_write_error conf =? 1 then tell (Cache ForceReadonly)
  else skip.

Definition heartbeat_reset : D unit :=
  h ← gets hb;
  if (h : bool) then tell ResetTimeout
  else w ← gets want_state; must (bool_decide (w = STATE_DNE)).

Definition set_osd_epoch_barrier (e : Z) : D unit := modify (set_barrier e).

(** ** Creating and starting *)

Definition boot_create : D unit :=
  me ← gets whoami;
  m ← gets mdsmap;
  tell (Cache InitLayouts) ;;
  tell (Table TSnapserver (TSetRank me)) ;;
  tell (Table TInotable (TSetRank me)) ;;
  tell (Table TSessionmap (TSetRank me)) ;;
  tell (Log LogCreate) ;;
  tell (Log LogPrepareNewSegment) ;;
  when (me =? get_root m) (tell (Cache CreateEmptyHierarchy)) ;;
  tell (Cache CreateMydirHierarchy) ;;
  tell (Table TInotable TReset) ;;
  tell (Table TInotable TSave) ;;
  tell (Table TSessionmap TSave) ;;
  when (get_tableserver m =? me) (tell (Table TSnapserver TReset) ;; tell (Table TSnapserver TSave)) ;;
  must (negb (mds_kill_create_at conf =? 1)) ;;
  tell (Log LogJournalSubtreeMap) ;;
  tell (Log LogFlush) ;;
  tell (Later C_MDS_CreateFinish).

Definition creating_done : D unit := request_state STATE_ACTIVE.

Definition starting_done : D unit :=
  st ← gets (in_state STATE_STARTING);
  must st ;;
  request_state STATE_ACTIVE ;;
  tell (Cache OpenRoot) ;;
  tell (Log LogStartNewSegment).

(** ** Replay *)

Definition calc_recovery_set : D unit :=
  m ← gets mdsmap;
  me ← gets whoami;
  tell (Cache (SetRecoverySet (get_recovery_mds_set m ∖ {[me]}))).

Definition reread_head : D unit :=
  pos ← ask_num NReadPos;
  tell (Log LogRereadHeadAndProbe) ;;
  tell (Later (C_MDS_StandbyReplayRestartFinish pos)).

(** [objecter->wait_for_map]: whether the map is there; if not, [fin] is left with the objecter. *)
Definition wait_for_map (fin : kont) : D bool :=
  m ← gets mdsmap;
  ready ← ask (QOsdmapReady (get_last_failure_osd_epoch m));
  if (ready : bool) then mret true else tell (Later fin) ;; mret false.

Definition standby_replay_restart : D unit :=
  sb ← gets standby_replaying;
  if (sb : bool) then reread_head
  else
    ready ← wait_for_map (C_MDS_BootStart MDS_BOOT_PREPARE_LOG);
    when ready reread_head.

Definition replay_done : D unit :=
  oneshot ← gets (in_state STATE_ONESHOT_REPLAY);
  standby ← gets (in_state STATE_STANDBY_REPLAY);
  sb ← gets standby_replaying;
  if (oneshot : bool) then suicide
  else if (standby : bool) then
    must sb ;; tell (Later C_MDS_StandbyReplayRestart)
  else if (sb : bool) then
    modify (set_standby_replaying false) ;; standby_replay_restart
  else
    at_end ← ask QJournalAtEnd;
    must at_end ;;
    must (negb standby) ;;
    fmt ← ask_num NStreamFormat;
    if fmt <? mds_journal_format conf then
      tell (Log LogReopen) ;; tell (Later (C_MDS_BootStart MDS_BOOT_REPLAY_DONE))
    else
      tell (Log LogSetWriteable) ;;
      tell (Log LogTrimTail) ;;
      when (mds_wipe_sessions conf) (tell (Table TSessionmap TWipe) ;; tell (Table TSessionmap TSave)) ;;
      when (mds_wipe_ino_prealloc conf)
        (tell (Table TSessionmap TWipeInoPrealloc) ;; tell (Table TSessionmap TSave)) ;;
      when (negb (mds_skip_ino conf =? 0))
        (tell (Table TInotable (TSkipInos (mds_skip_ino conf))) ;; tell (Table TInotable TSave)) ;;
      m ← gets mdsmap;
      if (get_num_in_mds m =? 1) && (get_num_failed_mds m =? 0)
      then request_state STATE_RECONNECT
      else request_state STATE_RESOLVE.

Definition EAGAIN : Z := 11.

(** the steps of the boot *)
Definition boot_run (step : boot_step) : D unit :=
  me ← gets whoami;
  m ← gets mdsmap;
  starting ← gets (in_state STATE_STARTING);
  replaying ← gets is_any_replay;
  match step with
  | MDS_BOOT_INITIAL =>
      tell (Cache InitLayouts) ;;
      tell (Table TInotable (TSetRank me)) ;; tell (Table TInotable TLoad) ;;
      tell (Table TSessionmap (TSetRank me)) ;; tell (Table TSessionmap TLoad) ;;
      tell (Log LogOpen) ;;
      when (get_tableserver m =? me)
        (tell (Table TSnapserver (TSetRank me)) ;; tell (Table TSnapserver TLoad)) ;;
      tell (Later (C_MDS_BootStart MDS_BOOT_OPEN_ROOT))
  | MDS_BOOT_OPEN_ROOT =>
      tell (Cache OpenMydirInode) ;;
      (if (starting : bool) || (me =? get_root m) then tell (Cache OpenRootInode)
       else tell (Cache CreateRootInode)) ;;
      tell (Later (C_MDS_BootStart MDS_BOOT_PREPARE_LOG))
  | MDS_BOOT_PREPARE_LOG =>
      if (replaying : bool) then
        tell (Log LogReplay) ;; tell (Later (C_MDS_BootStart MDS_BOOT_REPLAY_DONE))
      else tell (Log LogAppend) ;; starting_done
  | MDS_BOOT_REPLAY_DONE => must replaying ;; replay_done
  end.

Definition boot_start (step : boot_step) (r : Z) : D unit :=
  standby ← gets (in_state STATE_STANDBY_REPLAY);
  go ← (if r <? 0 then
          if (standby : bool) && (r =? - EAGAIN) then respawn ;; mret true
          else suicide ;; mret false
        else mret true);
  when go
    (ok ← gets (fun s => in_state STATE_STARTING s || is_any_replay s);
     must ok ;; boot_run step).

Definition replay_start : D unit :=
  standby ← gets (in_state STATE_STANDBY_REPLAY);
  when standby (modify (set_standby_replaying true)) ;;
  modify (set_standby_type STATE_NULL) ;;
  calc_recovery_set ;;
  ready ← wait_for_map (C_MDS_BootStart MDS_BOOT_INITIAL);
  when ready (boot_start MDS_BOOT_INITIAL 0).

Definition _standby_replay_restart_finish (r old_read_pos : Z) : D unit :=
  trimmed ← ask_num NTrimmedPos;
  if old_read_pos <? trimmed then respawn
  else tell (Log LogStandbyTrim) ;; boot_start MDS_BOOT_PREPARE_LOG r.

(** ** The states of recovery, active and stopping *)

Definition reopen_log : D unit := tell (Cache RollbackUncommittedFragments).

Definition resolve_start : D unit :=
  reopen_log ;; tell (Cache ResolveStart) ;; finish_contexts waiting_for_resolve set_for_resolve.
Definition resolve_done : D unit := request_state STATE_RECONNECT.

Definition reconnect_start : D unit :=
  l ← gets last_state;
  when (bool_decide (l = STATE_REPLAY)) reopen_log ;;
  tell ReconnectClients ;;
  finish_contexts waiting_for_reconnect set_for_reconnect.
Definition reconnect_done : D unit := request_state STATE_REJOIN.

Definition rejoin_joint_start : D unit := tell (Cache RejoinSendRejoins).
Definition rejoin_start : D unit := tell (Cache RejoinStart).

Definition rejoin_done : D unit :=
  tell (Cache ShowSubtrees) ;; tell (Cache ShowCache) ;;
  subtrees ← ask QSubtrees;
  if negb subtrees then request_state STATE_STOPPED
  else
    q ← gets replay_queue;
    match q with
    | [] => request_state STATE_ACTIVE
    | _ => request_state STATE_CLIENTREPLAY
    end.

Definition clientreplay_start : D unit :=
  finish_contexts waiting_for_replay set_for_replay ;; queue_one_replay ;; skip.
Definition clientreplay_done : D unit := request_state STATE_ACTIVE.

Definition active_start : D unit :=
  l ← gets last_state;
  when (bool_decide (l = STATE_CREATING)) (tell (Cache OpenRoot)) ;;
  tell (Cache CleanOpenFileLists) ;;
  tell (Cache ExportRemainingImportedCaps) ;;
  finish_contexts waiting_for_replay set_for_replay ;;
  finish_contexts waiting_for_active set_for_active.

Definition recovery_done (oldstate : daemon_state) : D unit :=
  ok ← gets (fun s => in_state STATE_CLIENTREPLAY s || in_state STATE_ACTIVE s);
  must ok ;;
  me ← gets whoami;
  m ← gets mdsmap;
  when (get_tableserver m =? me) (tell (SnapFinishRecovery (get_serving_mds_set m))) ;;
  when (negb (bool_decide (oldstate = STATE_CREATING)))
    (tell (Cache StartRecoveredTruncates) ;; tell (Cache DoFileRecover) ;;
     tell (Cache ReissueAllCaps) ;; tell (Cache PopulateMydir)).

Definition handle_mds_recovery (who : Z) : D unit :=
  tell (Cache (CacheMdsRecovery who)) ;;
  me ← gets whoami;
  m ← gets mdsmap;
  when (get_tableserver m =? me) (tell (SnapMdsRecovery who)) ;;
  w ← gets waiting_for_active_peer;
  queue_waiters (default [] (w !! who)) ;;
  modify (fun s => set_for_peer (delete who (waiting_for_active_peer s)) s).

Definition handle_mds_failure (who : Z) : D unit :=
  me ← gets whoami;
  when (negb (who =? me)) (tell (Cache (CacheMdsFailure who)) ;; tell (SnapclientMdsFailure who)).

Definition stopping_start : D unit :=
  m ← gets mdsmap;
  empty ← ask QSessionsEmpty;
  when ((get_num_in_mds m =? 1) && negb empty) suicide ;;
  tell (Cache ShutdownStart).
Definition stopping_done : D unit := request_state STATE_STOPPED.

(** ** A new map *)

Definition beacon_notify_mdsmap : D unit :=
  m ← gets mdsmap;
  with_beacon (fun b => (notify_mdsmap compat_default compat_merge (mk_mdsmap (get_epoch m) (get_compat m)) b, [])).

(** [peer_mdsmap_epoch[rank] < epoch] *)
Definition note_peer_epoch (src : option Z) (epoch : Z) : D unit :=
  match src with
  | None => skip
  | Some r =>
      p ← gets peer_mdsmap_epoch;
      when (default 0 (p !! r) <? epoch) (modify (set_peer_epoch (<[r := epoch]> p)))
  end.

(** the daemon is not in the map, or is not what it was: whether to go on *)
Definition not_in_map : D bool :=
  st ← gets state;
  w ← gets want_state;
  m ← gets mdsmap;
  if bool_decide (st = STATE_STANDBY_REPLAY) || bool_decide (st = STATE_ONESHOT_REPLAY) then
    modify (set_whoami (info_standby_for_rank m gid)) ;; mret true
  else if bool_decide (w = STATE_STANDBY) then
    modify (set_state STATE_BOOT) ;; set_want_state STATE_BOOT ;; mret false
  else if bool_decide (w = STATE_BOOT) then mret false
  else
    let existing := find_mds_gid_by_name m name in
    (if mds_enforce_unique_name conf && negb (existing =? 0) && (gid <? existing)
     then suicide else respawn) ;; mret false.

(** who the map says we are, up to the first [goto out]; whether to go on *)
Definition identify (oldmap : M) (oldstate : daemon_state) : D bool :=
  m ← gets mdsmap;
  modify (set_whoami (get_rank_gid m gid)) ;;
  modify (set_state (get_state_gid m gid)) ;;
  modify (set_incarnation (get_inc_gid m gid)) ;;
  each (fun p : Z * A => when (bool_decide (get_mds_info m !! p.1 = None)) (tell (MarkDown p.2)))
    (ordered (get_mds_info oldmap)) ;;
  st ← gets state;
  when (negb (bool_decide (st = oldstate))) (modify (set_last_state oldstate)) ;;
  ty ← gets standby_type;
  if bool_decide (st = STATE_STANDBY) then
    set_want_state STATE_STANDBY ;;
    when (negb (state_val ty =? 0)) (request_state ty) ;;
    mret false
  else if bool_decide (st = STATE_STANDBY_REPLAY) && negb (bool_decide (ty = STATE_NULL)) &&
          negb (bool_decide (ty = STATE_STANDBY_REPLAY)) then
    set_want_state ty ;; beacon_send ;; modify (set_state oldstate) ;; mret false
  else
    me ← gets whoami;
    if me <? 0 then not_in_map else mret true.

(** [set_myname] and the objecter's incarnation *)
Definition rename (oldwhoami : Z) (oldstate : daemon_state) : D unit :=
  me ← gets whoami;
  st ← gets state;
  when (negb (oldwhoami =? me) || negb (bool_decide (oldstate = st)))
    (if bool_decide (st = STATE_STANDBY_REPLAY) || bool_decide (st = STATE_ONESHOT_REPLAY)
     then tell (SetMyname gid) else tell (SetMyname me)) ;;
  inc ← ask_num NClientIncarnation;
  i ← gets incarnation;
  when (negb (inc =? i)) (tell (SetClientIncarnation i)) ;;
  when (mds_dump_cache_on_map conf) (tell (Cache DumpCache)).

(** the work of the new state *)
Definition enter_state (oldstate : daemon_state) : D unit :=
  st ← gets state;
  match st with
  | STATE_ACTIVE => active_start
  | STATE_REPLAY | STATE_STANDBY_REPLAY | STATE_ONESHOT_REPLAY => replay_start
  | STATE_RESOLVE => resolve_start
  | STATE_RECONNECT => reconnect_start
  | STATE_REJOIN => rejoin_start
  | STATE_CLIENTREPLAY => clientreplay_start
  | STATE_CREATING => boot_create
  | STATE_STARTING => boot_start MDS_BOOT_INITIAL 0
  | STATE_STOPPING => must (bool_decide (oldstate = STATE_ACTIVE)) ;; stopping_start
  | _ => skip
  end.

Definition recovers_from (oldstate : daemon_state) : bool :=
  match oldstate with STATE_CREATING | STATE_REJOIN | STATE_RECONNECT => true | _ => false end.

Definition state_change (oldstate : daemon_state) : D unit :=
  st ← gets state;
  when (negb (bool_decide (oldstate = st)))
    (set_want_state st ;;
     if bool_decide (oldstate = STATE_STANDBY_REPLAY) then must (bool_decide (st = STATE_REPLAY))
     else
       when ((bool_decide (st = STATE_ACTIVE) || bool_decide (st = STATE_CLIENTREPLAY)) && recovers_from oldstate)
         (recovery_done oldstate) ;;
       enter_state oldstate).

(** the tests of the phases below *)
Definition serving (st : daemon_state) : bool :=
  match st with STATE_CLIENTREPLAY | STATE_ACTIVE | STATE_STOPPING => true | _ => false end.
Definition rejoined (st : daemon_state) : bool :=
  match st with STATE_REJOIN => true | _ => serving st end.
Definition resolved (st : daemon_state) : bool :=
  match st with STATE_RESOLVE | STATE_RECONNECT => true | _ => rejoined st end.

Definition resolve_phase (oldmap : M) : D unit :=
  st ← gets state;
  m ← gets mdsmap;
  when (resolved st && negb (is_resolving oldmap) && is_resolving m)
    (calc_recovery_set ;; tell (Cache SendResolves)).

Definition discoverable (m : M) : gset Z :=
  get_mds_set m STATE_ACTIVE ∪ get_mds_set m STATE_CLIENTREPLAY ∪ get_mds_set m STATE_REJOIN.
Definition activated (m : M) : gset Z := get_mds_set m STATE_ACTIVE ∪ get_mds_set m STATE_CLIENTREPLAY.

Definition rejoin_phase (oldmap : M) (oldstate : daemon_state) : D unit :=
  st ← gets state;
  m ← gets mdsmap;
  me ← gets whoami;
  when (rejoined st)
    (when (negb (is_rejoining oldmap) && is_rejoining m) rejoin_joint_start ;;
     when (mds_dump_cache_after_rejoin conf && is_rejoining oldmap && negb (is_rejoining m)) (tell (Cache DumpCache)) ;;
     when (state_val STATE_REJOIN <=? state_val oldstate)
       (each (fun p => when (negb (p =? me) && negb (bool_decide (p ∈ discoverable oldmap)))
                (tell (Cache (KickDiscovers p)) ;; tell (Cache (KickOpenInoPeers p))))
          (ordered_elems (discoverable m)))).

Definition active_phase (oldmap : M) (oldstate : daemon_state) : D unit :=
  st ← gets state;
  m ← gets mdsmap;
  me ← gets whoami;
  when ((state_val STATE_CLIENTREPLAY <=? state_val oldstate) && serving st)
    (each (fun p => when (negb (p =? me) && negb (bool_decide (p ∈ activated oldmap))) (handle_mds_recovery p))
       (ordered_elems (activated m))).

Definition failed_peer (oldmap : M) (p : Z) : D unit :=
  i ← lift_res (get_inst oldmap p);
  tell (MarkDown (inst_addr i)) ;; handle_mds_failure p.

Definition failed_phase (oldmap : M) : D unit :=
  m ← gets mdsmap;
  each (fun p => when (negb (bool_decide (p ∈ get_failed_mds_set oldmap))) (failed_peer oldmap p))
    (ordered_elems (get_failed_mds_set m)) ;;
  each (fun p => when (have_inst oldmap p)
          (o ← lift_res (get_inst oldmap p);
           n ← lift_res (get_inst m p);
           when (negb (bool_decide (o = n))) (failed_peer oldmap p)))
    (ordered_elems (get_up_mds_set m)).

Definition stopped_phase (oldmap : M) : D unit :=
  st ← gets state;
  m ← gets mdsmap;
  when (serving st)
    (each (fun p => when (negb (bool_decide (p ∈ get_stopped_mds_set oldmap))) (tell (Cache (MigratorMdsStopped p))))
       (ordered_elems (get_stopped_mds_set m))).

(** the loop over [waiting_for_mdsmap] *)
Fixpoint kick_map_waiters (epoch : Z) (l : list (Z * list C)) : D unit :=
  match l with
  | [] => skip
  | (e, ls) :: l =>
      when (e <=? epoch)
        (modify (fun s => set_for_map (delete e (waiting_for_mdsmap s)) s) ;;
         tell (FinishContexts ls) ;;
         kick_map_waiters epoch l)
  end.

Definition map_waiters : D unit :=
  m ← gets mdsmap;
  w ← gets waiting_for_mdsmap;
  kick_map_waiters (get_epoch m) (ordered w).

Definition map_barrier : D unit :=
  st ← gets state;
  when (bool_decide (st = STATE_ACTIVE)) (e ← ask_num NOsdEpoch; set_osd_epoch_barrier e).

(** from the first [goto out] to the label *)
Definition digest_map (oldmap : M) (oldwhoami : Z) (oldstate : daemon_state) : D unit :=
  rename oldwhoami oldstate ;;
  state_change oldstate ;;
  resolve_phase oldmap ;;
  rejoin_phase oldmap oldstate ;;
  active_phase oldmap oldstate ;;
  failed_phase oldmap ;;
  stopped_phase oldmap ;;
  replaying ← gets is_any_replay;
  when (negb replaying) (tell TryRebalance) ;;
  map_waiters ;;
  map_barrier.

(** [src] is the rank of the sender when it is an MDS, [epoch] is that of the message. *)
Definition handle_mds_map (src : option Z) (epoch : Z) (newmap : M) : D unit :=
  note_peer_epoch src epoch ;;
  oldmap ← gets mdsmap;
  when (get_epoch oldmap <? epoch)
    (oldwhoami ← gets whoami;
     oldstate ← gets state;
     modify (set_mdsmap newmap) ;;
     tell (SubGot (get_epoch newmap)) ;;
     (if negb (compat_writeable (get_compat newmap)) then suicide
      else
        go ← identify oldmap oldstate;
        when go (digest_map oldmap oldwhoami oldstate)) ;;
     beacon_notify_mdsmap).

(** ** The timer *)

Definition reset_tick : D unit :=
  armed ← gets tick_event;
  when armed (tell CancelTick) ;;
  modify (set_tick_event true) ;;
  tell (Later C_MDS_Tick).

Definition notify_health_ : D unit :=
  v ← ask_view;
  now ← ceph_clock_now;
  with_beacon (fun b => (notify_health bconf v now b, [])).

(** [tick], without the performance counters *)
Definition tick : D unit :=
  heartbeat_reset ;;
  modify (set_tick_event false) ;;
  reset_tick ;;
  laggy ← beacon_laggy;
  when (negb laggy)
    (tell Signal ;;
     tell (Log LogFlush) ;;
     st ← gets state;
     when (bool_decide (st = STATE_ACTIVE) || bool_decide (st = STATE_STOPPING))
       (tell (Cache CacheTrim) ;; tell (Cache TrimClientLeases) ;; tell (Cache CheckMemoryUsage) ;; tell (Log LogTrim)) ;;
     tell (Cache LogStat) ;;
     when (serving st) (tell LockerTick ;; tell FindIdleSessions) ;;
     when (bool_decide (st = STATE_RECONNECT)) (tell ReconnectTick) ;;
     when (bool_decide (st = STATE_ACTIVE))
       (tell BalancerTick ;; tell (Cache FindStaleFragmentFreeze) ;; tell (Cache FindStaleExportFreeze) ;;
        snap ← ask QSnapserver; when snap (tell (SnapCheckOsdMap false))) ;;
     notify_health_ ;;
     tell CheckOps).

(** ** Start-up *)

(** [MDSMap::MDS_STANDBY_ANY], [MDS_STANDBY_NAME] and [MDS_MATCHED_ACTIVE] *)
Context (MDS_STANDBY_ANY MDS_STANDBY_NAME MDS_MATCHED_ACTIVE : Z).

(** [init] from the check after the OSD features on; what comes before talks to the monitor *)
Definition init (wanted_state : daemon_state) : D unit :=
  w ← gets want_state;
  when (bool_decide (w = STATE_DNE)) suicide ;;
  let wanted_state := if bool_decide (wanted_state = STATE_BOOT) && mds_standby_replay conf
                      then STATE_STANDBY_REPLAY else wanted_state in
  modify (set_want wanted_state) ;;
  when (bool_decide (wanted_state = STATE_STANDBY_REPLAY) || bool_decide (wanted_state = STATE_ONESHOT_REPLAY))
    (when (bool_decide (wanted_state = STATE_ONESHOT_REPLAY) && (mds_standby_for_rank conf =? -1) &&
           bool_decide (mds_standby_for_name conf = EmptyString)) suicide ;;
     modify (set_want STATE_BOOT) ;;
     modify (set_standby_type wanted_state)) ;;
  modify (set_standby_for_rank (mds_standby_for_rank conf)) ;;
  modify (set_standby_for_name (mds_standby_for_name conf)) ;;
  ty ← gets standby_type;
  (if bool_decide (wanted_state = STATE_STANDBY_REPLAY) && (mds_standby_for_rank conf =? -1) then
     if bool_decide (mds_standby_for_name conf = EmptyString)
     then modify (set_standby_for_rank MDS_STANDBY_ANY) else modify (set_standby_for_rank MDS_STANDBY_NAME)
   else when (bool_decide (ty = STATE_NULL) && negb (bool_decide (mds_standby_for_name conf = EmptyString)))
          (modify (set_standby_for_rank MDS_MATCHED_ACTIVE))) ;;
  m ← gets mdsmap;
  want ← gets want_state;
  rank ← gets standby_for_rank;
  healthy ← ask QHealthy;
  now ← ceph_clock_now;
  with_beacon (Beacon.init compat_default compat_merge bconf (mk_mdsmap (get_epoch m) (get_compat m))
    (state_val want) rank (mds_standby_for_name conf) healthy now) ;;
  modify (set_whoami (-1)) ;;
  tell (SetMyname (-1)) ;;
  reset_tick.

(** [MDS::MDS], of the fields modelled *)
Definition mds_new (m0 : M) (no_standby_pref rank_none : Z) (compat0 : CS) : mds :=
  mk_mds rank_none 0 no_standby_pref EmptyString STATE_NULL false m0 STATE_BOOT STATE_BOOT STATE_BOOT
    [] [] [] [] [] ∅ [] ∅ [] ∅ 0 0 true false false
    (beacon_new (state_val STATE_NULL) no_standby_pref compat0) 0.

(** the callbacks *)
Definition run_kont (k : kont) (r : Z) : D unit :=
  match k with
  | C_MDS_CreateFinish => creating_done
  | C_MDS_BootStart next => boot_start next r
  | C_MDS_StandbyReplayRestartFinish pos => _standby_replay_restart_finish r pos
  | C_MDS_StandbyReplayRestart => must (r =? 0) ;; standby_replay_restart
  | C_MDS_Tick => modify (set_tick_event false) ;; tick
  end.

End Daemon.
Arguments mds T CS C M G : clear implicits.
Arguments D T CS C M A G X : clear implicits.
Arguments Ret {T CS C M A G X}.
Arguments Died {T CS C M A G X}.
Arguments Execed {T CS C M A G X}.
