(* ===== verification/DaemonProtocol.v ===== *)
(** * The protocol of the daemon with the monitor

    A calculus of weakest preconditions for the monad of file Daemon, and with it the
    properties of the daemon's life: it asks the monitor only for states its own state leads
    to, the beacon always announces what the daemon wants, callbacks of a boot find the daemon
    in the state that started it, waiters are released, a takeover of a failed rank ends. *)

From stdpp Require Import base tactics numbers list gmap strings sorting.
From Stdlib Require Import ZArith Lia.
From S2P Require Import Prelude Stats Beacon Daemon.
Open Scope Z_scope.
Open Scope list_scope.

Create HintDb daemon.

Section Wp.
Context {T CS C M A G : Type}.
Abbreviation mds := (mds T CS C M G).
Abbreviation ev := (ev T CS C A).
Abbreviation D := (D T CS C M A G).
Implicit Types s : mds.

(** [m] from [s] does not die, and what it returns is in [Q]; replacing the process is fine. *)
Definition wp {X} (m : D X) s (Q : X -> mds -> list ev -> Prop) : Prop :=
  match m s with
  | Ret x s' t => Q x s' t
  | Died _ => False
  | Execed _ => True
  end.

Lemma wp_mono {X} (m : D X) s (P Q : X -> mds -> list ev -> Prop) :
  wp m s P -> (forall x s' t, P x s' t -> Q x s' t) -> wp m s Q.
Proof. unfold wp. destruct (m s); auto. Qed.

Lemma wp_bind {X Y} (m : D X) (f : X -> D Y) s Q :
  wp m s (fun x s' t => wp (f x) s' (fun y s'' t' => Q y s'' (t ++ t'))) -> wp (m ≫= f) s Q.
Proof.
  unfold wp, mbind, D_bind. destruct (m s) as [x s' t| |]; auto. by destruct (f x s').
Qed.

Lemma wp_when (b : bool) (m : D unit) s Q :
  (b = true -> wp m s Q) -> (b = false -> Q tt s []) -> wp (when b m) s Q.
Proof. destruct b; intros p q; [exact (p eq_refl)|exact (q eq_refl)]. Qed.

Lemma wp_must (b : bool) s (Q : unit -> mds -> list ev -> Prop) : b = true -> Q tt s [] -> wp (must b) s Q.
Proof. by intros ->. Qed.

(** running the primitives *)
Lemma after_nil {X} (o : Daemon.out (T := T) (CS := CS) (C := C) (M := M) (A := A) (G := G) X) : after [] o = o.
Proof. by destruct o. Qed.
Lemma run_gets {X Y} (g : mds -> X) (f : X -> D Y) s : (gets g ≫= f) s = f (g s) s.
Proof. apply after_nil. Qed.
Lemma run_ret {X Y} (x : X) (f : X -> D Y) s : (mret x ≫= f) s = f x s.
Proof. apply after_nil. Qed.
Lemma run_modify {Y} (g : mds -> mds) (f : unit -> D Y) s : (modify g ≫= f) s = f tt (g s).
Proof. apply after_nil. Qed.
Lemma run_must {Y} (f : unit -> D Y) s : (must true ≫= f) s = f tt s.
Proof. apply after_nil. Qed.
Lemma run_tell {Y} e (f : unit -> D Y) s : (tell e ≫= f) s = after [e] (f tt s).
Proof. done. Qed.

(** ** What the protocol is about *)

Record core := mk_core {
  c_who : Z; c_map : M; c_state : daemon_state; c_want : daemon_state; c_last : daemon_state;
  c_type : daemon_state; c_replaying : bool; c_announced : Z; c_hb : bool
}.

Definition core_of s : core :=
  mk_core (whoami s) (mdsmap s) (state s) (want_state s) (last_state s) (standby_type s)
    (standby_replaying s) (b_want_state (beacon_ s)) (hb s).

(** the callbacks of a boot that a trace leaves behind *)
Definition boot_kont (k : kont) : bool := match k with C_MDS_Tick => false | _ => true end.
Definition boots (t : list ev) : list kont :=
  omap (fun e => match e with Later k => if boot_kont k then Some k else None | _ => None end) t.

Lemma boots_app t t' : boots (t ++ t') = boots t ++ boots t'.
Proof. apply omap_app. Qed.

(** [m] changes nothing the protocol is about and leaves no callback of a boot. *)
Definition quiet {X} (m : D X) : Prop :=
  forall s, wp m s (fun _ s' t => core_of s' = core_of s /\ boots t = []).

Lemma wp_quiet {X} (m : D X) s Q :
  quiet m -> (forall x s' t, core_of s' = core_of s -> boots t = [] -> Q x s' t) -> wp m s Q.
Proof. intros q k. eapply wp_mono; [apply q|]. intros x s' t [? ?]; auto. Qed.

Lemma quiet_bind {X Y} (m : D X) (f : X -> D Y) : quiet m -> (forall x, quiet (f x)) -> quiet (m ≫= f).
Proof.
  intros q qf s. apply wp_bind. apply (wp_quiet m); [done|]. intros x s' t E1 B1.
  apply (wp_quiet (f x)); [done|]. intros y s'' t' E2 B2. by rewrite boots_app, B1, B2, E2.
Qed.

Lemma quiet_ret {X} (x : X) : quiet (mret x).
Proof. done. Qed.
Lemma quiet_skip : quiet skip.
Proof. done. Qed.
Lemma quiet_gets {X} (f : mds -> X) : quiet (gets f).
Proof. done. Qed.
Lemma quiet_when b (m : D unit) : quiet m -> quiet (when b m).
Proof. by destruct b. Qed.
Lemma quiet_if {X} (b : bool) (m m' : D X) : quiet m -> quiet m' -> quiet (if b then m else m').
Proof. by destruct b. Qed.
Lemma quiet_each {X} (f : X -> D unit) l : (forall x, x ∈ l -> quiet (f x)) -> quiet (each f l).
Proof.
  intros q. induction l as [|x l IH]; simpl; [done|]. apply quiet_bind; [apply q; left|]. intros _.
  apply IH. intros y Hy. apply q. by right.
Qed.
Lemma quiet_tell (e : ev) : boots [e] = [] -> quiet (tell e).
Proof. by intros E s. Qed.
Lemma quiet_must : quiet (must true).
Proof. done. Qed.
Lemma quiet_modify (f : mds -> mds) : (forall s, core_of (f s) = core_of s) -> quiet (modify f).
Proof. intros E s. split; [apply E|done]. Qed.

(** [m] leaves [p] of the daemon alone. *)
Definition stable {X Z} (p : mds -> Z) (m : D X) : Prop :=
  forall s, match m s with Ret _ s' _ => p s' = p s | _ => True end.

Lemma stable_bind {X Y Z} (p : mds -> Z) (m : D X) (f : X -> D Y) :
  stable p m -> (forall x, stable p (f x)) -> stable p (m ≫= f).
Proof.
  intros q k s. specialize (q s). unfold mbind, D_bind. destruct (m s) as [x s' t| |]; [|done..].
  specialize (k x s'). destruct (f x s'); simpl; congruence.
Qed.
Lemma stable_when {Z} (p : mds -> Z) b (m : D unit) : stable p m -> stable p (when b m).
Proof. by destruct b. Qed.
Lemma stable_if {X Z} (p : mds -> Z) (b : bool) (m m' : D X) : stable p m -> stable p m' -> stable p (if b then m else m').
Proof. by destruct b. Qed.
Lemma stable_each {X Z} (p : mds -> Z) (f : X -> D unit) l : (forall x, stable p (f x)) -> stable p (each f l).
Proof. intros q. induction l as [|x l IH]; simpl; [done|]. apply stable_bind; auto. Qed.
Lemma stable_must {Z} (p : mds -> Z) b : stable p (must b).
Proof. by destruct b. Qed.
Lemma stable_lift_res {X Z} (p : mds -> Z) (r : res X) : stable p (lift_res r).
Proof. by destruct r. Qed.

Lemma wp_stable {X Z} (p : mds -> Z) (m : D X) s Q :
  stable p m -> wp m s Q -> wp m s (fun x s' t => Q x s' t /\ p s' = p s).
Proof. intros q. specialize (q s). unfold wp. by destruct (m s). Qed.

End Wp.
Arguments core M : clear implicits.

#[export] Hint Resolve stable_must stable_lift_res : daemon.
#[export] Hint Extern 1 (stable _ (mret _)) => done : daemon.
#[export] Hint Extern 1 (stable _ skip) => done : daemon.
#[export] Hint Extern 1 (stable _ (tell _)) => done : daemon.
#[export] Hint Extern 1 (stable _ (gets _)) => done : daemon.
#[export] Hint Extern 1 (stable _ (ask _)) => done : daemon.
#[export] Hint Extern 1 (stable _ (ask_num _)) => done : daemon.
#[export] Hint Extern 1 (stable _ ceph_clock_now) => done : daemon.
#[export] Hint Extern 1 (stable _ (modify _)) => done : daemon.
#[export] Hint Extern 1 (stable _ replace_process) => done : daemon.

Ltac stable := repeat first
  [ solve [eauto with daemon nocore] | simple apply stable_bind; [|intros ?] | simple apply stable_when
  | simple apply stable_if | simple apply stable_each; intros ?
  | match goal with |- stable _ (match ?x with _ => _ end) => destruct x end
  | match goal with |- stable _ (let '_ := ?x in _) => destruct x end ].

#[export] Hint Resolve quiet_ret quiet_skip quiet_gets quiet_must : daemon.
#[export] Hint Extern 1 (quiet (tell _)) => apply quiet_tell; reflexivity : daemon.
#[export] Hint Extern 1 (quiet (modify _)) => apply quiet_modify; reflexivity : daemon.

Create Rewrite HintDb run.
#[export] Hint Rewrite @run_gets @run_ret @run_modify @run_must @run_tell : run.

Ltac quiet := repeat first
  [ solve [eauto with daemon nocore] | simple apply quiet_bind; [|intros ?] | simple apply quiet_when
  | simple apply quiet_if | simple apply quiet_each; intros ? _ | match goal with |- quiet (match ?x with _ => _ end) => destruct x end ].

Section Quiet.
Context {T CS C M A I G : Type} `{BeaconTime T} `{DaemonStates} `{MDSMapOps M CS A I} `{World T}.
Context (bconf : beacon_conf T) (conf : mds_conf).
Abbreviation D := (D T CS C M A G).

Lemma quiet_ask q : quiet (ask q : D bool).
Proof. done. Qed.
Lemma quiet_ask_num q : quiet (ask_num q : D Z).
Proof. done. Qed.
Lemma quiet_now : quiet (ceph_clock_now : D T).
Proof. done. Qed.
Lemma quiet_view : quiet (ask_view : D _).
Proof. done. Qed.
#[local] Hint Resolve quiet_ask quiet_ask_num quiet_now quiet_view : daemon.

Lemma quiet_with_beacon f :
  (forall b, b_want_state (f b).1 = b_want_state b) -> quiet (with_beacon f : D unit).
Proof.
  intros Hf s. unfold with_beacon. apply wp_bind. unfold wp at 1, gets.
  specialize (Hf (beacon_ s)). destruct (f (beacon_ s)) as [b es]. simpl in Hf.
  apply wp_bind. unfold wp at 1, modify. simpl.
  assert (quiet (each (fun e => tell (Bcn e)) es : D unit)) as q by quiet.
  apply (wp_quiet _ _ _ q). intros [] s' t E B. rewrite B, E. split; [|done].
  unfold core_of; simpl. by rewrite Hf.
Qed.

Lemma quiet_beacon_send : quiet (beacon_send bconf : D unit).
Proof.
  unfold beacon_send. quiet. apply quiet_with_beacon. intros b. unfold Beacon.send, _send. by destruct x.
Qed.
#[local] Hint Resolve quiet_beacon_send : daemon.

Lemma quiet_finish_contexts g st :
  (forall l s, core_of (st l s) = core_of s) -> quiet (finish_contexts g st : D unit).
Proof. intros E. unfold finish_contexts. quiet. apply quiet_modify. auto. Qed.

Lemma quiet_queue_waiter c : quiet (queue_waiter c : D unit).
Proof. unfold queue_waiter. quiet. Qed.
Lemma quiet_queue_waiters l : quiet (queue_waiters l : D unit).
Proof. unfold queue_waiters. quiet. Qed.
#[local] Hint Resolve quiet_queue_waiter quiet_queue_waiters : daemon.

Lemma quiet_calc_recovery_set : quiet (calc_recovery_set : D unit).
Proof. unfold calc_recovery_set. quiet. Qed.
#[local] Hint Resolve quiet_calc_recovery_set : daemon.

Lemma quiet_handle_mds_recovery p : quiet (handle_mds_recovery p : D unit).
Proof. unfold handle_mds_recovery. quiet. Qed.
Lemma quiet_handle_mds_failure p : quiet (handle_mds_failure p : D unit).
Proof. unfold handle_mds_failure. quiet. Qed.
#[local] Hint Resolve quiet_handle_mds_recovery quiet_handle_mds_failure : daemon.

Lemma quiet_resolve_phase m : quiet (resolve_phase m : D unit).
Proof. unfold resolve_phase. quiet. Qed.
Lemma quiet_rejoin_phase m st : quiet (rejoin_phase conf m st : D unit).
Proof. unfold rejoin_phase, rejoin_joint_start. quiet. Qed.
Lemma quiet_active_phase m st : quiet (active_phase m st : D unit).
Proof. unfold active_phase. quiet. Qed.
Lemma quiet_stopped_phase m : quiet (stopped_phase m : D unit).
Proof. unfold stopped_phase. quiet. Qed.
Lemma quiet_kick_map_waiters e l : quiet (kick_map_waiters e l : D unit).
Proof. induction l as [|[? ?] l IH]; simpl; quiet. Qed.
#[local] Hint Resolve quiet_kick_map_waiters : daemon.
Lemma quiet_map_waiters : quiet (map_waiters : D unit).
Proof. unfold map_waiters. quiet. Qed.
Lemma quiet_map_barrier : quiet (map_barrier : D unit).
Proof. unfold map_barrier, set_osd_epoch_barrier. quiet. Qed.
Lemma quiet_rename g w st : quiet (rename conf g w st : D unit).
Proof. unfold rename. quiet. Qed.
Lemma quiet_note_peer_epoch src e : quiet (note_peer_epoch src e : D unit).
Proof. unfold note_peer_epoch. quiet. Qed.

End Quiet.

#[export] Hint Resolve quiet_ask quiet_ask_num quiet_now quiet_view quiet_beacon_send quiet_queue_waiter
  quiet_queue_waiters quiet_calc_recovery_set quiet_handle_mds_recovery quiet_handle_mds_failure
  quiet_resolve_phase quiet_rejoin_phase quiet_active_phase quiet_stopped_phase quiet_map_waiters
  quiet_map_barrier quiet_rename quiet_note_peer_epoch : daemon.
#[export] Hint Extern 1 (quiet (finish_contexts _ _)) => apply quiet_finish_contexts; reflexivity : daemon.

(** ** The operations that change the core *)

Section Core.
Context {T CS C M A I G : Type} `{BeaconTime T} `{DaemonStates} `{MDSMapOps M CS A I} `{World T}.
Context (bconf : beacon_conf T) (conf : mds_conf).
Abbreviation D := (D T CS C M A G).
Abbreviation mds := (mds T CS C M G).
Abbreviation ev := (ev T CS C A).
Implicit Types s : mds.
Implicit Types c : core M.

Definition want_core (x : daemon_state) c : core M :=
  mk_core (c_who c) (c_map c) (c_state c) x (c_last c) (c_type c) (c_replaying c)
    (if bool_decide (c_want c = x) then c_announced c else state_val x) (c_hb c).
Definition dead_core c : core M :=
  let c := want_core STATE_DNE c in
  mk_core (c_who c) (c_map c) (c_state c) (c_want c) (c_last c) (c_type c) (c_replaying c) (c_announced c) false.

(** [m] takes the core to [g] of it and leaves the callbacks [ks]. *)
Definition moves {X} (m : D X) s (g : core M -> core M) (ks : list kont) : Prop :=
  wp m s (fun _ s' t => core_of s' = g (core_of s) /\ boots t = ks).

Lemma wp_moves {X} (m : D X) s g ks Q :
  moves m s g ks -> (forall x s' t, core_of s' = g (core_of s) -> boots t = ks -> Q x s' t) -> wp m s Q.
Proof. intros q k. eapply wp_mono; [apply q|]. intros x s' t [? ?]; auto. Qed.

Lemma quiet_moves {X} (m : D X) s : quiet m -> moves m s id [].
Proof. intros q. apply q. Qed.

Lemma moves_bind {X Y} (m : D X) (f : X -> D Y) s g h ks ls :
  moves m s g ks -> (forall x s', core_of s' = g (core_of s) -> moves (f x) s' h ls) ->
  moves (m ≫= f) s (fun c => h (g c)) (ks ++ ls).
Proof.
  intros q k. apply wp_bind. apply (wp_moves m s g ks); [done|]. intros x s' t E B.
  eapply wp_mono; [by apply (k x s')|]. intros y s'' t' [E' B']. by rewrite boots_app, B, B', E', E.
Qed.

(** quiet work before, or after *)
Lemma moves_quiet_l {X Y} (m : D X) (f : X -> D Y) s h ls :
  quiet m -> (forall x s', core_of s' = core_of s -> moves (f x) s' h ls) -> moves (m ≫= f) s h ls.
Proof. intros q k. apply (moves_bind m f s id h [] ls); [by apply quiet_moves|exact k]. Qed.
Lemma moves_quiet_r {X Y} (m : D X) (f : X -> D Y) s g ks :
  moves m s g ks -> (forall x, quiet (f x)) -> moves (m ≫= f) s g ks.
Proof.
  intros q k. rewrite <- (app_nil_r ks). apply (moves_bind m f s g id ks []); [done|].
  intros x s' _. apply quiet_moves, k.
Qed.

Lemma moves_set_want_state x s : moves (set_want_state x : D unit) s (want_core x) [].
Proof.
  unfold set_want_state. apply wp_bind. unfold wp at 1, gets. cbv beta.
  apply wp_when; intros E; [apply negb_true_iff in E|apply negb_false_iff in E].
  - unfold wp, with_beacon. simpl. split; [|done]. unfold core_of, want_core; simpl. by rewrite E.
  - split; [|done]. unfold core_of, want_core; simpl. rewrite E. apply bool_decide_eq_true in E. by rewrite E.
Qed.

Lemma moves_request_state x s : moves (request_state bconf x : D unit) s (want_core x) [].
Proof. apply moves_quiet_r; [apply moves_set_want_state|]. quiet. Qed.

Lemma moves_gets {X Y} (g : mds -> X) (f : X -> D Y) s h ls :
  moves (f (g s)) s h ls -> moves (gets g ≫= f) s h ls.
Proof. intros q. apply wp_bind. exact q. Qed.

Lemma quiet_beacon_shutdown : quiet (with_beacon Beacon.shutdown : D unit).
Proof. by apply quiet_with_beacon. Qed.
#[local] Hint Resolve quiet_beacon_shutdown : daemon.

Lemma moves_suicide s : moves (suicide : D unit) s dead_core [].
Proof.
  unfold suicide. apply (moves_bind _ _ s (want_core STATE_DNE)
    (fun c => mk_core (c_who c) (c_map c) (c_state c) (c_want c) (c_last c) (c_type c) (c_replaying c)
                (c_announced c) false) [] []); [apply moves_set_want_state|].
  intros _ s' _. repeat first [apply moves_gets | apply moves_quiet_l; [solve [quiet]|intros ? ? ?]].
  apply wp_when; intros E; [done|]. split; [|done]. unfold core_of; simpl. by rewrite E.
Qed.

Lemma moves_respawn s : moves (respawn : D unit) s dead_core [].
Proof.
  unfold respawn. apply moves_quiet_l; [quiet|]. intros [] s' _; [done|]. apply moves_suicide.
Qed.

(** ** The invariant *)

(** the states a daemon may ask for from each state *)
Definition leads_to (st w : daemon_state) : bool :=
  match st, w with
  | (STATE_NULL | STATE_BOOT), (STATE_BOOT | STATE_ONESHOT_REPLAY) => true
  | STATE_STANDBY, (STATE_STANDBY | STATE_STANDBY_REPLAY | STATE_ONESHOT_REPLAY | STATE_NULL) => true
  | STATE_CREATING, (STATE_CREATING | STATE_ACTIVE) => true
  | STATE_STARTING, (STATE_STARTING | STATE_ACTIVE) => true
  | STATE_STANDBY_REPLAY, STATE_STANDBY_REPLAY => true
  | STATE_ONESHOT_REPLAY, STATE_ONESHOT_REPLAY => true
  | STATE_REPLAY, (STATE_REPLAY | STATE_RESOLVE | STATE_RECONNECT) => true
  | STATE_RESOLVE, (STATE_RESOLVE | STATE_RECONNECT) => true
  | STATE_RECONNECT, (STATE_RECONNECT | STATE_REJOIN) => true
  | STATE_REJOIN, (STATE_REJOIN | STATE_CLIENTREPLAY | STATE_ACTIVE | STATE_STOPPED) => true
  | STATE_CLIENTREPLAY, (STATE_CLIENTREPLAY | STATE_ACTIVE) => true
  | STATE_ACTIVE, STATE_ACTIVE => true
  | STATE_STOPPING, (STATE_STOPPING | STATE_STOPPED) => true
  | STATE_STOPPED, STATE_STOPPED => true
  | _, _ => false
  end.

Definition replay_state (st : daemon_state) : bool :=
  match st with STATE_REPLAY | STATE_STANDBY_REPLAY | STATE_ONESHOT_REPLAY => true | _ => false end.

(** the state in which a callback of a boot is due *)
Definition fits (st : daemon_state) (k : kont) : bool :=
  match k with
  | C_MDS_CreateFinish => bool_decide (st = STATE_CREATING)
  | C_MDS_BootStart MDS_BOOT_REPLAY_DONE => replay_state st
  | C_MDS_BootStart _ => bool_decide (st = STATE_STARTING) || replay_state st
  | C_MDS_StandbyReplayRestartFinish _ | C_MDS_StandbyReplayRestart => replay_state st
  | C_MDS_Tick => false
  end.

(** a daemon that is not dying, with the callbacks [pend] of a boot outstanding *)
Record live c (pend : list kont) : Prop := {
  lv_next : leads_to (c_state c) (c_want c) = true;
  lv_hb : c_hb c = true;
  lv_standby : c_state c = STATE_STANDBY_REPLAY -> c_replaying c = true /\ c_type c = STATE_NULL;
  lv_type : c_type c ∈ [STATE_NULL; STATE_STANDBY_REPLAY; STATE_ONESHOT_REPLAY];
  lv_pend : pend = [] \/ exists k, pend = [k] /\ fits (c_state c) k = true /\ c_want c = c_state c
}.

Definition synced c : Prop := c_announced c = state_val (c_want c).
Definition proto c (pend : list kont) : Prop := synced c /\ (c_want c = STATE_DNE \/ live c pend).

Lemma synced_want x c : synced c -> synced (want_core x c).
Proof. unfold synced, want_core. simpl. intros E. case_bool_decide as W; [by rewrite <- W|done]. Qed.
Lemma synced_dead c : synced c -> synced (dead_core c).
Proof. apply synced_want. Qed.
Lemma proto_dead c pend : synced c -> proto (dead_core c) pend.
Proof. intros E. split; [by apply synced_dead|by left]. Qed.

Lemma proto_want x c : proto c [] -> c_want c <> STATE_DNE -> leads_to (c_state c) x = true -> proto (want_core x c) [].
Proof.
  intros [E [W|L]] N Hx; [done|]. split; [by apply synced_want|right]. destruct L. split; simpl; auto.
Qed.

Lemma proto_pend c k : proto c [] -> c_want c = c_state c -> fits (c_state c) k = true -> proto c [k].
Proof. intros [E [W|L]] S F; (split; [done|]); [by left|right]. destruct L. split; eauto. Qed.

(** ** The boot *)

Lemma wp_gets {X Y} (g : mds -> X) (f : X -> D Y) s Q : wp (f (g s)) s Q -> wp (gets g ≫= f) s Q.
Proof. intros q. apply wp_bind. exact q. Qed.
Lemma wp_modify {Y} (g : mds -> mds) (f : unit -> D Y) s Q : wp (f tt) (g s) Q -> wp (modify g ≫= f) s Q.
Proof. intros q. apply wp_bind. exact q. Qed.
Lemma wp_quiet_l {X Y} (m : D X) (f : X -> D Y) s (Q : mds -> list kont -> Prop) :
  quiet m -> (forall x s', core_of s' = core_of s -> wp (f x) s' (fun _ s' t => Q s' (boots t))) ->
  wp (m ≫= f) s (fun _ s' t => Q s' (boots t)).
Proof.
  intros q k. apply wp_bind. apply (wp_quiet m); [done|]. intros x s' t E B.
  eapply wp_mono; [by apply k|]. intros y s'' t'. by rewrite boots_app, B.
Qed.

(** what holds after a step: the protocol, with the callbacks the step left *)
Definition ends_well {X} (m : D X) s : Prop := wp m s (fun _ s' t => proto (core_of s') (boots t)).

Lemma ends_quiet_l {X Y} (m : D X) (f : X -> D Y) s :
  quiet m -> (forall x s', core_of s' = core_of s -> ends_well (f x) s') -> ends_well (m ≫= f) s.
Proof. intros q k. by apply (wp_quiet_l m f s (fun s' ks => proto (core_of s') ks)). Qed.

Lemma ends_moves {X} (m : D X) s g ks : moves m s g ks -> proto (g (core_of s)) ks -> ends_well m s.
Proof. intros q P. eapply wp_moves; [apply q|]. by intros x s' t -> ->. Qed.

Lemma ends_quiet_r {X Y} (m : D X) (f : X -> D Y) s : ends_well m s -> (forall x, quiet (f x)) -> ends_well (m ≫= f) s.
Proof.
  intros q k. apply wp_bind. eapply wp_mono; [apply q|]. intros x s' t P.
  apply (wp_quiet (f x)); [apply k|]. intros y s'' t' E B. by rewrite boots_app, B, app_nil_r, E.
Qed.

(** [tell (Later k)] at the end *)
Lemma ends_later k s : boot_kont k = true -> proto (core_of s) [k] -> ends_well (tell (Later k) : D unit) s.
Proof. intros B P. unfold ends_well, wp, tell. simpl. unfold boots. simpl. by rewrite B. Qed.

Lemma ends_gets {X Y} (g : mds -> X) (f : X -> D Y) s : ends_well (f (g s)) s -> ends_well (gets g ≫= f) s.
Proof. apply wp_gets. Qed.

Lemma ends_ret {X Y} (x : X) (f : X -> D Y) s : ends_well (f x) s -> ends_well (mret x ≫= f) s.
Proof. intros q. apply wp_bind. exact q. Qed.

Lemma ends_modify {Y} (g : mds -> mds) (f : unit -> D Y) s : ends_well (f tt) (g s) -> ends_well (modify g ≫= f) s.
Proof. apply wp_modify. Qed.

Lemma ends_assoc {X Y Z} (m : D X) (f : X -> D Y) (g : Y -> D Z) s :
  ends_well (x ← m; f x ≫= g) s -> ends_well ((m ≫= f) ≫= g) s.
Proof.
  unfold ends_well, wp, mbind, D_bind. destruct (m s) as [x s' t| |]; simpl; try done.
  destruct (f x s') as [y s'' t'| |]; simpl; try done. destruct (g y s''); simpl; by rewrite ?app_assoc.
Qed.

Ltac skip_quiet := repeat first
  [ simple apply ends_gets | simple apply ends_ret | simple apply ends_quiet_l; [solve [quiet] | let E := fresh "E" in intros ? ? E] ].

(** the state of a daemon whose boot goes on *)
Record booting c : Prop := {
  bo_proto : proto c [];
  bo_want : c_want c = c_state c;
  bo_state : c_state c = STATE_STARTING \/ replay_state (c_state c) = true
}.

Lemma booting_alive c : booting c -> c_want c <> STATE_DNE.
Proof. intros [_ W [S|S]]; rewrite W; [by rewrite S|by destruct (c_state c)]. Qed.

Lemma reread_ends s : booting (core_of s) -> replay_state (c_state (core_of s)) = true ->
  ends_well (reread_head : D unit) s.
Proof.
  intros B R. unfold reread_head. skip_quiet. apply ends_later; [done|]. rewrite E0, E.
  apply proto_pend; [apply B|apply B|done].
Qed.

(** waiting for the OSD map, before [m] *)
Lemma wp_wait fin (m : D unit) s (Q : mds -> list kont -> Prop) : boot_kont fin = true ->
  (forall s', core_of s' = core_of s -> Q s' [fin]) ->
  (forall s', core_of s' = core_of s -> wp m s' (fun _ s' t => Q s' (boots t))) ->
  wp (ready ← wait_for_map fin; when ready m) s (fun _ s' t => Q s' (boots t)).
Proof.
  intros Bf P K. unfold wait_for_map. apply wp_bind, wp_gets. apply wp_bind.
  apply (wp_quiet (ask _)); [quiet|]. intros [] s' t E Bt.
  - change (wp m s' (fun _ s'' t' => Q s'' (boots ((t ++ []) ++ t')))).
    eapply wp_mono; [by apply (K s')|]. intros y s'' t'. by rewrite !boots_app, Bt.
  - unfold wp, when, tell. simpl. rewrite !boots_app, Bt. unfold boots at 1. simpl. rewrite Bf. by apply P.
Qed.

Lemma wait_ends fin (m : D unit) s : boot_kont fin = true -> proto (core_of s) [fin] ->
  (forall s', core_of s' = core_of s -> ends_well m s') ->
  ends_well (ready ← wait_for_map fin; when ready m) s.
Proof.
  intros Bf P K. apply (wp_wait fin m s (fun s' ks => proto (core_of s') ks)); [done|by intros s' -> |done].
Qed.

Lemma standby_restart_ends s : booting (core_of s) -> replay_state (c_state (core_of s)) = true ->
  ends_well (standby_replay_restart : D unit) s.
Proof.
  intros B R. unfold standby_replay_restart. apply wp_gets. destruct (standby_replaying s); [by apply reread_ends|].
  apply wait_ends; [done| |].
  - apply proto_pend; [apply B..|]. unfold fits. rewrite R. apply orb_true_r.
  - intros s' E. apply reread_ends; by rewrite E.
Qed.

(** the journal is read to its end when the replay is done *)
Context (at_end : forall n, w_yes QJournalAtEnd n = true).

Definition stop_replaying c : core M :=
  mk_core (c_who c) (c_map c) (c_state c) (c_want c) (c_last c) (c_type c) false (c_announced c) (c_hb c).

Lemma booting_stop c : booting c -> c_state c <> STATE_STANDBY_REPLAY -> booting (stop_replaying c).
Proof.
  intros B N. pose proof (booting_alive _ B). destruct B as [[E [W|L]] ? ?]; [done|]. split; [|done|done].
  split; [done|right]. destruct L. by split.
Qed.


Ltac cores := repeat match goal with E : core_of ?a = _ |- context [core_of ?a] => rewrite E end.

Lemma replayed_asks s x : booting (core_of s) -> c_state (core_of s) = STATE_REPLAY ->
  x = STATE_RESOLVE \/ x = STATE_RECONNECT -> ends_well (request_state bconf x : D unit) s.
Proof.
  intros B S X. eapply ends_moves; [apply moves_request_state|].
  apply proto_want; [apply B|by apply booting_alive|]. rewrite S. by destruct X as [->| ->].
Qed.

Lemma replay_done_ends s : booting (core_of s) -> replay_state (c_state (core_of s)) = true ->
  ends_well (replay_done bconf conf : D unit) s.
Proof.
  intros B R. unfold replay_done. do 3 apply wp_gets.
  change (in_state ?x s) with (bool_decide (c_state (core_of s) = x)).
  change (standby_replaying s) with (c_replaying (core_of s)).
  case_bool_decide as S1; [|case_bool_decide as S2].
  - eapply ends_moves; [apply moves_suicide|]. apply proto_dead, B.
  - assert (c_replaying (core_of s) = true) as ->
      by (destruct B as [[? [W|L]] W' ?]; [congruence|by apply (lv_standby _ _ L)]).
    skip_quiet. apply ends_later; [done|]. cores. apply proto_pend; [apply B..|]. done.
  - destruct (c_replaying (core_of s)) eqn:P.
    + apply wp_bind. unfold wp at 1, modify. apply standby_restart_ends; [|done].
      by apply (booting_stop (core_of s)).
    + apply wp_bind. unfold wp at 1, ask. rewrite at_end. cbv beta.
      set (s1 := set_reads _ s). assert (core_of s1 = core_of s) as E1 by done. clearbody s1.
      apply (wp_mono _ s1 (fun _ s' t => proto (core_of s') (boots t))); [|done].
      skip_quiet. destruct (_ <? _); skip_quiet.
      * apply ends_later; [done|]. cores. apply proto_pend; [apply B..|done].
      * assert (c_state (core_of s) = STATE_REPLAY) as SR by (by destruct (c_state (core_of s))).
        destruct (_ && _); (apply replayed_asks; cores; [done|done|]); auto.
Qed.

Lemma boot_run_ends step s : booting (core_of s) -> fits (c_state (core_of s)) (C_MDS_BootStart step) = true ->
  ends_well (boot_run bconf conf step : D unit) s.
Proof.
  intros B F. unfold boot_run. do 4 apply wp_gets.
  change (in_state ?x s) with (bool_decide (c_state (core_of s) = x)).
  assert (is_any_replay s = replay_state (c_state (core_of s))) as ->
    by (unfold is_any_replay, in_state, core_of; simpl; by destruct (state s)).
  destruct step.
  - skip_quiet. apply ends_later; [done|]. cores. by apply proto_pend; [apply B..|].
  - skip_quiet. apply ends_later; [done|]. cores. by apply proto_pend; [apply B..|].
  - destruct (replay_state _) eqn:R; skip_quiet.
    + apply ends_later; [done|]. cores. by apply proto_pend; [apply B..|].
    + assert (c_state (core_of s) = STATE_STARTING) as S by (destruct (bo_state _ B); congruence).
      unfold starting_done. apply ends_gets.
      change (in_state ?x s') with (bool_decide (c_state (core_of s') = x)). rewrite E, S. skip_quiet. apply ends_quiet_r; [|intros ?; quiet].
      eapply ends_moves; [apply moves_request_state|]. cores.
      apply proto_want; [apply B|by apply booting_alive|by rewrite S].
  - cbn [fits] in F. rewrite F. skip_quiet. apply replay_done_ends; by cores.
Qed.

(** after a [respawn] that failed, the boot of a standby goes on, but asks for nothing *)
Lemma boot_run_dying step s :
  synced (core_of s) -> c_want (core_of s) = STATE_DNE -> c_state (core_of s) = STATE_STANDBY_REPLAY ->
  c_replaying (core_of s) = true -> ends_well (boot_run bconf conf step : D unit) s.
Proof.
  intros Sy W S R.
  assert (forall ks, proto (core_of s) ks) as P by (intros ks; split; [done|by left]).
  unfold boot_run. do 4 apply wp_gets.
  assert (is_any_replay s = true) as -> by (unfold is_any_replay, in_state; change (state s) with (c_state (core_of s)); by rewrite S).
  destruct step; skip_quiet; try (apply ends_later; [done|]; cores; apply P).
  unfold replay_done. do 3 apply wp_gets.
  change (in_state ?x s') with (bool_decide (c_state (core_of s') = x)).
  change (standby_replaying s') with (c_replaying (core_of s')).
  rewrite E, S, R. simpl. skip_quiet. apply ends_later; [done|]. cores. apply P.
Qed.

Lemma state_ok s : c_state (core_of s) = STATE_STARTING \/ replay_state (c_state (core_of s)) = true ->
  in_state STATE_STARTING s || is_any_replay s = true.
Proof.
  change (c_state (core_of s)) with (state s). unfold is_any_replay, in_state.
  intros [->|R]; [done|]. by destruct (state s).
Qed.

Lemma suicide_stops s (m : bool -> D unit) : synced (core_of s) -> m false = skip ->
  ends_well ((suicide ;; mret false) ≫= m) s.
Proof.
  intros Sy E. apply wp_bind, wp_bind. apply (wp_moves _ _ _ _ _ (moves_suicide s)). intros [] s' t E' Bt.
  unfold wp at 1, mret, D_ret. cbv beta. rewrite E. unfold wp, skip, mret, D_ret.
  rewrite !boots_app, Bt, E'. by apply proto_dead.
Qed.

Lemma boot_start_ends step r s : booting (core_of s) -> fits (c_state (core_of s)) (C_MDS_BootStart step) = true ->
  ends_well (boot_start bconf conf step r : D unit) s.
Proof.
  intros B F. unfold boot_start. apply wp_gets.
  change (in_state STATE_STANDBY_REPLAY s) with (bool_decide (c_state (core_of s) = STATE_STANDBY_REPLAY)).
  assert (forall b, b = false -> ends_well ((if b : bool then respawn ;; mret true else suicide ;; mret false) ≫=
    (fun go : bool => when go (ok ← gets (fun s => in_state STATE_STARTING s || is_any_replay s);
     must ok ;; boot_run bconf conf step)) : D unit) s) as Dies.
  { intros b ->. apply suicide_stops; [apply B|done]. }
  destruct (r <? 0).
  - case_bool_decide as S; [destruct (r =? _)|]; [|by apply Dies..].
    apply wp_bind, wp_bind. apply (wp_moves _ _ _ _ _ (moves_respawn s)). intros [] s' t E Bt.
    unfold wp at 1, mret, D_ret. apply wp_gets.
    rewrite state_ok by (rewrite E; right; change (replay_state (c_state (core_of s)) = true); by rewrite S).
    apply wp_bind. unfold wp at 1, must.
    eapply wp_mono; [apply (boot_run_dying step s')|intros ? ? ? P; by rewrite !boots_app, Bt]; rewrite E;
      [apply synced_dead, B|done|done|].
    destruct B as [[? [W|L]] W' ?]; [congruence|by apply (lv_standby _ _ L)].
  - apply ends_ret, ends_gets. rewrite state_ok by apply B. skip_quiet.
    apply boot_run_ends; by cores.
Qed.

(** ** The callbacks *)

Lemma fits_booting c k : proto c [k] -> c_want c <> STATE_DNE -> boot_kont k = true -> k <> C_MDS_CreateFinish ->
  booting c /\ fits (c_state c) k = true.
Proof.
  intros [E [W|L]] N Bk Nk; [done|]. destruct (lv_pend _ _ L) as [?|(k' & [= <-] & F & W)]; [done|].
  split; [|done]. split; [|done|].
  - split; [done|right]. destruct L. split; auto.
  - destruct k as [|[]| | |]; try done; simpl in F; try (by right); apply orb_true_iff in F as [F|F]; auto;
      apply bool_decide_eq_true in F; auto.
Qed.

Lemma creating_proto c : proto c [C_MDS_CreateFinish] -> c_want c <> STATE_DNE ->
  proto c [] /\ c_state c = STATE_CREATING.
Proof.
  intros [E [W|L]] N; [done|]. destruct (lv_pend _ _ L) as [?|(k' & [= <-] & F & W)]; [done|].
  apply bool_decide_eq_true in F. split; [|done]. split; [done|right]. destruct L. split; auto.
Qed.

(** every callback of a boot finds the daemon in the state that left it, with the callbacks it leaves *)
Lemma run_kont_ends k r s : proto (core_of s) [k] -> c_want (core_of s) <> STATE_DNE -> boot_kont k = true ->
  (k = C_MDS_StandbyReplayRestart -> r = 0) -> ends_well (run_kont bconf conf k r : D unit) s.
Proof.
  intros P N Bk R0. destruct (decide (k = C_MDS_CreateFinish)) as [->|Nk].
  - destruct (creating_proto _ P N) as [P' S]. eapply ends_moves; [apply moves_request_state|].
    apply proto_want; [done|done|by rewrite S].
  - destruct (fits_booting _ _ P N Bk Nk) as [B F]. destruct k as [|step|pos| |]; try done; simpl.
    + by apply boot_start_ends.
    + unfold _standby_replay_restart_finish. skip_quiet. destruct (pos <? x).
      * eapply ends_moves; [apply moves_respawn|]. cores. apply proto_dead, B.
      * skip_quiet. apply boot_start_ends; cores; [done|]. cbn [fits] in F |- *. rewrite F. apply orb_true_r.
    + rewrite (R0 eq_refl). skip_quiet. apply standby_restart_ends; by cores.
Qed.

(** ** Other operations *)

Lemma asks_ends x s : proto (core_of s) [] -> c_want (core_of s) <> STATE_DNE ->
  leads_to (c_state (core_of s)) x = true -> ends_well (request_state bconf x : D unit) s.
Proof. intros P N L. eapply ends_moves; [apply moves_request_state|]. by apply proto_want. Qed.

Lemma rejoin_done_ends s : proto (core_of s) [] -> c_state (core_of s) = STATE_REJOIN ->
  c_want (core_of s) <> STATE_DNE -> ends_well (rejoin_done bconf : D unit) s.
Proof.
  intros P S N. unfold rejoin_done. skip_quiet. destruct (negb x1); [|apply ends_gets; destruct (replay_queue _)];
    apply asks_ends; cores; rewrite ?S; done.
Qed.

(** ** A new map *)

Context (compat_default : CS) (compat_merge : CS -> CS -> CS) (gid : Z) (name : string).

(** the states the monitor may give a daemon in [st] that wants [w] *)
Definition grants (st w st' : daemon_state) : bool :=
  bool_decide (st' = st) || bool_decide (st' = w) || bool_decide (st' = STATE_NULL) ||
  match st, st' with
  | (STATE_BOOT | STATE_NULL | STATE_STANDBY),
    (STATE_STANDBY | STATE_STANDBY_REPLAY | STATE_ONESHOT_REPLAY | STATE_CREATING | STATE_STARTING | STATE_REPLAY) => true
  | STATE_STANDBY_REPLAY, STATE_REPLAY => true
  | STATE_ACTIVE, STATE_STOPPING => true
  | _, _ => false
  end.

(** a map that follows the map of [c]: the state given to this daemon is granted, only standbys
    have no rank, and instances are known where [handle_mds_map] looks them up *)
Record follows c (m : M) : Prop := {
  fo_state : grants (c_state c) (c_want c) (get_state_gid m gid) = true;
  fo_rank : get_rank_gid m gid < 0 ->
    get_state_gid m gid ∈ [STATE_NULL; STATE_STANDBY; STATE_STANDBY_REPLAY; STATE_ONESHOT_REPLAY];
  fo_null : get_state_gid m gid = STATE_NULL -> get_rank_gid m gid < 0;
  fo_failed : forall p, p ∈ get_failed_mds_set m -> p ∉ get_failed_mds_set (c_map c) ->
    is_ok (get_inst (c_map c) p) = true;
  fo_up : forall p, p ∈ get_up_mds_set m -> have_inst (c_map c) p = true ->
    is_ok (get_inst (c_map c) p) = true /\ is_ok (get_inst m p) = true
}.

Lemma quiet_lift_res {X} (r : res X) : is_ok r = true -> quiet (lift_res r : D X).
Proof. by destruct r. Qed.

Lemma quiet_failed_peer m p : is_ok (get_inst m p) = true -> quiet (failed_peer m p : D unit).
Proof. intros E. unfold failed_peer. apply quiet_bind; [by apply quiet_lift_res|]. intros i. quiet. Qed.

Lemma quiet_when_true b (m : D unit) : (b = true -> quiet m) -> quiet (when b m).
Proof. destruct b; [|done]. auto. Qed.

Lemma moves_failed_phase old s :
  (forall p, p ∈ get_failed_mds_set (mdsmap s) -> p ∉ get_failed_mds_set old -> is_ok (get_inst old p) = true) ->
  (forall p, p ∈ get_up_mds_set (mdsmap s) -> have_inst old p = true ->
    is_ok (get_inst old p) = true /\ is_ok (get_inst (mdsmap s) p) = true) ->
  moves (failed_phase old : D unit) s id [].
Proof.
  intros F U. apply moves_gets, quiet_moves, quiet_bind; [|intros _]; apply quiet_each; intros p Hp%elem_of_ordered_elems;
    apply quiet_when_true; intros B.
  - apply quiet_failed_peer, F; [done|]. by apply negb_true_iff, bool_decide_eq_false in B.
  - destruct (U p Hp B) as [U1 U2]. apply quiet_bind; [by apply quiet_lift_res|]. intros o.
    apply quiet_bind; [by apply quiet_lift_res|]. intros n. apply quiet_when_true. intros _. by apply quiet_failed_peer.
Qed.

(** ** The work of a new state *)

Lemma quiet_active_start : quiet (active_start : D unit).
Proof. unfold active_start. quiet. Qed.
Lemma quiet_resolve_start : quiet (resolve_start : D unit).
Proof. unfold resolve_start, reopen_log. quiet. Qed.
Lemma quiet_reconnect_start : quiet (reconnect_start : D unit).
Proof. unfold reconnect_start, reopen_log. quiet. Qed.
Lemma quiet_queue_one_replay : quiet (queue_one_replay : D bool).
Proof. unfold queue_one_replay. quiet. Qed.
#[local] Hint Resolve quiet_queue_one_replay : daemon.
Lemma quiet_clientreplay_start : quiet (clientreplay_start : D unit).
Proof. unfold clientreplay_start. quiet. Qed.

Lemma recovery_done_moves old s :
  c_state (core_of s) = STATE_ACTIVE \/ c_state (core_of s) = STATE_CLIENTREPLAY ->
  moves (recovery_done old : D unit) s id [].
Proof.
  intros S. unfold recovery_done. apply moves_gets.
  change (in_state ?x s) with (bool_decide (c_state (core_of s) = x)).
  destruct S as [-> | ->]; simpl; apply quiet_moves; quiet.
Qed.

(** the core of a daemon that has just been given the state [st'] and wants it *)
Record entered c : Prop := {
  en_synced : synced c;
  en_want : c_want c = c_state c;
  en_leads : leads_to (c_state c) (c_state c) = true;
  en_hb : c_hb c = true;
  en_type : c_type c ∈ [STATE_NULL; STATE_STANDBY_REPLAY; STATE_ONESHOT_REPLAY]
}.

Lemma entered_proto c : entered c -> c_state c <> STATE_STANDBY_REPLAY -> proto c [].
Proof. intros [] N. split; [done|right]. split; try done; [congruence|by left]. Qed.

Lemma replay_start_ends s : entered (core_of s) -> replay_state (c_state (core_of s)) = true ->
  ends_well (replay_start bconf conf : D unit) s.
Proof.
  intros [Sy W L Hb Ty] R. unfold replay_start. apply ends_gets.
  change (in_state ?x s) with (bool_decide (c_state (core_of s) = x)).
  assert (forall b s1, core_of s1 = mk_core (c_who (core_of s)) (c_map (core_of s)) (c_state (core_of s))
      (c_want (core_of s)) (c_last (core_of s)) STATE_NULL b (c_announced (core_of s)) (c_hb (core_of s)) ->
    (c_state (core_of s) = STATE_STANDBY_REPLAY -> b = true) ->
    ends_well (calc_recovery_set ;; ready ← wait_for_map (C_MDS_BootStart MDS_BOOT_INITIAL);
      when ready (boot_start bconf conf MDS_BOOT_INITIAL 0) : D unit) s1) as Go.
  { intros b s1 E Hb1. assert (booting (core_of s1)) as Bo.
    { rewrite E. split; [|done|by right]. split; [done|right].
      split; cbn [c_state c_want c_hb c_replaying c_type]; [by rewrite W|done|auto|left|by left]. }
    assert (fits (c_state (core_of s1)) (C_MDS_BootStart MDS_BOOT_INITIAL) = true) as F
      by (rewrite E; unfold fits; cbn [c_state]; rewrite R; apply orb_true_r).
    skip_quiet. apply wait_ends; [done|cores; rewrite <- E; apply proto_pend; [apply Bo..|done]|].
    intros s2 E2. apply boot_start_ends; rewrite E2, E0; done. }
  case_bool_decide as S; cbn [when].
  - apply ends_modify, ends_modify. by apply (Go true).
  - skip_quiet. apply ends_modify. apply (Go (c_replaying (core_of s))); [|done].
    unfold core_of in *; simpl in *. congruence.
Qed.

Lemma boot_create_ends s : mds_kill_create_at conf <> 1 -> entered (core_of s) -> c_state (core_of s) = STATE_CREATING ->
  ends_well (boot_create conf : D unit) s.
Proof.
  intros K En S. unfold boot_create. apply Z.eqb_neq in K. rewrite K. cbn [negb]. skip_quiet.
  apply ends_later; [done|]. cores. apply proto_pend; [apply entered_proto; [done|by rewrite S]|apply En|by rewrite S].
Qed.

Lemma stopping_start_ends s : proto (core_of s) [] -> ends_well (stopping_start : D unit) s.
Proof.
  intros P. unfold stopping_start. skip_quiet. destruct (_ && _); cbn [when].
  - apply ends_quiet_r; [|intros ?; quiet]. eapply ends_moves; [apply moves_suicide|]. cores. apply proto_dead, P.
  - skip_quiet. eapply ends_moves; [apply quiet_moves; quiet|]. by cores.
Qed.

Lemma ends_quiet {X} (m : D X) s : quiet m -> proto (core_of s) [] -> ends_well m s.
Proof. intros q P. by eapply ends_moves; [apply quiet_moves|]. Qed.

Lemma enter_state_ends old s : mds_kill_create_at conf <> 1 -> entered (core_of s) ->
  (c_state (core_of s) = STATE_STOPPING -> old = STATE_ACTIVE) -> ends_well (enter_state bconf conf old : D unit) s.
Proof.
  intros K En O. unfold enter_state. apply ends_gets. change (state s) with (c_state (core_of s)).
  destruct (c_state (core_of s)) eqn:S;
    try (apply ends_quiet; [first [apply quiet_skip | apply quiet_active_start | apply quiet_resolve_start
      | apply quiet_reconnect_start | apply quiet_clientreplay_start | unfold rejoin_start; solve [quiet]]
      |by apply entered_proto; [|rewrite S]]);
    try (by apply replay_start_ends; [|rewrite S]).
  - by apply boot_create_ends.
  - apply boot_start_ends; [|by rewrite S]. split; [by apply entered_proto; [|rewrite S]|apply En|by left].
  - rewrite O by done. skip_quiet. apply stopping_start_ends. cores. apply entered_proto; [done|by rewrite S].
Qed.

(** the protocol after [m], when the callbacks [pend] were outstanding before it *)
Definition keeps_well {X} (m : D X) (pend : list kont) s : Prop :=
  wp m s (fun _ s' t => proto (core_of s') (pend ++ boots t)).

Lemma keeps_quiet_r {X Y} (m : D X) (f : X -> D Y) pend s :
  keeps_well m pend s -> (forall x s', moves (f x) s' id []) -> keeps_well (m ≫= f) pend s.
Proof.
  intros q k. apply wp_bind. eapply wp_mono; [apply q|]. intros x s' t P.
  apply (wp_moves _ _ _ _ _ (k x s')). intros y s'' t' E B. by rewrite boots_app, B, app_nil_r, E.
Qed.
Lemma keeps_quiet_l {X Y} (m : D X) (f : X -> D Y) pend s :
  quiet m -> (forall x s', core_of s' = core_of s -> keeps_well (f x) pend s') -> keeps_well (m ≫= f) pend s.
Proof. intros q k. by apply (wp_quiet_l m f s (fun s' ks => proto (core_of s') (pend ++ ks))). Qed.
Lemma keeps_moves {X} (m : D X) pend s g : moves m s g [] -> proto (g (core_of s)) pend -> keeps_well m pend s.
Proof. intros q P. eapply wp_moves; [apply q|]. intros x s' t -> ->. by rewrite app_nil_r. Qed.

(** [c'] is [c] with the state (and rank and map) of a new map *)
Record regranted c c' : Prop := {
  rg_want : c_want c' = c_want c;
  rg_type : c_type c' = c_type c;
  rg_replaying : c_replaying c' = c_replaying c;
  rg_announced : c_announced c' = c_announced c;
  rg_hb : c_hb c' = c_hb c
}.

Lemma regranted_same c c' pend : regranted c c' -> c_state c' = c_state c -> proto c pend -> proto c' pend.
Proof.
  intros [W Ty R An Hb] S [Sy P]. split; [unfold synced; by rewrite An, W|]. destruct P as [P|L]; [left; congruence|right].
  destruct L. split; rewrite ?S, ?W, ?Ty, ?R, ?Hb; done.
Qed.

(** callbacks are outstanding only in states the monitor does not change *)
Lemma grants_pend c pend st' : live c pend -> grants (c_state c) (c_want c) st' = true -> st' <> c_state c ->
  st' <> STATE_NULL -> pend = [] \/ c_state c = STATE_STANDBY_REPLAY /\ st' = STATE_REPLAY.
Proof.
  intros L Gr N1 N2. destruct (lv_pend _ _ L) as [?|(k & -> & F & W)]; [by left|right]. revert Gr. unfold grants.
  rewrite W, (bool_decide_eq_false_2 (st' = c_state c)), (bool_decide_eq_false_2 (st' = STATE_NULL)) by done.
  simpl. destruct (c_state c), st', k as [|[]| | |]; done.
Qed.

Lemma granted_state c pend st' : live c pend -> grants (c_state c) (c_want c) st' = true -> st' <> c_state c ->
  st' <> STATE_NULL ->
  leads_to st' st' = true /\ (st' = STATE_STOPPING -> c_state c = STATE_ACTIVE) /\
  (c_state c = STATE_STANDBY_REPLAY -> st' = STATE_REPLAY).
Proof.
  intros L Gr N1 N2. pose proof (lv_next _ _ L) as Nx. revert Gr. unfold grants.
  rewrite (bool_decide_eq_false_2 (st' = c_state c)), (bool_decide_eq_false_2 (st' = STATE_NULL)) by done. simpl.
  destruct (c_state c), (c_want c); try done; destruct st'; done.
Qed.

(** what [state_change] does once the daemon wants its new state *)
Lemma change_work c pend s : mds_kill_create_at conf <> 1 -> live c pend -> entered (core_of s) ->
  (c_state c = STATE_STANDBY_REPLAY -> c_state (core_of s) = STATE_REPLAY) ->
  (pend = [] \/ c_state c = STATE_STANDBY_REPLAY) ->
  (c_state (core_of s) = STATE_STOPPING -> c_state c = STATE_ACTIVE) ->
  keeps_well (if bool_decide (c_state c = STATE_STANDBY_REPLAY) then must (bool_decide (c_state (core_of s) = STATE_REPLAY))
    else when ((bool_decide (c_state (core_of s) = STATE_ACTIVE) || bool_decide (c_state (core_of s) = STATE_CLIENTREPLAY)) &&
               recovers_from (c_state c)) (recovery_done (c_state c)) ;;
         enter_state bconf conf (c_state c) : D unit) pend s.
Proof.
  intros K L En SR Pe St. case_bool_decide as Sr.
  - rewrite (bool_decide_eq_true_2 (_ = STATE_REPLAY)) by auto.
    eapply keeps_moves; [by apply quiet_moves, quiet_must|]. unfold id.
    destruct (lv_pend _ _ L) as [->|(k & -> & F & W)]; [apply entered_proto; [done|by rewrite SR]|].
    apply proto_pend; [apply entered_proto; [done|by rewrite SR]|apply En|]. rewrite SR by done. rewrite Sr in F.
    by destruct k as [|[]| | |].
  - destruct Pe as [-> |?]; [|done].
    change (ends_well (when ((bool_decide (c_state (core_of s) = STATE_ACTIVE) ||
      bool_decide (c_state (core_of s) = STATE_CLIENTREPLAY)) && recovers_from (c_state c)) (recovery_done (c_state c)) ;;
      enter_state bconf conf (c_state c) : D unit) s).
    destruct (_ && _) eqn:R; cbn [when]; [|skip_quiet; apply enter_state_ends; by cores].
    apply andb_prop in R as [R _]. apply wp_bind.
    eapply wp_moves; [apply recovery_done_moves|].
    { apply orb_prop in R as [R|R]; apply bool_decide_eq_true in R; auto. }
    intros _ s' t E Bt. eapply wp_mono; [apply enter_state_ends; [done|by rewrite E|by rewrite E]|].
    intros ? ? ? P. by rewrite boots_app, Bt.
Qed.

Lemma state_change_keeps c pend s : mds_kill_create_at conf <> 1 -> proto c pend -> c_want c <> STATE_DNE ->
  regranted c (core_of s) -> grants (c_state c) (c_want c) (c_state (core_of s)) = true ->
  c_state (core_of s) <> STATE_NULL -> keeps_well (state_change bconf conf (c_state c) : D unit) pend s.
Proof.
  intros K P N Rg Gr Nn. unfold state_change. apply wp_gets. change (state s) with (c_state (core_of s)).
  set (st' := c_state (core_of s)) in *. destruct (decide (c_state c = st')) as [Same|Diff].
  { rewrite bool_decide_eq_true_2 by done. eapply keeps_moves; [by apply quiet_moves, quiet_skip|].
    by eapply regranted_same. }
  rewrite bool_decide_eq_false_2 by done. cbn [negb when]. destruct P as [Sy [?|L]]; [done|].
  destruct (granted_state _ _ _ L Gr (not_eq_sym Diff) Nn) as (Ld & St & SR).
  assert (synced (core_of s)) as Sy' by (unfold synced; rewrite (rg_announced _ _ Rg), (rg_want _ _ Rg); done).
  apply wp_bind. apply (wp_moves _ _ _ _ _ (moves_set_want_state st' s)). intros _ s' t E Bt.
  assert (entered (core_of s')) as En.
  { rewrite E. split; cbn [want_core c_state c_want c_hb c_type]; [by apply synced_want|done|done| |].
    - rewrite (rg_hb _ _ Rg). apply L.
    - rewrite (rg_type _ _ Rg). apply L. }
  assert (c_state (core_of s') = st') as S' by (by rewrite E).
  pose proof (change_work c pend s' K L En) as Wk. rewrite S' in Wk.
  eapply wp_mono; [apply Wk; [done| |done]|intros ? ? ? P; by rewrite boots_app, Bt].
  destruct (grants_pend _ _ _ L Gr) as [?|[? ?]]; auto.
Qed.

(** ** The whole of [handle_mds_map] *)

Lemma stable_map_with_beacon f : stable mdsmap (with_beacon f : D unit).
Proof. unfold with_beacon. stable. Qed.
#[local] Hint Resolve stable_map_with_beacon : daemon.
Lemma stable_map_send : stable mdsmap (beacon_send bconf : D unit).
Proof. unfold beacon_send. stable. Qed.
#[local] Hint Resolve stable_map_send : daemon.
Lemma stable_map_want x : stable mdsmap (set_want_state x : D unit).
Proof. unfold set_want_state. stable. Qed.
#[local] Hint Resolve stable_map_want : daemon.
Lemma stable_map_suicide : stable mdsmap (suicide : D unit).
Proof. unfold suicide. stable. Qed.
#[local] Hint Resolve stable_map_suicide : daemon.
Lemma stable_map_respawn : stable mdsmap (respawn : D unit).
Proof. unfold respawn. stable. Qed.
#[local] Hint Resolve stable_map_respawn : daemon.
Lemma stable_map_request x : stable mdsmap (request_state bconf x : D unit).
Proof. unfold request_state. stable. Qed.
#[local] Hint Resolve stable_map_request : daemon.
Lemma stable_map_boot_start step r : stable mdsmap (boot_start bconf conf step r : D unit).
Proof.
  unfold boot_start, boot_run, starting_done, replay_done, standby_replay_restart, wait_for_map, reread_head. stable.
Qed.
#[local] Hint Resolve stable_map_boot_start : daemon.
Lemma stable_map_enter old : stable mdsmap (enter_state bconf conf old : D unit).
Proof.
  unfold enter_state, active_start, replay_start, resolve_start, reconnect_start, rejoin_start, clientreplay_start,
    boot_create, stopping_start, reopen_log, finish_contexts, queue_one_replay, queue_waiter, calc_recovery_set,
    wait_for_map. stable.
Qed.
#[local] Hint Resolve stable_map_enter : daemon.
Lemma stable_map_change old : stable mdsmap (state_change bconf conf old : D unit).
Proof. unfold state_change, recovery_done. stable. Qed.

Lemma digest_keeps c pend m who s : mds_kill_create_at conf <> 1 -> proto c pend -> c_want c <> STATE_DNE ->
  follows c m -> regranted c (core_of s) -> c_map (core_of s) = m -> c_state (core_of s) = get_state_gid m gid ->
  get_state_gid m gid <> STATE_NULL ->
  keeps_well (digest_map bconf conf gid (c_map c) who (c_state c) : D unit) pend s.
Proof.
  intros K P N Fo Rg Em Es Nn. unfold digest_map. apply keeps_quiet_l; [quiet|]. intros _ s1 E1.
  assert (c_map (core_of s1) = m) as Em1 by (by rewrite E1).
  apply wp_bind. eapply wp_mono; [apply (wp_stable mdsmap); [apply stable_map_change|]; apply (state_change_keeps c pend)|];
    rewrite ?E1; rewrite ?Es; auto; [apply Fo|].
  intros _ s2 t2 [P2 M2].
  assert (moves (resolve_phase (c_map c) ;; rejoin_phase conf (c_map c) (c_state c) ;;
    active_phase (c_map c) (c_state c) ;; failed_phase (c_map c) ;; stopped_phase (c_map c) ;;
    replaying ← gets is_any_replay; when (negb replaying) (tell TryRebalance) ;; map_waiters ;; map_barrier : D unit)
    s2 id []) as Mv.
  { do 3 (apply moves_quiet_l; [quiet|]; intros ? ? ?).
    assert (core_of s'1 = core_of s2) as E12 by congruence.
    assert (mdsmap s'1 = m) as Em2 by (rewrite <- Em1; transitivity (mdsmap s2); [exact (f_equal c_map E12)|exact M2]).
    apply moves_quiet_r; [apply moves_failed_phase; rewrite Em2; apply Fo|]. intros ?. quiet. }
  eapply wp_moves; [apply Mv|]. intros _ s3 t3 E3 B3. by rewrite boots_app, B3, app_nil_r, E3.
Qed.

(** what the map says of this daemon *)
Definition identified (m : M) (old : daemon_state) c : core M :=
  let st := get_state_gid m gid in
  mk_core (get_rank_gid m gid) m st (c_want c) (if bool_decide (st = old) then c_last c else old) (c_type c)
    (c_replaying c) (c_announced c) (c_hb c).

Lemma no_pend c pend : live c pend -> (forall k, fits (c_state c) k = false) -> pend = [].
Proof. intros L F. destruct (lv_pend _ _ L) as [?|(k & _ & Fk & _)]; [done|]. by rewrite F in Fk. Qed.

Lemma idle_fits st k : st ∈ [STATE_BOOT; STATE_NULL; STATE_STANDBY] -> fits st k = false.
Proof. rewrite !elem_of_cons. intros [-> |[-> |[-> |X]]]; [..|by apply not_elem_of_nil in X]; by destruct k as [|[]| | |]. Qed.

(** the result of [identify] and [not_in_map]: a core to go on with, or the protocol *)
Definition identifies (m : M) c pend (p : D bool) s : Prop :=
  wp p s (fun go s' t => boots t = [] /\
    if go : bool then regranted c (core_of s') /\ c_map (core_of s') = m /\
      c_state (core_of s') = get_state_gid m gid /\ get_state_gid m gid <> STATE_NULL
    else proto (core_of s') pend).

Lemma stops_with m c pend (p : D unit) s g : moves p s g [] -> proto (g (core_of s)) pend ->
  identifies m c pend (p ;; mret false) s.
Proof.
  intros Mv P. apply wp_bind. eapply wp_moves; [apply Mv|]. intros _ s' t E B.
  unfold wp, mret, D_ret. rewrite app_nil_r. split; [done|by rewrite E].
Qed.

Definition who_core (w : Z) c : core M :=
  mk_core w (c_map c) (c_state c) (c_want c) (c_last c) (c_type c) (c_replaying c) (c_announced c) (c_hb c).
Definition state_core (st : daemon_state) c : core M :=
  mk_core (c_who c) (c_map c) st (c_want c) (c_last c) (c_type c) (c_replaying c) (c_announced c) (c_hb c).

Lemma goes_on m c pend v s : core_of s = identified m (c_state c) c -> get_state_gid m gid <> STATE_NULL ->
  identifies m c pend (modify (set_whoami v) ;; mret true) s.
Proof.
  intros E Nn. unfold identifies, wp. split; [done|].
  change (regranted c (who_core v (core_of s)) /\ c_map (core_of s) = m /\ c_state (core_of s) = get_state_gid m gid /\
    get_state_gid m gid <> STATE_NULL). rewrite E. split; [by split|]. split; [done|]. by split.
Qed.

(** a daemon that is in no map (any more): it gets ready to be added, or dies *)
Lemma dropped m c pend s : proto c pend -> c_want c <> STATE_DNE ->
  core_of s = identified m (c_state c) c -> get_state_gid m gid = STATE_NULL ->
  identifies m c pend (
    if bool_decide (c_want c = STATE_STANDBY) then
      modify (set_state STATE_BOOT) ;; set_want_state STATE_BOOT ;; mret false
    else if bool_decide (c_want c = STATE_BOOT) then mret false
    else
      let existing := find_mds_gid_by_name (c_map (core_of s)) name in
      (if mds_enforce_unique_name conf && negb (existing =? 0) && (gid <? existing)
       then suicide else respawn) ;; mret false) s.
Proof.
  intros [Sy [?|L]] N E Sn; [done|]. pose proof (lv_next _ _ L) as Nx.
  assert (synced (core_of s)) as Sy' by (by rewrite E).
  case_bool_decide as W1; [|case_bool_decide as W2].
  - assert (pend = []) as -> by (apply (no_pend _ _ L); intros k; rewrite W1 in Nx; by destruct (c_state c), k as [|[]| | |]).
    apply wp_bind. unfold wp at 1, modify. set (s1 := set_state STATE_BOOT s).
    assert (core_of s1 = state_core STATE_BOOT (core_of s)) as E1 by done.
    apply (stops_with m c [] _ s1 (want_core STATE_BOOT)); [apply moves_set_want_state|]. rewrite E1, E.
    split; [by apply synced_want|right]. destruct L. by split; [..|left].
  - assert (pend = []) as -> by (apply (no_pend _ _ L); intros k; rewrite W2 in Nx; by destruct (c_state c), k as [|[]| | |]).
    split; [done|]. rewrite E. split; [done|right]. destruct L. split; cbn [identified c_state c_want c_hb c_replaying c_type]; auto.
    + by rewrite Sn, W2.
    + by rewrite Sn.
  - eapply stops_with with (g := dead_core); [|by apply proto_dead].
    destruct (_ && _); [apply moves_suicide|apply moves_respawn].
Qed.

Lemma identifies_moves {X} m c pend (p : D X) (f : X -> D bool) s g :
  moves p s g [] -> (forall x s', core_of s' = g (core_of s) -> identifies m c pend (f x) s') ->
  identifies m c pend (p ≫= f) s.
Proof.
  intros q k. apply wp_bind. eapply wp_moves; [apply q|]. intros x s' t E B.
  eapply wp_mono; [by apply (k x s')|]. intros go s'' t' [B' R]. by rewrite boots_app, B, B'.
Qed.

(** the states in which the map may show the daemon as a standby *)
Lemma granted_standby c pend st' : live c pend -> grants (c_state c) (c_want c) st' = true ->
  st' = STATE_STANDBY \/ st' = STATE_STANDBY_REPLAY ->
  c_state c ∈ [STATE_BOOT; STATE_NULL; STATE_STANDBY] \/ c_state c = STATE_STANDBY_REPLAY /\ st' = STATE_STANDBY_REPLAY.
Proof.
  intros L Gr S'. pose proof (lv_next _ _ L) as Nx. unfold grants in Gr.
  destruct S' as [-> | ->], (c_state c), (c_want c); try done; set_solver.
Qed.

Lemma type_cases c pend : live c pend ->
  c_type c = STATE_NULL \/ c_type c = STATE_STANDBY_REPLAY \/ c_type c = STATE_ONESHOT_REPLAY.
Proof. intros L. pose proof (lv_type _ _ L) as Ty. set_solver. Qed.

(** a standby wants to be one, or what it was started for *)
Lemma identify_standby c pend m s : synced c -> live c pend -> follows c m ->
  core_of s = identified m (c_state c) c -> get_state_gid m gid = STATE_STANDBY ->
  identifies m c pend (set_want_state STATE_STANDBY ;;
    when (negb (state_val (c_type c) =? 0)) (request_state bconf (c_type c)) ;; mret false) s.
Proof.
  intros Sy L Fo E S1. assert (synced (core_of s)) as Sy' by (by rewrite E).
  destruct (granted_standby _ _ _ L (fo_state _ _ Fo)) as [Id|[_ ?]]; [by left| |congruence].
  assert (pend = []) as -> by (apply (no_pend _ _ L); intros k; by apply idle_fits).
  apply (identifies_moves _ _ _ _ _ _ (want_core STATE_STANDBY)); [apply moves_set_want_state|]. intros _ s1 E1.
  assert (proto (core_of s1) []) as P1.
  { rewrite E1. split; [by apply synced_want|right]. rewrite E. destruct L.
    split; cbn [want_core identified c_state c_want c_hb c_replaying c_type]; rewrite ?S1; auto; done. }
  destruct (negb _); cbn [when]; [|by apply stops_with with (g := id)].
  apply (stops_with _ _ _ _ _ (want_core (c_type c))); [apply moves_request_state|].
  apply proto_want; [done|by rewrite E1|]. rewrite E1, E. cbn [want_core identified c_state]. rewrite S1.
  by destruct (type_cases _ _ L) as [-> |[-> | ->]].
Qed.

(** the map offers standby-replay to a daemon that was started for something else *)
Lemma identify_oneshot c pend m s : synced c -> live c pend -> follows c m ->
  core_of s = identified m (c_state c) c -> get_state_gid m gid = STATE_STANDBY_REPLAY ->
  c_type c <> STATE_NULL -> c_type c <> STATE_STANDBY_REPLAY ->
  identifies m c pend (set_want_state (c_type c) ;; beacon_send bconf ;; modify (set_state (c_state c)) ;; mret false) s.
Proof.
  intros Sy L Fo E S2 T1 T2. assert (c_type c = STATE_ONESHOT_REPLAY) as T3 by (by destruct (type_cases _ _ L) as [?|[?|?]]).
  destruct (granted_standby _ _ _ L (fo_state _ _ Fo)) as [Id|[Sr _]];
    [by right| |by apply (lv_standby _ _ L) in Sr as [_ ?]].
  assert (pend = []) as -> by (apply (no_pend _ _ L); intros k; by apply idle_fits).
  apply (identifies_moves _ _ _ _ _ _ (want_core (c_type c))); [apply moves_set_want_state|]. intros _ s1 E1.
  apply (identifies_moves _ _ _ _ _ _ id); [apply quiet_moves; quiet|]. intros _ s2 E2.
  apply (stops_with _ _ _ _ _ (state_core (c_state c))); [done|]. rewrite E2, E1, E.
  split; [by apply (synced_want (c_type c) c)|right]. destruct L.
  split; cbn [want_core state_core identified id c_state c_want c_hb c_replaying c_type]; auto.
  rewrite T3. assert (c_state c = STATE_BOOT \/ c_state c = STATE_NULL \/ c_state c = STATE_STANDBY) as Id' by set_solver.
  by destruct Id' as [-> |[-> | ->]].
Qed.

(** everyone else goes on, with a rank or as the standby of one *)
Lemma identify_rank c pend m s : proto c pend -> c_want c <> STATE_DNE -> follows c m ->
  core_of s = identified m (c_state c) c -> get_state_gid m gid <> STATE_STANDBY ->
  identifies m c pend (me ← gets whoami; if me <? 0 then not_in_map conf gid name else mret true) s.
Proof.
  intros P N Fo E Ns. apply wp_gets. change (whoami s) with (c_who (core_of s)). rewrite E. cbn [identified c_who].
  destruct (Z.ltb_spec (get_rank_gid m gid) 0) as [Rk|Rk].
  - assert (state s = get_state_gid m gid) as Es by exact (f_equal c_state E).
    assert (want_state s = c_want c) as Ew by exact (f_equal c_want E).
    unfold not_in_map. do 3 apply wp_gets. rewrite Es, Ew. pose proof (fo_rank _ _ Fo Rk) as St.
    assert (get_state_gid m gid = STATE_NULL \/ get_state_gid m gid = STATE_STANDBY_REPLAY \/
      get_state_gid m gid = STATE_ONESHOT_REPLAY) as [Sn|Sn] by set_solver.
    + rewrite (bool_decide_eq_false_2 (_ = STATE_STANDBY_REPLAY)), (bool_decide_eq_false_2 (_ = STATE_ONESHOT_REPLAY))
        by (by rewrite Sn). by apply dropped.
    + assert (bool_decide (get_state_gid m gid = STATE_STANDBY_REPLAY) || bool_decide (get_state_gid m gid = STATE_ONESHOT_REPLAY)
        = true) as -> by (by destruct Sn as [-> | ->]). apply goes_on; [done|]. by destruct Sn as [-> | ->].
  - unfold identifies, wp, mret, D_ret. split; [done|]. rewrite E. split; [by split|]. split; [done|]. split; [done|].
    intros Sn. apply (fo_null _ _ Fo) in Sn. lia.
Qed.

Lemma identify_ok c pend m s : proto c pend -> c_want c <> STATE_DNE -> follows c m ->
  core_of s = mk_core (c_who c) m (c_state c) (c_want c) (c_last c) (c_type c) (c_replaying c) (c_announced c) (c_hb c) ->
  identifies m c pend (identify bconf conf gid name (c_map c) (c_state c) : D bool) s.
Proof.
  intros P N Fo E. pose proof P as [Sy [?|L]]; [done|]. assert (mdsmap s = m) as Em by exact (f_equal c_map E).
  unfold identify. apply wp_gets. rewrite Em.
  do 3 apply wp_modify.
  set (s1 := set_incarnation _ _).
  apply (identifies_moves _ _ _ _ _ _ id); [apply quiet_moves; quiet|]. intros _ s2 E2. apply wp_gets.
  assert (state s2 = get_state_gid m gid) as Es by exact (f_equal c_state E2). rewrite Es.
  assert (standby_type s2 = c_type c) as Et by (etrans; [exact (f_equal c_type E2)|exact (f_equal c_type E)]).
  assert (core_of s2 = who_core (get_rank_gid m gid) (state_core (get_state_gid m gid) (core_of s))) as E3 by (by rewrite E2).
  apply (identifies_moves _ _ _ _ _ _ (fun c' => mk_core (c_who c') (c_map c') (c_state c') (c_want c')
    (if bool_decide (get_state_gid m gid = c_state c) then c_last c' else c_state c) (c_type c') (c_replaying c')
    (c_announced c') (c_hb c'))).
  { case_bool_decide; [|done]. split; [by destruct s2|done]. }
  intros _ s3 E4.
  assert (core_of s3 = identified m (c_state c) c) as E5 by (by rewrite E4, E3, E). clear E4.
  apply wp_gets. assert (standby_type s3 = c_type c) as -> by exact (f_equal c_type E5).
  pose proof (identify_rank c pend m s3 P N Fo E5) as Ir.
  case_bool_decide as S1; [by apply identify_standby|]. destruct (_ && _) eqn:S2; [|by apply Ir].
  apply andb_prop in S2 as [S2 T2]. apply andb_prop in S2 as [S2 T1]. apply bool_decide_eq_true in S2.
  apply negb_true_iff, bool_decide_eq_false in T1, T2. by apply identify_oneshot.
Qed.

Lemma handle_mds_map_keeps src epoch m pend s : mds_kill_create_at conf <> 1 -> proto (core_of s) pend ->
  c_want (core_of s) <> STATE_DNE -> (get_epoch (mdsmap s) < epoch -> follows (core_of s) m) ->
  keeps_well (handle_mds_map compat_default compat_merge bconf conf gid name src epoch m : D unit) pend s.
Proof.
  intros K P N Fo. unfold handle_mds_map. apply keeps_quiet_l; [quiet|]. intros _ s1 E1. apply wp_gets.
  assert (mdsmap s1 = mdsmap s) as Em by exact (f_equal c_map E1). rewrite Em.
  apply wp_when; intros Ep; [apply Z.ltb_lt in Ep|rewrite app_nil_r; by rewrite E1].
  do 2 apply wp_gets. assert (state s1 = c_state (core_of s)) as -> by exact (f_equal c_state E1).
  apply wp_modify. apply keeps_quiet_l; [quiet|]. intros _ s2 E2.
  apply keeps_quiet_r; [|intros ? ?; apply quiet_moves; unfold beacon_notify_mdsmap; quiet; by apply quiet_with_beacon].
  assert (synced (core_of s2)) as Sy2 by (unfold synced in *; rewrite E2; apply P || (destruct P as [P _]; by rewrite <- E1 in P)).
  destruct (negb _).
  { eapply keeps_moves; [apply moves_suicide|]. by apply proto_dead. }
  apply wp_bind. eapply wp_mono; [apply (identify_ok (core_of s) pend m s2); auto|].
  { rewrite E2, <- E1. done. }
  intros go s3 t3 [B3 R]. destruct go; cbn [when].
  - destruct R as (Rg & Em3 & Es3 & Nn). eapply wp_mono; [by apply (digest_keeps (core_of s) pend m _ s3); auto|].
    intros ? ? ? P'. by rewrite boots_app, B3.
  - change (proto (core_of s3) (pend ++ boots (t3 ++ []))). by rewrite app_nil_r, B3, app_nil_r.
Qed.

(** ** Runs of the daemon *)

Lemma laggy_want now (b : beacon T CS) : b_want_state (Beacon.is_laggy bconf now b).1.1 = b_want_state b.
Proof. unfold Beacon.is_laggy. destruct (decide _); [done|]. by destruct (k_ltb _ _). Qed.

Lemma quiet_beacon_laggy : quiet (beacon_laggy bconf : D bool).
Proof.
  intros s. unfold beacon_laggy. apply wp_bind. unfold wp at 1, ceph_clock_now. apply wp_gets.
  pose proof (laggy_want (w_now (reads s)) (beacon_ s)) as L. change (beacon_ (set_reads _ s)) with (beacon_ s).
  destruct (Beacon.is_laggy _ _ _) as [[b es] r]. simpl in L. apply wp_modify.
  set (s1 := set_beacon _ _).
  assert (core_of s1 = core_of s) as E1 by (unfold core_of; simpl; by rewrite L).
  assert (quiet (each (fun e => tell (Bcn e)) es ;; mret r : D bool)) as q by quiet.
  apply (wp_quiet _ _ _ q). intros x s' t E B. split; [by rewrite E|exact B].
Qed.
#[local] Hint Resolve quiet_beacon_laggy : daemon.

Lemma quiet_notify_health : quiet (notify_health_ bconf : D unit).
Proof. unfold notify_health_. quiet. by apply quiet_with_beacon. Qed.
Lemma quiet_reset_tick : quiet (reset_tick : D unit).
Proof. unfold reset_tick. quiet. Qed.
#[local] Hint Resolve quiet_notify_health quiet_reset_tick : daemon.

Lemma tick_moves s : c_hb (core_of s) = true -> moves (tick bconf : D unit) s id [].
Proof.
  intros Hb. unfold tick. apply moves_quiet_r; [|intros ?; quiet].
  unfold heartbeat_reset. apply moves_gets. change (hb s) with (c_hb (core_of s)). rewrite Hb.
  apply quiet_moves. quiet.
Qed.

(** What happens to a daemon: a map, a callback, a tick, the end of the work of a state (called
    by the cache and the server), a failed write, a signal. *)
Inductive dop :=
| OMap (src : option Z) (epoch : Z) (m : M)
| OKont (k : kont) (r : Z)
| OTick
| OResolveDone | OReconnectDone | ORejoinDone | OClientreplayDone | OStoppingDone
| OWriteError (err : Z)
| OSignal.

Definition run_dop (op : dop) : D unit :=
  match op with
  | OMap src epoch m => handle_mds_map compat_default compat_merge bconf conf gid name src epoch m
  | OKont k r => run_kont bconf conf k r
  | OTick => run_kont bconf conf C_MDS_Tick 0
  | OResolveDone => resolve_done bconf
  | OReconnectDone => reconnect_done bconf
  | ORejoinDone => rejoin_done bconf
  | OClientreplayDone => clientreplay_done bconf
  | OStoppingDone => stopping_done bconf
  | OWriteError err => handle_write_error conf err
  | OSignal => handle_signal
  end.

(** what the monitor and the callers guarantee *)
Definition may (op : dop) (pend : list kont) s : Prop :=
  match op with
  | OMap _ epoch m => get_epoch (mdsmap s) < epoch -> follows (core_of s) m
  | OKont k r => k ∈ pend /\ boot_kont k = true /\ (k = C_MDS_StandbyReplayRestart -> r = 0)
  | OResolveDone => state s = STATE_RESOLVE
  | OReconnectDone => state s = STATE_RECONNECT
  | ORejoinDone => state s = STATE_REJOIN
  | OClientreplayDone => state s = STATE_CLIENTREPLAY
  | OStoppingDone => state s = STATE_STOPPING
  | OTick | OWriteError _ | OSignal => True
  end.

(** the callbacks outstanding after [op] left the trace [t] *)
Definition outstanding (op : dop) (pend : list kont) (t : list ev) : list kont :=
  match op with OKont k _ => filter (fun k' => k' <> k) pend | _ => pend end ++ boots t.

Inductive dstep : mds * list kont -> mds * list kont -> Prop :=
| ds_op op s pend s' t : want_state s <> STATE_DNE -> may op pend s -> run_dop op s = Ret tt s' t ->
    dstep (s, pend) (s', outstanding op pend t).

Lemma asks_keeps x pend s : proto (core_of s) pend -> c_want (core_of s) <> STATE_DNE ->
  (forall k, fits (c_state (core_of s)) k = false) -> leads_to (c_state (core_of s)) x = true ->
  keeps_well (request_state bconf x : D unit) pend s.
Proof.
  intros P N F L. pose proof P as [_ [?|Lv]]; [done|].
  assert (pend = []) as -> by by apply (no_pend _ _ Lv). by apply asks_ends.
Qed.

Lemma no_boot_fits st k : serving st = true \/ st ∈ [STATE_RESOLVE; STATE_RECONNECT; STATE_REJOIN] -> fits st k = false.
Proof. intros S. destruct st; try (by destruct k as [|[]| | |]); exfalso; destruct S; set_solver. Qed.

(** every operation keeps the protocol and passes its asserts *)
Lemma op_keeps op pend s : mds_kill_create_at conf <> 1 -> proto (core_of s) pend -> want_state s <> STATE_DNE ->
  may op pend s -> wp (run_dop op) s (fun _ s' t => proto (core_of s') (outstanding op pend t)).
Proof.
  intros K P N Ma. pose proof P as [Sy [?|L]]; [done|].
  assert (forall st x, state s = st -> (serving st = true \/ st ∈ [STATE_RESOLVE; STATE_RECONNECT; STATE_REJOIN]) ->
    leads_to st x = true -> keeps_well (request_state bconf x : D unit) pend s) as Asks.
  { intros st x S Sv Ld. apply asks_keeps; [done|done| |by change (c_state (core_of s)) with (state s); rewrite S].
    intros k. change (c_state (core_of s)) with (state s). rewrite S. by apply no_boot_fits. }
  destruct op as [src epoch m|k r| | | | | | |err| ]; simpl in Ma.
  - by apply handle_mds_map_keeps.
  - destruct Ma as (Hk & Bk & R0). destruct (lv_pend _ _ L) as [-> |(k' & -> & _ & _)]; [set_solver|].
    apply list_elem_of_singleton in Hk as <-. unfold outstanding. rewrite filter_cons_False, filter_nil by (by intros ?).
    by apply run_kont_ends.
  - change (keeps_well (modify (set_tick_event false) ;; tick bconf : D unit) pend s). apply wp_modify.
    eapply keeps_moves; [apply tick_moves; apply L|]. done.
  - apply (Asks _ STATE_RECONNECT Ma); [set_solver|done].
  - apply (Asks _ STATE_REJOIN Ma); [set_solver|done].
  - assert (pend = []) as -> by (apply (no_pend _ _ L); intros k; change (c_state (core_of s)) with (state s); rewrite Ma; apply no_boot_fits; set_solver).
    by apply rejoin_done_ends.
  - apply (Asks _ STATE_ACTIVE Ma); [by left|done].
  - apply (Asks _ STATE_STOPPED Ma); [by left|done].
  - unfold run_dop, handle_write_error. destruct (_ =? _); [|destruct (_ <=? _); [|destruct (_ =? _)]].
    + eapply keeps_moves; [apply moves_respawn|]. by apply proto_dead.
    + eapply keeps_moves; [apply moves_suicide|]. by apply proto_dead.
    + eapply keeps_moves; [apply quiet_moves; quiet|]. done.
    + eapply keeps_moves; [by apply quiet_moves, quiet_skip|]. done.
  - eapply keeps_moves; [apply moves_suicide|]. by apply proto_dead.
Qed.

Context (MDS_STANDBY_ANY MDS_STANDBY_NAME MDS_MATCHED_ACTIVE : Z).
Abbreviation init := (init compat_default compat_merge bconf conf MDS_STANDBY_ANY MDS_STANDBY_NAME MDS_MATCHED_ACTIVE).

(** a state to start with, and, for a one-shot replay, something to replay *)
Definition startable (wanted : daemon_state) : Prop :=
  wanted = STATE_BOOT \/ wanted = STATE_STANDBY_REPLAY \/
  wanted = STATE_ONESHOT_REPLAY /\ (mds_standby_for_rank conf <> -1 \/ mds_standby_for_name conf <> EmptyString).

Record ready_to_boot c : Prop := {
  rb_state : c_state c = STATE_BOOT;
  rb_want : c_want c = STATE_BOOT;
  rb_type : c_type c ∈ [STATE_NULL; STATE_STANDBY_REPLAY; STATE_ONESHOT_REPLAY];
  rb_hb : c_hb c = true
}.

(** the end of [init]: the beacon starts with the state wanted *)
Lemma init_announces s : ready_to_boot (core_of s) -> ends_well (
  m ← gets mdsmap; want ← gets want_state; rank ← gets standby_for_rank;
  healthy ← ask QHealthy; now ← ceph_clock_now;
  with_beacon (Beacon.init compat_default compat_merge bconf (mk_mdsmap (get_epoch m) (get_compat m))
    (state_val want) rank (mds_standby_for_name conf) healthy now) ;;
  modify (set_whoami (-1)) ;; tell (SetMyname (-1)) ;; reset_tick : D unit) s.
Proof.
  intros [S W Ty Hb]. do 3 apply ends_gets. apply ends_quiet_l; [quiet|]. intros healthy s1 E1.
  apply ends_quiet_l; [quiet|]. intros now s2 E2.
  assert (core_of s2 = core_of s) as E by congruence. clear E1 E2. apply wp_bind. unfold with_beacon. apply wp_gets.
  destruct (Beacon.init _ _ _ _ _ _ _ _ _ _) as [b es] eqn:Eb. apply wp_modify.
  assert (b_want_state b = state_val STATE_BOOT) as Wb.
  { unfold Beacon.init, _send in Eb. change (want_state s) with (c_want (core_of s)) in Eb. rewrite W in Eb. destruct healthy; by injection Eb as <- _. }
  assert (quiet (each (fun e => tell (Bcn e)) es : D unit)) as q by quiet.
  apply (wp_quiet _ _ _ q). intros _ s3 t3 E3 B3. apply wp_modify.
  assert (quiet (tell (SetMyname (-1)) ;; reset_tick : D unit)) as q' by quiet.
  apply (wp_quiet _ _ _ q'). intros _ s4 t4 E4 B4. rewrite boots_app, B3, B4, E4.
  change (core_of (set_whoami (-1) s3)) with (who_core (-1) (core_of s3)). rewrite E3.
  rewrite <- E in S, W, Ty, Hb. split; [unfold synced; simpl in *; by rewrite Wb, W|right].
  split; simpl in *; rewrite ?S, ?W; try done. by left.
Qed.

(** the middle of [init]: for whom to stand by *)
Definition choose_standby (w : daemon_state) : D unit :=
  modify (set_standby_for_rank (mds_standby_for_rank conf)) ;; modify (set_standby_for_name (mds_standby_for_name conf)) ;;
  ty ← gets standby_type;
  (if bool_decide (w = STATE_STANDBY_REPLAY) && (mds_standby_for_rank conf =? -1) then
     if bool_decide (mds_standby_for_name conf = EmptyString)
     then modify (set_standby_for_rank MDS_STANDBY_ANY) else modify (set_standby_for_rank MDS_STANDBY_NAME)
   else when (bool_decide (ty = STATE_NULL) && negb (bool_decide (mds_standby_for_name conf = EmptyString)))
          (modify (set_standby_for_rank MDS_MATCHED_ACTIVE))) ;;
  m ← gets mdsmap; want ← gets want_state; rank ← gets standby_for_rank;
  healthy ← ask QHealthy; now ← ceph_clock_now;
  with_beacon (Beacon.init compat_default compat_merge bconf (mk_mdsmap (get_epoch m) (get_compat m))
    (state_val want) rank (mds_standby_for_name conf) healthy now) ;;
  modify (set_whoami (-1)) ;; tell (SetMyname (-1)) ;; reset_tick.

Lemma choose_standby_ends w s : ready_to_boot (core_of s) -> ends_well (choose_standby w) s.
Proof.
  intros R1. unfold choose_standby. apply ends_quiet_l; [quiet|]. intros _ s2 E2. apply ends_quiet_l; [quiet|]. intros _ s3 E3.
  apply ends_gets, ends_quiet_l; [quiet|]. intros _ s4 E4. apply init_announces. by rewrite E4, E3, E2.
Qed.

Lemma startable_ok w : startable w -> bool_decide (w = STATE_ONESHOT_REPLAY) && (mds_standby_for_rank conf =? -1) &&
    bool_decide (mds_standby_for_name conf = EmptyString) = false.
Proof.
  intros [-> |[-> |[-> [Rk|Nm]]]]; simpl; [done|done| |].
  - apply Z.eqb_neq in Rk. by rewrite Rk.
  - rewrite (bool_decide_eq_false_2 _ Nm). apply andb_false_r.
Qed.

(** [init] after the first two checks *)
Lemma init_wants w s : startable w -> c_state (core_of s) = STATE_BOOT -> c_type (core_of s) = STATE_NULL ->
  c_hb (core_of s) = true -> ends_well (
  modify (set_want w) ;;
  when (bool_decide (w = STATE_STANDBY_REPLAY) || bool_decide (w = STATE_ONESHOT_REPLAY))
    (when (bool_decide (w = STATE_ONESHOT_REPLAY) && (mds_standby_for_rank conf =? -1) &&
           bool_decide (mds_standby_for_name conf = EmptyString)) suicide ;;
     modify (set_want STATE_BOOT) ;;
     modify (set_standby_type w)) ;; choose_standby w) s.
Proof.
  intros Sw S Ty Hb. rewrite (startable_ok w Sw). apply ends_modify.
  destruct (decide (w = STATE_BOOT)) as [-> |Nw].
  - apply ends_quiet_l; [quiet|]. intros _ s1 E1. apply choose_standby_ends. rewrite E1.
    split; [exact S|done|exact (eq_ind_r (.∈ _) (list_elem_of_here _ _) Ty)|exact Hb].
  - assert (bool_decide (w = STATE_STANDBY_REPLAY) || bool_decide (w = STATE_ONESHOT_REPLAY) = true) as ->
      by (by destruct Sw as [? |[-> |[-> _]]]).
    apply (ends_assoc (when false suicide)). apply ends_quiet_l; [quiet|]. intros _ s1 E1.
    apply ends_assoc, ends_modify, ends_modify, choose_standby_ends.
    split; [exact (eq_trans (f_equal c_state E1) S)|done| |exact (eq_trans (f_equal c_hb E1) Hb)].
    change (w ∈ [STATE_NULL; STATE_STANDBY_REPLAY; STATE_ONESHOT_REPLAY]).
    destruct Sw as [? |[-> |[-> _]]]; [done|right; left|do 2 right; left].
Qed.

Lemma init_proto wanted m0 np rn cs0 : startable wanted ->
  ends_well (init wanted : D unit) (mds_new m0 np rn cs0).
Proof.
  intros Sw. unfold Daemon.init. apply ends_gets.
  rewrite (bool_decide_eq_false_2 (want_state (mds_new m0 np rn cs0) = STATE_DNE)) by done.
  apply ends_quiet_l; [quiet|]. intros _ s E.
  apply init_wants; [|exact (f_equal c_state E)|exact (f_equal c_type E)|exact (f_equal c_hb E)].
  destruct (_ && _); [right; by left|done].
Qed.

Inductive dreach : mds * list kont -> Prop :=
| dr_init wanted m0 np rn cs0 s t : startable wanted -> init wanted (mds_new m0 np rn cs0) = Ret tt s t -> dreach (s, boots t)
| dr_step x y : dreach x -> dstep x y -> dreach y.

Lemma reach_proto x : mds_kill_create_at conf <> 1 -> dreach x -> proto (core_of x.1) x.2.
Proof.
  intros K R. induction R as [wanted m0 np rn cs0 s t Sw E|[s pend] y R IH St].
  - pose proof (init_proto wanted m0 np rn cs0 Sw) as P. unfold ends_well, wp in P. by rewrite E in P.
  - inversion St as [op ? ? s' t N Ma E]; subst. pose proof (op_keeps op pend s K IH N Ma) as P.
    unfold wp in P. by rewrite E in P.
Qed.


(** ** A takeover ends *)

(** callbacks still to come before the daemon asks for its next state; while the last pass was
    made as a standby there is one more pass *)
Definition weight (k : kont) (standby : bool) : nat :=
  ((if standby then 4 else 0) +
   match k with
   | C_MDS_BootStart MDS_BOOT_INITIAL => 4
   | C_MDS_BootStart MDS_BOOT_OPEN_ROOT | C_MDS_StandbyReplayRestart => 3
   | C_MDS_BootStart MDS_BOOT_PREPARE_LOG | C_MDS_StandbyReplayRestartFinish _ => 2
   | C_MDS_BootStart MDS_BOOT_REPLAY_DONE => 1
   | _ => 0
   end)%nat.

(** the journal was found in an old format at the [n]th question *)
Definition old_format (n : nat) : Prop := w_num NStreamFormat n < mds_journal_format conf.

(** the next state is asked for, or given up, or one callback of less weight than [w] is left, or the
    journal, in an old format at a question not before the [n0]th, is rewritten *)
Definition nearer (w n0 : nat) s (ks : list kont) : Prop :=
  state s = STATE_REPLAY /\
  (ks = [] /\ want_state s ∈ [STATE_RESOLVE; STATE_RECONNECT; STATE_DNE] \/
   (exists k, ks = [k] /\ want_state s = STATE_REPLAY /\ (weight k (standby_replaying s) < w)%nat) \/
   (ks = [C_MDS_BootStart MDS_BOOT_REPLAY_DONE] /\ want_state s = STATE_REPLAY /\ standby_replaying s = false /\ (1 <= w)%nat /\
    exists n, (n0 <= n < reads s)%nat /\ old_format n)).

Definition advances (w n0 : nat) (m : D unit) s : Prop := wp m s (fun _ s' t => nearer w n0 s' (boots t)).

Lemma advances_quiet_l {X} w n0 (m : D X) (f : X -> D unit) s :
  quiet m -> (forall x s', core_of s' = core_of s -> advances w n0 (f x) s') -> advances w n0 (m ≫= f) s.
Proof. intros q k. by apply (wp_quiet_l m f s (nearer w n0)). Qed.
Lemma advances_gets {X} w n0 (g : mds -> X) (f : X -> D unit) s : advances w n0 (f (g s)) s -> advances w n0 (gets g ≫= f) s.
Proof. apply wp_gets. Qed.

Lemma advances_later w n0 k s : boot_kont k = true -> state s = STATE_REPLAY -> want_state s = STATE_REPLAY -> (weight k (standby_replaying s) < w)%nat ->
  advances w n0 (tell (Later k)) s.
Proof.
  intros B S Wa W. unfold advances, wp, tell. split; [done|]. right. left. exists k. unfold boots. simpl. by rewrite B.
Qed.

Lemma advances_moves w n0 (m : D unit) s x g : moves m s g [] -> c_state (g (core_of s)) = STATE_REPLAY ->
  c_want (g (core_of s)) = x -> x ∈ [STATE_RESOLVE; STATE_RECONNECT; STATE_DNE] -> advances w n0 m s.
Proof.
  intros q S W X. eapply wp_moves; [apply q|]. intros _ s' t E B.
  split; [exact (eq_trans (f_equal c_state E) S)|]. left. split; [done|].
  by rewrite (eq_trans (f_equal c_want E) W : want_state s' = x).
Qed.

Ltac skim := repeat first
  [ simple apply advances_gets | simple apply advances_quiet_l; [solve [quiet] | let E := fresh "E" in intros ? ? E] ].

Ltac chase := repeat match goal with
  | E : core_of ?a = core_of ?b |- context [state ?a] => rewrite (f_equal c_state E : state a = state b)
  | E : core_of ?a = core_of ?b |- context [want_state ?a] => rewrite (f_equal c_want E : want_state a = want_state b)
  | E : core_of ?a = core_of ?b |- context [standby_replaying ?a] =>
      rewrite (f_equal c_replaying E : standby_replaying a = standby_replaying b)
  end.

Lemma restart_advances w n0 s : state s = STATE_REPLAY -> want_state s = STATE_REPLAY -> (weight (C_MDS_StandbyReplayRestartFinish 0) (standby_replaying s) < w)%nat ->
  advances w n0 (standby_replay_restart : D unit) s.
Proof.
  intros S Wa W.
  assert (forall s', core_of s' = core_of s -> advances w n0 (reread_head : D unit) s') as Rr.
  { intros s' E. unfold reread_head. skim. apply advances_later; chase; done. }
  unfold standby_replay_restart. apply wp_gets. destruct (standby_replaying s) eqn:Sb; [by apply Rr|].
  apply (wp_wait _ reread_head s (nearer w n0)); [done| |exact Rr].
  intros s' E. unfold nearer. chase. split; [done|]. right. left. eexists. split; [done|]. split; [done|]. rewrite Sb. exact W.
Qed.

(** what [reopen] rewrites is in the current format: the journal is found in an old one at most once *)
Context (format_once : forall n m, (n < m)%nat -> w_num NStreamFormat n < mds_journal_format conf -> mds_journal_format conf <= w_num NStreamFormat m).

Lemma asks_advances w n0 x s : state s = STATE_REPLAY -> x = STATE_RESOLVE \/ x = STATE_RECONNECT ->
  advances w n0 (request_state bconf x : D unit) s.
Proof.
  intros S X. eapply advances_moves; [apply moves_request_state|exact S|done|].
  destruct X as [-> | ->]; [left|right; left].
Qed.

Lemma replay_done_advances w s : state s = STATE_REPLAY -> want_state s = STATE_REPLAY ->
  (weight (C_MDS_BootStart MDS_BOOT_REPLAY_DONE) (standby_replaying s) <= w)%nat ->
  advances w (reads s) (replay_done bconf conf : D unit) s.
Proof.
  intros S Wa W. unfold replay_done. do 3 apply advances_gets. unfold in_state. rewrite S.
  cbn [bool_decide decide decide_rel daemon_state_eqdec]. destruct (standby_replaying s) eqn:Sb.
  - apply wp_modify. apply restart_advances; [done|done|]. cbn in W |- *. lia.
  - apply wp_bind. unfold wp at 1, ask. rewrite at_end. cbv beta.
    set (s1 := set_reads _ s). assert (core_of s1 = core_of s) as E1 by done. assert (reads s1 = (reads s + 1)%nat) as N1 by (cbn; lia). clearbody s1.
    apply (wp_mono _ s1 (fun _ s' t => nearer w (reads s) s' (boots t))); [|done].
    do 2 (apply wp_bind; unfold wp at 1, must; cbv beta iota; cbn [negb]; apply (wp_mono _ s1 (fun _ s' t => nearer w (reads s) s' (boots t))); [|done]).
    apply wp_bind. unfold wp at 1, ask_num. destruct (Z.ltb_spec (w_num NStreamFormat (reads s1)) (mds_journal_format conf)) as [Ho|Ho].
    + cbv beta. apply (wp_mono _ _ (fun _ s' t => nearer w (reads s) s' (boots t))); [|done]. apply wp_bind. unfold wp at 1, tell.
      unfold wp, tell. cbv beta iota. split; [change (state s1 = STATE_REPLAY); chase; done|]. right. right. split; [done|].
      change (want_state s1 = STATE_REPLAY /\ standby_replaying s1 = false /\ (1 <= w)%nat /\ exists n, (reads s <= n < Datatypes.S (reads s1))%nat /\ old_format n).
      chase. split_and!; [done|done|cbn in W; lia|]. exists (reads s1). split; [lia|done].
    + set (s2 := set_reads _ s1). assert (core_of s2 = core_of s) as E2 by done.
      clearbody s2. apply (wp_mono _ s2 (fun _ s' t => nearer w (reads s) s' (boots t))); [|done].
      skim. destruct (_ && _); (apply asks_advances; [chase; done|auto]).
Qed.

Lemma boot_run_advances step n0 s : state s = STATE_REPLAY -> want_state s = STATE_REPLAY ->
  (step = MDS_BOOT_REPLAY_DONE -> n0 = reads s) ->
  advances (weight (C_MDS_BootStart step) (standby_replaying s)) n0 (boot_run bconf conf step : D unit) s.
Proof.
  intros S Wa Hn. unfold boot_run. do 4 apply advances_gets.
  assert (is_any_replay s = true) as -> by (unfold is_any_replay, in_state; by rewrite S).
  destruct step; [skim; apply advances_later; chase; [done|done|done|destruct (standby_replaying s); cbn; lia]..|].
  rewrite Hn by done. apply wp_bind. unfold wp at 1, must. by apply replay_done_advances.
Qed.

(** a callback that failed gives up *)
Lemma suicide_advances w n0 s : state s = STATE_REPLAY -> advances w n0 (suicide : D unit) s.
Proof. intros S. eapply advances_moves; [apply moves_suicide|exact S|done|do 2 right; left]. Qed.

Lemma boot_start_advances step n0 r s : state s = STATE_REPLAY -> want_state s = STATE_REPLAY ->
  (step = MDS_BOOT_REPLAY_DONE -> n0 = reads s) ->
  advances (weight (C_MDS_BootStart step) (standby_replaying s)) n0 (boot_start bconf conf step r : D unit) s.
Proof.
  intros S Wa Hn. unfold boot_start. apply advances_gets.
  assert (in_state STATE_STANDBY_REPLAY s = false) as -> by (unfold in_state; by rewrite S). cbn [andb].
  destruct (r <? 0).
  - apply wp_bind, wp_bind. eapply wp_mono; [apply (suicide_advances (weight (C_MDS_BootStart step) (standby_replaying s)) n0 s S)|].
    intros [] s' t Hs'. unfold wp at 1, mret, D_ret, when, skip. unfold wp, mret, D_ret. by rewrite !app_nil_r.
  - apply wp_bind. unfold wp at 1, mret, D_ret.
    apply wp_gets. assert (in_state STATE_STARTING s || is_any_replay s = true) as -> by (unfold is_any_replay, in_state; by rewrite S).
    apply wp_bind. unfold wp at 1, must. by apply boot_run_advances.
Qed.

Lemma run_kont_advances k r s : state s = STATE_REPLAY -> want_state s = STATE_REPLAY -> fits STATE_REPLAY k = true ->
  (k = C_MDS_StandbyReplayRestart -> r = 0) ->
  advances (weight k (standby_replaying s)) (reads s) (run_kont bconf conf k r : D unit) s.
Proof.
  intros S Wa F Hr. destruct k as [|step|pos| |]; try done; simpl.
  - by apply boot_start_advances.
  - unfold _standby_replay_restart_finish. skim. destruct (pos <? x).
    + eapply advances_moves; [apply moves_respawn|chase; exact (eq_trans (f_equal c_state E) S)|done|do 2 right; left].
    + skim. rewrite <- (f_equal c_replaying (eq_trans E0 E) : standby_replaying _ = standby_replaying s).
      apply boot_start_advances; by chase.
  - rewrite Hr by done. cbn [Z.eqb]. skim. apply restart_advances; chase; [done|done|]. destruct (standby_replaying s); cbn; lia.
Qed.

(** *** Questions are counted *)

Definition grows {X} (m : D X) : Prop := forall s, match m s with Ret _ s' _ => (reads s <= reads s')%nat | _ => True end.

Lemma grows_bind {X Y} (m : D X) (f : X -> D Y) : grows m -> (forall x, grows (f x)) -> grows (m ≫= f).
Proof.
  intros q k s. specialize (q s). unfold mbind, D_bind. destruct (m s) as [x s' t| |]; [|done..].
  specialize (k x s'). destruct (f x s'); simpl; [lia|done..].
Qed.
Lemma grows_each {X} (f : X -> D unit) l : (forall x, grows (f x)) -> grows (each f l).
Proof. intros q. induction l as [|x l IH]; simpl; [intros s; cbn; lia|]. apply grows_bind; auto. Qed.
Lemma grows_must b : grows (must b).
Proof. destruct b; intros s; cbn; [lia|done]. Qed.

Ltac grows := repeat first
  [ simple apply grows_must | simple apply grows_bind; [|intros ?] | simple apply grows_each; intros ?
  | match goal with
    | |- grows (when ?b _) => destruct b; cbn [when]
    | |- grows (match ?x with _ => _ end) => destruct x
    | |- grows (let '_ := ?x in _) => destruct x
    end
  | solve [intros ?; cbn; lia] | progress cbv beta ].

Lemma grows_request x : grows (request_state bconf x : D unit).
Proof. unfold request_state, set_want_state, beacon_send, with_beacon. grows. Qed.
Lemma grows_suicide : grows (suicide : D unit).
Proof. unfold suicide, set_want_state, with_beacon. grows. Qed.
Lemma grows_respawn : grows (respawn : D unit).
Proof. unfold respawn. apply grows_bind; [intros ?; cbn; lia|]. intros []; [done|apply grows_suicide]. Qed.
Lemma grows_restart : grows (standby_replay_restart : D unit).
Proof. unfold standby_replay_restart, wait_for_map, reread_head. grows. Qed.
Lemma grows_replay_done : grows (replay_done bconf conf : D unit).
Proof.
  unfold replay_done.
  repeat first [ simple apply grows_suicide | simple apply grows_restart | simple apply grows_request | progress grows ].
Qed.
Lemma grows_boot_start step r : grows (boot_start bconf conf step r : D unit).
Proof.
  unfold boot_start, boot_run, starting_done.
  repeat first [ simple apply grows_suicide | simple apply grows_respawn | simple apply grows_replay_done | simple apply grows_request | progress grows ].
Qed.
Lemma grows_kont k r : fits STATE_REPLAY k = true -> grows (run_kont bconf conf k r : D unit).
Proof.
  intros F. destruct k as [|step|pos| |]; try done; simpl; [apply grows_boot_start| |].
  - unfold _standby_replay_restart_finish.
    repeat first [ simple apply grows_respawn | simple apply grows_boot_start | progress grows ].
  - apply grows_bind; [apply grows_must|]. intros _. apply grows_restart.
Qed.

Lemma pending_fits k s : proto (core_of s) [k] -> state s = STATE_REPLAY -> want_state s = STATE_REPLAY -> fits STATE_REPLAY k = true.
Proof.
  intros P S Wa. assert (want_state s <> STATE_DNE) as N by congruence.
  destruct P as [_ [?|L]]; [done|]. destruct (lv_pend _ _ L) as [?|(k' & [= <-] & F & _)]; [done|].
  change (c_state (core_of s)) with (state s) in F. by rewrite S in F.
Qed.

(** The result of a callback: that of a timer is 0, others may fail. *)
Definition result (k : kont) (r : Z) : Z := match k with C_MDS_StandbyReplayRestart => 0 | _ => r end.

(** The callbacks of a boot, each run as soon as it is left, the one run with [n] to spare with the
    result [r n]; [None] when there are more than [fuel]. *)
Fixpoint run_boot (r : nat -> Z) (fuel : nat) (k : kont) s : option (out unit) :=
  match fuel with
  | O => None
  | S fuel =>
      match run_kont bconf conf k (result k (r fuel)) s with
      | Ret _ s' t =>
          match boots t with
          | k' :: _ => after t <$> run_boot r fuel k' s'
          | [] => Some (Ret tt s' t)
          end
      | o => Some o
      end
  end.

(** [again]: the journal may still be found in an old format *)
Lemma run_boot_ends r (again : bool) fuel k s : proto (core_of s) [k] -> state s = STATE_REPLAY -> want_state s = STATE_REPLAY ->
  (again = false -> forall n, (reads s <= n)%nat -> ~ old_format n) ->
  (weight k (standby_replaying s) + (if again then 1 else 0) <= fuel)%nat ->
  exists o, run_boot r fuel k s = Some o /\
    match o with
    | Ret _ s' _ => want_state s' ∈ [STATE_RESOLVE; STATE_RECONNECT; STATE_DNE]
    | Died _ => False
    | Execed _ => True
    end.
Proof.
  revert again k s. induction fuel as [|fuel IH]; intros again k s P S Wa Hold W.
  { exfalso. pose proof (pending_fits k s P S Wa) as F. destruct k as [|[]| | |]; try done; destruct (standby_replaying s); cbn in W; lia. }
  simpl. assert (want_state s <> STATE_DNE) as N by congruence. pose proof (pending_fits k s P S Wa) as F.
  assert (k = C_MDS_StandbyReplayRestart -> result k (r fuel) = 0) as Hr by (by intros ->).
  pose proof (run_kont_advances k (result k (r fuel)) s S Wa F Hr) as Ad. unfold advances, wp in Ad.
  assert (boot_kont k = true) as Bk by (by destruct k).
  pose proof (run_kont_ends k (result k (r fuel)) s P N Bk Hr) as En. unfold ends_well, wp in En.
  pose proof (grows_kont k (result k (r fuel)) F s) as Gr.
  destruct (run_kont bconf conf k (result k (r fuel)) s) as [[] s' t|t|t]; [|done|by eexists].
  destruct Ad as [S' [[Bt Wt]|[(k' & Bt & Wa' & Wk)|(Bt & Wa' & Sb & Hw & n & Hn & On)]]]; rewrite Bt in En |- *; [by eexists| |].
  - destruct (IH again k' s') as (o & -> & Ho); [done|done|done| |lia|].
    + intros Ha m Hm. apply Hold; [done|lia].
    + simpl. eexists. split; [done|]. by destruct o.
  - destruct again; [|exfalso; apply (Hold eq_refl n); [lia|done]].
    destruct (IH false (C_MDS_BootStart MDS_BOOT_REPLAY_DONE) s') as (o & -> & Ho); [done|done|done| |rewrite Sb; cbn; lia|].
    + intros _ m Hm Om. pose proof (format_once n m ltac:(lia) On). unfold old_format in Om. lia.
    + simpl. eexists. split; [done|]. by destruct o.
Qed.

(** C23: a takeover ends.  From any point of the boot of a daemon that the monitor has told to
    replay, whether it starts afresh or was following the journal as a standby, at most nine
    callbacks are run, with no assert failing, until the daemon asks to go on to resolve or
    reconnect, or has fallen behind the journal or had a callback fail and gives up.  Callbacks may
    succeed or fail, but for the timer of a standby, and the journal may have to be rewritten in the
    current format; what is relied on is that a replay reads the journal to its end (the code
    asserts it), that a journal found in an old format once is not found so again, and that the
    test option [mds_kill_create_at] is not 1. *)
Theorem takeover_terminates r k s : mds_kill_create_at conf <> 1 -> dreach (s, [k]) ->
  state s = STATE_REPLAY -> want_state s = STATE_REPLAY ->
  exists o, run_boot r 9 k s = Some o /\
    match o with
    | Ret _ s' _ => want_state s' ∈ [STATE_RESOLVE; STATE_RECONNECT; STATE_DNE]
    | Died _ => False
    | Execed _ => True
    end.
Proof.
  intros K R S W. apply (run_boot_ends r true); [exact (reach_proto _ K R)|done|done|done|].
  destruct (standby_replaying s), k as [|[]| | |]; cbn; lia.
Qed.

(** ** Where the code does not do what it means to *)

Lemma replay_tests s : state s = STATE_REPLAY ->
  in_state STATE_STARTING s = false /\ is_any_replay s = true /\ in_state STATE_ONESHOT_REPLAY s = false /\
  in_state STATE_STANDBY_REPLAY s = false.
Proof. intros S. unfold is_any_replay, in_state. by rewrite S. Qed.

(** The last pass of a takeover may not see the end of the journal.  When a daemon that
    followed the journal as a standby takes over, it makes a final pass after the OSD map has
    fenced its predecessor.  If it has to wait for that map, the callback it leaves goes
    straight to the replay: nothing re-reads the head of the journal, as the other branch does,
    so what the predecessor wrote since the last probe is not replayed. *)
Theorem takeover_skips_reread s :
  state s = STATE_REPLAY -> standby_replaying s = true ->
  w_yes (QOsdmapReady (get_last_failure_osd_epoch (mdsmap s))) (reads s) = false ->
  exists s1, run_kont bconf conf (C_MDS_BootStart MDS_BOOT_REPLAY_DONE) 0 s =
      Ret tt s1 [Later (C_MDS_BootStart MDS_BOOT_PREPARE_LOG)] /\
    forall s2, state s2 = STATE_REPLAY ->
      run_kont bconf conf (C_MDS_BootStart MDS_BOOT_PREPARE_LOG) 0 s2 =
        Ret tt s2 [Log LogReplay; Later (C_MDS_BootStart MDS_BOOT_REPLAY_DONE)].
Proof.
  intros S Sb Q. eexists. split.
  - cbn [run_kont]. unfold boot_start, boot_run, replay_done, standby_replay_restart, wait_for_map. autorewrite with run.
    cbn [Z.ltb Z.compare]. destruct (replay_tests s S) as (T1 & T2 & T3 & T4).
    do 5 (autorewrite with run; rewrite ?T1, ?T2, ?T3, ?T4, ?Sb; cbn [orb when]). autorewrite with run.
    cbn [set_standby_replaying standby_replaying].
    unfold mbind, D_bind, ask, gets, tell, mret, D_ret, after, when, skip. cbv beta iota.
    change (mdsmap (set_standby_replaying false s)) with (mdsmap s).
    change (reads (set_standby_replaying false s)) with (reads s). rewrite Q. reflexivity.
  - intros s2 S2. cbn [run_kont]. unfold boot_start, boot_run. autorewrite with run.
    cbn [Z.ltb Z.compare]. destruct (replay_tests s2 S2) as (T1 & T2 & T3 & T4).
    do 3 (autorewrite with run; rewrite ?T1, ?T2, ?T3, ?T4; cbn [orb when]). reflexivity.
Qed.

Lemma wp_standby_null s (Q : bool -> mds -> list ev -> Prop) : state_val STATE_NULL <> 0 -> state s = STATE_STANDBY ->
  (forall s' t, state s' = STATE_STANDBY -> want_state s' = STATE_NULL -> Q false s' t) ->
  wp (set_want_state STATE_STANDBY ;; when (negb (state_val STATE_NULL =? 0)) (request_state bconf STATE_NULL) ;;
      mret false : D bool) s Q.
Proof.
  intros Nz S K. apply wp_bind. apply (wp_moves _ _ _ _ _ (moves_set_want_state _ s)). intros _ s4 t4 E4 _.
  apply Z.eqb_neq in Nz. rewrite Nz. apply wp_bind. apply (wp_moves _ _ _ _ _ (moves_request_state _ s4)).
  intros _ s5 t5 E5 _. apply K; [|exact (f_equal c_want E5)].
  etrans; [exact (f_equal c_state E5)|]. etrans; [exact (f_equal c_state E4)|exact S].
Qed.

Lemma notifies s (P : mds -> Prop) : (forall s', core_of s' = core_of s -> P s') ->
  wp (beacon_notify_mdsmap compat_default compat_merge : D unit) s (fun _ s' _ => P s').
Proof.
  intros K. unfold beacon_notify_mdsmap. apply wp_gets. apply wp_quiet; [by apply quiet_with_beacon|].
  intros _ s' t E _. by apply K.
Qed.

(** A plain standby asks the monitor for no state.  The test of [handle_mds_map] for a
    daemon that is to follow the journal is that [standby_type] is not zero; where
    [STATE_NULL], its initial value, is not zero, every standby that was not started for a
    replay asks for [STATE_NULL]. *)
Theorem standby_asks_for_null src epoch m s :
  get_epoch (mdsmap s) < epoch -> compat_writeable (get_compat m) = true ->
  get_state_gid m gid = STATE_STANDBY -> standby_type s = STATE_NULL -> state_val STATE_NULL <> 0 ->
  wp (handle_mds_map compat_default compat_merge bconf conf gid name src epoch m : D unit) s
    (fun _ s' _ => state s' = STATE_STANDBY /\ want_state s' = STATE_NULL).
Proof.
  intros Ep Cw S Ty Nz. unfold handle_mds_map. apply wp_bind. apply (wp_quiet (note_peer_epoch _ _)); [quiet|].
  intros _ s1 t1 E1 _. apply wp_gets. rewrite (f_equal c_map E1 : mdsmap s1 = mdsmap s).
  apply wp_when; [intros _|by rewrite (proj2 (Z.ltb_lt _ _) Ep)]. do 2 apply wp_gets. apply wp_modify.
  apply wp_bind. unfold wp at 1, tell. rewrite Cw. cbn [negb]. apply wp_bind, wp_bind. unfold identify. apply wp_gets.
  do 3 apply wp_modify. apply wp_bind. apply (wp_quiet (each _ _)); [quiet|]. intros _ s2 t2 E2 _. apply wp_gets.
  assert (state s2 = STATE_STANDBY) as S2 by (etrans; [exact (f_equal c_state E2)|exact S]). rewrite S2.
  assert (standby_type s2 = STATE_NULL) as Ty2
    by (etrans; [exact (f_equal c_type E2)|]; etrans; [exact (f_equal c_type E1)|exact Ty]).
  apply wp_bind, wp_when; intros _; apply wp_gets; cbn [standby_type set_last_state]; rewrite Ty2;
    (apply wp_standby_null; [done|done|]); intros s4 t4 S4 W4;
    apply (notifies s4 (fun s' => state s' = STATE_STANDBY /\ want_state s' = STATE_NULL)); intros s5 E5;
    (split; [exact (eq_trans (f_equal c_state E5) S4)|exact (eq_trans (f_equal c_want E5) W4)]).
Qed.


(** ** Waiters for a map *)

Lemma kick_map_waiters_run epoch l s : StronglySorted bind_le l -> NoDup l.*1 ->
  (forall p, p ∈ l -> waiting_for_mdsmap s !! p.1 = Some p.2) ->
  exists s', (kick_map_waiters epoch l : D unit) s =
      Ret tt s' (map FinishContexts (filter (fun p : Z * list C => p.1 <= epoch) l).*2) /\
    waiting_for_mdsmap s' = filter (fun p : Z * list C => ~ (p.1 <= epoch /\ p.1 ∈ l.*1)) (waiting_for_mdsmap s).
Proof.
  intros So Nd. revert s. induction l as [|[e ls] l IH]; intros s W.
  { exists s. split; [done|]. symmetry. apply map_filter_id. intros i x _ [_ Hi]. by apply not_elem_of_nil in Hi. }
  apply StronglySorted_inv in So as [So Hd]. apply NoDup_cons in Nd as [Ni Nd]. simpl.
  destruct (Z.leb_spec e epoch) as [Le|Gt]; cbn [when].
  - autorewrite with run. set (s1 := set_for_map _ s).
    destruct (IH So Nd s1) as (s' & E & F).
    { intros p Hp. change (waiting_for_mdsmap s1) with (delete e (waiting_for_mdsmap s)).
      rewrite lookup_delete_ne; [apply W; by right|]. intros Ee. apply Ni. simpl. rewrite Ee.
      by apply (list_elem_of_fmap_2 fst). }
    exists s'. rewrite E, filter_cons_True by done. split; [done|]. rewrite F.
    change (waiting_for_mdsmap s1) with (delete e (waiting_for_mdsmap s)).
    apply map_eq. intros i. apply option_eq. intros x. rewrite !map_lookup_filter_Some, lookup_delete_Some, elem_of_cons. simpl.
    destruct (decide (i = e)) as [-> |Ne]; [split; [naive_solver|intros [_ Hx]; exfalso; tauto]|]. naive_solver.
  - exists s. assert (forall p, p ∈ (e, ls) :: l -> epoch < p.1) as Gts.
    { intros p [-> |Hp]%elem_of_cons; [done|]. pose proof (Forall_elem _ _ _ Hd Hp) as B. unfold bind_le, k_leb, Z_order in B. simpl in B. lia. }
    rewrite filter_none by (intros p Hp; specialize (Gts p Hp); lia). split; [done|]. symmetry. apply map_filter_id.
    intros i x _ [Hi Hin]. change (i ∈ ((e, ls) :: l).*1) in Hin. apply list_elem_of_fmap in Hin as (p & -> & Hp). specialize (Gts p Hp). simpl in *. lia.
Qed.

(** Contexts that wait for a map are finished with it.  The end of [handle_mds_map] finishes
    exactly the contexts that wait for an epoch the daemon now has, those of older epochs first,
    and keeps exactly the others. *)
Theorem map_waiters_released s :
  let epoch := get_epoch (mdsmap s) in
  let w := waiting_for_mdsmap s in
  exists s', (map_waiters : D unit) s =
      Ret tt s' (map FinishContexts (filter (fun p : Z * list C => p.1 <= epoch) (ordered w)).*2) /\
    waiting_for_mdsmap s' = filter (fun p : Z * list C => epoch < p.1) w.
Proof.
  intros epoch w. unfold map_waiters. autorewrite with run.
  destruct (kick_map_waiters_run epoch (ordered w) s) as (s' & E & F).
  - apply ordered_sorted.
  - apply ordered_nodup.
  - intros [e ls] Hp. by apply elem_of_ordered in Hp.
  - exists s'. split; [exact E|]. rewrite F. apply map_filter_ext. intros e ls L. simpl.
    rewrite elem_of_ordered_keys. split; [intros N; apply Z.nle_gt; intros ?; apply N; eauto|lia].
Qed.

End Core.

(** ** An example *)

Definition states_ex : DaemonStates := {| state_val := fun s =>
  match s with
  | STATE_NULL => -10 | STATE_DNE => 0 | STATE_STOPPED => -1 | STATE_BOOT => -4 | STATE_STANDBY => -5
  | STATE_CREATING => -6 | STATE_STARTING => -7 | STATE_STANDBY_REPLAY => -8 | STATE_ONESHOT_REPLAY => -9
  | STATE_REPLAY => 8 | STATE_RESOLVE => 9 | STATE_RECONNECT => 10 | STATE_REJOIN => 11
  | STATE_CLIENTREPLAY => 12 | STATE_ACTIVE => 13 | STATE_STOPPING => 14
  end; EBLACKLISTED := 108 |}.

(** a cluster of one daemon, with the gid 4000; [mx_rank] and [mx_state] are its own *)
Record map_ex := mk_map_ex { mx_epoch : Z; mx_rank : Z; mx_state : daemon_state }.
Definition map_ops_ex : MDSMapOps map_ex unit Z Z := {|
  get_epoch := mx_epoch; get_compat := fun _ => tt; compat_writeable := fun _ => true;
  get_rank_gid := fun m _ => mx_rank m; get_state_gid := fun m _ => mx_state m; get_inc_gid := fun m _ => mx_epoch m;
  get_mds_info := fun m => {[ 4000 := 17 ]}; info_standby_for_rank := fun _ _ => 0;
  find_mds_gid_by_name := fun _ _ => 0; is_resolving := fun _ => false; is_rejoining := fun _ => false;
  get_mds_set := fun m st => if bool_decide (mx_state m = st) then {[ mx_rank m ]} else ∅;
  get_recovery_mds_set := fun _ => ∅; get_failed_mds_set := fun _ => ∅; get_stopped_mds_set := fun _ => ∅;
  get_up_mds_set := fun m => {[ mx_rank m ]}; get_serving_mds_set := fun m => {[ mx_rank m ]};
  have_inst := fun m r => (0 <=? r) && (mx_rank m =? r); get_inst := fun m r => if mx_rank m =? r then Ok 17 else Abort;
  inst_addr := id; inst_eqdec := _; is_up := fun m r => mx_rank m =? r; is_down := fun m r => negb (mx_rank m =? r);
  get_root := fun _ => 0; get_tableserver := fun _ => 0; get_num_in_mds := fun _ => 1; get_num_failed_mds := fun _ => 0;
  get_last_failure_osd_epoch := fun _ => 5
|}.
(** everything is well, the OSD map is there, the process cannot be replaced *)
Definition world_ex : World Z := {|
  w_now := Z.of_nat;
  w_yes := fun q _ => match q with QExec | QSessionsEmpty => false | _ => true end;
  w_num := fun q _ => match q with NStreamFormat => 1 | _ => 0 end;
  w_view := fun _ => mk_view 0 [] []
|}.
Definition dconf_ex : mds_conf := mk_mds_conf 0 1 false false 0 false false false 2 true (-1) EmptyString.

#[local] Existing Instance states_ex.
#[local] Existing Instance map_ops_ex.
#[local] Existing Instance world_ex.

Abbreviation mds_ex := (mds Z unit Z map_ex Z).
Abbreviation dreach_ex := (dreach (C := Z) (G := Z) conf_ex dconf_ex tt (fun _ _ => tt) 4000 EmptyString (-1) (-2) (-3)).
Abbreviation run_ex := (run_dop (C := Z) (G := Z) conf_ex dconf_ex tt (fun _ _ => tt) 4000 EmptyString).

Definition ret_of (o : Daemon.out (T := Z) (CS := unit) (C := Z) (M := map_ex) (A := Z) (G := Z) unit) (s : mds_ex)
  : mds_ex * list kont :=
  match o with Ret _ s' t => (s', boots t) | _ => (s, []) end.

(** started as a standby that follows the journal, confirmed, then told to take over *)
Definition boot_ex : mds_ex :=
  (ret_of (Daemon.init tt (fun _ _ => tt) conf_ex dconf_ex (-1) (-2) (-3) STATE_BOOT (mds_new (mk_map_ex 0 (-1) STATE_NULL) 0 (-1) tt))
     (mds_new (mk_map_ex 0 (-1) STATE_NULL) 0 (-1) tt)).1.
Definition follow_ex : mds_ex := (ret_of (run_ex (OMap None 2 (mk_map_ex 2 (-1) STATE_STANDBY_REPLAY)) boot_ex) boot_ex).1.
Definition takeover_ex : mds_ex := (ret_of (run_ex (OMap None 3 (mk_map_ex 3 0 STATE_REPLAY)) follow_ex) follow_ex).1.

Lemma run_is_ret (o : Daemon.out (T := Z) (CS := unit) (C := Z) (M := map_ex) (A := Z) (G := Z) unit) s :
  match o with Ret _ _ _ => True | _ => False end ->
  exists t, o = Ret tt (ret_of o s).1 t /\ boots t = (ret_of o s).2.
Proof. destruct o as [[] s' t| |]; [|done..]. intros _. by exists t. Qed.

Lemma follows_map_ex c (m : map_ex) :
  grants (c_state c) (c_want c) (mx_state m) = true ->
  (mx_rank m < 0 -> mx_state m ∈ [STATE_NULL; STATE_STANDBY; STATE_STANDBY_REPLAY; STATE_ONESHOT_REPLAY]) ->
  (mx_state m = STATE_NULL -> mx_rank m < 0) -> mx_rank (c_map c) < 0 -> follows 4000 c m.
Proof.
  intros Gr Ra Nu Old. split; [exact Gr|exact Ra|exact Nu| |].
  - intros p Hp. exfalso. exact (not_elem_of_empty p Hp).
  - intros p _ Ho. exfalso. apply andb_true_iff in Ho as [Ho He]. apply Z.leb_le in Ho. apply Z.eqb_eq in He. lia.
Qed.

(** a step of the example to the state and the callbacks it computes *)
Lemma map_step_ex epoch m (s : mds_ex) pend ks : dreach_ex (s, pend) ->
  match run_ex (OMap None epoch m) s with Ret _ _ _ => True | _ => False end ->
  (ret_of (run_ex (OMap None epoch m) s) s).2 = ks -> want_state s <> STATE_DNE -> follows 4000 (core_of s) m ->
  dreach_ex ((ret_of (run_ex (OMap None epoch m) s) s).1, pend ++ ks).
Proof.
  intros R Ok <- N F. destruct (run_is_ret _ s Ok) as (t & E & <-).
  eapply dr_step; [exact R|].
  exact (ds_op conf_ex dconf_ex tt (fun _ _ => tt) 4000 EmptyString (OMap None epoch m) s pend _ t N (fun _ => F) E).
Qed.

Lemma boot_reach : dreach_ex (boot_ex, []).
Proof.
  edestruct (run_is_ret (Daemon.init tt (fun _ _ => tt) conf_ex dconf_ex (-1) (-2) (-3) STATE_BOOT
    (mds_new (mk_map_ex 0 (-1) STATE_NULL) 0 (-1) tt))) as (t & E & B); [vm_compute; exact I|].
  assert (boots t = []) as <- by (rewrite B; vm_compute; reflexivity).
  eapply dr_init; [by left|exact E].
Qed.

Lemma follow_reach : dreach_ex (follow_ex, [C_MDS_BootStart MDS_BOOT_OPEN_ROOT]).
Proof.
  apply (map_step_ex 2 (mk_map_ex 2 (-1) STATE_STANDBY_REPLAY) boot_ex []); [exact boot_reach|vm_compute; exact I
    |vm_compute; reflexivity|vm_compute; discriminate|].
  apply follows_map_ex; [vm_compute; reflexivity|set_solver|discriminate|vm_compute; reflexivity].
Qed.

Lemma takeover_reach : dreach_ex (takeover_ex, [C_MDS_BootStart MDS_BOOT_OPEN_ROOT]).
Proof.
  apply (map_step_ex 3 (mk_map_ex 3 0 STATE_REPLAY) follow_ex [C_MDS_BootStart MDS_BOOT_OPEN_ROOT] []);
    [exact follow_reach|vm_compute; exact I|vm_compute; reflexivity|vm_compute; discriminate|].
  apply follows_map_ex; [vm_compute; reflexivity|simpl; lia|discriminate|vm_compute; reflexivity].
Qed.

Lemma at_end_ex : forall n, w_yes (World := world_ex) QJournalAtEnd n = true.
Proof. reflexivity. Qed.
Lemma format_once_ex n m : (n < m)%nat -> w_num (World := world_ex) NStreamFormat n < mds_journal_format dconf_ex ->
  mds_journal_format dconf_ex <= w_num (World := world_ex) NStreamFormat m.
Proof. intros _ _. vm_compute. discriminate. Qed.


Lemma takeover_terminates_witness :
  exists o, run_boot conf_ex dconf_ex (fun _ => 0) 9 (C_MDS_BootStart MDS_BOOT_OPEN_ROOT) takeover_ex = Some o /\
    match o with
    | Ret _ s' _ => want_state s' ∈ [STATE_RESOLVE; STATE_RECONNECT; STATE_DNE]
    | Died _ => False
    | Execed _ => True
    end.
Proof.
  destruct (takeover_terminates conf_ex dconf_ex at_end_ex tt (fun _ _ => tt) 4000 EmptyString (-1) (-2) (-3) format_once_ex
    (fun _ => 0) (C_MDS_BootStart MDS_BOOT_OPEN_ROOT) takeover_ex) as [o Ho];
    [vm_compute; discriminate|exact takeover_reach|vm_compute; reflexivity|vm_compute; reflexivity|by exists o].
Defined.

(** a daemon that was not started to follow a journal *)
Definition plain_ex : mds_ex := mds_new (mk_map_ex 0 (-1) STATE_NULL) 0 (-1) tt.

Lemma standby_asks_for_null_witness :
  wp (run_ex (OMap None 2 (mk_map_ex 2 (-1) STATE_STANDBY))) plain_ex
    (fun _ s' _ => state s' = STATE_STANDBY /\ want_state s' = STATE_NULL).
Proof.
  apply (standby_asks_for_null conf_ex dconf_ex tt (fun _ _ => tt) 4000 EmptyString None 2 (mk_map_ex 2 (-1) STATE_STANDBY) plain_ex);
    [vm_compute; reflexivity..|vm_compute; discriminate].
Defined.

(** a world in which the OSD map has not come yet *)
Definition world_waiting : World Z := {|
  w_now := Z.of_nat;
  w_yes := fun q _ => match q with QExec | QSessionsEmpty | QOsdmapReady _ => false | _ => true end;
  w_num := fun q _ => match q with NStreamFormat => 1 | _ => 0 end;
  w_view := fun _ => mk_view 0 [] []
|}.

Lemma takeover_skips_reread_witness :
  exists s1, run_kont (H3 := world_waiting) conf_ex dconf_ex (C_MDS_BootStart MDS_BOOT_REPLAY_DONE) 0 takeover_ex =
      Ret tt s1 [Later (C_MDS_BootStart MDS_BOOT_PREPARE_LOG)].
Proof.
  destruct (takeover_skips_reread (H3 := world_waiting) conf_ex dconf_ex takeover_ex) as (s1 & E & _);
    [vm_compute; reflexivity|vm_compute; reflexivity|reflexivity|].
  exists s1. exact E.
Defined.
