(* ===== verification/Dispatch.v ===== *)
(** * Dispatch of messages (MDS.cc, MDS.h)

    [ms_dispatch], [_dispatch], the queues of finished contexts and of messages deferred while
    the beacon is laggy, and the thread that advances them.  The components a message is given
    to, and the contexts they queue, are parameters; a retried message comes back to
    [_dispatch].  Theorems: what becomes of every message, and in which order. *)

From stdpp Require Import base tactics numbers list gmap strings sorting.
From Stdlib Require Import ZArith Lia.
From S2P Require Import Prelude Stats Beacon Daemon DaemonProtocol.
Open Scope Z_scope.
Open Scope list_scope.

(** The numbers of the message types, entity types and tables. *)
Class MsgTypes := {
  CEPH_MSG_MON_MAP : Z; CEPH_MSG_MDS_MAP : Z; MSG_MON_COMMAND : Z; MSG_COMMAND : Z; CEPH_MSG_OSD_MAP : Z;
  MDS_PORT_CACHE : Z; MDS_PORT_MIGRATOR : Z;
  CEPH_MSG_CLIENT_SESSION : Z; CEPH_MSG_CLIENT_RECONNECT : Z; CEPH_MSG_CLIENT_REQUEST : Z;
  MSG_MDS_SLAVE_REQUEST : Z; MSG_MDS_HEARTBEAT : Z; MSG_MDS_TABLE_REQUEST : Z; MSG_MDS_LOCK : Z;
  MSG_MDS_INODEFILECAPS : Z; CEPH_MSG_CLIENT_CAPS : Z; CEPH_MSG_CLIENT_CAPRELEASE : Z; CEPH_MSG_CLIENT_LEASE : Z;
  MSG_MDS_CACHEEXPIRE : Z; MSG_MDS_DIRUPDATE : Z; MSG_MDS_EXPORTDIRDISCOVER : Z;
  CEPH_ENTITY_TYPE_MON : Z; CEPH_ENTITY_TYPE_MDS : Z; CEPH_ENTITY_TYPE_OSD : Z; CEPH_ENTITY_TYPE_CLIENT : Z;
  TABLE_ANCHOR : Z; TABLE_SNAP : Z
}.

(** What the daemon reads of a message of type [G]. *)
Class MessageOps (G M I : Type) := {
  m_type : G -> Z;
  m_source_mds : G -> option Z;    (* the rank of the source, when it is an MDS *)
  m_source_client : G -> bool;
  m_source_inst : G -> I;
  m_peer_type : G -> option Z;     (* of its connection, if it has one *)
  m_map : G -> Z * M;              (* MMDSMap: the epoch and the decoded map *)
  m_table : G -> Z;                (* MMDSTableRequest *)
  m_table_op : G -> Z
}.

Inductive component :=
| CompCache | CompMigrator | CompServer | CompBalancer | CompLocker | CompTableClient | CompTableServer
| CompMonCommand | CompCommand.

#[export] Instance component_eqdec : EqDecision component.
Proof. solve_decision. Defined.

(** A context of the finished queue: [C_MDS_RetryMessage], or one of another component. *)
Inductive ctx (G K : Type) := Retry (m : G) | Other (o : K).
Arguments Retry {G K}.
Arguments Other {G K}.

(** a fragment of the directory the thrashing options pick *)
Record thrash_dir := mk_thrash_dir { td_id : Z; td_linked : bool; td_auth : bool; td_bits : Z }.
Record thrash_conf := mk_thrash_conf { mds_thrash_exports : Z; mds_thrash_fragments : Z }.

Class Dice := {
  t_rand : nat -> Z;
  t_pick : nat -> list thrash_dir;      (* of mdcache->hack_pick_random_inode() *)
  t_num_inodes : nat -> Z;
  t_num_fragmenting : nat -> Z
}.

Inductive pev (E G : Type) :=
| Did (e : E)
| Entered (m : G)                       (* a call of _dispatch *)
| Put (m : G)
| Given (c : component) (m : G)
| Retaken (m : G)                       (* a deferred message is handled *)
| HandleOsdMap (m : G) | MaybeRequestMap
| ThrashExport (d dest : Z) | ThrashSplit (d : Z) | ThrashMerge (d : Z).
Arguments Did {E G}.
Arguments Entered {E G}.
Arguments Put {E G}.
Arguments Given {E G}.
Arguments Retaken {E G}.
Arguments HandleOsdMap {E G}.
Arguments MaybeRequestMap {E G}.
Arguments ThrashExport {E G}.
Arguments ThrashSplit {E G}.
Arguments ThrashMerge {E G}.

Section Dispatch.
Context {T CS K M A I G : Type}.
Context `{BeaconTime T} `{DaemonStates} `{MDSMapOps M CS A I} `{World T} `{MsgTypes} `{MessageOps G M I} `{Dice}.
Context (compat_default : CS) (compat_merge : CS -> CS -> CS) (bconf : beacon_conf T) (conf : mds_conf).
Context (gid : Z) (name : string) (tconf : thrash_conf).

Abbreviation ctx := (ctx G K).
Abbreviation mds := (mds T CS ctx M G).
Abbreviation D := (D T CS ctx M A G).
Abbreviation pev := (pev (ev T CS ctx A) G).

(** The components: what they do with a message given to them, and what a context of theirs does. *)
Context (handle : component -> G -> D unit) (complete : K -> D unit).

(** ** The monad: that of the daemon, with the fate of messages in the trace and fuel for loops *)

Inductive pout (X : Type) :=
| PRet (x : X) (s : mds) (t : list pev)
| PDied (t : list pev)
| PExeced (t : list pev)
| PSpin.
Arguments PRet {X}.
Arguments PDied {X}.
Arguments PExeced {X}.
Arguments PSpin {X}.

Definition pafter {X} (t : list pev) (o : pout X) : pout X :=
  match o with
  | PRet x s t' => PRet x s (t ++ t')
  | PDied t' => PDied (t ++ t')
  | PExeced t' => PExeced (t ++ t')
  | PSpin => PSpin
  end.

Definition P (X : Type) : Type := mds -> pout X.

#[export] Instance P_ret : MRet P := fun X x s => PRet x s [].
#[export] Instance P_bind : MBind P := fun X Y f m s =>
  match m s with
  | PRet x s' t => pafter t (f x s')
  | PDied t => PDied t
  | PExeced t => PExeced t
  | PSpin => PSpin
  end.

Definition lift {X} (m : D X) : P X := fun s =>
  match m s with
  | Ret x s' t => PRet x s' (map Did t)
  | Died t => PDied (map Did t)
  | Execed t => PExeced (map Did t)
  end.
Definition emit (e : pev) : P unit := fun s => PRet tt s [e].
Definition pwhen (b : bool) (m : P unit) : P unit := if b then m else mret tt.
Definition pdie {X} : P X := fun _ => PDied [].
Definition spin {X} : P X := fun _ => PSpin.
(** a draw from the dice *)
Definition draw {X} (f : nat -> X) : P X := fun s => PRet (f (reads s)) (set_reads (S (reads s)) s) [].

(** ** Where messages go *)

Definition give (c : component) (m : G) : P unit := emit (Given c m) ;; lift (handle c m).

(** [ALLOW_MESSAGES_FROM]: [k] when the peer is one of [peers], otherwise the message is put *)
Definition allow (peers : Z) (m : G) (k : P bool) : P bool :=
  match m_peer_type m with
  | Some p => if Z.land p peers =? 0 then emit (Put m) ;; mret true else k
  | None => k
  end.

Definition handle_core_message (m : G) : P bool :=
  let ty := m_type m in
  if ty =? CEPH_MSG_MON_MAP then allow CEPH_ENTITY_TYPE_MON m (emit (Put m) ;; mret true)
  else if ty =? CEPH_MSG_MDS_MAP then
    allow (Z.lor CEPH_ENTITY_TYPE_MON CEPH_ENTITY_TYPE_MDS) m
      (let '(epoch, newmap) := m_map m in
       lift (handle_mds_map compat_default compat_merge bconf conf gid name (m_source_mds m) epoch newmap) ;;
       emit (Put m) ;; mret true)
  else if ty =? MSG_MON_COMMAND then allow CEPH_ENTITY_TYPE_MON m (give CompMonCommand m ;; mret true)
  else if ty =? MSG_COMMAND then give CompCommand m ;; mret true
  else if ty =? CEPH_MSG_OSD_MAP then
    allow (Z.lor CEPH_ENTITY_TYPE_MON CEPH_ENTITY_TYPE_OSD) m
      (active ← lift (gets (in_state STATE_ACTIVE));
       snap ← (if (active : bool) then lift (ask QSnapserver) else mret false);
       pwhen snap (lift (tell (SnapCheckOsdMap true))) ;;
       emit (HandleOsdMap m) ;;
       emit MaybeRequestMap ;; mret true)
  else mret false.

(** [get_table_client], [get_table_server] and the call of [handle_request] through the result *)
Definition table_request (m : G) : P unit :=
  let c := if m_table_op m <? 0 then CompTableClient else CompTableServer in
  if m_table m =? TABLE_ANCHOR then pdie
  else if m_table m =? TABLE_SNAP then give c m
  else pdie.

Definition handle_deferrable_message (m : G) : P bool :=
  let ty := m_type m in
  let port := Z.land ty 65280 in
  let to peers c := allow peers m (give c m ;; mret true) in
  if port =? MDS_PORT_CACHE then to CEPH_ENTITY_TYPE_MDS CompCache
  else if port =? MDS_PORT_MIGRATOR then to CEPH_ENTITY_TYPE_MDS CompMigrator
  else if (ty =? CEPH_MSG_CLIENT_SESSION) || (ty =? CEPH_MSG_CLIENT_RECONNECT) then to CEPH_ENTITY_TYPE_CLIENT CompServer
  else if ty =? CEPH_MSG_CLIENT_REQUEST then give CompServer m ;; mret true
  else if ty =? MSG_MDS_SLAVE_REQUEST then to CEPH_ENTITY_TYPE_MDS CompServer
  else if ty =? MSG_MDS_HEARTBEAT then to CEPH_ENTITY_TYPE_MDS CompBalancer
  else if ty =? MSG_MDS_TABLE_REQUEST then allow CEPH_ENTITY_TYPE_MDS m (table_request m ;; mret true)
  else if (ty =? MSG_MDS_LOCK) || (ty =? MSG_MDS_INODEFILECAPS) then to CEPH_ENTITY_TYPE_MDS CompLocker
  else if (ty =? CEPH_MSG_CLIENT_CAPS) || (ty =? CEPH_MSG_CLIENT_CAPRELEASE) || (ty =? CEPH_MSG_CLIENT_LEASE)
  then to CEPH_ENTITY_TYPE_CLIENT CompLocker
  else mret false.

Definition is_stale_message (m : G) : P bool :=
  mp ← lift (gets mdsmap);
  match m_source_mds m with
  | None => mret false
  | Some from =>
      known ← (if have_inst mp from
               then i ← lift (lift_res (get_inst mp from));
                    mret (bool_decide (i = m_source_inst m) && negb (is_down mp from))
               else mret false);
      if (known : bool) then mret false
      else if m_type m =? CEPH_MSG_MDS_MAP then mret false
      else if m_type m =? MSG_MDS_CACHEEXPIRE then
        i ← lift (lift_res (get_inst mp from));
        mret (negb (bool_decide (i = m_source_inst m)))
      else mret true
  end.

(** ** The queues *)

Section Queues.
(** [_dispatch], as a retried message calls it *)
Context (retry : G -> P bool).

Definition run_ctx (c : ctx) : P unit :=
  match c with
  | Retry m =>
      lift (modify (fun s => set_depth (dispatch_depth s + 1) s)) ;;
      retry m ;;
      lift (modify (fun s => set_depth (dispatch_depth s - 1) s))
  | Other o => lift (complete o)
  end.

Fixpoint finish_batch (ls : list ctx) : P unit :=
  match ls with
  | [] => mret tt
  | c :: ls => run_ctx c ;; lift heartbeat_reset ;; finish_batch ls
  end.

Fixpoint drain_finished (n : nat) : P unit :=
  match n with
  | O => spin
  | S n =>
      q ← lift (gets finished_queue);
      match q with
      | [] => mret tt
      | ls => lift (modify (set_finished [])) ;; finish_batch ls ;; drain_finished n
      end
  end.

Fixpoint drain_nolaggy (n : nat) : P unit :=
  match n with
  | O => spin
  | S n =>
      q ← lift (gets waiting_for_nolaggy);
      match q with
      | [] => mret tt
      | old :: rest =>
          laggy ← lift (beacon_laggy bconf);
          if (laggy : bool) then mret tt
          else
            lift (modify (set_nolaggy rest)) ;;
            stale ← is_stale_message old;
            (if (stale : bool) then emit (Put old) else emit (Retaken old) ;; handle_deferrable_message old ;; mret tt) ;;
            lift heartbeat_reset ;;
            drain_nolaggy n
      end
  end.

Definition _advance_queues (n : nat) : P unit := drain_finished n ;; drain_nolaggy n.

End Queues.

(** ** The thrashing options *)

(** a rank other than this one, by rolling until there is one *)
Fixpoint pick_dest (n : nat) (me : Z) (peers : list Z) : P Z :=
  match n with
  | O => spin
  | S n =>
      k ← draw t_rand;
      let dest := nth (Z.to_nat (k mod Z.of_nat (length peers))) peers 0 in
      if dest =? me then pick_dest n me peers else mret dest
  end.

Fixpoint thrash_exports (n : nat) (i : nat) : P unit :=
  match i with
  | O => mret tt
  | S i =>
      active ← lift (gets (in_state STATE_ACTIVE));
      mp ← lift (gets mdsmap);
      me ← lift (gets whoami);
      let peers := ordered_elems (get_mds_set mp STATE_ACTIVE) in
      inodes ← draw t_num_inodes;
      if negb active || (Z.of_nat (length peers) <? 2) || (inodes <? 10) then mret tt
      else
        ls ← draw t_pick;
        match ls with
        | [] => thrash_exports n i
        | d0 :: _ =>
            r ← draw t_rand;
            let dir := nth (Z.to_nat (r mod Z.of_nat (length ls))) ls d0 in
            pwhen (td_linked dir && td_auth dir)
              (dest ← pick_dest n me peers; emit (ThrashExport (td_id dir) dest)) ;;
            thrash_exports n i
        end
  end.

Fixpoint thrash_fragments (i : nat) : P unit :=
  match i with
  | O => mret tt
  | S i =>
      active ← lift (gets (in_state STATE_ACTIVE));
      fragmenting ← draw t_num_fragmenting;
      if negb active || (5 <? fragmenting) then mret tt
      else
        ls ← draw t_pick;
        match ls with
        | [] => thrash_fragments i
        | dir :: _ =>
            r ← draw t_rand;
            pwhen (td_linked dir && td_auth dir)
              (if (td_bits dir =? 0) || (r mod 2 ^ td_bits dir =? 0)
               then emit (ThrashSplit (td_id dir)) else emit (ThrashMerge (td_id dir))) ;;
            thrash_fragments i
        end
  end.

(** ** Dispatch *)

Definition shutdown_check : P unit :=
  stopping ← lift (gets (in_state STATE_STOPPING));
  pwhen stopping
    (lift (tell (Log LogTrim)) ;;
     fin ← lift (ask QShutdownPass);
     pwhen fin (lift (stopping_done bconf))).

(** the end of [_dispatch] *)
Definition housekeeping (n : nat) : P unit :=
  cr ← lift (gets (in_state STATE_CLIENTREPLAY));
  isopen ← (if (cr : bool) then lift (ask QCacheOpen) else mret false);
  rq ← lift (gets replay_queue);
  w ← lift (gets want_state);
  pwhen (isopen && bool_decide (length rq = 0%nat) && bool_decide (w = STATE_CLIENTREPLAY))
    (num ← lift (ask_num NClientRequests);
     pwhen (num =? 0) (lift (clientreplay_done bconf))) ;;
  thrash_exports n (Z.to_nat (mds_thrash_exports tconf)) ;;
  thrash_fragments (Z.to_nat (mds_thrash_fragments tconf)) ;;
  shutdown_check.

(** whether the rest of [_dispatch] is to follow: [false] when it was not recognized *)
Definition take (m : G) : P bool :=
  core ← handle_core_message m;
  if (core : bool) then mret true
  else
    laggy ← lift (beacon_laggy bconf);
    if (laggy : bool) then lift (modify (fun s => set_nolaggy (waiting_for_nolaggy s ++ [m]) s)) ;; mret true
    else
      ok ← handle_deferrable_message m;
      if (ok : bool) then mret true else emit (Put m) ;; mret false.

Definition dispatch_step (retry : G -> P bool) (n : nat) (m : G) : P bool :=
  emit (Entered m) ;;
  stale ← is_stale_message m;
  if (stale : bool) then emit (Put m) ;; mret true
  else
    go ← take m;
    if negb go then mret false
    else
      depth ← lift (gets dispatch_depth);
      if 1 <? depth then mret true
      else
        _advance_queues retry n ;;
        laggy ← lift (beacon_laggy bconf);
        if (laggy : bool) then mret true
        else housekeeping n ;; mret true.

Fixpoint _dispatch (n : nat) (m : G) : P bool :=
  match n with
  | O => spin
  | S n => dispatch_step (_dispatch n) n m
  end.

Definition ms_dispatch (n : nat) (m : G) : P bool :=
  lift heartbeat_reset ;;
  w ← lift (gets want_state);
  if bool_decide (w = STATE_DNE) then emit (Put m) ;; mret true
  else
    lift (modify (fun s => set_depth (dispatch_depth s + 1) s)) ;;
    ret ← _dispatch n m;
    lift (modify (fun s => set_depth (dispatch_depth s - 1) s)) ;;
    mret ret.

(** A turn of [ProgressThread::entry] that does not wait: it stops, or advances the queues. *)
Definition progress_waits : P bool :=
  stopping ← lift (gets progress_stopping);
  fq ← lift (gets finished_queue);
  nq ← lift (gets waiting_for_nolaggy);
  if (stopping : bool) || negb (bool_decide (length fq = 0%nat)) then mret false
  else if bool_decide (length nq = 0%nat) then mret true
  else lift (beacon_laggy bconf).

Definition progress_turn (n : nat) : P bool :=
  waits ← progress_waits;
  if (waits : bool) then mret true
  else
    stopping ← lift (gets progress_stopping);
    if (stopping : bool) then mret false
    else _advance_queues (_dispatch n) n ;; mret true.


(** ** What becomes of messages *)

Definition entered (t : list pev) : list G := omap (fun e => match e with Entered m => Some m | _ => None end) t.
(** put, or given to a component, which owns it from then on *)
Definition disposed (t : list pev) : list G :=
  omap (fun e => match e with Put m | Given _ m => Some m | _ => None end) t.

Lemma entered_did (t : list (ev T CS ctx A)) : entered (map Did t) = [].
Proof. by induction t. Qed.
Lemma disposed_did (t : list (ev T CS ctx A)) : disposed (map Did t) = [].
Proof. by induction t. Qed.

(** the types [handle_core_message] and [handle_deferrable_message] know *)
Definition core_type (m : G) : bool :=
  let ty := m_type m in
  (ty =? CEPH_MSG_MON_MAP) || (ty =? CEPH_MSG_MDS_MAP) || (ty =? MSG_MON_COMMAND) || (ty =? MSG_COMMAND) ||
  (ty =? CEPH_MSG_OSD_MAP).
Definition deferrable_type (m : G) : bool :=
  let ty := m_type m in
  let port := Z.land ty 65280 in
  (port =? MDS_PORT_CACHE) || (port =? MDS_PORT_MIGRATOR) || (ty =? CEPH_MSG_CLIENT_SESSION) ||
  (ty =? CEPH_MSG_CLIENT_RECONNECT) || (ty =? CEPH_MSG_CLIENT_REQUEST) || (ty =? MSG_MDS_SLAVE_REQUEST) ||
  (ty =? MSG_MDS_HEARTBEAT) || (ty =? MSG_MDS_TABLE_REQUEST) || (ty =? MSG_MDS_LOCK) ||
  (ty =? MSG_MDS_INODEFILECAPS) || (ty =? CEPH_MSG_CLIENT_CAPS) || (ty =? CEPH_MSG_CLIENT_CAPRELEASE) ||
  (ty =? CEPH_MSG_CLIENT_LEASE).

(** the messages the code loses track of: OSD maps, once handled, and deferred messages that nothing
    recognizes when they are handled *)
Definition lost (t : list pev) : list G :=
  omap (fun e => match e with
    | HandleOsdMap m => Some m
    | Retaken m => if deferrable_type m then None else Some m
    | _ => None
    end) t.

(** From [s], [p] turns the messages [inp] in its caller's hands, those it enters with and those
    deferred into those it disposes of, those it loses, those it leaves in the caller's hands and
    those deferred then. *)
Definition owes {X} (s : mds) (p : P X) (inp : list G) (outp : X -> list G) : Prop :=
  match p s with
  | PRet x s' t => inp ++ entered t ++ waiting_for_nolaggy s ≡ₚ disposed t ++ lost t ++ outp x ++ waiting_for_nolaggy s'
  | _ => True
  end.

Lemma lost_did (t : list (ev T CS ctx A)) : lost (map Did t) = [].
Proof. by induction t. Qed.
Lemma lost_app t t' : lost (t ++ t') = lost t ++ lost t'.
Proof. apply omap_app. Qed.
Lemma entered_app t t' : entered (t ++ t') = entered t ++ entered t'.
Proof. apply omap_app. Qed.
Lemma disposed_app t t' : disposed (t ++ t') = disposed t ++ disposed t'.
Proof. apply omap_app. Qed.

Lemma owes_bind {X Y} (p : P X) (f : X -> P Y) s inp mid outp :
  owes s p inp mid -> (forall x s', owes s' (f x) (mid x) outp) -> owes s (p ≫= f) inp outp.
Proof.
  unfold owes, mbind, P_bind. intros Hp Hf. destruct (p s) as [x s' t| | |]; [|done..].
  rename Hp into E1. specialize (Hf x s'). destruct (f x s') as [y s'' t'| | |]; [|done..]. simpl.
  rename Hf into E2. rewrite entered_app, disposed_app, lost_app.
  transitivity ((inp ++ entered t ++ waiting_for_nolaggy s) ++ entered t'); [solve_Permutation|].
  rewrite E1. transitivity (disposed t ++ lost t ++ (mid x ++ entered t' ++ waiting_for_nolaggy s')); [solve_Permutation|].
  rewrite E2. solve_Permutation.
Qed.

(** ** The rules *)

Lemma owes_frame {X} (p : P X) s fr inp outp :
  owes s p inp outp -> owes s p (fr ++ inp) (fun x => fr ++ outp x).
Proof.
  unfold owes. destruct (p s) as [x s' t| | |]; [|done..]. intros E.
  transitivity (fr ++ (inp ++ entered t ++ waiting_for_nolaggy s)); [solve_Permutation|]. rewrite E. solve_Permutation.
Qed.

Lemma owes_ret {X} (x : X) s inp outp : inp = outp x -> owes s (mret x) inp outp.
Proof. intros ->. unfold owes. simpl. done. Qed.

Lemma owes_spin {X} s inp (outp : X -> list G) : owes s spin inp outp.
Proof. done. Qed.
Lemma owes_die {X} s inp (outp : X -> list G) : owes s pdie inp outp.
Proof. done. Qed.

Lemma owes_dispose (e : pev) m s : disposed [e] = [m] -> entered [e] = [] -> lost [e] = [] -> owes s (emit e) [m] (fun _ => []).
Proof. intros E1 E2 E3. unfold owes, emit. by rewrite E1, E2, E3. Qed.

Lemma owes_note (e : pev) s inp : disposed [e] = [] -> entered [e] = [] -> lost [e] = [] -> owes s (emit e) inp (fun _ => inp).
Proof. intros E1 E2 E3. unfold owes, emit. by rewrite E1, E2, E3. Qed.

Lemma owes_lose (e : pev) m s : disposed [e] = [] -> entered [e] = [] -> lost [e] = [m] -> owes s (emit e) [m] (fun _ => []).
Proof. intros E1 E2 E3. unfold owes, emit. by rewrite E1, E2, E3. Qed.

Lemma owes_enter m s inp : owes s (emit (Entered m)) inp (fun _ => m :: inp).
Proof. unfold owes. simpl. solve_Permutation. Qed.

Lemma owes_lift {X} (d : D X) s inp : stable waiting_for_nolaggy d -> owes s (lift d) inp (fun _ => inp).
Proof.
  intros St. specialize (St s). unfold owes, lift. destruct (d s) as [x s' t| |]; [|done..].
  by rewrite entered_did, disposed_did, lost_did, St.
Qed.

Lemma owes_draw {X} (f : nat -> X) s inp : owes s (draw f) inp (fun _ => inp).
Proof. unfold owes. simpl. done. Qed.

(** a step that keeps the deferred messages, with what the rest may assume of its state *)
Lemma owes_keep {X Y} (d : D X) (k : X -> P Y) s inp outp : stable waiting_for_nolaggy d ->
  (forall x s', waiting_for_nolaggy s' = waiting_for_nolaggy s -> owes s' (k x) inp outp) ->
  owes s (lift d ≫= k) inp outp.
Proof.
  intros St Hk. specialize (St s). unfold owes, mbind, P_bind, lift in *. destruct (d s) as [x s' t| |]; [|done..].
  specialize (Hk x s' St). destruct (k x s') as [y s'' t'| | |]; [|done..]. simpl.
  by rewrite entered_app, disposed_app, lost_app, entered_did, disposed_did, lost_did, <- St.
Qed.

Lemma owes_gets {X Y} (f : mds -> X) (k : X -> P Y) s inp outp :
  owes s (k (f s)) inp outp -> owes s (lift (gets f) ≫= k) inp outp.
Proof. unfold owes, mbind, P_bind, lift, gets. simpl. by destruct (k (f s) s). Qed.

Lemma owes_bind_ret {X Y} (p : P X) (f : X -> P Y) s inp outp :
  owes s p inp (fun _ => inp) -> (forall x s', owes s' (f x) inp outp) -> owes s (p ≫= f) inp outp.
Proof. apply owes_bind. Qed.

Lemma owes_when b (p : P unit) s inp : owes s p inp (fun _ => inp) -> owes s (pwhen b p) inp (fun _ => inp).
Proof. destruct b; [done|]. intros _. by apply owes_ret. Qed.

Lemma owes_allow peers m (k : P bool) s outp : outp true = [] -> owes s k [m] outp -> owes s (allow peers m k) [m] outp.
Proof.
  intros E Hk. unfold allow. destruct (m_peer_type m); [|done]. destruct (_ =? 0); [|done].
  eapply owes_bind; [by apply owes_dispose|]. intros ? s'. by apply owes_ret.
Qed.

(** ** Conservation *)

Context (handle_keeps : forall c m, stable waiting_for_nolaggy (handle c m))
        (complete_keeps : forall o, stable waiting_for_nolaggy (complete o)).

Section NoLaggy.
Abbreviation keeps d := (stable waiting_for_nolaggy (d : D _)).

Lemma nolaggy_heartbeat : keeps heartbeat_reset.
Proof. unfold heartbeat_reset. stable. Qed.
Lemma nolaggy_laggy : keeps (beacon_laggy bconf).
Proof. unfold beacon_laggy. stable. Qed.
Lemma nolaggy_with_beacon f : keeps (with_beacon f).
Proof. unfold with_beacon. stable. Qed.
#[local] Hint Resolve nolaggy_heartbeat nolaggy_laggy nolaggy_with_beacon : daemon.
Lemma nolaggy_request x : keeps (request_state bconf x).
Proof. unfold request_state, beacon_send, set_want_state. stable. Qed.
Lemma nolaggy_suicide : keeps suicide.
Proof. unfold suicide, set_want_state. stable. Qed.
#[local] Hint Resolve nolaggy_request nolaggy_suicide : daemon.
Lemma nolaggy_respawn : keeps respawn.
Proof. unfold respawn. stable. Qed.
#[local] Hint Resolve nolaggy_respawn : daemon.
Lemma nolaggy_boot_start step r : keeps (boot_start bconf conf step r).
Proof.
  unfold boot_start, boot_run, starting_done, replay_done, standby_replay_restart, wait_for_map, reread_head. stable.
Qed.
#[local] Hint Resolve nolaggy_boot_start : daemon.
Lemma nolaggy_change old : keeps (state_change bconf conf old).
Proof.
  unfold state_change, recovery_done, enter_state, active_start, replay_start, resolve_start, reconnect_start,
    rejoin_start, clientreplay_start, boot_create, stopping_start, reopen_log, finish_contexts, queue_one_replay,
    queue_waiter, queue_waiters, calc_recovery_set, wait_for_map, set_want_state. stable.
Qed.
Lemma nolaggy_kick e l : keeps (kick_map_waiters e l).
Proof. induction l as [|[? ?] l IH]; simpl; stable. Qed.
#[local] Hint Resolve nolaggy_change nolaggy_kick : daemon.
Lemma nolaggy_map src epoch m : keeps (handle_mds_map compat_default compat_merge bconf conf gid name src epoch m).
Proof.
  unfold handle_mds_map, note_peer_epoch, identify, not_in_map, digest_map, rename, resolve_phase, rejoin_phase,
    active_phase, failed_phase, failed_peer, stopped_phase, map_waiters, map_barrier, beacon_notify_mdsmap,
    handle_mds_recovery, handle_mds_failure, queue_waiters, rejoin_joint_start, calc_recovery_set,
    set_osd_epoch_barrier, set_want_state, beacon_send. stable.
Qed.
End NoLaggy.
#[local] Hint Resolve nolaggy_heartbeat nolaggy_laggy nolaggy_request nolaggy_map : daemon.

Lemma owes_give c m s : owes s (give c m) [m] (fun _ => []).
Proof.
  eapply owes_bind; [by apply owes_dispose|]. intros ? s'. apply owes_lift, handle_keeps.
Qed.

Lemma owes_given c m s (outp : bool -> list G) : outp true = [] -> owes s (give c m ;; mret true) [m] outp.
Proof. intros E. eapply owes_bind; [apply owes_give|]. intros ? s'. by apply owes_ret. Qed.

Lemma owes_core m s : owes s (handle_core_message m) [m] (fun b => if b then [] else [m]).
Proof.
  unfold handle_core_message.
  repeat match goal with |- owes _ (if ?b then _ else _) _ _ => destruct b eqn:? end.
  - apply owes_allow; [done|]. eapply owes_bind; [by apply owes_dispose|]. intros ? s'. by apply owes_ret.
  - apply owes_allow; [done|]. destruct (m_map m). apply owes_keep; [apply nolaggy_map|]. intros ? s' _.
    eapply owes_bind; [by apply owes_dispose|]. intros ? s''. by apply owes_ret.
  - apply owes_allow; [done|]. by apply owes_given.
  - by apply owes_given.
  - apply owes_allow; [done|]. apply owes_keep; [done|]. intros act s1 _.
    apply owes_bind_ret; [destruct act; [by apply owes_lift|by apply owes_ret]|]. intros snap s2.
    apply owes_bind_ret; [by apply owes_when, owes_lift|]. intros _ s3.
    eapply owes_bind; [by apply owes_lose|]. intros ? s4. apply owes_bind_ret; [by apply owes_note|]. intros _ s5. by apply owes_ret.
  - by apply owes_ret.
Qed.

Lemma owes_deferrable m s :
  owes s (handle_deferrable_message m) [m] (fun b => if b then [] else [m]).
Proof.
  unfold handle_deferrable_message.
  repeat match goal with |- owes _ (if ?b then _ else _) _ _ => destruct b eqn:? end;
    try (by apply owes_ret); try (apply owes_allow; [done|]); try (by apply owes_given).
  unfold table_request. eapply owes_bind; [|intros ? s'; by apply owes_ret].
  destruct (_ =? TABLE_ANCHOR); [apply (owes_die s [m] (fun _ => []))|].
  destruct (_ =? TABLE_SNAP); [apply owes_give|apply (owes_die s [m] (fun _ => []))].
Qed.

Lemma allow_true peers m (k : P bool) s : (forall s' t, k s <> PRet false s' t) ->
  forall s' t, allow peers m k s <> PRet false s' t.
Proof. unfold allow. intros Hk. destruct (m_peer_type m); [|done]. by destruct (_ =? 0). Qed.

Lemma then_true (p : P unit) s s' t : (p ;; mret true) s <> PRet false s' t.
Proof. unfold mbind, P_bind, mret, P_ret. by destruct (p s). Qed.

(** the answer of [handle_deferrable_message] depends only on the type *)
Lemma deferrable_false m s s' t : handle_deferrable_message m s = PRet false s' t -> deferrable_type m = false.
Proof.
  unfold handle_deferrable_message, deferrable_type. cbv zeta. intros E.
  repeat match goal with
  | E : (if ?b then _ else _) _ = _ |- _ =>
      destruct b eqn:?; [exfalso; revert E; first [apply then_true | apply allow_true; intros ? ?; apply then_true]|]
  end.
  repeat match goal with F : _ || _ = false |- _ => apply orb_false_iff in F as [? ?] end.
  repeat match goal with |- _ || _ = false => apply orb_false_iff; split end; done.
Qed.

Lemma deferrable_true m s s' t : handle_deferrable_message m s = PRet true s' t -> deferrable_type m = true.
Proof.
  unfold handle_deferrable_message, deferrable_type. cbv zeta. intros E.
  repeat match goal with
  | E : (if ?b then _ else _) _ = _ |- _ => destruct b eqn:?; [clear E|]
  end; [..|done].
  all: repeat match goal with F : ?x || ?y = true |- _ => apply orb_true_iff in F as [F|F] end.
  all: repeat match goal with F : ?x = true |- _ => rewrite F end.
  all: by rewrite ?orb_true_r, ?orb_true_l.
Qed.

Lemma owes_deferred m s : owes s (emit (Retaken m) ;; handle_deferrable_message m ;; mret tt) [m] (fun _ => []).
Proof.
  pose proof (owes_deferrable m s) as Ow. pose proof (deferrable_false m s) as Df. pose proof (deferrable_true m s) as Dt.
  unfold owes, mbind, P_bind, mret, P_ret, emit in *. destruct (handle_deferrable_message m s) as [[] s' t| | |]; [| |done..]; simpl; rewrite app_nil_r.
  - by rewrite (Dt _ _ eq_refl).
  - rewrite (Df _ _ eq_refl). simpl in *. rewrite Ow. solve_Permutation.
Qed.

Lemma owes_stale m s inp : owes s (is_stale_message m) inp (fun _ => inp).
Proof.
  unfold is_stale_message. apply owes_gets. destruct (m_source_mds m) as [from|]; [|by apply owes_ret].
  apply owes_bind_ret.
  - destruct (have_inst _ _); [|by apply owes_ret]. apply owes_keep; [stable|]. intros i s' _. by apply owes_ret.
  - intros known s'. repeat match goal with |- owes _ (if ?b then _ else _) _ _ => destruct b end; try by apply owes_ret.
    apply owes_keep; [stable|]. intros i s'' _. by apply owes_ret.
Qed.

Lemma owes_take m s : owes s (take m) [m] (fun _ => []).
Proof.
  unfold take. eapply owes_bind; [apply owes_core|]. intros [] s1; [by apply owes_ret|].
  apply owes_keep; [apply nolaggy_laggy|]. intros [] s2 _.
  - unfold owes. simpl. solve_Permutation.
  - eapply owes_bind; [apply owes_deferrable|]. intros [] s3; [by apply owes_ret|].
    eapply owes_bind; [by apply owes_dispose|]. intros ? s4. by apply owes_ret.
Qed.

Lemma owes_finish_batch retry ls s : (forall m s, owes s (retry m) [] (fun _ => [])) ->
  owes s (finish_batch retry ls) [] (fun _ => []).
Proof.
  intros R. revert s. induction ls as [|c ls IH]; intros s; simpl; [by apply owes_ret|].
  apply owes_bind_ret.
  - destruct c as [m|o]; simpl; [|by apply owes_lift].
    apply owes_keep; [stable|]. intros _ s1 _. apply owes_bind_ret; [apply R|]. intros ? s2. apply owes_lift. stable.
  - intros _ s1. apply owes_keep; [apply nolaggy_heartbeat|]. intros _ s2 _. apply IH.
Qed.

Lemma owes_drain_finished retry n s : (forall m s, owes s (retry m) [] (fun _ => [])) ->
  owes s (drain_finished retry n) [] (fun _ => []).
Proof.
  intros R. revert s. induction n as [|n IH]; intros s; simpl; [apply (owes_spin s [] (fun _ => []))|].
  apply owes_gets. destruct (finished_queue s) as [|c ls]; [by apply owes_ret|].
  apply owes_keep; [stable|]. intros _ s1 _. apply owes_bind_ret; [by apply owes_finish_batch|]. intros _ s2. apply IH.
Qed.

(** the pop of a deferred message puts it in the hands of the loop *)
Lemma owes_pop {Y} (k : P Y) s old rest outp : waiting_for_nolaggy s = old :: rest ->
  (forall s', owes s' k [old] outp) -> owes s (lift (modify (set_nolaggy rest)) ;; k) [] outp.
Proof.
  intros E Hk. eapply (owes_bind _ _ s [] (fun _ => [old])); [|intros _ s'; apply Hk].
  unfold owes. simpl. by rewrite E.
Qed.

Lemma owes_drain_nolaggy n s : owes s (drain_nolaggy n) [] (fun _ => []).
Proof.
  revert s. induction n as [|n IH]; intros s; simpl; [apply (owes_spin s [] (fun _ => []))|].
  apply owes_gets. destruct (waiting_for_nolaggy s) as [|old rest] eqn:Q; [by apply owes_ret|].
  apply owes_keep; [apply nolaggy_laggy|]. intros [] s1 E1; [by apply owes_ret|].
  eapply owes_pop; [by rewrite E1, Q|]. intros s2. apply owes_bind_ret; [apply owes_stale|]. intros stale s3.
  eapply (owes_bind _ _ s3 [old] (fun _ => [])).
  - destruct stale; [by apply owes_dispose|apply owes_deferred].
  - intros _ s4. apply owes_keep; [apply nolaggy_heartbeat|]. intros _ s5 _. apply IH.
Qed.

Lemma owes_pick_dest n me peers s : owes s (pick_dest n me peers) [] (fun _ => []).
Proof.
  revert s. induction n as [|n IH]; intros s; simpl; [apply (owes_spin s [] (fun _ => []))|].
  apply owes_bind_ret; [apply owes_draw|]. intros k s1. destruct (_ =? me); [apply IH|by apply owes_ret].
Qed.

Lemma owes_thrash_exports n i s : owes s (thrash_exports n i) [] (fun _ => []).
Proof.
  revert s. induction i as [|i IH]; intros s; simpl; [by apply owes_ret|]. do 3 apply owes_gets.
  apply owes_bind_ret; [apply owes_draw|]. intros inodes s1. destruct (_ || _ || _); [by apply owes_ret|].
  apply owes_bind_ret; [apply owes_draw|]. intros [|d0 ls] s2; [apply IH|].
  apply owes_bind_ret; [apply owes_draw|]. intros r s3. apply owes_bind_ret; [|intros _ s4; apply IH].
  apply owes_when. apply owes_bind_ret; [apply owes_pick_dest|]. intros dest s4. by apply owes_note.
Qed.

Lemma owes_thrash_fragments i s : owes s (thrash_fragments i) [] (fun _ => []).
Proof.
  revert s. induction i as [|i IH]; intros s; simpl; [by apply owes_ret|]. apply owes_gets.
  apply owes_bind_ret; [apply owes_draw|]. intros fr s1. destruct (_ || _); [by apply owes_ret|].
  apply owes_bind_ret; [apply owes_draw|]. intros [|d0 ls] s2; [apply IH|].
  apply owes_bind_ret; [apply owes_draw|]. intros r s3. apply owes_bind_ret; [|intros _ s4; apply IH].
  apply owes_when. destruct (_ || _); by apply owes_note.
Qed.

Lemma owes_housekeeping n s : owes s (housekeeping n) [] (fun _ => []).
Proof.
  unfold housekeeping, shutdown_check. apply owes_gets. apply owes_bind_ret.
  { destruct (in_state _ s); [by apply owes_lift|by apply owes_ret]. }
  intros isopen s1. do 2 apply owes_gets. apply owes_bind_ret.
  { apply owes_when, owes_keep; [done|]. intros num s2 _. apply owes_when, owes_lift. apply nolaggy_request. }
  intros _ s2. apply owes_bind_ret; [apply owes_thrash_exports|]. intros _ s3.
  apply owes_bind_ret; [apply owes_thrash_fragments|]. intros _ s4. apply owes_gets. apply owes_when.
  apply owes_keep; [done|]. intros _ s5 _. apply owes_keep; [done|]. intros fin s6 _. apply owes_when, owes_lift.
  apply nolaggy_request.
Qed.

Lemma owes_dispatch n m s : owes s (_dispatch n m) [] (fun _ => []).
Proof.
  revert m s. induction n as [|n IH]; intros m s; simpl; [apply (owes_spin s [] (fun _ => []))|]. unfold dispatch_step.
  eapply owes_bind; [apply owes_enter|]. intros ? s1. apply owes_bind_ret; [apply owes_stale|]. intros [] s2.
  { eapply owes_bind; [by apply owes_dispose|]. intros ? s3. by apply owes_ret. }
  eapply owes_bind; [apply owes_take|]. intros [] s3; cbn [negb]; [|by apply owes_ret].
  apply owes_gets. destruct (1 <? _); [by apply owes_ret|]. unfold _advance_queues.
  apply owes_bind_ret.
  { apply owes_bind_ret; [by apply owes_drain_finished|]. intros _ s4. apply owes_drain_nolaggy. }
  intros _ s4. apply owes_keep; [apply nolaggy_laggy|]. intros [] s5 _; [by apply owes_ret|].
  apply owes_bind_ret; [apply owes_housekeeping|]. intros _ s6. by apply owes_ret.
Qed.


(** ** Dispatch ends *)

Section Ends.
(** The work a message or a context leads to is finite: with the weights [wm] of messages and [wo] of
    contexts, handling [m] leaves contexts of at most the weight [wm m] behind, completing [o]
    contexts of less than its weight. *)
Context (wm : G -> nat) (wo : K -> nat).
Definition weight_ctx (c : ctx) : nat := match c with Retry m => S (S (wm m)) | Other o => wo o end.
Definition total (ls : list ctx) : nat := sum_list_with weight_ctx ls.
Definition peers_total (w : gmap Z (list ctx)) : nat := map_fold (fun _ ls n => total ls + n)%nat 0%nat w.

(** all that is queued or may be queued by the daemon itself *)
Definition work (s : mds) : nat :=
  (total (finished_queue s) + total (replay_queue s) + peers_total (waiting_for_active_peer s) +
   sum_list_with (fun m => S (wm m)) (waiting_for_nolaggy s))%nat.
Definition queues (s : mds) := (finished_queue s, replay_queue s, waiting_for_active_peer s, waiting_for_nolaggy s).

(** [d] adds at most [b] to the work *)
Definition adds {X} (d : D X) (b : nat) : Prop := forall s x s' t, d s = Ret x s' t -> (work s' <= work s + b)%nat.

Context (handle_adds : forall c m, adds (handle c m) (wm m))
        (complete_adds : forall o, (0 < wo o)%nat /\ adds (complete o) (wo o - 1)).
(** Within [luck] throws the dice turn up a rank other than a given one. *)
Context (luck : nat) (dice_fair : forall r me peers, NoDup peers -> (2 <= length peers)%nat ->
  exists k, (k < luck)%nat /\ nth (Z.to_nat (t_rand (r + k) mod Z.of_nat (length peers))) peers 0 <> me).

Lemma queues_work s s' : queues s' = queues s -> work s' = work s.
Proof. unfold queues, work. intros E. injection E as -> -> -> ->. done. Qed.
Lemma adds_stable {X} (d : D X) b : stable queues d -> adds d b.
Proof. intros St s x s' t E. specialize (St s). rewrite E in St. rewrite (queues_work _ _ St). lia. Qed.
Lemma adds_bind {X Y} (d : D X) (f : X -> D Y) b : adds d 0 -> (forall x, adds (f x) b) -> adds (d ≫= f) b.
Proof.
  intros Hd Hf s y s' t. unfold mbind, D_bind. destruct (d s) as [x s1 t1| |] eqn:E1; [|done..].
  destruct (f x s1) as [y2 s2 t2| |] eqn:E2; [|done..]. intros [= -> -> _]. pose proof (Hd _ _ _ _ E1). pose proof (Hf _ _ _ _ _ E2). lia.
Qed.
Lemma adds_when b (d : D unit) : adds d 0 -> adds (when b d) 0.
Proof. destruct b; [done|]. intros _. by apply adds_stable. Qed.
Lemma adds_each {X} (f : X -> D unit) l : (forall x, adds (f x) 0) -> adds (each f l) 0.
Proof. intros Hf. induction l as [|x l IH]; cbn [each]; [by apply adds_stable|]. apply adds_bind; auto. Qed.

(** *** A new map adds nothing: what it queues was waiting *)

Section Maps.
Abbreviation keeps d := (stable queues (d : D _)).
Lemma queues_heartbeat : keeps heartbeat_reset.
Proof. unfold heartbeat_reset. stable. Qed.
Lemma queues_laggy : keeps (beacon_laggy bconf).
Proof. unfold beacon_laggy. stable. Qed.
Lemma queues_with_beacon f : keeps (with_beacon f).
Proof. unfold with_beacon. stable. Qed.
#[local] Hint Resolve queues_with_beacon : daemon.
Lemma queues_request x : keeps (request_state bconf x).
Proof. unfold request_state, beacon_send, set_want_state. stable. Qed.
Lemma queues_suicide : keeps suicide.
Proof. unfold suicide, set_want_state. stable. Qed.
#[local] Hint Resolve queues_request queues_suicide : daemon.
Lemma queues_respawn : keeps respawn.
Proof. unfold respawn. stable. Qed.
#[local] Hint Resolve queues_respawn : daemon.
Lemma queues_boot_start step r : keeps (boot_start bconf conf step r).
Proof.
  unfold boot_start, boot_run, starting_done, replay_done, standby_replay_restart, wait_for_map, reread_head. stable.
Qed.
#[local] Hint Resolve queues_boot_start : daemon.
Lemma queues_kick e l : keeps (kick_map_waiters e l).
Proof. induction l as [|[? ?] l IH]; simpl; stable. Qed.
#[local] Hint Resolve queues_kick : daemon.

Lemma total_app l l' : total (l ++ l') = (total l + total l')%nat.
Proof. apply sum_list_with_app. Qed.
Lemma peers_delete who w : peers_total w = (total (default [] (w !! who)) + peers_total (delete who w))%nat.
Proof.
  unfold peers_total. destruct (w !! who) as [ls|] eqn:E; [|by rewrite delete_id].
  rewrite (map_fold_delete_L _ _ who ls w); [done| |done]. intros. lia.
Qed.

Lemma adds_one_replay : adds (queue_one_replay : D bool) 0.
Proof.
  intros s x s' t. unfold queue_one_replay, queue_waiter, mbind, D_bind, gets, modify, tell, mret, D_ret. cbn [after].
  destruct (replay_queue s) as [|c q] eqn:E; intros [= _ <- _]; [lia|]. unfold work. cbn. rewrite E, total_app. unfold total. cbn. lia.
Qed.
Lemma adds_recovery who : adds (handle_mds_recovery who : D unit) 0.
Proof.
  unfold handle_mds_recovery. apply adds_bind; [by apply adds_stable|intros _]. do 2 (apply adds_bind; [by apply adds_stable|intros ?]).
  apply adds_bind; [apply adds_stable; stable|intros _]. intros s u s' t. unfold queue_waiters, mbind, D_bind, gets, modify, tell. cbn [after app].
  intros [= _ <- _]. unfold work. cbn -[total peers_total]. rewrite total_app. pose proof (peers_delete who (waiting_for_active_peer s)). lia.
Qed.
Lemma adds_clientreplay : adds (clientreplay_start : D unit) 0.
Proof.
  unfold clientreplay_start. apply adds_bind; [apply adds_stable; unfold finish_contexts; stable|intros _].
  apply adds_bind; [apply adds_one_replay|intros _; by apply adds_stable].
Qed.
Lemma adds_change old : adds (state_change bconf conf old : D unit) 0.
Proof.
  unfold state_change. apply adds_bind; [by apply adds_stable|intros st]. apply adds_when. apply adds_bind; [apply adds_stable; unfold set_want_state; stable|intros _].
  destruct (bool_decide _); [apply adds_stable; stable|]. apply adds_bind; [apply adds_stable; unfold recovery_done; stable|intros _].
  unfold enter_state. apply adds_bind; [by apply adds_stable|intros st']. destruct st'; try apply adds_clientreplay; apply adds_stable;
    unfold active_start, replay_start, resolve_start, reconnect_start, rejoin_start, boot_create, stopping_start, reopen_log, finish_contexts,
      calc_recovery_set, wait_for_map; stable.
Qed.
Lemma adds_map src epoch m : adds (handle_mds_map compat_default compat_merge bconf conf gid name src epoch m : D unit) 0.
Proof.
  unfold handle_mds_map. apply adds_bind; [apply adds_stable; unfold note_peer_epoch; stable|intros _].
  apply adds_bind; [by apply adds_stable|intros oldmap]. apply adds_when. do 2 (apply adds_bind; [by apply adds_stable|intros ?]).
  do 2 (apply adds_bind; [by apply adds_stable|intros _]). apply adds_bind; [|intros _; apply adds_stable; unfold beacon_notify_mdsmap; stable].
  destruct (negb _); [apply adds_stable; stable|]. apply adds_bind; [apply adds_stable; unfold identify, not_in_map, set_want_state, beacon_send; stable|intros go].
  apply adds_when. unfold digest_map. apply adds_bind; [apply adds_stable; unfold rename; stable|intros _]. apply adds_bind; [apply adds_change|intros _].
  do 2 (apply adds_bind; [apply adds_stable; unfold resolve_phase, rejoin_phase, calc_recovery_set, rejoin_joint_start; stable|intros _]).
  apply adds_bind; [|intros _].
  { unfold active_phase. do 3 (apply adds_bind; [by apply adds_stable|intros ?]). apply adds_when, adds_each. intros p. apply adds_when, adds_recovery. }
  apply adds_stable. unfold failed_phase, failed_peer, handle_mds_failure, stopped_phase, map_waiters, map_barrier, set_osd_epoch_barrier. stable.
Qed.
End Maps.

(** *** Fuel *)

(** [p] does not run out of fuel, and leaves work in [Q] *)
Definition within {X} (s : mds) (p : P X) (Q : nat -> Prop) : Prop :=
  match p s with
  | PRet _ s' _ => Q (work s')
  | PSpin => False
  | _ => True
  end.

Lemma within_bind {X Y} (p : P X) (f : X -> P Y) s Q Q' : within s p Q ->
  (forall x s', Q (work s') -> within s' (f x) Q') -> within s (p ≫= f) Q'.
Proof.
  unfold within, mbind, P_bind. intros Hp Hf. destruct (p s) as [x s' t| | |]; [|done..].
  specialize (Hf x s' Hp). by destruct (f x s').
Qed.

Lemma within_ret {X} (x : X) s (Q : nat -> Prop) : Q (work s) -> within s (mret x) Q.
Proof. done. Qed.

Lemma within_mono {X} (p : P X) s (Q Q' : nat -> Prop) : within s p Q -> (forall n, Q n -> Q' n) -> within s p Q'.
Proof. unfold within. intros Hp Hq. destruct (p s); [|done..]. naive_solver. Qed.

Lemma within_lift {X} (d : D X) s : stable queues d -> within s (lift d) (fun n => n = work s).
Proof. intros St. specialize (St s). unfold within, lift. destruct (d s) as [x s' t| |]; [|done..]. by apply queues_work. Qed.

Lemma within_keep {X Y} (d : D X) (k : X -> P Y) s Q : stable queues d ->
  (forall x s', queues s' = queues s -> work s' = work s -> within s' (k x) Q) -> within s (lift d ≫= k) Q.
Proof.
  intros St Hk. specialize (St s). unfold within, mbind, P_bind, lift in *. destruct (d s) as [x s' t| |]; [|done..].
  specialize (Hk x s' St (queues_work _ _ St)). by destruct (k x s').
Qed.

Lemma within_gets {X Y} (f : mds -> X) (k : X -> P Y) s Q : within s (k (f s)) Q -> within s (lift (gets f) ≫= k) Q.
Proof. unfold within, mbind, P_bind, lift, gets. simpl. by destruct (k (f s) s). Qed.

Lemma within_modify {Y} (g : mds -> mds) (k : P Y) s Q : within (g s) k Q -> within s (lift (modify g) ;; k) Q.
Proof. unfold within, mbind, P_bind, lift, modify. simpl. by destruct (k (g s)). Qed.

Lemma within_when b (p : P unit) s (Q : nat -> Prop) : Q (work s) -> within s p Q -> within s (pwhen b p) Q.
Proof. by destruct b. Qed.

Lemma within_emit (e : pev) s : within s (emit e) (fun n => n = work s).
Proof. done. Qed.

Lemma within_adds {X} (d : D X) b s : adds d b -> within s (lift d) (fun n => (n <= work s + b)%nat).
Proof. intros Ad. unfold within, lift. destruct (d s) as [x s' t| |] eqn:E; [|done..]. by apply (Ad s x s' t). Qed.

Lemma within_give c m s : within s (give c m) (fun n => (n <= work s + wm m)%nat).
Proof.
  eapply within_bind; [apply within_emit|]. intros _ s' E. simpl in E.
  eapply within_mono; [by apply (within_adds _ (wm m))|]. simpl. lia.
Qed.

Lemma within_then {X Y} (p : P X) (y : Y) s Q : within s p Q -> within s (p ;; mret y) Q.
Proof. intros Hp. eapply within_bind; [apply Hp|]. intros _ s' Hq. by apply within_ret. Qed.

Lemma within_allow peers m (k : P bool) s (Q : nat -> Prop) : Q (work s) -> within s k Q -> within s (allow peers m k) Q.
Proof. intros Hq Hk. unfold allow. destruct (m_peer_type m); [|done]. by destruct (_ =? 0). Qed.

Lemma within_deferrable m s : within s (handle_deferrable_message m) (fun n => (n <= work s + wm m)%nat).
Proof.
  unfold handle_deferrable_message.
  repeat match goal with |- within _ (if ?b then _ else _) _ => destruct b end;
    try (apply within_ret; lia); try (apply within_allow; [lia|]); apply within_then; try apply within_give.
  unfold table_request. destruct (_ =? TABLE_ANCHOR); [done|]. destruct (_ =? TABLE_SNAP); [apply within_give|done].
Qed.

Lemma within_core m s : within s (handle_core_message m) (fun n => (n <= work s + wm m)%nat).
Proof.
  unfold handle_core_message. repeat match goal with |- within _ (if ?b then _ else _) _ => destruct b end; try (apply within_allow; [lia|]).
  - apply within_then. eapply within_mono; [apply within_emit|]. simpl. lia.
  - destruct (m_map m). eapply within_bind; [apply within_adds, adds_map|]. intros _ s1 L1. simpl in L1.
    apply within_then. eapply within_mono; [apply within_emit|]. simpl. lia.
  - apply within_then, within_give.
  - apply within_then, within_give.
  - apply within_gets. eapply (within_bind _ _ _ (fun n => n = work s)); [destruct (in_state _ s); [by apply within_lift|done]|].
    intros snap s1 E1. simpl in E1. eapply (within_bind _ _ _ (fun n => n = work s)); [by apply within_when; [|eapply within_mono; [by apply within_lift|]; simpl; lia]|].
    intros _ s2 E2. simpl in E2. do 2 (eapply within_bind; [apply within_emit|]; intros _ ?s ?E; simpl in *). apply within_ret. lia.
  - apply within_ret. lia.
Qed.

Lemma core_type_false m s : core_type m = false -> handle_core_message m s = PRet false s [].
Proof.
  unfold core_type, handle_core_message. cbv zeta. intros E.
  repeat match goal with F : _ || _ = false |- _ => apply orb_false_iff in F as [? ?] end.
  repeat match goal with F : _ = false |- _ => rewrite F; clear F end. done.
Qed.

(** a message that is a core message is not looked at further *)
Lemma core_false m s s' t : handle_core_message m s = PRet false s' t -> s' = s.
Proof.
  destruct (core_type m) eqn:E; [|by rewrite core_type_false by done; intros [= <- _]]. intros F. exfalso. revert F.
  unfold core_type in E. unfold handle_core_message. cbv zeta in *.
  repeat match goal with |- (if ?b then _ else _) _ = _ -> False => destruct b eqn:?; [first [apply then_true | apply allow_true; intros ? ?; try apply then_true]|] end.
  - destruct (m_map m). unfold mbind, P_bind, lift, emit, mret, P_ret. destruct (handle_mds_map _ _ _ _ _ _ _ _ _ s) as [x s1 t1| |]; done.
  - unfold mbind, P_bind, lift, emit, mret, P_ret, gets, pwhen. cbn [pafter map]. destruct (in_state _ s); cbn [pafter map]; [|done].
    unfold ask. by destruct (w_yes _ _).
  - repeat match goal with F : _ = false |- _ => rewrite F in E; clear F end. done.
Qed.

Lemma within_stale m s : within s (is_stale_message m) (fun n => n = work s).
Proof.
  unfold is_stale_message. apply within_gets. destruct (m_source_mds m) as [from|]; [|by apply within_ret].
  eapply (within_bind _ _ _ (fun n => n = work s)).
  - destruct (have_inst _ _); [|by apply within_ret]. apply within_keep; [stable|]. intros i s' _ E. by apply within_ret.
  - intros known s' E. repeat match goal with |- within _ (if ?b then _ else _) _ => destruct b end; try by apply within_ret.
    apply within_keep; [stable|]. intros i s'' _ E'. apply within_ret. by rewrite E'.
Qed.

(** with [retry] good for the fuel [n] *)
Definition retries (retry : G -> P bool) (n : nat) : Prop := forall m s,
  (work s + wm m + luck + 2 < n)%nat -> within s (retry m) (fun k => (k <= work s + wm m + 1)%nat).

Lemma within_finish_batch retry n ls s : retries retry n -> (work s + total ls + luck < n)%nat ->
  within s (finish_batch retry ls) (fun k => (k + length ls <= work s + total ls)%nat).
Proof.
  intros R. revert s. induction ls as [|c ls IH]; intros s Lt; simpl; [apply within_ret; lia|].
  unfold total in *. simpl in Lt.
  eapply (within_bind _ _ _ (fun k => (k + 1 <= work s + weight_ctx c)%nat)).
  - destruct c as [m|o]; simpl in *.
    + apply within_keep; [stable|]. intros _ s1 _ E1. eapply within_bind; [apply R; lia|].
      intros r s2 L2. simpl in L2. eapply within_mono; [apply within_lift; stable|]. simpl. lia.
    + destruct (complete_adds o) as [W Ad]. eapply within_mono; [by apply (within_adds _ (wo o - 1))|]. simpl. lia.
  - intros _ s1 L1. simpl in L1. apply within_keep; [apply queues_heartbeat|]. intros _ s2 _ E2.
    eapply within_mono; [apply IH; lia|]. simpl. lia.
Qed.

Lemma within_drain_finished retry n n' s : retries retry n -> (work s + luck < n)%nat -> (work s < n')%nat ->
  within s (drain_finished retry n') (fun k => (k <= work s)%nat).
Proof.
  intros R. revert s. induction n' as [|n' IH]; intros s Lt Lt'; [lia|]. simpl. apply within_gets.
  destruct (finished_queue s) as [|c ls] eqn:Q; [by apply within_ret|].
  assert (work s = work (set_finished [] s) + total (c :: ls))%nat as E by (unfold work; rewrite Q; cbn -[total]; change (total []) with 0%nat; lia).
  apply within_modify. eapply within_bind; [apply (within_finish_batch retry n); [done|lia]|].
  intros _ s2 L2. cbn beta in L2. cbn [length] in L2. eapply within_mono; [apply IH; lia|]. cbn beta. lia.
Qed.

Lemma within_drain_nolaggy n s : (work s < n)%nat -> within s (drain_nolaggy n) (fun k => (k <= work s)%nat).
Proof.
  revert s. induction n as [|n IH]; intros s Lt; [lia|]. simpl. apply within_gets.
  destruct (waiting_for_nolaggy s) as [|old rest] eqn:Q; [by apply within_ret|].
  apply within_keep; [apply queues_laggy|]. intros [] s1 E1 P1; [apply within_ret; lia|]. apply within_modify.
  assert (waiting_for_nolaggy s1 = old :: rest) as Q1 by (rewrite <- Q; exact (f_equal snd E1)).
  assert (work s = work (set_nolaggy rest s1) + S (wm old))%nat as E2 by (rewrite <- P1; unfold work; rewrite Q1; cbn -[total peers_total]; lia).
  eapply within_bind; [apply within_stale|]. intros stale s3 E3. simpl in E3.
  eapply (within_bind _ _ _ (fun k => (k + 1 <= work s)%nat)).
  - destruct stale; [eapply within_mono; [apply within_emit|]; simpl; lia|]. eapply within_bind; [apply within_emit|]. intros _ s4 E4. simpl in E4.
    apply within_then. eapply within_mono; [apply within_deferrable|]. simpl. lia.
  - intros _ s4 L4. simpl in L4. apply within_keep; [apply queues_heartbeat|]. intros _ s5 _ E5.
    eapply within_mono; [apply IH; lia|]. simpl. lia.
Qed.

Lemma within_take m s : within s (take m) (fun k => (k <= work s + wm m + 1)%nat).
Proof.
  unfold take. pose proof (within_core m s) as Wc. pose proof (core_false m s) as Fc. unfold within in *.
  unfold mbind at 1, P_bind at 1. destruct (handle_core_message m s) as [[] s1 t1| | |]; [|rewrite (Fc _ _ eq_refl) in *|done..].
  { cbn. lia. }
  match goal with |- match pafter _ ?p with _ => _ end => assert (within s (fun _ => p) (fun k => (k <= work s + wm m + 1)%nat)) as W; [|unfold within in W; by destruct p] end.
  change (within s (laggy ← lift (beacon_laggy bconf); if (laggy : bool) then lift (modify (fun s => set_nolaggy (waiting_for_nolaggy s ++ [m]) s)) ;; mret true
    else ok ← handle_deferrable_message m; if (ok : bool) then mret true else emit (Put m) ;; mret false) (fun k => (k <= work s + wm m + 1)%nat)).
  apply within_keep; [apply queues_laggy|]. intros [] s2 _ E2.
  - apply within_modify, within_ret. unfold work in *. cbn -[total peers_total]. rewrite sum_list_with_app. cbn -[total peers_total]. lia.
  - eapply within_bind; [apply within_deferrable|]. intros ok s3 L3. simpl in L3.
    destruct ok; [apply within_ret; lia|]. apply within_then. eapply within_mono; [apply within_emit|]. simpl. lia.
Qed.

(** *** The thrashing options *)

Lemma within_draw {X} (f : nat -> X) s : within s (draw f) (fun n => n = work s).
Proof. done. Qed.

(** the throws that are left *)
Lemma within_pick n me peers s k : (k < n)%nat -> nth (Z.to_nat (t_rand (reads s + k) mod Z.of_nat (length peers))) peers 0 <> me ->
  within s (pick_dest n me peers) (fun m => m = work s).
Proof.
  revert s k. induction n as [|n IH]; intros s k Lt Hk; [lia|]. cbn [pick_dest]. unfold within, draw. unfold mbind, P_bind.
  destruct (Z.eqb_spec (nth (Z.to_nat (t_rand (reads s) mod Z.of_nat (length peers))) peers 0) me) as [Eq|]; [|done].
  destruct k as [|k]; [by rewrite Nat.add_0_r in Hk|]. specialize (IH (set_reads (S (reads s)) s) k ltac:(lia)).
  assert (within (set_reads (S (reads s)) s) (pick_dest n me peers) (fun m => m = work s)) as W.
  { apply IH. cbn. by replace (S (reads s + k)) with (reads s + S k)%nat by lia. }
  unfold within in W. by destruct (pick_dest n me peers _).
Qed.

Lemma within_thrash_exports n i s : (luck <= n)%nat -> within s (thrash_exports n i) (fun k => k = work s).
Proof.
  intros Ln. revert s. induction i as [|i IH]; intros s; cbn [thrash_exports]; [done|]. do 3 apply within_gets.
  eapply within_bind; [apply within_draw|]. intros inodes s1 E1. simpl in E1.
  destruct (negb _ || _) eqn:Ec; [done|]. cbn [orb]. destruct (inodes <? 10); [done|]. apply orb_false_iff in Ec as [_ Hp]. apply Z.ltb_ge in Hp.
  eapply within_bind; [apply within_draw|]. intros [|d0 ls] s2 E2; simpl in E2; [eapply within_mono; [apply IH|]; simpl; lia|].
  eapply within_bind; [apply within_draw|]. intros r s3 E3. simpl in E3.
  eapply (within_bind _ _ _ (fun k => k = work s)); [|intros _ s4 E4; simpl in E4; eapply within_mono; [apply IH|]; simpl; lia].
  apply within_when; [lia|]. destruct (dice_fair (reads s3) (whoami s) (ordered_elems (get_mds_set (mdsmap s) STATE_ACTIVE))) as (k & Lk & Hk);
    [apply ordered_elems_nodup|lia|].
  eapply within_bind; [apply (within_pick n _ _ s3 k); [lia|exact Hk]|]. intros dest s4 E4. simpl in E4. eapply within_mono; [apply within_emit|]. simpl. lia.
Qed.

Lemma within_thrash_fragments i s : within s (thrash_fragments i) (fun k => k = work s).
Proof.
  revert s. induction i as [|i IH]; intros s; cbn [thrash_fragments]; [done|]. apply within_gets.
  eapply within_bind; [apply within_draw|]. intros fr s1 E1. simpl in E1. destruct (_ || _); [done|].
  eapply within_bind; [apply within_draw|]. intros [|d0 ls] s2 E2; simpl in E2; [eapply within_mono; [apply IH|]; simpl; lia|].
  eapply within_bind; [apply within_draw|]. intros r s3 E3. simpl in E3.
  eapply (within_bind _ _ _ (fun k => k = work s)); [|intros _ s4 E4; simpl in E4; eapply within_mono; [apply IH|]; simpl; lia].
  apply within_when; [lia|]. destruct (_ || _); (eapply within_mono; [apply within_emit|]); simpl; lia.
Qed.

Lemma within_housekeeping n s : (luck <= n)%nat -> within s (housekeeping n) (fun k => k = work s).
Proof.
  intros Ln. unfold housekeeping, shutdown_check. apply within_gets. eapply (within_bind _ _ _ (fun k => k = work s)).
  { destruct (in_state _ s); [by apply within_lift|by apply within_ret]. }
  intros isopen s1 E1. simpl in E1. do 2 apply within_gets. eapply (within_bind _ _ _ (fun k => k = work s)).
  { apply within_when; [done|]. apply within_keep; [done|]. intros num s2 _ E2.
    apply within_when; [congruence|]. eapply within_mono; [apply within_lift, queues_request|]. simpl. lia. }
  intros _ s2 E2. simpl in E2. eapply within_bind; [by apply within_thrash_exports|]. intros _ s3 E3. simpl in E3.
  eapply within_bind; [apply within_thrash_fragments|]. intros _ s4 E4. simpl in E4.
  apply within_gets. apply within_when; [lia|]. apply within_keep; [done|]. intros _ s5 _ E5.
  apply within_keep; [done|]. intros fin s6 _ E6. apply within_when; [lia|].
  eapply within_mono; [apply within_lift, queues_request|]. simpl. lia.
Qed.

Lemma dispatch_retries n : retries (_dispatch n) n.
Proof.
  induction n as [|n IH]; intros m s Lt; [lia|]. simpl. unfold dispatch_step.
  eapply within_bind; [apply within_emit|]. intros _ s1 E1. simpl in E1.
  eapply within_bind; [apply within_stale|]. intros stale s2 E2. simpl in E2. destruct stale.
  { apply within_then. eapply within_mono; [apply within_emit|]. simpl. lia. }
  eapply within_bind; [apply within_take|]. intros go s3 L3. simpl in L3. destruct go; cbn [negb];
    [|apply within_ret; lia]. apply within_gets. destruct (1 <? _); [apply within_ret; lia|].
  eapply (within_bind _ _ _ (fun k => (k <= work s3)%nat)).
  { unfold _advance_queues. eapply within_bind; [apply (within_drain_finished _ n); [done|lia|lia]|].
    intros _ s4 L4. simpl in L4. eapply within_mono; [apply within_drain_nolaggy; lia|]. simpl. lia. }
  intros _ s4 L4. simpl in L4. apply within_keep; [apply queues_laggy|]. intros [] s5 _ E5; [apply within_ret; lia|].
  apply within_then. eapply within_mono; [apply within_housekeeping; lia|]. simpl. lia.
Qed.


End Ends.

(** ** Where the order and the checks fall short *)

(** [p] disposes of [m] first of all, when it returns [true] *)
Definition first (m : G) (p : P bool) : Prop := forall s s' t, p s = PRet true s' t -> exists ds, disposed t = m :: ds.

Lemma first_emit (e : pev) m (k : P bool) : disposed [e] = [m] -> first m (emit e ;; k).
Proof.
  intros E s s' t. unfold mbind, P_bind, emit. destruct (k s) as [x s2 t2| | |]; simpl; [|done..]. intros [= -> -> <-].
  exists (disposed t2). change (e :: t2) with ([e] ++ t2). by rewrite disposed_app, E.
Qed.

Lemma first_give c m : first m (give c m ;; mret true).
Proof.
  intros s s' t. unfold give, mbind, P_bind, emit, lift. destruct (handle c m s) as [x s2 t2| |]; simpl; [|done..].
  intros [= -> <-]. by exists (disposed ((map Did t2) ++ [])).
Qed.

Lemma first_allow peers m (k : P bool) : first m k -> first m (allow peers m k).
Proof. intros F. unfold allow. destruct (m_peer_type m); [|done]. destruct (_ =? 0); [by apply first_emit|done]. Qed.

Lemma first_deferrable m : first m (handle_deferrable_message m).
Proof.
  unfold handle_deferrable_message.
  repeat match goal with |- first _ (if ?b then _ else _) => destruct b end;
    try (apply first_allow); try (apply first_give); [|by intros ? ? ?].
  unfold table_request. destruct (_ =? TABLE_ANCHOR); [by intros ? ? ?|]. destruct (_ =? TABLE_SNAP); [apply first_give|by intros ? ? ?].
Qed.

Definition laggy_now (s : mds) : bool := match (beacon_laggy bconf : D bool) s with Ret b _ _ => b | _ => true end.

(** A new message overtakes the deferred ones.  When the beacon is not laggy any more, a
    message that comes in is handled at once, before the messages deferred while it was laggy,
    among them older messages of the same peer. *)
Theorem deferred_overtaken n m s x s' t :
  is_stale_message m s = PRet false s [] -> core_type m = false -> deferrable_type m = true -> laggy_now s = false ->
  _dispatch (S n) m s = PRet x s' t -> exists ds, disposed t = m :: ds.
Proof.
  intros St Co De La. cbn [_dispatch]. unfold dispatch_step, take.
  unfold mbind at 1, P_bind at 1, emit at 1. unfold mbind at 1, P_bind at 1. rewrite St. cbn [pafter].
  do 2 (unfold mbind at 1, P_bind at 1). rewrite (core_type_false m s Co). unfold mbind at 1, P_bind at 1.
  unfold lift at 1. unfold laggy_now in La. destruct (beacon_laggy bconf s) as [[] s1 t1| |]; [done| |done..].
  unfold mbind at 1, P_bind at 1. pose proof (first_deferrable m s1) as F. pose proof (deferrable_false m s1) as Fa.
  destruct (handle_deferrable_message m s1) as [[] s2 t2| | |]; [| |done..].
  2: { rewrite (Fa _ _ eq_refl) in De. done. }
  destruct (F s2 t2 eq_refl) as [ds Eds]. cbn [negb pafter mret P_ret].
  intros E. match type of E with pafter _ (pafter _ (pafter _ ?o)) = _ => destruct o as [x3 s3 t3| | |] end;
    [|cbn in E; discriminate..].
  injection E as _ _ <-. exists (ds ++ disposed t3).
  change (Entered m :: ?l) with ([Entered m] ++ l). rewrite !disposed_app, disposed_did, Eds. simpl. by rewrite app_nil_r.
Qed.

(** A message from an unknown rank kills the daemon.  [is_stale_message] looks a cache
    expiry of a rank that is not up in the map up again before it drops it, and [get_inst] asserts
    that the rank is up. *)
Theorem cache_expire_aborts n m s from :
  m_source_mds m = Some from -> m_type m = MSG_MDS_CACHEEXPIRE -> MSG_MDS_CACHEEXPIRE <> CEPH_MSG_MDS_MAP ->
  have_inst (mdsmap s) from = false -> get_inst (mdsmap s) from = Abort ->
  _dispatch (S n) m s = PDied [Entered m].
Proof.
  intros So Ty Ne No Ab. cbn [_dispatch]. unfold dispatch_step.
  unfold mbind at 1, P_bind at 1, emit at 1. unfold mbind at 1, P_bind at 1.
  assert (is_stale_message m s = PDied []) as ->; [|done].
  unfold is_stale_message, lift, gets, mbind, P_bind, mret, P_ret. rewrite So. cbn [map pafter app].
  rewrite No. cbn [map pafter app]. rewrite Ty, (proj2 (Z.eqb_neq _ _) Ne), Z.eqb_refl.
  unfold lift_res. rewrite Ab. done.
Qed.

End Dispatch.
Arguments PRet {T CS K M A G X}.
Arguments PDied {T CS K M A G X}.
Arguments PExeced {T CS K M A G X}.
Arguments PSpin {T CS K M A G X}.

(** ** An example *)

Definition types_ex : MsgTypes := {|
  CEPH_MSG_MON_MAP := 4; CEPH_MSG_MDS_MAP := 21; MSG_MON_COMMAND := 50; MSG_COMMAND := 97; CEPH_MSG_OSD_MAP := 41;
  MDS_PORT_CACHE := 512; MDS_PORT_MIGRATOR := 768;
  CEPH_MSG_CLIENT_SESSION := 22; CEPH_MSG_CLIENT_RECONNECT := 23; CEPH_MSG_CLIENT_REQUEST := 24;
  MSG_MDS_SLAVE_REQUEST := 258; MSG_MDS_HEARTBEAT := 257; MSG_MDS_TABLE_REQUEST := 259; MSG_MDS_LOCK := 260;
  MSG_MDS_INODEFILECAPS := 261; CEPH_MSG_CLIENT_CAPS := 784; CEPH_MSG_CLIENT_CAPRELEASE := 785; CEPH_MSG_CLIENT_LEASE := 786;
  MSG_MDS_CACHEEXPIRE := 520; MSG_MDS_DIRUPDATE := 521; MSG_MDS_EXPORTDIRDISCOVER := 769;
  CEPH_ENTITY_TYPE_MON := 1; CEPH_ENTITY_TYPE_MDS := 2; CEPH_ENTITY_TYPE_OSD := 4; CEPH_ENTITY_TYPE_CLIENT := 8;
  TABLE_ANCHOR := 0; TABLE_SNAP := 1
|}.

Record msg_ex := mk_msg_ex { mx_type : Z; mx_from_mds : option Z; mx_tid : Z }.
Definition message_ops_ex : MessageOps msg_ex map_ex Z := {|
  m_type := mx_type; m_source_mds := mx_from_mds; m_source_client := fun m => bool_decide (mx_from_mds m = None);
  m_source_inst := fun _ => 17; m_peer_type := fun m => Some (if bool_decide (mx_from_mds m = None) then 8 else 2);
  m_map := fun _ => (0, mk_map_ex 0 (-1) STATE_NULL); m_table := fun _ => 1; m_table_op := fun _ => 1
|}.
Definition dice_ex : Dice := {|
  t_rand := Z.of_nat; t_pick := fun _ => []; t_num_inodes := fun _ => 0; t_num_fragmenting := fun _ => 0 |}.

#[local] Existing Instance states_ex.
#[local] Existing Instance map_ops_ex.
#[local] Existing Instance world_ex.
#[local] Existing Instance types_ex.
#[local] Existing Instance message_ops_ex.
#[local] Existing Instance dice_ex.

(** a context with the number [k] queues the one before it; a message queues the context 2 *)
Abbreviation D_ex := (D Z unit (ctx msg_ex nat) map_ex Z msg_ex).
Definition complete_ex (k : nat) : D_ex unit := match k with O => skip | S k => queue_waiter (Other k) end.
Definition handle_ex (c : component) (m : msg_ex) : D_ex unit := queue_waiter (Other 2%nat).
Definition old_ex : msg_ex := mk_msg_ex 24 None 1.
Definition new_ex : msg_ex := mk_msg_ex 24 None 2.
(** a daemon that deferred a request while it was laggy *)
Definition deferred_ex : mds Z unit (ctx msg_ex nat) map_ex msg_ex :=
  set_hb true (set_nolaggy [old_ex] (mds_new (mk_map_ex 0 (-1) STATE_NULL) 0 (-1) tt)).
Abbreviation dispatch_ex :=
  (_dispatch (M := map_ex) tt (fun _ _ => tt) conf_ex dconf_ex 4000 EmptyString (mk_thrash_conf 0 0) handle_ex complete_ex).

Example dispatch_ex_order :
  match dispatch_ex 20 new_ex deferred_ex with
  | PRet true s' t => disposed t = [new_ex; old_ex] /\ waiting_for_nolaggy s' = []
  | _ => False
  end.
Proof. vm_compute. split; reflexivity. Qed.

Lemma complete_ex_keeps o : stable waiting_for_nolaggy (complete_ex o).
Proof. destruct o; unfold complete_ex, queue_waiter; stable. Qed.
Lemma handle_ex_keeps c m : stable waiting_for_nolaggy (handle_ex c m).
Proof. unfold handle_ex, queue_waiter. stable. Qed.


Lemma deferred_overtaken_witness :
  exists r s' t ds, dispatch_ex 20 new_ex deferred_ex = PRet r s' t /\ disposed t = new_ex :: ds.
Proof.
  destruct (dispatch_ex 20 new_ex deferred_ex) as [r s' t| | |] eqn:E; [|exfalso; vm_compute in E; discriminate..].
  exists r, s', t.
  destruct (deferred_overtaken tt (fun _ _ => tt) conf_ex dconf_ex 4000 EmptyString (mk_thrash_conf 0 0) handle_ex complete_ex
    19 new_ex deferred_ex r s' t) as (ds & Eds); [reflexivity|vm_compute; reflexivity|vm_compute; reflexivity|vm_compute; reflexivity|exact E|].
  exists ds. split; [reflexivity|exact Eds].
Defined.

Lemma adds_waiter (k b : nat) : (S k <= b)%nat -> adds (fun _ => 3%nat) S (queue_waiter (Other k) : D_ex unit) b.
Proof.
  intros Le s x s' t [= _ <- _]. unfold work. cbn -[total peers_total]. rewrite total_app. unfold total at 2. cbn -[total peers_total]. lia.
Qed.

(** the dice count up, so two throws turn up two different ranks *)
Lemma dice_ex_fair r me peers : NoDup peers -> (2 <= length peers)%nat ->
  exists k, (k < 2)%nat /\ nth (Z.to_nat (t_rand (r + k) mod Z.of_nat (length peers))) peers 0 <> me.
Proof.
  intros Nd Le. cbn [t_rand dice_ex]. set (n := Z.of_nat (length peers)). set (at_ := fun k : nat => Z.to_nat (Z.of_nat (r + k) mod n)).
  assert (2 <= n) as Hn by (unfold n; lia). assert (forall k, 0 <= k mod n < n) as Hm by (intros k; apply Z.mod_pos_bound; lia).
  assert (forall k, (at_ k < length peers)%nat) as Hb by (intros k; unfold at_; pose proof (Hm (Z.of_nat (r + k))); unfold n in *; lia).
  destruct (decide (nth (at_ 0%nat) peers 0 = me)) as [E0|]; [|exists 0%nat; split; [lia|done]].
  exists 1%nat. split; [lia|]. rewrite <- E0. intros E1. apply (proj1 (List.NoDup_nth peers 0) (proj1 (NoDup_ListNoDup _) Nd)) in E1; [|apply Hb|apply Hb].
  unfold at_ in E1. assert (Z.of_nat (r + 1) mod n = Z.of_nat (r + 0) mod n) as E2.
  { pose proof (Hm (Z.of_nat (r + 1))). pose proof (Hm (Z.of_nat (r + 0))). lia. }
  replace (Z.of_nat (r + 1)) with (Z.of_nat (r + 0) + 1) in E2 by lia.
  pose proof (Z.div_mod (Z.of_nat (r + 0) + 1) n ltac:(lia)) as D1. pose proof (Z.div_mod (Z.of_nat (r + 0)) n ltac:(lia)) as D2.
  revert D1 D2. rewrite E2. generalize ((Z.of_nat (r + 0) + 1) / n), (Z.of_nat (r + 0) / n), (Z.of_nat (r + 0) mod n). clear -Hn.
  intros q1 q2 m D1 D2. assert (n * (q1 - q2) = 1) by lia. destruct (Z_le_gt_dec (q1 - q2) 0); nia.
Qed.


Lemma cache_expire_aborts_witness :
  dispatch_ex 20 (mk_msg_ex 520 (Some 3) 0) deferred_ex = PDied [Entered (mk_msg_ex 520 (Some 3) 0)].
Proof.
  apply (cache_expire_aborts tt (fun _ _ => tt) conf_ex dconf_ex 4000 EmptyString (mk_thrash_conf 0 0) handle_ex complete_ex
    19 (mk_msg_ex 520 (Some 3) 0) deferred_ex 3); [reflexivity|reflexivity|discriminate|reflexivity|reflexivity].
Defined.
