(* ===== verification/Sessions.v ===== *)
(** * Sending messages and the connections of clients (MDS.cc)

    [send_message_mds] and [forward_message_mds], which send a peer the map of the daemon before
    the first message that follows it; the messages for clients, which wait in the session until
    a connection is accepted; the messenger's callbacks on connections.  Theorems: no message
    overtakes the map it was sent under, and a client gets its messages in the order they
    were sent. *)

From stdpp Require Import base tactics numbers list gmap strings sorting.
From Stdlib Require Import ZArith Lia.
From S2P Require Import Prelude Stats Beacon Daemon DaemonProtocol Dispatch.
Open Scope Z_scope.
Open Scope list_scope.

(** ** Messages between daemons *)

Class RequestOps (G : Type) := { m_tid : G -> Z; m_num_fwd : G -> Z }.

Inductive sent (I G : Type) :=
| SentMap (rank : Z) (to : I) (epoch : Z)           (* MMDSMap *)
| SentMsg (rank : Z) (to : I) (m : G)
| SentForward (to : I) (tid dest num_fwd : Z) (client_must_resend : bool)
| Dropped (m : G).                                  (* m->put() *)
Arguments SentMap {I G}.
Arguments SentMsg {I G}.
Arguments SentForward {I G}.
Arguments Dropped {I G}.

Section Peers.
Context {T CS C M A I G : Type}.
Context `{BeaconTime T} `{DaemonStates} `{MDSMapOps M CS A I} `{World T} `{MsgTypes} `{MessageOps G M I} `{RequestOps G}.
Abbreviation mds := (mds T CS C M G).
Implicit Types s : mds.

Definition peer_epoch s (r : Z) : Z := default 0 (peer_mdsmap_epoch s !! r).

(** send the map first? *)
Definition send_map_first (to : Z) s : res (mds * list (sent I G)) :=
  let epoch := get_epoch (mdsmap s) in
  if peer_epoch s to <? epoch then
    i ← get_inst (mdsmap s) to;
    Ok (set_peer_epoch (<[to := epoch]> (peer_mdsmap_epoch s)) s, [SentMap to i epoch])
  else Ok (s, []).

Definition send_message_mds (m : G) (to : Z) s : res (mds * list (sent I G)) :=
  if negb (is_up (mdsmap s) to) then Ok (s, [Dropped m])
  else
    '(s, t) ← (if negb (to =? whoami s) then send_map_first to s else Ok (s, []));
    i ← get_inst (mdsmap s) to;
    Ok (s, t ++ [SentMsg to i m]).

Definition forward_message_mds (m : G) (to : Z) s : res (mds * list (sent I G)) :=
  if to =? whoami s then Abort
  else if (m_type m =? CEPH_MSG_CLIENT_REQUEST) && m_source_client m then
    Ok (s, [SentForward (m_source_inst m) (m_tid m) to (m_num_fwd m + 1) true; Dropped m])
  else if negb ((m_type m =? MSG_MDS_DIRUPDATE) || (m_type m =? MSG_MDS_EXPORTDIRDISCOVER)) then Abort
  else
    '(s, t) ← send_map_first to s;
    i ← get_inst (mdsmap s) to;
    Ok (s, t ++ [SentMsg to i m]).

(** ** The map goes first *)

Context (compat_default : CS) (compat_merge : CS -> CS -> CS) (bconf : beacon_conf T) (conf : mds_conf).
Context (gid : Z) (name : string).

(** What was sent, under which map and as which rank, and the maps peers sent. *)
Inductive hev :=
| HSent (epoch me : Z) (e : sent I G)
| HGot (rank epoch : Z).

Definition record s (t : list (sent I G)) : list hev := map (HSent (get_epoch (mdsmap s)) (whoami s)) t.

Inductive pstep : mds * list hev -> mds * list hev -> Prop :=
| ps_send m to s s' t h : send_message_mds m to s = Ok (s', t) -> pstep (s, h) (s', h ++ record s t)
| ps_forward m to s s' t h : forward_message_mds m to s = Ok (s', t) -> pstep (s, h) (s', h ++ record s t)
| ps_map src epoch newmap s s' t h :
    handle_mds_map compat_default compat_merge bconf conf gid name src epoch newmap s = Ret tt s' t ->
    pstep (s, h) (s', h ++ match src with Some r => [HGot r epoch] | None => [] end)
| ps_other s s' h : peer_mdsmap_epoch s' = peer_mdsmap_epoch s -> pstep (s, h) (s', h).

Inductive preach : mds * list hev -> Prop :=
| pr_start s : peer_mdsmap_epoch s = ∅ -> preach (s, [])
| pr_step x y : preach x -> pstep x y -> preach y.

(** in [h] the rank [r] was sent, or has itself sent, a map of the epoch [e] or later *)
Definition told (h : list hev) (r e : Z) : Prop := exists e', e <= e' /\
  (HGot r e' ∈ h \/ exists c me i, HSent c me (SentMap r i e') ∈ h).
Definition known (x : mds * list hev) : Prop := forall r, 0 < peer_epoch x.1 r -> told x.2 r (peer_epoch x.1 r).

Lemma told_app h h' r e : told h r e -> told (h ++ h') r e.
Proof. intros (e' & Le & [?|(c & me & i & ?)]); exists e'; (split; [done|]); [left|right; exists c, me, i]; apply elem_of_app; by left. Qed.
Lemma told_le h r e e' : told h r e -> e' <= e -> told h r e'.
Proof. intros (e2 & Le & ?) ?. exists e2. split; [lia|done]. Qed.

Lemma known_eq s s' h h' : known (s, h) -> peer_mdsmap_epoch s' = peer_mdsmap_epoch s -> known (s', h ++ h').
Proof. intros Kn E r. unfold peer_epoch. simpl. rewrite E. intros Pos. by apply told_app, Kn. Qed.

Lemma map_first_spec to s s' t h : known (s, h) -> send_map_first to s = Ok (s', t) ->
  (mdsmap s' = mdsmap s /\ whoami s' = whoami s) /\ known (s', h ++ record s t) /\
  (forall e, e ∈ t -> exists i k, e = SentMap to i k) /\
  (0 < get_epoch (mdsmap s) -> told (h ++ record s t) to (get_epoch (mdsmap s))).
Proof.
  intros Kn. unfold send_map_first. destruct (Z.ltb_spec (peer_epoch s to) (get_epoch (mdsmap s))) as [Lt|Ge].
  - destruct (get_inst (mdsmap s) to) as [i|]; [|done]. intros [= <- <-].
    assert (told (h ++ record s [SentMap to i (get_epoch (mdsmap s))]) to (get_epoch (mdsmap s))) as To.
    { exists (get_epoch (mdsmap s)). split; [lia|right]. do 3 eexists. apply elem_of_app. right. apply list_elem_of_here. }
    split; [done|]. split; [|split; [|done]].
    + intros r. unfold peer_epoch. simpl. destruct (decide (r = to)) as [-> |Ne].
      * rewrite lookup_insert_eq. done.
      * rewrite lookup_insert_ne by done. intros Pos. by apply told_app, Kn.
    + intros e ->%list_elem_of_singleton. eauto.
  - intros [= <- <-]. split; [done|]. split; [by apply known_eq with s|]. split; [by intros ? ?%not_elem_of_nil|].
    intros Pos. eapply told_le; [apply told_app, (Kn to); simpl; lia|simpl; lia].
Qed.

(** every message went out after its map *)
Definition orderly (h : list hev) : Prop := forall h1 h2 c me r i m,
  h = h1 ++ HSent c me (SentMsg r i m) :: h2 -> r <> me -> 0 < c -> told h1 r c.

Lemma orderly_snoc h x : orderly h ->
  (forall c me r i m, x = HSent c me (SentMsg r i m) -> r <> me -> 0 < c -> told h r c) -> orderly (h ++ [x]).
Proof.
  intros Or Hx h1 h2 c me r i m E Ne Pos. destruct (decide (h2 = [])) as [-> |N2].
  - apply app_inj_tail in E as [<- E]. eauto.
  - destruct (exists_last N2) as (h2' & y & ->). rewrite app_comm_cons, app_assoc in E. apply app_inj_tail in E as [-> _].
    eapply Or; [done|done|done].
Qed.

Lemma orderly_app h h' : orderly h -> (forall c me r i m, HSent c me (SentMsg r i m) ∉ h') -> orderly (h ++ h').
Proof.
  intros Or. revert h Or. induction h' as [|x h' IH]; intros h Or N; [by rewrite app_nil_r|].
  change (x :: h') with ([x] ++ h'). rewrite app_assoc. apply IH.
  - apply orderly_snoc; [done|]. intros c me r i m ->. exfalso. eapply N, list_elem_of_here.
  - intros c me r i m Hin. eapply N. right. exact Hin.
Qed.

(** the map if need be, then the message *)
Lemma send_orderly to i m s s1 t h : known (s, h) -> orderly h ->
  (send_map_first to s = Ok (s1, t) \/ to = whoami s /\ (s1, t) = (s, [])) ->
  known (s1, h ++ record s (t ++ [SentMsg to i m])) /\ orderly (h ++ record s (t ++ [SentMsg to i m])).
Proof.
  intros Kn Or Hs. unfold record. rewrite map_app, app_assoc. fold (record s t). simpl.
  assert (known (s1, h ++ record s t) /\ orderly (h ++ record s t) /\
    (to <> whoami s -> 0 < get_epoch (mdsmap s) -> told (h ++ record s t) to (get_epoch (mdsmap s)))) as (Kn1 & Or1 & To).
  { destruct Hs as [Hs|[-> [= -> ->]]]; [|simpl; rewrite app_nil_r; done].
    destruct (map_first_spec to s s1 t h Kn Hs) as (_ & Kn1 & Ms & To). split; [done|]. split; [|auto].
    apply orderly_app; [done|]. intros c me r j k Hin. apply list_elem_of_fmap in Hin as (e & [= _ _ <-] & He).
    by destruct (Ms _ He) as (? & ? & ?). }
  split; [by apply known_eq with s1|]. apply orderly_snoc; [done|]. intros c me r j k [= <- <- <- _ _]. auto.
Qed.

Lemma stable_peers_kick e l : stable peer_mdsmap_epoch (kick_map_waiters e l : D T CS C M A G unit).
Proof. induction l as [|[? ?] l IH]; simpl; stable. Qed.

Lemma map_peers src epoch newmap s s' t :
  handle_mds_map compat_default compat_merge bconf conf gid name src epoch newmap s = Ret tt s' t ->
  exists s1 t1, (note_peer_epoch src epoch : D T CS C M A G unit) s = Ret tt s1 t1 /\ peer_mdsmap_epoch s' = peer_mdsmap_epoch s1.
Proof.
  unfold handle_mds_map. unfold mbind at 1, D_bind at 1.
  destruct ((note_peer_epoch src epoch : D T CS C M A G unit) s) as [[] s1 t1| |]; [|done..]. intros E. exists s1, t1. split; [done|].
  match type of E with after _ (?p s1) = _ => assert (stable peer_mdsmap_epoch p) as St end.
  { pose proof stable_peers_kick.
    unfold identify, not_in_map, digest_map, rename, resolve_phase, rejoin_phase, active_phase, failed_phase, failed_peer,
      stopped_phase, map_waiters, map_barrier, beacon_notify_mdsmap, handle_mds_recovery, handle_mds_failure,
      rejoin_joint_start, set_osd_epoch_barrier, state_change, recovery_done, enter_state, active_start, replay_start,
      resolve_start, reconnect_start, rejoin_start, clientreplay_start, boot_create, stopping_start, reopen_log,
      boot_start, boot_run, starting_done, replay_done, standby_replay_restart, wait_for_map, reread_head,
      finish_contexts, queue_one_replay, queue_waiters, queue_waiter, calc_recovery_set, respawn, suicide,
      request_state, beacon_send, set_want_state, with_beacon. stable. }
  specialize (St s1). match type of E with after _ ?o = _ => destruct o end; [|done..]. injection E as _ <- _. exact St.
Qed.

Lemma known_got src epoch newmap s s' t h : known (s, h) ->
  handle_mds_map compat_default compat_merge bconf conf gid name src epoch newmap s = Ret tt s' t ->
  known (s', h ++ match src with Some r => [HGot r epoch] | None => [] end).
Proof.
  intros Kn E. destruct (map_peers _ _ _ _ _ _ E) as (s1 & t1 & N & Es). destruct src as [r0|].
  - unfold note_peer_epoch, mbind, D_bind, gets, when in N. destruct (Z.ltb_spec (default 0 (peer_mdsmap_epoch s !! r0)) epoch).
    + injection N as <- _. simpl in Es. intros r. unfold peer_epoch. simpl. rewrite Es.
      destruct (decide (r = r0)) as [-> |Ne]; [rewrite lookup_insert_eq|rewrite lookup_insert_ne by done];
        simpl; [|intros Pos; by apply told_app, Kn].
      intros _. exists epoch. split; [lia|left]. apply elem_of_app. right. apply list_elem_of_here.
    + injection N as <- _. by apply known_eq with s.
  - injection N as <- _. by apply known_eq with s.
Qed.

Lemma reach_orderly x : preach x -> known x /\ orderly x.2.
Proof.
  induction 1 as [s E|x y R [Kn Or] St].
  - split; [|by intros [|??]]. intros r. unfold peer_epoch. simpl. rewrite E, lookup_empty. simpl. lia.
  - destruct St as [m to s s' t h E|m to s s' t h E|src epoch newmap s s' t h E|s s' h E]; simpl in *.
    + unfold send_message_mds in E. destruct (is_up _ _); simpl in E.
      * destruct (Z.eqb_spec to (whoami s)) as [Me|Ne]; simpl in E.
        -- destruct (get_inst (mdsmap s) to) as [i|]; [|done]. injection E as <- <-.
           apply (send_orderly to i m s s [] h); auto.
        -- destruct (send_map_first to s) as [[s1 t1]|] eqn:F; [|done]. simpl in E.
           destruct (get_inst (mdsmap s1) to); [|done]. injection E as <- <-. apply send_orderly; auto.
      * injection E as <- <-. split; [by apply known_eq with s|]. apply orderly_snoc; [done|]. by intros.
    + unfold forward_message_mds in E. destruct (Z.eqb_spec to (whoami s)) as [|Ne]; [done|]. destruct (_ && _).
      * injection E as <- <-. split; [by apply known_eq with s|]. apply orderly_app; [done|]. intros. set_solver.
      * destruct (negb _); [done|]. destruct (send_map_first to s) as [[s1 t1]|] eqn:F; [|done]. simpl in E.
        destruct (get_inst (mdsmap s1) to); [|done]. injection E as <- <-. apply send_orderly; auto.
    + split; [by eapply known_got|]. apply orderly_app; [done|]. intros. destruct src; set_solver.
    + split; [|done]. intros r. unfold peer_epoch. simpl. rewrite E. apply Kn.
Qed.

(** C14: no message overtakes its map.  Through any sequence of sends, forwards and new maps,
    whenever a message goes to another rank under a map of the epoch [c], that rank has
    before been sent a map of that epoch or a later one, or has itself sent one. *)
Theorem map_before_message x h1 h2 c me r i m : preach x ->
  x.2 = h1 ++ HSent c me (SentMsg r i m) :: h2 -> r <> me -> 0 < c -> told h1 r c.
Proof. intros R. destruct (reach_orderly x R) as [_ Or]. apply Or. Qed.

End Peers.

(** ** Clients *)

(** What an authorizer of the class of peers [true] (the cluster) or [false] (the services)
    says: not valid, or the global id, whether all is allowed, and the string of caps if it decodes. *)
Class AuthOps (Au CA : Type) := {
  has_handler : bool -> Z -> bool;
  verify_authorizer : bool -> Z -> Au -> option (Z * bool * option string);
  caps_new : CA;
  set_allow_all : CA -> CA;
  caps_parse : string -> CA -> CA
}.

Section Clients.
Context {G Au CA : Type} `{MsgTypes} `{AuthOps Au CA}.
Context (new_closed : bool).     (* whether a new Session is closed *)

Record session := mk_session {
  s_connection : option Z;
  preopen_out_queue : list G;
  push_seq : Z;
  s_closed : bool;
  auth_caps : CA
}.

(** Sessions by address, the session map by entity name, and the session each connection carries. *)
Record clients := mk_clients {
  heap : gmap Z session;
  sessionmap_ : gmap (Z * Z) Z;
  privs : gmap Z Z;
  next_addr : Z
}.
Definition set_session (a : Z) (x : session) (cs : clients) : clients :=
  mk_clients (<[a := x]> (heap cs)) (sessionmap_ cs) (privs cs) (next_addr cs).
Definition set_priv (con : Z) (a : option Z) (cs : clients) : clients :=
  mk_clients (heap cs) (sessionmap_ cs)
    (match a with Some a => <[con := a]> (privs cs) | None => delete con (privs cs) end) (next_addr cs).

Inductive cev := ConSend (con a : Z) (m : G) | ConMarkDown (con : Z) | Leaked (m : G).

Definition send_message_client (m : G) (a : Z) (x : session) (cs : clients) : clients * list cev :=
  match s_connection x with
  | Some con => (cs, [ConSend con a m])
  | None =>
      (set_session a (mk_session None (preopen_out_queue x ++ [m]) (push_seq x) (s_closed x) (auth_caps x)) cs, [])
  end.

(** the version that counts, on the session at [a] *)
Definition send_message_client_counted (m : G) (a : Z) (x : session) (cs : clients) : clients * list cev :=
  let x := mk_session (s_connection x) (preopen_out_queue x) (push_seq x + 1) (s_closed x) (auth_caps x) in
  send_message_client m a x (set_session a x cs).

Definition counted_by_client (m : G) (client : Z) (cs : clients) : clients * list cev :=
  match sessionmap_ cs !! (CEPH_ENTITY_TYPE_CLIENT, client) ≫= (fun a => x ← heap cs !! a; Some (a, x)) with
  | Some (a, x) => send_message_client_counted m a x cs
  | None => (cs, [Leaked m])
  end.

Definition counted_by_connection (m : G) (con : Z) (cs : clients) : clients * list cev :=
  match privs cs !! con ≫= (fun a => x ← heap cs !! a; Some (a, x)) with
  | Some (a, x) => send_message_client_counted m a x cs
  | None => (cs, [Leaked m])
  end.

(** [want_dne]: the daemon wants [STATE_DNE] *)
Definition ms_handle_reset (want_dne : bool) (peer_type con : Z) (cs : clients) : clients * list cev :=
  if negb (peer_type =? CEPH_ENTITY_TYPE_CLIENT) then (cs, [])
  else if want_dne then (cs, [])
  else match privs cs !! con ≫= (fun a => heap cs !! a) with
       | Some x => if s_closed x then (set_priv con None cs, [ConMarkDown con]) else (cs, [])
       | None => (cs, [ConMarkDown con])
       end.

Definition ms_handle_remote_reset (want_dne : bool) (peer_type con : Z) (cs : clients) : clients * list cev :=
  if negb (peer_type =? CEPH_ENTITY_TYPE_CLIENT) then (cs, [])
  else if want_dne then (cs, [])
  else match privs cs !! con ≫= (fun a => heap cs !! a) with
       | Some x => if s_closed x then (set_priv con None cs, [ConMarkDown con]) else (cs, [])
       | None => (cs, [])
       end.

(** the session of the name, or a new one on the connection; its address *)
Definition wire_session (n : Z * Z) (con : Z) (cs : clients) : Z * session * clients :=
  match sessionmap_ cs !! n ≫= (fun a => x ← heap cs !! a; Some (a, x)) with
  | Some (a, x) => (a, x, set_priv con (Some a) cs)
  | None =>
      let a := next_addr cs in
      let x := mk_session (Some con) [] 0 new_closed caps_new in
      (a, x, set_priv con (Some a) (mk_clients (<[a := x]> (heap cs)) (sessionmap_ cs) (privs cs) (a + 1)))
  end.

(** The answer is whether a decision was made, and the value of [is_valid] if it was set. *)
Definition ms_verify_authorizer (want_dne : bool) (con con_type peer_type protocol : Z) (data : Au) (cs : clients)
  : bool * option bool * clients :=
  if want_dne then (false, None, cs)
  else
    let cluster := peer_type =? CEPH_ENTITY_TYPE_MDS in
    if negb (has_handler cluster protocol) then (true, Some false, cs)
    else match verify_authorizer cluster protocol data with
         | None => (true, Some false, cs)
         | Some (global_id, allow_all, caps) =>
             let '(a, x, cs) := wire_session (con_type, global_id) con cs in
             let ca := if allow_all then set_allow_all (auth_caps x) else auth_caps x in
             let ca := match caps with Some str => caps_parse str ca | None => ca end in
             (true, Some true,
              set_session a (mk_session (s_connection x) (preopen_out_queue x) (push_seq x) (s_closed x) ca) cs)
         end.

(** the loop over [preopen_out_queue] *)
Fixpoint flush_preopen (con a : Z) (q : list G) : list cev :=
  match q with
  | [] => []
  | m :: q => ConSend con a m :: flush_preopen con a q
  end.

Definition ms_handle_accept (con : Z) (cs : clients) : clients * list cev :=
  match privs cs !! con ≫= (fun a => x ← heap cs !! a; Some (a, x)) with
  | Some (a, x) =>
      if bool_decide (s_connection x = Some con) then (cs, [])
      else (set_session a (mk_session (Some con) [] (push_seq x) (s_closed x) (auth_caps x)) cs,
            flush_preopen con a (preopen_out_queue x))
  | None => (cs, [])
  end.

(** ** A client gets its messages in order *)

(** what was sent to the session at [a], and what its connections carried *)
Definition sent_to (a : Z) (log : list (Z * G)) : list G := (filter (fun p => p.1 = a) log).*2.
Definition delivered (a : Z) (t : list cev) : list G :=
  omap (fun e => match e with ConSend _ a' m => if decide (a' = a) then Some m else None | _ => None end) t.

Definition target (k : option Z) (m : G) (cs : clients) : list (Z * G) :=
  match k ≫= (fun a => x ← heap cs !! a; Some (a, x)) with Some (a, _) => [(a, m)] | None => [] end.

Inductive cop :=
| CSend (m : G) (a : Z) | CCounted (m : G) (a : Z) | CByClient (m : G) (client : Z) | CByConnection (m : G) (con : Z)
| CReset (want_dne : bool) (peer_type con : Z) | CRemoteReset (want_dne : bool) (peer_type con : Z)
| CVerify (want_dne : bool) (con con_type peer_type protocol : Z) (data : Au) | CAccept (con : Z).

(** an operation, and the messages it sends to sessions *)
Definition run_cop (op : cop) (cs : clients) : clients * list cev :=
  match op with
  | CSend m a => match heap cs !! a with Some x => send_message_client m a x cs | None => (cs, []) end
  | CCounted m a => match heap cs !! a with Some x => send_message_client_counted m a x cs | None => (cs, []) end
  | CByClient m client => counted_by_client m client cs
  | CByConnection m con => counted_by_connection m con cs
  | CReset w p con => ms_handle_reset w p con cs
  | CRemoteReset w p con => ms_handle_remote_reset w p con cs
  | CVerify w con ct pt pr data => ((ms_verify_authorizer w con ct pt pr data cs).2, [])
  | CAccept con => ms_handle_accept con cs
  end.
Definition sends (op : cop) (cs : clients) : list (Z * G) :=
  match op with
  | CSend m a | CCounted m a => target (Some a) m cs
  | CByClient m client => target (sessionmap_ cs !! (CEPH_ENTITY_TYPE_CLIENT, client)) m cs
  | CByConnection m con => target (privs cs !! con) m cs
  | _ => []
  end.

Inductive creach : clients -> list (Z * G) -> list cev -> Prop :=
| cr_start cs : (forall a x, heap cs !! a = Some x -> preopen_out_queue x = [] /\ a < next_addr cs) -> creach cs [] []
| cr_step op cs log t : creach cs log t -> creach (run_cop op cs).1 (log ++ sends op cs) (t ++ (run_cop op cs).2).

Definition stream (cs : clients) (log : list (Z * G)) (t : list cev) : Prop :=
  (forall a x, heap cs !! a = Some x ->
     a < next_addr cs /\ sent_to a log = delivered a t ++ preopen_out_queue x /\
     (s_connection x <> None -> preopen_out_queue x = [])) /\
  (forall a, next_addr cs <= a -> sent_to a log = [] /\ delivered a t = []).

Lemma delivered_app a t t' : delivered a (t ++ t') = delivered a t ++ delivered a t'.
Proof. apply omap_app. Qed.
Lemma sent_to_app a l l' : sent_to a (l ++ l') = sent_to a l ++ sent_to a l'.
Proof. unfold sent_to. by rewrite filter_app, fmap_app. Qed.

Lemma delivered_one con a m a' : delivered a' [ConSend con a m] = if decide (a = a') then [m] else [].
Proof. cbn. by destruct (decide (a = a')). Qed.

Lemma delivered_flush con a a' q : delivered a' (flush_preopen con a q) = if decide (a = a') then q else [].
Proof.
  induction q as [|m q IH]; cbn [flush_preopen]; [by destruct (decide _)|].
  change (ConSend con a m :: ?l) with ([ConSend con a m] ++ l). rewrite delivered_app, IH, delivered_one.
  by destruct (decide (a = a')).
Qed.

(** one session changes, by messages sent to it that are delivered or queued *)
Lemma stream_session cs log t a x x' ms ds : stream cs log t -> heap cs !! a = Some x ->
  (forall a', sent_to a' ms = if decide (a = a') then ms.*2 else []) ->
  (forall a', delivered a' ds = if decide (a = a') then delivered a ds else []) ->
  preopen_out_queue x ++ ms.*2 = delivered a ds ++ preopen_out_queue x' ->
  (s_connection x' <> None -> preopen_out_queue x' = []) ->
  stream (set_session a x' cs) (log ++ ms) (t ++ ds).
Proof.
  intros [St Fr] Hx Hms Hds Q C. destruct (St a x Hx) as (La & Ea & _). split.
  - intros a' y. simpl. rewrite sent_to_app, delivered_app, Hms, Hds. destruct (decide (a = a')) as [<- |Ne].
    + rewrite lookup_insert_eq. intros [= <-]. split; [done|]. split; [|done]. by rewrite Ea, <- !app_assoc, Q.
    + rewrite lookup_insert_ne by done. rewrite !app_nil_r. apply St.
  - intros a'. simpl. intros Ge. rewrite sent_to_app, delivered_app, Hms, Hds. destruct (decide (a = a')); [lia|].
    rewrite !app_nil_r. by apply Fr.
Qed.

Lemma sent_to_one a m a' : sent_to a' [(a, m)] = if decide (a = a') then [m] else [].
Proof.
  unfold sent_to. destruct (decide (a = a')); [by rewrite filter_cons_True|by rewrite filter_cons_False].
Qed.

Lemma stream_send m a x cs log t : stream cs log t -> heap cs !! a = Some x ->
  stream (send_message_client m a x cs).1 (log ++ [(a, m)]) (t ++ (send_message_client m a x cs).2).
Proof.
  intros St Hx. unfold send_message_client. destruct (s_connection x) as [con|] eqn:C; simpl.
  - replace cs with (set_session a x cs) by (unfold set_session; rewrite insert_id by done; by destruct cs).
    destruct (proj1 St a x Hx) as (_ & _ & Q). rewrite C in Q.
    apply (stream_session cs log t a x x [(a, m)] [ConSend con a m] St Hx).
    + apply sent_to_one.
    + intros a'. rewrite !delivered_one, (decide_True (P := a = a)) by done. done.
    + rewrite delivered_one, decide_True, Q by done. done.
    + intros _. by apply Q.
  - apply (stream_session cs log t a x); [done|done|apply sent_to_one| |done|done].
    intros a'. by destruct (decide _).
Qed.

Lemma stream_counted m a x cs log t : stream cs log t -> heap cs !! a = Some x ->
  stream (send_message_client_counted m a x cs).1 (log ++ [(a, m)]) (t ++ (send_message_client_counted m a x cs).2).
Proof.
  intros St Hx. apply stream_send; [|apply lookup_insert_eq].
  rewrite <- (app_nil_r log), <- (app_nil_r t). destruct (proj1 St a x Hx) as (_ & _ & Q).
  apply (stream_session cs log t a x); [done|done|intros a'; by destruct (decide _)|intros a'; by destruct (decide _)| |exact Q].
  simpl. by rewrite app_nil_r.
Qed.

Lemma stream_lookup k m cs log t : stream cs log t ->
  let r := match k ≫= (fun a => x ← heap cs !! a; Some (a, x)) with
           | Some (a, x) => send_message_client_counted m a x cs
           | None => (cs, [Leaked m])
           end in
  stream r.1 (log ++ target k m cs) (t ++ r.2).
Proof.
  intros St. unfold target. destruct k as [a|]; simpl; [destruct (heap cs !! a) as [x|] eqn:Hx; simpl|];
    [by apply stream_counted|..]; rewrite app_nil_r; destruct St as [S1 S2]; split; intros a'; rewrite delivered_app, app_nil_r; auto.
Qed.

(** connections come and go without touching what is queued *)
Lemma stream_same cs cs' log t ds : stream cs log t -> heap cs' = heap cs -> next_addr cs' = next_addr cs ->
  (forall a, delivered a ds = []) -> stream cs' (log ++ []) (t ++ ds).
Proof.
  intros [S1 S2] E1 E2 N. split; intros a; rewrite ?E1, ?E2, app_nil_r, delivered_app, N, app_nil_r; auto.
Qed.

Lemma stream_accept con cs log t : stream cs log t ->
  stream (ms_handle_accept con cs).1 (log ++ []) (t ++ (ms_handle_accept con cs).2).
Proof.
  intros St. unfold ms_handle_accept. destruct (privs cs !! con) as [a|]; simpl; [|by apply stream_same with cs].
  destruct (heap cs !! a) as [x|] eqn:Hx; simpl; [|by apply stream_same with cs].
  case_bool_decide; simpl; [by apply stream_same with cs|].
  apply (stream_session cs log t a x); [done|done|intros a'; by destruct (decide _)| |simpl|done].
  - intros a'. rewrite !delivered_flush. destruct (decide (a = a')); [|done]. by rewrite (decide_True (P := a = a)).
  - rewrite delivered_flush, decide_True by done. done.
Qed.

Lemma stream_caps cs log t a x ca : stream cs log t -> heap cs !! a = Some x ->
  stream (set_session a (mk_session (s_connection x) (preopen_out_queue x) (push_seq x) (s_closed x) ca) cs) (log ++ []) (t ++ []).
Proof.
  intros St Hx. destruct (proj1 St a x Hx) as (_ & _ & Q).
  apply (stream_session cs log t a x); [done|done|intros a'; by destruct (decide _)|intros a'; by destruct (decide _)| |exact Q].
  simpl. by rewrite app_nil_r.
Qed.

Lemma stream_wire n con cs log t : stream cs log t ->
  let '(a, x, cs') := wire_session n con cs in stream cs' log t /\ heap cs' !! a = Some x.
Proof.
  intros St. unfold wire_session. destruct (sessionmap_ cs !! n ≫= _) as [[a x]|] eqn:E.
  - apply bind_Some in E as (a' & _ & E). apply bind_Some in E as (x' & Hx & [= -> ->]). split; [|done].
    rewrite <- (app_nil_r log), <- (app_nil_r t). by apply stream_same with cs.
  - destruct St as [S1 S2]. split; [|apply lookup_insert_eq]. split; simpl.
    + intros a x. destruct (decide (next_addr cs = a)) as [<- |Ne].
      * rewrite lookup_insert_eq. intros [= <-]. split; [lia|]. destruct (S2 (next_addr cs) ltac:(lia)) as [-> ->]. done.
      * rewrite lookup_insert_ne by done. intros Hx. destruct (S1 a x Hx) as (? & ? & ?). split; [lia|done].
    + intros a Ge. apply S2. lia.
Qed.

Lemma stream_verify w con ct pt pr data cs log t : stream cs log t ->
  stream (ms_verify_authorizer w con ct pt pr data cs).2 (log ++ []) (t ++ []).
Proof.
  intros St. unfold ms_verify_authorizer. destruct w; [by apply stream_same with cs|].
  destruct (negb _); [by apply stream_same with cs|].
  destruct (verify_authorizer _ _ _) as [[[gid al] caps]|]; [|by apply stream_same with cs].
  pose proof (stream_wire (ct, gid) con cs log t St) as Wi. destruct (wire_session (ct, gid) con cs) as [[a x] cs'].
  destruct Wi as [St' Hx]. by apply stream_caps.
Qed.

Lemma stream_op op cs log t : stream cs log t -> stream (run_cop op cs).1 (log ++ sends op cs) (t ++ (run_cop op cs).2).
Proof.
  intros St. destruct op as [m a|m a|m c|m c|w p con|w p con|w con ct pt pr data|con]; cbn [run_cop sends].
  - unfold target. simpl. destruct (heap cs !! a) as [x|] eqn:Hx; simpl; [by apply stream_send|by apply stream_same with cs].
  - unfold target. simpl. destruct (heap cs !! a) as [x|] eqn:Hx; simpl; [by apply stream_counted|by apply stream_same with cs].
  - by apply stream_lookup.
  - by apply stream_lookup.
  - unfold ms_handle_reset. destruct (negb _); [by apply stream_same with cs|]. destruct w; [by apply stream_same with cs|].
    destruct (_ ≫= _) as [x|]; [destruct (s_closed x)|]; by apply stream_same with cs.
  - unfold ms_handle_remote_reset. destruct (negb _); [by apply stream_same with cs|]. destruct w; [by apply stream_same with cs|].
    destruct (_ ≫= _) as [x|]; [destruct (s_closed x)|]; by apply stream_same with cs.
  - by apply stream_verify.
  - by apply stream_accept.
Qed.

(** C20: a client gets its messages in order.  Through any sequence of sends, new and lost
    connections and authorizations, what was sent to a session is what its connections carried,
    in the same order, followed by what still waits for a connection; nothing waits once there
    is one. *)
Theorem client_stream_fifo cs log t a x : creach cs log t -> heap cs !! a = Some x ->
  sent_to a log = delivered a t ++ preopen_out_queue x /\ (s_connection x <> None -> preopen_out_queue x = []).
Proof.
  intros R Hx. assert (stream cs log t) as St.
  { clear Hx. induction R as [cs E|op cs log t R IH]; [|by apply stream_op].
    split; [|done]. intros b y Hy. destruct (E b y Hy) as [Q La]. by rewrite Q. }
  by destruct (proj1 St a x Hx) as (_ & ? & ?).
Qed.

End Clients.
Arguments session G CA : clear implicits.
Arguments clients G CA : clear implicits.
Arguments cev G : clear implicits.

(** ** Examples *)

#[local] Existing Instance states_ex.
#[local] Existing Instance map_ops_ex.
#[local] Existing Instance world_ex.
#[local] Existing Instance types_ex.
#[local] Existing Instance message_ops_ex.
Definition request_ops_ex : RequestOps msg_ex := {| m_tid := mx_tid; m_num_fwd := fun _ => 0 |}.
#[local] Existing Instance request_ops_ex.
Definition auth_ops_ex : AuthOps unit unit := {|
  has_handler := fun _ _ => true; verify_authorizer := fun _ _ _ => Some (7, true, None);
  caps_new := tt; set_allow_all := id; caps_parse := fun _ => id |}.
#[local] Existing Instance auth_ops_ex.

(** a daemon that has a map, in which the rank 0 is up, and has told nobody *)
Definition peer_ex : mds Z unit Z map_ex msg_ex :=
  set_mdsmap (mk_map_ex 3 0 STATE_ACTIVE) (mds_new (mk_map_ex 0 (-1) STATE_NULL) 0 (-1) tt).

Lemma map_before_message_witness : told (G := msg_ex) [HSent 3 (-1) (SentMap 0 17 3)] 0 3.
Proof.
  apply (map_before_message tt (fun _ _ => tt) conf_ex dconf_ex 4000 EmptyString
    (match send_message_mds new_ex 0 peer_ex with Ok (s', _) => s' | Abort => peer_ex end,
     [HSent 3 (-1) (SentMap 0 17 3); HSent 3 (-1) (SentMsg 0 17 new_ex)])
    [HSent 3 (-1) (SentMap 0 17 3)] [] 3 (-1) 0 17 new_ex); [|reflexivity|discriminate|reflexivity].
  eapply pr_step; [apply (pr_start _ _ _ _ _ _ peer_ex); reflexivity|].
  exact (ps_send _ _ _ _ _ _ new_ex 0 peer_ex _ [SentMap 0 17 3; SentMsg 0 17 new_ex] [] eq_refl).
Defined.

(** a session replayed from the journal, and a connection authorized for it *)
Definition clients_ex : clients msg_ex unit :=
  mk_clients {[ 1 := mk_session None [] 0 false tt ]} {[ (8, 7) := 1 ]} {[ 5 := 1 ]} 2.
Definition run2_ex : clients msg_ex unit :=
  (run_cop true (CAccept 5) (run_cop true (CCounted new_ex 1) (run_cop true (CSend old_ex 1) clients_ex).1).1).1.

Lemma client_stream_fifo_witness :
  sent_to 1 [(1, old_ex); (1, new_ex)] = delivered 1 [ConSend 5 1 old_ex; ConSend 5 1 new_ex] ++ [] /\
  (Some 5 <> None -> @nil msg_ex = []).
Proof.
  apply (client_stream_fifo true run2_ex [(1, old_ex); (1, new_ex)] [ConSend 5 1 old_ex; ConSend 5 1 new_ex] 1
    (mk_session (Some 5) [] 1 false tt)); [|vm_compute; reflexivity].
  assert (creach true clients_ex [] []) as R0.
  { apply cr_start. intros a x Hx. unfold clients_ex in Hx. simpl in Hx. apply lookup_singleton_Some in Hx as [<- <-]. split; [reflexivity|vm_compute; reflexivity]. }
  pose proof (cr_step true (CAccept 5) _ _ _ (cr_step true (CCounted new_ex 1) _ _ _ (cr_step true (CSend old_ex 1) _ _ _ R0))) as R.
  vm_compute in R. vm_compute. exact R.
Defined.
