(* ===== verification/Admin.v ===== *)
(** * Administration: the admin socket and commands (MDS.cc)

    The commands of the admin socket, with the calls they make and the lock they make them
    under, the commands of [ceph tell] and their replies, the legacy commands of the monitor, and
    the configuration keys the daemon watches.  Theorems: which commands keep to the lock, what
    errors say, which arguments are read past the end. *)

From Stdlib Require Import ZArith Lia Ascii String.
From stdpp Require Import base tactics numbers list gmap strings.
From S2P Require Import Prelude.
Open Scope string_scope.
Open Scope Z_scope.
Open Scope list_scope.

Definition EPERM : Z := 1.
Definition ENOENT : Z := 2.
Definition EINVAL : Z := 22.
Definition EROFS : Z := 30.
Definition EOPNOTSUPP : Z := 95.

(** [strtol(s, 0, 10)] *)
Definition is_space (c : Ascii.ascii) : bool :=
  let n := Z.of_N (Ascii.N_of_ascii c) in (n =? 32) || ((9 <=? n) && (n <=? 13)).
Definition digit (c : Ascii.ascii) : option Z :=
  let n := Z.of_N (Ascii.N_of_ascii c) in if (48 <=? n) && (n <=? 57) then Some (n - 48) else None.
Fixpoint digits (acc : Z) (s : string) : Z :=
  match s with
  | EmptyString => acc
  | String c s => match digit c with Some d => digits (10 * acc + d) s | None => acc end
  end.
Fixpoint skip_space (s : string) : string :=
  match s with
  | EmptyString => EmptyString
  | String c r => if is_space c then skip_space r else s
  end.
Definition clamp_long (z : Z) : Z := Z.max (- 2 ^ 63) (Z.min z (2 ^ 63 - 1)).
Definition strtol (s : string) : Z :=
  clamp_long
    (match skip_space s with
     | String "-"%char r => - digits 0 r
     | String "+"%char r => digits 0 r
     | r => digits 0 r
     end).
Definition atoi (s : string) : Z := s32 (strtol s).

Example strtol_ex : strtol " -42x7" = -42 /\ strtol "x" = 0 /\ strtol "99999999999999999999" = 9223372036854775807.
Proof. repeat split; vm_compute; reflexivity. Qed.

(** What a formatter is told. *)
#[warnings="-register-all"]
Inductive json :=
| JInt (n : Z) | JStr (s : string) | JBool (b : bool)
| JObj (fields : list (string * json))
| JArr (items : list json).

(** Calls that read or change what [mds_lock] protects. *)
Inductive locked_call :=
| ReadMap | SetBarrier (epoch : Z) | HeartbeatReset | ListSessions | GetSession (id : Z) | KillSession (id : Z)
| ScrubDentry (path : string) | FlushDentry (path : string) | CacheIsReadonly | DaemonIsActive | StartNewSegment | MdlogFlush
| WaitForSafe | TrimAll | GetExpiringSegments | WaitForExpiry (n : nat) | TrimExpiredSegments | WriteHead
| ListSubtrees | DumpDirs | CacheTraverse (path : string) | ExportDir (dir target : Z) | CacheForceReadonly.

(** [AFree] calls something that has a lock of its own. *)
Inductive aev :=
| ALock | AUnlock | AWait
| ACall (c : locked_call)
| AFree (what : string).

(** a session of the session map, as [session ls] shows it *)
Record sess_info := mk_sess_info {
  si_is_client : bool; si_num : Z; si_leases : Z; si_caps : Z; si_state : string; si_requests : Z;
  si_reconnecting : bool; si_inst : string; si_metadata : list (string * string)
}.

(** What the commands find. *)
Class AdminView := {
  av_whoami : Z;
  av_state_name : string;
  av_active : bool;
  av_clientreplay : bool;
  av_fsid : string;
  av_mdsmap_epoch : Z;
  av_osd_epoch : Z;
  av_barrier : Z;
  av_already_got : Z -> bool;                   (* objecter->wait_for_map *)
  av_sessions : list sess_info;
  av_has_session : Z -> bool;
  av_readonly : bool;
  av_flush_result : Z;
  av_trim_all : Z;
  av_expiring : nat;
  av_expiry_result : Z;
  av_write_head : Z;
  av_flush_path : string -> Z;
  av_subtrees : list (bool * Z * Z * json);     (* is_auth, the authority, the dump *)
  av_is_up : Z -> bool;
  av_is_in : Z -> bool;
  av_traverse : string -> option (option (Z * bool));  (* the inode, its whole fragment and whether auth *)
  av_ops : json;
  av_historic_ops : json
}.

Section Asok.
(** the text [Error r (...)] of an error *)
Context `{AdminView} (error_text : Z -> string).

(** A command writes events and returns; [None] is a failed assertion. *)
Definition W (X : Type) : Type := list aev * option X.
Definition w_ret {X} (x : X) : W X := ([], Some x).
Definition w_die {X} : W X := ([], None).
Definition w_bind {X Y} (m : W X) (f : X -> W Y) : W Y :=
  match m with
  | (t, Some x) => let '(t', y) := f x in (t ++ t', y)
  | (t, None) => (t, None)
  end.
Definition does (t : list aev) : W unit := (t, Some tt).
Notation "x <-- m ; k" := (w_bind m (fun x => k)) (at level 20, m at level 100, k at level 200, right associativity).
Notation "m ;;; k" := (w_bind m (fun _ => k)) (at level 100, k at level 200, right associativity).

(** the message and the return code *)
Definition _command_flush_journal : W (string * Z) :=
  does [ALock; ACall CacheIsReadonly] ;;;
  if av_readonly then does [AUnlock] ;;; w_ret (EmptyString, - EROFS)
  else
    does [ACall DaemonIsActive] ;;;
    if negb av_active then does [AUnlock] ;;; w_ret (EmptyString, 0)
    else
      does [ACall StartNewSegment; ACall MdlogFlush; ACall WaitForSafe; AUnlock; AWait; ALock] ;;;
      if negb (av_flush_result =? 0) then does [AUnlock] ;;; w_ret (String.append (error_text av_flush_result) " while flushing journal", av_flush_result)
      else
        does [ACall TrimAll] ;;;
        if negb (av_trim_all =? 0) then does [AUnlock] ;;; w_ret (String.append (error_text av_trim_all) " while trimming log", av_trim_all)
        else
          does [ACall GetExpiringSegments; ACall (WaitForExpiry av_expiring)] ;;;
          (if Nat.eqb av_expiring 0 then w_ret tt
           else does [AUnlock; AWait; ALock] ;;; if av_expiry_result =? 0 then w_ret tt else w_die) ;;;
          does [ACall TrimExpiredSegments; ACall WriteHead; AUnlock; AWait; ALock] ;;;
          if negb (av_write_head =? 0) then does [AUnlock] ;;; w_ret (String.append (error_text av_write_head) " while writing header", av_write_head)
          else does [AUnlock] ;;; w_ret (EmptyString, 0).

Definition command_flush_journal : W (list (string * json)) :=
  r <-- _command_flush_journal;
  w_ret [("result", JObj [("message", JStr r.1); ("return_code", JInt r.2)])].

Definition command_scrub_path (path : string) : W (list (string * json)) :=
  does [ALock; ACall (ScrubDentry path); AUnlock; AWait] ;;; w_ret [].

Definition command_flush_path (path : string) : W (list (string * json)) :=
  does [ALock; ACall (FlushDentry path); AUnlock; AWait] ;;;
  w_ret [("results", JObj [("return_code", JInt (av_flush_path path))])].

Definition command_get_subtrees : W (list (string * json)) :=
  does [ACall ListSubtrees; ACall DumpDirs] ;;;
  w_ret [("subtrees", JArr (map (fun '(auth, a1, a2, d) =>
    JObj [("is_auth", JBool auth); ("auth_first", JInt a1); ("auth_second", JInt a2); ("dir", d)]) av_subtrees))].

Definition _command_export_dir (path : string) (target : Z) : W Z :=
  does [ACall ReadMap] ;;;
  if (target =? av_whoami) || negb (av_is_up target) || negb (av_is_in target) then w_ret (- ENOENT)
  else
    does [ACall (CacheTraverse path)] ;;;
    match av_traverse path with
    | None => w_ret (- ENOENT)
    | Some (Some (dir, true)) => does [ACall (ExportDir dir target)] ;;; w_ret 0
    | Some _ => w_ret (- EINVAL)
    end.

Definition command_export_dir (path : string) (target : Z) : W (list (string * json)) :=
  r <-- _command_export_dir path target;
  w_ret [("results", JObj [("return_code", JInt r)])].

Definition dump_session (s : sess_info) : json :=
  JObj [("id", JInt (si_num s)); ("num_leases", JInt (si_leases s)); ("num_caps", JInt (si_caps s));
        ("state", JStr (si_state s)); ("replay_requests", JInt (if av_clientreplay then si_requests s else 0));
        ("reconnecting", JBool (si_reconnecting s)); ("inst", JStr (si_inst s));
        ("client_metadata", JObj (map (fun p => (p.1, JStr p.2)) (si_metadata s)))].

Definition dump_status : list (string * json) :=
  [("status", JObj [("cluster_fsid", JStr av_fsid); ("whoami", JInt (u64 av_whoami)); ("state", JStr av_state_name);
     ("mdsmap_epoch", JInt av_mdsmap_epoch); ("osdmap_epoch", JInt av_osd_epoch);
     ("osdmap_epoch_barrier", JInt av_barrier)])].

(** [asok_command]: what goes to the stream, a message or what the formatter has *)
Definition asok_command (command : string) (get_str : string -> option string) (get_int : string -> option Z)
  : W (string + list (string * json)) :=
  let fmt (m : W (list (string * json))) := (d <-- m; w_ret (inr d)) in
  let str (k : string) := default EmptyString (get_str k) in
  if String.eqb command "status" then fmt (does [AFree "osdmap"; ACall ReadMap] ;;; w_ret dump_status)
  else if av_whoami <? 0 then w_ret (inr [("error", JStr "mds_not_active")])
  else if (String.eqb command "dump_ops_in_flight") || (String.eqb command "ops") then fmt (does [AFree "op_tracker"] ;;; w_ret [("ops", av_ops)])
  else if String.eqb command "dump_historic_ops" then fmt (does [AFree "op_tracker"] ;;; w_ret [("ops", av_historic_ops)])
  else if String.eqb command "osdmap barrier" then
    match get_int "target_epoch" with
    | None => w_ret (inl "no target epoch given")
    | Some e =>
        does [ALock; ACall (SetBarrier (u32 e)); AUnlock; AFree "wait_for_map"] ;;;
        (if av_already_got (u32 e) then w_ret tt else does [AWait]) ;;; w_ret (inr [])
    end
  else if String.eqb command "session ls" then
    fmt (does [ALock; ACall HeartbeatReset; ACall ListSessions; AUnlock] ;;;
         w_ret [("sessions", JArr (map dump_session (filter (fun s => Is_true (si_is_client s)) av_sessions)))])
  else if String.eqb command "session evict" then
    match get_str "client_id" with
    | None => w_die
    | Some client_id =>
        let id := strtol client_id in
        does [ALock; ACall (GetSession id)] ;;;
        (if av_has_session id then does [ACall (KillSession id); AUnlock; AWait] else does [AUnlock]) ;;; w_ret (inr [])
    end
  else if String.eqb command "scrub_path" then fmt (command_scrub_path (str "path"))
  else if String.eqb command "flush_path" then fmt (command_flush_path (str "path"))
  else if String.eqb command "flush journal" then fmt command_flush_journal
  else if String.eqb command "get subtrees" then fmt command_get_subtrees
  else if String.eqb command "export dir" then
    match get_str "path" with
    | None => w_ret (inl "malformed path")
    | Some path =>
        match get_int "rank" with
        | None => w_ret (inl "malformed rank")
        | Some rank => fmt (command_export_dir path (s32 rank))
        end
    end
  else if String.eqb command "force_readonly" then does [ALock; ACall CacheForceReadonly; AUnlock] ;;; w_ret (inr [])
  else w_ret (inr []).

(** ** The lock *)

(** whether the lock is held after [t], if [t] keeps to it: calls are made with it, waits
    without it, and it is not taken twice *)
Fixpoint run_lock (held : bool) (t : list aev) : option bool :=
  match t with
  | [] => Some held
  | ALock :: t => if held then None else run_lock true t
  | AUnlock :: t => if held then run_lock false t else None
  | AWait :: t => if held then None else run_lock false t
  | ACall _ :: t => if held then run_lock true t else None
  | AFree _ :: t => run_lock held t
  end.

(** [m] keeps to the lock, and has released it when it returns *)
Definition keeps_lock {X} (held : bool) (m : W X) : Prop :=
  exists h, run_lock held m.1 = Some h /\ (m.2 <> None -> h = false).

Lemma run_lock_app held t t' : run_lock held (t ++ t') = h ← run_lock held t; run_lock h t'.
Proof. revert held. induction t as [|[]]; intros []; simpl; auto. Qed.

Lemma keeps_ret {X} (x : X) : keeps_lock false (w_ret x).
Proof. by exists false. Qed.
Lemma keeps_die {X} held : keeps_lock held (w_die : W X).
Proof. by exists held. Qed.

Lemma keeps_does {Y} held h t (m : W Y) : run_lock held t = Some h -> keeps_lock h m -> keeps_lock held (does t ;;; m).
Proof.
  intros Rl (h' & R & F). unfold keeps_lock, does. simpl. destruct m as [t' y]. simpl in *.
  exists h'. by rewrite run_lock_app, Rl.
Qed.

Lemma keeps_bind {X Y} held (m : W X) (f : X -> W Y) : keeps_lock held m -> (forall x, keeps_lock false (f x)) ->
  keeps_lock held (w_bind m f).
Proof.
  intros (h & R & F) Hf. destruct m as [t [x|]]; simpl in *; [|by exists h].
  rewrite (F ltac:(done)) in R. destruct (Hf x) as (h' & R' & F'). unfold keeps_lock. destruct (f x) as [t' y]. simpl in *.
  exists h'. by rewrite run_lock_app, R.
Qed.

Ltac keeps := repeat first
  [ apply keeps_ret | apply keeps_die | eapply keeps_does; [reflexivity|]
  | match goal with |- keeps_lock _ (if ?b then _ else _) => destruct b end ].

Lemma keeps_flush_journal : keeps_lock false _command_flush_journal.
Proof.
  unfold _command_flush_journal. keeps.
  destruct (Nat.eqb av_expiring 0).
  - eapply (keeps_does _ _ []); [reflexivity|]. keeps.
  - destruct (av_expiry_result =? 0).
    + eapply (keeps_does _ _ [AUnlock; AWait; ALock] (does _ ;;; _)); [reflexivity|]. keeps.
    + by exists true.
Qed.

(** admin commands keep to the lock.  Every command of the admin socket, whatever its arguments
    and whatever it finds, makes the calls [mds_lock] protects with the lock held, waits with the
    lock released (what it waits for needs the lock) and releases it in the end, except
    [status], [get subtrees] and [export dir]. *)
Theorem asok_keeps_lock command get_str get_int :
  command ∉ ["status"; "get subtrees"; "export dir"] -> keeps_lock false (asok_command command get_str get_int).
Proof.
  intros N. unfold asok_command.
  assert (forall c, c ∈ ["status"; "get subtrees"; "export dir"] -> String.eqb command c = false) as Ne.
  { intros c Hc. apply String.eqb_neq. intros ->. done. }
  rewrite (Ne "status"), (Ne "get subtrees"), (Ne "export dir") by set_solver.
  destruct (av_whoami <? 0); [keeps|]. destruct (_ || _); [apply keeps_bind; intros; keeps|].
  repeat match goal with |- keeps_lock _ (if String.eqb _ _ then _ else _) => destruct (String.eqb _ _) end;
    try (apply keeps_bind; [unfold command_scrub_path, command_flush_path|intros ?]; keeps; fail); try (keeps; fail).
  - destruct (get_int "target_epoch"); [|keeps]. keeps. destruct (av_already_got _); [apply keeps_bind; [keeps|intros; keeps]|keeps].
  - destruct (get_str "client_id"); [|keeps]. eapply keeps_does; [reflexivity|]. destruct (av_has_session _); keeps.
  - apply keeps_bind; [|intros; keeps]. unfold command_flush_journal. apply keeps_bind; [apply keeps_flush_journal|intros; keeps].
Qed.

(** The cache is read and migrated without the lock.  [get subtrees] walks the subtree map,
    and [export dir] traverses the cache and starts a migration, without [mds_lock]. *)
Theorem asok_unlocked path target get_str get_int dir : 0 <= av_whoami ->
  get_str "path" = Some path -> get_int "rank" = Some target ->
  s32 target <> av_whoami -> av_is_up (s32 target) = true -> av_is_in (s32 target) = true ->
  av_traverse path = Some (Some (dir, true)) ->
  (asok_command "get subtrees" get_str get_int).1 = [ACall ListSubtrees; ACall DumpDirs] /\
  (asok_command "export dir" get_str get_int).1 = [ACall ReadMap; ACall (CacheTraverse path); ACall (ExportDir dir (s32 target))] /\
  run_lock false [ACall ListSubtrees; ACall DumpDirs] = None.
Proof.
  intros Wh P R Me Up In Tr. unfold asok_command. cbn [String.eqb Ascii.eqb Bool.eqb orb].
  rewrite (proj2 (Z.ltb_ge _ _) Wh), P, R. split; [reflexivity|]. split; [|reflexivity].
  unfold command_export_dir, _command_export_dir. by rewrite (proj2 (Z.eqb_neq _ _) Me), Up, In, Tr.
Qed.

End Asok.

(** ** Registration *)

Definition set_up_admin_socket : list string :=
  ["status"; "dump_ops_in_flight"; "ops"; "dump_historic_ops"; "scrub_path"; "flush_path"; "export dir"; "session evict";
   "osdmap barrier"; "session ls"; "flush journal"; "force_readonly"; "get subtrees"].

Definition clean_up_admin_socket : list string :=
  ["status"; "dump_ops_in_flight"; "ops"; "dump_historic_ops"; "scrub_path"; "flush_path"; "session evict"; "session ls";
   "flush journal"; "force_readonly"].

(** what is registered with the hook after a clean-up, which deletes the hook *)
Definition left_registered (registered : list string) : list string :=
  filter (fun c => c ∉ clean_up_admin_socket) registered.

(** The admin socket keeps a deleted hook.  [clean_up_admin_socket] deletes the hook and
    leaves three commands registered with it. *)
Theorem hook_left_registered :
  left_registered set_up_admin_socket = ["export dir"; "osdmap barrier"; "get subtrees"].
Proof. vm_compute. reflexivity. Qed.

(** ** Watched options *)

Definition get_tracked_conf_keys : list string :=
  ["mds_op_complaint_time"; "mds_op_log_threshold"; "mds_op_history_size"; "mds_op_history_duration";
   "clog_to_monitors"; "clog_to_syslog"; "clog_to_syslog_facility"; "clog_to_syslog_level"].

Inductive conf_action := SetComplaintAndThreshold | SetHistorySizeAndDuration | UpdateLogConfig.

Definition any_changed (changed : gset string) (ks : list string) : bool :=
  existsb (fun k => bool_decide (k ∈ changed)) ks.

Definition handle_conf_change (changed : gset string) : list conf_action :=
  (if any_changed changed ["mds_op_complaint_time"; "mds_op_log_threshold"] then [SetComplaintAndThreshold] else []) ++
  (if any_changed changed ["mds_op_history_size"; "mds_op_history_duration"] then [SetHistorySizeAndDuration] else []) ++
  (if any_changed changed ["clog_to_monitors"; "clog_to_syslog"; "clog_to_syslog_level"; "clog_to_syslog_facility"]
   then [UpdateLogConfig] else []).

Lemma any_changed_true changed ks : any_changed changed ks = true <-> exists k, k ∈ ks /\ k ∈ changed.
Proof.
  unfold any_changed. rewrite existsb_exists. setoid_rewrite bool_decide_eq_true. by setoid_rewrite list_elem_of_In.
Qed.

(** A change leads to an action exactly if it is of a key the daemon watches. *)
Lemma conf_change_acts changed :
  handle_conf_change changed <> [] <-> exists k, k ∈ get_tracked_conf_keys /\ k ∈ changed.
Proof.
  unfold handle_conf_change, get_tracked_conf_keys. split.
  - intros N. assert (exists ks, any_changed changed ks = true /\ ks ⊆ get_tracked_conf_keys) as (ks & E & Sub).
    { unfold get_tracked_conf_keys. repeat match type of N with context [any_changed changed ?ks] =>
        destruct (any_changed changed ks) eqn:?; [exists ks; split; [done|set_solver]|] end. done. }
    apply any_changed_true in E as (k & Hk & Hc). exists k. split; [by apply Sub|done].
  - intros (k & Hk & Hc) N. repeat match type of N with context [any_changed changed ?ks] =>
      destruct (any_changed changed ks) eqn:?; [done|] end.
    assert (forall ks, any_changed changed ks = false -> k ∉ ks) as Out.
    { intros ks F Hin. rewrite (proj2 (any_changed_true changed ks)) in F by eauto. done. }
    repeat match goal with F : any_changed changed _ = false |- _ => apply Out in F end. set_solver.
Qed.

(** ** Commands of [ceph tell] *)

Inductive later := SuicideLater | RespawnLater.
Inductive tell_call :=
| TellInjectargs (args : string) | TellKillSession (id : Z) | TellHeap (cmd : string) | TellCpuProfiler (arg : string)
| TellDescriptions.

(** The arguments of a command, after it was parsed. *)
Record cmdmap_t := mk_cmdmap {
  cm_prefix : string;
  cm_injected_args : list string;
  cm_session_id : option Z;
  cm_heapcmd : string;
  cm_arg : string
}.

Section Tell.
(** [sessionmap.get_session] finds it; [ceph_using_tcmalloc]; what [injectargs] says; a decimal *)
Context (has_session : Z -> bool) (using_tcmalloc : bool) (injectargs : string -> string) (decimal : Z -> string).

(** the return code, [outs], what is to run after the reply, and the calls made; [None] is a
    failed assertion *)
Definition tell_reply : Type := Z * string * option later * list tell_call.

Definition join_args (first : string) (rest : list string) : string :=
  fold_left (fun args a => String.append args (String.append " " a)) rest first.

Definition _handle_command (c : cmdmap_t) : option tell_reply :=
  let p := cm_prefix c in
  if String.eqb p "get_command_descriptions" then Some (0, EmptyString, None, [TellDescriptions])
  else if String.eqb p "injectargs" then
    match cm_injected_args c with
    | [] => Some (- EINVAL, "ignoring empty injectargs", None, [])
    | a :: rest => let args := join_args a rest in Some (0, injectargs args, None, [TellInjectargs args])
    end
  else if String.eqb p "exit" then Some (0, "Exiting...", Some SuicideLater, [])
  else if String.eqb p "respawn" then Some (0, "Respawning...", Some RespawnLater, [])
  else if String.eqb p "session kill" then
    match cm_session_id c with
    | None => None
    | Some id =>
        if has_session id then Some (0, EmptyString, None, [TellKillSession id])
        else Some (- ENOENT, String.append "session '" (String.append (decimal id) "' not found"), None, [])
    end
  else if String.eqb p "heap" then
    if using_tcmalloc then Some (0, EmptyString, None, [TellHeap (cm_heapcmd c)])
    else Some (- EOPNOTSUPP, "could not issue heap profiler command -- not using tcmalloc!", None, [])
  else if String.eqb p "cpu_profiler" then Some (0, EmptyString, None, [TellCpuProfiler (cm_arg c)])
  else Some (- EINVAL, EmptyString, None, []).

(** [parsed] is what [cmdmap_from_json] makes of the command: an error or the arguments. *)
Definition handle_command (allow_all : bool) (cmd : list string) (parsed : string + cmdmap_t) : option tell_reply :=
  if negb allow_all then Some (- EPERM, EmptyString, None, [])
  else match cmd with
       | [] => Some (0, "no command given", None, [])
       | _ => match parsed with
              | inl err => Some (- EINVAL, err, None, [])
              | inr c => _handle_command c
              end
       end.

(** the prefixes of [mds_commands], and the one that lists them *)
Definition command_prefixes : list string :=
  ["get_command_descriptions"; "injectargs"; "exit"; "respawn"; "session kill"; "heap"; "cpu_profiler"].

(** What a refused command says.  The reply to a client without the [tell] capability has no
    text, nothing is run, and neither has the reply to a command the daemon does not know; every
    other error of [_handle_command] has a text. *)
Theorem refused_commands_are_mute cmd parsed c :
  handle_command false cmd parsed = Some (- EPERM, EmptyString, None, []) /\
  (cm_prefix c ∉ command_prefixes -> _handle_command c = Some (- EINVAL, EmptyString, None, [])) /\
  (cm_prefix c ∈ command_prefixes -> forall r outs run calls, _handle_command c = Some (r, outs, run, calls) ->
     r < 0 -> outs <> EmptyString /\ run = None /\ calls = []).
Proof.
  split; [done|]. unfold _handle_command. split.
  - intros N. assert (forall p, p ∈ command_prefixes -> String.eqb (cm_prefix c) p = false) as Ne.
    { intros p Hp. apply String.eqb_neq. intros E. rewrite E in N. done. }
    unfold command_prefixes in Ne. by rewrite !Ne by set_solver.
  - intros Hin r outs run calls.
    destruct (String.eqb _ "get_command_descriptions") eqn:?; [intros [= <- <- <- <-]; lia|].
    destruct (String.eqb _ "injectargs") eqn:?; [destruct (cm_injected_args c); intros [= <- <- <- <-]; [done|lia]|].
    destruct (String.eqb _ "exit") eqn:?; [intros [= <- <- <- <-]; lia|].
    destruct (String.eqb _ "respawn") eqn:?; [intros [= <- <- <- <-]; lia|].
    destruct (String.eqb _ "session kill") eqn:?;
      [destruct (cm_session_id c); [|done]; destruct (has_session _); intros [= <- <- <- <-]; [lia|done]|].
    destruct (String.eqb _ "heap") eqn:?; [destruct using_tcmalloc; intros [= <- <- <- <-]; [lia|done]|].
    destruct (String.eqb _ "cpu_profiler") eqn:?; [intros [= <- <- <- <-]; lia|].
    exfalso. repeat match goal with F : String.eqb _ _ = false |- _ => apply String.eqb_neq in F end.
    unfold command_prefixes in Hin. set_solver.
Qed.

End Tell.

(** ** Legacy commands of the monitor *)

(** What the legacy commands look up. *)
Class LegacyView := {
  lv_has_session : Z -> bool;
  lv_has_inode : Z -> bool;
  lv_traverse : string -> option Z;                 (* the inode of a path in the cache *)
  lv_parse_frag : string -> option Z;
  lv_whole_frag : Z;                                (* frag_t() *)
  lv_get_dirfrag : Z -> Z -> option (Z * bool);     (* the directory, and whether auth *)
  lv_is_up : Z -> bool;
  lv_is_in : Z -> bool;
  lv_whoami : Z;
  lv_using_tcmalloc : bool
}.

Inductive legacy_call :=
| LInjectargs (args : string) | LDumpCache (file : option string) | LSuicide | LRespawn | LKillSession (id : Z)
| LIssueCaps (ino : Z) | LTryEval (ino mask : Z) | LSplitDir (dir bits : Z) | LMergeDir (ino frag : Z)
| LExportDir (dir target : Z) | LCpuProfiler (args : list string) | LHeap (args : list string).

Section Legacy.
Context `{LegacyView}.

(** [args[i]]: undefined past the end *)
Definition arg (i : nat) (args : list string) : res string :=
  match args !! i with Some a => Ok a | None => Abort end.

Definition fragment_dir (path frag by_ : string) : list legacy_call :=
  match lv_traverse path with
  | None => []
  | Some i =>
      match lv_parse_frag frag with
      | None => []
      | Some fg =>
          match lv_get_dirfrag i fg with
          | Some (dir, true) => if atoi by_ =? 0 then [] else [LSplitDir dir (atoi by_)]
          | _ => []
          end
      end
  end.

Definition merge_dir (path frag : string) : list legacy_call :=
  match lv_traverse path, lv_parse_frag frag with
  | Some i, Some fg => [LMergeDir i fg]
  | _, _ => []
  end.

Definition legacy_export_dir (path rank : string) : list legacy_call :=
  let target := atoi rank in
  if negb (target =? lv_whoami) && lv_is_up target && lv_is_in target then
    match lv_traverse path with
    | None => []
    | Some i => match lv_get_dirfrag i lv_whole_frag with Some (dir, true) => [LExportDir dir target] | _ => [] end
    end
  else [].

Definition _handle_command_legacy (args : list string) : res (list legacy_call) :=
  a0 ← arg 0 args;
  let n := length args in
  let cmd c := String.eqb a0 c in
  if cmd "injectargs" then
    if bool_decide (n < 2)%nat then Ok [] else a1 ← arg 1 args; Ok [LInjectargs a1]
  else if cmd "dumpcache" then
    if bool_decide (1 < n)%nat then a1 ← arg 1 args; Ok [LDumpCache (Some a1)] else Ok [LDumpCache None]
  else if cmd "exit" then Ok [LSuicide]
  else if cmd "respawn" then Ok [LRespawn]
  else
    kill ← (if cmd "session" then a1 ← arg 1 args; Ok (String.eqb a1 "kill") else Ok false);
    if (kill : bool) then
      a2 ← arg 2 args; Ok (if lv_has_session (strtol a2) then [LKillSession (strtol a2)] else [])
    else if cmd "issue_caps" then
      a1 ← arg 1 args; Ok (if lv_has_inode (u64 (strtol a1)) then [LIssueCaps (u64 (strtol a1))] else [])
    else if cmd "try_eval" then
      a1 ← arg 1 args; a2 ← arg 2 args;
      Ok (if lv_has_inode (u64 (strtol a1)) then [LTryEval (u64 (strtol a1)) (s32 (strtol a2))] else [])
    else if cmd "fragment_dir" then
      if bool_decide (n = 4%nat) then a1 ← arg 1 args; a2 ← arg 2 args; a3 ← arg 3 args; Ok (fragment_dir a1 a2 a3) else Ok []
    else if cmd "merge_dir" then
      if bool_decide (n = 3%nat) then a1 ← arg 1 args; a2 ← arg 2 args; Ok (merge_dir a1 a2) else Ok []
    else if cmd "export_dir" then
      if bool_decide (n = 3%nat) then a1 ← arg 1 args; a2 ← arg 2 args; Ok (legacy_export_dir a1 a2) else Ok []
    else if cmd "cpu_profiler" then Ok [LCpuProfiler args]
    else if cmd "heap" then Ok (if lv_using_tcmalloc then [LHeap (tail args)] else [])
    else Ok [].

(** the commands whose arguments are not counted, and how many words they read *)
Definition words_read (args : list string) : nat :=
  match args with
  | [] => 1
  | a0 :: r =>
      if String.eqb a0 "session" then match r with a1 :: _ => if String.eqb a1 "kill" then 3 else 2 | [] => 2 end
      else if String.eqb a0 "issue_caps" then 2
      else if String.eqb a0 "try_eval" then 3
      else 1
  end.

(** C40: legacy commands read past their arguments.  [_handle_command_legacy] indexes the vector of
    words past its end exactly when there are fewer words than it reads for the command: one, but
    two for [issue_caps] and [session], three for [try_eval] and [session kill]; the other
    commands with arguments count them first. *)
Theorem legacy_reads_past_end args : _handle_command_legacy args = Abort <-> (length args < words_read args)%nat.
Proof.
  destruct args as [|a0 [|a1 [|a2 [|a3 r]]]]; [split; [intros _; cbn; lia|done]|..];
    unfold _handle_command_legacy, words_read, arg; cbn [lookup list_lookup mbind res_bind];
    (destruct (String.eqb_spec a0 "session") as [-> |]; [cbn|
     destruct (String.eqb_spec a0 "issue_caps") as [-> |]; [cbn|
     destruct (String.eqb_spec a0 "try_eval") as [-> |]; [cbn|]]]);
    repeat match goal with
    | |- context [String.eqb ?a ?b] => destruct (String.eqb a b)
    end; cbn; split; try done; try lia; by case_bool_decide.
Qed.

End Legacy.

(** ** Examples *)

Definition admin_ex : AdminView := {|
  av_whoami := 0; av_state_name := "up:active"; av_active := true; av_clientreplay := false; av_fsid := "f";
  av_mdsmap_epoch := 3; av_osd_epoch := 5; av_barrier := 0; av_already_got := fun _ => false; av_sessions := [];
  av_has_session := fun _ => true; av_readonly := false; av_flush_result := 0; av_trim_all := 0; av_expiring := 2;
  av_expiry_result := 0; av_write_head := 0; av_flush_path := fun _ => 0; av_subtrees := [];
  av_is_up := fun _ => true; av_is_in := fun _ => true; av_traverse := fun _ => Some (Some (1, true));
  av_ops := JArr []; av_historic_ops := JArr []
|}.
#[local] Existing Instance admin_ex.

Lemma asok_keeps_lock_witness :
  keeps_lock false (asok_command (fun _ => "Error") "flush journal" (fun _ => None) (fun _ => None)).
Proof. apply asok_keeps_lock. intros Hin. repeat (apply elem_of_cons in Hin as [Hin|Hin]; [discriminate|]). by apply not_elem_of_nil in Hin. Defined.

Lemma asok_unlocked_witness :
  let str (k : string) := Some "/a" in
  let int (k : string) := Some 1 in
  (asok_command (fun _ => "Error") "get subtrees" str int).1 = [ACall ListSubtrees; ACall DumpDirs] /\
  (asok_command (fun _ => "Error") "export dir" str int).1 =
    [ACall ReadMap; ACall (CacheTraverse "/a"); ACall (ExportDir 1 (s32 1))] /\
  run_lock false [ACall ListSubtrees; ACall DumpDirs] = None.
Proof.
  apply (asok_unlocked (fun _ => "Error") "/a" 1 (fun _ => Some "/a") (fun _ => Some 1) 1);
    [discriminate|reflexivity|reflexivity|discriminate|reflexivity|reflexivity|reflexivity].
Defined.

Lemma refused_commands_are_mute_witness :
  let c := mk_cmdmap "dumpcache" [] None EmptyString EmptyString in
  handle_command (fun _ => true) true id (fun _ => EmptyString) false ["x"] (inr c) = Some (- EPERM, EmptyString, None, []) /\
  _handle_command (fun _ => true) true id (fun _ => EmptyString) c = Some (- EINVAL, EmptyString, None, []).
Proof.
  pose (c := mk_cmdmap "dumpcache" [] None EmptyString EmptyString).
  destruct (refused_commands_are_mute (fun _ => true) true id (fun _ => EmptyString) ["x"] (inr c) c) as (R1 & R2 & _).
  split; [exact R1|]. apply R2. intros Hin. unfold command_prefixes in Hin.
  repeat (apply elem_of_cons in Hin as [Hin|Hin]; [discriminate|]). by apply not_elem_of_nil in Hin.
Defined.
