(* ===== verification/ConfigOpts.v ===== *)
(** * The options (common/config_opts.h)

    The table that [config.cc] includes: the options with their types and defaults, in the order of
    the file, and the subsystems of the log with their levels.  What a default takes from other
    headers or from the build is a constant of the class [BuildConst]. *)

From Stdlib Require Import ZArith QArith Ascii String.
From stdpp Require Import base tactics numbers list strings.
Open Scope Z_scope.
Open Scope list_scope.

Inductive opt_type_t :=
| OPT_INT | OPT_LONGLONG | OPT_STR | OPT_DOUBLE | OPT_FLOAT | OPT_BOOL | OPT_ADDR | OPT_U32 | OPT_U64 | OPT_UUID.

#[export] Instance opt_type_eq_dec : EqDecision opt_type_t.
Proof. solve_decision. Defined.

(** A default: [DReal] is a literal of a floating-point option, [DAddr] and [DUuid] are
    [entity_addr_t()] and [uuid_d()]. *)
Inductive opt_default :=
| DInt (z : Z)
| DStr (s : string)
| DBool (b : bool)
| DReal (q : Q)
| DAddr
| DUuid.

Record option_def := OPTION { od_name : string; od_type : opt_type_t; od_default : opt_default }.
Record subsys_def := SUBSYS { ss_name : string; ss_log : Z; ss_gather : Z }.

(** Constants of other headers, and of the build. *)
Class BuildConst := {
  CEPH_STR_HASH_RJENKINS : Z;
  CEPH_DEFAULT_CRUSH_REPLICATED_RULESET : Z;
  OSD_POOL_ERASURE_CODE_STRIPE_WIDTH : Z;
  CEPH_PKGLIBDIR : string;
  CEPH_LIBDIR : string;
  HAVE_BETTER_YASM_ELF64 : bool
}.

Section Options.
Context `{BuildConst}.
Local Open Scope string_scope.
Local Open Scope Q_scope.
Local Open Scope Z_scope.
Local Open Scope list_scope.

Definition options_1 : list option_def := [
  OPTION "host" OPT_STR (DStr "localhost");
  OPTION "fsid" OPT_UUID DUuid;
  OPTION "public_addr" OPT_ADDR DAddr;
  OPTION "cluster_addr" OPT_ADDR DAddr;
  OPTION "public_network" OPT_STR (DStr EmptyString);
  OPTION "cluster_network" OPT_STR (DStr EmptyString);
  OPTION "num_client" OPT_INT (DInt 1);
  OPTION "monmap" OPT_STR (DStr EmptyString);
  OPTION "mon_host" OPT_STR (DStr EmptyString);
  OPTION "lockdep" OPT_BOOL (DBool false);
  OPTION "run_dir" OPT_STR (DStr "/var/run/ceph");
  OPTION "admin_socket" OPT_STR (DStr "$run_dir/$cluster-$name.asok");
  OPTION "daemonize" OPT_BOOL (DBool false);
  OPTION "pid_file" OPT_STR (DStr EmptyString);
  OPTION "chdir" OPT_STR (DStr "/");
  OPTION "max_open_files" OPT_LONGLONG (DInt 0);
  OPTION "restapi_log_level" OPT_STR (DStr EmptyString);
  OPTION "restapi_base_url" OPT_STR (DStr EmptyString);
  OPTION "fatal_signal_handlers" OPT_BOOL (DBool true);
  OPTION "log_file" OPT_STR (DStr "/var/log/ceph/$cluster-$name.log");
  OPTION "log_max_new" OPT_INT (DInt 1000);
  OPTION "log_max_recent" OPT_INT (DInt 10000);
  OPTION "log_to_stderr" OPT_BOOL (DBool true);
  OPTION "err_to_stderr" OPT_BOOL (DBool true);
  OPTION "log_to_syslog" OPT_BOOL (DBool false);
  OPTION "err_to_syslog" OPT_BOOL (DBool false);
  OPTION "log_flush_on_exit" OPT_BOOL (DBool true);
  OPTION "log_stop_at_utilization" OPT_FLOAT (DReal (97 # 100));
  OPTION "clog_to_monitors" OPT_STR (DStr "default=true");
  OPTION "clog_to_syslog" OPT_STR (DStr "false");
  OPTION "clog_to_syslog_level" OPT_STR (DStr "info");
  OPTION "clog_to_syslog_facility" OPT_STR (DStr "default=daemon audit=local0");
  OPTION "mon_cluster_log_to_syslog" OPT_STR (DStr "default=false");
  OPTION "mon_cluster_log_to_syslog_level" OPT_STR (DStr "info");
  OPTION "mon_cluster_log_to_syslog_facility" OPT_STR (DStr "daemon");
  OPTION "mon_cluster_log_file" OPT_STR (DStr "default=/var/log/ceph/$cluster.$channel.log cluster=/var/log/ceph/$cluster.log");
  OPTION "mon_cluster_log_file_level" OPT_STR (DStr "info");
  OPTION "enable_experimental_unrecoverable_data_corrupting_features" OPT_STR (DStr EmptyString);
  OPTION "xio_trace_mempool" OPT_BOOL (DBool false);
  OPTION "xio_trace_msgcnt" OPT_BOOL (DBool false);
  OPTION "xio_trace_xcon" OPT_BOOL (DBool false);
  OPTION "xio_queue_depth" OPT_INT (DInt 512);
  OPTION "xio_mp_min" OPT_INT (DInt 128);
  OPTION "xio_mp_max_64" OPT_INT (DInt 65536);
  OPTION "xio_mp_max_256" OPT_INT (DInt 8192);
  OPTION "xio_mp_max_1k" OPT_INT (DInt 8192);
  OPTION "xio_mp_max_page" OPT_INT (DInt 4096);
  OPTION "xio_mp_max_hint" OPT_INT (DInt 4096);
  OPTION "xio_portal_threads" OPT_INT (DInt 2);
  OPTION "key" OPT_STR (DStr EmptyString);
  OPTION "keyfile" OPT_STR (DStr EmptyString);
  OPTION "keyring" OPT_STR (DStr "/etc/ceph/$cluster.$name.keyring,/etc/ceph/$cluster.keyring,/etc/ceph/keyring,/etc/ceph/keyring.bin");
  OPTION "heartbeat_interval" OPT_INT (DInt 5);
  OPTION "heartbeat_file" OPT_STR (DStr EmptyString);
  OPTION "heartbeat_inject_failure" OPT_INT (DInt 0);
  OPTION "perf" OPT_BOOL (DBool true);
  OPTION "ms_type" OPT_STR (DStr "simple");
  OPTION "ms_tcp_nodelay" OPT_BOOL (DBool true);
  OPTION "ms_tcp_rcvbuf" OPT_INT (DInt 0);
  OPTION "ms_tcp_prefetch_max_size" OPT_INT (DInt 4096);
  OPTION "ms_initial_backoff" OPT_DOUBLE (DReal (1 # 5));
  OPTION "ms_max_backoff" OPT_DOUBLE (DReal (15 # 1));
  OPTION "ms_crc_data" OPT_BOOL (DBool true);
  OPTION "ms_crc_header" OPT_BOOL (DBool true);
  OPTION "ms_die_on_bad_msg" OPT_BOOL (DBool false);
  OPTION "ms_die_on_unhandled_msg" OPT_BOOL (DBool false);
  OPTION "ms_die_on_old_message" OPT_BOOL (DBool false);
  OPTION "ms_die_on_skipped_message" OPT_BOOL (DBool false);
  OPTION "ms_dispatch_throttle_bytes" OPT_U64 (DInt 104857600);
  OPTION "ms_bind_ipv6" OPT_BOOL (DBool false);
  OPTION "ms_bind_port_min" OPT_INT (DInt 6800);
  OPTION "ms_bind_port_max" OPT_INT (DInt 7300);
  OPTION "ms_bind_retry_count" OPT_INT (DInt 3);
  OPTION "ms_bind_retry_delay" OPT_INT (DInt 5);
  OPTION "ms_rwthread_stack_bytes" OPT_U64 (DInt 1048576);
  OPTION "ms_tcp_read_timeout" OPT_U64 (DInt 900);
  OPTION "ms_pq_max_tokens_per_priority" OPT_U64 (DInt 16777216);
  OPTION "ms_pq_min_cost" OPT_U64 (DInt 65536);
  OPTION "ms_inject_socket_failures" OPT_U64 (DInt 0);
  OPTION "ms_inject_delay_type" OPT_STR (DStr EmptyString);
  OPTION "ms_inject_delay_msg_type" OPT_STR (DStr EmptyString);
  OPTION "ms_inject_delay_max" OPT_DOUBLE (DReal (1 # 1));
  OPTION "ms_inject_delay_probability" OPT_DOUBLE (DReal (0 # 1));
  OPTION "ms_inject_internal_delays" OPT_DOUBLE (DReal (0 # 1));
  OPTION "ms_dump_on_send" OPT_BOOL (DBool false);
  OPTION "ms_dump_corrupt_message_level" OPT_INT (DInt 1);
  OPTION "ms_async_op_threads" OPT_INT (DInt 2);
  OPTION "ms_async_set_affinity" OPT_BOOL (DBool true)
].

Definition options_2 : list option_def := [
  OPTION "ms_async_affinity_cores" OPT_STR (DStr EmptyString);
  OPTION "inject_early_sigterm" OPT_BOOL (DBool false);
  OPTION "mon_data" OPT_STR (DStr "/var/lib/ceph/mon/$cluster-$id");
  OPTION "mon_initial_members" OPT_STR (DStr EmptyString);
  OPTION "mon_sync_fs_threshold" OPT_INT (DInt 5);
  OPTION "mon_compact_on_start" OPT_BOOL (DBool false);
  OPTION "mon_compact_on_bootstrap" OPT_BOOL (DBool false);
  OPTION "mon_compact_on_trim" OPT_BOOL (DBool true);
  OPTION "mon_tick_interval" OPT_INT (DInt 5);
  OPTION "mon_subscribe_interval" OPT_DOUBLE (DReal (300 # 1));
  OPTION "mon_delta_reset_interval" OPT_DOUBLE (DReal (10 # 1));
  OPTION "mon_osd_laggy_halflife" OPT_INT (DInt 3600);
  OPTION "mon_osd_laggy_weight" OPT_DOUBLE (DReal (3 # 10));
  OPTION "mon_osd_adjust_heartbeat_grace" OPT_BOOL (DBool true);
  OPTION "mon_osd_adjust_down_out_interval" OPT_BOOL (DBool true);
  OPTION "mon_osd_auto_mark_in" OPT_BOOL (DBool false);
  OPTION "mon_osd_auto_mark_auto_out_in" OPT_BOOL (DBool true);
  OPTION "mon_osd_auto_mark_new_in" OPT_BOOL (DBool true);
  OPTION "mon_osd_down_out_interval" OPT_INT (DInt 300);
  OPTION "mon_osd_down_out_subtree_limit" OPT_STR (DStr "rack");
  OPTION "mon_osd_min_up_ratio" OPT_DOUBLE (DReal (3 # 10));
  OPTION "mon_osd_min_in_ratio" OPT_DOUBLE (DReal (3 # 10));
  OPTION "mon_osd_max_op_age" OPT_DOUBLE (DReal (32 # 1));
  OPTION "mon_osd_max_split_count" OPT_INT (DInt 32);
  OPTION "mon_osd_allow_primary_temp" OPT_BOOL (DBool false);
  OPTION "mon_osd_allow_primary_affinity" OPT_BOOL (DBool false);
  OPTION "mon_stat_smooth_intervals" OPT_INT (DInt 2);
  OPTION "mon_lease" OPT_FLOAT (DReal (5 # 1));
  OPTION "mon_lease_renew_interval" OPT_FLOAT (DReal (3 # 1));
  OPTION "mon_lease_ack_timeout" OPT_FLOAT (DReal (10 # 1));
  OPTION "mon_clock_drift_allowed" OPT_FLOAT (DReal (1 # 20));
  OPTION "mon_clock_drift_warn_backoff" OPT_FLOAT (DReal (5 # 1));
  OPTION "mon_timecheck_interval" OPT_FLOAT (DReal (300 # 1));
  OPTION "mon_accept_timeout" OPT_FLOAT (DReal (10 # 1));
  OPTION "mon_pg_create_interval" OPT_FLOAT (DReal (30 # 1));
  OPTION "mon_pg_stuck_threshold" OPT_INT (DInt 300);
  OPTION "mon_pg_warn_min_per_osd" OPT_INT (DInt 30);
  OPTION "mon_pg_warn_max_per_osd" OPT_INT (DInt 300);
  OPTION "mon_pg_warn_max_object_skew" OPT_FLOAT (DReal (10 # 1));
  OPTION "mon_pg_warn_min_objects" OPT_INT (DInt 10000);
  OPTION "mon_pg_warn_min_pool_objects" OPT_INT (DInt 1000);
  OPTION "mon_cache_target_full_warn_ratio" OPT_FLOAT (DReal (33 # 50));
  OPTION "mon_osd_full_ratio" OPT_FLOAT (DReal (19 # 20));
  OPTION "mon_osd_nearfull_ratio" OPT_FLOAT (DReal (17 # 20));
  OPTION "mon_allow_pool_delete" OPT_BOOL (DBool true);
  OPTION "mon_globalid_prealloc" OPT_U32 (DInt 10000);
  OPTION "mon_osd_report_timeout" OPT_INT (DInt 900);
  OPTION "mon_force_standby_active" OPT_BOOL (DBool true);
  OPTION "mon_warn_on_old_mons" OPT_BOOL (DBool true);
  OPTION "mon_warn_on_legacy_crush_tunables" OPT_BOOL (DBool true);
  OPTION "mon_warn_on_osd_down_out_interval_zero" OPT_BOOL (DBool true);
  OPTION "mon_warn_on_cache_pools_without_hit_sets" OPT_BOOL (DBool true);
  OPTION "mon_min_osdmap_epochs" OPT_INT (DInt 500);
  OPTION "mon_max_pgmap_epochs" OPT_INT (DInt 500);
  OPTION "mon_max_log_epochs" OPT_INT (DInt 500);
  OPTION "mon_max_mdsmap_epochs" OPT_INT (DInt 500);
  OPTION "mon_max_osd" OPT_INT (DInt 10000);
  OPTION "mon_probe_timeout" OPT_DOUBLE (DReal (2 # 1));
  OPTION "mon_slurp_timeout" OPT_DOUBLE (DReal (10 # 1));
  OPTION "mon_slurp_bytes" OPT_INT (DInt 262144);
  OPTION "mon_client_bytes" OPT_U64 (DInt 104857600);
  OPTION "mon_daemon_bytes" OPT_U64 (DInt 419430400);
  OPTION "mon_max_log_entries_per_event" OPT_INT (DInt 4096);
  OPTION "mon_reweight_min_pgs_per_osd" OPT_U64 (DInt 10);
  OPTION "mon_reweight_min_bytes_per_osd" OPT_U64 (DInt 104857600);
  OPTION "mon_health_data_update_interval" OPT_FLOAT (DReal (60 # 1));
  OPTION "mon_health_to_clog" OPT_BOOL (DBool true);
  OPTION "mon_health_to_clog_interval" OPT_INT (DInt 3600);
  OPTION "mon_health_to_clog_tick_interval" OPT_DOUBLE (DReal (60 # 1));
  OPTION "mon_data_avail_crit" OPT_INT (DInt 5);
  OPTION "mon_data_avail_warn" OPT_INT (DInt 30);
  OPTION "mon_data_size_warn" OPT_U64 (DInt 16106127360);
  OPTION "mon_config_key_max_entry_size" OPT_INT (DInt 4096);
  OPTION "mon_sync_timeout" OPT_DOUBLE (DReal (60 # 1));
  OPTION "mon_sync_max_payload_size" OPT_U32 (DInt 1048576);
  OPTION "mon_sync_debug" OPT_BOOL (DBool false);
  OPTION "mon_sync_debug_leader" OPT_INT (DInt (-1));
  OPTION "mon_sync_debug_provider" OPT_INT (DInt (-1));
  OPTION "mon_sync_debug_provider_fallback" OPT_INT (DInt (-1));
  OPTION "mon_inject_sync_get_chunk_delay" OPT_DOUBLE (DReal (0 # 1));
  OPTION "mon_osd_min_down_reporters" OPT_INT (DInt 1);
  OPTION "mon_osd_min_down_reports" OPT_INT (DInt 3);
  OPTION "mon_osd_force_trim_to" OPT_INT (DInt 0);
  OPTION "mon_mds_force_trim_to" OPT_INT (DInt 0);
  OPTION "mon_debug_dump_transactions" OPT_BOOL (DBool false);
  OPTION "mon_debug_dump_location" OPT_STR (DStr "/var/log/ceph/$cluster-$name.tdump");
  OPTION "mon_inject_transaction_delay_max" OPT_DOUBLE (DReal (10 # 1));
  OPTION "mon_inject_transaction_delay_probability" OPT_DOUBLE (DReal (0 # 1));
  OPTION "mon_sync_provider_kill_at" OPT_INT (DInt 0);
  OPTION "mon_sync_requester_kill_at" OPT_INT (DInt 0);
  OPTION "mon_force_quorum_join" OPT_BOOL (DBool false);
  OPTION "mon_keyvaluedb" OPT_STR (DStr "leveldb");
  OPTION "paxos_stash_full_interval" OPT_INT (DInt 25);
  OPTION "paxos_max_join_drift" OPT_INT (DInt 10);
  OPTION "paxos_propose_interval" OPT_DOUBLE (DReal (1 # 1));
  OPTION "paxos_min_wait" OPT_DOUBLE (DReal (1 # 20));
  OPTION "paxos_min" OPT_INT (DInt 500);
  OPTION "paxos_trim_min" OPT_INT (DInt 250);
  OPTION "paxos_trim_max" OPT_INT (DInt 500);
  OPTION "paxos_service_trim_min" OPT_INT (DInt 250);
  OPTION "paxos_service_trim_max" OPT_INT (DInt 500);
  OPTION "paxos_kill_at" OPT_INT (DInt 0);
  OPTION "clock_offset" OPT_DOUBLE (DReal (0 # 1));
  OPTION "auth_cluster_required" OPT_STR (DStr "cephx");
  OPTION "auth_service_required" OPT_STR (DStr "cephx");
  OPTION "auth_client_required" OPT_STR (DStr "cephx, none");
  OPTION "auth_supported" OPT_STR (DStr EmptyString);
  OPTION "cephx_require_signatures" OPT_BOOL (DBool false);
  OPTION "cephx_cluster_require_signatures" OPT_BOOL (DBool false);
  OPTION "cephx_service_require_signatures" OPT_BOOL (DBool false);
  OPTION "cephx_sign_messages" OPT_BOOL (DBool true);
  OPTION "auth_mon_ticket_ttl" OPT_DOUBLE (DReal (43200 # 1));
  OPTION "auth_service_ticket_ttl" OPT_DOUBLE (DReal (3600 # 1));
  OPTION "auth_debug" OPT_BOOL (DBool false);
  OPTION "mon_client_hunt_interval" OPT_DOUBLE (DReal (3 # 1));
  OPTION "mon_client_ping_interval" OPT_DOUBLE (DReal (10 # 1));
  OPTION "mon_client_ping_timeout" OPT_DOUBLE (DReal (30 # 1));
  OPTION "mon_client_hunt_interval_backoff" OPT_DOUBLE (DReal (2 # 1));
  OPTION "mon_client_hunt_interval_max_multiple" OPT_DOUBLE (DReal (10 # 1));
  OPTION "mon_client_max_log_entries_per_message" OPT_INT (DInt 1000);
  OPTION "mon_max_pool_pg_num" OPT_INT (DInt 65536);
  OPTION "mon_pool_quota_warn_threshold" OPT_INT (DInt 0);
  OPTION "mon_pool_quota_crit_threshold" OPT_INT (DInt 0);
  OPTION "client_cache_size" OPT_INT (DInt 16384);
  OPTION "client_cache_mid" OPT_FLOAT (DReal (3 # 4));
  OPTION "client_use_random_mds" OPT_BOOL (DBool false);
  OPTION "client_mount_timeout" OPT_DOUBLE (DReal (300 # 1));
  OPTION "client_tick_interval" OPT_DOUBLE (DReal (1 # 1));
  OPTION "client_trace" OPT_STR (DStr EmptyString);
  OPTION "client_readahead_min" OPT_LONGLONG (DInt 131072);
  OPTION "client_readahead_max_bytes" OPT_LONGLONG (DInt 0);
  OPTION "client_readahead_max_periods" OPT_LONGLONG (DInt 4);
  OPTION "client_snapdir" OPT_STR (DStr ".snap");
  OPTION "client_mountpoint" OPT_STR (DStr "/");
  OPTION "client_notify_timeout" OPT_INT (DInt 10);
  OPTION "osd_client_watch_timeout" OPT_INT (DInt 30);
  OPTION "client_caps_release_delay" OPT_INT (DInt 5);
  OPTION "client_quota" OPT_BOOL (DBool false);
  OPTION "client_oc" OPT_BOOL (DBool true);
  OPTION "client_oc_size" OPT_INT (DInt 209715200);
  OPTION "client_oc_max_dirty" OPT_INT (DInt 104857600);
  OPTION "client_oc_target_dirty" OPT_INT (DInt 8388608);
  OPTION "client_oc_max_dirty_age" OPT_DOUBLE (DReal (5 # 1))
].

Definition options_3 : list option_def := [
  OPTION "client_oc_max_objects" OPT_INT (DInt 1000);
  OPTION "client_debug_force_sync_read" OPT_BOOL (DBool false);
  OPTION "client_debug_inject_tick_delay" OPT_INT (DInt 0);
  OPTION "client_max_inline_size" OPT_U64 (DInt 4096);
  OPTION "client_inject_release_failure" OPT_BOOL (DBool false);
  OPTION "fuse_use_invalidate_cb" OPT_BOOL (DBool false);
  OPTION "fuse_allow_other" OPT_BOOL (DBool true);
  OPTION "fuse_default_permissions" OPT_BOOL (DBool true);
  OPTION "fuse_big_writes" OPT_BOOL (DBool true);
  OPTION "fuse_atomic_o_trunc" OPT_BOOL (DBool true);
  OPTION "fuse_debug" OPT_BOOL (DBool false);
  OPTION "fuse_multithreaded" OPT_BOOL (DBool true);
  OPTION "client_try_dentry_invalidate" OPT_BOOL (DBool true);
  OPTION "client_die_on_failed_remount" OPT_BOOL (DBool true);
  OPTION "crush_location" OPT_STR (DStr EmptyString);
  OPTION "objecter_tick_interval" OPT_DOUBLE (DReal (5 # 1));
  OPTION "objecter_timeout" OPT_DOUBLE (DReal (10 # 1));
  OPTION "objecter_inflight_op_bytes" OPT_U64 (DInt 104857600);
  OPTION "objecter_inflight_ops" OPT_U64 (DInt 1024);
  OPTION "objecter_completion_locks_per_session" OPT_U64 (DInt 32);
  OPTION "objecter_inject_no_watch_ping" OPT_BOOL (DBool false);
  OPTION "journaler_allow_split_entries" OPT_BOOL (DBool true);
  OPTION "journaler_write_head_interval" OPT_INT (DInt 15);
  OPTION "journaler_prefetch_periods" OPT_INT (DInt 10);
  OPTION "journaler_prezero_periods" OPT_INT (DInt 5);
  OPTION "journaler_batch_interval" OPT_DOUBLE (DReal (1 # 1000));
  OPTION "journaler_batch_max" OPT_U64 (DInt 0);
  OPTION "mds_data" OPT_STR (DStr "/var/lib/ceph/mds/$cluster-$id");
  OPTION "mds_max_file_size" OPT_U64 (DInt 1099511627776);
  OPTION "mds_cache_size" OPT_INT (DInt 100000);
  OPTION "mds_cache_mid" OPT_FLOAT (DReal (7 # 10));
  OPTION "mds_max_file_recover" OPT_U32 (DInt 32);
  OPTION "mds_mem_max" OPT_INT (DInt 1048576);
  OPTION "mds_dir_max_commit_size" OPT_INT (DInt 10);
  OPTION "mds_decay_halflife" OPT_FLOAT (DReal (5 # 1));
  OPTION "mds_beacon_interval" OPT_FLOAT (DReal (4 # 1));
  OPTION "mds_beacon_grace" OPT_FLOAT (DReal (15 # 1));
  OPTION "mds_enforce_unique_name" OPT_BOOL (DBool true);
  OPTION "mds_blacklist_interval" OPT_FLOAT (DReal (1440 # 1));
  OPTION "mds_session_timeout" OPT_FLOAT (DReal (60 # 1));
  OPTION "mds_revoke_cap_timeout" OPT_FLOAT (DReal (60 # 1));
  OPTION "mds_recall_state_timeout" OPT_FLOAT (DReal (60 # 1));
  OPTION "mds_freeze_tree_timeout" OPT_FLOAT (DReal (30 # 1));
  OPTION "mds_session_autoclose" OPT_FLOAT (DReal (300 # 1));
  OPTION "mds_health_summarize_threshold" OPT_INT (DInt 10);
  OPTION "mds_reconnect_timeout" OPT_FLOAT (DReal (45 # 1));
  OPTION "mds_tick_interval" OPT_FLOAT (DReal (5 # 1));
  OPTION "mds_dirstat_min_interval" OPT_FLOAT (DReal (1 # 1));
  OPTION "mds_scatter_nudge_interval" OPT_FLOAT (DReal (5 # 1));
  OPTION "mds_client_prealloc_inos" OPT_INT (DInt 1000);
  OPTION "mds_early_reply" OPT_BOOL (DBool true);
  OPTION "mds_default_dir_hash" OPT_INT (DInt CEPH_STR_HASH_RJENKINS);
  OPTION "mds_log" OPT_BOOL (DBool true);
  OPTION "mds_log_skip_corrupt_events" OPT_BOOL (DBool false);
  OPTION "mds_log_max_events" OPT_INT (DInt (-1));
  OPTION "mds_log_events_per_segment" OPT_INT (DInt 1024);
  OPTION "mds_log_segment_size" OPT_INT (DInt 0);
  OPTION "mds_log_max_segments" OPT_INT (DInt 30);
  OPTION "mds_log_max_expiring" OPT_INT (DInt 20);
  OPTION "mds_bal_sample_interval" OPT_FLOAT (DReal (3 # 1));
  OPTION "mds_bal_replicate_threshold" OPT_FLOAT (DReal (8000 # 1));
  OPTION "mds_bal_unreplicate_threshold" OPT_FLOAT (DReal (0 # 1));
  OPTION "mds_bal_frag" OPT_BOOL (DBool false);
  OPTION "mds_bal_split_size" OPT_INT (DInt 10000);
  OPTION "mds_bal_split_rd" OPT_FLOAT (DReal (25000 # 1));
  OPTION "mds_bal_split_wr" OPT_FLOAT (DReal (10000 # 1));
  OPTION "mds_bal_split_bits" OPT_INT (DInt 3);
  OPTION "mds_bal_merge_size" OPT_INT (DInt 50);
  OPTION "mds_bal_merge_rd" OPT_FLOAT (DReal (1000 # 1));
  OPTION "mds_bal_merge_wr" OPT_FLOAT (DReal (1000 # 1));
  OPTION "mds_bal_interval" OPT_INT (DInt 10);
  OPTION "mds_bal_fragment_interval" OPT_INT (DInt 5);
  OPTION "mds_bal_idle_threshold" OPT_FLOAT (DReal (0 # 1));
  OPTION "mds_bal_max" OPT_INT (DInt (-1));
  OPTION "mds_bal_max_until" OPT_INT (DInt (-1));
  OPTION "mds_bal_mode" OPT_INT (DInt 0);
  OPTION "mds_bal_min_rebalance" OPT_FLOAT (DReal (1 # 10));
  OPTION "mds_bal_min_start" OPT_FLOAT (DReal (1 # 5));
  OPTION "mds_bal_need_min" OPT_FLOAT (DReal (4 # 5));
  OPTION "mds_bal_need_max" OPT_FLOAT (DReal (6 # 5));
  OPTION "mds_bal_midchunk" OPT_FLOAT (DReal (3 # 10));
  OPTION "mds_bal_minchunk" OPT_FLOAT (DReal (1 # 1000));
  OPTION "mds_bal_target_removal_min" OPT_INT (DInt 5);
  OPTION "mds_bal_target_removal_max" OPT_INT (DInt 10);
  OPTION "mds_replay_interval" OPT_FLOAT (DReal (1 # 1));
  OPTION "mds_bal_minoffload" OPT_INT (DInt 10);
  OPTION "mds_bal_lua" OPT_INT (DInt 0);
  OPTION "mds_bal_metaload" OPT_STR (DStr EmptyString);
  OPTION "mds_bal_mdsload" OPT_STR (DStr "-1");
  OPTION "mds_bal_when" OPT_STR (DStr EmptyString);
  OPTION "mds_bal_where" OPT_STR (DStr EmptyString);
  OPTION "mds_bal_howmuch" OPT_STR (DStr EmptyString);
  OPTION "mds_bal_print_dfs" OPT_INT (DInt 10);
  OPTION "mds_bal_print_dfs_metaload" OPT_FLOAT (DReal (0 # 1));
  OPTION "mds_bal_print_dfs_depth" OPT_INT (DInt 4);
  OPTION "mds_shutdown_check" OPT_INT (DInt 0);
  OPTION "mds_thrash_exports" OPT_INT (DInt 0);
  OPTION "mds_thrash_fragments" OPT_INT (DInt 0);
  OPTION "mds_dump_cache_on_map" OPT_BOOL (DBool false);
  OPTION "mds_dump_cache_after_rejoin" OPT_BOOL (DBool false);
  OPTION "mds_verify_scatter" OPT_BOOL (DBool false);
  OPTION "mds_debug_scatterstat" OPT_BOOL (DBool false);
  OPTION "mds_debug_frag" OPT_BOOL (DBool false);
  OPTION "mds_debug_auth_pins" OPT_BOOL (DBool false);
  OPTION "mds_debug_subtrees" OPT_BOOL (DBool false);
  OPTION "mds_kill_mdstable_at" OPT_INT (DInt 0);
  OPTION "mds_kill_export_at" OPT_INT (DInt 0);
  OPTION "mds_kill_import_at" OPT_INT (DInt 0);
  OPTION "mds_kill_link_at" OPT_INT (DInt 0);
  OPTION "mds_kill_rename_at" OPT_INT (DInt 0);
  OPTION "mds_kill_openc_at" OPT_INT (DInt 0);
  OPTION "mds_kill_journal_at" OPT_INT (DInt 0);
  OPTION "mds_kill_journal_expire_at" OPT_INT (DInt 0);
  OPTION "mds_kill_journal_replay_at" OPT_INT (DInt 0);
  OPTION "mds_journal_format" OPT_U32 (DInt 1);
  OPTION "mds_kill_create_at" OPT_INT (DInt 0);
  OPTION "mds_inject_traceless_reply_probability" OPT_DOUBLE (DReal (0 # 1));
  OPTION "mds_wipe_sessions" OPT_BOOL (DBool false);
  OPTION "mds_wipe_ino_prealloc" OPT_BOOL (DBool false);
  OPTION "mds_skip_ino" OPT_INT (DInt 0);
  OPTION "max_mds" OPT_INT (DInt 1);
  OPTION "mds_standby_for_name" OPT_STR (DStr EmptyString);
  OPTION "mds_standby_for_rank" OPT_INT (DInt (-1));
  OPTION "mds_standby_replay" OPT_BOOL (DBool false);
  OPTION "mds_enable_op_tracker" OPT_BOOL (DBool true);
  OPTION "mds_op_history_size" OPT_U32 (DInt 20);
  OPTION "mds_op_history_duration" OPT_U32 (DInt 600);
  OPTION "mds_op_complaint_time" OPT_FLOAT (DReal (30 # 1));
  OPTION "mds_op_log_threshold" OPT_INT (DInt 5);
  OPTION "mds_snap_min_uid" OPT_U32 (DInt 0);
  OPTION "mds_snap_max_uid" OPT_U32 (DInt 65536);
  OPTION "mds_verify_backtrace" OPT_U32 (DInt 1);
  OPTION "mds_action_on_write_error" OPT_U32 (DInt 1);
  OPTION "osd_compact_leveldb_on_mount" OPT_BOOL (DBool false);
  OPTION "osd_max_backfills" OPT_U64 (DInt 10)
].

Definition options_4 : list option_def := [
  OPTION "osd_min_recovery_priority" OPT_INT (DInt 0);
  OPTION "osd_backfill_full_ratio" OPT_FLOAT (DReal (17 # 20));
  OPTION "osd_backfill_retry_interval" OPT_DOUBLE (DReal (10 # 1));
  OPTION "osd_agent_max_ops" OPT_INT (DInt 4);
  OPTION "osd_agent_min_evict_effort" OPT_FLOAT (DReal (1 # 10));
  OPTION "osd_agent_quantize_effort" OPT_FLOAT (DReal (1 # 10));
  OPTION "osd_agent_delay_time" OPT_FLOAT (DReal (5 # 1));
  OPTION "osd_agent_hist_halflife" OPT_INT (DInt 1000);
  OPTION "osd_agent_slop" OPT_FLOAT (DReal (1 # 50));
  OPTION "osd_uuid" OPT_UUID DUuid;
  OPTION "osd_data" OPT_STR (DStr "/var/lib/ceph/osd/$cluster-$id");
  OPTION "osd_journal" OPT_STR (DStr "/var/lib/ceph/osd/$cluster-$id/journal");
  OPTION "osd_journal_size" OPT_INT (DInt 5120);
  OPTION "osd_max_write_size" OPT_INT (DInt 90);
  OPTION "osd_max_pgls" OPT_U64 (DInt 1024);
  OPTION "osd_client_message_size_cap" OPT_U64 (DInt 524288000);
  OPTION "osd_client_message_cap" OPT_U64 (DInt 100);
  OPTION "osd_pg_bits" OPT_INT (DInt 6);
  OPTION "osd_pgp_bits" OPT_INT (DInt 6);
  OPTION "osd_crush_chooseleaf_type" OPT_INT (DInt 1);
  OPTION "osd_pool_default_crush_rule" OPT_INT (DInt (-1));
  OPTION "osd_pool_default_crush_replicated_ruleset" OPT_INT (DInt CEPH_DEFAULT_CRUSH_REPLICATED_RULESET);
  OPTION "osd_pool_erasure_code_stripe_width" OPT_U32 (DInt OSD_POOL_ERASURE_CODE_STRIPE_WIDTH);
  OPTION "osd_pool_default_size" OPT_INT (DInt 3);
  OPTION "osd_pool_default_min_size" OPT_INT (DInt 0);
  OPTION "osd_pool_default_pg_num" OPT_INT (DInt 8);
  OPTION "osd_pool_default_pgp_num" OPT_INT (DInt 8);
  OPTION "osd_pool_default_erasure_code_directory" OPT_STR (DStr (CEPH_PKGLIBDIR +:+ "/erasure-code"));
  OPTION "osd_pool_default_erasure_code_profile" OPT_STR (DStr "plugin=jerasure technique=reed_sol_van k=2 m=1 ");
  OPTION "osd_erasure_code_plugins" OPT_STR (DStr ("jerasure lrc" +:+ (if HAVE_BETTER_YASM_ELF64 then " isa" else EmptyString)));
  OPTION "osd_allow_recovery_below_min_size" OPT_BOOL (DBool true);
  OPTION "osd_pool_default_flags" OPT_INT (DInt 0);
  OPTION "osd_pool_default_flag_hashpspool" OPT_BOOL (DBool true);
  OPTION "osd_pool_default_flag_nodelete" OPT_BOOL (DBool false);
  OPTION "osd_pool_default_flag_nopgchange" OPT_BOOL (DBool false);
  OPTION "osd_pool_default_flag_nosizechange" OPT_BOOL (DBool false);
  OPTION "osd_pool_default_hit_set_bloom_fpp" OPT_FLOAT (DReal (1 # 20));
  OPTION "osd_pool_default_cache_target_dirty_ratio" OPT_FLOAT (DReal (2 # 5));
  OPTION "osd_pool_default_cache_target_full_ratio" OPT_FLOAT (DReal (4 # 5));
  OPTION "osd_pool_default_cache_min_flush_age" OPT_INT (DInt 0);
  OPTION "osd_pool_default_cache_min_evict_age" OPT_INT (DInt 0);
  OPTION "osd_hit_set_min_size" OPT_INT (DInt 1000);
  OPTION "osd_hit_set_max_size" OPT_INT (DInt 100000);
  OPTION "osd_hit_set_namespace" OPT_STR (DStr ".ceph-internal");
  OPTION "osd_tier_default_cache_mode" OPT_STR (DStr "writeback");
  OPTION "osd_tier_default_cache_hit_set_count" OPT_INT (DInt 4);
  OPTION "osd_tier_default_cache_hit_set_period" OPT_INT (DInt 1200);
  OPTION "osd_tier_default_cache_hit_set_type" OPT_STR (DStr "bloom");
  OPTION "osd_tier_default_cache_min_read_recency_for_promote" OPT_INT (DInt 1);
  OPTION "osd_map_dedup" OPT_BOOL (DBool true);
  OPTION "osd_map_max_advance" OPT_INT (DInt 200);
  OPTION "osd_map_cache_size" OPT_INT (DInt 500);
  OPTION "osd_map_message_max" OPT_INT (DInt 100);
  OPTION "osd_map_share_max_epochs" OPT_INT (DInt 100);
  OPTION "osd_inject_bad_map_crc_probability" OPT_FLOAT (DReal (0 # 1));
  OPTION "osd_inject_failure_on_pg_removal" OPT_BOOL (DBool false);
  OPTION "osd_op_threads" OPT_INT (DInt 2);
  OPTION "osd_peering_wq_batch_size" OPT_U64 (DInt 20);
  OPTION "osd_op_pq_max_tokens_per_priority" OPT_U64 (DInt 4194304);
  OPTION "osd_op_pq_min_cost" OPT_U64 (DInt 65536);
  OPTION "osd_disk_threads" OPT_INT (DInt 1);
  OPTION "osd_disk_thread_ioprio_class" OPT_STR (DStr EmptyString);
  OPTION "osd_disk_thread_ioprio_priority" OPT_INT (DInt (-1));
  OPTION "osd_recovery_threads" OPT_INT (DInt 1);
  OPTION "osd_recover_clone_overlap" OPT_BOOL (DBool true);
  OPTION "osd_op_num_threads_per_shard" OPT_INT (DInt 2);
  OPTION "osd_op_num_shards" OPT_INT (DInt 5);
  OPTION "osd_read_eio_on_bad_digest" OPT_BOOL (DBool true);
  OPTION "osd_recover_clone_overlap_limit" OPT_INT (DInt 10);
  OPTION "osd_backfill_scan_min" OPT_INT (DInt 64);
  OPTION "osd_backfill_scan_max" OPT_INT (DInt 512);
  OPTION "osd_op_thread_timeout" OPT_INT (DInt 15);
  OPTION "osd_recovery_thread_timeout" OPT_INT (DInt 30);
  OPTION "osd_snap_trim_thread_timeout" OPT_INT (DInt 3600);
  OPTION "osd_snap_trim_sleep" OPT_FLOAT (DReal (0 # 1));
  OPTION "osd_scrub_thread_timeout" OPT_INT (DInt 60);
  OPTION "osd_scrub_finalize_thread_timeout" OPT_INT (DInt 600);
  OPTION "osd_scrub_invalid_stats" OPT_BOOL (DBool true);
  OPTION "osd_remove_thread_timeout" OPT_INT (DInt 3600);
  OPTION "osd_command_thread_timeout" OPT_INT (DInt 600);
  OPTION "osd_age" OPT_FLOAT (DReal (4 # 5));
  OPTION "osd_age_time" OPT_INT (DInt 0);
  OPTION "osd_heartbeat_addr" OPT_ADDR DAddr;
  OPTION "osd_heartbeat_interval" OPT_INT (DInt 6);
  OPTION "osd_heartbeat_grace" OPT_INT (DInt 20);
  OPTION "osd_heartbeat_min_peers" OPT_INT (DInt 10);
  OPTION "osd_heartbeat_use_min_delay_socket" OPT_BOOL (DBool false);
  OPTION "osd_pg_max_concurrent_snap_trims" OPT_U64 (DInt 2);
  OPTION "osd_heartbeat_min_healthy_ratio" OPT_FLOAT (DReal (33 # 100));
  OPTION "osd_mon_heartbeat_interval" OPT_INT (DInt 30);
  OPTION "osd_mon_report_interval_max" OPT_INT (DInt 120);
  OPTION "osd_mon_report_interval_min" OPT_INT (DInt 5);
  OPTION "osd_pg_stat_report_interval_max" OPT_INT (DInt 500);
  OPTION "osd_mon_ack_timeout" OPT_INT (DInt 30);
  OPTION "osd_default_data_pool_replay_window" OPT_INT (DInt 45);
  OPTION "osd_preserve_trimmed_log" OPT_BOOL (DBool false);
  OPTION "osd_auto_mark_unfound_lost" OPT_BOOL (DBool false);
  OPTION "osd_recovery_delay_start" OPT_FLOAT (DReal (0 # 1));
  OPTION "osd_recovery_max_active" OPT_INT (DInt 15);
  OPTION "osd_recovery_max_single_start" OPT_INT (DInt 5);
  OPTION "osd_recovery_max_chunk" OPT_U64 (DInt 8388608);
  OPTION "osd_copyfrom_max_chunk" OPT_U64 (DInt 8388608);
  OPTION "osd_push_per_object_cost" OPT_U64 (DInt 1000);
  OPTION "osd_max_push_cost" OPT_U64 (DInt 8388608);
  OPTION "osd_max_push_objects" OPT_U64 (DInt 10);
  OPTION "osd_recovery_forget_lost_objects" OPT_BOOL (DBool false);
  OPTION "osd_max_scrubs" OPT_INT (DInt 1);
  OPTION "osd_scrub_begin_hour" OPT_INT (DInt 0)
].

Definition options_5 : list option_def := [
  OPTION "osd_scrub_end_hour" OPT_INT (DInt 24);
  OPTION "osd_scrub_load_threshold" OPT_FLOAT (DReal (1 # 2));
  OPTION "osd_scrub_min_interval" OPT_FLOAT (DReal (86400 # 1));
  OPTION "osd_scrub_max_interval" OPT_FLOAT (DReal (604800 # 1));
  OPTION "osd_scrub_chunk_min" OPT_INT (DInt 5);
  OPTION "osd_scrub_chunk_max" OPT_INT (DInt 25);
  OPTION "osd_scrub_sleep" OPT_FLOAT (DReal (0 # 1));
  OPTION "osd_deep_scrub_interval" OPT_FLOAT (DReal (604800 # 1));
  OPTION "osd_deep_scrub_stride" OPT_INT (DInt 524288);
  OPTION "osd_deep_scrub_update_digest_min_age" OPT_INT (DInt 7200);
  OPTION "osd_scan_list_ping_tp_interval" OPT_U64 (DInt 100);
  OPTION "osd_auto_weight" OPT_BOOL (DBool false);
  OPTION "osd_class_dir" OPT_STR (DStr (CEPH_LIBDIR +:+ "/rados-classes"));
  OPTION "osd_open_classes_on_start" OPT_BOOL (DBool true);
  OPTION "osd_check_for_log_corruption" OPT_BOOL (DBool false);
  OPTION "osd_use_stale_snap" OPT_BOOL (DBool false);
  OPTION "osd_rollback_to_cluster_snap" OPT_STR (DStr EmptyString);
  OPTION "osd_default_notify_timeout" OPT_U32 (DInt 30);
  OPTION "osd_kill_backfill_at" OPT_INT (DInt 0);
  OPTION "osd_pg_epoch_persisted_max_stale" OPT_U32 (DInt 200);
  OPTION "osd_min_pg_log_entries" OPT_U32 (DInt 3000);
  OPTION "osd_max_pg_log_entries" OPT_U32 (DInt 10000);
  OPTION "osd_pg_log_trim_min" OPT_U32 (DInt 100);
  OPTION "osd_op_complaint_time" OPT_FLOAT (DReal (30 # 1));
  OPTION "osd_command_max_records" OPT_INT (DInt 256);
  OPTION "osd_max_pg_blocked_by" OPT_U32 (DInt 16);
  OPTION "osd_op_log_threshold" OPT_INT (DInt 5);
  OPTION "osd_verify_sparse_read_holes" OPT_BOOL (DBool false);
  OPTION "osd_debug_drop_ping_probability" OPT_DOUBLE (DReal (0 # 1));
  OPTION "osd_debug_drop_ping_duration" OPT_INT (DInt 0);
  OPTION "osd_debug_drop_pg_create_probability" OPT_DOUBLE (DReal (0 # 1));
  OPTION "osd_debug_drop_pg_create_duration" OPT_INT (DInt 1);
  OPTION "osd_debug_drop_op_probability" OPT_DOUBLE (DReal (0 # 1));
  OPTION "osd_debug_op_order" OPT_BOOL (DBool false);
  OPTION "osd_debug_verify_snaps_on_info" OPT_BOOL (DBool false);
  OPTION "osd_debug_verify_stray_on_activate" OPT_BOOL (DBool false);
  OPTION "osd_debug_skip_full_check_in_backfill_reservation" OPT_BOOL (DBool false);
  OPTION "osd_debug_reject_backfill_probability" OPT_DOUBLE (DReal (0 # 1));
  OPTION "osd_debug_inject_copyfrom_error" OPT_BOOL (DBool false);
  OPTION "osd_enable_op_tracker" OPT_BOOL (DBool true);
  OPTION "osd_num_op_tracker_shard" OPT_U32 (DInt 32);
  OPTION "osd_op_history_size" OPT_U32 (DInt 20);
  OPTION "osd_op_history_duration" OPT_U32 (DInt 600);
  OPTION "osd_target_transaction_size" OPT_INT (DInt 30);
  OPTION "osd_failsafe_full_ratio" OPT_FLOAT (DReal (97 # 100));
  OPTION "osd_failsafe_nearfull_ratio" OPT_FLOAT (DReal (9 # 10));
  OPTION "osd_pg_object_context_cache_count" OPT_INT (DInt 64);
  OPTION "osd_enable_degraded_writes" OPT_BOOL (DBool true);
  OPTION "osd_debug_pg_log_writeout" OPT_BOOL (DBool false);
  OPTION "threadpool_default_timeout" OPT_INT (DInt 60);
  OPTION "threadpool_empty_queue_max_wait" OPT_INT (DInt 2);
  OPTION "leveldb_write_buffer_size" OPT_U64 (DInt 8388608);
  OPTION "leveldb_cache_size" OPT_U64 (DInt 134217728);
  OPTION "leveldb_block_size" OPT_U64 (DInt 0);
  OPTION "leveldb_bloom_size" OPT_INT (DInt 0);
  OPTION "leveldb_max_open_files" OPT_INT (DInt 0);
  OPTION "leveldb_compression" OPT_BOOL (DBool true);
  OPTION "leveldb_paranoid" OPT_BOOL (DBool false);
  OPTION "leveldb_log" OPT_STR (DStr "/dev/null");
  OPTION "leveldb_compact_on_mount" OPT_BOOL (DBool false);
  OPTION "kinetic_host" OPT_STR (DStr EmptyString);
  OPTION "kinetic_port" OPT_INT (DInt 8123);
  OPTION "kinetic_user_id" OPT_INT (DInt 1);
  OPTION "kinetic_hmac_key" OPT_STR (DStr "asdfasdf");
  OPTION "kinetic_use_ssl" OPT_BOOL (DBool false);
  OPTION "rocksdb_compact_on_mount" OPT_BOOL (DBool false);
  OPTION "rocksdb_write_buffer_size" OPT_U64 (DInt 0);
  OPTION "rocksdb_target_file_size_base" OPT_U64 (DInt 0);
  OPTION "rocksdb_cache_size" OPT_U64 (DInt 0);
  OPTION "rocksdb_block_size" OPT_U64 (DInt 0);
  OPTION "rocksdb_bloom_size" OPT_INT (DInt 0);
  OPTION "rocksdb_write_buffer_num" OPT_INT (DInt 0);
  OPTION "rocksdb_background_compactions" OPT_INT (DInt 0);
  OPTION "rocksdb_background_flushes" OPT_INT (DInt 0);
  OPTION "rocksdb_max_open_files" OPT_INT (DInt 0);
  OPTION "rocksdb_compression" OPT_STR (DStr EmptyString);
  OPTION "rocksdb_paranoid" OPT_BOOL (DBool false);
  OPTION "rocksdb_log" OPT_STR (DStr "/dev/null");
  OPTION "rocksdb_level0_file_num_compaction_trigger" OPT_U64 (DInt 0);
  OPTION "rocksdb_level0_slowdown_writes_trigger" OPT_U64 (DInt 0);
  OPTION "rocksdb_level0_stop_writes_trigger" OPT_U64 (DInt 0);
  OPTION "rocksdb_disableDataSync" OPT_BOOL (DBool true);
  OPTION "rocksdb_disableWAL" OPT_BOOL (DBool false);
  OPTION "rocksdb_num_levels" OPT_INT (DInt 0);
  OPTION "rocksdb_wal_dir" OPT_STR (DStr EmptyString);
  OPTION "rocksdb_info_log_level" OPT_STR (DStr "info");
  OPTION "osd_client_op_priority" OPT_U32 (DInt 63);
  OPTION "osd_recovery_op_priority" OPT_U32 (DInt 10);
  OPTION "osd_recovery_op_warn_multiple" OPT_U32 (DInt 16);
  OPTION "osd_mon_shutdown_timeout" OPT_DOUBLE (DReal (5 # 1));
  OPTION "osd_max_object_size" OPT_U64 (DInt 107374182400);
  OPTION "osd_max_object_name_len" OPT_U32 (DInt 2048);
  OPTION "osd_max_attr_name_len" OPT_U32 (DInt 100);
  OPTION "osd_max_attr_size" OPT_U64 (DInt 0);
  OPTION "osd_objectstore" OPT_STR (DStr "filestore");
  OPTION "osd_debug_override_acting_compat" OPT_BOOL (DBool false);
  OPTION "osd_bench_small_size_max_iops" OPT_U32 (DInt 100);
  OPTION "osd_bench_large_size_max_throughput" OPT_U64 (DInt 104857600);
  OPTION "osd_bench_max_block_size" OPT_U64 (DInt 67108864);
  OPTION "osd_bench_duration" OPT_U32 (DInt 30);
  OPTION "memstore_device_bytes" OPT_U64 (DInt 1073741824);
  OPTION "filestore_omap_backend" OPT_STR (DStr "leveldb");
  OPTION "filestore_debug_disable_sharded_check" OPT_BOOL (DBool false);
  OPTION "filestore_wbthrottle_enable" OPT_BOOL (DBool true);
  OPTION "filestore_wbthrottle_btrfs_bytes_start_flusher" OPT_U64 (DInt 41943040);
  OPTION "filestore_wbthrottle_btrfs_bytes_hard_limit" OPT_U64 (DInt 419430400);
  OPTION "filestore_wbthrottle_btrfs_ios_start_flusher" OPT_U64 (DInt 500);
  OPTION "filestore_wbthrottle_btrfs_ios_hard_limit" OPT_U64 (DInt 5000);
  OPTION "filestore_wbthrottle_btrfs_inodes_start_flusher" OPT_U64 (DInt 500);
  OPTION "filestore_wbthrottle_xfs_bytes_start_flusher" OPT_U64 (DInt 41943040);
  OPTION "filestore_wbthrottle_xfs_bytes_hard_limit" OPT_U64 (DInt 419430400);
  OPTION "filestore_wbthrottle_xfs_ios_start_flusher" OPT_U64 (DInt 500)
].

Definition options_6 : list option_def := [
  OPTION "filestore_wbthrottle_xfs_ios_hard_limit" OPT_U64 (DInt 5000);
  OPTION "filestore_wbthrottle_xfs_inodes_start_flusher" OPT_U64 (DInt 500);
  OPTION "filestore_wbthrottle_btrfs_inodes_hard_limit" OPT_U64 (DInt 5000);
  OPTION "filestore_wbthrottle_xfs_inodes_hard_limit" OPT_U64 (DInt 5000);
  OPTION "filestore_index_retry_probability" OPT_DOUBLE (DReal (0 # 1));
  OPTION "filestore_debug_inject_read_err" OPT_BOOL (DBool false);
  OPTION "filestore_debug_omap_check" OPT_BOOL (DBool false);
  OPTION "filestore_omap_header_cache_size" OPT_INT (DInt 1024);
  OPTION "filestore_max_inline_xattr_size" OPT_U32 (DInt 0);
  OPTION "filestore_max_inline_xattr_size_xfs" OPT_U32 (DInt 65536);
  OPTION "filestore_max_inline_xattr_size_btrfs" OPT_U32 (DInt 2048);
  OPTION "filestore_max_inline_xattr_size_other" OPT_U32 (DInt 512);
  OPTION "filestore_max_inline_xattrs" OPT_U32 (DInt 0);
  OPTION "filestore_max_inline_xattrs_xfs" OPT_U32 (DInt 10);
  OPTION "filestore_max_inline_xattrs_btrfs" OPT_U32 (DInt 10);
  OPTION "filestore_max_inline_xattrs_other" OPT_U32 (DInt 2);
  OPTION "filestore_sloppy_crc" OPT_BOOL (DBool false);
  OPTION "filestore_sloppy_crc_block_size" OPT_INT (DInt 65536);
  OPTION "filestore_max_alloc_hint_size" OPT_U64 (DInt 1048576);
  OPTION "filestore_max_sync_interval" OPT_DOUBLE (DReal (5 # 1));
  OPTION "filestore_min_sync_interval" OPT_DOUBLE (DReal (1 # 100));
  OPTION "filestore_btrfs_snap" OPT_BOOL (DBool true);
  OPTION "filestore_btrfs_clone_range" OPT_BOOL (DBool true);
  OPTION "filestore_zfs_snap" OPT_BOOL (DBool false);
  OPTION "filestore_fsync_flushes_journal_data" OPT_BOOL (DBool false);
  OPTION "filestore_fiemap" OPT_BOOL (DBool false);
  OPTION "filestore_fadvise" OPT_BOOL (DBool true);
  OPTION "filestore_xfs_extsize" OPT_BOOL (DBool true);
  OPTION "filestore_journal_parallel" OPT_BOOL (DBool false);
  OPTION "filestore_journal_writeahead" OPT_BOOL (DBool false);
  OPTION "filestore_journal_trailing" OPT_BOOL (DBool false);
  OPTION "filestore_queue_max_ops" OPT_INT (DInt 50);
  OPTION "filestore_queue_max_bytes" OPT_INT (DInt 104857600);
  OPTION "filestore_queue_committing_max_ops" OPT_INT (DInt 500);
  OPTION "filestore_queue_committing_max_bytes" OPT_INT (DInt 104857600);
  OPTION "filestore_op_threads" OPT_INT (DInt 2);
  OPTION "filestore_op_thread_timeout" OPT_INT (DInt 60);
  OPTION "filestore_op_thread_suicide_timeout" OPT_INT (DInt 180);
  OPTION "filestore_commit_timeout" OPT_FLOAT (DReal (600 # 1));
  OPTION "filestore_fiemap_threshold" OPT_INT (DInt 4096);
  OPTION "filestore_merge_threshold" OPT_INT (DInt 10);
  OPTION "filestore_split_multiple" OPT_INT (DInt 2);
  OPTION "filestore_update_to" OPT_INT (DInt 1000);
  OPTION "filestore_blackhole" OPT_BOOL (DBool false);
  OPTION "filestore_fd_cache_size" OPT_INT (DInt 128);
  OPTION "filestore_fd_cache_shards" OPT_INT (DInt 16);
  OPTION "filestore_dump_file" OPT_STR (DStr EmptyString);
  OPTION "filestore_kill_at" OPT_INT (DInt 0);
  OPTION "filestore_inject_stall" OPT_INT (DInt 0);
  OPTION "filestore_fail_eio" OPT_BOOL (DBool true);
  OPTION "filestore_debug_verify_split" OPT_BOOL (DBool false);
  OPTION "journal_dio" OPT_BOOL (DBool true);
  OPTION "journal_aio" OPT_BOOL (DBool true);
  OPTION "journal_force_aio" OPT_BOOL (DBool false);
  OPTION "keyvaluestore_queue_max_ops" OPT_INT (DInt 50);
  OPTION "keyvaluestore_queue_max_bytes" OPT_INT (DInt 104857600);
  OPTION "keyvaluestore_debug_check_backend" OPT_BOOL (DBool false);
  OPTION "keyvaluestore_op_threads" OPT_INT (DInt 2);
  OPTION "keyvaluestore_op_thread_timeout" OPT_INT (DInt 60);
  OPTION "keyvaluestore_op_thread_suicide_timeout" OPT_INT (DInt 180);
  OPTION "keyvaluestore_default_strip_size" OPT_INT (DInt 4096);
  OPTION "keyvaluestore_max_expected_write_size" OPT_U64 (DInt 16777216);
  OPTION "keyvaluestore_header_cache_size" OPT_INT (DInt 4096);
  OPTION "keyvaluestore_backend" OPT_STR (DStr "leveldb");
  OPTION "journal_max_corrupt_search" OPT_U64 (DInt 10485760);
  OPTION "journal_block_align" OPT_BOOL (DBool true);
  OPTION "journal_write_header_frequency" OPT_U64 (DInt 0);
  OPTION "journal_max_write_bytes" OPT_INT (DInt 10485760);
  OPTION "journal_max_write_entries" OPT_INT (DInt 100);
  OPTION "journal_queue_max_ops" OPT_INT (DInt 300);
  OPTION "journal_queue_max_bytes" OPT_INT (DInt 33554432);
  OPTION "journal_align_min_size" OPT_INT (DInt 65536);
  OPTION "journal_replay_from" OPT_INT (DInt 0);
  OPTION "journal_zero_on_create" OPT_BOOL (DBool false);
  OPTION "journal_ignore_corruption" OPT_BOOL (DBool false);
  OPTION "journal_discard" OPT_BOOL (DBool false);
  OPTION "rados_mon_op_timeout" OPT_DOUBLE (DReal (0 # 1));
  OPTION "rados_osd_op_timeout" OPT_DOUBLE (DReal (0 # 1));
  OPTION "rbd_cache" OPT_BOOL (DBool true);
  OPTION "rbd_cache_writethrough_until_flush" OPT_BOOL (DBool true);
  OPTION "rbd_cache_size" OPT_LONGLONG (DInt 33554432);
  OPTION "rbd_cache_max_dirty" OPT_LONGLONG (DInt 25165824);
  OPTION "rbd_cache_target_dirty" OPT_LONGLONG (DInt 16777216);
  OPTION "rbd_cache_max_dirty_age" OPT_FLOAT (DReal (1 # 1));
  OPTION "rbd_cache_max_dirty_object" OPT_INT (DInt 0);
  OPTION "rbd_cache_block_writes_upfront" OPT_BOOL (DBool false);
  OPTION "rbd_concurrent_management_ops" OPT_INT (DInt 10);
  OPTION "rbd_balance_snap_reads" OPT_BOOL (DBool false);
  OPTION "rbd_localize_snap_reads" OPT_BOOL (DBool false);
  OPTION "rbd_balance_parent_reads" OPT_BOOL (DBool false);
  OPTION "rbd_localize_parent_reads" OPT_BOOL (DBool true);
  OPTION "rbd_readahead_trigger_requests" OPT_INT (DInt 10);
  OPTION "rbd_readahead_max_bytes" OPT_LONGLONG (DInt 524288);
  OPTION "rbd_readahead_disable_after_bytes" OPT_LONGLONG (DInt 52428800);
  OPTION "rbd_clone_copy_on_read" OPT_BOOL (DBool false);
  OPTION "rbd_blacklist_on_break_lock" OPT_BOOL (DBool true);
  OPTION "rbd_blacklist_expire_seconds" OPT_INT (DInt 0);
  OPTION "rbd_request_timed_out_seconds" OPT_INT (DInt 30);
  OPTION "rbd_default_format" OPT_INT (DInt 1);
  OPTION "rbd_default_order" OPT_INT (DInt 22);
  OPTION "rbd_default_stripe_count" OPT_U64 (DInt 0);
  OPTION "rbd_default_stripe_unit" OPT_U64 (DInt 0);
  OPTION "rbd_default_features" OPT_INT (DInt 3)
].

Definition options_7 : list option_def := [
  OPTION "nss_db_path" OPT_STR (DStr EmptyString);
  OPTION "rgw_max_chunk_size" OPT_INT (DInt 524288);
  OPTION "rgw_override_bucket_index_max_shards" OPT_U32 (DInt 0);
  OPTION "rgw_bucket_index_max_aio" OPT_U32 (DInt 8);
  OPTION "rgw_data" OPT_STR (DStr "/var/lib/ceph/radosgw/$cluster-$id");
  OPTION "rgw_enable_apis" OPT_STR (DStr "s3, swift, swift_auth, admin");
  OPTION "rgw_cache_enabled" OPT_BOOL (DBool true);
  OPTION "rgw_cache_lru_size" OPT_INT (DInt 10000);
  OPTION "rgw_socket_path" OPT_STR (DStr EmptyString);
  OPTION "rgw_host" OPT_STR (DStr EmptyString);
  OPTION "rgw_port" OPT_STR (DStr EmptyString);
  OPTION "rgw_dns_name" OPT_STR (DStr EmptyString);
  OPTION "rgw_script_uri" OPT_STR (DStr EmptyString);
  OPTION "rgw_request_uri" OPT_STR (DStr EmptyString);
  OPTION "rgw_swift_url" OPT_STR (DStr EmptyString);
  OPTION "rgw_swift_url_prefix" OPT_STR (DStr "swift");
  OPTION "rgw_swift_auth_url" OPT_STR (DStr EmptyString);
  OPTION "rgw_swift_auth_entry" OPT_STR (DStr "auth");
  OPTION "rgw_swift_tenant_name" OPT_STR (DStr EmptyString);
  OPTION "rgw_keystone_url" OPT_STR (DStr EmptyString);
  OPTION "rgw_keystone_admin_token" OPT_STR (DStr EmptyString);
  OPTION "rgw_keystone_admin_user" OPT_STR (DStr EmptyString);
  OPTION "rgw_keystone_admin_password" OPT_STR (DStr EmptyString);
  OPTION "rgw_keystone_admin_tenant" OPT_STR (DStr EmptyString);
  OPTION "rgw_keystone_accepted_roles" OPT_STR (DStr "Member, admin");
  OPTION "rgw_keystone_token_cache_size" OPT_INT (DInt 10000);
  OPTION "rgw_keystone_revocation_interval" OPT_INT (DInt 900);
  OPTION "rgw_s3_auth_use_rados" OPT_BOOL (DBool true);
  OPTION "rgw_s3_auth_use_keystone" OPT_BOOL (DBool false);
  OPTION "rgw_admin_entry" OPT_STR (DStr "admin");
  OPTION "rgw_enforce_swift_acls" OPT_BOOL (DBool true);
  OPTION "rgw_swift_token_expiration" OPT_INT (DInt 86400);
  OPTION "rgw_print_continue" OPT_BOOL (DBool true);
  OPTION "rgw_remote_addr_param" OPT_STR (DStr "REMOTE_ADDR");
  OPTION "rgw_op_thread_timeout" OPT_INT (DInt 600);
  OPTION "rgw_op_thread_suicide_timeout" OPT_INT (DInt 0);
  OPTION "rgw_thread_pool_size" OPT_INT (DInt 100);
  OPTION "rgw_num_control_oids" OPT_INT (DInt 8);
  OPTION "rgw_zone" OPT_STR (DStr EmptyString);
  OPTION "rgw_zone_root_pool" OPT_STR (DStr ".rgw.root");
  OPTION "rgw_region" OPT_STR (DStr EmptyString);
  OPTION "rgw_region_root_pool" OPT_STR (DStr ".rgw.root");
  OPTION "rgw_default_region_info_oid" OPT_STR (DStr "default.region");
  OPTION "rgw_log_nonexistent_bucket" OPT_BOOL (DBool false);
  OPTION "rgw_log_object_name" OPT_STR (DStr "%Y-%m-%d-%H-%i-%n");
  OPTION "rgw_log_object_name_utc" OPT_BOOL (DBool false);
  OPTION "rgw_usage_max_shards" OPT_INT (DInt 32);
  OPTION "rgw_usage_max_user_shards" OPT_INT (DInt 1);
  OPTION "rgw_enable_ops_log" OPT_BOOL (DBool false);
  OPTION "rgw_enable_usage_log" OPT_BOOL (DBool false);
  OPTION "rgw_ops_log_rados" OPT_BOOL (DBool true);
  OPTION "rgw_ops_log_socket_path" OPT_STR (DStr EmptyString);
  OPTION "rgw_ops_log_data_backlog" OPT_INT (DInt 5242880);
  OPTION "rgw_usage_log_flush_threshold" OPT_INT (DInt 1024);
  OPTION "rgw_usage_log_tick_interval" OPT_INT (DInt 30);
  OPTION "rgw_intent_log_object_name" OPT_STR (DStr "%Y-%m-%d-%i-%n");
  OPTION "rgw_intent_log_object_name_utc" OPT_BOOL (DBool false);
  OPTION "rgw_init_timeout" OPT_INT (DInt 300);
  OPTION "rgw_mime_types_file" OPT_STR (DStr "/etc/mime.types");
  OPTION "rgw_gc_max_objs" OPT_INT (DInt 32);
  OPTION "rgw_gc_obj_min_wait" OPT_INT (DInt 7200);
  OPTION "rgw_gc_processor_max_time" OPT_INT (DInt 3600);
  OPTION "rgw_gc_processor_period" OPT_INT (DInt 3600);
  OPTION "rgw_s3_success_create_obj_status" OPT_INT (DInt 0);
  OPTION "rgw_resolve_cname" OPT_BOOL (DBool false);
  OPTION "rgw_obj_stripe_size" OPT_INT (DInt 4194304);
  OPTION "rgw_extended_http_attrs" OPT_STR (DStr EmptyString);
  OPTION "rgw_exit_timeout_secs" OPT_INT (DInt 120);
  OPTION "rgw_get_obj_window_size" OPT_INT (DInt 16777216);
  OPTION "rgw_get_obj_max_req_size" OPT_INT (DInt 4194304);
  OPTION "rgw_relaxed_s3_bucket_names" OPT_BOOL (DBool false);
  OPTION "rgw_defer_to_bucket_acls" OPT_STR (DStr EmptyString);
  OPTION "rgw_list_buckets_max_chunk" OPT_INT (DInt 1000);
  OPTION "rgw_md_log_max_shards" OPT_INT (DInt 64);
  OPTION "rgw_num_zone_opstate_shards" OPT_INT (DInt 128);
  OPTION "rgw_opstate_ratelimit_sec" OPT_INT (DInt 30);
  OPTION "rgw_curl_wait_timeout_ms" OPT_INT (DInt 1000);
  OPTION "rgw_copy_obj_progress" OPT_BOOL (DBool true);
  OPTION "rgw_copy_obj_progress_every_bytes" OPT_INT (DInt 1048576);
  OPTION "rgw_data_log_window" OPT_INT (DInt 30);
  OPTION "rgw_data_log_changes_size" OPT_INT (DInt 1000);
  OPTION "rgw_data_log_num_shards" OPT_INT (DInt 128);
  OPTION "rgw_data_log_obj_prefix" OPT_STR (DStr "data_log");
  OPTION "rgw_replica_log_obj_prefix" OPT_STR (DStr "replica_log");
  OPTION "rgw_bucket_quota_ttl" OPT_INT (DInt 600);
  OPTION "rgw_bucket_quota_soft_threshold" OPT_DOUBLE (DReal (19 # 20));
  OPTION "rgw_bucket_quota_cache_size" OPT_INT (DInt 10000);
  OPTION "rgw_expose_bucket" OPT_BOOL (DBool false);
  OPTION "rgw_frontends" OPT_STR (DStr "fastcgi, civetweb port=7480");
  OPTION "rgw_user_quota_bucket_sync_interval" OPT_INT (DInt 180);
  OPTION "rgw_user_quota_sync_interval" OPT_INT (DInt 86400);
  OPTION "rgw_user_quota_sync_idle_users" OPT_BOOL (DBool false);
  OPTION "rgw_user_quota_sync_wait_time" OPT_INT (DInt 86400);
  OPTION "rgw_multipart_min_part_size" OPT_INT (DInt 5242880);
  OPTION "rgw_olh_pending_timeout_sec" OPT_INT (DInt 3600);
  OPTION "mutex_perf_counter" OPT_BOOL (DBool false);
  OPTION "throttler_perf_counter" OPT_BOOL (DBool true);
  OPTION "internal_safe_to_start_threads" OPT_BOOL (DBool false)
].

Definition config_optionsp : list option_def :=
  options_1 ++ options_2 ++ options_3 ++ options_4 ++ options_5 ++ options_6 ++ options_7.

(** in the order of [init_subsys] *)
Definition subsys_table : list subsys_def := [
  SUBSYS "none" 0  5;
  SUBSYS "lockdep" 0 1;
  SUBSYS "context" 0 1;
  SUBSYS "crush" 1 1;
  SUBSYS "mds" 1 5;
  SUBSYS "mds_balancer" 1 5;
  SUBSYS "mds_locker" 1 5;
  SUBSYS "mds_log" 1 5;
  SUBSYS "mds_log_expire" 1 5;
  SUBSYS "mds_migrator" 1 5;
  SUBSYS "buffer" 0 1;
  SUBSYS "timer" 0 1;
  SUBSYS "filer" 0 1;
  SUBSYS "striper" 0 1;
  SUBSYS "objecter" 0 1;
  SUBSYS "rados" 0 5;
  SUBSYS "rbd" 0 5;
  SUBSYS "rbd_replay" 0 5;
  SUBSYS "journaler" 0 5;
  SUBSYS "objectcacher" 0 5;
  SUBSYS "client" 0 5;
  SUBSYS "osd" 0 5;
  SUBSYS "optracker" 0 5;
  SUBSYS "objclass" 0 5;
  SUBSYS "filestore" 1 3;
  SUBSYS "keyvaluestore" 1 3;
  SUBSYS "journal" 1 3;
  SUBSYS "ms" 0 5;
  SUBSYS "mon" 1 5;
  SUBSYS "monc" 0 10;
  SUBSYS "paxos" 1 5;
  SUBSYS "tp" 0 5;
  SUBSYS "auth" 1 5;
  SUBSYS "crypto" 1 5;
  SUBSYS "finisher" 1 1;
  SUBSYS "heartbeatmap" 1 5;
  SUBSYS "perfcounter" 1 5;
  SUBSYS "rgw" 1 5;
  SUBSYS "civetweb" 1 10;
  SUBSYS "javaclient" 1 5;
  SUBSYS "asok" 1 5;
  SUBSYS "throttle" 1 1;
  SUBSYS "refs" 0 0;
  SUBSYS "xio" 1 5
].

End Options.
