(* ===== verification/Config.v ===== *)
(** * The configuration (common/config.cc)

    [md_config_t]: the values of the options and the levels of the log, how they are parsed,
    printed and expanded, what is set from files, the environment and arguments, and who is told
    of changes.

    The text conversions of numbers, addresses and uuids, the parser of arguments and the parsed
    configuration file come from headers that are not in the repository; they are the classes
    below.  The values live in a map from names, with the default of the table for an option that
    was never set.  What goes to [oss] is a list of messages. *)

From Stdlib Require Import ZArith QArith Ascii String Lia.
From stdpp Require Import base tactics numbers list gmap strings sorting pretty.
From S2P Require Import Prelude ConfigOpts.
Open Scope Z_scope.
Open Scope list_scope.

Definition ENOENT : Z := 2.
Definition EINVAL : Z := 22.
Definition ENAMETOOLONG : Z := 36.
Definition ENOSYS : Z := 38.

(** ** What is not in the repository *)

(** Floating-point numbers: a literal, [atof], [operator<<], and the rounding to [float]. *)
Class RealText (D : Type) := {
  d_lit : Q -> D;
  d_atof : string -> D;
  d_print : D -> string;
  d_float : D -> D
}.

(** [entity_addr_t] and [uuid_d]: [parse] may change the value when it fails. *)
Class AddrText (A U : Type) := {
  addr_zero : A;
  addr_parse : string -> A -> bool * A;
  addr_print : A -> string;
  uuid_zero : U;
  uuid_parse : string -> U -> bool * U;
  uuid_print : U -> string
}.

(** [common/strtol.h] ([None]: [err] is set) and [ConfFile::normalize_key_name] *)
Class ConfText := {
  strict_sistrtoll : string -> option Z;
  strict_strtol : string -> option Z;
  normalize_key_name : string -> string;
  get_str_list : string -> list string
}.

(** [ConfFile] *)
Class ConfFileOps (CF : Type) := {
  cf_empty : CF;
  cf_parse_file : string -> Z * CF;
  cf_read : CF -> string -> string -> Z * string;
  cf_sections : CF -> list string
}.

(** [ceph_argparse.h]: what is left of the arguments when the first is one of the names. *)
Inductive witharg :=
| NoArg                                     (* not this option *)
| WithArg (val : string) (rest : list string)
| MissingArg.                               (* it exits *)
Class ArgParse := {
  argparse_flag : list string -> list string -> option (list string);
  argparse_witharg : list string -> list string -> witharg;
  argparse_binary_flag : string -> list string -> option (Z * list string)
}.

(** ** The state *)

Section Config.
Context {D A U CF : Type} `{BuildConst} `{RealText D} `{AddrText A U} `{ConfText} `{ConfFileOps CF} `{ArgParse}.

Inductive value :=
| VInt (z : Z)
| VStr (s : string)
| VReal (d : D)
| VBool (b : bool)
| VAddr (a : A)
| VUuid (u : U).

Record subsystem := mk_subsys { sub_name : string; sub_log : Z; sub_gather : Z }.

(** [EntityName] *)
Record entity_name := mk_ename { en_str : string; en_type : string; en_id : string }.

Record config := mk_config {
  c_values : gmap string value;
  c_cluster : string;
  c_name : entity_name;
  c_pid : Z;                                (* getpid() *)
  c_this : Z;                               (* the address *)
  c_changed : gset string;
  c_observers : list (string * Z);          (* the elements of the multimap *)
  c_subsys : list subsystem;
  c_cf : CF
}.

Definition set_values (x : gmap string value) (c : config) : config :=
  mk_config x (c_cluster c) (c_name c) (c_pid c) (c_this c) (c_changed c) (c_observers c) (c_subsys c) (c_cf c).
Definition set_changed (x : gset string) (c : config) : config :=
  mk_config (c_values c) (c_cluster c) (c_name c) (c_pid c) (c_this c) x (c_observers c) (c_subsys c) (c_cf c).
Definition set_observers (x : list (string * Z)) (c : config) : config :=
  mk_config (c_values c) (c_cluster c) (c_name c) (c_pid c) (c_this c) (c_changed c) x (c_subsys c) (c_cf c).
Definition set_subsys (x : list subsystem) (c : config) : config :=
  mk_config (c_values c) (c_cluster c) (c_name c) (c_pid c) (c_this c) (c_changed c) (c_observers c) x (c_cf c).
Definition set_cf (x : CF) (c : config) : config :=
  mk_config (c_values c) (c_cluster c) (c_name c) (c_pid c) (c_this c) (c_changed c) (c_observers c) (c_subsys c) x.

(** The conversion of a literal or a number to the type of the member. *)
Definition int_as (t : opt_type_t) (z : Z) : Z :=
  match t with
  | OPT_INT => s32 z
  | OPT_LONGLONG => s64 z
  | OPT_U32 => u32 z
  | OPT_U64 => u64 z
  | _ => z
  end.
Definition real_as (t : opt_type_t) (d : D) : D := match t with OPT_FLOAT => d_float d | _ => d end.

Definition default_value (o : option_def) : value :=
  match od_default o with
  | DInt z => VInt (int_as (od_type o) z)
  | DStr s => VStr s
  | DBool b => VBool b
  | DReal q => VReal (real_as (od_type o) (d_lit q))
  | DAddr => VAddr addr_zero
  | DUuid => VUuid uuid_zero
  end.

(** [*opt->conf_ptr(this)] *)
Definition conf_val (c : config) (o : option_def) : value := default (default_value o) (c_values c !! od_name o).
Definition put_val (name : string) (v : value) (c : config) : config := set_values (<[name := v]> (c_values c)) c.
Definition str_val (c : config) (o : option_def) : string := match conf_val c o with VStr s => s | _ => EmptyString end.

Definition find_option (name : string) : option option_def :=
  list_find (fun o => od_name o = name) config_optionsp ≫= fun p => Some (snd p).

(** the member [internal_safe_to_start_threads] *)
Definition safe_to_start_threads (c : config) : bool :=
  match find_option "internal_safe_to_start_threads" with
  | Some o => match conf_val c o with VBool b => b | _ => false end
  | None => false
  end.
Definition conf_host (c : config) : string :=
  match find_option "host" with Some o => str_val c o | None => EmptyString end.

Definition new_config (name : entity_name) (pid this : Z) : config :=
  mk_config ∅ "ceph" name pid this ∅ [] (map (fun s => mk_subsys (ss_name s) (ss_log s) (ss_gather s)) subsys_table)
    cf_empty.

(** ** The C library *)

Definition is_space (a : ascii) : bool :=
  let n := N_of_ascii a in ((n =? 32) || ((9 <=? n) && (n <=? 13)))%N.
Definition digit_of (a : ascii) : option Z :=
  let n := N_of_ascii a in if ((48 <=? n) && (n <=? 57))%N then Some (Z.of_N n - 48) else None.
Fixpoint skip_spaces (s : string) : string :=
  match s with
  | EmptyString => EmptyString
  | String a r => if is_space a then skip_spaces r else s
  end.
Fixpoint scan_digits (s : string) (acc : option Z) : option Z * string :=
  match s with
  | EmptyString => (acc, s)
  | String a r => match digit_of a with Some d => scan_digits r (Some (default 0 acc * 10 + d)) | None => (acc, s) end
  end.

(** [%d]: the number saturates as a [long] and is stored as an [int] *)
Definition scan_int (s : string) : option (Z * string) :=
  let s := skip_spaces s in
  let '(sign, s) := match s with
                    | String "-" r => (-1, r)
                    | String "+" r => (1, r)
                    | _ => (1, s)
                    end in
  match scan_digits s None with
  | (Some n, r) => Some (s32 (Z.min (2 ^ 63 - 1) (Z.max (- 2 ^ 63) (sign * n))), r)
  | (None, _) => None
  end.

(** [sscanf(v, "%d/%d", &log, &gather)], and the gather level when it is missing *)
Definition scan_levels (v : string) : option (Z * Z) :=
  match scan_int v with
  | None => None
  | Some (log, r) =>
      match r with
      | String "/" r => match scan_int r with Some (gather, _) => Some (log, gather) | None => Some (log, log) end
      | _ => Some (log, log)
      end
  end.

Definition lower (a : ascii) : ascii :=
  let n := N_of_ascii a in if ((65 <=? n) && (n <=? 90))%N then ascii_of_N (n + 32) else a.
Fixpoint lower_string (s : string) : string :=
  match s with EmptyString => EmptyString | String a r => String (lower a) (lower_string r) end.
Definition strcasecmp_eq (a b : string) : bool := String.eqb (lower_string a) (lower_string b).

(** [snprintf(buf, len, "%s", s)]: what is in the buffer *)
Definition c_buffer (len : Z) (s : string) : string := String.substring 0 (Z.to_nat (len - 1)) s.

(** ** Printing *)

Definition print_value (v : value) : string :=
  match v with
  | VInt z => pretty z
  | VStr s => s
  | VReal d => d_print d
  | VBool b => if b then "true" else "false"
  | VAddr a => addr_print a
  | VUuid u => uuid_print u
  end%string.

Definition debug_name (s : subsystem) : string := "debug_" +:+ sub_name s.
Definition print_levels (s : subsystem) : string := pretty (sub_log s) +:+ "/" +:+ pretty (sub_gather s).
Definition slen (s : string) : Z := Z.of_nat (String.length s).

(** the result and what is in the buffer; [len = -1] allocates it *)
Definition _get_val (key : option string) (len : Z) (c : config) : Z * option string :=
  match key with
  | None => (- EINVAL, None)
  | Some key =>
      let k := normalize_key_name key in
      match find_option k with
      | Some o =>
          let s := print_value (conf_val c o) in
          let l := slen s + 1 in
          if len =? -1 then (0, Some s)
          else (if len <? l then - ENAMETOOLONG else 0, Some (c_buffer len s))
      | None =>
          match list_find (fun s => k = debug_name s) (c_subsys c) with
          | Some (_, sub) =>
              let len := if len =? -1 then 20 else len in
              let s := print_levels sub in
              (if slen s =? len then - ENAMETOOLONG else 0, Some (c_buffer len s))
          | None => (- ENOENT, None)
          end
      end
  end.
Definition get_val (key : option string) (len : Z) (c : config) : Z * option string := _get_val key len c.

(** [buf] of [_get_val(name, &buf, -1)] *)
Definition val_text (name : string) (c : config) : string := default EmptyString (snd (_get_val (Some name) (-1) c)).

(** ** Setting *)

Definition set_val_raw (val : string) (o : option_def) (c : config) : Z * config :=
  let set v := (0, put_val (od_name o) v c) in
  match od_type o with
  | OPT_INT | OPT_U32 =>
      match strict_sistrtoll val with
      | None => (- EINVAL, c)
      | Some f => set (VInt (int_as (od_type o) (s32 f)))
      end
  | OPT_LONGLONG | OPT_U64 =>
      match strict_sistrtoll val with
      | None => (- EINVAL, c)
      | Some f => set (VInt (int_as (od_type o) (s64 f)))
      end
  | OPT_STR => set (VStr val)
  | OPT_FLOAT => set (VReal (d_float (d_atof val)))
  | OPT_DOUBLE => set (VReal (d_atof val))
  | OPT_BOOL =>
      if strcasecmp_eq val "false" then set (VBool false)
      else if strcasecmp_eq val "true" then set (VBool true)
      else match strict_strtol val with
           | None => (- EINVAL, c)
           | Some b => set (VBool (negb (b =? 0)))
           end
  | OPT_ADDR =>
      let '(ok, a) := addr_parse val (match conf_val c o with VAddr a => a | _ => addr_zero end) in
      (if ok then 0 else - EINVAL, put_val (od_name o) (VAddr a) c)
  | OPT_UUID =>
      let '(ok, u) := uuid_parse val (match conf_val c o with VUuid u => u | _ => uuid_zero end) in
      (if ok then 0 else - EINVAL, put_val (od_name o) (VUuid u) c)
  end.

Definition set_val_impl (val : string) (o : option_def) (c : config) : Z * config :=
  let '(ret, c) := set_val_raw val o c in
  if negb (ret =? 0) then (ret, c) else (0, set_changed ({[od_name o]} ∪ c_changed c) c).

(** [subsys.set_log_level(o, log); subsys.set_gather_level(o, gather)] *)
Definition set_levels (o : nat) (log gather : Z) (c : config) : config :=
  set_subsys (alter (fun s => mk_subsys (sub_name s) log gather) o (c_subsys c)) c.

(** ** Expanding variables *)

Definition valid_char (a : ascii) : bool :=
  let n := N_of_ascii a in (((97 <=? n) && (n <=? 122)) || (n =? 95))%N.
Fixpoint span_valid (s : string) : string * string :=
  match s with
  | EmptyString => (EmptyString, EmptyString)
  | String a r => if valid_char a then let '(v, r) := span_valid r in (String a v, r) else (EmptyString, s)
  end.

(** the variable after a ['$'], and what follows it; no variable is the empty string *)
Definition parse_var (s : string) : string * string :=
  match s with
  | String "{" r =>
      match span_valid r with
      | (v, String "}" r) => (v, r)
      | (_, r) => (EmptyString, r)
      end
  | _ => span_valid s
  end.

Fixpoint has_dollar (s : string) : bool :=
  match s with EmptyString => false | String a r => Ascii.eqb a "$" || has_dollar r end.

Definition CONF_METAVARIABLES : list string := ["cluster"; "type"; "name"; "host"; "num"; "id"; "pid"; "cctid"]%string.
Definition metavariable (c : config) (var : string) : option string :=
  if String.eqb var "type" then Some (en_type (c_name c))
  else if String.eqb var "cluster" then Some (c_cluster c)
  else if String.eqb var "name" then Some (en_str (c_name c))
  else if String.eqb var "host" then Some (conf_host c)
  else if String.eqb var "num" then Some (en_id (c_name c))
  else if String.eqb var "id" then Some (en_id (c_name c))
  else if String.eqb var "pid" then Some (pretty (c_pid c))
  else if String.eqb var "cctid" then Some (pretty (c_this c))
  else None.

(** What the expansion of a value returns: the configuration, since options it refers to are
    expanded in place, the value, whether a variable was found, and the options at which a loop
    was found. *)
Definition expansion : Type := config * string * bool * list string.

(** The loop over the value; [rec] expands an option that is referred to. *)
Fixpoint expand_loop (rec : config -> option_def -> option expansion) (n : nat) (s out : string) (c : config)
    (found : bool) (loops : list string) : option expansion :=
  match n, s with
  | _, EmptyString => Some (c, out, found, loops)
  | O, _ => None
  | S n, String a rest =>
      let literal := expand_loop rec n rest (out +:+ String a EmptyString) c found loops in
      if negb (Ascii.eqb a "$") then literal
      else
        let '(var, after) := parse_var rest in
        if String.eqb var EmptyString then literal
        else match metavariable c var with
             | Some t => expand_loop rec n after (out +:+ t) c true loops
             | None =>
                 match find_option var with
                 | None => literal
                 | Some o =>
                     if bool_decide (od_type o = OPT_STR) then
                       '(c, v, _, ls) ← rec c o;
                       expand_loop rec n after (out +:+ v) (put_val (od_name o) (VStr v) c) true (loops ++ ls)
                     else expand_loop rec n after (out +:+ val_text (od_name o) c) c true loops
                 end
             end
  end.

(** [depth] bounds the options that are under expansion. *)
Fixpoint expand_meta (depth : nat) (origval : string) (opt : option string) (stack : list string) (c : config)
  : option expansion :=
  if negb (has_dollar origval) then Some (c, origval, false, [])
  else if match opt with Some o => bool_decide (o ∈ stack) | None => false end then
    Some (c, origval, false, match opt with Some o => [o] | None => [] end)
  else match depth with
       | O => None
       | S depth =>
           let stack := match opt with Some o => o :: stack | None => stack end in
           expand_loop (fun c o => expand_meta depth (str_val c o) (Some (od_name o)) stack c)
             (String.length origval) origval EmptyString c false []
       end.

(** There are no more options under expansion than options. *)
Definition max_depth : nat := S (length config_optionsp).

Definition expand_value (v : string) (c : config) : option expansion := expand_meta max_depth v None [] c.

Fixpoint expand_options (l : list option_def) (c : config) : option (config * list string) :=
  match l with
  | [] => Some (c, [])
  | o :: l =>
      if bool_decide (od_type o = OPT_STR) then
        '(c, v, _, ls) ← expand_meta max_depth (str_val c o) (Some (od_name o)) [] c;
        '(c, ls') ← expand_options l (put_val (od_name o) (VStr v) c);
        Some (c, ls ++ ls')
      else expand_options l c
  end.
Definition expand_all_meta (c : config) : option (config * list string) := expand_options config_optionsp c.

(** ** Keys *)

(** [None] when the expansion runs out of depth *)
Definition set_val (key val : option string) (meta safe : bool) (c : config) : option (Z * config) :=
  match key, val with
  | None, _ | _, None => Some (- EINVAL, c)
  | Some key, Some val =>
      '(c, v) ← (if meta then '(c, v, _, _) ← expand_value val c; Some (c, v) else Some (c, val));
      let k := normalize_key_name key in
      match (if String.prefix "debug_" k then list_find (fun s => k = debug_name s) (c_subsys c) else None) with
      | Some (o, _) =>
          match scan_levels v with
          | Some (log, gather) => Some (0, set_levels o log gather c)
          | None => Some (- EINVAL, c)
          end
      | None =>
          match find_option k with
          | None => Some (- ENOENT, c)
          | Some o =>
              if safe && safe_to_start_threads c && bool_decide (od_type o = OPT_ADDR \/ od_type o = OPT_UUID) &&
                 negb (existsb (fun p => String.eqb (fst p) (od_name o)) (c_observers c))
              then Some (- ENOSYS, c)
              else Some (set_val_impl v o c)
          end
      end
  end.

(** the assert of [set_val_or_die]; its defaults are [meta] and [safe] *)
Definition set_val_or_die (key val : string) (c : config) : option (res config) :=
  '(ret, c) ← set_val (Some key) (Some val) true true c;
  Some (if ret =? 0 then Ok c else Abort).

(** ** Sections of the file *)

Definition _get_my_sections (c : config) : list string := [en_str (c_name c); en_type (c_name c); "global"%string].
Definition get_my_sections (sections : list string) (c : config) : list string := sections ++ _get_my_sections c.
Definition get_all_sections (sections : list string) (c : config) : Z * list string :=
  (0, sections ++ cf_sections (c_cf c)).

Fixpoint read_sections (sections : list string) (key : string) (c : config) : Z * string :=
  match sections with
  | [] => (- ENOENT, EmptyString)
  | s :: sections =>
      let '(ret, out) := cf_read (c_cf c) s key in
      if ret =? 0 then (0, out) else if negb (ret =? - ENOENT) then (ret, out) else read_sections sections key c
  end.
Definition _get_val_from_conf_file (sections : list string) (key : string) (emeta : bool) (c : config)
  : option (Z * string * config) :=
  let '(ret, out) := read_sections sections key c in
  if (ret =? 0) && emeta then '(c, v, _, _) ← expand_value out c; Some (ret, v, c) else Some (ret, out, c).

(** ** Observers *)

Definition add_observer (obs : Z) (keys : list string) (c : config) : config :=
  set_observers (c_observers c ++ map (fun k => (k, obs)) keys) c.
Definition remove_observer (obs : Z) (c : config) : res config :=
  let rest := filter (fun p => snd p <> obs) (c_observers c) in
  check (negb (bool_decide (rest = c_observers c))) ;; Ok (set_observers rest c).

Definition tell (key : string) (obs : Z) (m : gmap Z (gset string)) : gmap Z (gset string) :=
  <[obs := {[key]} ∪ default ∅ (m !! obs)]> m.

(** the observers of one changed key, and the reverse mapping *)
Definition tell_key (observers : list (string * Z)) (m : gmap Z (gset string)) (key : string) : gmap Z (gset string) :=
  fold_left (fun m p => tell key (snd p) m) (filter (fun p => fst p = key) observers) m.
Definition rev_obs_map (observers : list (string * Z)) (changed : list string) : gmap Z (gset string) :=
  fold_left (tell_key observers) changed ∅.

Definition _internal_field (s : string) : bool := String.eqb s "internal_safe_to_start_threads".

(** What is written to [oss]. *)
Inductive message :=
| MsgValue (key val : string)
| MsgLevels (name : string) (log gather : Z)
| MsgCannotChange (name : string)
| MsgParseError (name val : string)
| MsgNotParsed (args : list string).

(** [std::set<string>] in its order *)
Definition in_order (s : gset string) : list string := merge_sort (fun a b => Is_true (String.leb a b)) (elements s).

Definition changed_message (c : config) (key : string) : list message :=
  match _get_val (Some key) 128 c with
  | (ret, Some buf) => if (ret =? 0) && negb (_internal_field key) then [MsgValue key buf] else []
  | (_, None) => []
  end.

(** the calls of [handle_conf_change], in the order of the addresses, and the messages *)
Definition _apply_changes (c : config) : option (config * list (Z * gset string) * list message) :=
  '(c, _) ← expand_all_meta c;
  let keys := in_order (c_changed c) in
  Some (set_changed ∅ c, ordered (rev_obs_map (c_observers c) keys), concat (map (changed_message c) keys)).
Definition apply_changes (c : config) : option (config * list (Z * gset string) * list message) := _apply_changes c.

Definition call_all_observers (c : config) : option (config * list (Z * gset string)) :=
  '(c, _) ← expand_all_meta c;
  Some (c, ordered (fold_left (fun m p => tell (fst p) (snd p) m) (c_observers c) ∅)).

(** ** Arguments *)

(** After the first of the arguments was looked at. *)
Record parsed := mk_parsed {
  pa_ret : Z;
  pa_conf : config;
  pa_rest : list string;                    (* the arguments from the iterator on *)
  pa_kept : list string;                    (* one it has passed *)
  pa_msgs : list message
}.
Inductive outcome (X : Type) :=
| Done (x : X)
| Exit (code : Z).
Arguments Done {X} x.
Arguments Exit {X} code.

(** the loop over the subsystems; [None]: none has this name *)
Fixpoint parse_subsys (inject : bool) (o : nat) (subs : list subsystem) (args : list string) (c : config)
  : option (outcome parsed) :=
  match subs with
  | [] => None
  | s :: subs =>
      match argparse_witharg ["--" +:+ debug_name s] args with
      | NoArg => parse_subsys inject (S o) subs args c
      | MissingArg => Some (Exit 1)
      | WithArg v rest =>
          Some (Done (match scan_levels v with
                      | Some (log, gather) =>
                          mk_parsed 0 (set_levels o log gather c) rest []
                            (if inject then [MsgLevels (sub_name s) log gather] else [])
                      | None => mk_parsed 0 c rest [] []
                      end))
      end
  end.

(** one option of the table *)
Definition parse_one (inject : bool) (o : option_def) (args : list string) (c : config) : option (outcome parsed) :=
  if bool_decide (od_type o = OPT_BOOL) then
    match argparse_binary_flag ("--" +:+ od_name o) args with
    | Some (r, rest) =>
        Some (Done (if r =? 0 then mk_parsed 0 (snd (set_val_impl "false" o c)) rest [] []
                    else if r =? 1 then mk_parsed 0 (snd (set_val_impl "true" o c)) rest [] []
                    else mk_parsed r c rest [] []))
    | None =>
        match argparse_flag ["--no-" +:+ od_name o] args with
        | Some rest => Some (Done (mk_parsed 0 (snd (set_val_impl "false" o c)) rest [] []))
        | None => None
        end
    end
  else
    match argparse_witharg ["--" +:+ od_name o] args with
    | NoArg => None
    | MissingArg => Some (Exit 1)
    | WithArg v rest =>
        if inject && bool_decide (od_type o = OPT_STR \/ od_type o = OPT_ADDR \/ od_type o = OPT_UUID) &&
           negb (existsb (fun p => String.eqb (fst p) (od_name o)) (c_observers c))
        then Some (Done (mk_parsed (- ENOSYS) c rest [] [MsgCannotChange (od_name o)]))
        else
          let '(r, c) := set_val_impl v o c in
          if negb (r =? 0) && inject then Some (Done (mk_parsed r c rest [] [MsgParseError (od_name o) v]))
          else Some (Done (mk_parsed 0 c rest [] []))
    end.
Fixpoint parse_options (inject : bool) (l : list option_def) (args : list string) (c : config)
  : option (outcome parsed) :=
  match l with
  | [] => None
  | o :: l => match parse_one inject o args c with Some r => Some r | None => parse_options inject l args c end
  end.

(** [inject]: there is an [oss] *)
Definition parse_option (inject : bool) (args : list string) (c : config) : outcome parsed :=
  match parse_subsys inject 0 (c_subsys c) args c with
  | Some r => r
  | None =>
      match parse_options inject config_optionsp args c with
      | Some r => r
      | None => Done (mk_parsed 0 c (tail args) (take 1 args) [])
      end
  end.

(** the loop of [parse_injectargs]; [n] is at least the number of arguments *)
Fixpoint inject_loop (n : nat) (args : list string) (ret : Z) (c : config) (kept : list string) (ms : list message)
  : option (outcome (Z * config * list string * list message)) :=
  match n, args with
  | _, [] => Some (Done (ret, c, kept, ms))
  | O, _ => None
  | S n, _ =>
      match parse_option true args c with
      | Exit code => Some (Exit code)
      | Done p => inject_loop n (pa_rest p) (if pa_ret p <? 0 then pa_ret p else ret) (pa_conf p)
                    (kept ++ pa_kept p) (ms ++ pa_msgs p)
      end
  end.
Definition parse_injectargs (args : list string) (c : config) : option (outcome (Z * config * list string * list message)) :=
  inject_loop (length args) args 0 c [] [].

(** the words of [injectargs]; [n] is at least the length of the string *)
Fixpoint word (s : string) : string * string :=
  match s with
  | EmptyString => (EmptyString, EmptyString)
  | String a r => if Ascii.eqb a " " then (EmptyString, s) else let '(w, r) := word r in (String a w, r)
  end.
Fixpoint skip_blanks (s : string) : string :=
  match s with String " " r => skip_blanks r | _ => s end.
Fixpoint words (n : nat) (s : string) : list string :=
  match n, s with
  | O, _ | _, EmptyString => []
  | S n, _ =>
      match word s with
      | (w, EmptyString) => [w]
      | (w, String _ r) => w :: words n (skip_blanks r)
      end
  end.

Definition injectargs (s : string) (c : config)
  : option (outcome (Z * config * list (Z * gset string) * list message)) :=
  r ← parse_injectargs (words (String.length s) s) c;
  match r with
  | Exit code => Some (Exit code)
  | Done (ret, c, kept, ms) =>
      let '(ret, ms) := match kept with [] => (ret, ms) | _ => (- EINVAL, ms ++ [MsgNotParsed kept]) end in
      '(c, calls, ms') ← _apply_changes c;
      Some (Done (ret, c, calls, ms ++ ms'))
  end.

(** ** The command line *)

(** the state of the loop of [parse_argv]: what it shows at the end *)
Record argv_state := mk_argv { av_conf : config; av_show : bool; av_show_value : option string }.

(** What the loop makes of the first argument. *)
Inductive argv_step :=
| ArgvNext (st : argv_state) (rest kept : list string)
| ArgvExit (code : Z)
| ArgvAbort.

(** [set_val_or_die], for keys and values in turn *)
Fixpoint set_all (l : list (string * string)) (c : config) : option (res config) :=
  match l with
  | [] => Some (Ok c)
  | (k, v) :: l => r ← set_val_or_die k v c; match r with Ok c => set_all l c | Abort => Some Abort end
  end.

Definition after_set (r : option (res config)) (st : argv_state) (rest : list string) : option argv_step :=
  r ← r;
  Some (match r with
        | Ok c => ArgvNext (mk_argv c (av_show st) (av_show_value st)) rest []
        | Abort => ArgvAbort
        end).

(** the options with an argument, and the key each sets *)
Definition argv_keys : list (list string * string) :=
  [(["--monmap"; "-M"], "monmap"); (["--mon_host"; "-m"], "mon_host"); (["--bind"], "public_addr");
   (["--keyfile"; "-K"], "keyfile"); (["--keyring"; "-k"], "keyring");
   (["--client_mountpoint"; "-r"], "client_mountpoint")]%string.

Fixpoint argv_witharg (l : list (list string * string)) (args : list string) (st : argv_state) : option argv_step :=
  match l with
  | [] =>
      Some (match parse_option false args (av_conf st) with
            | Exit code => ArgvExit code
            | Done p => ArgvNext (mk_argv (pa_conf p) (av_show st) (av_show_value st)) (pa_rest p) (pa_kept p)
            end)
  | (names, key) :: l =>
      match argparse_witharg names args with
      | NoArg => argv_witharg l args st
      | MissingArg => Some (ArgvExit 1)
      | WithArg v rest => after_set (set_val_or_die key v (av_conf st)) st rest
      end
  end.

Definition parse_arg (args : list string) (st : argv_state) : option argv_step :=
  match argparse_flag ["--show_conf"%string] args with
  | Some _ => Some (ArgvExit 0)
  | None =>
  match argparse_flag ["--show_config"%string] args with
  | Some rest => Some (ArgvNext (mk_argv (av_conf st) true (av_show_value st)) rest [])
  | None =>
  match argparse_witharg ["--show_config_value"%string] args with
  | MissingArg => Some (ArgvExit 1)
  | WithArg v rest => Some (ArgvNext (mk_argv (av_conf st) (av_show st) (Some v)) rest [])
  | NoArg =>
  match argparse_flag ["--foreground"; "-f"]%string args with
  | Some rest => after_set (set_all [("daemonize", "false")]%string (av_conf st)) st rest
  | None =>
  match argparse_flag ["-d"%string] args with
  | Some rest =>
      after_set (set_all [("daemonize"%string, "false"%string); ("log_file"%string, EmptyString);
                          ("log_to_stderr"%string, "true"%string); ("err_to_stderr"%string, "true"%string);
                          ("log_to_syslog"%string, "false"%string)] (av_conf st)) st rest
  | None => argv_witharg argv_keys args st
  end end end end end.

Fixpoint argv_loop (n : nat) (args : list string) (st : argv_state) (kept : list string)
  : option (res (outcome (argv_state * list string))) :=
  match n, args with
  | _, [] => Some (Ok (Done (st, kept)))
  | O, _ => None
  | S n, a :: _ =>
      if String.eqb a "--" then Some (Ok (Done (st, kept ++ args)))
      else
        r ← parse_arg args st;
        match r with
        | ArgvAbort => Some Abort
        | ArgvExit code => Some (Ok (Exit code))
        | ArgvNext st rest k => argv_loop n rest st (kept ++ k)
        end
  end.

(** the result, the configuration and the arguments that are left *)
Definition parse_argv (args : list string) (c : config) : option (res (outcome (Z * config * list string))) :=
  if safe_to_start_threads c then Some (Ok (Done (- ENOSYS, c, args)))
  else
    r ← argv_loop (length args) args (mk_argv c false None) [];
    match r with
    | Abort => Some Abort
    | Ok (Exit code) => Some (Ok (Exit code))
    | Ok (Done (st, kept)) =>
        if av_show st then '(_, _) ← expand_all_meta (av_conf st); Some (Ok (Exit 0))
        else match av_show_value st with
             | None => Some (Ok (Done (0, av_conf st, kept)))
             | Some key =>
                 let '(r, buf) := _get_val (Some key) (-1) (av_conf st) in
                 if r <? 0 then Some (Ok (Exit 1))
                 else '(_, _, _, _) ← expand_value (default EmptyString buf) (av_conf st); Some (Ok (Exit 0))
             end
    end.

Definition parse_env (keyring : option string) (c : config) : option (res config) :=
  if safe_to_start_threads c then Some (Ok c)
  else match keyring with Some v => set_val_or_die "keyring" v c | None => Some (Ok c) end.

(** ** Files *)

(** the loop over the names: the first file that is there *)
Fixpoint open_conf (files : list string) (c : config) : option (option Z * config) :=
  match files with
  | [] => Some (Some (- EINVAL), c)
  | fn :: files =>
      '(c, fn, _, _) ← expand_value fn (set_cf cf_empty c);
      let '(ret, f) := cf_parse_file fn in
      let c := set_cf f c in
      if ret =? 0 then Some (None, c)
      else if negb (ret =? - ENOENT) then Some (Some ret, c)
      else open_conf files c
  end.

Fixpoint load_options (sections : list string) (l : list option_def) (c : config) : config :=
  match l with
  | [] => c
  | o :: l =>
      let '(ret, v) := read_sections sections (od_name o) c in
      load_options sections l (if ret =? 0 then snd (set_val_impl v o c) else c)
  end.

Fixpoint load_subsys (sections : list string) (o : nat) (l : list subsystem) (c : config) : config :=
  match l with
  | [] => c
  | s :: l =>
      let '(ret, v) := read_sections sections (debug_name s) c in
      let c := if ret =? 0 then
                 match scan_levels v with Some (log, gather) => set_levels o log gather c | None => c end
               else c in
      load_subsys sections (S o) l c
  end.

Definition old_style (str : string) : bool :=
  (String.prefix "mds" str || String.prefix "mon" str || String.prefix "osd" str) &&
  match String.get 3 str with Some a => negb (Ascii.eqb a ".") | None => false end.

(** the result, the configuration and the old-style section names that are reported *)
Definition parse_config_files_impl (files : list string) (c : config) : option (Z * config * list string) :=
  '(err, c) ← open_conf files c;
  match err with
  | Some ret => Some (ret, c, [])
  | None =>
      let sections := _get_my_sections c in
      let c := load_options sections config_optionsp c in
      let c := load_subsys sections 0 (c_subsys c) c in
      Some (0, c, filter (fun s => old_style s = true) (cf_sections (c_cf c)))
  end.

Definition CEPH_CONF_FILE_DEFAULT : string := "/etc/ceph/$cluster.conf, ~/.ceph/$cluster.conf, $cluster.conf".

Definition parse_config_files (conf_files ceph_conf : option string) (no_default : bool) (c : config)
  : option (Z * config * list string) :=
  if safe_to_start_threads c then Some (- ENOSYS, c, [])
  else
    match conf_files, ceph_conf with
    | Some f, _ | None, Some f => parse_config_files_impl (get_str_list f) c
    | None, None =>
        if no_default then Some (0, c, [])
        else parse_config_files_impl (get_str_list CEPH_CONF_FILE_DEFAULT) c
    end.

Fixpoint first_readable (readable : string -> bool) (l : list string) : option string :=
  match l with
  | [] => None
  | f :: l => if readable f then Some f else first_readable readable l
  end.
Definition ceph_resolve_file_search (readable : string -> bool) (filename_list : string) : option string :=
  first_readable readable (get_str_list filename_list).

(** ** Showing *)

Definition _show_config (c : config) : list (string * string) :=
  [("name"%string, en_str (c_name c)); ("cluster"%string, c_cluster c)] ++
  map (fun s => (debug_name s, print_levels s)) (c_subsys c) ++
  map (fun o => (od_name o, val_text (od_name o) c)) config_optionsp.

(** the values that differ, ours first, and the options the other does not know *)
Fixpoint diff_options (l : list option_def) (c other : config) (diff : gmap string (string * string))
    (unknown : gset string) : gmap string (string * string) * gset string :=
  match l with
  | [] => (diff, unknown)
  | o :: l =>
      let '(err, other_val) := get_val (Some (od_name o)) 4096 other in
      if err <? 0 then diff_options l c other diff (if err =? - ENOENT then {[od_name o]} ∪ unknown else unknown)
      else
        let '(err, local_val) := _get_val (Some (od_name o)) 4096 c in
        if negb (err =? 0) then diff_options l c other diff unknown
        else
          let a := default EmptyString local_val in
          let b := default EmptyString other_val in
          diff_options l c other
            (if String.eqb a b then diff
             else match diff !! od_name o with Some _ => diff | None => <[od_name o := (a, b)]> diff end) unknown
  end.
Definition config_diff (c other : config) : gmap string (string * string) * gset string :=
  diff_options config_optionsp c other ∅ ∅.

End Config.
Arguments config D A U CF : clear implicits.
Arguments value D A U : clear implicits.
Arguments Done {X} x.
Arguments Exit {X} code.
