(* ===== verification/ConfigTyped.v ===== *)
(** * The configuration is well typed, and its expansion ends

    Every option has a value of its type, within its width, whatever is set, injected, read or
    expanded.  The expansion of variables ends within as many nested options as there are, also
    when options refer to each other in a loop. *)

From Stdlib Require Import ZArith QArith Ascii String Lia.
From stdpp Require Import base tactics numbers list gmap strings sorting pretty.
From S2P Require Import Prelude ConfigOpts Config.
Open Scope Z_scope.
Open Scope list_scope.

(** What is known of the parser of arguments: an option that matches is taken from the arguments. *)
Class ArgParseOk `{ArgParse} : Prop := {
  flag_takes : forall names args rest, argparse_flag names args = Some rest -> (length rest < length args)%nat;
  witharg_takes : forall names args v rest, argparse_witharg names args = WithArg v rest -> (length rest < length args)%nat;
  binary_takes : forall name args r rest, argparse_binary_flag name args = Some (r, rest) -> (length rest < length args)%nat
}.

Section Typed.
Context {D A U CF : Type} `{BuildConst} `{RealText D} `{AddrText A U} `{ConfText} `{ConfFileOps CF} `{ArgParse}.
Abbreviation config := (config D A U CF).
Abbreviation value := (value D A U).
Implicit Types c : config.
Implicit Types o : option_def.
Abbreviation parsed := (@parsed D A U CF).

(** ** The table *)

Lemma option_names_distinct : NoDup (map od_name config_optionsp).
Proof. apply (bool_decide_unpack _). vm_compute. exact I. Qed.

Lemma find_option_some name o : find_option name = Some o <-> o ∈ config_optionsp /\ od_name o = name.
Proof.
  unfold find_option. split.
  - destruct (list_find _ _) as [[n o']|] eqn:E; [|done]. cbn. intros [= ->]. apply list_find_Some in E as (E & Hn & _).
    split; [by eapply list_elem_of_lookup_2|done].
  - intros [Ho <-]. destruct (list_find (fun o' => od_name o' = od_name o) config_optionsp) as [[n o']|] eqn:E.
    + apply list_find_Some in E as (E & Hn & _). cbn. f_equal. apply list_elem_of_lookup in Ho as [n' Eo].
      assert (n' = n) as ->; [|congruence].
      apply (NoDup_lookup _ _ _ (od_name o) option_names_distinct); rewrite list_lookup_fmap; [by rewrite Eo|by rewrite E; cbn; f_equal].
    + apply list_find_None in E. rewrite Forall_forall in E. by destruct (E o Ho).
Qed.

Lemma same_name o o' : o ∈ config_optionsp -> o' ∈ config_optionsp -> od_name o = od_name o' -> o = o'.
Proof.
  intros Ho Ho' E. assert (find_option (od_name o) = Some o) as H1' by (by apply find_option_some).
  assert (find_option (od_name o) = Some o') as H2' by (by apply find_option_some). congruence.
Qed.

#[local] Opaque config_optionsp.

(** ** Types *)

Definition well_typed (t : opt_type_t) (v : value) : Prop :=
  match t, v with
  | OPT_INT, VInt z => - 2 ^ 31 <= z < 2 ^ 31
  | OPT_LONGLONG, VInt z => - 2 ^ 63 <= z < 2 ^ 63
  | OPT_U32, VInt z => 0 <= z < 2 ^ 32
  | OPT_U64, VInt z => 0 <= z < 2 ^ 64
  | OPT_STR, VStr _ | OPT_DOUBLE, VReal _ | OPT_BOOL, VBool _ | OPT_ADDR, VAddr _ | OPT_UUID, VUuid _ => True
  | OPT_FLOAT, VReal d => exists d', d = d_float d'
  | _, _ => False
  end.

Definition typed c : Prop := forall o, o ∈ config_optionsp -> well_typed (od_type o) (conf_val c o).

(** the default is a literal the member can be initialised with *)
Definition kind_ok (o : option_def) : bool :=
  match od_type o, od_default o with
  | OPT_INT, DInt _ | OPT_LONGLONG, DInt _ | OPT_U32, DInt _ | OPT_U64, DInt _ | OPT_STR, DStr _
  | OPT_DOUBLE, DReal _ | OPT_FLOAT, DReal _ | OPT_BOOL, DBool _ | OPT_ADDR, DAddr | OPT_UUID, DUuid => true
  | _, _ => false
  end.

Lemma kinds_ok o : o ∈ config_optionsp -> kind_ok o = true.
Proof.
  assert (forallb kind_ok config_optionsp = true) as Hk by (vm_compute; reflexivity). rewrite forallb_forall in Hk.
  intros Ho. by apply Hk, list_elem_of_In.
Qed.

Lemma int_as_typed t z : match t with OPT_INT | OPT_LONGLONG | OPT_U32 | OPT_U64 => well_typed t (VInt (int_as t z)) | _ => True end.
Proof.
  destruct t; try done; cbn; unfold s32, s64, u32, u64, wrap_s, wrap_u; try (apply Z.mod_pos_bound; lia).
  - pose proof (Z.mod_pos_bound (z + 2 ^ (32 - 1)) (2 ^ 32)). lia.
  - pose proof (Z.mod_pos_bound (z + 2 ^ (64 - 1)) (2 ^ 64)). lia.
Qed.

Lemma default_typed o : o ∈ config_optionsp -> well_typed (od_type o) (default_value o).
Proof.
  intros Ho%kinds_ok. pose proof (int_as_typed (od_type o)) as Hi. unfold kind_ok in Ho. unfold default_value.
  destruct (od_type o), (od_default o); try done; try apply Hi. by eexists.
Qed.

Lemma conf_put_same c o v : conf_val (put_val (od_name o) v c) o = v.
Proof. unfold conf_val. cbn. by rewrite lookup_insert_eq. Qed.
Lemma conf_put_other c o name v : od_name o <> name -> conf_val (put_val name v c) o = conf_val c o.
Proof. intros N. unfold conf_val. cbn. by rewrite lookup_insert_ne. Qed.

Lemma put_typed c o v : o ∈ config_optionsp -> typed c -> well_typed (od_type o) v -> typed (put_val (od_name o) v c).
Proof.
  intros Ho Ty Hv o' Ho'. destruct (decide (od_name o' = od_name o)) as [E|N].
  - rewrite <- (same_name o' o Ho' Ho E) in Hv |- *. by rewrite conf_put_same.
  - rewrite conf_put_other by done. by apply Ty.
Qed.

(** What [typed] reads. *)
Lemma typed_same c c' : c_values c' = c_values c -> typed c -> typed c'.
Proof. intros E Ty o Ho. unfold conf_val. rewrite E. by apply Ty. Qed.

Lemma set_val_raw_typed val o c : o ∈ config_optionsp -> typed c -> typed (snd (set_val_raw val o c)).
Proof.
  intros Ho Ty. pose proof (int_as_typed (od_type o)) as Hi. unfold set_val_raw.
  assert (forall v, well_typed (od_type o) v -> typed (put_val (od_name o) v c)) as Hp by (intros; by apply put_typed).
  destruct (od_type o) eqn:E; cbn [snd] in *;
    repeat (match goal with |- context [match ?x with _ => _ end] => destruct x end; cbn [snd]); try done; apply Hp; try done; try apply Hi.
  by eexists.
Qed.

Lemma set_val_impl_typed val o c : o ∈ config_optionsp -> typed c -> typed (snd (set_val_impl val o c)).
Proof.
  intros Ho Ty. unfold set_val_impl. pose proof (set_val_raw_typed val o c Ho Ty) as Hr.
  destruct (set_val_raw val o c) as [ret c']. cbn [snd] in Hr. destruct (negb _); [done|]. by apply (typed_same c').
Qed.

(** ** Expansion *)

(** Strings change, and nothing else. *)
Record restrings c c' : Prop := {
  rs_rest : c' = set_values (c_values c') c;
  rs_values : forall o, o ∈ config_optionsp -> od_type o <> OPT_STR -> conf_val c' o = conf_val c o;
  rs_typed : typed c -> typed c';
  rs_plain : forall o, o ∈ config_optionsp -> od_type o = OPT_STR -> has_dollar (str_val c o) = false -> str_val c' o = str_val c o
}.

Lemma restrings_refl c : restrings c c.
Proof. split; [by destruct c|done..]. Qed.
Lemma restrings_trans c1 c2 c3 : restrings c1 c2 -> restrings c2 c3 -> restrings c1 c3.
Proof.
  intros [A1 A2 A3 A4] [B1 B2 B3 B4]. split; [rewrite B1, A1; by destruct c1| |auto|].
  - intros o Ho N. by rewrite B2, A2.
  - intros o Ho Et Hd. rewrite <- (A4 o) by done. apply B4; [done|done|]. by rewrite (A4 o).
Qed.
(** The value of an option is replaced by its expansion. *)
Lemma restrings_put c c1 o v : restrings c c1 -> o ∈ config_optionsp -> od_type o = OPT_STR ->
  (has_dollar (str_val c o) = false -> v = str_val c o) -> restrings c (put_val (od_name o) (VStr v) c1).
Proof.
  intros [R1 R2 R3 R4] Ho Et Hv. split.
  - rewrite R1. by destruct c.
  - intros o' Ho' N. rewrite conf_put_other; [by apply R2|]. intros E. apply N. by rewrite (same_name o' o Ho' Ho E).
  - intros Ty. apply put_typed; [done|by apply R3|by rewrite Et].
  - intros o' Ho' Et' Hd. unfold str_val. destruct (decide (od_name o' = od_name o)) as [E|N].
    + rewrite (same_name o' o Ho' Ho E) in Hd |- *. rewrite conf_put_same. by apply Hv.
    + rewrite conf_put_other by done. by apply R4.
Qed.

Lemma span_valid_length s : (String.length (snd (span_valid s)) <= String.length s)%nat.
Proof. induction s as [|a s IH]; cbn; [lia|]. destruct (valid_char a); [|cbn; lia]. destruct (span_valid s) as [v r]. cbn in *. lia. Qed.
Lemma parse_var_length s : (String.length (snd (parse_var s)) <= String.length s)%nat.
Proof.
  unfold parse_var. pose proof (span_valid_length s) as Hs. destruct s as [|a s]; [cbn; lia|].
  pose proof (span_valid_length s) as Hr. destruct (span_valid s) as [v r] eqn:Es. cbn [snd] in Hr.
  assert (String.length (snd (match r with String "}" r' => (v, r') | _ => (EmptyString, r) end)) <= String.length s)%nat as Hb.
  { destruct r as [|b r']; cbn in *; [lia|]. destruct b as [[] [] [] [] [] [] [] []]; cbn; lia. }
  destruct a as [[] [] [] [] [] [] [] []]; cbn [String.length] in *; (exact Hs || lia).
Qed.

Lemma loop_ok (rec : config -> option_def -> option expansion) n s out c found loops :
  (forall c o, o ∈ config_optionsp -> od_type o = OPT_STR -> exists c' v f ls, rec c o = Some (c', v, f, ls) /\ restrings c c' /\
     (has_dollar (str_val c o) = false -> v = str_val c o)) ->
  (String.length s <= n)%nat ->
  exists c' v f ls, expand_loop rec n s out c found loops = Some (c', v, f, ls) /\ restrings c c'.
Proof.
  intros Hr. revert s out c found loops. induction n as [|n IH]; intros s out c found loops Hn.
  { destruct s; cbn in *; [|lia]. eexists _, _, _, _. split; [done|apply restrings_refl]. }
  destruct s as [|a rest]; [eexists _, _, _, _; split; [done|apply restrings_refl]|]. cbn in Hn. cbn [expand_loop].
  destruct (negb (Ascii.eqb a "$")); [apply IH; lia|]. pose proof (parse_var_length rest) as Hp.
  destruct (parse_var rest) as [var after]. cbn [snd] in Hp. destruct (String.eqb var EmptyString); [apply IH; lia|].
  destruct (metavariable c var); [apply IH; lia|]. destruct (find_option var) as [o|] eqn:Eo; [|apply IH; lia].
  apply find_option_some in Eo as [Ho _]. case_bool_decide as Et; [|apply IH; lia].
  destruct (Hr c o Ho Et) as (c1 & v & f & ls & E1 & R1 & V1). rewrite E1. cbn [mbind option_bind].
  destruct (IH after (out +:+ v) (put_val (od_name o) (VStr v) c1) true (loops ++ ls)) as (c2 & v2 & f2 & ls2 & E2 & R2); [lia|].
  exists c2, v2, f2, ls2. split; [done|]. eapply restrings_trans; [by apply (restrings_put c c1 o v)|exact R2].
Qed.

(** The stack holds distinct options, so it is no longer than the table. *)
Lemma stack_bound o (stack : list string) : NoDup stack -> (forall x, x ∈ stack -> x ∈ map od_name config_optionsp) ->
  o ∈ config_optionsp -> od_name o ∉ stack -> (length stack < length config_optionsp)%nat.
Proof.
  intros Hn Hs Ho Hi. assert (length (od_name o :: stack) <= length (map od_name config_optionsp))%nat as Hl.
  { apply submseteq_length, NoDup_submseteq; [by constructor|]. intros x [->|Hx]%elem_of_cons; [by apply list_elem_of_fmap_2|by apply Hs]. }
  rewrite length_map in Hl. cbn [length] in Hl. lia.
Qed.

Lemma expand_option_ok depth o stack c : NoDup stack -> (forall x, x ∈ stack -> x ∈ map od_name config_optionsp) ->
  o ∈ config_optionsp -> (length config_optionsp <= depth + length stack)%nat ->
  exists c' v f ls, expand_meta depth (str_val c o) (Some (od_name o)) stack c = Some (c', v, f, ls) /\ restrings c c' /\
    (has_dollar (str_val c o) = false -> v = str_val c o).
Proof.
  revert o stack c. induction depth as [|depth IH]; intros o stack c Hn Hs Ho Hd; cbn [expand_meta];
    (destruct (has_dollar (str_val c o)); cbn [negb]; [|eexists _, _, _, _; split; [done|]; split; [apply restrings_refl|done]]);
    (case_bool_decide as Hi; [eexists _, _, _, _; split; [done|]; split; [apply restrings_refl|done]|]);
    pose proof (stack_bound o stack Hn Hs Ho Hi) as Hl; [lia|].
  edestruct loop_ok as (c' & v & f & ls & E & R); [..|rewrite E; exists c', v, f, ls; by split_and!]; [|lia]. intros c1 o1 Ho1 _. apply IH; [by constructor| |done|cbn; lia].
  intros x [->|Hx]%elem_of_cons; [by apply list_elem_of_fmap_2|by apply Hs].
Qed.

Lemma expand_value_ok v c : exists c' v' f ls, expand_value v c = Some (c', v', f, ls) /\ restrings c c'.
Proof.
  unfold expand_value, max_depth. cbn [expand_meta].
  destruct (negb (has_dollar v)); [eexists _, _, _, _; split; [done|apply restrings_refl]|].
  apply loop_ok; [|lia]. intros c1 o1 Ho1 _. apply expand_option_ok; [constructor|by intros x ?%not_elem_of_nil|done|cbn; lia].
Qed.

Lemma expand_options_ok l c : (forall o, o ∈ l -> o ∈ config_optionsp) ->
  exists c' ls, expand_options l c = Some (c', ls) /\ restrings c c'.
Proof.
  revert c. induction l as [|o l IH]; intros c Hl; [eexists _, _; split; [done|apply restrings_refl]|]. cbn [expand_options].
  assert (forall o', o' ∈ l -> o' ∈ config_optionsp) as Hl' by (intros o' Ho'; apply Hl; by right).
  case_bool_decide as Et; [|by apply IH].
  destruct (expand_option_ok max_depth o [] c) as (c1 & v & f & ls & E1 & R1); [constructor|by intros x ?%not_elem_of_nil|apply Hl; by left|unfold max_depth; cbn; lia|].
  rewrite E1. cbn [mbind option_bind]. destruct R1 as [R1 V1]. destruct (IH (put_val (od_name o) (VStr v) c1) Hl') as (c2 & ls2 & E2 & R2). rewrite E2. cbn [mbind option_bind].
  eexists _, _. split; [done|]. eapply restrings_trans; [apply (restrings_put c c1 o v); [done|apply Hl; by left|done|done]|exact R2].
Qed.

Lemma expand_all_ok c : exists c' ls, expand_all_meta c = Some (c', ls) /\ restrings c c'.
Proof. by apply expand_options_ok. Qed.

(** ** The operations *)

(** A configuration that comes from [c] is as well typed. *)
Definition keeps_typed c c' : Prop := typed c -> typed c'.
Lemma keeps_refl c : keeps_typed c c.
Proof. by intros Ty. Qed.

Lemma set_val_ok key val meta safe c : exists ret c', set_val key val meta safe c = Some (ret, c') /\ keeps_typed c c'.
Proof.
  unfold set_val. destruct key as [key|]; [|eexists _, _; split; [done|apply keeps_refl]].
  destruct val as [val|]; [|eexists _, _; split; [done|apply keeps_refl]].
  assert (exists c1 v, (if meta then '(c, v, _, _) ← expand_value val c; Some (c, v) else Some (c, val)) = Some (c1, v) /\ keeps_typed c c1)
    as (c1 & v & E & K).
  { destruct meta; [|eexists _, _; split; [done|apply keeps_refl]]. destruct (expand_value_ok val c) as (c1 & v & f & ls & E & R). rewrite E. eexists _, _. split; [done|intros Ty; by apply R]. }
  rewrite E. cbn [mbind option_bind].
  match goal with |- context [match ?x with Some _ => _ | None => _ end] => destruct x as [[n sub]|] end.
  { destruct (scan_levels v) as [[l g]|]; eexists _, _; (split; [done|]); [|exact K]. intros Ty. by apply (typed_same c1), K. }
  destruct (find_option _) as [o|] eqn:Eo; [|by eexists _, _; split; [|exact K]]. apply find_option_some in Eo as [Ho _]. destruct (_ && _); [by eexists _, _; split; [|exact K]|].
  pose proof (set_val_impl_typed v o c1 Ho) as Hi. destruct (set_val_impl v o c1) as [ret c2]. eexists _, _. split; [done|]. intros Ty. by apply Hi, K.
Qed.

Lemma set_or_die_ok key val c : exists r, set_val_or_die key val c = Some r /\ forall c', r = Ok c' -> keeps_typed c c'.
Proof.
  unfold set_val_or_die. destruct (set_val_ok (Some key) (Some val) true true c) as (ret & c1 & E & K). rewrite E. cbn [mbind option_bind].
  eexists. split; [done|]. intros c'. destruct (ret =? 0); [|done]. by intros [= <-].
Qed.

Lemma set_all_ok l c : exists r, set_all l c = Some r /\ forall c', r = Ok c' -> keeps_typed c c'.
Proof.
  revert c. induction l as [|[k v] l IH]; intros c; [eexists; split; [done|intros c' [= <-]; apply keeps_refl]|]. cbn [set_all].
  destruct (set_or_die_ok k v c) as (r & E & K). rewrite E. cbn [mbind option_bind]. destruct r as [c1|]; [|by eexists].
  destruct (IH c1) as (r & E' & K'). exists r. split; [done|]. intros c' Er Ty. by apply (K' c' Er), (K c1 eq_refl).
Qed.

Lemma apply_ok c : exists c' calls ms, _apply_changes c = Some (c', calls, ms) /\ keeps_typed c c'.
Proof.
  unfold _apply_changes. destruct (expand_all_ok c) as (c1 & ls & E & R). rewrite E. cbn [mbind option_bind].
  eexists _, _, _. split; [done|]. intros Ty. by apply (typed_same c1), R.
Qed.

Lemma call_all_ok c : exists c' calls, call_all_observers c = Some (c', calls) /\ keeps_typed c c'.
Proof.
  unfold call_all_observers. destruct (expand_all_ok c) as (c1 & ls & E & R). rewrite E. cbn [mbind option_bind].
  eexists _, _. split; [done|intros Ty; by apply R].
Qed.

Section Arguments.
Context `{!ArgParseOk}.

(** What the parsing of an argument leaves. *)
Definition goes_on (args : list string) c (p : parsed) : Prop :=
  (length (pa_rest p) < length args)%nat /\ keeps_typed c (pa_conf p).

Lemma parse_subsys_ok inject n subs args c p : parse_subsys inject n subs args c = Some (Done p) -> goes_on args c p.
Proof.
  revert n. induction subs as [|s subs IH]; intros n; [done|]. cbn [parse_subsys].
  destruct (argparse_witharg _ args) as [|v rest|] eqn:E; [apply IH| |done]. apply witharg_takes in E.
  destruct (scan_levels v) as [[l g]|]; intros [= <-]; (split; [done|]); intros Ty; [by apply (typed_same c)|done].
Qed.

Lemma parse_one_ok inject o args c p : o ∈ config_optionsp -> parse_one inject o args c = Some (Done p) -> goes_on args c p.
Proof.
  intros Ho. pose proof (fun v => set_val_impl_typed v o c Ho) as Hi. unfold parse_one, goes_on, keeps_typed. case_bool_decide.
  - destruct (argparse_binary_flag _ args) as [[r rest]|] eqn:E.
    { apply binary_takes in E. destruct (r =? 0); [|destruct (r =? 1)]; intros [= <-]; cbn; auto. }
    destruct (argparse_flag _ args) as [rest|] eqn:E'; [|done]. apply flag_takes in E'. intros [= <-]; cbn; auto.
  - destruct (argparse_witharg _ args) as [|v rest|] eqn:E; [done| |done]. apply witharg_takes in E. destruct (_ && _); [by intros [= <-]|].
    specialize (Hi v). destruct (set_val_impl v o c) as [r c1]. destruct (_ && _); intros [= <-]; cbn; auto.
Qed.

Lemma parse_option_ok inject args c p : args <> [] -> parse_option inject args c = Done p -> goes_on args c p.
Proof.
  intros Na. unfold parse_option. destruct (parse_subsys inject 0 (c_subsys c) args c) as [r|] eqn:E; [intros ->; by eapply parse_subsys_ok|].
  assert (forall l r, (forall o, o ∈ l -> o ∈ config_optionsp) -> parse_options inject l args c = Some r -> r = Done p -> goes_on args c p) as Hl.
  { induction l as [|o l IH]; intros r Hin Er ->; [done|]. cbn [parse_options] in Er. destruct (parse_one inject o args c) as [r'|] eqn:E1.
    - injection Er as ->. eapply parse_one_ok; [apply Hin; by left|exact E1].
    - eapply IH; [intros o' Ho'; apply Hin; by right|exact Er|done]. }
  destruct (parse_options inject config_optionsp args c) as [r|] eqn:Eo; [by eapply Hl|]. intros [= <-]. split; [|apply keeps_refl].
  destruct args; [done|]. cbn. lia.
Qed.

Lemma inject_ok n args ret c kept ms : (length args <= n)%nat -> exists r, inject_loop n args ret c kept ms = Some r /\
  forall ret' c' kept' ms', r = Done (ret', c', kept', ms') -> keeps_typed c c'.
Proof.
  revert args ret c kept ms. induction n as [|n IH]; intros args ret c kept ms Hn; (destruct args as [|a args]; [eexists; split; [done|intros * [= _ <- _ _]; apply keeps_refl]|]);
    [cbn in Hn; lia|]. cbn [inject_loop]. destruct (parse_option true (a :: args) c) as [p|code] eqn:E; [|by eexists].
  apply parse_option_ok in E as [Hl K]; [|done].
  destruct (IH (pa_rest p) (if pa_ret p <? 0 then pa_ret p else ret) (pa_conf p) (kept ++ pa_kept p) (ms ++ pa_msgs p)) as (r & Er & Kr); [cbn in *; lia|].
  exists r. split; [done|]. intros ret' c' kept' ms' Ed Ty. by apply (Kr _ _ _ _ Ed), K.
Qed.

Lemma injectargs_ok s c : exists r, injectargs s c = Some r /\
  forall ret c' calls ms, r = Done (ret, c', calls, ms) -> keeps_typed c c'.
Proof.
  unfold injectargs, parse_injectargs. destruct (inject_ok (length (words (String.length s) s)) (words (String.length s) s) 0 c [] []) as (r & E & K); [lia|].
  rewrite E. cbn [mbind option_bind]. destruct r as [[[[ret c1] kept] ms]|code]; [|by eexists]. specialize (K _ _ _ _ eq_refl).
  destruct (apply_ok c1) as (c2 & calls & ms2 & E2 & K2). destruct kept; rewrite E2; cbn [mbind option_bind]; eexists; (split; [done|]);
    intros * [= _ <- _ _] Ty; by apply K2, K.
Qed.

(** *** The command line *)

Definition argv_goes_on (args : list string) c (r : argv_step) : Prop :=
  forall st rest kept, r = ArgvNext st rest kept -> (length rest < length args)%nat /\ keeps_typed c (av_conf st).

Lemma after_set_ok x st args rest : (exists r, x = Some r /\ forall c', r = Ok c' -> keeps_typed (av_conf st) c') ->
  (length rest < length args)%nat -> exists r, after_set x st rest = Some r /\ argv_goes_on args (av_conf st) r.
Proof.
  intros (r & -> & K) Hl. unfold after_set. cbn [mbind option_bind]. eexists. split; [done|]. intros st' rest' kept.
  destruct r as [c'|]; [|done]. intros [= <- <- _]. split; [done|]. by apply K.
Qed.

Lemma argv_witharg_ok l args st : args <> [] -> exists r, argv_witharg l args st = Some r /\ argv_goes_on args (av_conf st) r.
Proof.
  intros Na. induction l as [|[names key] l IH]; cbn [argv_witharg].
  - eexists. split; [done|]. intros st' rest kept. destruct (parse_option false args (av_conf st)) as [p|] eqn:E; [|done].
    apply parse_option_ok in E as [Hl K]; [|done]. by intros [= <- <- _].
  - destruct (argparse_witharg names args) as [|v rest|] eqn:E; [done| |by eexists]. apply witharg_takes in E.
    apply after_set_ok; [apply set_or_die_ok|done].
Qed.

Lemma parse_arg_ok args st : args <> [] -> exists r, parse_arg args st = Some r /\ argv_goes_on args (av_conf st) r.
Proof.
  intros Na. unfold parse_arg. destruct (argparse_flag ["--show_conf"%string] args); [by eexists|].
  destruct (argparse_flag ["--show_config"%string] args) as [rest|] eqn:E1; [apply flag_takes in E1; eexists; split; [done|]|].
  { intros st' rest' kept [= <- <- _]. split; [done|apply keeps_refl]. }
  destruct (argparse_witharg ["--show_config_value"%string] args) as [|v rest|] eqn:E2; [|apply witharg_takes in E2; eexists; split; [done|]|by eexists].
  2: { intros st' rest' kept [= <- <- _]. split; [done|apply keeps_refl]. }
  destruct (argparse_flag ["--foreground"; "-f"]%string args) as [rest|] eqn:E3; [apply flag_takes in E3; apply after_set_ok; [apply set_all_ok|done]|].
  destruct (argparse_flag ["-d"%string] args) as [rest|] eqn:E4; [apply flag_takes in E4; apply after_set_ok; [apply set_all_ok|done]|].
  by apply argv_witharg_ok.
Qed.

Lemma argv_loop_ok n args st kept : (length args <= n)%nat -> exists r, argv_loop n args st kept = Some r /\
  forall st' kept', r = Ok (Done (st', kept')) -> keeps_typed (av_conf st) (av_conf st').
Proof.
  revert args st kept. induction n as [|n IH]; intros args st kept Hn; (destruct args as [|a args]; [eexists; split; [done|]; intros * [= <- _]; apply keeps_refl|]);
    [cbn in Hn; lia|]. cbn [argv_loop]. destruct (String.eqb a "--"); [eexists; split; [done|]; intros * [= <- _]; apply keeps_refl|].
  destruct (parse_arg_ok (a :: args) st) as (r & E & Hg); [done|]. rewrite E. cbn [mbind option_bind]. destruct r as [st1 rest k|code|]; [|by eexists..].
  destruct (Hg st1 rest k eq_refl) as [Hl K]. destruct (IH rest st1 (kept ++ k)) as (r & Er & Kr); [cbn in *; lia|]. exists r. split; [done|].
  intros st' kept' Ed Ty. by apply (Kr _ _ Ed), K.
Qed.

Lemma parse_argv_ok args c : exists r, parse_argv args c = Some r /\ forall ret c' kept, r = Ok (Done (ret, c', kept)) -> keeps_typed c c'.
Proof.
  unfold parse_argv. destruct (safe_to_start_threads c); [eexists; split; [done|]; intros * [= _ <- _]; apply keeps_refl|].
  destruct (argv_loop_ok (length args) args (mk_argv c false None) []) as (r & E & K); [lia|]. rewrite E. cbn [mbind option_bind].
  destruct r as [[[st kept]|code]|]; [|by eexists..]. specialize (K st kept eq_refl). destruct (av_show st).
  { destruct (expand_all_ok (av_conf st)) as (c1 & ls & E1 & _). rewrite E1. by eexists. }
  destruct (av_show_value st) as [key|]; [|eexists; split; [done|]; by intros * [= _ <- _]].
  destruct (_get_val (Some key) (-1) (av_conf st)) as [r buf]. destruct (r <? 0); [by eexists|].
  destruct (expand_value_ok (default EmptyString buf) (av_conf st)) as (c1 & v & f & ls & E1 & _). rewrite E1. by eexists.
Qed.

End Arguments.

(** *** Files *)

Lemma open_conf_ok files c : exists err c', open_conf files c = Some (err, c') /\ keeps_typed c c'.
Proof.
  revert c. induction files as [|fn files IH]; intros c; [eexists _, _; split; [done|apply keeps_refl]|]. cbn [open_conf].
  destruct (expand_value_ok fn (set_cf cf_empty c)) as (c1 & v & f & ls & E & R). rewrite E. cbn [mbind option_bind].
  destruct (cf_parse_file v) as [ret f']. assert (keeps_typed c (set_cf f' c1)) as K.
  { intros Ty. apply (typed_same c1); [done|]. apply R. by apply (typed_same c). }
  destruct (ret =? 0); [by eexists _, _|]. destruct (negb _); [by eexists _, _|].
  destruct (IH (set_cf f' c1)) as (err & c2 & E2 & K2). exists err, c2. split; [done|]. intros Ty. by apply K2, K.
Qed.

Lemma load_options_typed sections l c : (forall o, o ∈ l -> o ∈ config_optionsp) -> keeps_typed c (load_options sections l c).
Proof.
  revert c. induction l as [|o l IH]; intros c Hl; [apply keeps_refl|]. cbn [load_options]. destruct (read_sections sections (od_name o) c) as [ret v].
  intros Ty. apply IH; [intros o' Ho'; apply Hl; by right|]. destruct (ret =? 0); [|done]. apply set_val_impl_typed; [apply Hl; by left|done].
Qed.

Lemma load_subsys_typed sections n l c : keeps_typed c (load_subsys sections n l c).
Proof.
  revert n c. induction l as [|s l IH]; intros n c; [apply keeps_refl|]. cbn [load_subsys]. destruct (read_sections sections (debug_name s) c) as [ret v].
  intros Ty. apply IH. destruct (ret =? 0); [|done]. destruct (scan_levels v) as [[lg g]|]; [by apply (typed_same c)|done].
Qed.

Lemma parse_impl_ok files c : exists ret c' old, parse_config_files_impl files c = Some (ret, c', old) /\ keeps_typed c c'.
Proof.
  unfold parse_config_files_impl. destruct (open_conf_ok files c) as (err & c1 & E & K). rewrite E. cbn [mbind option_bind].
  destruct err as [ret|]; [by eexists _, _, _|]. eexists _, _, _. split; [done|]. intros Ty.
  apply load_subsys_typed, load_options_typed; [done|by apply K].
Qed.

Lemma parse_files_ok f env nd c : exists ret c' old, parse_config_files f env nd c = Some (ret, c', old) /\ keeps_typed c c'.
Proof.
  unfold parse_config_files. destruct (safe_to_start_threads c); [eexists _, _, _; split; [done|apply keeps_refl]|].
  destruct f as [f|]; [apply parse_impl_ok|]. destruct env as [f|]; [apply parse_impl_ok|].
  destruct nd; [eexists _, _, _; split; [done|apply keeps_refl]|apply parse_impl_ok].
Qed.

Lemma parse_env_ok kr c : exists r, parse_env kr c = Some r /\ forall c', r = Ok c' -> keeps_typed c c'.
Proof.
  unfold parse_env. destruct (safe_to_start_threads c); [eexists; split; [done|intros c' [= <-]; apply keeps_refl]|].
  destruct kr as [v|]; [apply set_or_die_ok|eexists; split; [done|intros c' [= <-]; apply keeps_refl]].
Qed.

(** ** Any sequence of operations *)

Inductive config_op :=
| SetVal (key val : option string) (meta safe : bool)
| InjectArgs (s : string)
| ParseArgv (args : list string)
| ParseFiles (files ceph_conf : option string) (no_default : bool)
| ParseEnv (keyring : option string)
| ApplyChanges
| CallObservers
| AddObserver (obs : Z) (keys : list string)
| RemoveObserver (obs : Z).

(** [None]: it does not end; the process may abort or exit *)
Definition run_config_op (op : config_op) c : option (res (outcome config)) :=
  match op with
  | SetVal key val meta safe => '(_, c) ← set_val key val meta safe c; Some (Ok (Done c))
  | InjectArgs s =>
      r ← injectargs s c;
      Some (Ok (match r with Done (_, c, _, _) => Done c | Exit code => Exit code end))
  | ParseArgv args =>
      r ← parse_argv args c;
      Some (match r with Ok (Done (_, c, _)) => Ok (Done c) | Ok (Exit code) => Ok (Exit code) | Abort => Abort end)
  | ParseFiles files conf nd => '(_, c, _) ← parse_config_files files conf nd c; Some (Ok (Done c))
  | ParseEnv kr => r ← parse_env kr c; Some (match r with Ok c => Ok (Done c) | Abort => Abort end)
  | ApplyChanges => '(c, _, _) ← apply_changes c; Some (Ok (Done c))
  | CallObservers => '(c, _) ← call_all_observers c; Some (Ok (Done c))
  | AddObserver obs keys => Some (Ok (Done (add_observer obs keys c)))
  | RemoveObserver obs => Some (match remove_observer obs c with Ok c => Ok (Done c) | Abort => Abort end)
  end.

Fixpoint run_config_ops (ops : list config_op) c : option (res (outcome config)) :=
  match ops with
  | [] => Some (Ok (Done c))
  | op :: ops => r ← run_config_op op c; match r with Ok (Done c) => run_config_ops ops c | _ => Some r end
  end.

Lemma config_op_ok `{!ArgParseOk} op c : exists r, run_config_op op c = Some r /\ forall c', r = Ok (Done c') -> keeps_typed c c'.
Proof.
  destruct op as [key val meta safe|s|args|f env nd|kr| | |obs keys|obs]; cbn [run_config_op].
  - destruct (set_val_ok key val meta safe c) as (ret & c1 & E & K). rewrite E. cbn. eexists. split; [done|]. by intros c' [= <-].
  - destruct (injectargs_ok s c) as (r & E & K). rewrite E. cbn. eexists. split; [done|]. destruct r as [[[[ret c1] calls] ms]|]; [|done].
    intros c' [= <-]. by eapply K.
  - destruct (parse_argv_ok args c) as (r & E & K). rewrite E. cbn. eexists. split; [done|]. destruct r as [[[[ret c1] kept]|]|]; [|done..].
    intros c' [= <-]. by eapply K.
  - destruct (parse_files_ok f env nd c) as (ret & c1 & old & E & K). rewrite E. cbn. eexists. split; [done|]. by intros c' [= <-].
  - destruct (parse_env_ok kr c) as (r & E & K). rewrite E. cbn. eexists. split; [done|]. destruct r as [c1|]; [|done]. intros c' [= <-]. by apply K.
  - unfold apply_changes. destruct (apply_ok c) as (c1 & calls & ms & E & K). rewrite E. cbn. eexists. split; [done|]. by intros c' [= <-].
  - destruct (call_all_ok c) as (c1 & calls & E & K). rewrite E. cbn. eexists. split; [done|]. by intros c' [= <-].
  - eexists. split; [done|]. intros c' [= <-] Ty. by apply (typed_same c).
  - eexists. split; [done|]. intros c'. unfold remove_observer. destruct (negb _); [|done]. intros [= <-] Ty. by apply (typed_same c).
Qed.

(** C11: A configuration is always well typed.  Whatever sequence of sets, injected arguments,
    command lines, configuration files and observers it goes through from its construction, each
    of the operations ends (also when options refer to each other in a loop), and while the
    process lives every option of the table has a value of its type, within its width. *)
Theorem config_always_typed `{!ArgParseOk} name pid this ops :
  exists r, run_config_ops ops (new_config name pid this : config) = Some r /\
    forall c, r = Ok (Done c) -> forall o, o ∈ config_optionsp -> well_typed (od_type o) (conf_val c o).
Proof.
  assert (typed (new_config name pid this : config)) as Ty.
  { intros o Ho. unfold conf_val. cbn. rewrite lookup_empty. by apply default_typed. }
  revert Ty. generalize (new_config name pid this : config). induction ops as [|op ops IH]; intros c Ty; [eexists; split; [done|by intros c' [= <-]]|].
  cbn [run_config_ops]. destruct (config_op_ok op c) as (r & E & K). rewrite E. cbn [mbind option_bind]. destruct r as [[c1|code]|]; [|by eexists..].
  by apply IH, (K c1).
Qed.

End Typed.

(** ** A concrete configuration *)

Definition build_ex : BuildConst := {|
  CEPH_STR_HASH_RJENKINS := 2; CEPH_DEFAULT_CRUSH_REPLICATED_RULESET := 0; OSD_POOL_ERASURE_CODE_STRIPE_WIDTH := 4096;
  CEPH_PKGLIBDIR := "/usr/lib/ceph"; CEPH_LIBDIR := "/usr/lib"; HAVE_BETTER_YASM_ELF64 := false
|}.
Definition real_ex : RealText Q := {| d_lit := fun q => q; d_atof := fun _ => 0%Q; d_print := fun _ => "0"%string; d_float := fun q => q |}.
Definition addr_ex : AddrText string string := {|
  addr_zero := EmptyString; addr_parse := fun s _ => (true, s); addr_print := fun s => s;
  uuid_zero := EmptyString; uuid_parse := fun s _ => (true, s); uuid_print := fun s => s
|}.
Definition conf_int (s : string) : option Z := match scan_digits s None with (Some n, EmptyString) => Some n | _ => None end.
Definition strict_int (s : string) : option Z :=
  z ← match s with String "-" r => Z.opp <$> conf_int r | _ => conf_int s end;
  if bool_decide (- 2 ^ 63 <= z < 2 ^ 63) then Some z else None.
Definition text_ex : ConfText := {|
  strict_sistrtoll := strict_int; strict_strtol := strict_int; normalize_key_name := fun s => s; get_str_list := fun s => [s]
|}.
(** a file is its lines: section, key and value *)
Fixpoint read_lines (l : list (string * string * string)) (s k : string) : Z * string :=
  match l with
  | [] => (- ENOENT, EmptyString)
  | (s', k', v) :: l => if String.eqb s s' && String.eqb k k' then (0, v) else read_lines l s k
  end.
Definition file_ex : ConfFileOps (list (string * string * string)) := {|
  cf_empty := []; cf_parse_file := fun _ => (0, [("mds", "mds_data", "/data/$id")]%string); cf_read := read_lines; cf_sections := map (fun x => fst (fst x))
|}.
Definition witharg_ex (names args : list string) : witharg :=
  match args with
  | a :: r => if bool_decide (a ∈ names) then match r with v :: r => WithArg v r | [] => MissingArg end else NoArg
  | [] => NoArg
  end.
Definition flag_ex (names args : list string) : option (list string) :=
  match args with a :: r => if bool_decide (a ∈ names) then Some r else None | [] => None end.
Definition args_ex : ArgParse := {|
  argparse_flag := flag_ex; argparse_witharg := witharg_ex;
  argparse_binary_flag := fun name args => match flag_ex [name] args with Some r => Some (1, r) | None => None end
|}.
#[export] Existing Instances build_ex real_ex addr_ex text_ex file_ex args_ex.

#[export] Instance args_ex_ok : ArgParseOk.
Proof.
  assert (forall names args rest, flag_ex names args = Some rest -> (length rest < length args)%nat) as Hf.
  { intros names [|a args] rest; [done|]. cbn. case_bool_decide; [|done]. intros [= <-]. lia. }
  split.
  - exact Hf.
  - intros names [|a args] v rest; cbn; [done|]. case_bool_decide; [|done]. destruct args as [|b args]; [done|]. intros [= <- <-]. cbn. lia.
  - intros name args r rest. cbn. destruct (flag_ex [name] args) as [r'|] eqn:E; [|done]. intros [= _ <-]. by eapply Hf.
Qed.

Definition name_ex : entity_name := mk_ename "mds.a" "mds" "a".

(** Two options refer to each other in a loop; the rest is set from a file and from arguments. *)
Definition ops_ex : list config_op :=
  [ParseFiles (Some "ceph.conf"%string) None false; SetVal (Some "run_dir"%string) (Some "$log_file"%string) false true;
   SetVal (Some "log_file"%string) (Some "$run_dir"%string) false true; InjectArgs "--mds_bal_interval 20"; ApplyChanges].

Lemma config_always_typed_witness : exists c o, run_config_ops ops_ex (new_config name_ex 7 9 : config Q string string (list (string * string * string))) = Some (Ok (Done c)) /\
  find_option "mds_bal_interval" = Some o /\ conf_val c o = VInt 20 /\ well_typed OPT_INT (conf_val c o).
Proof.
  destruct (config_always_typed name_ex 7 9 ops_ex) as (r & E & Ht).
  assert (match run_config_ops ops_ex (new_config name_ex 7 9 : config Q string string (list (string * string * string))) with
    | Some (Ok (Done c)) => c_values c !! "mds_bal_interval"%string | _ => None end = Some (VInt 20)) as Hc by (vm_compute; reflexivity).
  rewrite E in Hc. destruct r as [[c|]|]; [|discriminate Hc..].
  assert (find_option "mds_bal_interval" = Some (OPTION "mds_bal_interval" OPT_INT (DInt 10))) as Ho by (vm_compute; reflexivity).
  exists c, (OPTION "mds_bal_interval" OPT_INT (DInt 10)). split; [exact E|]. split; [exact Ho|]. split.
  - unfold conf_val. cbn [od_name]. rewrite Hc. reflexivity.
  - apply (Ht c eq_refl (OPTION "mds_bal_interval" OPT_INT (DInt 10))). by apply find_option_some in Ho as [Ho _].
Defined.
