(* ===== verification/ConfigExpand.v ===== *)
(** * Expansion is substitution (common/config.cc)

    [expand_meta] rewrites the options it meets in place, so what a value expands to depends on
    which options were expanded before it.  When every variable resolves and the options do not
    refer to each other in a loop, the order does not matter: the values that are left are the
    solution of the substitution equations. *)

From Stdlib Require Import ZArith QArith Ascii String Lia.
From stdpp Require Import base tactics numbers list gmap strings sorting pretty.
From S2P Require Import Prelude ConfigOpts Config ConfigTyped.
Open Scope Z_scope.
Open Scope list_scope.

(** ** The pieces of a value *)

Inductive piece :=
| Lit (a : ascii)
| Var (name : string).
#[export] Instance piece_eq_dec : EqDecision piece.
Proof. solve_decision. Defined.

Definition name_char (a : ascii) : bool :=
  let n := N_of_ascii a in (((97 <=? n) && (n <=? 122)) || ((65 <=? n) && (n <=? 90)) || ((48 <=? n) && (n <=? 57)) || (n =? 95))%N.
Fixpoint name_chars (s : string) : bool := match s with EmptyString => true | String a r => name_char a && name_chars r end.

(** [normalize_key_name] trims blanks and turns blanks and dashes into underscores: a name
    without any stays. *)
Class NormalizeOk `{ConfText} : Prop := normalize_name : forall s, name_chars s = true -> normalize_key_name s = s.

Section Expand.
Context {D A U CF : Type} `{BuildConst} `{RealText D} `{AddrText A U} `{ConfText} `{ConfFileOps CF} `{!NormalizeOk}.
Abbreviation config := (config D A U CF).
Implicit Types c : config.
Implicit Types o : option_def.

Definition known (var : string) : bool := existsb (String.eqb var) CONF_METAVARIABLES || bool_decide (is_Some (find_option var)).

(** What the loop finds in a value; [n] is at least its length. *)
Fixpoint pieces (n : nat) (s : string) : list piece :=
  match n, s with
  | O, _ | _, EmptyString => []
  | S n, String a rest =>
      if Ascii.eqb a "$" && negb (String.eqb (fst (parse_var rest)) EmptyString) && known (fst (parse_var rest))
      then Var (fst (parse_var rest)) :: pieces n (snd (parse_var rest))
      else Lit a :: pieces n rest
  end.
Definition pieces_of (s : string) : list piece := pieces (String.length s) s.

(** What a variable stands for in a configuration. *)
Definition var_text c (var : string) : string :=
  match metavariable c var with
  | Some t => t
  | None => match find_option var with
            | Some o => if bool_decide (od_type o = OPT_STR) then str_val c o else val_text (od_name o) c
            | None => EmptyString
            end
  end.
Definition piece_text c (p : piece) : string := match p with Lit a => String a EmptyString | Var v => var_text c v end.
Fixpoint concat_text (l : list string) : string := match l with [] => EmptyString | s :: l => s +:+ concat_text l end.

(** The value with each variable replaced by what it stands for. *)
Definition subst c (s : string) : string := concat_text (map (piece_text c) (pieces_of s)).

(** The string option a variable refers to. *)
Definition referent (var : string) : option option_def :=
  if existsb (String.eqb var) CONF_METAVARIABLES then None
  else o ← find_option var; if bool_decide (od_type o = OPT_STR) then Some o else None.

(** A value with a ['$'] that starts no variable, such as the [$channel] of [mon_cluster_log_file]. *)
Definition unresolved (s : string) : Prop := Lit "$" ∈ pieces_of s.
#[global] Instance unresolved_dec s : Decision (unresolved s) := _.

(** The texts that are not string options bring in no ['$']. *)
Definition plain_texts c (s : string) : Prop :=
  forall v, Var v ∈ pieces_of s -> referent v = None -> has_dollar (var_text c v) = false.

(** Nothing but strings changes. *)
Definition same_but_strings c c' : Prop :=
  c' = set_values (c_values c') c /\
  forall o, o ∈ config_optionsp -> od_type o <> OPT_STR -> conf_val c' o = conf_val c o.

(** Every string is its original text, each variable replaced by what it stands for in the end. *)
Definition solves c c' : Prop :=
  same_but_strings c c' /\
  forall o, o ∈ config_optionsp -> od_type o = OPT_STR -> str_val c' o = subst c' (str_val c o).

(** ** Lemmas *)

Lemma append_empty_r s : s +:+ EmptyString = s.
Proof. induction s as [|a s IH]; [done|]. exact (f_equal (String a) IH). Qed.
Lemma append_assoc_str a b d : (a +:+ b) +:+ d = a +:+ (b +:+ d).
Proof. induction a as [|x a IH]; [done|]. exact (f_equal (String x) IH). Qed.
Lemma has_dollar_app a b : has_dollar (a +:+ b) = has_dollar a || has_dollar b.
Proof. induction a as [|x a IH]; [done|]. change (Ascii.eqb x "$" || has_dollar (a +:+ b) = Ascii.eqb x "$" || has_dollar a || has_dollar b). by rewrite IH, orb_assoc. Qed.

Lemma metavariable_known c v : is_Some (metavariable c v) <-> existsb (String.eqb v) CONF_METAVARIABLES = true.
Proof.
  unfold metavariable. cbn [existsb CONF_METAVARIABLES].
  repeat match goal with |- context [String.eqb v ?x] => destruct (String.eqb v x) end; cbn; split; try done; by intros [??].
Qed.

Lemma pieces_known n s v : Var v ∈ pieces n s -> known v = true.
Proof.
  revert s. induction n as [|n IH]; intros s; [by intros ?%elem_of_nil|]. destruct s as [|a rest]; [by intros ?%elem_of_nil|]. cbn [pieces].
  destruct (_ && known _) eqn:E; intros [Ev|Hv]%elem_of_cons; [|by eapply IH|done|by eapply IH].
  injection Ev as ->. by apply andb_true_iff in E as [_ ?].
Qed.

Lemma pieces_plain n s : (String.length s <= n)%nat -> has_dollar s = false -> concat_text (map (fun p => match p with Lit a => String a EmptyString | Var _ => EmptyString end) (pieces n s)) = s /\ forall v, Var v ∉ pieces n s.
Proof.
  revert s. induction n as [|n IH]; intros s Hn Hd; [destruct s; cbn in *; [|lia]; split; [done|by intros v ?%elem_of_nil]|].
  destruct s as [|a s]; [split; [done|by intros v ?%elem_of_nil]|]. cbn in Hd. apply orb_false_iff in Hd as [Ha Hd]. cbn [pieces]. rewrite Ha. cbn.
  destruct (IH s) as [E Hv]; [cbn in Hn; lia|done|]. rewrite E. split; [done|]. intros v [?|Hv']%elem_of_cons; [done|]. by apply (Hv v).
Qed.

Lemma subst_plain c s : has_dollar s = false -> subst c s = s.
Proof.
  intros Hd. destruct (pieces_plain (String.length s) s (le_n _) Hd) as [E Hv]. unfold subst, pieces_of. etransitivity; [|exact E]. f_equal.
  apply map_ext_in. intros p Hp%list_elem_of_In. destruct p as [a|v]; [done|]. by destruct (Hv v).
Qed.

Lemma referent_some v o : referent v = Some o <->
  existsb (String.eqb v) CONF_METAVARIABLES = false /\ o ∈ config_optionsp /\ od_name o = v /\ od_type o = OPT_STR.
Proof.
  unfold referent. destruct (existsb _ _); [naive_solver|]. destruct (find_option v) as [o'|] eqn:E; cbn.
  - pose proof E as [Ho' Hn]%find_option_some. case_bool_decide as Et; split; try done.
    + intros [= <-]. done.
    + intros (_ & Ho & <- & _). f_equal. by apply same_name.
    + intros (_ & Ho & <- & Et'). destruct Et. by rewrite (same_name o' o).
  - split; [done|]. intros (_ & Ho & Hn & _). assert (find_option v = Some o) by (by apply find_option_some). congruence.
Qed.

#[local] Opaque config_optionsp.

(** ** Options that do not refer to each other in a loop *)

Section Acyclic.
Variable c0 : config.
Variable rank : string -> nat.
Hypothesis Hres : forall o, o ∈ config_optionsp -> od_type o = OPT_STR -> plain_texts c0 (str_val c0 o).
Hypothesis Hhost : has_dollar (conf_host c0) = false.
Hypothesis Hrank : forall o o' v, o ∈ config_optionsp -> od_type o = OPT_STR -> Var v ∈ pieces_of (str_val c0 o) ->
  referent v = Some o' -> (rank (od_name o') < rank (od_name o))%nat /\ ~ unresolved (str_val c0 o').

(** What a piece becomes when the string options are worth [f]. *)
Definition piece_with (f : option_def -> string) (p : piece) : string :=
  match p with
  | Lit a => String a EmptyString
  | Var v => match referent v with Some o => f o | None => var_text c0 v end
  end.
Fixpoint final_n (n : nat) o : string :=
  match n with
  | O => EmptyString
  | S n => concat_text (map (piece_with (final_n n)) (pieces_of (str_val c0 o)))
  end.
Definition final o : string := final_n (S (rank (od_name o))) o.

Lemma final_stable n m o : o ∈ config_optionsp -> od_type o = OPT_STR -> (rank (od_name o) < n)%nat -> (rank (od_name o) < m)%nat ->
  final_n n o = final_n m o.
Proof.
  revert m o. induction n as [|n IH]; intros m o Ho Et Hn Hm; [lia|]. destruct m as [|m]; [lia|]. cbn [final_n]. f_equal.
  apply map_ext_in. intros [a|v] Hp%list_elem_of_In; [done|]. cbn. destruct (referent v) as [o'|] eqn:E; [|done].
  destruct (Hrank o o' v Ho Et Hp E). pose proof E as (_ & Ho' & _ & Et')%referent_some. apply IH; (done || lia).
Qed.

Lemma final_eq o : o ∈ config_optionsp -> od_type o = OPT_STR ->
  final o = concat_text (map (piece_with final) (pieces_of (str_val c0 o))).
Proof.
  intros Ho Et. unfold final at 1. cbn [final_n]. f_equal. apply map_ext_in. intros [a|v] Hp%list_elem_of_In; [done|]. cbn [piece_with].
  destruct (referent v) as [o'|] eqn:E; [|done]. destruct (Hrank o o' v Ho Et Hp E). pose proof E as (_ & Ho' & _ & Et')%referent_some.
  apply final_stable; (done || lia).
Qed.

Lemma no_dollar_concat l : (forall s, s ∈ l -> has_dollar s = false) -> has_dollar (concat_text l) = false.
Proof.
  induction l as [|s l IH]; intros Hl; [done|]. cbn [concat_text]. rewrite has_dollar_app, Hl, IH by (by left || intros; apply Hl; by right). done.
Qed.

Lemma final_no_dollar o : o ∈ config_optionsp -> od_type o = OPT_STR -> ~ unresolved (str_val c0 o) -> has_dollar (final o) = false.
Proof.
  remember (rank (od_name o)) as r eqn:Er. revert o Er. induction (lt_wf r) as [r _ IH]. intros o -> Ho Et Hl. rewrite final_eq by done.
  pose proof (Hres o Ho Et) as Hv. apply no_dollar_concat. intros s Hs. apply list_elem_of_fmap in Hs as ([a|v] & -> & Hp); cbn [piece_with].
  - cbn. destruct (Ascii.eqb a "$") eqn:Ea; [|done]. apply Ascii.eqb_eq in Ea as ->. by destruct Hl.
  - destruct (referent v) as [o'|] eqn:E; [|by apply Hv]. pose proof E as (_ & Ho' & _ & Et')%referent_some. destruct (Hrank o o' v Ho Et Hp E).
    by eapply (IH (rank (od_name o'))).
Qed.

Lemma plain_final_eq o : o ∈ config_optionsp -> od_type o = OPT_STR -> has_dollar (str_val c0 o) = false -> final o = str_val c0 o.
Proof.
  intros Ho Et Hd. rewrite final_eq by done. destruct (pieces_plain _ _ (le_n _) Hd) as [Ep Hv]. etransitivity; [|exact Ep]. f_equal.
  apply map_ext_in. intros [a|v] Hp%list_elem_of_In; [done|]. by destruct (Hv v).
Qed.

(** *** While the options are expanded *)

(** A string option has its original value or its final one. *)
Record partial c : Prop := {
  pt_rest : same_but_strings c0 c;
  pt_strings : forall o, o ∈ config_optionsp -> od_type o = OPT_STR -> str_val c o = str_val c0 o \/ str_val c o = final o
}.
(** It keeps the final one, and an unresolved one is not reached. *)
Definition extends c c' : Prop := partial c' /\
  forall o, o ∈ config_optionsp -> od_type o = OPT_STR ->
    (str_val c o = final o -> str_val c' o = final o) /\ (unresolved (str_val c0 o) -> str_val c' o = str_val c o).

Lemma extends_refl c : partial c -> extends c c.
Proof. by split. Qed.
Lemma extends_trans c1 c2 c3 : extends c1 c2 -> extends c2 c3 -> extends c1 c3.
Proof.
  intros [_ A12] [P3 A23]. split; [done|]. intros o Ho Et. destruct (A12 o Ho Et) as [F1 U1], (A23 o Ho Et) as [F2 U2].
  split; [auto|]. intros Hu. by rewrite U2, U1.
Qed.

Lemma str_put_same c o v : str_val (put_val (od_name o) (VStr v) c) o = v.
Proof. unfold str_val. by rewrite conf_put_same. Qed.

Lemma str_put c o o' v : o ∈ config_optionsp -> o' ∈ config_optionsp ->
  str_val (put_val (od_name o) (VStr v) c) o' = if decide (od_name o = od_name o') then v else str_val c o'.
Proof.
  intros Ho Ho'. destruct (decide (od_name o = od_name o')) as [E|N]; [rewrite (same_name o o' Ho Ho' E); apply str_put_same|].
  unfold str_val. by rewrite conf_put_other.
Qed.

Lemma partial_put c o : partial c -> o ∈ config_optionsp -> od_type o = OPT_STR -> partial (put_val (od_name o) (VStr (final o)) c).
Proof.
  intros [[Pr Pv] Ps] Ho Et. split; [split|].
  - rewrite Pr. done.
  - intros o' Ho' N. rewrite conf_put_other; [by apply Pv|]. intros E. apply N. by rewrite (same_name o' o Ho' Ho E).
  - intros o' Ho' Et'. rewrite str_put by done. destruct (decide _) as [E|N]; [right; by rewrite (same_name o o' Ho Ho' E)|by apply Ps].
Qed.

Lemma extends_put c o : partial c -> o ∈ config_optionsp -> od_type o = OPT_STR -> ~ unresolved (str_val c0 o) ->
  extends c (put_val (od_name o) (VStr (final o)) c).
Proof.
  intros P Ho Et Nu. split; [by apply partial_put|]. intros o' Ho' Et'. rewrite str_put by done.
  destruct (decide _) as [En|N]; [|done]. rewrite (same_name o o' Ho Ho' En) in Nu |- *. done.
Qed.

(** What is not a string option stands for the same text all along. *)
Lemma host_type o : find_option "host" = Some o -> o ∈ config_optionsp /\ od_type o = OPT_STR.
Proof.
  intros E. pose proof E as [Ho Hn]%find_option_some. split; [done|].
  assert (match find_option "host" with Some o => bool_decide (od_type o = OPT_STR) | None => false end = true) as Hb by (vm_compute; reflexivity).
  rewrite E in Hb. by case_bool_decide.
Qed.
Lemma host_partial c : partial c -> conf_host c = conf_host c0.
Proof.
  intros [_ Ps]. unfold conf_host in *. destruct (find_option "host") as [o|] eqn:E; [|done]. destruct (host_type o E) as [Ho Et].
  destruct (Ps o Ho Et) as [->| ->]; [done|]. by apply plain_final_eq.
Qed.

Lemma meta_same c v : same_but_strings c0 c -> conf_host c = conf_host c0 -> metavariable c v = metavariable c0 v.
Proof. intros [Hr _] Hh. unfold metavariable. rewrite Hh, Hr. done. Qed.

Lemma name_normal o : o ∈ config_optionsp -> normalize_key_name (od_name o) = od_name o.
Proof.
  intros Ho. apply normalize_name. assert (forallb (fun o => name_chars (od_name o)) config_optionsp = true) as Hf by (vm_compute; reflexivity).
  rewrite forallb_forall in Hf. by apply Hf, list_elem_of_In.
Qed.
Lemma val_text_eq c o : o ∈ config_optionsp -> val_text (od_name o) c = print_value (conf_val c o).
Proof.
  intros Ho. unfold val_text, _get_val. rewrite name_normal by done.
  assert (find_option (od_name o) = Some o) as -> by (by apply find_option_some). done.
Qed.

Lemma rest_same c o : same_but_strings c0 c -> o ∈ config_optionsp -> od_type o <> OPT_STR -> val_text (od_name o) c = val_text (od_name o) c0.
Proof. intros [_ Hv] Ho N. rewrite !val_text_eq by done. by rewrite Hv. Qed.

(** A variable stands for its final text once the option it refers to is final. *)
Lemma var_text_final c v : same_but_strings c0 c -> conf_host c = conf_host c0 -> known v = true ->
  (forall o, referent v = Some o -> str_val c o = final o) -> var_text c v = piece_with final (Var v).
Proof.
  intros Hs Hh Hk Hf. cbn [piece_with]. unfold var_text, known in *. rewrite (meta_same c v Hs Hh).
  pose proof (metavariable_known c0 v) as Hm. destruct (metavariable c0 v) as [t|] eqn:Em.
  { unfold referent. by rewrite (proj1 Hm). }
  destruct (existsb (String.eqb v) CONF_METAVARIABLES) eqn:Ex; [by destruct (proj2 Hm eq_refl)|]. cbn in Hk.
  destruct (find_option v) as [o|] eqn:Eo; [clear Hk|done]. pose proof Eo as [Ho Hn]%find_option_some. case_bool_decide as Et.
  - assert (referent v = Some o) as Er by (by apply referent_some). rewrite Er. by apply Hf.
  - rewrite (rest_same c o Hs Ho Et). destruct (referent v) as [o'|] eqn:E; [|done].
    apply referent_some in E as (_ & Ho' & Hn' & Et'). destruct Et. by rewrite (same_name o o') by congruence.
Qed.

Lemma plain_final c o : partial c -> o ∈ config_optionsp -> od_type o = OPT_STR -> has_dollar (str_val c o) = false -> str_val c o = final o.
Proof.
  intros P Ho Et Hd. destruct (pt_strings c P o Ho Et) as [E|E]; [|done]. rewrite E in Hd |- *. by rewrite plain_final_eq.
Qed.

(** *** The loop and the recursion *)

(** What the expansion of an option is meant to do. *)
Definition expands (x : option (@expansion D A U CF)) c (s : string) (loops : list string) : Prop :=
  forall c' v f ls, x = Some (c', v, f, ls) -> v = s /\ ls = loops /\ extends c c'.

(** What a known variable is, and what its piece becomes. *)
Lemma var_cases c var : partial c ->
  match metavariable c var with
  | Some t => known var = true /\ piece_with final (Var var) = t
  | None =>
      match find_option var with
      | None => known var = false
      | Some o => known var = true /\ o ∈ config_optionsp /\
          (od_type o = OPT_STR -> referent var = Some o /\ piece_with final (Var var) = final o) /\
          (od_type o <> OPT_STR -> piece_with final (Var var) = val_text (od_name o) c)
      end
  end.
Proof.
  intros P. rewrite (meta_same c var (pt_rest c P) (host_partial c P)). pose proof (metavariable_known c0 var) as Hm. unfold known, piece_with, var_text.
  destruct (metavariable c0 var) as [t|] eqn:Em.
  { unfold referent. rewrite (proj1 Hm) by done. done. }
  destruct (existsb (String.eqb var) CONF_METAVARIABLES) eqn:Ex; [by destruct (proj2 Hm eq_refl)|].
  destruct (find_option var) as [o|] eqn:Eo; [|done]. pose proof Eo as [Ho Hn]%find_option_some. split; [done|]. split; [done|]. split.
  - intros Et. assert (referent var = Some o) as -> by (by apply referent_some). done.
  - intros Nt. rewrite (rest_same c o (pt_rest c P) Ho Nt). destruct (referent var) as [o'|] eqn:E; [|by rewrite bool_decide_false].
    apply referent_some in E as (_ & Ho' & Hn' & Et'). destruct Nt. by rewrite (same_name o o') by congruence.
Qed.

Lemma loop_expands rec n s out c found loops : partial c -> (String.length s <= n)%nat ->
  (forall v o, Var v ∈ pieces n s -> referent v = Some o -> ~ unresolved (str_val c0 o)) ->
  (forall v o c, Var v ∈ pieces n s -> referent v = Some o -> partial c -> expands (rec c o) c (final o) []) ->
  expands (expand_loop rec n s out c found loops) c (out +:+ concat_text (map (piece_with final) (pieces n s))) loops.
Proof.
  revert s out c found loops. induction n as [|n IH]; intros s out c found loops P Hn Hu Hr.
  { destruct s; cbn in Hn; [|lia]. intros c' v f ls [= <- <- _ <-]. cbn. rewrite append_empty_r. auto using extends_refl. }
  destruct s as [|a rest]; [intros c' v f ls [= <- <- _ <-]; cbn; rewrite append_empty_r; auto using extends_refl|].
  cbn in Hn. cbn [expand_loop pieces] in Hu, Hr |- *. pose proof (parse_var_length rest) as Hp. destruct (parse_var rest) as [var after]. cbn [fst snd] in *.
  assert (forall p l, out +:+ concat_text (map (piece_with final) (p :: l)) = (out +:+ piece_with final p) +:+ concat_text (map (piece_with final) l)) as Hcons
    by (intros p l; by rewrite append_assoc_str).
  destruct (Ascii.eqb a "$"); cbn [negb andb] in *; [|rewrite Hcons; apply IH; [done|lia|intros; eapply Hu; [by right|done]|intros; eapply Hr; [by right|done|done]]].
  destruct (String.eqb var EmptyString); cbn [negb andb] in *; [rewrite Hcons; apply IH; [done|lia|intros; eapply Hu; [by right|done]|intros; eapply Hr; [by right|done|done]]|].
  pose proof (var_cases c var P) as Hv. destruct (metavariable c var) as [t|].
  { destruct Hv as [Hk <-]. rewrite Hk in Hu, Hr |- *. rewrite Hcons. apply IH; [done|lia|intros; eapply Hu; [by right|done]|intros; eapply Hr; [by right|done|done]]. }
  destruct (find_option var) as [o|]; [|rewrite Hv in Hu, Hr |- *; rewrite Hcons; apply IH; [done|lia|intros; eapply Hu; [by right|done]|intros; eapply Hr; [by right|done|done]]].
  destruct Hv as (Hk & Ho & Hs & Ht). rewrite Hk in Hu, Hr |- *. rewrite Hcons. case_bool_decide as Et.
  - destruct (Hs Et) as [Ef ->]. intros c' v f ls. pose proof (Hr var o c (list_elem_of_here _ _) Ef P) as Hrec.
    destruct (rec c o) as [[[[c1 v1] f1] ls1]|]; [|done]. cbn [mbind option_bind]. destruct (Hrec _ _ _ _ eq_refl) as (-> & -> & G1). rewrite app_nil_r.
    intros E. pose proof (extends_put c1 o (proj1 G1) Ho Et (Hu var o (list_elem_of_here _ _) Ef)) as G2.
    assert (expands (expand_loop rec n after (out +:+ final o) (put_val (od_name o) (VStr (final o)) c1) true loops) (put_val (od_name o) (VStr (final o)) c1)
      ((out +:+ final o) +:+ concat_text (map (piece_with final) (pieces n after))) loops) as Hx
      by (apply IH; [apply G2|lia|intros; eapply Hu; [by right|done]|intros; eapply Hr; [by right|done|done]]).
    destruct (Hx _ _ _ _ E) as (-> & -> & G3). split; [done|]. split; [done|]. eapply extends_trans; [exact G1|]. by eapply extends_trans.
  - rewrite Ht by done. apply IH; [done|lia|intros; eapply Hu; [by right|done]|intros; eapply Hr; [by right|done|done]].
Qed.

(** An option whose rank is below those of the options under expansion. *)
Lemma option_expands depth o stack c : partial c -> o ∈ config_optionsp -> od_type o = OPT_STR ->
  (unresolved (str_val c0 o) -> str_val c o = str_val c0 o) -> (forall x, x ∈ stack -> (rank (od_name o) < rank x)%nat) ->
  expands (expand_meta depth (str_val c o) (Some (od_name o)) stack c) c (final o) [].
Proof.
  revert o stack c. induction depth as [|depth IH]; intros o stack c P Ho Et Hu Hst; cbn [expand_meta].
  all: destruct (has_dollar (str_val c o)) eqn:Ed; cbn [negb];
    [|intros c' v f ls [= <- <- _ <-]; split; [by apply plain_final|]; auto using extends_refl].
  all: rewrite bool_decide_false by (intros Hi; specialize (Hst _ Hi); lia).
  { by intros c' v f ls. }
  assert (str_val c o = str_val c0 o) as Es.
  { destruct (decide (unresolved (str_val c0 o))) as [?|Nu]; [by apply Hu|]. destruct (pt_strings c P o Ho Et) as [|E]; [done|].
    rewrite E, final_no_dollar in Ed by done. done. }
  rewrite Es, (final_eq o Ho Et). apply loop_expands; [done|lia|intros v o' Hv Er; by apply (Hrank o o' v Ho Et Hv Er)|].
  intros v o' c1 Hv Er P1. destruct (Hrank o o' v Ho Et Hv Er) as [Hlt Nu]. pose proof Er as (_ & Ho' & _ & Et')%referent_some. apply IH; [done..|].
  intros x [->|Hx]%elem_of_cons; [done|]. specialize (Hst x Hx). lia.
Qed.

(** The options are expanded once each, and an unresolved one not before its turn. *)
Lemma options_expand l c c' ls : partial c -> NoDup (map od_name l) -> (forall o, o ∈ l -> o ∈ config_optionsp) ->
  (forall o, o ∈ l -> od_type o = OPT_STR -> unresolved (str_val c0 o) -> str_val c o = str_val c0 o) ->
  expand_options l c = Some (c', ls) ->
  ls = [] /\ partial c' /\ forall o, o ∈ config_optionsp -> od_type o = OPT_STR -> o ∈ l \/ str_val c o = final o -> str_val c' o = final o.
Proof.
  revert c ls. induction l as [|o l IH]; intros c ls P Hn Hl Hu; cbn [expand_options].
  { intros [= <- <-]. split; [done|]. split; [done|]. by intros o Ho Et [?%elem_of_nil|?]. }
  cbn in Hn. apply NoDup_cons in Hn as [Hno Hn].
  assert (forall o', o' ∈ l -> o' ∈ config_optionsp) as Hl' by (intros; apply Hl; by right). assert (o ∈ config_optionsp) as Ho by (apply Hl; by left).
  case_bool_decide as Et.
  - pose proof (option_expands max_depth o [] c P Ho Et (Hu o (list_elem_of_here _ _) Et)) as He. destruct (expand_meta _ _ _ _ _) as [[[[c1 v] f] ls1]|]; [|done]. cbn [mbind option_bind].
    destruct (He (fun x Hx => match not_elem_of_nil x Hx with end) _ _ _ _ eq_refl) as (-> & -> & [P1 G1]).
    destruct (expand_options l _) as [[c2 ls2]|] eqn:E; [|done]. cbn [mbind option_bind]. intros [= <- <-].
    eapply IH in E as (-> & P2 & Hf); [|by apply partial_put|done|done|].
    2: { intros o' Ho' Et' Hu'. rewrite str_put by auto. destruct (decide _) as [En|N]; [destruct Hno; rewrite En; by apply list_elem_of_fmap_2|].
      rewrite (proj2 (G1 o' (Hl' o' Ho') Et') Hu'). apply Hu; [by right|done..]. }
    split; [done|]. split; [done|]. intros o' Ho' Et' Hc. apply Hf; [done..|]. rewrite str_put by done. destruct (decide _) as [En|N].
    + right. by rewrite (same_name o o').
    + destruct Hc as [[->|?]%elem_of_cons|Hc]; [done|by left|right]. by apply G1.
  - intros E. eapply IH in E as (-> & P2 & Hf); [|done..|intros; apply Hu; [by right|done..]]. split; [done|]. split; [done|].
    intros o' Ho' Et' [[->|?]%elem_of_cons|Hc]; [done|apply Hf; auto..].
Qed.

Lemma all_expand : exists c', expand_all_meta c0 = Some (c', []) /\ partial c' /\
  forall o, o ∈ config_optionsp -> od_type o = OPT_STR -> str_val c' o = final o.
Proof.
  destruct (expand_all_ok c0) as (c' & ls & E & _). assert (partial c0) as P by (split; [split; [by destruct c0|done]|by left]).
  destruct (options_expand config_optionsp c0 c' ls P option_names_distinct (fun o Ho => Ho) (fun _ _ _ _ => eq_refl) E) as (-> & P' & Hf). exists c'. auto.
Qed.

(** The final values solve the substitution, and nothing else does. *)
Lemma final_subst c o : partial c -> (forall o, o ∈ config_optionsp -> od_type o = OPT_STR -> str_val c o = final o) ->
  o ∈ config_optionsp -> od_type o = OPT_STR -> final o = subst c (str_val c0 o).
Proof.
  intros P Hf Ho Et. rewrite final_eq by done. unfold subst. f_equal. apply map_ext_in. intros [a|v] Hp%list_elem_of_In; [done|]. cbn [piece_text].
  symmetry. apply var_text_final; [apply P|by apply host_partial|by eapply pieces_known|]. intros o' (_ & Ho' & _ & Et')%referent_some. by apply Hf.
Qed.

Lemma solution_final c : same_but_strings c0 c ->
  (forall o, o ∈ config_optionsp -> od_type o = OPT_STR -> str_val c o = subst c (str_val c0 o)) ->
  forall o, o ∈ config_optionsp -> od_type o = OPT_STR -> str_val c o = final o.
Proof.
  intros Hs Hsol o. assert (conf_host c = conf_host c0) as Hh.
  { unfold conf_host in *. destruct (find_option "host") as [h|] eqn:E; [|done]. destruct (host_type h E). by rewrite Hsol, subst_plain. }
  remember (rank (od_name o)) as r eqn:Er. revert o Er. induction (lt_wf r) as [r _ IH]. intros o -> Ho Et. rewrite Hsol, final_eq by done. unfold subst. f_equal.
  apply map_ext_in. intros [a|v] Hp%list_elem_of_In; [done|]. cbn [piece_text]. apply var_text_final; [done|done|by eapply pieces_known|].
  intros o' Er. pose proof Er as (_ & Ho' & _ & Et')%referent_some. destruct (Hrank o o' v Ho Et Hp Er). by eapply (IH (rank (od_name o'))).
Qed.

End Acyclic.

(** C12: Expanding all options in place, in the order of the table, reports no loop and is
    substitution: every string becomes its original text with each variable replaced by the value it
    has in the end, nothing else changes, no other configuration solves these equations, and no
    variable is left but the unresolved ones.  This is under three conditions: the string options do
    not refer to each other in a loop ([rank]); an option that is referred to has no ['$'] that starts no
    variable (the text of such a one is expanded again at each use, and may then start another
    variable); and the host name and the texts of variables that are not string options bring in no
    ['$']. *)
Theorem expansion_is_substitution c (rank : string -> nat) :
  has_dollar (conf_host c) = false ->
  (forall o, o ∈ config_optionsp -> od_type o = OPT_STR -> plain_texts c (str_val c o)) ->
  (forall o o' v, o ∈ config_optionsp -> od_type o = OPT_STR -> Var v ∈ pieces_of (str_val c o) -> referent v = Some o' ->
     (rank (od_name o') < rank (od_name o))%nat /\ ~ unresolved (str_val c o')) ->
  exists c', expand_all_meta c = Some (c', []) /\ solves c c' /\
    (forall o, o ∈ config_optionsp -> od_type o = OPT_STR -> ~ unresolved (str_val c o) -> has_dollar (str_val c' o) = false) /\
    (forall c2, solves c c2 -> forall o, o ∈ config_optionsp -> od_type o = OPT_STR -> str_val c2 o = str_val c' o).
Proof.
  intros Hh Hr Hk. destruct (all_expand c rank Hr Hh Hk) as (c' & E & P & Hf). exists c'. split; [done|]. split; [|split].
  - split; [apply P|]. intros o Ho Et. rewrite Hf by done. by apply (final_subst c rank Hh Hk c').
  - intros o Ho Et Nu. rewrite Hf by done. by apply (final_no_dollar c rank Hr Hk).
  - intros c2 [Hs2 Hsol] o Ho Et. rewrite Hf by done. by apply (solution_final c rank Hh Hk).
Qed.

End Expand.

(** ** The defaults of the table *)

#[export] Instance text_ex_normal : NormalizeOk.
Proof. by intros s. Qed.

Definition default_config : config Q string string (list (string * string * string)) := new_config name_ex 7 9.
Definition default_rank (name : string) : nat := if String.eqb name "admin_socket" then 1%nat else O.

(** The two conditions on a value, computed. *)
Definition plain_texts_b (s : string) : bool :=
  forallb (fun p => match p with Var v => match referent v with None => negb (has_dollar (var_text default_config v)) | Some _ => true end | Lit _ => true end) (pieces_of s).
Definition ranked_b (o : option_def) : bool :=
  forallb (fun p => match p with
                    | Var v => match referent v with
                               | Some o' => (default_rank (od_name o') <? default_rank (od_name o))%nat && negb (bool_decide (unresolved (str_val default_config o')))
                               | None => true
                               end
                    | Lit _ => true
                    end) (pieces_of (str_val default_config o)).

Lemma expansion_is_substitution_witness : exists c' o o', expand_all_meta default_config = Some (c', []) /\ solves default_config c' /\
  find_option "admin_socket" = Some o /\ str_val c' o = "/var/run/ceph/ceph-mds.a.asok"%string /\
  find_option "mon_cluster_log_file" = Some o' /\ unresolved (str_val c' o').
Proof.
  destruct (expansion_is_substitution default_config default_rank) as (c' & E & Hs & _).
  - vm_compute. reflexivity.
  - assert (forallb (fun o => plain_texts_b (str_val default_config o)) config_optionsp = true) as Hb by (vm_compute; reflexivity).
    intros o Ho%list_elem_of_In _ v Hv%list_elem_of_In Er. rewrite forallb_forall in Hb. specialize (Hb o Ho). unfold plain_texts_b in Hb.
    rewrite forallb_forall in Hb. specialize (Hb _ Hv). cbn beta iota in Hb. rewrite Er in Hb. by apply negb_true_iff in Hb.
  - assert (forallb ranked_b config_optionsp = true) as Hb by (vm_compute; reflexivity).
    intros o o' v Ho%list_elem_of_In _ Hv%list_elem_of_In Er. rewrite forallb_forall in Hb. specialize (Hb o Ho). unfold ranked_b in Hb.
    rewrite forallb_forall in Hb. specialize (Hb _ Hv). cbn beta iota in Hb. rewrite Er in Hb. apply andb_true_iff in Hb as [Hlt Hu].
    split; [by apply Nat.ltb_lt|]. intros Hun. by rewrite bool_decide_true in Hu.
  - assert (match find_option "admin_socket", find_option "mon_cluster_log_file", expand_all_meta default_config with
            | Some o, Some o', Some (c, _) => String.eqb (str_val c o) "/var/run/ceph/ceph-mds.a.asok" && bool_decide (unresolved (str_val c o'))
            | _, _, _ => false end = true) as Hv by (vm_compute; reflexivity).
    rewrite E in Hv. destruct (find_option "admin_socket") as [o|], (find_option "mon_cluster_log_file") as [o'|]; try discriminate Hv.
    apply andb_true_iff in Hv as [Hv Hu]. apply String.eqb_eq in Hv. apply bool_decide_eq_true in Hu. exists c', o, o'.
    exact (conj E (conj Hs (conj eq_refl (conj Hv (conj eq_refl Hu))))).
Defined.
