(* ===== verification/ConfigText.v ===== *)
(** * Texts of values (common/config.cc)

    What [get_val] prints, [set_val] reads back; a set that fails changes nothing; and the
    corners of the conversions. *)

From Stdlib Require Import ZArith QArith Ascii String Lia.
From stdpp Require Import base tactics numbers list gmap strings sorting pretty.
From S2P Require Import Prelude ConfigOpts Config ConfigTyped ConfigExpand.
Open Scope Z_scope.
Open Scope list_scope.

(** What is known of the conversions: [strict_sistrtoll] reads the decimal text of a [long long],
    and of no larger number; a uuid is parsed from its text. *)
Class ConfTextOk {A U} `{ConfText} `{AddrText A U} : Prop := {
  sistrtoll_pretty : forall z, - 2 ^ 63 <= z < 2 ^ 63 -> strict_sistrtoll (pretty z) = Some z;
  sistrtoll_range : forall z, ~ - 2 ^ 63 <= z < 2 ^ 63 -> strict_sistrtoll (pretty z) = None;
  uuid_text : forall u u', uuid_parse (uuid_print u) u' = (true, u)
}.

Section Text.
Context {D A U CF : Type} `{BuildConst} `{RealText D} `{AddrText A U} `{ConfText} `{ConfFileOps CF} `{!NormalizeOk} `{!ConfTextOk}.
Abbreviation config := (config D A U CF).
Implicit Types c : config.
Implicit Types o : option_def.

(** Options whose text says all of their value: a stream prints six digits of a real number, and
    the text of an address has a nonce that its parser does not read. *)
Definition exact_text o : Prop := od_type o <> OPT_FLOAT /\ od_type o <> OPT_DOUBLE /\ od_type o <> OPT_ADDR.
Definition in_long_long o c : Prop := match conf_val c o with VInt z => z < 2 ^ 63 | _ => True end.

Lemma int_restored t z : match t with OPT_INT | OPT_LONGLONG | OPT_U32 | OPT_U64 => True | _ => False end ->
  well_typed t (VInt z : value D A U) -> z < 2 ^ 63 ->
  - 2 ^ 63 <= z /\ int_as t (match t with OPT_INT | OPT_U32 => s32 z | _ => s64 z end) = z.
Proof.
  intros Ht Hz Hl. destruct t; try done; cbn in *; (split; [lia|]).
  - unfold s32. by rewrite !(wrap_s_small 32 z) by lia.
  - unfold s64. by rewrite !(wrap_s_small 64 z) by lia.
  - unfold u32, s32, wrap_u. rewrite wrap_s_mod by done. by apply Z.mod_small.
  - unfold u64, s64, wrap_u. rewrite wrap_s_mod by done. by apply Z.mod_small.
Qed.

(** A value is read back from its text. *)
Lemma set_raw_text o c c2 : typed c -> o ∈ config_optionsp -> exact_text o -> in_long_long o c ->
  set_val_raw (print_value (conf_val c o)) o c2 = (0, put_val (od_name o) (conf_val c o) c2).
Proof.
  intros Ty Ho (N1 & N2 & N3) Hl. specialize (Ty o Ho). unfold in_long_long in Hl. unfold set_val_raw. pose proof (int_restored (od_type o)) as Hi.
  destruct (od_type o) eqn:Et, (conf_val c o) as [z|s|d|b|a|u]; try done; cbn [print_value].
  1-2,4-5: destruct (Hi z) as [Hz Er]; [done..|]; rewrite sistrtoll_pretty by lia; cbn beta iota; by rewrite Er.
  - by destruct b.
  - by rewrite uuid_text.
Qed.

(** ** Keys *)

Lemma find_self o : o ∈ config_optionsp -> find_option (od_name o) = Some o.
Proof. intros Ho. by apply find_option_some. Qed.

Lemma get_text o c : o ∈ config_optionsp -> get_val (Some (od_name o)) (-1) c = (0, Some (print_value (conf_val c o))).
Proof. intros Ho. unfold get_val, _get_val. rewrite name_normal by done. by rewrite find_self. Qed.

(** The subsystems are those of the table. *)
Definition table_subsys c : Prop := map sub_name (c_subsys c) = map ss_name subsys_table.

(** No option has the name of the level of a subsystem. *)
Lemma not_a_level o c : table_subsys c -> o ∈ config_optionsp -> list_find (fun s => od_name o = debug_name s) (c_subsys c) = None.
Proof.
  intros Hs Ho. apply list_find_None, Forall_forall. intros s Hin E.
  assert (forallb (fun o => forallb (fun s => negb (String.eqb (od_name o) ("debug_" +:+ ss_name s))) subsys_table) config_optionsp = true) as Hb by (vm_compute; reflexivity).
  rewrite forallb_forall in Hb. specialize (Hb o (proj1 (list_elem_of_In _ _) Ho)). rewrite forallb_forall in Hb.
  assert (sub_name s ∈ map ss_name subsys_table) as (s' & Es & Hs')%list_elem_of_fmap by (rewrite <- Hs; by apply list_elem_of_fmap_2).
  specialize (Hb s' (proj1 (list_elem_of_In _ _) Hs')). unfold debug_name in E. by rewrite <- Es, E, String.eqb_refl in Hb.
Qed.

(** Once threads run, an address or a uuid that nobody observes is not set, unless the caller does not
    mind. *)
Definition may_set (safe : bool) o c : Prop :=
  safe = false \/ safe_to_start_threads c = false \/ (od_type o <> OPT_ADDR /\ od_type o <> OPT_UUID).

(** What a set of an option to a text without variables does. *)
Lemma set_option o val meta safe c : table_subsys c -> o ∈ config_optionsp -> meta = false \/ has_dollar val = false -> may_set safe o c ->
  set_val (Some (od_name o)) (Some val) meta safe c = Some (set_val_impl val o c).
Proof.
  intros Hs Ho Hm Hy. unfold set_val.
  assert ((if meta then '(c, v, _, _) ← expand_value val c; Some (c, v) else Some (c, val)) = Some (c, val)) as ->
    by (destruct meta; [destruct Hm as [?|Hm]; [done|]; unfold expand_value, max_depth; cbn [expand_meta]; by rewrite Hm|done]).
  cbn [mbind option_bind]. rewrite name_normal by done. rewrite (not_a_level o c Hs Ho).
  assert (safe && safe_to_start_threads c && bool_decide (od_type o = OPT_ADDR \/ od_type o = OPT_UUID) = false) as Hb.
  { destruct Hy as [->|[->|[N1 N2]]]; [done|by rewrite andb_false_r|]. rewrite bool_decide_false by tauto. by rewrite andb_false_r. }
  destruct (String.prefix _ _); rewrite find_self by done; by rewrite Hb.
Qed.

(** C19: What [get_val] prints of an option, [set_val] reads back: in any other configuration it
    restores the value, marks the option as changed and leaves all other options.  This is of
    options whose text says all of their value, which leaves out addresses and reals (a stream prints
    six digits), and of numbers of at most 63 bits; the text of a larger 64-bit value is refused and
    nothing changes.  The text has no ['$'] if variables are expanded, and a uuid is not set once threads
    run unless the caller does not mind. *)
Theorem get_set_roundtrip o meta safe c c2 : typed c -> table_subsys c2 -> o ∈ config_optionsp -> exact_text o -> may_set safe o c2 ->
  exists text, get_val (Some (od_name o)) (-1) c = (0, Some text) /\
    (meta = false \/ has_dollar text = false ->
     (in_long_long o c -> exists c', set_val (Some (od_name o)) (Some text) meta safe c2 = Some (0, c') /\
        conf_val c' o = conf_val c o /\ c_changed c' = {[od_name o]} ∪ c_changed c2 /\
        forall o', o' ∈ config_optionsp -> od_name o' <> od_name o -> conf_val c' o' = conf_val c2 o') /\
     (~ in_long_long o c -> set_val (Some (od_name o)) (Some text) meta safe c2 = Some (- EINVAL, c2))).
Proof.
  intros Ty Hs Ho Hx Hy. exists (print_value (conf_val c o)). split; [by apply get_text|]. intros Hd. rewrite set_option by done. unfold set_val_impl. split.
  - intros Hl. rewrite set_raw_text by done. cbn. eexists. split; [done|]. split; [apply conf_put_same|]. split; [done|].
    intros o' Ho' N. by apply (conf_put_other c2 o').
  - intros Hl. unfold in_long_long in Hl. specialize (Ty o Ho). unfold set_val_raw. destruct (conf_val c o) as [z|s|d|b|a|u]; try by destruct Hl.
    destruct (od_type o); try done; cbn in Ty; (lia || (cbn [print_value]; by rewrite sistrtoll_range by lia)).
Qed.

End Text.

(** ** Sets that fail *)

Section Errors.
Context {D A U CF : Type} `{BuildConst} `{RealText D} `{AddrText A U} `{ConfText} `{ConfFileOps CF}.
Abbreviation config := (config D A U CF).
Implicit Types c : config.
Implicit Types o : option_def.
#[local] Opaque config_optionsp.

(** The key names an option or the level of a subsystem. *)
Definition key_known (k : string) c : Prop := is_Some (find_option k) \/ exists s, s ∈ c_subsys c /\ k = debug_name s.

Lemma level_search k c :
  match (if String.prefix "debug_" k then list_find (fun s => k = debug_name s) (c_subsys c) else None) with
  | Some (_, s) => s ∈ c_subsys c /\ k = debug_name s
  | None => forall s, s ∈ c_subsys c -> k <> debug_name s
  end.
Proof.
  destruct (String.prefix "debug_" k) eqn:Ep.
  - destruct (list_find _ _) as [[n s]|] eqn:E.
    + apply list_find_Some in E as (El & Ek & _). split; [by eapply list_elem_of_lookup_2|done].
    + apply list_find_None in E. rewrite Forall_forall in E. exact E.
  - intros s _ ->. unfold debug_name in Ep. destruct (sub_name s); discriminate Ep.
Qed.

Lemma not_enoent ret key (val : string) c : ret <> - ENOENT -> key_known (normalize_key_name key) c ->
  ret = - ENOENT <-> exists k v, Some key = Some k /\ Some val = Some v /\ ~ key_known (normalize_key_name k) c.
Proof. intros Hr Hk. split; [done|]. intros (k & v & [= <-] & _ & Hn). by destruct Hn. Qed.

(** What the conversion of a text returns, and what it leaves when it fails. *)
Lemma set_impl_result val o c : exists ret c', set_val_impl val o c = (ret, c') /\ (o ∈ config_optionsp ->
  ret = 0 \/ ret = - EINVAL /\ c_changed c' = c_changed c /\ c_subsys c' = c_subsys c /\
    forall o', o' ∈ config_optionsp -> od_type o' <> OPT_ADDR -> od_type o' <> OPT_UUID -> conf_val c' o' = conf_val c o').
Proof.
  unfold set_val_impl. destruct (set_val_raw val o c) as [ret c1] eqn:E.
  assert (o ∈ config_optionsp -> ret = 0 \/ ret = - EINVAL /\ c_changed c1 = c_changed c /\ c_subsys c1 = c_subsys c /\
    forall o', o' ∈ config_optionsp -> od_type o' <> OPT_ADDR -> od_type o' <> OPT_UUID -> conf_val c1 o' = conf_val c o') as Hr.
  { intros Ho. assert (forall v, od_type o = OPT_ADDR \/ od_type o = OPT_UUID ->
      forall o', o' ∈ config_optionsp -> od_type o' <> OPT_ADDR -> od_type o' <> OPT_UUID -> conf_val (put_val (od_name o) v c) o' = conf_val c o') as Hp.
    { intros v Ht o' Ho' N1 N2. apply conf_put_other. intros En. rewrite (same_name o' o Ho' Ho En) in *. naive_solver. }
    unfold set_val_raw in E. destruct (od_type o) eqn:Et;
      repeat (match type of E with context [match ?x with _ => _ end] => destruct x eqn:? end); injection E as <- <-; auto 10. }
  destruct (negb (ret =? 0)) eqn:En; eexists _, _; (split; [done|]); [exact Hr|]. by left.
Qed.

(** What a set without expansion returns, and what it leaves when it fails. *)
Lemma plain_set_fails key val safe c :
  exists ret c', set_val key val false safe c = Some (ret, c') /\ ret ∈ [0; - EINVAL; - ENOENT; - ENOSYS] /\
    (ret = - ENOENT <-> exists k v, key = Some k /\ val = Some v /\ ~ key_known (normalize_key_name k) c) /\
    (ret = - ENOSYS -> safe = true /\ safe_to_start_threads c = true) /\
    (ret <> 0 -> c_changed c' = c_changed c /\ c_subsys c' = c_subsys c /\
       forall o, o ∈ config_optionsp -> od_type o <> OPT_ADDR -> od_type o <> OPT_UUID -> conf_val c' o = conf_val c o).
Proof.
  destruct key as [key|]; [|eexists _, _; split; [done|]; split; [set_solver|]; naive_solver].
  destruct val as [val|]; [|eexists _, _; split; [done|]; split; [set_solver|]; naive_solver].
  unfold set_val. cbn [mbind option_bind]. pose proof (level_search (normalize_key_name key) c) as Hs.
  destruct (if String.prefix "debug_" (normalize_key_name key) then _ else None) as [[n s]|].
  { assert (key_known (normalize_key_name key) c) as Hk by (right; by exists s).
    destruct (scan_levels val) as [[log gather]|]; eexists _, _; (split; [done|]); (split; [set_solver|]); (split; [by apply not_enoent|]); done. }
  destruct (find_option (normalize_key_name key)) as [o|] eqn:Eo.
  2: { eexists _, _. split; [done|]. split; [set_solver|]. split; [|done]. split; [|done]. intros _. exists key, val. split; [done|]. split; [done|].
       intros [[o Ho]|(s & Hin & E)]; [congruence|by apply (Hs s)]. }
  assert (key_known (normalize_key_name key) c) as Hk by (left; by exists o). destruct (_ && _) eqn:Eg.
  - eexists _, _. split; [done|]. split; [set_solver|]. split; [by apply not_enoent|]. split; [|done]. intros _. by destruct safe, (safe_to_start_threads c).
  - destruct (set_impl_result val o c) as (ret & c' & E & Hr). rewrite E. eexists _, _. split; [done|]. pose proof Eo as [Ho _]%find_option_some.
    destruct (Hr Ho) as [->|(-> & Hc)]; (split; [set_solver|]); (split; [by apply not_enoent|]); done.
Qed.

(** The member that says that threads run is not a string. *)
Lemma safe_restrings c c1 : restrings c c1 -> safe_to_start_threads c1 = safe_to_start_threads c.
Proof.
  intros R. unfold safe_to_start_threads. destruct (find_option "internal_safe_to_start_threads") as [o|] eqn:E; [|done].
  pose proof E as [Ho _]%find_option_some. rewrite (rs_values _ _ R); [done|done|].
  assert (match find_option "internal_safe_to_start_threads" with Some o => bool_decide (od_type o = OPT_STR) | None => true end = false) as Hb
    by (vm_compute; reflexivity).
  rewrite E in Hb. by apply bool_decide_eq_false in Hb.
Qed.

Lemma set_expanded k val safe c c1 v f ls : expand_value val c = Some (c1, v, f, ls) ->
  set_val (Some k) (Some val) true safe c = set_val (Some k) (Some v) false safe c1.
Proof. intros E. unfold set_val. by rewrite E. Qed.


End Errors.

(** ** The conversions of the example *)

Lemma scan_char x : (x < 10)%N -> digit_of (pretty_N_char x) = Some (Z.of_N x).
Proof.
  intros Hx. assert (x = 0 ∨ x = 1 ∨ x = 2 ∨ x = 3 ∨ x = 4 ∨ x = 5 ∨ x = 6 ∨ x = 7 ∨ x = 8 ∨ x = 9)%N as Hc by lia.
  naive_solver.
Qed.
Lemma scan_go x s : (0 < x)%N -> scan_digits (pretty_N_go x s) None = scan_digits s (Some (Z.of_N x)).
Proof.
  revert s. induction (N.lt_wf_0 x) as [x _ IH]. intros s Hx. rewrite pretty_N_go_step by done.
  pose proof (N.div_mod x 10 ltac:(done)) as Ed. pose proof (N.mod_lt x 10 ltac:(done)) as Hm.
  destruct (decide (x / 10 = 0)%N) as [E0|N0].
  - rewrite E0, pretty_N_go_0. cbn [scan_digits]. rewrite scan_char by done. cbn [default]. f_equal. f_equal. cbn. lia.
  - rewrite IH; [|by apply N.div_lt|lia]. cbn [scan_digits]. rewrite scan_char by done. f_equal. f_equal. cbn. lia.
Qed.

Lemma conf_int_N x : conf_int (pretty (N.pos x)) = Some (Z.pos x).
Proof. unfold conf_int, pretty, pretty_N. rewrite decide_False by done. by rewrite scan_go. Qed.

(** A number does not start with a sign. *)
Lemma sign_none s n : conf_int s = Some n -> match s with String "-" r => Z.opp <$> conf_int r | _ => conf_int s end = Some n.
Proof. destruct s as [|[[] [] [] [] [] [] [] []] s]; done. Qed.

Lemma strict_int_pretty z : strict_int (pretty z) = if bool_decide (- 2 ^ 63 <= z < 2 ^ 63) then Some z else None.
Proof.
  unfold strict_int. destruct z as [|x|x]; [done| |].
  - pose proof (sign_none _ _ (conf_int_N x)) as E. change (pretty (Z.pos x)) with (pretty (N.pos x)). by rewrite E.
  - change (pretty (Z.neg x)) with ("-" +:+ pretty (N.pos x)). change ("-" +:+ pretty (N.pos x)) with (String "-" (pretty (N.pos x))).
    cbn beta iota. rewrite conf_int_N. done.
Qed.

#[export] Instance text_ex_ok : ConfTextOk.
Proof.
  split; [| |done]; intros z Hz; cbn; rewrite strict_int_pretty; [by rewrite bool_decide_true|by rewrite bool_decide_false].
Qed.

Lemma default_config_typed : typed default_config.
Proof. intros o Ho. unfold conf_val. cbn. rewrite lookup_empty. by apply default_typed. Qed.

Definition interval_ex : option_def := OPTION "mds_bal_interval" OPT_INT (DInt 10).
Definition timeout_ex : option_def := OPTION "ms_tcp_read_timeout" OPT_U64 (DInt 900).
Lemma in_table : interval_ex ∈ config_optionsp /\ timeout_ex ∈ config_optionsp.
Proof.
  assert (find_option "mds_bal_interval" = Some interval_ex) as H1 by (vm_compute; reflexivity).
  assert (find_option "ms_tcp_read_timeout" = Some timeout_ex) as H2 by (vm_compute; reflexivity).
  by apply find_option_some in H1 as [? _], H2 as [? _].
Qed.

(** The other configuration; a timeout of -1 is the largest number. *)
Definition other_ex : config Q string string (list (string * string * string)) :=
  snd (set_val_impl "-1" timeout_ex (snd (set_val_impl "20" interval_ex default_config))).

Lemma get_set_roundtrip_witness :
  (exists text c', get_val (Some (od_name interval_ex)) (-1) default_config = (0, Some text) /\
     set_val (Some (od_name interval_ex)) (Some text) false false other_ex = Some (0, c') /\ conf_val other_ex interval_ex = VInt 20 /\
     conf_val c' interval_ex = VInt 10) /\
  (exists text, get_val (Some (od_name timeout_ex)) (-1) other_ex = (0, Some text) /\ conf_val other_ex timeout_ex = VInt (2 ^ 64 - 1) /\
     set_val (Some (od_name timeout_ex)) (Some text) false false default_config = Some (- EINVAL, default_config)).
Proof.
  destruct in_table as [Hi Ht]. pose proof default_config_typed as Ty.
  assert (typed other_ex) as Ty2 by (apply set_val_impl_typed, set_val_impl_typed; done).
  assert (conf_val default_config interval_ex = VInt 10) as E10 by (vm_compute; reflexivity).
  assert (conf_val other_ex timeout_ex = VInt (2 ^ 64 - 1)) as Em by (vm_compute; reflexivity).
  split.
  - destruct (get_set_roundtrip interval_ex false false default_config other_ex Ty eq_refl Hi ltac:(done) ltac:(by left)) as (text & Eg & Hs).
    destruct Hs as [Hs _]; [by left|].
    destruct Hs as (c' & Es & Ev & _); [unfold in_long_long; rewrite E10; lia|]. exists text, c'. split; [exact Eg|]. split; [exact Es|].
    split; [vm_compute; reflexivity|]. rewrite Ev. exact E10.
  - destruct (get_set_roundtrip timeout_ex false false other_ex default_config Ty2 eq_refl Ht ltac:(done) ltac:(by left)) as (text & Eg & Hf).
    destruct Hf as [_ Hf]; [by left|].
    exists text. split; [exact Eg|]. split; [exact Em|]. apply Hf. unfold in_long_long. rewrite Em. lia.
Defined.

(** ** Corners *)

(** The levels of a subsystem are cut to the buffer, and 0 is returned, unless the text is exactly
    as long as the buffer. *)
Lemma level_text_truncated : exists c', set_val (Some "debug_mds"%string) (Some "1000/1000"%string) false false default_config = Some (0, c') /\
  get_val (Some "debug_mds"%string) 5 c' = (0, Some "1000"%string) /\ get_val (Some "debug_mds"%string) 9 c' = (- ENAMETOOLONG, Some "1000/100"%string).
Proof. eexists. split; [vm_compute; reflexivity|]. split; vm_compute; reflexivity. Qed.

(** A number that is too large for an [int] is accepted and wraps. *)
Lemma int_option_wraps : exists c', set_val (Some "mds_bal_interval"%string) (Some "4294967297"%string) false false default_config = Some (0, c') /\
  conf_val c' interval_ex = VInt 1.
Proof. eexists. split; vm_compute; reflexivity. Qed.

(** A blank before the arguments is an argument that does not parse. *)
Lemma leading_blank_refused :
  match injectargs " --mds_bal_interval 20" default_config with
  | Some (Done (ret, c, _, _)) => ret = - EINVAL /\ conf_val c interval_ex = VInt 20
  | _ => False
  end.
Proof. vm_compute. done. Qed.

(** Once threads run, [set_val] changes a string that nobody observes, and [injectargs] refuses it. *)
Definition started_ex : config Q string string (list (string * string * string)) :=
  put_val "internal_safe_to_start_threads" (VBool true) default_config.
Lemma string_set_after_start :
  match set_val (Some "log_file"%string) (Some "/x"%string) true true started_ex, injectargs "--log_file /x" started_ex with
  | Some (ret, c), Some (Done (ret', c', _, _)) =>
      ret = 0 /\ val_text "log_file" c = "/x"%string /\ ret' = - ENOSYS /\ val_text "log_file" c' = "/var/log/ceph/ceph-mds.a.log"%string
  | _, _ => False
  end.
Proof. vm_compute. done. Qed.

(** A variable is made of small letters and underscores, so an option whose name has anything else
    cannot be referred to. *)
Fixpoint all_valid (s : string) : bool := match s with EmptyString => true | String a r => valid_char a && all_valid r end.
Lemma span_all_valid s : all_valid (fst (span_valid s)) = true.
Proof. induction s as [|a s IH]; [done|]. cbn. destruct (valid_char a) eqn:E; [|done]. destruct (span_valid s) as [v r]. cbn in *. by rewrite E. Qed.
Lemma parse_all_valid s : all_valid (fst (parse_var s)) = true.
Proof.
  unfold parse_var. pose proof (span_all_valid s) as Hs. destruct s as [|a s]; [done|]. pose proof (span_all_valid s) as Hr.
  destruct (span_valid s) as [v r] eqn:Es. cbn [fst] in Hr.
  assert (all_valid (fst (match r with String "}" r' => (v, r') | _ => (EmptyString, r) end)) = true) as Hb.
  { destruct r as [|b r']; [done|]. by destruct b as [[] [] [] [] [] [] [] []]. }
  by destruct a as [[] [] [] [] [] [] [] []].
Qed.
Lemma never_referred s o : o ∈ config_optionsp -> all_valid (od_name o) = false -> fst (parse_var s) <> od_name o.
Proof. intros _ Hv E. by rewrite <- E, parse_all_valid in Hv. Qed.
Example never_referred_number : length (filter (fun o => all_valid (od_name o) = false) config_optionsp) = 13%nat.
Proof. vm_compute. reflexivity. Qed.
