(* ===== verification/ConfigNotify.v ===== *)
(** * Who is told of changes (common/config.cc)

    [_apply_changes] builds the reverse mapping from observers to changed keys.  Against the
    sets it is meant to hand out, each observer gets one call with all the changed keys it
    tracks. *)

From Stdlib Require Import ZArith QArith Ascii String Lia Sorted.
From stdpp Require Import base tactics numbers list gmap strings sorting pretty.
From S2P Require Import Prelude ConfigOpts Config ConfigTyped.
Open Scope Z_scope.
Open Scope list_scope.

(** ** The reverse mapping *)

(** The keys an observer is told of. *)
Definition told (m : gmap Z (gset string)) (obs : Z) : gset string := default ∅ (m !! obs).

(** No observer is called with nothing. *)
Definition none_idle (m : gmap Z (gset string)) : Prop := forall obs, m !! obs <> Some ∅.

Lemma told_tell key obs m obs' : told (tell key obs m) obs' ≡ (if decide (obs = obs') then {[key]} else ∅) ∪ told m obs'.
Proof.
  unfold told, tell. destruct (decide (obs = obs')) as [<-|N]; [by rewrite lookup_insert_eq|].
  rewrite lookup_insert_ne by done. set_solver.
Qed.

Lemma none_idle_tell key obs m : none_idle m -> none_idle (tell key obs m).
Proof.
  intros Hm obs'. unfold tell. destruct (decide (obs = obs')) as [<-|N].
  - rewrite lookup_insert_eq. intros [= E]. set_solver.
  - rewrite lookup_insert_ne by done. apply Hm.
Qed.

(** Telling a list of pairs. *)
Lemma told_fold (l : list (string * Z)) m obs k :
  k ∈ told (fold_left (fun m p => tell (fst p) (snd p) m) l m) obs <-> (k, obs) ∈ l \/ k ∈ told m obs.
Proof.
  revert m. induction l as [|[k' obs'] l IH]; intros m; cbn [fold_left]; [rewrite elem_of_nil; tauto|].
  rewrite IH, told_tell, elem_of_union, elem_of_cons. cbn [fst snd]. destruct (decide (obs' = obs)) as [->|N].
  - rewrite elem_of_singleton. split; [intros [?|[->|?]]; auto|intros [[[= ->]|?]|?]; auto].
  - split; [intros [?|[?%elem_of_empty|?]]; by auto|intros [[[= -> ->]|?]|?]; by auto].
Qed.
Lemma none_idle_fold (l : list (string * Z)) m : none_idle m -> none_idle (fold_left (fun m p => tell (fst p) (snd p) m) l m).
Proof. revert m. induction l as [|p l IH]; intros m Hm; [done|]. cbn [fold_left]. by apply IH, none_idle_tell. Qed.

(** The mapping tells the pairs of all the changed keys, one key after the other. *)
Lemma tell_key_fold observers m key :
  tell_key observers m key = fold_left (fun m p => tell (fst p) (snd p) m) (filter (fun p => fst p = key) observers) m.
Proof.
  unfold tell_key. revert m. induction observers as [|p l IH]; intros m; [done|]. rewrite filter_cons.
  destruct (decide (fst p = key)) as [<-|N]; [cbn [fold_left]; apply IH|apply IH].
Qed.
Lemma rev_obs_fold observers changed m :
  fold_left (tell_key observers) changed m =
  fold_left (fun m p => tell (fst p) (snd p) m) (concat (map (fun key => filter (fun p => fst p = key) observers) changed)) m.
Proof.
  revert m. induction changed as [|key l IH]; intros m; [done|]. cbn [fold_left map concat]. by rewrite fold_left_app, IH, tell_key_fold.
Qed.

Lemma rev_obs_told observers changed obs k :
  k ∈ told (rev_obs_map observers changed) obs <-> k ∈ changed /\ (k, obs) ∈ observers.
Proof.
  unfold rev_obs_map. rewrite rev_obs_fold, told_fold, list_elem_of_In, in_concat. unfold told. rewrite lookup_empty. split.
  - intros [(l & (key & <- & Hk%list_elem_of_In)%in_map_iff & Hl%list_elem_of_In)|?%elem_of_empty]; [|done].
    apply list_elem_of_filter in Hl as [<- Ho]. done.
  - intros [Hk Ho]. left. exists (filter (fun p => fst p = k) observers). split; [apply in_map_iff; exists k; split; [done|by apply list_elem_of_In]|].
    apply list_elem_of_In, list_elem_of_filter. done.
Qed.
Lemma rev_obs_idle observers changed : none_idle (rev_obs_map observers changed).
Proof. unfold rev_obs_map. rewrite rev_obs_fold. apply none_idle_fold. intros obs. by rewrite lookup_empty. Qed.

(** The calls of a mapping: what an observer is told, if anything. *)
Lemma ordered_calls m obs (keys : gset string) : none_idle m -> (obs, keys) ∈ ordered m <-> keys = told m obs /\ keys <> ∅.
Proof.
  intros Hm. rewrite elem_of_ordered. specialize (Hm obs). unfold told. destruct (m !! obs) as [ks|]; cbn; split; try done.
  - intros [= ->]. split; [done|]. congruence.
  - by intros [-> _].
  - by intros [-> ?].
Qed.

Lemma elem_of_in_order s k : k ∈ in_order s <-> k ∈ s.
Proof. unfold in_order. by rewrite merge_sort_Permutation, elem_of_elements. Qed.

Lemma ordered_lt (m : gmap Z (gset string)) : StronglySorted (fun a b => fst a < fst b) (ordered m).
Proof.
  pose proof (ordered_sorted m) as Hs. pose proof (ordered_nodup m) as Hn. revert Hn.
  induction Hs as [|p l Hs IH Hf]; intros Hn; constructor; cbn in Hn; apply NoDup_cons in Hn as [Hp Hn]; [by apply IH|].
  rewrite Forall_forall in Hf |- *. intros q Hq. specialize (Hf q Hq). unfold bind_le in Hf. apply Z.leb_le in Hf.
  assert (fst p <> fst q); [|lia]. intros E. apply Hp. rewrite E. by apply list_elem_of_fmap_2.
Qed.

Section Notify.
Context {D A U CF : Type} `{BuildConst} `{RealText D} `{AddrText A U} `{ConfText} `{ConfFileOps CF} `{ArgParse}.
Abbreviation config := (config D A U CF).
Implicit Types c : config.

(** The changed keys an observer tracks. *)
Definition changed_for c (obs : Z) : gset string := filter (fun k => (k, obs) ∈ c_observers c) (c_changed c).

Lemma changed_message_iff c k m : m ∈ changed_message c k <->
  exists v, m = MsgValue k v /\ _internal_field k = false /\ _get_val (Some k) 128 c = (0, Some v).
Proof.
  unfold changed_message. destruct (_get_val (Some k) 128 c) as [ret [buf|]].
  - destruct (ret =? 0) eqn:Er; [apply Z.eqb_eq in Er as ->|apply Z.eqb_neq in Er]; (destruct (_internal_field k); cbn).
    all: rewrite ?list_elem_of_singleton, ?elem_of_nil; split; try done; intros; destruct_and?; naive_solver.
  - rewrite elem_of_nil. naive_solver.
Qed.

(** C29: Applying the changes ends and leaves no change pending.  An observer is called once if a
    key it tracks has changed, with all the changed keys it tracks, and is not called otherwise;
    the calls are in the order of the observers' addresses.  The changed options are reported with
    their values after expansion, except those that do not fit the buffer and the internal one. *)
Theorem changes_reach_observers c :
  exists c' calls ms, apply_changes c = Some (c', calls, ms) /\ c_changed c' = ∅ /\ c_observers c' = c_observers c /\
    StronglySorted (fun a b => fst a < fst b) calls /\
    (forall obs keys, (obs, keys) ∈ calls <-> keys = changed_for c obs /\ keys <> ∅) /\
    (forall m, m ∈ ms <-> exists k v, m = MsgValue k v /\ k ∈ c_changed c /\ _internal_field k = false /\ _get_val (Some k) 128 c' = (0, Some v)).
Proof.
  unfold apply_changes, _apply_changes. destruct (expand_all_ok c) as (c1 & ls & E & R). rewrite E. cbn [mbind option_bind].
  pose proof (rs_rest _ _ R) as Er. assert (c_changed c1 = c_changed c /\ c_observers c1 = c_observers c) as [-> ->] by (by rewrite Er).
  eexists _, _, _. split; [done|]. split; [done|]. split; [cbn; by rewrite Er|]. split; [apply ordered_lt|]. split.
  - intros obs keys. rewrite ordered_calls by apply rev_obs_idle.
    assert (told (rev_obs_map (c_observers c) (in_order (c_changed c))) obs = changed_for c obs) as ->; [|done].
    apply set_eq. intros k. unfold changed_for. rewrite rev_obs_told, elem_of_in_order, elem_of_filter. tauto.
  - intros m. rewrite list_elem_of_In, in_concat. split.
    + intros (l & (k & <- & Hk%list_elem_of_In%elem_of_in_order)%in_map_iff & Hl%list_elem_of_In). apply changed_message_iff in Hl as (v & -> & Hi & Hg).
      by exists k, v.
    + intros (k & v & -> & Hk & Hi & Hg). exists (changed_message c1 k). split; [apply in_map; by apply list_elem_of_In, elem_of_in_order|].
      apply list_elem_of_In, changed_message_iff. by exists v.
Qed.

End Notify.

(** Two observers and three tracked keys, two of which change. *)
Definition notify_ex : config Q string string (list (string * string * string)) :=
  let c := add_observer 2 ["mds_bal_interval"; "mds_bal_mode"]%string (add_observer 1 ["mds_bal_interval"; "log_file"]%string (add_observer 3 ["log_file"%string] (new_config name_ex 7 9))) in
  match set_val (Some "mds_bal_interval"%string) (Some "20"%string) true true c with
  | Some (_, c) => match set_val (Some "mds_bal_mode"%string) (Some "1"%string) true true c with Some (_, c) => c | None => c end
  | None => c
  end.
Example notify_ex_calls : match apply_changes notify_ex with Some (_, calls, ms) => (map (fun p => (fst p, in_order (snd p))) calls, ms) | None => ([], []) end =
  ([(1, ["mds_bal_interval"]); (2, ["mds_bal_interval"; "mds_bal_mode"])], [MsgValue "mds_bal_interval" "20"; MsgValue "mds_bal_mode" "1"])%string.
Proof. vm_compute. reflexivity. Qed.
