(* ===== verification/Readdir.v ===== *)
(** * Listing a fragment (Server.cc)

    [handle_client_readdir] and [try_open_auth_dirfrag]: a request for a page of the dentries of a
    fragment, from the name after which the last page ended.  The fragment is that of file
    Dentries.  What the code calls of [CDentry], [CInode], the locker and the cache, whose sources
    are not in the repository, is the class [ReaddirOps]; their other effects are the trace. *)

From Stdlib Require Import ZArith Lia Ascii Sorted.
From stdpp Require Import base tactics numbers list gmap fin_maps sorting.
From S2P Require Import Prelude Keys CacheObject Dentries Commit.
Open Scope Z_scope.
Open Scope list_scope.

Definition ENOTDIR : Z := 20.

Class ReaddirOps (C : Type) := {
  CEPH_INO_CEPH : Z;
  dn_purging : dentry C -> bool;                  (* state_test(CDentry::STATE_PURGING) *)
  dn_bad_remote : dentry C -> bool;               (* state_test(CDentry::STATE_BADREMOTEINO) *)
  client_linkage : Z -> dentry C -> linkage_t;    (* the projected linkage if use_projected(client, mdr) *)
  link_remote : Z -> Z -> dentry C -> dentry C;   (* link_remote(dnl, in), of the linkage of a client *)
  issue_lease : Z -> dentry C -> dentry C;        (* Locker::issue_client_lease *)
  cached : Z -> bool;                             (* mdcache->get_inode(ino) *)
  name_bytes : cstring -> Z;                      (* what encode(dn->name, dnbl) appends *)
  lease_bytes : Z;                                (* what the lease appends *)
  sizeof_LeaseStat : Z;
  inodestat : Z -> Z -> option Z                  (* what encode_inodestat appends within a size; None: r < 0 *)
}.

(** ** Opening the fragment *)

Inductive opened :=
| Forward (rank : Z)
| WaitParent                                      (* the waiter on the parent of the frozen inode *)
| Opened.

(** [dir] and [made] are whether the open or the newly opened fragment is ours, and its authority. *)
Definition try_open_auth_dirfrag (dir : option (bool * Z)) (diri_auth : bool) (diri_authority : Z) (diri_frozen has_parent : bool)
    (made : bool * Z) : res opened :=
  match dir with
  | None =>
      if negb diri_auth then Ok (Forward diri_authority)
      else if diri_frozen then check has_parent ;; Ok WaitParent
      else Ok (if fst made then Opened else Forward (snd made))
  | Some d => Ok (if fst d then Opened else Forward (snd d))
  end.

(** ** The request *)

(** [F] is [frag_t]. *)
Record readdir_req (F : Type) := mk_rreq {
  rq_client : Z;
  rq_snapid : Z;
  rq_frag : F;
  rq_offset : cstring;
  rq_max_entries : Z;
  rq_max_bytes : Z
}.
Arguments mk_rreq {F}.
Arguments rq_client {F}.
Arguments rq_snapid {F}.
Arguments rq_frag {F}.
Arguments rq_offset {F}.
Arguments rq_max_entries {F}.
Arguments rq_max_bytes {F}.

(** The realm of the directory, and the length of the encoded dirstat. *)
Record realm_info := mk_realm {
  rl_last_destroyed : Z;
  rl_snaps : gset Z;
  rl_trace_length : Z;
  rl_dirstat_length : Z
}.

Inductive rd_effect :=
| RdDentry (e : dn_effect)                        (* of a trim *)
| RdLinkRemote (k : dentry_key_t) (ino : Z)
| RdLease (k : dentry_key_t)
| RdInode (ino : Z)                               (* encode_inodestat, which may issue a capability *)
| RdTouch (k : dentry_key_t)
| RdOpenRemote (k : dentry_key_t) (retry : bool)
| RdDropLocks
| RdMarkDirty
| RdHitDir (n : Z).

Record page := mk_page {
  pg_entries : list (cstring * Z);                (* names and inodes *)
  pg_end : bool;
  pg_complete : bool
}.

(** How the handler leaves. *)
Inductive rd_result (F : Type) :=
| RdHandled                                       (* by the path traversal, the locker or the opening *)
| RdError (r : Z)
| RdWaitUnfreeze
| RdFetch
| RdRetry
| RdReply (fg : F) (p : page).
Arguments RdHandled {F}.
Arguments RdError {F}.
Arguments RdWaitUnfreeze {F}.
Arguments RdFetch {F}.
Arguments RdRetry {F}.
Arguments RdReply {F}.

Section Readdir.
Context {C : Type} `{CephConst} `{CDentryOps C} `{ReaddirOps C}.
Context (inodes : Z -> inode_info).
Implicit Types d : dirfrag C.
Implicit Types dn : dentry C.

(** ** The loop *)

Record rd_state := mk_rd {
  rs_dir : dirfrag C;
  rs_numfiles : Z;
  rs_bytes : Z;                                   (* dnbl.length() *)
  rs_entries : list (cstring * Z);
  rs_effects : list rd_effect
}.

(** What becomes of one dentry. *)
Inductive rd_step :=
| Continue (s : rd_state)
| Break (s : rd_state)
| Return (s : rd_state).                          (* the request is retried *)

Definition put_dentry (k : dentry_key_t) (dn : dentry C) (es : list rd_effect) (s : rd_state) : rd_state :=
  mk_rd (upd_dentry k dn (rs_dir s)) (rs_numfiles s) (rs_bytes s) (rs_entries s) (rs_effects s ++ es).
Definition note (es : list rd_effect) (s : rd_state) : rd_state :=
  mk_rd (rs_dir s) (rs_numfiles s) (rs_bytes s) (rs_entries s) (rs_effects s ++ es).

(** [if (dn->last < snapid || dn->first > snapid)] *)
Definition overlaps (snapid : Z) (dn : dentry C) : bool := negb ((dn_last dn <? snapid) || (snapid <? dn_first dn)).

(** [!offset_str.empty() && dn->get_name().compare(offset_str) <= 0] *)
Definition before_offset (offset : cstring) (dn : dentry C) : bool :=
  match offset with
  | [] => false
  | _ => match strcmp (dn_name dn) offset with Gt => false | _ => true end
  end.

(** the dentry and the inode go to the page, if there is room *)
Definition include_dentry (client bytes_left : Z) (k : dentry_key_t) (dn : dentry C) (ino : Z) (s : rd_state) : rd_step :=
  if bytes_left <? s32 (rs_bytes s + Z.of_nat (length (dn_name dn)) + 4 + sizeof_LeaseStat) then Break s
  else
    let len := rs_bytes s + name_bytes (dn_name dn) + lease_bytes in
    let s := put_dentry k (issue_lease client dn) [RdLease k; RdInode ino] s in
    match inodestat ino (s32 (bytes_left - s32 len)) with
    | None => Break s
    | Some n => Continue (mk_rd (rs_dir s) (u32 (rs_numfiles s + 1)) (len + n) (rs_entries s ++ [(dn_name dn, ino)])
                            (rs_effects s ++ [RdTouch k]))
    end.

(** [lru_touch] of everything that is linked *)
Definition touch_linked d : list rd_effect :=
  map RdTouch (map fst (filter (fun p => is_null (snd p) = false) (ordered (df_items d)))).

Definition is_lnull (l : linkage_t) : bool := match l with LNull => true | _ => false end.

(** from the test of the offset on; [l] is the linkage *)
Definition list_dentry (client bytes_left : Z) (offset : cstring) (k : dentry_key_t) (dn : dentry C) (l : linkage_t) (s : rd_state)
  : res rd_step :=
  if before_offset offset dn then Ok (Continue s)
  else
    match l with
    | LNull => Abort                              (* assert(in) *)
    | LPrimary ino => if ino =? CEPH_INO_CEPH then Ok (Continue s) else Ok (include_dentry client bytes_left k dn ino s)
    | LRemote _ _ (Some ino) => if ino =? CEPH_INO_CEPH then Ok (Continue s) else Ok (include_dentry client bytes_left k dn ino s)
    | LRemote ino _ None =>
        if cached ino then
          let dn := link_remote client ino dn in
          Ok (include_dentry client bytes_left k dn ino (put_dentry k dn [RdLinkRemote k ino] s))
        else if dn_bad_remote dn then Ok (Continue s)
        else if 0 <? rs_bytes s then Ok (Break (note (touch_linked (rs_dir s) ++ [RdOpenRemote k false]) s))
        else Ok (Return (note (touch_linked (rs_dir s) ++ [RdDropLocks; RdOpenRemote k true]) s))
    end.

(** [if (snaps && dn->last != CEPH_NOSNAP)] the dentry may be trimmed *)
Definition trim_stale (snaps : option (gset Z)) (k : dentry_key_t) (dn : dentry C) (s : rd_state) : res (rd_state * bool) :=
  match snaps with
  | Some sn =>
      if is_head dn then Ok (s, false)
      else
        '(d, es, t) ← try_trim_snap_dentry inodes sn k (rs_dir s);
        Ok (mk_rd d (rs_numfiles s) (rs_bytes s) (rs_entries s) (rs_effects s ++ map RdDentry es), t)
  | None => Ok (s, false)
  end.

Definition visit (client snapid bytes_left : Z) (offset : cstring) (snaps : option (gset Z)) (k : dentry_key_t) (dn : dentry C) (s : rd_state)
  : res rd_step :=
  if dn_purging dn then Ok (Continue s)
  else
    let l := client_linkage client dn in
    if is_lnull l then Ok (Continue s)
    else
      '(s, trimmed) ← trim_stale snaps k dn s;
      if (trimmed : bool) then Ok (Continue s)
      else if negb (overlaps snapid dn) then Ok (Continue s)
      else list_dentry client bytes_left offset k dn l s.

(** The dentries from the iterator on; the answer is [end], or nothing if the request is retried. *)
Fixpoint readdir_loop (client snapid max bytes_left : Z) (offset : cstring) (snaps : option (gset Z)) (ks : list dentry_key_t) (s : rd_state)
  : res (option bool * rd_state) :=
  match ks with
  | [] => Ok (Some true, s)
  | k :: ks =>
      if negb (rs_numfiles s <? max) then Ok (Some false, s)
      else match df_items (rs_dir s) !! k with
           | None => Abort
           | Some dn =>
               r ← visit client snapid bytes_left offset snaps k dn s;
               match r with
               | Continue s => readdir_loop client snapid max bytes_left offset snaps ks s
               | Break s => Ok (Some false, s)
               | Return s => Ok (None, s)
               end
           end
  end.

(** ** The handler *)

(** What the handler reads: the directory inode of the path, if the traversal has it, and whether
    it is a directory; whether the locks are there; the fragment tree; whether the fragment could
    be opened, and whether it is frozen. *)
Record rd_env (F : Type) := mk_env {
  re_diri : option bool;
  re_locks : bool;
  re_leaf : F -> F;                               (* dirfragtree[fg.value()] *)
  re_open : F -> res opened;
  re_frozen : bool;
  re_realm : realm_info
}.
Arguments mk_env {F}.
Arguments re_diri {F}.
Arguments re_locks {F}.
Arguments re_leaf {F}.
Arguments re_open {F}.
Arguments re_frozen {F}.
Arguments re_realm {F}.

(** the fragment, and [fnode.snap_purged_thru] *)
Record rdir := mk_rdir { rd_dir : dirfrag C; rd_purged_thru : Z }.

(** [int bytes_left]; the limits are unsigned *)
Definition bytes_available (max_bytes : Z) (rl : realm_info) : Z :=
  let max_bytes := if max_bytes =? 0 then Z.shiftl 512 10 else max_bytes in
  let front_bytes := s32 (rl_dirstat_length rl + 4 + 2) in
  s32 (s32 (max_bytes - front_bytes) - rl_trace_length rl).

Definition readdir_page (client snapid max_entries max_bytes : Z) (offset : cstring) (rl : realm_info) (x : rdir)
  : res (option page * rdir * list rd_effect) :=
  let purge := rd_purged_thru x <? rl_last_destroyed rl in
  let snaps := if purge then Some (rl_snaps rl) else None in
  let x := if purge then mk_rdir (rd_dir x) (rl_last_destroyed rl) else x in
  check (negb purge || (snapid =? CEPH_NOSNAP) || bool_decide (snapid ∈ rl_snaps rl)) ;;
  let max := if max_entries =? 0 then get_num_any (rd_dir x) else max_entries in
  '(e, s) ← readdir_loop client snapid max (bytes_available max_bytes rl) offset snaps (item_keys (rd_dir x))
              (mk_rd (rd_dir x) 0 0 [] []);
  let x := mk_rdir (rs_dir s) (rd_purged_thru x) in
  match e with
  | None => Ok (None, x, rs_effects s)
  | Some e =>
      Ok (Some (mk_page (rs_entries s) e (e && bool_decide (offset = []))), x,
          rs_effects s ++ (if purge then [RdMarkDirty] else []) ++ [RdHitDir (rs_numfiles s)])
  end.

(** the fragment is opened, and listed if it is complete *)
Definition readdir_frag {F} (req : readdir_req F) (env : rd_env F) (fg : F) (offset : cstring) (x : rdir)
  : res (rd_result F * rdir * list rd_effect) :=
  o ← re_open env fg;
  match o with
  | Forward _ | WaitParent => Ok (RdHandled, x, [])
  | Opened =>
      if negb (state_test (df_obj (rd_dir x)) STATE_COMPLETE) then
        if re_frozen env then Ok (RdWaitUnfreeze, x, [RdDropLocks]) else Ok (RdFetch, x, [])
      else
        '(p, x, es) ← readdir_page (rq_client req) (rq_snapid req) (rq_max_entries req) (rq_max_bytes req) offset (re_realm env) x;
        Ok (match p with Some p => RdReply fg p | None => RdRetry end, x, es)
  end.

Definition handle_client_readdir {F} `{EqDecision F} (req : readdir_req F) (env : rd_env F) (x : rdir)
  : res (rd_result F * rdir * list rd_effect) :=
  match re_diri env with
  | None => Ok (RdHandled, x, [])
  | Some false => Ok (RdError (- ENOTDIR), x, [])
  | Some true =>
      if negb (re_locks env) then Ok (RdHandled, x, [])
      else
        let leaf := re_leaf env (rq_frag req) in
        if decide (leaf = rq_frag req) then readdir_frag req env (rq_frag req) (rq_offset req) x
        else readdir_frag req env leaf [] x
  end.

End Readdir.
Arguments mk_env {F}.
Arguments re_diri {F}.
Arguments re_locks {F}.
Arguments re_leaf {F}.
Arguments re_open {F}.
Arguments re_frozen {F}.
Arguments re_realm {F}.
