(* ===== verification/ReaddirSpec.v ===== *)
(** * A page is the next visible dentries

    What a client may see of a fragment, and that [handle_client_readdir] shows just that: the
    pages are prefixes of what is left after the offset, in order; what is skipped or trimmed is
    not visible; and a page that does not end the fragment has at least one entry when one entry
    fits. *)

From Stdlib Require Import ZArith Lia Ascii Sorted.
From stdpp Require Import base tactics numbers list gmap fin_maps sorting.
From S2P Require Import Prelude Keys CacheObject Dentries Commit Readdir.
Open Scope Z_scope.
Open Scope list_scope.

Section ReaddirSpec.
Context {C : Type} `{CephConst} `{CDentryOps C} `{ReaddirOps C}.
Context (inodes : Z -> inode_info).
Implicit Types d : dirfrag C.
Implicit Types dn : dentry C.
Abbreviation rd_state := (@rd_state C).
Implicit Types s : rd_state.

(** ** What a client may see *)

(** What is known of the calls: linking a remote dentry fills in the inode, and a lease changes
    nothing the listing reads. *)
Class ReaddirLaws : Prop := {
  link_same : forall client ino dn t, client_linkage client dn = LRemote ino t None ->
    dn_name (link_remote client ino dn) = dn_name dn /\ dn_first (link_remote client ino dn) = dn_first dn /\
    dn_last (link_remote client ino dn) = dn_last dn /\ dn_purging (link_remote client ino dn) = dn_purging dn /\
    client_linkage client (link_remote client ino dn) = LRemote ino t (Some ino);
  lease_same : forall client dn,
    dn_name (issue_lease client dn) = dn_name dn /\ dn_first (issue_lease client dn) = dn_first dn /\
    dn_last (issue_lease client dn) = dn_last dn /\ dn_purging (issue_lease client dn) = dn_purging dn /\
    dn_bad_remote (issue_lease client dn) = dn_bad_remote dn /\
    client_linkage client (issue_lease client dn) = client_linkage client dn
}.

(** The inode a dentry stands for, unless it is a bad remote link or the hidden directory. *)
Definition target (client : Z) dn : option Z :=
  match client_linkage client dn with
  | LNull => None
  | LPrimary i | LRemote _ _ (Some i) => if i =? CEPH_INO_CEPH then None else Some i
  | LRemote i _ None => if cached i || negb (dn_bad_remote dn) then Some i else None
  end.
(** The name and the inode of a dentry that is live at the snapshot. *)
Definition shown (client snapid : Z) dn : option (cstring * Z) :=
  if dn_purging dn || negb (overlaps snapid dn) then None else i ← target client dn; Some (dn_name dn, i).

(** A remote link whose inode has to be opened first. *)
Definition to_open (client : Z) dn : bool :=
  match client_linkage client dn with LRemote i _ None => negb (cached i) && negb (dn_bad_remote dn) | _ => false end.

Definition visible (client snapid : Z) d : gmap dentry_key_t (cstring * Z) := omap (shown client snapid) (df_items d).

(** The entries after an offset, in the order of the fragment. *)
Definition after (offset : cstring) (e : cstring * Z) : Prop := offset = [] \/ strcmp (fst e) offset = Gt.
#[global] Instance after_dec offset e : Decision (after offset e) := _.
Definition listing (client snapid : Z) (offset : cstring) d : list (cstring * Z) :=
  filter (after offset) (ordered (visible client snapid d)).*2.

(** ** The order *)

Lemma omap_sorted {V W} (f : V -> option W) (l : list (dentry_key_t * V)) :
  StronglySorted bind_le l -> StronglySorted bind_le (omap (fun p => w ← f (snd p); Some (fst p, w)) l).
Proof.
  induction 1 as [|[k v] l Hl IH Hf]; [constructor|]. cbn. destruct (f v) as [w|]; cbn; [|done]. constructor; [done|].
  apply Forall_forall. intros [k' w'] Hin. pose proof (proj1 (Forall_forall _ _) Hf) as Hf'. apply list_elem_of_omap in Hin as ([k2 v2] & Hin & E). cbn in E.
  destruct (f v2); [|done]. injection E as <- <-. exact (Hf' _ Hin).
Qed.

Lemma ordered_omap {V W} (f : V -> option W) (m : gmap dentry_key_t V) :
  ordered (omap f m) = omap (fun p => w ← f (snd p); Some (fst p, w)) (ordered m).
Proof.
  apply (StronglySorted_unique_strong bind_le).
  - intros [k1 w1] [k2 w2] In1 In2 L1 L2. unfold bind_le in L1, L2. cbn in L1, L2.
    assert (k1 = k2) as -> by (by apply k_leb_antisym). apply elem_of_ordered in In1. rewrite lookup_omap in In1.
    apply list_elem_of_omap in In2 as ([k v] & Hin & E). cbn in E. apply elem_of_ordered in Hin. destruct (f v) as [w|] eqn:Ef; [|done].
    injection E as <- <-. rewrite Hin in In1. cbn in In1. congruence.
  - apply ordered_sorted.
  - apply omap_sorted, ordered_sorted.
  - apply NoDup_Permutation.
    + apply (NoDup_fmap_1 fst). apply ordered_nodup.
    + apply (NoDup_fmap_1 fst). pose proof (ordered_nodup m) as Hn. revert Hn. generalize (ordered m). intros l. induction l as [|[k v] l IH]; [done|].
      cbn. intros [Hk Hn]%NoDup_cons. destruct (f v) as [w|]; cbn; [|by apply IH]. constructor; [|by apply IH].
      intros Hin. apply Hk. apply list_elem_of_fmap in Hin as ([k' w'] & -> & Hin). apply list_elem_of_omap in Hin as ([k2 v2] & Hin & E). cbn in E.
      destruct (f v2); [|done]. injection E as <- _. by apply (list_elem_of_fmap_2 fst) in Hin.
    + intros [k w]. rewrite elem_of_ordered, lookup_omap, list_elem_of_omap. split.
      * destruct (m !! k) as [v|] eqn:E; [|done]. cbn. intros Ef. exists (k, v). split; [by apply elem_of_ordered|]. cbn. by rewrite Ef.
      * intros ([k2 v2] & Hin & E). cbn in E. apply elem_of_ordered in Hin. destruct (f v2) as [w2|] eqn:Ef; [|done]. injection E as <- <-.
        by rewrite Hin.
Qed.


(** ** One dentry *)

(** What can be assumed of a fragment: no dentry outlives the head, no link names the hidden directory. *)
Record plausible (client : Z) d : Prop := {
  pl_last : forall k dn, df_items d !! k = Some dn -> dn_last dn <= CEPH_NOSNAP;
  pl_hidden : forall k dn t, df_items d !! k = Some dn -> client_linkage client dn <> LRemote CEPH_INO_CEPH t None
}.

Lemma sorted_filter {V} (R : V -> V -> Prop) (P : V -> Prop) `{!forall x, Decision (P x)} l : StronglySorted R l -> StronglySorted R (filter P l).
Proof.
  induction 1 as [|x l Hl IH Hf]; [constructor|]. rewrite filter_cons. destruct (decide (P x)); [|done]. constructor; [done|].
  apply Forall_forall. intros y [_ Hy]%list_elem_of_filter. exact (proj1 (Forall_forall _ _) Hf y Hy).
Qed.

Lemma no_snap_spec sn a b x : no_snap_in sn a b = true -> x ∈ sn -> a <= x -> b < x.
Proof.
  unfold no_snap_in. intros Hn Hx Ha.
  assert (x ∈ filter (fun y => a <= y) (ordered_elems sn)) as Hin by (apply list_elem_of_filter; split; [done|by apply elem_of_ordered_elems]).
  assert (StronglySorted Z.le (filter (fun y => a <= y) (ordered_elems sn))) as Hs.
  { apply sorted_filter. unfold ordered_elems. apply Sorted_StronglySorted; [intros ???; lia|]. apply Sorted_merge_sort. intros ??; lia. }
  destruct (filter _ _) as [|p l]; [by apply elem_of_nil in Hin|]. apply Z.ltb_lt in Hn. apply elem_of_cons in Hin as [->|Hin]; [done|].
  inversion Hs as [|?? _ Hf]; subst. pose proof (proj1 (Forall_forall _ _) Hf _ Hin) as Hp. cbn in Hp. lia.
Qed.

Section Page.
Context `{!ReaddirLaws}.
Context (client snapid bytes_left : Z) (offset : cstring) (snaps : option (gset Z)).
(** [assert(snapid == CEPH_NOSNAP || snaps->count(snapid))] *)
Hypothesis Hsnap : forall sn, snaps = Some sn -> snapid = CEPH_NOSNAP \/ snapid ∈ sn.

Lemma trim_hidden sn k dn d d' es : plausible client d -> snaps = Some sn -> df_items d !! k = Some dn -> is_head dn = false ->
  try_trim_snap_dentry inodes sn k d = Ok (d', es, true) -> overlaps snapid dn = false /\ df_items d' = delete k (df_items d).
Proof.
  intros Pl Es Ek Eh Et. destruct (trim_frame inodes sn k d d' es true Et) as (dn' & Ek' & _ & Hb & Hd). rewrite Ek in Ek'. injection Ek' as <-.
  destruct (Hd eq_refl) as [Hit _]. split; [|done]. unfold overlaps. apply negb_false_iff, orb_true_iff.
  pose proof (pl_last _ _ Pl k dn Ek) as Hl. unfold is_head in Eh. apply Z.eqb_neq in Eh. destruct (Hsnap sn Es) as [->|Hin].
  - left. apply Z.ltb_lt. lia.
  - unfold trimmable in Hb. symmetry in Hb. apply andb_true_iff in Hb as [Hb _]. apply andb_true_iff in Hb as [Hb _].
    destruct (Z.leb_spec (dn_first dn) snapid) as [Hle|Hgt]; [left|right; apply Z.ltb_lt; lia]. apply Z.ltb_lt. by eapply no_snap_spec.
Qed.

(** The other dentries are as they were, and what is visible is the same. *)
Record calm (k : dentry_key_t) d d' : Prop := {
  cm_other : forall k', k' <> k -> df_items d' !! k' = df_items d !! k';
  cm_visible : visible client snapid d' = visible client snapid d;
  cm_plausible : plausible client d'
}.

Lemma calm_dentry_refl k d : plausible client d -> calm k d d.
Proof. by split. Qed.
Lemma calm_dentry_trans k d1 d2 d3 : calm k d1 d2 -> calm k d2 d3 -> calm k d1 d3.
Proof. intros [O1 V1 _] [O2 V2 P2]. split; [|by rewrite V2|done]. intros k' N. by rewrite O2, O1. Qed.

Lemma calm_dentry_put k dn dn' d : plausible client d -> df_items d !! k = Some dn -> shown client snapid dn' = shown client snapid dn ->
  dn_last dn' = dn_last dn -> (forall t, client_linkage client dn' <> LRemote CEPH_INO_CEPH t None) -> calm k d (upd_dentry k dn' d).
Proof.
  intros Pl Ek Es El Eh. split.
  - intros k' N. cbn. by rewrite lookup_insert_ne.
  - apply map_eq. intros k'. unfold visible. rewrite !lookup_omap. cbn. destruct (decide (k' = k)) as [->|N]; [|by rewrite lookup_insert_ne].
    rewrite lookup_insert_eq, Ek. cbn. done.
  - split; cbn; intros k' x; (destruct (decide (k' = k)) as [->|N]; [rewrite lookup_insert_eq|rewrite lookup_insert_ne by done]).
    + intros [= <-]. rewrite El. by eapply pl_last.
    + by apply Pl.
    + intros t [= <-]. apply Eh.
    + by apply Pl.
Qed.

Lemma calm_delete k dn d d' : plausible client d -> df_items d !! k = Some dn -> shown client snapid dn = None ->
  df_items d' = delete k (df_items d) -> calm k d d'.
Proof.
  intros Pl Ek Es Ed. split.
  - intros k' N. rewrite Ed. by rewrite lookup_delete_ne.
  - apply map_eq. intros k'. unfold visible. rewrite !lookup_omap, Ed. destruct (decide (k' = k)) as [->|N]; [|by rewrite lookup_delete_ne].
    rewrite lookup_delete_eq, Ek. cbn. done.
  - split; intros k' x; rewrite Ed; (destruct (decide (k' = k)) as [->|N]; [by rewrite lookup_delete_eq|rewrite lookup_delete_ne by done]); by eapply Pl.
Qed.

Lemma shown_lease dn : shown client snapid (issue_lease client dn) = shown client snapid dn.
Proof.
  destruct (lease_same client dn) as (En & Ef & El & Ep & Eb & Ec). unfold shown, target, overlaps. by rewrite En, Ef, El, Ep, Eb, Ec.
Qed.
Lemma shown_link dn ino t : client_linkage client dn = LRemote ino t None -> cached ino = true -> ino <> CEPH_INO_CEPH ->
  shown client snapid (link_remote client ino dn) = shown client snapid dn.
Proof.
  intros Ec Ea N. destruct (link_same client ino dn t Ec) as (En & Ef & El & Ep & Ec'). unfold shown, target, overlaps.
  rewrite En, Ef, El, Ep, Ec', Ec, Ea. cbn. by destruct (Z.eqb_spec ino CEPH_INO_CEPH).
Qed.

(** The entry a dentry brings to the page. *)
Definition entry_of dn : option (cstring * Z) := e ← shown client snapid dn; if decide (after offset e) then Some e else None.

(** A page with nothing else has room for the entry. *)
Definition fits (e : cstring * Z) : Prop :=
  s32 (Z.of_nat (length (fst e)) + 4 + sizeof_LeaseStat) <= bytes_left /\
  is_Some (inodestat (snd e) (s32 (bytes_left - s32 (name_bytes (fst e) + lease_bytes)))).

(** What a visit of a dentry that is in the fragment leaves. *)
Definition visited (k : dentry_key_t) dn s (r : rd_step) : Prop :=
  match r with
  | Continue s' => calm k (rs_dir s) (rs_dir s') /\
      match entry_of dn with
      | Some e => rs_entries s' = rs_entries s ++ [e] /\ rs_numfiles s' = u32 (rs_numfiles s + 1)
      | None => rs_entries s' = rs_entries s /\ rs_numfiles s' = rs_numfiles s /\ rs_bytes s' = rs_bytes s
      end
  | Break s' => calm k (rs_dir s) (rs_dir s') /\ rs_entries s' = rs_entries s /\ rs_numfiles s' = rs_numfiles s /\
      exists e, entry_of dn = Some e /\ (rs_bytes s = 0 -> ~ fits e)
  | Return s' => calm k (rs_dir s) (rs_dir s') /\ rs_entries s' = rs_entries s /\ rs_numfiles s' = rs_numfiles s /\ is_Some (entry_of dn) /\
      to_open client dn = true
  end.

Lemma include_visited k dn dn0 ino s : plausible client (rs_dir s) -> df_items (rs_dir s) !! k = Some dn ->
  dn_name dn = dn_name dn0 -> entry_of dn0 = Some (dn_name dn, ino) -> (forall t, client_linkage client dn <> LRemote CEPH_INO_CEPH t None) ->
  visited k dn0 s (include_dentry client bytes_left k dn ino s).
Proof.
  intros Pl Ek Hn He Hh. unfold include_dentry. destruct (Z.ltb_spec bytes_left (s32 (rs_bytes s + Z.of_nat (length (dn_name dn)) + 4 + sizeof_LeaseStat))) as [Hlt|Hge].
  { cbn. split; [by apply calm_dentry_refl|]. split; [done|]. split; [done|]. exists (dn_name dn, ino). split; [done|]. intros Eb [Hf _]. cbn [fst snd] in Hf.
    rewrite Eb, Z.add_0_l in Hlt. lia. }
  destruct (lease_same client dn) as (En & Ef & El & Ep & Eb & Ec).
  assert (calm k (rs_dir s) (upd_dentry k (issue_lease client dn) (rs_dir s))) as Q.
  { eapply calm_dentry_put; [done|done|apply shown_lease|done|]. intros t. rewrite Ec. apply Hh. }
  cbn beta iota zeta. destruct (inodestat ino _) as [n|] eqn:Ei; cbn.
  - split; [done|]. by rewrite He.
  - split; [done|]. split; [done|]. split; [done|]. exists (dn_name dn, ino). split; [done|]. intros E0 [_ Hf]. cbn [fst snd] in Hf.
    rewrite E0, Z.add_0_l in Ei. rewrite Ei in Hf. by destruct Hf.
Qed.

Lemma before_after dn i : before_offset offset dn = false <-> after offset (dn_name dn, i).
Proof.
  unfold before_offset, after. destruct offset as [|a l]; [split; [by left|done]|]. cbn [fst].
  destruct (strcmp (dn_name dn) (a :: l)); naive_solver.
Qed.

Lemma entry_none dn : shown client snapid dn = None -> entry_of dn = None.
Proof. intros E. unfold entry_of. by rewrite E. Qed.
Lemma entry_some dn i : dn_purging dn = false -> overlaps snapid dn = true -> target client dn = Some i ->
  entry_of dn = if before_offset offset dn then None else Some (dn_name dn, i).
Proof.
  intros Ep Eo Et. unfold entry_of, shown. rewrite Ep, Eo, Et. cbn. pose proof (before_after dn i) as Hb.
  destruct (decide _), (before_offset offset dn); naive_solver.
Qed.

(** nothing to show, nothing done *)
Lemma skip_visited k dn s : plausible client (rs_dir s) -> entry_of dn = None -> visited k dn s (Continue s).
Proof. intros Pl E. cbn. rewrite E. split; [by apply calm_dentry_refl|done]. Qed.

Lemma list_visited k dn s r : plausible client (rs_dir s) -> df_items (rs_dir s) !! k = Some dn -> dn_purging dn = false -> overlaps snapid dn = true ->
  client_linkage client dn <> LNull -> list_dentry client bytes_left offset k dn (client_linkage client dn) s = Ok r -> visited k dn s r.
Proof.
  intros Pl Ek Ep Eo Nl. pose proof (entry_some dn) as He. unfold list_dentry. destruct (before_offset offset dn) eqn:Eb.
  { intros [= <-]. apply skip_visited; [done|]. destruct (target client dn) as [i|] eqn:Et; [by apply (He i)|].
    apply entry_none. unfold shown. rewrite Et. by destruct (_ || _). }
  assert (target client dn = None -> entry_of dn = None) as Hn.
  { intros Et. apply entry_none. unfold shown. rewrite Et. by destruct (_ || _). }
  pose proof (pl_hidden _ _ Pl k dn) as Hh.
  destruct (client_linkage client dn) as [|ino|ino t [j|]] eqn:El; [done| | |].
  1-2: assert (target client dn = if (_ : Z) =? CEPH_INO_CEPH then None else Some _) as Et by (unfold target; by rewrite El);
    destruct (_ =? CEPH_INO_CEPH); intros [= <-]; [apply skip_visited; [done|by apply Hn]|];
    apply include_visited; [done|done|done|by apply He|intros t'; by rewrite El].
  assert (target client dn = if cached ino || negb (dn_bad_remote dn) then Some ino else None) as Et by (unfold target; by rewrite El).
  assert (ino <> CEPH_INO_CEPH) as Ni by (intros ->; by apply (Hh t Ek)).
  destruct (cached ino) eqn:Ea; [|destruct (dn_bad_remote dn) eqn:Eg].
  - destruct (link_same client ino dn t El) as (En & Ef & Ela & Epu & Ec). intros [= <-].
    assert (calm k (rs_dir s) (upd_dentry k (link_remote client ino dn) (rs_dir s))) as Q.
    { eapply calm_dentry_put; [done|done|by eapply shown_link|done|]. intros t'. rewrite Ec. congruence. }
    set (s1 := put_dentry k (link_remote client ino dn) [RdLinkRemote k ino] s).
    assert (visited k dn s1 (include_dentry client bytes_left k (link_remote client ino dn) ino s1)) as Hv.
    { apply include_visited; [apply Q|cbn; by rewrite lookup_insert_eq|done| |intros t'; rewrite Ec; congruence]. rewrite En. by apply He. }
    revert Hv. unfold visited. destruct (include_dentry _ _ _ _ _ _); intros [Q' Hv]; (split; [by eapply calm_dentry_trans|]); exact Hv.
  - intros [= <-]. apply skip_visited; [done|by apply Hn].
  - assert (entry_of dn = Some (dn_name dn, ino)) as E by (by apply He).
    destruct (Z.ltb_spec 0 (rs_bytes s)) as [Hb|Hb]; intros [= <-]; (split; [by apply calm_dentry_refl|]); (split; [done|]); (split; [done|]).
    + exists (dn_name dn, ino). split; [done|]. lia.
    + split; [by rewrite E|]. unfold to_open. by rewrite El, Ea, Eg.
Qed.

Lemma visit_visited k dn s r : plausible client (rs_dir s) -> df_items (rs_dir s) !! k = Some dn ->
  visit inodes client snapid bytes_left offset snaps k dn s = Ok r -> visited k dn s r.
Proof.
  intros Pl Ek. unfold visit. destruct (dn_purging dn) eqn:Ep.
  { intros [= <-]. apply skip_visited; [done|]. apply entry_none. unfold shown. by rewrite Ep. }
  destruct (is_lnull (client_linkage client dn)) eqn:El.
  { intros [= <-]. apply skip_visited; [done|]. apply entry_none. unfold shown, target. destruct (client_linkage client dn); try done. by destruct (_ || _). }
  assert (client_linkage client dn <> LNull) as Nl by (by destruct (client_linkage client dn)).
  assert (overlaps snapid dn = false -> shown client snapid dn = None) as Hov by (intros E; unfold shown; by rewrite E, orb_true_r).
  intros E. apply bind_ok in E as ([s1 trimmed] & E1 & E).
  assert (s1 = s /\ trimmed = false \/ trimmed = true /\ overlaps snapid dn = false /\ calm k (rs_dir s) (rs_dir s1) /\
    rs_entries s1 = rs_entries s /\ rs_numfiles s1 = rs_numfiles s /\ rs_bytes s1 = rs_bytes s) as [[-> ->]|(-> & Ho & Q & Ee & En & Eb)].
  { pose proof trim_hidden as Ht. unfold trim_stale in E1. destruct snaps as [sn|]; [|injection E1 as <- <-; by left]. destruct (is_head dn) eqn:Eh; [injection E1 as <- <-; by left|].
    apply bind_ok in E1 as ([[d es] t] & E2 & E1). injection E1 as <- <-. destruct t.
    - right. destruct (Ht sn k dn _ d es Pl eq_refl Ek Eh E2) as [Ho Hd]. split; [done|]. split; [done|]. split; [|done].
      eapply calm_delete; [done|done|by apply Hov|done].
    - left. split; [|done]. pose proof E2 as E2'. unfold try_trim_snap_dentry in E2'. rewrite Ek, check_true in E2' by (by rewrite Eh).
      destruct (trimmable inodes sn dn); [|injection E2' as <- <-; destruct s; cbn; by rewrite app_nil_r].
      destruct (clean_inode inodes dn) as [[? ?] ?]. by apply bind_ok in E2' as ([? ?] & _ & [=]). }
  - destruct (overlaps snapid dn) eqn:Eo; cbn [negb] in E; [by eapply list_visited|]. injection E as <-. apply skip_visited; [done|]. by apply entry_none, Hov.
  - injection E as <-. cbn. rewrite entry_none by (by apply Hov). done.
Qed.

(** ** The loop *)

(** The entries of the dentries from the iterator on. *)
Definition left_of d (ks : list dentry_key_t) : list (cstring * Z) := omap (fun k => df_items d !! k ≫= entry_of) ks.

Lemma left_calm k d d' ks : k ∉ ks -> calm k d d' -> left_of d' ks = left_of d ks.
Proof.
  intros Hk Q. unfold left_of. induction ks as [|k' ks IH]; [done|]. apply not_elem_of_cons in Hk as [N Hk]. cbn. rewrite (cm_other _ _ _ Q) by done.
  by rewrite IH.
Qed.

(** What the loop did when it left. *)
Definition looped (max : Z) (ks : list dentry_key_t) s (e : option bool) s' : Prop :=
  visible client snapid (rs_dir s') = visible client snapid (rs_dir s) /\ plausible client (rs_dir s') /\
  exists now later, left_of (rs_dir s) ks = now ++ later /\ rs_entries s' = rs_entries s ++ now /\
    rs_numfiles s' = rs_numfiles s + Z.of_nat (length now) /\ (rs_numfiles s <= max -> rs_numfiles s' <= max) /\
    match e with
    | Some true => later = []
    | Some false => now = [] -> max <= rs_numfiles s \/ exists e l, later = e :: l /\ (rs_bytes s = 0 -> ~ fits e)
    | None => exists k dn, k ∈ ks /\ df_items (rs_dir s) !! k = Some dn /\ to_open client dn = true
    end.

Lemma opens_later k d d' ks : k ∉ ks -> calm k d d' ->
  (exists k' dn, k' ∈ ks /\ df_items d' !! k' = Some dn /\ to_open client dn = true) ->
  exists k' dn, k' ∈ k :: ks /\ df_items d !! k' = Some dn /\ to_open client dn = true.
Proof.
  intros Hk Q (k' & dn & Hin & E & Ht). exists k', dn. rewrite (cm_other _ _ _ Q) in E by (by intros ->). split; [by right|done].
Qed.

Lemma loop_looped max ks s e s' : NoDup ks -> plausible client (rs_dir s) -> 0 <= rs_numfiles s -> rs_numfiles s + Z.of_nat (length ks) < 2 ^ 32 ->
  readdir_loop inodes client snapid max bytes_left offset snaps ks s = Ok (e, s') -> looped max ks s e s'.
Proof.
  revert s. induction ks as [|k ks IH]; intros s Hn Pl H0' Hs; cbn [readdir_loop].
  { intros [= <- <-]. split; [done|]. split; [done|]. exists [], []. split_and!; [done|by rewrite app_nil_r|cbn; lia|lia|done]. }
  apply NoDup_cons in Hn as [Hk Hn]. destruct (Z.ltb_spec (rs_numfiles s) max) as [Hm|Hm]; cbn [negb].
  2: { intros [= <- <-]. split; [done|]. split; [done|]. exists [], (left_of (rs_dir s) (k :: ks)). split_and!; [done|by rewrite app_nil_r|cbn; lia|lia|by left]. }
  destruct (df_items (rs_dir s) !! k) as [dn|] eqn:Ek; [|done]. intros E. apply bind_ok in E as (r & Ev & E). apply visit_visited in Ev; [|done..].
  assert (left_of (rs_dir s) (k :: ks) = option_list (entry_of dn) ++ left_of (rs_dir s) ks) as El.
  { unfold left_of. cbn. rewrite Ek. cbn. by destruct (entry_of dn). }
  unfold looped. rewrite El. destruct r as [s1|s1|s1]; cbn in Ev; destruct Ev as [Q Ev].
  - pose proof (left_calm k _ _ ks Hk Q) as Hl. cbn [length] in Hs. rewrite <- (cm_visible _ _ _ Q), <- Hl. destruct (entry_of dn) as [x|]; cbn [option_list app].
    + destruct Ev as [Ee En]. unfold u32, wrap_u in En. rewrite Z.mod_small in En by lia.
      destruct (IH s1 Hn (cm_plausible _ _ _ Q)) as (V & P & now & later & E1 & E2 & E3 & E4 & E5); [lia|lia|done|]. split; [done|]. split; [done|].
      exists (x :: now), later. rewrite E1, E2, Ee, <- app_assoc. split_and!; [done|done|cbn [length]; lia|intros _; apply E4; lia|].
      destruct e as [[]|]; [done|done|]. by apply (opens_later k (rs_dir s) (rs_dir s1)).
    + destruct Ev as (Ee & En & Eb). destruct (IH s1 Hn (cm_plausible _ _ _ Q)) as (V & P & now & later & E1 & E2 & E3 & E4 & E5); [lia|lia|done|].
      split; [done|]. split; [done|]. exists now, later. rewrite E1, E2, Ee. split_and!; [done|done|lia|lia|].
      destruct e as [[]|]; [done| |by apply (opens_later k (rs_dir s) (rs_dir s1))]. by rewrite <- En, <- Eb.
  - injection E as <- <-. destruct Ev as (Ee & En & x & Ex & Hf). rewrite Ex. split; [apply Q|]. split; [apply Q|].
    exists [], (x :: left_of (rs_dir s) ks). rewrite app_nil_r, Ee. split_and!; [done|done|cbn; lia|lia|]. intros _. right. by eexists _, _.
  - injection E as <- <-. destruct Ev as (Ee & En & _ & Ht). split; [apply Q|]. split; [apply Q|].
    exists [], (option_list (entry_of dn) ++ left_of (rs_dir s) ks). rewrite app_nil_r, Ee. split_and!; [done|done|cbn; lia|lia|].
    exists k, dn. split; [by left|done].
Qed.

(** Without stale snapshots to purge, nothing can fail. *)
Lemma loop_total max ks s : snaps = None -> NoDup ks -> plausible client (rs_dir s) -> (forall k, k ∈ ks -> is_Some (df_items (rs_dir s) !! k)) ->
  exists r, readdir_loop inodes client snapid max bytes_left offset snaps ks s = Ok r.
Proof.
  intros Es. revert s. induction ks as [|k ks IH]; intros s Hn Pl Hk; cbn [readdir_loop]; [by eexists|]. destruct (negb _); [by eexists|].
  apply NoDup_cons in Hn as [Nk Hn]. destruct (Hk k) as [dn Ek]; [by left|]. rewrite Ek.
  assert (exists r, visit inodes client snapid bytes_left offset snaps k dn s = Ok r) as [r Ev].
  { unfold visit, trim_stale. rewrite Es. destruct (dn_purging dn); [by eexists|]. destruct (client_linkage client dn) as [|i|i t [j|]] eqn:El; cbn; [by eexists|..].
    all: destruct (negb (overlaps snapid dn)); [by eexists|]; unfold list_dentry; destruct (before_offset offset dn); [by eexists|].
    1-2: destruct (_ =? _); by eexists.
    destruct (cached i); [by eexists|]. destruct (dn_bad_remote dn); [by eexists|]. destruct (0 <? _); by eexists. }
  rewrite Ev. cbn [mbind res_bind]. apply visit_visited in Ev; [|done..]. destruct r as [s1|s1|s1]; [|by eexists..]. destruct Ev as [Q _].
  apply IH; [done|apply Q|]. intros k' Hin. rewrite (cm_other _ _ _ Q) by (by intros ->). apply Hk. by right.
Qed.

End Page.

(** ** The page *)

Lemma left_listing client snapid offset d : left_of client snapid offset d (item_keys d) = listing client snapid offset d.
Proof.
  unfold listing, visible, item_keys. rewrite ordered_omap. assert (forall p, p ∈ ordered (df_items d) -> df_items d !! fst p = Some (snd p)) as Hl.
  { intros [k dn] Hin. by apply elem_of_ordered. }
  revert Hl. generalize (ordered (df_items d)). intros l. induction l as [|[k dn] l IH]; intros Hl; [done|]. unfold left_of in *. cbn.
  pose proof (Hl (k, dn) (list_elem_of_here _ _)) as Ek. cbn in Ek. rewrite Ek. cbn. unfold entry_of at 1. rewrite IH by (intros; apply Hl; by right).
  destruct (shown client snapid dn) as [e|]; cbn; [|done]. by destruct (decide (after offset e)).
Qed.

(** The entry fits into a page of this request that has nothing else. *)
Definition fits_alone (max_bytes : Z) (rl : realm_info) (e : cstring * Z) : Prop := fits (bytes_available max_bytes rl) e.

Lemma page_next `{!ReaddirLaws} client snapid max_entries max_bytes offset rl x p x' es :
  plausible client (rd_dir x) -> Z.of_nat (size (df_items (rd_dir x))) < 2 ^ 32 ->
  readdir_page inodes client snapid max_entries max_bytes offset rl x = Ok (p, x', es) ->
  visible client snapid (rd_dir x') = visible client snapid (rd_dir x) /\ plausible client (rd_dir x') /\
  match p with
  | Some p => exists later, listing client snapid offset (rd_dir x) = pg_entries p ++ later /\
      (pg_end p = true -> later = []) /\ pg_complete p = pg_end p && bool_decide (offset = []) /\
      (0 < max_entries -> Z.of_nat (length (pg_entries p)) <= max_entries) /\
      (pg_end p = false -> 0 < max_entries \/ max_entries = 0 /\ 0 < get_num_any (rd_dir x) ->
        (forall e, e ∈ listing client snapid offset (rd_dir x) -> fits_alone max_bytes rl e) -> pg_entries p <> [])
  | None => exists k dn, df_items (rd_dir x) !! k = Some dn /\ to_open client dn = true
  end.
Proof.
  intros Pl Hs. unfold readdir_page. set (purge := rd_purged_thru x <? rl_last_destroyed rl). set (snaps := if purge then Some (rl_snaps rl) else None).
  intros E. apply bind_ok in E as (? & Hc & E). apply assert_ok in Hc. apply bind_ok in E as ([e s] & El & E).
  assert (rd_dir (if purge then mk_rdir (rd_dir x) (rl_last_destroyed rl) else x) = rd_dir x) as Ed by (by destruct purge). rewrite !Ed in El.
  assert (forall sn, snaps = Some sn -> snapid = CEPH_NOSNAP \/ snapid ∈ sn) as Hsnap.
  { intros sn. unfold snaps. destruct purge; [|done]. intros [= <-]. cbn [negb orb] in Hc. apply orb_true_iff in Hc as [Hc|Hc]; [left; by apply Z.eqb_eq|right; by apply bool_decide_eq_true in Hc]. }
  assert (length (item_keys (rd_dir x)) = size (df_items (rd_dir x))) as Elen.
  { unfold item_keys. rewrite length_fmap, ordered_perm. apply length_map_to_list. }
  apply loop_looped in El as (V & P & now & later & E1 & E2 & E3 & E4 & E5); [|done|apply ordered_nodup|done|cbn; lia|cbn; lia].
  cbn in V, E1, E2, E3, E4, E5. rewrite left_listing in E1. destruct e as [e|]; injection E as <- <- _; cbn; (split; [done|]); (split; [done|]).
  2: { destruct E5 as (k & dn & _ & ? & ?). by exists k, dn. }
  exists later. rewrite E2. split; [done|]. split; [by intros ->|]. split; [done|]. split.
  - intros Hm. destruct (Z.eqb_spec max_entries 0); lia.
  - intros -> Hm Hf Hn. destruct (E5 Hn) as [Hle|(en & l & -> & Nf)].
    + destruct Hm as [?|[-> ?]]; [destruct (Z.eqb_spec max_entries 0); lia|cbn in Hle; lia].
    + apply Nf; [done|]. apply Hf. rewrite E1, Hn. by left.
Qed.

(** ** The handler *)

(** The offset that is used: a fragment that is not one is replaced, and read from its start. *)
Definition used_offset {F} `{EqDecision F} (req : readdir_req F) (env : rd_env F) : cstring :=
  if decide (re_leaf env (rq_frag req) = rq_frag req) then rq_offset req else [].

Lemma frag_next `{!ReaddirLaws} {F} (req : readdir_req F) (env : rd_env F) fg0 offset x r x' es :
  plausible (rq_client req) (rd_dir x) -> Z.of_nat (size (df_items (rd_dir x))) < 2 ^ 32 ->
  readdir_frag inodes req env fg0 offset x = Ok (r, x', es) ->
  visible (rq_client req) (rq_snapid req) (rd_dir x') = visible (rq_client req) (rq_snapid req) (rd_dir x) /\
  forall fg p, r = RdReply fg p -> fg = fg0 /\
    exists later, listing (rq_client req) (rq_snapid req) offset (rd_dir x) = pg_entries p ++ later /\ (pg_end p = true -> later = []) /\
      (0 < rq_max_entries req -> Z.of_nat (length (pg_entries p)) <= rq_max_entries req) /\
      (pg_end p = false -> 0 < rq_max_entries req \/ rq_max_entries req = 0 /\ 0 < get_num_any (rd_dir x) ->
        (forall e, e ∈ listing (rq_client req) (rq_snapid req) offset (rd_dir x) -> fits_alone (rq_max_bytes req) (re_realm env) e) -> pg_entries p <> []).
Proof.
  intros Pl Hs E. apply bind_ok in E as (o & _ & E). destruct o; [by injection E as <- <- _..|]. destruct (negb _).
  { destruct (re_frozen env); by injection E as <- <- _. }
  apply bind_ok in E as ([[p x1] es1] & Ep & E). apply page_next in Ep as (V & P & Hp); [|done..]. injection E as <- <- _. split; [done|].
  intros fg p' Er. destruct p as [p|]; [|done]. injection Er as <- <-. split; [done|]. destruct Hp as (later & ? & ? & _ & ? & ?). by exists later.
Qed.

Lemma frag_total `{!ReaddirLaws} {F} (req : readdir_req F) (env : rd_env F) fg offset x : plausible (rq_client req) (rd_dir x) ->
  rl_last_destroyed (re_realm env) <= rd_purged_thru x -> re_open env fg <> Abort -> exists o, readdir_frag inodes req env fg offset x = Ok o.
Proof.
  intros Pl Hp Ho. unfold readdir_frag. destruct (re_open env fg) as [o|]; [|done]. cbn [mbind res_bind]. destruct o; [by eexists..|].
  destruct (negb _); [destruct (re_frozen env); by eexists|]. unfold readdir_page. destruct (Z.ltb_spec (rd_purged_thru x) (rl_last_destroyed (re_realm env))); [lia|].
  cbn [negb orb]. rewrite check_true by done. match goal with |- context [readdir_loop inodes ?c ?sn ?m ?b ?o ?sp ?ks ?s] => destruct (loop_total c sn b o sp ltac:(done) m ks s) as [[e s'] E] end.
  - done.
  - apply ordered_nodup.
  - done.
  - intros k Hk. cbn. by apply elem_of_ordered_keys in Hk.
  - rewrite E. cbn [mbind res_bind]. destruct e; by eexists.
Qed.

(** C22: A reply to a listing is the next of what the client may see.  Whatever the handler does,
    what the client may see of the fragment stays the same: dentries that are trimmed are not
    visible.  The entries of a reply are a prefix, in order, of the visible entries after the
    offset, and all of them if it says that it is the end; they are no more than asked for, and a
    reply that is not the end has an entry if every entry fits into a page of its own.  Without
    stale snapshots to purge the handler always returns. *)
Theorem readdir_shows_next `{!ReaddirLaws} {F} `{EqDecision F} (req : readdir_req F) (env : rd_env F) x :
  plausible (rq_client req) (rd_dir x) -> Z.of_nat (size (df_items (rd_dir x))) < 2 ^ 32 ->
  (forall r x' es, handle_client_readdir inodes req env x = Ok (r, x', es) ->
    visible (rq_client req) (rq_snapid req) (rd_dir x') = visible (rq_client req) (rq_snapid req) (rd_dir x) /\
    forall fg p, r = RdReply fg p ->
      fg = re_leaf env (rq_frag req) /\
      exists later, listing (rq_client req) (rq_snapid req) (used_offset req env) (rd_dir x) = pg_entries p ++ later /\
        (pg_end p = true -> later = []) /\
        (0 < rq_max_entries req -> Z.of_nat (length (pg_entries p)) <= rq_max_entries req) /\
        (pg_end p = false -> 0 < rq_max_entries req \/ rq_max_entries req = 0 /\ 0 < get_num_any (rd_dir x) ->
          (forall e, e ∈ listing (rq_client req) (rq_snapid req) (used_offset req env) (rd_dir x) -> fits_alone (rq_max_bytes req) (re_realm env) e) ->
          pg_entries p <> [])) /\
  (rl_last_destroyed (re_realm env) <= rd_purged_thru x -> re_open env (re_leaf env (rq_frag req)) <> Abort ->
    exists o, handle_client_readdir inodes req env x = Ok o).
Proof.
  intros Pl Hs. split.
  - intros r x' es. unfold handle_client_readdir, used_offset. destruct (re_diri env) as [[]|]; [|by intros [= <- <- _]..].
    destruct (negb (re_locks env)); [by intros [= <- <- _]|]. destruct (decide _) as [El|Nl]; [rewrite El|]; by apply frag_next.
  - intros Hp Ho. unfold handle_client_readdir. destruct (re_diri env) as [[]|]; [|by eexists..]. destruct (negb (re_locks env)); [by eexists|].
    destruct (decide _) as [El|Nl]; [rewrite El in Ho|]; by apply frag_total.
Qed.

End ReaddirSpec.

(** ** A listing *)

Section Witness.
#[local] Existing Instance ceph_ex.
#[local] Existing Instance ops_ex.

Definition readdir_ops_ex : ReaddirOps Z := {|
  CEPH_INO_CEPH := 2;
  dn_purging := fun _ => false;
  dn_bad_remote := fun _ => false;
  client_linkage := fun _ dn => dn_linkage dn;
  link_remote := fun _ ino dn => match dn_linkage dn with LRemote i t None => set_linkage (LRemote i t (Some ino)) dn | _ => dn end;
  issue_lease := fun client dn => mk_dentry (dn_obj dn) (dn_name dn) (dn_first dn) (dn_last dn) (dn_version dn) (dn_linkage dn) (dn_projected dn)
    (dn_new dn) ({[client]} ∪ dn_leases dn);
  cached := fun _ => true;
  name_bytes := fun n => Z.of_nat (length n) + 4;
  lease_bytes := 14;
  sizeof_LeaseStat := 14;
  inodestat := fun _ room => if room <? 100 then None else Some 100
|}.
#[local] Existing Instance readdir_ops_ex.

#[local] Instance readdir_laws_ex : ReaddirLaws.
Proof. split; [|done]. intros client ino dn t. cbn. by intros ->. Qed.

Definition linked_ex (name : cstring) (first last : Z) (l : linkage_t) : dentry Z := mk_dentry cobj_new name first last 1 l false false ∅.
Definition dir_of_ex (l : list (dentry Z)) : dirfrag Z :=
  mk_dfrag (state_set STATE_COMPLETE cobj_new) (list_to_map (map (fun dn => (dn_key dn, dn)) l)) (Z.of_nat (length l)) 0 0 0 1 ∅.

(** A file, a remote link to be linked, an old version of it and a null dentry. *)
Definition listed_ex : dirfrag Z := dir_of_ex
  [linked_ex name_a 2 CEPH_NOSNAP (LPrimary 1001); linked_ex name_b 2 4 (LPrimary 1002); linked_ex name_b 5 CEPH_NOSNAP (LRemote 1003 4 None);
   linked_ex ["c"%char] 2 CEPH_NOSNAP LNull].
Definition rdir_ex : rdir := mk_rdir listed_ex 7.
Definition env_ex : rd_env Z := mk_env (Some true) true (fun f => f) (fun _ => Ok Opened) false (mk_realm 7 ∅ 12 24).
Definition req_ex : readdir_req Z := mk_rreq 4 CEPH_NOSNAP 0 name_a 10 0.

Lemma plausible_ex : plausible 4 listed_ex.
Proof.
  split.
  - assert (map_Forall (fun _ dn => dn_last dn <= CEPH_NOSNAP) (df_items listed_ex)) as Hm by by_decide. exact Hm.
  - assert (map_Forall (fun _ dn => match dn_linkage dn with LRemote i _ None => i =? CEPH_INO_CEPH | _ => false end = false) (df_items listed_ex)) as Hm by by_decide.
    intros k dn t Hk E. specialize (Hm k dn Hk). cbn in E, Hm. by rewrite E in Hm.
Qed.

(** After the first name there is the second one, in its version of the head. *)
Lemma readdir_shows_next_witness : exists o, handle_client_readdir (fun _ => inode_ex) req_ex env_ex rdir_ex = Ok o.
Proof. apply (readdir_shows_next (fun _ => inode_ex) req_ex env_ex rdir_ex plausible_ex); [vm_compute; reflexivity|done|done]. Defined.

(** The reply has the entry, and it is the end. *)
Example readdir_ex : exists x es, handle_client_readdir (fun _ => inode_ex) req_ex env_ex rdir_ex = Ok (RdReply 0 (mk_page [(name_b, 1003)] true false), x, es).
Proof. eexists _, _. vm_compute. reflexivity. Qed.

End Witness.
