(* ===== verification/ClientReaddir.v ===== *)
(** * Listing a directory from the client (Client.cc)

    [readdir_r_cb] and what it calls: a directory is read fragment by fragment and page by page
    from the server, each page goes to the cache of dentries and to the buffer of the open
    directory, and its entries are handed to a callback, which may stop the listing or refuse an
    entry.  A directory that is complete and in order in the cache is read from there.

    [dir_result_t] and [frag_t] are not in the repository: their methods are the class [FposOps].
    The server is a function that answers requests.  The references on inodes, their attributes
    and leases are left out. *)

From Stdlib Require Import ZArith Lia Ascii.
From stdpp Require Import base tactics numbers list gmap.
From S2P Require Import Prelude Keys.
Open Scope Z_scope.
Open Scope list_scope.

Definition EAGAIN : Z := 11.

(** An offset is a fragment and a position in it, packed into 64 bits. *)
Class FposOps (F : Type) := {
  make_fpos : F -> Z -> Z;
  fpos_frag : Z -> F;
  fpos_off : Z -> Z;
  FPOS_END : Z;
  fpos_next_frag : Z -> Z;            (* next_frag(), on the offset *)
  is_leftmost : F -> bool;
  is_rightmost : F -> bool
}.

Abbreviation entry := (cstring * Z)%type.

(** A reply to a readdir. *)
Record reply (F : Type) := mk_reply { rp_frag : F; rp_entries : list entry; rp_end : bool }.
Arguments mk_reply {F}.
Arguments rp_frag {F}.
Arguments rp_entries {F}.
Arguments rp_end {F}.

(** ** The cache of a directory *)

Record cdentry := mk_cdn { cn_inode : option Z; cn_offset : Z; cn_shared_gen : Z }.
Record cache_dir := mk_cdir {
  dentries : gmap cstring cdentry;
  dentry_list : list cstring;         (* in the order of the list *)
  release_count : Z;
  ordered_count : Z
}.
Definition empty_dir : cache_dir := mk_cdir ∅ [] 0 0.

(** What the code reads of the inode of the directory. *)
Record dir_inode := mk_dinode {
  di_ino : Z;
  di_parent : option Z;               (* of the first of dn_set *)
  di_dir : option cache_dir;
  di_shared_gen : Z;
  di_complete : bool;                 (* I_COMPLETE *)
  di_ordered : bool;                  (* I_DIR_ORDERED *)
  di_shared_cap : bool;               (* caps_issued_mask(CEPH_CAP_FILE_SHARED) *)
  di_snapdir : bool                   (* snapid == CEPH_SNAPDIR *)
}.
Definition set_dir (d : option cache_dir) (i : dir_inode) : dir_inode :=
  mk_dinode (di_ino i) (di_parent i) d (di_shared_gen i) (di_complete i) (di_ordered i) (di_shared_cap i) (di_snapdir i).
Definition set_flags (complete ordered : bool) (i : dir_inode) : dir_inode :=
  mk_dinode (di_ino i) (di_parent i) (di_dir i) (di_shared_gen i) (di_complete i || complete) (di_ordered i || ordered)
    (di_shared_cap i) (di_snapdir i).

(** [dir_result_t] *)
Record dirp (F : Type) := mk_dirp {
  dr_offset : Z;
  dr_next_offset : Z;
  dr_this_offset : Z;
  dr_last_name : cstring;
  dr_at_cache_name : cstring;
  dr_buffer_frag : F;
  dr_buffer : option (list entry);
  dr_start_shared_gen : Z;
  dr_release_count : Z;
  dr_ordered_count : Z
}.
Arguments mk_dirp {F}.
Arguments dr_offset {F}.
Arguments dr_next_offset {F}.
Arguments dr_this_offset {F}.
Arguments dr_last_name {F}.
Arguments dr_at_cache_name {F}.
Arguments dr_buffer_frag {F}.
Arguments dr_buffer {F}.
Arguments dr_start_shared_gen {F}.
Arguments dr_release_count {F}.
Arguments dr_ordered_count {F}.

Section Client.
Context {F W : Type} `{EqDecision F} `{FposOps F}.
Context (is_dir : Z -> bool).                         (* of an inode *)
Context (leaf : F -> F).                              (* dirfragtree[fg.value()] of the client *)
Context (make_request : W -> F -> cstring -> W * (Z + reply F)).
Context (cb : nat -> Z).                              (* what the callback returns when it is called for the n-th time *)
Context (CEPH_INO_DOTDOT : Z).

Implicit Types d : dirp F.

Definition set_offset (x : Z) d : dirp F :=
  mk_dirp x (dr_next_offset d) (dr_this_offset d) (dr_last_name d) (dr_at_cache_name d) (dr_buffer_frag d) (dr_buffer d)
    (dr_start_shared_gen d) (dr_release_count d) (dr_ordered_count d).
Definition set_buffer (x : option (list entry)) d : dirp F :=
  mk_dirp (dr_offset d) (dr_next_offset d) (dr_this_offset d) (dr_last_name d) (dr_at_cache_name d) (dr_buffer_frag d) x
    (dr_start_shared_gen d) (dr_release_count d) (dr_ordered_count d).
Definition set_names (last at_cache : cstring) d : dirp F :=
  mk_dirp (dr_offset d) (dr_next_offset d) (dr_this_offset d) last at_cache (dr_buffer_frag d) (dr_buffer d)
    (dr_start_shared_gen d) (dr_release_count d) (dr_ordered_count d).
Definition set_next_offset (x : Z) d : dirp F :=
  mk_dirp (dr_offset d) x (dr_this_offset d) (dr_last_name d) (dr_at_cache_name d) (dr_buffer_frag d) (dr_buffer d)
    (dr_start_shared_gen d) (dr_release_count d) (dr_ordered_count d).
Definition set_this (fg : F) (x : Z) d : dirp F :=
  mk_dirp (dr_offset d) (dr_next_offset d) x (dr_last_name d) (dr_at_cache_name d) fg (dr_buffer d)
    (dr_start_shared_gen d) (dr_release_count d) (dr_ordered_count d).

Definition frag d : F := fpos_frag (dr_offset d).
Definition fragpos d : Z := fpos_off (dr_offset d).
Definition at_end d : bool := dr_offset d =? FPOS_END.
Definition set_end d : dirp F := set_offset FPOS_END d.

Definition _readdir_rechoose_frag d : dirp F :=
  let f := leaf (frag d) in
  if decide (f = frag d) then d else set_offset (make_fpos f 0) d.
Definition _readdir_next_frag d : dirp F :=
  let d := set_offset (fpos_next_frag (dr_offset d)) d in
  if at_end d then d else _readdir_rechoose_frag d.
Definition _readdir_drop_dirp_buffer d : dirp F := set_buffer None d.

(** *** Replies go to the cache *)

Definition move_to_back (name : cstring) (l : list cstring) : list cstring := filter (fun x => x <> name) l ++ [name].

(** the other dentry of a directory that gets a new parent loses its inode *)
Definition unlink_parent (name : cstring) (ino : Z) (m : gmap cstring cdentry) : gmap cstring cdentry :=
  if is_dir ino then
    map_imap (fun n dn => Some (if bool_decide (n <> name /\ cn_inode dn = Some ino) then mk_cdn None (cn_offset dn) (cn_shared_gen dn) else dn)) m
  else m.

(** one dentry of a reply, at its offset *)
Definition insert_entry (shared_gen offset : Z) (e : entry) (c : cache_dir) : cache_dir :=
  let '(dname, ino) := e in
  let '(m, l) :=
    match dentries c !! dname with
    | Some dn =>
        (if bool_decide (cn_inode dn = Some ino) then dentries c else unlink_parent dname ino (dentries c),
         move_to_back dname (dentry_list c))
    | None => (unlink_parent dname ino (dentries c), dentry_list c ++ [dname])
    end in
  mk_cdir (<[dname := mk_cdn (Some ino) offset shared_gen]> m) l (release_count c) (ordered_count c).

Fixpoint insert_entries (shared_gen : Z) (fg : F) (offset : Z) (l : list entry) (c : cache_dir) : cache_dir :=
  match l with
  | [] => c
  | e :: l => insert_entries shared_gen fg (offset + 1) l (insert_entry shared_gen (make_fpos fg offset) e c)
  end.

(** The request remembers the fragment, the offset and the start. *)
Record results := mk_results {
  rr_inode : dir_inode;
  rr_frag : F;
  rr_end : bool;
  rr_num : Z;
  rr_result : list entry;
  rr_last_name : cstring
}.

Definition insert_readdir_results (req_frag : F) (req_offset : Z) (r : reply F) (diri : dir_inode) : results :=
  let c := default empty_dir (di_dir diri) in
  let '(fg, offset) :=
    if decide (req_frag = rp_frag r) then (req_frag, req_offset)
    else (rp_frag r, if is_leftmost (rp_frag r) then 2 else 0) in
  let c := insert_entries (di_shared_gen diri) fg offset (rp_entries r) c in
  mk_results (set_dir (if bool_decide (dentries c = ∅) then None else Some c) diri) fg (rp_end r)
    (Z.of_nat (length (rp_entries r))) (rp_entries r) (default [] (last (map fst (rp_entries r)))).

(** *** Asking for the next page *)

(** after a reply *)
Definition got_page (fg0 : F) (rr : results) d : dirp F :=
  let d := set_buffer (Some (rr_result rr)) (_readdir_drop_dirp_buffer d) in
  let fg := rr_frag rr in
  let d :=
    if decide (fg0 = fg) then d
    else
      let next := if is_leftmost fg then 2 else 0 in
      set_offset (make_fpos fg next) (set_next_offset next d) in
  let d := set_this fg (dr_next_offset d) d in
  if rr_end rr then set_next_offset (if is_rightmost fg then 2 else 0) (set_names [] (dr_at_cache_name d) d)
  else set_next_offset (dr_next_offset d + rr_num rr) (set_names (rr_last_name rr) (dr_at_cache_name d) d).

(** [n] bounds the retries *)
Fixpoint _readdir_get_frag (n : nat) (w : W) (diri : dir_inode) d : option (Z * W * dir_inode * dirp F) :=
  match n with
  | O => None
  | S n =>
      let fg := frag d in
      let '(w, r) := make_request w fg (dr_last_name d) in
      match r with
      | inl res =>
          if res =? - EAGAIN then _readdir_get_frag n w diri (_readdir_rechoose_frag d)
          else Some (res, w, diri, set_end d)
      | inr r =>
          let rr := insert_readdir_results fg (dr_next_offset d) r diri in
          Some (0, w, rr_inode rr, got_page fg rr d)
      end
  end.

(** *** Handing out entries *)

(** A call of the callback: the entry, the next offset, and what it returned. *)
Record call := mk_call { ca_entry : entry; ca_next : Z; ca_ret : Z }.
Definition call_cb (e : entry) (next_off : Z) (log : list call) : Z * list call :=
  let r := cb (length log) in (r, log ++ [mk_call e next_off r]).

(** the inner loop over the rest of the buffer: what the callback returned, or 0 when it is empty *)
Fixpoint deliver (l : list entry) (log : list call) d : Z * list call * dirp F :=
  match l with
  | [] => (0, log, d)
  | e :: l =>
      let '(r, log) := call_cb e (dr_offset d + 1) log in
      if r <? 0 then (r, log, d)
      else
        let d := set_offset (dr_offset d + 1) d in
        if 0 <? r then (r, log, d) else deliver l log d
  end.

(** what is in the buffer from [off] on *)
Definition buffered (off : Z) d : list entry :=
  if dr_this_offset d <=? off then drop (Z.to_nat (off - dr_this_offset d)) (default [] (dr_buffer d)) else [].

(** the flags of the directory at the end *)
Definition mark_dir_complete (diri : dir_inode) d : dir_inode :=
  match di_dir diri with
  | Some c =>
      if (di_shared_gen diri =? dr_start_shared_gen d) && (release_count c =? dr_release_count d) then
        set_flags true (ordered_count c =? dr_ordered_count d) diri
      else diri
  | None => diri
  end.

Record cstate := mk_cst { cs_world : W; cs_inode : dir_inode; cs_dirp : dirp F; cs_log : list call }.

(** the loop from the test of the end on, with [fg] and [off]; [n] bounds the rounds and [tries] the retries *)
Fixpoint readdir_rounds (tries n : nat) (fg : F) (off : Z) (s : cstate) : option (Z * cstate) :=
  match n with
  | O => None
  | S n =>
      let d := cs_dirp s in
      if at_end d then Some (0, s)
      else
        got ← (if decide (dr_buffer_frag d = frag d /\ dr_buffer d <> None) then Some (inr (cs_world s, cs_inode s, d, fg, off))
               else
                 '(r, w, i, d) ← _readdir_get_frag tries (cs_world s) (cs_inode s) d;
                 Some (if r =? 0 then inr (w, i, d, dr_buffer_frag d, fragpos d) else inl (r, mk_cst w i d (cs_log s))));
        match got with
        | inl out => Some out
        | inr (w, i, d, fg, off) =>
            let d := set_offset (make_fpos fg off) d in
            let rest := buffered off d in
            let '(r, log, d) := deliver rest (cs_log s) d in
            if negb (r =? 0) then Some (r, mk_cst w i d log)
            else if negb (bool_decide (dr_last_name d = [])) then
              readdir_rounds tries n fg (off + Z.of_nat (length rest)) (mk_cst w i (_readdir_drop_dirp_buffer d) log)
            else if negb (is_rightmost fg) then
              let d := _readdir_next_frag d in
              readdir_rounds tries n (frag d) 0 (mk_cst w i d log)
            else Some (0, mk_cst w (mark_dir_complete i d) (set_end d) log)
        end
  end.

(** *** From the cache *)

(** the loop over the list from a position on *)
Fixpoint cache_loop (c : cache_dir) (shared_gen : Z) (l : list cstring) (prev : cstring) (log : list call) d : Z * list call * dirp F :=
  match l with
  | [] => (0, log, set_end d)
  | name :: l =>
      match dentries c !! name with
      | Some (mk_cdn (Some ino) offset gen) =>
          if negb (gen =? shared_gen) then cache_loop c shared_gen l prev log d
          else
            let next_off := match l with [] => FPOS_END | _ => offset + 1 end in
            let '(r, log) := call_cb (name, ino) next_off log in
            if r <? 0 then (r, log, set_names (dr_last_name d) prev (set_next_offset offset d))
            else
              let d := set_offset next_off d in
              if 0 <? r then (r, log, d) else cache_loop c shared_gen l name log d
      | _ => cache_loop c shared_gen l prev log d
      end
  end.

(** the part of the list after a name *)
Fixpoint after_name (name : cstring) (l : list cstring) : list cstring :=
  match l with
  | [] => []
  | x :: l => if decide (x = name) then l else after_name name l
  end.

Definition _readdir_cache_cb (diri : dir_inode) (log : list call) d : Z * list call * dirp F :=
  match di_dir diri with
  | None => (0, log, set_end d)
  | Some c =>
      match dr_at_cache_name d with
      | [] => cache_loop c (di_shared_gen diri) (dentry_list c) [] log d
      | name =>
          match dentries c !! name with
          | None => (- EAGAIN, log, d)
          | Some _ => cache_loop c (di_shared_gen diri) (after_name name (dentry_list c)) [] log d
          end
      end
  end.

Definition name_dot : cstring := ["."%char].
Definition name_dotdot : cstring := ["."%char; "."%char].

(** [.] and [..]: nothing, or the result of the callback when it stops *)
Definition list_dots (i : dir_inode) (log : list call) d : option Z * list call * dirp F :=
  let '(r, log, d) :=
    if dr_offset d =? 0 then
      let '(r, log) := call_cb (name_dot, di_ino i) 1 log in
      if r <? 0 then (Some r, log, d)
      else (if 0 <? r then Some r else None, log, set_offset 1 d)
    else (None, log, d) in
  match r with
  | Some r => (Some r, log, d)
  | None =>
      if dr_offset d =? 1 then
        let '(r, log) := call_cb (name_dotdot, default CEPH_INO_DOTDOT (di_parent i)) 2 log in
        if r <? 0 then (Some r, log, d)
        else (if 0 <? r then Some r else None, log, set_offset 2 d)
      else (None, log, d)
  end.

Definition is_complete_and_ordered (i : dir_inode) : bool := di_complete i && di_ordered i.

Definition readdir_r_cb (tries n : nat) (s : cstate) : option (Z * cstate) :=
  let d := cs_dirp s in
  let fg := frag d in
  if at_end d then Some (0, s)
  else
    let '(r, log, d') := list_dots (cs_inode s) (cs_log s) d in
    let off := if dr_offset d' =? dr_offset d then fragpos d else dr_offset d' in
    let d := d' in
    match r with
    | Some r => Some (r, mk_cst (cs_world s) (cs_inode s) d log)
    | None =>
        let i := cs_inode s in
        let '(r, log, d) :=
          if ((dr_offset d =? 2) || negb (bool_decide (dr_at_cache_name d = []))) && negb (di_snapdir i) && is_complete_and_ordered i && di_shared_cap i
          then _readdir_cache_cb i log d else (- EAGAIN, log, d) in
        if negb (r =? - EAGAIN) then Some (r, mk_cst (cs_world s) i d log)
        else
          let d := if bool_decide (dr_at_cache_name d = []) then d else set_names (dr_at_cache_name d) [] d in
          readdir_rounds tries n fg off (mk_cst (cs_world s) i d log)
    end.

End Client.
