(* ===== verification/ClientListing.v ===== *)
(** * The client lists what the server shows

    The interface between the two sides of a listing, [PageServer]: what a reply to a request for a
    page promises.  Against it: whatever the callback accepts, refuses or stops at, the calls of
    [readdir_r_cb] hand out each entry of the directory once, in order.  Then the handler of file
    Readdir keeps the promise, so that a client sees the visible dentries of all fragments. *)

From Stdlib Require Import ZArith Lia Ascii Sorted.
From stdpp Require Import base tactics numbers list gmap sorting.
From S2P Require Import Prelude Keys CacheObject Dentries Commit Readdir ReaddirSpec ClientReaddir.
Open Scope Z_scope.
Open Scope list_scope.

(** ** The interface *)

(** Positions below the limit are packed with their fragment and unpacked. *)
Class FposLaws (F : Type) `{FposOps F} (limit : Z) : Prop := {
  fl_frag : forall f n, 0 <= n < limit -> fpos_frag (make_fpos f n) = f;
  fl_off : forall f n, 0 <= n < limit -> fpos_off (make_fpos f n) = n;
  fl_succ : forall f n, 0 <= n -> n + 1 < limit -> make_fpos f n + 1 = make_fpos f (n + 1);
  fl_end : forall f n, 0 <= n < limit -> make_fpos f n <> FPOS_END;
  fl_zero : make_fpos (fpos_frag 0) 0 = 0;
  fl_limit : 3 < limit
}.

(** The fragments of the directory from left to right; [leaf] finds the one that holds the start of
    a fragment. *)
Record tree_ok {F} `{FposOps F} (leaf : F -> F) (leaves : list F) (limit : Z) : Prop := {
  tr_leaf : forall f, f ∈ leaves -> leaf f = f;
  tr_first : exists f l, leaves = f :: l /\ leaf (fpos_frag 0) = f /\ is_leftmost f = true;
  tr_nodup : NoDup leaves;
  tr_next : forall l1 f g l2 n, leaves = l1 ++ f :: g :: l2 -> 0 <= n < limit ->
    is_rightmost f = false /\ exists h, fpos_next_frag (make_fpos f n) = make_fpos h 0 /\ leaf h = g;
  tr_last : forall l1 f, leaves = l1 ++ [f] -> is_rightmost f = true
}.

(** What a server promises: [content] is what a client may see of a fragment.  A request for a
    fragment that is not one is for the one that holds its start, from its beginning; the reply is
    the next entries after the name, all of them at the end, and not empty before it. *)
Class PageServer {F W : Type} `{EqDecision F} (leaf : F -> F) (leaves : list F) (limit : Z)
    (make_request : W -> F -> cstring -> W * (Z + reply F)) (content : W -> F -> list entry) : Prop := {
  ps_page : forall w f off, leaf f ∈ leaves -> exists w' p, make_request w f off = (w', inr p) /\ rp_frag p = leaf f /\
    (forall g, content w' g = content w g) /\
    exists later, filter (after (if decide (leaf f = f) then off else [])) (content w (leaf f)) = rp_entries p ++ later /\
      (rp_end p = true -> later = []) /\ (rp_end p = false -> rp_entries p <> []);
  ps_sorted : forall w f, StronglySorted (fun a b => strcmp (fst a) (fst b) = Lt) (content w f);
  ps_names : forall w f e, e ∈ content w f -> fst e <> [];
  ps_small : forall w f, Z.of_nat (length (content w f)) + 3 < limit
}.

Section Client.
Context {F W : Type} `{EqDecision F} `{FposOps F} (limit : Z) `{!FposLaws F limit}.
Context (is_dir : Z -> bool) (leaf : F -> F) (leaves : list F) (Htree : tree_ok leaf leaves limit).
Context (make_request : W -> F -> cstring -> W * (Z + reply F)) (content : W -> F -> list entry).
Context `{!PageServer leaf leaves limit make_request content}.
Context (cb : nat -> Z) (CEPH_INO_DOTDOT : Z).
Implicit Types d : dirp F.
Implicit Types w : W.

(** ** Handing out a buffer *)

(** The entries the callback took. *)
Definition accepted (l : list call) : list entry := map ca_entry (filter (fun c => 0 <= ca_ret c) l).
Lemma accepted_app a b : accepted (a ++ b) = accepted a ++ accepted b.
Proof. unfold accepted. by rewrite filter_app, map_app. Qed.

(** A result other than 0 is what the last call returned. *)
Definition stopped (r : Z) (l : list call) : Prop := r <> 0 -> exists l' c, l = l' ++ [c] /\ ca_ret c = r.
Lemma stopped_app r a b : stopped r b -> stopped r (a ++ b).
Proof. intros Hs Hr. destruct (Hs Hr) as (l' & c & -> & E). exists (a ++ l'), c. by rewrite app_assoc. Qed.

Lemma stopped_zero l : stopped 0 l.
Proof. by intros []. Qed.

Lemma set_offset_same d x : dr_offset d = x -> set_offset x d = d.
Proof. intros <-. by destruct d. Qed.

Lemma deliver_spec b log d f n : dr_offset d = make_fpos f n -> 0 <= n -> n + Z.of_nat (length b) < limit ->
  exists r calls b1 b2, deliver cb b log d = (r, log ++ calls, set_offset (make_fpos f (n + Z.of_nat (length b1))) d) /\
    b = b1 ++ b2 /\ accepted calls = b1 /\ (r = 0 -> b2 = []) /\ stopped r calls.
Proof.
  revert log d n. induction b as [|e b IH]; intros log d n Ho Hn Hl; cbn [deliver].
  { exists 0, [], [], []. cbn [length Z.of_nat]. rewrite app_nil_r, Z.add_0_r, set_offset_same by done. split_and!; [done..|apply stopped_zero]. }
  cbn [length] in Hl. unfold call_cb. set (r := cb (length log)). set (c := mk_call e (dr_offset d + 1) r).
  destruct (Z.ltb_spec r 0) as [Hr|Hr].
  { exists r, [c], [], (e :: b). cbn [length Z.of_nat]. rewrite Z.add_0_r, set_offset_same by done. split_and!; [done|done| |lia|].
    - unfold accepted. rewrite filter_cons_False; [done|]. cbn. lia.
    - intros _. by exists [], c. }
  assert (accepted [c] = [e]) as Ha by (unfold accepted; by rewrite filter_cons_True).
  assert (make_fpos f (n + 1) = dr_offset d + 1) as Es by (by rewrite Ho, <- fl_succ by lia).
  destruct (Z.ltb_spec 0 r) as [Hp|Hp].
  { exists r, [c], [e], b. change (Z.of_nat (length [e])) with 1. rewrite Es. split_and!; [done..|lia|]. intros _. by exists [], c. }
  destruct (IH (log ++ [c]) (set_offset (dr_offset d + 1) d) (n + 1)) as (r' & calls & b1 & b2 & E & -> & Hacc & Hz & Hs); [by rewrite Es|lia|lia|].
  rewrite E. exists r', (c :: calls), (e :: b1), b2. split_and!.
  - rewrite <- app_assoc. cbn [length app]. replace (n + Z.of_nat (S (length b1))) with (n + 1 + Z.of_nat (length b1)) by lia. done.
  - done.
  - change (c :: calls) with ([c] ++ calls). by rewrite accepted_app, Ha, Hacc.
  - done.
  - by apply (stopped_app r' [c]).
Qed.

(** ** Names *)

Lemma filter_all {V} (P : V -> Prop) `{!forall x, Decision (P x)} (l : list V) : (forall x, x ∈ l -> P x) -> filter P l = l.
Proof. induction l as [|x l IH]; intros Hl; [done|]. rewrite filter_cons_True by (apply Hl; by left). f_equal. apply IH. intros; apply Hl; by right. Qed.
Lemma after_all (l : list entry) : filter (after []) l = l.
Proof. apply filter_all. intros e _. by left. Qed.

Lemma strcmp_gt_lt a b : strcmp a b = Gt <-> strcmp b a = Lt.
Proof. rewrite (strcmp_antisym b a). by destruct (strcmp b a). Qed.

(** What is left after the last name of a page is what was left after the page. *)
Lemma after_page w f off es e later : filter (after off) (content w f) = (es ++ [e]) ++ later -> filter (after (fst e)) (content w f) = later.
Proof.
  intros E. pose proof (ps_sorted w f) as Hs. apply (sorted_filter _ (after off)) in Hs. rewrite E in Hs.
  assert (e ∈ filter (after off) (content w f)) as Hin by (rewrite E; set_solver). apply list_elem_of_filter in Hin as [Ha He].
  pose proof (ps_names w f e He) as Ne.
  assert (filter (after (fst e)) (content w f) = filter (after (fst e)) (filter (after off) (content w f))) as ->.
  { rewrite list_filter_filter. apply list_filter_iff. intros x. split; [|tauto]. intros [?|Hx]; [done|]. split; [by right|].
    destruct Ha as [->|Ha]; [by left|right]. rewrite strcmp_gt_lt in *. by eapply strcmp_lt_trans. }
  apply StronglySorted_app in Hs as (Hle & Hs & _). apply StronglySorted_app in Hs as (Hee & _ & _).
  rewrite E, !filter_app, (filter_none _ es), (filter_none _ [e]), filter_all; [done|..].
  - intros x Hx. right. apply strcmp_gt_lt. apply Hle; set_solver.
  - intros x ->%list_elem_of_singleton [?|Hx]; [done|]. by rewrite strcmp_refl in Hx.
  - intros x Hx [?|Hg]; [done|]. apply strcmp_gt_lt in Hg. pose proof (Hee x e Hx ltac:(set_solver)) as Hl.
    pose proof (strcmp_lt_trans _ _ _ Hl Hg) as Hc. by rewrite strcmp_refl in Hc.
Qed.

(** ** Where a listing stands *)

Definition rest_of w (l : list F) : list entry := concat (map (content w) l).

(** The entries of a fragment after a name, and none after no name. *)
Definition more w (f : F) (last : cstring) : list entry := if decide (last = []) then [] else filter (after last) (content w f).

(** [d] has no page: it will ask for the next one of [f]; [l] is left to hand out. *)
Record fetching w d (f : F) (l2 : list F) (l : list entry) : Prop := {
  fe_need : ~ (dr_buffer_frag d = frag d /\ dr_buffer d <> None);
  fe_end : at_end d = false;
  fe_cache : dr_at_cache_name d = [];
  fe_leaf : leaf (frag d) = f;
  fe_in : exists l1, leaves = l1 ++ f :: l2;
  fe_pos : frag d = f /\ dr_offset d = make_fpos f (dr_next_offset d) /\ 0 <= dr_next_offset d /\
      dr_next_offset d + Z.of_nat (length (filter (after (dr_last_name d)) (content w f))) < limit /\
      l = filter (after (dr_last_name d)) (content w f) ++ rest_of w l2
    \/ frag d <> f /\ dr_last_name d = [] /\ l = content w f ++ rest_of w l2;
  fe_dots : dr_offset d <> 0 /\ dr_offset d <> 1;
  fe_root : frag d = f -> f = fpos_frag 0 -> 2 <= dr_next_offset d
}.

(** [d] has a page [b] of [f], and stands at the position [n]. *)
Record holding w d (f : F) (l2 : list F) (b : list entry) (n : Z) (l : list entry) : Prop := {
  ho_buffer : dr_buffer d = Some b;
  ho_frag : dr_buffer_frag d = f;
  ho_cache : dr_at_cache_name d = [];
  ho_in : exists l1, leaves = l1 ++ f :: l2;
  ho_offset : dr_offset d = make_fpos f n;
  ho_this : 0 <= dr_this_offset d <= n;
  ho_room : n <= dr_this_offset d + Z.of_nat (length b);
  ho_limit : dr_this_offset d + Z.of_nat (length b) + Z.of_nat (length (more w f (dr_last_name d))) < limit;
  ho_next : if decide (dr_last_name d = []) then is_rightmost f = false -> dr_next_offset d = 0
            else dr_next_offset d = dr_this_offset d + Z.of_nat (length b);
  ho_left : l = drop (Z.to_nat (n - dr_this_offset d)) b ++ more w f (dr_last_name d) ++ rest_of w l2;
  ho_root : f = fpos_frag 0 -> 2 <= dr_this_offset d
}.

(** The first two offsets are those of the dots. *)
Lemma past_dots f m : 0 <= m < limit -> (f = fpos_frag 0 -> 2 <= m) -> make_fpos f m <> 0 /\ make_fpos f m <> 1.
Proof.
  intros Hm Hr. pose proof fl_limit as Hl. assert (make_fpos (fpos_frag 0) 1 = 1) as E1 by (rewrite <- (fl_succ (fpos_frag 0) 0), fl_zero by lia; done).
  split; intros E.
  - assert (f = fpos_frag 0) as -> by (rewrite <- (fl_frag f m), E by done; done). rewrite <- (fl_off (fpos_frag 0) m), E, <- fl_zero, fl_off in Hr by lia. specialize (Hr eq_refl). lia.
  - rewrite <- E1 in E. assert (f = fpos_frag 0) as Ef by (rewrite <- (fl_frag f m), E, fl_frag by lia; done). subst f.
    assert (m = 1) as -> by (rewrite <- (fl_off (fpos_frag 0) m), E, fl_off by lia; done). specialize (Hr eq_refl). lia.
Qed.

Lemma content_more w w' f last : (forall g, content w' g = content w g) -> more w' f last = more w f last.
Proof. intros E. unfold more. by rewrite E. Qed.
Lemma content_rest w w' l : (forall g, content w' g = content w g) -> rest_of w' l = rest_of w l.
Proof. intros E. unfold rest_of. f_equal. apply map_ext. apply E. Qed.

(** The name a page that is not the end leaves, and what it leaves. *)
Lemma page_more w f off es later : filter (after off) (content w f) = es ++ later -> es <> [] ->
  default [] (last (map fst es)) <> [] /\ more w f (default [] (last (map fst es))) = later.
Proof.
  intros E Ne. destruct (exists_last Ne) as (es' & e & ->). rewrite map_app. cbn [map]. rewrite last_snoc. cbn [default].
  assert (e ∈ content w f) as He.
  { assert (e ∈ filter (after off) (content w f)) as Hin by (rewrite E; set_solver). by apply list_elem_of_filter in Hin as [_ ?]. }
  pose proof (ps_names w f e He) as Nn. split; [done|]. unfold more. rewrite decide_False by done. by eapply after_page.
Qed.

Lemma got_page_fields fg0 (rr : results) d :
  let N := if decide (fg0 = rr_frag rr) then dr_next_offset d else if is_leftmost (rr_frag rr) then 2 else 0 in
  got_page fg0 rr d =
    mk_dirp (if decide (fg0 = rr_frag rr) then dr_offset d else make_fpos (rr_frag rr) N)
      (if rr_end rr then if is_rightmost (rr_frag rr) then 2 else 0 else N + rr_num rr) N (if rr_end rr then [] else rr_last_name rr)
      (dr_at_cache_name d) (rr_frag rr) (Some (rr_result rr)) (dr_start_shared_gen d) (dr_release_count d) (dr_ordered_count d).
Proof. unfold got_page. by destruct (decide _), (rr_end rr). Qed.

Lemma fetch_holds n w i d f l2 l : fetching w d f l2 l -> exists w' i' d' b m,
  _readdir_get_frag is_dir leaf make_request (S n) w i d = Some (0, w', i', d') /\ holding w' d' f l2 b m l /\ fragpos d' = m /\ dr_this_offset d' = m /\
  (b <> [] \/ dr_last_name d' = []) /\ (forall g, content w' g = content w g) /\ is_complete_and_ordered i' = is_complete_and_ordered i.
Proof.
  intros [Fn Fe Fc Fl [l1 Hl1] Fp Fd Fr]. cbn [_readdir_get_frag]. assert (f ∈ leaves) as Hf by (rewrite Hl1; set_solver).
  destruct (ps_page w (frag d) (dr_last_name d)) as (w' & p & -> & Ef & Ec & later & Ep & Hend & Hnot); [by rewrite Fl|].
  rewrite Fl in *. set (rr := insert_readdir_results is_dir (frag d) (dr_next_offset d) p i).
  assert (rr_frag rr = f /\ rr_end rr = rp_end p /\ rr_num rr = Z.of_nat (length (rp_entries p)) /\ rr_result rr = rp_entries p /\
    rr_last_name rr = default [] (last (map fst (rp_entries p)))) as (Rf & Re & Rn & Rr & Rl).
  { unfold rr, insert_readdir_results. rewrite Ef. by destruct (decide (frag d = f)). }
  set (N := if decide (frag d = f) then dr_next_offset d else if is_leftmost f then 2 else 0).
  exists w', (rr_inode rr), (got_page (frag d) rr d), (rp_entries p), N. split; [done|].
  assert (filter (after (if decide (f = frag d) then dr_last_name d else [])) (content w f) ++ rest_of w l2 = l /\ 0 <= N /\
    N + Z.of_nat (length (filter (after (if decide (f = frag d) then dr_last_name d else [])) (content w f))) < limit /\
    (if decide (frag d = f) then dr_offset d else make_fpos f N) = make_fpos f N) as (El & HN & Hlim & Eo).
  { pose proof (ps_small w f) as Hsm. pose proof fl_limit as Hli. unfold N.
    destruct Fp as [(Efr & Epo & Hge & Hlt & ->)|(Nfr & Ela & ->)].
    - rewrite !decide_True by done. done.
    - rewrite !decide_False by (done || congruence). rewrite after_all. destruct (is_leftmost f); (split; [done|]); (split; [lia|]); (split; [lia|done]). }
  rewrite Ep in El, Hlim. rewrite length_app in Hlim.
  assert (got_page (frag d) rr d = mk_dirp (make_fpos f N) (if rp_end p then if is_rightmost f then 2 else 0 else N + Z.of_nat (length (rp_entries p))) N
    (if rp_end p then [] else default [] (last (map fst (rp_entries p)))) [] f (Some (rp_entries p)) (dr_start_shared_gen d) (dr_release_count d) (dr_ordered_count d)) as ->
    by (rewrite got_page_fields, Rf, Re, Rn, Rr, Rl, Fc; fold N; by rewrite Eo).
  assert (later = more w f (if rp_end p then [] else default [] (last (map fst (rp_entries p))))) as Em.
  { destruct (rp_end p); [by rewrite Hend|]. symmetry. by eapply page_more; [exact Ep|apply Hnot]. }
  split; [|split; [apply fl_off; lia|split; [done|split; [|split; [done|unfold rr, insert_readdir_results; by destruct (decide (frag d = rp_frag p))]]]]].
  - split; cbn; [done..|by exists l1|done|lia|lia|rewrite (content_more w w' f _ Ec), <- Em; lia| | |].
    + destruct (rp_end p); [by intros ->|]. destruct (page_more w f _ _ _ Ep (Hnot eq_refl)) as [Nn _]. by rewrite decide_False.
    + rewrite Z.sub_diag, (content_more w w' f _ Ec), (content_rest w w' _ Ec), <- Em. cbn. by rewrite <- El, app_assoc.
    + intros Er. unfold N. destruct (decide (frag d = f)) as [Efr|_]; [by apply Fr|].
      destruct (tr_first _ _ _ Htree) as (f0 & l0 & _ & Ef0 & Hleft). rewrite <- Er, (tr_leaf _ _ _ Htree f Hf) in Ef0. by rewrite Ef0, Hleft.
  - cbn. destruct (rp_end p); [by right|left; by apply Hnot].
Qed.

(** ** A page is handed out *)

Lemma hold_move w d f l2 b n l m : holding w d f l2 b n l -> n <= m <= dr_this_offset d + Z.of_nat (length b) ->
  holding w (set_offset (make_fpos f m) d) f l2 b m (drop (Z.to_nat (m - dr_this_offset d)) b ++ more w f (dr_last_name d) ++ rest_of w l2).
Proof. intros [] Hm. split; cbn; (done || lia). Qed.

Lemma later_not_root l1 f g l3 : leaves = l1 ++ f :: g :: l3 -> g <> fpos_frag 0.
Proof.
  intros Hl ->. destruct (tr_first _ _ _ Htree) as (f0 & l0 & E0 & Ef0 & _). rewrite (tr_leaf _ _ _ Htree) in Ef0 by (rewrite Hl; set_solver). subst f0.
  pose proof (tr_nodup _ _ _ Htree) as Hnd. rewrite Hl in *. destruct l1 as [|x l1]; cbn in E0; injection E0 as -> E0.
  - apply NoDup_cons in Hnd as [Hnd _]. set_solver.
  - cbn in Hnd. apply NoDup_cons in Hnd as [Hnd _]. set_solver.
Qed.

Lemma next_fetch w d f g l1 l3 m : leaves = l1 ++ f :: g :: l3 -> 0 <= m < limit -> dr_offset d = make_fpos f m -> dr_buffer_frag d = f ->
  dr_at_cache_name d = [] -> dr_last_name d = [] -> dr_next_offset d = 0 -> fetching w (_readdir_next_frag leaf d) g l3 (rest_of w (g :: l3)).
Proof.
  intros Hl Hm Eo Ef Ea En Ex. destruct (tr_next _ _ _ Htree l1 f g l3 m Hl Hm) as (_ & h & Eh & Elh).
  pose proof fl_limit as Hli. assert (g ∈ leaves) as Hg by (rewrite Hl; set_solver).
  assert (f <> g) as Nfg.
  { intros <-. pose proof (tr_nodup _ _ _ Htree) as Hnd. rewrite Hl in Hnd. apply NoDup_app in Hnd as (_ & _ & Hnd). apply NoDup_cons in Hnd as [Hnd _]. set_solver. }
  assert (_readdir_next_frag leaf d = set_offset (make_fpos g 0) d) as ->.
  { unfold _readdir_next_frag. rewrite Eo, Eh. unfold at_end. cbn [dr_offset set_offset]. destruct (Z.eqb_spec (make_fpos h 0) FPOS_END) as [E|_]; [by apply fl_end in E; [|lia]|].
    unfold _readdir_rechoose_frag, frag. cbn [dr_offset set_offset]. rewrite fl_frag, Elh by lia. by destruct (decide (g = h)) as [->|]. }
  assert (frag (set_offset (make_fpos g 0) d) = g) as Efr by (unfold frag; cbn; apply fl_frag; lia).
  pose proof (ps_small w g) as Hsm. split.
  - rewrite Efr. cbn. rewrite Ef. by intros [? _].
  - unfold at_end. cbn. destruct (Z.eqb_spec (make_fpos g 0) FPOS_END) as [E|]; [|done]. apply fl_end in E; [done|lia].
  - done.
  - rewrite Efr. by apply (tr_leaf _ _ _ Htree).
  - exists (l1 ++ [f]). by rewrite Hl, <- app_assoc.
  - left. cbn. rewrite Efr, Ex, En, after_all. split_and!; [done|done|lia|lia|done].
  - apply past_dots; [lia|]. by intros ?%(later_not_root l1 f g l3).
  - intros _. by intros ?%(later_not_root l1 f g l3).
Qed.

Lemma hand_out w d f l2 b n l log : holding w d f l2 b n l -> exists r calls d', deliver cb (buffered n d) log d = (r, log ++ calls, d') /\ stopped r calls /\
  (r <> 0 -> exists l' m, l = accepted calls ++ l' /\ holding w d' f l2 b m l') /\
  (r = 0 -> exists l', l = accepted calls ++ l' /\ (b <> [] -> n = dr_this_offset d -> accepted calls <> []) /\
    (dr_last_name d' <> [] -> fetching w (_readdir_drop_dirp_buffer d') f l2 l') /\
    (dr_last_name d' = [] -> is_rightmost f = false -> exists g l3, l2 = g :: l3 /\ fetching w (_readdir_next_frag leaf d') g l3 l') /\
    (dr_last_name d' = [] -> is_rightmost f = true -> l' = [])).
Proof.
  intros Ho. pose proof Ho as [Hb Hf Hc [l1 Hin] Hof Hth Hro Hli Hne -> Hrt]. set (rem := drop (Z.to_nat (n - dr_this_offset d)) b).
  assert (buffered n d = rem) as Eb. { unfold buffered. rewrite Hb. destruct (Z.leb_spec (dr_this_offset d) n); [done|lia]. }
  assert (Z.of_nat (length rem) = dr_this_offset d + Z.of_nat (length b) - n) as Elen by (unfold rem; rewrite length_drop; lia).
  destruct (deliver_spec rem log d f n Hof) as (r & calls & b1 & b2 & E & Erem & Hacc & Hz & Hst); [lia|lia|]. rewrite Eb, E.
  exists r, calls, (set_offset (make_fpos f (n + Z.of_nat (length b1))) d). split; [done|]. split; [done|].
  assert (length rem = length b1 + length b2)%nat as El2 by (by rewrite Erem, length_app).
  assert (drop (Z.to_nat (n + Z.of_nat (length b1) - dr_this_offset d)) b = b2) as Ed.
  { replace (Z.to_nat (n + Z.of_nat (length b1) - dr_this_offset d)) with (Z.to_nat (n - dr_this_offset d) + length b1)%nat by lia.
    rewrite <- drop_drop. fold rem. by rewrite Erem, drop_app_length. }
  pose proof (hold_move w d f l2 b n _ (n + Z.of_nat (length b1)) Ho) as Hm. rewrite Ed in Hm. specialize (Hm ltac:(lia)). rewrite Erem, Hacc, <- app_assoc. split.
  { intros _. eexists _, _. split; [done|exact Hm]. }
  intros ->. specialize (Hz eq_refl) as ->. cbn [length app] in *. exists (more w f (dr_last_name d) ++ rest_of w l2). split; [done|]. split.
  { intros Nb En. rewrite <- (app_nil_r b1), <- Erem. unfold rem. by rewrite En, Z.sub_diag. }
  assert (0 <= n + Z.of_nat (length b1) < limit) as Hpos by lia. cbn [dr_last_name set_offset].
  split_and!.
  - intros Nl. split; cbn; [tauto| |done| |by exists l1|left| |].
    + unfold at_end. cbn. destruct (Z.eqb_spec (make_fpos f (n + Z.of_nat (length b1))) FPOS_END) as [E'|]; [|done]. by apply fl_end in E'.
    + unfold frag. cbn. rewrite fl_frag by done. apply (tr_leaf _ _ _ Htree). rewrite Hin. set_solver.
    + unfold frag, more in *. cbn. destruct (decide (dr_last_name d = [])); [done|]. rewrite fl_frag by done. split_and!; [done|f_equal; lia|lia|lia|done].
    + apply past_dots; [done|]. intros Er. specialize (Hrt Er). lia.
    + intros _ Er. specialize (Hrt Er). unfold more in *. destruct (decide (dr_last_name d = [])); [done|]. lia.
  - intros En Er. unfold more. destruct (decide (dr_last_name d = [])); [|done]. destruct l2 as [|g l3]; [by rewrite (tr_last _ _ _ Htree l1 f Hin) in Er|].
    exists g, l3. split; [done|]. by eapply next_fetch; [exact Hin|exact Hpos|..]; cbn; auto.
  - intros En Er. unfold more. rewrite decide_True by done. destruct l2 as [|g l3]; [done|]. destruct (tr_next _ _ _ Htree l1 f g l3 0 Hin ltac:(pose proof fl_limit; lia)) as [Er' _]. congruence.
Qed.

(** ** Rounds *)

(** A listing between two calls of the callback, with [l] left, and the rounds it may still take. *)
Inductive stands w d (l : list entry) : nat -> Prop :=
| st_fetch f l2 : fetching w d f l2 l -> stands w d l (2 * (length l + length l2) + 1)
| st_hold f l2 b m : holding w d f l2 b m l -> stands w d l (2 * (length l + length l2) + 2)
| st_done : at_end d = true -> l = [] -> stands w d l 1.

Abbreviation cstate := (cstate (F := F) (W := W)).

(** What a call leaves. *)
Definition handed w (i : dir_inode) (l : list entry) (log : list call) (r : Z) (s : cstate) : Prop :=
  exists calls l', cs_log s = log ++ calls /\ l = accepted calls ++ l' /\ stopped r calls /\ (forall g, content (cs_world s) g = content w g) /\
    (r = 0 -> at_end (cs_dirp s) = true /\ l' = []) /\
    (r <> 0 -> is_complete_and_ordered (cs_inode s) = is_complete_and_ordered i) /\ exists k, stands (cs_world s) (cs_dirp s) l' k.

Lemma handed_more w w1 i i1 l l1 log calls r s : l = accepted calls ++ l1 -> (forall g, content w1 g = content w g) ->
  is_complete_and_ordered i1 = is_complete_and_ordered i -> handed w1 i1 l1 (log ++ calls) r s -> handed w i l log r s.
Proof.
  intros -> Ec Ei (calls' & l' & El & -> & Hs & Ew & Hz & Hn & Hst). exists (calls ++ calls'), l'. rewrite El, <- app_assoc. split_and!; [done| | | |done| |done].
  - by rewrite accepted_app, app_assoc.
  - by apply stopped_app.
  - intros g. by rewrite Ew.
  - intros Nr. by rewrite Hn.
Qed.

Lemma hold_end w d f l2 b m l : holding w d f l2 b m l -> at_end d = false /\ frag d = f /\ fragpos d = m.
Proof.
  intros []. assert (0 <= m < limit) by lia. unfold at_end, frag, fragpos. rewrite ho_offset0. split_and!; [|by apply fl_frag|by apply fl_off].
  destruct (Z.eqb_spec (make_fpos f m) FPOS_END) as [E|]; [|done]. by apply fl_end in E.
Qed.

Lemma at_end_set d : at_end (set_end d) = true.
Proof. unfold at_end. apply Z.eqb_refl. Qed.

(** The part of a round that hands out a page, when [more_rounds] are those that follow. *)
Lemma page_round (more_rounds : F -> Z -> cstate -> option (Z * cstate)) n w i d f l2 b m l log :
  (forall fg off w i d l log k, stands w d l k -> (k <= n)%nat -> (exists f l2, fetching w d f l2 l) ->
    exists r s', more_rounds fg off (mk_cst w i d log) = Some (r, s') /\ handed w i l log r s') ->
  holding w d f l2 b m l -> ((2 * (length l + length l2) + 1 <= n)%nat \/
    (2 * (length l + length l2) <= n)%nat /\ m = dr_this_offset d /\ (b <> [] \/ dr_last_name d = [])) ->
  exists r s', (let d := set_offset (make_fpos f m) d in
    let rest := buffered m d in
    let '(r, log, d) := deliver cb rest log d in
    if negb (r =? 0) then Some (r, mk_cst w i d log)
    else if negb (bool_decide (dr_last_name d = [])) then more_rounds f (m + Z.of_nat (length rest)) (mk_cst w i (_readdir_drop_dirp_buffer d) log)
    else if negb (is_rightmost f) then let d := _readdir_next_frag leaf d in more_rounds (frag d) 0 (mk_cst w i d log)
    else Some (0, mk_cst w (mark_dir_complete i d) (set_end d) log)) = Some (r, s') /\ handed w i l log r s'.
Proof.
  intros IH Ho Hn. rewrite set_offset_same by apply Ho. destruct (hand_out w d f l2 b m l log Ho) as (r & calls & d' & E & Hst & Hr & Hz). cbv zeta. rewrite E.
  destruct (Z.eqb_spec r 0) as [->|Nr]; cbn [negb].
  2: { destruct (Hr Nr) as (l' & m' & -> & Hh). eexists _, _. split; [done|]. exists calls, l'. split_and!; [done..|]. eexists. by eapply st_hold. }
  destruct (Hz eq_refl) as (l' & -> & Hne & Hmore & Hnext & Hend). rewrite length_app in Hn.
  assert (dr_last_name d' = dr_last_name d) as El.
  { destruct (deliver_spec (buffered m d) log d f m) as (? & ? & ? & ? & E' & _); [apply Ho|destruct Ho; lia| |rewrite E in E'; by injection E' as _ _ ->].
    destruct Ho. unfold buffered. rewrite ho_buffer0. cbn. destruct (_ <=? _); [rewrite length_drop|cbn]; lia. }
  destruct (bool_decide_reflect (dr_last_name d' = [])) as [En|Nn]; cbn [negb].
  - destruct (is_rightmost f) eqn:Er; cbn [negb].
    + rewrite (Hend En eq_refl). eexists _, _. split; [done|]. exists calls, []. split_and!; [done|done|done|done|by split; [apply at_end_set|]|done|].
      exists 1%nat. constructor; [apply at_end_set|done].
    + destruct (Hnext En eq_refl) as (g & l3 & -> & Hf). cbn [length] in Hn.
      destruct (IH (frag (_readdir_next_frag leaf d')) 0 w i (_readdir_next_frag leaf d') l' (log ++ calls) (2 * (length l' + length l3) + 1)%nat) as (r' & s' & -> & Hh);
        [by eapply st_fetch|lia|by eauto|]. eexists _, _. split; [done|]. by eapply handed_more.
  - assert (2 * (length l' + length l2) + 1 <= n)%nat as Hn'.
    { destruct Hn as [Hn|(Hn & Em & [Nb|Nl])]; [lia| |congruence]. specialize (Hne Nb Em). destruct (accepted calls); [done|]. cbn [length] in Hn. lia. }
    match goal with |- context [more_rounds ?x ?y ?z] => destruct (IH x y w i (_readdir_drop_dirp_buffer d') l' (log ++ calls) (2 * (length l' + length l2) + 1)%nat) as (r' & s' & -> & Hh) end;
      [by eapply st_fetch, Hmore|done|by eauto|]. eexists _, _. split; [done|]. by eapply handed_more.
Qed.

Lemma rounds_spec tries n fg off w i d l log k : stands w d l k -> (k <= n)%nat -> (fg = frag d /\ off = fragpos d \/ exists f l2, fetching w d f l2 l) ->
  exists r s', readdir_rounds is_dir leaf make_request cb (S tries) n fg off (mk_cst w i d log) = Some (r, s') /\ handed w i l log r s'.
Proof.
  revert fg off w i d l log k. induction n as [|n IH]; intros fg off w i d l log k Hs Hk Hfo; [destruct Hs; lia|]. cbn [readdir_rounds cs_dirp cs_world cs_inode cs_log].
  destruct (at_end d) eqn:Ee.
  { exists 0. eexists. split; [done|]. exists [], l. rewrite app_nil_r. destruct Hs as [f l2 Hf|f l2 b m Hh|Hd ->].
    - by rewrite (fe_end _ _ _ _ _ Hf) in Ee.
    - by destruct (hold_end _ _ _ _ _ _ _ Hh) as [E _]; rewrite E in Ee.
    - split_and!; [done|done|apply stopped_zero|done|done|done|]. exists 1%nat. by constructor. }
  assert (forall fg off w i d l log k, stands w d l k -> (k <= n)%nat -> (exists f l2, fetching w d f l2 l) ->
    exists r s', readdir_rounds is_dir leaf make_request cb (S tries) n fg off (mk_cst w i d log) = Some (r, s') /\ handed w i l log r s') as IH'.
  { intros. eapply IH; [done|done|by right]. }
  destruct Hs as [f l2 Hf|f l2 b m Hh|Hd ->]; [| |congruence].
  - rewrite decide_False by apply Hf. destruct (fetch_holds tries w i d f l2 l Hf) as (w' & i' & d' & b & m & E & Hh & Em & Et & Hb & Ec & Ei). rewrite E. cbn [mbind option_bind].
    change (0 =? 0) with true. cbn beta iota. rewrite (ho_frag _ _ _ _ _ _ _ Hh), Em.
    destruct (page_round _ n w' i' d' f l2 b m l log IH' Hh) as (r & s' & E' & Hd).
    { right. split; [lia|done]. }
    exists r, s'. split; [exact E'|]. by eapply (handed_more w w' i i' l l log []); [done|done|done|rewrite app_nil_r].
  - destruct (hold_end _ _ _ _ _ _ _ Hh) as (_ & Efr & Epo). rewrite decide_True by (rewrite Efr; split; [apply Hh|by rewrite (ho_buffer _ _ _ _ _ _ _ Hh)]).
    cbn [mbind option_bind]. destruct Hfo as [[-> ->]|(f' & l2' & Hf)].
    + rewrite Efr, Epo. apply (page_round _ n w i d f l2 b m l log IH' Hh). left. lia.
    + destruct (fe_need _ _ _ _ _ Hf). rewrite Efr. split; [apply Hh|by rewrite (ho_buffer _ _ _ _ _ _ _ Hh)].
Qed.

(** ** A call *)

(** A directory that was just opened. *)
Record fresh d : Prop := {
  fr_next : dr_next_offset d = 2;
  fr_last : dr_last_name d = [];
  fr_cache : dr_at_cache_name d = [];
  fr_buffer : dr_buffer d = None
}.
Definition dots (i : dir_inode) : list entry := [(name_dot, di_ino i); (name_dotdot, default CEPH_INO_DOTDOT (di_parent i))].
Definition all_of w : list entry := rest_of w leaves.

Inductive listed w (i : dir_inode) d : list entry -> Prop :=
| li_dot : fresh d -> dr_offset d = 0 -> listed w i d (dots i ++ all_of w)
| li_dotdot : fresh d -> dr_offset d = 1 -> listed w i d (tail (dots i) ++ all_of w)
| li_mid l k : stands w d l k -> listed w i d l.

Lemma root_two : make_fpos (fpos_frag 0) 1 = 1 /\ make_fpos (fpos_frag 0) 2 = 2.
Proof.
  pose proof fl_limit. assert (make_fpos (fpos_frag 0) 1 = 1) as E by (rewrite <- (fl_succ (fpos_frag 0) 0), fl_zero by lia; done).
  split; [done|]. by rewrite <- (fl_succ (fpos_frag 0) 1), E by lia.
Qed.

Lemma fresh_fetching w d : fresh d -> dr_offset d = 2 -> exists f l2, fetching w d f l2 (all_of w).
Proof.
  intros [Fn Fl Fc Fb] Eo. pose proof fl_limit as Hl. destruct root_two as [_ E2]. destruct (tr_first _ _ _ Htree) as (f & l & El & Ef & Hleft).
  assert (frag d = fpos_frag 0) as Efr by (unfold frag; rewrite Eo, <- E2; apply fl_frag; lia). pose proof (ps_small w f) as Hs. exists f, l. split.
  - rewrite Fb. tauto.
  - unfold at_end. rewrite Eo, <- E2. destruct (Z.eqb_spec (make_fpos (fpos_frag 0) 2) FPOS_END) as [E|]; [|done]. apply fl_end in E; [done|lia].
  - done.
  - by rewrite Efr.
  - by exists [].
  - unfold all_of, rest_of. rewrite El, Efr, Fn, Fl, after_all. cbn. destruct (decide (fpos_frag 0 = f)) as [<-|N]; [left|right; done].
    split_and!; [done|by rewrite E2|lia|lia|done].
  - rewrite Eo. lia.
  - rewrite Fn. lia.
Qed.

Lemma stands_bound w d l k : stands w d l k -> (k <= 2 * (length l + length leaves) + 2)%nat.
Proof.
  intros [f l2 Hf|f l2 b m Hh|_ ->]; [destruct (fe_in _ _ _ _ _ Hf) as [l1 ->]|destruct (ho_in _ _ _ _ _ _ _ Hh) as [l1 ->]|lia];
    rewrite length_app; cbn [length]; lia.
Qed.
Lemma stands_mid w d l k : stands w d l k -> at_end d = false -> dr_offset d <> 0 /\ dr_offset d <> 1 /\ dr_at_cache_name d = [] /\
  (exists f l2, fetching w d f l2 l) \/ dr_offset d <> 0 /\ dr_offset d <> 1 /\ dr_at_cache_name d = [] /\ exists f l2 b m, holding w d f l2 b m l.
Proof.
  intros [f l2 Hf|f l2 b m Hh|E ->] Ee; [left|right|congruence].
  - destruct (fe_dots _ _ _ _ _ Hf). split_and!; [done|done|apply Hf|by eauto].
  - pose proof Hh as []. rewrite ho_offset0. destruct (past_dots f m); [lia|intros Er; specialize (ho_root0 Er); lia|]. split_and!; [done..|by eauto 10].
Qed.

(** From the cache or the dots on. *)
Lemma after_dots tries n fg off w i d l log k : stands w d l k -> at_end d = false -> (k <= n)%nat ->
  fg = frag d /\ off = fragpos d \/ (exists f l2, fetching w d f l2 l) ->
  is_complete_and_ordered i = false ->
  exists r s', (let '(r, log, d) :=
      if ((dr_offset d =? 2) || negb (bool_decide (dr_at_cache_name d = []))) && negb (di_snapdir i) && is_complete_and_ordered i && di_shared_cap i
      then _readdir_cache_cb cb i log d else (- EAGAIN, log, d) in
    if negb (r =? - EAGAIN) then Some (r, mk_cst w i d log)
    else
      let d := if bool_decide (dr_at_cache_name d = []) then d else set_names (dr_at_cache_name d) [] d in
      readdir_rounds is_dir leaf make_request cb (S tries) n fg off (mk_cst w i d log)) = Some (r, s') /\ handed w i l log r s'.
Proof.
  intros Hs He Hk Hfg Hi. rewrite Hi, andb_false_r, andb_false_l. cbn beta iota zeta. rewrite Z.eqb_refl. cbn [negb].
  assert (dr_at_cache_name d = []) as -> by (by destruct (stands_mid w d l k Hs He) as [(_ & _ & ? & _)|(_ & _ & ? & _)]).
  rewrite bool_decide_true by done. by eapply rounds_spec.
Qed.

(** What a call leaves, the dots included. *)
Definition lists_on w (i : dir_inode) (l : list entry) (log : list call) (r : Z) (s : cstate) : Prop :=
  exists calls l', cs_log s = log ++ calls /\ l = accepted calls ++ l' /\ stopped r calls /\ (forall g, content (cs_world s) g = content w g) /\
    (r = 0 -> at_end (cs_dirp s) = true /\ l' = []) /\
    (r <> 0 -> is_complete_and_ordered (cs_inode s) = is_complete_and_ordered i) /\ listed (cs_world s) (cs_inode s) (cs_dirp s) l'.

Lemma handed_lists_on w i l log calls l1 r s : l = accepted calls ++ l1 -> handed w i l1 (log ++ calls) r s -> lists_on w i l log r s.
Proof.
  intros El Hh. destruct (handed_more w w i i l l1 log calls r s El ltac:(done) eq_refl Hh) as (c & l' & ? & ? & ? & ? & ? & ? & k & Hk).
  exists c, l'. split_and!; [done..|]. by eapply li_mid.
Qed.

Lemma fresh_move d x : fresh d -> fresh (set_offset x d).
Proof. by intros []. Qed.

Lemma not_end m d : dr_offset d = make_fpos (fpos_frag 0) m -> 0 <= m < 3 -> at_end d = false.
Proof.
  intros E Hm. pose proof fl_limit. unfold at_end. rewrite E. destruct (Z.eqb_spec (make_fpos (fpos_frag 0) m) FPOS_END) as [E'|]; [|done].
  apply fl_end in E'; [done|lia].
Qed.

Lemma accepted_one c : accepted [c] = if 0 <=? ca_ret c then [ca_entry c] else [].
Proof. unfold accepted. rewrite filter_cons. destruct (Z.leb_spec 0 (ca_ret c)), (decide (0 <= ca_ret c)); (done || lia). Qed.

(** What the stage of the dots leaves, from each of its starts. *)
Definition dots_left w i d (l : list entry) (calls : list call) (r : option Z) d' (l1 : list entry) : Prop :=
  l = accepted calls ++ l1 /\
  match r with
  | Some r => r <> 0 /\ stopped r calls /\ listed w i d' l1
  | None => at_end d' = false /\ (exists k, stands w d' l1 k) /\ (d' = d \/ exists f l2, fetching w d' f l2 l1)
  end.

Lemma dotdot_spec w i d log : fresh d -> dr_offset d = 1 -> exists r calls d' l1,
  list_dots cb CEPH_INO_DOTDOT i log d = (r, log ++ calls, d') /\ dots_left w i d (tail (dots i) ++ all_of w) calls r d' l1.
Proof.
  intros Hf Eo. unfold list_dots, call_cb. rewrite Eo. cbn [Z.eqb Pos.eqb]. cbn beta iota zeta. rewrite Eo. cbn [Z.eqb Pos.eqb]. set (r := cb (length log)). set (c := mk_call _ _ r).
  assert (stopped r [c]) as Hs by (intros _; by exists [], c).
  destruct (fresh_fetching w (set_offset 2 d) (fresh_move d 2 Hf) eq_refl) as (f & l2 & Hfe).
  destruct (Z.ltb_spec r 0); [|destruct (Z.ltb_spec 0 r)].
  - exists (Some r), [c], d, (tail (dots i) ++ all_of w). split; [done|]. unfold dots_left. rewrite accepted_one. change (ca_ret c) with r.
    destruct (Z.leb_spec 0 r); [lia|]. split_and!; [done|lia|done|by constructor].
  - exists (Some r), [c], (set_offset 2 d), (all_of w). split; [done|]. unfold dots_left. rewrite accepted_one. change (ca_ret c) with r.
    destruct (Z.leb_spec 0 r); [|lia]. split_and!; [done|lia|done|]. by eapply li_mid, st_fetch.
  - exists None, [c], (set_offset 2 d), (all_of w). split; [done|]. unfold dots_left. rewrite accepted_one. change (ca_ret c) with r.
    destruct (Z.leb_spec 0 r); [|lia]. split_and!; [done|apply Hfe|eexists; by eapply st_fetch|by eauto].
Qed.

Lemma dot_spec w i d log : fresh d -> dr_offset d = 0 -> exists r calls d' l1,
  list_dots cb CEPH_INO_DOTDOT i log d = (r, log ++ calls, d') /\ dots_left w i d (dots i ++ all_of w) calls r d' l1.
Proof.
  intros Hf Eo. set (r := cb (length log)). set (c := mk_call (name_dot, di_ino i) 1 r).
  assert (stopped r [c]) as Hs by (intros _; by exists [], c).
  assert (list_dots cb CEPH_INO_DOTDOT i log d = if r <? 0 then (Some r, log ++ [c], d) else if 0 <? r then (Some r, log ++ [c], set_offset 1 d)
    else list_dots cb CEPH_INO_DOTDOT i (log ++ [c]) (set_offset 1 d)) as ->.
  { unfold list_dots, call_cb. rewrite Eo. cbn [Z.eqb]. fold r. fold c. destruct (r <? 0); [done|]. by destruct (0 <? r). }
  destruct (Z.ltb_spec r 0); [|destruct (Z.ltb_spec 0 r)].
  - exists (Some r), [c], d, (dots i ++ all_of w). split; [done|]. unfold dots_left. rewrite accepted_one. change (ca_ret c) with r.
    destruct (Z.leb_spec 0 r); [lia|]. split_and!; [done|lia|done|by constructor].
  - exists (Some r), [c], (set_offset 1 d), (tail (dots i) ++ all_of w). split; [done|]. unfold dots_left. rewrite accepted_one. change (ca_ret c) with r.
    destruct (Z.leb_spec 0 r); [|lia]. split_and!; [done|lia|done|]. apply li_dotdot; [by apply fresh_move|done].
  - destruct (dotdot_spec w i (set_offset 1 d) (log ++ [c]) (fresh_move d 1 Hf) eq_refl) as (r' & calls & d' & l1 & -> & Hl & Hr).
    exists r', (c :: calls), d', l1. rewrite <- app_assoc. split; [done|]. split.
    + change (c :: calls) with ([c] ++ calls). rewrite accepted_app, accepted_one. change (ca_ret c) with r. destruct (Z.leb_spec 0 r); [|lia]. cbn. by f_equal.
    + destruct r' as [r'|]; [destruct Hr as (? & ? & ?); split_and!; [done|by apply (stopped_app r' [c])|done]|].
      destruct Hr as (He & Hk & [->|Hfe]); (split_and!; [done|done|right]); [|done].
      destruct Hk as [k Hk]. by destruct (stands_mid _ _ _ _ Hk He) as [(_ & ? & _)|(_ & ? & _)].
Qed.

Lemma dots_spec w i d l log : listed w i d l -> at_end d = false -> exists r calls d' l1,
  list_dots cb CEPH_INO_DOTDOT i log d = (r, log ++ calls, d') /\ dots_left w i d l calls r d' l1.
Proof.
  intros [Hf Eo|Hf Eo|l' k Hk] He; [by apply dot_spec|by apply dotdot_spec|]. exists None, [], d, l'. rewrite app_nil_r.
  assert (dr_offset d <> 0 /\ dr_offset d <> 1) as [N0 N1] by (by destruct (stands_mid _ _ _ _ Hk He) as [(? & ? & _)|(? & ? & _)]).
  split; [unfold list_dots; by rewrite (proj2 (Z.eqb_neq _ _) N0), (proj2 (Z.eqb_neq _ _) N1)|]. split; [done|]. split_and!; [done|by exists k|by left].
Qed.

(** A call of [readdir_r_cb] returns, and hands out the next of what is left. *)
Lemma call_lists_on tries n w i d l log : listed w i d l -> at_end d = true \/ is_complete_and_ordered i = false ->
  (2 * (length l + length leaves) + 2 <= n)%nat ->
  exists r s', readdir_r_cb is_dir leaf make_request cb CEPH_INO_DOTDOT (S tries) n (mk_cst w i d log) = Some (r, s') /\ lists_on w i l log r s'.
Proof.
  intros Hl Hi Hn. unfold readdir_r_cb. cbn [cs_dirp cs_inode cs_log cs_world]. destruct (at_end d) eqn:He.
  { exists 0. eexists. split; [done|]. assert (l = []) as ->.
    { destruct root_two as [E1 E2]. destruct Hl as [Hf Eo|Hf Eo|l' k Hk].
      - rewrite (not_end 0) in He; [done|by rewrite fl_zero|done].
      - rewrite (not_end 1) in He; [done|by rewrite E1|done].
      - destruct Hk as [f l2 Hf|f l2 b m Hh|]; [by rewrite (fe_end _ _ _ _ _ Hf) in He| |done].
        by destruct (hold_end _ _ _ _ _ _ _ Hh) as [E _]; rewrite E in He. }
    exists [], []. rewrite app_nil_r. split_and!; [done|done|apply stopped_zero|done|done|done|done]. }
  destruct Hi as [?|Hi]; [done|]. destruct (dots_spec w i d l log Hl He) as (r & calls & d' & l1 & -> & El & Hr). destruct r as [r|].
  { destruct Hr as (Nr & Hs & Hl'). exists r. eexists. split; [done|]. exists calls, l1. by split_and!. }
  destruct Hr as (He' & [k Hk] & Hfg). assert (k <= n)%nat as Hkn. { pose proof (stands_bound _ _ _ _ Hk). rewrite El, length_app in Hn. lia. }
  destruct (after_dots tries n (frag d) (if dr_offset d' =? dr_offset d then fragpos d else dr_offset d') w i d' l1 (log ++ calls) k Hk He' Hkn)
    as (r & s' & E & Hh); [destruct Hfg as [->|?]; [left; by rewrite Z.eqb_refl|by right]|done|].
  exists r, s'. split; [exact E|]. by eapply handed_lists_on.
Qed.

(** ** A sequence of calls *)

Fixpoint readdir_calls (tries n k : nat) (s : cstate) : option (list Z * cstate) :=
  match k with
  | O => Some ([], s)
  | S k =>
      '(r, s) ← readdir_r_cb is_dir leaf make_request cb CEPH_INO_DOTDOT tries n s;
      '(rs, s) ← readdir_calls tries n k s;
      Some (r :: rs, s)
  end.

(** A call that stops without a refusal took an entry. *)
Lemma stopped_accepts r calls : stopped r calls -> r <> 0 -> Forall (fun c => 0 <= ca_ret c) calls -> accepted calls <> [].
Proof.
  intros Hs Nr Hf. destruct (Hs Nr) as (l & c & -> & Ec). apply Forall_app in Hf as [_ Hc]. apply Forall_cons in Hc as [Hc _]. cbn in Hc.
  rewrite accepted_app, accepted_one. destruct (Z.leb_spec 0 (ca_ret c)); [|lia]. by destruct (accepted l).
Qed.

Lemma calls_spec tries n k w i d l log : listed w i d l -> at_end d = true \/ is_complete_and_ordered i = false ->
  (2 * (length l + length leaves) + 2 <= n)%nat ->
  exists rs s' calls l', readdir_calls (S tries) n k (mk_cst w i d log) = Some (rs, s') /\ cs_log s' = log ++ calls /\ l = accepted calls ++ l' /\
    (0 ∈ rs -> l' = []) /\ (Forall (fun c => 0 <= ca_ret c) calls -> (length l < k)%nat -> 0 ∈ rs).
Proof.
  revert w i d l log. induction k as [|k IH]; intros w i d l log Hl Hi Hn; cbn [readdir_calls].
  { exists [], (mk_cst w i d log), [], l. rewrite app_nil_r. split_and!; [done|done|done|by intros ?%not_elem_of_nil|lia]. }
  destruct (call_lists_on tries n w i d l log Hl Hi Hn) as (r & [w1 i1 d1 log1] & E & calls & l1 & El & -> & Hs & Ec & Hz & Hnz & Hl1).
  rewrite E. cbn [mbind option_bind]. cbn [cs_log cs_dirp cs_inode cs_world] in *.
  assert (at_end d1 = true \/ is_complete_and_ordered i1 = false) as Hi1.
  { destruct (Z.eq_dec r 0) as [->|Nr]; [left; by apply Hz|]. destruct Hi as [Hi|Hi]; [|right; by rewrite Hnz].
    unfold readdir_r_cb in E. cbn [cs_dirp] in E. rewrite Hi in E. congruence. }
  rewrite length_app in Hn. destruct (IH w1 i1 d1 l1 log1 Hl1 Hi1 ltac:(lia)) as (rs & s' & calls' & l' & -> & El' & -> & H0 & Hk).
  exists (r :: rs), s', (calls ++ calls'), l'. rewrite El', El, <- app_assoc. split; [done|]. split; [done|]. split; [by rewrite accepted_app, app_assoc|]. split.
  - intros [<-|Hin]%elem_of_cons; [|by apply H0]. destruct (Hz eq_refl) as [_ Hnil]. by apply app_nil in Hnil as [_ ->].
  - intros [Hf1 Hf2]%Forall_app Hlt. destruct (Z.eq_dec r 0) as [->|Nr]; [by left|right]. apply Hk; [done|].
    pose proof (stopped_accepts _ _ Hs Nr Hf1). destruct (accepted calls); [done|]. cbn in Hlt. rewrite length_app in Hlt. lia.
Qed.

(** C21: The client lists a directory once and in order.  Against any server that keeps the promise of
    [PageServer], a directory that was just opened (a fresh [dirp] at offset 0) and is not complete in
    the cache of the client, so that every page comes from the server, is listed by calls of
    [readdir_r_cb]: every call returns, within a number of rounds that the size of the directory bounds;
    whatever the callback accepts, refuses or stops at, what it accepted in all is a prefix of the
    dots and the contents of the fragments from left to right, no entry skipped or handed out again
    after it was accepted; it is all of them once a call returns 0; and one does after as many calls as
    there are entries, if the callback refuses none. *)
Theorem client_lists_once tries n k w i d : fresh d -> dr_offset d = 0 -> is_complete_and_ordered i = false ->
  (2 * (length (dots i ++ all_of w) + length leaves) + 2 <= n)%nat ->
  exists rs s', readdir_calls (S tries) n k (mk_cst w i d []) = Some (rs, s') /\
    (exists later, dots i ++ all_of w = accepted (cs_log s') ++ later /\ (0 ∈ rs -> later = [])) /\
    (Forall (fun c => 0 <= ca_ret c) (cs_log s') -> (length (dots i ++ all_of w) < k)%nat -> 0 ∈ rs).
Proof.
  intros Hf Eo Hi Hn. destruct (calls_spec tries n k w i d _ [] (li_dot w i d Hf Eo) (or_intror Hi) Hn) as (rs & s' & calls & l' & E & El & Ed & H0 & Hk).
  exists rs, s'. rewrite El. split; [done|]. split; [by exists l'|done].
Qed.

End Client.

(** ** Two fragments *)

Section Witness.

Definition fpos_ex : FposOps bool := {|
  make_fpos := fun (f : bool) n => (if f then 2 ^ 28 else 0) + n;
  fpos_frag := fun p => 2 ^ 28 <=? p;
  fpos_off := fun p => p mod 2 ^ 28;
  FPOS_END := -1;
  fpos_next_frag := fun p => if 2 ^ 28 <=? p then -1 else 2 ^ 28;
  is_leftmost := negb;
  is_rightmost := fun f => f
|}.
#[local] Existing Instance fpos_ex.

#[local] Instance fpos_laws_ex : FposLaws bool (2 ^ 28).
Proof.
  split; cbn [make_fpos fpos_frag fpos_off FPOS_END fpos_ex].
  - intros f n Hn. destruct f; [apply Z.leb_le; lia|apply Z.leb_gt; lia].
  - intros f n Hn. destruct f; [|rewrite Z.add_0_l]; [|by apply Z.mod_small]. rewrite Z.add_comm, <- (Z.mul_1_l (2 ^ 28)) at 1. rewrite Z.mod_add by done. by apply Z.mod_small.
  - intros f n _ _. lia.
  - intros f n Hn. destruct f; lia.
  - reflexivity.
  - reflexivity.
Qed.

Lemma tree_ex : tree_ok (fun f : bool => f) [false; true] (2 ^ 28).
Proof.
  split.
  - done.
  - by exists false, [true].
  - by_decide.
  - intros l1 f g l2 n E Hn. destruct l1 as [|x [|y [|z l1]]]; cbn in E; try discriminate. injection E as <- <- <-. split; [done|]. exists true.
    cbn [fpos_next_frag make_fpos fpos_ex]. split; [|done]. rewrite (proj2 (Z.leb_gt _ _)) by lia. done.
  - intros l1 f E. by destruct l1 as [|x [|y [|z l1]]]; cbn in E; try discriminate; injection E as <- <-.
Qed.

(** A server with a name in one fragment and two in the other, an entry a page. *)
Definition content_ex (_ : unit) (f : bool) : list entry := if f then [(["b"%char], 1002); (["c"%char], 1003)] else [(["a"%char], 1001)].
Definition pages_ex (w : unit) (f : bool) (off : cstring) : unit * (Z + reply bool) :=
  let l := filter (after off) (content_ex w f) in (w, inr (mk_reply f (take 1 l) (bool_decide (length l <= 1)%nat))).

#[local] Instance pages_ex_ok : PageServer (fun f => f) [false; true] (2 ^ 28) pages_ex content_ex.
Proof.
  split.
  - intros w f off _. eexists _, _. split; [done|]. split; [done|]. split; [done|]. cbn. rewrite decide_True by done.
    exists (drop 1 (filter (after off) (content_ex w f))). split; [by rewrite take_drop|]. destruct (filter _ _) as [|e [|e' l]]; naive_solver.
  - intros w f. destruct f; repeat constructor.
  - intros w f. apply Forall_forall. by destruct f; by_decide.
  - intros w f. by destruct f.
Qed.

Definition dirp_ex : dirp bool := mk_dirp 0 2 0 [] [] false None 1 0 0.
Definition dinode_ex : dir_inode := mk_dinode 1000 (Some 1) None 1 false false true false.

(** The callback stops after its second entry and refuses the fourth once. *)
Definition cb_ex (n : nat) : Z := match n with 1%nat => 1 | 3%nat => -5 | _ => 0 end.

Lemma client_lists_once_witness : exists rs s',
  readdir_calls (fun _ => false) (fun f => f) pages_ex cb_ex 0 1 16 3 (mk_cst tt dinode_ex dirp_ex []) = Some (rs, s') /\
  (exists later, dots 0 dinode_ex ++ all_of [false; true] content_ex tt = accepted (cs_log s') ++ later /\ (0 ∈ rs -> later = [])) /\
  (Forall (fun c => 0 <= ca_ret c) (cs_log s') -> (length (dots 0 dinode_ex ++ all_of [false; true] content_ex tt) < 3)%nat -> 0 ∈ rs).
Proof.
  apply (client_lists_once (2 ^ 28) (fun _ => false) (fun f => f) [false; true] tree_ex pages_ex content_ex cb_ex 0 0 16 3 tt dinode_ex dirp_ex); [|done|done|].
  - done.
  - apply (bool_decide_unpack _). vm_compute. exact I.
Defined.

(** The three calls: one stopped, one refused, one that ends. *)
Example client_ex : exists s', readdir_calls (fun _ => false) (fun f => f) pages_ex cb_ex 0 1 16 3 (mk_cst tt dinode_ex dirp_ex []) = Some ([1; -5; 0], s') /\
  map fst (accepted (cs_log s')) = [name_dot; name_dotdot; ["a"%char]; ["b"%char]; ["c"%char]] /\ di_complete (cs_inode s') = true.
Proof. eexists. vm_compute. done. Qed.

End Witness.
