(* ===== verification/ListingSystem.v ===== *)
(** * A listing, end to end

    The client of file ClientReaddir against the server of file Readdir.  Fragments that are ours,
    open and complete, with every linked inode in the cache and no snapshot to purge, answer every
    request with a page: the handler discharges the interface [PageServer] of file ClientListing,
    and a client gets the visible dentries of all fragments. *)

From Stdlib Require Import ZArith Lia Ascii Sorted.
From stdpp Require Import base tactics numbers list gmap fin_maps sorting.
From S2P Require Import Prelude Keys CacheObject Dentries Commit Readdir ReaddirSpec ClientReaddir ClientListing.
Open Scope Z_scope.
Open Scope list_scope.

Section Server.
Context {C : Type} `{CephConst} `{CDentryOps C} `{ReaddirOps C} `{!ReaddirLaws}.
Context (inodes : Z -> inode_info).
Implicit Types d : dirfrag C.
Implicit Types dn : dentry C.
Abbreviation rd_state := (@rd_state C).
Abbreviation rd_step := (@rd_step C).
Abbreviation rdir := (@rdir C).

(** ** What a listing leaves alone *)

Record framed d d' : Prop := {
  fm_obj : df_obj d' = df_obj d;
  fm_num : get_num_any d' = get_num_any d;
  fm_dom : dom (df_items d') = dom (df_items d)
}.
#[local] Instance framed_pre : PreOrder framed.
Proof. split; [done|]. intros d1 d2 d3 [A1 A2 A3] [B1 B2 B3]. split; congruence. Qed.

Lemma framed_put k dn d : is_Some (df_items d !! k) -> framed d (upd_dentry k dn d).
Proof. intros Hk. split; [done..|]. cbn. apply elem_of_dom in Hk. rewrite dom_insert_L. set_solver. Qed.

Definition step_dir (r : rd_step) : dirfrag C := match r with Continue s | Break s | Return s => rs_dir s end.

Lemma include_framed client bl k dn ino (s : rd_state) : is_Some (df_items (rs_dir s) !! k) ->
  framed (rs_dir s) (step_dir (include_dentry client bl k dn ino s)).
Proof.
  intros Hk. unfold include_dentry. destruct (_ <? _); [done|]. cbn beta iota zeta. destruct (inodestat _ _); by apply framed_put.
Qed.

Lemma visit_framed client snapid bl offset k dn (s : rd_state) r : is_Some (df_items (rs_dir s) !! k) ->
  visit inodes client snapid bl offset None k dn s = Ok r -> framed (rs_dir s) (step_dir r).
Proof.
  intros Hk. unfold visit, trim_stale. destruct (dn_purging dn); [by intros [= <-]|]. destruct (is_lnull _); [by intros [= <-]|]. cbn [mbind res_bind].
  destruct (negb _); [by intros [= <-]|]. unfold list_dentry. destruct (before_offset offset dn); [by intros [= <-]|].
  destruct (client_linkage client dn) as [|i|i t [j|]]; [done|destruct (_ =? _)..|]; [by intros [= <-]|intros [= <-]; by apply include_framed|by intros [= <-]|intros [= <-]; by apply include_framed|].
  destruct (cached i); [|destruct (dn_bad_remote dn); [by intros [= <-]|]; destruct (0 <? _); by intros [= <-]].
  intros [= <-]. transitivity (upd_dentry k (link_remote client i dn) (rs_dir s)); [by apply framed_put|].
  apply (include_framed client bl k _ i (put_dentry k (link_remote client i dn) [RdLinkRemote k i] s)). cbn. by rewrite lookup_insert_eq.
Qed.

Lemma loop_framed client snapid max bl offset ks (s : rd_state) e s' :
  readdir_loop inodes client snapid max bl offset None ks s = Ok (e, s') -> framed (rs_dir s) (rs_dir s').
Proof.
  revert s. induction ks as [|k ks IH]; intros s; cbn [readdir_loop]; [by intros [= _ <-]|]. destruct (negb _); [by intros [= _ <-]|].
  destruct (df_items (rs_dir s) !! k) as [dn|] eqn:Ek; [|done]. intros E. apply bind_ok in E as (r & Ev & E).
  apply visit_framed in Ev; [|by rewrite Ek]. destruct r as [s1|s1|s1]; cbn [step_dir] in Ev; [|by injection E as _ <-..].
  transitivity (rs_dir s1); [done|by apply IH].
Qed.

(** ** A fragment that can be listed *)

Context {F : Type} `{EqDecision F}.
Context (client snapid max_entries max_bytes limit : Z) (env : rd_env F).

Record served (x : rdir) : Prop := {
  se_complete : state_test (df_obj (rd_dir x)) STATE_COMPLETE = true;
  se_plausible : plausible client (rd_dir x);
  se_counts : counts_agree (rd_dir x) = true;
  se_size : Z.of_nat (size (df_items (rd_dir x))) < 2 ^ 32;
  se_purged : rl_last_destroyed (re_realm env) <= rd_purged_thru x;
  se_keys : forall k e, visible client snapid (rd_dir x) !! k = Some e -> fst e = dk_name k /\ fst e <> [];
  (* the dentries of a name are live at different snapshots *)
  se_one : forall k1 k2 e1 e2, visible client snapid (rd_dir x) !! k1 = Some e1 -> visible client snapid (rd_dir x) !! k2 = Some e2 ->
    dk_name k1 = dk_name k2 -> k1 = k2;
  se_fits : forall k e, visible client snapid (rd_dir x) !! k = Some e -> fits_alone max_bytes (re_realm env) e;
  se_limit : Z.of_nat (size (visible client snapid (rd_dir x))) + 3 < limit
}.

(** The path leads to a directory, the locks are there, the fragments are ours, and linked inodes are in the cache. *)
Record answering : Prop := {
  an_diri : re_diri env = Some true;
  an_locks : re_locks env = true;
  an_open : forall f, re_open env f = Ok Opened;
  an_cached : forall i, cached i = true;
  an_max : 0 <= max_entries
}.

Definition entries_of (x : rdir) : list entry := (ordered (visible client snapid (rd_dir x))).*2.

Lemma served_frame x d : served x -> framed (rd_dir x) d -> plausible client d -> visible client snapid d = visible client snapid (rd_dir x) ->
  served (mk_rdir d (rd_purged_thru x)).
Proof.
  intros [] [Eo En Ed] Pl Ev.
  assert (size (df_items d) = size (df_items (rd_dir x))) as Es by (by rewrite <- !(size_dom (D := gset dentry_key_t)), Ed).
  split; cbn [rd_dir rd_purged_thru]; rewrite ?Ev, ?Es, ?Eo; [done|done| |done..]. unfold counts_agree in *. by rewrite En, Es.
Qed.

Lemma empty_ends max bl offset x e s : size (df_items (rd_dir x)) = 0%nat ->
  readdir_loop inodes client snapid max bl offset None (item_keys (rd_dir x)) (mk_rd (rd_dir x) 0 0 [] []) = Ok (e, s) -> e = Some true.
Proof. intros Ex%map_size_empty_inv. unfold item_keys. rewrite (proj2 (ordered_nil _) Ex). by intros [= <- _]. Qed.

(** The page of a fragment that can be listed. *)
Lemma page_served offset x : answering -> served x -> exists p x' es,
  readdir_page inodes client snapid max_entries max_bytes offset (re_realm env) x = Ok (Some p, x', es) /\ served x' /\
  visible client snapid (rd_dir x') = visible client snapid (rd_dir x) /\
  exists later, filter (after offset) (entries_of x) = pg_entries p ++ later /\ (pg_end p = true -> later = []) /\ (pg_end p = false -> pg_entries p <> []).
Proof.
  intros Ha Hx. pose proof Hx as [_ Pl Hc Hs Hp _ _ Hf _]. pose proof (page_next inodes client snapid max_entries max_bytes offset (re_realm env) x) as Hn.
  revert Hn. unfold readdir_page. destruct (Z.ltb_spec (rd_purged_thru x) (rl_last_destroyed (re_realm env))); [lia|]. cbn [negb orb]. rewrite check_true by done.
  set (max := if max_entries =? 0 then get_num_any (rd_dir x) else max_entries).
  destruct (loop_total inodes client snapid (bytes_available max_bytes (re_realm env)) offset None ltac:(done) max (item_keys (rd_dir x)) (mk_rd (rd_dir x) 0 0 [] []))
    as [[e s] E]; [done|apply ordered_nodup|done|intros k Hk; cbn; by apply elem_of_ordered_keys in Hk|].
  rewrite E. cbn [mbind res_bind]. intros Hn. destruct e as [e|]; (destruct (Hn _ _ _ Pl Hs eq_refl) as (Ev & Pl' & Hn')).
  2: { destruct Hn' as (k & dn & _ & Ht). unfold to_open in Ht. destruct (client_linkage client dn) as [| |i ? [?|]]; try done. by rewrite (an_cached Ha i) in Ht. }
  destruct Hn' as (later & El & Hend & _ & _ & Hne). eexists _, _, _. split; [done|]. cbn [rd_dir] in *. split; [|split; [done|]].
  { apply served_frame; [done|by apply loop_framed in E|done|done]. }
  exists later. split; [done|]. split; [done|]. intros He. apply Hne; [done| |].
  - pose proof (an_max Ha). destruct (Z.eq_dec max_entries 0) as [->|]; [right; split; [done|]|left; lia]. unfold counts_agree in Hc. apply Z.eqb_eq in Hc. rewrite Hc.
    destruct (size (df_items (rd_dir x))) eqn:Es; [|lia]. by pose proof (empty_ends _ _ _ _ _ _ Es E) as [= ->].
  - intros y Hy. apply list_elem_of_filter in Hy as [_ Hy]. apply list_elem_of_fmap in Hy as ([k e'] & -> & Hy). by apply (Hf k), elem_of_ordered.
Qed.

(** ** The order of what is visible *)

Lemma entries_sorted x : served x -> StronglySorted (fun a b : entry => strcmp (fst a) (fst b) = Lt) (entries_of x).
Proof.
  intros Hx. unfold entries_of. set (m := visible client snapid (rd_dir x)).
  assert (forall p, p ∈ ordered m -> m !! fst p = Some (snd p)) as Hl by (intros [k e] Hin; by apply elem_of_ordered).
  pose proof (ordered_sorted m) as Hs. pose proof (ordered_nodup m) as Hn. revert Hl Hs Hn. generalize (ordered m). intros l.
  induction l as [|[k e] l IH]; intros Hl Hs Hn; [constructor|]. cbn in *. inversion Hs as [|? ? Hs' Hf]; subst. apply NoDup_cons in Hn as [Hk Hn].
  constructor; [apply IH; [intros; apply Hl; by right|done|done]|]. apply Forall_forall. intros e' Hin. apply list_elem_of_fmap in Hin as ([k' e2] & -> & Hin). cbn.
  pose proof (Hl (k, e) (list_elem_of_here _ _)) as E1. pose proof (Hl (k', e2) (list_elem_of_further _ _ _ Hin)) as E2. cbn in E1, E2.
  destruct (se_keys x Hx k e E1) as [-> _], (se_keys x Hx k' e2 E2) as [-> _].
  pose proof (proj1 (Forall_forall _ _) Hf _ Hin) as Hb. unfold bind_le, k_leb, dentry_key_order, dentry_key_ltb in Hb. cbn in Hb. apply negb_true_iff in Hb.
  rewrite (strcmp_antisym (dk_name k) (dk_name k')) in *. destruct (strcmp (dk_name k) (dk_name k')) eqn:Ec; try done.
  apply strcmp_eq in Ec. rewrite (se_one x Hx k k' e e2 E1 E2 Ec) in Hk. by apply (list_elem_of_fmap_2 fst) in Hin.
Qed.

Lemma entries_named x e : served x -> e ∈ entries_of x -> fst e <> [].
Proof. intros Hx Hin. apply list_elem_of_fmap in Hin as ([k e'] & -> & Hin). by eapply (se_keys x Hx k), elem_of_ordered. Qed.

Lemma entries_length x : length (entries_of x) = size (visible client snapid (rd_dir x)).
Proof. unfold entries_of. rewrite length_fmap, ordered_perm. apply length_map_to_list. Qed.

(** ** The server as the client sees it *)

Record server := mk_server { sv_frag : F -> rdir; sv_served : forall f, served (sv_frag f) }.

Definition put_frag (w : server) (f : F) (x : rdir) (Hx : served x) : server :=
  mk_server (fun g => if decide (g = f) then x else sv_frag w g)
    (fun g => match decide (g = f) as c return served (if c then x else sv_frag w g) with left _ => Hx | right _ => sv_served w g end).

(** What becomes of the result of the handler: a reply reaches the client with the fragment it leaves,
    an error as its code.  Results that wait for the server do not come up in what follows. *)
Definition answer (w : server) (f : F) (r : res (rd_result F * rdir * list rd_effect)) : (forall o, r = Ok o -> served (snd (fst o))) -> server * (Z + reply F) :=
  match r with
  | Ok (RdReply fg p, x, es) => fun Hr => (put_frag w f x (Hr _ eq_refl), inr (mk_reply fg (pg_entries p) (pg_end p)))
  | Ok (RdError e, _, _) => fun _ => (w, inl e)
  | _ => fun _ => (w, inl (- EAGAIN))
  end.

Definition request (f : F) (off : cstring) : readdir_req F := mk_rreq client snapid f off max_entries max_bytes.

Lemma handler_answers f off x : answering -> served x -> exists p x' es,
  handle_client_readdir inodes (request f off) env x = Ok (RdReply (re_leaf env f) p, x', es) /\ served x' /\
  visible client snapid (rd_dir x') = visible client snapid (rd_dir x) /\
  exists later, filter (after (if decide (re_leaf env f = f) then off else [])) (entries_of x) = pg_entries p ++ later /\
    (pg_end p = true -> later = []) /\ (pg_end p = false -> pg_entries p <> []).
Proof.
  intros Ha Hx. unfold handle_client_readdir. rewrite (an_diri Ha), (an_locks Ha). cbn [negb rq_frag rq_offset request].
  assert (forall g o, exists p x' es, readdir_frag inodes (request f off) env g o x = Ok (RdReply g p, x', es) /\ served x' /\
    visible client snapid (rd_dir x') = visible client snapid (rd_dir x) /\
    exists later, filter (after o) (entries_of x) = pg_entries p ++ later /\ (pg_end p = true -> later = []) /\ (pg_end p = false -> pg_entries p <> [])) as Hf.
  { intros g o. destruct (page_served o x Ha Hx) as (p & x' & es & E & Hx' & Hp). exists p, x', es. split; [|done].
    unfold readdir_frag. rewrite (an_open Ha g). cbn [mbind res_bind]. rewrite (se_complete x Hx). cbn [negb rq_client rq_snapid rq_max_entries rq_max_bytes request].
    by rewrite E. }
  destruct (decide (re_leaf env f = f)) as [El|Nl]; [|apply Hf]. rewrite El. apply Hf.
Qed.

Lemma handler_keeps f off x o : answering -> served x -> handle_client_readdir inodes (request f off) env x = Ok o -> served (snd (fst o)).
Proof. intros Ha Hx E. destruct (handler_answers f off x Ha Hx) as (p & x' & es & E' & Hx' & _). rewrite E in E'. by injection E' as ->. Qed.

Lemma answer_reply w f r Hr fg p x es : r = Ok (RdReply fg p, x, es) -> exists Hx, answer w f r Hr = (put_frag w f x Hx, inr (mk_reply fg (pg_entries p) (pg_end p))).
Proof. intros ->. by eexists. Qed.

Section System.
Context (Ha : answering) `{!FposOps F} (leaves : list F).

Definition serve (w : server) (f : F) (off : cstring) : server * (Z + reply F) :=
  answer w (re_leaf env f) (handle_client_readdir inodes (request f off) env (sv_frag w (re_leaf env f)))
    (fun o => handler_keeps f off _ o Ha (sv_served w (re_leaf env f))).
Definition seen (w : server) (f : F) : list entry := entries_of (sv_frag w f).

(** The handler keeps the promise. *)
#[global] Instance serve_ok : PageServer (re_leaf env) leaves limit serve seen.
Proof.
  split.
  - intros w f off _. destruct (handler_answers f off _ Ha (sv_served w (re_leaf env f))) as (p & x & es & E & _ & Ev & Hp). unfold serve.
    match goal with |- context [answer ?w ?f ?r ?Hr] => destruct (answer_reply w f r Hr _ _ _ _ E) as [Hx ->] end.
    eexists _, _. split; [done|]. split; [done|]. split; [|done]. intros g. unfold seen, put_frag. cbn. destruct (decide (g = re_leaf env f)) as [->|]; [|done].
    unfold entries_of. by rewrite Ev.
  - intros w f. apply entries_sorted, w.
  - intros w f e. apply entries_named, w.
  - intros w f. unfold seen. rewrite entries_length. apply (se_limit _ (sv_served w f)).
Qed.


End System.

End Server.

(** ** Two fragments of dentries *)

Section Witness.
#[local] Existing Instance ceph_ex.
#[local] Existing Instance ops_ex.
#[local] Existing Instance readdir_ops_ex.
#[local] Existing Instance fpos_ex.

#[local] Instance readdir_laws_ex2 : ReaddirLaws := readdir_laws_ex.
#[local] Instance fpos_laws_ex2 : FposLaws bool (2 ^ 28) := fpos_laws_ex.

Definition env_ex2 : rd_env bool := mk_env (Some true) true (fun f => f) (fun _ => Ok Opened) false (mk_realm 7 ∅ 12 24).
Definition right_ex : dirfrag Z := dir_of_ex [linked_ex ["x"%char] 2 CEPH_NOSNAP (LPrimary 1004); linked_ex ["y"%char] 2 CEPH_NOSNAP (LPrimary 1005)].

Lemma answering_ex : answering (C := Z) 0 env_ex2.
Proof. by split. Qed.

(** The checks a fragment has to pass, computed. *)
Definition served_b (d : dirfrag Z) : bool :=
  let m := visible 4 CEPH_NOSNAP d in
  state_test (df_obj d) STATE_COMPLETE && counts_agree d && (Z.of_nat (size (df_items d)) <? 2 ^ 32) && (Z.of_nat (size m) + 3 <? 2 ^ 28) &&
  bool_decide (map_Forall (fun _ dn => dn_last dn <= CEPH_NOSNAP) (df_items d)) &&
  bool_decide (map_Forall (fun _ dn => match dn_linkage dn with LRemote i _ None => i =? CEPH_INO_CEPH | _ => false end = false) (df_items d)) &&
  bool_decide (map_Forall (fun k e => fst e = dk_name k /\ fst e <> []) m) &&
  bool_decide (map_Forall (fun k1 _ => map_Forall (fun k2 _ => dk_name k1 = dk_name k2 -> k1 = k2) m) m) &&
  bool_decide (map_Forall (fun _ e => fits_alone 0 (re_realm env_ex2) e) m).

Lemma served_check d : served_b d = true -> served 4 CEPH_NOSNAP 0 (2 ^ 28) env_ex2 (mk_rdir d 7).
Proof.
  unfold served_b. rewrite !andb_true_iff, !bool_decide_eq_true. intros ((((((((Hc & Hn) & Hs) & Hl) & Hla) & Hh) & Hk) & Ho) & Hf).
  split; cbn [rd_dir rd_purged_thru]; [done| |done|by apply Z.ltb_lt|done|exact Hk| |exact Hf|by apply Z.ltb_lt].
  - split; [exact Hla|]. intros k dn t E El. specialize (Hh k dn E). cbn in El, Hh. by rewrite El in Hh.
  - intros k1 k2 e1 e2 E1 E2. exact (Ho k1 e1 E1 k2 e2 E2).
Qed.

Definition frags_ex (f : bool) : rdir := mk_rdir (if f then right_ex else listed_ex) 7.
Lemma frags_served f : served 4 CEPH_NOSNAP 0 (2 ^ 28) env_ex2 (frags_ex f).
Proof. apply served_check. destruct f; vm_compute; reflexivity. Qed.

Definition server_ex : server 4 CEPH_NOSNAP 0 (2 ^ 28) env_ex2 := mk_server _ _ _ _ _ frags_ex frags_served.
Definition serve_ex := serve (fun _ => inode_ex) 4 CEPH_NOSNAP 0 0 (2 ^ 28) env_ex2 answering_ex.

Lemma seen_ex : concat (map (seen 4 CEPH_NOSNAP 0 (2 ^ 28) env_ex2 server_ex) [false; true]) =
  [(name_a, 1001); (name_b, 1003); (["x"%char], 1004); (["y"%char], 1005)].
Proof. vm_compute. reflexivity. Qed.


(** A page that has no room for its first entry is empty and not the end: the interface asks for more. *)
Lemma no_room_page : exists x es, readdir_page (fun _ => inode_ex) 4 CEPH_NOSNAP 0 (2 ^ 32 - 1) [] (re_realm env_ex2) (mk_rdir right_ex 7) =
  Ok (Some (mk_page [] false false), x, es).
Proof. eexists _, _. vm_compute. reflexivity. Qed.

(** A client that gets such a page for the second fragment takes the fragment as listed, and the
    directory as complete, without the entries of the fragment. *)
Definition short_ex (w : unit) (f : bool) (off : cstring) : unit * (Z + reply bool) :=
  if f then (w, inr (mk_reply f [] false)) else pages_ex w f off.
Lemma empty_page_ends_listing : exists s',
  readdir_calls (fun _ => false) (fun f => f) short_ex (fun _ => 0) 0 1 16 1 (mk_cst tt dinode_ex dirp_ex []) = Some ([0], s') /\
  map fst (accepted (cs_log s')) = [name_dot; name_dotdot; ["a"%char]] /\ di_complete (cs_inode s') = true.
Proof. eexists. vm_compute. done. Qed.

(** A cached entry that the callback refuses twice: the second time the name before it is forgotten,
    the next call asks the server from the start of the fragment, and hands out an entry again. *)
Definition cached_ex : dir_inode := mk_dinode 1000 (Some 1)
  (Some (mk_cdir (list_to_map [(name_a, mk_cdn (Some 1001) 2 1); (name_b, mk_cdn (Some 1002) 3 1); (["c"%char], mk_cdn (Some 1003) 4 1)])
    [name_a; name_b; ["c"%char]] 0 0)) 1 true true true false.
Definition one_frag_ex (w : unit) (f : bool) (off : cstring) : unit * (Z + reply bool) :=
  (w, inr (mk_reply f (if f then [] else filter (after off) [(name_a, 1001); (name_b, 1002); (["c"%char], 1003)]) true)).
Lemma cache_refused_twice_repeats : exists s',
  readdir_calls (fun _ => false) (fun f => f) one_frag_ex (fun n => if bool_decide (n = 3 \/ n = 4)%nat then -1 else 0) 0 1 9 3 (mk_cst tt cached_ex dirp_ex []) =
    Some ([-1; -1; 0], s') /\
  map fst (accepted (cs_log s')) = [name_dot; name_dotdot; name_a; name_a; name_b; ["c"%char]].
Proof. eexists. vm_compute. done. Qed.

End Witness.
