(* ===== verification/ServerSessions.v ===== *)
(** * Client sessions of the server (Server.cc)

    Clients ask for a session to be opened, renewed and closed; idle sessions go stale and are
    killed; other ranks' clients get sessions when their capabilities are imported; and after a
    failure clients reconnect.  Opening and closing are journalled: the session changes its state at
    once, to an intermediate one, and the change is completed when the journal entry is safe
    ([_session_logged]), unless the session went on to another state meanwhile, which the sequence
    number of its state shows.

    [SessionMap], [Session] and [InoTable] are not in the repository: their methods are the classes
    [SessionOps] and [InoOps].  Sessions are named by numbers, one for each object, [sv_log] is the queue of contexts
    that wait for the journal, and calls on other parts are the trace of [se_effect]s. *)

From stdpp Require Import base tactics numbers list gmap sorting.
From Stdlib Require Import ZArith Lia.
From S2P Require Import Prelude Stats.
Open Scope Z_scope.
Open Scope list_scope.

Inductive session_state := CLOSED | OPENING | OPEN | CLOSING | STALE | KILLING.
#[export] Instance session_state_eqdec : EqDecision session_state.
Proof. solve_decision. Defined.

(** [SessionMap] and [Session]; [T] is [utime_t], a client is named by its number. *)
Class SessionOps (M T : Type) := {
  state_of : M -> Z -> session_state;
  state_seq : M -> Z -> Z;
  importing : M -> Z -> Z;                        (* the count of inc_importing and dec_importing *)
  client_of : M -> Z -> Z;                        (* info.get_client() *)
  connected : M -> Z -> bool;                     (* connection != NULL *)
  export_peer : M -> Z -> bool;                   (* connection->has_feature(CEPH_FEATURE_EXPORT_PEER) *)
  push_seq : M -> Z -> Z;
  last_cap_renew : M -> Z -> T;
  caps : M -> Z -> list Z;
  leases : M -> Z -> list Z;
  requests : M -> Z -> list Z;
  prealloc_inos : M -> Z -> gset Z;               (* info.prealloc_inos *)
  pending_prealloc_inos : M -> Z -> gset Z;
  get_session : M -> Z -> option Z;               (* of a client *)
  get_client_set : M -> gset Z;
  get_client_session_set : M -> list Z;
  get_oldest_session : M -> session_state -> option Z;
  set_state : Z -> session_state -> M -> M;       (* its result is the new state_seq *)
  add_session : Z -> M -> M;
  remove_session : Z -> M -> M;
  get_or_add_session : Z -> M -> M * Z;
  touch_session : Z -> M -> M;
  set_client_metadata : Z -> M -> M;
  inc_importing : Z -> M -> M;
  dec_importing : Z -> M -> M;
  session_clear : Z -> M -> M;
  take_inos : Z -> M -> M;                        (* swaps out the one set and clears the other *)
  remove_client_caps : Z -> M -> M;               (* the loops that remove all capabilities and leases *)
  wait_for_flush : Z -> M -> M * Z;
  finish_flush : Z -> Z -> M -> M;
  notify_recall_sent : Z -> Z -> M -> M
}.
Class InoOps (I : Type) := {
  ino_version : I -> Z;
  ino_projected : I -> Z;
  project_release_ids : gset Z -> I -> I;
  apply_release_ids : gset Z -> I -> I
}.

Inductive session_msg := SESSION_OPEN | SESSION_CLOSE | SESSION_RENEWCAPS (seq : Z) | SESSION_STALE (seq : Z) | SESSION_FLUSHMSG (seq : Z)
  | SESSION_RECALL_STATE (max_caps : Z) | SESSION_FORCE_RO.

Inductive se_effect :=
| SendOnConnection (x : Z) (m : session_msg)      (* connection->send_message *)
| SendClient (x : Z) (m : session_msg)            (* mds->send_message_client *)
| FlushLog
| ResumeStaleCaps (x : Z)
| RevokeStaleCaps (x : Z)
| RemoveStaleLeases (x : Z)
| RemoveClientCap (x cap : Z)
| RemoveClientLease (x lease : Z)
| KillRequest (x r : Z)
| QueueFlushed (x seq : Z)                        (* the waiters of the flush *)
| MarkDisposable (x : Z)
| MarkDown (x : Z)
| CompleteContext (fin : Z)
| WaitForSafe                                     (* of terminate_sessions *)
| ReconnectDone
| FinishRealm (client ino seq : Z)                (* finish_snaprealm_reconnect *)
| AddRealm (client ino seq : Z)                   (* add_reconnected_snaprealm *)
| ReconnectCap (client ino : Z)                   (* reconnect_cap, add_reconnected_cap and the file locks *)
| ExportCap (client ino : Z)                      (* rejoin_export_caps *)
| RecoverCap (client ino : Z)                     (* rejoin_recovered_caps *)
| WaitReconnect.

(** A context that waits for the journal: [C_MDS_session_finish], the end of a forced open, or
    another user of the table of inodes. *)
Inductive pending :=
| PSession (x sseq : Z) (open : bool) (pv : Z) (inos : gset Z) (piv : Z) (fin : option Z)
| PForced (cm : list Z) (sseqmap : gmap Z Z)
| PInodes (inos : gset Z) (piv : Z).

Inductive session_op := REQUEST_OPEN | REQUEST_RENEWCAPS | REQUEST_CLOSE | FLUSHMSG_ACK | OTHER_OP.
#[export] Instance session_op_eqdec : EqDecision session_op.
Proof. solve_decision. Defined.

(** ** Which messages are handled when *)

(** What is read of a message; a request is [completed] when its session has its answer. *)
Inductive server_msg :=
| ClientReconnect
| ClientSession (op : session_op)
| ClientRequest (is_replay retried completed : bool)
| SlaveRequest
| UnknownMsg.
Record mds_phase := mk_phase { ph_active : bool; ph_stopping : bool; ph_reconnect : bool; ph_want_reconnect : bool; ph_clientreplay : bool }.
Inductive route := HandleReconnect | HandleSession | HandleRequest | HandleSlave | EnqueueReplay | WaitForActive.
#[export] Instance route_eqdec : EqDecision route.
Proof. solve_decision. Defined.

(** early replays, and whether the releases of the message are dropped *)
Definition early_replay (ph : mds_phase) (m : server_msg) : bool * bool :=
  match m with
  | ClientRequest is_replay retried completed =>
      if ph_reconnect ph || ph_want_reconnect ph then
        if is_replay then (true, false) else if retried then (completed, true) else (false, false)
      else (false, false)
  | _ => (false, false)
  end.
Definition waits_for_active (ph : mds_phase) (m : server_msg) : bool :=
  match m with
  | SlaveRequest => false
  | ClientSession op => negb (ph_clientreplay ph && negb (bool_decide (op = REQUEST_CLOSE)))
  | ClientRequest is_replay _ completed => negb (ph_clientreplay ph && (is_replay || completed))
  | _ => true
  end.
Definition server_handle (m : server_msg) : res route :=
  match m with
  | ClientSession _ => Ok HandleSession
  | ClientRequest _ _ _ => Ok HandleRequest
  | SlaveRequest => Ok HandleSlave
  | _ => Abort
  end.
(** the answer has whether the releases were dropped *)
Definition server_dispatch (ph : mds_phase) (from_mds : bool) (m : server_msg) : res (route * bool) :=
  match m with
  | ClientReconnect => Ok (HandleReconnect, false)
  | _ =>
      if negb (ph_active ph) && negb (ph_stopping ph && from_mds) then
        let '(replay, cleared) := early_replay ph m in
        if replay then Ok (EnqueueReplay, cleared)
        else if waits_for_active ph m then Ok (WaitForActive, cleared)
        else r ← server_handle m; Ok (r, cleared)
      else r ← server_handle m; Ok (r, false)
  end.

(** Before the rank is active a client's request is handled only in the replay of clients, and only
    one that is replayed or has its answer; a close is not handled at all. *)
Lemma inactive_requests ph m c : ph_active ph = false -> ph_stopping ph = false -> forall from_mds, server_dispatch ph from_mds m = Ok (HandleRequest, c) ->
  ph_clientreplay ph = true /\ exists is_replay retried completed, m = ClientRequest is_replay retried completed /\ (is_replay = true \/ completed = true).
Proof.
  intros Ha Hs from. unfold server_dispatch. rewrite Ha, Hs. destruct m as [|op|rp rt cp| |]; cbn; [done|by destruct (negb _)| |done|done].
  destruct (ph_reconnect ph || ph_want_reconnect ph), rp, rt, cp, (ph_clientreplay ph); cbn; try done; intros _; (split; [done|]); by eexists _, _, _; auto.
Qed.
Lemma inactive_close ph from_mds : ph_active ph = false -> ph_stopping ph = false -> server_dispatch ph from_mds (ClientSession REQUEST_CLOSE) = Ok (WaitForActive, false).
Proof. intros Ha Hs. unfold server_dispatch. rewrite Ha, Hs. cbn. by destruct (ph_clientreplay ph). Qed.

Section Sessions.
Context {M T I : Type} `{UTime T} `{SessionOps M T} `{InoOps I}.
Context (is_readonly : bool).                     (* mdcache->is_readonly() *)

Record server := mk_server {
  sv_map : M;
  sv_version : Z;                                 (* sessionmap.version *)
  sv_projected : Z;                               (* sessionmap.projected *)
  sv_inotable : I;
  sv_log : list pending;
  sv_reconnect : gset Z;                          (* client_reconnect_gather *)
  sv_failed : Z;                                  (* failed_reconnects *)
  sv_terminating : bool
}.
Implicit Types s : server.

Definition upd_map (m : M) s : server :=
  mk_server m (sv_version s) (sv_projected s) (sv_inotable s) (sv_log s) (sv_reconnect s) (sv_failed s) (sv_terminating s).
Definition bump_version s : server :=
  mk_server (sv_map s) (sv_version s + 1) (sv_projected s) (sv_inotable s) (sv_log s) (sv_reconnect s) (sv_failed s) (sv_terminating s).
Definition bump_projected s : server :=
  mk_server (sv_map s) (sv_version s) (sv_projected s + 1) (sv_inotable s) (sv_log s) (sv_reconnect s) (sv_failed s) (sv_terminating s).
Definition upd_inotable (i : I) s : server :=
  mk_server (sv_map s) (sv_version s) (sv_projected s) i (sv_log s) (sv_reconnect s) (sv_failed s) (sv_terminating s).
Definition submit (p : pending) s : server :=
  mk_server (sv_map s) (sv_version s) (sv_projected s) (sv_inotable s) (sv_log s ++ [p]) (sv_reconnect s) (sv_failed s) (sv_terminating s).
Definition upd_log (l : list pending) s : server :=
  mk_server (sv_map s) (sv_version s) (sv_projected s) (sv_inotable s) l (sv_reconnect s) (sv_failed s) (sv_terminating s).
Definition upd_reconnect (g : gset Z) (failed : Z) s : server :=
  mk_server (sv_map s) (sv_version s) (sv_projected s) (sv_inotable s) (sv_log s) g failed (sv_terminating s).
Definition upd_terminating (b : bool) s : server :=
  mk_server (sv_map s) (sv_version s) (sv_projected s) (sv_inotable s) (sv_log s) (sv_reconnect s) (sv_failed s) b.

Definition is_in (s : server) (x : Z) (l : list session_state) : bool := bool_decide (state_of (sv_map s) x ∈ l).
Definition is_importing s (x : Z) : bool := 0 <? importing (sv_map s) x.
Definition change (x : Z) (st : session_state) s : server := upd_map (set_state x st (sv_map s)) s.
Definition touch_one (x : Z) s : server := upd_map (touch_session x (sv_map s)) s.

Definition finish_flush_session (x seq : Z) s : server * list se_effect := (upd_map (finish_flush x seq (sv_map s)) s, [QueueFlushed x seq]).

Definition journal_close_session (x : Z) (st : session_state) (on_safe : option Z) s : server * list se_effect :=
  let s := change x st s in
  let sseq := state_seq (sv_map s) x in
  let s := bump_projected s in
  let pv := sv_projected s in
  let both := prealloc_inos (sv_map s) x ∪ pending_prealloc_inos (sv_map s) x in
  let s := upd_map (take_inos x (sv_map s)) s in
  let '(s, piv) :=
    if bool_decide (both = ∅) then (s, 0)
    else let s := upd_inotable (project_release_ids both (sv_inotable s)) s in (s, ino_projected (sv_inotable s)) in
  let s := submit (PSession x sseq false pv both piv on_safe) s in
  let kills := map (KillRequest x) (requests (sv_map s) x) in
  let '(s, es) := finish_flush_session x (push_seq (sv_map s) x) s in
  (s, [FlushLog] ++ kills ++ es).

(** ** Messages *)

Record session_request := mk_sreq { sq_from_client : bool; sq_op : session_op; sq_seq : Z }.

Definition open_session (x : Z) s : res (server * list se_effect) :=
  if is_in s x [OPENING; OPEN; STALE; KILLING] then Ok (s, [])
  else
    check (is_in s x [CLOSED; CLOSING]) ;;
    let s := upd_map (set_client_metadata x (sv_map s)) s in
    let s := if is_in s x [CLOSED] then upd_map (add_session x (sv_map s)) s else s in
    let s := change x OPENING s in
    let sseq := state_seq (sv_map s) x in
    let s := bump_projected (touch_one x s) in
    Ok (submit (PSession x sseq true (sv_projected s) ∅ 0 None) s, [FlushLog]).

Definition renew_session (x seq : Z) s : server * list se_effect :=
  if is_in s x [OPEN; STALE] then
    let s := touch_one x s in
    let '(s, es) := if is_in s x [STALE] then (touch_one x (change x OPEN s), [ResumeStaleCaps x]) else (s, []) in
    (s, es ++ [SendOnConnection x (SESSION_RENEWCAPS seq)])
  else (s, []).

Definition close_session (x seq : Z) s : res (server * list se_effect) :=
  if is_in s x [CLOSED; CLOSING; KILLING] then Ok (s, [])
  else if is_importing s x then Ok (s, [])
  else
    check (is_in s x [OPEN; STALE; OPENING]) ;;
    if seq <? push_seq (sv_map s) x then Ok (s, [])
    else check (seq =? push_seq (sv_map s) x) ;; Ok (journal_close_session x CLOSING None s).

(** [session] is that of the connection *)
Definition handle_client_session (session : option Z) (m : session_request) s : res (server * list se_effect) :=
  check (sq_from_client m) ;;
  match session with
  | None => Ok (s, [])
  | Some x =>
      match sq_op m with
      | REQUEST_OPEN => open_session x s
      | REQUEST_RENEWCAPS => Ok (renew_session x (sq_seq m) s)
      | REQUEST_CLOSE => close_session x (sq_seq m) s
      | FLUSHMSG_ACK => Ok (finish_flush_session x (sq_seq m) s)
      | OTHER_OP => Abort
      end
  end.

Fixpoint flush_client_sessions (clients : list Z) s : res (server * list se_effect) :=
  match clients with
  | [] => Ok (s, [])
  | c :: clients =>
      match get_session (sv_map s) c with
      | None => Abort
      | Some x =>
          let '(s, es) :=
            if is_in s x [OPEN] && connected (sv_map s) x && export_peer (sv_map s) x then
              let '(m, seq) := wait_for_flush x (sv_map s) in (upd_map m s, [SendClient x (SESSION_FLUSHMSG seq)])
            else (s, []) in
          '(s, es') ← flush_client_sessions clients s;
          Ok (s, es ++ es')
      end
  end.

(** ** The journal *)

Definition reconnect_gather_finish : list se_effect := [ReconnectDone].

(** the client is no longer waited for *)
Definition drop_reconnect (c : Z) s : server * list se_effect :=
  if bool_decide (c ∈ sv_reconnect s) then
    let s := upd_reconnect (sv_reconnect s ∖ {[c]}) (sv_failed s) s in
    (s, if bool_decide (sv_reconnect s = ∅) then reconnect_gather_finish else [])
  else (s, []).

(** a closing or killing session goes *)
Definition end_session (x : Z) s : server * list se_effect :=
  let kills := map (RemoveClientCap x) (caps (sv_map s) x) ++ map (RemoveClientLease x) (leases (sv_map s) x) in
  let s := upd_map (remove_client_caps x (sv_map s)) s in
  let '(s, es) := drop_reconnect (client_of (sv_map s) x) s in
  if is_in s x [CLOSING] then
    let es' := (if connected (sv_map s) x then [MarkDisposable x] else []) ++ [SendClient x SESSION_CLOSE] in
    let s := change x CLOSED s in
    (upd_map (remove_session x (session_clear x (sv_map s))) s, kills ++ es ++ es')
  else (upd_map (remove_session x (sv_map s)) s, kills ++ es ++ (if connected (sv_map s) x then [MarkDown x] else [])).

Definition _session_logged (x state_seq_ : Z) (open : bool) (inos : gset Z) (piv : Z) s : res (server * list se_effect) :=
  s ← (if piv =? 0 then Ok s
       else
         let s := upd_inotable (apply_release_ids inos (sv_inotable s)) s in
         check (ino_version (sv_inotable s) =? piv) ;; Ok s);
  '(s, es) ←
    (if negb (state_seq (sv_map s) x =? state_seq_) then Ok (s, [])
     else if open then
       check (is_in s x [OPENING]) ;;
       let s := touch_one x (change x OPEN s) in
       check (connected (sv_map s) x) ;;
       Ok (s, SendOnConnection x SESSION_OPEN :: (if is_readonly then [SendOnConnection x SESSION_FORCE_RO] else []))
     else check (is_in s x [CLOSING; KILLING]) ;; Ok (end_session x s));
  Ok (bump_version s, es).

(** ** Sessions that are opened for others *)

Fixpoint prepare_force_open (cm : list Z) (sseqmap : gmap Z Z) s : res (server * gmap Z Z) :=
  match cm with
  | [] => Ok (s, sseqmap)
  | c :: cm =>
      let '(m, x) := get_or_add_session c (sv_map s) in
      let s := upd_map m s in
      '(s, sseqmap) ←
        (if is_in s x [CLOSED; CLOSING; KILLING] then
           let s := change x OPENING s in Ok (s, <[c := state_seq (sv_map s) x]> sseqmap)
         else check (is_in s x [OPEN; OPENING; STALE]) ;; Ok (s, sseqmap));
      prepare_force_open cm sseqmap (upd_map (inc_importing x (sv_map s)) s)
  end.
(** the clients in their order; the answer has [sseqmap] too *)
Definition prepare_force_open_sessions (cm : list Z) (sseqmap : gmap Z Z) s : res (server * gmap Z Z * Z) :=
  let s := bump_projected s in
  '(s', sseqmap) ← prepare_force_open cm sseqmap s;
  Ok (s', sseqmap, sv_projected s).

Fixpoint finish_force_open (cm : list Z) (sseqmap : gmap Z Z) (dec_import : bool) s : res (server * list se_effect) :=
  match cm with
  | [] => Ok (s, [])
  | c :: cm =>
      match get_session (sv_map s) c with
      | None => Abort
      | Some x =>
          '(s, es) ←
            (match sseqmap !! c with
             | Some sseq =>
                 if negb (state_seq (sv_map s) x =? sseq) then Ok (s, [])
                 else Ok (touch_one x (change x OPEN s),
                          SendClient x SESSION_OPEN :: (if is_readonly then [SendClient x SESSION_FORCE_RO] else []))
             | None => check (is_in s x [OPEN; STALE]) ;; Ok (s, [])
             end);
          let s := if dec_import then upd_map (dec_importing x (sv_map s)) s else s in
          '(s, es') ← finish_force_open cm sseqmap dec_import s;
          Ok (s, es ++ es')
      end
  end.
Definition finish_force_open_sessions (cm : list Z) (sseqmap : gmap Z Z) (dec_import : bool) s : res (server * list se_effect) :=
  '(s, es) ← finish_force_open cm sseqmap dec_import s; Ok (bump_version s, es).

(** the sessions of imported capabilities: the step of MDCache::process_imported_caps that journals them;
    [rejoin_open_sessions_finish] calls the finish when that is safe *)
Definition open_imported (cm : list Z) s : res (server * list se_effect) :=
  '(s, sseqmap, pv) ← prepare_force_open_sessions cm ∅ s;
  Ok (submit (PForced cm sseqmap) s, [FlushLog]).

(** the journal is safe up to the next entry *)
Definition complete_next s : res (server * list se_effect) :=
  match sv_log s with
  | [] => Ok (s, [])
  | PSession x sseq open pv inos piv fin :: log =>
      '(s, es) ← _session_logged x sseq open inos piv (upd_log log s);
      Ok (s, es ++ match fin with Some c => [CompleteContext c] | None => [] end)
  | PForced cm sseqmap :: log => finish_force_open_sessions cm sseqmap true (upd_log log s)
  | PInodes inos piv :: log =>
      let s := upd_inotable (apply_release_ids inos (sv_inotable s)) (upd_log log s) in
      check (ino_version (sv_inotable s) =? piv) ;; Ok (s, [])
  end.

(** ** Idle and unwanted sessions *)

Definition kill_session (x : Z) (on_safe : option Z) s : res (server * list se_effect) :=
  if is_in s x [OPENING; OPEN; STALE] && negb (is_importing s x) then Ok (journal_close_session x KILLING on_safe s)
  else
    check (is_in s x [CLOSING; CLOSED; KILLING] || is_importing s x) ;;
    Ok (s, match on_safe with Some c => [CompleteContext c] | None => [] end).

Fixpoint terminate_all (xs : list Z) s : server * list se_effect :=
  match xs with
  | [] => (s, [])
  | x :: xs =>
      let '(s, es) := if is_in s x [CLOSING; KILLING; CLOSED] then (s, []) else journal_close_session x CLOSING None s in
      let '(s, es') := terminate_all xs s in (s, es ++ es')
  end.
Definition terminated_sessions_finish s : server := upd_terminating false s.
(** [terminated_sessions_finish] is the context of the wait *)
Definition terminate_sessions s : server * list se_effect :=
  let '(s, es) := terminate_all (get_client_session_set (sv_map s)) s in (s, es ++ [WaitForSafe]).

(** [n] bounds the rounds *)
Fixpoint stale_sessions (n : nat) (cutoff : T) s : option (server * list se_effect) :=
  match get_oldest_session (sv_map s) OPEN with
  | None => Some (s, [])
  | Some x =>
      if k_leb cutoff (last_cap_renew (sv_map s) x) then Some (s, [])
      else
        match n with
        | O => None
        | S n =>
            let s := change x STALE s in
            let seq := push_seq (sv_map s) x in
            let '(s, es) := finish_flush_session x seq s in
            '(s, es') ← stale_sessions n cutoff s;
            Some (s, [RevokeStaleCaps x; RemoveStaleLeases x; SendClient x (SESSION_STALE seq)] ++ es ++ es')
        end
  end.
Fixpoint autoclose_sessions (n : nat) (cutoff : T) s : option (res (server * list se_effect)) :=
  match get_oldest_session (sv_map s) STALE with
  | None => Some (Ok (s, []))
  | Some x =>
      if is_importing s x then Some (Ok (s, []))
      else if negb (is_in s x [STALE]) then Some Abort
      else if k_leb cutoff (last_cap_renew (sv_map s) x) then Some (Ok (s, []))
      else
        match n, kill_session x None s with
        | O, _ => None
        | _, Abort => Some Abort
        | S n, Ok (s, es) =>
            match autoclose_sessions n cutoff s with
            | Some (Ok (s, es')) => Some (Ok (s, es ++ es'))
            | r => r
            end
        end
  end.
(** the cutoffs are the time less the timeouts *)
Definition find_idle_sessions (n : nat) (stale_cutoff close_cutoff laggy_until : T) s : option (res (server * list se_effect)) :=
  match stale_sessions n stale_cutoff s with
  | None => None
  | Some (s, es) =>
      if k_ltb close_cutoff laggy_until then Some (Ok (s, es))
      else match autoclose_sessions n close_cutoff s with
           | Some (Ok (s, es')) => Some (Ok (s, es ++ es'))
           | r => r
           end
  end.

(** ** Reconnecting clients *)

Definition reconnect_clients s : server * list se_effect :=
  let s := upd_reconnect (sv_reconnect s ∪ get_client_set (sv_map s)) (sv_failed s) s in
  (s, if bool_decide (sv_reconnect s = ∅) then reconnect_gather_finish else []).

(** What the handler reads of an inode. *)
Record rc_inode := mk_rci { ri_purging : bool; ri_auth : bool; ri_snaprealm : bool; ri_parents_open : bool }.
(** The realms (inode and sequence number) and the capabilities (inode and id) of the message. *)
Record reconnect_msg := mk_rcmsg { rc_from : Z; rc_realms : list (Z * Z); rc_caps : list (Z * Z) }.

Definition reconnect_realm (get_inode : Z -> option rc_inode) (from : Z) (r : Z * Z) : res (list se_effect) :=
  match get_inode (fst r) with
  | Some i =>
      if ri_purging i then Ok []
      else check (ri_snaprealm i) ;; Ok [if ri_parents_open i then FinishRealm from (fst r) (snd r) else AddRealm from (fst r) (snd r)]
  | None => Ok [AddRealm from (fst r) (snd r)]
  end.
Fixpoint reconnect_realms (get_inode : Z -> option rc_inode) (from : Z) (l : list (Z * Z)) : res (list se_effect) :=
  match l with
  | [] => Ok []
  | r :: l => e ← reconnect_realm get_inode from r; es ← reconnect_realms get_inode from l; Ok (e ++ es)
  end.
Definition reconnect_one_cap (get_inode : Z -> option rc_inode) (from : Z) (c : Z * Z) : list se_effect :=
  match get_inode (fst c) with
  | Some i => if ri_purging i then [] else if ri_auth i then [ReconnectCap from (fst c)] else [ExportCap from (fst c)]
  | None => [RecoverCap from (fst c)]
  end.

(** the handler; [last_cap_id] is that of the cache *)
Definition handle_client_reconnect (get_inode : Z -> option rc_inode) (is_reconnect want_reconnect : bool) (session : option Z) (m : reconnect_msg)
    (last_cap_id : Z) s : res (server * Z * list se_effect) :=
  match session with
  | None => Abort
  | Some x =>
      if negb is_reconnect && want_reconnect then Ok (s, last_cap_id, [WaitReconnect])
      else if negb is_reconnect || is_in s x [CLOSED] || is_readonly then Ok (s, last_cap_id, [SendOnConnection x SESSION_CLOSE])
      else
        es ← reconnect_realms get_inode (rc_from m) (rc_realms m);
        let last_cap_id := fold_left (fun a c => if a <? snd c then snd c else a) (rc_caps m) last_cap_id in
        let es' := flat_map (reconnect_one_cap get_inode (rc_from m)) (rc_caps m) in
        let s := upd_reconnect (sv_reconnect s ∖ {[rc_from m]}) (sv_failed s) s in
        Ok (s, last_cap_id, SendOnConnection x SESSION_OPEN :: es ++ es' ++ (if bool_decide (sv_reconnect s = ∅) then reconnect_gather_finish else []))
  end.

Fixpoint kill_waited (clients : list Z) s : res (server * list se_effect) :=
  match clients with
  | [] => Ok (s, [])
  | c :: clients =>
      match get_session (sv_map s) c with
      | None => Abort
      | Some x =>
          '(s, es) ← kill_session x None s;
          '(s, es') ← kill_waited clients (upd_reconnect (sv_reconnect s) (sv_failed s + 1) s);
          Ok (s, es ++ es')
      end
  end.
(** [timed_out]: the clock is past [reconnect_start] and the timeout *)
Definition reconnect_tick (timed_out : bool) s : res (server * list se_effect) :=
  if timed_out && negb (bool_decide (sv_reconnect s = ∅)) then
    '(s, es) ← kill_waited (ordered_elems (sv_reconnect s)) s;
    Ok (upd_reconnect ∅ (sv_failed s) s, es ++ reconnect_gather_finish)
  else Ok (s, []).

Definition waiting_for_reconnect (c : Z) s : bool := bool_decide (c ∈ sv_reconnect s).

(** ** Messages to all clients *)

(** [scaled] is [(int)(n * ratio)], [max_caps] the share of the cache; the sessions are those of clients *)
Fixpoint recall_all (scaled : Z -> Z) (max_caps : Z) (xs : list Z) s : server * list se_effect :=
  match xs with
  | [] => (s, [])
  | x :: xs =>
      let n := Z.of_nat (length (caps (sv_map s) x)) in
      let newlim := Z.min (scaled n) max_caps in
      let '(s, es) :=
        if is_in s x [OPEN] && (100 <? n) && (newlim <? n) then
          (upd_map (notify_recall_sent x newlim (sv_map s)) s, [SendClient x (SESSION_RECALL_STATE newlim)])
        else (s, []) in
      let '(s, es') := recall_all scaled max_caps xs s in (s, es ++ es')
  end.
Definition recall_client_state (scaled : Z -> Z) (max_caps : Z) s : server * list se_effect :=
  recall_all scaled max_caps (get_client_session_set (sv_map s)) s.

Definition force_clients_readonly s : list se_effect :=
  flat_map (fun x => if is_in s x [OPEN; STALE] then [SendClient x SESSION_FORCE_RO] else []) (get_client_session_set (sv_map s)).

End Sessions.
