(* ===== verification/SessionMachine.v ===== *)
(** * Sessions and the journal, interleaved (Server.cc)

    Requests of clients, forced opens, idle and killed sessions and reconnects, in any order with
    the completions of the journal.  Shown here: no assert of these handlers fails, the versions of
    the session map and of the table of inodes add up, sessions with an import under way stay open,
    and no session is stuck in an intermediate state once the journal is safe. *)

From stdpp Require Import base tactics numbers list gmap sorting.
From Stdlib Require Import ZArith Lia.
From S2P Require Import Prelude Stats ServerSessions.
Open Scope Z_scope.
Open Scope list_scope.

(** ** What is known of the session map *)

Section Laws.
Context {M T : Type} `{SessionOps M T}.

(** What the code decides by. *)
Record same_view (m m' : M) : Prop := {
  sw_state : forall x, state_of m' x = state_of m x;
  sw_seq : forall x, state_seq m' x = state_seq m x;
  sw_importing : forall x, importing m' x = importing m x;
  sw_find : forall c, get_session m' c = get_session m c;
  sw_connected : forall x, connected m' x = connected m x;
  sw_client : forall x, client_of m' x = client_of m x
}.

(** A change of state to another one gets a sequence number of its own; a session is found by its
    client; the rest does not touch what the code decides by. *)
Class SessionLaws : Prop := {
  set_state_state : forall x st m y, state_of (set_state x st m) y = if y =? x then st else state_of m y;
  set_state_seq : forall x st m, state_of m x <> st -> state_seq m x < state_seq (set_state x st m) x;
  set_state_other : forall x st m y, y <> x -> state_seq (set_state x st m) y = state_seq m y;
  set_state_rest : forall x st m, (forall y, importing (set_state x st m) y = importing m y) /\ (forall c, get_session (set_state x st m) c = get_session m c) /\
    (forall y, connected (set_state x st m) y = connected m y) /\ (forall y, client_of (set_state x st m) y = client_of m y);
  find_client : forall m c x, get_session m c = Some x -> client_of m x = c;
  add_same : forall x m, (forall y, state_of (add_session x m) y = state_of m y) /\ (forall y, state_seq (add_session x m) y = state_seq m y) /\
    (forall y, importing (add_session x m) y = importing m y) /\ (forall y, connected (add_session x m) y = connected m y) /\
    (forall c, get_session (add_session x m) c = if c =? client_of m x then Some x else get_session m c) /\
    (forall y, client_of (add_session x m) y = client_of m y);
  remove_same : forall x m, (forall y, state_of (remove_session x m) y = state_of m y) /\ (forall y, state_seq (remove_session x m) y = state_seq m y) /\
    (forall y, importing (remove_session x m) y = importing m y) /\ (forall y, connected (remove_session x m) y = connected m y) /\
    (forall c, get_session (remove_session x m) c = if decide (get_session m c = Some x) then None else get_session m c) /\
    (forall y, client_of (remove_session x m) y = client_of m y);
  get_or_add_same : forall c m m' x, get_or_add_session c m = (m', x) -> get_session m' c = Some x /\
    (forall y, state_of m' y = state_of m y) /\ (forall y, state_seq m' y = state_seq m y) /\
    (forall y, importing m' y = importing m y) /\ (forall y, connected m' y = connected m y) /\
    (forall c', c' <> c -> get_session m' c' = get_session m c') /\
    (forall y, get_session m c = Some y -> y = x) /\ (get_session m c = None -> state_of m x = CLOSED);
  importing_nonneg : forall m x, 0 <= importing m x;
  inc_same : forall x m, (forall y, state_of (inc_importing x m) y = state_of m y) /\ (forall y, state_seq (inc_importing x m) y = state_seq m y) /\
    (forall y, importing (inc_importing x m) y = importing m y + if y =? x then 1 else 0) /\ (forall y, connected (inc_importing x m) y = connected m y) /\
    (forall c, get_session (inc_importing x m) c = get_session m c) /\ (forall y, client_of (inc_importing x m) y = client_of m y);
  dec_same : forall x m, (forall y, state_of (dec_importing x m) y = state_of m y) /\ (forall y, state_seq (dec_importing x m) y = state_seq m y) /\
    (0 < importing m x -> forall y, importing (dec_importing x m) y = importing m y - if y =? x then 1 else 0) /\ (forall y, connected (dec_importing x m) y = connected m y) /\
    (forall c, get_session (dec_importing x m) c = get_session m c) /\ (forall y, client_of (dec_importing x m) y = client_of m y);
  touch_same : forall x m, same_view m (touch_session x m);
  metadata_same : forall x m, same_view m (set_client_metadata x m);
  clear_same : forall x m, same_view m (session_clear x m);
  take_same : forall x m, same_view m (take_inos x m);
  caps_same : forall x m, same_view m (remove_client_caps x m);
  wait_same : forall x m, same_view m (fst (wait_for_flush x m));
  flush_same : forall x q m, same_view m (finish_flush x q m);
  recall_same : forall x q m, same_view m (notify_recall_sent x q m);
  client_set_found : forall m c, c ∈ get_client_set m -> is_Some (get_session m c);
  oldest_state : forall m st x, get_oldest_session m st = Some x -> state_of m x = st /\ x ∈ get_client_session_set m;
  session_set_state : forall x st m, get_client_session_set (set_state x st m) = get_client_session_set m;
  session_set_take : forall x m, get_client_session_set (take_inos x m) = get_client_session_set m;
  session_set_flush : forall x q m, get_client_session_set (finish_flush x q m) = get_client_session_set m
}.

#[global] Instance same_view_pre : PreOrder same_view.
Proof. split; [done|]. intros m1 m2 m3 [] []. split; intros; congruence. Qed.

End Laws.
Arguments SessionLaws M T {_}.

(** States in lists. *)
Ltac states := repeat match goal with H : _ ∈ _ :: _ |- _ => apply elem_of_cons in H as [H|H] | H : _ ∈ [] |- _ => by apply elem_of_nil in H
  | H : _ ∉ _ :: _ |- _ => apply not_elem_of_cons in H as [? H] end; rewrite ?not_elem_of_cons, ?elem_of_cons, ?elem_of_nil; intuition congruence.

Section Log.
Context {M T : Type} `{SessionOps M T} `{!SessionLaws M T}.
Implicit Types m : M.
Implicit Types log : list pending.

(** ** What the queue promises *)

(** The clients whose sessions are held open until the queue is done. *)
Definition clients_of (p : pending) : list Z := match p with PForced cm _ => cm | _ => [] end.
Definition owing log : list Z := flat_map clients_of log.
Definition times (c : Z) (l : list Z) : Z := Z.of_nat (length (filter (fun y => y = c) l)).

(** An entry that opens the session in its state of number [q]. *)
Definition opens m (x q : Z) (p : pending) : Prop :=
  match p with
  | PSession y q' open _ _ _ _ => y = x /\ q' = q /\ open = true
  | PForced cm sq => exists c, c ∈ cm /\ sq !! c = Some q /\ get_session m c = Some x
  | PInodes _ _ => False
  end.
Definition closes (x q : Z) (p : pending) : Prop := match p with PSession y q' open _ _ _ _ => y = x /\ q' = q /\ open = false | _ => False end.

(** An entry is not from the future, and one that is current finds the session as it left it. *)
Definition entry_ok m (p : pending) : Prop :=
  match p with
  | PSession x q open _ _ _ _ => q <= state_seq m x /\
      (q = state_seq m x -> if open then state_of m x = OPENING /\ connected m x = true else state_of m x ∈ [CLOSING; KILLING])
  | PForced cm sq => forall c x, c ∈ cm -> get_session m c = Some x ->
      match sq !! c with Some q => q <= state_seq m x /\ (q = state_seq m x -> state_of m x = OPENING) | None => True end
  | PInodes _ _ => True
  end.

(** [e] may lack its entry. *)
Record log_ok (e : option Z) m log : Prop := {
  lo_entries : forall p, p ∈ log -> entry_ok m p;
  lo_found : forall c, c ∈ owing log -> exists x, get_session m c = Some x /\ state_of m x ∈ [OPENING; OPEN; STALE] /\ times c (owing log) <= importing m x;
  lo_before : forall l1 cm sq l2 c x, log = l1 ++ PForced cm sq :: l2 -> c ∈ cm -> sq !! c = None -> get_session m c = Some x ->
    state_of m x ∈ [OPEN; STALE] \/ exists p, p ∈ l1 /\ opens m x (state_seq m x) p;
  lo_opening : forall x, Some x <> e -> state_of m x = OPENING -> exists p, p ∈ log /\ opens m x (state_seq m x) p;
  lo_closing : forall x, Some x <> e -> state_of m x = CLOSING -> exists p, p ∈ log /\ closes x (state_seq m x) p
}.

Lemma owing_app l1 l2 : owing (l1 ++ l2) = owing l1 ++ owing l2.
Proof. apply flat_map_app. Qed.
Lemma owing_in log cm sq c : PForced cm sq ∈ log -> c ∈ cm -> c ∈ owing log.
Proof. intros Hp Hc. unfold owing. apply list_elem_of_In, in_flat_map. exists (PForced cm sq). split; by apply list_elem_of_In. Qed.

Lemma owing_mid l1 cm sq l2 c : c ∈ cm -> c ∈ owing (l1 ++ PForced cm sq :: l2).
Proof. apply owing_in with sq. set_solver. Qed.

Lemma times_app c l1 l2 : times c (l1 ++ l2) = times c l1 + times c l2.
Proof. unfold times. rewrite filter_app, length_app. lia. Qed.
Lemma times_one c d : times c [d] = if d =? c then 1 else 0.
Proof. unfold times. rewrite filter_cons. destruct (decide (d = c)), (Z.eqb_spec d c); (done || congruence). Qed.
Lemma times_pos c l : c ∈ l -> 0 < times c l.
Proof. intros Hc. unfold times. assert (c ∈ filter (fun y => y = c) l) as Hf by (by apply list_elem_of_filter). destruct (filter _ l); [by apply elem_of_nil in Hf|cbn; lia]. Qed.
Lemma times_none c l : c ∉ l -> times c l = 0.
Proof. intros Hc. unfold times. rewrite filter_none; [done|]. by intros y Hy ->. Qed.

Lemma find_same_session m c c' x : get_session m c = Some x -> get_session m c' = Some x -> c = c'.
Proof. intros E1%find_client E2%find_client. congruence. Qed.

(** Other parts of the sessions may change, and sessions nobody waits for come and go. *)
Record same_for log m m' : Prop := {
  sf_state : forall x, state_of m' x = state_of m x;
  sf_seq : forall x, state_seq m' x = state_seq m x;
  sf_importing : forall x, importing m' x = importing m x;
  sf_find : forall c, c ∈ owing log -> get_session m' c = get_session m c;
  sf_connected : forall x, connected m x = true -> connected m' x = true
}.
Lemma view_same_for log m m' : same_view m m' -> same_for log m m'.
Proof. intros []. split; auto. intros x Hx. congruence. Qed.

Lemma opens_same log m m' x q p : (forall c, c ∈ owing log -> get_session m' c = get_session m c) -> p ∈ log -> opens m' x q p <-> opens m x q p.
Proof.
  intros E Hp. destruct p as [|cm sq|]; cbn; [done| |done]. split; intros (c & Hc & Hs & Hg); exists c; (split; [done|]); (split; [done|]).
  - by rewrite <- E by (by eapply owing_in).
  - by rewrite E by (by eapply owing_in).
Qed.

Lemma log_same e m m' log : same_for log m m' -> log_ok e m log -> log_ok e m' log.
Proof.
  intros [V1 V2 V3 V4 V5] [L1 L2 L3 L4 L5]. split.
  - intros p Hp. specialize (L1 p Hp). destruct p as [x q o|cm sq|]; cbn in *; [rewrite V1, V2; destruct o; naive_solver| |done]. intros c x Hc.
    rewrite V4, V1, V2 by (by eapply owing_in). by apply L1.
  - intros c Hc. destruct (L2 c Hc) as (x & ? & ? & ?). exists x. by rewrite V4, V1, V3.
  - intros l1 cm sq l2 c x El Hc Hs. assert (c ∈ owing log) as Ho by (rewrite El; by apply owing_mid). rewrite V4, V1, V2 by done. intros Hg.
    destruct (L3 l1 cm sq l2 c x El Hc Hs Hg) as [?|(p & Hp & ?)]; [by left|right]. exists p. split; [done|]. rewrite (opens_same log m m'); [done|done|]. rewrite El. set_solver.
  - intros x Hx. rewrite V1, V2. intros Hs. destruct (L4 x Hx Hs) as (p & ? & ?). exists p. by rewrite (opens_same log m m').
  - intros x Hx. rewrite V1, V2. by apply L5.
Qed.

(** A session takes another state. *)
Definition free_of log m (x : Z) : Prop := forall c, get_session m c = Some x -> c ∉ owing log.

Lemma log_change m log x st : log_ok None m log -> state_of m x <> st -> free_of log m x \/ st ∈ [OPEN; STALE] -> log_ok (Some x) (set_state x st m) log.
Proof.
  intros [L1 L2 L3 L4 L5] Ns Hf. destruct (set_state_rest x st m) as (R1 & R2 & R3 & _). pose proof (set_state_state x st m) as S1.
  pose proof (set_state_seq x st m Ns) as S2. pose proof (set_state_other x st m) as S3.
  assert (forall c, c ∈ owing log -> get_session m c = Some x -> st ∈ [OPEN; STALE]) as Hin by (intros c Hc Hg; destruct Hf as [Hf|?]; [by destruct (Hf c Hg)|done]).
  assert (forall y q p, opens (set_state x st m) y q p <-> opens m y q p) as Hop.
  { intros y q p. destruct p; cbn; [done| |done]. by setoid_rewrite R2. }
  split.
  - intros p Hp. specialize (L1 p Hp). destruct p as [y q o pv i piv fin|cm sq|]; cbn in *; [| |done].
    + rewrite S1, R3. destruct (Z.eqb_spec y x) as [->|N]; [lia|by rewrite (S3 y N)].
    + intros c y Hc. rewrite R2, S1. intros Hg. specialize (L1 c y Hc Hg). destruct (sq !! c); [|done]. destruct (Z.eqb_spec y x) as [->|N]; [lia|by rewrite (S3 y N)].
  - intros c Hc. destruct (L2 c Hc) as (y & Hg & Hs & Hi). exists y. rewrite R2, S1, R1. split; [done|]. split; [|done].
    destruct (Z.eqb_spec y x) as [->|]; [|done]. specialize (Hin c Hc Hg). set_solver.
  - intros l1 cm sq l2 c y El Hc Hs. rewrite R2, S1. intros Hg. destruct (Z.eqb_spec y x) as [->|N].
    { left. apply (Hin c); [|done]. rewrite El. by apply owing_mid. }
    rewrite (S3 y N). destruct (L3 l1 cm sq l2 c y El Hc Hs Hg) as [?|(p & ? & ?)]; [by left|right]. exists p. by rewrite Hop.
  - intros y Ny. assert (y <> x) as N by congruence. rewrite S1, (S3 y N). destruct (Z.eqb_spec y x); [done|]. intros Hs.
    destruct (L4 y ltac:(done) Hs) as (p & ? & ?). exists p. by rewrite Hop.
  - intros y Ny. assert (y <> x) as N by congruence. rewrite S1, (S3 y N). destruct (Z.eqb_spec y x); [done|]. by apply L5.
Qed.

Lemma log_settled m log x : log_ok (Some x) m log -> state_of m x <> OPENING -> state_of m x <> CLOSING -> log_ok None m log.
Proof.
  intros [L1 L2 L3 L4 L5] No Nc. split; [done..| |].
  - intros y _ Hs. apply L4; [congruence|done].
  - intros y _ Hs. apply L5; [congruence|done].
Qed.

(** ** The ends of the queue *)

Lemma snoc_split {V} (l l1 l2 : list V) a b : l ++ [a] = l1 ++ b :: l2 -> (l2 = [] /\ a = b /\ l = l1) \/ exists l2', l2 = l2' ++ [a] /\ l = l1 ++ b :: l2'.
Proof.
  intros E. destruct (decide (l2 = [])) as [->|N].
  - left. apply app_inj_tail in E as [-> ->]. done.
  - right. destruct (exists_last N) as (l2' & z & ->). rewrite app_comm_cons, app_assoc in E. apply app_inj_tail in E as [-> ->]. by exists l2'.
Qed.

(** An entry that holds no session is appended. *)
Lemma log_append e m log p : log_ok e m log -> clients_of p = [] -> entry_ok m p ->
  (forall x, e = Some x -> (state_of m x = OPENING -> opens m x (state_seq m x) p) /\ (state_of m x = CLOSING -> closes x (state_seq m x) p)) ->
  log_ok None m (log ++ [p]).
Proof.
  intros [L1 L2 L3 L4 L5] Hc Ho He. assert (owing (log ++ [p]) = owing log) as Eo by (rewrite owing_app; cbn; by rewrite Hc, !app_nil_r). split.
  - intros p' [Hin| ->%list_elem_of_singleton]%elem_of_app; [by apply L1|done].
  - rewrite Eo. done.
  - intros l1 cm sq l2 c x El. destruct (snoc_split _ _ _ _ _ El) as [(_ & -> & _)|(l2' & _ & ->)]; [|by apply (L3 l1 cm sq l2')].
    cbn in Hc. subst cm. by intros ?%elem_of_nil.
  - intros x _ Hs. destruct (decide (e = Some x)) as [->|N].
    + exists p. split; [set_solver|]. by apply (He x).
    + destruct (L4 x (not_eq_sym N) Hs) as (p' & ? & ?). exists p'. split; [set_solver|done].
  - intros x _ Hs. destruct (decide (e = Some x)) as [->|N].
    + exists p. split; [set_solver|]. by apply (He x).
    + destruct (L5 x (not_eq_sym N) Hs) as (p' & ? & ?). exists p'. split; [set_solver|done].
Qed.

(** An entry that is done with is taken off. *)
Lemma log_drop e m log p : log_ok e m (p :: log) -> clients_of p = [] -> (forall x, ~ opens m x (state_seq m x) p) ->
  (forall x, closes x (state_seq m x) p -> state_of m x <> CLOSING) -> log_ok e m log.
Proof.
  intros [L1 L2 L3 L4 L5] Hc Ho Hcl. assert (owing (p :: log) = owing log) as Eo by (change (p :: log) with ([p] ++ log); rewrite owing_app; cbn; by rewrite Hc). split.
  - intros p' Hp. apply L1. by right.
  - rewrite Eo in L2. done.
  - intros l1 cm sq l2 c x -> Hcm Hs Hg. destruct (L3 (p :: l1) cm sq l2 c x eq_refl Hcm Hs Hg) as [?|(p' & [->|Hp]%elem_of_cons & Hop)]; [by left|by destruct (Ho x)|].
    right. by exists p'.
  - intros x Hx Hs. destruct (L4 x Hx Hs) as (p' & [->|Hp]%elem_of_cons & Hop); [by destruct (Ho x)|by exists p'].
  - intros x Hx Hs. destruct (L5 x Hx Hs) as (p' & [->|Hp]%elem_of_cons & Hop); [by destruct (Hcl x)|by exists p'].
Qed.

(** ** Forced opens *)

Lemma found_session m log c x e : log_ok e m log -> c ∈ owing log -> get_session m c = Some x -> state_of m x ∈ [OPENING; OPEN; STALE] /\ times c (owing log) <= importing m x.
Proof. intros L Hc Hg. destruct (lo_found _ _ _ L c Hc) as (y & Hy & ?). rewrite Hg in Hy. by injection Hy as <-. Qed.

(** A client joins the forced open at the end of the queue. *)
Lemma log_extend e m log done sq sq' c x : log_ok e m (log ++ [PForced done sq]) -> c ∉ done -> get_session m c = Some x ->
  state_of m x ∈ [OPENING; OPEN; STALE] -> (forall c', is_Some (sq !! c') -> c' ∈ done) ->
  (e = Some x /\ state_of m x = OPENING /\ sq' = <[c := state_seq m x]> sq) \/ (e = None /\ sq' = sq) ->
  log_ok None (inc_importing x m) (log ++ [PForced (done ++ [c]) sq']).
Proof.
  intros L Nc Hg Hst Hdom Hcase. pose proof L as [L1 L2 L3 L4 L5]. destruct (inc_same x m) as (S1 & S2 & S3 & S4 & S5 & S6).
  assert (forall c', c' ∈ done -> sq' !! c' = sq !! c') as Hlk.
  { intros c' Hc'. destruct Hcase as [(_ & _ & ->)|[_ ->]]; [|done]. rewrite lookup_insert_ne; [done|by intros ->]. }
  assert (sq !! c = None) as Hno by (destruct (sq !! c) eqn:E; [|done]; destruct Nc; apply Hdom; by rewrite E).
  assert (owing (log ++ [PForced done sq]) = owing log ++ done) as Eo by (rewrite owing_app; cbn; by rewrite app_nil_r).
  assert (owing (log ++ [PForced (done ++ [c]) sq']) = (owing log ++ done) ++ [c]) as Eo' by (rewrite owing_app; cbn; by rewrite app_nil_r, app_assoc).
  assert (forall y q p, opens (inc_importing x m) y q p <-> opens m y q p) as Hop by (intros y q p; destruct p; cbn; [done| |done]; by setoid_rewrite S5).
  assert (forall y q, opens m y q (PForced done sq) -> opens m y q (PForced (done ++ [c]) sq')) as Hext.
  { intros y q (c' & Hc' & Hq & Hg'). exists c'. split; [set_solver|]. by rewrite Hlk. }
  split.
  - intros p [Hp| ->%list_elem_of_singleton]%elem_of_app.
    + specialize (L1 p ltac:(set_solver)). destruct p; cbn in *; [by rewrite S1, S2, S4| |done]. intros c' y Hc'. rewrite S5, S1, S2. by apply L1.
    + intros c' y [Hc'| ->%list_elem_of_singleton]%elem_of_app; rewrite S5, S1, S2; intros Hy.
      * rewrite Hlk by done. exact (L1 (PForced done sq) ltac:(set_solver) c' y Hc' Hy).
      * rewrite Hg in Hy. injection Hy as <-. destruct Hcase as [(_ & Es & ->)|[_ ->]]; [rewrite lookup_insert_eq; by split|by rewrite Hno].
  - rewrite Eo'. intros c' Hc'. rewrite times_app, times_one. destruct (Z.eqb_spec c c') as [<-|N].
    + exists x. rewrite S5, S1, S3, Z.eqb_refl. split; [done|]. split; [done|]. rewrite <- Eo. destruct (decide (c ∈ owing (log ++ [PForced done sq]))) as [Hin|Nin].
      * destruct (found_session m _ c x e L Hin Hg). lia.
      * rewrite times_none by done. pose proof (importing_nonneg m x). lia.
    + rewrite <- Eo in *. destruct (L2 c') as (y & ? & ? & ?); [set_solver|]. exists y. rewrite S5, S1, S3. split_and!; [done|done|]. destruct (y =? x); lia.
  - intros l1 cm sq0 l2 c' y El Hc' Hs. rewrite S5, S1, S2. intros Hy. destruct (snoc_split _ _ _ _ _ El) as [(-> & [= <- <-] & ->)|(l2' & -> & ->)].
    + apply elem_of_app in Hc' as [Hc'| ->%list_elem_of_singleton].
      * rewrite Hlk in Hs by done. destruct (L3 l1 done sq [] c' y eq_refl Hc' Hs Hy) as [?|(p & ? & ?)]; [by left|right]. exists p. by rewrite Hop.
      * rewrite Hg in Hy. injection Hy as <-. destruct Hcase as [(_ & _ & ->)|[-> ->]]; [by rewrite lookup_insert_eq in Hs|].
        destruct (decide (state_of m x = OPENING)) as [Es|]; [right|left; set_solver]. destruct (L4 x ltac:(done) Es) as (p & [Hp| ->%list_elem_of_singleton]%elem_of_app & Ho).
        { exists p. by rewrite Hop. }
        destruct Ho as (c' & Hc' & _ & Hy). by rewrite (find_same_session m c c' x Hg Hy) in Nc.
    + destruct (L3 l1 cm sq0 (l2' ++ [PForced done sq]) c' y) as [?|(p & ? & ?)]; [by rewrite <- app_assoc|done|done|done|by left|right]. exists p. by rewrite Hop.
  - intros y _. rewrite S1, S2. intros Es. setoid_rewrite Hop. destruct Hcase as [(-> & _ & ->)|[-> ->]].
    + destruct (decide (y = x)) as [->|N].
      { eexists. split; [apply elem_of_app; right; by left|]. exists c. by rewrite lookup_insert_eq; split_and!; [set_solver| |]. }
      destruct (L4 y ltac:(congruence) Es) as (p & [Hp| ->%list_elem_of_singleton]%elem_of_app & Ho); [exists p; set_solver|].
      eexists. split; [apply elem_of_app; right; by left|]. by apply Hext.
    + destruct (L4 y ltac:(done) Es) as (p & [Hp| ->%list_elem_of_singleton]%elem_of_app & Ho); [exists p; set_solver|].
      eexists. split; [apply elem_of_app; right; by left|]. by apply Hext.
  - intros y _. rewrite S1, S2. intros Es. destruct (L5 y) as (p & [Hp| ->%list_elem_of_singleton]%elem_of_app & Ho); [|done|exists p; set_solver|done].
    destruct Hcase as [(-> & E & _)|[-> _]]; congruence.
Qed.

(** A client leaves the forced open at the front. *)
Lemma log_shrink m log cm sq c x : log_ok None m (PForced (c :: cm) sq :: log) -> get_session m c = Some x -> (forall q, sq !! c = Some q -> q <> state_seq m x) ->
  log_ok None (dec_importing x m) (PForced cm sq :: log).
Proof.
  intros L Hg Hq. pose proof L as [L1 L2 L3 L4 L5]. destruct (dec_same x m) as (S1 & S2 & S3 & S4 & S5 & S6).
  assert (owing (PForced (c :: cm) sq :: log) = [c] ++ owing (PForced cm sq :: log)) as Eo by done.
  assert (c ∈ owing (PForced (c :: cm) sq :: log)) as Hc by (rewrite Eo; set_solver). destruct (found_session m _ c x None L Hc Hg) as [Hst Him].
  pose proof (times_pos _ _ Hc) as Hpos. specialize (S3 ltac:(lia)).
  assert (forall y q p, opens (dec_importing x m) y q p <-> opens m y q p) as Hop by (intros y q p; destruct p; cbn; [done| |done]; by setoid_rewrite S5).
  assert (forall y, opens m y (state_seq m y) (PForced (c :: cm) sq) -> opens m y (state_seq m y) (PForced cm sq)) as Hsh.
  { intros y (c' & [->|Hc']%elem_of_cons & Es & Hy); [|by exists c']. rewrite Hg in Hy. injection Hy as <-. by destruct (Hq _ Es). }
  split.
  - intros p [->|Hp]%elem_of_cons.
    + intros c' y Hc'. rewrite S5, S1, S2. apply (L1 (PForced (c :: cm) sq) ltac:(by left)). by right.
    + specialize (L1 p ltac:(by right)). destruct p; cbn in *; [by rewrite S1, S2, S4| |done]. intros c' y Hc'. rewrite S5, S1, S2. by apply L1.
  - intros c' Hc'. destruct (L2 c') as (y & Hy & ? & Hi); [rewrite Eo; set_solver|]. exists y. rewrite S5, S1, S3. split_and!; [done|done|].
    rewrite Eo, times_app, times_one in Hi. destruct (Z.eqb_spec y x) as [->|N].
    + rewrite (find_same_session m c c' x Hg Hy), Z.eqb_refl in Hi. lia.
    + destruct (Z.eqb_spec c c'); lia.
  - intros l1 cm0 sq0 l2 c' y El Hc' Hs. rewrite S5, S1, S2. intros Hy. setoid_rewrite Hop. destruct l1 as [|p l1].
    + injection El as -> -> ->. exact (L3 [] (c :: cm0) sq0 l2 c' y eq_refl ltac:(by right) Hs Hy).
    + injection El as <- ->. destruct (L3 (PForced (c :: cm) sq :: l1) cm0 sq0 l2 c' y eq_refl Hc' Hs Hy) as [?|(p & [->|Hp]%elem_of_cons & Ho)]; [by left|right..].
      * eexists. split; [by left|]. by apply Hsh.
      * exists p. split; [by right|done].
  - intros y _. rewrite S1, S2. intros Es. setoid_rewrite Hop. destruct (L4 y ltac:(done) Es) as (p & [->|Hp]%elem_of_cons & Ho).
    + eexists. split; [by left|]. by apply Hsh.
    + exists p. split; [by right|done].
  - intros y _. rewrite S1, S2. intros Es. destruct (L5 y ltac:(done) Es) as (p & [->|Hp]%elem_of_cons & Ho); [done|]. exists p. split; [by right|done].
Qed.

End Log.

(** ** The server *)

Class InoLaws (I : Type) `{InoOps I} : Prop := {
  project_counts : forall l i, ino_projected (project_release_ids l i) = ino_projected i + 1 /\ ino_version (project_release_ids l i) = ino_version i;
  apply_counts : forall l i, ino_version (apply_release_ids l i) = ino_version i + 1 /\ ino_projected (apply_release_ids l i) = ino_projected i
}.

Section Machine.
Context {M T I : Type} `{UTime T} `{SessionOps M T} `{!SessionLaws M T} `{InoOps I} `{!InoLaws I} (is_readonly : bool).
Abbreviation server := (@server M I).
Implicit Types s : server.

(** The version of the table of inodes that an entry brings, and 0. *)
Definition piv_of (p : pending) : Z := match p with PSession _ _ _ _ _ piv _ => piv | PForced _ _ => 0 | PInodes _ piv => piv end.
Definition is_inodes (p : pending) : bool := match p with PInodes _ _ => true | _ => false end.
(** From the version [v] the entries lead to [w]. *)
Fixpoint ino_chain (v : Z) (log : list pending) (w : Z) : Prop :=
  match log with
  | [] => v = w
  | p :: log => if (piv_of p =? 0) && negb (is_inodes p) then ino_chain v log w else piv_of p = v + 1 /\ ino_chain (v + 1) log w
  end.
Definition entries (log : list pending) : Z := Z.of_nat (length (filter (fun p => is_inodes p = false) log)).

Record server_ok s : Prop := {
  so_log : log_ok None (sv_map s) (sv_log s);
  so_version : sv_version s + entries (sv_log s) = sv_projected s;
  so_inos : ino_chain (ino_version (sv_inotable s)) (sv_log s) (ino_projected (sv_inotable s));
  so_nonneg : 0 <= ino_version (sv_inotable s);
  so_reconnect : forall c, c ∈ sv_reconnect s -> is_Some (get_session (sv_map s) c)
}.

Lemma chain_append v log w p : ino_chain v log w -> (if (piv_of p =? 0) && negb (is_inodes p) then True else piv_of p = w + 1) ->
  ino_chain v (log ++ [p]) (if (piv_of p =? 0) && negb (is_inodes p) then w else w + 1).
Proof.
  revert v. induction log as [|p' log IH]; intros v Hc Hp; cbn in *.
  - subst w. destruct ((piv_of p =? 0) && negb (is_inodes p)); done.
  - destruct ((piv_of p' =? 0) && negb (is_inodes p')); [by apply IH|]. destruct Hc as [-> Hc]. split; [done|]. by apply IH.
Qed.
Lemma chain_le v log w : ino_chain v log w -> v <= w.
Proof. revert v. induction log as [|p log IH]; intros v; cbn; [lia|]. destruct (_ && _); [apply IH|]. intros [_ Hc%IH]. lia. Qed.
Lemma entries_app l1 l2 : entries (l1 ++ l2) = entries l1 + entries l2.
Proof. unfold entries. rewrite filter_app, length_app. lia. Qed.
Lemma entries_cons p l : entries (p :: l) = (if is_inodes p then 0 else 1) + entries l.
Proof. unfold entries. rewrite filter_cons. destruct (decide (is_inodes p = false)) as [E|E]; destruct (is_inodes p); cbn [length]; (lia || congruence). Qed.

(** Changes of the map that nothing else depends on. *)
Lemma ok_view s m : server_ok s -> same_view (sv_map s) m -> server_ok (upd_map m s).
Proof.
  intros [L V C N R] Hv. split; cbn; [|done|done|done|].
  - eapply log_same; [by apply view_same_for|done].
  - intros c Hc. rewrite (sw_find _ _ Hv). by apply R.
Qed.

Lemma in_state s x l : is_in s x l = true <-> state_of (sv_map s) x ∈ l.
Proof. unfold is_in. apply bool_decide_eq_true. Qed.
Lemma not_in_state s x l : is_in s x l = false <-> state_of (sv_map s) x ∉ l.
Proof. unfold is_in. apply bool_decide_eq_false. Qed.

(** A session that is not being imported, or not open, is free. *)
Lemma free_importing s x : server_ok s -> is_importing s x = false -> free_of (sv_log s) (sv_map s) x.
Proof.
  intros Hs Hi c Hg Hc. destruct (found_session _ _ c x None (so_log _ Hs) Hc Hg) as [_ Ht]. pose proof (times_pos _ _ Hc).
  unfold is_importing in Hi. apply Z.ltb_ge in Hi. lia.
Qed.
Lemma free_state s x : server_ok s -> state_of (sv_map s) x ∉ [OPENING; OPEN; STALE] -> free_of (sv_log s) (sv_map s) x.
Proof. intros Hs Hn c Hg Hc. by destruct (found_session _ _ c x None (so_log _ Hs) Hc Hg) as [? _]. Qed.

(** A session goes back and forth between open and stale. *)
Lemma change_ok s x st : server_ok s -> state_of (sv_map s) x <> st -> st ∈ [OPEN; STALE] -> server_ok (change x st s).
Proof.
  intros [L V C N R] Ns Hst. destruct (set_state_rest x st (sv_map s)) as (_ & R2 & _). split; cbn; [|done|done|done|].
  - apply (log_settled _ _ x); [apply log_change; auto|..]; rewrite set_state_state, Z.eqb_refl; states.
  - intros c Hc. rewrite R2. by apply R.
Qed.

(** ** Closing *)

Lemma journal_ok s x st fin : server_ok s -> state_of (sv_map s) x ∈ [OPENING; OPEN; STALE] -> is_importing s x = false -> st ∈ [CLOSING; KILLING] ->
  server_ok (fst (journal_close_session x st fin s)).
Proof.
  intros Hs Hst Hi Hc. pose proof (free_importing s x Hs Hi) as Hf. destruct Hs as [L V C N R].
  assert (state_of (sv_map s) x <> st) as Ns by states. set (m1 := set_state x st (sv_map s)).
  destruct (set_state_rest x st (sv_map s)) as (_ & R2 & _). assert (state_of m1 x = st) as E1 by (unfold m1; by rewrite set_state_state, Z.eqb_refl).
  set (both := prealloc_inos m1 x ∪ pending_prealloc_inos m1 x).
  set (piv := if bool_decide (both = ∅) then 0 else ino_projected (project_release_ids both (sv_inotable s))).
  set (p := PSession x (state_seq m1 x) false (sv_projected s + 1) both piv fin).
  set (m3 := finish_flush x (push_seq (take_inos x m1) x) (take_inos x m1)).
  assert (same_view m1 m3) as Hv by (etrans; [apply take_same|apply flush_same]).
  assert (fst (journal_close_session x st fin s) = mk_server m3 (sv_version s) (sv_projected s + 1)
    (if bool_decide (both = ∅) then sv_inotable s else project_release_ids both (sv_inotable s)) (sv_log s ++ [p]) (sv_reconnect s) (sv_failed s) (sv_terminating s)) as ->.
  { unfold journal_close_session, p, m3, piv. cbn -[both]. fold m1. fold both. by destruct (bool_decide (both = ∅)). }
  pose proof (chain_le _ _ _ C) as Hle. destruct (project_counts both (sv_inotable s)) as [P1 P2]. split; cbn.
  - apply (log_same None m1); [by apply view_same_for|]. eapply (log_append (Some x)); [by apply log_change; [done|done|left]|done| |].
    + cbn. split; [done|]. intros _. by rewrite E1.
    + intros y [= <-]. rewrite E1. split; [states|done].
  - rewrite entries_app. change (entries [p]) with 1. lia.
  - pose proof (chain_append _ _ _ p C) as Hch. cbn [piv_of p is_inodes] in Hch. unfold piv in Hch. destruct (bool_decide (both = ∅)) eqn:Eb.
    + by apply Hch.
    + rewrite P1, P2. destruct (Z.eqb_spec (ino_projected (project_release_ids both (sv_inotable s))) 0); [lia|]. apply Hch. cbn. lia.
  - destruct (bool_decide (both = ∅)); [done|]. by rewrite P2.
  - intros c Hc'. rewrite (sw_find _ _ Hv). unfold m1. rewrite R2. by apply R.
Qed.

(** ** Requests *)

Lemma free_log m log x : log_ok None m log -> state_of m x ∉ [OPENING; OPEN; STALE] -> free_of log m x.
Proof. intros L Hn c Hg Hc. by destruct (found_session _ _ c x None L Hc Hg) as [? _]. Qed.

(** The session of a connection is that of its client. *)
Definition own_session m (x : Z) : Prop := get_session m (client_of m x) = None \/ get_session m (client_of m x) = Some x.

Lemma add_ok s x : server_ok s -> own_session (sv_map s) x -> server_ok (upd_map (add_session x (sv_map s)) s).
Proof.
  intros [L V C N R] Hown. destruct (add_same x (sv_map s)) as (A1 & A2 & A3 & A4 & A5 & _). split; cbn; [|done|done|done|].
  - apply (log_same None (sv_map s)); [|done]. split; [done..| |intros y; by rewrite A4]. intros c Hc. rewrite A5. destruct (Z.eqb_spec c (client_of (sv_map s) x)) as [->|]; [|done].
    destruct (lo_found _ _ _ L _ Hc) as (y & Hy & _). unfold own_session in Hown. destruct Hown as [E|E]; congruence.
  - intros c Hc. rewrite A5. destruct (c =? _); [by eexists|by apply R].
Qed.

Lemma submit_open_ok s x : server_ok s -> state_of (sv_map s) x ∈ [CLOSED; CLOSING] -> connected (sv_map s) x = true ->
  let s1 := bump_projected (touch_one x (change x OPENING s)) in
  server_ok (submit (PSession x (state_seq (sv_map (change x OPENING s)) x) true (sv_projected s1) ∅ 0 None) s1).
Proof.
  intros [L V C N R] Hst Hcon. cbn. set (m1 := set_state x OPENING (sv_map s)). destruct (set_state_rest x OPENING (sv_map s)) as (_ & R2 & R3 & _).
  assert (state_of m1 x = OPENING) as E1 by (unfold m1; by rewrite set_state_state, Z.eqb_refl). pose proof (touch_same x m1) as Hv.
  assert (free_of (sv_log s) (sv_map s) x) as Hf by (apply free_log; [done|states]). split; cbn.
  - apply (log_same None m1); [by apply view_same_for|]. eapply (log_append (Some x)); [apply log_change; [done|states|by left]|done| |].
    + cbn. split; [done|]. intros _. split; [done|]. unfold m1. by rewrite R3.
    + intros y [= <-]. rewrite E1. split; [done|congruence].
  - rewrite entries_app. change (entries [_]) with 1. lia.
  - match goal with |- ino_chain _ (_ ++ [?p]) _ => pose proof (chain_append _ _ _ p C) as Hch end. by apply Hch.
  - done.
  - intros c Hc. rewrite (sw_find _ _ Hv). unfold m1. rewrite R2. by apply R.
Qed.

Lemma open_session_ok s x : server_ok s -> connected (sv_map s) x = true -> own_session (sv_map s) x ->
  exists s' es, open_session x s = Ok (s', es) /\ server_ok s'.
Proof.
  intros Hs Hcon Hown. unfold open_session. destruct (is_in s x [OPENING; OPEN; STALE; KILLING]) eqn:E1; [by eexists _, _|].
  apply not_in_state in E1. assert (state_of (sv_map s) x ∈ [CLOSED; CLOSING]) as Hst by (destruct (state_of (sv_map s) x); states).
  rewrite check_true by (by apply in_state). pose proof (metadata_same x (sv_map s)) as Hv. set (s0 := upd_map (set_client_metadata x (sv_map s)) s).
  assert (server_ok s0) as Hs0 by (by apply ok_view). eexists _, _. split; [done|]. destruct (add_same x (sv_map s0)) as (A1 & _ & _ & A4 & _).
  assert (own_session (sv_map s0) x) as Hown0 by (unfold own_session; cbn; by rewrite (sw_client _ _ Hv), (sw_find _ _ Hv)).
  assert (state_of (sv_map s0) x = state_of (sv_map s) x /\ connected (sv_map s0) x = true) as [E3 E4] by (cbn; by rewrite (sw_state _ _ Hv), (sw_connected _ _ Hv)).
  destruct (is_in s0 x [CLOSED]).
  - apply (submit_open_ok (upd_map (add_session x (sv_map s0)) s0)); [by apply add_ok|cbn [sv_map upd_map]..].
    + change (set_client_metadata x (sv_map s)) with (sv_map s0). by rewrite A1, E3.
    + change (set_client_metadata x (sv_map s)) with (sv_map s0). by rewrite A4.
  - apply submit_open_ok; [done|by rewrite E3|done].
Qed.

Lemma renew_session_ok s x q : server_ok s -> server_ok (fst (renew_session x q s)).
Proof.
  intros Hs. unfold renew_session. destruct (is_in s x [OPEN; STALE]); [|done]. set (s1 := touch_one x s).
  assert (server_ok s1) as Hs1 by (apply ok_view; [done|apply touch_same]). destruct (is_in s1 x [STALE]) eqn:E; cbn [fst]; [|done].
  apply in_state in E. apply ok_view; [|apply touch_same]. apply change_ok; [done|states|states].
Qed.

Lemma close_session_ok s x q : server_ok s -> q <= push_seq (sv_map s) x -> exists s' es, close_session x q s = Ok (s', es) /\ server_ok s'.
Proof.
  intros Hs Hq. unfold close_session. destruct (is_in s x [CLOSED; CLOSING; KILLING]) eqn:E1; [by eexists _, _|]. destruct (is_importing s x) eqn:E2; [by eexists _, _|].
  apply not_in_state in E1. assert (state_of (sv_map s) x ∈ [OPENING; OPEN; STALE]) as Hst by (destruct (state_of (sv_map s) x); states).
  rewrite check_true by (apply in_state; states). destruct (Z.ltb_spec q (push_seq (sv_map s) x)); [by eexists _, _|].
  rewrite check_true by (apply Z.eqb_eq; lia). pose proof (journal_ok s x CLOSING None Hs Hst E2 ltac:(states)) as Hj.
  destruct (journal_close_session x CLOSING None s) as [s' es]. by exists s', es.
Qed.

Lemma kill_session_ok s x fin : server_ok s -> exists s' es, kill_session x fin s = Ok (s', es) /\ server_ok s'.
Proof.
  intros Hs. unfold kill_session. destruct (is_in s x [OPENING; OPEN; STALE]) eqn:E1, (is_importing s x) eqn:E2; cbn [andb negb].
  - rewrite check_true by (by rewrite orb_true_r). by eexists _, _.
  - apply in_state in E1. pose proof (journal_ok s x KILLING fin Hs E1 E2 ltac:(states)) as Hj. destruct (journal_close_session x KILLING fin s) as [s' es]. by exists s', es.
  - rewrite check_true by (by rewrite orb_true_r). by eexists _, _.
  - apply not_in_state in E1. rewrite check_true; [by eexists _, _|]. apply orb_true_iff. left. apply in_state. destruct (state_of (sv_map s) x); states.
Qed.

(** ** The journal *)

(** the table of inodes after an entry *)
Definition inos_after (p : pending) (i : I) : I :=
  match p with
  | PSession _ _ _ _ inos piv _ => if piv =? 0 then i else apply_release_ids inos i
  | PForced _ _ => i
  | PInodes inos _ => apply_release_ids inos i
  end.

Lemma entry_done s p log m rc f tm : server_ok s -> sv_log s = p :: log -> log_ok None m log -> (forall c, c ∈ rc -> is_Some (get_session m c)) ->
  server_ok (mk_server m (sv_version s + if is_inodes p then 0 else 1) (sv_projected s) (inos_after p (sv_inotable s)) log rc f tm) /\
  (piv_of p <> 0 -> ino_version (inos_after p (sv_inotable s)) = piv_of p).
Proof.
  intros [L V C N R] El Hl Hr. rewrite El in *. rewrite entries_cons in V. cbn [ino_chain] in C.
  assert (ino_chain (ino_version (inos_after p (sv_inotable s))) log (ino_projected (inos_after p (sv_inotable s))) /\ 0 <= ino_version (inos_after p (sv_inotable s)) /\
    (piv_of p <> 0 -> ino_version (inos_after p (sv_inotable s)) = piv_of p)) as (C' & N' & P').
  { destruct p as [x q o pv inos piv fin|cm sq|inos piv]; cbn in *; [destruct (Z.eqb_spec piv 0) as [->|Np]; cbn in C; [done|]|done|rewrite andb_false_r in C];
      destruct (apply_counts inos (sv_inotable s)) as [A1 A2]; rewrite A1, A2; destruct C as [-> C]; (split; [done|]); (split; [lia|done]). }
  split; [|done]. split; cbn; [done| |done|done|done]. destruct (is_inodes p); lia.
Qed.

(** What a completed open or close makes of the map. *)
Lemma logged_open m log x q pv inos piv fin : log_ok None m (PSession x q true pv inos piv fin :: log) -> q = state_seq m x ->
  state_of m x = OPENING /\ connected m x = true /\ log_ok None (set_state x OPEN m) log.
Proof.
  intros L ->. destruct (lo_entries _ _ _ L _ (list_elem_of_here _ _)) as [_ Ho]. destruct (Ho eq_refl) as [Es Ec]. split; [done|]. split; [done|].
  assert (state_of m x <> OPEN) as N by congruence. pose proof (set_state_seq x OPEN m N) as Hlt.
  assert (OPEN ∈ [OPEN; STALE]) as Hin by (by left). pose proof (log_change m _ x OPEN L N (or_intror Hin)) as L'.
  apply (log_settled _ _ x) in L'; [|rewrite set_state_state, Z.eqb_refl; congruence..]. eapply log_drop; [exact L'|done| |].
  - intros y (<- & E & _). lia.
  - by intros y (_ & _ & ?).
Qed.

Lemma logged_stale m log x q o pv inos piv fin : log_ok None m (PSession x q o pv inos piv fin :: log) -> q <> state_seq m x -> log_ok None m log.
Proof. intros L Nq. eapply log_drop; [exact L|done| |]; intros y (-> & -> & _); done. Qed.

Lemma remove_session_ok m log x : log_ok None m log -> state_of m x ∉ [OPENING; OPEN; STALE] -> log_ok None (remove_session x m) log.
Proof.
  intros L Hn. destruct (remove_same x m) as (A1 & A2 & A3 & A4 & A5 & _). apply (log_same None m); [|done]. split; [done..| |intros y; by rewrite A4].
  intros c Hc. rewrite A5. destruct (decide (get_session m c = Some x)) as [Hg|]; [|done]. by destruct (free_log m log x L Hn c Hg).
Qed.

(** [end_session] on a session whose close is current *)
Lemma end_session_ok s p x q pv inos piv fin : p = PSession x q false pv inos piv fin -> log_ok None (sv_map s) (p :: sv_log s) -> q = state_seq (sv_map s) x ->
  (forall c, c ∈ sv_reconnect s -> is_Some (get_session (sv_map s) c)) ->
  let s' := fst (end_session x s) in
  sv_log s' = sv_log s /\ sv_version s' = sv_version s /\ sv_projected s' = sv_projected s /\ sv_inotable s' = sv_inotable s /\
  log_ok None (sv_map s') (sv_log s) /\ (forall c, c ∈ sv_reconnect s' -> is_Some (get_session (sv_map s') c)).
Proof.
  intros -> L -> R. destruct (lo_entries _ _ _ L _ (list_elem_of_here _ _)) as [_ Hst]. specialize (Hst eq_refl). cbn in Hst.
  pose proof (caps_same x (sv_map s)) as Hv. set (m0 := remove_client_caps x (sv_map s)) in *.
  apply (log_same None (sv_map s) m0) in L; [|by apply view_same_for]. rewrite <- (sw_state _ _ Hv) in Hst. rewrite <- (sw_seq _ _ Hv) in L.
  unfold end_session. fold m0. set (s0 := upd_map m0 s). destruct (drop_reconnect (client_of (sv_map s0) x) s0) as [s1 es1] eqn:Ed.
  assert (sv_map s1 = m0 /\ sv_log s1 = sv_log s /\ sv_version s1 = sv_version s /\ sv_projected s1 = sv_projected s /\ sv_inotable s1 = sv_inotable s /\
    sv_reconnect s1 = sv_reconnect s ∖ {[client_of m0 x]}) as (Em & El & E1 & E2 & E3 & Er).
  { unfold drop_reconnect in Ed. case_bool_decide as Hin; injection Ed as <- _; [done|]. cbn in *. split_and!; [done..|]. apply set_eq. set_solver. }
  set (m1 := if is_in s1 x [CLOSING] then session_clear x (set_state x CLOSED m0) else m0).
  assert (log_ok None m1 (sv_log s) /\ (state_of m1 x ∉ [OPENING; OPEN; STALE]) /\ forall c, get_session m1 c = get_session m0 c) as (L1 & Hn & Hg).
  { unfold m1. destruct (is_in s1 x [CLOSING]) eqn:Ei.
    - pose proof (clear_same x (set_state x CLOSED m0)) as Hc. destruct (set_state_rest x CLOSED m0) as (_ & R2 & _).
      assert (state_of m0 x <> CLOSED) as N by states. pose proof (set_state_seq x CLOSED m0 N) as Hlt.
      assert (free_of (PSession x (state_seq m0 x) false pv inos piv fin :: sv_log s) m0 x) as Hf by (apply free_log; [done|states]).
      pose proof (log_change _ _ x CLOSED L N (or_introl Hf)) as L'. apply (log_settled _ _ x) in L'; [|rewrite set_state_state, Z.eqb_refl; congruence..].
      split; [|split; [rewrite (sw_state _ _ Hc), set_state_state, Z.eqb_refl; states|intros c; by rewrite (sw_find _ _ Hc), R2]].
      apply (log_same None (set_state x CLOSED m0)); [by apply view_same_for|]. eapply log_drop; [exact L'|done|by intros y (_ & _ & ?)|]. intros y (<- & E & _). lia.
    - apply not_in_state in Ei. rewrite Em in Ei. split; [|split; [states|done]]. eapply log_drop; [exact L|done|by intros y (_ & _ & ?)|]. intros y (<- & _). states. }
  destruct (remove_same x m1) as (_ & _ & _ & _ & A5 & _).
  assert (forall c, c ∈ sv_reconnect s ∖ {[client_of m0 x]} -> is_Some (get_session (remove_session x m1) c)) as Hrc.
  { intros c [Hc Nc]%elem_of_difference. rewrite A5, Hg. destruct (decide (get_session m0 c = Some x)) as [Hx|]; [apply find_client in Hx; set_solver|].
    rewrite (sw_find _ _ Hv). by apply R. }
  apply (remove_session_ok m1 _ x) in L1; [|done]. destruct (is_in s1 x [CLOSING]) eqn:Ei; cbn; rewrite ?Em, Er; unfold m1 in *; by split_and!.
Qed.

Lemma session_logged_ok s x q o pv inos piv fin log : server_ok s -> sv_log s = PSession x q o pv inos piv fin :: log ->
  exists s' es, _session_logged is_readonly x q o inos piv (upd_log log s) = Ok (s', es) /\ server_ok s' /\ sv_log s' = log.
Proof.
  intros Hs El. pose proof Hs as [L _ _ _ R]. rewrite El in L. set (p := PSession x q o pv inos piv fin) in *. set (i' := inos_after p (sv_inotable s)).
  assert (forall m rc f tm, log_ok None m log -> (forall c, c ∈ rc -> is_Some (get_session m c)) ->
    server_ok (mk_server m (sv_version s + 1) (sv_projected s) i' log rc f tm) /\ (piv <> 0 -> ino_version i' = piv)) as Hdone.
  { intros m rc f tm Hl Hr. apply (entry_done s p log m rc f tm Hs El Hl Hr). }
  assert (piv <> 0 -> ino_version i' = piv) as Hpiv.
  { destruct Hs as [_ _ C _ _]. rewrite El in C. intros Np. unfold i'. cbn in *. destruct (Z.eqb_spec piv 0); [done|]. cbn in C.
    destruct (apply_counts inos (sv_inotable s)) as [-> _]. lia. }
  unfold _session_logged. set (s1 := upd_inotable i' (upd_log log s)).
  match goal with |- context [mbind ?k ?e] => assert (e = Ok s1) as -> end.
  { unfold s1, i' in *. cbn in *. destruct (Z.eqb_spec piv 0) as [->|Np]; [done|]. rewrite Hpiv, Z.eqb_refl by done. done. }
  cbn [mbind res_bind]. change (sv_map s1) with (sv_map s).
  destruct (Z.eqb_spec (state_seq (sv_map s) x) q) as [Eq|Nq]; cbn [negb].
  2: { eexists _, _. split; [done|]. split; [|done]. apply Hdone; [|done]. by eapply logged_stale, not_eq_sym. }
  destruct o.
  - destruct (logged_open _ _ _ _ _ _ _ _ L (eq_sym Eq)) as (Es & Ec & L'). rewrite check_true by (apply in_state; cbn; rewrite Es; by left).
    pose proof (touch_same x (set_state x OPEN (sv_map s))) as Hv. destruct (set_state_rest x OPEN (sv_map s)) as (_ & R2 & R3 & _).
    rewrite check_true by (cbn; by rewrite (sw_connected _ _ Hv), R3). eexists _, _. split; [done|]. split; [|done]. apply Hdone.
    + apply (log_same None (set_state x OPEN (sv_map s))); [by apply view_same_for|done].
    + intros c Hc. rewrite (sw_find _ _ Hv), R2. by apply R.
  - destruct (lo_entries _ _ _ L _ (list_elem_of_here _ _)) as [_ Hst]. specialize (Hst (eq_sym Eq)). cbn in Hst. rewrite check_true by (by apply in_state).
    destruct (end_session_ok s1 p x q pv inos piv fin eq_refl L (eq_sym Eq) R) as (E1 & E2 & E3 & E4 & E5 & E6). destruct (end_session x s1) as [s2 es2].
    cbn [fst] in *. cbn [mbind res_bind]. eexists _, _. split; [done|]. split; [|done]. unfold bump_version. rewrite E1, E2, E3, E4. by apply Hdone.
Qed.

(** ** Forced opens *)

(** The parts of the server that a forced open leaves alone. *)
Definition only_map s s' : Prop := sv_log s' = sv_log s /\ sv_version s' = sv_version s /\ sv_projected s' = sv_projected s /\ sv_inotable s' = sv_inotable s /\
  sv_reconnect s' = sv_reconnect s /\ forall c, is_Some (get_session (sv_map s) c) -> is_Some (get_session (sv_map s') c).

Lemma prepare_ok log cm done sq s : log_ok None (sv_map s) (log ++ [PForced done sq]) -> NoDup (done ++ cm) -> (forall c, is_Some (sq !! c) -> c ∈ done) ->
  exists s' sq', prepare_force_open cm sq s = Ok (s', sq') /\ log_ok None (sv_map s') (log ++ [PForced (done ++ cm) sq']) /\ only_map s s'.
Proof.
  revert done sq s. induction cm as [|c cm IH]; intros done sq s L Hn Hd; cbn [prepare_force_open].
  { exists s, sq. rewrite app_nil_r. done. }
  assert (c ∉ done) as Nc by (apply NoDup_app in Hn as (_ & Hn & _); intros Hc; apply (Hn c Hc); by left).
  destruct (get_or_add_session c (sv_map s)) as [m1 x] eqn:Eg. destruct (get_or_add_same c (sv_map s) m1 x Eg) as (Hx & G1 & G2 & G3 & G4 & G5 & G6 & G7).
  assert (log_ok None m1 (log ++ [PForced done sq])) as L1.
  { apply (log_same None (sv_map s)); [|done]. split; [done..| |intros y; by rewrite G4]. intros c' Hc'. destruct (decide (c' = c)) as [->|N]; [|by apply G5].
    destruct (lo_found _ _ _ L c Hc') as (y & Hy & _). rewrite Hy, Hx. by rewrite (G6 y Hy). }
  assert (forall c', is_Some (get_session (sv_map s) c') -> is_Some (get_session m1 c')) as Hkeep.
  { intros c' Hs. destruct (decide (c' = c)) as [->|N]; [by rewrite Hx|by rewrite G5]. }
  assert (forall m2 sq2 s2, sv_map s2 = m2 -> only_map (upd_map m2 s) s2 -> (forall c', get_session m2 c' = get_session m1 c') ->
    log_ok None (inc_importing x m2) (log ++ [PForced (done ++ [c]) sq2]) -> (forall c', is_Some (sq2 !! c') -> c' ∈ done ++ [c]) ->
    exists s' sq', prepare_force_open cm sq2 (upd_map (inc_importing x (sv_map s2)) s2) = Ok (s', sq') /\
      log_ok None (sv_map s') (log ++ [PForced (done ++ c :: cm) sq']) /\ only_map s s') as Hnext.
  { intros m2 sq2 s2 <- (O1 & O2 & O3 & O4 & O5 & _) Hg L2 Hd2. destruct (inc_same x (sv_map s2)) as (_ & _ & _ & _ & I5 & _).
    destruct (IH (done ++ [c]) sq2 (upd_map (inc_importing x (sv_map s2)) s2)) as (s' & sq' & -> & L3 & (Q1 & Q2 & Q3 & Q4 & Q5 & Q6)); [done|by rewrite <- app_assoc|done|].
    exists s', sq'. rewrite <- app_assoc in L3. split; [done|]. split; [done|]. cbn in *. unfold only_map. split_and!; [congruence..|].
    intros c' Hs. apply Q6. rewrite I5, Hg. by apply Hkeep. }
  set (s1 := upd_map m1 s). destruct (is_in s1 x [CLOSED; CLOSING; KILLING]) eqn:Ei.
  - apply in_state in Ei. cbn [sv_map s1 upd_map] in Ei. destruct (set_state_rest x OPENING m1) as (_ & R2 & _). cbn [mbind res_bind].
    assert (log_ok (Some x) (set_state x OPENING m1) (log ++ [PForced done sq])) as L2.
    { apply log_change; [done|states|left]. apply free_log; [done|states]. }
    apply (Hnext (set_state x OPENING m1)); [done|done|done| |].
    + eapply log_extend; [exact L2|done|by rewrite R2|rewrite set_state_state, Z.eqb_refl; by left|done|left]. rewrite set_state_state, Z.eqb_refl. done.
    + intros c' [q Hq]. destruct (decide (c' = c)) as [->|N]; [set_solver|]. rewrite lookup_insert_ne in Hq by done. apply elem_of_app. left. apply Hd. by eexists.
  - apply not_in_state in Ei. cbn [sv_map s1 upd_map] in Ei. assert (state_of m1 x ∈ [OPENING; OPEN; STALE]) as Hst by (destruct (state_of m1 x); states).
    rewrite check_true by (apply in_state; cbn; states). cbn [mbind res_bind]. apply (Hnext m1); [done|done|done| |].
    + eapply log_extend; [exact L1|done|done|done|done|by right].
    + intros c' Hc'. apply elem_of_app. left. by apply Hd.
Qed.

Lemma finish_ok log cm sq s : log_ok None (sv_map s) (PForced cm sq :: log) ->
  exists s' es, finish_force_open is_readonly cm sq true s = Ok (s', es) /\ log_ok None (sv_map s') (PForced [] sq :: log) /\ only_map s s'.
Proof.
  revert s. induction cm as [|c cm IH]; intros s L; cbn [finish_force_open]; [by exists s, []|].
  destruct (lo_found _ _ _ L c) as (x & Hg & Hst & Him); [by left|]. rewrite Hg.
  assert (forall m2 s2 es, sv_map s2 = m2 -> only_map (upd_map m2 s) s2 -> (forall c', get_session m2 c' = get_session (sv_map s) c') ->
    log_ok None m2 (PForced (c :: cm) sq :: log) -> (forall q, sq !! c = Some q -> q <> state_seq m2 x) ->
    exists s' es', (let s2 := upd_map (dec_importing x (sv_map s2)) s2 in '(s', es') ← finish_force_open is_readonly cm sq true s2; Ok (s', es ++ es')) = Ok (s', es') /\
      log_ok None (sv_map s') (PForced [] sq :: log) /\ only_map s s') as Hnext.
  { intros m2 s2 es <- (O1 & O2 & O3 & O4 & O5 & _) Hgs L2 Hq. destruct (dec_same x (sv_map s2)) as (_ & _ & _ & _ & I5 & _).
    destruct (IH (upd_map (dec_importing x (sv_map s2)) s2)) as (s' & es' & E & L3 & (Q1 & Q2 & Q3 & Q4 & Q5 & Q6)); [by apply (log_shrink _ _ _ _ c); [done|by rewrite Hgs|]|].
    cbv zeta. rewrite E. cbn [mbind res_bind]. eexists _, _. split; [done|]. split; [done|]. cbn in *. unfold only_map. split_and!; [congruence..|].
    intros c' Hs. apply Q6. by rewrite I5, Hgs. }
  destruct (sq !! c) as [q|] eqn:Eq.
  - pose proof (lo_entries _ _ _ L _ (list_elem_of_here _ _) c x ltac:(by left) Hg) as He. rewrite Eq in He. destruct He as [Hle Heq].
    destruct (Z.eqb_spec (state_seq (sv_map s) x) q) as [<-|Nq]; cbn [negb mbind res_bind].
    + specialize (Heq eq_refl). assert (state_of (sv_map s) x <> OPEN) as N by congruence. pose proof (set_state_seq x OPEN (sv_map s) N) as Hlt.
      assert (OPEN ∈ [OPEN; STALE]) as Hin by (by left). pose proof (log_change _ _ x OPEN L N (or_intror Hin)) as L'.
      apply (log_settled _ _ x) in L'; [|rewrite set_state_state, Z.eqb_refl; congruence..].
      pose proof (touch_same x (set_state x OPEN (sv_map s))) as Hv. destruct (set_state_rest x OPEN (sv_map s)) as (_ & R2 & _).
      apply (Hnext (touch_session x (set_state x OPEN (sv_map s)))); [done|done|intros c'; by rewrite (sw_find _ _ Hv), R2| |].
      * eapply log_same; [by apply view_same_for|done].
      * intros q' [= <-]. rewrite (sw_seq _ _ Hv). lia.
    + apply (Hnext (sv_map s)); [done|by destruct s|done|done|]. intros q' [= <-]. congruence.
  - destruct (lo_before _ _ _ L [] (c :: cm) sq log c x eq_refl ltac:(by left) Eq Hg) as [Hs2|(p & Hp%elem_of_nil & _)]; [|done].
    rewrite check_true by (by apply in_state). cbn [mbind res_bind]. apply (Hnext (sv_map s)); [done|by destruct s|done|done|done].
Qed.

Lemma open_imported_ok s cm : server_ok s -> NoDup cm -> exists s' es, open_imported cm s = Ok (s', es) /\ server_ok s'.
Proof.
  intros [L V C N R] Hn. unfold open_imported, prepare_force_open_sessions.
  assert (log_ok None (sv_map (bump_projected s)) (sv_log s ++ [PForced [] ∅])) as L0.
  { eapply log_append; [exact L|done|by intros c x ?%elem_of_nil|done]. }
  destruct (prepare_ok (sv_log s) cm [] ∅ (bump_projected s) L0 Hn) as (s' & sq & -> & L' & (Q1 & Q2 & Q3 & Q4 & Q5 & Q6)).
  { intros c [q Hq]. by rewrite lookup_empty in Hq. }
  cbn [mbind res_bind]. eexists _, _. split; [done|]. cbn in *. split; cbn.
  - by rewrite Q1.
  - rewrite Q1, Q2, Q3, entries_app. change (entries [_]) with 1. lia.
  - rewrite Q1, Q4. by apply (chain_append _ _ _ (PForced cm sq) C).
  - by rewrite Q4.
  - intros c Hc. rewrite Q5 in Hc. by apply Q6, R.
Qed.

(** The next entry of the journal is completed. *)
Lemma complete_next_ok s : server_ok s -> exists s' es, complete_next is_readonly s = Ok (s', es) /\ server_ok s' /\ sv_log s' = tail (sv_log s).
Proof.
  intros Hs. unfold complete_next. destruct (sv_log s) as [|[x q o pv inos piv fin|cm sq|inos piv] log] eqn:El.
  - exists s, []. by rewrite El.
  - destruct (session_logged_ok s x q o pv inos piv fin log Hs El) as (s' & es & -> & Hs' & El'). cbn [mbind res_bind]. by eexists _, _.
  - pose proof Hs as [L _ _ _ R]. rewrite El in L. destruct (finish_ok log cm sq (upd_log log s) L) as (s' & es & E & L' & (Q1 & Q2 & Q3 & Q4 & Q5 & Q6)).
    unfold finish_force_open_sessions. rewrite E. cbn [mbind res_bind]. eexists _, _. split; [done|]. cbn in *. split; [|done]. unfold bump_version. rewrite Q1, Q2, Q3, Q4, Q5.
    destruct (entry_done s (PForced cm sq) log (sv_map s') (sv_reconnect s) (sv_failed s') (sv_terminating s') Hs El) as [Hd _]; [|intros c Hc; by apply Q6, R|exact Hd].
    eapply log_drop; [exact L'|done| |intros y []]. by intros y (c & Hc%elem_of_nil & _).
  - pose proof Hs as [L _ C N R]. rewrite El in L. destruct (entry_done s (PInodes inos piv) log (sv_map s) (sv_reconnect s) (sv_failed s) (sv_terminating s) Hs El) as [Hd Hp].
    { eapply log_drop; [exact L|done|intros y []|intros y []]. }
    { done. }
    rewrite El in C. cbn in C. rewrite andb_false_r in C. destruct C as [-> _]. pose proof (chain_le _ _ _ (so_inos _ Hs)) as Hle.
    cbn in Hp. rewrite check_true by (apply Z.eqb_eq; cbn; apply Hp; lia). eexists _, _. split; [done|]. split; [|done]. cbn in Hd. by rewrite Z.add_0_r in Hd.
Qed.

End Machine.
