(* ===== verification/SessionSystem.v ===== *)
(** * The server of sessions, from its start (Server.cc)

    The handlers of Server.cc as operations on one state, in any order with the completions of the
    journal and with the changes other parts make to the sessions; idle sessions, reconnecting
    clients and the shutdown, and the theorem over all of it. *)

From stdpp Require Import base tactics numbers list gmap sorting.
From Stdlib Require Import ZArith Lia.
From S2P Require Import Prelude Stats ServerSessions SessionMachine.
Open Scope Z_scope.
Open Scope list_scope.

Section System.
Context {M T I : Type} `{UTime T} `{SessionOps M T} `{!SessionLaws M T} `{InoOps I} `{!InoLaws I} (is_readonly : bool).
Abbreviation server := (@server M I).
Implicit Types s : server.

(** ** Idle sessions *)

(** The sessions in a state: a bound for the loops over the oldest one. *)
Definition count_in (m : M) (st : session_state) : nat := length (filter (fun x => state_of m x = st) (get_client_session_set m)).
Definition rounds (m : M) : nat := length (get_client_session_set m).

Lemma filter_fewer {V} (P Q : V -> Prop) `{!forall x, Decision (P x), !forall x, Decision (Q x)} l x :
  (forall y, Q y -> P y) -> x ∈ l -> P x -> ~ Q x -> (length (filter Q l) < length (filter P l))%nat.
Proof.
  intros Himp Hx Px Nx. induction l as [|y l IH]; [by apply elem_of_nil in Hx|].
  assert (length (filter Q l) <= length (filter P l))%nat as Hle.
  { clear -Himp. induction l as [|z l IHl]; [done|]. rewrite !filter_cons. destruct (decide (Q z)), (decide (P z)); cbn; (lia || naive_solver). }
  rewrite !filter_cons. apply elem_of_cons in Hx as [<-|Hx].
  - destruct (decide (Q x)); [done|]. destruct (decide (P x)); [cbn; lia|done].
  - specialize (IH Hx). destruct (decide (Q y)), (decide (P y)); cbn; (lia || naive_solver).
Qed.

Lemma count_rounds m st : (count_in m st <= rounds m)%nat.
Proof. apply length_filter. Qed.

(** A session leaves its state. *)
Lemma count_leaves m m' x st st' : get_client_session_set m' = get_client_session_set m -> (forall y, state_of m' y = if y =? x then st' else state_of m y) ->
  x ∈ get_client_session_set m -> state_of m x = st -> st' <> st -> (count_in m' st < count_in m st)%nat.
Proof.
  intros Es Ef Hx Hst Ns. unfold count_in. rewrite Es. apply (filter_fewer (fun y => state_of m y = st) (fun y => state_of m' y = st) _ x); [|done|done|].
  - intros y. rewrite Ef. destruct (Z.eqb_spec y x) as [->|]; congruence.
  - rewrite Ef, Z.eqb_refl. done.
Qed.

(** What a close does to the sessions. *)
Lemma journal_parts x st fin s : exists q, sv_map (fst (journal_close_session x st fin s)) = finish_flush x q (take_inos x (set_state x st (sv_map s))) /\
  sv_reconnect (fst (journal_close_session x st fin s)) = sv_reconnect s.
Proof. unfold journal_close_session. cbn. case_bool_decide; by eexists. Qed.

Lemma journal_view x st fin s (m' := sv_map (fst (journal_close_session x st fin s))) :
  (forall y, state_of m' y = if y =? x then st else state_of (sv_map s) y) /\ (forall y, importing m' y = importing (sv_map s) y) /\
  get_client_session_set m' = get_client_session_set (sv_map s).
Proof.
  destruct (journal_parts x st fin s) as (q & E & _). unfold m'. rewrite E. set (m1 := set_state x st (sv_map s)).
  assert (same_view m1 (finish_flush x q (take_inos x m1))) as Hv by (etrans; [apply take_same|apply flush_same]).
  destruct (set_state_rest x st (sv_map s)) as (R1 & _). split_and!.
  - intros y. rewrite (sw_state _ _ Hv). apply set_state_state.
  - intros y. rewrite (sw_importing _ _ Hv). apply R1.
  - rewrite session_set_flush, session_set_take. apply session_set_state.
Qed.

Lemma kill_reconnect x fin s s' es : kill_session x fin s = Ok (s', es) -> sv_reconnect s' = sv_reconnect s.
Proof.
  unfold kill_session. destruct (_ && _); [|destruct (_ || _); [by intros [= <- _]|done]]. intros [= E].
  destruct (journal_parts x KILLING fin s) as (q & _ & <-). by rewrite E.
Qed.

Lemma stale_sessions_ok n cutoff s : server_ok s -> (count_in (sv_map s) OPEN <= n)%nat ->
  exists s' es, stale_sessions n cutoff s = Some (s', es) /\ server_ok s' /\ rounds (sv_map s') = rounds (sv_map s).
Proof.
  revert s. induction n as [|n IH]; intros s Hs Hn; cbn [stale_sessions]; destruct (get_oldest_session (sv_map s) OPEN) as [x|] eqn:Eo.
  2, 4: by eexists _, _.
  - destruct (k_leb cutoff _); [by eexists _, _|]. destruct (oldest_state _ _ _ Eo) as [Hst Hx].
    assert (x ∈ filter (fun y => state_of (sv_map s) y = OPEN) (get_client_session_set (sv_map s))) as Hf by (by apply list_elem_of_filter).
    unfold count_in in Hn. destruct (filter _ _); [by apply elem_of_nil in Hf|cbn in Hn; lia].
  - destruct (k_leb cutoff _); [by eexists _, _|]. destruct (oldest_state _ _ _ Eo) as [Hst Hx].
    set (s1 := change x STALE s). unfold finish_flush_session. set (s2 := upd_map _ s1).
    assert (server_ok s2) as Hs2 by (apply ok_view; [apply change_ok; [done|congruence|set_solver]|apply flush_same]).
    assert (get_client_session_set (sv_map s2) = get_client_session_set (sv_map s)) as Es by (cbn; by rewrite session_set_flush, session_set_state).
    assert (count_in (sv_map s2) OPEN < count_in (sv_map s) OPEN)%nat as Hlt.
    { apply (count_leaves _ _ x OPEN STALE); [done| |done..]. intros y. cbn. rewrite (sw_state _ _ (flush_same _ _ _)). apply set_state_state. }
    destruct (IH s2 Hs2 ltac:(lia)) as (s' & es & -> & Hs' & Er). eexists _, _. split; [done|]. split; [done|]. rewrite Er. unfold rounds. by rewrite Es.
Qed.

Lemma autoclose_ok n cutoff s : server_ok s -> (count_in (sv_map s) STALE <= n)%nat ->
  exists s' es, autoclose_sessions n cutoff s = Some (Ok (s', es)) /\ server_ok s'.
Proof.
  revert s. induction n as [|n IH]; intros s Hs Hn; cbn [autoclose_sessions]; destruct (get_oldest_session (sv_map s) STALE) as [x|] eqn:Eo.
  2, 4: by eexists _, _.
  all: destruct (is_importing s x) eqn:Ei; [by eexists _, _|]; destruct (oldest_state _ _ _ Eo) as [Hst Hx].
  all: assert (is_in s x [STALE] = true) as -> by (apply in_state; rewrite Hst; by left); cbn [negb]; destruct (k_leb cutoff _); [by eexists _, _|].
  - assert (x ∈ filter (fun y => state_of (sv_map s) y = STALE) (get_client_session_set (sv_map s))) as Hf by (by apply list_elem_of_filter).
    unfold count_in in Hn. destruct (filter _ _); [by apply elem_of_nil in Hf|cbn in Hn; lia].
  - assert (kill_session x None s = Ok (journal_close_session x KILLING None s)) as Ek.
    { unfold kill_session. rewrite Ei. assert (is_in s x [OPENING; OPEN; STALE] = true) as -> by (apply in_state; rewrite Hst; set_solver). done. }
    destruct (kill_session_ok s x None Hs) as (s1 & es1 & E1 & Hs1). rewrite E1. rewrite Ek in E1. injection E1 as E1.
    destruct (journal_view x KILLING None s) as (V1 & _ & V3). rewrite E1 in V1, V3. cbn [fst] in *.
    assert (count_in (sv_map s1) STALE < count_in (sv_map s) STALE)%nat as Hlt by (by apply (count_leaves _ _ x STALE KILLING)).
    destruct (IH s1 Hs1 ltac:(lia)) as (s' & es & -> & Hs'). by eexists _, _.
Qed.

Lemma find_idle_ok n c1 c2 lag s : server_ok s -> (rounds (sv_map s) <= n)%nat ->
  exists s' es, find_idle_sessions n c1 c2 lag s = Some (Ok (s', es)) /\ server_ok s'.
Proof.
  intros Hs Hn. unfold find_idle_sessions. pose proof (count_rounds (sv_map s) OPEN).
  destruct (stale_sessions_ok n c1 s Hs ltac:(lia)) as (s1 & es1 & -> & Hs1 & Er). destruct (k_ltb c2 lag); [by eexists _, _|].
  pose proof (count_rounds (sv_map s1) STALE). destruct (autoclose_ok n c2 s1 Hs1 ltac:(lia)) as (s2 & es2 & -> & Hs2). by eexists _, _.
Qed.

(** ** Reconnecting clients and shutdown *)

Lemma ok_reconnect s g f : server_ok s -> (forall c, c ∈ g -> c ∈ sv_reconnect s \/ is_Some (get_session (sv_map s) c)) -> server_ok (upd_reconnect g f s).
Proof. intros [L V C N R] Hg. split; cbn; [done..|]. intros c Hc. destruct (Hg c Hc); auto. Qed.

Lemma kill_waited_ok cs s : server_ok s -> (forall c, c ∈ cs -> c ∈ sv_reconnect s) -> exists s' es, kill_waited cs s = Ok (s', es) /\ server_ok s'.
Proof.
  revert s. induction cs as [|c cs IH]; intros s Hs Hc; cbn [kill_waited]; [by exists s, []|].
  destruct (so_reconnect _ Hs c) as [x ->]; [apply Hc; by left|]. destruct (kill_session_ok s x None Hs) as (s1 & es1 & E1 & Hs1).
  rewrite E1. cbn [mbind res_bind]. pose proof (kill_reconnect _ _ _ _ _ E1) as Er.
  destruct (IH (upd_reconnect (sv_reconnect s1) (sv_failed s1 + 1) s1)) as (s' & es & E & Hs').
  - apply ok_reconnect; auto.
  - intros c' Hc'. cbn. rewrite Er. apply Hc. by right.
  - rewrite E. by eexists _, _.
Qed.

Lemma reconnect_tick_ok b s : server_ok s -> exists s' es, reconnect_tick b s = Ok (s', es) /\ server_ok s'.
Proof.
  intros Hs. unfold reconnect_tick. destruct (_ && _); [|by eexists _, _].
  destruct (kill_waited_ok (ordered_elems (sv_reconnect s)) s Hs) as (s1 & es & -> & Hs1); [intros c; apply elem_of_ordered_elems|].
  eexists _, _. split; [done|]. apply ok_reconnect; [done|set_solver].
Qed.

Lemma reconnect_clients_ok s : server_ok s -> server_ok (fst (reconnect_clients s)).
Proof. intros Hs. apply ok_reconnect; [done|]. intros c [Hc|Hc]%elem_of_union; [by left|right; by apply client_set_found]. Qed.

(** The realms a client names that are in the cache are realms. *)
Definition realms_ok (get_inode : Z -> option rc_inode) (l : list (Z * Z)) : Prop :=
  forall r i, r ∈ l -> get_inode (fst r) = Some i -> ri_purging i = true \/ ri_snaprealm i = true.
Lemma reconnect_realms_ok gi from l : realms_ok gi l -> exists es, reconnect_realms gi from l = Ok es.
Proof.
  induction l as [|r l IH]; intros Hl; cbn [reconnect_realms]; [by eexists|]. destruct IH as [es ->]; [intros r' i Hr; apply Hl; by right|].
  unfold reconnect_realm. destruct (gi (fst r)) as [i|] eqn:Ei; [|by eexists]. destruct (ri_purging i) eqn:Ep; [by eexists|].
  destruct (Hl r i ltac:(by left) Ei) as [?| ->]; [congruence|by eexists].
Qed.

Lemma handle_reconnect_ok gi r w x msg cap s : server_ok s -> realms_ok gi (rc_realms msg) ->
  exists s' cap' es, handle_client_reconnect is_readonly gi r w (Some x) msg cap s = Ok (s', cap', es) /\ server_ok s'.
Proof.
  intros Hs Hr. unfold handle_client_reconnect. destruct (negb r && w); [by eexists _, _, _|]. destruct (_ || is_readonly); [by eexists _, _, _|].
  destruct (reconnect_realms_ok gi (rc_from msg) _ Hr) as [es ->]. eexists _, _, _. split; [done|]. apply ok_reconnect; [done|set_solver].
Qed.

(** Closing all sessions is safe when none of them is being imported. *)
Lemma terminate_all_ok xs s : server_ok s -> (forall x, x ∈ xs -> is_importing s x = false) -> server_ok (fst (terminate_all xs s)).
Proof.
  revert s. induction xs as [|x xs IH]; intros s Hs Hi; cbn [terminate_all]; [done|].
  destruct (is_in s x [CLOSING; KILLING; CLOSED]) eqn:E.
  - specialize (IH s Hs). destruct (terminate_all xs s) as [s' es']. apply IH. intros y Hy. apply Hi. by right.
  - apply not_in_state in E. assert (state_of (sv_map s) x ∈ [OPENING; OPEN; STALE]) as Hst by (destruct (state_of (sv_map s) x); states).
    pose proof (journal_ok s x CLOSING None Hs Hst (Hi x ltac:(by left)) ltac:(states)) as Hj.
    destruct (journal_view x CLOSING None s) as (_ & V2 & _). destruct (journal_close_session x CLOSING None s) as [s1 es1]. cbn [fst] in *.
    specialize (IH s1 Hj). destruct (terminate_all xs s1) as [s' es']. apply IH. intros y Hy. unfold is_importing. rewrite V2. apply Hi. by right.
Qed.

(** The flag that is to say so is not set by it. *)
Lemma terminate_all_flag xs s : sv_terminating (fst (terminate_all xs s)) = sv_terminating s.
Proof.
  revert s. induction xs as [|x xs IH]; intros s; cbn [terminate_all]; [done|]. destruct (is_in s x _).
  - specialize (IH s). by destruct (terminate_all xs s).
  - destruct (journal_close_session x CLOSING None s) as [s1 es1] eqn:E. specialize (IH s1). destruct (terminate_all xs s1). cbn [fst] in *. rewrite IH.
    unfold journal_close_session in E. cbn in E. case_bool_decide; by injection E as <- _.
Qed.
Lemma terminating_never_set s : sv_terminating (fst (terminate_sessions s)) = sv_terminating s.
Proof.
  unfold terminate_sessions. pose proof (terminate_all_flag (get_client_session_set (sv_map s)) s) as E.
  by destruct (terminate_all (get_client_session_set (sv_map s)) s).
Qed.

Lemma flush_clients_ok cs s : server_ok s -> (forall c, c ∈ cs -> is_Some (get_session (sv_map s) c)) ->
  exists s' es, flush_client_sessions cs s = Ok (s', es) /\ server_ok s'.
Proof.
  revert s. induction cs as [|c cs IH]; intros s Hs Hc; cbn [flush_client_sessions]; [by eexists _, _|]. destruct (Hc c ltac:(by left)) as [x ->].
  destruct (_ && export_peer _ _); [|destruct (IH s Hs) as (s' & es & -> & Hs'); [intros c' ?; apply Hc; by right|by eexists _, _]].
  pose proof (wait_same x (sv_map s)) as Hv. destruct (wait_for_flush x (sv_map s)) as [m q]. cbn [fst] in Hv.
  destruct (IH (upd_map m s)) as (s' & es & E & Hs'); [by apply ok_view|intros c' ?; cbn; rewrite (sw_find _ _ Hv); apply Hc; by right|].
  rewrite E. by eexists _, _.
Qed.

Lemma recall_ok scaled mx xs s : server_ok s -> server_ok (fst (recall_all scaled mx xs s)).
Proof.
  revert s. induction xs as [|x xs IH]; intros s Hs; cbn [recall_all]; [done|]. destruct (_ && _).
  - set (s1 := upd_map _ s). assert (server_ok s1) as Hs1 by (apply ok_view; [done|apply recall_same]). specialize (IH s1 Hs1). by destruct (recall_all scaled mx xs s1).
  - specialize (IH s Hs). by destruct (recall_all scaled mx xs s).
Qed.

(** ** Operations *)

(** Connections appear; capabilities, leases, requests and times change as they like. *)
Record env_view (m m' : M) : Prop := {
  ev_state : forall x, state_of m' x = state_of m x;
  ev_seq : forall x, state_seq m' x = state_seq m x;
  ev_importing : forall x, importing m' x = importing m x;
  ev_find : forall c, get_session m' c = get_session m c;
  ev_connected : forall x, connected m x = true -> connected m' x = true
}.

Inductive sop :=
| OMessage (session : option Z) (m : session_request)
| OFlush (clients : list Z)
| OSafe                                           (* the next entry of the journal is safe *)
| OImport (cm : list Z)
| OKill (x : Z) (fin : option Z)
| OIdle (stale_cutoff close_cutoff laggy_until : T)
| OReconnectClients
| OReconnect (get_inode : Z -> option rc_inode) (is_reconnect want_reconnect : bool) (x : Z) (m : reconnect_msg) (last_cap_id : Z)
| OTick (timed_out : bool)
| OTerminate
| OTerminated                                     (* its wait is over *)
| ORecall (scaled : Z -> Z) (max_caps : Z)
| OInodes (inos : gset Z)                         (* another change of the table of inodes is journalled *)
| OEnv (m : M).

Definition run_sop (op : sop) s : res (server * list se_effect) :=
  match op with
  | OMessage session m => handle_client_session session m s
  | OFlush clients => flush_client_sessions clients s
  | OSafe => complete_next is_readonly s
  | OImport cm => open_imported cm s
  | OKill x fin => kill_session x fin s
  | OIdle c1 c2 lag => match find_idle_sessions (rounds (sv_map s)) c1 c2 lag s with Some r => r | None => Abort end
  | OReconnectClients => Ok (reconnect_clients s)
  | OReconnect gi r w x m cap => '(s, _, es) ← handle_client_reconnect is_readonly gi r w (Some x) m cap s; Ok (s, es)
  | OTick b => reconnect_tick b s
  | OTerminate => Ok (terminate_sessions s)
  | OTerminated => Ok (terminated_sessions_finish s, [])
  | ORecall scaled mx => Ok (recall_client_state scaled mx s)
  | OInodes inos => let i := project_release_ids inos (sv_inotable s) in Ok (submit (PInodes inos (ino_projected i)) (upd_inotable i s), [])
  | OEnv m => Ok (upd_map m s, [])
  end.

(** What the callers see to: a message comes from a client over its connection, whose session is the
    one of that client, asks for something that exists and acknowledges no push that was not sent;
    flushed clients have sessions; realms are realms; nothing is imported at shutdown. *)
Definition sop_ok s (op : sop) : Prop :=
  match op with
  | OMessage session m => sq_from_client m = true /\ sq_op m <> OTHER_OP /\
      match session with
      | Some x => (sq_op m = REQUEST_OPEN -> connected (sv_map s) x = true /\ own_session (sv_map s) x) /\
          (sq_op m = REQUEST_CLOSE -> sq_seq m <= push_seq (sv_map s) x)
      | None => True
      end
  | OFlush clients => forall c, c ∈ clients -> is_Some (get_session (sv_map s) c)
  | OImport cm => NoDup cm
  | OReconnect gi _ _ _ m _ => realms_ok gi (rc_realms m)
  | OTerminate => forall x, x ∈ get_client_session_set (sv_map s) -> is_importing s x = false
  | OEnv m => env_view (sv_map s) m
  | _ => True
  end.

Lemma handle_session_ok session m s : server_ok s -> sop_ok s (OMessage session m) -> exists s' es, handle_client_session session m s = Ok (s', es) /\ server_ok s'.
Proof.
  intros Hs (Hc & Hop & Hx). unfold handle_client_session. rewrite Hc. rewrite check_true by done.
  destruct session as [x|]; [|by eexists _, _]. destruct Hx as [Ho Hcl]. destruct (sq_op m).
  - destruct (Ho eq_refl). by apply open_session_ok.
  - pose proof (renew_session_ok s x (sq_seq m) Hs). destruct (renew_session x (sq_seq m) s) as [s' es]. by exists s', es.
  - apply close_session_ok; auto.
  - eexists _, _. split; [done|]. apply ok_view; [done|apply flush_same].
  - done.
Qed.

Lemma inodes_ok inos s : server_ok s -> let i := project_release_ids inos (sv_inotable s) in server_ok (submit (PInodes inos (ino_projected i)) (upd_inotable i s)).
Proof.
  intros [L V C N R]. destruct (project_counts inos (sv_inotable s)) as [P1 P2]. pose proof (chain_le _ _ _ C) as Hle. split; cbn; [| | |by rewrite P2|done].
  - by eapply log_append.
  - rewrite entries_app. change (entries [_]) with 0. lia.
  - rewrite P1, P2. match goal with |- ino_chain _ (_ ++ [?p]) _ => pose proof (chain_append _ _ _ p C) as Hch end. cbn in Hch. rewrite andb_false_r in Hch. by apply Hch.
Qed.

Lemma env_ok m s : server_ok s -> env_view (sv_map s) m -> server_ok (upd_map m s).
Proof.
  intros [L V C N R] [E1 E2 E3 E4 E5]. split; cbn; [|done..|].
  - eapply log_same; [|done]. by split.
  - intros c Hc. rewrite E4. by apply R.
Qed.

(** Every operation is done, and keeps the state well formed. *)
Lemma sop_done op s : server_ok s -> sop_ok s op -> exists s' es, run_sop op s = Ok (s', es) /\ server_ok s'.
Proof.
  intros Hs Hop. destruct op; cbn [run_sop].
  - by apply handle_session_ok.
  - by apply flush_clients_ok.
  - destruct (complete_next_ok is_readonly s Hs) as (s' & es & -> & Hs' & _). by exists s', es.
  - by apply open_imported_ok.
  - by apply kill_session_ok.
  - destruct (find_idle_ok (rounds (sv_map s)) stale_cutoff close_cutoff laggy_until s Hs ltac:(lia)) as (s' & es & -> & Hs'). by exists s', es.
  - eexists _, _. split; [done|]. by apply reconnect_clients_ok.
  - destruct (handle_reconnect_ok get_inode is_reconnect want_reconnect x m last_cap_id s Hs Hop) as (s' & cap & es & -> & Hs'). by exists s', es.
  - by apply reconnect_tick_ok.
  - pose proof (terminate_all_ok _ s Hs Hop) as Ht. unfold terminate_sessions. destruct (terminate_all _ s) as [s' es]. by eexists _, _.
  - eexists _, _. split; [done|]. by destruct Hs.
  - pose proof (recall_ok scaled max_caps (get_client_session_set (sv_map s)) s Hs) as Hr. unfold recall_client_state.
    destruct (recall_all _ _ _ s) as [s' es]. by exists s', es.
  - eexists _, _. split; [done|]. by apply inodes_ok.
  - eexists _, _. split; [done|]. by apply env_ok.
Qed.

(** ** From the start *)

(** Nothing is journalled, and no session is between two states. *)
Record started s : Prop := {
  st_log : sv_log s = [];
  st_version : sv_version s = sv_projected s;
  st_inos : 0 <= ino_version (sv_inotable s) /\ ino_version (sv_inotable s) = ino_projected (sv_inotable s);
  st_states : forall x, state_of (sv_map s) x ∉ [OPENING; CLOSING];
  st_reconnect : sv_reconnect s = ∅
}.

Inductive reach (s0 : server) : server -> Prop :=
| reach_start : reach s0 s0
| reach_step s op s' es : reach s0 s -> sop_ok s op -> run_sop op s = Ok (s', es) -> reach s0 s'.

Lemma started_ok s : started s -> server_ok s.
Proof.
  intros [El Ev [Hn Hi] Hst Er]. split; rewrite ?El, ?Er; [split| | | |].
  - by intros p ?%elem_of_nil.
  - by intros c ?%elem_of_nil.
  - by intros [] cm sq l2 c x ?.
  - intros x _ E. specialize (Hst x). rewrite E in Hst. states.
  - intros x _ E. specialize (Hst x). rewrite E in Hst. states.
  - change (entries []) with 0. lia.
  - done.
  - done.
  - set_solver.
Qed.

Lemma reach_ok s0 s : started s0 -> reach s0 s -> server_ok s.
Proof. intros Hst0. induction 1 as [|s op s' es _ IH Hop E]; [by apply started_ok|]. destruct (sop_done op s IH Hop) as (s2 & es2 & E2 & Hs2). congruence. Qed.

(** The journal is flushed: [n] entries are safe. *)
Fixpoint drain (n : nat) s : res server :=
  match n with O => Ok s | S n => '(s, _) ← run_sop OSafe s; drain n s end.

Lemma drain_ok n s : server_ok s -> n = length (sv_log s) -> exists s', drain n s = Ok s' /\ server_ok s' /\ sv_log s' = [].
Proof.
  revert s. induction n as [|n IH]; intros s Hs Hn; cbn [drain run_sop].
  - exists s. split; [done|]. split; [done|]. by destruct (sv_log s).
  - destruct (complete_next_ok is_readonly s Hs) as (s1 & es & -> & Hs1 & El). cbn [mbind res_bind]. apply IH; [done|]. rewrite El. destruct (sv_log s); cbn in *; [done|lia].
Qed.

Lemma quiet_states s : server_ok s -> sv_log s = [] -> sv_version s = sv_projected s /\ ino_version (sv_inotable s) = ino_projected (sv_inotable s) /\
  forall x, state_of (sv_map s) x ∉ [OPENING; CLOSING].
Proof.
  intros [L V C N R] El. rewrite El in *. split; [change (entries []) with 0 in V; lia|]. split; [done|]. intros x [Hx|Hx%list_elem_of_singleton]%elem_of_cons.
  - destruct (lo_opening _ _ _ L x ltac:(done) Hx) as (p & ?%elem_of_nil & _). done.
  - destruct (lo_closing _ _ _ L x ltac:(done) Hx) as (p & ?%elem_of_nil & _). done.
Qed.

(** C9: From its start, through operations the callers ask for in any order with the completions of
    the journal: no assert of the session handlers fails and no loop of theirs goes on for ever;
    every client whose session was forced open for an import still waiting for the journal has a
    session that is opening, open or stale and counted as importing; and when the journal has been
    flushed, the version of the session map is the projected one, that of the table of inodes too,
    and no session is left opening or closing.  What the callers see to ([sop_ok]): a message is from a
    client, names one of the four requests, comes over the connection of the session the map has for
    that client if it asks to open, and acknowledges no push that was not sent if it asks to close;
    flushed clients have sessions; an import names a client once; the realms a reconnecting client
    names are realms; and the daemon shuts down only while no session is being imported.  The last is
    not seen to by the code: [Witness.terminate_breaks_import] is a run that aborts without it. *)
Theorem sessions_safe s0 s : started s0 -> reach s0 s ->
  (forall op, sop_ok s op -> exists s' es, run_sop op s = Ok (s', es)) /\
  (forall cm sq c, PForced cm sq ∈ sv_log s -> c ∈ cm -> exists x, get_session (sv_map s) c = Some x /\ state_of (sv_map s) x ∈ [OPENING; OPEN; STALE] /\ is_importing s x = true) /\
  exists s', drain (length (sv_log s)) s = Ok s' /\ sv_log s' = [] /\ sv_version s' = sv_projected s' /\ ino_version (sv_inotable s') = ino_projected (sv_inotable s') /\
    forall x, state_of (sv_map s') x ∉ [OPENING; CLOSING].
Proof.
  intros Hst0 Hr. pose proof (reach_ok s0 s Hst0 Hr) as Hs. split; [|split].
  - intros op Hop. destruct (sop_done op s Hs Hop) as (s' & es & E & _). by exists s', es.
  - intros cm sq c Hp Hc. destruct (lo_found _ _ _ (so_log _ Hs) c (owing_in _ _ _ _ Hp Hc)) as (x & Hg & Hst & Ht). exists x. split; [done|]. split; [done|].
    pose proof (times_pos c _ (owing_in _ _ _ _ Hp Hc)). apply Z.ltb_lt. lia.
  - destruct (drain_ok (length (sv_log s)) s Hs eq_refl) as (s' & E & Hs' & El). exists s'. split; [done|]. split; [done|]. by apply quiet_states.
Qed.

End System.

(** ** A session map *)

Module Witness.

Record sess := mk_sess { se_state : session_state; se_seq : Z; se_importing : nat; se_push : Z; se_inos : gset Z }.
Definition no_sess : sess := mk_sess CLOSED 0 0 0 ∅.
(** the objects, the client of each, and the map proper *)
Record smap := mk_smap { sm_obj : gmap Z sess; sm_client : gmap Z Z; sm_find : gmap Z Z }.

Definition obj (m : smap) (x : Z) : sess := default no_sess (sm_obj m !! x).
Definition put_obj (x : Z) (e : sess) (m : smap) : smap := mk_smap (<[x := e]> (sm_obj m)) (sm_client m) (sm_find m).
Definition find (m : smap) (c : Z) : option Z :=
  match sm_find m !! c with Some x => if decide (sm_client m !! x = Some c) then Some x else None | None => None end.
Definition fresh_obj (m : smap) : Z := fresh (dom (sm_obj m) ∪ dom (sm_client m)).
Definition get_or_add (c : Z) (m : smap) : smap * Z :=
  match find m c with
  | Some x => (m, x)
  | None => let x := fresh_obj m in (mk_smap (sm_obj m) (<[x := c]> (sm_client m)) (<[c := x]> (sm_find m)), x)
  end.
Definition remove (x : Z) (m : smap) : smap := mk_smap (sm_obj m) (sm_client m) (filter (fun p => snd p <> x) (sm_find m)).

#[export] Instance smap_ops : SessionOps smap Z := {|
  state_of := fun m x => se_state (obj m x);
  state_seq := fun m x => se_seq (obj m x);
  importing := fun m x => Z.of_nat (se_importing (obj m x));
  client_of := fun m x => default (-1) (sm_client m !! x);
  connected := fun _ _ => true;
  export_peer := fun _ _ => true;
  push_seq := fun m x => se_push (obj m x);
  last_cap_renew := fun _ _ => 0;
  caps := fun _ _ => [];
  leases := fun _ _ => [];
  requests := fun _ _ => [];
  prealloc_inos := fun m x => se_inos (obj m x);
  pending_prealloc_inos := fun _ _ => ∅;
  get_session := find;
  get_client_set := fun m => filter (fun c => is_Some (find m c)) (dom (sm_find m));
  get_client_session_set := fun m => elements (dom (sm_client m));
  get_oldest_session := fun m st => head (filter (fun x => se_state (obj m x) = st) (elements (dom (sm_client m))));
  set_state := fun x st m => let e := obj m x in put_obj x (mk_sess st (se_seq e + 1) (se_importing e) (se_push e) (se_inos e)) m;
  add_session := fun x m => match sm_client m !! x with
    | Some c => mk_smap (sm_obj m) (sm_client m) (<[c := x]> (sm_find m))
    | None => mk_smap (sm_obj m) (<[x := -1]> (sm_client m)) (<[-1 := x]> (sm_find m)) end;
  remove_session := remove;
  get_or_add_session := get_or_add;
  touch_session := fun _ m => m;
  set_client_metadata := fun _ m => m;
  inc_importing := fun x m => let e := obj m x in put_obj x (mk_sess (se_state e) (se_seq e) (S (se_importing e)) (se_push e) (se_inos e)) m;
  dec_importing := fun x m => let e := obj m x in put_obj x (mk_sess (se_state e) (se_seq e) (pred (se_importing e)) (se_push e) (se_inos e)) m;
  session_clear := fun _ m => m;
  take_inos := fun x m => let e := obj m x in put_obj x (mk_sess (se_state e) (se_seq e) (se_importing e) (se_push e) ∅) m;
  remove_client_caps := fun _ m => m;
  wait_for_flush := fun x m => (m, se_push (obj m x));
  finish_flush := fun _ _ m => m;
  notify_recall_sent := fun _ _ m => m
|}.
#[export] Instance pair_inos : InoOps (Z * Z) := {|
  ino_version := fst;
  ino_projected := snd;
  project_release_ids := fun _ i => (fst i, snd i + 1);
  apply_release_ids := fun _ i => (fst i + 1, snd i)
|}.
#[export] Instance pair_laws : InoLaws (Z * Z).
Proof. by split. Qed.

Lemma obj_put x e m y : obj (put_obj x e m) y = if y =? x then e else obj m y.
Proof. unfold obj, put_obj. cbn. destruct (Z.eqb_spec y x) as [->|N]; [by rewrite lookup_insert_eq|by rewrite lookup_insert_ne]. Qed.

(** An object changes without the fields that are asked about. *)
Lemma put_field {V} (f : sess -> V) x e m y : f e = f (obj m x) -> f (obj (put_obj x e m) y) = f (obj m y).
Proof. intros E. rewrite obj_put. by destruct (Z.eqb_spec y x) as [->|]. Qed.

Lemma add_find x m c : find (@add_session _ _ smap_ops x m) c = if c =? default (-1) (sm_client m !! x) then Some x else find m c.
Proof.
  cbn. unfold find. destruct (sm_client m !! x) as [c'|] eqn:E; cbn.
  - destruct (Z.eqb_spec c c') as [->|N]; [|by rewrite lookup_insert_ne]. by rewrite lookup_insert_eq, decide_True.
  - destruct (Z.eqb_spec c (-1)) as [->|N]; [by rewrite lookup_insert_eq, decide_True by apply lookup_insert_eq|].
    rewrite lookup_insert_ne by done. destruct (sm_find m !! c) as [y|]; [|done]. destruct (decide (y = x)) as [->|Ny]; [|by rewrite lookup_insert_ne].
    rewrite lookup_insert_eq, E. rewrite !decide_False by congruence. done.
Qed.
Lemma add_client x m y : default (-1) (sm_client (@add_session _ _ smap_ops x m) !! y) = default (-1) (sm_client m !! y).
Proof.
  cbn. destruct (sm_client m !! x) as [c|] eqn:E; [done|]. cbn. destruct (decide (y = x)) as [->|N]; [by rewrite lookup_insert_eq, E|by rewrite lookup_insert_ne].
Qed.
Lemma add_obj x m : sm_obj (@add_session _ _ smap_ops x m) = sm_obj m.
Proof. cbn. by destruct (sm_client m !! x). Qed.

Lemma remove_find x m c : find (remove x m) c = if decide (find m c = Some x) then None else find m c.
Proof.
  unfold find, remove. cbn. destruct (sm_find m !! c) as [y|] eqn:E.
  - destruct (decide (y = x)) as [->|N].
    + rewrite map_lookup_filter_None_2 by (right; intros z Hz; cbn; rewrite E in Hz; injection Hz as <-; naive_solver).
      destruct (decide (sm_client m !! x = Some c)); [by rewrite decide_True|by rewrite decide_False].
    + rewrite (map_lookup_filter_Some_2 _ _ _ y) by done. destruct (decide _); [|by rewrite decide_False]. rewrite decide_False by congruence. done.
  - rewrite map_lookup_filter_None_2 by (by left). by rewrite decide_False.
Qed.

Lemma get_or_add_laws c m m' x : get_or_add c m = (m', x) -> find m' c = Some x /\ sm_obj m' = sm_obj m /\
  (forall c', c' <> c -> find m' c' = find m c') /\ (forall y, find m c = Some y -> y = x) /\ (find m c = None -> obj m x = no_sess).
Proof.
  unfold get_or_add. destruct (find m c) as [y|] eqn:E; intros [= <- <-]; [split_and!; (done || naive_solver)|].
  pose proof (is_fresh (dom (sm_obj m) ∪ dom (sm_client m) : gset Z)) as Hf. fold (fresh_obj m) in Hf. apply not_elem_of_union in Hf as [No Nc]. unfold find. cbn. split_and!; [|done| |done|].
  - rewrite lookup_insert_eq, decide_True; [done|]. by rewrite lookup_insert_eq.
  - intros c' Nc'. rewrite lookup_insert_ne by done. destruct (sm_find m !! c') as [y|]; [|done]. destruct (decide (y = fresh_obj m)) as [->|Ny]; [|by rewrite lookup_insert_ne].
    apply not_elem_of_dom in Nc. rewrite lookup_insert_eq, Nc. rewrite !decide_False by congruence. done.
  - intros _. unfold obj. apply not_elem_of_dom in No. by rewrite No.
Qed.

#[export] Instance smap_laws : SessionLaws smap Z.
Proof.
  split.
  - intros x st m y. cbn. rewrite obj_put. by destruct (y =? x).
  - intros x st m _. cbn. rewrite obj_put, Z.eqb_refl. cbn. lia.
  - intros x st m y N. cbn. rewrite obj_put. by destruct (Z.eqb_spec y x).
  - intros x st m. cbn. split_and!; [|done..]. intros y. by rewrite (put_field se_importing).
  - intros m c x. cbn. unfold find. destruct (sm_find m !! c) as [y|]; [|done]. destruct (decide _) as [E|]; [|done]. intros [= <-]. by rewrite E.
  - intros x m. split_and!; [intros y|intros y|intros y|done|apply add_find|apply add_client].
    all: change (state_of ?a y) with (se_state (obj a y)) || change (state_seq ?a y) with (se_seq (obj a y)) || change (importing ?a y) with (Z.of_nat (se_importing (obj a y))); unfold obj; by rewrite add_obj.
  - intros x m. split_and!; [done..|apply remove_find|done].
  - intros c m m' x E. destruct (get_or_add_laws c m m' x E) as (G1 & G2 & G3 & G4 & G5). cbn. unfold obj. rewrite G2. split_and!; [done..|].
    intros En. specialize (G5 En). unfold obj in G5. by rewrite G5.
  - intros m x. cbn. lia.
  - intros x m. cbn. split_and!; [intros y; by rewrite (put_field se_state)|intros y; by rewrite (put_field se_seq)| |done..].
    intros y. rewrite obj_put. destruct (Z.eqb_spec y x) as [->|]; cbn; lia.
  - intros x m. cbn. split_and!; [intros y; by rewrite (put_field se_state)|intros y; by rewrite (put_field se_seq)| |done..].
    intros Hp y. rewrite obj_put. destruct (Z.eqb_spec y x) as [->|]; cbn; lia.
  - done.
  - done.
  - done.
  - intros x m. split; cbn; [intros y; by rewrite (put_field se_state)|intros y; by rewrite (put_field se_seq)|intros y; by rewrite (put_field se_importing)|done..].
  - done.
  - done.
  - done.
  - done.
  - intros m c. cbn. by intros [? _]%elem_of_filter.
  - intros m st x. cbn. intros E%head_Some_elem_of. by apply list_elem_of_filter in E as [? ?].
  - done.
  - done.
  - done.
Qed.

(** A client that has connected, and nothing else. *)
Definition ex_start : @server smap (Z * Z) := mk_server (mk_smap {[1 := mk_sess CLOSED 0 0 3 {[100]}]} {[1 := 7]} ∅) 4 4 (5, 5) [] ∅ 0 false.
Definition ask (op : session_op) (seq : Z) : sop (M := smap) (T := Z) := OMessage (Some 1) (mk_sreq true op seq).

Fixpoint run_sops (ops : list (sop (M := smap) (T := Z))) (s : @server smap (Z * Z)) : res (@server smap (Z * Z)) :=
  match ops with [] => Ok s | op :: ops => '(s, _) ← run_sop false op s; run_sops ops s end.

(** It opens its session, asks for a close while its capabilities are imported, with those of
    another client, which is ignored, asks again after that and has its session forced open again. *)
Definition ex_ops : list (sop (M := smap) (T := Z)) :=
  [ask REQUEST_OPEN 0; OImport [7; 8]; ask REQUEST_CLOSE 3; OSafe; OSafe; ask REQUEST_CLOSE 3; OImport [7]].

Lemma run_reach ops s s' (P : list (sop (M := smap) (T := Z)) -> @server smap (Z * Z) -> Prop) s0 :
  (forall op ops s, P (op :: ops) s -> sop_ok s op /\ forall s' es, run_sop false op s = Ok (s', es) -> P ops s') ->
  P ops s -> reach false s0 s -> run_sops ops s = Ok s' -> reach false s0 s'.
Proof.
  intros HP. revert s. induction ops as [|op ops IH]; intros s Hp Hr; cbn [run_sops]; [by intros [= <-]|]. destruct (HP op ops s Hp) as [Hok Hn].
  destruct (run_sop false op s) as [[s1 es]|] eqn:E; [|done]. cbn [mbind res_bind]. apply IH; [by eapply Hn|]. by eapply reach_step.
Qed.

(** what the operations of the example need, decided *)
Definition ask_ok (op : sop (M := smap) (T := Z)) (s : @server smap (Z * Z)) : bool :=
  match op with
  | OMessage (Some x) (mk_sreq true REQUEST_OPEN _) => let m := sv_map s in bool_decide (get_session m (client_of m x) = None \/ get_session m (client_of m x) = Some x)
  | OMessage (Some x) (mk_sreq true REQUEST_CLOSE q) => q <=? push_seq (sv_map s) x
  | OImport cm => bool_decide (NoDup cm)
  | OSafe => true
  | _ => false
  end.
Fixpoint asks_ok (ops : list (sop (M := smap) (T := Z))) (s : @server smap (Z * Z)) : bool :=
  match ops with [] => true | op :: ops => ask_ok op s && match run_sop false op s with Ok (s, _) => asks_ok ops s | Abort => true end end.

Lemma ask_ok_sound op s : ask_ok op s = true -> sop_ok s op.
Proof.
  destruct op as [[x|] [[] [] q]| | |cm| | | | | | | | | |]; cbn; try done.
  - intros Hd%bool_decide_eq_true. by split_and!.
  - intros Hq. split_and!; [done..|]. intros _. lia.
  - by intros Hd%bool_decide_eq_true.
Qed.
Lemma asks_reach ops s s' s0 : asks_ok ops s = true -> reach false s0 s -> run_sops ops s = Ok s' -> reach false s0 s'.
Proof.
  apply (run_reach ops s s' (fun ops s => asks_ok ops s = true) s0). intros op ops' s1. cbn [asks_ok]. intros [E1%ask_ok_sound E2]%andb_true_iff.
  split; [done|]. intros s2 es E. by rewrite E in E2.
Qed.

Lemma ex_started : started ex_start.
Proof.
  split; [done..| |done]. intros x. cbn. unfold obj. cbn. destruct (decide (x = 1)) as [->|N]; [rewrite lookup_singleton_eq|rewrite lookup_singleton_ne by done]; cbn; set_solver.
Qed.

(** In the example two entries wait, the close that is no longer current and the forced open; after
    them both clients have open sessions. *)
Lemma sessions_safe_witness : exists s s', run_sops ex_ops ex_start = Ok s /\ length (sv_log s) = 2%nat /\ drain false 2 s = Ok s' /\
  map (fun c => state_of (sv_map s') <$> get_session (sv_map s') c) [7; 8] = [Some OPEN; Some OPEN] /\
  sv_version s' = sv_projected s' /\ sv_projected s' = 8 /\ ino_version (sv_inotable s') = 6 /\ forall x, state_of (sv_map s') x ∉ [OPENING; CLOSING].
Proof.
  destruct (run_sops ex_ops ex_start) as [s|] eqn:E; [|by vm_compute in E].
  assert (reach false ex_start s) as Hr by (apply (asks_reach ex_ops ex_start s ex_start); [by vm_compute|constructor|done]).
  destruct (sessions_safe false ex_start s ex_started Hr) as (_ & _ & s' & Ed & _ & Ev & _ & Hst).
  exists s, s'. vm_compute in E. injection E as <-. vm_compute in Ed. injection Ed as <-. split; [done|]. split; [done|]. split; [by vm_compute|].
  split; [by vm_compute|]. split; [done|]. split; [done|]. split; [done|]. exact Hst.
Defined.

(** The shutdown closes a session that is being imported: when the journal completes the import, its
    assert that the session is open fails. *)
Example terminate_breaks_import :
  run_sops [ask REQUEST_OPEN 0; OSafe; OImport [7]; OTerminate; OSafe] ex_start = Abort /\
  exists s, run_sops [ask REQUEST_OPEN 0; OSafe; OImport [7]; OKill 1 None; ask REQUEST_CLOSE 3; OSafe] ex_start = Ok s.
Proof. split; [by vm_compute|]. eexists. by vm_compute. Qed.

End Witness.
